(* ===== verification/_CoqProject ===== *)
-Q . S2P
Prelude.v
GoText.v
GoPath.v
Regexp.v
Csv.v
RingBuffer.v
SharingRoom.v
Sqlite.v
Http.v
CommandLog.v
Invitations.v
SharingService.v
SessionManager.v
RdpManager.v
LoginLimiter.v
BridgeClients.v
CliFilter.v
Brokers.v
TelnetIac.v
TelnetLogin.v
TelnetBridge.v
AccessValidate.v
GoNet.v
AccessDB.v
Secret.v
AuthPolicy.v
AuthStore.v
AuthTokens.v
AuthTotp.v
AuthInvariant.v
AuthLogin.v
AuthLoginProps.v
AuthChallenge.v
Middleware.v
AuthAdmin.v
AuthAdminProps.v
AccessGroups.v
AccessTargets.v
AccessRequests.v
Tftp.v
TftpControl.v
Credentials.v
TargetHandlers.v
TargetsBulk.v
SharingWorld.v
GroupHandlers.v
GoMatch.v
Webhooks.v
SharingInvites.v
SharingControl.v
SharingSync.v
FileTransferStore.v
FileTransfer.v
OidcLogin.v
Governor.v
Captures.v
GoTime.v
RecordingPaths.v
RecordingExports.v
Recordings.v
