(* ===== verification/Prelude.v ===== *)
(** * Vantyx: a verification development for the access gateway

    Vantyx (src/) is a bastion: users reach SSH, telnet, VNC and file-transfer
    targets through it, an access model decides who reaches what, terminal
    sessions can be shared with a single write token, and everything persistent
    is in one SQLite database. This library models the Go code that carries that
    logic and proves what makes it correct.

    ** Conventions

    - A Go function becomes a Rocq function with the same name where the name is
      free; a suffix or prefix says which type it belongs to where it is not.
      The clock, random values and the environment are arguments.
    - Errors are values ([result] here; HTTP responses in AccessRequests.v and
      SharingService.v). Early returns are written [guard c else e in k] and
      [let? x := e in k].
    - A mutex-protected method is one atomic step. Code that waits, or that
      works without the lock, is split into steps, so that the theorems about
      histories cover the interleavings.
    - Objects that Go shares by pointer (rooms, sessions, clients, jobs) live on
      an explicit heap and are referred to by their number.
    - Integers are [Z]; where Go's width matters the wrap-around is written out
      ([int64]). Times are nanoseconds since Go's zero time. Strings are byte
      sequences (GoText.v).
    - The iteration order of Go maps and of unordered queries is a parameter
      ([MapRange] here, [SetScan] in AccessDB.v).
    - Loops over byte strings carry fuel (runes, trimming, the telnet filter, the
      line tracker of CommandLog.v, the output filter of CliFilter.v, itoa); it is
      the length of the input, or the number of digits, and each has a lemma that
      this is enough: every step consumes a byte or more. The bulk lookup of
      AccessTargets.v has the number of ids as fuel, of which each query takes at
      least one. The matcher of Regexp.v bounds a repetition by the length of the
      text, because an iteration that consumes nothing ends it.

    ** The parts

    Foundations:
    - Prelude.v: results, machine integers, time, stable sorting, map iteration,
      the tactics.
    - GoText.v: packages strings, unicode and utf8. GoPath.v: packages path and
      filepath. GoTime.v: dates and their layouts, with the order of the texts.
      GoNet.v: addresses of package net. Regexp.v: package regexp, as a
      matcher with Go's order of preference. Csv.v: package encoding/csv, writer
      and reader, with the round trip; the reader's fuel is the length of the
      input, of which every record takes a byte ([ReadAll_total]).
    - Sqlite.v: database/sql: a store operation is a sequence of statements over
      the tables, any of which may fail; transactions; a small program logic
      ([hoare], [preserves]) and the tactic [preserve].
    - Secret.v (internal/secret): the encryption format; AES-GCM and SHA-256 are
      the class [Crypto], base64 is defined.
    - Http.v: the error responses of the handlers.

    Terminal sessions and sharing:
    - RingBuffer.v (internal/session/ringbuf.go): the replay buffer refines "the
      last n bytes written".
    - SessionManager.v (internal/session/manager.go): which sessions are found,
      what a timed-out stop leaves behind, idle detection.
    - SharingRoom.v (internal/sharing/registry.go): the room invariant, how the
      write token moves, kicked users.
    - Invitations.v (internal/sharing/invitations.go, sqlite_store.go): the
      conditional update that counts uses, and that no interleaving exceeds the
      cap.
    - SharingService.v (internal/sharing/service.go and the join handler of
      internal/httpapi): who gets into a room. It is proved against the class
      [InvitationStore], of which the SQLite store is an instance.
    - SharingWorld.v, SharingInvites.v, SharingControl.v, SharingSync.v
      (internal/httpapi, sharing*.go and the like): the handlers of shared
      sessions over the session managers, the rooms, the live bridges and the
      stores; the triple [reads] for their checks. Invitations, joining and
      attaching, kicks, the write token, and that the bridge follows the room
      through requests and attaching browsers.
    - RdpManager.v (internal/rdpvnc): the sessions, keys and child processes of
      RDP, with the goroutines that wait for a process.
    - BridgeClients.v (internal/sshproxy/bridge_detachable.go): attached clients;
      reading, testing and pushing what they send are separate steps; and that
      only the writer types, up to what was accepted before.
    - TelnetIac.v, TelnetLogin.v, TelnetBridge.v (internal/telnetproxy): the
      protocol filter over a chunked stream, login automation, the bridge, which
      reuses the client set of BridgeClients.v.
    - CommandLog.v (internal/httpapi/command_line_tracker.go, command_store.go):
      the typed commands reconstructed from input and echo, redacted, stored.
    - CliFilter.v (internal/sshd/cli_output_filter.go): what of a target's output
      reaches the terminal of a gateway user.
    - Brokers.v (internal/httpapi/sse.go): the event streams, as a step relation
      of brokers, channels and handlers.

    Accounts (internal/auth and its handlers in internal/httpapi):
    - AuthPolicy.v (passwords, locales, tags, digests), AuthStore.v (users and
      login sessions), AuthTokens.v (API tokens, OIDC identities), AuthTotp.v
      (the second factor), each over the account tables; AuthInvariant.v is their
      common invariant and the round trips.
    - AuthLogin.v with AuthLoginProps.v (the login handlers, their challenges and
      the rate limiter), AuthChallenge.v (guesses at a challenge by requests that
      overlap), AuthAdmin.v with AuthAdminProps.v (user administration
      and the last administrator), Middleware.v (what stands before every
      handler, API-token requests, forced password change).
    - OidcLogin.v (internal/httpapi/auth_oidc.go): signing in through an identity
      provider, over the accounts and the access groups of one database. The
      fuel of [Fields] is the number of bytes, of which each step takes one.

    Access:
    - LoginLimiter.v (internal/ratelimit): the rate limiter refines a sliding
      window over the whole history.
    - AccessValidate.v (internal/access, validators), AccessDB.v (schema with
      foreign keys and cascades, LIKE, pagination).
    - AccessGroups.v (internal/access/sqlite_store.go, group store): memberships,
      hierarchy, tags, and the access relation in both directions, specified by
      the inductive [can_access].
    - AccessTargets.v (the target store): credentials at rest, bulk lookup, and
      the referential integrity of both stores.
    - AccessRequests.v (internal/access/requests.go and its handlers): requests,
      decisions, approvals in two steps.
    - Credentials.v (the key and identity stores of internal/access and their
      handlers): the library of shared credentials, encrypted under their row and
      column, and the links from targets to it.
    - TargetHandlers.v (internal/httpapi/targets_handler.go): the administration
      of targets over these stores and the TFTP controller. The loop that looks
      for a free identifier has no bound in the code, so it takes fuel: a theorem
      shows that one attempt more than there are targets is enough while the
      statements work, another that no fuel is enough while the INSERT fails.
    - TargetsBulk.v (internal/httpapi/targets_bulk.go): export and import of
      targets as CSV or JSON, the dry run, and what a refused row leaves behind.
    - GroupHandlers.v (internal/httpapi/groups_handler.go and tags_handler.go):
      groups, members and tags over the access tables, and the tag picker.

    Notifications:
    - GoMatch.v ([path.Match] of the standard library) and Webhooks.v
      (internal/httpapi/webhooks.go): subscriptions, the bounded queue with its
      workers as interleaved steps, retries, the dialler, the configuration. The
      loop of a delivery takes the number of attempts left, which the code bounds
      by three.

    Recording:
    - Governor.v (internal/recording/governor.go): waiting for a slot while memory
      is short, as a machine that waits for the poll timer and for the channel of
      slots beside other goroutines; fifteen polls fill the thirty seconds.
    - Captures.v (internal/httpapi/video_recording.go): the screen recordings of
      RDP and VNC sessions as interleaved steps.
    - RecordingPaths.v (internal/recording/paths.go and the path checks of the
      handlers): which files are opened and removed, all of them below the
      configured directory.
    - RecordingExports.v (internal/httpapi/recording_export.go and the conversions
      of recordings.go): background exports; the jobs, their goroutines, each run
      of a tool with the files it leaves, and the requests as interleaved steps.
    - Recordings.v (internal/httpapi/recordings.go, recordings_delete_handler.go,
      time_range.go, retention.go): who lists, watches and deletes recordings, and
      what the retention policy purges, over the tables, exports and files.

    Files:
    - FileTransferStore.v, FileTransfer.v (internal/filetransfer): the history
      with its pagination and retention, the job objects and their persistence.
    - Tftp.v (internal/tftp/server.go): write windows, who may transfer and which
      files. TftpControl.v (internal/tftp/controller.go and the write-window
      handlers): when the server runs, who opens windows, what watchers see.

    ** What the theorems show

    Invariants over all histories (rooms and the bridges that follow them, sessions, recordings, requests, references
    of the database, account tables, administrators, TFTP windows and the server's
    reference count), refinements of simpler specifications (replay buffer, rate
    limiter, telnet filter, login automation, bulk lookup), independence of how a
    stream is cut into chunks (telnet filter, line tracker, output filter), the
    functional behaviour of the operations with their error branches, round trips
    (credentials, the credential library, API tokens, exported targets), bounds, termination (the output filter against any
    writer, the polls of the wait for a recording slot) and liveness (every message accepted by an event stream is delivered).

    Some theorems state defects the code has. Sharing and sessions: a kicked user
    burns an invitation at the terminal handler, a link is captured by its first
    consumer, a timed-out stop loses the next session of the same name, telnet
    viewers resize the shared terminal, a revocation misses a viewer who is just
    joining, a late grant, a queued attach or a resume through the gateway leaves the
    bridge with another writer than the room, resuming an unshared session mutes its
    owner, a kicked gateway client keeps typing what was queued, invitations to VNC and RDP sessions are not listed. Access: the access check stops at the first
    page, deleting a group destroys targets that were moved out of it, a denied
    request still grants when it races with an approval. Accounts: each correct
    password resets the counters that should bound guesses of the second factor,
    overlapping requests get more guesses than a challenge allows, a failing query skips the second factor, two demotions at the same time leave no
    administrator, a provider that sends a truth value as text signs nobody in, a
    sign-in takes over memberships added by hand and may demote the last
    administrator or move a link when a query fails. Targets: linking a target to another identity keeps the old
    secrets, creation never ends while the INSERT fails, pages over a hundred lose
    targets, deleting a key strands an identity that is created meanwhile, the dry
    run of an import accepts rows the import refuses, a cancelled import leaves a
    half-made target. Groups: the tag picker
    fails for everybody but administrators. Webhooks: malformed patterns are accepted and never match,
    concurrent updates leave database and dispatcher apart, a proxy hides the
    address from the check.
    Terminals: a cursor movement with a thirteen-digit number ends
    the gateway process, a double escape passes the output filter, some passwords
    are stored in the command log. Files: a cancelled transfer becomes completed
    again, a device can replace its directory by a file, a long window request
    closes the window, a silent import stops the TFTP server, start-up deletes
    targets an administrator registered. Recording: the limit on live captures
    counts only those that are starting, a cancelled export completes, deleting a
    recording leaves the file of an export that is ending, an unknown export is
    answered by an empty success, a search shows recordings after its end, a
    recordings directory behind a link serves nothing. Streams: a client whose channel is full
    loses the final state of a transfer.

    ** Not modelled

    Network and protocol libraries (SSH, VNC, RDP, SFTP, FTP), WebAuthn, what an
    identity provider answers, the web interface, logging, metrics and audit records, JSON
    rendering, server start-up: input and output around the modelled state. The
    processes that capture screens and convert recordings answer as parameters;
    the rewriting of finished videos (recording_remux.go) is not modelled. Also
    left out are the menus of the SSH gateway (internal/sshd, but for its output
    filter), host-key verification, the browser's file handlers, the terminal,
    VNC and RDP handlers that start a session, backups and the audit forwarder:
    dialogues with a peer or a service, on top of the stores modelled here; and
    the patched dependencies (patched_deps), which are third-party packages. The
    start and end of the bridges of a session are outside
    SharingSync.v: it speaks of the requests in between. *)

From Stdlib Require Export ZArith Lia.
From stdpp Require Export base tactics list gmap strings sorting relations option numbers fin_maps.

(** ** Results

    A Go function that returns [(v, err)] is modelled by [result]: either the
    value or the error, never both. *)
Inductive result (E A : Type) : Type :=
| Ok (a : A)
| Err (e : E).
Arguments Ok {E A} a.
Arguments Err {E A} e.

Definition is_ok {E A} (r : result E A) : bool :=
  match r with Ok _ => true | Err _ => false end.

Declare Scope go_scope.
Delimit Scope go_scope with go.

(** [let? x := e in k]: the [if err != nil { return err }] idiom. *)
Notation "'let?' x ':=' e 'in' k" :=
  (match e with Ok x => k | Err err => Err err end)
  (at level 10, x pattern, e at level 100, k at level 200) : go_scope.
(** [guard c else e in k]: an early error return. *)
Notation "'guard' c 'else' e 'in' k" :=
  (if c then k else Err e)
  (at level 10, c at level 100, e at level 100, k at level 200) : go_scope.
#[global] Open Scope go_scope.

#[export] Instance result_eq_dec {E A} `{EqDecision E, EqDecision A} : EqDecision (result E A).
Proof. solve_decision. Defined.

(** ** Machine integers *)
Definition two64 : Z := 2 ^ 64.
Definition int64 (z : Z) : Z := (z + 2 ^ 63) `mod` 2 ^ 64 - 2 ^ 63.
Definition maxInt64 : Z := 2 ^ 63 - 1.
Definition minInt64 : Z := - 2 ^ 63.
Definition in_int64 (z : Z) : Prop := (minInt64 <= z <= maxInt64)%Z.

Lemma int64_id z : in_int64 z -> int64 z = z.
Proof.
  unfold in_int64, int64, minInt64, maxInt64. intros H.
  rewrite Z.mod_small; lia.
Qed.

Lemma int64_range z : in_int64 (int64 z).
Proof.
  unfold in_int64, int64, minInt64, maxInt64.
  pose proof (Z.mod_pos_bound (z + 2 ^ 63) (2 ^ 64) ltac:(lia)). lia.
Qed.

(** ** Time

    [time.Time] is a number of nanoseconds since Go's zero time (year 1), so
    [t.IsZero()] is [t = 0]. [time.Duration] is an [int64] of nanoseconds, and
    [t.Sub(u)] saturates at its bounds, as the package documents. *)
Abbreviation time := Z (only parsing).
Abbreviation duration := Z (only parsing).
Definition zero_time : time := 0%Z.
Definition nanosecond : duration := 1%Z.
Definition millisecond : duration := (1000 * 1000)%Z.
Definition second : duration := (1000 * millisecond)%Z.
Definition minute : duration := (60 * second)%Z.
Definition hour : duration := (60 * minute)%Z.
Definition unix_to_internal : Z := 62135596800%Z.

Definition IsZero (t : time) : bool := (t =? zero_time)%Z.
Definition After (t u : time) : bool := (u <? t)%Z.
Definition Before (t u : time) : bool := (t <? u)%Z.
Definition Add (t : time) (d : duration) : time := (t + d)%Z.
Definition Sub (t u : time) : duration :=
  ((minInt64 `max` (t - u)) `min` maxInt64)%Z.
Definition time_Unix (sec : Z) : time := ((sec + unix_to_internal) * second)%Z.
Definition Unix (t : time) : Z := (t / second - unix_to_internal)%Z.

Lemma Unix_time_Unix s : Unix (time_Unix s) = s.
Proof.
  unfold Unix, time_Unix. rewrite Z.div_mul by (unfold second, millisecond; lia). lia.
Qed.

Lemma time_Unix_Unix_le t : (time_Unix (Unix t) <= t < time_Unix (Unix t) + second)%Z.
Proof.
  unfold Unix, time_Unix.
  pose proof (Z_div_mod_eq_full t second).
  pose proof (Z.mod_pos_bound t second ltac:(unfold second, millisecond; lia)).
  unfold unix_to_internal. nia.
Qed.

(** ** Proof automation *)

(** Splits every [match]/[if]/[decide] of the goal or of hypothesis [H] and
    discards the impossible branches. *)
Ltac go_cases :=
  repeat (case_match || case_decide); simplify_eq/=; try done.
(** Inverts a call that is known to have succeeded (or failed with a known
    error) without touching the other hypotheses. *)
Ltac inv_ok H :=
  repeat match type of H with
         | (match ?e with _ => _ end) = _ => destruct e eqn:?; try discriminate H
         | (if ?e then _ else _) = _ => destruct e eqn:?; try discriminate H
         end;
  simplify_eq/=.

(** Decidable equations: [~ (a <> b)] is [a = b]. *)
Ltac stable_eq :=
  repeat match goal with H : ~ (?a <> ?b) |- _ => apply dec_stable in H end; simplify_eq/=.

Create HintDb vantyx.
#[export] Hint Resolve int64_range : vantyx.

(** ** Lists *)
Section last_n.
Context {A : Type}.
Implicit Types l p : list A.

(** The last [n] elements of [l] (all of it when it is shorter). *)
Definition last_n (n : nat) (l : list A) : list A := drop (length l - n) l.

Lemma last_n_length n l : length (last_n n l) = min n (length l).
Proof. unfold last_n. rewrite length_drop. lia. Qed.

Lemma last_n_all n l : length l <= n -> last_n n l = l.
Proof. intros. unfold last_n. replace (length l - n) with 0 by lia. done. Qed.

Lemma last_n_app n l p : length p <= n -> last_n n (l ++ p) = last_n (n - length p) l ++ p.
Proof.
  intros. unfold last_n. rewrite length_app.
  rewrite drop_app_le by lia. f_equal. f_equal. lia.
Qed.

Lemma last_n_suffix n l p : n <= length p -> last_n n (l ++ p) = last_n n p.
Proof.
  intros. unfold last_n. rewrite length_app.
  rewrite drop_app_ge by lia. f_equal. lia.
Qed.

Lemma last_n_last_n n l p : last_n n (last_n n l ++ p) = last_n n (l ++ p).
Proof.
  destruct (decide (length p <= n)).
  - rewrite !last_n_app by done. f_equal.
    unfold last_n. rewrite drop_drop, length_drop. f_equal. lia.
  - rewrite !last_n_suffix by lia. done.
Qed.
End last_n.

(** ** Sorting

    Go's [sort.SliceStable] with a comparison [less]. A stable sort is
    determined by its input, so any stable algorithm is a model of it. *)
Section stable_sort.
Context {A : Type} (less : A -> A -> bool).

Fixpoint sort_insert (x : A) (l : list A) : list A :=
  match l with
  | [] => [x]
  | y :: l' => if less y x then y :: sort_insert x l' else x :: l
  end.
Definition sort_stable (l : list A) : list A := foldr sort_insert [] l.

Lemma sort_insert_perm x l : sort_insert x l ≡ₚ x :: l.
Proof.
  induction l as [|y l IH]; simpl; [done|].
  destruct (less y x); [|done]. rewrite IH. apply Permutation_swap.
Qed.
Lemma sort_stable_perm l : sort_stable l ≡ₚ l.
Proof. induction l as [|x l IH]; simpl; [done|]. by rewrite sort_insert_perm, IH. Qed.
Lemma elem_of_sort_stable x l : x ∈ sort_stable l <-> x ∈ l.
Proof. by rewrite sort_stable_perm. Qed.

(** [b] may follow [a]: it is not less than it. *)
Definition not_after (a b : A) : Prop := less b a = false.
Hypothesis less_asym : forall a b, less a b = true -> less b a = false.
Hypothesis less_neg_trans : forall a b c, not_after a b -> not_after b c -> not_after a c.

Lemma sort_insert_sorted x l :
  StronglySorted not_after l -> StronglySorted not_after (sort_insert x l).
Proof using less_asym less_neg_trans.
  induction 1 as [|y l Hl IH Hy]; simpl; [repeat constructor|].
  destruct (less y x) eqn:E.
  - constructor; [done|]. rewrite sort_insert_perm. constructor; [|done].
    by apply less_asym.
  - constructor; [by constructor|]. constructor; [done|].
    eapply Forall_impl; [done|]. intros z Hz. by apply less_neg_trans with y.
Qed.
Lemma sort_stable_sorted l : StronglySorted not_after (sort_stable l).
Proof using less_asym less_neg_trans.
  induction l; simpl; [constructor|]. by apply sort_insert_sorted.
Qed.
End stable_sort.

(** ** Maps

    [for k, v := range m] visits the entries of a Go map in an unspecified
    order: a parameter, constrained to visit each entry once. *)
Class MapRange := {
  range : forall {A}, gmap string A -> list (string * A);
  range_perm : forall A (m : gmap string A), range m ≡ₚ map_to_list m
}.
#[export] Program Instance map_to_list_range : MapRange := {| range A m := map_to_list m |}.
Next Obligation. done. Qed.

Lemma elem_of_range `{MapRange} {A} (m : gmap string A) k v :
  (k, v) ∈ range m <-> m !! k = Some v.
Proof. by rewrite range_perm, elem_of_map_to_list. Qed.

(** Byte-wise order on identifiers ([sort.Strings], and SQLite's BINARY
    collation). *)
Definition string_lt (a b : string) : bool := bool_decide (~ String.le b a).
Lemma string_lt_asym a b : string_lt a b = true -> string_lt b a = false.
Proof.
  unfold string_lt. rewrite bool_decide_eq_true, bool_decide_eq_false.
  intros H H'. apply H'. by destruct (total String.le a b).
Qed.
Lemma string_not_after a b : not_after string_lt a b <-> String.le a b.
Proof.
  unfold not_after, string_lt. rewrite bool_decide_eq_false.
  split; [apply dec_stable|auto].
Qed.
Lemma string_neg_trans a b c :
  not_after string_lt a b -> not_after string_lt b c -> not_after string_lt a c.
Proof. rewrite !string_not_after. apply transitivity. Qed.
Lemma string_lt_irrefl a : string_lt a a = false.
Proof. unfold string_lt. rewrite bool_decide_eq_false. intros H. by apply H. Qed.
Lemma string_lt_trans a b c : string_lt a b = true -> string_lt b c = true -> string_lt a c = true.
Proof.
  unfold string_lt. rewrite !bool_decide_eq_true. intros H1 H2 H3.
  apply H1. transitivity c; [|done]. by destruct (total String.le b c).
Qed.

(** [sort.Strings] *)
Definition sort_strings (l : list string) : list string := sort_stable string_lt l.
Lemma sort_strings_perm l : sort_strings l ≡ₚ l.
Proof. apply sort_stable_perm. Qed.
Lemma sort_strings_sorted l : StronglySorted String.le (sort_strings l).
Proof.
  pose proof (sort_stable_sorted string_lt string_lt_asym string_neg_trans l) as Hs.
  fold (sort_strings l) in Hs. induction Hs as [|a l' ? IH HF]; constructor; [done|].
  eapply Forall_impl; [done|]. intros x. apply string_not_after.
Qed.
(** Sorting removes the dependence on the iteration order. *)
Lemma sort_strings_proper l1 l2 : l1 ≡ₚ l2 -> sort_strings l1 = sort_strings l2.
Proof.
  intros HP. apply (StronglySorted_unique String.le); try apply sort_strings_sorted.
  by rewrite !sort_strings_perm.
Qed.
#[export] Instance sort_strings_Proper : Proper ((≡ₚ) ==> (=)) sort_strings.
Proof. intros l1 l2. apply sort_strings_proper. Qed.

(** Updating one entry of a map. *)
Lemma alter_lookup_Some `{FinMap K M} {A} (f : A -> A) (m : M A) i x :
  m !! i = Some x -> alter f i m = <[i := f x]> m.
Proof.
  intros Hi. apply map_eq. intros j. destruct (decide (i = j)) as [->|].
  - by rewrite lookup_alter_eq, lookup_insert_eq, Hi.
  - by rewrite lookup_alter_ne, lookup_insert_ne.
Qed.
Lemma alter_lookup_None `{FinMap K M} {A} (f : A -> A) (m : M A) i :
  m !! i = None -> alter f i m = m.
Proof. intros Hi. apply alter_id. intros x. congruence. Qed.

(** Sortedness of a part, and for a weaker order. *)
Lemma StronglySorted_filter {A} (R : relation A) (P : A -> Prop) `{forall x, Decision (P x)} l :
  StronglySorted R l -> StronglySorted R (filter P l).
Proof.
  induction 1 as [|a l Hs IH Hf]; [constructor|]. rewrite filter_cons. case_decide; [|done].
  constructor; [done|]. rewrite Forall_forall in *. intros x [_ Hx]%list_elem_of_filter. auto.
Qed.
Lemma StronglySorted_weaken {A} (R R' : relation A) l :
  (forall a b, R a b -> R' a b) -> StronglySorted R l -> StronglySorted R' l.
Proof. intros HR. induction 1; constructor; [done|]. eapply Forall_impl; eauto. Qed.
Lemma StronglySorted_take {A} (R : relation A) n l :
  StronglySorted R l -> StronglySorted R (take n l).
Proof. intros H. rewrite <- (take_drop n l) in H. by eapply StronglySorted_app_1_l. Qed.
