(* ===== verification/GoText.v ===== *)
(** Go strings: byte sequences, UTF-8 decoding, and the functions of packages
    [strings], [bytes], [unicode] and [unicode/utf8] the gateway uses.

    A Go [string] or [[]byte] is a list of bytes ([Z] between 0 and 255);
    identifiers that are only compared and used as map keys are Stdlib
    [string]s, whose characters are bytes as well ([bs] and [str_of] convert).
    The generated tables of package [unicode] are the [UnicodeTables] interface:
    their ASCII part, which is what the claims rely on, is stated as laws. *)
From Stdlib Require Strings.Ascii Strings.String.
From S2P Require Import Prelude.
From stdpp Require Import pretty.
Local Open Scope Z_scope.

Definition bs (s : string) : list Z := (fun a => Z.of_N (Stdlib.Strings.Ascii.N_of_ascii a)) <$> Stdlib.Strings.String.list_ascii_of_string s.
Definition str_of (l : list Z) : string := Stdlib.Strings.String.string_of_list_ascii ((fun b => Stdlib.Strings.Ascii.ascii_of_N (Z.to_N b)) <$> l).
Arguments bs s%_string.

Lemma str_of_bs s : str_of (bs s) = s.
Proof.
  unfold str_of, bs.
  rewrite <- (Stdlib.Strings.String.string_of_list_ascii_of_string s) at 2. f_equal.
  induction (Stdlib.Strings.String.list_ascii_of_string s) as [|a l IH]; simpl; [done|].
  f_equal; [|done]. by rewrite N2Z.id, Stdlib.Strings.Ascii.ascii_N_embedding.
Qed.
#[export] Instance bs_inj : Inj (=) (=) bs.
Proof. intros s1 s2 H. by rewrite <- (str_of_bs s1), H, str_of_bs. Qed.

(** ** Substrings *)
Section substrings.
Implicit Types l p sub : list Z.

Definition has_prefix l p : bool := bool_decide (take (length p) l = p).
Definition has_suffix l p : bool := bool_decide (drop (length l - length p) l = p).

(** [strings.Contains] *)
Fixpoint contains l sub : bool :=
  has_prefix l sub || match l with [] => false | _ :: l' => contains l' sub end.

(** [strings.LastIndex]: [None] is Go's -1. *)
Fixpoint last_index l sub : option nat :=
  match l with
  | [] => if has_prefix [] sub then Some 0%nat else None
  | _ :: l' =>
      match last_index l' sub with
      | Some i => Some (S i)
      | None => if has_prefix l sub then Some 0%nat else None
      end
  end.

Fixpoint index_byte l (c : Z) : option nat :=
  match l with
  | [] => None
  | b :: l' => if b =? c then Some 0%nat else S <$> index_byte l' c
  end.

(** [strings.Split(l, sep)] for a one-byte separator. *)
Fixpoint split_byte l (sep : Z) : list (list Z) :=
  match l with
  | [] => [[]]
  | b :: l' =>
      if b =? sep then [] :: split_byte l' sep
      else match split_byte l' sep with
           | [] => [[b]]
           | w :: ws => (b :: w) :: ws
           end
  end.

Lemma has_prefix_spec l p : has_prefix l p = true <-> p `prefix_of` l.
Proof.
  unfold has_prefix. rewrite bool_decide_eq_true. split.
  - intros H. rewrite <- H. apply prefix_take.
  - intros [k ->]. by rewrite take_app_length.
Qed.
Lemma has_suffix_spec l p : has_suffix l p = true <-> p `suffix_of` l.
Proof.
  unfold has_suffix. rewrite bool_decide_eq_true. split.
  - intros H. rewrite <- H. apply suffix_drop.
  - intros [k ->]. rewrite length_app, Nat.add_sub. apply drop_app_length.
Qed.
Lemma contains_spec l sub : contains l sub = true <-> exists k1 k2, l = k1 ++ sub ++ k2.
Proof.
  induction l as [|b l IH]; cbn [contains].
  - rewrite orb_false_r, has_prefix_spec. split.
    + intros [k Hk]. by exists [], k.
    + intros (k1 & k2 & H). symmetry in H. apply app_eq_nil in H as [_ H].
      apply app_eq_nil in H as [-> _]. apply prefix_nil.
  - rewrite orb_true_iff, has_prefix_spec, IH. split.
    + intros [[k Hk]|(k1 & k2 & ->)]; [by exists [], k|by exists (b :: k1), k2].
    + intros ([|b' k1] & k2 & H); simplify_eq/=.
      * left. rewrite H. by apply prefix_app_r.
      * right. by exists k1, k2.
Qed.
Lemma split_byte_nonempty l sep : split_byte l sep <> [].
Proof. destruct l; simpl; repeat case_match; done. Qed.
(** Splitting and joining back is the identity, and no piece holds the separator. *)
Definition join_byte (ws : list (list Z)) (sep : Z) : list Z :=
  match ws with [] => [] | w :: ws => w ++ concat ((fun v => sep :: v) <$> ws) end.
Lemma join_split l sep : join_byte (split_byte l sep) sep = l.
Proof.
  induction l as [|b l IH]; simpl; [done|].
  pose proof (split_byte_nonempty l sep).
  destruct (Z.eqb_spec b sep) as [->|]; destruct (split_byte l sep) eqn:E; simpl in *; try done.
  - f_equal. exact IH.
  - f_equal. exact IH.
Qed.
Lemma split_byte_no_sep l sep w : w ∈ split_byte l sep -> sep ∉ w.
Proof.
  revert w. induction l as [|b l IH]; simpl; intros w Hw.
  { apply list_elem_of_singleton in Hw as ->. apply not_elem_of_nil. }
  destruct (Z.eqb_spec b sep) as [->|Hne].
  { apply elem_of_cons in Hw as [->|]; [apply not_elem_of_nil|auto]. }
  destruct (split_byte l sep) as [|v vs] eqn:E; [by apply split_byte_nonempty in E|].
  apply elem_of_cons in Hw as [->|Hw]; [|apply IH; by right].
  apply not_elem_of_cons. split; [done|]. apply IH. by left.
Qed.
Lemma split_byte_none l c : c ∉ l -> split_byte l c = [l].
Proof.
  induction l as [|x l IH]; intros H; simpl; [done|]. apply not_elem_of_cons in H as [Hx Hl].
  replace (x =? c) with false by (symmetry; apply Z.eqb_neq; congruence). by rewrite IH.
Qed.
Lemma split_byte_app_sep l1 l2 c : split_byte (l1 ++ c :: l2) c = split_byte l1 c ++ split_byte l2 c.
Proof.
  induction l1 as [|x l1 IH]; simpl; [by rewrite Z.eqb_refl|].
  destruct (x =? c); [by rewrite IH|]. rewrite IH. destruct (split_byte l1 c) eqn:E; [|done].
  by apply split_byte_nonempty in E.
Qed.
Lemma join_byte_cons w v ws sep : join_byte (w :: v :: ws) sep = w ++ sep :: join_byte (v :: ws) sep.
Proof. done. Qed.
(** Pieces without the separator are read back. *)
Lemma split_join ws sep : ws <> [] -> Forall (fun w => sep ∉ w) ws -> split_byte (join_byte ws sep) sep = ws.
Proof.
  intros Hne H. induction H as [|w ws Hw Hws IH]; [done|].
  destruct ws as [|v ws].
  - simpl. rewrite app_nil_r. by apply split_byte_none.
  - by rewrite join_byte_cons, split_byte_app_sep, split_byte_none, IH.
Qed.
End substrings.

(** ** UTF-8 *)
Definition RuneError : Z := 0xFFFD.
Definition in_range (b lo hi : Z) : bool := (lo <=? b) && (b <=? hi).
Definition cont (b : Z) : bool := in_range b 0x80 0xBF.

(** [utf8.DecodeRune]: the rune and its width; an invalid encoding is
    [RuneError] of width 1. *)
Definition decode_rune (l : list Z) : Z * nat :=
  match l with
  | [] => (RuneError, 0%nat)
  | b0 :: l =>
      let bad := (RuneError, 1%nat) in
      if b0 <? 0x80 then (b0, 1%nat)
      else if in_range b0 0xC2 0xDF then
        match l with
        | b1 :: _ => if cont b1 then (Z.lor (Z.shiftl (Z.land b0 0x1F) 6) (Z.land b1 0x3F), 2%nat) else bad
        | _ => bad
        end
      else if in_range b0 0xE0 0xEF then
        let lo := if b0 =? 0xE0 then 0xA0 else 0x80 in
        let hi := if b0 =? 0xED then 0x9F else 0xBF in
        match l with
        | b1 :: b2 :: _ =>
            if in_range b1 lo hi && cont b2 then
              (Z.lor (Z.lor (Z.shiftl (Z.land b0 0x0F) 12) (Z.shiftl (Z.land b1 0x3F) 6)) (Z.land b2 0x3F), 3%nat)
            else bad
        | _ => bad
        end
      else if in_range b0 0xF0 0xF4 then
        let lo := if b0 =? 0xF0 then 0x90 else 0x80 in
        let hi := if b0 =? 0xF4 then 0x8F else 0xBF in
        match l with
        | b1 :: b2 :: b3 :: _ =>
            if in_range b1 lo hi && cont b2 && cont b3 then
              (Z.lor (Z.lor (Z.shiftl (Z.land b0 0x07) 18) (Z.shiftl (Z.land b1 0x3F) 12))
                     (Z.lor (Z.shiftl (Z.land b2 0x3F) 6) (Z.land b3 0x3F)), 4%nat)
            else bad
        | _ => bad
        end
      else bad
  end.

(** [utf8.AppendRune]. *)
Definition encode_rune (r : Z) : list Z :=
  if (0 <=? r) && (r <? 0x80) then [r]
  else if in_range r 0x80 0x7FF then [Z.lor 0xC0 (Z.shiftr r 6); Z.lor 0x80 (Z.land r 0x3F)]
  else if in_range r 0x10000 0x10FFFF then
    [Z.lor 0xF0 (Z.shiftr r 18); Z.lor 0x80 (Z.land (Z.shiftr r 12) 0x3F);
     Z.lor 0x80 (Z.land (Z.shiftr r 6) 0x3F); Z.lor 0x80 (Z.land r 0x3F)]
  else
    let r := if in_range r 0x800 0xD7FF || in_range r 0xE000 0xFFFF then r else RuneError in
    [Z.lor 0xE0 (Z.shiftr r 12); Z.lor 0x80 (Z.land (Z.shiftr r 6) 0x3F); Z.lor 0x80 (Z.land r 0x3F)].

(** [for _, r := range s]; the fuel is the number of bytes, and every rune
    takes at least one. *)
Fixpoint runes_fuel (n : nat) (l : list Z) : list Z :=
  match n, l with
  | S n, _ :: _ => let (r, w) := decode_rune l in r :: runes_fuel n (drop w l)
  | _, _ => []
  end.
Definition runes (l : list Z) : list Z := runes_fuel (length l) l.

Definition is_ascii (l : list Z) : bool := forallb (fun b => in_range b 0 0x7F) l.

Lemma runes_ascii l : is_ascii l = true -> runes l = l.
Proof.
  unfold runes. induction l as [|b l IH]; cbn; [done|].
  rewrite andb_true_iff. unfold in_range. rewrite andb_true_iff, !Z.leb_le.
  intros [[H1 H2] H]. destruct (Z.ltb_spec b 0x80); [|lia]. cbn.
  f_equal. rewrite drop_0. by apply IH.
Qed.

(** [utf8.DecodeLastRune]: back up to the start of a rune, at most four bytes. *)
Definition rune_start (b : Z) : bool := negb (Z.land b 0xC0 =? 0x80).
Fixpoint back_up (n : nat) (start lim : nat) (l : list Z) : nat :=
  match n with
  | O => start
  | S n =>
      match start with
      | O => 0%nat
      | S start' =>
          if decide (start' < lim)%nat then start'
          else match l !! start' with
               | Some b => if rune_start b then start' else back_up n start' lim l
               | None => start'
               end
      end
  end.
Definition decode_last_rune (l : list Z) : Z * nat :=
  match last l with
  | None => (RuneError, 0%nat)
  | Some b =>
      if b <? 0x80 then (b, 1%nat)
      else
        let e := length l in
        let start := back_up 4 (e - 1) (e - 4) l in
        let (r, size) := decode_rune (drop start l) in
        if decide (start + size = e)%nat then (r, size) else (RuneError, 1%nat)
  end.

(** ** [unicode] *)

(** [unicode.IsSpace] *)
Definition IsSpace (r : Z) : bool :=
  in_range r 0x09 0x0D || (r =? 0x20) || (r =? 0x85) || (r =? 0xA0) || (r =? 0x1680)
  || in_range r 0x2000 0x200A || (r =? 0x2028) || (r =? 0x2029) || (r =? 0x202F)
  || (r =? 0x205F) || (r =? 0x3000).
(** [unicode.IsControl]: all control characters are Latin-1. *)
Definition IsControl (r : Z) : bool := in_range r 0 0x1F || in_range r 0x7F 0x9F.

Definition ascii_upper (r : Z) : bool := in_range r 65 90.
Definition ascii_lower (r : Z) : bool := in_range r 97 122.
Definition ascii_digit (r : Z) : bool := in_range r 48 57.
Definition ascii_punct_or_symbol (r : Z) : bool :=
  in_range r 33 47 || in_range r 58 64 || in_range r 91 96 || in_range r 123 126.
Definition ascii_to_lower (r : Z) : Z := if ascii_upper r then r + 32 else r.
Definition ascii_to_upper (r : Z) : Z := if ascii_lower r then r - 32 else r.

(** The generated tables of package [unicode] and their ASCII part. *)
Class UnicodeTables := {
  uc_IsLetter : Z -> bool;
  uc_IsNumber : Z -> bool;
  uc_IsUpper : Z -> bool;
  uc_IsLower : Z -> bool;
  uc_IsDigit : Z -> bool;
  uc_IsPunct : Z -> bool;
  uc_IsSymbol : Z -> bool;
  uc_ToLower : Z -> Z;
  uc_ToUpper : Z -> Z;
  (** the least rune of the [unicode.SimpleFold] orbit *)
  uc_Fold : Z -> Z;
  uc_ascii_letter : forall r, in_range r 0 0x7F = true -> uc_IsLetter r = ascii_upper r || ascii_lower r;
  uc_ascii_number : forall r, in_range r 0 0x7F = true -> uc_IsNumber r = ascii_digit r;
  uc_ascii_upper : forall r, in_range r 0 0x7F = true -> uc_IsUpper r = ascii_upper r;
  uc_ascii_lower : forall r, in_range r 0 0x7F = true -> uc_IsLower r = ascii_lower r;
  uc_ascii_digit : forall r, in_range r 0 0x7F = true -> uc_IsDigit r = ascii_digit r;
  uc_ascii_special : forall r, in_range r 0 0x7F = true -> uc_IsPunct r || uc_IsSymbol r = ascii_punct_or_symbol r;
  uc_ascii_tolower : forall r, in_range r 0 0x7F = true -> uc_ToLower r = ascii_to_lower r;
  uc_ascii_toupper : forall r, in_range r 0 0x7F = true -> uc_ToUpper r = ascii_to_upper r;
  uc_ascii_fold : forall r, in_range r 0 0x7F = true -> uc_Fold r = if ascii_lower r then r - 32 else r
}.

(** Tables restricted to ASCII: the instance the concrete examples run on. *)
#[export] Program Instance ascii_tables : UnicodeTables := {|
  uc_IsLetter r := ascii_upper r || ascii_lower r;
  uc_IsNumber := ascii_digit;
  uc_IsUpper := ascii_upper;
  uc_IsLower := ascii_lower;
  uc_IsDigit := ascii_digit;
  uc_IsPunct := ascii_punct_or_symbol;
  uc_IsSymbol _ := false;
  uc_ToLower := ascii_to_lower;
  uc_ToUpper := ascii_to_upper;
  uc_Fold r := if ascii_lower r then r - 32 else r
|}.
Solve Obligations with (try done; intros; by rewrite orb_false_r).

(** ** [strings.TrimSpace], [strings.ToLower], [strings.EqualFold] *)
Fixpoint trim_left_fuel (n : nat) (f : Z -> bool) (l : list Z) : list Z :=
  match n, l with
  | S n, _ :: _ =>
      let (r, w) := decode_rune l in
      if f r then trim_left_fuel n f (drop w l) else l
  | _, _ => l
  end.
Fixpoint trim_right_fuel (n : nat) (f : Z -> bool) (l : list Z) : list Z :=
  match n, l with
  | S n, _ :: _ =>
      let (r, w) := decode_last_rune l in
      if f r then trim_right_fuel n f (take (length l - w) l) else l
  | _, _ => l
  end.
Definition TrimSpace (l : list Z) : list Z :=
  let l := trim_left_fuel (length l) IsSpace l in
  trim_right_fuel (length l) IsSpace l.
(** [strings.TrimLeft(l, "/")] and friends, for a one-byte cutset. *)
Fixpoint trim_left_byte (l : list Z) (c : Z) : list Z :=
  match l with b :: l' => if b =? c then trim_left_byte l' c else l | [] => [] end.
Definition trim_right_byte (l : list Z) (c : Z) : list Z := reverse (trim_left_byte (reverse l) c).

Section unicode.
Context `{UnicodeTables}.
Definition ToLower (l : list Z) : list Z :=
  if is_ascii l then ascii_to_lower <$> l
  else concat ((fun r => encode_rune (uc_ToLower r)) <$> runes l).
Definition ToUpper (l : list Z) : list Z :=
  if is_ascii l then ascii_to_upper <$> l
  else concat ((fun r => encode_rune (uc_ToUpper r)) <$> runes l).
Definition EqualFold (l1 l2 : list Z) : bool :=
  bool_decide (uc_Fold <$> runes l1 = uc_Fold <$> runes l2).
End unicode.

(** The same functions on the identifiers kept as [string]. *)
Definition TrimSpace_s (s : string) : string := str_of (TrimSpace (bs s)).
Definition ToLower_s `{UnicodeTables} (s : string) : string := str_of (ToLower (bs s)).
Definition ToUpper_s `{UnicodeTables} (s : string) : string := str_of (ToUpper (bs s)).
Definition EqualFold_s `{UnicodeTables} (s t : string) : bool := EqualFold (bs s) (bs t).

Lemma EqualFold_s_refl `{UnicodeTables} s : EqualFold_s s s = true.
Proof. unfold EqualFold_s, EqualFold. by apply bool_decide_eq_true. Qed.

Example trim_ex : TrimSpace_s "  a b	
 "%string = "a b"%string.
Proof. vm_compute. reflexivity. Qed.
Example trim_nbsp : TrimSpace [0xC2; 0xA0; 97; 0xE3; 0x80; 0x80] = [97].
Proof. vm_compute. reflexivity. Qed.
Example trim_invalid : TrimSpace [32; 0x80; 97; 0xA0; 32] = [0x80; 97; 0xA0].
Proof. vm_compute. reflexivity. Qed.

(** ** [strconv] *)

(** The value of a run of decimal digits; [None] when another byte occurs. *)
Fixpoint digits_acc (acc : Z) (l : list Z) : option Z :=
  match l with
  | [] => Some acc
  | b :: l => if ascii_digit b then digits_acc (acc * 10 + (b - 48)) l else None
  end.
(** [strconv.Atoi]: an optional sign and digits, within an [int64]. *)
Definition Atoi (l : list Z) : option Z :=
  let '(neg, ds) := match l with
                    | 43 :: ds => (false, ds) | 45 :: ds => (true, ds) | _ => (false, l) end in
  match ds with
  | [] => None
  | _ => v ← digits_acc 0 ds;
         let v := if neg : bool then - v else v in
         if decide (minInt64 <= v <= maxInt64) then Some v else None
  end.
Definition Atoi_s (s : string) : option Z := Atoi (bs s).

Lemma digits_acc_nonneg acc l v : 0 <= acc -> digits_acc acc l = Some v -> 0 <= v.
Proof.
  revert acc. induction l as [|b l IH]; intros acc Ha; simpl; [naive_solver|].
  destruct (ascii_digit b) eqn:Hb; [|done]. apply IH.
  unfold ascii_digit, in_range in Hb. lia.
Qed.
Example atoi_ex : Atoi_s "-042" = Some (-42) /\ Atoi_s "9223372036854775808" = None /\ Atoi_s "+" = None.
Proof. vm_compute. done. Qed.

(** Text whose first and last bytes are ASCII graphic is already trimmed. *)
Definition graphic (b : Z) : Prop := 33 <= b <= 126.
Lemma graphic_not_space b : graphic b -> IsSpace b = false.
Proof. unfold graphic, IsSpace, in_range. intros. repeat (apply orb_false_iff; split); lia. Qed.
Lemma trim_left_graphic n l a : head l = Some a -> graphic a -> trim_left_fuel n IsSpace l = l.
Proof.
  intros Hh Ha. destruct n as [|n]; [done|]. destruct l as [|b l]; [done|]. injection Hh as ->.
  cbn [trim_left_fuel decode_rune]. unfold graphic in Ha. destruct (Z.ltb_spec a 0x80); [|lia].
  by rewrite graphic_not_space.
Qed.
Lemma decode_last_ascii l b : last l = Some b -> b < 0x80 -> decode_last_rune l = (b, 1%nat).
Proof. intros Hl Hb. unfold decode_last_rune. rewrite Hl. destruct (Z.ltb_spec b 0x80); [done|lia]. Qed.
Lemma trim_right_graphic n l a : last l = Some a -> graphic a -> trim_right_fuel n IsSpace l = l.
Proof.
  intros Hh Ha. destruct n as [|n]; [done|]. destruct l as [|b l]; [done|].
  unfold graphic in Ha. cbn [trim_right_fuel]. rewrite (decode_last_ascii _ a) by (done || lia).
  by rewrite graphic_not_space.
Qed.
Definition edges (l : list Z) : Prop :=
  exists a b, head l = Some a /\ last l = Some b /\ graphic a /\ graphic b.
Lemma TrimSpace_edges l : edges l -> TrimSpace l = l.
Proof.
  intros (a & b & Ha & Hb & ? & ?). unfold TrimSpace.
  by rewrite (trim_left_graphic _ l a), (trim_right_graphic _ l b).
Qed.
Lemma edges_nonempty l : edges l -> l <> [].
Proof. intros (a & b & Ha & _) ->. done. Qed.
(** A trailing blank goes. *)
Lemma TrimSpace_blank l : edges l -> TrimSpace (l ++ [32]) = l.
Proof.
  intros (a & b & Ha & Hb & ? & ?). unfold TrimSpace.
  rewrite (trim_left_graphic _ (l ++ [32]) a); [|by destruct l|done].
  rewrite length_app. cbn [length]. rewrite Nat.add_1_r.
  destruct l as [|x l]; [done|]. cbn [app trim_right_fuel].
  change (x :: l ++ [32]) with ((x :: l) ++ [32]).
  rewrite (decode_last_ascii _ 32); [|by rewrite last_snoc|lia]. cbn [IsSpace].
  change (IsSpace 32) with true. rewrite length_app, Nat.add_sub, take_app_length. by apply (trim_right_graphic _ _ b).
Qed.

(** The last occurrence of [l2] in [l1 ++ l2] is at the end. *)
Lemma last_index_short l sub : (length l < length sub)%nat -> last_index l sub = None.
Proof.
  assert (Hp : forall l', (length l' < length sub)%nat -> has_prefix l' sub = false).
  { intros l' Hl. apply not_true_is_false. intros [k ->]%has_prefix_spec. rewrite length_app in Hl. lia. }
  induction l as [|b l IH]; cbn; intros Hl; rewrite Hp by done; [done|]. by rewrite IH by lia.
Qed.
Lemma last_index_app l1 l2 : last_index (l1 ++ l2) l2 = Some (length l1).
Proof.
  assert (Hp : has_prefix l2 l2 = true) by by apply has_prefix_spec.
  induction l1 as [|b l1 IH]; cbn [app last_index]; [|by rewrite IH].
  destruct l2 as [|c l2]; cbn [last_index]; [by rewrite Hp|].
  rewrite last_index_short by (simpl; lia). by rewrite Hp.
Qed.
Lemma edges_graphic l : Forall graphic l -> l <> [] -> edges l.
Proof.
  intros H Hne. rewrite Forall_forall in H. destruct l as [|a l]; [done|].
  destruct (last (a :: l)) as [b|] eqn:Hb; [|by apply last_None in Hb].
  exists a, b. split_and!; [done|done|apply H; left|]. apply H. by apply last_Some_elem_of.
Qed.
Lemma is_ascii_bounds l : Forall (fun b => 0 <= b <= 127) l -> is_ascii l = true.
Proof.
  intros H. unfold is_ascii. rewrite forallb_forall. intros b Hb%list_elem_of_In.
  rewrite Forall_forall in H. specialize (H b Hb). unfold in_range. lia.
Qed.

(** ** Trimming twice is trimming once *)
Lemma decode_rune_take k l : (0 < k)%nat -> decode_rune (take k l) = decode_rune l \/ (decode_rune (take k l)).1 = RuneError.
Proof.
  intros Hk. destruct k as [|k]; [lia|]. destruct l as [|b0 l]; [by left|]. simpl.
  destruct (b0 <? 0x80); [by left|].
  destruct (in_range b0 0xC2 0xDF).
  { destruct l as [|b1 l]; [rewrite take_nil; by left|]. destruct k as [|k]; [by right|]. by left. }
  destruct (in_range b0 0xE0 0xEF).
  { destruct l as [|b1 [|b2 l]]; [rewrite take_nil; by left| |].
    - destruct k as [|k]; [by right|]. simpl. rewrite take_nil. by left.
    - destruct k as [|[|k]]; [by right..|]. by left. }
  destruct (in_range b0 0xF0 0xF4); [|by left].
  destruct l as [|b1 [|b2 [|b3 l]]].
  - rewrite take_nil; by left.
  - destruct k as [|k]; [by right|]. simpl. rewrite take_nil. by left.
  - destruct k as [|[|k]]; [by right..|]. simpl. rewrite take_nil. by left.
  - destruct k as [|[|[|k]]]; [by right..|]. by left.
Qed.
Lemma decode_rune_size l : l <> [] -> (1 <= (decode_rune l).2)%nat.
Proof. intros Hl. destruct l as [|b0 l]; [done|]. unfold decode_rune. repeat (case_match; simpl; try lia). Qed.
Lemma back_up_le n s lim l : (back_up n s lim l <= s)%nat.
Proof.
  revert s. induction n as [|n IH]; intros s; simpl; [lia|]. destruct s as [|s]; [lia|].
  case_decide; [lia|]. destruct (l !! s) as [b|]; [|lia]. destruct (rune_start b); [lia|]. specialize (IH s). lia.
Qed.
Lemma decode_last_size l : l <> [] -> (1 <= (decode_last_rune l).2)%nat.
Proof.
  intros Hl. unfold decode_last_rune. destruct (last l) as [b|] eqn:El; [|by apply last_None in El].
  destruct (b <? 0x80); [simpl; lia|]. pose proof (back_up_le 4 (length l - 1) (length l - 4) l) as Hb.
  set (start := back_up 4 _ _ l) in *.
  assert (Hd : drop start l <> []).
  { intros E. apply (f_equal length) in E. rewrite length_drop in E. destruct l; [done|]. simpl in *. lia. }
  apply decode_rune_size in Hd. destruct (decode_rune _) as [r size]. simpl in Hd. case_decide; simpl; lia.
Qed.
(** What trimming leaves neither begins nor ends with a matching rune. *)
Lemma trim_left_head n f l : (length l <= n)%nat -> trim_left_fuel n f l = [] \/ f (decode_rune (trim_left_fuel n f l)).1 = false.
Proof.
  revert l. induction n as [|n IH]; intros l Hn; simpl; [destruct l; [by left|simpl in Hn; lia]|].
  destruct l as [|b l]; [by left|]. pose proof (decode_rune_size (b :: l) ltac:(done)) as Hs.
  destruct (decode_rune (b :: l)) as [r w] eqn:Ed. destruct (f r) eqn:Ef; [|right; by rewrite Ed].
  apply IH. simpl in Hs. rewrite length_drop. simpl in *. lia.
Qed.
Lemma trim_right_last n f l : (length l <= n)%nat ->
  (exists k, trim_right_fuel n f l = take k l) /\ (trim_right_fuel n f l = [] \/ f (decode_last_rune (trim_right_fuel n f l)).1 = false).
Proof.
  revert l. induction n as [|n IH]; intros l Hn; simpl.
  { destruct l; [|simpl in Hn; lia]. split; [by exists 0%nat|by left]. }
  destruct l as [|b l]; [split; [by exists 0%nat|by left]|]. pose proof (decode_last_size (b :: l) ltac:(done)) as Hs.
  destruct (decode_last_rune (b :: l)) as [r w] eqn:Ed. destruct (f r) eqn:Ef.
  - destruct (IH (take (length (b :: l) - w) (b :: l))) as [[k Hk] Hl]; [simpl in Hs; rewrite length_take; simpl in *; lia|].
    split; [|exact Hl]. exists (k `min` (length (b :: l) - w))%nat. by rewrite Hk, take_take.
  - split; [exists (length (b :: l)); by rewrite take_ge|right; by rewrite Ed].
Qed.
Lemma trim_left_stop n f l : l = [] \/ f (decode_rune l).1 = false -> trim_left_fuel n f l = l.
Proof. intros Hl. destruct n as [|n]; [done|]. destruct l as [|b l]; [done|]. destruct Hl as [|Hl]; [done|]. cbn [trim_left_fuel]. destruct (decode_rune (b :: l)) as [r w]. simpl in Hl. by rewrite Hl. Qed.
Lemma trim_right_stop n f l : l = [] \/ f (decode_last_rune l).1 = false -> trim_right_fuel n f l = l.
Proof. intros Hl. destruct n as [|n]; [done|]. destruct l as [|b l]; [done|]. destruct Hl as [|Hl]; [done|]. cbn [trim_right_fuel]. destruct (decode_last_rune (b :: l)) as [r w]. simpl in Hl. by rewrite Hl. Qed.
Lemma TrimSpace_idem l : TrimSpace (TrimSpace l) = TrimSpace l.
Proof.
  unfold TrimSpace at 2 3. set (m := trim_left_fuel (length l) IsSpace l).
  pose proof (trim_left_head (length l) IsSpace l (le_n _)) as Hm. fold m in Hm.
  destruct (trim_right_last (length m) IsSpace m (le_n _)) as [[k Hk] Hlast].
  set (p := trim_right_fuel (length m) IsSpace m) in *. unfold TrimSpace.
  assert (Hp : p = [] \/ IsSpace (decode_rune p).1 = false).
  { destruct k as [|k]; [left; by rewrite Hk|]. destruct Hm as [Hm|Hm]; [left; by rewrite Hk, Hm|]. right. rewrite Hk.
    destruct (decode_rune_take (S k) m) as [->| ->]; [lia|done|done]. }
  rewrite (trim_left_stop _ _ _ Hp). by apply trim_right_stop.
Qed.
Lemma trim_left_drop n f l : exists j, trim_left_fuel n f l = drop j l.
Proof.
  revert l. induction n as [|n IH]; intros l; [by exists 0%nat|]. destruct l as [|b l]; [by exists 0%nat|]. cbn [trim_left_fuel].
  destruct (decode_rune (b :: l)) as [r w]. destruct (f r); [|by exists 0%nat].
  destruct (IH (drop w (b :: l))) as [j Hj]. exists (w + j)%nat. by rewrite Hj, drop_drop.
Qed.
Lemma TrimSpace_Forall (P : Z -> Prop) l : Forall P l -> Forall P (TrimSpace l).
Proof.
  intros Hl. unfold TrimSpace. destruct (trim_left_drop (length l) IsSpace l) as [j ->].
  destruct (trim_right_last (length (drop j l)) IsSpace (drop j l) (le_n _)) as [[k ->] _]. by apply Forall_take, Forall_drop.
Qed.

(** ** Decimal numbers: [strconv.Itoa] is stdpp's [pretty] *)
Lemma pretty_digit n : (n < 10)%N -> Z.of_N (Stdlib.Strings.Ascii.N_of_ascii (pretty_N_char n)) = 48 + Z.of_N n.
Proof.
  intros Hn. destruct n as [|p]; [reflexivity|]. do 4 (try destruct p as [p|p|]); try reflexivity; exfalso; lia.
Qed.
(** One step of the decimal representation. *)
Lemma pretty_step (x : N) (s : string) : (0 < x)%N -> exists d : Z, (x `div` 10 < x)%N /\ d = 48 + Z.of_N (x `mod` 10) /\ ascii_digit d= true /\ exists s', pretty_N_go x s = pretty_N_go (x `div` 10) s' /\ bs s' = d :: bs s.
Proof.
  intros Hx. assert (Hlt : (x `mod` 10 < 10)%N) by (apply N.mod_lt; done).
  exists (48 + Z.of_N (x `mod` 10)). split_and!; [apply N.div_lt; [lia|done]|done| |].
  { clear Hx. revert Hlt. generalize (x `mod` 10)%N. intros n Hn. unfold ascii_digit, in_range. apply andb_true_iff. rewrite !Z.leb_le. lia. }
  exists (String (pretty_N_char (x `mod` 10)) s). split; [by apply pretty_N_go_step|]. rewrite <- pretty_digit by done. done.
Qed.
Lemma digits_pretty_N x : forall s, digits_acc 0 (bs (pretty_N_go x s)) = digits_acc (Z.of_N x) (bs s).
Proof.
  induction (N.lt_wf_0 x) as [x _ IH]. intros s. destruct (decide (x = 0%N)) as [->|Hx]; [by rewrite pretty_N_go_0|].
  destruct (pretty_step x s) as (d & Hl & Hd & Ha & s' & -> & Hs); [lia|]. rewrite IH, Hs by done. simpl. rewrite Ha. f_equal.
  pose proof (N.div_mod x 10 ltac:(done)). lia.
Qed.
Lemma pretty_N_digits x : forall s, Forall (fun b => ascii_digit b = true) (bs s) -> Forall (fun b => ascii_digit b = true) (bs (pretty_N_go x s)).
Proof.
  induction (N.lt_wf_0 x) as [x _ IH]. intros s Hs. destruct (decide (x = 0%N)) as [->|Hx]; [by rewrite pretty_N_go_0|].
  destruct (pretty_step x s) as (d & Hl & Hd & Ha & s' & -> & Hs'); [lia|]. apply IH; [done|]. rewrite Hs'. by constructor.
Qed.
Lemma pretty_number n : 0 <= n -> bs (pretty n) <> [] /\ Forall (fun b => ascii_digit b = true) (bs (pretty n)) /\ digits_acc 0 (bs (pretty n)) = Some n.
Proof.
  intros Hn. destruct n as [|p|p]; [by split_and!; [|repeat constructor|]| |lia].
  change (pretty (Zpos p)) with (pretty_N_go (Npos p) "").
  assert (Hd : digits_acc 0 (bs (pretty_N_go (Npos p) "")) = Some (Zpos p)) by apply digits_pretty_N.
  split_and!; [|apply pretty_N_digits; constructor|exact Hd]. intros E. by rewrite E in Hd.
Qed.
Lemma Atoi_pretty n : 0 <= n <= maxInt64 -> Atoi (bs (pretty n)) = Some n.
Proof.
  intros Hn. destruct (pretty_number n) as (Hne & Hd & Hv); [lia|]. unfold Atoi. destruct (bs (pretty n)) as [|b l]; [done|].
  inversion_clear Hd as [|? ? Hb _]. unfold ascii_digit, in_range in Hb. apply andb_true_iff in Hb as [Hb%Z.leb_le _].
  assert (E : match b with 43 => (false, l) | 45 => (true, l) | _ => (false, b :: l) end = (false, b :: l)).
  { repeat case_match; first [done|lia]. }
  rewrite E, Hv. simpl. rewrite decide_True; [done|]. unfold minInt64, maxInt64 in *. lia.
Qed.
