(* ===== verification/GoPath.v ===== *)
(** Packages path and path/filepath (on Unix): [Clean], [Join], [Base], and
    what a lexically cleaned path guarantees. *)
From S2P Require Import Prelude GoText.
Local Open Scope Z_scope.

Definition sep : Z := 47.
Definition dot : list Z := [46].
Definition dotdot : list Z := [46; 46].

(** ** Clean

    One element at a time over the elements kept so far, the latest first:
    empty elements and [.] vanish, [..] removes the element before it, vanishes
    at the root and stays at the beginning of a relative path. *)
Definition clean_step (rooted : bool) (acc : list (list Z)) (c : list Z) : list (list Z) :=
  if bool_decide (c = []) || bool_decide (c = dot) then acc
  else if bool_decide (c = dotdot) then
    match acc with
    | a :: acc' => if bool_decide (a = dotdot) then c :: acc else acc'
    | [] => if rooted then [] else [c]
    end
  else c :: acc.
Definition clean_elems (rooted : bool) (cs : list (list Z)) : list (list Z) :=
  reverse (foldl (clean_step rooted) [] cs).
Definition is_rooted (p : list Z) : bool := has_prefix p [sep].
Definition render_path (rooted : bool) (cs : list (list Z)) : list Z :=
  if rooted then sep :: join_byte cs sep
  else if bool_decide (cs = []) then dot else join_byte cs sep.
Definition Clean (p : list Z) : list Z :=
  if bool_decide (p = []) then dot
  else render_path (is_rooted p) (clean_elems (is_rooted p) (split_byte p sep)).

(** [Join]: leading empty elements are ignored. *)
Fixpoint Join (elems : list (list Z)) : list Z :=
  match elems with
  | [] => []
  | e :: rest => if bool_decide (e = []) then Join rest else Clean (join_byte elems sep)
  end.

(** ** Elements *)

(** An ordinary name: no separator, and neither [.] nor [..]. *)
Definition normal (c : list Z) : Prop := c <> [] /\ c <> dot /\ c <> dotdot /\ sep ∉ c.
#[export] Instance normal_dec c : Decision (normal c) := _.

Lemma clean_step_normal rooted acc c : normal c -> clean_step rooted acc c = c :: acc.
Proof. intros (?&?&?&_). unfold clean_step. by rewrite !bool_decide_false by done. Qed.
Lemma foldl_clean_normal rooted acc cs :
  Forall normal cs -> foldl (clean_step rooted) acc cs = reverse cs ++ acc.
Proof.
  intros H. revert acc. induction H as [|c cs Hc _ IH]; intros acc; simpl; [done|].
  by rewrite clean_step_normal, IH, reverse_cons, <- app_assoc.
Qed.
(** Cleaning below the root leaves ordinary names only. *)
Lemma foldl_clean_rooted acc cs :
  Forall normal acc -> Forall (fun c => sep ∉ c) cs -> Forall normal (foldl (clean_step true) acc cs).
Proof.
  intros Ha H. revert acc Ha. induction H as [|c cs Hc _ IH]; intros acc Ha; simpl; [done|].
  apply IH. unfold clean_step. destruct (_ || _) eqn:E; [done|].
  apply orb_false_iff in E as [E1%bool_decide_eq_false E2%bool_decide_eq_false].
  case_bool_decide as E3.
  - destruct acc as [|a acc]; [done|]. apply Forall_cons in Ha as [(_&_&Hn&_) Ha].
    by rewrite bool_decide_false by done.
  - constructor; [by repeat split|done].
Qed.
Lemma split_byte_seps l c : Forall (fun w => c ∉ w) (split_byte l c).
Proof. apply Forall_forall. apply split_byte_no_sep. Qed.
Lemma clean_elems_normal cs : Forall (fun c => sep ∉ c) cs -> Forall normal (clean_elems true cs).
Proof. intros H. unfold clean_elems. apply Forall_reverse. by apply foldl_clean_rooted. Qed.

(** ** Absolute paths

    An absolute clean path is [sep] and ordinary names. *)
Definition abs_path (cs : list (list Z)) : list Z := sep :: join_byte cs sep.

Lemma Clean_rooted p : is_rooted p = true -> exists cs, Forall normal cs /\ Clean p = abs_path cs.
Proof.
  intros H. unfold Clean. destruct p as [|x p]; [done|]. rewrite bool_decide_false by done. rewrite H.
  exists (clean_elems true (split_byte (x :: p) sep)). split; [|done].
  apply clean_elems_normal, split_byte_seps.
Qed.
Lemma is_rooted_cons p : is_rooted (sep :: p) = true.
Proof. apply bool_decide_eq_true. simpl. by rewrite take_0. Qed.
Lemma is_rooted_abs cs : is_rooted (abs_path cs) = true.
Proof. apply is_rooted_cons. Qed.
Lemma is_rooted_app p q : is_rooted p = true -> is_rooted (p ++ q) = true.
Proof.
  unfold is_rooted, has_prefix. rewrite !bool_decide_eq_true. simpl. destruct p as [|x p]; [done|].
  simpl. by rewrite !take_0.
Qed.

(** The elements of a path below an absolute clean directory. *)
Lemma clean_below cs rel :
  Forall normal cs ->
  clean_elems true (split_byte (abs_path cs ++ sep :: rel) sep) =
  reverse (foldl (clean_step true) (reverse cs) (split_byte rel sep)).
Proof.
  intros Hcs. unfold clean_elems. f_equal. rewrite split_byte_app_sep, foldl_app. f_equal.
  unfold abs_path. cbn [split_byte]. rewrite Z.eqb_refl. cbn [foldl].
  change (clean_step true [] []) with (@nil (list Z)).
  destruct cs as [|c cs]; [done|]. rewrite split_join; [|done|].
  - by rewrite foldl_clean_normal, app_nil_r.
  - eapply Forall_impl; [exact Hcs|]. by intros ? (_&_&_&?).
Qed.
Lemma Clean_below cs rel :
  Forall normal cs ->
  Clean (abs_path cs ++ sep :: rel) =
  abs_path (reverse (foldl (clean_step true) (reverse cs) (split_byte rel sep))).
Proof.
  intros Hcs. unfold Clean. rewrite bool_decide_false by done.
  rewrite (is_rooted_app _ _ (is_rooted_abs cs)). unfold render_path. by rewrite clean_below.
Qed.
(** Cleaning is idempotent on them. *)
Lemma Clean_abs cs : Forall normal cs -> Clean (abs_path cs) = abs_path cs.
Proof.
  intros Hcs. unfold Clean. rewrite bool_decide_false by done. rewrite is_rooted_abs.
  unfold render_path, clean_elems, abs_path. f_equal. cbn [split_byte]. rewrite Z.eqb_refl. cbn [foldl].
  change (clean_step true [] []) with (@nil (list Z)).
  destruct cs as [|c cs]; [done|]. rewrite split_join; [|done|].
  - by rewrite foldl_clean_normal, app_nil_r, reverse_involutive.
  - eapply Forall_impl; [exact Hcs|]. by intros ? (_&_&_&?).
Qed.
Lemma Join_below cs rel :
  Forall normal cs -> Join [abs_path cs; rel] =
  abs_path (reverse (foldl (clean_step true) (reverse cs) (split_byte rel sep))).
Proof.
  intros Hcs. cbn [Join]. rewrite bool_decide_false by done.
  change (join_byte [abs_path cs; rel] sep) with (abs_path cs ++ concat [sep :: rel]).
  simpl concat. rewrite app_nil_r. by apply Clean_below.
Qed.

(** A path that has the directory [cs] and a separator as a prefix is the
    directory's elements and at least one more. *)
Lemma join_byte_app cs ds : cs <> [] -> ds <> [] -> join_byte (cs ++ ds) sep = join_byte cs sep ++ sep :: join_byte ds sep.
Proof.
  intros Hc Hd. induction cs as [|c cs IH]; [done|]. destruct cs as [|c' cs].
  - destruct ds as [|d ds]; [done|]. simpl app. rewrite join_byte_cons. simpl. by rewrite app_nil_r.
  - change ((c :: c' :: cs) ++ ds) with (c :: c' :: cs ++ ds). rewrite !join_byte_cons, <- app_assoc. f_equal.
    change ((sep :: join_byte (c' :: cs) sep) ++ sep :: join_byte ds sep)
      with (sep :: (join_byte (c' :: cs) sep ++ sep :: join_byte ds sep)). f_equal. by apply IH.
Qed.
Lemma abs_prefix cs full :
  Forall normal cs -> Forall normal full -> cs <> [] ->
  has_prefix (abs_path full) (abs_path cs ++ [sep]) = true ->
  exists rest, full = cs ++ rest /\ rest <> [].
Proof.
  intros Hcs Hfull Hne H. apply has_prefix_spec in H as [k Hk].
  assert (Hsep : forall l, Forall normal l -> Forall (fun c => sep ∉ c) l).
  { intros l Hl. eapply Forall_impl; [exact Hl|]. by intros ? (_&_&_&?). }
  unfold abs_path in Hk. simpl in Hk. injection Hk as Hk. rewrite <- app_assoc in Hk. simpl in Hk.
  destruct full as [|f full]; [by destruct (join_byte cs sep)|].
  apply (f_equal (fun l => split_byte l sep)) in Hk.
  rewrite split_join, split_byte_app_sep, split_join in Hk by auto.
  exists (split_byte k sep). split; [done|apply split_byte_nonempty].
Qed.
Lemma abs_prefix_of cs rest :
  cs <> [] -> rest <> [] -> has_prefix (abs_path (cs ++ rest)) (abs_path cs ++ [sep]) = true.
Proof.
  intros Hc Hr. apply has_prefix_spec. unfold abs_path. rewrite join_byte_app by done.
  exists (join_byte rest sep). simpl. by rewrite <- app_assoc.
Qed.
Lemma abs_path_inj cs ds : Forall normal cs -> Forall normal ds -> abs_path cs = abs_path ds -> cs = ds.
Proof.
  intros Hc Hd H. unfold abs_path in H. injection H as H.
  assert (Hsep : forall l, Forall normal l -> Forall (fun c => sep ∉ c) l).
  { intros l Hl. eapply Forall_impl; [exact Hl|]. by intros ? (_&_&_&?). }
  destruct (decide (cs = [])) as [->|Hcs], (decide (ds = [])) as [->|Hds]; [done|..].
  - destruct ds as [|d [|? ?]]; [done|..]; exfalso; apply Forall_cons in Hd as [(?&_) _].
    + simpl in H. by destruct d.
    + simpl in H. by destruct d.
  - destruct cs as [|d [|? ?]]; [done|..]; exfalso; apply Forall_cons in Hc as [(?&_) _].
    + simpl in H. by destruct d.
    + simpl in H. by destruct d.
  - rewrite <- (split_join cs sep), <- (split_join ds sep) by auto. by rewrite H.
Qed.
