(* ===== verification/Regexp.v ===== *)
(** Package [regexp]: matching with the leftmost-first semantics of Go's engine,
    for the expressions the gateway compiles.

    A pattern is a value of [re]; [exec] is a backtracking matcher in
    continuation style, which finds what Go's engine finds: alternatives and
    repetitions in order of preference, at the leftmost position. Text is a list
    of glyphs, a rune with the bytes it was decoded from, so that an invalid
    byte matches as U+FFFD and is copied unchanged. *)
From S2P Require Import Prelude GoText.
Local Open Scope Z_scope.

Definition glyph : Type := Z * list Z.

(** Decoding; every glyph takes a byte, so the length is enough fuel. *)
Fixpoint glyphs_fuel (n : nat) (l : list Z) : list glyph :=
  match n, l with
  | S n, _ :: _ =>
      let (r, w) := decode_rune l in (r, take w l) :: glyphs_fuel n (drop w l)
  | _, _ => []
  end.
Definition glyphs (l : list Z) : list glyph := glyphs_fuel (length l) l.
Definition text (g : list glyph) : list Z := concat (snd <$> g).

Lemma text_app g1 g2 : text (g1 ++ g2) = text g1 ++ text g2.
Proof. unfold text. by rewrite fmap_app, concat_app. Qed.

(** ** Patterns *)
Inductive re : Type :=
| Nul                         (* the empty pattern *)
| Chr (p : Z -> bool)         (* a character class *)
| Bol                         (* ^ *)
| Eol                         (* $ *)
| NoWordBoundary              (* \B *)
| Cat (a b : re)
| Alt (a b : re)
| Star (a : re)               (* greedy *)
| Group (a : re).             (* the capturing group *)

Definition Plus (a : re) : re := Cat a (Star a).
Definition Opt (a : re) : re := Alt a Nul.
Definition Seq (l : list re) : re := foldr Cat Nul l.
Definition chr (c : Z) : re := Chr (fun r => r =? c).
Definition lit (s : string) : re := Seq (chr <$> bs s).
Arguments lit s%_string.

(** Classes: [\s] is ASCII white space without the vertical tab. *)
Definition re_space (r : Z) : bool := (r =? 9) || (r =? 10) || (r =? 12) || (r =? 13) || (r =? 32).
Definition space : re := Chr re_space.
Definition nonspace : re := Chr (fun r => negb (re_space r)).
Definition one_of (s : string) (r : Z) : bool := bool_decide (r ∈ bs s).
Arguments one_of s%_string.
(** Under [(?i)] a class is closed under simple folding: the case of the ASCII
    letters, the long s (U+017F) and the Kelvin sign (U+212A). *)
Definition fold_orbit (r : Z) : list Z :=
  if ascii_upper r then r :: (r + 32) :: (if r =? 83 then [0x17F] else if r =? 75 then [0x212A] else [])
  else if ascii_lower r then r :: (r - 32) :: (if r =? 115 then [0x17F] else if r =? 107 then [0x212A] else [])
  else if r =? 0x17F then [r; 83; 115] else if r =? 0x212A then [r; 75; 107] else [r].
Definition ci (p : Z -> bool) (r : Z) : bool := existsb p (fold_orbit r).
Definition lit_ci (s : string) : re := Seq ((fun c => Chr (ci (fun r => r =? c))) <$> bs s).
Arguments lit_ci s%_string.

(** ** Matching *)
Record mstate := mkM {
  m_prev : option Z;       (* the rune before the position *)
  m_rest : list glyph;     (* the text from the position on *)
  m_cap : list glyph       (* what the capturing group matched *)
}.
Definition is_word (o : option Z) : bool :=
  match o with Some r => ascii_upper r || ascii_lower r || ascii_digit r || (r =? 95) | None => false end.
Definition next_rune (s : mstate) : option Z := fst <$> head (m_rest s).

(** The repetition: another round as long as it consumes something. *)
Fixpoint star_loop (step : (mstate -> option mstate) -> mstate -> option mstate)
    (k : mstate -> option mstate) (n : nat) (s : mstate) : option mstate :=
  match n with
  | O => k s
  | S n =>
      match step (fun s' => if (length (m_rest s') <? length (m_rest s))%nat
                            then star_loop step k n s' else None) s with
      | Some s' => Some s'
      | None => k s
      end
  end.
Fixpoint exec (r : re) (k : mstate -> option mstate) (s : mstate) : option mstate :=
  match r with
  | Nul => k s
  | Chr p =>
      match m_rest s with
      | (c, b) :: rest => if p c then k (mkM (Some c) rest (m_cap s)) else None
      | [] => None
      end
  | Bol => match m_prev s with None => k s | Some _ => None end
  | Eol => match m_rest s with [] => k s | _ :: _ => None end
  | NoWordBoundary => if Bool.eqb (is_word (m_prev s)) (is_word (next_rune s)) then k s else None
  | Cat a b => exec a (exec b k) s
  | Alt a b => match exec a k s with Some s' => Some s' | None => exec b k s end
  | Star a => star_loop (exec a) k (S (length (m_rest s))) s
  | Group a =>
      exec a (fun s' => k (mkM (m_prev s') (m_rest s')
                             (take (length (m_rest s) - length (m_rest s')) (m_rest s)))) s
  end.

(** The leftmost match: what was skipped, and the state before and after. *)
Fixpoint find (r : re) (prev : option Z) (l : list glyph) : option (list glyph * mstate) :=
  match exec r Some (mkM prev l []) with
  | Some s => Some ([], s)
  | None =>
      match l with
      | [] => None
      | g :: l' => match find r (Some g.1) l' with
                   | Some (sk, s) => Some (g :: sk, s)
                   | None => None
                   end
      end
  end.
Definition MatchString (r : re) (l : list Z) : bool :=
  match find r None (glyphs l) with Some _ => true | None => false end.

(** [ReplaceAllString(l, "${1}" + repl)]. Each round consumes a glyph; an empty
    match, which none of the patterns has, would be stepped over. *)
Fixpoint replace_fuel (n : nat) (r : re) (repl : list Z) (prev : option Z) (l : list glyph) : list Z :=
  match n with
  | O => text l
  | S n =>
      match find r prev l with
      | None => text l
      | Some (sk, s) =>
          if (length (m_rest s) <? length l)%nat then
            text sk ++ text (m_cap s) ++ repl ++ replace_fuel n r repl (m_prev s) (m_rest s)
          else text l
      end
  end.
Definition ReplaceAllString (r : re) (repl l : list Z) : list Z :=
  replace_fuel (S (length l)) r repl None (glyphs l).

(** ** Glyphs and bytes *)
Lemma text_glyphs_fuel n l : (length l <= n)%nat -> text (glyphs_fuel n l) = l.
Proof.
  revert l. induction n as [|n IH]; intros l Hn; [by destruct l; simpl in *; [|lia]|].
  destruct l as [|b l]; [done|]. cbn [glyphs_fuel].
  destruct (decode_rune (b :: l)) as [r w] eqn:E.
  assert (1 <= w)%nat.
  { revert E. cbn. intros E. repeat case_match; simplify_eq; lia. }
  unfold text in *. cbn [fmap list_fmap snd concat]. rewrite IH.
  - apply take_drop.
  - rewrite length_drop. simpl in *. lia.
Qed.
Lemma text_glyphs l : text (glyphs l) = l.
Proof. by apply text_glyphs_fuel. Qed.

(** An ASCII byte is a glyph of its own. *)
Definition ascii_glyph (b : Z) : glyph := (b, [b]).
Lemma glyphs_ascii_app p l : is_ascii p = true -> glyphs (p ++ l) = (ascii_glyph <$> p) ++ glyphs l.
Proof.
  unfold glyphs. induction p as [|b p IH]; [done|]. cbn [is_ascii forallb]. unfold in_range.
  rewrite !andb_true_iff, !Z.leb_le. intros [[Hlo Hhi] Hp].
  cbn [app length glyphs_fuel decode_rune]. destruct (Z.ltb_spec b 0x80); [|lia].
  cbn. rewrite take_0, drop_0. unfold ascii_glyph at 1. f_equal. by apply IH.
Qed.
Lemma glyphs_ascii l : is_ascii l = true -> glyphs l = ascii_glyph <$> l.
Proof. intros H. by rewrite <- (app_nil_r l) at 1; rewrite glyphs_ascii_app, app_nil_r. Qed.

(** ** What a pattern cannot do without

    Every match of [r] consumes a rune satisfying [p], when [needs] says so; a
    text without such a rune is not matched. *)
Fixpoint needs (q : (Z -> bool) -> bool) (r : re) : bool :=
  match r with
  | Nul | Bol | Eol | NoWordBoundary | Star _ => false
  | Chr c => q c
  | Cat a b => needs q a || needs q b
  | Alt a b => needs q a && needs q b
  | Group a => needs q a
  end.

Section needs.
(** [q c] says that the class [c] holds of no rune of the text. *)
Context (ok : Z -> Prop) (q : (Z -> bool) -> bool).
Hypothesis q_sound : forall c x, q c = true -> ok x -> c x = false.

Definition all_ok (s : mstate) : Prop := Forall (fun g : glyph => ok g.1) (m_rest s).

Lemma star_loop_ok step k n s :
  (forall k s, all_ok s -> (forall s', all_ok s' -> k s' = None) -> step k s = None) ->
  all_ok s -> (forall s', all_ok s' -> k s' = None) -> star_loop step k n s = None.
Proof using Type.
  intros Hstep. revert s. induction n as [|n IH]; intros s Hs Hk; cbn; [by apply Hk|].
  rewrite Hstep; [by apply Hk|done|]. intros s' Hs'. case_match; [by apply IH|done].
Qed.
Lemma exec_none r k s :
  all_ok s -> (forall s', all_ok s' -> k s' = None) -> exec r k s = None.
Proof using Type.
  revert k s. induction r as [|p| | | |a IHa b IHb|a IHa b IHb|a IHa|a IHa]; intros k s Hs Hk; cbn.
  - by apply Hk.
  - destruct (m_rest s) as [|[c b] rest] eqn:E; [done|]. case_match; [|done]. apply Hk.
    unfold all_ok in *. rewrite E in Hs. by inversion Hs.
  - case_match; [done|by apply Hk].
  - case_match; [by apply Hk|done].
  - case_match; [by apply Hk|done].
  - apply IHa; [done|]. intros. by apply IHb.
  - rewrite IHa by done. by apply IHb.
  - by apply (star_loop_ok (exec a) k (S (length (m_rest s)))).
  - apply IHa; [done|]. intros s' Hs'. by apply Hk.
Qed.
Lemma exec_needs r k s : needs q r = true -> all_ok s -> exec r k s = None.
Proof using Type q_sound.
  revert k s. induction r as [|p| | | |a IHa b IHb|a IHa b IHb|a IHa|a IHa]; intros k s Hn Hs; cbn in *; try done.
  - destruct (m_rest s) as [|[c b] rest] eqn:E; [done|].
    unfold all_ok in Hs. rewrite E in Hs. inversion Hs as [|? ? Hc]; subst. by rewrite (q_sound p c).
  - destruct (needs q a) eqn:Ea; [by apply IHa|]. apply exec_none; [done|]. intros. by apply IHb.
  - apply andb_true_iff in Hn as [Ha Hb]. rewrite IHa by done. by apply IHb.
  - by apply IHa.
Qed.
Lemma find_needs r prev l :
  needs q r = true -> Forall (fun g : glyph => ok g.1) l -> find r prev l = None.
Proof using Type q_sound.
  intros Hn. revert prev. induction l as [|g l IH]; intros prev Hl; cbn; rewrite exec_needs by done; [done|].
  inversion Hl; subst. by rewrite IH.
Qed.
Lemma replace_fuel_needs n r repl prev l :
  needs q r = true -> Forall (fun g : glyph => ok g.1) l -> replace_fuel n r repl prev l = text l.
Proof using Type q_sound. intros. destruct n; cbn; [done|]. by rewrite find_needs. Qed.
End needs.

(** The usual case: the pattern needs a rune of a literal class that does not
    occur among the runes of the text. *)
Definition absent (l : list Z) (c : Z -> bool) : bool := forallb (fun r => negb (c r)) l.
Lemma absent_sound l c x : absent l c = true -> x ∈ l -> c x = false.
Proof. unfold absent. rewrite forallb_forall. intros H Hx%list_elem_of_In. by apply negb_true_iff, H. Qed.
Lemma runes_glyphs l : fst <$> glyphs l = runes l.
Proof.
  unfold glyphs, runes. generalize (length l) as n. intros n. revert l.
  induction n as [|n IH]; intros [|b l]; [done..|]. cbn [glyphs_fuel runes_fuel].
  destruct (decode_rune (b :: l)). cbn. f_equal. apply IH.
Qed.
Lemma glyphs_ok l : Forall (fun g : glyph => g.1 ∈ runes l) (glyphs l).
Proof. rewrite <- runes_glyphs. apply Forall_forall. intros g Hg. by apply list_elem_of_fmap_2. Qed.
(** A text all of whose runes are among [cs]. *)
Lemma replace_class cs r repl l :
  (forall x, x ∈ runes l -> x ∈ cs) -> needs (absent cs) r = true -> ReplaceAllString r repl l = l.
Proof.
  intros Hl Hn. unfold ReplaceAllString.
  rewrite (replace_fuel_needs (.∈ cs) (absent cs)); [apply text_glyphs| |done|].
  - intros c x. apply absent_sound.
  - eapply Forall_impl; [apply glyphs_ok|]. intros g. apply Hl.
Qed.
Lemma MatchString_class cs r l :
  (forall x, x ∈ runes l -> x ∈ cs) -> needs (absent cs) r = true -> MatchString r l = false.
Proof.
  intros Hl Hn. unfold MatchString.
  rewrite (find_needs (.∈ cs) (absent cs)); [done| |done|].
  - intros c x. apply absent_sound.
  - eapply Forall_impl; [apply glyphs_ok|]. intros g. apply Hl.
Qed.

(** ** A trailing greedy class takes as much as it can *)
Fixpoint drop_class (p : Z -> bool) (prev : option Z) (l : list glyph) : option Z * list glyph :=
  match l with
  | g :: l' => if p g.1 then drop_class p (Some g.1) l' else (prev, l)
  | [] => (prev, [])
  end.
Lemma exec_star_class p prev l cap :
  exec (Star (Chr p)) Some (mkM prev l cap) =
    Some (mkM (drop_class p prev l).1 (drop_class p prev l).2 cap).
Proof.
  cbn [exec m_rest]. assert (Hn : (length l < S (length l))%nat) by lia.
  revert Hn. generalize (S (length l)) as n. intros n. revert prev l.
  induction n as [|n IH]; intros prev l Hn; [lia|]. cbn [star_loop exec m_rest].
  destruct l as [|[c b] l]; cbn [drop_class fst snd]; [done|]. simpl in Hn.
  destruct (p c); [|done]. cbn [m_rest m_cap length]. destruct (Nat.ltb_spec (length l) (S (length l))); [|lia].
  by rewrite IH by lia.
Qed.

Lemma find_step r prev g l :
  exec r Some (mkM prev (g :: l) []) = None ->
  find r prev (g :: l) = match find r (Some g.1) l with Some (sk, s) => Some (g :: sk, s) | None => None end.
Proof. intros H. cbn [find]. by rewrite H. Qed.
Lemma find_here r prev l s : exec r Some (mkM prev l []) = Some s -> find r prev l = Some ([], s).
Proof. intros H. destruct l; cbn [find]; by rewrite H. Qed.
(** A literal on the text it spells. *)
Lemma exec_lit cs k prev l cap :
  exec (Seq (chr <$> cs)) k (mkM prev ((ascii_glyph <$> cs) ++ l) cap) =
    k (mkM (match last cs with Some x => Some x | None => prev end) l cap).
Proof.
  revert prev. induction cs as [|c cs IH]; intros prev; [done|].
  cbn [fmap list_fmap app Seq foldr exec m_rest chr ascii_glyph]. rewrite Z.eqb_refl.
  etrans; [apply IH|]. destruct cs as [|c' cs]; [done|]. rewrite last_cons_cons.
  destruct (last (c' :: cs)) eqn:E; [done|]. by apply last_None in E.
Qed.
(** What a group captures when it consumes [l1]. *)
Lemma group_take (l1 l2 : list glyph) : take (length (l1 ++ l2) - length l2) (l1 ++ l2) = l1.
Proof. rewrite length_app, Nat.add_sub. apply take_app_length. Qed.

Example match_prompt :
  MatchString (Seq [Bol; Star nonspace; chr 64; Star nonspace; Chr (one_of "$#"); Eol]) (bs "me@host:~$") = true.
Proof. vm_compute. reflexivity. Qed.
