(* ===== verification/Csv.v ===== *)
(** Package encoding/csv as the code uses it: a writer with the default settings
    and a reader with TrimLeadingSpace set that accepts records of any length.

    The reader works on the lines of its input. Its loops consume input with
    every iteration; they take fuel, the functions that callers use pass enough
    of it ([ReadAll_total]). *)
From S2P Require Import Prelude GoText.
Local Open Scope Z_scope.

Definition comma : Z := 44.
Definition quote : Z := 34.
Definition LF : Z := 10.
Definition CR : Z := 13.
Abbreviation record := (list (list Z)).

(** ** Writer *)
Definition special (c : Z) : bool := (c =? LF) || (c =? CR) || (c =? quote) || (c =? comma).
Definition fieldNeedsQuotes (field : list Z) : bool :=
  if bool_decide (field = []) then false
  else if bool_decide (field = bs "\.") then true
  else existsb special field || IsSpace (decode_rune field).1.
Fixpoint escape_quotes (field : list Z) : list Z :=
  match field with
  | [] => []
  | c :: field => if c =? quote then quote :: quote :: escape_quotes field else c :: escape_quotes field
  end.
Definition write_field (field : list Z) : list Z :=
  if fieldNeedsQuotes field then quote :: escape_quotes field ++ [quote] else field.
Definition Write (rec : record) : list Z := join_byte (write_field <$> rec) comma ++ [LF].
Definition WriteAll (recs : list record) : list Z := concat (Write <$> recs).

(** ** Reader *)
Inductive csv_err := ErrBareQuote | ErrQuote | ErrFuel.
#[export] Instance csv_err_eq : EqDecision csv_err.
Proof. solve_decision. Defined.

(** The lines with their line feed. A carriage return before it is dropped, also
    at the end of the input. *)
Definition normalize (line : list Z) : list Z :=
  if has_suffix line [CR; LF] then take (length line - 2) line ++ [LF]
  else if has_suffix line [CR] then take (length line - 1) line else line.
Fixpoint raw_lines (data : list Z) : list (list Z) :=
  match data with
  | [] => []
  | c :: data =>
      if c =? LF then [c] :: raw_lines data
      else match raw_lines data with [] => [[c]] | l :: ls => (c :: l) :: ls end
  end.
Definition lines_of (data : list Z) : list (list Z) := normalize <$> raw_lines data.
Definition strip_LF (line : list Z) : list Z :=
  if has_suffix line [LF] then take (length line - 1) line else line.
(** [len(line) == lengthNL(line)] *)
Definition is_eol (line : list Z) : bool := bool_decide (line = [] \/ line = [LF]).
Definition trim_leading (line : list Z) : list Z := trim_left_fuel (length line) IsSpace line.
Fixpoint skip_empty (lines : list (list Z)) : list (list Z) :=
  match lines with l :: ls => if is_eol l then skip_empty ls else lines | [] => [] end.

(** The loop over the fields of a record, and the inner loop over a quoted one. *)
Fixpoint parse_fields (fuel : nat) (line : list Z) (lines : list (list Z)) (fields : record) : result csv_err (record * list (list Z)) :=
  match fuel with
  | O => Err ErrFuel
  | S fuel =>
      let line := trim_leading line in
      if bool_decide (head line = Some quote) then parse_quoted fuel (tail line) lines fields []
      else
        match index_byte line comma with
        | Some i =>
            let field := take i line in
            guard negb (bool_decide (quote ∈ field)) else ErrBareQuote in
            parse_fields fuel (drop (S i) line) lines (fields ++ [field])
        | None =>
            let field := strip_LF line in
            guard negb (bool_decide (quote ∈ field)) else ErrBareQuote in
            Ok (fields ++ [field], lines)
        end
  end
with parse_quoted (fuel : nat) (line : list Z) (lines : list (list Z)) (fields : record) (buf : list Z) : result csv_err (record * list (list Z)) :=
  match fuel with
  | O => Err ErrFuel
  | S fuel =>
      match index_byte line quote with
      | Some i =>
          let buf := buf ++ take i line in
          let line := drop (S i) line in
          if bool_decide (head line = Some quote) then parse_quoted fuel (tail line) lines fields (buf ++ [quote])
          else if bool_decide (head line = Some comma) then parse_fields fuel (tail line) lines (fields ++ [buf])
          else if is_eol line then Ok (fields ++ [buf], lines)
          else Err ErrQuote
      | None =>
          match line with
          | [] => Err ErrQuote
          | _ => parse_quoted fuel (default [] (head lines)) (tail lines) fields (buf ++ line)
          end
      end
  end.
Definition size_of (line : list Z) (lines : list (list Z)) : nat := (length line + sum_list_with (fun l => S (length l)) lines)%nat.
(** The records up to the end of the input or the first error. *)
Fixpoint read_records (fuel : nat) (lines : list (list Z)) : result csv_err (list record) :=
  match fuel with
  | O => Err ErrFuel
  | S fuel =>
      match skip_empty lines with
      | [] => Ok []
      | line :: lines =>
          let? (rec, lines) := parse_fields (S (size_of line lines)) line lines [] in
          let? recs := read_records fuel lines in
          Ok (rec :: recs)
      end
  end.
Definition ReadAll (data : list Z) : result csv_err (list record) :=
  let lines := lines_of data in read_records (S (length lines)) lines.

Example csv_quotes : Write [bs "a b"; bs " x"; []; [quote; comma; LF]; bs "\."] =
  bs "a b," ++ [quote] ++ bs " x" ++ [quote; comma; comma; quote; quote; quote; comma; LF; quote; comma; quote] ++ bs "\." ++ [quote; LF].
Proof. vm_compute. reflexivity. Qed.
Example csv_read : ReadAll (bs "a,  b c ,"%string ++ [CR; LF; LF] ++ bs "x"%string ++ [CR])
  = Ok [[bs "a"; bs "b c "; []]; [bs "x"]].
Proof. vm_compute. reflexivity. Qed.
Example csv_read_errors :
  ReadAll (bs "a,b" ++ [quote]) = Err ErrBareQuote /\ ReadAll ([quote] ++ bs "a" ++ [quote] ++ bs "b") = Err ErrQuote /\
  ReadAll ([quote] ++ bs "a" ++ [LF] ++ bs "b") = Err ErrQuote /\
  ReadAll ([quote; CR; LF; quote; LF]) = Ok [[[LF]]].
Proof. vm_compute. done. Qed.

(** ** The fuel is enough *)
Lemma trim_left_length n f l : (length (trim_left_fuel n f l) <= length l)%nat.
Proof. destruct (trim_left_drop n f l) as [j ->]. rewrite length_drop. lia. Qed.
Lemma index_byte_lt l c i : index_byte l c = Some i -> (i < length l)%nat.
Proof.
  revert i. induction l as [|b l IH]; intros i Hi; simpl in *; [done|].
  destruct (b =? c); [simplify_eq; lia|]. destruct (index_byte l c) as [j|]; simplify_eq/=. specialize (IH j eq_refl). lia.
Qed.
Lemma size_next line lines : line <> [] ->
  (size_of (default [] (head lines)) (tail lines) < size_of line lines)%nat.
Proof. unfold size_of. destruct line; [done|]. destruct lines; simpl; lia. Qed.

Definition no_fuel {A} (r : result csv_err A) : Prop := r <> Err ErrFuel.
Definition shorter (lines : list (list Z)) (r : result csv_err (record * list (list Z))) : Prop :=
  no_fuel r /\ forall rec ls, r = Ok (rec, ls) -> (length ls <= length lines)%nat.
Lemma shorter_tail lines r : shorter (tail lines) r -> shorter lines r.
Proof. intros [H1 H2]. split; [done|]. intros rec ls E. specialize (H2 _ _ E). destruct lines; simpl in *; lia. Qed.
Lemma shorter_ok lines rec : shorter lines (Ok (rec, lines)).
Proof. split; [done|]. intros ? ? [= _ <-]. done. Qed.
Lemma shorter_err lines e : e <> ErrFuel -> shorter lines (Err e).
Proof. intros He. split; [congruence|done]. Qed.
Lemma parse_enough fuel :
  (forall line lines fields, (size_of line lines < fuel)%nat -> shorter lines (parse_fields fuel line lines fields)) /\
  (forall line lines fields buf, (size_of line lines < fuel)%nat -> shorter lines (parse_quoted fuel line lines fields buf)).
Proof.
  induction fuel as [|fuel [IHf IHq]]; [split; intros; lia|]. split; intros line lines fields.
  - intros Hs. simpl. pose proof (trim_left_length (length line) IsSpace line) as Ht. fold (trim_leading line) in Ht.
    unfold size_of in *. destruct (trim_leading line) as [|b l] eqn:El; simpl.
    + apply shorter_ok.
    + case_bool_decide as Eb; [apply IHq; simpl in Ht; lia|].
      destruct (if b =? comma then _ else _) as [i|].
      * destruct (bool_decide _); simpl; [by apply shorter_err|]. apply IHf. rewrite length_drop. simpl in Ht. lia.
      * destruct (bool_decide _); simpl; [by apply shorter_err|apply shorter_ok].
  - intros buf Hs. simpl. destruct (index_byte line quote) as [i|] eqn:Ei.
    + pose proof (index_byte_lt _ _ _ Ei). unfold size_of in *.
      assert (Hl : (length (tail (drop (S i) line)) < length line)%nat).
      { pose proof (length_drop line (S i)) as Hd. destruct (drop (S i) line); simpl in *; lia. }
      case_bool_decide; [apply IHq; lia|]. case_bool_decide; [apply IHf; lia|]. destruct (is_eol _); [apply shorter_ok|by apply shorter_err].
    + destruct line as [|b line]; [by apply shorter_err|]. apply shorter_tail, IHq.
      pose proof (size_next (b :: line) lines ltac:(done)). lia.
Qed.
Lemma skip_empty_length lines : (length (skip_empty lines) <= length lines)%nat.
Proof. induction lines as [|l ls IH]; simpl; [done|]. destruct (is_eol l); simpl; lia. Qed.
Lemma read_records_enough fuel lines : (length lines < fuel)%nat -> no_fuel (read_records fuel lines).
Proof.
  revert lines. induction fuel as [|fuel IH]; intros lines Hl; [lia|]. unfold no_fuel in *. cbn [read_records].
  pose proof (skip_empty_length lines). destruct (skip_empty lines) as [|line ls] eqn:E; [done|].
  destruct (proj1 (parse_enough (S (size_of line ls))) line ls [] ltac:(lia)) as [Hf Hs].
  destruct (parse_fields _ line ls []) as [[rec ls']|err]; [|congruence].
  specialize (Hs _ _ eq_refl). simpl in *. specialize (IH ls' ltac:(lia)). destruct (read_records fuel ls'); congruence.
Qed.
Lemma ReadAll_total data : ReadAll data <> Err ErrFuel.
Proof. apply read_records_enough. lia. Qed.

(** More fuel does not change a result. *)
Lemma parse_more n m : (n <= m)%nat ->
  (forall line lines fields, no_fuel (parse_fields n line lines fields) -> parse_fields m line lines fields = parse_fields n line lines fields) /\
  (forall line lines fields buf, no_fuel (parse_quoted n line lines fields buf) -> parse_quoted m line lines fields buf = parse_quoted n line lines fields buf).
Proof.
  revert m. induction n as [|n IH]; intros m Hm; [by split; intros; exfalso|].
  destruct m as [|m]; [lia|]. destruct (IH m ltac:(lia)) as [IHf IHq]. split; intros line lines fields; [|intros buf]; simpl; intros Hn.
  - case_bool_decide; [by apply IHq|]. destruct (index_byte _ comma); [|done]. destruct (negb _); [by apply IHf|done].
  - destruct (index_byte line quote).
    + case_bool_decide; [by apply IHq|]. case_bool_decide; [by apply IHf|done].
    + destruct line; [done|]. by apply IHq.
Qed.
Lemma parse_agree n line lines fields r m : parse_fields n line lines fields = r -> no_fuel r ->
  (size_of line lines < m)%nat -> parse_fields m line lines fields = r.
Proof.
  intros Hn Hf Hm. destruct (proj1 (parse_enough m) line lines fields Hm) as [Hm' _]. destruct (Nat.le_ge_cases n m) as [Hl|Hl].
  - rewrite <- Hn in *. by apply (parse_more n m Hl).
  - rewrite <- (proj1 (parse_more m n Hl) line lines fields Hm'). done.
Qed.

(** ** Round trip *)
(** What the reader changes in a quoted field: a carriage return before a line
    feed. *)
Fixpoint no_crlf (l : list Z) : bool :=
  match l with c :: l => negb ((c =? CR) && bool_decide (head l = Some LF)) && no_crlf l | [] => true end.
Lemma no_crlf_cons c l : no_crlf (c :: l) = negb ((c =? CR) && bool_decide (head l = Some LF)) && no_crlf l.
Proof. done. Qed.
Lemma no_crlf_app l1 l2 : no_crlf l1 = true -> no_crlf l2 = true -> last l1 <> Some CR \/ head l2 <> Some LF -> no_crlf (l1 ++ l2) = true.
Proof.
  intros H1 H2 Hb. induction l1 as [|c l1 IH]; [done|]. simpl app. rewrite no_crlf_cons in *.
  apply andb_true_iff in H1 as [Hc H1]. apply andb_true_iff. destruct l1 as [|d l1]; simpl in *.
  - split; [|done]. destruct (Z.eqb_spec c CR); [|done]. simpl. destruct Hb as [Hb|Hb]; [congruence|].
    by rewrite bool_decide_eq_false_2.
  - split; [done|]. apply IH; [done|]. destruct Hb as [Hb|]; [by left|by right].
Qed.
Definition ended (D : list Z) : Prop := last D = Some LF.
Lemma ended_cons c D : D <> [] -> ended (c :: D) <-> ended D.
Proof. destruct D; [done|]. unfold ended. by rewrite last_cons_cons. Qed.
Lemma ended_app l D : ended D -> ended (l ++ D).
Proof. unfold ended. intros H. by rewrite last_app, H. Qed.
Lemma ended_ne D : ended D -> D <> [].
Proof. by intros H ->. Qed.
Lemma raw_lines_ended D : ended D -> exists l ls, raw_lines D = (l ++ [LF]) :: ls.
Proof.
  induction D as [|c D IH]; [done|]. intros He. simpl. destruct (Z.eqb_spec c LF) as [->|Hc]; [by exists [], (raw_lines D)|].
  destruct D as [|d D]; [unfold ended in He; simpl in He; congruence|].
  apply ended_cons in He; [|done]. destruct (IH He) as (l & ls & ->). by exists (c :: l), ls.
Qed.
Lemma raw_lines_head D : head (raw_lines D) ≫= head = head D.
Proof.
  destruct D as [|c D]; [done|]. simpl. destruct (Z.eqb_spec c LF) as [->|]; [done|]. by destruct (raw_lines D).
Qed.
Lemma raw_lines_plain D : no_crlf D = true -> D = [] \/ ended D -> Forall (fun l => no_crlf l = true /\ ended l) (raw_lines D).
Proof.
  induction D as [|c D IH]; intros Hn He; simpl; [constructor|]. destruct He as [|He]; [done|].
  rewrite no_crlf_cons in Hn. apply andb_true_iff in Hn as [Hc Hn].
  destruct (Z.eqb_spec c LF) as [->|Hl].
  - constructor; [done|]. apply IH; [done|]. destruct D; [by left|right; by apply ended_cons in He].
  - destruct D as [|d D]; [unfold ended in He; simpl in He; congruence|]. apply ended_cons in He; [|done].
    specialize (IH Hn (or_intror He)). pose proof (raw_lines_head (d :: D)) as Hh.
    destruct (raw_lines (d :: D)) as [|l ls]; [done|]. inversion_clear IH as [|?? [Hl1 Hl2] Hls]. constructor; [|done].
    simpl in Hh, Hc. rewrite no_crlf_cons, Hh, Hl1, andb_true_r. split; [exact Hc|]. destruct l; [done|]. by apply ended_cons.
Qed.
Lemma normalize_plain l : no_crlf l = true -> ended l -> normalize l = l.
Proof.
  intros Hn He. unfold normalize.
  destruct (has_suffix l [CR; LF]) eqn:E1.
  - apply has_suffix_spec in E1 as [k ->]. exfalso. revert Hn. clear He. induction k as [|c k IH]; [done|].
    simpl app. rewrite no_crlf_cons. intros [_ Hn]%andb_true_iff. auto.
  - destruct (has_suffix l [CR]) eqn:E2; [|done]. apply has_suffix_spec in E2 as [k ->].
    unfold ended in He. rewrite last_snoc in He. done.
Qed.
Lemma lines_of_plain D : no_crlf D = true -> D = [] \/ ended D -> lines_of D = raw_lines D.
Proof.
  intros Hn He. unfold lines_of. pose proof (raw_lines_plain D Hn He) as H.
  induction H as [|l ls [H1 H2] _ IH]; [done|]. rewrite fmap_cons, normalize_plain by done. by f_equal.
Qed.

(** What the reader has in front of it when the text [D] is left. *)
Definition at_field (D : list Z) (fields : record) (r : result csv_err (record * list (list Z))) : Prop :=
  exists n, parse_fields n (default [] (head (raw_lines D))) (tail (raw_lines D)) fields = r /\ no_fuel r.
Definition in_quotes (D : list Z) (fields : record) (buf : list Z) (r : result csv_err (record * list (list Z))) : Prop :=
  exists n, parse_quoted n (default [] (head (raw_lines D))) (tail (raw_lines D)) fields buf = r /\ no_fuel r.

Lemma raw_lines_cons c D : c <> LF -> ended D ->
  default [] (head (raw_lines (c :: D))) = c :: default [] (head (raw_lines D)) /\ tail (raw_lines (c :: D)) = tail (raw_lines D).
Proof.
  intros Hc He. simpl. destruct (Z.eqb_spec c LF); [done|]. by destruct (raw_lines_ended D He) as (l & ls & ->).
Qed.
Lemma quoted_plain c D fields buf r : c <> quote -> ended D -> in_quotes D fields (buf ++ [c]) r -> in_quotes (c :: D) fields buf r.
Proof.
  intros Hq He [n [Hn Hf]]. destruct n as [|n]; [by subst r|]. destruct (decide (c = LF)) as [->|Hl].
  - exists (S (S n)). simpl. simpl in Hn. by rewrite Hn.
  - exists (S n). destruct (raw_lines_cons c D Hl He) as [-> ->]. destruct (raw_lines_ended D He) as (l & ls & E).
    rewrite E in *. simpl in *. destruct (Z.eqb_spec c quote); [done|].
    assert (Ha : forall x, buf ++ c :: x = (buf ++ [c]) ++ x) by (intros; by rewrite <- app_assoc).
    destruct (index_byte (l ++ [LF]) quote) as [i|]; simpl; rewrite Ha; [done|]. by destruct l.
Qed.
Lemma quoted_body f D fields buf r : ended D -> in_quotes D fields (buf ++ f) r -> in_quotes (escape_quotes f ++ D) fields buf r.
Proof.
  intros He. revert buf. induction f as [|c f IH]; intros buf Hr; simpl; [by rewrite app_nil_r in Hr|].
  assert (He' : ended (escape_quotes f ++ D)) by by apply ended_app.
  assert (Hr' : in_quotes (escape_quotes f ++ D) fields (buf ++ [c]) r) by (apply IH; by rewrite <- app_assoc).
  destruct (Z.eqb_spec c quote) as [->|Hc]; simpl app; [|by apply quoted_plain].
  destruct Hr' as [n [Hn Hf]]. exists (S n). split; [|done]. rewrite <- Hn.
  assert (He2 : ended (quote :: escape_quotes f ++ D)) by (apply ended_cons; [by apply ended_ne|done]).
  destruct (raw_lines_cons quote (quote :: escape_quotes f ++ D) ltac:(done) He2) as [-> ->].
  destruct (raw_lines_cons quote (escape_quotes f ++ D) ltac:(done) He') as [-> ->]. simpl. by rewrite app_nil_r.
Qed.
Lemma quoted_comma D fields buf r : ended D -> at_field D (fields ++ [buf]) r -> in_quotes (quote :: comma :: D) fields buf r.
Proof.
  intros He [n [Hn Hf]]. exists (S n). split; [|done]. rewrite <- Hn.
  assert (He2 : ended (comma :: D)) by (apply ended_cons; [by apply ended_ne|done]).
  destruct (raw_lines_cons quote (comma :: D) ltac:(done) He2) as [-> ->].
  destruct (raw_lines_cons comma D ltac:(done) He) as [-> ->]. simpl. by rewrite app_nil_r.
Qed.
Lemma quoted_end D fields buf : in_quotes (quote :: LF :: D) fields buf (Ok (fields ++ [buf], raw_lines D)).
Proof. exists 1%nat. split; [|done]. simpl. by rewrite app_nil_r. Qed.

Lemma decode_app_ascii f c l : f <> [] -> c < 0x80 -> decode_rune (f ++ c :: l) = decode_rune f.
Proof.
  intros Hf Hc. assert (Hn : cont c = false) by (unfold cont, in_range; lia).
  assert (Hr : forall lo hi, 0x80 <= lo -> in_range c lo hi = false) by (unfold in_range; lia).
  destruct f as [|b0 [|b1 [|b2 [|b3 f]]]]; [done| | | |done]; cbn [app]; unfold decode_rune; cbv zeta.
  - destruct (b0 <? 0x80); [done|]. destruct (in_range b0 0xC2 0xDF); [by rewrite Hn|].
    destruct (in_range b0 0xE0 0xEF); [|destruct (in_range b0 0xF0 0xF4); [|done]].
    + destruct l as [|b2 l]; [done|]. destruct (b0 =? 0xE0), (b0 =? 0xED); by rewrite Hr by lia.
    + destruct l as [|b2 [|b3 l]]; [done..|]. destruct (b0 =? 0xF0), (b0 =? 0xF4); by rewrite Hr by lia.
  - destruct (b0 <? 0x80); [done|]. destruct (in_range b0 0xC2 0xDF); [done|].
    destruct (in_range b0 0xE0 0xEF); [by rewrite Hn, andb_false_r|]. destruct (in_range b0 0xF0 0xF4); [|done].
    destruct l; [done|]. by rewrite Hn, andb_false_r.
  - destruct (b0 <? 0x80); [done|]. destruct (in_range b0 0xC2 0xDF); [done|].
    destruct (in_range b0 0xE0 0xEF); [done|]. destruct (in_range b0 0xF0 0xF4); [|done]. by rewrite Hn, andb_false_r.
Qed.
Lemma trim_leading_plain f c l : fieldNeedsQuotes f = false -> c < 0x80 -> IsSpace c = false \/ f <> [] ->
  trim_leading (f ++ c :: l) = f ++ c :: l.
Proof.
  intros Hq Hc Hs. apply trim_left_stop. right. destruct f as [|b f].
  - destruct Hs as [Hs|]; [|done]. simpl. replace (c <? 0x80) with true by lia. done.
  - rewrite decode_app_ascii by done. unfold fieldNeedsQuotes in Hq. rewrite bool_decide_eq_false_2 in Hq by done.
    case_bool_decide; [done|]. by apply orb_false_iff in Hq as [_ ?].
Qed.
Lemma unquoted_bytes f b : fieldNeedsQuotes f = false -> b ∈ f -> special b = false.
Proof.
  unfold fieldNeedsQuotes. intros Hq Hb. destruct f; [by apply elem_of_nil in Hb|]. rewrite bool_decide_eq_false_2 in Hq by done.
  case_bool_decide; [done|]. apply orb_false_iff in Hq as [Hq _]. destruct (special b) eqn:E; [|done].
  rewrite <- Hq. symmetry. apply existsb_exists. exists b. split; [by apply list_elem_of_In|done].
Qed.
Lemma unquoted_none f b : fieldNeedsQuotes f = false -> special b = true -> b ∉ f.
Proof. intros Hq Hb Hin. by rewrite (unquoted_bytes f b Hq Hin) in Hb. Qed.
Lemma index_byte_app f c l : c ∉ f -> index_byte (f ++ c :: l) c = Some (length f).
Proof.
  induction f as [|b f IH]; intros Hc; simpl; [by rewrite Z.eqb_refl|]. apply not_elem_of_cons in Hc as [? ?].
  destruct (Z.eqb_spec b c); [congruence|]. by rewrite IH.
Qed.
Lemma find_byte_none l c : c ∉ l -> index_byte l c = None.
Proof.
  induction l as [|b l IH]; intros Hc; simpl; [done|]. apply not_elem_of_cons in Hc as [? ?].
  destruct (Z.eqb_spec b c); [congruence|]. by rewrite IH.
Qed.
Lemma head_unquoted f c l : fieldNeedsQuotes f = false -> c <> quote -> head (f ++ c :: l) <> Some quote.
Proof.
  intros Hq Hc. destruct f as [|b f]; simpl; [congruence|]. intros [= ->].
  by apply (unquoted_none (quote :: f) quote); [| |apply list_elem_of_here].
Qed.
Lemma raw_lines_app f D : LF ∉ f -> ended D ->
  default [] (head (raw_lines (f ++ D))) = f ++ default [] (head (raw_lines D)) /\ tail (raw_lines (f ++ D)) = tail (raw_lines D).
Proof.
  intros Hf He. induction f as [|c f IH]; [done|]. apply not_elem_of_cons in Hf as [Hc Hf]. simpl app.
  destruct (raw_lines_cons c (f ++ D) ltac:(done) ltac:(by apply ended_app)) as [-> ->]. destruct (IH Hf) as [-> ->]. done.
Qed.

Lemma field_comma f D fields r : ended D -> at_field D (fields ++ [f]) r -> at_field (write_field f ++ comma :: D) fields r.
Proof.
  intros He Hr. assert (He' : ended (comma :: D)) by (apply ended_cons; [by apply ended_ne|done]).
  unfold write_field. destruct (fieldNeedsQuotes f) eqn:Hq.
  - rewrite <- app_comm_cons, <- app_assoc. simpl app.
    assert (Hin : in_quotes (escape_quotes f ++ quote :: comma :: D) fields [] r).
    { apply quoted_body; [|by apply quoted_comma]. apply ended_cons; [done|done]. }
    destruct Hin as [n [Hn Hf]]. exists (S n). split; [|done].
    destruct (raw_lines_cons quote (escape_quotes f ++ quote :: comma :: D) ltac:(done)) as [-> ->];
      [apply ended_app; by apply ended_cons|]. done.
  - destruct Hr as [n [Hn Hf]]. exists (S n). split; [|done]. rewrite <- Hn.
    destruct (raw_lines_app f (comma :: D)) as [-> ->]; [by apply (unquoted_none _ LF)|done|].
    destruct (raw_lines_cons comma D ltac:(done) He) as [-> ->]. cbn [parse_fields].
    rewrite trim_leading_plain by (done || by left). rewrite bool_decide_eq_false_2 by by apply head_unquoted.
    rewrite index_byte_app by by apply (unquoted_none _ comma).
    rewrite take_app_length, bool_decide_eq_false_2 by by apply (unquoted_none _ quote). simpl negb. cbv iota.
    by rewrite <- Nat.add_1_r, <- drop_drop, drop_app_length.
Qed.
Lemma ended_LF D : D = [] \/ ended D -> ended (LF :: D).
Proof. intros [->|He]; [done|]. apply ended_cons; [by apply ended_ne|done]. Qed.
Lemma field_end f D fields : D = [] \/ ended D -> at_field (write_field f ++ LF :: D) fields (Ok (fields ++ [f], raw_lines D)).
Proof.
  intros He%ended_LF. unfold write_field. destruct (fieldNeedsQuotes f) eqn:Hq.
  - rewrite <- app_comm_cons, <- app_assoc. simpl app.
    assert (He2 : ended (quote :: LF :: D)) by by apply ended_cons.
    destruct (quoted_body f (quote :: LF :: D) fields [] (Ok (fields ++ [f], raw_lines D)) He2) as [n [Hn Hf]];
      [by apply quoted_end|]. exists (S n). split; [|done].
    destruct (raw_lines_cons quote (escape_quotes f ++ quote :: LF :: D) ltac:(done)) as [-> ->]; [by apply ended_app|]. done.
  - exists 1%nat. split; [|done]. destruct (raw_lines_app f (LF :: D)) as [-> ->]; [by apply (unquoted_none _ LF)|done|].
    cbn [raw_lines]. rewrite Z.eqb_refl. cbn [head tail default]. destruct (decide (f = [])) as [->|Hf]; [done|]. cbn [parse_fields from_option id].
    rewrite trim_leading_plain by (done || by right). rewrite bool_decide_eq_false_2 by by apply head_unquoted.
    rewrite find_byte_none by (rewrite elem_of_app; intros [?%unquoted_none|?%list_elem_of_singleton]; done).
    unfold strip_LF. rewrite (proj2 (has_suffix_spec _ _)) by by eexists.
    rewrite length_app, Nat.add_sub, take_app_length.
    by rewrite bool_decide_eq_false_2 by by apply (unquoted_none _ quote).
Qed.
Lemma record_read rec D fields : rec <> [] -> D = [] \/ ended D ->
  at_field (Write rec ++ D) fields (Ok (fields ++ rec, raw_lines D)).
Proof.
  intros Hne He. unfold Write. rewrite <- app_assoc. simpl. revert fields. induction rec as [|f rec IH]; intros fields; [done|].
  destruct rec as [|g rec]; simpl fmap.
  - replace (join_byte [write_field f] comma) with (write_field f) by (simpl; by rewrite ?app_nil_r). by apply field_end.
  - rewrite join_byte_cons, <- app_assoc. simpl app. apply field_comma; [by apply ended_app, ended_LF|].
    replace (fields ++ f :: g :: rec) with ((fields ++ [f]) ++ g :: rec) by by rewrite <- app_assoc. by apply IH.
Qed.

(** Records the reader gives back: not a blank line, and no field with a carriage
    return before a line feed. *)
Definition readable (rec : record) : Prop := rec <> [] /\ rec <> [[]] /\ Forall (fun f => no_crlf f = true) rec.

Lemma ended_Write rec : ended (Write rec).
Proof. by apply (ended_app _ [LF]). Qed.
Lemma WriteAll_cons rec recs : WriteAll (rec :: recs) = Write rec ++ WriteAll recs.
Proof. done. Qed.
Lemma ended_WriteAll recs : WriteAll recs = [] \/ ended (WriteAll recs).
Proof.
  induction recs as [|rec recs IH]; [by left|]. right. rewrite WriteAll_cons.
  destruct IH as [->|IH]; [|by apply ended_app]. rewrite app_nil_r. apply ended_Write.
Qed.
(** Neither a written field nor a written record begins with a line feed. *)
Lemma head_escape f D : head D <> Some LF -> head (escape_quotes f ++ D) = Some LF -> head f = Some LF.
Proof. destruct f as [|c f]; simpl; [done|]. intros _. destruct (Z.eqb_spec c quote); simpl; congruence. Qed.
Lemma head_field f D : head D <> Some LF -> head (write_field f ++ D) <> Some LF.
Proof.
  intros HD. unfold write_field. destruct (fieldNeedsQuotes f) eqn:Hq; [done|]. destruct f as [|b f]; [done|].
  intros [= ->]. by apply (unquoted_none (LF :: f) LF); [| |apply list_elem_of_here].
Qed.
Lemma head_Write rec D : readable rec -> head (Write rec ++ D) <> Some LF.
Proof.
  intros (Hne & Hb & _). destruct rec as [|f [|g rec]]; [done| |]; unfold Write; simpl fmap.
  - simpl join_byte. rewrite <- !app_assoc. unfold write_field. destruct (fieldNeedsQuotes f) eqn:Hq; [done|].
    destruct f as [|b f]; [done|]. intros [= ->]. by apply (unquoted_none (LF :: f) LF); [| |apply list_elem_of_here].
  - rewrite join_byte_cons, <- !app_assoc. by apply head_field.
Qed.
Lemma no_crlf_escape f : no_crlf f = true -> no_crlf (escape_quotes f) = true.
Proof.
  induction f as [|c f IH]; [done|]. rewrite no_crlf_cons. intros [Hc Hf]%andb_true_iff. specialize (IH Hf). simpl.
  destruct (Z.eqb_spec c quote) as [->|Hq]; rewrite !no_crlf_cons; [done|]. rewrite IH, andb_true_r.
  destruct (c =? CR); [|done]. simpl in *.
  destruct (bool_decide (head (escape_quotes f) = Some LF)) eqn:Hh; [|done]. apply bool_decide_eq_true in Hh.
  rewrite <- (app_nil_r (escape_quotes f)) in Hh. apply head_escape in Hh; [|done]. by rewrite Hh in Hc.
Qed.
(** A field is followed by a byte that is no line feed, or ends in no carriage
    return. *)
Lemma no_crlf_field f : no_crlf f = true -> no_crlf (write_field f) = true /\ last (write_field f) <> Some CR.
Proof.
  intros Hf. unfold write_field. destruct (fieldNeedsQuotes f) eqn:Hq.
  - split; [|by rewrite app_comm_cons, last_snoc]. rewrite no_crlf_cons. simpl.
    apply no_crlf_app; [by apply no_crlf_escape|done|by right].
  - split; [done|]. intros Hl. apply last_Some_elem_of in Hl. by apply (unquoted_none f CR).
Qed.
Lemma no_crlf_join rec : Forall (fun f => no_crlf f = true) rec ->
  no_crlf (join_byte (write_field <$> rec) comma) = true /\ last (join_byte (write_field <$> rec) comma) <> Some CR.
Proof.
  induction 1 as [|f rec Hf _ IH]; [done|]. pose proof (no_crlf_field f Hf) as [H1 H2]. destruct rec as [|g rec].
  - simpl. by rewrite app_nil_r.
  - simpl fmap. rewrite join_byte_cons. destruct IH as [IH1 IH2]. simpl fmap in IH1, IH2. split.
    + apply no_crlf_app; [done| |by right]. by rewrite no_crlf_cons.
    + rewrite last_app. simpl fmap. remember (join_byte (write_field g :: _) comma) as j. destruct j; [done|].
      rewrite last_cons_cons. by destruct (last (z :: j)) eqn:E; [|by apply last_None in E].
Qed.
Lemma no_crlf_WriteAll recs : Forall readable recs -> no_crlf (WriteAll recs) = true.
Proof.
  induction 1 as [|rec recs (_ & _ & Hr) _ IH]; [done|]. rewrite WriteAll_cons. unfold Write at 1.
  pose proof (no_crlf_join rec Hr) as [H1 H2]. rewrite <- app_assoc. apply no_crlf_app; [done| |by left].
  simpl app. by rewrite no_crlf_cons.
Qed.

Lemma skip_empty_Write rec D : readable rec -> D = [] \/ ended D -> skip_empty (raw_lines (Write rec ++ D)) = raw_lines (Write rec ++ D).
Proof.
  intros Hr He. pose proof (head_Write rec D Hr) as Hh. pose proof (raw_lines_head (Write rec ++ D)) as Hl.
  assert (ended (Write rec ++ D)) as (l & ls & E)%raw_lines_ended.
  { destruct He as [->|He]; [rewrite app_nil_r; apply ended_Write|by apply ended_app]. }
  rewrite E in *. simpl in *. unfold is_eol. rewrite bool_decide_eq_false_2; [done|].
  intros [El|El]; [by destruct l|]. rewrite El in Hl. simpl in Hl. congruence.
Qed.
Lemma read_records_WriteAll recs fuel : Forall readable recs -> (length (raw_lines (WriteAll recs)) < fuel)%nat ->
  read_records fuel (raw_lines (WriteAll recs)) = Ok recs.
Proof.
  intros Hr. revert fuel. induction Hr as [|rec recs Hrec Hrecs IH]; intros fuel Hf; destruct fuel as [|fuel]; [lia..|done|lia|].
  rewrite WriteAll_cons in *. cbn [read_records].
  pose proof (ended_WriteAll recs) as He. rewrite skip_empty_Write by done.
  destruct (record_read rec (WriteAll recs) [] (proj1 Hrec) He) as (n & Hn & Hf').
  assert (He' : ended (Write rec ++ WriteAll recs)).
  { destruct He as [->|He]; [rewrite app_nil_r; apply ended_Write|by apply ended_app]. }
  destruct (raw_lines_ended _ He') as (l & ls & E). rewrite E in *. simpl in Hn, Hf.
  rewrite (parse_agree _ _ _ _ _ _ Hn Hf') by lia.
  destruct (proj1 (parse_enough (S (size_of (l ++ [LF]) ls))) (l ++ [LF]) ls [] ltac:(lia)) as [_ Hs].
  rewrite (parse_agree _ _ _ _ _ _ Hn Hf') in Hs by lia. specialize (Hs _ _ eq_refl). rewrite IH by lia. done.
Qed.
(** The reader gives back the records of the writer. *)
Lemma ReadAll_WriteAll recs : Forall readable recs -> ReadAll (WriteAll recs) = Ok recs.
Proof.
  intros Hr. unfold ReadAll. rewrite lines_of_plain by (apply no_crlf_WriteAll || apply ended_WriteAll; done).
  apply read_records_WriteAll; [done|lia].
Qed.
