(* ===== verification/RingBuffer.v ===== *)
(** The terminal replay buffer of a session: [RingBuffer] of
    src/internal/session/ringbuf.go, and the proof that it holds exactly the
    last [cap] bytes written to it. *)
From S2P Require Import Prelude.

Definition DefaultRingBufferSize : nat := Z.to_nat (256 * 1024).

(** [mu] only serialises the methods; every method below is one critical
    section. Bytes are [Z]; the cursor and the length are the Go [int]s, which
    are never negative. *)
Record RingBuffer := mkRing {
  rb_buf : list Z;
  rb_cap : nat;
  rb_head : nat; (* next write position *)
  rb_size : nat  (* current length *)
}.

Definition NewRingBuffer (capacity : Z) : RingBuffer :=
  let capacity := if (capacity <=? 0)%Z then DefaultRingBufferSize else Z.to_nat capacity in
  mkRing (replicate capacity 0%Z) capacity 0 0.

(** The loop body of [Write]. *)
Definition write_byte (r : RingBuffer) (b : Z) : RingBuffer :=
  mkRing (<[r.(rb_head) := b]> r.(rb_buf)) r.(rb_cap)
    ((r.(rb_head) + 1) `mod` r.(rb_cap))
    (if decide (r.(rb_size) < r.(rb_cap)) then r.(rb_size) + 1 else r.(rb_size)).

(** [copy(dst, src)]. *)
Definition go_copy (dst src : list Z) : list Z :=
  take (length dst) src ++ drop (length src) dst.

Definition Write (r : RingBuffer) (p : list Z) : RingBuffer * nat :=
  if decide (length p = 0) then (r, 0)
  else
    let n := length p in
    if decide (r.(rb_cap) <= n) then
      let p := drop (length p - r.(rb_cap)) p in
      (mkRing (go_copy r.(rb_buf) p) r.(rb_cap) 0 r.(rb_cap), n)
    else (foldl write_byte r p, n).

Definition Bytes (r : RingBuffer) : list Z :=
  if decide (r.(rb_size) = 0) then []
  else if decide (r.(rb_size) < r.(rb_cap)) then take r.(rb_size) r.(rb_buf)
  else drop r.(rb_head) r.(rb_buf) ++ take r.(rb_head) r.(rb_buf).

Definition Len (r : RingBuffer) : nat := r.(rb_size).

(** [teeWriter.Write]: [n] and [werr] are what the wrapped writer returned for
    [p]; what it accepted is mirrored into the buffer. *)
Definition tee_Write {E} (r : RingBuffer) (p : list Z) (n : nat) (werr : option E)
    : RingBuffer * (nat * option E) :=
  if decide (0 < n) then (fst (Write r (take n p)), (n, werr)) else (r, (n, werr)).

(** ** Invariant *)
Record ring_wf (r : RingBuffer) : Prop := {
  wf_cap : 0 < r.(rb_cap);
  wf_len : length r.(rb_buf) = r.(rb_cap);
  wf_head : r.(rb_head) < r.(rb_cap);
  wf_size : r.(rb_size) <= r.(rb_cap);
  wf_fill : r.(rb_size) < r.(rb_cap) -> r.(rb_head) = r.(rb_size)
}.

Lemma NewRingBuffer_cap c : 0 < rb_cap (NewRingBuffer c).
Proof.
  unfold NewRingBuffer. destruct (Z.leb_spec c 0); simpl; [|lia].
  apply Nat2Z.inj_lt. vm_compute. done.
Qed.
Lemma NewRingBuffer_wf c : ring_wf (NewRingBuffer c).
Proof.
  pose proof (NewRingBuffer_cap c).
  split; simpl in *; rewrite ?length_replicate; (done || lia).
Qed.

Lemma Bytes_length r : ring_wf r -> length (Bytes r) = rb_size r.
Proof.
  intros [? Hl ???]. unfold Bytes.
  repeat case_decide; simpl; [lia| |].
  - rewrite length_take. lia.
  - rewrite length_app, length_drop, length_take. lia.
Qed.

Lemma write_byte_spec r b :
  ring_wf r ->
  ring_wf (write_byte r b) /\
  Bytes (write_byte r b) = last_n (rb_cap r) (Bytes r ++ [b]).
Proof.
  intros Hwf. pose proof (Bytes_length r Hwf) as HB. destruct Hwf as [Hc Hl Hh Hs Hf].
  assert (Hhd : rb_head r < length (rb_buf r)) by lia.
  unfold write_byte. destruct (decide (rb_size r < rb_cap r)) as [Hlt|Hge].
  - specialize (Hf Hlt). split.
    + split; simpl; rewrite ?length_insert; try lia.
      * apply Nat.mod_upper_bound. lia.
      * intros. rewrite Nat.mod_small; lia.
    + rewrite last_n_all by (rewrite length_app, HB; simpl; lia).
      assert (HBr : Bytes r = take (rb_size r) (rb_buf r)).
      { unfold Bytes. repeat case_decide; try lia; try done.
        by replace (rb_size r) with 0 by lia. }
      rewrite HBr. unfold Bytes at 1; simpl.
      destruct (decide (rb_size r + 1 = 0)); [lia|].
      destruct (decide (rb_size r + 1 < rb_cap r)).
      * rewrite Nat.add_1_r, (take_S_r _ _ b); [by rewrite Hf, take_insert_ge by lia|].
        rewrite Hf in *. apply list_lookup_insert_eq. lia.
      * rewrite Hf in *. replace ((rb_size r + 1) `mod` rb_cap r) with 0.
        2:{ replace (rb_size r + 1) with (rb_cap r) by lia. by rewrite Nat.Div0.mod_same. }
        simpl. rewrite app_nil_r, drop_0, insert_take_drop by lia.
        rewrite drop_ge; [done|lia].
  - assert (HBr : Bytes r = drop (rb_head r) (rb_buf r) ++ take (rb_head r) (rb_buf r)).
    { unfold Bytes. repeat case_decide; lia || done. }
    split.
    + split; simpl; rewrite ?length_insert; try lia.
      apply Nat.mod_upper_bound. lia.
    + unfold last_n. rewrite length_app, HB; simpl.
      replace (rb_size r + 1 - rb_cap r) with 1 by lia. rewrite HBr.
      unfold Bytes; simpl.
      destruct (decide (rb_size r = 0)); [lia|].
      destruct (decide (rb_size r < rb_cap r)); [lia|].
      rewrite <- app_assoc, drop_app_le by (rewrite length_drop; lia).
      rewrite drop_drop.
      destruct (decide (rb_head r + 1 = rb_cap r)) as [He|He].
      * rewrite He, Nat.Div0.mod_same; simpl. rewrite app_nil_r, drop_0.
        rewrite insert_take_drop by lia. rewrite !(drop_ge (rb_buf r)) by lia. done.
      * rewrite Nat.mod_small by lia.
        rewrite drop_insert_lt by lia. f_equal.
        rewrite Nat.add_1_r. rewrite (take_S_r _ _ b); [by rewrite take_insert_ge by lia|].
        apply list_lookup_insert_eq. lia.
Qed.

Lemma write_bytes_spec r p :
  ring_wf r ->
  ring_wf (foldl write_byte r p) /\
  rb_cap (foldl write_byte r p) = rb_cap r /\
  Bytes (foldl write_byte r p) = last_n (rb_cap r) (Bytes r ++ p).
Proof.
  revert r. induction p as [|b p IH]; intros r Hwf; simpl.
  - rewrite app_nil_r, last_n_all; [done|].
    rewrite Bytes_length by done. apply Hwf.
  - destruct (write_byte_spec r b Hwf) as [Hwf' HB].
    destruct (IH _ Hwf') as (? & ? & HB'). split_and!; [done..|].
    rewrite HB', HB; simpl. rewrite last_n_last_n, <- app_assoc. done.
Qed.

Lemma Write_spec r p :
  ring_wf r ->
  ring_wf (fst (Write r p)) /\
  rb_cap (fst (Write r p)) = rb_cap r /\
  Bytes (fst (Write r p)) = last_n (rb_cap r) (Bytes r ++ p) /\
  snd (Write r p) = length p.
Proof.
  intros Hwf. unfold Write.
  destruct (decide (length p = 0)) as [Hp|Hp].
  { apply nil_length_inv in Hp as ->. simpl. rewrite app_nil_r, last_n_all; [done|].
    rewrite Bytes_length by done. apply Hwf. }
  destruct (decide (rb_cap r <= length p)) as [Hge|Hlt]; simpl.
  2:{ pose proof (write_bytes_spec r p Hwf). naive_solver. }
  destruct Hwf as [Hc Hl Hh Hs Hf].
  assert (Hcp : go_copy (rb_buf r) (drop (length p - rb_cap r) p) = last_n (rb_cap r) p).
  { unfold go_copy, last_n. rewrite Hl, length_drop, take_ge by (rewrite length_drop; lia).
    rewrite (drop_ge (rb_buf r)) by lia. by rewrite app_nil_r. }
  rewrite Hcp. split_and!; try done.
  - split; simpl; rewrite ?last_n_length; lia.
  - rewrite last_n_suffix by done. unfold Bytes; simpl.
    destruct (decide (rb_cap r = 0)); [lia|].
    destruct (decide (rb_cap r < rb_cap r)); [lia|].
    by rewrite drop_0, app_nil_r.
Qed.

(** C11. The replay buffer refines its specification: after any sequence of
    writes to a fresh buffer of any requested capacity, [Bytes] is exactly the
    last [cap] bytes of everything written, in order, and [Len] is its length. *)
Theorem ring_replay (capacity : Z) (ps : list (list Z)) :
  let r := foldl (fun r p => fst (Write r p)) (NewRingBuffer capacity) ps in
  Bytes r = last_n (rb_cap (NewRingBuffer capacity)) (concat ps) /\
  Len r = min (rb_cap (NewRingBuffer capacity)) (length (concat ps)).
Proof.
  assert (Hgen : forall r,
    ring_wf r ->
    let r' := foldl (fun r p => fst (Write r p)) r ps in
    ring_wf r' /\ Bytes r' = last_n (rb_cap r) (Bytes r ++ concat ps)).
  { induction ps as [|p ps IH]; intros r Hwf; simpl.
    - rewrite app_nil_r, last_n_all; [done|]. rewrite Bytes_length by done. apply Hwf.
    - destruct (Write_spec r p Hwf) as (Hwf' & Hcap & HB & _).
      destruct (IH _ Hwf') as [? HB']. split; [done|].
      by rewrite HB', Hcap, HB, last_n_last_n, app_assoc. }
  intros r. destruct (Hgen _ (NewRingBuffer_wf capacity)) as [Hwf HB]. fold r in Hwf, HB.
  assert (Bytes (NewRingBuffer capacity) = []) as Hnil by done.
  rewrite Hnil in HB. split; [done|].
  unfold Len. by rewrite <- Bytes_length, HB, last_n_length.
Qed.
