(* ===== verification/SharingRoom.v ===== *)
(** Rooms of a shared session: the write token, the participants, the
    handoff requests and the kick list (src/internal/sharing/registry.go).

    The methods of [Room] hold its mutex from the first line to the last, so
    each one is an atomic state transformer. [Registry] maps session IDs to
    room pointers: rooms live in a heap, because callers keep a [*Room] after
    the registry dropped it. *)
From S2P Require Import Prelude.

Inductive Role := RoleOwner | RoleViewer.
#[export] Instance Role_eq_dec : EqDecision Role. Proof. solve_decision. Defined.

(** The sentinel errors of package sharing (registry.go and invitations.go),
    and the errors an [InvitationStore] passes through from its database. *)
Inductive sharing_err :=
| ErrRoomNotFound | ErrParticipantMissing | ErrNotOwner | ErrNotWriter | ErrAlreadyWriter
| ErrRequestNotFound | ErrRequestNotPending | ErrCannotKickOwner | ErrCannotKickSelf
| ErrUserKicked | ErrInviterNoTargetAccess | ErrJoinerNoTargetAccess
| ErrInvitationNotFound | ErrInvitationExpired | ErrInvitationConsumed | ErrInvitationRevoked
| ErrInvitationModeInvalid | ErrInvitationKindInvalid
| ErrStoreNotConfigured | ErrTokenHashRequired
| ErrDatabase (msg : string).
#[export] Instance sharing_err_eq_dec : EqDecision sharing_err. Proof. solve_decision. Defined.

Inductive WriteRequestStatus :=
| WriteRequestPending | WriteRequestGranted | WriteRequestDenied | WriteRequestCanceled.
#[export] Instance WriteRequestStatus_eq_dec : EqDecision WriteRequestStatus. Proof. solve_decision. Defined.

Record Participant := mkParticipant {
  p_UserID : string;
  p_Username : string;
  p_Role : Role;
  p_JoinedAt : time;
  p_InvitationID : string (* invitation used to join; empty for owner *)
}.

Record WriteRequest := mkWriteRequest {
  wr_ID : string;
  wr_RequesterID : string;
  wr_RequesterName : string;
  wr_Status : WriteRequestStatus;
  wr_RequestedAt : time;
  wr_DecidedAt : time;
  wr_DecidedBy : string
}.
(** [WriteRequest{}] *)
Definition WriteRequest_zero : WriteRequest :=
  mkWriteRequest "" "" "" WriteRequestPending zero_time zero_time "".

Definition decide_request (wr : WriteRequest) (st : WriteRequestStatus) (at_ : time) (by_ : string)
    : WriteRequest :=
  mkWriteRequest (wr_ID wr) (wr_RequesterID wr) (wr_RequesterName wr) st (wr_RequestedAt wr) at_ by_.

Record Room := mkRoom {
  sessionID : string;
  targetID : string;
  ownerID : string;
  writerID : string; (* user that currently holds stdin write capability *)
  createdAt : time;
  memberByID : gmap string Participant;
  requests : gmap string WriteRequest;
  kicked : gset string
}.

Definition set_writer (r : Room) (w : string) : Room :=
  mkRoom (sessionID r) (targetID r) (ownerID r) w (createdAt r) (memberByID r) (requests r) (kicked r).
Definition set_members (r : Room) (m : gmap string Participant) : Room :=
  mkRoom (sessionID r) (targetID r) (ownerID r) (writerID r) (createdAt r) m (requests r) (kicked r).
Definition set_requests (r : Room) (q : gmap string WriteRequest) : Room :=
  mkRoom (sessionID r) (targetID r) (ownerID r) (writerID r) (createdAt r) (memberByID r) q (kicked r).
Definition set_kicked (r : Room) (k : gset string) : Room :=
  mkRoom (sessionID r) (targetID r) (ownerID r) (writerID r) (createdAt r) (memberByID r) (requests r) k.

(** ** Queries *)
Definition HasWriter (r : Room) (userID : string) : bool := bool_decide (writerID r = userID).
Definition IsParticipant (r : Room) (userID : string) : bool :=
  match memberByID r !! userID with Some _ => true | None => false end.
Definition IsKicked (r : Room) (userID : string) : bool := bool_decide (userID ∈ kicked r).

(** Owner first, then by [JoinedAt] ascending. *)
Definition participant_less (a b : Participant) : bool :=
  if decide (p_Role a = p_Role b) then Before (p_JoinedAt a) (p_JoinedAt b)
  else bool_decide (p_Role a = RoleOwner).
Definition Participants `{MapRange} (r : Room) : list Participant :=
  sort_stable participant_less (snd <$> range (memberByID r)).

Definition PendingRequests `{MapRange} (r : Room) : list WriteRequest :=
  sort_stable (fun a b => Before (wr_RequestedAt a) (wr_RequestedAt b))
    (filter (fun wr => wr_Status wr = WriteRequestPending) (snd <$> range (requests r))).

Definition KickedUserIDs (r : Room) : list string := sort_strings (elements (kicked r)).

Definition ParticipantUserIDsForInvitation `{MapRange} (r : Room) (invitationID : string) : list string :=
  if decide (invitationID = ""%string) then []
  else sort_strings (fst <$> filter
         (fun up => p_Role up.2 = RoleViewer /\ p_InvitationID up.2 = invitationID)
         (range (memberByID r))).

(** ** Mutators: the new state and the Go results *)
Definition Unkick (r : Room) (userID : string) : Room * bool :=
  if decide (userID ∈ kicked r) then (set_kicked r (kicked r ∖ {[userID]}), true)
  else (r, false).

Definition AddViewer (r : Room) (userID username invitationID : string) (now : time)
    : Room * result sharing_err unit :=
  if decide (userID ∈ kicked r) then (r, Err ErrUserKicked)
  else
    match memberByID r !! userID with
    | Some existing =>
        let existing := mkParticipant (p_UserID existing)
          (if decide (username <> ""%string) then username else p_Username existing)
          (p_Role existing) (p_JoinedAt existing)
          (if decide (invitationID <> ""%string) then invitationID else p_InvitationID existing) in
        (set_members r (<[userID := existing]> (memberByID r)), Ok tt)
    | None =>
        (set_members r
           (<[userID := mkParticipant userID username RoleViewer now invitationID]> (memberByID r)),
         Ok tt)
    end.

(** The loop that cancels the pending requests of one user. *)
Definition cancel_pending_of (userID : string) (now : time) (wr : WriteRequest) : WriteRequest :=
  if decide (wr_RequesterID wr = userID /\ wr_Status wr = WriteRequestPending)
  then decide_request wr WriteRequestCanceled now userID
  else wr.

Definition RemoveParticipant (r : Room) (userID : string) (now : time)
    : Room * result sharing_err unit :=
  if decide (userID = ownerID r) then (r, Err ErrCannotKickOwner)
  else
    match memberByID r !! userID with
    | None => (r, Err ErrParticipantMissing)
    | Some _ =>
        let r := set_members r (delete userID (memberByID r)) in
        let r := set_kicked r (kicked r ∪ {[userID]}) in
        let r := set_requests r (cancel_pending_of userID now <$> requests r) in
        (if decide (writerID r = userID) then set_writer r (ownerID r) else r, Ok tt)
    end.

Definition RequestWrite (r : Room) (reqID userID username : string) (now : time)
    : Room * result sharing_err WriteRequest :=
  match memberByID r !! userID with
  | None => (r, Err ErrParticipantMissing)
  | Some p =>
      if decide (writerID r = userID) then (r, Err ErrAlreadyWriter)
      else
        let r := set_requests r (cancel_pending_of userID now <$> requests r) in
        let name := if decide (p_Username p = ""%string) then username else p_Username p in
        let wr := mkWriteRequest reqID userID name WriteRequestPending now zero_time "" in
        (set_requests r (<[reqID := wr]> (requests r)), Ok wr)
  end.

(** Go returns the request, the previous writer and the error together; the
    requester-left branch returns both a request and an error. *)
Definition GrantWrite (r : Room) (reqID decidedBy : string) (now : time)
    : Room * (WriteRequest * string * option sharing_err) :=
  match requests r !! reqID with
  | None => (r, (WriteRequest_zero, ""%string, Some ErrRequestNotFound))
  | Some wr =>
      if decide (wr_Status wr <> WriteRequestPending)
      then (r, (WriteRequest_zero, ""%string, Some ErrRequestNotPending))
      else if decide (decidedBy <> writerID r)
      then (r, (WriteRequest_zero, ""%string, Some ErrNotWriter))
      else
        match memberByID r !! wr_RequesterID wr with
        | None =>
            let wr := decide_request wr WriteRequestCanceled now decidedBy in
            (set_requests r (<[reqID := wr]> (requests r)), (wr, ""%string, Some ErrParticipantMissing))
        | Some _ =>
            let previous := writerID r in
            let r := set_writer r (wr_RequesterID wr) in
            let wr := decide_request wr WriteRequestGranted now decidedBy in
            (set_requests r (<[reqID := wr]> (requests r)), (wr, previous, None))
        end
  end.

Definition DenyWrite (r : Room) (reqID decidedBy : string) (now : time)
    : Room * result sharing_err WriteRequest :=
  match requests r !! reqID with
  | None => (r, Err ErrRequestNotFound)
  | Some wr =>
      if decide (wr_Status wr <> WriteRequestPending) then (r, Err ErrRequestNotPending)
      else if decide (decidedBy <> writerID r) then (r, Err ErrNotWriter)
      else
        let wr := decide_request wr WriteRequestDenied now decidedBy in
        (set_requests r (<[reqID := wr]> (requests r)), Ok wr)
  end.

Definition ReleaseWrite (r : Room) (userID : string) : Room * result sharing_err string :=
  if decide (writerID r <> userID) then (r, Err ErrNotWriter)
  else if decide (userID = ownerID r) then (r, Ok (ownerID r))
  else (set_writer r (ownerID r), Ok (writerID r)).

(** ** The registry *)
Record Registry := mkRegistry {
  reg_rooms : gmap string nat;  (* session ID -> room pointer *)
  reg_heap : gmap nat Room;     (* the rooms the pointers stand for *)
  reg_next : nat                (* a pointer never handed out before *)
}.

Definition NewRegistry : Registry := mkRegistry ∅ ∅ 0.

(** The room [EnsureRoom] builds. *)
Definition new_room (sessionID targetID ownerID ownerName : string) (now : time) : Room :=
  mkRoom sessionID targetID ownerID ownerID now
    {[ownerID := mkParticipant ownerID ownerName RoleOwner now ""]} ∅ ∅.

Definition EnsureRoom (reg : Registry) (sessionID targetID ownerID ownerName : string) (now : time)
    : Registry * nat :=
  match reg_rooms reg !! sessionID with
  | Some ref => (reg, ref)
  | None =>
      let ref := reg_next reg in
      (mkRegistry (<[sessionID := ref]> (reg_rooms reg))
         (<[ref := new_room sessionID targetID ownerID ownerName now]> (reg_heap reg)) (S ref), ref)
  end.

Definition reg_Len (reg : Registry) : nat := size (reg_rooms reg).
Definition reg_Get (reg : Registry) (sessionID : string) : option nat := reg_rooms reg !! sessionID.
Definition reg_Remove (reg : Registry) (sessionID : string) : Registry :=
  mkRegistry (delete sessionID (reg_rooms reg)) (reg_heap reg) (reg_next reg).
Definition RoomsForUser `{MapRange} (reg : Registry) (userID : string) : list string :=
  sort_strings (fst <$> filter
    (fun sr => ((fun room => IsParticipant room userID) <$> reg_heap reg !! sr.2) = Some true)
    (range (reg_rooms reg))).

(** Running a room method through a pointer. *)
Definition with_room {A} (reg : Registry) (ref : nat) (default : A) (f : Room -> Room * A)
    : Registry * A :=
  match reg_heap reg !! ref with
  | Some room =>
      let (room, a) := f room in
      (mkRegistry (reg_rooms reg) (<[ref := room]> (reg_heap reg)) (reg_next reg), a)
  | None => (reg, default)
  end.

(** ** Runs of a room

    The operations other goroutines may interleave, and the state after one of
    them; a history is a list of operations. *)
Inductive room_op :=
| OpUnkick (userID : string)
| OpAddViewer (userID username invitationID : string) (now : time)
| OpRemove (userID : string) (now : time)
| OpRequest (reqID userID username : string) (now : time)
| OpGrant (reqID decidedBy : string) (now : time)
| OpDeny (reqID decidedBy : string) (now : time)
| OpRelease (userID : string).

Definition room_exec (r : Room) (op : room_op) : Room :=
  match op with
  | OpUnkick u => fst (Unkick r u)
  | OpAddViewer u n i t => fst (AddViewer r u n i t)
  | OpRemove u t => fst (RemoveParticipant r u t)
  | OpRequest q u n t => fst (RequestWrite r q u n t)
  | OpGrant q u t => fst (GrantWrite r q u t)
  | OpDeny q u t => fst (DenyWrite r q u t)
  | OpRelease u => fst (ReleaseWrite r u)
  end.
Definition room_run (r : Room) (ops : list room_op) : Room := foldl room_exec r ops.

(** ** The invariant of a room *)
Definition pending_from (r : Room) (id u : string) : Prop :=
  exists wr, requests r !! id = Some wr /\ wr_Status wr = WriteRequestPending /\ wr_RequesterID wr = u.

Record room_wf (r : Room) : Prop := {
  (* the owner is a member, and the only one with the owner role *)
  wf_owner : is_Some (memberByID r !! ownerID r);
  wf_members : forall u p, memberByID r !! u = Some p ->
    p_UserID p = u /\ (p_Role p = RoleOwner <-> u = ownerID r);
  (* the write token is always held by a member: input is never orphaned *)
  wf_writer : is_Some (memberByID r !! writerID r);
  (* nobody is both in the room and barred from it *)
  wf_kicked : forall u, u ∈ kicked r -> memberByID r !! u = None;
  wf_request_ids : forall id wr, requests r !! id = Some wr -> wr_ID wr = id;
  (* pending requests come from members, and at most one from each *)
  wf_pending_member : forall id u, pending_from r id u -> is_Some (memberByID r !! u);
  wf_pending_unique : forall id1 id2 u, pending_from r id1 u -> pending_from r id2 u -> id1 = id2
}.

Lemma new_room_wf sid tid oid name now : room_wf (new_room sid tid oid name now).
Proof.
  split; simpl; unfold pending_from; simpl.
  - rewrite lookup_singleton_eq. eauto.
  - intros u p [<- <-]%lookup_singleton_Some. done.
  - rewrite lookup_singleton_eq. eauto.
  - set_solver.
  - done.
  - intros id u (wr & H & _). done.
  - intros id1 id2 u (wr & H & _). done.
Qed.

(** Looking up a request after the cancellation loop: only pending requests of
    that user changed, and none of theirs is pending any more. *)
Lemma lookup_cancel r u now id v :
  pending_from (set_requests r (cancel_pending_of u now <$> requests r)) id v <->
  pending_from r id v /\ v <> u.
Proof.
  unfold pending_from; simpl. rewrite lookup_fmap.
  destruct (requests r !! id) as [wr|]; simpl; [|naive_solver].
  unfold cancel_pending_of. split.
  - intros (wr' & [= <-] & Hp & Hr). case_decide as Hd; simpl in *; [done|].
    naive_solver.
  - intros [(wr' & [= <-] & Hp & Hr) Hne]. eexists. split; [done|].
    rewrite decide_False by naive_solver. done.
Qed.
Lemma cancel_ids r u now :
  (forall id wr, requests r !! id = Some wr -> wr_ID wr = id) ->
  forall id wr, (cancel_pending_of u now <$> requests r) !! id = Some wr -> wr_ID wr = id.
Proof.
  intros H id wr. rewrite lookup_fmap, fmap_Some. intros (wr' & Hl & ->).
  unfold cancel_pending_of. case_decide; simpl; eauto.
Qed.

(** Replacing one request. *)
Lemma pending_insert r id wr id' u :
  pending_from (set_requests r (<[id := wr]> (requests r))) id' u <->
  (id' = id /\ wr_Status wr = WriteRequestPending /\ wr_RequesterID wr = u) \/
  (id' <> id /\ pending_from r id' u).
Proof.
  unfold pending_from; simpl. destruct (decide (id' = id)) as [->|Hne].
  - rewrite lookup_insert_eq. naive_solver.
  - rewrite lookup_insert_ne by done. naive_solver.
Qed.
(** A request that leaves the pending state creates no pending request. *)
Lemma decide_wf r id wr st now by_ :
  room_wf r -> requests r !! id = Some wr -> st <> WriteRequestPending ->
  room_wf (set_requests r (<[id := decide_request wr st now by_]> (requests r))).
Proof.
  intros [????? Hm Hu] Hl Hst. split; simpl; try done.
  - intros id' wr'. rewrite lookup_insert_Some.
    intros [[<- <-]|[? ?]]; simpl; eauto.
  - intros id' u. rewrite pending_insert. simpl. naive_solver.
  - intros id1 id2 u. rewrite !pending_insert. simpl. naive_solver.
Qed.
(** Handing the token to a member keeps the invariant. *)
Lemma set_writer_wf r w : room_wf r -> is_Some (memberByID r !! w) -> room_wf (set_writer r w).
Proof. intros [] ?. by split. Qed.

Lemma Unkick_wf r u : room_wf r -> room_wf (fst (Unkick r u)).
Proof.
  intros [??? Hk ???]. unfold Unkick. case_decide; [|by split].
  split; simpl; try done. intros v Hv. apply Hk. set_solver.
Qed.
Lemma AddViewer_wf r u n i now : room_wf r -> room_wf (fst (AddViewer r u n i now)).
Proof.
  intros [Ho Hm Hw Hk Hid Hp Hu]. unfold AddViewer. case_decide as Hnk; [by split|].
  assert (Hmono : forall p v, is_Some (memberByID r !! v) -> is_Some (<[u:=p]> (memberByID r) !! v)).
  { intros p v. rewrite !lookup_insert_is_Some'. auto. }
  destruct (memberByID r !! u) as [p|] eqn:Hl; simpl.
  - split; simpl; eauto.
    + intros v q [[<- <-]|[? ?]]%lookup_insert_Some; [|by apply Hm].
      simpl. by apply Hm.
    + intros v Hv. rewrite lookup_insert_ne by set_solver. by apply Hk.
  - split; simpl; eauto.
    + intros v q [[<- <-]|[? ?]]%lookup_insert_Some; [|by apply Hm].
      simpl. split; [done|]. split; [done|]. intros ->. destruct Ho. congruence.
    + intros v Hv. rewrite lookup_insert_ne by set_solver. by apply Hk.
Qed.
Lemma RemoveParticipant_wf r u now : room_wf r -> room_wf (fst (RemoveParticipant r u now)).
Proof.
  intros [Ho Hm Hw Hk Hid Hp Hu]. unfold RemoveParticipant. case_decide as Hne; [by split|].
  destruct (memberByID r !! u) as [p|] eqn:Hl; [|by split]. simpl.
  set (r1 := set_requests _ _).
  assert (Hpend : forall id v, pending_from r1 id v <-> pending_from r id v /\ v <> u).
  { intros. unfold r1, set_kicked, set_members. apply (lookup_cancel r). }
  assert (Hgen : forall w, w <> u -> is_Some (memberByID r !! w) -> room_wf (set_writer r1 w)).
  { intros w Hwu Hww. split; simpl.
    - by rewrite lookup_delete_ne by done.
    - intros v q [? ?]%lookup_delete_Some. by apply Hm.
    - by rewrite lookup_delete_ne by done.
    - intros v Hv. apply lookup_delete_None. destruct (decide (u = v)); [by left|right]. apply Hk. set_solver.
    - by apply cancel_ids.
    - intros id v Hv. change (pending_from r1 id v) in Hv. apply Hpend in Hv as [? ?].
      rewrite lookup_delete_ne by done. eauto.
    - intros id1 id2 v H1 H2. change (pending_from r1 id1 v) in H1. change (pending_from r1 id2 v) in H2.
      apply Hpend in H1 as [? _]. apply Hpend in H2 as [? _]. eauto. }
  case_decide as Hwr; simpl in *.
  - apply Hgen; auto.
  - apply (Hgen (writerID r)); auto.
Qed.
Lemma RequestWrite_wf r q u n now : room_wf r -> room_wf (fst (RequestWrite r q u n now)).
Proof.
  intros [Ho Hm Hw Hk Hid Hp Hu]. unfold RequestWrite.
  destruct (memberByID r !! u) as [p|] eqn:Hl; [|by split].
  case_decide; [by split|]. simpl.
  set (r1 := set_requests r (cancel_pending_of u now <$> requests r)).
  split; simpl; try done.
  - intros id wr [[<- <-]|[? ?]]%lookup_insert_Some; [done|]. by eapply cancel_ids.
  - intros id v Hv. apply (pending_insert r1) in Hv. simpl in Hv.
    destruct Hv as [(_ & _ & <-)|[_ Hv]]; [eauto|]. apply lookup_cancel in Hv as [? _]. eauto.
  - intros id1 id2 v H1 H2. apply (pending_insert r1) in H1. apply (pending_insert r1) in H2. simpl in *.
    unfold r1 in H1, H2. rewrite lookup_cancel in H1, H2. naive_solver.
Qed.
Lemma GrantWrite_wf r q u now : room_wf r -> room_wf (fst (GrantWrite r q u now)).
Proof.
  intros Hwf. unfold GrantWrite. destruct (requests r !! q) as [wr|] eqn:Hl; [|done].
  repeat case_decide; try done. destruct (memberByID r !! wr_RequesterID wr) eqn:Hm; simpl.
  - apply (decide_wf (set_writer r (wr_RequesterID wr))); try done. apply set_writer_wf; eauto.
  - by apply decide_wf.
Qed.
Lemma DenyWrite_wf r q u now : room_wf r -> room_wf (fst (DenyWrite r q u now)).
Proof.
  intros Hwf. unfold DenyWrite. destruct (requests r !! q) as [wr|] eqn:Hl; [|done].
  repeat case_decide; try done. by apply decide_wf.
Qed.
Lemma ReleaseWrite_wf r u : room_wf r -> room_wf (fst (ReleaseWrite r u)).
Proof.
  intros Hwf. unfold ReleaseWrite. repeat case_decide; try done.
  apply set_writer_wf; [done|apply Hwf].
Qed.
#[export] Hint Resolve new_room_wf Unkick_wf AddViewer_wf RemoveParticipant_wf RequestWrite_wf
  GrantWrite_wf DenyWrite_wf ReleaseWrite_wf : vantyx.

Lemma room_exec_wf r op : room_wf r -> room_wf (room_exec r op).
Proof. destruct op; simpl; auto with vantyx. Qed.
Lemma room_run_wf r ops : room_wf r -> room_wf (room_run r ops).
Proof. revert r. induction ops; simpl; auto using room_exec_wf. Qed.

(** ** Properties *)

(** C9. Whatever sequence of operations a shared session sees, the room stays
    well formed: the owner is a member and the only owner, the write token is
    held by a member, nobody is both a member and barred, and each pending
    handoff request comes from a member who has no other. *)
Theorem room_invariant sid tid oid name now ops :
  room_wf (room_run (new_room sid tid oid name now) ops).
Proof. apply room_run_wf, new_room_wf. Qed.

(** What each operation may do to the write token. *)
Definition token_move_allowed (r : Room) (op : room_op) (w : string) : Prop :=
  match op with
  | OpGrant q by_ _ => by_ = writerID r /\ pending_from r q w /\ is_Some (memberByID r !! w)
  | OpRelease u => u = writerID r /\ w = ownerID r
  | OpRemove u _ => u = writerID r /\ u <> ownerID r /\ w = ownerID r
  | _ => False
  end.

(** The write token of a room changes hands in three ways only: the
    current writer grants a pending request of a member, the current writer
    releases it to the owner, or the current writer is removed and it returns
    to the owner. *)
Theorem write_token_moves r op :
  writerID (room_exec r op) <> writerID r ->
  token_move_allowed r op (writerID (room_exec r op)).
Proof.
  destruct op; simpl.
  - unfold Unkick. by case_decide.
  - unfold AddViewer. by repeat case_match.
  - unfold RemoveParticipant. repeat case_decide; simplify_eq; try done; destruct (memberByID r !! userID); done.
  - unfold RequestWrite. by repeat case_match.
  - unfold GrantWrite, pending_from. destruct (requests r !! reqID) as [wr|] eqn:?; [|done].
    repeat case_decide; try done.
    destruct (memberByID r !! wr_RequesterID wr) eqn:?; simpl; [|done].
    intros _. split; [by stable_eq|]. split; [|eauto]. eexists; split; [done|].
    split; [by stable_eq|done].
  - unfold DenyWrite. by repeat case_match.
  - unfold ReleaseWrite. repeat case_decide; simpl; try done.
Qed.

(** A kick survives every operation but an explicit [Unkick] of that user. *)
Lemma room_exec_kicked r op u :
  u ∈ kicked r -> op <> OpUnkick u -> u ∈ kicked (room_exec r op).
Proof.
  intros Hk Hop. destruct op; simpl.
  1: unfold Unkick. 2: unfold AddViewer. 3: unfold RemoveParticipant. 4: unfold RequestWrite.
  5: unfold GrantWrite. 6: unfold DenyWrite. 7: unfold ReleaseWrite.
  all: repeat case_match; simpl; try done; set_solver.
Qed.
Lemma room_run_kicked r ops u :
  u ∈ kicked r -> OpUnkick u ∉ ops -> u ∈ kicked (room_run r ops).
Proof.
  revert r. induction ops as [|op ops IH]; intros r Hk Hn; simpl; [done|].
  apply IH; [apply room_exec_kicked; [done|]|]; set_solver.
Qed.

(** A viewer the owner kicked stays out: after the kick, in every later
    state of the room that was not preceded by a re-invitation of that user,
    the user is not a participant, holds no write token, has no pending
    request, and joining again is refused without changing the room. *)
Theorem kicked_stays_out r u now ops username inv later :
  room_wf r -> snd (RemoveParticipant r u now) = Ok tt -> OpUnkick u ∉ ops ->
  let r' := room_run (fst (RemoveParticipant r u now)) ops in
  IsParticipant r' u = false /\ HasWriter r' u = false /\ (forall id, ~ pending_from r' id u) /\
  AddViewer r' u username inv later = (r', Err ErrUserKicked).
Proof.
  intros Hwf Hrm Hops r'.
  assert (Hwf' : room_wf r') by (apply room_run_wf; auto with vantyx).
  assert (Hk : u ∈ kicked r').
  { apply room_run_kicked; [|done]. revert Hrm. unfold RemoveParticipant.
    repeat case_match; simpl; try done; set_solver. }
  pose proof (wf_kicked _ Hwf' _ Hk) as Hm.
  split; [unfold IsParticipant; by rewrite Hm|]. split.
  { unfold HasWriter. apply bool_decide_eq_false. intros Hw.
    destruct (wf_writer _ Hwf'). congruence. }
  split; [intros id Hp; destruct (wf_pending_member _ Hwf' _ _ Hp); congruence|].
  unfold AddViewer. by rewrite decide_True.
Qed.

Definition demo_room : Room :=
  room_run (new_room "s" "t" "alice" "Alice" 1)
    [OpAddViewer "bob" "Bob" "inv1" 2; OpRequest "q1" "bob" "Bob" 3; OpGrant "q1" "alice" 4].
Lemma demo_room_wf : room_wf demo_room.
Proof. apply room_run_wf, new_room_wf. Qed.

Lemma kicked_stays_out_witness :
  let r' := room_run (fst (RemoveParticipant demo_room "bob" 5)) [OpAddViewer "bob" "Bob" "inv2" 6] in
  writerID demo_room = "bob" /\ writerID r' = "alice" /\
  AddViewer r' "bob" "Bob" "inv3" 7 = (r', Err ErrUserKicked).
Proof.
  split; [reflexivity|]. split; [reflexivity|].
  apply (kicked_stays_out demo_room "bob" 5 [OpAddViewer "bob" "Bob" "inv2" 6] "Bob" "inv3" 7).
  - apply demo_room_wf.
  - reflexivity.
  - apply not_elem_of_cons. split; [discriminate|]. apply not_elem_of_nil.
Defined.
Lemma write_token_moves_witness :
  token_move_allowed demo_room (OpRemove "bob" 5) (writerID (room_exec demo_room (OpRemove "bob" 5))).
Proof. apply (write_token_moves demo_room (OpRemove "bob" 5)). vm_compute. discriminate. Defined.

(** In a well-formed room [GrantWrite] behaves as a compare-and-swap of
    the token: it succeeds exactly when the request is pending and the decider
    holds the token; then the requester holds it, the request is recorded as
    granted and the previous writer is returned. Otherwise it reports the
    first failing check and the room is untouched; the branch for a requester
    that left is never taken. *)
Theorem grant_write_spec r q by_ now :
  room_wf r ->
  GrantWrite r q by_ now =
  match requests r !! q with
  | None => (r, (WriteRequest_zero, ""%string, Some ErrRequestNotFound))
  | Some wr =>
      if decide (wr_Status wr = WriteRequestPending) then
        if decide (by_ = writerID r) then
          let wr' := decide_request wr WriteRequestGranted now by_ in
          (set_requests (set_writer r (wr_RequesterID wr)) (<[q := wr']> (requests r)),
           (wr', writerID r, None))
        else (r, (WriteRequest_zero, ""%string, Some ErrNotWriter))
      else (r, (WriteRequest_zero, ""%string, Some ErrRequestNotPending))
  end.
Proof.
  intros Hwf. unfold GrantWrite. destruct (requests r !! q) as [wr|] eqn:Hq; [|done].
  repeat case_decide; try done.
  destruct (wf_pending_member _ Hwf q (wr_RequesterID wr)) as [p Hp]; [by exists wr|].
  by rewrite Hp.
Qed.
Lemma grant_write_spec_witness :
  GrantWrite demo_room "q1" "bob" 9 = (demo_room, (WriteRequest_zero, ""%string, Some ErrRequestNotPending)).
Proof. rewrite (grant_write_spec demo_room "q1" "bob" 9 demo_room_wf). reflexivity. Defined.

Lemma Participants_perm `{MapRange} r : Participants r ≡ₚ snd <$> map_to_list (memberByID r).
Proof. unfold Participants. by rewrite sort_stable_perm, range_perm. Qed.
Lemma elem_of_Participants `{MapRange} r p :
  room_wf r -> p ∈ Participants r <-> memberByID r !! p_UserID p = Some p.
Proof.
  intros Hwf. rewrite Participants_perm, list_elem_of_fmap. split.
  - intros ([k v] & -> & Hkv%elem_of_map_to_list). simpl.
    by destruct (wf_members _ Hwf _ _ Hkv) as [-> _].
  - intros Hl. exists (p_UserID p, p). by rewrite elem_of_map_to_list.
Qed.
Lemma NoDup_Participants `{MapRange} r : room_wf r -> NoDup (Participants r).
Proof.
  intros Hwf. rewrite Participants_perm. apply (NoDup_fmap_1 p_UserID).
  rewrite <- list_fmap_compose.
  rewrite (list_fmap_ext _ fst); [apply NoDup_fst_map_to_list|].
  intros _ [k v] Hkv%list_elem_of_lookup_2%elem_of_map_to_list. simpl. by apply (wf_members _ Hwf).
Qed.
Lemma participant_less_asym a b : participant_less a b = true -> participant_less b a = false.
Proof.
  unfold participant_less, Before. destruct (p_Role a), (p_Role b); simpl; try done.
  all: rewrite Z.ltb_lt, Z.ltb_ge; lia.
Qed.
Lemma participant_neg_trans a b c :
  not_after participant_less a b -> not_after participant_less b c -> not_after participant_less a c.
Proof.
  unfold not_after, participant_less, Before.
  destruct (p_Role a), (p_Role b), (p_Role c); simpl; rewrite ?Z.ltb_ge; try done; lia.
Qed.

(** The participant list shown to clients is the room's member map, each
    member once, whatever order the map is iterated in, with the owner first
    and the viewers after it in order of joining. *)
Theorem participants_sorted `{MapRange} r :
  room_wf r ->
  Participants r ≡ₚ snd <$> map_to_list (memberByID r) /\ NoDup (Participants r) /\
  exists o vs, Participants r = o :: vs /\ p_UserID o = ownerID r /\ p_Role o = RoleOwner /\
    Forall (fun p => p_Role p = RoleViewer) vs /\
    StronglySorted (fun a b => (p_JoinedAt a <= p_JoinedAt b)%Z) vs.
Proof.
  intros Hwf. pose proof (NoDup_Participants r Hwf) as Hnd.
  split; [apply Participants_perm|]. split; [done|].
  pose proof (sort_stable_sorted _ participant_less_asym participant_neg_trans
    (snd <$> range (memberByID r))) as HS. fold (Participants r) in HS.
  destruct (wf_owner _ Hwf) as [o Ho]. destruct (wf_members _ Hwf _ _ Ho) as [Hou Hor].
  assert (Huniq : forall p, p ∈ Participants r -> p_Role p = RoleOwner -> p = o).
  { intros p Hp%elem_of_Participants Hr; [|done].
    pose proof (proj2 (wf_members _ Hwf _ _ Hp)) as HR. apply HR in Hr. congruence. }
  assert (Hin : o ∈ Participants r) by (apply elem_of_Participants; [done|by rewrite Hou]).
  destruct (Participants r) as [|p0 vs]; [by apply not_elem_of_nil in Hin|].
  apply StronglySorted_inv in HS as [HS HF]. apply NoDup_cons in Hnd as [Hn0 Hnd].
  assert (p0 = o) as ->.
  { apply elem_of_cons in Hin as [->|Hin]; [done|]. apply Huniq; [set_solver|].
    rewrite Forall_forall in HF. specialize (HF _ Hin).
    unfold not_after, participant_less in HF. rewrite (proj2 Hor eq_refl) in HF.
    destruct (p_Role p0); [done|]. simpl in HF. done. }
  assert (Hvs : Forall (fun p => p_Role p = RoleViewer) vs).
  { apply Forall_forall. intros p Hp. destruct (p_Role p) eqn:E; [|done].
    apply Huniq in E; [congruence|set_solver]. }
  exists o, vs. split; [done|]. split; [done|]. split; [by apply Hor|]. split; [done|].
  clear -HS Hvs. induction HS as [|a l HS IH HF]; constructor; inversion Hvs; subst; [by apply IH|].
  rewrite Forall_forall in *. intros b Hb. specialize (HF b Hb).
  unfold not_after, participant_less, Before in HF.
  rewrite (H2 b Hb), H1, decide_True in HF by done. by apply Z.ltb_ge in HF.
Qed.
Lemma participants_sorted_witness :
  exists o vs, Participants demo_room = o :: vs /\ p_UserID o = ownerID demo_room /\
    Forall (fun p => p_Role p = RoleViewer) vs.
Proof.
  destruct (participants_sorted demo_room demo_room_wf) as (_ & _ & o & vs & H1 & H2 & _ & H3 & _).
  exists o, vs. split; [exact H1|]. split; [exact H2|exact H3].
Defined.
