(* ===== verification/Sqlite.v ===== *)
(** The database layer the stores share: [database/sql] over SQLite.

    A store operation is a sequence of statements. Each statement is atomic on
    the tables; between its statements an operation may fail, because any
    statement may return a driver error (a cancelled context, a full disk, a
    locked file). [conn] carries the tables and an oracle that says which of
    the next statements fail, so that a theorem about [c : conn T] covers every
    failure. A transaction restores the tables unless its [Commit] succeeds.

    [db.configured] is the [s == nil || s.db == nil] test of the stores. *)
From S2P Require Import Prelude GoText.

Record conn (T : Type) := mkConn {
  configured : bool;
  tables : T;
  faults : list (option string) (* [Some msg]: the statement fails with [msg] *)
}.
Arguments mkConn {T}. Arguments configured {T}. Arguments tables {T}. Arguments faults {T}.

(** A connection on which no statement fails. *)
Definition healthy {T} (c : conn T) : Prop := configured c = true /\ faults c = [].
Definition connect {T} (t : T) : conn T := mkConn true t [].

(** How a package's error type embeds the driver's errors. *)
Class DBError (E : Type) := db_error : string -> E.

Definition DB (T E A : Type) : Type := conn T -> conn T * result E A.

Section db.
Context {T E : Type}.

Definition db_ret {A} (a : A) : DB T E A := fun c => (c, Ok a).
Definition db_throw {A} (e : E) : DB T E A := fun c => (c, Err e).
Definition db_bind {A B} (m : DB T E A) (k : A -> DB T E B) : DB T E B := fun c =>
  match m c with
  | (c', Ok a) => k a c'
  | (c', Err e) => (c', Err e)
  end.
(** [r, err := m]: the caller looks at the error itself. *)
Definition db_catch {A} (m : DB T E A) : DB T E (result E A) := fun c =>
  let (c', r) := m c in (c', Ok r).
Definition db_of {A} (r : result E A) : DB T E A := fun c => (c, r).
Definition db_configured (e : E) : DB T E unit := fun c =>
  if configured c then (c, Ok tt) else (c, Err e).

Definition set_tables (c : conn T) (t : T) : conn T := mkConn (configured c) t (faults c).

Context `{DBError E}.

(** The driver call of one statement: fails when the oracle says so. *)
Definition db_call : DB T E unit := fun c =>
  match faults c with
  | [] => (c, Ok tt)
  | f :: fs =>
      (mkConn (configured c) (tables c) fs,
       match f with Some msg => Err (db_error msg) | None => Ok tt end)
  end.

(** A statement: new tables and a value, or a constraint violation, which
    leaves the tables alone. *)
Definition db_exec {A} (f : T -> result string (T * A)) : DB T E A := fun c =>
  match db_call c with
  | (c', Ok _) =>
      match f (tables c') with
      | Ok (t, a) => (set_tables c' t, Ok a)
      | Err msg => (c', Err (db_error msg))
      end
  | (c', Err e) => (c', Err e)
  end.
Definition db_query {A} (f : T -> A) : DB T E A := db_exec (fun t => Ok (t, f t)).

(** [BeginTx]; the body; [Commit], with a deferred [Rollback]. *)
Definition db_tx {A} (body : DB T E A) : DB T E A := fun c =>
  match db_call c with
  | (c0, Ok _) =>
      match body c0 with
      | (c1, Ok a) =>
          match db_call c1 with
          | (c2, Ok _) => (c2, Ok a)
          | (c2, Err e) => (set_tables c2 (tables c0), Err e)
          end
      | (c1, Err e) => (set_tables c1 (tables c0), Err e)
      end
  | (c0, Err e) => (c0, Err e)
  end.
End db.

Notation "'let*' x ':=' m 'in' k" := (db_bind m (fun x => k))
  (at level 10, x pattern, m at level 100, k at level 200) : go_scope.

(** A caller with errors of its own: it sees the callee's error as a value. *)
Definition db_try {T E E' A} (m : DB T E A) : DB T E' (result E A) := fun c =>
  let (c', r) := m c in (c', Ok r).
(** An operation on some of the tables of a database. *)
Definition db_zoom {T S E A} (get : T -> S) (put : S -> T -> T) (m : DB S E A) : DB T E A := fun c =>
  let (c', r) := m (mkConn (configured c) (get (tables c)) (faults c)) in
  (mkConn (configured c') (put (tables c') (tables c)) (faults c'), r).

(** ** Program logic

    [hoare P m Q]: from tables in [P], whatever statements fail, [m] ends with
    tables and a result in [Q]. *)
Section hoare.
Context {T E : Type}.
Implicit Types P : T -> Prop.

Definition hoare {A} P (m : DB T E A) (Q : T -> result E A -> Prop) : Prop :=
  forall c, P (tables c) -> Q (tables (m c).1) (m c).2.

(** [m] keeps an invariant of the tables on every path. *)
Definition preserves {A} P (m : DB T E A) : Prop := hoare P m (fun t _ => P t).

Lemma hoare_ret {A} P (a : A) : hoare P (db_ret a) (fun t r => P t /\ r = Ok a).
Proof. intros c Hc. done. Qed.
Lemma hoare_bind {A B} P (m : DB T E A) (k : A -> DB T E B) R Q :
  hoare P m R ->
  (forall a, hoare (fun t => R t (Ok a)) (k a) Q) ->
  (forall t e, R t (Err e) -> Q t (Err e)) ->
  hoare P (db_bind m k) Q.
Proof.
  intros Hm Hk He c Hc. unfold db_bind. specialize (Hm c Hc).
  destruct (m c) as [c' [a|e]]; simpl in *; [by apply Hk|by apply He].
Qed.
Lemma hoare_conseq {A} P P' (m : DB T E A) (Q Q' : T -> result E A -> Prop) :
  hoare P' m Q' -> (forall t, P t -> P' t) -> (forall t r, Q' t r -> Q t r) -> hoare P m Q.
Proof. intros Hm HP HQ c Hc. apply HQ, Hm, HP, Hc. Qed.

Context `{DBError E}.

Lemma tables_db_call (c : conn T) : tables (db_call (E:=E) c).1 = tables c.
Proof. unfold db_call. by destruct (faults c). Qed.
Lemma configured_db_call (c : conn T) : configured (db_call (E:=E) c).1 = configured c.
Proof. unfold db_call. by destruct (faults c). Qed.

Lemma hoare_exec {A} P (f : T -> result string (T * A)) (Q : T -> result E A -> Prop) :
  (forall t, P t -> match f t with Ok (t', a) => Q t' (Ok a) | Err m => Q t (Err (db_error m)) end) ->
  (forall t m, P t -> Q t (Err (db_error m))) ->
  hoare P (db_exec f) Q.
Proof.
  intros Hf He c Hc. unfold db_exec, db_call.
  destruct (faults c) as [|[msg|] fs]; simpl; [|by apply He|];
    specialize (Hf _ Hc); destruct (f (tables c)) as [[t' a]|m]; done.
Qed.
Lemma hoare_query {A} P (f : T -> A) (Q : T -> result E A -> Prop) :
  (forall t, P t -> Q t (Ok (f t))) -> (forall t m, P t -> Q t (Err (db_error m))) ->
  hoare P (db_query f) Q.
Proof. intros. by apply hoare_exec. Qed.

(** All or nothing: a transaction that fails left the tables as they were. *)
Lemma hoare_tx {A} P (body : DB T E A) (Q : T -> result E A -> Prop) :
  (forall t0, P t0 ->
     hoare (eq t0) body (fun t r =>
       match r with Ok a => Q t (Ok a) | Err e => Q t0 (Err e) end)) ->
  (forall t m, P t -> Q t (Err (db_error m))) ->
  hoare P (db_tx body) Q.
Proof.
  intros Hb He c Hc. unfold db_tx.
  destruct (db_call c) as [c0 r0] eqn:E0.
  assert (Ht0 : tables c0 = tables c) by (pose proof (tables_db_call c) as X; by rewrite E0 in X).
  destruct r0 as [[]|e0]; simpl.
  2: { unfold db_call in E0. destruct (faults c) as [|[msg|] fs]; simplify_eq/=. by apply He. }
  rewrite <- Ht0 in Hc. specialize (Hb _ Hc c0 eq_refl).
  destruct (body c0) as [c1 [a|e]]; simpl in *; [|done].
  destruct (db_call c1) as [c2 r2] eqn:E2. unfold db_call in E2.
  destruct (faults c1) as [|[msg|] fs]; simplify_eq/=; [done|by apply He|done].
Qed.

Lemma preserves_ret {A} P (a : A) : preserves P (db_ret (E:=E) a).
Proof. intros c Hc. done. Qed.
Lemma preserves_throw {A} P (e : E) : preserves P (db_throw (A:=A) e).
Proof. intros c Hc. done. Qed.
Lemma preserves_of {A} P (r : result E A) : preserves P (db_of r).
Proof. intros c Hc. done. Qed.
Lemma preserves_configured P (e : E) : preserves P (db_configured e).
Proof. intros c Hc. unfold db_configured. by destruct (configured c). Qed.
Lemma preserves_bind {A B} P (m : DB T E A) (k : A -> DB T E B) :
  preserves P m -> (forall a, preserves P (k a)) -> preserves P (db_bind m k).
Proof. intros Hm Hk. eapply hoare_bind; [apply Hm|apply Hk|done]. Qed.
Lemma preserves_catch {A} P (m : DB T E A) : preserves P m -> preserves P (db_catch m).
Proof. intros Hm c Hc. unfold db_catch. specialize (Hm c Hc). by destruct (m c). Qed.
Lemma preserves_query {A} P (f : T -> A) : preserves P (db_query f).
Proof. apply hoare_query; auto. Qed.
Lemma preserves_exec {A} P (f : T -> result string (T * A)) :
  (forall t t' a, P t -> f t = Ok (t', a) -> P t') -> preserves P (db_exec f).
Proof.
  intros Hf. apply hoare_exec; [|done]. intros t Ht. destruct (f t) as [[t' a]|] eqn:E1; eauto.
Qed.
Lemma preserves_tx {A} P (body : DB T E A) : preserves P body -> preserves P (db_tx body).
Proof.
  intros Hb. apply hoare_tx; [|done]. intros t0 H0.
  eapply hoare_conseq; [apply Hb|by intros ? <-|]. by intros t [].
Qed.
End hoare.

Lemma preserves_try {T E E' A} (P : T -> Prop) (m : DB T E A) :
  preserves P m -> preserves P (db_try (E':=E') m).
Proof. intros Hm c Hc. unfold db_try. specialize (Hm c Hc). by destruct (m c). Qed.
Lemma preserves_zoom {T S E A} (P : T -> Prop) (get : T -> S) (put : S -> T -> T) (m : DB S E A) :
  (forall t s, P t -> P (put s t)) -> preserves P (db_zoom get put m).
Proof. intros HP c Hc. unfold db_zoom. destruct (m _). by apply HP. Qed.

(** Runs that succeed. *)
Lemma bind_assoc {T E A B C} (m : DB T E A) (f : A -> DB T E B) (g : B -> DB T E C) c :
  db_bind (db_bind m f) g c = db_bind m (fun a => db_bind (f a) g) c.
Proof. unfold db_bind. by destruct (m c) as [? [?|?]]. Qed.
Lemma bind_inv {T E A B} (m : DB T E A) (k : A -> DB T E B) c c' b :
  db_bind m k c = (c', Ok b) -> exists c1 a, m c = (c1, Ok a) /\ k a c1 = (c', Ok b).
Proof. unfold db_bind. destruct (m c) as [c1 [a|e]]; [eauto|done]. Qed.
(** Statements of a connection that does not fail. *)
Lemma exec_healthy {T E A} `{DBError E} (f : T -> result string (T * A)) (c : conn T) : healthy c ->
  db_exec f c = match f (tables c) with Ok (t, a) => (set_tables c t, Ok a) | Err msg => (c, Err (db_error msg)) end.
Proof. intros [_ Hf]. unfold db_exec, db_call. by rewrite Hf. Qed.
Lemma query_healthy {T E A} `{DBError E} (f : T -> A) (c : conn T) : healthy c -> db_query f c = (c, Ok (f (tables c))).
Proof. intros Hc. unfold db_query. rewrite exec_healthy by done. by destruct c. Qed.
Lemma bind_exec {T E A B} `{DBError E} (f : T -> result string (T * A)) (k : A -> DB T E B) (c : conn T) : healthy c ->
  db_bind (db_exec f) k c =
  match f (tables c) with Ok (t, a) => k a (set_tables c t) | Err msg => (c, Err (db_error msg)) end.
Proof. intros Hc. unfold db_bind. rewrite exec_healthy by done. by destruct (f (tables c)) as [[]|]. Qed.
Lemma bind_query {T E A B} `{DBError E} (f : T -> A) (k : A -> DB T E B) (c : conn T) : healthy c ->
  db_bind (db_query f) k c = k (f (tables c)) c.
Proof. intros Hc. unfold db_bind. by rewrite query_healthy. Qed.
Lemma healthy_set_tables {T} (c : conn T) t : healthy c -> healthy (set_tables c t).
Proof. done. Qed.

(** ** Healthy connections

    A connection that answers every statement goes on doing so, so on it the
    triple [runs] also speaks of what an error path repairs. *)
Definition steady {T E A} (m : DB T E A) : Prop := forall c, healthy c -> healthy (m c).1.
Definition runs {T E A} (P : T -> Prop) (m : DB T E A) (Q : T -> result E A -> Prop) : Prop :=
  forall c, healthy c -> P (tables c) -> healthy (m c).1 /\ Q (tables (m c).1) (m c).2.

Section steady.
Context {T E : Type}.
Lemma steady_ret {A} (a : A) : steady (db_ret (T := T) (E := E) a).
Proof. by intros c Hc. Qed.
Lemma steady_throw {A} (e : E) : steady (db_throw (T := T) (A := A) e).
Proof. by intros c Hc. Qed.
Lemma steady_of {A} (r : result E A) : steady (db_of (T := T) r).
Proof. by intros c Hc. Qed.
Lemma steady_bind {A B} (m : DB T E A) (k : A -> DB T E B) : steady m -> (forall a, steady (k a)) -> steady (db_bind m k).
Proof. intros Hm Hk c Hc. unfold db_bind. specialize (Hm c Hc). destruct (m c) as [c' [a|e]]; [by apply Hk|done]. Qed.
Lemma steady_catch {A} (m : DB T E A) : steady m -> steady (db_catch m).
Proof. intros Hm c Hc. unfold db_catch. specialize (Hm c Hc). by destruct (m c). Qed.
Lemma steady_try {E' A} (m : DB T E A) : steady m -> steady (db_try (E' := E') m).
Proof. intros Hm c Hc. unfold db_try. specialize (Hm c Hc). by destruct (m c). Qed.
Lemma steady_zoom {S A} (get : S -> T) (put : T -> S -> S) (m : DB T E A) : steady m -> steady (db_zoom get put m).
Proof.
  intros Hm c Hc. unfold db_zoom. specialize (Hm (mkConn (configured c) (get (tables c)) (faults c)) Hc). by destruct (m _) as [c' r].
Qed.
Context `{DBError E}.
Lemma steady_exec {A} (f : T -> result string (T * A)) : steady (db_exec f).
Proof. intros c Hc. rewrite exec_healthy by done. by destruct (f (tables c)) as [[t a]|]. Qed.
Lemma steady_query {A} (f : T -> A) : steady (db_query f).
Proof. apply steady_exec. Qed.
Lemma steady_tx {A} (m : DB T E A) : steady m -> steady (db_tx m).
Proof.
  intros Hm c Hc. unfold db_tx, db_call. rewrite (proj2 Hc). specialize (Hm c Hc). destruct (m c) as [c1 [a|e]]; [|done].
  simpl in Hm. by rewrite (proj2 Hm).
Qed.
Lemma runs_hoare {A} P (m : DB T E A) Q : steady m -> hoare P m Q -> runs P m Q.
Proof. intros Hs Hm c Hc HP. split; [by apply Hs|by apply Hm]. Qed.
Lemma runs_bind {A B} P (m : DB T E A) (k : A -> DB T E B) R Q :
  runs P m R -> (forall a, runs (fun t => R t (Ok a)) (k a) Q) -> (forall t e, R t (Err e) -> Q t (Err e)) -> runs P (db_bind m k) Q.
Proof.
  intros Hm Hk He c Hc HP. unfold db_bind. destruct (Hm c Hc HP) as [Hc' HR]. destruct (m c) as [c' [a|e]]; [by apply Hk|].
  split; [done|by apply He].
Qed.
Lemma runs_conseq {A} (P P' : T -> Prop) (m : DB T E A) (Q Q' : T -> result E A -> Prop) :
  runs P' m Q' -> (forall t, P t -> P' t) -> (forall t r, Q' t r -> Q t r) -> runs P m Q.
Proof. intros Hm HP HQ c Hc Hp. destruct (Hm c Hc (HP _ Hp)). eauto. Qed.
End steady.
Ltac steady_steps :=
  repeat first
    [ match goal with |- forall _, _ => intro end
    | simple apply steady_ret | simple apply steady_throw | simple apply steady_of
    | simple apply steady_exec | simple apply steady_query
    | simple apply steady_bind | simple apply steady_catch | simple apply steady_try | simple apply steady_zoom | simple apply steady_tx
    | match goal with |- steady (match ?e with _ => _ end) => destruct e eqn:? end ].

Create HintDb db.
#[export] Hint Resolve preserves_ret preserves_throw preserves_of preserves_configured
  preserves_catch preserves_query preserves_tx healthy_set_tables : db.

(** Proves [preserves P m] for an operation written with the combinators; what
    is left are its writing statements. *)
Ltac preserve :=
  repeat first
    [ match goal with |- forall _, _ => intro end
    | simple apply preserves_ret | simple apply preserves_throw | simple apply preserves_of
    | simple apply preserves_configured | simple apply preserves_query
    | simple apply preserves_bind | simple apply preserves_catch | simple apply preserves_try | simple apply preserves_tx
    | match goal with |- preserves _ (match ?e with _ => _ end) => destruct e eqn:? end ].

(** ** Rows

    A table is a map from the primary key. [ORDER BY] over a table sorts its
    rows; rows that compare equal come in the order of the scan, which is the
    unspecified order of [range]. *)
Definition order_by `{MapRange} {A} (less : A -> A -> bool) (t : gmap string A) : list A :=
  sort_stable less (snd <$> range t).
Lemma elem_of_order_by `{MapRange} {A} (less : A -> A -> bool) (t : gmap string A) a :
  a ∈ order_by less t <-> exists k, t !! k = Some a.
Proof.
  unfold order_by. rewrite elem_of_sort_stable, list_elem_of_fmap. split.
  - intros ([k b] & -> & Hkb%elem_of_range). eauto.
  - intros [k Hk]. exists (k, a). by rewrite elem_of_range.
Qed.
Lemma order_by_perm `{MapRange} {A} (less : A -> A -> bool) (t : gmap string A) :
  order_by less t ≡ₚ snd <$> map_to_list t.
Proof. unfold order_by. by rewrite sort_stable_perm, range_perm. Qed.

Lemma order_by_sorted `{MapRange} {A} (less : A -> A -> bool) (t : gmap string A) :
  (forall a b, less a b = true -> less b a = false) ->
  (forall a b c, not_after less a b -> not_after less b c -> not_after less a c) ->
  StronglySorted (not_after less) (order_by less t).
Proof. intros H1 H2. by apply sort_stable_sorted. Qed.

(** [COALESCE(x, '')] *)
Definition coalesce_empty (x : option string) : string := default ""%string x.
