(* ===== verification/Http.v ===== *)
(** The error responses of the HTTP handlers (internal/httpapi): a handler is a
    database operation whose error is a response, a status and a message key.
    What a store returns is turned into a response where it is called. *)
From S2P Require Import Prelude Sqlite.

Inductive http_err := Http (status : Z) (key : string).
#[export] Instance http_err_eq_dec : EqDecision http_err. Proof. solve_decision. Defined.
#[export] Instance http_db_error : DBError http_err := fun _ => Http 500 "common.internal".
Definition internal : http_err := Http 500 "common.internal".

(** A call to a store: its error becomes the response [h] gives it. *)
Definition call {T E E' A} (m : DB T E A) (h : E -> E') : DB T E' A :=
  let* r := db_try m in
  match r with Ok a => db_ret a | Err e => db_throw (h e) end.
Lemma preserves_call {T E E' A} (P : T -> Prop) (m : DB T E A) (h : E -> E') : preserves P m -> preserves P (call m h).
Proof. intros Hm. unfold call. apply preserves_bind; [by apply preserves_try|]. intros []; preserve. Qed.
