(* ===== verification/CommandLog.v ===== *)
(** Command logging: what a user typed, reconstructed from the terminal
    (src/internal/httpapi/command_line_tracker.go, command_store.go).

    [tracker] follows the line the remote shell echoes, through cursor movement
    and erasure sequences; [recorder] collects the typed bytes and, at each
    Enter, merges both into a line, redacts it and stores it. A Go panic (an
    index or a length out of range) is [None]: the tap runs in the goroutine
    that pumps terminal output, which has no recover. *)
From S2P Require Import Prelude GoText Regexp Sqlite.
Local Open Scope Z_scope.

Definition ESC : Z := 27.
Definition isCSIFinal (b : Z) : bool := in_range b 0x40 0x7e.

(** ** The tracked line *)
Record tracker := mkTracker { t_line : list Z; t_col : Z; t_esc : list Z }.
Definition new_tracker : tracker := mkTracker [] 0 [].
Definition reset (_ : tracker) : tracker := mkTracker [] 0 [].
Definition currentLine (t : tracker) : list Z := TrimSpace (t_line t).
Definition with_line (t : tracker) (l : list Z) (c : Z) : tracker := mkTracker l c (t_esc t).

(** [l[i:]] and [l[:i]]; the code never slices beyond the length without
    slicing from beyond it as well, so the capacity does not matter. *)
Definition zlen (l : list Z) : Z := Z.of_nat (length l).
Definition slice_from (l : list Z) (i : Z) : option (list Z) :=
  if (0 <=? i) && (i <=? zlen l) then Some (drop (Z.to_nat i) l) else None.
Definition slice_to (l : list Z) (i : Z) : option (list Z) :=
  if (0 <=? i) && (i <=? zlen l) then Some (take (Z.to_nat i) l) else None.

(** The decimal value of a parameter string, wrapping as an [int] does. *)
Fixpoint param_digits (n : Z) (l : list Z) : option Z :=
  match l with
  | [] => Some n
  | c :: l => if ascii_digit c then param_digits (int64 (n * 10 + (c - 48))) l else None
  end.
Definition before_semicolon (params : list Z) : list Z :=
  match index_byte params 59 with Some i => take i params | None => params end.
Definition csiParam (params : list Z) (defaultVal : Z) : Z :=
  match params with
  | [] => defaultVal
  | _ => match param_digits 0 (before_semicolon params) with
         | None => defaultVal
         | Some n => if n =? 0 then defaultVal else n
         end
  end.

Section tracker.
(** The largest allocation the Go runtime grants; more is a panic. *)
Context (maxAlloc : Z).

Definition grown (l : list Z) : option (list Z) := if zlen l <=? maxAlloc then Some l else None.

Definition insertByte (t : tracker) (b : Z) : option tracker :=
  if zlen (t_line t) <=? t_col t then
    l ← grown (t_line t ++ [b]); Some (with_line t l (zlen l))
  else if t_col t <? 0 then None
  else Some (with_line t (<[Z.to_nat (t_col t) := b]> (t_line t)) (t_col t + 1)).

Definition feedByte (t : tracker) (b : Z) : option tracker :=
  if b =? 13 then Some (with_line t [] 0)
  else if (b =? 10) || (b =? 7) then Some t
  else if (b =? 8) || (b =? 127) then
    if 0 <? t_col t then
      l1 ← slice_to (t_line t) (t_col t - 1);
      l2 ← slice_from (t_line t) (t_col t);
      Some (with_line t (l1 ++ l2) (t_col t - 1))
    else Some t
  else if b =? 9 then Some t
  else if b <? 32 then Some t
  else insertByte t b.

Definition applyCSI (t : tracker) (cmd : Z) (params : list Z) : option tracker :=
  let line := t_line t in
  let col := t_col t in
  if cmd =? 75 (* K *) then
    let mode := csiParam params 0 in
    if mode =? 1 then
      if 0 <? col then l ← slice_from line col; Some (with_line t l 0) else Some t
    else if mode =? 2 then Some (reset t)
    else if col <? zlen line then l ← slice_to line col; Some (with_line t l col)
    else Some t
  else if cmd =? 71 (* G *) then
    let c := int64 (csiParam params 1 - 1) in
    let c := if c <? 0 then 0 else c in
    Some (with_line t line (if zlen line <? c then zlen line else c))
  else if cmd =? 67 (* C *) then
    let c := int64 (col + csiParam params 1) in
    Some (with_line t line (if zlen line <? c then zlen line else c))
  else if cmd =? 68 (* D *) then
    let c := int64 (col - csiParam params 1) in
    Some (with_line t line (if c <? 0 then 0 else c))
  else if cmd =? 80 (* P *) then
    let n := csiParam params 1 in
    if (0 <? n) && (col <? zlen line) then
      let e := int64 (col + n) in
      let e := if zlen line <? e then zlen line else e in
      l1 ← slice_to line col;
      l2 ← slice_from line e;
      Some (with_line t (l1 ++ l2) col)
    else Some t
  else if cmd =? 64 (* @ *) then
    let n := csiParam params 1 in
    if 0 <? n then
      if maxAlloc <? n then None
      else
        l1 ← slice_to line col;
        l2 ← slice_from line col;
        l ← grown (l1 ++ replicate (Z.to_nat n) 0 ++ l2);
        Some (with_line t l col)
    else Some t
  else Some t.

(** The body of a CSI sequence: its parameters, final byte and what follows. *)
Fixpoint scan_csi (l : list Z) : option (list Z * Z * list Z) :=
  match l with
  | [] => None
  | b :: l =>
      if isCSIFinal b then Some ([], b, l)
      else '(ps, f, rest) ← scan_csi l; Some (b :: ps, f, rest)
  end.
(** An OSC string ends with BEL or ESC backslash. *)
Fixpoint scan_osc (l : list Z) : option (list Z) :=
  match l with
  | [] => None
  | b :: l =>
      if b =? 7 then Some l
      else match l with
           | c :: l' => if (b =? ESC) && (c =? 92) then Some l' else scan_osc l
           | [] => None
           end
  end.

(** [consumeEscape] at [ESC :: l]: incomplete, or the new state and the rest. *)
Inductive escape := Incomplete | Panic | Consumed (t : tracker) (rest : list Z).
Definition consumeEscape (t : tracker) (l : list Z) : escape :=
  match l with
  | [] => Incomplete
  | b :: l =>
      if b =? 93 (* ] *) then
        match scan_osc l with Some rest => Consumed t rest | None => Incomplete end
      else if b =? 91 (* [ *) then
        match scan_csi l with
        | Some (ps, f, rest) =>
            match applyCSI t f ps with Some t' => Consumed t' rest | None => Panic end
        | None => Incomplete
        end
      else if isCSIFinal b then Consumed t l
      else Incomplete
  end.

(** [feed]: each iteration consumes a byte, so the length is enough fuel. *)
Fixpoint feed_fuel (n : nat) (t : tracker) (data : list Z) : option tracker :=
  match n, data with
  | S n, b :: rest =>
      if b =? ESC then
        match consumeEscape t rest with
        | Incomplete => Some (mkTracker (t_line t) (t_col t) data)
        | Panic => None
        | Consumed t' rest => feed_fuel n t' rest
        end
      else t' ← feedByte t b; feed_fuel n t' rest
  | _, _ => Some t
  end.
Definition feed (t : tracker) (p : list Z) : option tracker :=
  let data := t_esc t ++ p in
  feed_fuel (length data) (mkTracker (t_line t) (t_col t) []) data.
Fixpoint feed_chunks (t : tracker) (ps : list (list Z)) : option tracker :=
  match ps with
  | [] => Some t
  | p :: ps => t' ← feed t p; feed_chunks t' ps
  end.
End tracker.

Arguments feed : simpl never.

(** ** From the two views of a line to what is logged *)
Definition promptNoisePattern : re :=
  Seq [Bol; Opt (Seq [Plus (Chr ascii_digit); chr 59]); Star nonspace; chr 64;
       Star (Chr (fun r => negb (re_space r || (r =? 58)))); chr 58;
       Star (Chr (fun r => negb (re_space r || one_of "$#%" r)));
       Chr (one_of "$#%>"); Star space; Eol].

Definition prompt_separators : list (list Z) := [bs "$ "; bs "# "; bs "> "; bs "% "].
Fixpoint strip_at (seps : list (list Z)) (s : list Z) : list Z :=
  match seps with
  | [] => s
  | sep :: seps =>
      match last_index s sep with
      | Some idx => TrimSpace (drop (idx + length sep) s)
      | None => strip_at seps s
      end
  end.
Definition stripShellPrompt (s : list Z) : list Z := strip_at prompt_separators (TrimSpace s).

Definition ContainsAny (l cs : list Z) : bool := existsb (fun b => bool_decide (b ∈ cs)) l.
Definition isNoiseCommandLogLine (line : list Z) : bool :=
  let line := TrimSpace line in
  if bool_decide (line = []) then true
  else if contains line [ESC] then true
  else if MatchString promptNoisePattern line then true
  else if negb (contains line (bs " ")) && has_suffix line (bs "#") then true
  else
    let stripped := stripShellPrompt line in
    if bool_decide (stripped = []) || bool_decide (stripped = line) then
      if contains line (bs "@") && ContainsAny line (bs "$#%>") then true
      else has_prefix line (bs "0;")
    else false.

Definition unless_noise (candidate : list Z) : list Z :=
  if isNoiseCommandLogLine candidate then [] else candidate.
Definition mergeCommandLine (stdinLine echoLine : list Z) : list Z :=
  let stdinLine := TrimSpace stdinLine in
  let echoLine := TrimSpace echoLine in
  if bool_decide (stdinLine <> []) && bool_decide (echoLine = []) then []
  else if bool_decide (echoLine = []) then stdinLine
  else if bool_decide (stdinLine = []) then unless_noise (stripShellPrompt echoLine)
  else
    match last_index echoLine stdinLine with
    | Some idx => unless_noise (TrimSpace (drop idx echoLine))
    | None =>
        if (length stdinLine <=? length echoLine)%nat then
          let stripped := stripShellPrompt echoLine in
          if bool_decide (stripped <> []) && negb (isNoiseCommandLogLine stripped) then stripped
          else unless_noise echoLine
        else unless_noise stdinLine
    end.

(** ** Redaction *)
Definition eq_or_space : re := Chr (fun r => (r =? 61) || re_space r).
Definition word_class (r : Z) : bool := ascii_upper r || ascii_digit r || (r =? 95).
Definition bearer_class (r : Z) : bool :=
  ascii_upper r || ascii_lower r || ascii_digit r || one_of "._-" r.
Definition flag_pattern (name : re) : re := Cat (Group (Cat name eq_or_space)) (Plus nonspace).
Definition secretArgPatterns : list re := [
  Cat (Group (Seq [NoWordBoundary; lit "-p"])) (Plus nonspace);
  Cat (Group (Seq [NoWordBoundary; lit "-P"])) (Plus nonspace);
  flag_pattern (lit_ci "--password");
  flag_pattern (lit_ci "--pass");
  flag_pattern (lit_ci "--token");
  flag_pattern (Seq [lit_ci "--api"; Opt (Chr (one_of "-_")); lit_ci "key"]);
  flag_pattern (lit_ci "--secret");
  Cat (Group (Seq [lit_ci "-u"; Plus space; Plus nonspace; chr 58])) (Plus nonspace);
  Cat (Group (Seq [lit_ci "Bearer"; Plus space])) (Plus (Chr (ci bearer_class)));
  Cat (Group (Seq [Star (Chr (ci word_class));
                   Alt (lit_ci "PASSWORD") (Alt (lit_ci "SECRET") (Alt (lit_ci "TOKEN") (lit_ci "API_KEY")));
                   Star (Chr (ci word_class)); chr 61])) (Plus nonspace)].
Definition redactSecrets (line : list Z) : list Z :=
  foldl (fun l r => ReplaceAllString r (bs "***") l) line secretArgPatterns.

(** ** The store and the recorder *)
Record command_row := mkCommandRow {
  cr_session : string; cr_user : string; cr_target : string; cr_time : Z; cr_line : list Z
}.
Definition command_logs : Type := list command_row.
#[export] Instance string_db_error : DBError string := fun m => m.

(** [appendLine]; the error of the insert is dropped. *)
Definition appendLine (c : conn command_logs) (session user target : string) (line : list Z) (now : Z) : conn command_logs :=
  let line := TrimSpace line in
  if bool_decide (line = []) then c
  else
    (db_exec (E:=string) (fun rows => Ok (rows ++ [mkCommandRow session user target now (redactSecrets line)], tt)) c).1.

Record recorder := mkRecorder {
  r_session : string; r_user : string; r_target : string;
  r_buf : list Z; r_echo : tracker; r_last : list Z
}.
(** Without a database there is no store and no recorder. *)
Definition newCommandLogRecorder (has_store : bool) (session user target : string) : option recorder :=
  if has_store then Some (mkRecorder session user target [] new_tracker []) else None.

Definition recordStdout (maxAlloc : Z) (r : recorder) (p : list Z) : option recorder :=
  if bool_decide (p = []) then Some r
  else
    echo ← feed maxAlloc (r_echo r) p;
    let line := currentLine echo in
    Some (mkRecorder (r_session r) (r_user r) (r_target r) (r_buf r) echo
            (if bool_decide (line <> []) then line else r_last r)).

Definition flushLine (r : recorder) (c : conn command_logs) (now : Z) : recorder * conn command_logs :=
  let stdinLine := TrimSpace (r_buf r) in
  let echoLine := currentLine (r_echo r) in
  let echoLine := if bool_decide (echoLine = []) then r_last r else echoLine in
  let line := mergeCommandLine stdinLine echoLine in
  let r' := mkRecorder (r_session r) (r_user r) (r_target r) [] (reset (r_echo r)) [] in
  if bool_decide (line = []) || isNoiseCommandLogLine line then (r', c)
  else (r', appendLine c (r_session r) (r_user r) (r_target r) line now).

Definition record_byte (now : Z) (s : recorder * conn command_logs) (b : Z) : recorder * conn command_logs :=
  let (r, c) := s in
  if (b =? 13) || (b =? 10) then flushLine r c now
  else if b =? 9 then s
  else if b <? 32 then s
  else (mkRecorder (r_session r) (r_user r) (r_target r) (r_buf r ++ [b]) (r_echo r) (r_last r), c).
Definition RecordInput (r : recorder) (p : list Z) (c : conn command_logs) (now : Z) : recorder * conn command_logs :=
  foldl (record_byte now) (r, c) p.

(** A terminal session: typed bytes and remote output in some order. *)
Inductive term_event := Typed (p : list Z) | Shown (p : list Z).
Fixpoint run_terminal (maxAlloc now : Z) (s : recorder * conn command_logs) (evs : list term_event)
    : option (recorder * conn command_logs) :=
  match evs with
  | [] => Some s
  | Typed p :: evs => run_terminal maxAlloc now (RecordInput s.1 p s.2 now) evs
  | Shown p :: evs => r ← recordStdout maxAlloc s.1 p; run_terminal maxAlloc now (r, s.2) evs
  end.

(** The lines a session logs on a fresh recorder. *)
Definition logged (maxAlloc : Z) (evs : list term_event) : option (list (list Z)) :=
  s ← run_terminal maxAlloc 0 (mkRecorder "s" "u" "t" [] new_tracker [], connect []) evs;
  Some (map cr_line (tables s.2)).
Definition alloc48 : Z := 2 ^ 48.

(** ** Reading in chunks *)
Section feed.
Context (maxAlloc : Z).
Implicit Types t : tracker.

Lemma scan_csi_app l l2 ps f rest :
  scan_csi l = Some (ps, f, rest) -> scan_csi (l ++ l2) = Some (ps, f, rest ++ l2).
Proof.
  revert ps rest. induction l as [|b l IH]; intros ps rest; cbn; [done|].
  destruct (isCSIFinal b); [by intros [= <- <- <-]|].
  destruct (scan_csi l) as [[[ps' f'] rest']|]; [|done]. cbn. intros [= <- <- <-]. by rewrite (IH _ _ eq_refl).
Qed.
Lemma scan_csi_split l ps f rest : scan_csi l = Some (ps, f, rest) -> l = ps ++ f :: rest.
Proof.
  revert ps rest. induction l as [|b l IH]; intros ps rest; cbn; [done|].
  destruct (isCSIFinal b); [by intros [= <- <- <-]|].
  destruct (scan_csi l) as [[[ps' f'] rest']|]; [|done]. cbn. intros [= <- <- <-]. by rewrite (IH _ _ eq_refl).
Qed.
Lemma scan_osc_app l l2 rest : scan_osc l = Some rest -> scan_osc (l ++ l2) = Some (rest ++ l2).
Proof.
  induction l as [|b l IH]; cbn; [done|]. destruct (b =? 7); [by intros [= <-]|].
  destruct l as [|c l]; [done|]. cbn in *. destruct (_ && _); [by intros [= <-]|]. apply IH.
Qed.
Lemma scan_osc_suffix l rest : scan_osc l = Some rest -> exists k, l = k ++ rest /\ k <> [].
Proof.
  induction l as [|b l IH]; cbn; [done|]. destruct (b =? 7); [intros [= <-]; by exists [b]|].
  destruct l as [|c l]; [done|]. destruct (_ && _); [intros [= <-]; by exists [b; c]|].
  intros (k & -> & ?)%IH. by exists (b :: k).
Qed.

(** An escape consumes a non-empty prefix, and completing it later is the same. *)
Lemma consume_app t l l2 t' rest :
  consumeEscape maxAlloc t l = Consumed t' rest -> consumeEscape maxAlloc t (l ++ l2) = Consumed t' (rest ++ l2).
Proof.
  destruct l as [|b l]; cbn; [done|]. destruct (b =? 93).
  { destruct (scan_osc l) eqn:E; [|done]. rewrite (scan_osc_app _ _ _ E). by intros [= <- <-]. }
  destruct (b =? 91).
  { destruct (scan_csi l) as [[[ps f] r]|] eqn:E; [|done]. rewrite (scan_csi_app _ _ _ _ _ E).
    case_match; [|done]. by intros [= <- <-]. }
  case_match; [|done]. by intros [= <- <-].
Qed.
Lemma consume_panic t l l2 :
  consumeEscape maxAlloc t l = Panic -> consumeEscape maxAlloc t (l ++ l2) = Panic.
Proof.
  destruct l as [|b l]; cbn; [done|]. destruct (b =? 93); [by case_match|].
  destruct (b =? 91); [|by case_match].
  destruct (scan_csi l) as [[[ps f] r]|] eqn:E; [|done]. rewrite (scan_csi_app _ _ _ _ _ E). by case_match.
Qed.
Lemma consume_suffix t l t' rest :
  consumeEscape maxAlloc t l = Consumed t' rest -> exists k, l = k ++ rest /\ k <> [].
Proof.
  destruct l as [|b l]; cbn; [done|]. destruct (b =? 93).
  { destruct (scan_osc l) eqn:E; [|done]. intros [= <- <-]. apply scan_osc_suffix in E as (k & -> & ?).
    by exists (b :: k). }
  destruct (b =? 91).
  { destruct (scan_csi l) as [[[ps f] r]|] eqn:E; [|done]. apply scan_csi_split in E as ->.
    case_match; [|done]. intros [= <- <-]. exists (b :: ps ++ [f]). split; [|done]. simpl. by rewrite <- app_assoc. }
  case_match; [|done]. intros [= <- <-]. by exists [b].
Qed.
Lemma consume_length t l t' rest :
  consumeEscape maxAlloc t l = Consumed t' rest -> (length rest < length l)%nat.
Proof. intros (k & -> & Hk)%consume_suffix. rewrite length_app. destruct k; [done|simpl; lia]. Qed.

(** Between sequences nothing is buffered. *)
Lemma feedByte_esc t b t' : feedByte maxAlloc t b = Some t' -> t_esc t' = t_esc t.
Proof.
  unfold feedByte, insertByte, grown, slice_from, slice_to. intros H.
  repeat (case_match; cbn in *; simplify_eq/=; try done).
Qed.
Lemma applyCSI_esc t cmd ps t' : t_esc t = [] -> applyCSI maxAlloc t cmd ps = Some t' -> t_esc t' = [].
Proof.
  unfold applyCSI, grown, slice_from, slice_to. cbv zeta. intros He H.
  repeat (case_match; cbn in *; simplify_eq/=; try done).
Qed.
Lemma consume_esc t l t' rest :
  t_esc t = [] -> consumeEscape maxAlloc t l = Consumed t' rest -> t_esc t' = [].
Proof.
  intros He. destruct l as [|b l]; cbn; [done|]. repeat case_match; try done; intros; simplify_eq; try done.
  by eapply applyCSI_esc.
Qed.

Lemma feed_fuel_enough n m t l :
  (length l <= n)%nat -> (length l <= m)%nat -> feed_fuel maxAlloc n t l = feed_fuel maxAlloc m t l.
Proof.
  revert m t l. induction n as [|n IH]; intros m t l Hn Hm.
  { destruct l; [by destruct m|simpl in *; lia]. }
  destruct l as [|b l]; [by destruct m|]. destruct m as [|m]; [simpl in *; lia|]. cbn. simpl in *.
  destruct (b =? ESC).
  - destruct (consumeEscape maxAlloc t l) eqn:E; [done..|]. apply consume_length in E. apply IH; lia.
  - destruct (feedByte maxAlloc t b); cbn; [apply IH; lia|done].
Qed.
Definition run (t : tracker) (l : list Z) : option tracker := feed_fuel maxAlloc (length l) t l.
Local Arguments run : simpl never.
Lemma run_cons t b l :
  run t (b :: l) =
    if b =? ESC then
      match consumeEscape maxAlloc t l with
      | Incomplete => Some (mkTracker (t_line t) (t_col t) (b :: l))
      | Panic => None
      | Consumed t' rest => run t' rest
      end
    else t' ← feedByte maxAlloc t b; run t' l.
Proof.
  unfold run. cbn. destruct (b =? ESC); [|done]. destruct (consumeEscape maxAlloc t l) eqn:E; [done..|].
  apply consume_length in E. apply feed_fuel_enough; lia.
Qed.
Definition settle (t : tracker) : tracker := mkTracker (t_line t) (t_col t) [].
Lemma settle_id t : t_esc t = [] -> settle t = t.
Proof. by destruct t; cbn; intros ->. Qed.
Lemma feed_run t p : feed maxAlloc t p = run (settle t) (t_esc t ++ p).
Proof. done. Qed.

Lemma run_app t l1 l2 :
  t_esc t = [] -> run t (l1 ++ l2) = run t l1 ≫= fun t' => run (settle t') (t_esc t' ++ l2).
Proof.
  remember (length l1) as n eqn:Hn. revert t l1 Hn. induction n as [n IH] using lt_wf_ind. intros t l1 -> He.
  destruct l1 as [|b l1].
  { cbn [app]. change (run t []) with (Some t). cbn. by rewrite He, settle_id. }
  cbn [app]. rewrite !run_cons. destruct (b =? ESC) eqn:Eb.
  - destruct (consumeEscape maxAlloc t l1) as [| |t' rest] eqn:E.
    + cbn. replace (settle _) with t by (destruct t; cbn in *; by subst). by rewrite run_cons, Eb.
    + by rewrite (consume_panic _ _ _ E).
    + rewrite (consume_app _ _ _ _ _ E). eapply IH; [|done|by eapply consume_esc].
      apply consume_length in E. simpl. lia.
  - destruct (feedByte maxAlloc t b) eqn:E; [cbn|done]. eapply (IH (length l1)); [simpl; lia|done|].
    by rewrite (feedByte_esc _ _ _ E).
Qed.
Lemma feed_app t p q : feed maxAlloc t (p ++ q) = feed maxAlloc t p ≫= fun t' => feed maxAlloc t' q.
Proof. rewrite !feed_run, app_assoc. by apply run_app. Qed.
Lemma feed_settled t p t' : feed maxAlloc t p = Some t' -> feed maxAlloc t' [] = Some t'.
Proof. intros H. pose proof (feed_app t p []) as Ha. rewrite app_nil_r, H in Ha. by cbn in Ha. Qed.

(** C16. However the remote output is split into reads, inside an escape sequence
    too, the tracker ends in the same state (or panics all the same) as if it had
    been read at once. *)
Theorem tracker_chunks_invariant chunks :
  feed_chunks maxAlloc new_tracker chunks = feed maxAlloc new_tracker (concat chunks).
Proof.
  assert (Hgen : forall t, feed maxAlloc t [] = Some t -> feed_chunks maxAlloc t chunks = feed maxAlloc t (concat chunks)).
  { induction chunks as [|p ps IH]; intros t Ht; cbn; [done|]. rewrite feed_app.
    destruct (feed maxAlloc t p) as [t'|] eqn:E; cbn; [|done]. apply IH. by eapply feed_settled. }
  by apply Hgen.
Qed.
End feed.

Arguments run : simpl never.

(** ** Which output the tracker survives *)

(** No run of more than [k] digits ([room] more are allowed in the current one). *)
Fixpoint runs_le (k room : nat) (l : list Z) : bool :=
  match l with
  | [] => true
  | b :: l =>
      if ascii_digit b then match room with O => false | S room => runs_le k room l end
      else runs_le k k l
  end.
Definition short_digits (k : nat) (l : list Z) : bool := runs_le k k l.

Lemma runs_le_mono k i j l : (i <= j)%nat -> runs_le k i l = true -> runs_le k j l = true.
Proof.
  revert i j. induction l as [|b l IH]; intros i j Hij; cbn; [done|]. destruct (ascii_digit b); [|done].
  destruct i as [|i]; [done|]. destruct j as [|j]; [lia|]. apply IH. lia.
Qed.
Lemma runs_le_suffix k i p l : (i <= k)%nat -> runs_le k i (p ++ l) = true -> short_digits k l = true.
Proof.
  revert i. induction p as [|b p IH]; intros i Hi; cbn; [by apply runs_le_mono|].
  destruct (ascii_digit b); [|by apply IH]. destruct i as [|i]; [done|]. apply IH. lia.
Qed.
Lemma short_digits_suffix k p l : short_digits k (p ++ l) = true -> short_digits k l = true.
Proof. by apply runs_le_suffix. Qed.

(** [10^n - 1] is the largest value of [n] digits. *)
Lemma param_digits_bound ps rest room v w (d : Z) :
  runs_le 9 room (ps ++ rest) = true -> 0 <= v <= 10 ^ d -> 0 <= d -> d + Z.of_nat room <= 9 ->
  v < 10 ^ d \/ d = 0 -> (d = 0 -> v = 0) ->
  param_digits v ps = Some w -> 0 <= w < 10 ^ 9.
Proof.
  revert room v d. induction ps as [|c ps IH]; intros room v d Hr Hv Hd Hl Hlt H0; cbn in *.
  { intros [= <-]. destruct Hlt as [|Hz].
    - pose proof (Z.pow_le_mono_r 10 d 9). lia.
    - rewrite H0 by done. lia. }
  destruct (ascii_digit c) eqn:Hc; [|done]. destruct room as [|room]; [done|].
  assert (48 <= c <= 57) by (unfold ascii_digit, in_range in Hc; lia).
  assert (Hs : 10 ^ (d + 1) = 10 ^ d * 10) by (rewrite Z.pow_add_r; lia).
  assert (10 ^ (d + 1) <= 10 ^ 9) by (apply Z.pow_le_mono_r; lia).
  assert (Hv' : v < 10 ^ d) by (destruct Hlt as [|Hz]; [done|rewrite H0, Hz by done; lia]).
  rewrite int64_id by (unfold in_int64, minInt64, maxInt64; lia).
  eapply (IH room _ (d + 1)); try done; try lia.
Qed.
Lemma before_semicolon_prefix ps : exists k, ps = before_semicolon ps ++ k.
Proof. unfold before_semicolon. case_match; [eexists; symmetry; apply take_drop|exists []; by rewrite app_nil_r]. Qed.
Lemma csiParam_bound ps rest d :
  short_digits 9 (ps ++ rest) = true -> 0 <= d < 10 ^ 9 -> 0 <= csiParam ps d < 10 ^ 9.
Proof.
  intros Hs Hd. unfold csiParam. destruct ps as [|p ps']; [done|]. set (ps := p :: ps') in *.
  destruct (param_digits 0 (before_semicolon ps)) as [n|] eqn:E; [|done].
  destruct (n =? 0); [done|]. destruct (before_semicolon_prefix ps) as [k Hk].
  rewrite Hk, <- app_assoc in Hs. eapply (param_digits_bound _ _ 9 0 n 0); try done; try lia.
Qed.

Section safety.
Context (maxAlloc : Z).
Implicit Types t : tracker.

(** The cursor is in the line or at its end. *)
Definition cursor_ok t : Prop := 0 <= t_col t <= zlen (t_line t).
(** [t'] is safe and at most [n] bytes longer than [t]. *)
Definition grows t t' (n : Z) : Prop := cursor_ok t' /\ zlen (t_line t') <= zlen (t_line t) + n.

Lemma zlen_nonneg l : 0 <= zlen l. Proof. unfold zlen. lia. Qed.
Lemma zlen_app l1 l2 : zlen (l1 ++ l2) = zlen l1 + zlen l2.
Proof. unfold zlen. rewrite length_app. lia. Qed.
Lemma zlen_nil : zlen [] = 0. Proof. done. Qed.
Lemma zlen_cons b l : zlen (b :: l) = 1 + zlen l.
Proof. unfold zlen. simpl. lia. Qed.
Lemma slice_from_ok l i : 0 <= i <= zlen l -> exists l', slice_from l i = Some l' /\ zlen l' = zlen l - i.
Proof.
  intros H. unfold slice_from. destruct (Z.leb_spec 0 i), (Z.leb_spec i (zlen l)); try lia; cbn.
  eexists. split; [done|]. unfold zlen in *. rewrite length_drop. lia.
Qed.
Lemma slice_to_ok l i : 0 <= i <= zlen l -> exists l', slice_to l i = Some l' /\ zlen l' = i.
Proof.
  intros H. unfold slice_to. destruct (Z.leb_spec 0 i), (Z.leb_spec i (zlen l)); try lia; cbn.
  eexists. split; [done|]. unfold zlen in *. rewrite length_take. lia.
Qed.
Lemma grown_ok l : zlen l <= maxAlloc -> grown maxAlloc l = Some l.
Proof. intros. unfold grown. destruct (Z.leb_spec (zlen l) maxAlloc); [done|lia]. Qed.

Ltac slices :=
  repeat match goal with
         | |- context [slice_from ?l ?i] =>
             let l' := fresh "l" in let E := fresh "E" in let H := fresh "H" in
             destruct (slice_from_ok l i) as (l' & E & H); [cbn; lia|]; rewrite E; cbn
         | |- context [slice_to ?l ?i] =>
             let l' := fresh "l" in let E := fresh "E" in let H := fresh "H" in
             destruct (slice_to_ok l i) as (l' & E & H); [cbn; lia|]; rewrite E; cbn
         end.
Ltac settled := eexists; split; [reflexivity|]; unfold grows, cursor_ok; cbn; rewrite ?zlen_app, ?zlen_cons, ?zlen_nil; repeat case_match; try lia.

Lemma feedByte_safe t b :
  cursor_ok t -> zlen (t_line t) + 1 <= maxAlloc -> exists t', feedByte maxAlloc t b = Some t' /\ grows t t' 1.
Proof.
  intros [Hc1 Hc2] Hm. pose proof (zlen_nonneg (t_line t)). unfold feedByte, insertByte.
  destruct (b =? 13); [settled|]. destruct ((b =? 10) || (b =? 7)); [settled|].
  destruct ((b =? 8) || (b =? 127)).
  { destruct (Z.ltb_spec 0 (t_col t)); [|settled]. slices. settled. }
  destruct (b =? 9); [settled|]. destruct (b <? 32); [settled|].
  destruct (Z.leb_spec (zlen (t_line t)) (t_col t)).
  - rewrite grown_ok by (rewrite zlen_app, zlen_cons, zlen_nil; lia). settled.
  - destruct (Z.ltb_spec (t_col t) 0); [lia|]. settled. unfold zlen in *. rewrite length_insert. lia.
Qed.
Lemma applyCSI_safe t cmd ps rest :
  cursor_ok t -> short_digits 9 (ps ++ rest) = true -> zlen (t_line t) + 10 ^ 9 <= maxAlloc <= 2 ^ 62 ->
  exists t', applyCSI maxAlloc t cmd ps = Some t' /\ grows t t' (10 ^ 9).
Proof.
  intros [Hc1 Hc2] Hs Hm. pose proof (zlen_nonneg (t_line t)).
  pose proof (csiParam_bound ps rest 0 Hs ltac:(lia)). pose proof (csiParam_bound ps rest 1 Hs ltac:(lia)).
  unfold applyCSI. cbv zeta. destruct (cmd =? 75).
  { destruct (_ =? 1); [destruct (Z.ltb_spec 0 (t_col t)); [slices|]; settled|].
    destruct (_ =? 2); [settled|]. destruct (Z.ltb_spec (t_col t) (zlen (t_line t))); [slices|]; settled. }
  set (n := csiParam ps 1) in *. rewrite !int64_id by (unfold in_int64, minInt64, maxInt64; lia).
  destruct (cmd =? 71). { settled. }
  destruct (cmd =? 67). { settled. }
  destruct (cmd =? 68). { settled. }
  destruct (cmd =? 80).
  { destruct (Z.ltb_spec 0 n), (Z.ltb_spec (t_col t) (zlen (t_line t))); cbn; try settled.
    destruct (Z.ltb_spec (zlen (t_line t)) (t_col t + n)); slices; settled. }
  destruct (cmd =? 64); [|settled]. destruct (Z.ltb_spec 0 n); [|settled].
  destruct (Z.ltb_spec maxAlloc n); [lia|]. slices.
  assert (zlen (replicate (Z.to_nat n) 0) = n) by (unfold zlen; rewrite length_replicate; lia).
  rewrite grown_ok by (rewrite !zlen_app; lia). settled.
Qed.
Lemma consume_safe t l :
  cursor_ok t -> short_digits 9 l = true -> zlen (t_line t) + 10 ^ 9 <= maxAlloc <= 2 ^ 62 ->
  match consumeEscape maxAlloc t l with
  | Panic => False | Incomplete => True | Consumed t' _ => grows t t' (10 ^ 9)
  end.
Proof.
  intros Hc Hs Hm. assert (Ht : grows t t (10 ^ 9)) by (split; [done|lia]).
  destruct l as [|b l]; cbn; [done|].
  destruct (b =? 93); [by destruct (scan_osc l)|]. destruct (b =? 91); [|by destruct (isCSIFinal b)].
  destruct (scan_csi l) as [[[ps f] r]|] eqn:E; [|done].
  apply scan_csi_split in E as ->. apply (short_digits_suffix _ [b]) in Hs.
  destruct (applyCSI_safe t f ps (f :: r) Hc Hs Hm) as (t' & -> & Ht'). done.
Qed.
Lemma run_safe n t l :
  (length l <= n)%nat -> cursor_ok t -> short_digits 9 l = true ->
  zlen (t_line t) + 10 ^ 9 * zlen l <= maxAlloc <= 2 ^ 62 ->
  exists t', run maxAlloc t l = Some t' /\ grows t t' (10 ^ 9 * zlen l).
Proof.
  revert t l. induction n as [|n IH]; intros t l Hn Hc Hs Hm.
  { destruct l; [|simpl in *; lia]. settled. destruct Hc. lia. }
  destruct l as [|b l]; [settled; destruct Hc; lia|].
  rewrite zlen_cons in *.
  pose proof (zlen_nonneg l). rewrite run_cons. simpl in Hn.
  destruct (b =? ESC).
  - pose proof (short_digits_suffix 9 [b] l Hs) as Hsl.
    pose proof (consume_safe t l Hc Hsl ltac:(lia)) as Hsafe.
    destruct (consumeEscape maxAlloc t l) as [| |t' rest] eqn:E; [settled; destruct Hc; lia|done|].
    destruct Hsafe as [Hc' Hg]. pose proof (consume_suffix _ _ _ _ _ E) as (k & -> & Hk).
    apply short_digits_suffix in Hsl. rewrite zlen_app in *. rewrite length_app in Hn.
    assert (1 <= zlen k) by (destruct k; [done|unfold zlen; simpl; lia]).
    destruct (IH t' rest) as (t2 & Hr & Hc2 & Hg2); [lia|done|done|lia|].
    exists t2. split; [done|]. split; [done|]. lia.
  - destruct (feedByte_safe t b Hc ltac:(lia)) as (t' & -> & Hc' & Hg). cbn.
    apply (short_digits_suffix 9 [b]) in Hs.
    destruct (IH t' l) as (t2 & Hr & Hc2 & Hg2); [lia|done|done|lia|].
    exists t2. split; [done|]. split; [done|]. lia.
Qed.

(** Output whose numbers have at most nine digits never makes the tracker
    panic, however it is split: the cursor stays within the line, and the line
    grows by less than 10^9 bytes per byte of output. *)
Theorem tracker_safe data :
  short_digits 9 data = true -> 10 ^ 9 * zlen data <= maxAlloc <= 2 ^ 62 ->
  exists t', feed maxAlloc new_tracker data = Some t' /\ cursor_ok t' /\ zlen (t_line t') <= 10 ^ 9 * zlen data.
Proof.
  intros Hs Hm. rewrite feed_run. destruct (run_safe (length data) new_tracker data) as (t' & Hr & Hc & Hg);
    [done|by split|done|done|]. exists t'. by split.
Qed.

(** The remote host can crash the server: whatever is on the line, a cursor
    movement by 2^63, which wraps to a negative number, followed by any printable
    character indexes the line out of range. *)
Theorem tracker_overflow_panics t x :
  t_esc t = [] -> cursor_ok t -> zlen (t_line t) <= 2 ^ 62 -> 32 <= x < 127 ->
  feed maxAlloc t ([ESC; 91] ++ bs "9223372036854775808C" ++ [x]) = None.
Proof.
  intros He [Hc1 Hc2] Hl Hx. rewrite feed_run, He, settle_id by done.
  change ([] ++ [ESC; 91] ++ bs "9223372036854775808C" ++ [x]) with (ESC :: (91 :: bs "9223372036854775808C") ++ [x]).
  rewrite run_cons. cbn [Z.eqb ESC Pos.eqb].
  assert (Hcons : consumeEscape maxAlloc t ((91 :: bs "9223372036854775808C") ++ [x]) =
    Consumed (with_line t (t_line t) (t_col t - 2 ^ 63)) [x]).
  { apply (consume_app _ _ _ _ _ []).
    assert (Hscan : scan_csi (bs "9223372036854775808C") = Some (bs "9223372036854775808", 67, [])) by (vm_compute; reflexivity).
    assert (Hpar : csiParam (bs "9223372036854775808") 1 = - 2 ^ 63) by (vm_compute; reflexivity).
    unfold consumeEscape. cbn [Z.eqb Pos.eqb]. rewrite Hscan. unfold applyCSI. cbn [Z.eqb Pos.eqb]. rewrite Hpar.
    rewrite int64_id by (unfold in_int64, minInt64, maxInt64; lia).
    destruct (Z.ltb_spec (zlen (t_line t)) (t_col t + - 2 ^ 63)); [lia|]. done. }
  rewrite Hcons, run_cons. unfold ESC. destruct (Z.eqb_spec x 27); [lia|].
  unfold feedByte, insertByte. cbn [with_line t_line t_col].
  repeat match goal with |- context [x =? ?k] => destruct (Z.eqb_spec x k); [lia|]; cbn [orb] end.
  destruct (Z.ltb_spec x 32); [lia|]. destruct (Z.leb_spec (zlen (t_line t)) (t_col t - 2 ^ 63)); [lia|].
  destruct (Z.ltb_spec (t_col t - 2 ^ 63) 0); [done|lia].
Qed.
End safety.

(** ** What is logged *)
Definition printable (l : list Z) : Prop := Forall (fun b => 32 <= b < 127) l.
Definition typed (evs : list term_event) : list Z :=
  concat ((fun e => match e with Typed p => p | Shown _ => [] end) <$> evs).
Definition shown (evs : list term_event) : list Z :=
  concat ((fun e => match e with Shown p => p | Typed _ => [] end) <$> evs).

Lemma run_printable maxAlloc t p :
  t_esc t = [] -> t_col t = zlen (t_line t) -> printable p -> zlen (t_line t) + zlen p <= maxAlloc ->
  run maxAlloc t p = Some (mkTracker (t_line t ++ p) (zlen (t_line t ++ p)) []).
Proof.
  intros He Hc Hp. revert t He Hc. induction Hp as [|b p Hb Hp IH]; intros t He Hc Hm.
  { rewrite app_nil_r. destruct t; cbn in *; by subst. }
  rewrite zlen_cons in Hm. pose proof (zlen_nonneg p). rewrite run_cons. unfold ESC.
  destruct (Z.eqb_spec b 27); [lia|].
  assert (Hf : feedByte maxAlloc t b = Some (mkTracker (t_line t ++ [b]) (zlen (t_line t ++ [b])) [])).
  { unfold feedByte, insertByte.
    repeat match goal with |- context [b =? ?k] => destruct (Z.eqb_spec b k); [lia|]; cbn [orb] end.
    destruct (Z.ltb_spec b 32); [lia|]. rewrite Hc. destruct (Z.leb_spec (zlen (t_line t)) (zlen (t_line t))); [|lia].
    rewrite grown_ok by (rewrite zlen_app, zlen_cons, zlen_nil; lia). cbn. unfold with_line. by rewrite He. }
  rewrite Hf. cbn [mbind option_bind]. rewrite IH; cbn [t_line t_col t_esc]; try done.
  - by rewrite <- app_assoc.
  - rewrite zlen_app, zlen_cons, zlen_nil. lia.
Qed.

(** Typing printable bytes collects them. *)
Lemma record_printable r p c now :
  printable p ->
  RecordInput r p c now =
    (mkRecorder (r_session r) (r_user r) (r_target r) (r_buf r ++ p) (r_echo r) (r_last r), c).
Proof.
  intros Hp. unfold RecordInput. revert r. induction Hp as [|b p Hb Hp IH]; intros r; cbn [foldl].
  { rewrite app_nil_r. by destruct r. }
  unfold record_byte at 2.
  repeat match goal with |- context [b =? ?k] => destruct (Z.eqb_spec b k); [lia|]; cbn [orb] end.
  destruct (Z.ltb_spec b 32); [lia|]. rewrite IH. cbn. by rewrite <- app_assoc.
Qed.

(** Before Enter a session only collects: typed bytes in the buffer, output in
    the tracker, in whatever order and pieces they come. *)
Lemma run_collect maxAlloc now r c evs e :
  feed maxAlloc (r_echo r) [] = Some (r_echo r) -> printable (typed evs) ->
  feed maxAlloc (r_echo r) (shown evs) = Some e ->
  exists last, run_terminal maxAlloc now (r, c) evs =
    Some (mkRecorder (r_session r) (r_user r) (r_target r) (r_buf r ++ typed evs) e last, c).
Proof.
  revert r. induction evs as [|[p|p] evs IH]; intros r Hs Hp He.
  - unfold shown in He. cbn in He. rewrite Hs in He. injection He as <-. exists (r_last r). unfold typed. cbn.
    rewrite app_nil_r. by destruct r.
  - unfold typed in Hp. cbn in Hp. apply Forall_app in Hp as [Hp1 Hp2]. cbn [run_terminal fst snd].
    rewrite record_printable by done.
    destruct (IH (mkRecorder (r_session r) (r_user r) (r_target r) (r_buf r ++ p) (r_echo r) (r_last r)) Hs Hp2 He) as [la ->].
    cbn. exists la. unfold typed. cbn. by rewrite <- app_assoc.
  - unfold shown in He. cbn in He. rewrite feed_app in He.
    destruct (feed maxAlloc (r_echo r) p) as [e1|] eqn:E1; [|done]. cbn in He. cbn [run_terminal fst snd].
    unfold recordStdout. destruct (bool_decide_reflect (p = [])) as [->|Hne].
    + rewrite Hs in E1. injection E1 as <-. apply (IH r Hs Hp He).
    + rewrite E1. cbn [mbind option_bind].
      destruct (IH (mkRecorder (r_session r) (r_user r) (r_target r) (r_buf r) e1
        (if bool_decide (currentLine e1 <> []) then currentLine e1 else r_last r))) as [la Hla];
        [by eapply feed_settled|done|exact He|]. eauto.
Qed.

Definition fresh_recorder (r : recorder) : Prop := r_buf r = [] /\ r_echo r = new_tracker /\ r_last r = [].
Definition row_of (r : recorder) (now : Z) (line : list Z) : command_row :=
  mkCommandRow (r_session r) (r_user r) (r_target r) now (redactSecrets line).
Lemma run_terminal_app maxAlloc now s evs1 evs2 :
  run_terminal maxAlloc now s (evs1 ++ evs2) =
    run_terminal maxAlloc now s evs1 ≫= fun s' => run_terminal maxAlloc now s' evs2.
Proof.
  revert s. induction evs1 as [|[p|p] evs IH]; intros s; cbn; [done|apply IH|].
  destruct (recordStdout maxAlloc s.1 p); cbn; [apply IH|done].
Qed.

(** One line: everything typed and shown up to Enter. *)
Lemma run_line maxAlloc now r rows evs e stdin echo :
  fresh_recorder r -> printable (typed evs) -> typed evs = stdin -> edges stdin ->
  feed maxAlloc new_tracker (shown evs) = Some e -> currentLine e = echo -> edges echo ->
  run_terminal maxAlloc now (r, connect rows) (evs ++ [Typed [13]]) =
    Some (mkRecorder (r_session r) (r_user r) (r_target r) [] new_tracker [],
      let line := mergeCommandLine stdin echo in
      if bool_decide (line = []) || isNoiseCommandLogLine line then connect rows
      else appendLine (connect rows) (r_session r) (r_user r) (r_target r) line now).
Proof.
  intros (Hb & Hec & Hl) Hp <- Hst Hf <- Hecho.
  destruct (run_collect maxAlloc now r (connect rows) evs e) as [la Hrun];
    [by rewrite Hec|done|by rewrite Hec|].
  rewrite run_terminal_app, Hrun. cbn [mbind option_bind run_terminal fst snd]. rewrite Hb.
  cbn [app]. unfold RecordInput. cbn [foldl]. unfold record_byte. cbn [Z.eqb Pos.eqb orb].
  unfold flushLine. cbn [r_buf r_echo r_last r_session r_user r_target].
  rewrite (bool_decide_false (currentLine e = [])) by by apply edges_nonempty. rewrite (TrimSpace_edges (typed evs)) by done.
  by destruct (_ || _).
Qed.
Lemma append_connect rows session user target line now :
  edges line ->
  appendLine (connect rows) session user target line now =
    connect (rows ++ [mkCommandRow session user target now (redactSecrets line)]).
Proof.
  intros He. unfold appendLine. rewrite (TrimSpace_edges line) by done.
  rewrite bool_decide_false by by apply edges_nonempty. done.
Qed.
Lemma edges_app_r p l : edges p -> edges l -> edges (p ++ l).
Proof.
  intros (a & b & Ha & Hb & Hga & Hgb) (a' & b' & Ha' & Hb' & Hga' & Hgb'). exists a, b'.
  split_and!; try done; [by destruct p|]. rewrite last_app. by rewrite Hb'.
Qed.

(** C17. A command that the remote shell echoes behind its prompt is logged as it was
    typed (after redaction), with the session, user and target of the terminal,
    however typing, prompt and echo interleave, and the recorder is as before - under
    these conditions: the recorder is fresh (nothing typed or shown since the last
    line), the database answers, prompt and command are printable ASCII that begin
    and end with a character other than a blank, the screen shows the prompt, one
    blank and the command and nothing else, the command is not one of the lines the
    noise filter drops, and both together are shorter than the largest slice. *)
Theorem echoed_command_logged maxAlloc now r rows evs prompt cmd :
  fresh_recorder r -> typed evs = cmd -> shown evs = prompt ++ [32] ++ cmd ->
  printable prompt -> printable cmd -> edges prompt -> edges cmd -> isNoiseCommandLogLine cmd = false ->
  zlen prompt + zlen cmd < maxAlloc ->
  exists r', fresh_recorder r' /\
    run_terminal maxAlloc now (r, connect rows) (evs ++ [Typed [13]]) = Some (r', connect (rows ++ [row_of r now cmd])).
Proof.
  intros Hr Ht Hsh Hp Hc Hep Hec Hn Hm. set (echo := prompt ++ [32] ++ cmd) in *.
  assert (Hpe : printable echo).
  { apply Forall_app. split; [done|]. apply Forall_app. split; [|done]. repeat constructor; lia. }
  assert (Hee : edges echo).
  { destruct Hep as (a & b & Ha & Hb & Hga & Hgb), Hec as (a' & b' & Ha' & Hb' & Hga' & Hgb').
    exists a, b'. split_and!; try done; [unfold echo; by destruct prompt|].
    unfold echo. by rewrite !last_app, Hb'. }
  exists (mkRecorder (r_session r) (r_user r) (r_target r) [] new_tracker []).
  split; [by split_and!|]. erewrite (run_line maxAlloc now r rows evs _ cmd echo); try done.
  - assert (Hmerge : mergeCommandLine cmd echo = cmd).
    { unfold mergeCommandLine. rewrite !TrimSpace_edges by done.
      pose proof (edges_nonempty _ Hec). pose proof (edges_nonempty _ Hee).
      rewrite (bool_decide_false (echo = [])), (bool_decide_false (cmd = [])) by done. rewrite andb_false_r.
      unfold echo. rewrite app_assoc, last_index_app, drop_app_length, TrimSpace_edges by done.
      unfold unless_noise. by rewrite Hn. }
    cbv zeta. rewrite Hmerge, Hn, bool_decide_false by by apply edges_nonempty. cbn [orb].
    by rewrite append_connect.
  - by rewrite Ht.
  - rewrite Hsh, feed_run. change ([] ++ echo) with echo. apply run_printable; try done.
    cbn. unfold echo. rewrite !zlen_app, zlen_cons, zlen_nil. change (zlen []) with 0. lia.
  - unfold currentLine. cbn [t_line new_tracker settle app]. by rewrite TrimSpace_edges.
Qed.

(** ** What is logged and should not be *)
Definition alnum : list Z := Z.of_nat <$> (seq 48 10 ++ seq 65 26 ++ seq 97 26).
Definition is_alnum (l : list Z) : Prop := Forall (.∈ alnum) l.
Lemma elem_of_alnum b : b ∈ alnum -> 48 <= b <= 122.
Proof.
  unfold alnum. rewrite list_elem_of_fmap. intros (n & -> & Hn).
  rewrite !elem_of_app, !elem_of_seq in Hn. lia.
Qed.
Lemma alnum_bounds l : is_alnum l -> Forall (fun b => 48 <= b <= 122) l.
Proof. intros H. eapply Forall_impl; [exact H|]. intros b. apply elem_of_alnum. Qed.
Lemma alnum_runes l : is_alnum l -> runes l = l.
Proof.
  intros H%alnum_bounds. apply runes_ascii, is_ascii_bounds. eapply Forall_impl; [exact H|]. cbn. lia.
Qed.
Lemma alnum_edges l : is_alnum l -> l <> [] -> edges l.
Proof.
  intros H%alnum_bounds. apply edges_graphic. eapply Forall_impl; [exact H|]. unfold graphic. cbn. lia.
Qed.
Lemma alnum_class l x : is_alnum l -> x ∈ runes l -> x ∈ alnum.
Proof. intros H. rewrite alnum_runes by done. unfold is_alnum in H. rewrite Forall_forall in H. apply H. Qed.
(** A text without the runes the patterns need is left alone. *)
Lemma redact_class cs l :
  (forall x, x ∈ runes l -> x ∈ cs) -> forallb (needs (absent cs)) secretArgPatterns = true ->
  redactSecrets l = l.
Proof.
  intros Hl. unfold redactSecrets. induction secretArgPatterns as [|r rs IH]; cbn [forallb foldl]; [done|].
  intros [Hr Hrs]%andb_true_iff. rewrite (replace_class cs) by done. by apply IH.
Qed.
Lemma redact_alnum l : is_alnum l -> redactSecrets l = l.
Proof. intros Hl. apply (redact_class alnum); [intros; by eapply alnum_class|vm_compute; reflexivity]. Qed.
Lemma contains_absent l c sub : c ∈ sub -> c ∉ l -> contains l sub = false.
Proof.
  intros Hc Hl. apply not_true_is_false. intros (k1 & k2 & ->)%contains_spec. apply Hl.
  rewrite !elem_of_app. auto.
Qed.
Lemma alnum_not_in l c : is_alnum l -> bool_decide (c ∈ alnum) = false -> c ∉ l.
Proof.
  intros H Hc Hin. apply bool_decide_eq_false in Hc. unfold is_alnum in H. rewrite Forall_forall in H. auto.
Qed.
Lemma alnum_not_noise l : is_alnum l -> l <> [] -> isNoiseCommandLogLine l = false.
Proof.
  intros Hl Hne. unfold isNoiseCommandLogLine. rewrite TrimSpace_edges by by apply alnum_edges.
  rewrite (bool_decide_false (l = [])) by done.
  rewrite (contains_absent l ESC) by (by apply alnum_not_in || left).
  rewrite (MatchString_class alnum) by ((intros; by eapply alnum_class) || (vm_compute; reflexivity)).
  assert (has_suffix l (bs "#") = false) as ->.
  { apply not_true_is_false. intros [k ->]%has_suffix_spec. apply (alnum_not_in _ 35 Hl); [done|].
    apply elem_of_app. right. vm_compute. left. }
  rewrite andb_false_r, (contains_absent l 64 (bs "@")) by ((vm_compute; left) || by apply alnum_not_in).
  cbn [andb]. assert (has_prefix l (bs "0;") = false) as ->; [|by case_match].
  apply not_true_is_false. intros [k ->]%has_prefix_spec. apply (alnum_not_in _ 59 Hl); [done|].
  vm_compute. right. left.
Qed.

(** A secret typed at a prompt is stored in the clear: when nothing of it is
    echoed but the prompt itself is on the line, any alphanumeric secret longer
    than the prompt's text is logged verbatim, redaction included. *)
Theorem typed_secret_logged maxAlloc now r rows prompt secret :
  fresh_recorder r -> printable prompt -> edges prompt -> is_alnum secret ->
  (length prompt < length secret)%nat -> zlen prompt < maxAlloc ->
  exists r', fresh_recorder r' /\
    run_terminal maxAlloc now (r, connect rows)
      [Shown ([13; 10] ++ prompt ++ [32]); Typed secret; Typed [13]] =
    Some (r', connect (rows ++ [mkCommandRow (r_session r) (r_user r) (r_target r) now secret])).
Proof.
  intros Hr Hp Hep Hs Hlen Hm.
  assert (Hne : secret <> []) by (destruct secret; [simpl in Hlen; lia|done]).
  pose proof (alnum_edges _ Hs Hne) as Hes.
  assert (Hpr : printable (prompt ++ [32])) by (apply Forall_app; split; [done|repeat constructor; lia]).
  exists (mkRecorder (r_session r) (r_user r) (r_target r) [] new_tracker []). split; [by split_and!|].
  pose proof (run_line maxAlloc now r rows [Shown ([13; 10] ++ prompt ++ [32]); Typed secret]
    (mkTracker (prompt ++ [32]) (zlen (prompt ++ [32])) []) secret prompt Hr) as Hline.
  cbn [app] in Hline |- *. rewrite Hline; clear Hline; try done.
  - assert (Hmerge : mergeCommandLine secret prompt = secret).
    { unfold mergeCommandLine. rewrite !TrimSpace_edges by done. pose proof (edges_nonempty _ Hep).
      rewrite (bool_decide_false (prompt = [])), (bool_decide_false (secret = [])) by done. rewrite andb_false_r.
      rewrite last_index_short by done. destruct (Nat.leb_spec (length secret) (length prompt)); [lia|].
      unfold unless_noise. by rewrite alnum_not_noise. }
    cbv zeta. rewrite Hmerge, alnum_not_noise, bool_decide_false by done. cbn [orb].
    rewrite append_connect by done. by rewrite redact_alnum.
  - unfold typed. cbn. rewrite app_nil_r. apply alnum_bounds in Hs. eapply Forall_impl; [exact Hs|]. cbn. lia.
  - unfold typed. cbn. by rewrite app_nil_r.
  - unfold shown. cbn. rewrite app_nil_r, feed_run. cbn [app t_esc new_tracker].
    rewrite run_cons. cbn. rewrite run_cons. cbn. rewrite run_printable; try done. cbn.
    rewrite zlen_app, zlen_cons, zlen_nil. lia.
  - unfold currentLine. cbn [t_line]. by apply TrimSpace_blank.
Qed.

(** The tracker is stuck on an escape sequence it believes unfinished. *)
Definition stalled (b : Z) (r : recorder) : Prop :=
  t_line (r_echo r) = [] /\ (exists q, t_esc (r_echo r) = ESC :: b :: q) /\ r_last r = [].
Definition no_enter (l : list Z) : Prop := Forall (fun x => x <> 13 /\ x <> 10) l.

Lemma run_stalls maxAlloc t b q :
  isCSIFinal b = false -> run maxAlloc t (ESC :: b :: q) = Some (mkTracker (t_line t) (t_col t) (ESC :: b :: q)).
Proof.
  intros Hf. rewrite run_cons. cbn [Z.eqb Pos.eqb ESC]. unfold consumeEscape. rewrite Hf.
  unfold isCSIFinal, in_range in Hf. destruct (Z.eqb_spec b 93); [lia|]. by destruct (Z.eqb_spec b 91); [lia|].
Qed.
Lemma stalled_shown maxAlloc b r p :
  isCSIFinal b = false -> stalled b r \/ fresh_recorder r /\ (exists q, p = ESC :: b :: q) ->
  exists r', recordStdout maxAlloc r p = Some r' /\ stalled b r'.
Proof.
  intros Hf Hr. unfold recordStdout. destruct (bool_decide_reflect (p = [])) as [->|Hne].
  { exists r. split; [done|]. destruct Hr as [?|[_ [q Hq]]]; done. }
  rewrite feed_run. assert (exists q, t_esc (r_echo r) ++ p = ESC :: b :: q) as [q ->].
  { destruct Hr as [(_ & [q ->] & _)|[(_ & -> & _) [q ->]]]; by eexists. }
  rewrite run_stalls by done. cbn. eexists. split; [done|]. unfold stalled, currentLine. cbn.
  destruct Hr as [(-> & _ & ->)|[(_ & -> & ->) _]]; cbn; eauto.
Qed.
Lemma stalled_typed b r p c now :
  stalled b r -> no_enter p -> exists r', RecordInput r p c now = (r', c) /\ stalled b r'.
Proof.
  intros Hr Hp. unfold RecordInput. revert r Hr. induction Hp as [|x p [H1 H2] Hp IH]; intros r Hr; cbn [foldl]; [by eexists|].
  unfold record_byte at 2. destruct (Z.eqb_spec x 13); [done|]. destruct (Z.eqb_spec x 10); [done|]. cbn [orb].
  destruct (x =? 9); [by apply IH|]. destruct (x <? 32); by apply IH.
Qed.
Lemma stalled_run maxAlloc now b r c evs :
  isCSIFinal b = false -> stalled b r -> no_enter (typed evs) ->
  exists r', run_terminal maxAlloc now (r, c) evs = Some (r', c) /\ stalled b r'.
Proof.
  intros Hf. revert r. induction evs as [|[p|p] evs IH]; intros r Hr Ht; cbn [run_terminal fst snd]; [by eexists|..].
  - unfold typed in Ht. cbn in Ht. apply Forall_app in Ht as [Hp Ht].
    destruct (stalled_typed b r p c now Hr Hp) as (r' & -> & Hr'). by apply IH.
  - destruct (stalled_shown maxAlloc b r p Hf) as (r' & -> & Hr'); [by left|]. by apply IH.
Qed.
(** With no echo to compare with, the typed line is dropped. *)
Lemma stalled_flush b r c now : stalled b r -> exists r', fresh_recorder r' /\ flushLine r c now = (r', c).
Proof.
  intros (H1 & _ & H3). unfold flushLine, currentLine. rewrite H1, H3.
  assert (Hm : mergeCommandLine (TrimSpace (r_buf r)) [] = []).
  { unfold mergeCommandLine. change (TrimSpace []) with (@nil Z). rewrite (bool_decide_true ([] = [])) by done.
    rewrite andb_true_r. set (z := TrimSpace (TrimSpace _)).
    destruct (bool_decide_reflect (z <> [])) as [|Hz]; [done|]. by apply dec_stable in Hz. }
  change (TrimSpace []) with (@nil Z). rewrite (bool_decide_true ([] = [])) by done. rewrite Hm.
  rewrite (bool_decide_true ([] = [])) by done. cbn [orb]. eexists. split; [|done]. by split_and!.
Qed.

(** After a two-byte escape such as ESC ( or ESC 7, which the tracker takes
    for an unfinished sequence, nothing shown is followed any more: whatever the
    user types until Enter is not logged, echoed or not. *)
Theorem stalled_line_not_logged maxAlloc now r c b s evs :
  fresh_recorder r -> isCSIFinal b = false -> no_enter (typed evs) ->
  exists r', fresh_recorder r' /\
    run_terminal maxAlloc now (r, c) (Shown (ESC :: b :: s) :: evs ++ [Typed [13]]) = Some (r', c).
Proof.
  intros Hr Hf Ht. cbn [run_terminal fst snd].
  destruct (stalled_shown maxAlloc b r (ESC :: b :: s) Hf) as (r1 & -> & Hr1); [right; eauto|].
  cbn [mbind option_bind]. rewrite run_terminal_app.
  destruct (stalled_run maxAlloc now b r1 c evs Hf Hr1 Ht) as (r2 & -> & Hr2).
  destruct (stalled_flush b r2 c now Hr2) as (r3 & Hr3 & Hfl). exists r3. split; [done|].
  cbn. by rewrite Hfl.
Qed.

(** ** A redaction that hides a secret from the next one *)
Definition digits_only (l : list Z) : Prop := Forall (fun b => 48 <= b <= 57) l.
Lemma digits_ascii l : digits_only l -> is_ascii l = true.
Proof. intros H. apply is_ascii_bounds. eapply Forall_impl; [exact H|]. cbn. lia. Qed.
Lemma digits_listed s x : digits_only s -> x ∈ s -> x ∈ bs "0123456789".
Proof.
  intros H Hx. unfold digits_only in H. rewrite Forall_forall in H. specialize (H x Hx). cbn in H.
  assert (forall n, (n < 10)%nat -> Z.of_nat (48 + n) ∈ bs "0123456789") as Hn.
  { intros n Hn. do 10 (destruct n as [|n]; [apply (bool_decide_eq_true_1 _); vm_compute; reflexivity|]). lia. }
  replace x with (Z.of_nat (48 + Z.to_nat (x - 48))) by lia. apply Hn. lia.
Qed.
Lemma digits_in p s x : digits_only s -> is_ascii p = true -> x ∈ runes (p ++ s) -> x ∈ p ++ bs "0123456789".
Proof.
  intros Hs Hp. rewrite runes_ascii.
  - rewrite !elem_of_app. intros [?|?]; [by left|]. right. by eapply digits_listed.
  - apply digits_ascii in Hs. unfold is_ascii in *. by rewrite forallb_app, Hp, Hs.
Qed.

(** The first redaction pattern (the short flag -p) matches inside
    --password and destroys it, so the pattern for --password no longer
    applies: a numeric password given as a separate argument is kept. *)
Theorem password_argument_kept s :
  digits_only s -> redactSecrets (bs "mysql --password " ++ s) = bs "mysql --p*** " ++ s.
Proof.
  intros Hs. unfold redactSecrets, secretArgPatterns. cbn [foldl].
  set (p1 := Cat (Group (Seq [NoWordBoundary; lit "-p"])) (Plus nonspace)).
  assert (H1 : ReplaceAllString p1 (bs "***") (bs "mysql --password " ++ s) = bs "mysql --p*** " ++ s).
  { unfold ReplaceAllString. rewrite glyphs_ascii_app by done. set (tl := glyphs s).
    assert (Hexec : exec p1 Some (mkM (Some 45) ((ascii_glyph <$> bs "-p") ++ (ascii_glyph <$> bs "assword ") ++ tl) []) =
      Some (mkM (Some 100) ((ascii_glyph <$> bs " ") ++ tl) (ascii_glyph <$> bs "-p"))).
    { unfold p1. cbn [exec]. change (Seq [NoWordBoundary; lit "-p"]) with (Cat NoWordBoundary (Cat (Seq (chr <$> bs "-p")) Nul)).
      cbn [exec]. cbn [is_word m_prev next_rune m_rest].
      change (Bool.eqb _ _) with true. cbn iota. rewrite exec_lit. cbn [m_prev m_rest m_cap].
      rewrite group_take. apply exec_star_class. }
    assert (Hfind : find p1 None ((ascii_glyph <$> bs "mysql --password ") ++ tl) =
      Some (ascii_glyph <$> bs "mysql -",
            mkM (Some 100) ((ascii_glyph <$> bs " ") ++ tl) (ascii_glyph <$> bs "-p"))).
    { change (bs "mysql --password ") with (bs "mysql -" ++ bs "-p" ++ bs "assword ").
      rewrite !fmap_app, <- !app_assoc.
      change ((ascii_glyph <$> bs "mysql -") ++ ?x) with
        (ascii_glyph 109 :: ascii_glyph 121 :: ascii_glyph 115 :: ascii_glyph 113 :: ascii_glyph 108 :: ascii_glyph 32 :: ascii_glyph 45 :: x).
      do 7 (rewrite find_step by (vm_compute; reflexivity)). change (ascii_glyph 45).1 with 45.
      by rewrite (find_here _ _ _ _ Hexec). }
    cbn [replace_fuel]. rewrite Hfind. cbn [m_rest m_cap m_prev].
    destruct (Nat.ltb_spec (length ((ascii_glyph <$> bs " ") ++ tl)) (length ((ascii_glyph <$> bs "mysql --password ") ++ tl)));
      [|rewrite !length_app in *; cbn in *; lia].
    rewrite (replace_fuel_needs (.∈ bs " 0123456789") (absent (bs " 0123456789"))).
    - rewrite text_app. unfold tl. rewrite text_glyphs. done.
    - intros c x. apply absent_sound.
    - vm_compute. reflexivity.
    - apply Forall_app. split; [repeat constructor|]. unfold tl. eapply Forall_impl; [apply glyphs_ok|].
      intros g Hg. by apply (digits_in [] s) in Hg; [right|..]. }
  rewrite H1. 
  assert (Hrest : forall r, needs (absent (bs "mysql --p*** 0123456789")) r = true ->
    ReplaceAllString r (bs "***") (bs "mysql --p*** " ++ s) = bs "mysql --p*** " ++ s).
  { intros r Hr. apply (replace_class (bs "mysql --p*** 0123456789")); [|done].
    intros x. apply (digits_in (bs "mysql --p*** ") s); done. }
  by rewrite !Hrest by (vm_compute; reflexivity).
Qed.

(** ** Instances *)
Definition demo_recorder : recorder := mkRecorder "s1" "alice" "t1" [] new_tracker [].
Lemma demo_fresh : fresh_recorder demo_recorder. Proof. by split_and!. Qed.
Ltac small := unfold printable, digits_only, graphic; apply (bool_decide_eq_true_1 _); vm_compute; reflexivity.

Lemma tracker_safe_witness :
  exists t', feed alloc48 new_tracker ([ESC; 91] ++ bs "3@ls" ++ [ESC; 91] ++ bs "99Cx") = Some t' /\
    cursor_ok t' /\ zlen (t_line t') <= 10 ^ 9 * 12.
Proof. apply (tracker_safe alloc48); [reflexivity|]. unfold alloc48. vm_compute. split; discriminate. Defined.
Lemma tracker_overflow_panics_witness :
  feed alloc48 new_tracker ([ESC; 91] ++ bs "9223372036854775808C" ++ [120]) = None.
Proof. apply (tracker_overflow_panics alloc48 new_tracker 120); [reflexivity|by split|vm_compute; discriminate|lia]. Defined.
Lemma echoed_command_logged_witness :
  exists r', fresh_recorder r' /\
    run_terminal alloc48 7 (demo_recorder, connect [])
      ([Shown (bs "host$ "); Typed (bs "l"); Shown (bs "l"); Typed (bs "s"); Shown (bs "s")] ++ [Typed [13]]) =
    Some (r', connect [row_of demo_recorder 7 (bs "ls")]).
Proof.
  apply (echoed_command_logged alloc48 7 demo_recorder [] _ (bs "host$") (bs "ls"));
    [exact demo_fresh|reflexivity|reflexivity|small|small| | |vm_compute; reflexivity|vm_compute; reflexivity].
  - apply edges_graphic; [small|done].
  - apply edges_graphic; [small|done].
Defined.
Lemma typed_secret_logged_witness :
  exists r', fresh_recorder r' /\
    run_terminal alloc48 7 (demo_recorder, connect [])
      [Shown ([13; 10] ++ bs "Password:" ++ [32]); Typed (bs "correcthorse"); Typed [13]] =
    Some (r', connect [mkCommandRow "s1" "alice" "t1" 7 (bs "correcthorse")]).
Proof.
  apply (typed_secret_logged alloc48 7 demo_recorder [] (bs "Password:") (bs "correcthorse"));
    [exact demo_fresh|small| | |vm_compute; lia|vm_compute; reflexivity].
  - apply edges_graphic; [small|done].
  - unfold is_alnum. small.
Defined.
Lemma stalled_line_not_logged_witness :
  exists r', fresh_recorder r' /\
    run_terminal alloc48 7 (demo_recorder, connect [])
      (Shown (ESC :: 40 :: bs "Bhost$ ") :: [Typed (bs "rm"); Shown (bs "rm")] ++ [Typed [13]]) =
    Some (r', connect []).
Proof.
  apply (stalled_line_not_logged alloc48 7 demo_recorder (connect []) 40 (bs "Bhost$ ") [Typed (bs "rm"); Shown (bs "rm")]);
    [exact demo_fresh|reflexivity|]. unfold no_enter. repeat constructor; done.
Defined.
Lemma password_argument_kept_witness :
  redactSecrets (bs "mysql --password " ++ bs "123456") = bs "mysql --p*** " ++ bs "123456".
Proof. apply (password_argument_kept (bs "123456")). small. Defined.
