(* ===== verification/Invitations.v ===== *)
(** Invitations to shared sessions: their state (src/internal/sharing/
    invitations.go) and the SQLite store (src/internal/sharing/sqlite_store.go).

    A row of [session_invitations] is [inv_row], with its NULL columns as
    options and its times in Unix seconds; [scanInvitation] turns it into the
    Go struct. The second table records who consumed which invitation. *)
From S2P Require Import Prelude GoText Sqlite SharingRoom.
Local Open Scope Z_scope.

Abbreviation Mode := string (only parsing).
Abbreviation Kind := string (only parsing).
Definition ModeViewer : Mode := "viewer".
Definition ModeWriterEligible : Mode := "writer_eligible".
Definition KindTerminal : Kind := "terminal".
Definition KindVNC : Kind := "vnc".
Definition KindRDP : Kind := "rdp".

Record Invitation := mkInvitation {
  inv_ID : string;
  inv_SessionID : string;
  inv_SessionKind : Kind;
  inv_TargetID : string;
  inv_OwnerUserID : string;
  inv_InviteeUserID : string; (* empty -> link invitation *)
  inv_InviteGroupID : string;
  inv_InviteTag : string;
  inv_Mode : Mode;
  inv_MaxUses : option Z; (* link only: None = unlimited *)
  inv_UseCount : Z;
  inv_ExpiresAt : time;
  inv_UsedAt : time;    (* zero -> not fully consumed *)
  inv_RevokedAt : time; (* zero -> not revoked *)
  inv_CreatedAt : time
}.

(** ** invitations.go *)
Definition Used (i : Invitation) : bool := negb (IsZero (inv_UsedAt i)).
Definition Revoked (i : Invitation) : bool := negb (IsZero (inv_RevokedAt i)).
Definition Expired (i : Invitation) (now : time) : bool :=
  negb (IsZero (inv_ExpiresAt i)) && After now (inv_ExpiresAt i).
Definition IsLink (i : Invitation) : bool :=
  bool_decide (TrimSpace_s (inv_InviteeUserID i) = ""%string).
Definition LinkUnlimited (i : Invitation) : bool :=
  IsLink i && bool_decide (inv_MaxUses i = None).
Definition Exhausted (i : Invitation) : bool :=
  if IsLink i then
    if LinkUnlimited i then false
    else match inv_MaxUses i with
         | Some m => m <=? inv_UseCount i
         | None => Used i
         end
  else Used i.
Definition Active (i : Invitation) (now : time) : bool :=
  negb (Exhausted i) && negb (Revoked i) && negb (Expired i now).

Definition NormaliseMode `{UnicodeTables} (raw : string) : result sharing_err Mode :=
  let s := ToLower_s (TrimSpace_s raw) in
  if decide (s = ""%string \/ s = ModeViewer) then Ok ModeViewer
  else if decide (s = ModeWriterEligible) then Ok ModeWriterEligible
  else Err ErrInvitationModeInvalid.
Definition NormaliseKind `{UnicodeTables} (raw : string) : result sharing_err Kind :=
  let s := ToLower_s (TrimSpace_s raw) in
  if decide (s = ""%string \/ s = KindTerminal) then Ok KindTerminal
  else if decide (s = KindVNC) then Ok KindVNC
  else if decide (s = KindRDP) then Ok KindRDP
  else Err ErrInvitationKindInvalid.

(** ** The table *)
Record inv_row := mkInvRow {
  row_id : string;
  row_token_hash : string;
  row_session_id : string;
  row_session_kind : string;
  row_target_id : string;
  row_owner_user_id : string;
  row_invitee_user_id : option string;
  row_invite_group_id : option string;
  row_invite_tag : option string;
  row_mode : string;
  row_max_uses : option Z;
  row_use_count : Z;
  row_expires_at : Z;
  row_used_at : option Z;
  row_revoked_at : option Z;
  row_created_at : Z
}.
Record sharing_tables := mkSharingTables {
  session_invitations : gmap string inv_row;
  invitation_consumers : gmap (string * string) Z
}.
#[export] Instance sharing_db_error : DBError sharing_err := ErrDatabase.
Abbreviation SharingDB := (DB sharing_tables sharing_err).

Definition set_invitations (t : sharing_tables) (m : gmap string inv_row) : sharing_tables :=
  mkSharingTables m (invitation_consumers t).

(** ** Columns *)
Definition nullableUser (s : string) : option string :=
  let v := TrimSpace_s s in
  if decide (v = ""%string) then None else Some v.
Definition nullableMaxUses (m : option Z) : option Z := m.

Definition scan_null_string (o : option string) : string :=
  match o with Some s => TrimSpace_s s | None => ""%string end.
Definition scan_null_time (o : option Z) : time :=
  match o with Some u => time_Unix u | None => zero_time end.
Definition scan_time (u : Z) : time := if 0 <? u then time_Unix u else zero_time.
Definition scanInvitation (r : inv_row) : Invitation * string :=
  (mkInvitation (row_id r) (row_session_id r) (row_session_kind r) (row_target_id r)
     (row_owner_user_id r) (scan_null_string (row_invitee_user_id r))
     (scan_null_string (row_invite_group_id r)) (scan_null_string (row_invite_tag r))
     (row_mode r) (row_max_uses r) (row_use_count r) (scan_time (row_expires_at r))
     (scan_null_time (row_used_at r)) (scan_null_time (row_revoked_at r))
     (scan_time (row_created_at r)),
   row_token_hash r).

(** ** sqlite_store.go *)
Definition token_taken (t : sharing_tables) (id tokenHash : string) : Prop :=
  exists id' r, session_invitations t !! id' = Some r /\ id' <> id /\ row_token_hash r = tokenHash.
#[export] Instance token_taken_dec t id h : Decision (token_taken t id h).
Proof.
  refine (cast_if (decide (map_Exists (fun id' r => id' <> id /\ row_token_hash r = h) (session_invitations t))));
    unfold token_taken, map_Exists in *; naive_solver.
Defined.

(** The row the INSERT statement writes. *)
Definition invitation_row (inv : Invitation) (tokenHash : string) : inv_row :=
  mkInvRow (inv_ID inv) tokenHash (inv_SessionID inv) (inv_SessionKind inv) (inv_TargetID inv)
    (inv_OwnerUserID inv) (nullableUser (inv_InviteeUserID inv))
    (nullableUser (inv_InviteGroupID inv)) (nullableUser (inv_InviteTag inv)) (inv_Mode inv)
    (nullableMaxUses (inv_MaxUses inv)) (inv_UseCount inv) (Unix (inv_ExpiresAt inv)) None None
    (Unix (inv_CreatedAt inv)).
Definition Create (inv : Invitation) (tokenHash : string) : SharingDB unit :=
  let* _ := db_configured ErrStoreNotConfigured in
  db_exec (fun t =>
    if decide (is_Some (session_invitations t !! inv_ID inv) \/ token_taken t (inv_ID inv) tokenHash)
    then Err "UNIQUE constraint failed"%string
    else Ok (set_invitations t
               (<[inv_ID inv := invitation_row inv tokenHash]> (session_invitations t)), tt)).

Definition GetByID (id : string) : SharingDB (Invitation * string) :=
  let* _ := db_configured ErrStoreNotConfigured in
  let* row := db_query (fun t => session_invitations t !! id) in
  match row with
  | None => db_throw ErrInvitationNotFound
  | Some r => db_ret (scanInvitation r)
  end.

(** The row with a given token; [token_hash] is UNIQUE. *)
Definition row_by_token (t : sharing_tables) (tokenHash : string) : option inv_row :=
  head (filter (fun r => row_token_hash r = tokenHash) (snd <$> map_to_list (session_invitations t))).
Definition GetByTokenHash (tokenHash : string) : SharingDB Invitation :=
  let* _ := db_configured ErrStoreNotConfigured in
  let* row := db_query (fun t => row_by_token t tokenHash) in
  match row with
  | None => db_throw ErrInvitationNotFound
  | Some r => db_ret (fst (scanInvitation r))
  end.

(** [ORDER BY created_at DESC] *)
Definition newest_first (a b : inv_row) : bool := row_created_at b <? row_created_at a.
Definition ListPendingForInvitee `{MapRange} (inviteeUserID : string) (now : time)
    : SharingDB (list Invitation) :=
  let* _ := db_configured ErrStoreNotConfigured in
  let inviteeUserID := TrimSpace_s inviteeUserID in
  if decide (inviteeUserID = ""%string) then db_ret []
  else
    let* rows := db_query (fun t =>
      filter (fun r => row_invitee_user_id r = Some inviteeUserID /\ row_used_at r = None /\
                       row_revoked_at r = None /\ row_expires_at r > Unix now)
        (order_by newest_first (session_invitations t))) in
    db_ret ((fun r => fst (scanInvitation r)) <$> rows).
Definition ListBySession `{MapRange} (sessionID : string) : SharingDB (list Invitation) :=
  let* _ := db_configured ErrStoreNotConfigured in
  let* rows := db_query (fun t =>
    filter (fun r => row_session_id r = sessionID)
      (order_by newest_first (session_invitations t))) in
  db_ret ((fun r => fst (scanInvitation r)) <$> rows).

(** The WHERE clause of the conditional UPDATE. *)
Definition usable (r : inv_row) (whenUnix : Z) : Prop :=
  row_revoked_at r = None /\ row_expires_at r > whenUnix /\
  ((coalesce_empty (row_invitee_user_id r) <> ""%string /\
    (row_used_at r = None \/ row_used_at r = Some 0)) \/
   (coalesce_empty (row_invitee_user_id r) = ""%string /\
    match row_max_uses r with None => True | Some m => row_use_count r < m end)).
#[export] Instance usable_dec r w : Decision (usable r w).
Proof. unfold usable. destruct (row_max_uses r); apply _. Defined.
(** The SET clause: every expression reads the old row. *)
Definition use_row (r : inv_row) (consumerUserID : string) (whenUnix : Z) : inv_row :=
  mkInvRow (row_id r) (row_token_hash r) (row_session_id r) (row_session_kind r) (row_target_id r)
    (row_owner_user_id r)
    (match row_invitee_user_id r with Some v => Some v | None => nullableUser consumerUserID end)
    (row_invite_group_id r) (row_invite_tag r) (row_mode r) (row_max_uses r)
    (row_use_count r + 1) (row_expires_at r)
    (if decide (coalesce_empty (row_invitee_user_id r) <> ""%string) then Some whenUnix
     else match row_max_uses r with
          | Some m => if m <=? row_use_count r + 1 then Some whenUnix else row_used_at r
          | None => row_used_at r
          end)
    (row_revoked_at r) (row_created_at r).
Definition RecordUse (id consumerUserID : string) (when_ : time) : SharingDB unit :=
  let* _ := db_configured ErrStoreNotConfigured in
  let whenUnix := Unix when_ in
  let* n := db_exec (fun t =>
    match session_invitations t !! id with
    | Some r =>
        if decide (usable r whenUnix)
        then Ok (set_invitations t
                   (<[id := use_row r consumerUserID whenUnix]> (session_invitations t)), 1)
        else Ok (t, 0)
    | None => Ok (t, 0)
    end) in
  if n =? 0 then db_throw ErrInvitationConsumed
  else if decide (TrimSpace_s consumerUserID <> ""%string) then
    db_exec (fun t =>
      match invitation_consumers t !! (id, consumerUserID) with
      | Some _ => Ok (t, tt)
      | None => Ok (mkSharingTables (session_invitations t)
                      (<[(id, consumerUserID) := whenUnix]> (invitation_consumers t)), tt)
      end)
  else db_ret tt.

Definition set_revoked (w : Z) (r : inv_row) : inv_row :=
  mkInvRow (row_id r) (row_token_hash r) (row_session_id r) (row_session_kind r) (row_target_id r)
    (row_owner_user_id r) (row_invitee_user_id r) (row_invite_group_id r) (row_invite_tag r)
    (row_mode r) (row_max_uses r) (row_use_count r) (row_expires_at r) (row_used_at r)
    (Some w) (row_created_at r).
Definition MarkRevoked (id : string) (when_ : time) : SharingDB unit :=
  let* _ := db_configured ErrStoreNotConfigured in
  db_exec (fun t => Ok (set_invitations t (alter (set_revoked (Unix when_)) id (session_invitations t)), tt)).

Definition set_token_hash (h : string) (r : inv_row) : inv_row :=
  mkInvRow (row_id r) h (row_session_id r) (row_session_kind r) (row_target_id r)
    (row_owner_user_id r) (row_invitee_user_id r) (row_invite_group_id r) (row_invite_tag r)
    (row_mode r) (row_max_uses r) (row_use_count r) (row_expires_at r) (row_used_at r)
    (row_revoked_at r) (row_created_at r).
Definition UpdateTokenHash (id tokenHash : string) : SharingDB unit :=
  let* _ := db_configured ErrStoreNotConfigured in
  let tokenHash := TrimSpace_s tokenHash in
  if decide (tokenHash = ""%string) then db_throw ErrTokenHashRequired
  else
    let* n := db_exec (fun t =>
      match session_invitations t !! id with
      | None => Ok (t, 0)
      | Some r =>
          if decide (token_taken t id tokenHash) then Err "UNIQUE constraint failed"%string
          else Ok (set_invitations t (<[id := set_token_hash tokenHash r]> (session_invitations t)), 1)
      end) in
    if n =? 0 then db_throw ErrInvitationNotFound else db_ret tt.

(** ** What a use does *)
Lemma hoare_configured (t : sharing_tables) :
  hoare (eq t) (db_configured (T:=sharing_tables) ErrStoreNotConfigured)
    (fun t' r => t' = t /\ (r = Ok tt \/ r = Err ErrStoreNotConfigured)).
Proof. intros c ->. unfold db_configured. destruct (configured c); simpl; eauto. Qed.

(** The tables after a recorded use, whatever became of the consumer row. *)
Definition used_tables (t t' : sharing_tables) (id u : string) (w : Z) : Prop :=
  exists r, session_invitations t !! id = Some r /\ usable r w /\
    session_invitations t' = <[id := use_row r u w]> (session_invitations t).
Definition record_use_post (t : sharing_tables) (id u : string) (w : Z)
    (t' : sharing_tables) (r : result sharing_err unit) : Prop :=
  match r with
  | Ok _ => used_tables t t' id u w /\
            (TrimSpace_s u <> ""%string -> is_Some (invitation_consumers t' !! (id, u)))
  | Err (ErrDatabase _) => t' = t \/ used_tables t t' id u w
  | Err e => t' = t /\ (e = ErrStoreNotConfigured \/
               e = ErrInvitationConsumed /\
               forall row, session_invitations t !! id = Some row -> ~ usable row w)
  end.
Lemma record_use_hoare t id u when_ :
  hoare (eq t) (RecordUse id u when_) (record_use_post t id u (Unix when_)).
Proof.
  unfold RecordUse. eapply hoare_bind; [apply hoare_configured| |].
  2: { intros t' e [-> [?|?]]; simplify_eq; simpl; auto. }
  intros []. eapply (hoare_bind _ _ _ (fun t' r => match r with
    | Ok n => (n = 1 /\ used_tables t t' id u (Unix when_)) \/
        (n = 0 /\ t' = t /\ forall row, session_invitations t !! id = Some row -> ~ usable row (Unix when_))
    | Err e => t' = t /\ exists m, e = ErrDatabase m end)).
  - apply hoare_exec; [|intros t' m [-> _]; simpl; eauto].
    intros t' [-> _]. destruct (session_invitations t !! id) as [r|] eqn:Hr; [case_decide|]; simpl.
    + left. split; [done|]. exists r. done.
    + right. naive_solver.
    + right. naive_solver.
  - intros n. destruct (n =? 0) eqn:Hn; [|case_decide as Hu].
    + apply Z.eqb_eq in Hn as ->. intros c [[? _]|[_ [Ht Hno]]]; [done|]. simpl. auto.
    + apply hoare_exec.
      * intros t' [[_ (r & Hr & Hus & Ht)]|[-> _]]; [|done].
        destruct (invitation_consumers t' !! (id, u)) eqn:Hc; simpl; (split; [exists r; done|]).
        { by rewrite Hc. }
        { intros _. simpl. by rewrite lookup_insert_eq. }
      * intros t' m [[_ Hut]|(-> & -> & _)]; [by right|by left].
    + intros c [[-> Hut]|[-> _]]; [|done]. simpl. split; [done|]. congruence.
  - intros t' e [-> [m ->]]. simpl. auto.
Qed.

(** [RecordUse] is one conditional update: when it returns nil the
    invitation existed, was not revoked, expired or consumed, and its row is
    the old one with one more use; when it refuses, nothing changed and the
    invitation was not usable. A database error leaves the invitations
    unchanged or with exactly that one use recorded. *)
Theorem record_use_spec c id u when_ :
  let (c', r) := RecordUse id u when_ c in
  record_use_post (tables c) id u (Unix when_) (tables c') r.
Proof.
  pose proof (record_use_hoare (tables c) id u when_ c eq_refl) as H.
  by destruct (RecordUse id u when_ c).
Qed.

(** A row whose stored user is blank or kept as the store writes it. *)
Definition row_clean (r : inv_row) : Prop :=
  (forall v, row_invitee_user_id r = Some v -> v <> ""%string /\ TrimSpace_s v = v) /\
  row_used_at r <> Some 0.
Lemma scan_invitee r : row_clean r -> scan_null_string (row_invitee_user_id r) = coalesce_empty (row_invitee_user_id r).
Proof.
  intros [Hc _]. destruct (row_invitee_user_id r) as [v|]; [|done]. by destruct (Hc v eq_refl).
Qed.
Lemma scan_IsLink r :
  row_clean r -> IsLink (scanInvitation r).1 = bool_decide (coalesce_empty (row_invitee_user_id r) = ""%string).
Proof.
  intros Hc. unfold IsLink. simpl. rewrite scan_invitee by done.
  destruct (row_invitee_user_id r) as [v|] eqn:Hv; simpl; [|done].
  by destruct (proj1 Hc v Hv) as [_ ->].
Qed.

Lemma usable_not_exhausted r w : row_clean r -> usable r w -> Exhausted (scanInvitation r).1 = false.
Proof.
  intros Hc (_ & _ & Hu). unfold Exhausted, LinkUnlimited, Used. rewrite scan_IsLink by done.
  destruct Hu as [[Hn Hused]|[Hl Hm]].
  - rewrite bool_decide_eq_false_2 by done. simpl.
    destruct Hused as [->|?]; [done|]. by destruct Hc as [_ []].
  - rewrite bool_decide_eq_true_2 by done. simpl. destruct (row_max_uses r); simpl; [|done].
    by apply Z.leb_gt.
Qed.

Lemma usable_active r when_ :
  row_clean r -> usable r (Unix when_) -> Active (scanInvitation r).1 when_ = true.
Proof.
  intros Hc Hu. unfold Active. rewrite (usable_not_exhausted _ _ Hc Hu).
  destruct Hu as (Hrev & Hexp & _). unfold Revoked, Expired. simpl. rewrite Hrev. simpl.
  apply negb_true_iff. unfold scan_time. destruct (0 <? row_expires_at r) eqn:H0; [|done].
  apply andb_false_iff. right. unfold After. apply Z.ltb_ge.
  pose proof (time_Unix_Unix_le when_). unfold time_Unix, second, millisecond in *. nia.
Qed.

(** The SQL guard of [RecordUse] implies the Go check [Active]: an
    invitation whose use was recorded was neither revoked nor exhausted nor
    expired, as the struct a reader gets from its row reports. *)
Theorem recorded_use_was_active c c' id u when_ :
  (forall row, session_invitations (tables c) !! id = Some row -> row_clean row) ->
  RecordUse id u when_ c = (c', Ok tt) ->
  exists row, session_invitations (tables c) !! id = Some row /\
    Active (scanInvitation row).1 when_ = true.
Proof.
  intros Hc Hr. pose proof (record_use_hoare (tables c) id u when_ c eq_refl) as H. rewrite Hr in H.
  destruct H as [(row & Hrow & Hus & _) _]. exists row. auto using usable_active.
Qed.

(** ** Histories of the store *)
Inductive inv_op :=
| OpCreate (inv : Invitation) (tokenHash : string)
| OpUse (id userID : string) (when_ : time)
| OpRevoke (id : string) (when_ : time)
| OpRotate (id tokenHash : string).
Definition inv_exec (op : inv_op) : SharingDB unit :=
  match op with
  | OpCreate inv h => Create inv h
  | OpUse id u w => RecordUse id u w
  | OpRevoke id w => MarkRevoked id w
  | OpRotate id h => UpdateTokenHash id h
  end.
(** [op] consumed invitation [id]. *)
Definition consumed_by (id : string) (op : inv_op) (r : result sharing_err unit) : bool :=
  match op with OpUse id' _ _ => bool_decide (id' = id) && is_ok r | _ => false end.
(** How many uses of [id] the callers were granted. *)
Fixpoint granted_uses (id : string) (ops : list inv_op) (c : conn sharing_tables) : Z :=
  match ops with
  | [] => 0
  | op :: ops =>
      let (c', r) := inv_exec op c in
      (if consumed_by id op r then 1 else 0) + granted_uses id ops c'
  end.

(** The number of joins the owner allowed; [None] is no limit. *)
Definition cap_of (inv : Invitation) : option Z :=
  match nullableUser (inv_InviteeUserID inv) with Some _ => Some 1 | None => inv_MaxUses inv end.

Definition row_capped (n : Z) (r : inv_row) : Prop :=
  row_use_count r <= n /\
  (coalesce_empty (row_invitee_user_id r) <> ""%string ->
   row_used_at r = None \/ row_used_at r = Some 0 -> row_use_count r < n) /\
  (coalesce_empty (row_invitee_user_id r) = ""%string -> row_max_uses r = Some n).
Definition capped (id : string) (n k : Z) (t : sharing_tables) : Prop :=
  exists r, session_invitations t !! id = Some r /\ row_capped n r /\ k <= row_use_count r.

Lemma nullableUser_nonempty s v : nullableUser s = Some v -> v <> ""%string.
Proof. unfold nullableUser. case_decide; congruence. Qed.

Lemma use_row_capped n r u w : w <> 0 -> usable r w -> row_capped n r -> row_capped n (use_row r u w).
Proof.
  intros Hw (_ & _ & Hu) (Hle & Hlt & Hmax). unfold row_capped, use_row; simpl.
  destruct Hu as [[Hn Hused]|[Hl Hm]].
  - specialize (Hlt Hn Hused). split; [lia|]. rewrite decide_True by done.
    split; [naive_solver|]. destruct (row_invitee_user_id r); simpl in *; naive_solver.
  - rewrite (Hmax Hl) in Hm |- *. split; [lia|].
    rewrite decide_False by naive_solver. split; [|done].
    intros _. destruct (Z.leb_spec n (row_use_count r + 1)); [naive_solver|lia].
Qed.

Definition op_when_ok (op : inv_op) : Prop :=
  match op with OpUse _ _ w => Unix w <> 0 | _ => True end.
Lemma inv_exec_capped id n k op :
  op_when_ok op ->
  hoare (capped id n k) (inv_exec op) (fun t r =>
    capped id n (k + if consumed_by id op r then 1 else 0) t).
Proof.
  intros Hw c (r & Hr & Hc & Hk).
  assert (Hsame : capped id n (k + 0) (tables c)) by (exists r; rewrite Z.add_0_r; auto).
  destruct op as [inv h|id' u w|id' w|id' h].
  - revert c r Hr Hc Hk Hsame. intros c r Hr Hc Hk.
    assert (HP : preserves (capped id n (k + 0)) (Create inv h)).
    { unfold Create. preserve. apply preserves_exec. intros t t' [] (r' & Hr' & ? & ?) Hf.
      case_decide as Hd; simplify_eq/=. exists r'. split; [|done]. simpl.
      rewrite lookup_insert_ne; [done|]. intros <-. apply Hd. left. eauto. }
    intros Hs. apply (HP c Hs).
  - simpl. pose proof (record_use_hoare (tables c) id' u w c eq_refl) as H.
    destruct (RecordUse id' u w c) as [c' res]; simpl in *.
    assert (Hused : forall t', used_tables (tables c) t' id' u (Unix w) ->
      capped id n (k + if bool_decide (id' = id) then 1 else 0) t').
    { intros t' (r' & Hr' & Hus & Ht). unfold capped. rewrite Ht. case_bool_decide; subst.
      - rewrite lookup_insert_eq. simplify_eq. eexists. split; [done|].
        split; [by apply use_row_capped|]. simpl. lia.
      - rewrite lookup_insert_ne by done. exists r. rewrite Z.add_0_r. done. }
    assert (Hany : forall t', used_tables (tables c) t' id' u (Unix w) -> capped id n (k + 0) t').
    { intros t' Ht. destruct (Hused _ Ht) as (r' & ? & ? & ?). exists r'.
      split; [done|]. split; [done|]. destruct (bool_decide _); lia. }
    destruct res as [[]|e]; simpl in *; [rewrite andb_true_r; apply Hused, H|].
    rewrite andb_false_r. destruct e; try (destruct H as [-> _]; done).
    destruct H as [->|H]; auto.
  - assert (HP : preserves (capped id n (k + 0)) (MarkRevoked id' w)).
    { unfold MarkRevoked. preserve. apply preserves_exec. intros t t' [] (r' & Hr' & ? & ?) ?. simplify_eq/=.
      destruct (decide (id' = id)) as [->|].
      - exists (set_revoked (Unix w) r'). simpl. by rewrite lookup_alter_eq, Hr'.
      - exists r'. simpl. by rewrite lookup_alter_ne. }
    apply (HP c Hsame).
  - assert (HP : preserves (capped id n (k + 0)) (UpdateTokenHash id' h)).
    { unfold UpdateTokenHash. preserve. apply preserves_exec. intros t t' z (r' & Hr' & ? & ?) Hf.
      destruct (session_invitations t !! id') as [r0|] eqn:Hr0; [|by simplify_eq; exists r'].
      case_decide; simplify_eq/=. destruct (decide (id' = id)) as [->|].
      - eexists. simpl. rewrite lookup_insert_eq. split; [done|]. by simplify_eq.
      - exists r'. simpl. by rewrite lookup_insert_ne. }
    apply (HP c Hsame).
Qed.

Lemma granted_uses_le id n k ops c :
  Forall op_when_ok ops -> capped id n k (tables c) -> k + granted_uses id ops c <= n.
Proof.
  intros Hops. revert k c. induction Hops as [|op ops Hop _ IH]; intros k c Hc; simpl.
  - destruct Hc as (r & _ & [? _] & ?). lia.
  - pose proof (inv_exec_capped id n k op Hop c Hc) as H.
    destruct (inv_exec op c) as [c' r]. simpl in H. specialize (IH _ _ H). lia.
Qed.

(** C6. No interleaving of joins, revocations, token rotations and further
    invitations lets more users in than the owner allowed: a named invitation
    is consumed at most once and a link at most [max_uses] times, even when
    statements fail half way. *)
Theorem invitation_cap inv h n ops c :
  session_invitations (tables c) !! inv_ID inv = Some (invitation_row inv h) ->
  inv_UseCount inv = 0 -> cap_of inv = Some n -> 1 <= n -> Forall op_when_ok ops ->
  granted_uses (inv_ID inv) ops c <= n.
Proof.
  intros Hr H0 Hcap Hn Hops. apply (granted_uses_le _ n 0); [done|].
  eexists; split; [done|]. unfold row_capped, cap_of in *. simpl. rewrite H0. split; [|lia].
  destruct (nullableUser (inv_InviteeUserID inv)) as [v|] eqn:Hv; simplify_eq/=.
  - apply nullableUser_nonempty in Hv. split; [lia|]. split; [lia|done].
  - split; [lia|]. split; [lia|done].
Qed.

Definition demo_link : Invitation :=
  mkInvitation "link" "s1" KindTerminal "t1" "alice" "" "" "" ModeViewer (Some 3) 0
    (time_Unix 2000) zero_time zero_time (time_Unix 1000).
Definition demo_conn : conn sharing_tables := (Create demo_link "h1" (connect (mkSharingTables ∅ ∅))).1.
Lemma invitation_cap_witness :
  granted_uses "link"
    [OpUse "link" "bob" (time_Unix 1001); OpRotate "link" "h2"; OpUse "link" "carol" (time_Unix 1002);
     OpUse "link" "dave" (time_Unix 1003)] demo_conn <= 3.
Proof.
  apply (invitation_cap demo_link "h1" 3); [reflexivity|reflexivity|reflexivity|lia|].
  repeat constructor; vm_compute; discriminate.
Defined.
Lemma recorded_use_was_active_witness :
  exists row, session_invitations (tables demo_conn) !! "link"%string = Some row /\
    Active (scanInvitation row).1 (time_Unix 1500) = true.
Proof.
  apply (recorded_use_was_active demo_conn (RecordUse "link" "bob" (time_Unix 1500) demo_conn).1 "link" "bob").
  - intros row [= <-]. split; discriminate.
  - reflexivity.
Defined.

(** An invitation as the HTTP layer builds it: trimmed identifiers, times in
    whole seconds after 1970, not yet used or revoked. *)
Definition fresh_invitation (inv : Invitation) : Prop :=
  Forall (fun s => TrimSpace_s s = s) [inv_InviteeUserID inv; inv_InviteGroupID inv; inv_InviteTag inv] /\
  Forall (fun t => exists s, 0 < s /\ t = time_Unix s) [inv_ExpiresAt inv; inv_CreatedAt inv] /\
  inv_UsedAt inv = zero_time /\ inv_RevokedAt inv = zero_time.
Lemma scan_nullable s : TrimSpace_s s = s -> scan_null_string (nullableUser s) = s.
Proof. unfold nullableUser. intros E. rewrite E. by case_decide; simpl. Qed.
Lemma scan_time_Unix t : (exists s, 0 < s /\ t = time_Unix s) -> scan_time (Unix t) = t.
Proof.
  intros (s & Hs & ->). rewrite Unix_time_Unix. unfold scan_time.
  by destruct (Z.ltb_spec 0 s); [|lia].
Qed.
Lemma scan_invitation_row inv h :
  fresh_invitation inv -> scanInvitation (invitation_row inv h) = (inv, h).
Proof.
  intros (Ht & Htime & Hu & Hr). rewrite !Forall_cons in Ht; rewrite !Forall_cons in Htime. destruct_and!.
  unfold scanInvitation, invitation_row, nullableMaxUses. simpl.
  rewrite !scan_nullable, !scan_time_Unix by done. destruct inv. simpl in *. by subst.
Qed.

(** What [Create] stored is what [GetByID] reads back: the invitation with
    every field and its token hash. *)
Theorem create_then_get c c1 inv h :
  fresh_invitation inv -> Create inv h c = (c1, Ok tt) -> faults c1 = [] ->
  GetByID (inv_ID inv) c1 = (c1, Ok (inv, h)).
Proof.
  intros Hf Hcr Hfl. unfold Create, db_bind, db_configured in Hcr.
  destruct (configured c) eqn:Hconf; [|done]. unfold db_exec, db_call in Hcr.
  assert (configured c1 = true /\ session_invitations (tables c1) !! inv_ID inv = Some (invitation_row inv h))
    as [Hc1 Hr].
  { destruct (faults c) as [|[msg|] fs]; try done; case_decide; simplify_eq/=; by rewrite ?lookup_insert_eq. }
  unfold GetByID, db_bind, db_configured. rewrite Hc1. unfold db_query, db_exec, db_call. rewrite Hfl, Hr.
  unfold db_ret. rewrite scan_invitation_row by done. f_equal. by destruct c1.
Qed.
Lemma create_then_get_witness : GetByID "link" demo_conn = (demo_conn, Ok (demo_link, "h1"%string)).
Proof.
  apply (create_then_get (connect (mkSharingTables ∅ ∅)) demo_conn demo_link "h1"); [|reflexivity|reflexivity].
  split; [repeat constructor|]. split; [|done].
  repeat constructor; [exists 2000|exists 1000]; done.
Defined.

(** ** Tokens *)
Definition tokens_unique (t : sharing_tables) : Prop :=
  forall id1 id2 r1 r2, session_invitations t !! id1 = Some r1 -> session_invitations t !! id2 = Some r2 ->
    row_token_hash r1 = row_token_hash r2 -> id1 = id2.
Lemma row_by_token_spec t h r :
  tokens_unique t ->
  row_by_token t h = Some r <-> row_token_hash r = h /\ exists id, session_invitations t !! id = Some r.
Proof.
  intros Hu. unfold row_by_token.
  set (l := filter _ _).
  assert (Hl : forall r', r' ∈ l <-> row_token_hash r' = h /\ exists id, session_invitations t !! id = Some r').
  { intros r'. unfold l. rewrite list_elem_of_filter, list_elem_of_fmap. apply and_iff_compat_l. split.
    - intros ([k v] & -> & Hkv%elem_of_map_to_list). eauto.
    - intros [id Hid]. exists (id, r'). by rewrite elem_of_map_to_list. }
  destruct l as [|r0 l'] eqn:El; simpl.
  - split; [done|]. intros Hr%Hl. by apply not_elem_of_nil in Hr.
  - destruct (proj1 (Hl r0)) as [H0 [id0 Hid0]]; [set_solver|]. split.
    + intros [= <-]. eauto.
    + intros [Hr [id Hid]]. assert (id = id0) as -> by (eapply Hu; eauto; congruence). congruence.
Qed.
Lemma tokens_unique_insert t id r :
  tokens_unique t -> ~ token_taken t id (row_token_hash r) ->
  tokens_unique (set_invitations t (<[id := r]> (session_invitations t))).
Proof.
  intros Hu Hn id1 id2 r1 r2. simpl. rewrite !lookup_insert_Some.
  intros [[<- <-]|[? H1]] [[<- <-]|[? H2]] Hh; try done; [| |by eapply Hu].
  all: destruct Hn; unfold token_taken; naive_solver.
Qed.
Lemma tokens_unique_same t id r r' :
  session_invitations t !! id = Some r -> row_token_hash r' = row_token_hash r ->
  tokens_unique t -> tokens_unique (set_invitations t (<[id := r']> (session_invitations t))).
Proof.
  intros Hr Hh Hu. apply tokens_unique_insert; [done|]. intros (id' & r0 & Hr0 & Hne & Hh0).
  apply Hne. eapply Hu; eauto. congruence.
Qed.
Lemma inv_exec_tokens op : preserves tokens_unique (inv_exec op).
Proof.
  destruct op; simpl.
  - unfold Create. preserve. apply preserves_exec. intros t t' [] Hu Hf. case_decide; simplify_eq.
    apply tokens_unique_insert; [done|]. simpl. tauto.
  - unfold RecordUse. preserve; apply preserves_exec; intros t t' v Hu Hf.
    + destruct (session_invitations t !! id) eqn:Hr; [case_decide|]; simplify_eq; try done.
      by eapply tokens_unique_same.
    + by destruct (invitation_consumers t !! _); simplify_eq.
  - unfold MarkRevoked. preserve. apply preserves_exec. intros t t' [] Hu ?. simplify_eq.
    unfold set_invitations. destruct (session_invitations t !! id) as [r|] eqn:Hr.
    + rewrite (alter_lookup_Some _ _ _ _ Hr). by eapply tokens_unique_same.
    + rewrite alter_lookup_None by done. by destruct t.
  - unfold UpdateTokenHash. preserve. apply preserves_exec. intros t t' z Hu Hf.
    destruct (session_invitations t !! id) eqn:Hr; simplify_eq; [|done]. case_decide; simplify_eq.
    by apply tokens_unique_insert.
Qed.

Lemma get_by_token_run c h :
  configured c = true -> faults c = [] ->
  GetByTokenHash h c =
  (c, match row_by_token (tables c) h with
      | Some r => Ok (scanInvitation r).1 | None => Err ErrInvitationNotFound end).
Proof.
  intros Hc Hf. unfold GetByTokenHash, db_bind, db_configured. rewrite Hc.
  unfold db_query, db_exec, db_call, set_tables. rewrite Hf. simpl.
  destruct c as [cf tb fl]; simpl in *; subst. by destruct (row_by_token tb h).
Qed.

(** Rotating the token of an invitation takes effect at once: the new
    token finds that invitation, and the one it replaced finds nothing. *)
Theorem rotate_token c c' id h r :
  tokens_unique (tables c) -> session_invitations (tables c) !! id = Some r ->
  UpdateTokenHash id h c = (c', Ok tt) -> faults c' = [] ->
  GetByTokenHash (TrimSpace_s h) c' = (c', Ok (scanInvitation r).1) /\
  (row_token_hash r <> TrimSpace_s h ->
   GetByTokenHash (row_token_hash r) c' = (c', Err ErrInvitationNotFound)).
Proof.
  intros Hu Hr Hup Hf.
  assert (Hu' : tokens_unique (tables c')).
  { pose proof (inv_exec_tokens (OpRotate id h) c Hu) as X. simpl in X. by rewrite Hup in X. }
  unfold UpdateTokenHash, db_bind, db_configured in Hup.
  destruct (configured c) eqn:Hconf; [|done]. case_decide; [done|].
  unfold db_exec, db_call, db_ret in Hup.
  assert (configured c' = true /\ session_invitations (tables c') =
    <[id := set_token_hash (TrimSpace_s h) r]> (session_invitations (tables c))) as [Hc' Ht].
  { destruct (faults c) as [|[msg|] fs]; try done; simpl in Hup; rewrite Hr in Hup; case_decide; by simplify_eq/=. }
  rewrite !get_by_token_run by done. split.
  - pose proof (proj2 (row_by_token_spec (tables c') (TrimSpace_s h) (set_token_hash (TrimSpace_s h) r) Hu')) as X.
    rewrite X; [done|]. split; [done|]. exists id. by rewrite Ht, lookup_insert_eq.
  - intros Hne. destruct (row_by_token (tables c') (row_token_hash r)) as [r'|] eqn:E; [|done].
    apply row_by_token_spec in E as [Hh [id' Hid']]; [|done]. exfalso.
    rewrite Ht, lookup_insert_Some in Hid'. destruct Hid' as [[<- <-]|[Hn Hid']]; [done|].
    apply Hn. by eapply Hu; eauto.
Qed.
Lemma rotate_token_witness :
  GetByTokenHash "h1" (UpdateTokenHash "link" "h2" demo_conn).1 =
  ((UpdateTokenHash "link" "h2" demo_conn).1, Err ErrInvitationNotFound).
Proof.
  apply (rotate_token demo_conn _ "link" "h2" (invitation_row demo_link "h1")).
  - intros id1 id2 r1 r2. change (session_invitations (tables demo_conn)) with
      ({["link"%string := invitation_row demo_link "h1"]} : gmap string inv_row).
    rewrite !lookup_singleton_Some. naive_solver.
  - reflexivity.
  - reflexivity.
  - reflexivity.
  - discriminate.
Defined.

(** The join prompts of a user are exactly the named invitations addressed
    to that user that are unused, unrevoked and unexpired at [now], newest
    first, each of them active. *)
Theorem list_pending_spec `{MapRange} c u now :
  healthy c -> TrimSpace_s u = u -> u <> ""%string ->
  (forall id r, session_invitations (tables c) !! id = Some r -> row_clean r) ->
  exists rows, ListPendingForInvitee u now c = (c, Ok ((fun r => (scanInvitation r).1) <$> rows)) /\
    (forall r, r ∈ rows <-> (exists id, session_invitations (tables c) !! id = Some r) /\
       row_invitee_user_id r = Some u /\ row_used_at r = None /\ row_revoked_at r = None /\
       row_expires_at r > Unix now) /\
    StronglySorted (fun a b => row_created_at b <= row_created_at a) rows /\
    Forall (fun r => Active (scanInvitation r).1 now = true) rows.
Proof.
  intros [Hc Hf] Hu Hne Hclean. unfold ListPendingForInvitee, db_bind, db_configured. rewrite Hc, Hu.
  rewrite decide_False by done. unfold db_query, db_exec, db_call. rewrite Hf. unfold db_ret, set_tables.
  eexists. split; [by destruct c|].
  assert (Hel : forall r, r ∈ filter (fun r => row_invitee_user_id r = Some u /\ row_used_at r = None /\
      row_revoked_at r = None /\ row_expires_at r > Unix now)
      (order_by newest_first (session_invitations (tables c))) <->
    (exists id, session_invitations (tables c) !! id = Some r) /\ row_invitee_user_id r = Some u /\
      row_used_at r = None /\ row_revoked_at r = None /\ row_expires_at r > Unix now).
  { intros r. rewrite list_elem_of_filter, elem_of_order_by. tauto. }
  split; [done|]. split.
  - apply StronglySorted_filter. apply (StronglySorted_weaken (not_after newest_first)); [|apply order_by_sorted].
    + intros a b. unfold not_after, newest_first. rewrite Z.ltb_ge. done.
    + intros a b. unfold newest_first. rewrite Z.ltb_lt, Z.ltb_ge. lia.
    + intros a b x. unfold not_after, newest_first. rewrite !Z.ltb_ge. lia.
  - apply Forall_forall. intros r Hr. apply Hel in Hr as ([id Hid] & Hi & Hus & Hrev & Hexp).
    apply usable_active; [by eapply Hclean|]. split; [done|]. split; [done|]. left. rewrite Hi. auto.
Qed.
Definition demo_named : Invitation :=
  mkInvitation "named" "s1" KindTerminal "t1" "alice" "bob" "" "" ModeViewer None 0
    (time_Unix 2000) zero_time zero_time (time_Unix 1100).
Definition demo_pending : conn sharing_tables := (Create demo_named "h9" demo_conn).1.
Lemma list_pending_spec_witness :
  exists rows, ListPendingForInvitee "bob" (time_Unix 1500) demo_pending =
    (demo_pending, Ok ((fun r => (scanInvitation r).1) <$> rows)) /\
    Forall (fun r => Active (scanInvitation r).1 (time_Unix 1500) = true) rows.
Proof.
  destruct (list_pending_spec demo_pending "bob" (time_Unix 1500)) as (rows & H1 & _ & _ & H2).
  - by split.
  - reflexivity.
  - discriminate.
  - intros id r. change (session_invitations (tables demo_pending)) with
      (<["named"%string := invitation_row demo_named "h9"]> ({["link"%string := invitation_row demo_link "h1"]} : gmap string inv_row)).
    rewrite lookup_insert_Some, lookup_singleton_Some.
    intros [[_ <-]|(_ & _ & <-)]; (split; [|discriminate]); intros v [= <-]; split; [discriminate|reflexivity].
  - exists rows. split; [exact H1|exact H2].
Defined.
