(* ===== verification/SharingService.v ===== *)
(** Joining and leaving shared sessions: the service used by the CLI gateway
    and by the VNC/RDP handlers (src/internal/sharing/service.go), and the
    terminal join handler, which has its own copy of the sequence
    (src/internal/httpapi/sharing.go, sharing_join_common.go).

    The invitation store is an interface, as in the code; its SQLite
    implementation (Invitations.v) is an instance. *)
From S2P Require Import Prelude GoText Sqlite SharingRoom Invitations.
Local Open Scope Z_scope.

(** ** The Store interface and what it promises *)
Definition is_database (e : sharing_err) : bool :=
  match e with ErrDatabase _ => true | _ => false end.

Class InvitationStore (S : Type) := {
  (* the invitations a reader of the store sees *)
  store_view : S -> gmap string Invitation;
  store_GetByID : string -> S -> S * result sharing_err (Invitation * string);
  store_GetByTokenHash : string -> S -> S * result sharing_err Invitation;
  store_RecordUse : string -> string -> time -> S -> S * result sharing_err unit;
  get_by_id_view : forall id s, store_view (store_GetByID id s).1 = store_view s;
  get_by_token_view : forall h s, store_view (store_GetByTokenHash h s).1 = store_view s;
  (* a use is one more use of an invitation that exists and is not revoked *)
  record_use_ok : forall id u w s s', store_RecordUse id u w s = (s', Ok tt) ->
    exists inv inv', store_view s !! id = Some inv /\ Revoked inv = false /\
      inv_UseCount inv' = inv_UseCount inv + 1 /\ inv_MaxUses inv' = inv_MaxUses inv /\
      store_view s' = <[id := inv']> (store_view s);
  (* a refusal changes nothing; only a database failure may leave a use behind *)
  record_use_refused : forall id u w s s' e, store_RecordUse id u w s = (s', Err e) ->
    is_database e = false -> store_view s' = store_view s
}.

Definition sqlite_view (c : conn sharing_tables) : gmap string Invitation :=
  (fun r => (scanInvitation r).1) <$> session_invitations (tables c).
Lemma query_view {A} (f : sharing_tables -> A) c :
  sqlite_view (db_query (E:=sharing_err) f c).1 = sqlite_view c.
Proof.
  unfold sqlite_view, db_query, db_exec, db_call. by destruct (faults c) as [|[]].
Qed.
#[export] Program Instance sqlite_store : InvitationStore (conn sharing_tables) := {|
  store_view := sqlite_view;
  store_GetByID := GetByID;
  store_GetByTokenHash := GetByTokenHash;
  store_RecordUse := RecordUse
|}.
Next Obligation.
  intros id c. unfold GetByID, db_bind, db_configured. destruct (configured c); [|done].
  pose proof (query_view (fun t => session_invitations t !! id) c) as Hq.
  by destruct (db_query _ c) as [c' [[]|]].
Qed.
Next Obligation.
  intros h c. unfold GetByTokenHash, db_bind, db_configured. destruct (configured c); [|done].
  pose proof (query_view (fun t => row_by_token t h) c) as Hq.
  by destruct (db_query _ c) as [c' [[]|]].
Qed.
Next Obligation.
  intros id u w c c' Hr. pose proof (record_use_hoare (tables c) id u w c eq_refl) as H.
  rewrite Hr in H. cbn [fst snd] in H. destruct H as [(r & Hl & (Hrev & _) & Ht) _]. unfold sqlite_view.
  exists (scanInvitation r).1, (scanInvitation (use_row r u (Unix w))).1.
  rewrite lookup_fmap, Hl, Ht, fmap_insert. unfold Revoked; simpl. by rewrite Hrev.
Qed.
Next Obligation.
  intros id u w c c' e Hr He. pose proof (record_use_hoare (tables c) id u w c eq_refl) as H.
  rewrite Hr in H. unfold sqlite_view. destruct e; simpl in *; try done; by destruct H as [-> _].
Qed.

(** ** The service *)
Inductive bridge_call :=
| CallSetWriter (sessionID userID : string)
| CallDetachUser (sessionID userID : string).

(** [Access] is the target ACL (nil in tests only); [Bridges] tells which
    sessions have a live bridge. *)
Record Service := mkService {
  svc_configured : bool; (* s != nil && s.Store != nil && s.Registry != nil *)
  svc_Bridges : option (string -> bool);
  svc_Access : option (string -> string -> result sharing_err bool)
}.
Record World (S : Type) := mkWorld {
  w_store : S;
  w_registry : Registry;
  w_bridge_calls : list bridge_call (* in the order they were made *)
}.
Arguments mkWorld {S}. Arguments w_store {S}. Arguments w_registry {S}. Arguments w_bridge_calls {S}.

(** The room of a session, if there is one. *)
Definition room_of (reg : Registry) (sid : string) : option Room :=
  ref ← reg_Get reg sid; reg_heap reg !! ref.
Definition kicked_from (reg : Registry) (sid u : string) : bool :=
  match room_of reg sid with Some room => IsKicked room u | None => false end.

Section service.
Context {S : Type} `{InvitationStore S} `{UnicodeTables}.
Implicit Types (svc : Service) (w : World S).

(** The two ACL checks of a join. *)
Definition check_access svc (inv : Invitation) (userID : string) : result sharing_err unit :=
  match svc_Access svc with
  | None => Ok tt
  | Some access =>
      let? ok := access (inv_OwnerUserID inv) (inv_TargetID inv) in
      guard ok else ErrInviterNoTargetAccess in
      let? ok := access userID (inv_TargetID inv) in
      guard ok else ErrJoinerNoTargetAccess in
      Ok tt
  end.

(** Everything [JoinRoom] checks before it consumes the invitation. *)
Definition check_join svc (reg : Registry) (inv : Invitation) (userID : string) (now : time)
    : result sharing_err unit :=
  guard svc_configured svc else ErrRoomNotFound in
  guard Active inv now else ErrInvitationConsumed in
  guard IsLink inv || EqualFold_s (inv_InviteeUserID inv) userID else ErrInvitationNotFound in
  guard bool_decide (userID <> inv_OwnerUserID inv) else ErrInvitationNotFound in
  guard negb (kicked_from reg (inv_SessionID inv) userID) else ErrUserKicked in
  check_access svc inv userID.

(** [EnsureRoom], the kicked check on the room it returns, and [AddViewer]. *)
Definition enter_room (reg : Registry) (sid tid owner ownerName userID username invID : string)
    (now : time) : Registry * result sharing_err nat :=
  let (reg, ref) := EnsureRoom reg sid tid owner ownerName now in
  match reg_heap reg !! ref with
  | None => (reg, Err ErrRoomNotFound)
  | Some room =>
      if IsKicked room userID then (reg, Err ErrUserKicked)
      else
        match with_room reg ref (Err ErrRoomNotFound) (fun room => AddViewer room userID username invID now) with
        | (reg, Ok _) => (reg, Ok ref)
        | (reg, Err e) => (reg, Err e)
        end
  end.

Definition JoinRoom svc (inv : Invitation) (userID username : string) (now : time) w
    : World S * result sharing_err nat :=
  match check_join svc (w_registry w) inv userID now with
  | Err e => (w, Err e)
  | Ok _ =>
      match store_RecordUse (inv_ID inv) userID now (w_store w) with
      | (s, Err e) => (mkWorld s (w_registry w) (w_bridge_calls w), Err e)
      | (s, Ok _) =>
          let (reg, r) := enter_room (w_registry w) (inv_SessionID inv) (inv_TargetID inv)
            (inv_OwnerUserID inv) (inv_OwnerUserID inv) userID username (inv_ID inv) now in
          (mkWorld s reg (w_bridge_calls w), r)
      end
  end.

(** [room] is the pointer [ref]; [None] is a nil room. *)
Definition KickParticipant svc (room : option nat) (sessionID userID : string) (now : time) w
    : World S * result sharing_err unit :=
  match room with
  | None => (w, Err ErrRoomNotFound)
  | Some ref =>
      match with_room (w_registry w) ref (Err ErrRoomNotFound) (fun r => RemoveParticipant r userID now) with
      | (reg, Err e) => (mkWorld (w_store w) reg (w_bridge_calls w), Err e)
      | (reg, Ok _) =>
          let calls :=
            match svc_Bridges svc with
            | Some live =>
                if live sessionID then
                  [CallDetachUser sessionID userID;
                   CallSetWriter sessionID
                     (match reg_heap reg !! ref with Some r => writerID r | None => ""%string end)]
                else []
            | None => []
            end in
          (mkWorld (w_store w) reg (w_bridge_calls w ++ calls), Ok tt)
      end
  end.

Definition DisconnectInvitationConsumers `{MapRange} svc (room : option nat)
    (sessionID invitationID : string) (now : time) w : World S * list string :=
  match room with
  | None => (w, [])
  | Some ref =>
      if decide (invitationID = ""%string) then (w, [])
      else
        let userIDs :=
          match reg_heap (w_registry w) !! ref with
          | Some r => ParticipantUserIDsForInvitation r invitationID
          | None => []
          end in
        (foldl (fun w uid => (KickParticipant svc (Some ref) sessionID uid now w).1) w userIDs, userIDs)
  end.

(** ** The terminal join handler *)
Inductive reply :=
| ReplyErr (key : string) (status : Z)
| ReplyInternal
| ReplyJoined.

(** The request and the parts of [App] the handler reads. [HashToken] is
    SHA-256 in hexadecimal. *)
Record join_env := mkJoinEnv {
  env_store : bool;              (* a.SharingStore != nil *)
  env_user : string;             (* the authenticated user, trimmed *)
  env_session : option string;   (* the target of the live terminal session *)
  env_session_owner : string;
  env_recording_required : bool; (* sharingRecordingRequired *)
  env_registry : bool;           (* a.SharingRegistry != nil *)
  env_can_access : string -> string -> result sharing_err bool; (* userCanAccessTarget *)
  env_username : string -> string;
  env_HashToken : string -> string
}.
Record join_body := mkJoinBody { body_InvitationID : string; body_InvitationToken : string }.
(** [decodeJoinInvitationBody]: the JSON object, already parsed, or an error. *)
Definition decodeJoinInvitationBody (raw : option join_body) : option join_body :=
  (fun b => mkJoinBody (TrimSpace_s (body_InvitationID b)) (TrimSpace_s (body_InvitationToken b))) <$> raw.

(** [None]: [errSharingLinkTokenRequired] (the case of a body with neither
    field is caught before). *)
Definition lookupJoinInvitation (env : join_env) (body : join_body) (s : S)
    : S * result (option sharing_err) Invitation :=
  if decide (body_InvitationToken body <> ""%string) then
    match store_GetByTokenHash (env_HashToken env (body_InvitationToken body)) s with
    | (s, Ok inv) => (s, Ok inv)
    | (s, Err e) => (s, Err (Some e))
    end
  else
    match store_GetByID (body_InvitationID body) s with
    | (s, Ok (inv, _)) => if IsLink inv then (s, Err None) else (s, Ok inv)
    | (s, Err e) => (s, Err (Some e))
    end.

Definition validateJoinInvitation (env : join_env) (inv : Invitation) (userID sessionID kind : string)
    (now : time) : result reply unit :=
  guard bool_decide (inv_SessionID inv = sessionID) else ReplyErr "sharing.invitationNotFound" 404 in
  guard bool_decide (kind = ""%string \/ inv_SessionKind inv = kind)
    else ReplyErr "sharing.invitationNotFound" 404 in
  guard Active inv now else ReplyErr "sharing.invitationInactive" 403 in
  guard IsLink inv || EqualFold_s (inv_InviteeUserID inv) userID
    else ReplyErr "sharing.invitationOtherUser" 403 in
  guard bool_decide (userID <> inv_OwnerUserID inv) else ReplyErr "sharing.cannotInviteSelf" 400 in
  match env_can_access env (inv_OwnerUserID inv) (inv_TargetID inv) with
  | Err _ => Err ReplyInternal
  | Ok false => Err (ReplyErr "sharing.invitationStaleAccess" 403)
  | Ok true =>
      match env_can_access env userID (inv_TargetID inv) with
      | Err _ => Err ReplyInternal
      | Ok false => Err (ReplyErr "sharing.inviteeNoTargetAccess" 403)
      | Ok true => Ok tt
      end
  end.

(** The steps of [handleJoinSession] up to the validated invitation. *)
Definition join_prelude (env : join_env) (sessionID : string) (raw : option join_body) (now : time) (s : S)
    : S * result reply (string * Invitation) :=
  if negb (env_store env) then (s, Err (ReplyErr "sharing.unavailable" 503))
  else if decide (env_user env = ""%string) then (s, Err (ReplyErr "common.unauthorized" 401))
  else if decide (sessionID = ""%string) then (s, Err (ReplyErr "sessions.idRequired" 400))
  else match env_session env with
  | None => (s, Err (ReplyErr "sessions.notFoundOrAccessDenied" 404))
  | Some target =>
      if env_recording_required env then (s, Err (ReplyErr "sharing.recordingRequiredWithViewers" 403))
      else match decodeJoinInvitationBody raw with
      | None => (s, Err (ReplyErr "common.invalidRequestBody" 400))
      | Some body =>
          if decide (body_InvitationID body = ""%string /\ body_InvitationToken body = ""%string)
          then (s, Err (ReplyErr "sharing.tokenOrIDRequired" 400))
          else match lookupJoinInvitation env body s with
          | (s, Err None) => (s, Err (ReplyErr "sharing.linkTokenRequired" 400))
          | (s, Err (Some e)) =>
              (s, Err (if decide (e = ErrInvitationNotFound)
                       then ReplyErr "sharing.invitationNotFound" 404 else ReplyInternal))
          | (s, Ok inv) =>
              match validateJoinInvitation env inv (env_user env) sessionID KindTerminal now with
              | Err r => (s, Err r)
              | Ok _ => (s, Ok (target, inv))
              end
          end
      end
  end.

(** The room of the session, entered as a viewer; without a registry the join
    is recorded and no room is entered. *)
Definition handler_enter (env : join_env) (sessionID target : string) (inv : Invitation) (now : time)
    (reg : Registry) : Registry * reply :=
  if env_registry env then
    let owner := env_session_owner env in
    match enter_room reg sessionID target owner (env_username env owner) (env_user env)
            (env_username env (env_user env)) (inv_ID inv) now with
    | (reg, Ok _) => (reg, ReplyJoined)
    | (reg, Err ErrUserKicked) => (reg, ReplyErr "sharing.userKicked" 403)
    | (reg, Err _) => (reg, ReplyInternal)
    end
  else (reg, ReplyJoined).

(** [now1] is the clock of the validation, [now] that of the join. *)
Definition handleJoinSession (env : join_env) (sessionID : string) (raw : option join_body)
    (now1 now : time) w : World S * reply :=
  let (s, p) := join_prelude env sessionID raw now1 (w_store w) in
  match p with
  | Err r => (mkWorld s (w_registry w) (w_bridge_calls w), r)
  | Ok (target, inv) =>
      match store_RecordUse (inv_ID inv) (env_user env) now s with
      | (s, Err e) =>
          (mkWorld s (w_registry w) (w_bridge_calls w),
           if decide (e = ErrInvitationConsumed) then ReplyErr "sharing.invitationInactive" 403
           else ReplyInternal)
      | (s, Ok _) =>
          let (s, _) := store_GetByID (inv_ID inv) s in
          let (reg, r) := handler_enter env sessionID target inv now (w_registry w) in
          (mkWorld s reg (w_bridge_calls w), r)
      end
  end.
End service.

(** ** Registry lemmas *)
(** Every pointer of the map is allocated, and the next one is not. *)
Record registry_wf (reg : Registry) : Prop := {
  reg_valid : forall sid ref, reg_rooms reg !! sid = Some ref -> is_Some (reg_heap reg !! ref);
  reg_fresh : forall ref, (reg_next reg <= ref)%nat -> reg_heap reg !! ref = None
}.
Lemma EnsureRoom_room reg sid tid o on now reg' ref :
  registry_wf reg -> EnsureRoom reg sid tid o on now = (reg', ref) ->
  registry_wf reg' /\ reg_Get reg' sid = Some ref /\
  (forall s, s <> sid -> room_of reg' s = room_of reg s) /\
  reg_heap reg' !! ref = Some (default (new_room sid tid o on now) (room_of reg sid)).
Proof.
  intros [Hv Hf]. unfold EnsureRoom, room_of, reg_Get.
  destruct (reg_rooms reg !! sid) as [ref0|] eqn:Hs; intros [= <- <-].
  - split; [done|]. split; [done|]. split; [done|]. simpl.
    destruct (Hv _ _ Hs) as [r Hr]. by rewrite Hr.
  - assert (Hne : forall s ref1, reg_rooms reg !! s = Some ref1 -> ref1 <> reg_next reg).
    { intros s ref1 H1 ->. destruct (Hv _ _ H1). by rewrite Hf in * by lia. }
    split; [split; simpl|].
    + intros s ref1. rewrite lookup_insert_Some. intros [[<- <-]|[_ H1]].
      * rewrite lookup_insert_eq. eauto.
      * rewrite lookup_insert_ne by (symmetry; eauto). eauto.
    + intros ref1 Hle. rewrite lookup_insert_ne by lia. apply Hf. lia.
    + simpl. split; [by rewrite lookup_insert_eq|]. split; [|by rewrite lookup_insert_eq].
      intros s Hsne. rewrite lookup_insert_ne by done.
      destruct (reg_rooms reg !! s) as [ref1|] eqn:H1; simpl; [|done].
      by rewrite lookup_insert_ne by (symmetry; eauto).
Qed.

Lemma AddViewer_member r u n i now r' :
  AddViewer r u n i now = (r', Ok tt) -> IsParticipant r' u = true.
Proof.
  unfold AddViewer. repeat case_match; intros; simplify_eq; unfold IsParticipant; simpl; by rewrite lookup_insert_eq.
Qed.
(** Entering a room succeeds for everyone who is not barred from it. *)
Lemma enter_room_spec reg sid tid o on u n i now :
  registry_wf reg ->
  let (reg', r) := enter_room reg sid tid o on u n i now in
  if kicked_from reg sid u then r = Err ErrUserKicked /\ reg' = reg
  else exists ref room, r = Ok ref /\ reg_Get reg' sid = Some ref /\ room_of reg' sid = Some room /\
         IsParticipant room u = true.
Proof.
  intros Hwf. unfold enter_room.
  destruct (EnsureRoom reg sid tid o on now) as [reg1 ref] eqn:He.
  destruct (EnsureRoom_room _ _ _ _ _ _ _ _ Hwf He) as (Hwf1 & Hg & _ & Hh). rewrite Hh.
  unfold kicked_from. destruct (room_of reg sid) as [room|] eqn:Hr; simpl.
  - destruct (IsKicked room u) eqn:Hk.
    + split; [done|]. unfold EnsureRoom in He. unfold room_of, reg_Get in Hr.
      destruct (reg_rooms reg !! sid); [|done]. by simplify_eq.
    + unfold with_room. rewrite Hh. simpl.
      destruct (AddViewer room u n i now) as [room' r] eqn:Ha. destruct r as [[]|e].
      * exists ref, room'. split; [done|]. split; [done|].
        split; [|by eapply AddViewer_member]. unfold room_of, reg_Get in *. simpl. rewrite Hg. simpl.
        by rewrite lookup_insert_eq.
      * unfold AddViewer in Ha. unfold IsKicked in Hk. rewrite bool_decide_eq_false in Hk.
        rewrite decide_False in Ha by done. by case_match.
  - unfold with_room. rewrite Hh. simpl.
    destruct (AddViewer (new_room sid tid o on now) u n i now) as [room' r] eqn:Ha. destruct r as [[]|e].
    + exists ref, room'. split; [done|]. split; [done|].
      split; [|by eapply AddViewer_member]. unfold room_of, reg_Get in *. simpl. rewrite Hg. simpl.
      by rewrite lookup_insert_eq.
    + unfold AddViewer in Ha. rewrite decide_False in Ha by set_solver. by case_match.
Qed.

Section properties.
Context {S : Type} `{InvitationStore S} `{UnicodeTables}.
Implicit Types (w : World S).

Lemma check_join_kicked svc reg inv u now :
  check_join svc reg inv u now = Ok tt -> kicked_from reg (inv_SessionID inv) u = false.
Proof. unfold check_join. intros Hc. inv_ok Hc. by apply negb_true_iff. Qed.

(** A join that is refused costs nothing: unless the database failed, an
    error from [JoinRoom] leaves every invitation, the rooms and the bridges
    as they were - in particular a kicked user does not consume the
    invitation (E-16). *)
Theorem join_refused_costs_nothing svc inv u name now w w' e :
  registry_wf (w_registry w) -> JoinRoom svc inv u name now w = (w', Err e) ->
  is_database e = false ->
  store_view (w_store w') = store_view (w_store w) /\ w_registry w' = w_registry w /\
  w_bridge_calls w' = w_bridge_calls w.
Proof.
  intros Hwf Hj He. unfold JoinRoom in Hj.
  destruct (check_join svc (w_registry w) inv u now) as [[]|e1] eqn:Hc; [|by simplify_eq].
  apply check_join_kicked in Hc.
  destruct (store_RecordUse _ _ _ _) as [s [[]|e2]] eqn:Hu.
  - pose proof (enter_room_spec (w_registry w) (inv_SessionID inv) (inv_TargetID inv) (inv_OwnerUserID inv)
      (inv_OwnerUserID inv) u name (inv_ID inv) now Hwf) as Hen.
    destruct (enter_room _ _ _ _ _ _ _ _ _) as [reg r]. rewrite Hc in Hen.
    destruct Hen as (ref & room & -> & _). simplify_eq.
  - simplify_eq/=. split; [|done]. by eapply record_use_refused.
Qed.

(** A join succeeds only for somebody entitled to it: the invitation was
    active and addressed to this user (or a link), the user is not its owner
    and not barred, owner and user may both reach the target, exactly one use
    was recorded, and the user is now a participant of the session's room. *)
Theorem join_success svc inv u name now w w' ref :
  registry_wf (w_registry w) -> JoinRoom svc inv u name now w = (w', Ok ref) ->
  Active inv now = true /\ (IsLink inv = true \/ EqualFold_s (inv_InviteeUserID inv) u = true) /\
  u <> inv_OwnerUserID inv /\ kicked_from (w_registry w) (inv_SessionID inv) u = false /\
  (forall access, svc_Access svc = Some access ->
     access (inv_OwnerUserID inv) (inv_TargetID inv) = Ok true /\ access u (inv_TargetID inv) = Ok true) /\
  (exists old new, store_view (w_store w) !! inv_ID inv = Some old /\ Revoked old = false /\
     inv_UseCount new = inv_UseCount old + 1 /\
     store_view (w_store w') = <[inv_ID inv := new]> (store_view (w_store w))) /\
  exists room, room_of (w_registry w') (inv_SessionID inv) = Some room /\ IsParticipant room u = true.
Proof.
  intros Hwf Hj. unfold JoinRoom in Hj.
  destruct (check_join svc (w_registry w) inv u now) as [[]|e1] eqn:Hc; [|by simplify_eq].
  pose proof (check_join_kicked _ _ _ _ _ Hc) as Hk. unfold check_join in Hc. inv_ok Hc.
  destruct (store_RecordUse _ _ _ _) as [s [[]|e2]] eqn:Hu; [|by simplify_eq].
  apply record_use_ok in Hu as (old & new & ? & ? & ? & _ & ?).
  pose proof (enter_room_spec (w_registry w) (inv_SessionID inv) (inv_TargetID inv) (inv_OwnerUserID inv)
    (inv_OwnerUserID inv) u name (inv_ID inv) now Hwf) as Hen.
  destruct (enter_room _ _ _ _ _ _ _ _ _) as [reg r]. rewrite Hk in Hen.
  destruct Hen as (ref' & room & -> & _ & Hroom & Hp). simplify_eq/=.
  split; [done|]. split; [by apply orb_true_iff|]. split; [by eapply bool_decide_eq_true_1|].
  split; [done|]. split.
  - intros access Ha. unfold check_access in Hc. rewrite Ha in Hc. by inv_ok Hc.
  - eauto 10.
Qed.

(** Kicking a participant empties the seat at once: the user is no longer
    in the room and is barred from it, the live bridge is told to drop the
    user's connection and then given the room's current writer, which is not
    the kicked user. *)
Theorem kick_detaches svc ref room sid u now w w' live :
  reg_heap (w_registry w) !! ref = Some room -> room_wf room -> svc_Bridges svc = Some live ->
  KickParticipant svc (Some ref) sid u now w = (w', Ok tt) ->
  exists room', reg_heap (w_registry w') !! ref = Some room' /\ room_wf room' /\
    IsParticipant room' u = false /\ IsKicked room' u = true /\ HasWriter room' u = false /\
    w_bridge_calls w' = w_bridge_calls w ++
      (if live sid then [CallDetachUser sid u; CallSetWriter sid (writerID room')] else []).
Proof.
  intros Hh Hwf Hb Hk. unfold KickParticipant, with_room in Hk. rewrite Hh, Hb in Hk.
  pose proof (RemoveParticipant_wf room u now Hwf) as Hwf'.
  destruct (RemoveParticipant room u now) as [room' r] eqn:Hr. destruct r as [[]|e]; [|done].
  simplify_eq/=. exists room'. rewrite lookup_insert_eq.
  split; [done|]. split; [done|].
  assert (Hkk : u ∈ kicked room').
  { unfold RemoveParticipant in Hr. repeat case_match; simplify_eq/=; set_solver. }
  pose proof (wf_kicked _ Hwf' _ Hkk) as Hm.
  split; [unfold IsParticipant; by rewrite Hm|].
  split; [unfold IsKicked; by rewrite bool_decide_eq_true|]. split; [|done].
  unfold HasWriter. rewrite bool_decide_eq_false. intros Hw. destruct (wf_writer _ Hwf'). congruence.
Qed.
End properties.

Section findings.
Context {S : Type} `{InvitationStore S} `{UnicodeTables}.

(** The terminal join handler does not share the guarantee of [JoinRoom]:
    it records the use before it looks at the kick list, so a kicked user who
    presents a valid invitation is refused with 403 and still consumes it. *)
Theorem terminal_join_kicked_burns env sid raw now1 now (w : World S) s s' target inv :
  registry_wf (w_registry w) -> env_registry env = true ->
  kicked_from (w_registry w) sid (env_user env) = true ->
  join_prelude env sid raw now1 (w_store w) = (s, Ok (target, inv)) ->
  store_RecordUse (inv_ID inv) (env_user env) now s = (s', Ok tt) ->
  let (w', r) := handleJoinSession env sid raw now1 now w in
  r = ReplyErr "sharing.userKicked" 403 /\
  exists old new, store_view s !! inv_ID inv = Some old /\ inv_UseCount new = inv_UseCount old + 1 /\
    store_view (w_store w') = <[inv_ID inv := new]> (store_view s).
Proof.
  intros Hwf Hreg Hk Hp Hu. unfold handleJoinSession. rewrite Hp, Hu.
  pose proof (get_by_id_view (inv_ID inv) s') as Hv. destruct (store_GetByID (inv_ID inv) s') as [s2 r2].
  unfold handler_enter. rewrite Hreg.
  pose proof (enter_room_spec (w_registry w) sid target (env_session_owner env)
    (env_username env (env_session_owner env)) (env_user env) (env_username env (env_user env)) (inv_ID inv) now Hwf) as Hen.
  destruct (enter_room _ _ _ _ _ _ _ _ _) as [reg r]. rewrite Hk in Hen. destruct Hen as [-> ->].
  split; [done|]. apply record_use_ok in Hu as (old & new & Ho & _ & Hc & _ & Hview).
  exists old, new. split; [done|]. split; [done|]. simpl in *. congruence.
Qed.
End findings.

(** The first consumer of a link becomes its named invitee: [RecordUse]
    fills [invitee_user_id], so the invitation read back is no longer a link
    and every other user is refused, whatever [max_uses] still allows. *)
Theorem link_captured_by_first_consumer `{UnicodeTables} c c' id u when_ row row' v svc reg env sid kind now :
  session_invitations (tables c) !! id = Some row -> row_invitee_user_id row = None ->
  TrimSpace_s u = u -> u <> ""%string -> RecordUse id u when_ c = (c', Ok tt) ->
  session_invitations (tables c') !! id = Some row' -> EqualFold_s u v = false ->
  let inv := (scanInvitation row').1 in
  inv_InviteeUserID inv = u /\ IsLink inv = false /\
  is_ok (check_join svc reg inv v now) = false /\
  is_ok (validateJoinInvitation env inv v sid kind now) = false.
Proof.
  intros Hrow Hn Ht Hne Hr Hrow' Hf inv.
  pose proof (record_use_hoare (tables c) id u when_ c eq_refl) as HU. rewrite Hr in HU.
  destruct HU as [(r0 & Hr0 & _ & Ht') _]. simpl in Ht'.
  assert (row' = use_row row u (Unix when_)) as -> by (rewrite Ht', lookup_insert_eq in Hrow'; congruence).
  assert (Hinv : inv_InviteeUserID inv = u).
  { unfold inv; simpl. rewrite Hn. unfold nullableUser. rewrite Ht. by rewrite decide_False. }
  assert (Hlink : IsLink inv = false).
  { unfold IsLink. rewrite Hinv, Ht. by rewrite bool_decide_eq_false_2. }
  split; [done|]. split; [done|]. clearbody inv. split.
  - unfold check_join. rewrite Hlink, Hinv, Hf. simpl. by repeat case_match.
  - unfold validateJoinInvitation. rewrite Hlink, Hinv, Hf. simpl. by repeat case_match.
Qed.

(** ** Witnesses *)
Definition demo_registry : Registry := (EnsureRoom NewRegistry "s1" "t1" "alice" "Alice" 1).1.
Lemma NewRegistry_wf : registry_wf NewRegistry.
Proof. by split. Qed.
Lemma demo_registry_wf : registry_wf demo_registry.
Proof. by apply (EnsureRoom_room NewRegistry "s1" "t1" "alice" "Alice" 1 _ 0%nat NewRegistry_wf). Qed.
Definition demo_service : Service := mkService true (Some (fun _ => true)) (Some (fun u _ => Ok (bool_decide (u <> "eve"%string)))).
Definition demo_world : World (conn sharing_tables) := mkWorld demo_conn demo_registry [].
Definition demo_joined : World (conn sharing_tables) :=
  (JoinRoom demo_service demo_link "bob" "Bob" (time_Unix 1500) demo_world).1.
Definition demo_kicked : World (conn sharing_tables) :=
  (KickParticipant demo_service (Some 0%nat) "s1" "bob" (time_Unix 1600) demo_joined).1.

Lemma join_success_witness :
  exists room, room_of (w_registry demo_joined) "s1" = Some room /\ IsParticipant room "bob" = true.
Proof.
  destruct (join_success demo_service demo_link "bob" "Bob" (time_Unix 1500) demo_world demo_joined 0%nat
    demo_registry_wf) as (_ & _ & _ & _ & _ & _ & Hr); [vm_compute; reflexivity|]. exact Hr.
Defined.
Lemma join_refused_costs_nothing_witness :
  store_view (w_store (JoinRoom demo_service demo_link "eve" "Eve" (time_Unix 1500) demo_world).1) =
  store_view (w_store demo_world).
Proof.
  apply (join_refused_costs_nothing demo_service demo_link "eve" "Eve" (time_Unix 1500) demo_world
    _ ErrJoinerNoTargetAccess demo_registry_wf); [vm_compute; reflexivity|reflexivity].
Defined.
Lemma kick_detaches_witness :
  w_bridge_calls demo_kicked = [CallDetachUser "s1" "bob"; CallSetWriter "s1" "alice"].
Proof.
  destruct (kick_detaches demo_service 0%nat (AddViewer (new_room "s1" "t1" "alice" "Alice" 1) "bob" "Bob" "link" (time_Unix 1500)).1
    "s1" "bob" (time_Unix 1600) demo_joined demo_kicked (fun _ => true)) as (room' & Hh & _ & _ & _ & _ & Hc).
  - vm_compute; reflexivity.
  - apply AddViewer_wf, new_room_wf.
  - reflexivity.
  - vm_compute; reflexivity.
  - rewrite Hc. vm_compute in Hh. injection Hh as <-. reflexivity.
Defined.
Definition demo_env (u : string) : join_env :=
  mkJoinEnv true u (Some "t1"%string) "alice" false true (fun _ _ => Ok true) (fun u => u) (fun t => t).
Definition demo_kicked_registry : Registry :=
  (with_room demo_registry 0%nat tt (fun r =>
     ((RemoveParticipant (AddViewer r "bob" "Bob" "inv0" 2).1 "bob" 3).1, tt))).1.
Definition demo_kicked_world : World (conn sharing_tables) := mkWorld demo_conn demo_kicked_registry [].
Lemma demo_kicked_registry_wf : registry_wf demo_kicked_registry.
Proof.
  destruct demo_registry_wf as [Hv Hf]. split.
  - intros sid ref Hs. change (reg_rooms demo_registry !! sid = Some ref) in Hs.
    destruct (Hv _ _ Hs) as [r Hr]. unfold demo_kicked_registry, with_room.
    destruct (reg_heap demo_registry !! 0%nat); simpl; [|by rewrite Hr].
    destruct (decide (ref = 0%nat)) as [->|]; [by rewrite lookup_insert_eq|].
    rewrite lookup_insert_ne by done. by rewrite Hr.
  - intros ref Hle. change (reg_next demo_registry <= ref)%nat in Hle. unfold demo_kicked_registry, with_room.
    destruct (reg_heap demo_registry !! 0%nat); simpl; [|by apply Hf].
    rewrite lookup_insert_ne; [by apply Hf|]. change (1 <= ref)%nat in Hle. lia.
Qed.
Lemma terminal_join_kicked_burns_witness :
  let (w', r) := handleJoinSession (demo_env "bob") "s1" (Some (mkJoinBody "" "h1"))
    (time_Unix 1700) (time_Unix 1700) demo_kicked_world in
  r = ReplyErr "sharing.userKicked" 403 /\ (inv_UseCount <$> store_view (w_store w') !! "link"%string) = Some 1.
Proof.
  pose proof (terminal_join_kicked_burns (demo_env "bob") "s1" (Some (mkJoinBody "" "h1"))
    (time_Unix 1700) (time_Unix 1700) demo_kicked_world demo_conn
    (RecordUse "link" "bob" (time_Unix 1700) demo_conn).1 "t1" demo_link demo_kicked_registry_wf
    eq_refl ltac:(vm_compute; reflexivity) ltac:(vm_compute; reflexivity) ltac:(vm_compute; reflexivity)) as X.
  destruct (handleJoinSession _ _ _ _ _ _) as [w' r]. destruct X as [-> (old & new & Ho & Hn & Hv)].
  split; [reflexivity|]. rewrite Hv. change (inv_ID demo_link) with "link"%string.
  rewrite lookup_insert_eq. simpl. rewrite Hn. vm_compute in Ho. injection Ho as <-. reflexivity.
Defined.
Lemma link_captured_by_first_consumer_witness :
  let c' := (RecordUse "link" "bob" (time_Unix 1500) demo_conn).1 in
  is_ok (check_join demo_service demo_registry
    (scanInvitation (use_row (invitation_row demo_link "h1") "bob" 1500)).1 "carol" (time_Unix 1501)) = false.
Proof.
  apply (link_captured_by_first_consumer demo_conn (RecordUse "link" "bob" (time_Unix 1500) demo_conn).1
    "link" "bob" (time_Unix 1500) (invitation_row demo_link "h1")
    (use_row (invitation_row demo_link "h1") "bob" 1500) "carol" demo_service demo_registry
    (demo_env "carol") "s1" KindTerminal (time_Unix 1501));
  first [reflexivity | discriminate | vm_compute; reflexivity].
Defined.
