(* ===== verification/SessionManager.v ===== *)
(** The session manager: long-lived terminal and VNC sessions, each run by a
    goroutine (src/internal/session/manager.go).

    The manager's map holds session pointers, so sessions live in a heap. The
    goroutine [Start] spawns is part of the state: [Running] while the bridge
    function runs, [Returned] once it came back, [Deleted] after it removed its
    ID from the map and [Closed] after the deferred close of [done]. Each
    constructor of [m_op] is one critical section (or channel operation) of the
    code; a history is any sequence of them. *)
From S2P Require Import Prelude RingBuffer.
Local Open Scope Z_scope.

Record StartOptions := mkStartOptions {
  opt_UserID : string; opt_TargetID : string; opt_TargetName : string;
  opt_Name : string; opt_Description : string
}.

Inductive phase := Running | Returned | Deleted | Closed.
#[export] Instance phase_eq_dec : EqDecision phase. Proof. solve_decision. Defined.

Record Session := mkSession {
  s_id : string;
  s_createdAt : time;
  s_lastSeen : time;
  s_keep : bool;
  s_opts : StartOptions;
  s_cancelled : bool;  (* ctx was cancelled *)
  s_phase : phase      (* where its goroutine is; done is closed iff Closed *)
}.
Definition set_lastSeen (t : time) (s : Session) : Session :=
  mkSession (s_id s) (s_createdAt s) t (s_keep s) (s_opts s) (s_cancelled s) (s_phase s).
Definition set_keep (k : bool) (s : Session) : Session :=
  mkSession (s_id s) (s_createdAt s) (s_lastSeen s) k (s_opts s) (s_cancelled s) (s_phase s).
Definition set_cancelled (s : Session) : Session :=
  mkSession (s_id s) (s_createdAt s) (s_lastSeen s) (s_keep s) (s_opts s) true (s_phase s).
Definition set_phase (p : phase) (s : Session) : Session :=
  mkSession (s_id s) (s_createdAt s) (s_lastSeen s) (s_keep s) (s_opts s) (s_cancelled s) p.

Record Manager := mkManager {
  sessions : gmap string nat;
  m_heap : gmap nat Session;
  m_next : nat;
  idleWarnAfter : duration;
  stopTimeout : duration
}.
Definition NewManager : Manager := mkManager ∅ ∅ 0 0 (8 * second).

Definition m_update (m : Manager) (ref : nat) (f : Session -> Session) : Manager :=
  mkManager (sessions m) (alter f ref (m_heap m)) (m_next m) (idleWarnAfter m) (stopTimeout m).
Definition m_forget (m : Manager) (id : string) : Manager :=
  mkManager (delete id (sessions m)) (m_heap m) (m_next m) (idleWarnAfter m) (stopTimeout m).

(** ** Operations *)
Inductive session_err := ErrSessionExists.
Definition Start (m : Manager) (id : string) (opts : StartOptions) (now : time)
    : Manager * result session_err nat :=
  match sessions m !! id with
  | Some _ => (m, Err ErrSessionExists)
  | None =>
      let ref := m_next m in
      let sess := mkSession id now now false opts false Running in
      (mkManager (<[id := ref]> (sessions m)) (<[ref := sess]> (m_heap m)) (S ref)
         (idleWarnAfter m) (stopTimeout m), Ok ref)
  end.
(** The goroutine of [Start]: [fn(ctx, sess)] returns; the ID is deleted; the
    deferred [close(sess.done)]. *)
Definition goroutine_return (m : Manager) (ref : nat) : option Manager :=
  s ← m_heap m !! ref;
  if decide (s_phase s = Running) then Some (m_update m ref (set_phase Returned)) else None.
Definition goroutine_delete (m : Manager) (ref : nat) : option Manager :=
  s ← m_heap m !! ref;
  if decide (s_phase s = Returned) then Some (m_forget (m_update m ref (set_phase Deleted)) (s_id s)) else None.
Definition goroutine_close (m : Manager) (ref : nat) : option Manager :=
  s ← m_heap m !! ref;
  if decide (s_phase s = Deleted) then Some (m_update m ref (set_phase Closed)) else None.

Definition Get (m : Manager) (id : string) : option nat := sessions m !! id.
Definition SetIdleWarnAfter (m : Manager) (d : duration) : Manager :=
  mkManager (sessions m) (m_heap m) (m_next m) d (stopTimeout m).
Definition IdleDuration (s : option Session) (now : time) : duration :=
  match s with None => 0 | Some s => Sub now (s_lastSeen s) end.
Definition SetKeep (m : Manager) (id : string) (keep : bool) : Manager * bool :=
  match sessions m !! id with
  | None => (m, false)
  | Some ref => (m_update m ref (set_keep keep), true)
  end.
Definition IsIdle (m : Manager) (s : option Session) (now : time) : bool :=
  match s with
  | None => false
  | Some sess =>
      if s_keep sess then false
      else
        let threshold := idleWarnAfter m in
        if threshold <=? 0 then false else threshold <=? IdleDuration s now
  end.
Definition Touch (m : Manager) (id : string) (now : time) : Manager :=
  match sessions m !! id with
  | Some ref => m_update m ref (set_lastSeen now)
  | None => m
  end.

(** [Stop], in two parts: the lookup with [sess.cancel()], and the end of the
    [select], either because [done] is closed or because the timer fired.
    [stop_begin] returns the session it waits for. *)
Definition stop_begin (m : Manager) (id : string) : Manager * option nat :=
  match sessions m !! id with
  | None => (m, None) (* Stop returns true *)
  | Some ref => (m_update m ref set_cancelled, Some ref)
  end.
Definition stop_wait (m : Manager) : duration :=
  if stopTimeout m <=? 0 then 8 * second else stopTimeout m.
Definition stop_done (m : Manager) (ref : nat) : option bool :=
  s ← m_heap m !! ref;
  if decide (s_phase s = Closed) then Some true else None.
Definition stop_timeout (m : Manager) (id : string) : Manager * bool := (m_forget m id, false).

Definition ActiveIDs `{MapRange} (m : Manager) : list string := fst <$> range (sessions m).
Definition ActiveSessionsForUser `{MapRange} (m : Manager) (userID : string) : list nat :=
  filter (fun ref => (opt_UserID ∘ s_opts <$> m_heap m !! ref) = Some userID)
    (snd <$> range (sessions m)).

(** ** Histories *)
Inductive m_op :=
| MStart (id : string) (opts : StartOptions) (now : time)
| MReturn (ref : nat) | MDelete (ref : nat) | MClose (ref : nat)
| MSetIdle (d : duration) | MSetKeep (id : string) (keep : bool) | MTouch (id : string) (now : time)
| MStopBegin (id : string) | MStopTimeout (id : string).
(** An operation of a goroutine that is not at that point does not happen. *)
Definition m_exec (m : Manager) (op : m_op) : Manager :=
  match op with
  | MStart id opts now => (Start m id opts now).1
  | MReturn ref => default m (goroutine_return m ref)
  | MDelete ref => default m (goroutine_delete m ref)
  | MClose ref => default m (goroutine_close m ref)
  | MSetIdle d => SetIdleWarnAfter m d
  | MSetKeep id k => (SetKeep m id k).1
  | MTouch id now => Touch m id now
  | MStopBegin id => (stop_begin m id).1
  | MStopTimeout id => (stop_timeout m id).1
  end.
Definition m_run (m : Manager) (ops : list m_op) : Manager := foldl m_exec m ops.

(** The session's goroutine still owns its ID. *)
Definition owns (s : Session) (id : string) : Prop :=
  s_id s = id /\ (s_phase s = Running \/ s_phase s = Returned).
Definition fresh_next (m : Manager) : Prop := forall ref, (m_next m <= ref)%nat -> m_heap m !! ref = None.
(** A registered pointer is a session of that ID whose goroutine is alive. *)
Definition registered_live (m : Manager) : Prop :=
  forall id ref, sessions m !! id = Some ref -> exists s, m_heap m !! ref = Some s /\ owns s id.
(** Every live goroutine can be found under its ID. *)
Definition live_registered (m : Manager) : Prop :=
  forall ref s id, m_heap m !! ref = Some s -> owns s id -> sessions m !! id = Some ref.

(** Updates that keep the ID and the goroutine's place keep both directions. *)
Lemma m_update_lookup m ref f ref' s' :
  m_heap (m_update m ref f) !! ref' = Some s' <->
  exists s, m_heap m !! ref' = Some s /\ s' = if decide (ref' = ref) then f s else s.
Proof.
  simpl. destruct (decide (ref' = ref)) as [->|Hne].
  - rewrite lookup_alter_eq, fmap_Some. naive_solver.
  - rewrite lookup_alter_ne by done. naive_solver.
Qed.
Lemma m_update_registered m ref f :
  (forall s id, m_heap m !! ref = Some s -> owns s id -> owns (f s) id) ->
  registered_live m -> registered_live (m_update m ref f).
Proof.
  intros Hf Hm id ref' Hid. destruct (Hm id ref' Hid) as (s & Hs & Ho).
  eexists. split; [apply m_update_lookup; eauto|]. case_decide; subst; auto.
Qed.
Lemma m_update_live m ref f :
  (forall s id, owns (f s) id -> owns s id) ->
  live_registered m -> live_registered (m_update m ref f).
Proof.
  intros Hf Hm ref' s' id Hs Ho. apply m_update_lookup in Hs as (s & Hs & ->).
  apply (Hm ref' s id Hs). case_decide; auto.
Qed.
Lemma m_update_fresh m ref f : fresh_next m -> fresh_next (m_update m ref f).
Proof. intros Hm ref' Hle. simpl. apply lookup_alter_None, Hm, Hle. Qed.
Lemma m_forget_registered m id : registered_live m -> registered_live (m_forget m id).
Proof. intros Hm id' ref Hid. simpl in Hid. apply lookup_delete_Some in Hid as [_ Hid]. by apply Hm. Qed.

Lemma set_keep_owns k s id : owns (set_keep k s) id <-> owns s id. Proof. done. Qed.
Lemma set_lastSeen_owns t s id : owns (set_lastSeen t s) id <-> owns s id. Proof. done. Qed.
Lemma set_cancelled_owns s id : owns (set_cancelled s) id <-> owns s id. Proof. done. Qed.

Lemma Start_inv m id opts now :
  fresh_next m -> registered_live m ->
  fresh_next (Start m id opts now).1 /\ registered_live (Start m id opts now).1 /\
  (live_registered m -> live_registered (Start m id opts now).1).
Proof.
  intros Hf Hr. unfold Start. destruct (sessions m !! id) as [r0|] eqn:Hid; [done|]. simpl.
  assert (Hnew : forall ref s, m_heap m !! ref = Some s -> ref <> m_next m).
  { intros ref s Hs ->. by rewrite Hf in Hs. }
  split; [|split].
  - intros ref Hle. simpl in *. rewrite lookup_insert_ne by lia. apply Hf. lia.
  - intros id' ref. simpl. rewrite lookup_insert_Some. intros [[<- <-]|[Hne Hid']].
    + rewrite lookup_insert_eq. eexists. split; [done|]. split; auto.
    + destruct (Hr _ _ Hid') as (s & Hs & Ho). exists s. rewrite lookup_insert_ne; [done|].
      symmetry. by eapply Hnew.
  - intros Hl ref s id'. simpl. rewrite !lookup_insert_Some.
    intros [[<- <-]|[Hne Hs]] Ho; [destruct Ho as [<- _]; by left|].
    right. pose proof (Hl _ _ _ Hs Ho) as Hid'. split; [|done]. intros <-. congruence.
Qed.

(** The goroutine's own steps. *)
Lemma goroutine_inv m m' ref :
  (goroutine_return m ref = Some m' \/ goroutine_delete m ref = Some m' \/ goroutine_close m ref = Some m') ->
  (fresh_next m -> fresh_next m') /\ (registered_live m -> live_registered m -> registered_live m' /\ live_registered m').
Proof.
  unfold goroutine_return, goroutine_delete, goroutine_close.
  destruct (m_heap m !! ref) as [s|] eqn:Hs; simpl; [|naive_solver].
  intros [H|[H|H]]; case_decide as Hp; simplify_eq.
  - split; [apply m_update_fresh|]. intros Hr Hl. split.
    + apply m_update_registered; [|done]. intros s' id Hs' [Hid _]. simplify_eq. split; auto.
    + intros ref' s' id Hs' Ho. apply m_update_lookup in Hs' as (s0 & Hs0 & ->).
      apply (Hl ref' s0 id Hs0). case_decide; [|done]. simplify_eq. destruct Ho as [<- _]. split; auto.
  - split; [intros ?; by apply (m_update_fresh m ref)|]. intros Hr Hl. split.
    + intros id ref' Hid. simpl in Hid. apply lookup_delete_Some in Hid as [Hne Hid]. destruct (Hr _ _ Hid) as (s' & Hs' & Ho).
      exists s'. split; [|done]. simpl. rewrite lookup_alter_ne; [done|]. intros <-.
      simplify_eq. by destruct Ho as [<- _].
    + intros ref' s' id Hs' Ho. change (m_heap (m_update m ref (set_phase Deleted)) !! ref' = Some s') in Hs'.
      apply m_update_lookup in Hs' as (s0 & Hs0 & ->). simpl.
      case_decide as Hd; [destruct Ho as [_ [|]]; done|].
      pose proof (Hl _ _ _ Hs0 Ho) as Hid. rewrite lookup_delete_ne; [done|]. intros <-.
      assert (owns s (s_id s)) as Ho' by (split; auto). pose proof (Hl _ _ _ Hs Ho'). congruence.
  - split; [apply m_update_fresh|]. intros Hr Hl. split.
    + apply m_update_registered; [|done]. intros s' id Hs' [_ Hph]. simplify_eq. destruct Hph; congruence.
    + apply m_update_live; [|done]. by intros s' id [_ [|]].
Qed.

Definition no_timeout (op : m_op) : Prop := match op with MStopTimeout _ => False | _ => True end.
Lemma m_exec_inv m op :
  no_timeout op -> fresh_next m -> registered_live m -> live_registered m ->
  fresh_next (m_exec m op) /\ registered_live (m_exec m op) /\ live_registered (m_exec m op).
Proof.
  intros Hop Hf Hr Hl.
  assert (Hup : forall ref f, (forall s id, owns (f s) id <-> owns s id) ->
    fresh_next (m_update m ref f) /\ registered_live (m_update m ref f) /\ live_registered (m_update m ref f)).
  { intros ref f Hfo. split; [by apply m_update_fresh|]. split.
    - apply m_update_registered; [|done]. intros s id _. apply Hfo.
    - apply m_update_live; [|done]. intros s id. apply Hfo. }
  destruct op; simpl; try done.
  - destruct (Start_inv m id opts now Hf Hr) as (? & ? & ?). auto.
  - destruct (goroutine_return m ref) eqn:E; simpl; [|done].
    destruct (goroutine_inv m m0 ref) as [? Hg]; [auto|]. destruct (Hg Hr Hl). auto.
  - destruct (goroutine_delete m ref) eqn:E; simpl; [|done].
    destruct (goroutine_inv m m0 ref) as [? Hg]; [auto|]. destruct (Hg Hr Hl). auto.
  - destruct (goroutine_close m ref) eqn:E; simpl; [|done].
    destruct (goroutine_inv m m0 ref) as [? Hg]; [auto|]. destruct (Hg Hr Hl). auto.
  - unfold SetKeep. destruct (sessions m !! id); [|done]. apply Hup, set_keep_owns.
  - unfold Touch. destruct (sessions m !! id); [|done]. apply Hup, set_lastSeen_owns.
  - unfold stop_begin. destruct (sessions m !! id); [|done]. apply Hup. done.
Qed.

(** As long as no [Stop] times out, the manager's map is exactly the set of
    live session goroutines: an ID maps to a session if and only if that
    session's goroutine has not yet removed itself - so an ID has at most one
    live goroutine, every live one can be found and stopped, and no dead one is
    listed. *)
Theorem sessions_are_live ops :
  Forall no_timeout ops ->
  let m := m_run NewManager ops in
  forall id ref, Get m id = Some ref <-> exists s, m_heap m !! ref = Some s /\ owns s id.
Proof.
  intros Hops m.
  assert (Hinv : forall m0, fresh_next m0 -> registered_live m0 -> live_registered m0 ->
    registered_live (m_run m0 ops) /\ live_registered (m_run m0 ops)).
  { clear m. induction Hops as [|op ops Hop _ IH]; intros m0 Hf Hr Hl; simpl; [done|].
    destruct (m_exec_inv m0 op Hop Hf Hr Hl) as (? & ? & ?). by apply IH. }
  destruct (Hinv NewManager) as [Hr Hl]; [done|done|done|].
  intros id ref. split; [apply Hr|]. intros (s & Hs & Ho). by eapply Hl.
Qed.

(** After a [Stop] that timed out, the abandoned goroutine still deletes
    its ID when it finally returns, and with it a newer session started under
    the same ID: that session runs on, but nobody can find or stop it. *)
Theorem stop_timeout_evicts_successor m id ref s opts now :
  fresh_next m -> Get m id = Some ref -> m_heap m !! ref = Some s -> s_id s = id -> s_phase s = Running ->
  let m' := m_run m [MStopBegin id; MStopTimeout id; MStart id opts now; MReturn ref; MDelete ref] in
  Get m' id = None /\
  exists s', m_heap m' !! m_next m = Some s' /\ s_id s' = id /\ s_phase s' = Running /\ s_cancelled s' = false.
Proof.
  intros Hf Hg Hs Hid Hp. unfold Get in Hg.
  assert (Hne : ref <> m_next m) by (intros ->; by rewrite Hf in Hs).
  simpl. unfold stop_begin. rewrite Hg. simpl.
  unfold Start, m_forget. simpl. rewrite lookup_delete_eq. simpl.
  unfold goroutine_return. simpl. rewrite lookup_insert_ne, lookup_alter_eq, Hs by done. simpl.
  rewrite Hp, decide_True by done. simpl.
  unfold goroutine_delete. simpl. rewrite lookup_alter_eq, lookup_insert_ne, lookup_alter_eq, Hs by done. simpl.
  rewrite Hid. split; [apply lookup_delete_eq|].
  rewrite !lookup_alter_ne by done. rewrite lookup_insert_eq. eauto.
Qed.

(** A session is reported idle exactly when idle warnings are on, it is not
    pinned, and the time since the last I/O reached the threshold; touching it
    or pinning it clears the report. *)
Theorem is_idle_spec m id ref s now :
  Get m id = Some ref -> m_heap m !! ref = Some s ->
  (IsIdle m (Some s) now = true <->
     0 < idleWarnAfter m /\ s_keep s = false /\ idleWarnAfter m <= Sub now (s_lastSeen s)) /\
  IsIdle (Touch m id now) (m_heap (Touch m id now) !! ref) now = false /\
  IsIdle (SetKeep m id true).1 (m_heap (SetKeep m id true).1 !! ref) now = false.
Proof.
  intros Hg Hs. unfold Get in Hg. split.
  - unfold IsIdle. destruct (s_keep s); [naive_solver|].
    destruct (Z.leb_spec (idleWarnAfter m) 0); [naive_solver lia|]. simpl. rewrite Z.leb_le. naive_solver.
  - unfold Touch, SetKeep. rewrite Hg. simpl. rewrite !lookup_alter_eq, Hs. simpl. split; [|done].
    destruct (s_keep s); [done|]. destruct (Z.leb_spec (idleWarnAfter m) 0); [done|].
    apply Z.leb_gt. unfold Sub. rewrite Z.sub_diag. unfold minInt64, maxInt64. lia.
Qed.

Definition demo_opts : StartOptions := mkStartOptions "alice" "t1" "router" "" "".
Definition demo_manager : Manager := m_run NewManager [MSetIdle (5 * minute); MStart "s1" demo_opts 100].
Lemma stop_timeout_evicts_successor_witness :
  let m' := m_run demo_manager
    [MStopBegin "s1"; MStopTimeout "s1"; MStart "s1" demo_opts 200; MReturn 0; MDelete 0] in
  Get m' "s1" = None.
Proof.
  apply (stop_timeout_evicts_successor demo_manager "s1" 0%nat
    (mkSession "s1" 100 100 false demo_opts false Running) demo_opts 200).
  - intros ref Hle. change (1 <= ref)%nat in Hle. change (m_heap demo_manager) with
      ({[0%nat := mkSession "s1" 100 100 false demo_opts false Running]} : gmap nat Session).
    apply lookup_singleton_ne. lia.
  - reflexivity.
  - reflexivity.
  - reflexivity.
  - reflexivity.
Defined.
Lemma is_idle_spec_witness :
  IsIdle demo_manager (Some (mkSession "s1" 100 100 false demo_opts false Running)) (100 + 5 * minute) = true.
Proof.
  apply (is_idle_spec demo_manager "s1" 0%nat); [reflexivity|reflexivity|].
  split; [reflexivity|]. split; [reflexivity|]. vm_compute. discriminate.
Defined.
Lemma sessions_are_live_witness :
  Get (m_run NewManager [MStart "s1" demo_opts 100]) "s1" = Some 0%nat.
Proof.
  apply sessions_are_live; [repeat constructor|].
  exists (mkSession "s1" 100 100 false demo_opts false Running).
  split; [reflexivity|]. split; [reflexivity|left; reflexivity].
Defined.
