(* ===== verification/RdpManager.v ===== *)
(** The manager of browser RDP sessions (src/internal/rdpvnc/bridge.go,
    manager_idle.go): which session is found under an identifier or under the
    key of its user and target, and what becomes of the bridge processes.

    Bridges and sessions are pointers into heaps. A bridge is the three child
    processes; all that is known of it is whether its [done] channel is closed
    and whether [Stop] was called. [Register] and [RegisterSession] spawn a
    goroutine that waits for [done]; it is a [watcher] of the state and runs as
    a step of its own. [Stop] on the bridge that was replaced or removed is
    called after the lock was released; the operation records it. *)
From S2P Require Import Prelude GoText.
From stdpp Require Import pretty.
Local Open Scope Z_scope.

(** ** What is handed to FreeRDP *)
Inductive rdp_err := TooLong | ControlCharacter | HostRequired | InvalidPort | InvalidGeometry.
Definition LF : Z := 10.
Definition CR : Z := 13.
(** The three characters are bytes of their own in UTF-8. *)
Definition forbidden (b : Z) : bool := (b =? 0) || (b =? CR) || (b =? LF).
Definition validateRDPString (s : string) (max : Z) : result rdp_err unit :=
  if decide (s = ""%string) then Ok tt
  else if (0 <? max) && (max <? Z.of_nat (length (bs s))) then Err TooLong
  else if existsb forbidden (bs s) then Err ControlCharacter else Ok tt.
Definition validateRDPInputs (host : string) (port : Z) (username password : string) (width height : Z) : result rdp_err unit :=
  if decide (TrimSpace_s host = ""%string) then Err HostRequired
  else if (port <=? 0) || (65535 <? port) then Err InvalidPort
  else
    let? _ := validateRDPString host 512 in
    let? _ := validateRDPString username 256 in
    let? _ := validateRDPString password 2048 in
    if (width <=? 0) || (height <=? 0) then Err InvalidGeometry else Ok tt.
(** [net.JoinHostPort] *)
Definition JoinHostPort (host port : list Z) : list Z :=
  if bool_decide (58 ∈ host) then [91] ++ host ++ [93; 58] ++ port else host ++ [58] ++ port.
Definition rdp_line (name : string) (v : list Z) : list Z := bs name ++ v ++ [LF].
(** [writeFreerdpCredentialsFile]: the content of the file. *)
Definition freerdp_file (host : string) (port : Z) (username password : string) : result rdp_err (list Z) :=
  let? _ := validateRDPString host 253 in
  let? _ := validateRDPString username 512 in
  let? _ := validateRDPString password 512 in
  Ok (rdp_line "full address:s:" (JoinHostPort (bs host) (bs (pretty port))) ++
      (if decide (username <> ""%string) then rdp_line "username:s:" (bs username) else []) ++
      (if decide (password <> ""%string) then rdp_line "password:s:" (bs password) else [])).

(** ** The manager *)
Record Bridge := mkBridge { br_done : bool; br_stopped : bool }.
Record Session := mkSession {
  rs_ID : string; rs_UserID : string; rs_TargetID : string; rs_TargetName : string;
  rs_Width : Z; rs_Height : Z; rs_CreatedAt : time; rs_lastSeen : time; rs_Bridge : nat;
  rs_proxied : bool (* proxyOnce has run *)
}.
Definition set_lastSeen (t : time) (s : Session) : Session :=
  mkSession (rs_ID s) (rs_UserID s) (rs_TargetID s) (rs_TargetName s) (rs_Width s) (rs_Height s) (rs_CreatedAt s) t (rs_Bridge s) (rs_proxied s).
Definition set_proxied (s : Session) : Session :=
  mkSession (rs_ID s) (rs_UserID s) (rs_TargetID s) (rs_TargetName s) (rs_Width s) (rs_Height s) (rs_CreatedAt s) (rs_lastSeen s) (rs_Bridge s) true.
(** The goroutine that waits for a bridge: of [Register] or of [RegisterSession]. *)
Record watcher := mkWatcher { wt_key : string; wt_session : option string; wt_bridge : nat }.

Record Manager := mkManager {
  bridges : gmap string nat;
  sessionsByID : gmap string nat;
  sessionIDByKey : gmap string string;
  keep : gset string;
  idleWarnAfter : duration;
  rm_heap : gmap nat Session;
  rm_bridges : gmap nat Bridge;
  rm_watchers : list watcher
}.
Definition NewManager : Manager := mkManager ∅ ∅ ∅ ∅ 0 ∅ ∅ [].

Definition with_maps (m : Manager) b s k p : Manager :=
  mkManager b s k p (idleWarnAfter m) (rm_heap m) (rm_bridges m) (rm_watchers m).
Definition Stop (m : Manager) (b : nat) : Manager :=
  mkManager (bridges m) (sessionsByID m) (sessionIDByKey m) (keep m) (idleWarnAfter m) (rm_heap m)
    (alter (fun br => mkBridge (br_done br) true) b (rm_bridges m)) (rm_watchers m).
Definition stop_opt (m : Manager) (b : option nat) : Manager := match b with Some b => Stop m b | None => m end.
Definition spawn (m : Manager) (w : watcher) : Manager :=
  mkManager (bridges m) (sessionsByID m) (sessionIDByKey m) (keep m) (idleWarnAfter m) (rm_heap m) (rm_bridges m) (rm_watchers m ++ [w]).
Definition delete_if {A} `{EqDecision A} (k : string) (v : A) (m : gmap string A) : gmap string A :=
  if decide (m !! k = Some v) then delete k m else m.

(** ** Registration *)
(** [b] is a bridge that [Start] returned. *)
Definition Register (m : Manager) (key : string) (b : nat) : Manager :=
  let old := bridges m !! key in
  let m := with_maps m (<[key := b]> (bridges m)) (sessionsByID m) (sessionIDByKey m) (keep m) in
  spawn (stop_opt m old) (mkWatcher key None b).
Definition RegisterSession (m : Manager) (key sessionID userID targetID targetName : string) (width height : Z) (b ref : nat) (now : time)
    : Manager :=
  let old := bridges m !! key in
  let '(byID, kept) := match sessionIDByKey m !! key with
    | Some oldID => (delete oldID (sessionsByID m), keep m ∖ {[oldID]})
    | None => (sessionsByID m, keep m)
    end in
  let s := mkSession sessionID userID targetID targetName width height now now b false in
  let m := mkManager (<[key := b]> (bridges m)) (<[sessionID := ref]> byID) (<[key := sessionID]> (sessionIDByKey m)) kept
    (idleWarnAfter m) (<[ref := s]> (rm_heap m)) (rm_bridges m) (rm_watchers m) in
  spawn (stop_opt m old) (mkWatcher key (Some sessionID) b).

Definition bridge_of (m : Manager) (sid : string) : option nat := ref ← sessionsByID m !! sid; rs_Bridge <$> rm_heap m !! ref.
(** The goroutine of [Register] once [done] is closed. *)
Definition watch_bridge (m : Manager) (key : string) (b : nat) : Manager :=
  let bs := delete_if key b (bridges m) in
  match sessionIDByKey m !! key with
  | Some sid =>
      let '(byID, kept) := if decide (bridge_of m sid = Some b) then (delete sid (sessionsByID m), keep m ∖ {[sid]}) else (sessionsByID m, keep m) in
      with_maps m bs byID (delete key (sessionIDByKey m)) kept
  | None => with_maps m bs (sessionsByID m) (sessionIDByKey m) (keep m)
  end.
(** The goroutine of [RegisterSession]. *)
Definition watch_session (m : Manager) (key sessionID : string) (b : nat) : Manager :=
  let '(byID, kept) := if decide (bridge_of m sessionID = Some b) then (delete sessionID (sessionsByID m), keep m ∖ {[sessionID]}) else (sessionsByID m, keep m) in
  with_maps m (delete_if key b (bridges m)) byID (delete_if key sessionID (sessionIDByKey m)) kept.
Definition run_watcher (m : Manager) (w : watcher) : Manager :=
  match wt_session w with None => watch_bridge m (wt_key w) (wt_bridge w) | Some sid => watch_session m (wt_key w) sid (wt_bridge w) end.
(** The child processes have ended. *)
Definition bridge_exits (m : Manager) (b : nat) : Manager :=
  mkManager (bridges m) (sessionsByID m) (sessionIDByKey m) (keep m) (idleWarnAfter m) (rm_heap m)
    (alter (fun br => mkBridge true (br_stopped br)) b (rm_bridges m)) (rm_watchers m).
(** [Start]: a new bridge. *)
Definition start_bridge (m : Manager) (b : nat) : Manager :=
  mkManager (bridges m) (sessionsByID m) (sessionIDByKey m) (keep m) (idleWarnAfter m) (rm_heap m)
    (<[b := mkBridge false false]> (rm_bridges m)) (rm_watchers m).

(** ** Lookup and removal *)
Definition GetSession (m : Manager) (sessionID : string) : option nat := sessionsByID m !! sessionID.
Definition GetSessionByKey (m : Manager) (key : string) : option nat := sid ← sessionIDByKey m !! key; sessionsByID m !! sid.
Definition GetBridge (m : Manager) (key : string) : option nat := bridges m !! key.
(** Snapshots, in the order of the map iteration. *)
Definition AllSessions `{MapRange} (m : Manager) : list Session :=
  omap (fun kr => rm_heap m !! kr.2) (range (sessionsByID m)).
Definition ActiveSessionsForUser `{MapRange} (m : Manager) (userID : string) : list Session :=
  filter (fun s => rs_UserID s = userID) (AllSessions m).
Definition session_key (s : Session) : string := rs_UserID s +:+ ":" +:+ rs_TargetID s.
Definition ActiveTargetIDsForUser `{MapRange} (m : Manager) (userID : string) : list string :=
  let prefix := bs (userID +:+ ":") in
  omap (fun kb : string * nat =>
    if (length prefix <? length (bs kb.1))%nat && has_prefix (bs kb.1) prefix then Some (str_of (drop (length prefix) (bs kb.1))) else None)
    (range (bridges m)).

Definition RemoveSession (m : Manager) (sessionID : string) : Manager :=
  match ref ← sessionsByID m !! sessionID; rm_heap m !! ref with
  | None => m
  | Some s =>
      let key := session_key s in
      Stop (with_maps m (delete_if key (rs_Bridge s) (bridges m)) (delete sessionID (sessionsByID m))
              (delete_if key sessionID (sessionIDByKey m)) (keep m ∖ {[sessionID]})) (rs_Bridge s)
  end.
Definition Remove (m : Manager) (key : string) : Manager :=
  let b := bridges m !! key in
  let '(byID, kept) := match sessionIDByKey m !! key with
    | Some sid => (delete sid (sessionsByID m), keep m ∖ {[sid]})
    | None => (sessionsByID m, keep m)
    end in
  stop_opt (with_maps m (delete key (bridges m)) byID (delete key (sessionIDByKey m)) kept) b.
Definition StopAll (m : Manager) : Manager :=
  let all := (map_to_list (bridges m)).*2 in
  foldl Stop (with_maps m ∅ (sessionsByID m) (sessionIDByKey m) (keep m)) all.

(** ** Activity *)
Definition SetIdleWarnAfter (m : Manager) (d : duration) : Manager :=
  mkManager (bridges m) (sessionsByID m) (sessionIDByKey m) (keep m) d (rm_heap m) (rm_bridges m) (rm_watchers m).
Definition update_session (m : Manager) (ref : nat) (f : Session -> Session) : Manager :=
  mkManager (bridges m) (sessionsByID m) (sessionIDByKey m) (keep m) (idleWarnAfter m) (alter f ref (rm_heap m)) (rm_bridges m) (rm_watchers m).
Definition Touch (m : Manager) (sessionID : string) (now : time) : Manager :=
  match sessionsByID m !! sessionID with Some ref => update_session m ref (set_lastSeen now) | None => m end.
Definition StartBridgeProxyOnce (m : Manager) (ref : nat) : Manager * bool :=
  match rm_heap m !! ref with
  | Some s => if rs_proxied s then (m, false) else (update_session m ref set_proxied, true)
  | None => (m, false)
  end.
Definition SetKeep (m : Manager) (sessionID : string) (k : bool) : Manager * bool :=
  match sessionsByID m !! sessionID with
  | None => (m, false)
  | Some _ => (with_maps m (bridges m) (sessionsByID m) (sessionIDByKey m) (if k then keep m ∪ {[sessionID]} else keep m ∖ {[sessionID]}), true)
  end.
Definition IsKept (m : Manager) (sessionID : string) : bool := bool_decide (sessionID ∈ keep m).
Definition IdleDuration (s : option Session) (now : time) : duration := match s with None => 0 | Some s => Sub now (rs_lastSeen s) end.
Definition IsIdle (m : Manager) (s : option Session) (now : time) : bool :=
  match s with
  | None => false
  | Some sess => if (idleWarnAfter m <=? 0) || IsKept m (rs_ID sess) then false else idleWarnAfter m <=? IdleDuration s now
  end.

(** ** Histories

    The caller of [RegisterSession] passes a bridge it just started, an
    identifier and a pointer that are new, and the key of the session. *)
Inductive rdp_op :=
| RStart (key sid user target name : string) (w h : Z) (b ref : nat) (now : time)
| RWatch (w : watcher) | RExit (b : nat)
| RRemoveSession (sid : string) | RRemove (key : string)
| RTouch (sid : string) (now : time) | RKeep (sid : string) (k : bool) | RProxy (ref : nat) | RIdle (d : duration).
Definition rdp_exec (m : Manager) (op : rdp_op) : Manager :=
  match op with
  | RStart key sid u t n w h b ref now => RegisterSession (start_bridge m b) key sid u t n w h b ref now
  | RWatch w => if decide (br_done <$> rm_bridges m !! wt_bridge w = Some true) then run_watcher m w else m
  | RExit b => bridge_exits m b
  | RRemoveSession sid => RemoveSession m sid
  | RRemove key => Remove m key
  | RTouch sid now => Touch m sid now
  | RKeep sid k => (SetKeep m sid k).1
  | RProxy ref => (StartBridgeProxyOnce m ref).1
  | RIdle d => SetIdleWarnAfter m d
  end.
Definition rdp_run (m : Manager) (ops : list rdp_op) : Manager := foldl rdp_exec m ops.
(** What the callers see to: new names, the key of user and target, and only
    goroutines that were spawned run. *)
Definition op_ok (m : Manager) (op : rdp_op) : Prop :=
  match op with
  | RStart key sid u t _ _ _ b ref _ =>
      key = (u +:+ ":" +:+ t)%string /\ sessionsByID m !! sid = None /\ (forall w, w ∈ rm_watchers m -> wt_session w <> Some sid) /\
      rm_heap m !! ref = None /\ rm_bridges m !! b = None
  | RWatch w => w ∈ rm_watchers m
  | _ => True
  end.
Fixpoint ops_ok (m : Manager) (ops : list rdp_op) : Prop :=
  match ops with [] => True | op :: ops => op_ok m op /\ ops_ok (rdp_exec m op) ops end.

(** ** The invariant *)
Definition entry (m : Manager) (sid : string) (s : Session) : Prop :=
  exists ref, sessionsByID m !! sid = Some ref /\ rm_heap m !! ref = Some s.
(** The three maps describe the same sessions. *)
Record maps_ok (m : Manager) : Prop := {
  mo_session : forall sid ref, sessionsByID m !! sid = Some ref ->
    exists s, rm_heap m !! ref = Some s /\ rs_ID s = sid /\ sessionIDByKey m !! session_key s = Some sid /\
      bridges m !! session_key s = Some (rs_Bridge s);
  mo_key : forall key sid, sessionIDByKey m !! key = Some sid -> exists s, entry m sid s /\ session_key s = key;
  mo_bridge : forall key b, bridges m !! key = Some b -> exists sid s, entry m sid s /\ session_key s = key /\ rs_Bridge s = b;
  mo_keep : forall sid, sid ∈ keep m -> is_Some (sessionsByID m !! sid);
  mo_started : forall sid s, entry m sid s -> is_Some (rm_bridges m !! rs_Bridge s);
  mo_watch : forall w, w ∈ rm_watchers m -> exists sid, wt_session w = Some sid /\ is_Some (rm_bridges m !! wt_bridge w) /\
    forall sid' s, entry m sid' s -> (rs_Bridge s = wt_bridge w <-> sid' = sid) /\ (sid' = sid -> session_key s = wt_key w);
  mo_watched : forall sid s, entry m sid s -> mkWatcher (session_key s) (Some sid) (rs_Bridge s) ∈ rm_watchers m
}.
(** Every bridge that was started has ended, was stopped, or can still be found. *)
Definition bridges_accounted (m : Manager) : Prop :=
  forall b br, rm_bridges m !! b = Some br -> br_done br = true \/ br_stopped br = true \/ exists key, bridges m !! key = Some b.

Lemma entry_fun m sid s s' : entry m sid s -> entry m sid s' -> s = s'.
Proof. intros (r & ? & ?) (r' & ? & ?). congruence. Qed.
Lemma entry_key m sid s : maps_ok m -> entry m sid s -> sessionIDByKey m !! session_key s = Some sid /\ bridges m !! session_key s = Some (rs_Bridge s) /\ rs_ID s = sid.
Proof. intros Hm (ref & Hr & Hs). destruct (mo_session _ Hm _ _ Hr) as (s' & ? & ? & ? & ?). simplify_eq. eauto. Qed.

(** Taking one session out of the three maps. *)
Definition drop_session (m : Manager) (key sid : string) : Manager :=
  with_maps m (delete key (bridges m)) (delete sid (sessionsByID m)) (delete key (sessionIDByKey m)) (keep m ∖ {[sid]}).
Lemma drop_entry m key sid sid' s : entry (drop_session m key sid) sid' s <-> sid' <> sid /\ entry m sid' s.
Proof. unfold entry, drop_session; simpl. setoid_rewrite lookup_delete_Some. naive_solver. Qed.
Lemma drop_session_ok m sid s : maps_ok m -> entry m sid s -> maps_ok (drop_session m (session_key s) sid).
Proof.
  intros Hm He. destruct (entry_key _ _ _ Hm He) as (Hk & Hb & _).
  assert (Hkey : forall sid' s', entry m sid' s' -> sid' <> sid -> session_key s' <> session_key s).
  { intros sid' s' He' Hne Heq. destruct (entry_key _ _ _ Hm He') as [Hk' _]. congruence. }
  split.
  - intros sid' ref Hr. assert (Hs : exists s', entry (drop_session m (session_key s) sid) sid' s').
    { simpl in Hr. apply lookup_delete_Some in Hr as [Hne Hr]. destruct (mo_session _ Hm _ _ Hr) as (s' & Hh & _).
      exists s'. apply drop_entry. split; [done|]. by exists ref. }
    destruct Hs as [s' Hs]. pose proof (proj1 (drop_entry _ _ _ _ _) Hs) as [Hne He'].
    destruct Hs as (ref' & Hr' & Hh). simplify_eq. exists s'. destruct (entry_key _ _ _ Hm He') as (? & ? & ?).
    split; [done|]. split; [done|]. simpl. rewrite !lookup_delete_ne by (symmetry; by eapply Hkey). done.
  - intros key sid'. simpl. rewrite lookup_delete_Some. intros [Hne Hs].
    destruct (mo_key _ Hm _ _ Hs) as (s' & He' & <-). exists s'. split; [|done]. apply drop_entry. split; [|done].
    intros ->. by rewrite (entry_fun _ _ _ _ He' He) in Hne.
  - intros key b. simpl. rewrite lookup_delete_Some. intros [Hne Hs].
    destruct (mo_bridge _ Hm _ _ Hs) as (sid' & s' & He' & <- & <-). exists sid', s'. split; [|done]. apply drop_entry.
    split; [|done]. intros ->. by rewrite (entry_fun _ _ _ _ He' He) in Hne.
  - intros sid'. simpl. rewrite elem_of_difference, elem_of_singleton. intros [Hs Hne].
    rewrite lookup_delete_ne by done. by apply (mo_keep _ Hm).
  - intros sid' s' [_ He']%drop_entry. by apply (mo_started _ Hm sid').
  - intros w Hw. destruct (mo_watch _ Hm w Hw) as (x & ? & ? & Hx). exists x. split; [done|]. split; [done|].
    intros sid' s' [_ He']%drop_entry. by apply Hx.
  - intros sid' s' [_ He']%drop_entry. by apply (mo_watched _ Hm).
Qed.
(** Stopping a bridge, and its end, leave the maps alone. *)
Lemma maps_ok_bridges m f b : maps_ok m ->
  maps_ok (mkManager (bridges m) (sessionsByID m) (sessionIDByKey m) (keep m) (idleWarnAfter m) (rm_heap m) (alter f b (rm_bridges m)) (rm_watchers m)).
Proof.
  intros [H1 H2 H3 H4 H5 H6 H7]. split; simpl; try done.
  - intros sid s He. rewrite lookup_alter_is_Some. by apply (H5 sid).
  - intros w Hw. destruct (H6 w Hw) as (x & ? & ? & ?). exists x. rewrite lookup_alter_is_Some. done.
Qed.

(** Adding a session under a key that is free. *)
Definition add_session (m : Manager) (key sid : string) (ref : nat) (s : Session) : Manager :=
  mkManager (<[key := rs_Bridge s]> (bridges m)) (<[sid := ref]> (sessionsByID m)) (<[key := sid]> (sessionIDByKey m)) (keep m)
    (idleWarnAfter m) (<[ref := s]> (rm_heap m)) (<[rs_Bridge s := mkBridge false false]> (rm_bridges m))
    (rm_watchers m ++ [mkWatcher key (Some sid) (rs_Bridge s)]).
Section add.
Context (m : Manager) (key sid : string) (ref : nat) (s : Session).
Context (Hm : maps_ok m) (Hs : sessionsByID m !! sid = None) (Hk : sessionIDByKey m !! key = None)
  (Hw : forall w, w ∈ rm_watchers m -> wt_session w <> Some sid) (Hr : rm_heap m !! ref = None) (Hb : rm_bridges m !! rs_Bridge s = None)
  (Hid : rs_ID s = sid) (Hkey : session_key s = key).
Lemma add_entry sid' s' : entry (add_session m key sid ref s) sid' s' <-> (sid' = sid /\ s' = s) \/ (sid' <> sid /\ entry m sid' s').
Proof.
  unfold entry, add_session; simpl. split.
  - intros (r & Hl & Hh). apply lookup_insert_Some in Hl as [[<- <-]|[Hne Hl]].
    + rewrite lookup_insert_eq in Hh. left. naive_solver.
    + destruct (mo_session _ Hm _ _ Hl) as (s0 & H0 & _). rewrite lookup_insert_ne in Hh by congruence. right. eauto.
  - intros [[-> ->]|[Hne (r & Hl & Hh)]].
    + exists ref. by rewrite !lookup_insert_eq.
    + exists r. rewrite !lookup_insert_ne by congruence. done.
Qed.
Lemma add_session_ok : maps_ok (add_session m key sid ref s).
Proof.
  split.
  - intros sid' r Hl. assert (He : exists s', entry (add_session m key sid ref s) sid' s').
    { simpl in Hl. apply lookup_insert_Some in Hl as [[<- <-]|[Hne Hl]]; [exists s; apply add_entry; auto|].
      destruct (mo_session _ Hm _ _ Hl) as (s' & Hh & _). exists s'. apply add_entry. right. split; [done|]. by exists r. }
    destruct He as [s' He]. pose proof (proj1 (add_entry _ _) He) as Hc. destruct He as (r' & Hl' & Hh). rewrite Hl in Hl'. injection Hl' as <-.
    exists s'. split; [done|]. simpl. destruct Hc as [[-> ->]|[Hne He]]; [by rewrite Hkey, !lookup_insert_eq|].
    destruct (entry_key _ _ _ Hm He) as (H1 & H2 & H3). rewrite !lookup_insert_ne by congruence. done.
  - intros key' sid'. simpl. rewrite lookup_insert_Some. intros [[<- <-]|[Hne Hl]].
    + exists s. split; [|done]. apply add_entry. auto.
    + destruct (mo_key _ Hm _ _ Hl) as (s' & He & Hs'). exists s'. split; [|done]. apply add_entry. right. split; [|done].
      intros ->. destruct He as (? & ? & _). congruence.
  - intros key' b. simpl. rewrite lookup_insert_Some. intros [[<- <-]|[Hne Hl]].
    + exists sid, s. split; [|done]. apply add_entry. auto.
    + destruct (mo_bridge _ Hm _ _ Hl) as (sid' & s' & He & Hs' & Hb'). exists sid', s'. split; [|done]. apply add_entry. right.
      split; [|done]. intros ->. destruct He as (? & ? & _). congruence.
  - intros sid' Hin. simpl. rewrite lookup_insert_is_Some'. right. by apply (mo_keep _ Hm).
  - intros sid' s' He. simpl. rewrite lookup_insert_is_Some'. apply add_entry in He as [[-> ->]|[_ He]]; [by left|right].
    by apply (mo_started _ Hm sid').
  - assert (Hnew : forall sid' s', entry m sid' s' -> rs_Bridge s' <> rs_Bridge s).
    { intros sid' s' He Heq. destruct (mo_started _ Hm _ _ He) as [x Hx]. congruence. }
    intros w. simpl. rewrite elem_of_app, list_elem_of_singleton. intros [Hin| ->].
    + destruct (mo_watch _ Hm w Hin) as (x & Hx & Hbx & Hall). exists x. split; [done|].
      split; [rewrite lookup_insert_is_Some'; by right|]. intros sid' s' [[-> ->]|[Hne He]]%add_entry; [|by apply Hall].
      assert (Hxs : sid <> x) by (intros ->; by apply (Hw w Hin)). split; [|done]. split; [|done]. intros Heq. rewrite <- Heq in Hbx.
      destruct Hbx as [y Hy]. congruence.
    + exists sid. split; [done|]. split; [rewrite lookup_insert_is_Some'; by left|]. simpl.
      intros sid' s' [[-> ->]|[Hne He]]%add_entry; [done|]. split; [|done]. split; [|done]. intros Heq. by apply Hnew in He.
  - intros sid' s'. simpl. rewrite elem_of_app, list_elem_of_singleton.
    intros [[-> ->]|[_ He]]%add_entry; [right; by rewrite Hkey|left; by apply (mo_watched _ Hm)].
Qed.
End add.

(** ** What the operations do *)
Lemma no_key_no_bridge m key : maps_ok m -> sessionIDByKey m !! key = None -> bridges m !! key = None.
Proof.
  intros Hm Hk. destruct (bridges m !! key) as [b|] eqn:Hb; [|done].
  destruct (mo_bridge _ Hm _ _ Hb) as (sid & s & He & <- & _). destruct (entry_key _ _ _ Hm He). congruence.
Qed.
Lemma with_maps_id m : with_maps m (bridges m) (sessionsByID m) (sessionIDByKey m) (keep m) = m.
Proof. by destruct m. Qed.
Lemma bridge_of_entry m sid b : bridge_of m sid = Some b <-> exists s, entry m sid s /\ rs_Bridge s = b.
Proof.
  unfold bridge_of, entry. split.
  - intros (ref & Hl & Hs)%bind_Some. apply fmap_Some in Hs as (s & Hh & ->). eauto.
  - intros (s & (ref & Hl & Hh) & <-). by rewrite Hl; simpl; rewrite Hh.
Qed.
Lemma watcher_effect m w : maps_ok m -> w ∈ rm_watchers m ->
  run_watcher m w = m \/ exists sid s, entry m sid s /\ rs_Bridge s = wt_bridge w /\ run_watcher m w = drop_session m (session_key s) sid.
Proof.
  intros Hm Hw. destruct (mo_watch _ Hm w Hw) as (sid & Hsid & _ & Hall). unfold run_watcher. rewrite Hsid. unfold watch_session.
  destruct (decide (bridge_of m sid = Some (wt_bridge w))) as [Hb|Hb].
  - right. apply bridge_of_entry in Hb as (s & He & Hb). destruct (Hall _ _ He) as [_ Hk]. specialize (Hk eq_refl).
    destruct (entry_key _ _ _ Hm He) as (H1 & H2 & _). exists sid, s. split; [done|]. split; [done|]. unfold drop_session, delete_if.
    rewrite <- Hk, <- Hb. by rewrite !decide_True by done.
  - left. assert (Hno : forall s, ~ entry m sid s).
    { intros s He. apply Hb, bridge_of_entry. exists s. split; [done|]. by apply (Hall _ _ He). }
    unfold delete_if. rewrite !decide_False; [apply with_maps_id| |].
    + intros Hl. destruct (mo_key _ Hm _ _ Hl) as (s & He & _). by apply (Hno s).
    + intros Hl. destruct (mo_bridge _ Hm _ _ Hl) as (sid' & s & He & _ & Heq). apply (Hall _ _ He) in Heq as ->. by apply (Hno s).
Qed.
Lemma RemoveSession_effect m sid : maps_ok m ->
  (sessionsByID m !! sid = None /\ RemoveSession m sid = m) \/
  exists s, entry m sid s /\ RemoveSession m sid = Stop (drop_session m (session_key s) sid) (rs_Bridge s).
Proof.
  intros Hm. unfold RemoveSession. destruct (sessionsByID m !! sid) as [ref|] eqn:Hl; [|by left]. right.
  destruct (mo_session _ Hm _ _ Hl) as (s & Hh & Hid & Hk & Hb). simpl. rewrite Hh. exists s. split; [by exists ref|].
  unfold drop_session, delete_if. by rewrite !decide_True by done.
Qed.
Lemma Remove_effect m key : maps_ok m ->
  (sessionIDByKey m !! key = None /\ Remove m key = m) \/
  exists sid s, entry m sid s /\ session_key s = key /\ Remove m key = Stop (drop_session m key sid) (rs_Bridge s).
Proof.
  intros Hm. unfold Remove. destruct (sessionIDByKey m !! key) as [sid|] eqn:Hk.
  - right. destruct (mo_key _ Hm _ _ Hk) as (s & He & Hs). destruct (entry_key _ _ _ Hm He) as (_ & Hb & _). rewrite Hs in Hb.
    exists sid, s. rewrite Hb. done.
  - left. split; [done|]. rewrite (no_key_no_bridge _ _ Hm Hk). simpl.
    rewrite !delete_id by (done || by apply no_key_no_bridge). apply with_maps_id.
Qed.
Lemma Start_effect m key sid u t n w h b ref now : maps_ok m ->
  let s := mkSession sid u t n w h now now b false in
  let m' := RegisterSession (start_bridge m b) key sid u t n w h b ref now in
  (sessionIDByKey m !! key = None /\ m' = add_session m key sid ref s) \/
  exists sid0 s0, entry m sid0 s0 /\ session_key s0 = key /\ m' = Stop (add_session (drop_session m key sid0) key sid ref s) (rs_Bridge s0).
Proof.
  intros Hm s m'. unfold m', RegisterSession. simpl. destruct (sessionIDByKey m !! key) as [sid0|] eqn:Hk.
  - right. destruct (mo_key _ Hm _ _ Hk) as (s0 & He & Hs). destruct (entry_key _ _ _ Hm He) as (_ & Hb & _). rewrite Hs in Hb.
    exists sid0, s0. split; [done|]. split; [done|]. rewrite Hb. unfold spawn, stop_opt, Stop, add_session, drop_session; simpl.
    by rewrite !insert_delete_eq.
  - left. rewrite (no_key_no_bridge _ _ Hm Hk). done.
Qed.

(** ** Histories keep the invariant *)
Lemma update_session_ok m ref f : (forall s, rs_ID (f s) = rs_ID s /\ session_key (f s) = session_key s /\ rs_Bridge (f s) = rs_Bridge s) ->
  maps_ok m -> maps_ok (update_session m ref f).
Proof.
  intros Hf Hm.
  assert (He : forall sid s, entry (update_session m ref f) sid s ->
    exists s0, entry m sid s0 /\ rs_ID s = rs_ID s0 /\ session_key s = session_key s0 /\ rs_Bridge s = rs_Bridge s0).
  { intros sid s (r & Hl & Hh). simpl in Hh. apply lookup_alter_Some in Hh as [(<- & s0 & Hh & ->)|[_ Hh]].
    - exists s0. split; [by exists ref|]. apply Hf.
    - exists s. split; [by exists r|done]. }
  assert (Hback : forall sid s0, entry m sid s0 -> exists s, entry (update_session m ref f) sid s /\ session_key s = session_key s0 /\ rs_Bridge s = rs_Bridge s0).
  { intros sid s0 (r & Hl & Hh). destruct (decide (r = ref)) as [->|Hne].
    - exists (f s0). split; [exists ref; split; [done|by simpl; rewrite lookup_alter_eq, Hh]|]. apply Hf.
    - exists s0. split; [exists r; split; [done|by simpl; rewrite lookup_alter_ne by done]|done]. }
  split.
  - intros sid r Hl. destruct (mo_session _ Hm _ _ Hl) as (s0 & Hh & Hid & Hk & Hb).
    destruct (Hback sid s0) as (s & (r' & Hl' & Hh') & Hk' & Hb'); [by exists r|]. simpl in Hl, Hl'. rewrite Hl in Hl'. injection Hl' as <-.
    exists s. split; [done|]. destruct (He sid s) as (s1 & He1 & Hid1 & _); [by exists r|]. destruct (entry_key _ _ _ Hm He1) as (_ & _ & Hid2).
    simpl. rewrite Hk', Hb'. split; [congruence|done].
  - intros key sid Hl. destruct (mo_key _ Hm _ _ Hl) as (s0 & Hs0 & <-). destruct (Hback _ _ Hs0) as (s & ? & ? & _). eauto.
  - intros key b Hl. destruct (mo_bridge _ Hm _ _ Hl) as (sid & s0 & Hs0 & <- & <-). destruct (Hback _ _ Hs0) as (s & ? & ? & ?). eauto.
  - apply (mo_keep _ Hm).
  - intros sid s Hs. destruct (He _ _ Hs) as (s0 & Hs0 & _ & _ & ->). by apply (mo_started _ Hm sid).
  - intros w Hw. destruct (mo_watch _ Hm w Hw) as (x & ? & ? & Hall). exists x. split; [done|]. split; [done|].
    intros sid' s Hs. destruct (He _ _ Hs) as (s0 & Hs0 & _ & -> & ->). by apply Hall.
  - intros sid s Hs. destruct (He _ _ Hs) as (s0 & Hs0 & _ & -> & ->). by apply (mo_watched _ Hm).
Qed.
Lemma accounted_stop m sid s : maps_ok m -> entry m sid s -> bridges_accounted m -> bridges_accounted (Stop (drop_session m (session_key s) sid) (rs_Bridge s)).
Proof.
  intros Hm He Ha b br. destruct (entry_key _ _ _ Hm He) as (_ & Hb & _). simpl.
  intros [(<- & br0 & _ & ->)|[Hne Hl]]%lookup_alter_Some; [by right; left|].
  destruct (Ha _ _ Hl) as [?|[?|[k Hk]]]; [by left|by right; left|]. right; right. exists k.
  rewrite lookup_delete_ne; [done|]. intros <-. congruence.
Qed.

Lemma accounted_add m key sid ref s : rm_bridges m !! rs_Bridge s = None -> bridges m !! key = None ->
  bridges_accounted m -> bridges_accounted (add_session m key sid ref s).
Proof.
  intros Hb Hk Ha b br. simpl. intros [[<- <-]|[Hne Hl]]%lookup_insert_Some; [right; right; exists key; by rewrite lookup_insert_eq|].
  destruct (Ha _ _ Hl) as [?|[?|[k Hk']]]; [by left|by right; left|]. right; right. exists k. rewrite lookup_insert_ne by congruence. done.
Qed.
Lemma accounted_flag m f b : (forall br, br_done (f br) = br_done br /\ br_stopped (f br) = true \/ br_done (f br) = true) ->
  bridges_accounted m ->
  bridges_accounted (mkManager (bridges m) (sessionsByID m) (sessionIDByKey m) (keep m) (idleWarnAfter m) (rm_heap m) (alter f b (rm_bridges m)) (rm_watchers m)).
Proof.
  intros Hf Ha b' br. simpl. intros [(<- & br0 & _ & ->)|[_ Hl]]%lookup_alter_Some; [|by apply Ha].
  destruct (Hf br0) as [[_ ?]|?]; auto.
Qed.
Lemma drop_accounted m sid s : maps_ok m -> entry m sid s -> br_done <$> rm_bridges m !! rs_Bridge s = Some true ->
  bridges_accounted m -> bridges_accounted (drop_session m (session_key s) sid).
Proof.
  intros Hm He Hd Ha b br. destruct (entry_key _ _ _ Hm He) as (_ & Hb & _). simpl. intros Hl.
  destruct (decide (b = rs_Bridge s)) as [->|Hne]; [left; rewrite Hl in Hd; by injection Hd|].
  destruct (Ha _ _ Hl) as [?|[?|[k Hk]]]; [by left|by right; left|]. right; right. exists k.
  rewrite lookup_delete_ne; [done|]. intros <-. congruence.
Qed.
Definition rdp_ok (m : Manager) : Prop := maps_ok m /\ bridges_accounted m.
Lemma rdp_exec_ok m op : op_ok m op -> rdp_ok m -> rdp_ok (rdp_exec m op).
Proof.
  intros Ho [Hm Ha]. destruct op as [key sid u t n w h b ref now|w|b|sid|key|sid now|sid k|ref|d]; simpl in *.
  - destruct Ho as (Hkey & Hs & Hw & Hr & Hb). set (s := mkSession sid u t n w h now now b false).
    destruct (Start_effect m key sid u t n w h b ref now Hm) as [[Hk ->]|(sid0 & s0 & He & Hs0 & ->)].
    + split; [by apply add_session_ok|]. apply accounted_add; [done|by apply no_key_no_bridge|done].
    + pose proof (drop_session_ok _ _ _ Hm He) as Hm'. rewrite Hs0 in Hm'.
      assert (Hd : sessionsByID (drop_session m key sid0) !! sid = None) by (simpl; destruct (decide (sid = sid0)) as [->|]; [by rewrite lookup_delete_eq|by rewrite lookup_delete_ne]).
      assert (Hk : sessionIDByKey (drop_session m key sid0) !! key = None) by (simpl; by rewrite lookup_delete_eq).
      split; [by apply maps_ok_bridges, add_session_ok|].
      (* the old bridge is the one that is stopped *)
      intros b' br. simpl. intros [(<- & br0 & _ & ->)|[Hne Hl]]%lookup_alter_Some; [by right; left|].
      apply lookup_insert_Some in Hl as [[<- <-]|[Hne' Hl]]; [right; right; exists key; by rewrite lookup_insert_eq|].
      destruct (Ha _ _ Hl) as [?|[?|[k' Hk']]]; [by left|by right; left|]. right; right. exists k'.
      destruct (entry_key _ _ _ Hm He) as (_ & Hb0 & _). rewrite Hs0 in Hb0.
      assert (k' <> key) by congruence. by rewrite lookup_insert_ne, lookup_delete_ne by done.
  - case_decide as Hd; [|done]. destruct (watcher_effect m w Hm Ho) as [->|(sid & s & He & Hb & ->)]; [done|].
    split; [by apply drop_session_ok|]. apply drop_accounted; [done..| |done]. by rewrite Hb.
  - split; [by apply maps_ok_bridges|]. apply accounted_flag; [|done]. by right.
  - destruct (RemoveSession_effect m sid Hm) as [[_ ->]|(s & He & ->)]; [done|]. split; [by apply maps_ok_bridges, drop_session_ok|by apply accounted_stop].
  - destruct (Remove_effect m key Hm) as [[_ ->]|(sid & s & He & <- & ->)]; [done|]. split; [by apply maps_ok_bridges, drop_session_ok|by apply accounted_stop].
  - unfold Touch. destruct (sessionsByID m !! sid); [|done]. split; [by apply update_session_ok|done].
  - unfold SetKeep. destruct (sessionsByID m !! sid) eqn:Hl; [|done]. split; [|done]. destruct Hm. split; try done. simpl.
    intros sid'. destruct k; [rewrite elem_of_union, elem_of_singleton; intros [?| ->]|rewrite elem_of_difference; intros [? _]]; eauto.
  - unfold StartBridgeProxyOnce. destruct (rm_heap m !! ref) as [s|]; [|done]. destruct (rs_proxied s); [done|]. split; [by apply update_session_ok|done].
  - destruct Hm. by split.
Qed.
Lemma rdp_run_ok ops m : ops_ok m ops -> rdp_ok m -> rdp_ok (rdp_run m ops).
Proof.
  revert m. induction ops as [|op ops IH]; intros m Ho Hm; [done|]. destruct Ho as [Ho Hos]. simpl. apply IH; [done|]. by apply rdp_exec_ok.
Qed.
Lemma NewManager_ok : rdp_ok NewManager.
Proof. split; [split; try done; try set_solver; intros sid s (r & Hr & _); done|done]. Qed.

(** The maps of the RDP manager agree in every history: a session found
    under its identifier is the one found under the key of its user and target,
    with its bridge, so that a user has at most one session per target; only
    live sessions are pinned; and no bridge is lost: each one that was started
    has ended, was told to stop, or is still registered. *)
Theorem rdp_sessions_and_bridges ops : ops_ok NewManager ops ->
  let m := rdp_run NewManager ops in
  (forall sid ref, GetSession m sid = Some ref -> exists s, rm_heap m !! ref = Some s /\ rs_ID s = sid /\
     GetSessionByKey m (session_key s) = Some ref /\ GetBridge m (session_key s) = Some (rs_Bridge s)) /\
  (forall sid sid' s s', entry m sid s -> entry m sid' s' -> session_key s = session_key s' -> sid = sid') /\
  (forall sid, IsKept m sid = true -> is_Some (GetSession m sid)) /\
  (forall b br, rm_bridges m !! b = Some br -> br_done br = true \/ br_stopped br = true \/ exists key, GetBridge m key = Some b).
Proof.
  intros Ho m. destruct (rdp_run_ok ops NewManager Ho NewManager_ok) as [Hm Ha]. fold m in Hm, Ha. split; [|split; [|split]].
  - intros sid ref Hg. destruct (mo_session _ Hm _ _ Hg) as (s & Hh & Hid & Hk & Hb). exists s. split; [done|]. split; [done|].
    split; [|done]. unfold GetSessionByKey. by rewrite Hk.
  - intros sid sid' s s' He He' Hk. destruct (entry_key _ _ _ Hm He) as [H1 _]. destruct (entry_key _ _ _ Hm He') as [H2 _]. congruence.
  - intros sid Hk. by apply bool_decide_eq_true, (mo_keep _ Hm) in Hk.
  - exact Ha.
Qed.
(** A session whose bridge ended has a goroutine that waits for it, and once
    that ran neither its identifier nor its key finds it. *)
Theorem rdp_ended_session_removed ops sid s : ops_ok NewManager ops ->
  let m := rdp_run NewManager ops in
  entry m sid s -> br_done <$> rm_bridges m !! rs_Bridge s = Some true ->
  exists w, w ∈ rm_watchers m /\ let m' := rdp_exec m (RWatch w) in GetSession m' sid = None /\ GetSessionByKey m' (session_key s) = None.
Proof.
  intros Ho m He Hd. destruct (rdp_run_ok ops NewManager Ho NewManager_ok) as [Hm _]. fold m in Hm.
  pose proof (mo_watched _ Hm _ _ He) as Hw. eexists. split; [exact Hw|]. simpl. rewrite decide_True by done.
  destruct (mo_watch _ Hm _ Hw) as (sid' & [= <-] & _ & _).
  unfold run_watcher, watch_session; simpl. destruct (entry_key _ _ _ Hm He) as (Hk & Hb & _).
  rewrite decide_True by (apply bridge_of_entry; eauto). unfold delete_if. rewrite !decide_True by done.
  unfold GetSession, GetSessionByKey; simpl. by rewrite !lookup_delete_eq.
Qed.

(** ** The credentials file *)
Lemma validate_no_break s max : validateRDPString s max = Ok tt -> LF ∉ bs s.
Proof.
  unfold validateRDPString. case_decide as Hs; [subst; intros _; apply not_elem_of_nil|]. case_match; [done|].
  destruct (existsb forbidden (bs s)) eqn:He; [done|]. intros _ Hin.
  assert (Ht : existsb forbidden (bs s) = true) by (apply existsb_exists; exists LF; by rewrite <- list_elem_of_In).
  congruence.
Qed.
Lemma digits_no_break n : 0 <= n -> LF ∉ bs (pretty n).
Proof.
  intros Hn Hin. destruct (pretty_number n Hn) as (_ & Hd & _). rewrite Forall_forall in Hd. by apply Hd in Hin.
Qed.
Lemma split_line name v rest : LF ∉ bs name -> LF ∉ v -> split_byte (rdp_line name v ++ rest) LF = (bs name ++ v) :: split_byte rest LF.
Proof.
  intros Hn Hv. unfold rdp_line. rewrite <- !(assoc_L (++)), (assoc_L (++) (bs name)). simpl.
  rewrite split_byte_app_sep, split_byte_none; [done|]. by rewrite elem_of_app; intros [|].
Qed.
(** No text of a target or a user smuggles a setting into the file that is
    handed to FreeRDP: its lines are the address, the user name and the
    password, each as it was given. *)
Theorem freerdp_file_lines host port username password content : 0 < port ->
  freerdp_file host port username password = Ok content ->
  split_byte content LF =
    [bs "full address:s:" ++ JoinHostPort (bs host) (bs (pretty port))] ++
    (if decide (username <> ""%string) then [bs "username:s:" ++ bs username] else []) ++
    (if decide (password <> ""%string) then [bs "password:s:" ++ bs password] else []) ++ [[]].
Proof.
  intros Hp. unfold freerdp_file.
  destruct (validateRDPString host 253) as [[]|] eqn:Hh; [|done]. destruct (validateRDPString username 512) as [[]|] eqn:Hu; [|done].
  destruct (validateRDPString password 512) as [[]|] eqn:Hw; [|done].
  intros E. apply (f_equal (fun r => match r with Ok x => x | Err _ => [] end)) in E. cbv beta iota in E. rewrite <- E. clear E.
  apply validate_no_break in Hh, Hu, Hw.
  assert (Hj : LF ∉ JoinHostPort (bs host) (bs (pretty port))).
  { pose proof (digits_no_break port ltac:(lia)). unfold JoinHostPort, LF in *. case_bool_decide; set_solver. }
  assert (Hn : Forall (fun n => LF ∉ bs n) ["full address:s:"; "username:s:"; "password:s:"]%string) by (apply (bool_decide_unpack _); vm_compute; exact I).
  rewrite !Forall_cons in Hn. destruct Hn as (Hn1 & Hn2 & Hn3 & _).
  rewrite split_line by done. change (?x :: ?l) with ([x] ++ l) at 1. f_equal.
  case_decide; case_decide; rewrite ?app_nil_l.
  - rewrite split_line, <- (app_nil_r (rdp_line "password:s:" _)), split_line by done. done.
  - rewrite split_line by done. done.
  - rewrite <- (app_nil_r (rdp_line "password:s:" _)), split_line by done. done.
  - done.
Qed.

(** ** Witnesses *)
Definition demo_ops : list rdp_op :=
  [RStart "alice:t1" "s1" "alice" "t1" "host" 800 600 0 0 1; RKeep "s1" true; RStart "alice:t1" "s2" "alice" "t1" "host" 800 600 1 1 2; RExit 0;
   RWatch (mkWatcher "alice:t1" (Some "s1"%string) 0)].
Lemma demo_ops_ok : ops_ok NewManager demo_ops.
Proof.
  split; [split_and!; try reflexivity; simpl; set_solver|]. split; [done|].
  split; [split_and!; try reflexivity; intros w; change (w ∈ [mkWatcher "alice:t1" (Some "s1"%string) 0] -> wt_session w <> Some "s2"%string);
    rewrite list_elem_of_singleton; by intros ->|].
  split; [done|]. split; [|done]. simpl. left.
Qed.
Lemma rdp_sessions_and_bridges_witness :
  exists s, entry (rdp_run NewManager demo_ops) "s2" s /\ GetSessionByKey (rdp_run NewManager demo_ops) (session_key s) = Some 1%nat.
Proof.
  destruct (rdp_sessions_and_bridges demo_ops demo_ops_ok) as (H1 & _).
  destruct (H1 "s2"%string 1%nat eq_refl) as (s & Hs & _ & Hk & _). exists s. split; [exists 1%nat; split; [reflexivity|exact Hs]|exact Hk].
Defined.
