(* ===== verification/LoginLimiter.v ===== *)
(** The login rate limiter (src/internal/ratelimit/login.go), shared by the
    HTTP API and the CLI SSH gateway.

    Two maps of failure times, by source address and by user name, each pruned
    when it is consulted and swept every five minutes. The specification is a
    sliding window over the whole history of failures; the refinement theorem
    relates the two for every history with a monotone clock. *)
From S2P Require Import Prelude GoText.
Local Open Scope Z_scope.

Definition defaultWindow : duration := 15 * minute.
Definition defaultMaxIP : Z := 5.
Definition defaultMaxUser : Z := 10.
Definition gcInterval : duration := 5 * minute.
Definition purgeBackoff : duration := 30 * minute.
Definition maxEntries : nat := Z.to_nat 50000.

Abbreviation bucket_map := (gmap string (list time)) (only parsing).
Record LoginLimiter := mkLimiter {
  byIP : gmap string (list time);
  byUser : gmap string (list time);
  window : duration;
  maxIP : Z;
  maxUser : Z;
  lastSwep : time
}.
(** [NewLoginLimiter]: the arguments are the two environment variables. *)
Definition env_limit (env : string) (dflt : Z) : Z :=
  let n := TrimSpace_s env in
  if decide (n <> ""%string) then
    match Atoi_s n with Some v => if 0 <? v then v else dflt | None => dflt end
  else dflt.
Definition NewLoginLimiter (envMaxIP envMaxUser : string) : LoginLimiter :=
  mkLimiter ∅ ∅ defaultWindow (env_limit envMaxIP defaultMaxIP) (env_limit envMaxUser defaultMaxUser)
    zero_time.

(** [ClientIPFromHTTP]: [host] is what [net.SplitHostPort] returns for the
    remote address (empty when it is malformed). *)
Definition ClientIPFromHTTP (trusted : bool) (xff : list Z) (host remoteAddr : list Z) : list Z :=
  let direct := if decide (host <> []) then host else remoteAddr in
  if trusted then
    if decide (xff <> []) then
      match index_byte xff 44 with
      | Some (S i) => TrimSpace (take (S i) xff)
      | _ => TrimSpace xff
      end
    else direct
  else direct.

Definition normalizeUserKey `{UnicodeTables} (username : string) : string :=
  ToLower_s (TrimSpace_s username).

(** The in-place filter keeps the times after the cutoff, in order. *)
Definition prune (cutoff : time) (ts : list time) : list time := filter (fun t => After t cutoff = true) ts.
Definition pruneLocked (m : bucket_map) (cutoff : time) : bucket_map :=
  omap (fun ts => let ts := prune cutoff ts in if decide (ts = []) then None else Some ts) m.

Definition gcLocked (l : LoginLimiter) (now : time) : LoginLimiter :=
  if Sub now (lastSwep l) <? gcInterval then l
  else
    let cutoff := Add now (- purgeBackoff) in
    mkLimiter (pruneLocked (byIP l) cutoff) (pruneLocked (byUser l) cutoff)
      (window l) (maxIP l) (maxUser l) now.

(** Which of the two maps a bucket operation works on. *)
Inductive which := ByIP | ByUser.
Definition buckets (l : LoginLimiter) (w : which) : bucket_map :=
  match w with ByIP => byIP l | ByUser => byUser l end.
Definition set_buckets (l : LoginLimiter) (w : which) (m : bucket_map) : LoginLimiter :=
  match w with
  | ByIP => mkLimiter m (byUser l) (window l) (maxIP l) (maxUser l) (lastSwep l)
  | ByUser => mkLimiter (byIP l) m (window l) (maxIP l) (maxUser l) (lastSwep l)
  end.

Definition allowBucket (l : LoginLimiter) (w : which) (key : string) (max : Z) (now : time)
    : LoginLimiter * bool :=
  if decide (key = ""%string) then (l, true)
  else
    let l := gcLocked l now in
    let cutoff := Add now (- window l) in
    let times := prune cutoff (default [] (buckets l w !! key)) in
    let m := if decide (times = []) then delete key (buckets l w) else <[key := times]> (buckets l w) in
    (set_buckets l w m, Z.of_nat (length times) <? max).
Definition AllowIP (l : LoginLimiter) (ip : string) (now : time) : LoginLimiter * bool :=
  allowBucket l ByIP ip (maxIP l) now.
Definition AllowUser `{UnicodeTables} (l : LoginLimiter) (username : string) (now : time) : LoginLimiter * bool :=
  allowBucket l ByUser (normalizeUserKey username) (maxUser l) now.

(** [now1] is the clock read by the sweep, [now] the recorded time. *)
Definition recordBucket (l : LoginLimiter) (w : which) (key : string) (now1 now : time) : LoginLimiter :=
  if decide (key = ""%string) then l
  else
    let append l :=
      set_buckets l w (<[key := default [] (buckets l w !! key) ++ [now]]> (buckets l w)) in
    if decide (buckets l w !! key = None /\ (maxEntries <= size (buckets l w))%nat) then
      let l := gcLocked (mkLimiter (byIP l) (byUser l) (window l) (maxIP l) (maxUser l) zero_time) now1 in
      if decide (maxEntries <= size (buckets l w))%nat then l else append l
    else append l.
Definition RecordFailureIP (l : LoginLimiter) (ip : string) (now1 now : time) : LoginLimiter :=
  recordBucket l ByIP ip now1 now.
Definition RecordFailureUser `{UnicodeTables} (l : LoginLimiter) (username : string) (now1 now : time)
    : LoginLimiter := recordBucket l ByUser (normalizeUserKey username) now1 now.
Definition RecordSuccess `{UnicodeTables} (l : LoginLimiter) (ip username : string) : LoginLimiter :=
  let l := if decide (ip <> ""%string) then set_buckets l ByIP (delete ip (byIP l)) else l in
  let key := normalizeUserKey username in
  if decide (key <> ""%string) then set_buckets l ByUser (delete key (byUser l)) else l.

(** ** Histories *)
Inductive l_op :=
| LAllowIP (ip : string) (now : time)
| LAllowUser (username : string) (now : time)
| LFailIP (ip : string) (now1 now : time)
| LFailUser (username : string) (now1 now : time)
| LSuccess (ip username : string).
Section runs.
Context `{UnicodeTables}.
Definition l_exec (l : LoginLimiter) (op : l_op) : LoginLimiter * option bool :=
  match op with
  | LAllowIP ip now => let (l, b) := AllowIP l ip now in (l, Some b)
  | LAllowUser u now => let (l, b) := AllowUser l u now in (l, Some b)
  | LFailIP ip n1 n => (RecordFailureIP l ip n1 n, None)
  | LFailUser u n1 n => (RecordFailureUser l u n1 n, None)
  | LSuccess ip u => (RecordSuccess l ip u, None)
  end.
(** The answers of a run, in order. *)
Fixpoint l_run (l : LoginLimiter) (ops : list l_op) : list (option bool) :=
  match ops with
  | [] => []
  | op :: ops => let (l, b) := l_exec l op in b :: l_run l ops
  end.

(** ** Specification: a sliding window over the history

    For each key, the times of all its failures since its last success. *)
Record window_spec := mkSpec { sp_fail : which -> string -> list time }.
Definition spec_init : window_spec := mkSpec (fun _ _ => []).
Definition spec_update (s : window_spec) (w : which) (key : string) (ts : list time) : window_spec :=
  mkSpec (fun w' k => match w, w' with
                      | ByIP, ByIP | ByUser, ByUser => if decide (k = key) then ts else sp_fail s w' k
                      | _, _ => sp_fail s w' k end).
(** Fewer than [max] failures in the last [win]; an empty key is never limited. *)
Definition spec_allow (s : window_spec) (win : duration) (w : which) (key : string) (max : Z) (now : time) : bool :=
  if decide (key = ""%string) then true
  else Z.of_nat (length (filter (fun t => now - win < t) (sp_fail s w key))) <? max.
Definition spec_fail (s : window_spec) (w : which) (key : string) (now : time) : window_spec :=
  if decide (key = ""%string) then s else spec_update s w key (sp_fail s w key ++ [now]).
Definition spec_success (s : window_spec) (w : which) (key : string) : window_spec :=
  if decide (key = ""%string) then s else spec_update s w key [].
Definition spec_exec (win mip muser : Z) (s : window_spec) (op : l_op) : window_spec * option bool :=
  match op with
  | LAllowIP ip now => (s, Some (spec_allow s win ByIP ip mip now))
  | LAllowUser u now => (s, Some (spec_allow s win ByUser (normalizeUserKey u) muser now))
  | LFailIP ip _ now => (spec_fail s ByIP ip now, None)
  | LFailUser u _ now => (spec_fail s ByUser (normalizeUserKey u) now, None)
  | LSuccess ip u => (spec_success (spec_success s ByIP ip) ByUser (normalizeUserKey u), None)
  end.
Fixpoint spec_run (win mip muser : Z) (s : window_spec) (ops : list l_op) : list (option bool) :=
  match ops with
  | [] => []
  | op :: ops => let (s, b) := spec_exec win mip muser s op in b :: spec_run win mip muser s ops
  end.

(** The clock readings of an operation. *)
Definition op_times (op : l_op) : list time :=
  match op with
  | LAllowIP _ n | LAllowUser _ n => [n]
  | LFailIP _ n1 n | LFailUser _ n1 n => [n1; n]
  | LSuccess _ _ => []
  end.
(** The keys a history records failures under. *)
Definition op_key (w : which) (op : l_op) : list string :=
  match w, op with
  | ByIP, LFailIP ip _ _ => [ip]
  | ByUser, LFailUser u _ _ => [normalizeUserKey u]
  | _, _ => []
  end.
End runs.

(** ** The simulation *)

(** What the window sees from [low] on is what the specification sees. *)
Definition agree (low : time) (ts sp : list time) : Prop :=
  forall cutoff, low <= cutoff -> prune cutoff ts = prune cutoff sp.
Record sim (K : which -> gset string) (now : time) (l : LoginLimiter) (s : window_spec) : Prop := {
  sim_agree : forall w key, agree (now - window l) (default [] (buckets l w !! key)) (sp_fail s w key);
  sim_keys : forall w, dom (buckets l w) ⊆ K w
}.

Lemma prune_prune c1 c2 ts : c1 <= c2 -> prune c2 (prune c1 ts) = prune c2 ts.
Proof.
  intros Hc. unfold prune. rewrite list_filter_filter. apply list_filter_iff.
  intros t. unfold After. rewrite !Z.ltb_lt. lia.
Qed.
Lemma agree_prune low c ts sp : c <= low -> agree low ts sp -> agree low (prune c ts) sp.
Proof. intros Hc Ha cutoff Hl. rewrite prune_prune by lia. by apply Ha. Qed.
Lemma agree_mono low low' ts sp : low <= low' -> agree low ts sp -> agree low' ts sp.
Proof. intros Hl Ha c Hc. apply Ha. lia. Qed.
Lemma agree_app low ts sp x : agree low ts sp -> agree low (ts ++ x) (sp ++ x).
Proof. intros Ha c Hc. unfold prune. rewrite !filter_app. f_equal. by apply Ha. Qed.

Lemma lookup_pruneLocked m c key :
  default [] (pruneLocked m c !! key) = prune c (default [] (m !! key)).
Proof. unfold pruneLocked. rewrite lookup_omap. destruct (m !! key); simpl; [|done]. by case_decide. Qed.
Lemma dom_pruneLocked m c : dom (pruneLocked m c) ⊆ dom m.
Proof.
  intros k. unfold pruneLocked. rewrite !elem_of_dom, lookup_omap.
  destruct (m !! k); simpl; [eauto|]. by intros [].
Qed.

Lemma buckets_set l w m w' :
  buckets (set_buckets l w m) w' =
  match w, w' with ByIP, ByIP | ByUser, ByUser => m | _, _ => buckets l w' end.
Proof. by destruct w, w'. Qed.
Lemma window_set l w m : window (set_buckets l w m) = window l.
Proof. by destruct w. Qed.
Lemma sp_fail_update s w key ts w' k :
  sp_fail (spec_update s w key ts) w' k =
  match w, w' with
  | ByIP, ByIP | ByUser, ByUser => if decide (k = key) then ts else sp_fail s w' k
  | _, _ => sp_fail s w' k end.
Proof. done. Qed.

(** Replacing one bucket. *)
Lemma sim_set K now l s w m s' :
  sim K now l s ->
  (forall k, agree (now - window l) (default [] (m !! k)) (sp_fail s' w k)) ->
  (forall w' k, w' <> w -> sp_fail s' w' k = sp_fail s w' k) ->
  dom m ⊆ K w -> sim K now (set_buckets l w m) s'.
Proof.
  intros [Ha Hk] Hm Hs Hd. split; intros w'; [intros key|]; rewrite ?window_set, buckets_set.
  - destruct w, w'; auto; rewrite Hs by done; apply Ha.
  - destruct w, w'; auto.
Qed.
Lemma sim_mono K now now' l s : now <= now' -> sim K now l s -> sim K now' l s.
Proof. intros Hn [Ha Hk]. split; [|done]. intros w key. eapply agree_mono; [|apply Ha]. lia. Qed.
Lemma sim_gc K now l s : window l <= purgeBackoff -> sim K now l s -> sim K now (gcLocked l now) s.
Proof.
  intros Hw [Ha Hk]. unfold gcLocked. destruct (_ <? _); [done|]. unfold Add.
  split.
  - intros [] key; simpl; rewrite lookup_pruneLocked; (apply agree_prune; [lia|]).
    + apply (Ha ByIP).
    + apply (Ha ByUser).
  - intros []; simpl; (etransitivity; [apply dom_pruneLocked|]).
    + apply (Hk ByIP).
    + apply (Hk ByUser).
Qed.

Lemma gc_fields l now : window (gcLocked l now) = window l /\ maxIP (gcLocked l now) = maxIP l /\ maxUser (gcLocked l now) = maxUser l.
Proof. unfold gcLocked. by destruct (_ <? _). Qed.

Lemma sim_allow K now l s w key max :
  window l <= purgeBackoff -> sim K now l s ->
  sim K now (allowBucket l w key max now).1 s /\
  (allowBucket l w key max now).2 = spec_allow s (window l) w key max now.
Proof.
  intros Hw Hs. unfold allowBucket, spec_allow. case_decide as Hk; [done|].
  destruct (gc_fields l now) as (Hwin & _ & _). apply (sim_gc _ _ _ _ Hw) in Hs.
  set (l1 := gcLocked l now) in *. rewrite Hwin. unfold Add.
  assert (Hp : prune (now + - window l) (default [] (buckets l1 w !! key)) = prune (now - window l) (sp_fail s w key)).
  { replace (now + - window l) with (now - window l) by lia.
    apply (sim_agree _ _ _ _ Hs). rewrite Hwin. lia. }
  simpl. split.
  - apply (sim_set K now l1 s); [done| |done|].
    + intros k. rewrite Hwin. pose proof (sim_agree _ _ _ _ Hs w k) as Hag. rewrite Hwin in Hag.
      set (c := now + - window l) in *.
      assert (agree (now - window l) (prune c (default [] (buckets l1 w !! k))) (sp_fail s w k)) as Hpr.
      { apply agree_prune; [lia|done]. }
      destruct (decide (k = key)) as [->|Hne]; case_decide as Hd.
      * rewrite lookup_delete_eq. simpl. by rewrite Hd in Hpr.
      * by rewrite lookup_insert_eq.
      * by rewrite lookup_delete_ne.
      * by rewrite lookup_insert_ne.
    + pose proof (sim_keys _ _ _ _ Hs w). case_decide as Hd; [set_solver|]. rewrite dom_insert.
      apply union_subseteq. split; [|done]. apply singleton_subseteq_l.
      destruct (buckets l1 w !! key) as [ts|] eqn:E; [|by destruct Hd].
      apply (elem_of_dom_2 _ _ _) in E. set_solver.
  - do 2 f_equal. rewrite Hp. f_equal. unfold prune. apply list_filter_iff. intros t. unfold After. apply Z.ltb_lt.
Qed.

Lemma sim_append K now l s w key :
  sim K now l s -> key ∈ K w ->
  sim K now (set_buckets l w (<[key := default [] (buckets l w !! key) ++ [now]]> (buckets l w)))
    (spec_update s w key (sp_fail s w key ++ [now])).
Proof.
  intros Hs Hk. apply (sim_set K now l s); [done| | |].
  - intros k. rewrite sp_fail_update. destruct w; (destruct (decide (k = key)) as [->|];
      [rewrite lookup_insert_eq; apply agree_app|rewrite lookup_insert_ne by done]; apply Hs).
  - intros w' k Hne. by destruct w, w'.
  - rewrite dom_insert. pose proof (sim_keys _ _ _ _ Hs w). set_solver.
Qed.
(** A key that may be recorded always finds room. *)
Lemma sim_room K now l s w key :
  sim K now l s -> key ∈ K w -> (size (K w) <= maxEntries)%nat -> buckets l w !! key = None ->
  (size (buckets l w) < maxEntries)%nat.
Proof.
  intros Hs Hk Hsize Hn. rewrite <- (size_dom (D:=gset string)).
  assert (Hsub : dom (buckets l w) ⊆ K w ∖ {[key]}).
  { apply not_elem_of_dom in Hn. pose proof (sim_keys _ _ _ _ Hs w). set_solver. }
  apply subseteq_size in Hsub. rewrite size_difference, size_singleton in Hsub by set_solver.
  assert (size (K w) <> 0%nat); [|lia]. intros H0%size_empty_iff. set_solver.
Qed.
Lemma sim_record K now l s w key n1 n :
  sim K now l s -> now <= n -> (key <> ""%string -> key ∈ K w) -> (size (K w) <= maxEntries)%nat ->
  sim K n (recordBucket l w key n1 n) (spec_fail s w key n).
Proof.
  intros Hs Hn Hk Hsize. unfold recordBucket, spec_fail. apply (sim_mono _ _ _ _ _ Hn) in Hs.
  case_decide as He; [done|]. rewrite decide_False; [by apply sim_append; auto|].
  intros [H0 H1]. pose proof (sim_room _ _ _ _ _ _ Hs (Hk He) Hsize H0). lia.
Qed.
Lemma sim_delete K now l s w key :
  sim K now l s -> sim K now (set_buckets l w (delete key (buckets l w))) (spec_update s w key []).
Proof.
  intros Hs. apply (sim_set K now l s); [done| | |].
  - intros k. rewrite sp_fail_update. destruct w; (destruct (decide (k = key)) as [->|];
      [by rewrite lookup_delete_eq|rewrite lookup_delete_ne by done; apply Hs]).
  - intros w' k Hne. by destruct w, w'.
  - rewrite dom_delete. pose proof (sim_keys _ _ _ _ Hs w). set_solver.
Qed.

Section refinement.
Context `{UnicodeTables}.

Lemma sim_success K now l s ip u :
  sim K now l s -> sim K now (RecordSuccess l ip u) (spec_success (spec_success s ByIP ip) ByUser (normalizeUserKey u)).
Proof.
  intros Hs. unfold RecordSuccess, spec_success.
  assert (Hs1 : sim K now (if decide (ip <> ""%string) then set_buckets l ByIP (delete ip (byIP l)) else l)
    (if decide (ip = ""%string) then s else spec_update s ByIP ip [])).
  { repeat case_decide; try done. by apply (sim_delete K now l s ByIP). }
  revert Hs1. generalize (if decide (ip <> ""%string) then set_buckets l ByIP (delete ip (byIP l)) else l).
  generalize (if decide (ip = ""%string) then s else spec_update s ByIP ip []).
  intros s1 l1 Hs1. repeat case_decide; try done. by apply (sim_delete K now l1 s1 ByUser).
Qed.

(** The clock never goes back. *)
Fixpoint monotone (now : time) (ops : list l_op) : Prop :=
  match ops with
  | [] => True
  | op :: ops => Forall (fun t => now <= t) (op_times op) /\
                 Sorted Z.le (op_times op) /\ monotone (List.last (op_times op) now) ops
  end.

Lemma l_exec_fields l op : window (l_exec l op).1 = window l /\ maxIP (l_exec l op).1 = maxIP l /\ maxUser (l_exec l op).1 = maxUser l.
Proof.
  assert (Hset : forall l w m, window (set_buckets l w m) = window l /\ maxIP (set_buckets l w m) = maxIP l /\ maxUser (set_buckets l w m) = maxUser l) by (intros ? [] ?; done).
  assert (Hrec : forall w k n1 n, window (recordBucket l w k n1 n) = window l /\ maxIP (recordBucket l w k n1 n) = maxIP l /\ maxUser (recordBucket l w k n1 n) = maxUser l).
  { intros w k n1 n. unfold recordBucket. repeat case_decide; rewrite ?(proj1 (Hset _ _ _)), ?(proj1 (proj2 (Hset _ _ _))), ?(proj2 (proj2 (Hset _ _ _))); try done.
    all: by destruct (gc_fields (mkLimiter (byIP l) (byUser l) (window l) (maxIP l) (maxUser l) zero_time) n1) as (-> & -> & ->). }
  assert (Hall : forall w k mx n, window (allowBucket l w k mx n).1 = window l /\ maxIP (allowBucket l w k mx n).1 = maxIP l /\ maxUser (allowBucket l w k mx n).1 = maxUser l).
  { intros w k mx n. unfold allowBucket. case_decide; [done|]. simpl. destruct (gc_fields l n) as (<- & <- & <-). apply Hset. }
  destruct op; simpl.
  - unfold AllowIP. pose proof (Hall ByIP ip (maxIP l) now) as X. by destruct (allowBucket _ _ _ _ _).
  - unfold AllowUser. pose proof (Hall ByUser (normalizeUserKey username) (maxUser l) now) as X. by destruct (allowBucket _ _ _ _ _).
  - apply Hrec.
  - apply Hrec.
  - unfold RecordSuccess. repeat case_decide; simpl; done.
Qed.

(** One step: the answers agree and the simulation goes on. *)
Lemma l_exec_sim K now l s op :
  sim K now l s -> window l <= purgeBackoff ->
  (forall w, (size (K w) <= maxEntries)%nat) -> (forall w, Forall (fun k => k <> ""%string -> k ∈ K w) (op_key w op)) ->
  Forall (fun t => now <= t) (op_times op) -> Sorted Z.le (op_times op) ->
  let (s', b) := spec_exec (window l) (maxIP l) (maxUser l) s op in
  (l_exec l op).2 = b /\ sim K (List.last (op_times op) now) (l_exec l op).1 s'.
Proof.
  intros Hs Hw Hsize Hk Ht Hsort. destruct op; simpl in *.
  - apply (sim_mono _ _ now0) in Hs; [|by inversion Ht]. unfold AllowIP.
    destruct (sim_allow K now0 l s ByIP ip (maxIP l) Hw Hs) as [? Hb].
    destruct (allowBucket _ _ _ _ _); simpl in *. by rewrite Hb.
  - apply (sim_mono _ _ now0) in Hs; [|by inversion Ht]. unfold AllowUser.
    destruct (sim_allow K now0 l s ByUser (normalizeUserKey username) (maxUser l) Hw Hs) as [? Hb].
    destruct (allowBucket _ _ _ _ _); simpl in *. by rewrite Hb.
  - split; [done|]. rewrite !Forall_cons in Ht. specialize (Hk ByIP). simpl in Hk. rewrite Forall_singleton in Hk.
    eapply sim_record; eauto; tauto.
  - split; [done|]. rewrite !Forall_cons in Ht. specialize (Hk ByUser). simpl in Hk. rewrite Forall_singleton in Hk.
    eapply sim_record; eauto; tauto.
  - split; [done|]. by apply sim_success.
Qed.

Lemma l_run_sim K now l s ops :
  sim K now l s -> window l <= purgeBackoff ->
  (forall w, (size (K w) <= maxEntries)%nat) ->
  (forall w, Forall (fun k => k <> ""%string -> k ∈ K w) (ops ≫= op_key w)) ->
  monotone now ops ->
  l_run l ops = spec_run (window l) (maxIP l) (maxUser l) s ops.
Proof.
  revert now l s. induction ops as [|op ops IH]; intros now l s Hs Hw Hsize Hk Hm; [done|].
  destruct Hm as (Ht & Hsort & Hm).
  assert (Hk1 : forall w, Forall (fun k => k <> ""%string -> k ∈ K w) (op_key w op)).
  { intros w. specialize (Hk w). simpl in Hk. by apply Forall_app in Hk as [? _]. }
  pose proof (l_exec_sim K now l s op Hs Hw Hsize Hk1 Ht Hsort) as Hstep.
  pose proof (l_exec_fields l op) as (Hf1 & Hf2 & Hf3).
  simpl. destruct (spec_exec _ _ _ s op) as [s' b]. destruct (l_exec l op) as [l' b']. simpl in *.
  destruct Hstep as [-> Hs']. f_equal. rewrite <- Hf1, <- Hf2, <- Hf3. eapply IH; eauto; [lia|].
  intros w. specialize (Hk w). by apply Forall_app in Hk as [_ ?].
Qed.

(** C7. The limiter answers like a sliding window over the complete history: on every
    history with a monotone clock that records failures under at most 50,000
    distinct addresses and 50,000 distinct names (so that [recordBucket] never has
    to drop an entry for the cap), each [AllowIP] and [AllowUser] says whether fewer
    than the configured number of failures happened in the last 15 minutes since the
    last success. Neither the pruning nor the periodic sweep ever changes an answer. *)
Theorem limiter_refines_window (K : which -> gset string) envIP envUser ops :
  (forall w, (size (K w) <= maxEntries)%nat) ->
  (forall w, Forall (fun k => k <> ""%string -> k ∈ K w) (ops ≫= op_key w)) ->
  monotone 0 ops ->
  let l := NewLoginLimiter envIP envUser in
  l_run l ops = spec_run defaultWindow (maxIP l) (maxUser l) spec_init ops.
Proof.
  intros Hsize Hk Hm l. apply (l_run_sim K 0); try done.
  split; [|intros []; simpl; set_solver]. by intros [] key c Hc.
Qed.

(** The two maps never outgrow their bound. *)
Definition bounded (l : LoginLimiter) : Prop := forall w, (size (buckets l w) <= maxEntries)%nat.
Lemma size_le_dom {A B} (m1 : gmap string A) (m2 : gmap string B) :
  dom m1 ⊆ dom m2 -> (size m1 <= size m2)%nat.
Proof. intros Hd. rewrite <- !(size_dom (D:=gset string)). by apply subseteq_size. Qed.
Lemma bounded_set l w m : bounded l -> (size m <= maxEntries)%nat -> bounded (set_buckets l w m).
Proof. intros Hb Hm w'. rewrite buckets_set. destruct w, w'; auto; apply Hb. Qed.
Lemma bounded_gc l now : bounded l -> bounded (gcLocked l now).
Proof.
  intros Hb. unfold gcLocked. destruct (_ <? _); [done|].
  intros []; simpl; (etransitivity; [eapply size_le_dom, dom_pruneLocked|]); [apply (Hb ByIP)|apply (Hb ByUser)].
Qed.
Lemma bounded_delete l w key : bounded l -> (size (delete key (buckets l w)) <= maxEntries)%nat.
Proof.
  intros Hb. etransitivity; [apply (size_le_dom _ (buckets l w))|apply Hb]. rewrite dom_delete. set_solver.
Qed.
Lemma size_insert_present {A} (m : gmap string A) k x : is_Some (m !! k) -> size (<[k:=x]> m) = size m.
Proof. intros [y Hy]. rewrite map_size_insert. by rewrite Hy. Qed.
Lemma bounded_allow l w key mx now : bounded l -> bounded (allowBucket l w key mx now).1.
Proof.
  intros Hb. unfold allowBucket. case_decide; [done|]. simpl. apply (bounded_gc l now) in Hb.
  apply bounded_set; [done|]. case_decide as Hd; [by apply bounded_delete|].
  rewrite size_insert_present; [apply Hb|]. destruct (_ !! key); [eauto|by destruct Hd].
Qed.
Lemma bounded_record l w key n1 n : bounded l -> bounded (recordBucket l w key n1 n).
Proof.
  intros Hb. unfold recordBucket. case_decide; [done|]. case_decide as Hd.
  - case_decide; [by apply bounded_gc|]. apply bounded_set; [by apply bounded_gc|].
    rewrite map_size_insert. case_match; unfold id; lia.
  - apply bounded_set; [done|]. specialize (Hb w). rewrite map_size_insert.
    destruct (buckets l w !! key) eqn:E; simpl; [done|].
    destruct (decide (maxEntries <= size (buckets l w))%nat); [|lia]. by destruct Hd.
Qed.

(** An attacker who varies addresses and names cannot exhaust memory: after
    any history each of the two maps has at most 50,000 entries. *)
Theorem limiter_bounded envIP envUser ops :
  let l := foldl (fun l op => (l_exec l op).1) (NewLoginLimiter envIP envUser) ops in
  (size (byIP l) <= maxEntries)%nat /\ (size (byUser l) <= maxEntries)%nat.
Proof.
  assert (Hb : forall l, bounded l -> bounded (foldl (fun l op => (l_exec l op).1) l ops)).
  { induction ops as [|op ops IH]; intros l Hb; simpl; [done|]. apply IH. destruct op; simpl.
    - pose proof (bounded_allow l ByIP ip (maxIP l) now Hb). unfold AllowIP. by destruct (allowBucket _ _ _ _ _).
    - pose proof (bounded_allow l ByUser (normalizeUserKey username) (maxUser l) now Hb). unfold AllowUser.
      by destruct (allowBucket _ _ _ _ _).
    - by apply bounded_record.
    - by apply bounded_record.
    - unfold RecordSuccess.
      assert (Hb1 : bounded (if decide (ip <> ""%string) then set_buckets l ByIP (delete ip (byIP l)) else l)).
      { case_decide; [|done]. apply bounded_set; [done|]. by apply (bounded_delete l ByIP). }
      revert Hb1. generalize (if decide (ip <> ""%string) then set_buckets l ByIP (delete ip (byIP l)) else l).
      intros l1 Hb1. case_decide; [|done]. apply bounded_set; [done|]. by apply (bounded_delete l1 ByUser). }
  assert (H0 : bounded (NewLoginLimiter envIP envUser)).
  { intros w. assert (Hz : buckets (NewLoginLimiter envIP envUser) w = ∅) by (by destruct w).
    rewrite Hz, map_size_empty. apply Nat.le_0_l. }
  apply Hb in H0. split; [apply (H0 ByIP)|apply (H0 ByUser)].
Qed.
End refinement.

Lemma limiter_refines_window_witness :
  let t := 1000 * hour in
  let ops := [LFailUser "Bob" t t; LFailUser " bob " (t + 1) (t + 1); LAllowUser "BOB" (t + 2);
              LAllowUser "bob" (t + 16 * minute)] in
  l_run (NewLoginLimiter "" "2") ops = [None; None; Some false; Some true].
Proof.
  intros t ops.
  rewrite (limiter_refines_window (fun w => match w with ByIP => ∅ | ByUser => {["bob"%string]} end) "" "2" ops).
  - vm_compute. reflexivity.
  - intros []; [rewrite size_empty; apply Nat.le_0_l|rewrite size_singleton; apply Nat.leb_le; vm_compute; reflexivity].
  - intros []; vm_compute; repeat constructor.
  - vm_compute. repeat (split || constructor); discriminate.
Defined.
