(* ===== verification/BridgeClients.v ===== *)
(** The attached clients of a detachable terminal bridge
    (src/internal/sshproxy/bridge_detachable.go; the telnet bridge has the same
    client table, TelnetBridge.v).

    A [clientEntry] is an object that outlives its place in the [clients] map,
    because its reader goroutine keeps the pointer: entries live in a heap and
    the map is a set of pointers. A step is one critical section of [clientMu] or
    one action of a goroutine between two of them. What a client sends takes
    three steps: it is read, it passes the test of [canWrite] or is dropped, and
    what passed is pushed to [stdinCh] (or resizes the terminal); anything may
    happen in between. [DetachUser] removes the entries under the lock and closes
    their connections afterwards, one step each; an attach registers its entry
    and writes the replay in one step. The end of the context only stops the
    loops and is left out. *)
From S2P Require Import Prelude RingBuffer GoText.
Local Open Scope Z_scope.

Inductive AttachMode := AttachModeWriter | AttachModeViewer.
#[export] Instance AttachMode_eq_dec : EqDecision AttachMode. Proof. solve_decision. Defined.
(** [*websocket.Conn] or [*StreamAttach] (a CLI channel). *)
Inductive conn_kind := ConnWebSocket | ConnStream.

(** What a message or chunk of a client asks for. *)
Inductive inbound := InData (data : list Z) | InResize (cols rows : Z).
Record clientEntry := mkClient {
  c_kind : conn_kind;
  c_canWrite : bool;
  c_userID : string;
  c_closed : bool;               (* its connection was closed *)
  c_queue : list inbound;        (* read and not tested yet: the message in hand, or perClient *)
  c_passed : option inbound      (* passed the test and not pushed yet *)
}.
Definition set_canWrite (w : bool) (c : clientEntry) : clientEntry :=
  mkClient (c_kind c) w (c_userID c) (c_closed c) (c_queue c) (c_passed c).
Definition set_closed (c : clientEntry) : clientEntry :=
  mkClient (c_kind c) (c_canWrite c) (c_userID c) true (c_queue c) (c_passed c).
Definition set_input (q : list inbound) (p : option inbound) (c : clientEntry) : clientEntry :=
  mkClient (c_kind c) (c_canWrite c) (c_userID c) (c_closed c) q p.

Inductive frame := FrameText (p : list Z) | FrameBinary (p : list Z).

Record bridge := mkBridge {
  b_clients : gset nat;
  b_entries : gmap nat clientEntry;
  b_next : nat;
  b_stdinCh : list (nat * list Z);   (* every chunk pushed, with the client it came from *)
  b_output : RingBuffer;
  b_sent : list (nat * frame);       (* frames written to clients, in order *)
  b_resizes : list (Z * Z)           (* windowChange calls *)
}.
Definition newSSHDetachableBridge (output : RingBuffer) : bridge := mkBridge ∅ ∅ 0 [] output [] [].

Definition with_clients (b : bridge) (cs : gset nat) (es : gmap nat clientEntry) : bridge :=
  mkBridge cs es (b_next b) (b_stdinCh b) (b_output b) (b_sent b) (b_resizes b).
Definition send (b : bridge) (l : list (nat * frame)) : bridge :=
  mkBridge (b_clients b) (b_entries b) (b_next b) (b_stdinCh b) (b_output b) (b_sent b ++ l) (b_resizes b).
Definition push_stdin (b : bridge) (id : nat) (data : list Z) : bridge :=
  mkBridge (b_clients b) (b_entries b) (b_next b) (b_stdinCh b ++ [(id, data)]) (b_output b) (b_sent b)
    (b_resizes b).
Definition resize (b : bridge) (cols rows : Z) : bridge :=
  mkBridge (b_clients b) (b_entries b) (b_next b) (b_stdinCh b) (b_output b) (b_sent b)
    (b_resizes b ++ [(cols, rows)]).
(** Applies [f] to the entries in [ids]. *)
Definition on_entries (ids : gset nat) (f : clientEntry -> clientEntry) (es : gmap nat clientEntry)
    : gmap nat clientEntry :=
  map_imap (fun id c => Some (if decide (id ∈ ids) then f c else c)) es.

(** The attached clients whose [canWrite] or user satisfies a test. *)
Definition clients_of (b : bridge) (userID : string) : gset nat :=
  filter (fun id => (c_userID <$> b_entries b !! id) = Some userID) (b_clients b).

(** Removing entries from the map and closing their connections. *)
Definition drop_clients (b : bridge) (ids : gset nat) : bridge :=
  with_clients b (b_clients b ∖ ids) (on_entries ids set_closed (b_entries b)).
Definition update (id : nat) (c : clientEntry) (b : bridge) : bridge := with_clients b (b_clients b) (<[id := c]> (b_entries b)).

(** [fails id]: writing to client [id] returns an error. *)
Definition broadcast_frame (fails : nat -> bool) (f : frame) (b : bridge) : bridge :=
  let dead := filter (fun id => fails id = true) (b_clients b) in
  drop_clients (send b ((fun id => (id, f)) <$> elements (b_clients b ∖ dead))) dead.
Definition broadcast (fails : nat -> bool) (p : list Z) (b : bridge) : bridge :=
  if decide (p = []) then b else broadcast_frame fails (FrameBinary p) b.
Definition broadcastText (fails : nat -> bool) (p : list Z) (b : bridge) : bridge :=
  if decide (p = []) then b else broadcast_frame fails (FrameText p) b.

Definition SetWriter (userID : string) (b : bridge) : bridge :=
  with_clients b (b_clients b)
    (on_entries (b_clients b)
       (fun c => set_canWrite (bool_decide (userID <> ""%string /\ c_userID c = userID)) c) (b_entries b)).

Definition demoteOtherWritersLocked (newEntry : nat) (b : bridge) : bridge :=
  with_clients b (b_clients b)
    (on_entries (b_clients b ∖ {[newEntry]}) (set_canWrite false) (b_entries b)).

Definition kickedEndMsg : list Z := bs "session_ended: kicked".
(** The part under the lock, then the loop over the removed entries. *)
Definition detach_remove (userID : string) (b : bridge) : bridge :=
  if decide (userID = ""%string) then b else with_clients b (b_clients b ∖ clients_of b userID) (b_entries b).
Definition detach_close (id : nat) (b : bridge) : bridge :=
  with_clients (send b [(id, FrameText kickedEndMsg)]) (b_clients b) (on_entries {[id]} set_closed (b_entries b)).
Definition DetachUser (userID : string) (b : bridge) : bridge :=
  if decide (userID = ""%string) then b
  else foldl (fun b id => detach_close id b) (detach_remove userID b) (elements (clients_of b userID)).

Definition detachEntry (id : nat) (b : bridge) : bridge := drop_clients b {[id]}.

(** Registering a new entry: the common part of the two attach functions. *)
Definition register (kind : conn_kind) (mode : AttachMode) (userID : string) (b : bridge) : bridge * nat :=
  let id := b_next b in
  let canWrite := bool_decide (mode <> AttachModeViewer) in
  let es := <[id := mkClient kind canWrite userID false [] None]> (b_entries b) in
  let b := mkBridge (b_clients b) es (S id) (b_stdinCh b) (b_output b) (b_sent b) (b_resizes b) in
  let b := if canWrite then demoteOtherWritersLocked id b else b in
  (with_clients b (b_clients b ∪ {[id]}) (b_entries b), id).
Definition attachWebSocket (mode : AttachMode) (userID : string) (writeFails : bool) (b : bridge)
    : bridge * nat :=
  let (b, id) := register ConnWebSocket mode userID b in
  let replay := Bytes (b_output b) in
  if decide (0 < length replay)%nat then
    if writeFails then (detachEntry id b, id) else (send b [(id, FrameBinary replay)], id)
  else (b, id).
Definition attachStream (mode : AttachMode) (userID : string) (writeFails : bool) (b : bridge)
    : bridge * nat :=
  let (b, id) := register ConnStream mode userID b in
  let replay := Bytes (b_output b) in
  if decide (0 < length replay)%nat then
    (if writeFails then b else send b [(id, FrameBinary replay)], id)
  else (b, id).
Definition doAttach (kind : conn_kind) (mode : AttachMode) (userID : string) (writeFails : bool)
    (b : bridge) : bridge :=
  match kind with
  | ConnWebSocket => (attachWebSocket mode userID writeFails b).1
  | ConnStream => (attachStream mode userID writeFails b).1
  end.

(** A message read from a WebSocket: its type, its bytes, and what
    [json.Unmarshal] makes of it (type, cols, rows), if it is a JSON object of
    that shape. *)
Record ws_msg := mkMsg { m_type : Z; m_data : list Z; m_json : option (list Z * Z * Z) }.
Definition TextMessage : Z := 1.
Definition BinaryMessage : Z := 2.
Definition isDataMessage (mt : Z) : bool := (mt =? TextMessage) || (mt =? BinaryMessage).
Definition resize_marker : list Z := [34] ++ bs "type" ++ [34; 58; 34] ++ bs "resize" ++ [34].
(** The size a resize message carries. *)
Definition resize_request (m : ws_msg) : option (Z * Z) :=
  if (m_type m =? TextMessage) && bool_decide (head (m_data m) = Some 123) && contains (m_data m) resize_marker
  then match m_json m with
       | Some (ty, cols, rows) =>
           if bool_decide (ty = bs "resize") && (0 <? cols) && (0 <? rows) then Some (cols, rows) else None
       | None => None
       end
  else None.
(** A message as the loop of [readWebSocket] takes it. *)
Definition ws_inbound (hasWindowChange : bool) (m : ws_msg) : option inbound :=
  match (if hasWindowChange then resize_request m else None) with
  | Some (cols, rows) => Some (InResize cols rows)
  | None => if isDataMessage (m_type m) then Some (InData (m_data m)) else None
  end.
Definition idle (c : clientEntry) : bool :=
  match c_kind c, c_queue c, c_passed c with ConnWebSocket, [], None => true | _, _, _ => false end.
(** [readWebSocket] up to the test: its goroutine reads when it has nothing in
    hand; reading from a closed connection fails, and the deferred [detachEntry]
    runs. *)
Definition readWebSocket (hasWindowChange : bool) (id : nat) (m : ws_msg) (b : bridge) : bridge :=
  match b_entries b !! id with
  | None => b
  | Some c =>
      if negb (idle c) then b
      else if c_closed c then detachEntry id b
      else match ws_inbound hasWindowChange m with Some i => update id (set_input [i] None c) b | None => b end
  end.
(** The CLI channel: the goroutine of [StartRead] queues chunks; the channel has
    room for 16, and the goroutine may hold one. Closing the client stops it at
    some later time, so that a closed client still may send. *)
Definition stream_read (id : nat) (data : list Z) (b : bridge) : bridge :=
  match b_entries b !! id with
  | Some c =>
      match c_kind c with
      | ConnStream => if decide (length (c_queue c) < 17)%nat then update id (set_input (c_queue c ++ [InData data]) (c_passed c) c) b else b
      | ConnWebSocket => b
      end
  | None => b
  end.
(** The critical section that reads [canWrite], in [readWebSocket] and in the
    forwarder of [attachStream]: what does not pass is dropped. *)
Definition test_canWrite (id : nat) (b : bridge) : bridge :=
  match b_entries b !! id with
  | Some c =>
      match c_queue c, c_passed c with
      | i :: q, None => update id (set_input q (if c_canWrite c then Some i else None) c) b
      | _, _ => b
      end
  | None => b
  end.
(** After it: [stdinCh <- data], or the call of [windowChange]. *)
Definition forward (id : nat) (b : bridge) : bridge :=
  match b_entries b !! id with
  | Some c =>
      let b' := update id (set_input (c_queue c) None c) b in
      match c_passed c with
      | Some (InData data) => push_stdin b' id data
      | Some (InResize cols rows) => resize b' cols rows
      | None => b
      end
  | None => b
  end.
(** One read of [pumpReader]. *)
Definition pumpReader (fails : nat -> bool) (p : list Z) (b : bridge) : bridge :=
  if decide (0 < length p)%nat then
    let b := mkBridge (b_clients b) (b_entries b) (b_next b) (b_stdinCh b) (fst (Write (b_output b) p))
               (b_sent b) (b_resizes b) in
    broadcast fails p b
  else b.
(** What [runStdinPump] writes to the target: the non-empty chunks in order. *)
Definition runStdinPump (b : bridge) : list Z :=
  concat (filter (fun data => data <> []) (snd <$> b_stdinCh b)).

(** ** Histories *)
Inductive b_op :=
| BSetWriter (userID : string)
| BDetachRemove (userID : string)
| BDetachClose (id : nat)
| BAttach (kind : conn_kind) (mode : AttachMode) (userID : string) (writeFails : bool)
| BDetachEntry (id : nat)
| BMessage (hasWindowChange : bool) (id : nat) (m : ws_msg)
| BStreamRead (id : nat) (data : list Z)
| BTest (id : nat)
| BForward (id : nat)
| BOutput (fails : nat -> bool) (p : list Z)
| BEnd (fails : nat -> bool) (msg : list Z).
Definition b_exec (b : bridge) (op : b_op) : bridge :=
  match op with
  | BSetWriter u => SetWriter u b
  | BDetachRemove u => detach_remove u b
  | BDetachClose id => if decide (id ∈ b_clients b) then b else detach_close id b
  | BAttach k mode u wf => doAttach k mode u wf b
  | BDetachEntry id => detachEntry id b
  | BMessage wc id m => readWebSocket wc id m b
  | BStreamRead id d => stream_read id d b
  | BTest id => test_canWrite id b
  | BForward id => forward id b
  | BOutput fails p => pumpReader fails p b
  | BEnd fails msg => broadcastText fails msg b
  end.
Definition b_run (b : bridge) (ops : list b_op) : bridge := foldl b_exec b ops.

(** An attached client that may write. *)
Definition writer (b : bridge) (id : nat) (c : clientEntry) : Prop :=
  id ∈ b_clients b /\ b_entries b !! id = Some c /\ c_canWrite c = true.
Record bridge_wf (b : bridge) : Prop := {
  bw_fresh : forall id, (b_next b <= id)%nat -> b_entries b !! id = None /\ id ∉ b_clients b;
  (* all writers belong to one user *)
  bw_writers : forall i j ci cj, writer b i ci -> writer b j cj -> c_userID ci = c_userID cj
}.
(** Every writer belongs to [u]. *)
Definition token_at (u : string) (b : bridge) : Prop := forall id c, writer b id c -> c_userID c = u.

Lemma lookup_on_entries ids f es id :
  on_entries ids f es !! id = (fun c => if decide (id ∈ ids) then f c else c) <$> es !! id.
Proof. unfold on_entries. rewrite map_lookup_imap. by destruct (es !! id). Qed.

(** Any change that attaches nobody, changes no user and promotes nobody keeps
    the invariant and the token. *)
Definition no_more (b b' : bridge) : Prop :=
  b_next b' = b_next b /\ b_clients b' ⊆ b_clients b /\
  forall id c', b_entries b' !! id = Some c' -> exists c, b_entries b !! id = Some c /\ c_userID c' = c_userID c /\ c_canWrite c' = c_canWrite c.
#[export] Instance no_more_preorder : PreOrder no_more.
Proof.
  split; [intros b; split_and!; [done|done|eauto]|]. intros b1 b2 b3 (H1 & H2 & H3) (H4 & H5 & H6). split_and!; [congruence|set_solver|].
  intros id c3 Hl. destruct (H6 _ _ Hl) as (c2 & Hl2 & Hu & Hw). destruct (H3 _ _ Hl2) as (c1 & Hl1 & Hu' & Hw'). exists c1. split_and!; congruence.
Qed.
Lemma shrink b b' : no_more b b' -> (bridge_wf b -> bridge_wf b') /\ (forall u, token_at u b -> token_at u b').
Proof.
  intros (Hn & Hc & He).
  assert (Hw : forall id c', writer b' id c' -> exists c, writer b id c /\ c_userID c = c_userID c').
  { intros id c' (Hin & Hl & Hcw). destruct (He _ _ Hl) as (c & Hl' & Hu & Hp). exists c.
    split; [|done]. split; [by apply Hc|]. split; [done|congruence]. }
  split.
  - intros [Hf Hwr]. split.
    + intros id Hle. rewrite Hn in Hle. destruct (Hf _ Hle) as [Hl Hin]. split; [|set_solver].
      destruct (b_entries b' !! id) eqn:E; [|done]. destruct (He _ _ E) as (? & ? & _). congruence.
    + intros i j ci cj Hi Hj. destruct (Hw _ _ Hi) as (ci' & Hi' & <-). destruct (Hw _ _ Hj) as (cj' & Hj' & <-).
      eauto.
  - intros u Ht id c' Hid. destruct (Hw _ _ Hid) as (c & Hid' & <-). eauto.
Qed.
Lemma no_more_closed b ids cs : cs ⊆ b_clients b -> no_more b (with_clients b cs (on_entries ids set_closed (b_entries b))).
Proof.
  intros Hcs. split_and!; [done|done|]. intros id c'. simpl. rewrite lookup_on_entries, fmap_Some. intros (c & Hl & ->). exists c.
  split; [done|]. by case_decide.
Qed.
Lemma no_more_update b id c q p : b_entries b !! id = Some c -> no_more b (update id (set_input q p c) b).
Proof.
  intros Hl. split_and!; [done|done|]. intros id' c'. simpl. rewrite lookup_insert_Some.
  intros [[<- <-]|[Hne Hl']]; [by exists c|by exists c'].
Qed.
Lemma drop_clients_no_more b ids : no_more b (drop_clients b ids).
Proof. apply no_more_closed. set_solver. Qed.
Lemma same_table b b' : b_next b' = b_next b -> b_clients b' = b_clients b -> b_entries b' = b_entries b -> no_more b b'.
Proof. intros Hn Hc He. unfold no_more. rewrite Hn, Hc, He. split_and!; [done|done|eauto]. Qed.
Lemma broadcast_frame_no_more fails f b : no_more b (broadcast_frame fails f b).
Proof. unfold broadcast_frame. etrans; [|apply drop_clients_no_more]. by apply same_table. Qed.
Lemma detach_remove_no_more u b : no_more b (detach_remove u b).
Proof. unfold detach_remove. case_decide; [done|]. split_and!; [done|simpl; set_solver|eauto]. Qed.
Lemma detach_close_no_more id b : no_more b (detach_close id b).
Proof. by apply (no_more_closed b {[id]} (b_clients b)). Qed.
Lemma DetachUser_no_more u b : no_more b (DetachUser u b).
Proof.
  unfold DetachUser. case_decide; [reflexivity|]. etrans; [apply (detach_remove_no_more u)|].
  generalize (detach_remove u b). induction (elements (clients_of b u)) as [|id ids IH]; intros b1; simpl; [reflexivity|].
  etrans; [apply detach_close_no_more|apply IH].
Qed.

(** Giving the token to [u], and attaching. *)
Lemma SetWriter_ok u b : bridge_wf b -> bridge_wf (SetWriter u b) /\ token_at u (SetWriter u b).
Proof.
  intros [Hf Hw].
  assert (Ht : token_at u (SetWriter u b)).
  { intros id c (Hin & Hl & Hcw). simpl in *. rewrite lookup_on_entries, fmap_Some in Hl.
    destruct Hl as (c0 & _ & ->). rewrite decide_True in * by done. simpl in *.
    by apply bool_decide_eq_true_1 in Hcw as [_ ?]. }
  split; [|done]. split.
  - intros id Hle. simpl. rewrite lookup_on_entries. destruct (Hf _ Hle) as [-> ?]. done.
  - intros i j ci cj Hi Hj. rewrite (Ht _ _ Hi), (Ht _ _ Hj). done.
Qed.
Lemma demote_writer b newEntry id c :
  writer (demoteOtherWritersLocked newEntry b) id c -> id = newEntry.
Proof.
  intros (Hin & Hl & Hcw). simpl in *. rewrite lookup_on_entries, fmap_Some in Hl.
  destruct Hl as (c0 & _ & ->). destruct (decide (id = newEntry)); [done|].
  rewrite decide_True in Hcw by set_solver. done.
Qed.
Lemma not_in_add (X : gset nat) i x : i ∉ X ∪ {[x]} <-> i ∉ X /\ i <> x.
Proof. rewrite not_elem_of_union, not_elem_of_singleton. done. Qed.
Lemma in_add_others (X : gset nat) i x : i ∈ X ∪ {[x]} -> i <> x -> i ∈ X ∖ {[x]}.
Proof. rewrite elem_of_union, elem_of_difference, elem_of_singleton. tauto. Qed.
Lemma not_in_others (X : gset nat) i x : i ∉ X \/ i = x -> i ∉ X ∖ {[x]}.
Proof. rewrite elem_of_difference, elem_of_singleton. tauto. Qed.

(** The table after registering a writer: everybody else is demoted. *)
Lemma register_writer_entries kind u b id c :
  b_entries (register kind AttachModeWriter u b).1 !! id = Some c ->
  (id = b_next b /\ b_next b ∉ b_clients b -> c = mkClient kind true u false [] None) /\
  (id <> b_next b -> exists c0, b_entries b !! id = Some c0 /\
     c = if decide (id ∈ b_clients b) then set_canWrite false c0 else c0).
Proof.
  unfold register. simpl. rewrite lookup_on_entries, fmap_Some. intros (c0 & Hl & ->). split.
  - intros [-> Hn]. rewrite lookup_insert_eq in Hl. injection Hl as <-.
    rewrite decide_False; [done|]. apply not_in_others. by left.
  - intros Hne. rewrite lookup_insert_ne in Hl by done. exists c0. split; [done|].
    destruct (decide (id ∈ b_clients b)) as [Hin|Hni].
    + rewrite decide_True; [done|]. apply in_add_others; [|done]. apply elem_of_union. by left.
    + rewrite decide_False; [done|]. apply not_in_others. by left.
Qed.
Lemma register_writer_only kind u b id c :
  writer (register kind AttachModeWriter u b).1 id c -> id = b_next b.
Proof.
  intros (Hin & Hl & Hcw). destruct (decide (id = b_next b)) as [|Hne]; [done|].
  apply register_writer_entries in Hl as [_ Hl]. destruct (Hl Hne) as (c0 & _ & ->).
  change (id ∈ b_clients b ∪ {[b_next b]}) in Hin. apply elem_of_union in Hin as [Hin|Hin%elem_of_singleton]; [|done].
  by rewrite decide_True in Hcw.
Qed.
Lemma register_viewer_entries kind u b id :
  b_entries (register kind AttachModeViewer u b).1 !! id =
  if decide (id = b_next b) then Some (mkClient kind false u false [] None) else b_entries b !! id.
Proof.
  unfold register. simpl. case_decide as Hd; [subst; by rewrite lookup_insert_eq|by rewrite lookup_insert_ne].
Qed.
Lemma register_viewer_writer kind u b id c :
  writer (register kind AttachModeViewer u b).1 id c -> writer b id c.
Proof.
  intros (Hin & Hl & Hcw). rewrite register_viewer_entries in Hl. case_decide as Hd; [by simplify_eq|].
  split; [|done]. change (id ∈ b_clients b ∪ {[b_next b]}) in Hin.
  by apply elem_of_union in Hin as [Hin|Hin%elem_of_singleton].
Qed.
Lemma register_frame kind mode u b :
  b_next (register kind mode u b).1 = S (b_next b) /\
  b_clients (register kind mode u b).1 = b_clients b ∪ {[b_next b]}.
Proof. unfold register. by destruct mode. Qed.

Lemma register_ok kind mode u b :
  bridge_wf b ->
  bridge_wf (register kind mode u b).1 /\
  (forall t, token_at t b -> mode = AttachModeViewer \/ u = t -> token_at t (register kind mode u b).1).
Proof.
  intros [Hf Hw]. destruct (register_frame kind mode u b) as [Hn Hc].
  destruct (Hf (b_next b) (le_n _)) as [_ Hn0].
  split; [split|].
  - intros id Hle. rewrite Hn in Hle. destruct (Hf id ltac:(lia)) as [Hl Hni]. split.
    + destruct (b_entries (register kind mode u b).1 !! id) as [c|] eqn:E; [|done]. destruct mode.
      * apply register_writer_entries in E as [_ E]. destruct (E ltac:(lia)) as (? & ? & _). congruence.
      * rewrite register_viewer_entries, decide_False in E by lia. congruence.
    + rewrite Hc. apply not_in_add. split; [done|lia].
  - intros i j ci cj Hi Hj. destruct mode.
    + pose proof (register_writer_only _ _ _ _ _ Hi). pose proof (register_writer_only _ _ _ _ _ Hj). subst.
      destruct Hi as (_ & ? & _), Hj as (_ & ? & _). congruence.
    + apply register_viewer_writer in Hi, Hj. eauto.
  - intros t Ht Hor id c Hid. destruct mode.
    + pose proof (register_writer_only _ _ _ _ _ Hid) as ->. destruct Hid as (_ & Hl & _).
      apply register_writer_entries in Hl as [Hl _]. rewrite Hl by done. simpl. by destruct Hor.
    + apply register_viewer_writer in Hid. eauto.
Qed.

(** What an operation may do to the token: only [SetWriter] and the attach of a
    writer can give it to somebody. *)
Definition gives_token (op : b_op) : option string :=
  match op with
  | BSetWriter u => Some u
  | BAttach _ AttachModeWriter u _ => Some u
  | _ => None
  end.
Lemma doAttach_no_more kind mode u wf b : no_more (register kind mode u b).1 (doAttach kind mode u wf b).
Proof.
  unfold doAttach, attachWebSocket, attachStream. destruct kind;
    match goal with |- context [register ?k mode u b] => destruct (register k mode u b) as [b1 id] end; cbn [fst]; case_decide; try reflexivity;
    destruct wf; cbn [fst]; first [reflexivity|apply drop_clients_no_more|by apply same_table].
Qed.
Lemma doAttach_ok kind mode u wf b :
  bridge_wf b ->
  bridge_wf (doAttach kind mode u wf b) /\
  (forall t, token_at t b -> mode = AttachModeViewer \/ u = t -> token_at t (doAttach kind mode u wf b)).
Proof.
  intros Hb. destruct (register_ok kind mode u b Hb) as [H1 H2].
  destruct (shrink _ _ (doAttach_no_more kind mode u wf b)) as [H3 H4]. eauto.
Qed.
Lemma attach_sole kind u wf b id c : bridge_wf b -> writer (doAttach kind AttachModeWriter u wf b) id c -> c_userID c = u.
Proof.
  intros Hb. destruct (shrink _ _ (doAttach_no_more kind AttachModeWriter u wf b)) as [_ Hk]. revert id c. apply Hk.
  intros id c Hw. pose proof (register_writer_only _ _ _ _ _ Hw) as ->. destruct Hw as (_ & Hl & _).
  apply register_writer_entries in Hl as [Hl _]. destruct (bw_fresh _ Hb (b_next b) (le_n _)) as [_ Hn]. by rewrite (Hl (conj eq_refl Hn)).
Qed.
(** Everything but attaching and [SetWriter]. *)
Lemma b_exec_no_more b op : gives_token op = None -> (forall k m u wf, op <> BAttach k m u wf) -> no_more b (b_exec b op).
Proof.
  intros Hg Ha. destruct op; simpl in *; [done|apply detach_remove_no_more| |by edestruct Ha|apply drop_clients_no_more|..].
  - case_decide; [done|apply detach_close_no_more].
  - unfold readWebSocket. destruct (b_entries b !! id) as [c|] eqn:E; [|done]. destruct (idle c); [|done]. cbn [negb].
    destruct (c_closed c); [apply drop_clients_no_more|]. destruct (ws_inbound _ _); [by apply no_more_update|done].
  - unfold stream_read. destruct (b_entries b !! id) as [c|] eqn:E; [|done]. destruct (c_kind c); [done|].
    case_decide; [by apply no_more_update|done].
  - unfold test_canWrite. destruct (b_entries b !! id) as [c|] eqn:E; [|done].
    destruct (c_queue c) as [|i q]; [done|]. destruct (c_passed c); [done|by apply no_more_update].
  - unfold forward. destruct (b_entries b !! id) as [c|] eqn:E; [|done]. pose proof (no_more_update b id c (c_queue c) None E) as Hu.
    destruct (c_passed c) as [[]|]; [| |done]; (etrans; [exact Hu|by apply same_table]).
  - unfold pumpReader, broadcast. case_decide; [|done]. case_decide; [by apply same_table|].
    etrans; [|apply broadcast_frame_no_more]. by apply same_table.
  - unfold broadcastText. case_decide; [done|]. apply broadcast_frame_no_more.
Qed.
Lemma b_exec_ok b op :
  bridge_wf b ->
  bridge_wf (b_exec b op) /\ (forall t, token_at t b -> gives_token op = None \/ gives_token op = Some t -> token_at t (b_exec b op)).
Proof.
  intros Hb.
  assert (Ho : gives_token op = None -> (forall k m u wf, op <> BAttach k m u wf) ->
    bridge_wf (b_exec b op) /\ (forall t, token_at t b -> gives_token op = None \/ gives_token op = Some t -> token_at t (b_exec b op)))
    by (intros Hg Ha; destruct (shrink _ _ (b_exec_no_more b op Hg Ha)); eauto).
  destruct op; try (by apply Ho).
  - destruct (SetWriter_ok userID b Hb) as [? Ht]. split; [done|]. intros t _ [|[= <-]]; done.
  - destruct (doAttach_ok kind mode userID writeFails b Hb) as [? Ht]. split; [done|].
    intros t Htok Hg. apply Ht; [done|]. destruct mode; [right|by left]. destruct Hg; naive_solver.
Qed.
Lemma b_run_wf b ops : bridge_wf b -> bridge_wf (b_run b ops).
Proof. revert b. induction ops; intros b Hb; simpl; [done|]. by apply IHops, b_exec_ok. Qed.
Lemma new_bridge_wf out : bridge_wf (newSSHDetachableBridge out).
Proof. split; [done|]. intros i j ci cj (Hi & _). by apply not_elem_of_empty in Hi. Qed.

(** In every state a bridge can reach, the attached clients that may type
    all belong to one user: two participants never drive the same terminal. *)
Theorem writers_belong_to_one_user out ops i j ci cj :
  let b := b_run (newSSHDetachableBridge out) ops in
  writer b i ci -> writer b j cj -> c_userID ci = c_userID cj.
Proof. intros b. apply (b_run_wf _ ops (new_bridge_wf out)). Qed.

(** A client that attaches as a writer is the only one: resuming a session
    elsewhere takes the keyboard away from every other client, including the
    same user's. *)
Theorem attach_writer_is_sole_writer b kind u wf id c :
  writer (b_exec b (BAttach kind AttachModeWriter u wf)) id c -> id = b_next b.
Proof.
  intros Hw. apply (register_writer_only kind u b id c). revert Hw.
  unfold b_exec, doAttach, attachWebSocket, attachStream.
  destruct kind; destruct (register _ AttachModeWriter u b) as [b1 id1]; cbn [fst]; case_decide; try done;
    destruct wf; try done.
  intros (Hin & Hl & Hcw). simpl in *. apply elem_of_difference in Hin as [Hin Hni].
  rewrite lookup_on_entries, fmap_Some in Hl. destruct Hl as (c0 & Hl & ->).
  rewrite decide_False in Hcw |- * by done. split; [done|]. by split.
Qed.



(** No detaching is under way: the connection of every browser that was
    detached is closed. *)
Definition settled (b : bridge) : Prop := forall id c, b_entries b !! id = Some c -> id ∉ b_clients b -> c_kind c = ConnWebSocket -> c_closed c = true.

Lemma DetachUser_table u b : u <> ""%string -> b_clients (DetachUser u b) = b_clients b ∖ clients_of b u /\
  b_entries (DetachUser u b) = on_entries (clients_of b u) set_closed (b_entries b).
Proof.
  intros Hu. unfold DetachUser. rewrite decide_False by done.
  assert (Hfold : forall ids b1, b_clients (foldl (fun b id => detach_close id b) b1 ids) = b_clients b1 /\
    b_entries (foldl (fun b id => detach_close id b) b1 ids) = on_entries (list_to_set ids) set_closed (b_entries b1)).
  { induction ids as [|id ids IH]; intros b1; simpl.
    - split; [done|]. apply map_eq. intros j. rewrite lookup_on_entries. destruct (b_entries b1 !! j); simpl; [|done].
      by rewrite decide_False by apply not_elem_of_empty.
    - destruct (IH (detach_close id b1)) as [-> ->]. split; [done|]. apply map_eq. intros j. rewrite !lookup_on_entries. simpl. rewrite lookup_on_entries.
      destruct (b_entries b1 !! j) as [c|]; [|done]. simpl. f_equal. repeat case_decide; set_solver. }
  destruct (Hfold (elements (clients_of b u)) (detach_remove u b)) as [-> ->]. unfold detach_remove. rewrite decide_False by done. simpl.
  by rewrite list_to_set_elements_L.
Qed.
(** A bridge whose calls to [DetachUser] run to their end is settled. *)
Lemma DetachUser_settled u b : settled b -> settled (DetachUser u b).
Proof.
  intros Hs. destruct (decide (u = ""%string)) as [->|Hu]; [exact Hs|]. destruct (DetachUser_table u b Hu) as [Hc He].
  intros id c. rewrite Hc, He, lookup_on_entries, fmap_Some. intros (c0 & Hl & ->) Hn. case_decide as Hd; [done|].
  apply (Hs id); [done|]. intros Hin. apply Hn, elem_of_difference. done.
Qed.


(** [SetWriter] does not leave at most one active writer, as its comment
    promises: every attached client of the chosen user becomes one. *)
Theorem set_writer_promotes_all b u id c :
  u <> ""%string -> id ∈ b_clients b -> b_entries b !! id = Some c -> c_userID c = u ->
  writer (SetWriter u b) id (set_canWrite true c).
Proof.
  intros Hne Hin Hl Hu. split; [done|]. split; [|done]. simpl. rewrite lookup_on_entries, Hl. simpl.
  rewrite decide_True by done. do 2 f_equal. by apply bool_decide_eq_true.
Qed.

Definition demo_bridge : bridge :=
  b_run (newSSHDetachableBridge (NewRingBuffer 8))
    [BOutput (fun _ => false) [36]; BAttach ConnWebSocket AttachModeWriter "alice" false;
     BAttach ConnWebSocket AttachModeViewer "bob" false; BAttach ConnStream AttachModeViewer "bob" false].
Lemma demo_bridge_wf : bridge_wf demo_bridge.
Proof. apply b_run_wf, new_bridge_wf. Qed.
Lemma writers_belong_to_one_user_witness :
  exists ci cj, writer (b_run (newSSHDetachableBridge (NewRingBuffer 8))
    [BAttach ConnWebSocket AttachModeViewer "bob" false; BAttach ConnStream AttachModeViewer "bob" false; BSetWriter "bob"]) 0%nat ci /\
    c_userID ci = c_userID cj.
Proof.
  eexists _, _. split; [split; [vm_compute; reflexivity|split; [vm_compute; reflexivity|vm_compute; reflexivity]]|].
  apply (writers_belong_to_one_user (NewRingBuffer 8)
    [BAttach ConnWebSocket AttachModeViewer "bob" false; BAttach ConnStream AttachModeViewer "bob" false; BSetWriter "bob"] 0 1);
  (split; [vm_compute; reflexivity|split; [vm_compute; reflexivity|vm_compute; reflexivity]]).
Defined.
Lemma attach_writer_is_sole_writer_witness :
  writer (b_exec demo_bridge (BAttach ConnStream AttachModeWriter "bob" false)) 3%nat
    (mkClient ConnStream true "bob" false [] None) /\ 3%nat = b_next demo_bridge.
Proof.
  assert (Hw : writer (b_exec demo_bridge (BAttach ConnStream AttachModeWriter "bob" false)) 3%nat
    (mkClient ConnStream true "bob" false [] None)).
  { split; [vm_compute; reflexivity|split; [vm_compute; reflexivity|reflexivity]]. }
  split; [exact Hw|]. apply (attach_writer_is_sole_writer _ _ _ _ _ _ Hw).
Defined.
(** A chunk of Alice passes the test, then Bob gets the token: that chunk still
    arrives, her next one does not, and Bob's does. *)
Definition demo_input (id : nat) (c : Z) : list b_op := [BMessage true id (mkMsg BinaryMessage [c] None); BTest id; BForward id].
(** A browser that may write types a chunk: it is read, passes and arrives. *)
Lemma writer_input_arrives b id c m : b_entries b !! id = Some c -> idle c = true -> c_closed c = false -> c_canWrite c = true ->
  ws_inbound true m = Some (InData (m_data m)) ->
  b_stdinCh (b_run b [BMessage true id m; BTest id; BForward id]) = b_stdinCh b ++ [(id, m_data m)].
Proof.
  intros Hc Hi Hcl Hw Hm. unfold b_run. cbn [foldl b_exec]. unfold readWebSocket. rewrite Hc, Hi, Hcl, Hm. cbn [negb].
  assert (Hp : c_passed c = None) by (unfold idle in Hi; by destruct (c_kind c), (c_queue c), (c_passed c)).
  unfold test_canWrite, forward. simpl. rewrite lookup_insert_eq. simpl. rewrite lookup_insert_eq. simpl. by rewrite Hw.
Qed.
Lemma writer_input_arrives_witness : b_stdinCh (b_run demo_bridge (demo_input 0 120)) = [(0%nat, [120])].
Proof.
  unfold demo_input. rewrite (writer_input_arrives demo_bridge 0 (mkClient ConnWebSocket true "alice" false [] None) (mkMsg BinaryMessage [120] None));
    vm_compute; reflexivity.
Defined.
(** Detaching a user leaves the [canWrite] of the removed entries: what a CLI
    client with the token has queued goes on to the terminal after the user was
    put out and the token was given to somebody else. *)
Definition demo_kicked : bridge :=
  SetWriter "bob" (DetachUser "carol" (b_run demo_bridge [BAttach ConnStream AttachModeWriter "carol" false; BStreamRead 3 [120]; BStreamRead 3 [121]])).
Lemma detached_cli_keeps_typing :
  3%nat ∉ b_clients demo_kicked /\ token_at "bob" demo_kicked /\
  b_stdinCh (b_run demo_kicked [BTest 3; BForward 3; BTest 3; BForward 3]) = [(3%nat, [120]); (3%nat, [121])].
Proof.
  split; [apply (bool_decide_unpack _); vm_compute; exact I|]. split; [|vm_compute; reflexivity].
  apply SetWriter_ok, shrink with (1 := DetachUser_no_more _ _). apply b_run_wf, demo_bridge_wf.
Qed.
Lemma set_writer_promotes_all_witness :
  writer (SetWriter "bob" demo_bridge) 1%nat (mkClient ConnWebSocket true "bob" false [] None) /\
  writer (SetWriter "bob" demo_bridge) 2%nat (mkClient ConnStream true "bob" false [] None).
Proof.
  split.
  - apply (set_writer_promotes_all demo_bridge "bob" 1 (mkClient ConnWebSocket false "bob" false [] None));
      [discriminate|vm_compute; reflexivity|vm_compute; reflexivity|reflexivity].
  - apply (set_writer_promotes_all demo_bridge "bob" 2 (mkClient ConnStream false "bob" false [] None));
      [discriminate|vm_compute; reflexivity|vm_compute; reflexivity|reflexivity].
Defined.
