(* ===== verification/CliFilter.v ===== *)
(** The filter between a target and the terminal of an SSH gateway user
    (src/internal/sshd/cli_output_filter.go): it rewrites cursor movements that
    would enter the header lines, drops scroll-region changes and turns a full
    clear into a redraw of the header.

    Byte strings are lists of [Z]. The writer below the filter is a parameter:
    it may fail at any write. A failed index is the outcome [Panicked]; no
    goroutine of the gateway recovers, so it ends the server process. *)
From S2P Require Import Prelude GoText.
Local Open Scope Z_scope.

Definition esc : Z := 27.
Definition ansiRedrawHeader : list Z := 0 :: bs "vantyx-redraw-header".
Definition ansiSuppress : list Z := 0 :: bs "vantyx-suppress".

(** ** Numbers *)

Fixpoint atoi_from (n : Z) (b : list Z) : Z :=
  match b with
  | [] => n
  | c :: b => if (c <? 48) || (57 <? c) then n else atoi_from (int64 (n * 10 + (c - 48))) b
  end.
Definition atoiBytes (b : list Z) : Z := atoi_from 0 b.

(** The loop of [itoa] fills its 12-byte buffer from the end; [i] is the number
    of free bytes. [None]: index out of range. *)
Fixpoint itoa_loop (i : nat) (n : Z) (filled : list Z) : option (list Z) :=
  if 0 <? n then
    match i with
    | O => None
    | S i => itoa_loop i (n `quot` 10) (48 + n `rem` 10 :: filled)
    end
  else Some filled.
Definition itoa (n : Z) : option (list Z) :=
  if n =? 0 then Some (bs "0") else itoa_loop 12 n [].

(** ** Control sequences *)

Definition parseCSIRowCol (body : list Z) : option (Z * Z) :=
  if bool_decide (body = []) then None
  else
    match split_byte body 59 with
    | [] => Some (1, 1)
    | p0 :: parts =>
        let row := if bool_decide (p0 = []) then 1 else atoiBytes p0 in
        let col := match parts with
                   | p1 :: _ => if bool_decide (p1 = []) then 1 else atoiBytes p1
                   | [] => 1
                   end in
        Some (row, col)
    end.

Definition formatCSIRowCol (row col : Z) : option (list Z) :=
  let row := if row <? 1 then 1 else row in
  let col := if col <? 1 then 1 else col in
  if (row =? 1) && (col =? 1) then Some []
  else
    match itoa row, itoa col with
    | Some r, Some c => Some (r ++ [59] ++ c)
    | _, _ => None
    end.

(** [None]: [itoa] panicked. *)
Definition rewriteCSI (seq : list Z) (headerLines : Z) : option (list Z) :=
  if Z.of_nat (length seq) <? 3 then Some seq
  else
    let body := take (length seq - 3) (drop 2 seq) in
    let final := List.last seq 0 in
    let first := headerLines + 1 in
    if (final =? 72) || (final =? 102) then
      match parseCSIRowCol body with
      | None => Some seq
      | Some (row, col) =>
          let row := if (0 <? row) && (row <? first) then first else row in
          match formatCSIRowCol row col with
          | Some s => Some ([esc; 91] ++ s ++ [final])
          | None => None
          end
      end
    else if final =? 114 then Some ansiSuppress
    else if final =? 74 then
      if bool_decide (body = bs "2") || bool_decide (body = bs "3") then Some ansiRedrawHeader
      else Some seq
    else Some seq.

(** The bytes from [ESC] on: the sequence is incomplete ([esc == nil]), it is
    replaced by [out] and [rest] follows, or the call panicked. *)
Inductive consumed :=
| NeedMore
| Consumed (rest out : list Z)
| ConsumePanic.

(** The bytes up to the final byte of the sequence, and what follows. *)
Fixpoint csi_split (b : list Z) : option (list Z * list Z) :=
  match b with
  | [] => None
  | c :: b =>
      if (0x40 <=? c) && (c <=? 0x7e) then Some ([c], b)
      else match csi_split b with
           | Some (body, rest) => Some (c :: body, rest)
           | None => None
           end
  end.
Definition consumeCSI (b : list Z) (headerLines : Z) : consumed :=
  match csi_split (drop 2 b) with
  | None => NeedMore
  | Some (tl, rest) =>
      match rewriteCSI (take 2 b ++ tl) headerLines with
      | Some out => Consumed rest out
      | None => ConsumePanic
      end
  end.
Definition consumeANSI (b : list Z) (headerLines : Z) : consumed :=
  match b with
  | x :: y :: rest =>
      if negb (x =? esc) then NeedMore
      else if y =? 91 then consumeCSI b headerLines
      else Consumed rest [x; y]
  | _ => NeedMore
  end.

(** ** The writer *)

Inductive output :=
| Text (b : list Z)
| RedrawHeader.
Inductive status := Done | WriteError | Panicked.
#[export] Instance output_eq_dec : EqDecision output.
Proof. solve_decision. Defined.
#[export] Instance status_eq_dec : EqDecision status.
Proof. solve_decision. Defined.

Record cliOutputFilter := mkFilter {
  buf : list Z;
  headerLines : Z;
  onFullClear : bool;   (** whether the callback is set *)
  sent : list output    (** what reached the writer below, oldest first *)
}.
Definition newCLIOutputFilter (h : Z) : cliOutputFilter := mkFilter [] h false [].
Definition set_buf (f : cliOutputFilter) (b : list Z) := mkFilter b (headerLines f) (onFullClear f) (sent f).
Definition add_sent (f : cliOutputFilter) (o : output) :=
  mkFilter (buf f) (headerLines f) (onFullClear f) (sent f ++ [o]).

Section writer.
(** Does the writer below fail, given what it wrote before? *)
Variable fails : list output -> output -> bool.

Definition send (f : cliOutputFilter) (o : output) : result unit cliOutputFilter :=
  if fails (sent f) o then Err () else Ok (add_sent f o).

(** The text before the escape character, at position [idx]. *)
Definition flush_text (f : cliOutputFilter) (idx : nat) : result unit cliOutputFilter :=
  if (0 <? idx)%nat
  then let? f1 := send f (Text (take idx (buf f))) in Ok (set_buf f1 (drop idx (buf f)))
  else Ok f.
Definition emit_sequence (f : cliOutputFilter) (out : list Z) : result unit cliOutputFilter :=
  if bool_decide (out = ansiRedrawHeader) then (if onFullClear f then send f RedrawHeader else Ok f)
  else if bool_decide (out = ansiSuppress) then Ok f
  else send f (Text out).

(** One pass through the body of [Write]'s loop: [None] continues it. *)
Definition iteration (f : cliOutputFilter) : cliOutputFilter * option status :=
  match index_byte (buf f) esc with
  | None =>
      if bool_decide (buf f = []) then (f, Some Done)
      else
        match send f (Text (buf f)) with
        | Err _ => (f, Some WriteError)
        | Ok f => (set_buf f [], Some Done)
        end
  | Some idx =>
      match flush_text f idx with
      | Err _ => (f, Some WriteError)
      | Ok f =>
          match consumeANSI (buf f) (headerLines f) with
          | NeedMore => (f, Some Done)
          | ConsumePanic => (f, Some Panicked)
          | Consumed rem out =>
              match emit_sequence f out with
              | Err _ => (f, Some WriteError)
              | Ok f => (set_buf f rem, None)
              end
          end
      end
  end.

(** [None]: out of fuel. *)
Fixpoint write_loop (fuel : nat) (f : cliOutputFilter) : option (cliOutputFilter * status) :=
  match fuel with
  | O => None
  | S fuel =>
      match iteration f with
      | (f, Some st) => Some (f, st)
      | (f, None) => write_loop fuel f
      end
  end.
Definition Write (f : cliOutputFilter) (p : list Z) : option (cliOutputFilter * status) :=
  write_loop (S (length (buf f ++ p))) (set_buf f (buf f ++ p)).

(** The chunks of a stream, until a write fails. *)
Fixpoint write_chunks (f : cliOutputFilter) (chunks : list (list Z)) : option (cliOutputFilter * status) :=
  match chunks with
  | [] => Some (f, Done)
  | p :: chunks =>
      match Write f p with
      | Some (f, Done) => write_chunks f chunks
      | r => r
      end
  end.
End writer.

(** ** Lemmas about one sequence *)

Lemma csi_split_app b q tl rest :
  csi_split b = Some (tl, rest) -> csi_split (b ++ q) = Some (tl, rest ++ q).
Proof.
  revert tl. induction b as [|c b IH]; intros tl H; simpl in *; [done|].
  destruct (_ && _); [by simplify_eq|].
  destruct (csi_split b) as [[body r]|]; simplify_eq. by rewrite (IH body).
Qed.
(** The sequence is the bytes up to the first final byte. *)
Lemma csi_split_spec b tl rest :
  csi_split b = Some (tl, rest) ->
  exists body final, tl = body ++ [final] /\ b = tl ++ rest /\ 0x40 <= final <= 0x7e /\
    Forall (fun c => ~ (0x40 <= c <= 0x7e)) body.
Proof.
  revert tl. induction b as [|c b IH]; intros tl H; simpl in *; [done|].
  destruct (_ && _) eqn:E.
  - simplify_eq. exists [], c. apply andb_true_iff in E. rewrite !Z.leb_le in E. done.
  - destruct (csi_split b) as [[body r]|] eqn:Eb; simplify_eq.
    destruct (IH body) as (bd & fin & -> & -> & Hfin & Hbd); [done|].
    exists (c :: bd), fin. repeat split; [done..|lia|lia|].
    constructor; [|done]. intros [??]. apply andb_false_iff in E. rewrite !Z.leb_gt in E. lia.
Qed.
Lemma csi_split_none b : csi_split b = None <-> Forall (fun c => ~ (0x40 <= c <= 0x7e)) b.
Proof.
  induction b as [|c b IH]; simpl; [done|]. rewrite Forall_cons.
  destruct (_ && _) eqn:E.
  - apply andb_true_iff in E. rewrite !Z.leb_le in E. split; [done|]. intros [H _]. lia.
  - rewrite <- IH. apply andb_false_iff in E. rewrite !Z.leb_gt in E.
    destruct (csi_split b) as [[]|]; split; [done|by intros [??]| |done].
    intros _. split; [lia|done].
Qed.

Lemma consumeANSI_consumed_app b q h rest out :
  consumeANSI b h = Consumed rest out -> consumeANSI (b ++ q) h = Consumed (rest ++ q) out.
Proof.
  destruct b as [|x [|y b]]; [done..|]. simpl. destruct (negb _); [done|].
  destruct (y =? 91); [|by intros; simplify_eq]. unfold consumeCSI. simpl. rewrite !drop_0.
  destruct (csi_split b) as [[tl r]|] eqn:E; [|done].
  rewrite (csi_split_app _ q _ _ E). destruct (rewriteCSI _ _); by intros; simplify_eq.
Qed.
Lemma consumeANSI_panic_app b q h : consumeANSI b h = ConsumePanic -> consumeANSI (b ++ q) h = ConsumePanic.
Proof.
  destruct b as [|x [|y b]]; [done..|]. simpl. destruct (negb _); [done|].
  destruct (y =? 91); [|done]. unfold consumeCSI. simpl. rewrite !drop_0.
  destruct (csi_split b) as [[tl r]|] eqn:E; [|done].
  rewrite (csi_split_app _ q _ _ E). by destruct (rewriteCSI _ _).
Qed.
Lemma consumeANSI_shorter b h rest out : consumeANSI b h = Consumed rest out -> (length rest + 2 <= length b)%nat.
Proof.
  destruct b as [|x [|y b]]; [done..|]. simpl. destruct (negb _); [done|].
  destruct (y =? 91); [|intros; simplify_eq; lia]. unfold consumeCSI. simpl. rewrite drop_0.
  destruct (csi_split b) as [[tl r]|] eqn:E; [|done].
  destruct (rewriteCSI _ _); [|done]. intros; simplify_eq.
  apply csi_split_spec in E as (bd & fin & -> & -> & _). rewrite !length_app. simpl. lia.
Qed.

Lemma index_byte_spec l c i : index_byte l c = Some i -> l !! i = Some c /\ c ∉ take i l.
Proof.
  revert i. induction l as [|b l IH]; intros i H; simpl in *; [done|].
  destruct (b =? c) eqn:E.
  - simplify_eq. apply Z.eqb_eq in E as ->. simpl. split; [done|apply not_elem_of_nil].
  - destruct (index_byte l c) as [j|]; simplify_eq/=. destruct (IH j) as [??]; [done|].
    split; [done|]. apply Z.eqb_neq in E. apply not_elem_of_cons. by split.
Qed.
Lemma index_byte_none l c : index_byte l c = None -> c ∉ l.
Proof.
  induction l as [|b l IH]; intros H; simpl in *; [apply not_elem_of_nil|].
  destruct (b =? c) eqn:E; [done|]. destruct (index_byte l c); [done|].
  apply Z.eqb_neq in E. apply not_elem_of_cons. auto.
Qed.

(** ** Termination *)
Definition same_header (f f' : cliOutputFilter) : Prop :=
  headerLines f' = headerLines f /\ onFullClear f' = onFullClear f.
Section termination.
Variable fails : list output -> output -> bool.

Lemma send_appends f o f' : send fails f o = Ok f' -> f' = add_sent f o.
Proof. unfold send. destruct (fails _ _); by intros; simplify_eq. Qed.

Lemma flush_text_ok f idx f' :
  flush_text fails f idx = Ok f' ->
  buf f' = drop idx (buf f) /\ (length (sent f') <= length (sent f) + 1)%nat /\ same_header f f'.
Proof.
  unfold flush_text. destruct (0 <? idx)%nat eqn:E0; intros E.
  - inv_ok E. apply send_appends in Heqr as ->. simpl. rewrite length_app. simpl. split_and!; [done|lia|done].
  - simplify_eq. apply Nat.ltb_ge in E0. replace idx with 0%nat by lia. rewrite drop_0. split_and!; [done|lia|done].
Qed.
Lemma emit_sequence_ok f out f' :
  emit_sequence fails f out = Ok f' ->
  buf f' = buf f /\ (length (sent f') <= length (sent f) + 1)%nat /\ same_header f f'.
Proof.
  unfold emit_sequence. intros E.
  repeat case_match; simplify_eq; try apply send_appends in E as ->; simpl; rewrite ?length_app; simpl; split_and!; auto with lia; done.
Qed.

(** Every pass that continues the loop removes two bytes or more from the
    buffer and sends at most two outputs. *)
Lemma iteration_continues f f' :
  iteration fails f = (f', None) ->
  (length (buf f') + 2 <= length (buf f))%nat /\ (length (sent f') <= length (sent f) + 2)%nat.
Proof.
  unfold iteration. destruct (index_byte (buf f) esc) as [idx|] eqn:Ei; [|by go_cases].
  destruct (flush_text fails f idx) as [f1|] eqn:E1; [|done].
  apply flush_text_ok in E1 as (Hb & Hs & _).
  destruct (consumeANSI _ _) as [|rest out|] eqn:Ec; [done| |done].
  destruct (emit_sequence fails f1 out) as [f2|] eqn:E2; [|done]. intros [= <-]. simpl.
  apply emit_sequence_ok in E2 as (_ & Hs2 & _).
  apply consumeANSI_shorter in Ec. rewrite Hb, length_drop in Ec. lia.
Qed.
Lemma iteration_stops f f' st :
  iteration fails f = (f', Some st) -> (length (sent f') <= length (sent f) + length (buf f))%nat.
Proof.
  unfold iteration. destruct (index_byte (buf f) esc) as [idx|] eqn:Ei.
  - apply index_byte_spec in Ei as [Hi _]. apply lookup_lt_Some in Hi.
    destruct (flush_text fails f idx) as [f1|] eqn:E1; [|intros [= <- <-]; lia].
    apply flush_text_ok in E1 as (_ & Hs & _).
    repeat case_match; intros; simplify_eq; lia.
  - case_bool_decide as Hb; [intros [= <- <-]; lia|].
    destruct (send fails f (Text (buf f))) as [f1|] eqn:E1; [|intros [= <- <-]; lia].
    apply send_appends in E1 as ->. intros [= <- <-]. simpl. rewrite length_app. simpl.
    destruct (buf f); [done|]. simpl. lia.
Qed.

Lemma write_loop_fuel n m f :
  (length (buf f) < n)%nat -> (length (buf f) < m)%nat -> write_loop fails n f = write_loop fails m f.
Proof.
  revert m f. induction n as [|n IH]; intros m f Hn Hm; [lia|]. destruct m as [|m]; [lia|]. simpl.
  destruct (iteration fails f) as [f' [st|]] eqn:E; [done|].
  apply iteration_continues in E as [??]. apply IH; lia.
Qed.
Lemma write_loop_result n f :
  (length (buf f) < n)%nat ->
  exists f' st, write_loop fails n f = Some (f', st) /\ (length (sent f') <= length (sent f) + length (buf f))%nat.
Proof.
  revert f. induction n as [|n IH]; intros f Hn; [lia|]. simpl.
  destruct (iteration fails f) as [f' [st|]] eqn:E.
  - apply iteration_stops in E. eexists _, _. split; [done|]. lia.
  - apply iteration_continues in E as [??]. destruct (IH f') as (f2 & st & -> & ?); [lia|].
    eexists _, _. split; [done|]. lia.
Qed.
End termination.

(** C28. [Write] terminates: whatever was buffered, whatever bytes arrive and
    whichever writes fail, its loop ends, after at most one output per
    byte; and giving the loop more turns than there are bytes changes nothing. *)
Theorem write_terminates fails f p :
  exists f' st, Write fails f p = Some (f', st) /\
    (length (sent f') <= length (sent f) + length (buf f ++ p))%nat /\
    forall n, (length (buf f ++ p) < n)%nat -> write_loop fails n (set_buf f (buf f ++ p)) = Some (f', st).
Proof.
  unfold Write. destruct (write_loop_result fails (S (length (buf f ++ p))) (set_buf f (buf f ++ p))) as (f' & st & E & Hl); [simpl; lia|].
  exists f', st. repeat split; [done..|]. intros n Hn. rewrite <- E. apply write_loop_fuel; simpl; lia.
Qed.

(** ** The stream as the terminal sees it

    How [Write] cuts its output into writes does not show on the terminal: two
    outputs are the same when their bytes and redraws are. *)
Inductive token := TByte (c : Z) | TRedraw.
Definition tokens (o : output) : list token :=
  match o with Text b => TByte <$> b | RedrawHeader => [TRedraw] end.
Definition stream (l : list output) : list token := l ≫= tokens.

Record rendered := mkRendered { r_tokens : list token; r_rest : list Z; r_status : status }.
Definition show (ts : list token) (r : rendered) : rendered :=
  mkRendered (ts ++ r_tokens r) (r_rest r) (r_status r).
(** What one sequence shows. *)
Definition show_sequence (clear : bool) (out : list Z) : list token :=
  if bool_decide (out = ansiRedrawHeader) then (if clear then [TRedraw] else [])
  else if bool_decide (out = ansiSuppress) then []
  else TByte <$> out.

(** The filter read byte by byte: the reference that [Write] is compared with. *)
Fixpoint render_fuel (n : nat) (h : Z) (clear : bool) (b : list Z) : rendered :=
  match n, b with
  | S n, x :: b1 =>
      if negb (x =? esc) then show [TByte x] (render_fuel n h clear b1)
      else
        match consumeANSI b h with
        | NeedMore => mkRendered [] b Done
        | ConsumePanic => mkRendered [] [] Panicked
        | Consumed rest out => show (show_sequence clear out) (render_fuel n h clear rest)
        end
  | _, _ => mkRendered [] [] Done
  end.
Definition render (h : Z) (clear : bool) (b : list Z) : rendered := render_fuel (length b) h clear b.

Lemma show_show ts1 ts2 r : show ts1 (show ts2 r) = show (ts1 ++ ts2) r.
Proof. unfold show. simpl. by rewrite app_assoc. Qed.
Lemma show_nil r : show [] r = r.
Proof. by destruct r. Qed.
Lemma stream_app l1 l2 : stream (l1 ++ l2) = stream l1 ++ stream l2.
Proof. apply bind_app. Qed.

Lemma render_fuel_enough n m h clear b :
  (length b <= n)%nat -> (length b <= m)%nat -> render_fuel n h clear b = render_fuel m h clear b.
Proof.
  revert m b. induction n as [|n IH]; intros m b Hn Hm.
  { destruct b; [by destruct m|simpl in Hn; lia]. }
  destruct b as [|x b1]; [by destruct m|]. destruct m as [|m]; [simpl in Hm; lia|].
  cbn [render_fuel]. simpl in Hn, Hm.
  destruct (negb _); [f_equal; apply IH; lia|].
  destruct (consumeANSI _ _) eqn:E; [done| |done]. apply consumeANSI_shorter in E. simpl in E.
  f_equal. apply IH; lia.
Qed.
Lemma render_cons h clear x b :
  render h clear (x :: b) =
  if negb (x =? esc) then show [TByte x] (render h clear b)
  else match consumeANSI (x :: b) h with
       | NeedMore => mkRendered [] (x :: b) Done
       | ConsumePanic => mkRendered [] [] Panicked
       | Consumed rest out => show (show_sequence clear out) (render h clear rest)
       end.
Proof.
  unfold render at 1. cbn [render_fuel length]. destruct (negb _); [done|].
  destruct (consumeANSI _ _) eqn:E; [done| |done]. apply consumeANSI_shorter in E. simpl in E.
  f_equal. apply render_fuel_enough; lia.
Qed.
Lemma render_text h clear b1 b2 :
  esc ∉ b1 -> render h clear (b1 ++ b2) = show (TByte <$> b1) (render h clear b2).
Proof.
  induction b1 as [|x b1 IH]; intros Hb; [exact (eq_sym (show_nil _))|].
  apply not_elem_of_cons in Hb as [Hx Hb]. simpl. rewrite render_cons.
  replace (x =? esc) with false by (symmetry; apply Z.eqb_neq; congruence). simpl.
  by rewrite IH, show_show.
Qed.

(** Rendering resumes where it stopped. *)
Lemma render_app h clear b1 b2 :
  render h clear (b1 ++ b2) =
  match r_status (render h clear b1) with
  | Done => show (r_tokens (render h clear b1)) (render h clear (r_rest (render h clear b1) ++ b2))
  | _ => render h clear b1
  end.
Proof.
  remember (length b1) as n eqn:Hn. assert (length b1 <= n)%nat as Hle by lia. clear Hn.
  revert b1 Hle. induction n as [|n IH]; intros [|x b1] Hle; simpl in Hle; try lia;
    try exact (eq_sym (show_nil _)).
  change ((x :: b1) ++ b2) with (x :: b1 ++ b2). rewrite !render_cons.
  destruct (negb (x =? esc)) eqn:Ex.
  { rewrite IH by lia. simpl. destruct (r_status (render h clear b1)); [by rewrite show_show|done..]. }
  destruct (consumeANSI (x :: b1) h) as [|rest out|] eqn:E.
  - cbn [r_status r_tokens r_rest]. rewrite show_nil. change ((x :: b1) ++ b2) with (x :: b1 ++ b2).
    by rewrite render_cons, Ex.
  - change (x :: b1 ++ b2) with ((x :: b1) ++ b2). rewrite (consumeANSI_consumed_app _ b2 _ _ _ E).
    apply consumeANSI_shorter in E. simpl in E. rewrite IH by lia. simpl.
    destruct (r_status (render h clear rest)); [by rewrite show_show|done..].
  - change (x :: b1 ++ b2) with ((x :: b1) ++ b2). by rewrite (consumeANSI_panic_app _ b2 _ E).
Qed.

(** A writer that never fails. *)
Definition reliable : list output -> output -> bool := fun _ _ => false.

Lemma flush_text_reliable f idx :
  exists f1, flush_text reliable f idx = Ok f1 /\ buf f1 = drop idx (buf f) /\
    stream (sent f1) = stream (sent f) ++ (TByte <$> take idx (buf f)) /\ same_header f f1.
Proof.
  unfold flush_text, send, reliable. destruct (0 <? idx)%nat eqn:E0; eexists; split_and!; try done; simpl.
  - rewrite stream_app. simpl. by rewrite app_nil_r.
  - apply Nat.ltb_ge in E0. replace idx with 0%nat by lia. by rewrite drop_0.
  - apply Nat.ltb_ge in E0. replace idx with 0%nat by lia. simpl. by rewrite app_nil_r.
Qed.
Lemma emit_sequence_reliable f out :
  exists f1, emit_sequence reliable f out = Ok f1 /\
    stream (sent f1) = stream (sent f) ++ show_sequence (onFullClear f) out /\ same_header f f1.
Proof.
  unfold emit_sequence, show_sequence, send, reliable.
  repeat case_match; eexists; split_and!; try done; simpl; rewrite ?stream_app, ?app_nil_r; simpl; rewrite ?app_nil_r; done.
Qed.

(** [Write] implements [render]. *)
Lemma write_loop_renders n f f' st :
  write_loop reliable n f = Some (f', st) ->
  let r := render (headerLines f) (onFullClear f) (buf f) in
  stream (sent f') = stream (sent f) ++ r_tokens r /\ st = r_status r /\
  (st = Done -> buf f' = r_rest r) /\ same_header f f'.
Proof.
  revert f. induction n as [|n IH]; intros f; cbn [write_loop]; [done|]. cbv zeta.
  unfold iteration. destruct (index_byte (buf f) esc) as [idx|] eqn:Ei.
  - apply index_byte_spec in Ei as [Hi Hni]. destruct (flush_text_reliable f idx) as (f1 & -> & Hb & Hs & Hh & Hc).
    replace (render (headerLines f) (onFullClear f) (buf f))
      with (show (TByte <$> take idx (buf f)) (render (headerLines f) (onFullClear f) (drop idx (buf f))))
      by (by rewrite <- render_text, take_drop by done).
    rewrite Hb, Hh. rewrite (drop_S _ _ _ Hi), render_cons. simpl negb. cbv iota.
    destruct (consumeANSI _ _) as [|rest out|].
    + intros [= <- <-]. simpl. rewrite Hs, Hb, app_nil_r, (drop_S _ _ _ Hi). done.
    + destruct (emit_sequence_reliable f1 out) as (f2 & -> & Hs2 & Hh2 & Hc2).
      intros Hl. apply IH in Hl as (Hst & -> & Hr & Hh3 & Hc3). simpl in *.
      rewrite Hh2, Hc2, Hh, Hc in *. rewrite Hst, Hs2, Hs. rewrite <- !app_assoc.
      split_and!; done.
    + intros [= <- <-]. simpl. rewrite Hs, app_nil_r. done.
  - apply index_byte_none in Ei.
    replace (render (headerLines f) (onFullClear f) (buf f)) with (mkRendered (TByte <$> buf f) [] Done)
      by (rewrite <- (app_nil_r (buf f)) at 2; rewrite render_text by done; unfold show; simpl; by rewrite app_nil_r).
    case_bool_decide as Hbuf; simpl; intros [= <- <-]; simpl.
    + rewrite Hbuf. simpl. by rewrite app_nil_r.
    + rewrite stream_app. simpl. rewrite !app_nil_r. done.
Qed.
Lemma Write_renders f p :
  let r := render (headerLines f) (onFullClear f) (buf f ++ p) in
  exists f', Write reliable f p = Some (f', r_status r) /\
    stream (sent f') = stream (sent f) ++ r_tokens r /\
    (r_status r = Done -> buf f' = r_rest r) /\ same_header f f'.
Proof.
  intros r. unfold Write.
  destruct (write_loop_result reliable (S (length (buf f ++ p))) (set_buf f (buf f ++ p))) as (f' & st & E & _); [simpl; lia|].
  exists f'. rewrite E. apply write_loop_renders in E as (? & -> & ? & ?). done.
Qed.

(** What is left of a stream shows nothing by itself. *)
Lemma render_rest h clear b :
  r_status (render h clear b) = Done ->
  render h clear (r_rest (render h clear b)) = mkRendered [] (r_rest (render h clear b)) Done.
Proof.
  intros Hd. pose proof (render_app h clear b []) as E. rewrite Hd, !app_nil_r in E.
  destruct (render h clear b) as [ts rest st] eqn:Eb. simpl in *. subst st.
  destruct (render h clear rest) as [ts2 rest2 st2]. unfold show in E. simpl in E. injection E as E1 E2 E3. subst.
  f_equal. apply (app_inv_head ts). by rewrite app_nil_r.
Qed.

(** How the target's output is cut into writes does not matter: in any
    chunks, the terminal gets the bytes and header redraws it gets when the
    whole stream is written at once, which are those of [render], the filter
    reads the same unfinished sequence, or panics in both cases. *)
Theorem write_chunks_invariant h clear chunks :
  let r := render h clear (concat chunks) in
  exists f, write_chunks reliable (mkFilter [] h clear []) chunks = Some (f, r_status r) /\
    stream (sent f) = r_tokens r /\ (r_status r = Done -> buf f = r_rest r) /\
  exists f1, Write reliable (mkFilter [] h clear []) (concat chunks) = Some (f1, r_status r) /\
    stream (sent f1) = stream (sent f) /\ (r_status r = Done -> buf f1 = buf f).
Proof.
  assert (Hgen : forall chunks f, render (headerLines f) (onFullClear f) (buf f) = mkRendered [] (buf f) Done ->
    let r := render (headerLines f) (onFullClear f) (buf f ++ concat chunks) in
    exists f', write_chunks reliable f chunks = Some (f', r_status r) /\
      stream (sent f') = stream (sent f) ++ r_tokens r /\ (r_status r = Done -> buf f' = r_rest r)).
  { clear. induction chunks as [|p chunks IH]; intros f Hf; simpl.
    { rewrite app_nil_r, Hf. exists f. simpl. by rewrite app_nil_r. }
    rewrite app_assoc, render_app.
    destruct (Write_renders f p) as (f1 & -> & Hs & Hb & Hh & Hc).
    destruct (r_status (render (headerLines f) (onFullClear f) (buf f ++ p))) eqn:Est;
      [|exists f1; rewrite Est; split_and!; done..].
    destruct (IH f1) as (f2 & -> & Hs2 & Hb2).
    { rewrite Hh, Hc, Hb by done. by apply render_rest. }
    rewrite Hh, Hc, Hb in * by done. exists f2. simpl. split_and!; [done| |done].
    by rewrite Hs2, Hs, app_assoc. }
  cbv zeta. destruct (Hgen chunks (mkFilter [] h clear [])) as (f & -> & Hs & Hb); [done|]. simpl in Hs, Hb.
  destruct (Write_renders (mkFilter [] h clear []) (concat chunks)) as (f1 & -> & Hs1 & Hb1 & _). simpl in Hs1, Hb1.
  exists f. split_and!; [done..|]. exists f1. split_and!; [done|congruence|]. intros Hd. rewrite Hb, Hb1; done.
Qed.

(** ** Cursor movements *)

(** The position a terminal moves to (ECMA-48, CUP): a missing or zero
    parameter is 1. *)
Definition cup_position (body : list Z) : Z * Z :=
  match parseCSIRowCol body with
  | None => (1, 1)
  | Some (r, c) => (r `max` 1, c `max` 1)
  end.
Definition digit (c : Z) : Prop := 48 <= c <= 57.

Lemma itoa_loop_spec i n acc :
  0 <= n < 10 ^ Z.of_nat i -> n < 2 ^ 62 ->
  exists ds, itoa_loop i n acc = Some (ds ++ acc) /\ Forall digit ds /\ (0 < n -> ds <> []) /\
    forall rest, atoi_from 0 (ds ++ rest) = atoi_from n rest.
Proof.
  revert n acc. induction i as [|i IH]; intros n acc Hn Hn2.
  { simpl in *. replace n with 0 by lia. exists []. split_and!; [done..|lia|done]. }
  simpl. destruct (0 <? n) eqn:E.
  - apply Z.ltb_lt in E. rewrite Nat2Z.inj_succ, Z.pow_succ_r in Hn by lia.
    rewrite Z.quot_div_nonneg, Z.rem_mod_nonneg by lia.
    pose proof (Z.mod_pos_bound n 10 ltac:(lia)). pose proof (Z_div_mod_eq_full n 10).
    destruct (IH (n / 10) (48 + n mod 10 :: acc)) as (ds & -> & Hds & _ & Hat); [lia..|].
    exists (ds ++ [48 + n mod 10]). split_and!.
    + by rewrite <- app_assoc.
    + apply Forall_app_2; [done|]. constructor; [|done]. unfold digit. lia.
    + intros _ ?. by destruct ds.
    + intros rest. rewrite <- app_assoc, Hat. simpl.
      replace (_ || _) with false by (symmetry; apply orb_false_iff; rewrite !Z.ltb_ge; lia).
      rewrite int64_id by (unfold in_int64, minInt64, maxInt64; lia). f_equal. lia.
  - apply Z.ltb_ge in E. replace n with 0 by lia. exists []. split_and!; [done..|lia|done].
Qed.
Lemma itoa_loop_panics i n acc : 10 ^ Z.of_nat i <= n -> itoa_loop i n acc = None.
Proof.
  revert n acc. induction i as [|i IH]; intros n acc Hn.
  { simpl. replace (0 <? n) with true; [done|]. symmetry. apply Z.ltb_lt. simpl in Hn. lia. }
  rewrite Nat2Z.inj_succ, Z.pow_succ_r in Hn by lia. simpl.
  pose proof (Z.pow_pos_nonneg 10 (Z.of_nat i)). replace (0 <? n) with true by (symmetry; apply Z.ltb_lt; lia).
  apply IH. rewrite Z.quot_div_nonneg by lia. apply Z.div_le_lower_bound; lia.
Qed.
Lemma itoa_spec n :
  0 < n < 10 ^ 12 -> exists ds, itoa n = Some ds /\ Forall digit ds /\ ds <> [] /\ atoiBytes ds = n.
Proof.
  intros Hn. unfold itoa. replace (n =? 0) with false by (symmetry; apply Z.eqb_neq; lia).
  destruct (itoa_loop_spec 12 n []) as (ds & -> & Hds & Hne & Hat); [simpl; lia|lia|].
  rewrite app_nil_r. exists ds. split_and!; auto with lia. unfold atoiBytes. by rewrite <- (app_nil_r ds), Hat.
Qed.
Lemma itoa_panics n : 10 ^ 12 <= n -> itoa n = None.
Proof.
  intros Hn. unfold itoa. replace (n =? 0) with false by (symmetry; apply Z.eqb_neq; lia).
  by apply itoa_loop_panics.
Qed.

Lemma digits_no_semicolon ds : Forall digit ds -> 59 ∉ ds.
Proof. intros H Hin. rewrite Forall_forall in H. apply H in Hin. unfold digit in Hin. lia. Qed.

(** What [formatCSIRowCol] writes is read back as the position it was given. *)
Lemma formatCSIRowCol_spec row col :
  match formatCSIRowCol row col with
  | Some s => cup_position s = (row `max` 1, col `max` 1) /\ row < 10 ^ 12 /\ col < 10 ^ 12
  | None => 10 ^ 12 <= row `max` col
  end.
Proof.
  unfold formatCSIRowCol.
  replace (if row <? 1 then 1 else row) with (row `max` 1) by (destruct (Z.ltb_spec row 1); lia).
  replace (if col <? 1 then 1 else col) with (col `max` 1) by (destruct (Z.ltb_spec col 1); lia).
  destruct (_ && _) eqn:E1.
  { apply andb_true_iff in E1. rewrite !Z.eqb_eq in E1. destruct E1 as [E1 E2].
    rewrite E1, E2. split; [done|]. lia. }
  destruct (decide (row < 10 ^ 12)) as [Hr|Hr]; [|rewrite itoa_panics by lia; lia].
  destruct (itoa_spec (row `max` 1)) as (dr & -> & Hdr & Hnr & Har); [lia|].
  destruct (decide (col < 10 ^ 12)) as [Hc|Hc]; [|rewrite itoa_panics by lia; lia].
  destruct (itoa_spec (col `max` 1)) as (dc & -> & Hdc & Hnc & Hac); [lia|].
  split; [|done]. unfold cup_position, parseCSIRowCol.
  rewrite bool_decide_false by (by destruct dr).
  simpl app. rewrite split_byte_app_sep, !split_byte_none by (by apply digits_no_semicolon).
  change ([dr] ++ [dc]) with [dr; dc]. cbv beta iota zeta.
  rewrite !bool_decide_false by done. rewrite Har, Hac. f_equal; lia.
Qed.

Definition cup_final (final : Z) : Prop := final = 72 \/ final = 102.

Lemma rewriteCSI_cup body final h :
  cup_final final ->
  rewriteCSI ([esc; 91] ++ body ++ [final]) h =
  match parseCSIRowCol body with
  | None => Some ([esc; 91] ++ body ++ [final])
  | Some (row, col) =>
      match formatCSIRowCol (if (0 <? row) && (row <? h + 1) then h + 1 else row) col with
      | Some s => Some ([esc; 91] ++ s ++ [final])
      | None => None
      end
  end.
Proof.
  intros Hf. unfold rewriteCSI.
  replace (Z.of_nat (length ([esc; 91] ++ body ++ [final])) <? 3) with false
    by (symmetry; apply Z.ltb_ge; rewrite !length_app; simpl; lia).
  replace (List.last ([esc; 91] ++ body ++ [final]) 0) with final
    by (by rewrite app_assoc, List.last_last).
  replace (take (length ([esc; 91] ++ body ++ [final]) - 3) (drop 2 ([esc; 91] ++ body ++ [final]))) with body.
  - replace ((final =? 72) || (final =? 102)) with true by (by destruct Hf as [-> | ->]). done.
  - simpl. rewrite drop_0, length_app. simpl. replace (length body + 1 - 1)%nat with (length body) by lia.
    by rewrite take_app_length.
Qed.

(** One complete sequence, written to a filter that holds nothing back. *)
Definition no_final (body : list Z) : Prop := Forall (fun c => ~ (0x40 <= c <= 0x7e)) body.
Lemma csi_split_complete body final rest :
  no_final body -> 0x40 <= final <= 0x7e -> csi_split (body ++ final :: rest) = Some (body ++ [final], rest).
Proof.
  intros Hb Hf. induction Hb as [|c body Hc Hb IH]; simpl.
  - replace (_ && _) with true; [done|]. symmetry. apply andb_true_iff. rewrite !Z.leb_le. done.
  - replace (_ && _) with false; [by rewrite IH|]. symmetry. apply andb_false_iff. rewrite !Z.leb_gt. lia.
Qed.
Lemma render_cup h clear body final rest :
  no_final body -> cup_final final ->
  render h clear ([esc; 91] ++ body ++ final :: rest) =
  match rewriteCSI ([esc; 91] ++ body ++ [final]) h with
  | Some out => show (show_sequence clear out) (render h clear rest)
  | None => mkRendered [] [] Panicked
  end.
Proof.
  intros Hb Hf. simpl app. rewrite render_cons. simpl negb. cbv iota. cbn [consumeANSI].
  change (negb (esc =? esc)) with false. change (91 =? 91) with true. cbv iota.
  unfold consumeCSI. simpl drop. simpl take. rewrite drop_0, csi_split_complete; [|done|destruct Hf as [-> | ->]; lia].
  simpl app. by destruct (rewriteCSI _ _).
Qed.
(** A rewritten cursor movement is no sentinel: those begin with a zero byte. *)
Lemma show_sequence_esc clear out : show_sequence clear (esc :: out) = TByte <$> esc :: out.
Proof. unfold show_sequence. by rewrite !bool_decide_false by done. Qed.

Lemma render_cursor h clear body final :
  no_final body -> cup_final final -> 0 <= h < 10 ^ 11 ->
  match parseCSIRowCol body with
  | None => render h clear ([esc; 91] ++ body ++ [final]) = mkRendered (TByte <$> [esc; 91; final]) [] Done
  | Some (row, col) =>
      if decide (10 ^ 12 <= row `max` col)
      then r_status (render h clear ([esc; 91] ++ body ++ [final])) = Panicked
      else exists body',
        render h clear ([esc; 91] ++ body ++ [final]) = mkRendered (TByte <$> [esc; 91] ++ body' ++ [final]) [] Done /\
        cup_position body' = (if decide (0 < row) then row `max` (h + 1) else 1, col `max` 1)
  end.
Proof.
  intros Hb Hf Hh. pose proof (rewriteCSI_cup body final h Hf) as Hrw.
  rewrite (render_cup h clear body final []), Hrw by done.
  destruct (parseCSIRowCol body) as [[row col]|] eqn:Ep.
  - set (row' := if (0 <? row) && (row <? h + 1) then h + 1 else row).
    assert (row' = if decide (0 < row) then row `max` (h + 1) else row) as Hrow.
    { subst row'. case_decide; destruct (Z.ltb_spec 0 row); destruct (Z.ltb_spec row (h + 1)); simpl; lia. }
    clearbody row'. pose proof (formatCSIRowCol_spec row' col) as Hs.
    destruct (formatCSIRowCol row' col) as [s|]; destruct (decide (0 < row)).
    1,2: destruct Hs as (Hs & ? & ?); rewrite decide_False by lia; exists s; simpl app; rewrite show_sequence_esc;
      (split; [unfold show; simpl; by rewrite app_nil_r|]); rewrite Hs, Hrow; f_equal; lia.
    all: by rewrite decide_True by lia.
  - assert (body = []) as -> by (unfold parseCSIRowCol in Ep; case_bool_decide; [done|]; by case_match).
    simpl app. rewrite show_sequence_esc. done.
Qed.

(** What becomes of a cursor movement [ESC body H] of the target, written
    to a filter that holds nothing back: the terminal receives a movement to
    the same column and, when the row parameter is positive, to that row or to
    the first row below the header, whichever is lower on the screen. Without
    parameters, or with a row that is zero or not a number, it is a movement to
    row 1, in the header. With a parameter of ten to the twelve or more the
    filter panics. *)
Theorem cursor_movement f body final :
  buf f = [] -> no_final body -> cup_final final -> 0 <= headerLines f < 10 ^ 11 ->
  exists f' st, Write reliable f ([esc; 91] ++ body ++ [final]) = Some (f', st) /\
  match parseCSIRowCol body with
  | None => st = Done /\ stream (sent f') = stream (sent f) ++ (TByte <$> [esc; 91; final])
  | Some (row, col) =>
      if decide (10 ^ 12 <= row `max` col) then st = Panicked
      else st = Done /\ exists body',
        stream (sent f') = stream (sent f) ++ (TByte <$> [esc; 91] ++ body' ++ [final]) /\
        cup_position body' = (if decide (0 < row) then row `max` (headerLines f + 1) else 1, col `max` 1)
  end.
Proof.
  intros Hb Hn Hf Hh. destruct (Write_renders f ([esc; 91] ++ body ++ [final])) as (f' & E & Hs & _).
  rewrite Hb, app_nil_l in E, Hs. exists f'. eexists. split; [exact E|].
  pose proof (render_cursor (headerLines f) (onFullClear f) body final Hn Hf Hh) as Hr.
  destruct (parseCSIRowCol body) as [[row col]|]; [|by rewrite Hs, Hr].
  destruct (decide (10 ^ 12 <= row `max` col)); [done|].
  destruct Hr as (body' & Hr & Hp). rewrite Hs, Hr. split; [done|]. by exists body'.
Qed.
Lemma cursor_movement_witness :
  exists f' st, Write reliable (newCLIOutputFilter 4) ([esc; 91] ++ bs "1;7" ++ [72]) = Some (f', st) /\
    st = Done /\ exists body', stream (sent f') = [] ++ (TByte <$> [esc; 91] ++ body' ++ [72]) /\ cup_position body' = (5, 7).
Proof.
  apply (cursor_movement (newCLIOutputFilter 4) (bs "1;7") 72);
    [done|by apply (bool_decide_eq_true_1 _)|by left|by split].
Defined.

(** One escape sequence of the target ends the gateway: a cursor movement
    with a number of thirteen digits makes [itoa] index out of its buffer,
    wherever the target sends it outside another sequence. *)
Theorem long_parameter_panics f text rest :
  buf f = [] -> esc ∉ text ->
  exists f', Write reliable f (text ++ [esc; 91] ++ bs "1000000000000" ++ 72 :: rest) = Some (f', Panicked).
Proof.
  intros Hb Ht. destruct (Write_renders f (text ++ [esc; 91] ++ bs "1000000000000" ++ 72 :: rest)) as (f' & E & _).
  exists f'. rewrite E, Hb, app_nil_l, render_text, render_cup; [|unfold no_final; apply (bool_decide_eq_true_1 _); by vm_compute|by left|done].
  rewrite rewriteCSI_cup by (by left).
  replace (parseCSIRowCol (bs "1000000000000")) with (Some (10 ^ 12, 1)) by done.
  pose proof (formatCSIRowCol_spec (if (0 <? 10 ^ 12) && (10 ^ 12 <? headerLines f + 1) then headerLines f + 1 else 10 ^ 12) 1) as Hs.
  destruct (formatCSIRowCol _ 1); [|done]. exfalso. destruct Hs as (_ & Hs & _).
  destruct (Z.ltb_spec (10 ^ 12) (headerLines f + 1)); simpl in Hs; lia.
Qed.
Lemma long_parameter_panics_witness :
  exists f', Write reliable (newCLIOutputFilter 4) (bs "$ " ++ [esc; 91] ++ bs "1000000000000" ++ 72 :: bs "x") = Some (f', Panicked).
Proof. apply (long_parameter_panics (newCLIOutputFilter 4) (bs "$ ") (bs "x")); [done|by apply (bool_decide_eq_true_1 _)]. Defined.

(** Two escape characters in a row hide the sequence after them from the
    filter: the bytes go to the terminal unchanged, which reads the second
    escape character as the beginning of the sequence. *)
Theorem double_escape_bypasses h clear b :
  esc ∉ b -> render h clear (esc :: esc :: b) = mkRendered (TByte <$> esc :: esc :: b) [] Done.
Proof.
  intros Hb. rewrite render_cons. simpl negb. cbv iota. cbn [consumeANSI].
  change (negb (esc =? esc)) with false. change (esc =? 91) with false. cbv iota.
  rewrite show_sequence_esc. rewrite <- (app_nil_r b) at 1. rewrite render_text by done.
  unfold show. simpl. by rewrite app_nil_r.
Qed.

(** An unfinished sequence holds back everything that follows it: nothing is
    shown until a final byte arrives. *)
Theorem unfinished_sequence_holds_back h clear b :
  no_final b -> render h clear ([esc; 91] ++ b) = mkRendered [] ([esc; 91] ++ b) Done.
Proof.
  intros Hb. simpl app. rewrite render_cons. simpl negb. cbv iota. cbn [consumeANSI].
  change (negb (esc =? esc)) with false. change (91 =? 91) with true. cbv iota.
  unfold consumeCSI. simpl drop. rewrite drop_0. by apply csi_split_none in Hb as ->.
Qed.
