(* ===== verification/Brokers.v ===== *)
(** The event streams of the web interface (src/internal/httpapi/sse.go): three
    brokers that fan messages out to the channels of their subscribers, and the
    handlers that forward a channel to its client.

    A channel is a bounded queue; sending to a closed channel or closing one
    twice panics ([None]), as Go does. A broker's methods run under its mutex,
    so each is one step; [Unsubscribe] closes the channel after it has released
    the mutex, which is a step of its own. *)
From S2P Require Import Prelude.
From stdpp Require Import relations.

Section broker.
Context {msg : Type}.
Record chan := mkChan { ch_cap : nat; ch_queue : list msg; ch_closed : bool }.
(** The map of the broker, from channels to the subscriber's key (a user or a
    target), and the channels themselves. *)
Record broker := mkBroker { clients : gmap nat string; chans : gmap nat chan }.
Definition NewBroker : broker := mkBroker ∅ ∅.

(** [select { case ch <- m: default: }] *)
Definition try_send (m : msg) (c : chan) : option chan :=
  if ch_closed c then None
  else Some (if bool_decide (length (ch_queue c) < ch_cap c)
             then mkChan (ch_cap c) (ch_queue c ++ [m]) false else c).

Definition Subscribe (ch cap : nat) (key : string) (b : broker) : broker :=
  mkBroker (<[ch := key]> (clients b)) (<[ch := mkChan cap [] false]> (chans b)).
(** The two halves of [Unsubscribe]. *)
Definition unsubscribe (ch : nat) (b : broker) : broker := mkBroker (delete ch (clients b)) (chans b).
Definition close_chan (ch : nat) (b : broker) : option broker :=
  match chans b !! ch with
  | Some c =>
      if ch_closed c then None
      else Some (mkBroker (clients b) (<[ch := mkChan (ch_cap c) (ch_queue c) true]> (chans b)))
  | None => None
  end.

(** The loop over the clients: the subscribers whose key is wanted are sent the
    message. The channels are different, so the order of the map does not show. *)
Definition wanted (wants : string -> bool) (b : broker) (ch : nat) : bool :=
  match clients b !! ch with Some key => wants key | None => false end.
Definition sendable (b : broker) (ch : nat) : bool :=
  match chans b !! ch with Some c => negb (ch_closed c) | None => false end.
Definition fan_out (wants : string -> bool) (m : msg) (b : broker) : option broker :=
  if forallb (fun kv => negb (wants kv.2) || sendable b kv.1) (map_to_list (clients b))
  then Some (mkBroker (clients b)
         (map_imap (fun ch c => if wanted wants b ch then try_send m c else Some c) (chans b)))
  else None.

(** [case msg := <-ch] *)
Definition receive (ch : nat) (b : broker) : option (msg * broker) :=
  match chans b !! ch with
  | Some c =>
      match ch_queue c with
      | m :: q => Some (m, mkBroker (clients b) (<[ch := mkChan (ch_cap c) q (ch_closed c)]> (chans b)))
      | [] => None
      end
  | None => None
  end.
End broker.
Arguments chan : clear implicits.
Arguments broker : clear implicits.

(** ** Who gets what *)

(** [Broadcast] and [PublishToUsers] of the session broker: a subscriber with
    the empty key gets the broadcasts. *)
Inductive session_event := EvBroadcast | EvToUsers (users : list string).
Definition session_wants (ev : session_event) (uid : string) : bool :=
  match ev with
  | EvBroadcast => true
  | EvToUsers users => negb (bool_decide (uid = ""%string)) && bool_decide (uid ∈ filter (fun u => u <> ""%string) users)
  end.
Definition Broadcast {msg} (m : msg) (b : broker msg) : option (broker msg) := fan_out (session_wants EvBroadcast) m b.
Definition PublishToUsers (payload : string) (users : list string) (b : broker string) : option (broker string) :=
  if bool_decide (users = []) || bool_decide (payload = ""%string) then Some b
  else if bool_decide (filter (fun u => u <> ""%string) users = []) then Some b
  else fan_out (session_wants (EvToUsers users)) payload b.
Definition SubscribeFor {msg} (ch : nat) (userID : string) (b : broker msg) : broker msg := Subscribe ch 64 userID b.

(** The broker of the write windows, keyed by target. *)
Definition tftp_Subscribe {msg} (ch : nat) (targetID : string) (b : broker msg) : broker msg := Subscribe ch 8 targetID b.
Definition tftp_Publish (targetID payload : string) (b : broker string) : option (broker string) :=
  if bool_decide (payload = ""%string) then Some b
  else fan_out (fun tid => bool_decide (tid = targetID)) payload b.

(** ** The throttle of transfer updates *)
Definition fileTransferProgressThrottle : duration := (100 * millisecond)%Z.
Record throttle := mkThrottle { lastEmit : gmap string time; lastStates : gmap string string }.
(** A missing key of [lastStates] reads as the empty string. *)
Definition shouldEmit (now : time) (id state : string) (t : throttle) : throttle * bool :=
  if negb (bool_decide (default ""%string (lastStates t !! id) = state))
  then (mkThrottle (<[id := now]> (lastEmit t)) (<[id := state]> (lastStates t)), true)
  else
    match lastEmit t !! id with
    | Some last =>
        if (fileTransferProgressThrottle <=? Sub now last)%Z
        then (mkThrottle (<[id := now]> (lastEmit t)) (lastStates t), true)
        else (t, false)
    | None => (mkThrottle (<[id := now]> (lastEmit t)) (lastStates t), true)
    end.
(** [Publish] of the transfer broker; the snapshot itself is the message. *)
Record snapshot := mkSnapshot { sn_ID : string; sn_State : string; sn_bytes : Z }.
Record transfer_broker := mkTransferBroker { tb_broker : broker snapshot; tb_throttle : throttle }.
Definition transfer_Subscribe (ch : nat) (userID : string) (b : transfer_broker) : transfer_broker :=
  mkTransferBroker (Subscribe ch 32 userID (tb_broker b)) (tb_throttle b).
Definition transfer_Publish (now : time) (snap : snapshot) (userID : string) (b : transfer_broker) : option transfer_broker :=
  let (t, emit) := shouldEmit now (sn_ID snap) (sn_State snap) (tb_throttle b) in
  if emit then
    match fan_out (fun uid => bool_decide (uid = userID)) snap (tb_broker b) with
    | Some br => Some (mkTransferBroker br t)
    | None => None
    end
  else Some (mkTransferBroker (tb_broker b) t).

(** ** The system of a broker and its handlers

    A handler forwards its channel ([Serving]) until its request ends; then it
    leaves the broker and closes the channel. *)
Inductive phase := Serving | Leaving | Gone.
#[export] Instance phase_eq_dec : EqDecision phase. Proof. solve_decision. Defined.

(** Parameters: the events, which subscribers want them, the message they
    carry, and the capacity of the channels. *)
Section streams.
Context {event msg : Type} (wants : event -> string -> bool) (payload : event -> msg) (cap : nat).

Record handler := mkHandler {
  h_key : string;
  h_phase : phase;
  h_delivered : list msg;   (** written to the client *)
  h_published : list msg    (** ghost: what was published for it while it was subscribed *)
}.
Record state := mkState { s_broker : broker msg; s_handlers : gmap nat handler }.
Definition start : state := mkState NewBroker ∅.

Definition with_phase (p : phase) (h : handler) : handler := mkHandler (h_key h) p (h_delivered h) (h_published h).
Definition deliver (m : msg) (h : handler) : handler := mkHandler (h_key h) (h_phase h) (h_delivered h ++ [m]) (h_published h).
Definition note (ev : event) (h : handler) : handler :=
  match h_phase h with
  | Serving => if wants ev (h_key h) then mkHandler (h_key h) (h_phase h) (h_delivered h) (h_published h ++ [payload ev]) else h
  | _ => h
  end.

Inductive label := LSubscribe (ch : nat) (key : string) | LPublish (ev : event) | LReceive (ch : nat) | LLeave (ch : nat) | LClose (ch : nat).
Inductive step : state -> label -> state -> Prop :=
| step_subscribe s ch key :
    s_handlers s !! ch = None ->
    step s (LSubscribe ch key)
      (mkState (Subscribe ch cap key (s_broker s)) (<[ch := mkHandler key Serving [] []]> (s_handlers s)))
| step_publish s ev b :
    fan_out (wants ev) (payload ev) (s_broker s) = Some b ->
    step s (LPublish ev) (mkState b (note ev <$> s_handlers s))
| step_receive s ch h m b :
    s_handlers s !! ch = Some h -> h_phase h = Serving ->
    receive ch (s_broker s) = Some (m, b) ->
    step s (LReceive ch) (mkState b (<[ch := deliver m h]> (s_handlers s)))
| step_leave s ch h :
    s_handlers s !! ch = Some h -> h_phase h = Serving ->
    step s (LLeave ch) (mkState (unsubscribe ch (s_broker s)) (<[ch := with_phase Leaving h]> (s_handlers s)))
| step_close s ch h b :
    s_handlers s !! ch = Some h -> h_phase h = Leaving ->
    close_chan ch (s_broker s) = Some b ->
    step s (LClose ch) (mkState b (<[ch := with_phase Gone h]> (s_handlers s))).

Inductive run : state -> list label -> state -> Prop :=
| run_nil s : run s [] s
| run_cons s1 l s2 ls s3 : step s1 l s2 -> run s2 ls s3 -> run s1 (l :: ls) s3.
Definition reachable (s : state) : Prop := exists ls, run start ls s.

(** One handler and its channel. *)
Record handler_ok (s : state) (ch : nat) (h : handler) : Prop := {
  ho_chan : exists c, chans (s_broker s) !! ch = Some c /\ ch_cap c = cap /\
    (ch_closed c = false <-> h_phase h <> Gone) /\ (length (ch_queue c) <= cap)%nat /\
    sublist (h_delivered h ++ ch_queue c) (h_published h) /\
    (h_delivered h ++ ch_queue c = h_published h \/ (cap < length (h_published h))%nat);
  ho_client : clients (s_broker s) !! ch = (if decide (h_phase h = Serving) then Some (h_key h) else None)
}.
Record state_ok (s : state) : Prop := {
  so_handlers : forall ch h, s_handlers s !! ch = Some h -> handler_ok s ch h;
  so_clients : forall ch key, clients (s_broker s) !! ch = Some key -> is_Some (s_handlers s !! ch)
}.

Lemma fan_out_lookup w (m : msg) b b' ch :
  fan_out w m b = Some b' ->
  clients b' = clients b /\
  chans b' !! ch = (c ← chans b !! ch; if wanted w b ch then try_send m c else Some c).
Proof.
  unfold fan_out. destruct (forallb _ _); [|done]. intros [= <-]. split; [done|]. simpl. by rewrite map_lookup_imap.
Qed.
(** Publishing does not panic while every subscribed channel is open. *)
Lemma fan_out_some w (m : msg) b :
  (forall ch key, clients b !! ch = Some key -> sendable b ch = true) -> is_Some (fan_out w m b).
Proof.
  intros Hc. unfold fan_out. replace (forallb _ _) with true; [eauto|]. symmetry. apply forallb_forall.
  intros [ch key] Hin%list_elem_of_In%elem_of_map_to_list. simpl. by rewrite (Hc ch key Hin), orb_true_r.
Qed.
Lemma try_send_open m (c : chan msg) : ch_closed c = false ->
  try_send m c = Some (mkChan (ch_cap c) (if bool_decide (length (ch_queue c) < ch_cap c)%nat then ch_queue c ++ [m] else ch_queue c) false).
Proof. intros Ho. unfold try_send. rewrite Ho. destruct c as [cp q cl]. simpl in *. subst. by case_bool_decide. Qed.

Lemma serving_sendable s ch h : handler_ok s ch h -> h_phase h = Serving -> sendable (s_broker s) ch = true.
Proof.
  intros [(c & Hc & _ & Hcl & _) _] Hp. unfold sendable. rewrite Hc.
  rewrite (proj2 Hcl); [done|by rewrite Hp].
Qed.
(** A handler that a step does not concern. *)
Lemma handler_ok_frame s s' ch h :
  chans (s_broker s') !! ch = chans (s_broker s) !! ch -> clients (s_broker s') !! ch = clients (s_broker s) !! ch ->
  handler_ok s ch h -> handler_ok s' ch h.
Proof. intros E1 E2 [H1 H2]. split; [by rewrite E1|by rewrite E2]. Qed.

Lemma publish_ok s ev b ch h :
  fan_out (wants ev) (payload ev) (s_broker s) = Some b -> handler_ok s ch h ->
  handler_ok (mkState b (note ev <$> s_handlers s)) ch (note ev h).
Proof.
  intros Hf [(c & Hc & Hcap & Hcl & Hlen & Hsub & Hall) Hk].
  destruct (fan_out_lookup _ _ _ _ ch Hf) as [Hcli Hch]. rewrite Hc in Hch. simpl in Hch.
  destruct (decide (h_phase h = Serving)) as [Hp|Hp].
  - replace (note ev h) with (if wants ev (h_key h) then mkHandler (h_key h) Serving (h_delivered h) (h_published h ++ [payload ev]) else h)
      by (unfold note; by rewrite Hp).
    unfold wanted in Hch. rewrite Hk in Hch. destruct (wants ev (h_key h)).
    + rewrite try_send_open in Hch by (apply Hcl; by rewrite Hp). split; [|simpl; by rewrite Hcli, Hk].
      eexists. simpl. split; [exact Hch|]. clear Hch. simpl. rewrite Hcap. split_and!; [done|done|..];
        case_bool_decide as Hroom; rewrite ?length_app; simpl; try lia.
      * rewrite app_assoc. by apply sublist_app.
      * by apply sublist_inserts_r.
      * destruct Hall as [Hall|?]; [left; by rewrite app_assoc, Hall|right; lia].
      * right. apply sublist_length in Hsub. rewrite length_app in Hsub. lia.
    + split; [|simpl; by rewrite Hcli, Hk, decide_True]. exists c. simpl. by rewrite Hch.
  - replace (note ev h) with h by (unfold note; by destruct (h_phase h)).
    unfold wanted in Hch. rewrite Hk in Hch.
    split; [exists c; simpl; by rewrite Hch|simpl; rewrite Hcli, Hk; by rewrite decide_False].
Qed.

Lemma step_ok s l s' : state_ok s -> step s l s' -> state_ok s'.
Proof.
  intros [Hh Hc] Hstep. destruct Hstep as [s ch key Hfresh|s ev b Hf|s ch h m b Hl Hp Hr|s ch h Hl Hp|s ch h b Hl Hp Hcl]; simpl in *.
  - split; simpl.
    + intros ch' h' [[<- <-]|[Hne Hl]]%lookup_insert_Some.
      * split; simpl; [|by rewrite lookup_insert_eq]. eexists. rewrite lookup_insert_eq. split; [done|]. simpl.
        split_and!; try done; [lia|by left].
      * eapply handler_ok_frame; [..|by apply Hh]; simpl; by rewrite lookup_insert_ne.
    + intros ch' key' [[<- <-]|[Hne Hl]]%lookup_insert_Some; [rewrite lookup_insert_eq; eauto|].
      rewrite lookup_insert_ne by done. eauto.
  - split; simpl.
    + intros ch h'. rewrite lookup_fmap. destruct (s_handlers s !! ch) as [h|] eqn:E; [|done]. intros [= <-].
      apply publish_ok; auto.
    + intros ch key Hk. rewrite (proj1 (fan_out_lookup _ _ _ _ ch Hf)) in Hk. rewrite lookup_fmap, fmap_is_Some. eauto.
  - destruct (Hh ch h Hl) as [(c & Hch & Hcap & Hclo & Hlen & Hsub & Hall) Hk].
    unfold receive in Hr. rewrite Hch in Hr. destruct (ch_queue c) as [|m' q] eqn:Eq; [done|]. injection Hr as -> <-.
    split; simpl.
    + intros ch' h' [[<- <-]|[Hne Hl']]%lookup_insert_Some; [|eapply handler_ok_frame; [..|by apply Hh]; simpl; by rewrite ?lookup_insert_ne].
      split; simpl; [|by rewrite Hk]. eexists. rewrite lookup_insert_eq. split; [done|]. simpl in *.
      rewrite <- app_assoc. split_and!; try done; lia.
    + intros ch' key Hk'. destruct (decide (ch = ch')) as [<-|Hne]; [rewrite lookup_insert_eq; eauto|rewrite lookup_insert_ne by done; eauto].
  - destruct (Hh ch h Hl) as [(c & Hch & Hcap & Hclo & Hrest) Hk].
    split; simpl.
    + intros ch' h' [[<- <-]|[Hne Hl']]%lookup_insert_Some; [|eapply handler_ok_frame; [..|by apply Hh]; simpl; by rewrite ?lookup_delete_ne].
      split; simpl; [|by rewrite lookup_delete_eq]. exists c. rewrite Hp in Hclo. split_and!; try done; naive_solver.
    + intros ch' key [Hne Hk']%lookup_delete_Some. rewrite lookup_insert_ne by done. eauto.
  - destruct (Hh ch h Hl) as [(c & Hch & Hcap & Hclo & Hrest) Hk].
    unfold close_chan in Hcl. rewrite Hch in Hcl. destruct (ch_closed c); [done|]. injection Hcl as <-.
    split; simpl.
    + intros ch' h' [[<- <-]|[Hne Hl']]%lookup_insert_Some; [|eapply handler_ok_frame; [..|by apply Hh]; simpl; by rewrite ?lookup_insert_ne].
      split; simpl; [|by rewrite Hk, Hp]. eexists. rewrite lookup_insert_eq. split; [done|]. simpl. naive_solver.
    + intros ch' key Hk'. destruct (decide (ch = ch')) as [<-|Hne]; [rewrite lookup_insert_eq; eauto|rewrite lookup_insert_ne by done; eauto].
Qed.
Lemma run_ok s ls s' : run s ls s' -> state_ok s -> state_ok s'.
Proof. induction 1 as [|s1 l s2 ls s3 Hs _ IH]; [done|]. intros Hok. apply IH. by eapply step_ok. Qed.
Lemma reachable_ok s : reachable s -> state_ok s.
Proof. intros [ls Hr]. eapply run_ok; [done|]. split; intros ch ?; simpl; by rewrite lookup_empty. Qed.

(** The brokers never panic: in every reachable state, publishing any event
    sends to open channels only, and a handler that has left its broker closes
    its channel for the first time - although the channel is closed after the
    broker's mutex was released. *)
Theorem streams_never_panic s :
  reachable s ->
  (forall ev, is_Some (fan_out (wants ev) (payload ev) (s_broker s))) /\
  (forall ch h, s_handlers s !! ch = Some h -> h_phase h = Leaving -> is_Some (close_chan ch (s_broker s))).
Proof.
  intros [Hh Hc]%reachable_ok. split.
  - intros ev. apply fan_out_some. intros ch key Hk. destruct (Hc ch key Hk) as [h Hl].
    apply (serving_sendable s ch h); [by apply Hh|]. destruct (Hh ch h Hl) as [_ Hcl]. rewrite Hk in Hcl. by case_decide.
  - intros ch h Hl Hp. destruct (Hh ch h Hl) as [(c & Hch & _ & Hclo & _) _].
    unfold close_chan. rewrite Hch. rewrite (proj2 Hclo) by (by rewrite Hp). eauto.
Qed.

(** What a client receives: the messages published for it while it was
    subscribed, in their order, possibly with gaps; without gaps as long as no more messages
    than the channel holds were published for it. *)
Theorem delivered_in_order s ch h :
  reachable s -> s_handlers s !! ch = Some h ->
  sublist (h_delivered h) (h_published h) /\
  ((length (h_published h) <= cap)%nat -> exists rest, h_delivered h ++ rest = h_published h /\ (length rest <= cap)%nat).
Proof.
  intros [Hh _]%reachable_ok Hl. destruct (Hh ch h Hl) as [(c & _ & _ & _ & Hlen & Hsub & Hall) _]. split.
  - etrans; [|exact Hsub]. by apply sublist_inserts_r.
  - intros Hshort. destruct Hall as [Hall|?]; [eauto|lia].
Qed.

(** Only events that its key wants reach a subscriber. *)
Lemma run_published s ls s' ch h' m :
  run s ls s' -> s_handlers s' !! ch = Some h' -> m ∈ h_published h' ->
  (exists h, s_handlers s !! ch = Some h /\ h_key h = h_key h' /\ m ∈ h_published h) \/
  exists ev, LPublish ev ∈ ls /\ wants ev (h_key h') = true /\ m = payload ev.
Proof.
  induction 1 as [s|s1 l s2 ls s3 Hstep _ IH]; intros Hl Hm; [left; eauto|].
  destruct (IH Hl Hm) as [(h & Hl2 & Hkey & Hm2)|(ev & Hin & ?)]; [|right; exists ev; split; [by right|done]].
  destruct Hstep as [s ch0 key Hfresh|s ev b Hf|s ch0 h0 m0 b Hl0 Hp Hr|s ch0 h0 Hl0 Hp|s ch0 h0 b Hl0 Hp Hcl]; simpl in *.
  - apply lookup_insert_Some in Hl2 as [[<- <-]|[Hne Hl2]]; [by apply elem_of_nil in Hm2|left; eauto].
  - rewrite lookup_fmap in Hl2. destruct (s_handlers s !! ch) as [h1|]; [|done]. injection Hl2 as <-.
    unfold note in *. destruct (h_phase h1); [|left; eauto..].
    destruct (wants ev (h_key h1)) eqn:Ew; [|left; eauto]. simpl in *.
    apply elem_of_app in Hm2 as [Hm2|Hm2%list_elem_of_singleton]; [left; eauto|right].
    exists ev. split; [by left|]. by rewrite <- Hkey.
  - apply lookup_insert_Some in Hl2 as [[<- <-]|[Hne Hl2]]; left; [exists h0|exists h]; done.
  - apply lookup_insert_Some in Hl2 as [[<- <-]|[Hne Hl2]]; left; [exists h0|exists h]; done.
  - apply lookup_insert_Some in Hl2 as [[<- <-]|[Hne Hl2]]; left; [exists h0|exists h]; done.
Qed.
Theorem only_wanted_events_arrive ls s ch h m :
  run start ls s -> s_handlers s !! ch = Some h -> m ∈ h_delivered h ->
  exists ev, LPublish ev ∈ ls /\ wants ev (h_key h) = true /\ m = payload ev.
Proof.
  intros Hr Hl Hm. destruct (run_published _ _ _ _ _ m Hr Hl) as [(h0 & H0 & _)|?]; [|by simpl in H0; rewrite lookup_empty in H0|done].
  destruct (delivered_in_order s ch h) as [Hsub _]; [by exists ls|done|]. by eapply elem_of_submseteq, sublist_submseteq.
Qed.

(** *** Progress *)

Definition is_receive (ch : nat) (l : label) : bool :=
  match l with LReceive ch' => bool_decide (ch' = ch) | _ => false end.
(** The messages a handler has delivered or is about to: they only grow, and a
    receive delivers the next. *)
Lemma step_progress s l s' ch h c :
  state_ok s -> step s l s' -> l <> LLeave ch -> s_handlers s !! ch = Some h -> h_phase h = Serving ->
  chans (s_broker s) !! ch = Some c ->
  exists h' c', s_handlers s' !! ch = Some h' /\ h_phase h' = Serving /\ chans (s_broker s') !! ch = Some c' /\
    (h_delivered h ++ ch_queue c) `prefix_of` (h_delivered h' ++ ch_queue c') /\
    length (h_delivered h') = (length (h_delivered h) + if is_receive ch l then 1 else 0)%nat.
Proof.
  intros Hok Hstep Hne Hl Hp Hc.
  destruct Hstep as [s ch0 key Hfresh|s ev b Hf|s ch0 h0 m0 b Hl0 Hp0 Hr|s ch0 h0 Hl0 Hp0|s ch0 h0 b Hl0 Hp0 Hcl]; simpl in *.
  - assert (ch0 <> ch) by congruence. exists h, c. rewrite !lookup_insert_ne by done. split_and!; try done; lia.
  - destruct (fan_out_lookup _ _ _ _ ch Hf) as [_ Hch]. rewrite Hc in Hch. simpl in Hch. rewrite lookup_fmap, Hl. simpl.
    destruct (so_handlers s Hok ch h Hl) as [(c1 & Hc1 & _ & Hclo & _) Hk]. rewrite Hc in Hc1. injection Hc1 as <-.
    assert (h_delivered (note ev h) = h_delivered h /\ h_phase (note ev h) = Serving) as [Hd Hph]
      by (unfold note; rewrite Hp; by destruct (wants ev (h_key h))).
    destruct (wanted (wants ev) (s_broker s) ch).
    + rewrite try_send_open in Hch by (apply Hclo; by rewrite Hp). eexists _, _. split; [done|]. split; [done|]. split; [exact Hch|].
      clear Hch. rewrite Hd. split; [|lia]. simpl. apply prefix_app. case_bool_decide; [by apply prefix_app_r|done].
    + exists (note ev h), c. rewrite Hd. split_and!; try done; lia.
  - unfold receive in Hr. destruct (chans (s_broker s) !! ch0) as [c0|] eqn:E0; [|done].
    destruct (ch_queue c0) as [|m q] eqn:Eq; [done|]. injection Hr as -> <-. simpl.
    destruct (decide (ch0 = ch)) as [->|Hd].
    + simplify_eq. rewrite bool_decide_true, !lookup_insert_eq by done. eexists _, _. split_and!; try done; simpl.
      * rewrite Eq, <- app_assoc. done.
      * by rewrite length_app.
    + rewrite bool_decide_false, !lookup_insert_ne by done. exists h, c. split_and!; try done; lia.
  - assert (ch0 <> ch) by congruence. exists h, c. rewrite !lookup_insert_ne by done. split_and!; try done; lia.
  - assert (ch0 <> ch) by congruence. unfold close_chan in Hcl. destruct (chans (s_broker s) !! ch0) as [c0|]; [|done].
    destruct (ch_closed c0); [done|]. injection Hcl as <-. simpl.
    exists h, c. rewrite !lookup_insert_ne by done. split_and!; try done; lia.
Qed.

(** C35. Every message accepted for a client is delivered: the message at position
    [k] of the queue of a handler has been written to the client after any run in
    which the handler receives more than [k] times and does not end; and a
    handler with a message in its queue can always receive. *)
Theorem queued_message_is_delivered s ls s' ch h c k m :
  reachable s -> s_handlers s !! ch = Some h -> h_phase h = Serving -> chans (s_broker s) !! ch = Some c ->
  ch_queue c !! k = Some m ->
  (exists s1, step s (LReceive ch) s1) /\
  (run s ls s' -> LLeave ch ∉ ls -> (k < length (filter (fun l => is_receive ch l = true) ls))%nat ->
   exists h', s_handlers s' !! ch = Some h' /\ h_delivered h' !! (length (h_delivered h) + k)%nat = Some m).
Proof.
  intros Hreach Hl Hp Hc Hk. apply reachable_ok in Hreach. split.
  { destruct (ch_queue c) as [|m0 q] eqn:Eq; [done|]. eexists. eapply step_receive; [done..|]. unfold receive. by rewrite Hc, Eq. }
  intros Hrun.
  assert (Hm : (h_delivered h ++ ch_queue c) !! (length (h_delivered h) + k)%nat = Some m)
    by (by rewrite lookup_app_r, Nat.add_comm, Nat.add_sub by lia).
  revert Hm. set (d := length (h_delivered h)). intros Hm Hleave Hcount.
  assert (Hgen : forall i, (h_delivered h ++ ch_queue c) !! i = Some m ->
    (i < length (h_delivered h) + length (filter (fun l => is_receive ch l = true) ls))%nat ->
    exists h', s_handlers s' !! ch = Some h' /\ h_delivered h' !! i = Some m); [|apply Hgen; [done|lia]].
  clear Hm Hk Hcount d. revert h c Hl Hp Hc. induction Hrun as [s|s1 l s2 ls s3 Hstep _ IH]; intros h c Hl Hp Hc i Hi Hcount; simpl in *.
  - exists h. split; [done|]. rewrite lookup_app_l in Hi by lia. done.
  - apply not_elem_of_cons in Hleave as [Hne Hleave].
    destruct (step_progress _ _ _ _ _ _ Hreach Hstep (not_eq_sym Hne) Hl Hp Hc) as (h' & c' & Hl' & Hp' & Hc' & Hpre & Hlen).
    eapply IH; [by eapply step_ok|done..| |].
    + by eapply prefix_lookup_Some.
    + rewrite filter_cons in Hcount. rewrite Hlen. destruct (is_receive ch l); case_decide; simpl in *; try done; lia.
Qed.
End streams.

(** ** The brokers of the program *)

(** [PublishToUsers] is the fan-out of its event, its early returns included:
    they are taken only when nobody wants the message. *)
Lemma fan_out_nobody {msg} (m : msg) b :
  (forall ch key, clients b !! ch = Some key -> sendable b ch = true) ->
  forall w, (forall key, w key = false) -> fan_out w m b = Some b.
Proof.
  intros Hs w Hw. destruct (fan_out_some w m b Hs) as [b' Hf]. rewrite Hf. f_equal.
  pose proof (proj1 (fan_out_lookup w m b b' 0 Hf)) as Hc.
  assert (chans b' = chans b) as Hch.
  { apply map_eq. intros ch. rewrite (proj2 (fan_out_lookup w m b b' ch Hf)). unfold wanted.
    destruct (chans b !! ch), (clients b !! ch); simpl; rewrite ?Hw; done. }
  destruct b, b'. simpl in *. by subst.
Qed.
Theorem PublishToUsers_fans_out payload users b :
  payload <> ""%string -> (forall ch key, clients b !! ch = Some key -> sendable b ch = true) ->
  PublishToUsers payload users b = fan_out (session_wants (EvToUsers users)) payload b.
Proof.
  intros Hp Hs. unfold PublishToUsers. rewrite (bool_decide_false (payload = _)) by done. rewrite orb_false_r.
  destruct (decide (filter (fun u => u <> ""%string) users = [])) as [E|E].
  - rewrite (fan_out_nobody payload b Hs (session_wants (EvToUsers users))).
    + repeat case_bool_decide; done.
    + intros key. unfold session_wants. rewrite E, (bool_decide_false (key ∈ [])) by (by intros ?%elem_of_nil). by rewrite andb_false_r.
  - rewrite !bool_decide_false; [done|done|]. intros ->. done.
Qed.

(** The subscription that is documented to receive every event gets none of
    those published to users. *)
Theorem unscoped_subscriber_gets_broadcasts_only users :
  session_wants EvBroadcast "" = true /\ session_wants (EvToUsers users) "" = false.
Proof. split; [done|]. unfold session_wants. by rewrite bool_decide_true. Qed.

(** *** The throttle *)

(** The throttle never holds back a change of state, and lets progress of a job through
    at most every 100 milliseconds. *)
Theorem throttle_spec now now2 id st t :
  let (t1, e1) := shouldEmit now id st t in
  (default ""%string (lastStates t !! id) <> st -> e1 = true) /\
  (e1 = true -> lastEmit t1 !! id = Some now) /\
  (e1 = true -> default ""%string (lastStates t1 !! id) = st /\
    (shouldEmit now2 id st t1).2 = (fileTransferProgressThrottle <=? Sub now2 now)%Z).
Proof.
  destruct (shouldEmit now id st t) as [t1 e1] eqn:E. unfold shouldEmit in E.
  destruct (decide (default ""%string (lastStates t !! id) = st)) as [Hs|Hs].
  - rewrite bool_decide_true in E by done. simpl in E.
    assert (E1 : e1 = true -> t1 = mkThrottle (<[id := now]> (lastEmit t)) (lastStates t)).
    { destruct (lastEmit t !! id); [destruct (_ <=? _)%Z|]; by injection E as <- <-. }
    split; [done|]. split; intros He; specialize (E1 He); subst t1; simpl; [by rewrite lookup_insert_eq|].
    split; [done|]. unfold shouldEmit. simpl. rewrite bool_decide_true, lookup_insert_eq by done. simpl. by destruct (_ <=? _)%Z.
  - rewrite bool_decide_false in E by done. injection E as <- <-. simpl. rewrite !lookup_insert_eq. split_and!; try done.
    intros _. split; [done|]. unfold shouldEmit. simpl. rewrite !lookup_insert_eq. simpl. rewrite bool_decide_true by done. simpl.
    by destruct (_ <=? _)%Z.
Qed.
(** A final state is lost for a client whose channel is full: the message is
    dropped and the state is recorded as sent. *)
Theorem full_channel_loses_final_state now snap user b b' ch c :
  clients (tb_broker b) !! ch = Some user -> chans (tb_broker b) !! ch = Some c -> ch_closed c = false ->
  length (ch_queue c) = ch_cap c ->
  default ""%string (lastStates (tb_throttle b) !! sn_ID snap) <> sn_State snap ->
  transfer_Publish now snap user b = Some b' ->
  chans (tb_broker b') !! ch = Some c /\
  (forall now2, (Sub now2 now < fileTransferProgressThrottle)%Z -> (shouldEmit now2 (sn_ID snap) (sn_State snap) (tb_throttle b')).2 = false).
Proof.
  intros Hcl Hch Ho Hfull Hst. unfold transfer_Publish.
  pose proof (fun now2 => throttle_spec now now2 (sn_ID snap) (sn_State snap) (tb_throttle b)) as Hth.
  destruct (shouldEmit now (sn_ID snap) (sn_State snap) (tb_throttle b)) as [t e].
  pose proof (proj1 (Hth now) Hst) as ->.
  destruct (fan_out _ snap (tb_broker b)) as [br|] eqn:Hf; [|done]. intros [= <-]. simpl. split.
  - rewrite (proj2 (fan_out_lookup _ _ _ _ ch Hf)), Hch. simpl. unfold wanted. rewrite Hcl, bool_decide_true by done.
    rewrite try_send_open by done. rewrite bool_decide_false by lia. destruct c. simpl in *. by subst.
  - intros now2 Hlt. destruct (Hth now2) as (_ & _ & Hs). destruct (Hs eq_refl) as [_ ->]. by apply Z.leb_gt.
Qed.

(** *** A concrete run

    User u1 subscribes, two events are published to u1 and one to u2, and the
    handler forwards what it has. *)
Definition demo_run : list (@label (session_event * string)) :=
  [LSubscribe 1 "u1"; LPublish (EvToUsers ["u1"], "a"); LPublish (EvToUsers ["u2"], "b"); LPublish (EvBroadcast, "c")]%string.
Abbreviation demo_wants := (fun e : session_event * string => session_wants e.1).
Definition demo_state : @state string :=
  mkState (mkBroker {[1 := "u1"]} {[1 := mkChan 64 ["a"; "c"] false]}) {[1 := mkHandler "u1" Serving [] ["a"; "c"]]}%string.
Lemma demo_reachable : reachable demo_wants snd 64 demo_state.
Proof.
  exists demo_run. unfold demo_run.
  eapply run_cons; [by apply step_subscribe|]. eapply run_cons; [by apply step_publish; vm_compute|].
  eapply run_cons; [by apply step_publish; vm_compute|]. eapply run_cons; [by apply step_publish; vm_compute|].
  match goal with |- run _ _ _ ?s _ _ => replace s with demo_state by (vm_compute; reflexivity) end. constructor.
Qed.
Definition demo_next : @state string :=
  mkState (mkBroker {[1 := "u1"]} {[1 := mkChan 64 [] false]}) {[1 := mkHandler "u1" Serving ["a"; "c"] ["a"; "c"]]}%string.
Lemma demo_receives : run demo_wants snd 64 demo_state [LReceive 1; LReceive 1] demo_next.
Proof.
  eapply run_cons; [by eapply step_receive; vm_compute|].
  eapply run_cons; [by eapply step_receive; vm_compute|].
  match goal with |- run _ _ _ ?s _ _ => replace s with demo_next by (vm_compute; reflexivity) end. constructor.
Qed.
Lemma queued_message_is_delivered_witness :
  exists h', s_handlers demo_next !! 1 = Some h' /\ h_delivered h' !! 1 = Some "c"%string.
Proof.
  eapply (queued_message_is_delivered demo_wants snd 64 demo_state [LReceive 1; LReceive 1] demo_next 1
    (mkHandler "u1" Serving [] ["a"; "c"])%string (mkChan 64 ["a"; "c"] false)%string 1 "c"%string demo_reachable);
    [done..|exact demo_receives| |vm_compute; lia].
  rewrite !not_elem_of_cons. split_and!; [done|done|apply not_elem_of_nil].
Defined.
Lemma streams_never_panic_witness :
  (forall ev, is_Some (fan_out (demo_wants ev) (snd ev) (s_broker demo_state))) /\
  (forall ch h, s_handlers demo_state !! ch = Some h -> h_phase h = Leaving -> is_Some (close_chan ch (s_broker demo_state))).
Proof. apply (streams_never_panic demo_wants snd 64 demo_state demo_reachable). Defined.
Lemma delivered_in_order_witness :
  let h := mkHandler "u1" Serving [] ["a"; "c"]%string in
  sublist (h_delivered h) (h_published h) /\
  ((length (h_published h) <= 64)%nat -> exists rest, h_delivered h ++ rest = h_published h /\ (length rest <= 64)%nat).
Proof. apply (delivered_in_order demo_wants snd 64 demo_state 1 (mkHandler "u1" Serving [] ["a"; "c"])%string demo_reachable). done. Defined.
Lemma only_wanted_events_arrive_witness :
  exists ev, LPublish ev ∈ demo_run ++ [LReceive 1; LReceive 1] /\ demo_wants ev "u1"%string = true /\ "c"%string = snd ev.
Proof.
  apply (only_wanted_events_arrive demo_wants snd 64 (demo_run ++ [LReceive 1; LReceive 1]) demo_next 1 (mkHandler "u1" Serving ["a"; "c"] ["a"; "c"])%string "c"%string);
    [|done|by apply (bool_decide_eq_true_1 _)].
  unfold demo_run. simpl.
  eapply run_cons; [by apply step_subscribe|]. eapply run_cons; [by apply step_publish; vm_compute|].
  eapply run_cons; [by apply step_publish; vm_compute|]. eapply run_cons; [by apply step_publish; vm_compute|].
  match goal with |- run _ _ _ ?s _ _ => replace s with demo_state by (vm_compute; reflexivity) end. exact demo_receives.
Defined.
