(* ===== verification/TelnetIac.v ===== *)
(** The telnet protocol layer: IAC filtering and option negotiation
    (src/internal/telnetproxy/iac.go), the terminal size (size.go), and the
    input normalisation of bridge.go. *)
From S2P Require Import Prelude GoText.
Local Open Scope Z_scope.

Definition iac : Z := 255.
Definition will : Z := 251.
Definition wont : Z := 252.
Definition do_ : Z := 253.
Definition dont : Z := 254.
Definition sb : Z := 250.
Definition se : Z := 240.
Definition optEcho : Z := 1.
Definition optSuppressGoAhead : Z := 3.
Definition optNAWS : Z := 31.

Definition sendClientNegotiation : list Z := [iac; will; optSuppressGoAhead; iac; wont; optEcho].

Definition negotiateReply (cmd opt : Z) : list Z :=
  if cmd =? do_ then
    if opt =? optEcho then [iac; wont; optEcho]
    else if opt =? optSuppressGoAhead then [iac; will; opt]
    else if opt =? optNAWS then [iac; will; opt]
    else [iac; wont; opt]
  else if cmd =? dont then [iac; wont; opt]
  else if cmd =? will then
    if (opt =? optEcho) || (opt =? optSuppressGoAhead) then [iac; do_; opt]
    else [iac; dont; opt]
  else if cmd =? wont then [iac; dont; opt]
  else [].

(** The inner loop of a subnegotiation: what follows its [IAC SE], or [None]
    when the buffer ends before it. *)
Fixpoint skip_subnegotiation (b : list Z) : option (list Z) :=
  match b with
  | [] => None
  | x :: b' =>
      match b' with
      | y :: b'' => if (x =? iac) && (y =? se) then Some b'' else skip_subnegotiation b'
      | [] => None
      end
  end.

(** [filterIACBytes]: the text, the replies sent, and the unfinished rest. Each
    iteration consumes a byte, so [length b] is enough fuel. *)
Record filtered := mkFiltered { f_out : list Z; f_replies : list (list Z); f_rest : list Z }.
Definition emit (x : Z) (r : filtered) : filtered := mkFiltered (x :: f_out r) (f_replies r) (f_rest r).
Definition reply (p : list Z) (r : filtered) : filtered :=
  mkFiltered (f_out r) (if decide (p = []) then f_replies r else p :: f_replies r) (f_rest r).
Fixpoint filter_fuel (n : nat) (b : list Z) : filtered :=
  match n, b with
  | S n, x :: b1 =>
      if negb (x =? iac) then emit x (filter_fuel n b1)
      else
        match b1 with
        | [] => mkFiltered [] [] [iac]
        | cmd :: b2 =>
            if cmd =? iac then emit iac (filter_fuel n b2)
            else if (cmd =? do_) || (cmd =? dont) || (cmd =? will) || (cmd =? wont) then
              match b2 with
              | [] => mkFiltered [] [] [iac; cmd]
              | opt :: b3 => reply (negotiateReply cmd opt) (filter_fuel n b3)
              end
            else if cmd =? sb then
              match skip_subnegotiation b2 with
              | Some (y :: b3) => filter_fuel n (y :: b3)
              | _ => mkFiltered [] [] (x :: cmd :: b2)
              end
            else filter_fuel n b2
        end
  | _, _ => mkFiltered [] [] []
  end.
Definition filterIACBytes (b : list Z) : filtered := filter_fuel (length b) b.

(** [iacStream] holds the pending bytes. [Filter] returns the text; the replies
    it sent come with it. *)
Definition Filter (pending b : list Z) : list Z * (list Z * list (list Z)) :=
  let r := filterIACBytes (pending ++ b) in
  (f_rest r, (f_out r, f_replies r)).
(** A TCP stream read in chunks. *)
Fixpoint filter_chunks (pending : list Z) (chunks : list (list Z)) : list Z * (list Z * list (list Z)) :=
  match chunks with
  | [] => (pending, ([], []))
  | c :: chunks =>
      let '(p, (o, r)) := Filter pending c in
      let '(p', (o', r')) := filter_chunks p chunks in
      (p', (o ++ o', r ++ r'))
  end.

(** ** Terminal size *)
Definition clampTerminalSize (cols rows : Z) : Z * Z :=
  let cols := if cols <=? 0 then 80 else cols in
  let rows := if rows <=? 0 then 24 else rows in
  let cols := if 65535 <? cols then 65535 else cols in
  let rows := if 65535 <? rows then 65535 else rows in
  (cols, rows).
Record terminalSize := mkSize { ts_cols : Z; ts_rows : Z }.
Definition newTerminalSize (cols rows : Z) : terminalSize :=
  let (c, r) := clampTerminalSize cols rows in mkSize c r.
Definition size_get (t : terminalSize) : Z * Z := (ts_cols t, ts_rows t).
Definition size_set (t : terminalSize) (cols rows : Z) : terminalSize * bool :=
  let (c, r) := clampTerminalSize cols rows in
  if (ts_cols t =? c) && (ts_rows t =? r) then (t, false) else (mkSize c r, true).

(** [byte(x >> 8), byte(x)] *)
Definition be16 (x : Z) : list Z := [Z.land (Z.shiftr x 8) 255; Z.land x 255].
Definition encodeNAWS (cols rows : Z) : list Z :=
  let (c, r) := clampTerminalSize cols rows in
  [iac; sb; optNAWS] ++ be16 c ++ be16 r ++ [iac; se].

(** ** Input *)

(** LF becomes CR LF unless a CR precedes it; [prev] is the byte before. *)
Fixpoint normalize_from (prev : option Z) (b : list Z) : list Z :=
  match b with
  | [] => []
  | x :: b' =>
      (if (x =? 10) && bool_decide (prev <> Some 13) then [13; x] else [x]) ++ normalize_from (Some x) b'
  end.
Definition normalizeTelnetInput (b : list Z) : list Z :=
  if decide (10 ∉ b) then b else normalize_from None b.

(** ** Chunks do not matter *)
Lemma skip_app b1 b2 b3 : skip_subnegotiation b1 = Some b3 -> skip_subnegotiation (b1 ++ b2) = Some (b3 ++ b2).
Proof.
  induction b1 as [|x b1 IH]; simpl; [done|]. destruct b1 as [|y b1]; [done|].
  destruct ((x =? iac) && (y =? se)) eqn:E; simpl in *; rewrite E; [by intros [= <-]|]. apply IH.
Qed.
Lemma skip_length b b' : skip_subnegotiation b = Some b' -> (length b' < length b)%nat.
Proof.
  induction b as [|x b IH]; simpl; [done|]. destruct b as [|y b]; [done|].
  destruct (_ && _); [intros [= <-]; simpl; lia|]. intros H%IH. simpl in *. lia.
Qed.

Definition prepend (r : filtered) (r' : filtered) : filtered :=
  mkFiltered (f_out r ++ f_out r') (f_replies r ++ f_replies r') (f_rest r').
Lemma prepend_emit x r r' : prepend (emit x r) r' = emit x (prepend r r').
Proof. done. Qed.
Lemma prepend_reply p r r' : prepend (reply p r) r' = reply p (prepend r r').
Proof. unfold prepend, reply. simpl. by case_decide. Qed.

(** More fuel than bytes changes nothing. *)
Lemma filter_fuel_enough n m b : (length b <= n)%nat -> (length b <= m)%nat -> filter_fuel n b = filter_fuel m b.
Proof.
  revert m b. induction n as [|n IH]; intros m b Hn Hm.
  { destruct b; [by destruct m|simpl in Hn; lia]. }
  destruct b as [|x b1]; [by destruct m|]. destruct m as [|m]; [simpl in Hm; lia|]. simpl in *.
  destruct (negb (x =? iac)); [f_equal; apply IH; lia|].
  destruct b1 as [|cmd b2]; [done|]. simpl in *.
  destruct (cmd =? iac); [f_equal; apply IH; lia|].
  destruct (_ || _ || _ || _).
  { destruct b2 as [|opt b3]; [done|]. simpl in *. f_equal. apply IH; lia. }
  destruct (cmd =? sb); [|apply IH; lia].
  destruct (skip_subnegotiation b2) as [[|y b3]|] eqn:E; try done.
  apply skip_length in E. simpl in E. apply IH; simpl; lia.
Qed.
Lemma filter_bytes_fuel n b : (length b <= n)%nat -> filter_fuel n b = filterIACBytes b.
Proof. intros. by apply filter_fuel_enough. Qed.

(** Filtering resumes where it stopped. *)
Lemma filter_app b1 b2 :
  filterIACBytes (b1 ++ b2) = prepend (filterIACBytes b1) (filterIACBytes (f_rest (filterIACBytes b1) ++ b2)).
Proof.
  assert (Hgen : forall n b1, (length b1 <= n)%nat ->
    filter_fuel (n + length b2) (b1 ++ b2) =
    prepend (filter_fuel n b1) (filterIACBytes (f_rest (filter_fuel n b1) ++ b2))).
  { clear b1. induction n as [|n IH]; intros b1 Hn.
    { destruct b1; [|simpl in Hn; lia]. simpl. rewrite filter_bytes_fuel by lia. by destruct (filterIACBytes b2). }
    destruct b1 as [|x b1].
    { simpl app. rewrite filter_bytes_fuel by lia. simpl. by destruct (filterIACBytes b2). }
    assert (Hrest : filter_fuel (S n + length b2) ((x :: b1) ++ b2) =
      prepend (mkFiltered [] [] (x :: b1)) (filterIACBytes ((x :: b1) ++ b2))).
    { rewrite filter_bytes_fuel by (rewrite length_app; simpl in *; lia). by destruct (filterIACBytes _). }
    simpl in Hn. simpl in *. destruct (negb (x =? iac)) eqn:Ex.
    { rewrite IH by lia. done. }
    apply negb_false_iff, Z.eqb_eq in Ex as ->.
    destruct b1 as [|cmd b3]; [exact Hrest|]. simpl in *.
    destruct (cmd =? iac) eqn:Ec. { rewrite IH by lia. done. }
    destruct (_ || _ || _ || _) eqn:Ed.
    { destruct b3 as [|opt b4]; [exact Hrest|]. simpl in *. rewrite IH by lia.
      simpl. by rewrite prepend_reply. }
    destruct (cmd =? sb) eqn:Es; [|by rewrite IH by lia].
    destruct (skip_subnegotiation b3) as [[|y b4]|] eqn:Esk; [exact Hrest| |exact Hrest].
    rewrite (skip_app _ b2 _ Esk). simpl. apply skip_length in Esk. simpl in Esk.
    apply (IH (y :: b4)). simpl. lia. }
  unfold filterIACBytes at 1. rewrite length_app. by apply Hgen.
Qed.

(** C10. How the network splits the telnet stream does not matter: reading it in
    any chunks gives the same text, the same negotiation replies in the same
    order and the same unfinished rest as reading it at once. *)
Theorem filter_chunks_invariant chunks :
  let r := filterIACBytes (concat chunks) in
  filter_chunks [] chunks = (f_rest r, (f_out r, f_replies r)).
Proof.
  assert (Hgen : forall chunks pending, filterIACBytes pending = mkFiltered [] [] pending ->
    let r := filterIACBytes (pending ++ concat chunks) in
    filter_chunks pending chunks = (f_rest r, (f_out r, f_replies r))).
  { clear. induction chunks as [|c chunks IH]; intros p Hp; simpl.
    { rewrite app_nil_r, Hp. done. }
    rewrite app_assoc, (filter_app (p ++ c)). unfold Filter. set (r1 := filterIACBytes (p ++ c)).
    assert (Hr1 : filterIACBytes (f_rest r1) = mkFiltered [] [] (f_rest r1)).
    { pose proof (filter_app (p ++ c) []) as Ha. rewrite !app_nil_r in Ha. fold r1 in Ha.
      destruct (filterIACBytes (f_rest r1)) as [o2 r2 rs2], r1 as [o1 rp1 rs1]. unfold prepend in Ha. simpl in *.
      injection Ha as Ho Hr ->. f_equal.
      - apply (app_inv_head o1). rewrite app_nil_r. by symmetry.
      - apply (app_inv_head rp1). rewrite app_nil_r. by symmetry. }
    cbv zeta. rewrite (IH (f_rest r1) Hr1). done. }
  apply (Hgen chunks []). done.
Qed.

(** ** NAWS *)

(** RFC 855: inside a subnegotiation a doubled IAC is one data byte, and IAC SE
    ends it. *)
Fixpoint decode_subnegotiation (b : list Z) : option (list Z * list Z) :=
  match b with
  | [] => None
  | x :: b' =>
      if x =? iac then
        match b' with
        | [] => None
        | y :: b'' =>
            if y =? iac then (fun p => (iac :: p.1, p.2)) <$> decode_subnegotiation b''
            else if y =? se then Some ([], b'') else None
        end
      else (fun p => (x :: p.1, p.2)) <$> decode_subnegotiation b'
  end.
(** RFC 1073: the size a peer reads from the message. *)
Definition decodeNAWS (b : list Z) : option (Z * Z) :=
  match b with
  | i :: s :: o :: b' =>
      if (i =? iac) && (s =? sb) && (o =? optNAWS) then
        match decode_subnegotiation b' with
        | Some ([c1; c0; r1; r0], []) => Some (c1 * 256 + c0, r1 * 256 + r0)
        | _ => None
        end
      else None
  | _ => None
  end.

Lemma clamp_range cols rows :
  let (c, r) := clampTerminalSize cols rows in 1 <= c <= 65535 /\ 1 <= r <= 65535.
Proof. unfold clampTerminalSize. destruct (Z.leb_spec cols 0), (Z.leb_spec rows 0); repeat (case_match || case_decide); lia. Qed.
Lemma be16_val x : 0 <= x <= 65535 ->
  exists h l, be16 x = [h; l] /\ h = x / 256 /\ l = x mod 256 /\ x = h * 256 + l.
Proof.
  intros Hx. exists (x / 256), (x mod 256). unfold be16.
  rewrite Z.shiftr_div_pow2 by lia. change (2 ^ 8) with 256.
  change 255 with (Z.ones 8). rewrite !Z.land_ones by lia. change (2 ^ 8) with 256.
  rewrite (Z.mod_small (x / 256)). 2: { split; [apply Z.div_pos; lia|]. apply Z.div_lt_upper_bound; lia. }
  split; [done|]. split; [done|]. split; [done|].
  pose proof (Z_div_mod_eq_full x 256). lia.
Qed.

(** No byte of the size is 255. *)
Definition naws_safe (x : Z) : Prop := x / 256 <> 255 /\ x mod 256 <> 255.

(** The window-size message is read back by an RFC 1073 peer as the clamped
    size, as long as no byte of it is 255. *)
Theorem naws_roundtrip cols rows :
  let (c, r) := clampTerminalSize cols rows in
  naws_safe c -> naws_safe r -> decodeNAWS (encodeNAWS cols rows) = Some (c, r).
Proof.
  pose proof (clamp_range cols rows) as Hr. unfold encodeNAWS.
  destruct (clampTerminalSize cols rows) as [c r]. destruct Hr as [Hc Hr]. intros [Hc1 Hc0] [Hr1 Hr0].
  destruct (be16_val c) as (ch & cl & -> & Hch & Hcl & Ec); [lia|].
  destruct (be16_val r) as (rh & rl & -> & Hrh & Hrl & Er); [lia|]. simpl.
  rewrite (proj2 (Z.eqb_neq ch iac)) by (unfold iac; lia).
  rewrite (proj2 (Z.eqb_neq cl iac)) by (unfold iac; lia).
  rewrite (proj2 (Z.eqb_neq rh iac)) by (unfold iac; lia).
  rewrite (proj2 (Z.eqb_neq rl iac)) by (unfold iac; lia). simpl. by rewrite <- Ec, <- Er.
Qed.

(** A size byte of 255 is sent without doubling it, so a standard peer
    cannot read the message; the gateway's own filter, fed a subnegotiation
    whose data is an escaped 255 followed by 240, ends it early and lets the
    remaining protocol bytes through as text. *)
Theorem naws_unescaped_iac rows :
  decodeNAWS (encodeNAWS 255 rows) = None /\
  f_out (filterIACBytes [iac; sb; 24; iac; iac; 240; 7; iac; se; 65]) = [7; 65].
Proof.
  split; [|reflexivity]. unfold encodeNAWS.
  pose proof (clamp_range 255 rows) as Hr.
  assert (E : exists r, clampTerminalSize 255 rows = (255, r)) by (eexists; unfold clampTerminalSize; reflexivity).
  destruct E as [r E]. rewrite E in Hr |- *. destruct Hr as [_ Hr]. change (be16 255) with [0; 255].
  destruct (be16_val r) as (rh & rl & -> & Hrh & _ & _); [lia|]. simpl.
  destruct (rh =? iac); [|by destruct (rh =? se)].
  destruct (rl =? iac); by simpl.
Qed.
Lemma naws_roundtrip_witness : decodeNAWS (encodeNAWS 0 70000) = None /\ decodeNAWS (encodeNAWS 132 0) = Some (132, 24).
Proof.
  split; [reflexivity|]. apply (naws_roundtrip 132 0); split; vm_compute; discriminate.
Defined.
