(* ===== verification/TelnetLogin.v ===== *)
(** The telnet login automation (src/internal/telnetproxy/login.go): watches the
    target's output for prompts and types the stored credentials. *)
From S2P Require Import Prelude GoText.
Local Open Scope Z_scope.

Record LoginAutomater := mkAutomater {
  la_username : list Z;
  la_password : list Z;
  la_state : nat; (* 0: waiting for the login prompt, 1: for the password prompt, 2: done *)
  la_tail : list Z
}.
Definition NewLoginAutomater (username password : list Z) : option LoginAutomater :=
  if decide (username = []) then None else Some (mkAutomater username password 0 []).

(** [bytes.LastIndexAny(l, crlf)] *)
Fixpoint last_index_crlf (l : list Z) : option nat :=
  match l with
  | [] => None
  | b :: l' =>
      match last_index_crlf l' with
      | Some i => Some (S i)
      | None => if (b =? 13) || (b =? 10) then Some 0%nat else None
      end
  end.
Definition promptLineSuffix (lower : list Z) : list Z :=
  match last_index_crlf lower with
  | Some idx => if decide (idx + 1 < length lower)%nat then drop (idx + 1) lower else lower
  | None => lower
  end.
Definition any_contains (s : list Z) (needles : list string) : bool :=
  existsb (fun n => contains s (bs n)) needles.
Definition loginPromptSeen (suffix : list Z) : bool :=
  any_contains (TrimSpace suffix)
    ["login:"; "log in:"; "username:"; "user name:"; "account:"; "account name:";
     "user access verification"; "ログイン"; "ユーザ"]%string.
Definition passwordPromptSeen (suffix : list Z) : bool :=
  any_contains (TrimSpace suffix) ["password:"; "passwort:"; "passwd:"; "パスワード"]%string.

Definition tailSize : nat := 512.
Section login.
Context `{UnicodeTables}.

(** The prompt the automater waits for in state [st]. *)
Definition promptSeen (st : nat) (tail : list Z) : bool :=
  let suffix := promptLineSuffix (ToLower tail) in
  match st with
  | O => loginPromptSeen suffix
  | S O => passwordPromptSeen suffix
  | _ => false
  end.
(** What it types there. *)
Definition credential (l : LoginAutomater) (st : nat) : list Z :=
  (if decide (st = 0%nat) then la_username l else la_password l) ++ [13].

(** [OnOutput]: the new state and what was written to the connection. *)
Definition OnOutput (l : LoginAutomater) (chunk : list Z) : LoginAutomater * list (list Z) :=
  if decide (2 <= la_state l \/ length chunk = 0)%nat then (l, [])
  else
    let tail := la_tail l ++ chunk in
    let tail := if decide (tailSize < length tail)%nat then drop (length tail - tailSize) tail else tail in
    if promptSeen (la_state l) tail
    then (mkAutomater (la_username l) (la_password l) (S (la_state l)) [], [credential l (la_state l)])
    else (mkAutomater (la_username l) (la_password l) (la_state l) tail, []).

Fixpoint OnOutputs (l : LoginAutomater) (chunks : list (list Z)) : LoginAutomater * list (list Z) :=
  match chunks with
  | [] => (l, [])
  | c :: chunks =>
      let (l, w) := OnOutput l c in
      let (l, w') := OnOutputs l chunks in (l, w ++ w')
  end.

(** ** Specification: the same machine without the bounded window

    [since] is all output received since the last write; a prompt is looked for
    in its last 512 bytes, after every chunk. *)
Definition spec_step (u p : list Z) (st : nat) (since chunk : list Z) : nat * list Z * list (list Z) :=
  if decide (2 <= st \/ chunk = [])%nat then (st, since, [])
  else if promptSeen st (last_n tailSize (since ++ chunk))
       then (S st, [], [(if decide (st = 0%nat) then u else p) ++ [13]])
       else (st, since ++ chunk, []).
Fixpoint spec_steps (u p : list Z) (st : nat) (since : list Z) (chunks : list (list Z)) : nat * list (list Z) :=
  match chunks with
  | [] => (st, [])
  | c :: chunks =>
      let '(st, since, w) := spec_step u p st since c in
      let (st, w') := spec_steps u p st since chunks in (st, w ++ w')
  end.

Lemma window_last_n (l : list Z) : (if decide (tailSize < length l)%nat then drop (length l - tailSize) l else l) = last_n tailSize l.
Proof. case_decide; [done|]. by rewrite last_n_all by lia. Qed.

Lemma OnOutput_spec u p st since chunk :
  OnOutput (mkAutomater u p st (last_n tailSize since)) chunk =
  let '(st', since', w) := spec_step u p st since chunk in
  (mkAutomater u p st' (last_n tailSize since'), w).
Proof.
  unfold OnOutput, spec_step. cbn [la_state la_tail la_username la_password].
  assert (Hd : (2 <= st \/ length chunk = 0)%nat <-> (2 <= st \/ chunk = [])%nat).
  { by rewrite length_zero_iff_nil. }
  destruct (decide (2 <= st \/ chunk = [])%nat) as [D|D].
  - by rewrite decide_True by tauto.
  - rewrite decide_False by tauto. rewrite window_last_n, last_n_last_n.
    by destruct (promptSeen st (last_n tailSize (since ++ chunk))).
Qed.

(** The automater types the user name at most once and the password at most
    once, in this order and each followed by a carriage return, whatever the
    target prints and however it is split into chunks; it types them exactly
    when the machine that remembers all output since the last write sees the
    prompt in its last 512 bytes; and it never keeps more than 512 bytes. *)
Theorem login_automation u p l chunks :
  NewLoginAutomater u p = Some l ->
  let (l', w) := OnOutputs l chunks in
  w = take (la_state l') [u ++ [13]; p ++ [13]] /\ (la_state l' <= 2)%nat /\
  (length (la_tail l') <= tailSize)%nat /\
  (la_state l', w) = spec_steps u p 0 [] chunks.
Proof.
  unfold NewLoginAutomater. case_decide; [done|]. intros [= <-].
  change (@nil Z) with (last_n tailSize (@nil Z)) at 1.
  assert (Hgen : forall st since, (st <= 2)%nat ->
    let (l', w) := OnOutputs (mkAutomater u p st (last_n tailSize since)) chunks in
    take st [u ++ [13]; p ++ [13]] ++ w = take (la_state l') [u ++ [13]; p ++ [13]] /\
    (la_state l' <= 2)%nat /\ (length (la_tail l') <= tailSize)%nat /\
    (la_state l', w) = spec_steps u p st since chunks).
  { induction chunks as [|c chunks IH]; intros st since Hst; simpl.
    { rewrite app_nil_r, last_n_length. split; [done|]. split; [done|]. split; [lia|done]. }
    rewrite OnOutput_spec. destruct (spec_step u p st since c) as [[st' since'] w] eqn:Hs.
    assert (Hw : take st [u ++ [13]; p ++ [13]] ++ w = take st' [u ++ [13]; p ++ [13]] /\ (st' <= 2)%nat).
    { unfold spec_step in Hs. case_decide as Hd; [simplify_eq; by rewrite app_nil_r|].
      destruct (promptSeen st _); simplify_eq; [|by rewrite app_nil_r].
      destruct st as [|[|st]]; [split; [done|lia]|split; [done|lia]|lia]. }
    destruct Hw as [Hw Hst']. specialize (IH st' since' Hst').
    destruct (OnOutputs _ chunks) as [l' w'] eqn:Ho. destruct IH as (H1 & H2 & H3 & H4).
    destruct (spec_steps u p st' since' chunks) as [st2 w2]. simplify_eq.
    split; [by rewrite app_assoc, Hw|]. by split; [|split]. }
  exact (Hgen 0%nat [] ltac:(lia)).
Qed.
End login.

Lemma login_automation_witness :
  (OnOutputs (mkAutomater (bs "admin") (bs "pw") 0 []) [bs "Welcome"; [13; 10] ++ bs "Log"; bs "in: "; bs "admin"; [13; 10] ++ bs "Password:"; bs "Login: "]).2
  = take 2 [bs "admin" ++ [13]; bs "pw" ++ [13]].
Proof.
  pose proof (login_automation (bs "admin") (bs "pw") (mkAutomater (bs "admin") (bs "pw") 0 [])
    [bs "Welcome"; [13; 10] ++ bs "Log"; bs "in: "; bs "admin"; [13; 10] ++ bs "Password:"; bs "Login: "] eq_refl) as X.
  destruct (OnOutputs _ _) as [l' w] eqn:E. destruct X as (-> & _). cbn [snd].
  f_equal. apply (f_equal (fun r => la_state r.1)) in E. cbn [fst] in E. rewrite <- E. vm_compute. reflexivity.
Defined.
