(* ===== verification/TelnetBridge.v ===== *)
(** The detachable telnet bridge (src/internal/telnetproxy/bridge_detachable.go):
    the client table of BridgeClients.v around a TCP connection with IAC
    filtering, window-size negotiation and login automation.

    The client table code of the two bridges is the same text, so the telnet
    functions are the ones of BridgeClients.v on the [t_clients] component;
    what differs is written out. *)
From S2P Require Import Prelude GoText RingBuffer BridgeClients TelnetIac TelnetLogin.
Local Open Scope Z_scope.

Record detachableBridge := mkTelnet {
  t_clients : bridge;                 (* clients, output, stdinCh *)
  t_size : terminalSize;
  t_login : option LoginAutomater;
  t_pending : list Z;                 (* iacProc *)
  t_conn : list (list Z);             (* writes to the target's connection, in order *)
  t_recorded : list (Z * Z)           (* resizeRecorder calls *)
}.
Definition with_bridge (t : detachableBridge) (b : bridge) : detachableBridge :=
  mkTelnet b (t_size t) (t_login t) (t_pending t) (t_conn t) (t_recorded t).
Definition conn_Write (p : list Z) (t : detachableBridge) : detachableBridge :=
  mkTelnet (t_clients t) (t_size t) (t_login t) (t_pending t) (t_conn t ++ [p]) (t_recorded t).

(** [wake]: [telnetWakeOnConnect()]. *)
Definition newDetachableBridge (output : RingBuffer) (username password : list Z) (wake : bool)
    (initialCols initialRows : Z) : detachableBridge :=
  let termSize := newTerminalSize initialCols initialRows in
  let loginAuto := NewLoginAutomater username password in
  mkTelnet (newSSHDetachableBridge output) termSize loginAuto []
    (match loginAuto with Some _ => if wake then [[13]] else [] | None => [] end) [].

Definition replyTo (iacReply : list Z) (t : detachableBridge) : detachableBridge :=
  let t := conn_Write iacReply t in
  if decide (iacReply = [iac; will; optNAWS]) then
    let (cols, rows) := size_get (t_size t) in conn_Write (encodeNAWS cols rows) t
  else t.

Definition tryResize (cols rows : Z) (t : detachableBridge) : detachableBridge :=
  match size_set (t_size t) cols rows with
  | (_, false) => t
  | (size, true) =>
      let (c, r) := size_get size in
      mkTelnet (t_clients t) size (t_login t) (t_pending t) (t_conn t ++ [encodeNAWS c r])
        (t_recorded t ++ [(c, r)])
  end.

(** One chunk taken from [stdinCh]. *)
Definition telnet_runStdinPump (data : list Z) (t : detachableBridge) : detachableBridge :=
  if decide (0 < length data)%nat then conn_Write (normalizeTelnetInput data) t else t.

Definition telnet_broadcast (fails : nat -> bool) (p : list Z) (t : detachableBridge) : detachableBridge :=
  with_bridge t (broadcast fails p (t_clients t)).
Definition telnet_broadcastText (fails : nat -> bool) (p : list Z) (t : detachableBridge) : detachableBridge :=
  with_bridge t (broadcastText fails p (t_clients t)).
Definition telnet_SetWriter (userID : string) (t : detachableBridge) : detachableBridge :=
  with_bridge t (SetWriter userID (t_clients t)).
Definition telnet_demoteOtherWritersLocked (id : nat) (t : detachableBridge) : detachableBridge :=
  with_bridge t (demoteOtherWritersLocked id (t_clients t)).
Definition telnet_DetachUser (userID : string) (t : detachableBridge) : detachableBridge :=
  with_bridge t (DetachUser userID (t_clients t)).
Definition telnet_detachEntry (id : nat) (t : detachableBridge) : detachableBridge :=
  with_bridge t (detachEntry id (t_clients t)).
Definition telnet_attachStream (mode : AttachMode) (userID : string) (wf : bool) (t : detachableBridge)
    : detachableBridge := with_bridge t (attachStream mode userID wf (t_clients t)).1.

(** A browser that attaches makes the bridge announce the window size again,
    unless the replay could not be written. *)
Definition telnet_attachWebSocket (mode : AttachMode) (userID : string) (wf : bool) (t : detachableBridge)
    : detachableBridge :=
  let t' := with_bridge t (attachWebSocket mode userID wf (t_clients t)).1 in
  if wf && bool_decide (0 < length (Bytes (b_output (t_clients t))))%nat then t'
  else let (cols, rows) := size_get (t_size t) in conn_Write (encodeNAWS cols rows) t'.
Definition telnet_doAttach (kind : conn_kind) (mode : AttachMode) (userID : string) (wf : bool)
    (t : detachableBridge) : detachableBridge :=
  match kind with
  | ConnWebSocket => telnet_attachWebSocket mode userID wf t
  | ConnStream => telnet_attachStream mode userID wf t
  end.

Section output.
Context `{UnicodeTables}.
(** One read of [runOutputPump]: filter, answer negotiations, automate the
    login, record and broadcast. *)
Definition runOutputPump (fails : nat -> bool) (buf : list Z) (t : detachableBridge) : detachableBridge :=
  let '(pending, (filtered, replies)) := Filter (t_pending t) buf in
  let t := foldl (fun t r => replyTo r t) t replies in
  let t := mkTelnet (t_clients t) (t_size t) (t_login t) pending (t_conn t) (t_recorded t) in
  if decide (0 < length filtered)%nat then
    let t := match t_login t with
             | None => t
             | Some l =>
                 let (l, writes) := OnOutput l filtered in
                 mkTelnet (t_clients t) (t_size t) (Some l) (t_pending t) (t_conn t ++ writes) (t_recorded t)
             end in
    let b := t_clients t in
    let b := mkBridge (b_clients b) (b_entries b) (b_next b) (b_stdinCh b)
               (fst (Write (b_output b) filtered)) (b_sent b) (b_resizes b) in
    telnet_broadcast fails filtered (with_bridge t b)
  else t.
End output.

(** [handleResizeMessage]: reports whether the message was a resize. *)
Definition handleResizeMessage (m : ws_msg) (t : detachableBridge) : detachableBridge * bool :=
  match resize_request m with
  | Some (cols, rows) => (tryResize cols rows t, true)
  | None => (t, false)
  end.
(** Up to the test of [canWrite], which is the step [test_canWrite] of
    BridgeClients.v; a resize is done at once, without that test. *)
Definition telnet_readWebSocket (id : nat) (m : ws_msg) (t : detachableBridge) : detachableBridge :=
  match b_entries (t_clients t) !! id with
  | None => t
  | Some c =>
      if negb (idle c) then t
      else if c_closed c then telnet_detachEntry id t
      else
        let (t', handled) := handleResizeMessage m t in
        if handled then t'
        else if isDataMessage (m_type m)
        then with_bridge t (update id (set_input [InData (m_data m)] None c) (t_clients t))
        else t
  end.

(** ** Properties *)

Lemma update_back id c q p b : b_entries b !! id = Some c -> c_queue c = q -> c_passed c = p ->
  forall q' p', update id (set_input q p (set_input q' p' c)) (update id (set_input q' p' c) b) = b.
Proof.
  intros Hl <- <- q' p'. unfold update, with_clients. simpl. rewrite insert_insert_eq.
  rewrite (insert_id (b_entries b) id); [by destruct b|]. rewrite Hl. by destruct c.
Qed.
(** Over telnet a viewer resizes everybody's terminal: the same resize
    message that the SSH bridge drops at the test of a client without the write
    token changes the telnet bridge's size and announces it to the target. *)
Theorem telnet_viewer_resizes t id c m cols rows :
  b_entries (t_clients t) !! id = Some c -> idle c = true -> c_canWrite c = false -> c_closed c = false ->
  resize_request m = Some (cols, rows) -> (size_set (t_size t) cols rows).2 = true ->
  test_canWrite id (readWebSocket true id m (t_clients t)) = t_clients t /\
  let t' := telnet_readWebSocket id m t in
  size_get (t_size t') = clampTerminalSize cols rows /\
  t_conn t' = t_conn t ++ [encodeNAWS (clampTerminalSize cols rows).1 (clampTerminalSize cols rows).2].
Proof.
  intros Hl Hi Hcw Hcl Hm Hs. split.
  - unfold readWebSocket, ws_inbound. rewrite Hl, Hi, Hcl, Hm. cbn [negb]. unfold test_canWrite. simpl. rewrite lookup_insert_eq. simpl.
    rewrite Hcw. unfold idle in Hi. apply update_back; [done|by destruct (c_kind c), (c_queue c)|by destruct (c_kind c), (c_queue c), (c_passed c)].
  - unfold telnet_readWebSocket, handleResizeMessage. rewrite Hl, Hi, Hcl, Hm. cbn [negb]. unfold tryResize.
    unfold size_set in *. destruct (clampTerminalSize cols rows) as [c' r']. by destruct (_ && _).
Qed.

(** The replies of one read: sent in order, each window-size offer followed by
    the size. *)
Lemma replies_sent rs t :
  let t' := foldl (fun t r => replyTo r t) t rs in
  t_clients t' = t_clients t /\ t_size t' = t_size t /\
  (forall p, p ∈ t_conn t -> p ∈ t_conn t') /\
  (forall rep, rep ∈ rs -> rep ∈ t_conn t' /\
     (rep = [iac; will; optNAWS] -> encodeNAWS (ts_cols (t_size t)) (ts_rows (t_size t)) ∈ t_conn t')).
Proof.
  revert t. induction rs as [|r rs IH]; intros t; simpl.
  { split; [done|]. split; [done|]. split; [done|]. intros rep Hin. by apply not_elem_of_nil in Hin. }
  assert (Hone : t_clients (replyTo r t) = t_clients t /\ t_size (replyTo r t) = t_size t /\
    (forall p, p ∈ t_conn t -> p ∈ t_conn (replyTo r t)) /\ r ∈ t_conn (replyTo r t) /\
    (r = [iac; will; optNAWS] -> encodeNAWS (ts_cols (t_size t)) (ts_rows (t_size t)) ∈ t_conn (replyTo r t))).
  { unfold replyTo, size_get. case_decide as Hd; simpl; (split; [done|]; split; [done|]).
    - split; [intros p Hp; rewrite !elem_of_app; auto|]. rewrite !elem_of_app, !list_elem_of_singleton. naive_solver.
    - split; [intros p Hp; rewrite !elem_of_app; auto|]. rewrite !elem_of_app, !list_elem_of_singleton. naive_solver. }
  destruct Hone as (H1 & H2 & H3 & H4 & H5). destruct (IH (replyTo r t)) as (I1 & I2 & I3 & I4).
  rewrite H1 in I1. rewrite H2 in I2, I4. split; [done|]. split; [done|]. split; [auto|].
  intros rep [->|Hin]%elem_of_cons; [auto|]. by apply I4.
Qed.

Section pump.
Context `{UnicodeTables}.
(** One read of the pump. *)
Lemma runOutputPump_step fails buf t :
  ring_wf (b_output (t_clients t)) ->
  let t' := runOutputPump fails buf t in
  let r := filterIACBytes (t_pending t ++ buf) in
  ring_wf (b_output (t_clients t')) /\ rb_cap (b_output (t_clients t')) = rb_cap (b_output (t_clients t)) /\
  Bytes (b_output (t_clients t')) = last_n (rb_cap (b_output (t_clients t))) (Bytes (b_output (t_clients t)) ++ f_out r) /\
  t_pending t' = f_rest r /\ t_size t' = t_size t /\
  (forall p, p ∈ t_conn t -> p ∈ t_conn t') /\
  (forall rep, rep ∈ f_replies r -> rep ∈ t_conn t' /\
     (rep = [iac; will; optNAWS] -> encodeNAWS (ts_cols (t_size t)) (ts_rows (t_size t)) ∈ t_conn t')).
Proof.
  intros Hwf t' r. unfold t', runOutputPump, Filter. fold r. cbv zeta.
  destruct (replies_sent (f_replies r) t) as (I1 & I2 & I3 & I4).
  set (t1 := foldl _ _ _) in *.
  case_decide as Hlen.
  - set (t2 := mkTelnet _ _ _ _ _ _).
    set (t3 := match t_login t2 with None => t2 | Some l => _ end).
    assert (Ht3 : t_clients t3 = t_clients t /\ t_size t3 = t_size t /\ t_pending t3 = f_rest r /\
      (forall p, p ∈ t_conn t1 -> p ∈ t_conn t3)).
    { unfold t3. destruct (t_login t2) as [l|]; [|done]. destruct (OnOutput l (f_out r)) as [l' w]. simpl.
      split; [done|]. split; [done|]. split; [done|]. intros p Hp. apply elem_of_app. by left. }
    destruct Ht3 as (J1 & J2 & J3 & J4). rewrite J1. clearbody t3.
    assert (Hout : b_output (t_clients (telnet_broadcast fails (f_out r)
        (with_bridge t3 (mkBridge (b_clients (t_clients t)) (b_entries (t_clients t)) (b_next (t_clients t))
           (b_stdinCh (t_clients t)) (fst (Write (b_output (t_clients t)) (f_out r)))
           (b_sent (t_clients t)) (b_resizes (t_clients t)))))) = fst (Write (b_output (t_clients t)) (f_out r))).
    { unfold telnet_broadcast, broadcast. simpl. by case_decide. }
    rewrite Hout. destruct (Write_spec (b_output (t_clients t)) (f_out r) Hwf) as (W1 & W2 & W3 & _).
    split; [done|]. split; [done|]. split; [done|]. simpl. split; [done|]. split; [done|].
    split; [auto|]. intros rep Hrep. destruct (I4 _ Hrep). auto.
  - simpl. rewrite I1. assert (Ho : f_out r = []) by (destruct (f_out r); simpl in *; [done|lia]).
    rewrite Ho, app_nil_r. split; [done|]. split; [done|].
    split; [|done]. rewrite last_n_all; [done|]. rewrite Bytes_length by done. apply Hwf.
Qed.

(** Whatever the target sends and however it is split into reads, the
    session's replay holds the last [cap] bytes of the telnet stream without its
    protocol bytes, and every negotiation in it is answered, an accepted
    window-size option with the current size right after. *)
Theorem output_pump_filters u p wake cols rows fails bufs cap :
  let t := foldl (fun t buf => runOutputPump fails buf t)
             (newDetachableBridge (NewRingBuffer cap) u p wake cols rows) bufs in
  let r := filterIACBytes (concat bufs) in
  Bytes (b_output (t_clients t)) = last_n (rb_cap (NewRingBuffer cap)) (f_out r) /\
  t_pending t = f_rest r /\
  forall rep, rep ∈ f_replies r -> rep ∈ t_conn t /\
    (rep = [iac; will; optNAWS] -> encodeNAWS (ts_cols (t_size t)) (ts_rows (t_size t)) ∈ t_conn t).
Proof.
  assert (Hgen : forall t done_, ring_wf (b_output (t_clients t)) ->
    let r := filterIACBytes done_ in
    Bytes (b_output (t_clients t)) = last_n (rb_cap (b_output (t_clients t))) (f_out r) -> t_pending t = f_rest r ->
    (forall rep, rep ∈ f_replies r -> rep ∈ t_conn t /\
      (rep = [iac; will; optNAWS] -> encodeNAWS (ts_cols (t_size t)) (ts_rows (t_size t)) ∈ t_conn t)) ->
    let t' := foldl (fun t buf => runOutputPump fails buf t) t bufs in
    let r' := filterIACBytes (done_ ++ concat bufs) in
    Bytes (b_output (t_clients t')) = last_n (rb_cap (b_output (t_clients t))) (f_out r') /\
    t_pending t' = f_rest r' /\
    forall rep, rep ∈ f_replies r' -> rep ∈ t_conn t' /\
      (rep = [iac; will; optNAWS] -> encodeNAWS (ts_cols (t_size t')) (ts_rows (t_size t')) ∈ t_conn t')).
  { induction bufs as [|buf bufs IH]; intros t d Hwf r0 HB HP HR; simpl; [by rewrite app_nil_r|].
    destruct (runOutputPump_step fails buf t Hwf) as (S1 & S2 & S3 & S4 & S5 & S6 & S7).
    unfold r0 in *. rewrite HP in S3, S4, S7. set (t1 := runOutputPump fails buf t) in *.
    rewrite app_assoc, <- S2. apply IH; [done| | |].
    - rewrite (filter_app d buf). simpl. by rewrite S3, S2, HB, last_n_last_n.
    - rewrite (filter_app d buf). simpl. done.
    - rewrite (filter_app d buf), S5. simpl. intros rep [Hin|Hin]%elem_of_app.
      + destruct (HR _ Hin). auto.
      + by apply S7. }
  apply (Hgen (newDetachableBridge (NewRingBuffer cap) u p wake cols rows) []); try done; [apply NewRingBuffer_wf|]. intros rep Hin. by apply not_elem_of_nil in Hin.
Qed.
End pump.

Definition demo_resize : ws_msg :=
  mkMsg TextMessage ([123] ++ resize_marker ++ [125]) (Some (bs "resize", 100, 40)).
Definition demo_telnet : detachableBridge :=
  telnet_doAttach ConnWebSocket AttachModeViewer "bob" false
    (newDetachableBridge (NewRingBuffer 8) [] [] true 80 24).
Lemma telnet_viewer_resizes_witness :
  size_get (t_size (telnet_readWebSocket 0 demo_resize demo_telnet)) = (100, 40).
Proof.
  destruct (telnet_viewer_resizes demo_telnet 0 (mkClient ConnWebSocket false "bob" false [] None) demo_resize 100 40)
    as (_ & Hs & _); [vm_compute; reflexivity|reflexivity|reflexivity|reflexivity|vm_compute; reflexivity|vm_compute; reflexivity|exact Hs].
Defined.
