(* ===== verification/AccessValidate.v ===== *)
(** Validation of identifiers, names, hosts, tags and fingerprints
    (src/internal/access/sqlite_store.go, credentials_validation.go,
    host_restrict.go, validation_errors.go), and the errors of package access.

    [net.ParseIP] and the setting VANTYX_ALLOW_RESTRICTED_HOSTS are parameters;
    an [IP] is its 16-byte form, as [ParseIP] returns it. The regular
    expressions are anchored character classes and are written as tests. *)
From S2P Require Import Prelude GoText.
Local Open Scope Z_scope.

Inductive access_err :=
| ErrGroupIDEmpty | ErrGroupIDTooLong | ErrGroupIDInvalid
| ErrTargetIDEmpty | ErrTargetIDTooLong | ErrTargetIDInvalid
| ErrNameEmpty | ErrNameTooLong | ErrNameInvalid
| ErrHostEmpty | ErrHostTooLong | ErrHostInvalid | ErrHostRestricted
| ErrProtocolInvalid | ErrTagLength | ErrTagChars
| ErrHostKeyFingerprintInvalid
| ErrGroupExists | ErrGroupNotFound | ErrGroupNotEmpty
| ErrTargetExists | ErrTargetNotFound | ErrEncryptionKeyRequired
| ErrRequestNotFound | ErrRequestNotPending | ErrRequestInvalid
| ErrSSHKeyExists | ErrSSHKeyNotFound | ErrSSHKeyIDEmpty | ErrSSHKeyIDTooLong | ErrSSHKeyIDInvalid
| ErrSSHKeyLabelReq | ErrSSHKeyPrivateReq | ErrSSHKeyInUse
| ErrCredentialIdentityExists | ErrCredentialIdentityNotFound | ErrCredentialIdentityIDEmpty
| ErrCredentialIdentityIDTooLong | ErrCredentialIdentityIDInvalid | ErrCredentialIdentityLabelReq
| ErrCredentialIdentityUserReq | ErrCredentialIdentityAuthReq | ErrCredentialIdentityInUse
| ErrCredentialSourceExclusive
| ErrCrypto (msg : string)
| Panic (msg : string) (* a run-time panic, which unwinds the handler *)
| ErrDB (msg : string).
#[export] Instance access_err_eq_dec : EqDecision access_err. Proof. solve_decision. Defined.

Definition maxIDLen : nat := Z.to_nat 512.
Definition maxNameLen : nat := Z.to_nat 512.
Definition maxHostLen : nat := 253.
Definition maxTagLen : nat := 64.

Definition alnum (b : Z) : bool := ascii_upper b || ascii_lower b || ascii_digit b.
(** [idPattern]: ^[a-zA-Z0-9_\-]+$ *)
Definition id_char (b : Z) : bool := alnum b || (b =? 95) || (b =? 45).
Definition idPattern (s : list Z) : bool := bool_decide (s <> []) && forallb id_char s.
(** [hostnamePattern]: ^[a-zA-Z0-9]([a-zA-Z0-9.-]*[a-zA-Z0-9])?$ *)
Definition host_char (b : Z) : bool := alnum b || (b =? 46) || (b =? 45).
Definition hostnamePattern (s : list Z) : bool :=
  match s with
  | [] => false
  | b :: _ => alnum b && forallb host_char s && alnum (List.last s 0)
  end.

Definition slash : Z := 47.
Definition validateGroupID (id : string) : result access_err unit :=
  let s := bs id in
  guard bool_decide (s <> []) else ErrGroupIDEmpty in
  guard bool_decide (length s <= maxIDLen)%nat else ErrGroupIDTooLong in
  guard forallb (fun seg =>
          negb (bool_decide (seg = [] \/ seg = bs "." \/ seg = bs "..")) && idPattern seg)
        (split_byte s slash) else ErrGroupIDInvalid in
  Ok tt.
Definition validateTargetID (id : string) : result access_err unit :=
  let s := bs id in
  guard bool_decide (s <> []) else ErrTargetIDEmpty in
  guard bool_decide (length s <= maxIDLen)%nat else ErrTargetIDTooLong in
  guard idPattern s else ErrTargetIDInvalid in
  Ok tt.
Definition validateName (name : string) : result access_err unit :=
  let s := bs name in
  guard bool_decide (s <> []) else ErrNameEmpty in
  guard bool_decide (length s <= maxNameLen)%nat else ErrNameTooLong in
  guard forallb (fun r => (r =? 9) || negb (IsControl r)) (runes s) else ErrNameInvalid in
  Ok tt.

Abbreviation Protocol := string (only parsing).
Definition ProtocolSSH : Protocol := "ssh".
Definition ProtocolTelnet : Protocol := "telnet".
Definition ProtocolVNC : Protocol := "vnc".
Definition ProtocolFTP : Protocol := "ftp".
Definition ProtocolTFTP : Protocol := "tftp".
Definition ProtocolRDP : Protocol := "rdp".
Definition validateProtocol (p : Protocol) : result access_err unit :=
  guard bool_decide (p ∈ [ProtocolSSH; ProtocolTelnet; ProtocolVNC; ProtocolTFTP; ProtocolRDP; ProtocolFTP])
    else ErrProtocolInvalid in
  Ok tt.

Section tags.
Context `{UnicodeTables}.
Definition validateTag (tag : string) : result access_err unit :=
  let s := bs tag in
  guard negb (bool_decide (s = [] \/ (maxTagLen < length s)%nat)) else ErrTagLength in
  guard forallb (fun r => (r =? 45) || (r =? 95) || uc_IsLetter r || uc_IsNumber r) (runes s) else ErrTagChars in
  Ok tt.
End tags.

(** The identifiers of the credential library. *)
Definition validateCredentialLibraryID {E} (id : string) (emptyErr tooLongErr invalidErr : E) : result E unit :=
  let s := TrimSpace (bs id) in
  guard bool_decide (s <> []) else emptyErr in
  guard bool_decide (length s <= maxIDLen)%nat else tooLongErr in
  guard idPattern s else invalidErr in
  Ok tt.
Definition isControlLike (r : Z) : bool := (r <? 0x20) || (r =? 0x7f).
Definition validateCredentialLibraryLabel (label : string) (emptyErr : access_err) : result access_err unit :=
  let label := TrimSpace (bs label) in
  guard bool_decide (label <> []) else emptyErr in
  guard bool_decide (length label <= maxNameLen)%nat else ErrNameTooLong in
  guard forallb (fun r => (r =? 9) || negb (isControlLike r)) (runes label) else ErrNameInvalid in
  Ok tt.

Definition fp_prefix : list Z := bs "SHA256:".
Definition base64_char (r : Z) : bool := alnum r || (r =? 43) || (r =? 47).
(** [strings.TrimRight(s, "=")] *)
Definition validHostKeyFingerprint (fp : string) : result access_err string :=
  let fp := TrimSpace (bs fp) in
  if decide (fp = []) then Ok ""%string
  else
    guard has_prefix fp fp_prefix else ErrHostKeyFingerprintInvalid in
    let body := trim_right_byte (drop (length fp_prefix) fp) 61 in
    guard negb (bool_decide ((length body < 40)%nat \/ (60 < length body)%nat))
      else ErrHostKeyFingerprintInvalid in
    guard forallb base64_char (runes body) else ErrHostKeyFingerprintInvalid in
    Ok (str_of (fp_prefix ++ body)).

(** ** Hosts *)
Abbreviation IP := (list Z) (only parsing).
Definition v4_prefix : list Z := replicate 10 0 ++ [255; 255].
(** [ip.To4()] on the 16-byte form *)
Definition To4 (ip : IP) : option (list Z) :=
  if decide (length ip = 4%nat) then Some ip
  else if decide (length ip = 16%nat /\ take 12 ip = v4_prefix) then Some (drop 12 ip) else None.
Definition nth_byte (ip : IP) (i : nat) : Z := List.nth i ip 0.
Definition IPv6loopback : IP := replicate 15 0 ++ [1].
Definition IsLoopback (ip : IP) : bool :=
  match To4 ip with
  | Some ip4 => nth_byte ip4 0 =? 127
  | None => bool_decide (ip = IPv6loopback)
  end.
Definition IsLinkLocalUnicast (ip : IP) : bool :=
  match To4 ip with
  | Some ip4 => (nth_byte ip4 0 =? 169) && (nth_byte ip4 1 =? 254)
  | None => bool_decide (length ip = 16%nat) && (nth_byte ip 0 =? 254) && (Z.land (nth_byte ip 1) 192 =? 128)
  end.
Definition IsLinkLocalMulticast (ip : IP) : bool :=
  match To4 ip with
  | Some ip4 => (nth_byte ip4 0 =? 224) && (nth_byte ip4 1 =? 0) && (nth_byte ip4 2 =? 0)
  | None => bool_decide (length ip = 16%nat) && (nth_byte ip 0 =? 255) && (Z.land (nth_byte ip 1) 15 =? 2)
  end.
(** [restrictedHostsAllowed], on the environment variable. *)
Definition restrictedHostsAllowed (env : string) : bool := bool_decide (TrimSpace_s env = "1"%string).
Definition checkRestrictedHostIP (allowed : bool) (ip : option IP) : result access_err unit :=
  match ip with
  | None => Ok tt
  | Some ip =>
      if allowed then Ok tt
      else
        guard negb (bool_decide (To4 ip = Some [169; 254; 169; 254])) else ErrHostRestricted in
        guard negb (IsLoopback ip || IsLinkLocalUnicast ip || IsLinkLocalMulticast ip) else ErrHostRestricted in
        guard negb (match To4 ip with
                    | Some ip4 => (nth_byte ip4 0 =? 169) && (nth_byte ip4 1 =? 254)
                    | None => false end) else ErrHostRestricted in
        Ok tt
  end.

Section host.
Context (ParseIP : list Z -> option IP) (allowed : bool).
Definition validateHost (host : string) : result access_err unit :=
  let h := bs host in
  guard bool_decide (h <> []) else ErrHostEmpty in
  guard bool_decide (length h <= maxHostLen)%nat else ErrHostTooLong in
  match ParseIP h with
  | Some ip => checkRestrictedHostIP allowed (Some ip)
  | None => guard hostnamePattern h else ErrHostInvalid in Ok tt
  end.
End host.

(** ** What the validators guarantee *)
Lemma id_char_spec b : id_char b = true -> b <> slash /\ 33 <= b <= 126.
Proof. unfold id_char, alnum, ascii_upper, ascii_lower, ascii_digit, in_range, slash. lia. Qed.
Lemma idPattern_spec s : idPattern s = true -> s <> [] /\ slash ∉ s.
Proof.
  unfold idPattern. rewrite andb_true_iff, bool_decide_eq_true, forallb_forall. intros [Hne Hall].
  split; [done|]. intros Hin. destruct (id_char_spec slash); [|done].
  apply Hall. by apply list_elem_of_In.
Qed.

(** An accepted group ID is a path: joining its segments with slashes gives
    the ID back, and every segment is a non-empty name without slashes that is
    neither [.] nor [..] - so a stored group always has a well-defined chain of
    ancestors, and none of them is empty. *)
Theorem group_id_is_path id :
  validateGroupID id = Ok tt ->
  let segs := split_byte (bs id) slash in
  join_byte segs slash = bs id /\ segs <> [] /\ (length (bs id) <= maxIDLen)%nat /\
  Forall (fun seg => seg <> [] /\ seg <> bs "." /\ seg <> bs ".." /\ slash ∉ seg /\ forallb id_char seg = true) segs.
Proof.
  unfold validateGroupID. intros Hv. inv_ok Hv.
  split; [apply join_split|]. split; [apply split_byte_nonempty|].
  split; [by eapply bool_decide_eq_true_1|]. apply Forall_forall. intros seg Hseg.
  match goal with H : forallb _ (split_byte _ _) = true |- _ => rename H into Hall end.
  rewrite forallb_forall in Hall.
  specialize (Hall seg ltac:(by apply list_elem_of_In)).
  apply andb_true_iff in Hall as [Hd Hid]. rewrite negb_true_iff, bool_decide_eq_false in Hd.
  destruct (idPattern_spec seg Hid) as [Hne Hsl]. unfold idPattern in Hid. apply andb_true_iff in Hid as [_ Hc].
  naive_solver.
Qed.
Lemma group_id_is_path_witness : split_byte (bs "net/tokyo") slash = [bs "net"; bs "tokyo"] /\ Forall (fun seg => slash ∉ seg) [bs "net"; bs "tokyo"].
Proof.
  split; [vm_compute; reflexivity|].
  destruct (group_id_is_path "net/tokyo" ltac:(vm_compute; reflexivity)) as (_ & _ & _ & HF).
  change (split_byte (bs "net/tokyo") slash) with [bs "net"; bs "tokyo"] in HF.
  eapply Forall_impl; [exact HF|]. simpl. tauto.
Defined.

(** A host that is an IP address and was accepted is, unless the operator
    switched the guard off, neither loopback nor link-local nor the cloud
    metadata address, in their IPv4, IPv6 and IPv4-mapped forms; the
    unspecified addresses 0.0.0.0 and ::, which reach the local machine when
    dialled, are accepted. *)
Theorem host_guard ParseIP host ip :
  ParseIP (bs host) = Some ip -> validateHost ParseIP false host = Ok tt ->
  IsLoopback ip = false /\ IsLinkLocalUnicast ip = false /\ IsLinkLocalMulticast ip = false /\
  To4 ip <> Some [169; 254; 169; 254] /\
  (forall host', (0 < length (bs host') <= maxHostLen)%nat ->
     ParseIP (bs host') = Some (v4_prefix ++ [0; 0; 0; 0]) \/ ParseIP (bs host') = Some (replicate 16 0) ->
     validateHost ParseIP false host' = Ok tt).
Proof.
  intros Hip Hv. unfold validateHost in Hv. rewrite Hip in Hv. unfold checkRestrictedHostIP in Hv. inv_ok Hv.
  repeat match goal with H : negb _ = true |- _ => apply negb_true_iff in H end.
  repeat match goal with H : _ || _ = false |- _ => apply orb_false_iff in H as [? ?] end.
  split; [done|]. split; [done|]. split; [done|]. split; [by eapply bool_decide_eq_false_1|].
  intros host' Hlen Hor. unfold validateHost.
  rewrite bool_decide_eq_true_2 by (destruct (bs host'); [simpl in Hlen; lia|done]).
  rewrite bool_decide_eq_true_2 by lia. by destruct Hor as [-> | ->].
Qed.
Definition demo_ParseIP (h : list Z) : option IP :=
  if decide (h = bs "10.0.0.1") then Some (v4_prefix ++ [10; 0; 0; 1])
  else if decide (h = bs "0.0.0.0") then Some (v4_prefix ++ [0; 0; 0; 0]) else None.
Lemma host_guard_witness : validateHost demo_ParseIP false "0.0.0.0" = Ok tt.
Proof.
  apply (host_guard demo_ParseIP "10.0.0.1" (v4_prefix ++ [10; 0; 0; 1]));
    [vm_compute; reflexivity|vm_compute; reflexivity|vm_compute; lia|left; vm_compute; reflexivity].
Defined.
