(* ===== verification/GoNet.v ===== *)
(** Package net: [ParseIP] for IPv4 and IPv6 addresses, and [IP.Equal]
    (Go's net.ParseIP is netip.ParseAddr without zones, in the 16-byte form). *)
From S2P Require Import Prelude GoText AccessValidate.
Local Open Scope Z_scope.

(** ** IPv4 *)

(** The scan of parseIPv4Fields: [fields] are the finished numbers, latest
    first, [val] and [digLen] the number being read. A dot is refused at the
    beginning, at the end and after a dot. *)
Fixpoint ipv4_scan (s : list Z) (fields : list Z) (val : Z) (digLen : nat) : option (list Z) :=
  match s with
  | [] => if bool_decide (length fields = 3%nat) then Some (reverse (val :: fields)) else None
  | c :: s =>
      if ascii_digit c then
        if bool_decide (digLen = 1%nat) && (val =? 0) then None
        else
          let val := val * 10 + (c - 48) in
          if 255 <? val then None else ipv4_scan s fields val (S digLen)
      else if c =? 46 then
        if bool_decide (digLen = 0%nat) || bool_decide (s = []) then None
        else if bool_decide (length fields = 3%nat) then None
        else ipv4_scan s (val :: fields) 0 0
      else None
  end.
Definition parseIPv4Fields (s : list Z) : option (list Z) := ipv4_scan s [] 0 0.

(** ** IPv6 *)

Definition hex_val (c : Z) : option Z :=
  if ascii_digit c then Some (c - 48)
  else if in_range c 97 102 then Some (c - 87)
  else if in_range c 65 70 then Some (c - 55)
  else None.

(** A group of hexadecimal digits: its value, the number of digits and the
    rest; [None] after more than four digits. *)
Fixpoint hex_group (s : list Z) (acc : Z) (off : nat) : option (Z * nat * list Z) :=
  match s with
  | c :: s' =>
      match hex_val c with
      | Some v => if (3 <? off)%nat then None else hex_group s' (acc * 16 + v) (S off)
      | None => Some (acc, off, s)
      end
  | [] => Some (acc, off, [])
  end.

(** The loop over the groups: [ip] are the bytes so far, [ellipsis] the
    position of [::]. The result is what is left at the end of the loop. *)
Fixpoint ipv6_groups (n : nat) (s : list Z) (ip : list Z) (ellipsis : option nat)
    : option (list Z * option nat * list Z) :=
  match n with
  | O => Some (ip, ellipsis, s)
  | S n =>
      if (16 <=? length ip)%nat then Some (ip, ellipsis, s)
      else
        match hex_group s 0 0 with
        | None => None
        | Some (_, O, _) => None
        | Some (acc, _, rest) =>
            match rest with
            | 46 :: _ =>
                if bool_decide (ellipsis = None) && negb (bool_decide (length ip = 12%nat)) then None
                else if (16 <? length ip + 4)%nat then None
                else
                  match parseIPv4Fields s with
                  | Some v4 => Some (ip ++ v4, ellipsis, [])
                  | None => None
                  end
            | [] => Some (ip ++ [acc / 256; acc mod 256], ellipsis, [])
            | 58 :: s' =>
                let ip := ip ++ [acc / 256; acc mod 256] in
                match s' with
                | [] => None
                | 58 :: s'' =>
                    match ellipsis with
                    | Some _ => None
                    | None =>
                        match s'' with
                        | [] => Some (ip, Some (length ip), [])
                        | _ => ipv6_groups n s'' ip (Some (length ip))
                        end
                    end
                | _ => ipv6_groups n s' ip ellipsis
                end
            | _ => None
            end
        end
  end.
Definition ipv6_expand (ip : list Z) (ellipsis : option nat) : option (list Z) :=
  if (length ip <? 16)%nat then
    match ellipsis with
    | None => None
    | Some e => Some (take e ip ++ replicate (16 - length ip) 0 ++ drop e ip)
    end
  else if bool_decide (ellipsis = None) then Some ip else None.
(** Eight groups at most, so nine turns of the loop are enough. *)
Definition parseIPv6 (s : list Z) : option (list Z) :=
  match s with
  | 58 :: 58 :: [] => Some (replicate 16 0)
  | _ =>
      let '(s, ellipsis) := match s with 58 :: 58 :: s' => (s', Some 0%nat) | _ => (s, None) end in
      match ipv6_groups 9 s [] ellipsis with
      | Some (ip, ellipsis, []) => ipv6_expand ip ellipsis
      | _ => None
      end
  end.

(** The first of [.], [:] and [%] decides; a zone is refused by [ParseIP]. *)
Fixpoint ip_kind (s : list Z) : option Z :=
  match s with
  | [] => None
  | c :: s => if (c =? 46) || (c =? 58) || (c =? 37) then Some c else ip_kind s
  end.
Definition ParseIP (s : list Z) : option IP :=
  match ip_kind s with
  | Some 46 => (fun v4 => v4_prefix ++ v4) <$> parseIPv4Fields s
  | Some 58 => if bool_decide (37 ∈ s) then None else parseIPv6 s
  | _ => None
  end.

(** [IP.Equal]: an IPv4 address equals its 16-byte form. *)
Definition IP_Equal (ip x : IP) : bool :=
  if bool_decide (length ip = length x) then bool_decide (ip = x)
  else if bool_decide (length ip = 4%nat) && bool_decide (length x = 16%nat) then bool_decide (v4_prefix ++ ip = x)
  else if bool_decide (length ip = 16%nat) && bool_decide (length x = 4%nat) then bool_decide (ip = v4_prefix ++ x)
  else false.

(** ** Lemmas *)

Lemma ipv4_scan_length s fields val d l :
  ipv4_scan s fields val d = Some l -> length l = 4%nat.
Proof.
  revert fields val d. induction s as [|c s IH]; intros fields val d; simpl.
  - case_bool_decide as Hf; [|done]. intros [= <-]. rewrite length_reverse. simpl. lia.
  - repeat case_match; try done; apply IH.
Qed.
Definition is_byte (b : Z) : Prop := 0 <= b <= 255.
Lemma ipv4_scan_bytes s fields val d l :
  ipv4_scan s fields val d = Some l -> Forall is_byte fields -> is_byte val -> Forall is_byte l.
Proof.
  revert fields val d. induction s as [|c s IH]; intros fields val d; simpl; intros E Hf Hv.
  - case_bool_decide; simplify_eq. rewrite reverse_cons. apply Forall_app_2; [by apply Forall_reverse|by constructor].
  - destruct (ascii_digit c) eqn:Ed.
    + destruct (_ && _); [done|]. destruct (255 <? _) eqn:E5; [done|]. apply IH in E; [done..|].
      unfold ascii_digit, in_range in Ed. apply andb_true_iff in Ed as [E1%Z.leb_le E2%Z.leb_le].
      apply Z.ltb_ge in E5. unfold is_byte in *. lia.
    + destruct (c =? 46); [|done]. destruct (_ || _); [done|]. destruct (bool_decide _); [done|].
      apply IH in E; [done|by constructor|unfold is_byte; lia].
Qed.

(** An address that parses as IPv4 is four bytes behind the prefix. *)
Lemma ParseIP_v4 s v4 : ip_kind s = Some 46 -> parseIPv4Fields s = Some v4 -> ParseIP s = Some (v4_prefix ++ v4).
Proof. intros Hk Hp. unfold ParseIP. by rewrite Hk, Hp. Qed.
Lemma To4_v4 v4 : length v4 = 4%nat -> To4 (v4_prefix ++ v4) = Some v4.
Proof.
  intros Hl. unfold To4. rewrite length_app, Hl.
  change (length v4_prefix) with 12%nat. simpl Nat.add.
  repeat case_match; try done.
Qed.

Lemma IP_Equal_refl ip : IP_Equal ip ip = true.
Proof. unfold IP_Equal. by rewrite !bool_decide_true. Qed.
Lemma IP_Equal_spec ip x :
  IP_Equal ip x = true <->
  ip = x \/ (length ip = 4%nat /\ x = v4_prefix ++ ip) \/ (length x = 4%nat /\ ip = v4_prefix ++ x).
Proof.
  unfold IP_Equal. destruct (decide (length ip = length x)) as [Hl|Hl].
  - rewrite bool_decide_true, bool_decide_eq_true by done. split; [by left|].
    intros [?|[[H1 H2]|[H1 H2]]]; [done|exfalso..];
      apply (f_equal length) in H2; rewrite length_app in H2; change (length v4_prefix) with 12%nat in H2; lia.
  - rewrite bool_decide_false by done.
    assert (ip <> x) by congruence.
    split.
    + repeat (case_bool_decide; simpl); naive_solver.
    + intros [?|[[H1 H2]|[H1 H2]]]; [done|..];
        pose proof (f_equal length H2) as H3; rewrite length_app in H3; change (length v4_prefix) with 12%nat in H3.
      * rewrite (bool_decide_true (length ip = 4%nat)), (bool_decide_true (length x = 16%nat)) by lia.
        by apply bool_decide_eq_true.
      * rewrite (bool_decide_false (length ip = 4%nat)), (bool_decide_true (length ip = 16%nat)), (bool_decide_true (length x = 4%nat)) by lia.
        by apply bool_decide_eq_true.
Qed.
Lemma IP_Equal_sym ip x : IP_Equal ip x = IP_Equal x ip.
Proof. apply eq_bool_prop_intro. rewrite !Is_true_true, !IP_Equal_spec. naive_solver. Qed.
