(* ===== verification/AccessDB.v ===== *)
(** The access-control tables (src/internal/db/sqlite/migrate.go) and what the
    stores of package access share: foreign keys with their cascades, the group
    hierarchy, [LIKE], list options and pagination.

    The connections are opened with foreign_keys=on and _txlock=immediate
    (src/internal/db/sqlite/sqlite.go). *)
From S2P Require Import Prelude GoText Sqlite AccessValidate.
Local Open Scope Z_scope.

(** The columns of [targets] the stores read and write. *)
Record target_row := mkTargetRow {
  tr_name : string; tr_host : string; tr_port : Z; tr_protocol : string;
  tr_group_id : string; tr_path : string;
  tr_ssh_username : string; tr_ssh_password : string;
  tr_ssh_private_key : string; tr_ssh_private_key_passphrase : string;
  tr_sftp_enabled : Z; tr_ftp_enabled : Z; tr_tftp_enabled : Z;
  tr_host_key_fingerprint : string; tr_insecure_skip_verify : Z;
  tr_credential_identity_id : string; tr_ssh_key_id : string
}.
Record access_tables := mkAccess {
  users : gset string;                          (* users.id *)
  access_groups : gmap string string;           (* id -> name *)
  targets : gmap string target_row;
  user_groups : gmap (string * string) (option Z); (* (user_id, group_id) -> expires_at *)
  group_targets : gset (string * string);       (* (group_id, target_id) *)
  group_tags : gset (string * string);          (* (group_id, tag) *)
  target_tags : gset (string * string);         (* (target_id, tag) *)
  user_tags : gset (string * string)            (* (user_id, tag) *)
}.
#[export] Instance access_db_error : DBError access_err := ErrDB.
Abbreviation AccessM := (DB access_tables access_err).

Definition with_groups (t : access_tables) x := mkAccess (users t) x (targets t) (user_groups t) (group_targets t) (group_tags t) (target_tags t) (user_tags t).
Definition with_targets (t : access_tables) x := mkAccess (users t) (access_groups t) x (user_groups t) (group_targets t) (group_tags t) (target_tags t) (user_tags t).
Definition with_user_groups (t : access_tables) x := mkAccess (users t) (access_groups t) (targets t) x (group_targets t) (group_tags t) (target_tags t) (user_tags t).
Definition with_group_targets (t : access_tables) x := mkAccess (users t) (access_groups t) (targets t) (user_groups t) x (group_tags t) (target_tags t) (user_tags t).
Definition with_group_tags (t : access_tables) x := mkAccess (users t) (access_groups t) (targets t) (user_groups t) (group_targets t) x (target_tags t) (user_tags t).
Definition with_target_tags (t : access_tables) x := mkAccess (users t) (access_groups t) (targets t) (user_groups t) (group_targets t) (group_tags t) x (user_tags t).

Definition unique_failed : string := "UNIQUE constraint failed".
Definition fk_failed : string := "FOREIGN KEY constraint failed".

(** ** Cascades *)

(** [DELETE FROM targets]: group_targets and target_tags reference it. *)
Definition delete_targets (P : string -> target_row -> bool) (t : access_tables) : access_tables :=
  let gone id := match targets t !! id with Some r => P id r | None => false end in
  mkAccess (users t) (access_groups t) (filter (fun kv => P kv.1 kv.2 = false) (targets t)) (user_groups t)
    (filter (fun gt => gone gt.2 = false) (group_targets t)) (group_tags t)
    (filter (fun tt => gone tt.1 = false) (target_tags t)) (user_tags t).
(** [DELETE FROM access_groups]: user_groups, group_targets, group_tags and the
    column [targets.group_id] reference it, all ON DELETE CASCADE. *)
Definition delete_group (id : string) (t : access_tables) : access_tables :=
  let t := delete_targets (fun _ r => bool_decide (tr_group_id r = id)) t in
  mkAccess (users t) (delete id (access_groups t)) (targets t)
    (filter (fun kv => kv.1.2 <> id) (user_groups t)) (filter (fun gt => gt.1 <> id) (group_targets t))
    (filter (fun gt => gt.1 <> id) (group_tags t)) (target_tags t) (user_tags t).

(** Every foreign key points to a row. *)
Record fk_ok (t : access_tables) : Prop := {
  fk_ug_user : forall u g e, user_groups t !! (u, g) = Some e -> u ∈ users t;
  fk_ug_group : forall u g e, user_groups t !! (u, g) = Some e -> is_Some (access_groups t !! g);
  fk_target_group : forall id r, targets t !! id = Some r -> is_Some (access_groups t !! tr_group_id r);
  fk_gt_group : forall g id, (g, id) ∈ group_targets t -> is_Some (access_groups t !! g);
  fk_gt_target : forall g id, (g, id) ∈ group_targets t -> is_Some (targets t !! id);
  fk_gtag : forall g tag, (g, tag) ∈ group_tags t -> is_Some (access_groups t !! g);
  fk_ttag : forall id tag, (id, tag) ∈ target_tags t -> is_Some (targets t !! id);
  fk_utag : forall u tag, (u, tag) ∈ user_tags t -> u ∈ users t
}.

Lemma delete_targets_fk P t : fk_ok t -> fk_ok (delete_targets P t).
Proof.
  intros [Huu Hug Htg Hgg Hgt Hgtag Htt Hut].
  assert (Hkeep : forall id, is_Some (targets t !! id) ->
    match targets t !! id with Some r => P id r | None => false end = false ->
    is_Some (filter (fun kv => P kv.1 kv.2 = false) (targets t) !! id)).
  { intros id [r Hr] Hg. rewrite Hr in Hg. exists r.
    apply map_lookup_filter_Some. done. }
  split; simpl; eauto.
  - intros id r [Hl _]%map_lookup_filter_Some. eauto.
  - intros g id [_ Hin]%elem_of_filter. eauto.
  - intros g id [Hg Hin]%elem_of_filter. simpl in Hg. apply Hkeep; eauto.
  - intros id tag [Hg Hin]%elem_of_filter. simpl in Hg. apply Hkeep; eauto.
Qed.
Lemma delete_group_fk id t : fk_ok t -> fk_ok (delete_group id t).
Proof.
  intros Hfk. unfold delete_group.
  assert (Hno : forall i r, targets (delete_targets (fun _ r => bool_decide (tr_group_id r = id)) t) !! i = Some r -> tr_group_id r <> id).
  { intros i r [_ Hl]%map_lookup_filter_Some. by apply bool_decide_eq_false in Hl. }
  pose proof (delete_targets_fk (fun _ r => bool_decide (tr_group_id r = id)) t Hfk) as [Huu Hug Htg Hgg Hgt Hgtag Htt Hut].
  set (t' := delete_targets _ t) in *. split; simpl; eauto.
  - intros u g e [Hl _]%map_lookup_filter_Some. eauto.
  - intros u g e [Hl Hne]%map_lookup_filter_Some. simpl in Hne. rewrite lookup_delete_ne by done. eauto.
  - intros i r Hl. rewrite lookup_delete_ne; [eauto|]. intros Heq. by apply (Hno i r).
  - intros g i [Hne Hin]%elem_of_filter. simpl in Hne. rewrite lookup_delete_ne by done. eauto.
  - intros g i [Hne Hin]%elem_of_filter. eauto.
  - intros g tag [Hne Hin]%elem_of_filter. simpl in Hne. rewrite lookup_delete_ne by done. eauto.
Qed.

(** ** The group hierarchy *)

(** [child = parent OR substr(child, 1, length(parent) + 1) = parent || '/'] *)
Definition descendantOrSelf (child parent : string) : bool :=
  bool_decide (child = parent) || has_prefix (bs child) (bs parent ++ [slash]).

Lemma descendantOrSelf_refl g : descendantOrSelf g g = true.
Proof. unfold descendantOrSelf. by rewrite bool_decide_eq_true_2. Qed.
Lemma descendantOrSelf_spec c p :
  descendantOrSelf c p = true <-> c = p \/ exists rest, bs c = bs p ++ [slash] ++ rest.
Proof.
  unfold descendantOrSelf. rewrite orb_true_iff, bool_decide_eq_true, has_prefix_spec. unfold prefix.
  apply or_iff_compat_l. split; intros [k Hk]; exists k; by rewrite Hk, <- app_assoc.
Qed.
Lemma descendantOrSelf_trans a b c :
  descendantOrSelf a b = true -> descendantOrSelf b c = true -> descendantOrSelf a c = true.
Proof.
  rewrite !descendantOrSelf_spec. intros [->|[r1 H1]]; [done|]. intros [->|[r2 H2]]; [eauto|].
  right. exists (r2 ++ [slash] ++ r1). rewrite H1, H2, <- !app_assoc. done.
Qed.
Lemma descendantOrSelf_antisym a b :
  descendantOrSelf a b = true -> descendantOrSelf b a = true -> a = b.
Proof.
  rewrite !descendantOrSelf_spec. intros [->|[r1 H1]]; [done|]. intros [->|[r2 H2]]; [done|].
  exfalso. rewrite H2 in H1. apply (f_equal length) in H1. rewrite !length_app in H1. simpl in H1. lia.
Qed.

(** ** LIKE

    SQLite's [LIKE ... ESCAPE '\'] on bytes: ['%'] matches any run, ['_'] one
    character, letters match case-insensitively in ASCII. *)
Definition like_fold (b : Z) : Z := ascii_to_lower b.
Fixpoint sql_like (pat : list Z) (s : list Z) : bool :=
  match pat with
  | [] => bool_decide (s = [])
  | c :: pat' =>
      if c =? 37 then
        (fix star (s : list Z) : bool :=
           sql_like pat' s || match s with [] => false | _ :: s' => star s' end) s
      else if c =? 92 then
        match pat', s with
        | c' :: pat'', x :: s' => (like_fold x =? like_fold c') && sql_like pat'' s'
        | _, _ => false
        end
      else
        match s with
        | x :: s' => ((c =? 95) || (like_fold x =? like_fold c)) && sql_like pat' s'
        | [] => false
        end
  end.
(** [escapeLikePrefix]: a replacer that quotes the three special bytes. *)
Definition escapeLikePrefix (s : list Z) : list Z :=
  s ≫= (fun b => if (b =? 92) || (b =? 37) || (b =? 95) then [92; b] else [b]).

Lemma sql_like_any s : sql_like [37] s = true.
Proof. induction s as [|x s IH]; [done|]. simpl in *. done. Qed.
(** Escaping makes the prefix literal, up to case. *)
Lemma like_escaped p rest s :
  (exists k, sql_like rest k = true) ->
  sql_like (escapeLikePrefix p ++ rest) s = true <->
  exists k, like_fold <$> take (length p) s = like_fold <$> p /\ s = take (length p) s ++ k /\ sql_like rest k = true.
Proof.
  intros _. revert s. induction p as [|b p IH]; intros s.
  { simpl. split; [eauto|]. intros (k & _ & -> & ?). done. }
  assert (Hstep : sql_like (escapeLikePrefix (b :: p) ++ rest) s =
    match s with x :: s' => (like_fold x =? like_fold b) && sql_like (escapeLikePrefix p ++ rest) s' | [] => false end).
  { unfold escapeLikePrefix at 1. simpl. destruct ((b =? 92) || (b =? 37) || (b =? 95)) eqn:Hb; simpl.
    - by destruct s.
    - rewrite !orb_false_iff in Hb. destruct Hb as [[H1 H2] H3]. rewrite H2, H1, H3. by destruct s. }
  rewrite Hstep. destruct s as [|x s]; simpl.
  { split; [done|]. by intros (k & H & _). }
  rewrite andb_true_iff, Z.eqb_eq, IH. split.
  - intros [Hx (k & H1 & H2 & H3)]. exists k. split; [exact (f_equal2 cons Hx H1)|]. split; [|done].
    simpl. f_equal. exact H2.
  - intros (k & H1 & H2 & H3). injection H1 as Hx H1. injection H2 as H2. eauto.
Qed.

(** ** List options *)
Record ListOpts := mkListOpts { lo_Limit : Z; lo_Offset : Z; lo_AfterID : string }.
Definition listLimit (opts : option ListOpts) (defaultLimit : Z) : Z * Z :=
  match opts with
  | None => (defaultLimit, 0)
  | Some o => (if 0 <? lo_Limit o then lo_Limit o else defaultLimit,
               if 0 <? lo_Offset o then lo_Offset o else 0)
  end.
Definition after_id (opts : option ListOpts) : option string :=
  match opts with Some o => if decide (lo_AfterID o <> ""%string) then Some (lo_AfterID o) else None | None => None end.

(** The paginated queries: [WHERE id > ? ORDER BY id LIMIT ?], or
    [ORDER BY id LIMIT ? OFFSET ?]; a negative LIMIT is no limit. *)
Definition sql_limit {A} (limit : Z) (l : list A) : list A := if limit <? 0 then l else take (Z.to_nat limit) l.
Definition sql_page (opts : option ListOpts) (defaultLimit : Z) (ids : list string) : list string :=
  let (limit, offset) := listLimit opts defaultLimit in
  match after_id opts with
  | Some a => sql_limit limit (filter (fun id => string_lt a id = true) ids)
  | None => sql_limit limit (drop (Z.to_nat offset) ids)
  end.
(** Pagination in Go, after the union of several queries. *)
Fixpoint drop_until_after (a : string) (l : list string) : list string :=
  match l with
  | id :: l' => if bool_decide (String.le id a) then drop_until_after a l' else l
  | [] => []
  end.
Definition go_page (opts : option ListOpts) (defaultLimit : Z) (all : list string) : list string :=
  let (limit, offset) := listLimit opts defaultLimit in
  let all := match after_id opts with Some a => drop_until_after a all | None => all end in
  if (0 <? offset) && (Z.of_nat (length all) <=? offset) then []
  else
    let all := if 0 <? offset then drop (Z.to_nat offset) all else all in
    if (0 <? limit) && (limit <? Z.of_nat (length all)) then take (Z.to_nat limit) all else all.

Lemma drop_until_after_subset a l id : id ∈ drop_until_after a l -> id ∈ l.
Proof. induction l as [|x l IH]; simpl; [done|]. case_bool_decide; [|done]. intros Hin. right. by apply IH. Qed.
Lemma go_page_subset opts d l id : id ∈ go_page opts d l -> id ∈ l.
Proof.
  assert (Ht : forall n l', id ∈ take n l' -> id ∈ l') by (intros n l' Hin; rewrite <- (take_drop n l'), elem_of_app; by left).
  assert (Hd : forall n l', id ∈ drop n l' -> id ∈ l') by (intros n l' Hin; rewrite <- (take_drop n l'), elem_of_app; by right).
  unfold go_page. destruct (listLimit opts d) as [limit offset]. intros Hin.
  set (l1 := match after_id opts with Some a => drop_until_after a l | None => l end) in *.
  assert (H1 : id ∈ l1).
  { destruct ((0 <? offset) && (Z.of_nat (length l1) <=? offset)); [by apply not_elem_of_nil in Hin|].
    set (l2 := if 0 <? offset then drop (Z.to_nat offset) l1 else l1) in *.
    assert (H2 : id ∈ l2) by (destruct ((0 <? limit) && _); eauto). unfold l2 in H2. destruct (0 <? offset); eauto. }
  unfold l1 in H1. destruct (after_id opts); [by eapply drop_until_after_subset|done].
Qed.
(** The page that [opts] ask for is the whole list of [n] entries. *)
Definition whole_page (opts : option ListOpts) (dflt n : Z) : Prop :=
  after_id opts = None /\ (listLimit opts dflt).2 = 0 /\ ((listLimit opts dflt).1 <= 0 \/ n <= (listLimit opts dflt).1).
Lemma go_page_whole opts dflt l : whole_page opts dflt (Z.of_nat (length l)) -> go_page opts dflt l = l.
Proof.
  unfold whole_page, go_page. destruct (listLimit opts dflt) as [limit offset]. simpl. intros (-> & -> & Hl). simpl.
  destruct (Z.ltb_spec 0 limit); [|done]. destruct (Z.ltb_spec limit (Z.of_nat (length l))); [lia|done].
Qed.

(** Sorted, duplicate-free lists of identifiers. *)
Definition sorted_ids (X : gset string) : list string := sort_strings (elements X).
Lemma elem_of_sorted_ids X id : id ∈ sorted_ids X <-> id ∈ X.
Proof. unfold sorted_ids. rewrite sort_strings_perm. apply elem_of_elements. Qed.
Lemma NoDup_sorted_ids X : NoDup (sorted_ids X).
Proof. unfold sorted_ids. rewrite sort_strings_perm. apply NoDup_elements. Qed.

(** [SELECT DISTINCT ... LIMIT n] without ORDER BY: which rows a limited query
    drops is unspecified. *)
Class SetScan := {
  scan : gset string -> list string;
  scan_perm : forall X, scan X ≡ₚ elements X
}.
#[export] Program Instance elements_scan : SetScan := {| scan X := elements X |}.
Next Obligation. done. Qed.
Definition maxFanoutRowsPerQuery : nat := Z.to_nat 20000.
Definition limited `{SetScan} (X : gset string) : gset string := list_to_set (take maxFanoutRowsPerQuery (scan X)).
Lemma limited_subset `{SetScan} X : limited X ⊆ X.
Proof.
  intros id. unfold limited. rewrite elem_of_list_to_set. intros Hin.
  apply elem_of_elements. rewrite <- scan_perm, <- (take_drop maxFanoutRowsPerQuery). apply elem_of_app. by left.
Qed.
Lemma limited_all `{SetScan} X : (size X <= maxFanoutRowsPerQuery)%nat -> limited X = X.
Proof.
  intros Hs. apply set_eq. intros id. unfold limited. rewrite elem_of_list_to_set, take_ge.
  - by rewrite scan_perm, elem_of_elements.
  - rewrite scan_perm. done.
Qed.
