(* ===== verification/Secret.v ===== *)
(** Encryption of credentials at rest (src/internal/secret/secret.go): the v2
    format [v2:base64(keyID || nonce || ciphertext)], bound to the row and
    column it is stored in.

    AES-256-GCM and SHA-256 are the [Crypto] interface with their documented
    behaviour as laws; base64 (RawStdEncoding) is defined. The keys of the
    environment (LoadKeyFromEnv) are inputs of the stores. *)
From S2P Require Import Prelude GoText.
Local Open Scope Z_scope.

Definition is_byte (b : Z) : Prop := 0 <= b < 256.
Definition bytes (l : list Z) : Prop := Forall is_byte l.

Lemma bs_bytes s : bytes (bs s).
Proof.
  unfold bytes, bs. apply Forall_fmap, Forall_true. intros a. unfold is_byte; simpl.
  pose proof (Stdlib.Strings.Ascii.N_ascii_bounded a). lia.
Qed.
Lemma bs_str_of l : bytes l -> bs (str_of l) = l.
Proof.
  unfold bs, str_of. rewrite Stdlib.Strings.String.list_ascii_of_string_of_list_ascii.
  induction 1 as [|b l Hb Hl IH]; simpl; [done|]. unfold is_byte in Hb.
  f_equal; [|done]. rewrite Stdlib.Strings.Ascii.N_ascii_embedding; lia.
Qed.
Lemma TrimSpace_s_idem s : TrimSpace_s (TrimSpace_s s) = TrimSpace_s s.
Proof.
  unfold TrimSpace_s. rewrite bs_str_of by apply TrimSpace_Forall, bs_bytes. by rewrite TrimSpace_idem.
Qed.
Lemma bs_app s1 s2 : bs (s1 +:+ s2) = bs s1 ++ bs s2.
Proof. induction s1 as [|a s1 IH]; [done|]. unfold bs. simpl. f_equal. exact IH. Qed.

(** ** base64.RawStdEncoding *)
Definition b64_char (v : Z) : Z :=
  if v <? 26 then 65 + v else if v <? 52 then 97 + (v - 26)
  else if v <? 62 then 48 + (v - 52) else if v =? 62 then 43 else 47.
Definition b64_val (c : Z) : option Z :=
  if in_range c 65 90 then Some (c - 65)
  else if in_range c 97 122 then Some (c - 97 + 26)
  else if in_range c 48 57 then Some (c - 48 + 52)
  else if c =? 43 then Some 62 else if c =? 47 then Some 63 else None.

Fixpoint EncodeToString (l : list Z) : list Z :=
  match l with
  | a :: b :: c :: l' =>
      b64_char (a / 4) :: b64_char (a mod 4 * 16 + b / 16) ::
      b64_char (b mod 16 * 4 + c / 64) :: b64_char (c mod 64) :: EncodeToString l'
  | [a; b] => [b64_char (a / 4); b64_char (a mod 4 * 16 + b / 16); b64_char (b mod 16 * 4)]
  | [a] => [b64_char (a / 4); b64_char (a mod 4 * 16)]
  | [] => []
  end.
(** The sextets of an input: line breaks are skipped, other bytes are errors. *)
Definition sextets (s : list Z) : option (list Z) :=
  mapM b64_val (filter (fun c => c <> 10 /\ c <> 13) s).
Fixpoint decode_sextets (l : list Z) : option (list Z) :=
  match l with
  | a :: b :: c :: d :: l' =>
      rest ← decode_sextets l';
      Some ((a * 4 + b / 16) :: (b mod 16 * 16 + c / 4) :: (c mod 4 * 64 + d) :: rest)
  | [a; b; c] => Some [a * 4 + b / 16; b mod 16 * 16 + c / 4]
  | [a; b] => Some [a * 4 + b / 16]
  | [_] => None
  | [] => Some []
  end.
Definition DecodeString (s : list Z) : option (list Z) := sextets s ≫= decode_sextets.

Lemma b64_val_char v : 0 <= v < 64 -> b64_val (b64_char v) = Some v.
Proof.
  intros Hv. unfold b64_char.
  destruct (v <? 26) eqn:?; [|destruct (v <? 52) eqn:?; [|destruct (v <? 62) eqn:?; [|destruct (v =? 62) eqn:?]]];
    unfold b64_val, in_range;
  repeat match goal with |- context [if ?e then _ else _] => destruct e eqn:? end; try (f_equal; lia); lia.
Qed.
Lemma b64_char_printable v : 0 <= v < 64 -> 43 <= b64_char v <= 122.
Proof.
  intros Hv. unfold b64_char. repeat match goal with |- context [if ?e then _ else _] => destruct e eqn:? end; lia.
Qed.
Lemma sextets_cons v l : 0 <= v < 64 -> sextets (b64_char v :: l) = rest ← sextets l; Some (v :: rest).
Proof.
  intros Hv. unfold sextets. rewrite filter_cons_True.
  2: { pose proof (b64_char_printable v Hv). lia. }
  simpl. by rewrite b64_val_char.
Qed.

(** Induction in steps of three. *)
Lemma list_ind3 {A} (P : list A -> Prop) :
  P [] -> (forall a, P [a]) -> (forall a b, P [a; b]) -> (forall a b c l, P l -> P (a :: b :: c :: l)) ->
  forall l, P l.
Proof.
  intros H0 H1 H2 H3.
  fix IH 1. intros [|a [|b [|c l]]]; [exact H0|apply H1|apply H2|apply H3, IH].
Qed.

Ltac bytes_lia := unfold is_byte in *; Z.to_euclidean_division_equations; lia.

Ltac sextet_eq := apply (f_equal Some); repeat (apply (f_equal2 cons); [bytes_lia|]); reflexivity.

Lemma DecodeString_EncodeToString l : bytes l -> DecodeString (EncodeToString l) = Some l.
Proof.
  unfold DecodeString. induction l as [|a|a b|a b c l IH] using list_ind3; intros Hl;
    unfold bytes in *; repeat match goal with H : Forall is_byte (_ :: _) |- _ => apply Forall_cons in H as [? H] end.
  - done.
  - simpl. rewrite !sextets_cons by bytes_lia. simpl. sextet_eq.
  - simpl. rewrite !sextets_cons by bytes_lia. simpl. sextet_eq.
  - simpl. specialize (IH Hl). rewrite !sextets_cons by bytes_lia.
    destruct (sextets (EncodeToString l)) as [q|]; [|done]. simpl in *. rewrite IH. simpl.
    sextet_eq.
Qed.
Lemma EncodeToString_bytes l : bytes l -> bytes (EncodeToString l).
Proof.
  induction l as [|a|a b|a b c l IH] using list_ind3; intros Hl;
    unfold bytes in *; repeat match goal with H : Forall is_byte (_ :: _) |- _ => apply Forall_cons in H as [? H] end; simpl.
  1: done.
  all: repeat (apply Forall_cons; split;
    [match goal with |- is_byte (b64_char ?v) => pose proof (b64_char_printable v ltac:(bytes_lia)); unfold is_byte; lia end|]);
    auto using Forall_nil_2.
Qed.

(** ** The format *)
Definition NonceSize : nat := 12.
Definition KeySize : nat := 32.
Definition keyIDSize : nat := 8.
Definition CiphertextVersionPrefixV2 : list Z := bs "v2:".

Class Crypto := {
  sha256 : list Z -> list Z;
  gcm_seal : list Z -> list Z -> list Z -> list Z -> list Z;         (* key nonce plaintext aad *)
  gcm_open : list Z -> list Z -> list Z -> list Z -> option (list Z); (* key nonce ciphertext aad *)
  sha256_length : forall k, length (sha256 k) = 32%nat;
  sha256_bytes : forall k, bytes (sha256 k);
  seal_bytes : forall k n p a, bytes p -> bytes (gcm_seal k n p a);
  (* [Open]: what was sealed under the same nonce and data is returned ... *)
  open_seal : forall k n p a, gcm_open k n (gcm_seal k n p a) a = Some p;
  (* ... and other additional data is an authentication failure *)
  open_seal_aad : forall k n p a a', bytes a -> bytes a' -> a <> a' -> gcm_open k n (gcm_seal k n p a) a' = None
}.

Inductive secret_err := ErrInvalidKey | ErrDecrypt | ErrInvalidInput | ErrKeyMismatch | ErrRand (msg : string).
#[export] Instance secret_err_eq_dec : EqDecision secret_err. Proof. solve_decision. Defined.

Section secret.
Context `{Crypto}.

Definition IsEncrypted (stored : string) : bool := has_prefix (bs stored) CiphertextVersionPrefixV2.
Definition KeyID (key : list Z) : list Z := take keyIDSize (sha256 key).

(** [rand]: the 12 bytes read from the random source, or its error. *)
Definition EncryptWithAAD (key : list Z) (plaintext : string) (aad : list Z) (rand : result string (list Z))
    : result secret_err string :=
  guard bool_decide (length key = KeySize) else ErrInvalidKey in
  if decide (plaintext = ""%string) then Ok ""%string
  else
    match rand with
    | Err msg => Err (ErrRand msg)
    | Ok nonce =>
        let ciphertext := gcm_seal key nonce (bs plaintext) aad in
        let combined := KeyID key ++ nonce ++ ciphertext in
        Ok (str_of (CiphertextVersionPrefixV2 ++ EncodeToString combined))
    end.

Definition decryptV2 (key body aad : list Z) : result secret_err string :=
  guard bool_decide (length key = KeySize) else ErrInvalidKey in
  match DecodeString body with
  | None => Err ErrInvalidInput
  | Some raw =>
      guard negb (bool_decide (length raw < keyIDSize + NonceSize)%nat) else ErrInvalidInput in
      let gotKID := take keyIDSize raw in
      guard bool_decide (gotKID = KeyID key) else ErrKeyMismatch in
      let nonce := take NonceSize (drop keyIDSize raw) in
      let enc := drop (keyIDSize + NonceSize) raw in
      match gcm_open key nonce enc aad with
      | None => Err ErrDecrypt
      | Some plain => Ok (str_of plain)
      end
  end.
Definition DecryptWithAAD (key : list Z) (ciphertext : string) (aad : list Z) : result secret_err string :=
  if decide (ciphertext = ""%string) then Ok ""%string
  else
    guard has_prefix (bs ciphertext) CiphertextVersionPrefixV2 else ErrInvalidInput in
    decryptV2 key (drop (length CiphertextVersionPrefixV2) (bs ciphertext)) aad.

Lemma KeyID_length key : length (KeyID key) = keyIDSize.
Proof. unfold KeyID, keyIDSize. rewrite length_take, sha256_length. done. Qed.
Lemma KeyID_bytes key : bytes (KeyID key).
Proof. unfold KeyID. apply Forall_take, sha256_bytes. Qed.

(** A value [EncryptWithAAD] made, taken apart. *)
Lemma decrypt_sealed key nonce p aad aad' :
  length key = KeySize -> length nonce = NonceSize -> bytes nonce ->
  let c := str_of (CiphertextVersionPrefixV2 ++ EncodeToString (KeyID key ++ nonce ++ gcm_seal key nonce (bs p) aad)) in
  IsEncrypted c = true /\ c <> ""%string /\
  forall key', length key' = KeySize ->
  DecryptWithAAD key' c aad' =
    if decide (KeyID key = KeyID key') then
      match gcm_open key' nonce (gcm_seal key nonce (bs p) aad) aad' with Some q => Ok (str_of q) | None => Err ErrDecrypt end
    else Err ErrKeyMismatch.
Proof.
  intros Hk Hn Hnb c.
  assert (Hb : bytes (KeyID key ++ nonce ++ gcm_seal key nonce (bs p) aad))
    by (repeat apply Forall_app_2; [apply KeyID_bytes|done|apply seal_bytes, bs_bytes]).
  assert (Hc : bs c = CiphertextVersionPrefixV2 ++ EncodeToString (KeyID key ++ nonce ++ gcm_seal key nonce (bs p) aad)).
  { apply bs_str_of, Forall_app. split; [apply bs_bytes|by apply EncodeToString_bytes]. }
  assert (Hp : has_prefix (bs c) CiphertextVersionPrefixV2 = true).
  { apply has_prefix_spec. rewrite Hc. by eexists. }
  assert (Hne : c <> ""%string). { intros E. by rewrite E in Hc. }
  split; [done|]. split; [done|]. intros key' Hk'. unfold DecryptWithAAD.
  rewrite decide_False, Hp by done. rewrite Hc, drop_app_length. unfold decryptV2.
  rewrite bool_decide_eq_true_2 by done. rewrite DecodeString_EncodeToString by done.
  rewrite bool_decide_eq_false_2.
  2: { rewrite !length_app, KeyID_length, Hn. lia. }
  simpl negb. cbv iota. pose proof (KeyID_length key) as HL.
  rewrite take_app_length' by done. rewrite drop_app_length' by done.
  rewrite take_app_length' by done.
  replace (drop (keyIDSize + NonceSize) _) with (gcm_seal key nonce (bs p) aad).
  2: { rewrite <- drop_drop, drop_app_length' by done. by rewrite drop_app_length'. }
  case_decide as E; [by rewrite bool_decide_eq_true_2|by rewrite bool_decide_eq_false_2].
Qed.

Lemma Decrypt_Encrypt key p aad nonce c :
  length nonce = NonceSize -> bytes nonce ->
  EncryptWithAAD key p aad (Ok nonce) = Ok c -> DecryptWithAAD key c aad = Ok p.
Proof.
  intros Hn Hb. unfold EncryptWithAAD. case_bool_decide as Hk; [|done].
  case_decide as Hp; intros [= <-]; [by rewrite Hp|].
  destruct (decrypt_sealed key nonce p aad aad Hk Hn Hb) as (_ & _ & Hd).
  rewrite Hd by done. by rewrite decide_True, open_seal, str_of_bs.
Qed.
End secret.

(** A toy instance, for the witnesses: no secrecy, but the laws hold. *)
Fixpoint unary (n : nat) : list Z := match n with O => [0] | S n => 1 :: unary n end.
Definition to_bytes (l : list Z) : list Z := (fun b => b mod 256) <$> l.
Definition toy_header (a : list Z) : list Z := unary (length a) ++ to_bytes a.
Definition toy_sha (k : list Z) : list Z := take 32 (to_bytes k ++ replicate 32 0).
Definition toy_seal (p a : list Z) : list Z := toy_header a ++ p.
Definition toy_open (c a : list Z) : option (list Z) :=
  if decide (take (length (toy_header a)) c = toy_header a) then Some (drop (length (toy_header a)) c) else None.

Lemma unary_bytes n : bytes (unary n).
Proof. induction n; simpl; (apply Forall_cons; split; [unfold is_byte; lia|]); [apply Forall_nil_2|done]. Qed.
Lemma to_bytes_bytes l : bytes (to_bytes l).
Proof. unfold bytes, to_bytes. apply Forall_fmap, Forall_true. intros b. unfold is_byte; simpl. apply Z.mod_pos_bound. lia. Qed.
Lemma to_bytes_id l : bytes l -> to_bytes l = l.
Proof. induction 1 as [|b l Hb Hl IH]; [done|]. simpl. f_equal; [|done]. apply Z.mod_small, Hb. Qed.
Lemma unary_inj n m r s : unary n ++ r = unary m ++ s -> n = m /\ r = s.
Proof.
  revert m. induction n as [|n IH]; intros [|m] Heq; simpl in Heq; simplify_eq; [done|].
  destruct (IH m Heq) as [-> ->]. done.
Qed.
Lemma toy_open_seal p a : toy_open (toy_seal p a) a = Some p.
Proof. unfold toy_open, toy_seal. rewrite decide_True by apply take_app_length. by rewrite drop_app_length. Qed.
Lemma toy_open_aad p a a' : bytes a -> bytes a' -> a <> a' -> toy_open (toy_seal p a) a' = None.
Proof.
  intros Ha Ha' Hne. unfold toy_open, toy_seal. apply decide_False. intros Heq. apply Hne.
  pose proof (take_drop (length (toy_header a')) (toy_header a ++ p)) as Hd. rewrite Heq in Hd.
  unfold toy_header in Hd. rewrite <- !app_assoc in Hd. apply unary_inj in Hd as [Hl Hd].
  apply (f_equal (take (length a))) in Hd. rewrite !to_bytes_id in Hd by done.
  rewrite take_app_length, <- Hl, take_app_length in Hd. done.
Qed.
#[export] Program Instance toy_crypto : Crypto := {|
  sha256 := toy_sha;
  gcm_seal k n p a := toy_seal p a;
  gcm_open k n c a := toy_open c a
|}.
Next Obligation. intros k. unfold toy_sha. rewrite length_take, length_app, length_replicate. lia. Qed.
Next Obligation.
  intros k. apply Forall_take, Forall_app. split; [apply to_bytes_bytes|]. apply Forall_replicate.
  unfold is_byte; lia.
Qed.
Next Obligation.
  intros k n p a Hp. repeat apply Forall_app_2; [apply unary_bytes|apply to_bytes_bytes|done].
Qed.
Next Obligation. intros. apply toy_open_seal. Qed.
Next Obligation. intros. by apply toy_open_aad. Qed.
