(* ===== verification/AuthPolicy.v ===== *)
(** Password policy and hashing, locales, user tags and token digests
    (src/internal/auth/password.go, sqlite_store.go, session.go, api_tokens.go),
    and the errors of package auth.

    bcrypt is the [Bcrypt] interface. The tables of package unicode are those of
    GoText.v; random bytes are arguments. *)
From S2P Require Import Prelude GoText Secret.
Local Open Scope Z_scope.

Inductive auth_err :=
| ErrUserExists | ErrUserNotFound | ErrInvalidSecret | ErrUserDisabled
| ErrWrongPassword | ErrPasswordUnchanged | ErrInvalidPublicKey
| ErrInvalidLocale | ErrInvalidRole | ErrIDOrUsernameEmpty | ErrTagLength | ErrTagChars
| ErrEmptyPassword | ErrPasswordTooShort | ErrPasswordTooLong
| ErrPasswordNoUpper | ErrPasswordNoLower | ErrPasswordNoDigit | ErrPasswordNoSpecial
| ErrSessionNotFound
| ErrAPITokenNotFound | ErrAPITokenInvalid | ErrAPITokenLimit | ErrAPITokenScope
| ErrTOTPNotEnabled | ErrTOTPAlreadyEnabled | ErrTOTPNoPending | ErrTOTPInvalidCode
| ErrOIDCLinkNotFound
| ErrAuth (msg : string)   (* errors.New and wrapped errors without a name *)
| ErrAuthDB (msg : string).
#[export] Instance auth_err_eq_dec : EqDecision auth_err. Proof. solve_decision. Defined.

(** ** bcrypt *)
Definition MaxPasswordLength : nat := 72.
Definition MinPasswordLength : nat := 8.
Class Bcrypt := {
  bcrypt_hash : list Z -> list Z -> string;     (* password, salt; at the configured cost *)
  bcrypt_compare : string -> list Z -> bool;    (* CompareHashAndPassword returned nil *)
  bcrypt_hash_nonempty : forall p s, bcrypt_hash p s <> ""%string;
  bcrypt_compare_hash : forall p s, (length p <= MaxPasswordLength)%nat -> bcrypt_compare (bcrypt_hash p s) p = true
}.
(** A transparent stand-in, on which the concrete examples run. *)
#[export] Program Instance toy_bcrypt : Bcrypt := {|
  bcrypt_hash p _ := String.append "$2a$" (str_of p);
  bcrypt_compare h p := bool_decide (h = String.append "$2a$" (str_of p))
|}.
Next Obligation. done. Qed.
Next Obligation. intros. by apply bool_decide_eq_true. Qed.

(** ** The policy *)
Section policy.
Context `{UnicodeTables}.

(** The four classes; a rune counts for the first one it belongs to. *)
Inductive char_class := Upper | Lower | Digit | Special.
#[export] Instance char_class_eq_dec : EqDecision char_class. Proof. solve_decision. Defined.
Definition class_of (r : Z) : option char_class :=
  if uc_IsUpper r then Some Upper
  else if uc_IsLower r then Some Lower
  else if uc_IsDigit r then Some Digit
  else if uc_IsPunct r || uc_IsSymbol r then Some Special
  else None.
Definition has_class (c : char_class) (rs : list Z) : bool :=
  existsb (fun r => bool_decide (class_of r = Some c)) rs.

Definition ValidatePassword (plain : string) : result auth_err unit :=
  let p := bs plain in
  guard bool_decide (p <> []) else ErrEmptyPassword in
  guard negb (bool_decide (length p < MinPasswordLength)%nat) else ErrPasswordTooShort in
  guard negb (bool_decide (MaxPasswordLength < length p)%nat) else ErrPasswordTooLong in
  guard has_class Upper (runes p) else ErrPasswordNoUpper in
  guard has_class Lower (runes p) else ErrPasswordNoLower in
  guard has_class Digit (runes p) else ErrPasswordNoDigit in
  guard has_class Special (runes p) else ErrPasswordNoSpecial in
  Ok tt.

Context `{Bcrypt}.
(** [salt]: what bcrypt reads from the random source, or its error. *)
Definition HashPassword (plain : string) (salt : result string (list Z)) : result auth_err string :=
  let? _ := ValidatePassword plain in
  match salt with
  | Err msg => Err (ErrAuth msg)
  | Ok s => Ok (bcrypt_hash (bs plain) s)
  end.
Definition VerifyPassword (hashed plain : string) : bool :=
  if bool_decide (hashed = ""%string) || bool_decide (plain = ""%string) then false
  else if bool_decide (MaxPasswordLength < length (bs plain))%nat then false
  else bcrypt_compare hashed (bs plain).

(** ** Locales and tags *)
Definition supportedUILocales : list string := [""; "en"; "ja"]%string.
Definition NormalizeUILocale (locale : string) : result auth_err string :=
  let loc := ToLower_s (TrimSpace_s locale) in
  guard bool_decide (loc ∈ supportedUILocales) else ErrInvalidLocale in Ok loc.

Definition maxUserTagLen : nat := 64.
Definition validateUserTag (tag : string) : result auth_err unit :=
  let s := bs tag in
  guard negb (bool_decide (s = []) || bool_decide (maxUserTagLen < length s)%nat) else ErrTagLength in
  guard forallb (fun r => (r =? 45) || (r =? 95) || uc_IsLetter r || uc_IsNumber r) (runes s) else ErrTagChars in
  Ok tt.
End policy.

(** ** Digests and tokens *)

(** [encoding/hex]: two lower-case digits per byte. *)
Definition hex_digit (v : Z) : Z := if v <? 10 then 48 + v else 97 + (v - 10).
Definition hex_EncodeToString (l : list Z) : string :=
  str_of (l ≫= fun b => [hex_digit (b / 16); hex_digit (b mod 16)]).
Definition randomID (rand : result string (list Z)) : result auth_err string :=
  match rand with Ok b => Ok (hex_EncodeToString b) | Err msg => Err (ErrAuth msg) end.

Section digests.
Context `{Crypto}.
Definition hashSessionToken (token : string) : string := hex_EncodeToString (sha256 (bs token)).
Definition HashAPIToken (plain : string) : string := hex_EncodeToString (sha256 (bs plain)).
End digests.

(** [base64.RawURLEncoding]: like RawStdEncoding with - and _ for + and /. *)
Definition url_char (c : Z) : Z := if c =? 43 then 45 else if c =? 47 then 95 else c.
Definition RawURLEncoding (l : list Z) : string := str_of (url_char <$> EncodeToString l).

(** ** Properties *)
Section facts.
Context `{UnicodeTables} `{Bcrypt}.

Definition password_ok (plain : string) : Prop :=
  (MinPasswordLength <= length (bs plain) <= MaxPasswordLength)%nat /\
  forall c, exists r, r ∈ runes (bs plain) /\ class_of r = Some c.
Lemma has_class_spec c rs : has_class c rs = true <-> exists r, r ∈ rs /\ class_of r = Some c.
Proof.
  unfold has_class. rewrite existsb_exists. setoid_rewrite bool_decide_eq_true.
  setoid_rewrite <- list_elem_of_In. done.
Qed.
Lemma ValidatePassword_spec plain : ValidatePassword plain = Ok tt <-> password_ok plain.
Proof.
  unfold ValidatePassword, password_ok. cbv zeta. set (p := bs plain).
  split.
  - intros Hv. inv_ok Hv. rewrite negb_true_iff, bool_decide_eq_false in *.
    repeat match goal with H : negb _ = true |- _ => apply negb_true_iff, bool_decide_eq_false in H end.
    split; [unfold MinPasswordLength, MaxPasswordLength in *; lia|]. intros []; by apply has_class_spec.
  - intros [[H1 H2] Hc]. unfold MinPasswordLength, MaxPasswordLength in *.
    rewrite bool_decide_true by (intros ->; simpl in *; lia).
    rewrite !bool_decide_false by lia. cbn [negb].
    pose proof (fun c => proj2 (has_class_spec c (runes p)) (Hc c)) as Hh. by rewrite !Hh.
Qed.
(** What was hashed verifies: bcrypt's 72-byte limit is never in play. *)
Lemma VerifyPassword_hash plain s h : HashPassword plain (Ok s) = Ok h -> VerifyPassword h plain = true.
Proof.
  unfold HashPassword, VerifyPassword. destruct (ValidatePassword plain) as [[]|] eqn:E; [|done]. intros [= <-].
  apply ValidatePassword_spec in E as [[Hmin Hmax] _].
  rewrite (bool_decide_false (bcrypt_hash _ _ = _)) by apply bcrypt_hash_nonempty.
  rewrite bool_decide_false by (intros ->; cbn in Hmin; unfold MinPasswordLength in *; lia).
  cbn [orb]. rewrite bool_decide_false by lia. by apply bcrypt_compare_hash.
Qed.
End facts.

Example policy_ex : ValidatePassword "Passw0rd" = Err ErrPasswordNoSpecial /\ ValidatePassword "Passw0rd!" = Ok tt.
Proof. vm_compute. done. Qed.
Example hex_ex : hex_EncodeToString [0; 171; 255] = "00abff"%string.
Proof. vm_compute. reflexivity. Qed.
