(* ===== verification/AuthStore.v ===== *)
(** The user and login-session stores (src/internal/auth/sqlite_store.go) over
    the account tables of the schema (src/internal/db/sqlite/migrate.go).

    [ssh.ParseAuthorizedKey] and [PublicKey.Marshal] are the [SSHKeys]
    interface. Columns with a DEFAULT hold it until they are written; every
    table below refers to [users] with ON DELETE CASCADE. *)
From S2P Require Import Prelude GoText Sqlite Secret AuthPolicy.
Local Open Scope Z_scope.

(** ** Tables *)
Record user_row := mkUserRow {
  ur_username : string; ur_password_hash : string; ur_role : string; ur_locale : string;
  ur_force_password_change : Z; ur_disabled : Z
}.
Record session_row := mkSessionRow { sr_user_id : string; sr_created_at : time; sr_expires_at : time }.
Record key_row := mkKeyRow { kr_user_id : string; kr_key_line : string; kr_created_at : time }.
Record token_row := mkTokenRow {
  tk_user_id : string; tk_name : string; tk_token_hash : string; tk_prefix : string; tk_scope : string;
  tk_created_at : Z; tk_expires_at : option Z; tk_last_used_at : option Z; tk_revoked_at : option Z
}.
Record totp_row := mkTotpRow {
  tp_secret_enc : string; tp_enabled : Z; tp_recovery_codes : string; tp_confirmed_at : option time
}.
Record auth_tables := mkAuth {
  au_users : gmap string user_row;
  au_tags : gset (string * string);                 (* (user_id, tag) *)
  au_sessions : gmap string session_row;            (* id: the digest of the token *)
  au_ssh_keys : gmap Z key_row;
  au_last_key : Z;                                  (* AUTOINCREMENT *)
  au_tokens : gmap string token_row;
  au_totp : gmap string totp_row;                   (* user_id *)
  au_links : gmap (string * string) string;         (* (issuer, subject) -> user_id *)
  au_oidc_groups : gset (string * string);          (* (user_id, group_id) *)
  au_group_ids : gset string                        (* access_groups.id *)
}.
#[export] Instance auth_db_error : DBError auth_err := ErrAuthDB.
Abbreviation AuthM := (DB auth_tables auth_err).
Definition unique_failed : string := "UNIQUE constraint failed".
Definition fk_failed : string := "FOREIGN KEY constraint failed".

Definition with_users t x := mkAuth x (au_tags t) (au_sessions t) (au_ssh_keys t) (au_last_key t) (au_tokens t) (au_totp t) (au_links t) (au_oidc_groups t) (au_group_ids t).
Definition with_tags t x := mkAuth (au_users t) x (au_sessions t) (au_ssh_keys t) (au_last_key t) (au_tokens t) (au_totp t) (au_links t) (au_oidc_groups t) (au_group_ids t).
Definition with_sessions t x := mkAuth (au_users t) (au_tags t) x (au_ssh_keys t) (au_last_key t) (au_tokens t) (au_totp t) (au_links t) (au_oidc_groups t) (au_group_ids t).
Definition with_ssh_keys t x n := mkAuth (au_users t) (au_tags t) (au_sessions t) x n (au_tokens t) (au_totp t) (au_links t) (au_oidc_groups t) (au_group_ids t).
Definition with_tokens t x := mkAuth (au_users t) (au_tags t) (au_sessions t) (au_ssh_keys t) (au_last_key t) x (au_totp t) (au_links t) (au_oidc_groups t) (au_group_ids t).
Definition with_totp t x := mkAuth (au_users t) (au_tags t) (au_sessions t) (au_ssh_keys t) (au_last_key t) (au_tokens t) x (au_links t) (au_oidc_groups t) (au_group_ids t).
Definition with_links t x := mkAuth (au_users t) (au_tags t) (au_sessions t) (au_ssh_keys t) (au_last_key t) (au_tokens t) (au_totp t) x (au_oidc_groups t) (au_group_ids t).
Definition with_oidc_groups t x := mkAuth (au_users t) (au_tags t) (au_sessions t) (au_ssh_keys t) (au_last_key t) (au_tokens t) (au_totp t) (au_links t) x (au_group_ids t).

(** [DELETE FROM users WHERE id = ?] with its cascades. *)
Definition delete_user (u : string) (t : auth_tables) : auth_tables :=
  mkAuth (delete u (au_users t)) (filter (fun x => x.1 <> u) (au_tags t))
    (filter (fun kv => sr_user_id kv.2 <> u) (au_sessions t)) (filter (fun kv => kr_user_id kv.2 <> u) (au_ssh_keys t))
    (au_last_key t) (filter (fun kv => tk_user_id kv.2 <> u) (au_tokens t)) (delete u (au_totp t))
    (filter (fun kv => kv.2 <> u) (au_links t)) (filter (fun x => x.1 <> u) (au_oidc_groups t)) (au_group_ids t).

(** ** Integrity *)
Definition known (t : auth_tables) (u : string) : Prop := is_Some (au_users t !! u).
Record auth_ok (t : auth_tables) : Prop := {
  ok_username : forall i j r r', au_users t !! i = Some r -> au_users t !! j = Some r' ->
    ur_username r = ur_username r' -> i = j;
  ok_tags : forall u tag, (u, tag) ∈ au_tags t -> known t u;
  ok_sessions : forall h s, au_sessions t !! h = Some s -> known t (sr_user_id s);
  ok_last_key : 0 <= au_last_key t;
  ok_ssh_keys : forall n k, au_ssh_keys t !! n = Some k -> known t (kr_user_id k) /\ 0 < n <= au_last_key t;
  ok_tokens : forall i k, au_tokens t !! i = Some k -> known t (tk_user_id k);
  ok_token_hash : forall i j k k', au_tokens t !! i = Some k -> au_tokens t !! j = Some k' ->
    tk_token_hash k = tk_token_hash k' -> i = j;
  ok_totp : forall u r, au_totp t !! u = Some r -> known t u;
  ok_links : forall k u, au_links t !! k = Some u -> known t u;
  ok_groups : forall u g, (u, g) ∈ au_oidc_groups t -> known t u /\ g ∈ au_group_ids t
}.

(** ** Users *)
Definition RoleAdmin : string := "admin".
Definition RoleUser : string := "user".
Record User := mkUser {
  u_ID : string; u_Username : string; u_PasswordHash : string; u_Role : string; u_Locale : string;
  u_ForcePasswordChange : bool; u_Disabled : bool
}.
Definition scan_user (id : string) (r : user_row) : User :=
  mkUser id (ur_username r) (ur_password_hash r) (ur_role r) (ur_locale r)
    (negb (ur_force_password_change r =? 0)) (negb (ur_disabled r =? 0)).
(** [WHERE username = ?] through the unique index. *)
Definition find_user (t : auth_tables) (name : string) : option (string * user_row) :=
  head (filter (fun kv => ur_username kv.2 = name) (map_to_list (au_users t))).

(** [UPDATE users SET ... WHERE id = ?], whose row count must be one. *)
Definition set_row (u : string) (r : user_row) (t : auth_tables) : auth_tables := with_users t (<[u := r]> (au_users t)).
Definition update_user (u : string) (f : user_row -> user_row) : AuthM unit :=
  let* n := db_exec (fun t =>
    match au_users t !! u with
    | Some r => Ok (set_row u (f r) t, 1)
    | None => Ok (t, 0)
    end) in
  if negb (n =? 1) then db_throw ErrUserNotFound else db_ret tt.
(** [strings.TrimSpace(userID) == ""] *)
Definition require_id {A} (userID : string) (k : AuthM A) : AuthM A :=
  if bool_decide (TrimSpace_s userID = ""%string) then db_throw ErrUserNotFound else k.

Definition set_hash h r := mkUserRow (ur_username r) h (ur_role r) (ur_locale r) (ur_force_password_change r) (ur_disabled r).
Definition set_force v r := mkUserRow (ur_username r) (ur_password_hash r) (ur_role r) (ur_locale r) v (ur_disabled r).
Definition set_name n r := mkUserRow n (ur_password_hash r) (ur_role r) (ur_locale r) (ur_force_password_change r) (ur_disabled r).
Definition set_disabled v r := mkUserRow (ur_username r) (ur_password_hash r) (ur_role r) (ur_locale r) (ur_force_password_change r) v.
Definition set_role v r := mkUserRow (ur_username r) (ur_password_hash r) v (ur_locale r) (ur_force_password_change r) (ur_disabled r).
Definition set_locale v r := mkUserRow (ur_username r) (ur_password_hash r) (ur_role r) v (ur_force_password_change r) (ur_disabled r).

Section users.
Context `{UnicodeTables} `{Bcrypt}.

Definition CreateUser (id username plainPassword role : string) (salt : result string (list Z)) : AuthM User :=
  if bool_decide (id = ""%string) || bool_decide (username = ""%string) then db_throw ErrIDOrUsernameEmpty else
  let role := if bool_decide (role = ""%string) then RoleUser else role in
  let role := if bool_decide (role <> RoleAdmin) && bool_decide (role <> RoleUser) then RoleUser else role in
  let* hash := db_of (HashPassword plainPassword salt) in
  let* r := db_catch (db_exec (fun t =>
    match au_users t !! id, find_user t username with
    | None, None => Ok (set_row id (mkUserRow username hash role "" 0 0) t, tt)
    | _, _ => Err unique_failed
    end)) in
  match r with
  | Err _ => db_throw ErrUserExists
  | Ok _ => db_ret (mkUser id username hash role "" false false)
  end.

(** The comparison with the dummy hash of an unknown user has no effect. *)
Definition Authenticate (username plainPassword : string) : AuthM User :=
  let* row := db_query (fun t => find_user t username) in
  match row with
  | None => db_throw ErrInvalidSecret
  | Some (id, r) =>
      if negb (VerifyPassword (ur_password_hash r) plainPassword) then db_throw ErrInvalidSecret
      else let u := scan_user id r in
        if u_Disabled u then db_throw ErrUserDisabled else db_ret u
  end.
Definition GetByID (id : string) : AuthM User :=
  let* row := db_query (fun t => au_users t !! id) in
  match row with None => db_throw ErrUserNotFound | Some r => db_ret (scan_user id r) end.

Definition by_username (a b : string * user_row) : bool := string_lt (ur_username a.2) (ur_username b.2).
Definition ListUsers (limit offset : Z) : AuthM (list User) :=
  let limit := if limit <=? 0 then 100 else limit in
  let offset := if offset <? 0 then 0 else offset in
  let* rows := db_query (fun t => take (Z.to_nat limit) (drop (Z.to_nat offset)
    (sort_stable by_username (map_to_list (au_users t))))) in
  db_ret ((fun kv => scan_user kv.1 kv.2) <$> rows).

Definition DeleteUser (userID : string) : AuthM unit :=
  require_id userID (
    let* n := db_exec (fun t =>
      match au_users t !! userID with Some _ => Ok (delete_user userID t, 1) | None => Ok (t, 0) end) in
    if negb (n =? 1) then db_throw ErrUserNotFound else db_ret tt).

Definition SetForcePasswordChange (userID : string) (force : bool) : AuthM unit :=
  require_id userID (update_user userID (set_force (if force then 1 else 0))).
Definition SetDisabled (userID : string) (disabled : bool) : AuthM unit :=
  require_id userID (update_user userID (set_disabled (if disabled then 1 else 0))).
Definition UpdateRole (userID role : string) : AuthM unit :=
  require_id userID (
    if bool_decide (role <> RoleAdmin) && bool_decide (role <> RoleUser) then db_throw ErrInvalidRole
    else update_user userID (set_role role)).
Definition UpdateLocale (userID locale : string) : AuthM unit :=
  require_id userID (
    let* loc := db_of (NormalizeUILocale locale) in update_user userID (set_locale loc)).
Definition others_named (t : auth_tables) (name u : string) : nat :=
  length (filter (fun kv => ur_username kv.2 = name /\ kv.1 <> u) (map_to_list (au_users t))).
Definition UpdateUsername (userID username : string) : AuthM unit :=
  let userID := TrimSpace_s userID in
  let username := TrimSpace_s username in
  if bool_decide (userID = ""%string) || bool_decide (username = ""%string) then db_throw ErrIDOrUsernameEmpty else
  if bool_decide (64 < length (bs username))%nat then db_throw ErrIDOrUsernameEmpty else
  let* n := db_query (fun t => others_named t username userID) in
  if bool_decide (0 < n)%nat then db_throw ErrUserExists else
  let* rows := db_exec (fun t =>
    match au_users t !! userID with
    | Some r => if bool_decide (others_named t username userID = 0%nat) then Ok (set_row userID (set_name username r) t, 1)
                else Err unique_failed
    | None => Ok (t, 0)
    end) in
  if negb (rows =? 1) then db_throw ErrUserNotFound else db_ret tt.

(** ** Tags: the rows are replaced without a transaction *)
Definition TagsForUser (userID : string) : AuthM (list string) :=
  db_query (fun t => sort_strings (omap (fun x => if decide (x.1 = userID) then Some x.2 else None) (elements (au_tags t)))).
Definition validate_tags (tags : list string) : result auth_err unit :=
  foldr (fun tag k => let? _ := validateUserTag tag in k) (Ok tt) tags.
(** [SELECT 1 FROM users WHERE id = ?] *)
Definition require_user (userID : string) : AuthM unit :=
  let* row := db_query (fun t => au_users t !! userID) in
  match row with None => db_throw ErrUserNotFound | Some _ => db_ret tt end.
Fixpoint insert_tags (userID : string) (tags : list string) : AuthM unit :=
  match tags with
  | [] => db_ret tt
  | tag :: tags =>
      let* _ := db_exec (fun t =>
        if decide ((userID, tag) ∈ au_tags t) then Err unique_failed
        else if decide (is_Some (au_users t !! userID))
        then Ok (with_tags t (au_tags t ∪ {[(userID, tag)]}), tt) else Err fk_failed) in
      insert_tags userID tags
  end.
Definition SetUserTags (userID : string) (tags : list string) : AuthM unit :=
  if bool_decide (userID = ""%string) then db_throw ErrUserNotFound else
  let* _ := db_of (validate_tags tags) in
  let* _ := require_user userID in
  let* _ := db_exec (fun t => Ok (with_tags t (filter (fun x => x.1 <> userID) (au_tags t)), tt)) in
  insert_tags userID tags.

Definition UpdatePassword (userID currentPlain newPlain : string) (salt : result string (list Z)) : AuthM unit :=
  let* _ := db_of (ValidatePassword newPlain) in
  if bool_decide (currentPlain = newPlain) then db_throw ErrPasswordUnchanged else
  let* u := GetByID userID in
  if negb (VerifyPassword (u_PasswordHash u) currentPlain) then db_throw ErrWrongPassword else
  let* hash := db_of (HashPassword newPlain salt) in
  update_user userID (set_hash hash).
End users.

(** ** SSH public keys *)
Class SSHKeys := {
  (** the wire form of the key on an authorized_keys line *)
  ParseAuthorizedKey : string -> option (list Z)
}.
Record UserSSHKey := mkUserSSHKey { k_ID : Z; k_UserID : string; k_KeyLine : string; k_CreatedAt : time }.
Section ssh_keys.
Context `{SSHKeys}.
Definition AddPublicKey (userID keyLine : string) (now : time) : AuthM Z :=
  let keyLine := TrimSpace_s keyLine in
  if bool_decide (keyLine = ""%string) then db_throw ErrInvalidPublicKey else
  match ParseAuthorizedKey keyLine with
  | None => db_throw ErrInvalidPublicKey
  | Some _ =>
      let* _ := require_user userID in
      db_exec (fun t =>
        if decide (is_Some (au_users t !! userID)) then
          let n := au_last_key t + 1 in
          Ok (with_ssh_keys t (<[n := mkKeyRow userID keyLine now]> (au_ssh_keys t)) n, n)
        else Err fk_failed)
  end.
Definition keys_of (t : auth_tables) (userID : string) : list (Z * key_row) :=
  filter (fun kv => kr_user_id kv.2 = userID) (map_to_list (au_ssh_keys t)).
Definition ListPublicKeys (userID : string) : AuthM (list UserSSHKey) :=
  let* rows := db_query (fun t => sort_stable (fun a b => a.1 <? b.1) (keys_of t userID)) in
  db_ret ((fun kv => mkUserSSHKey kv.1 (kr_user_id kv.2) (kr_key_line kv.2) (kr_created_at kv.2)) <$> rows).
Definition DeletePublicKey (userID : string) (keyID : Z) : AuthM unit :=
  let* n := db_exec (fun t =>
    match au_ssh_keys t !! keyID with
    | Some k => if decide (kr_user_id k = userID)
                then Ok (with_ssh_keys t (delete keyID (au_ssh_keys t)) (au_last_key t), 1) else Ok (t, 0)
    | None => Ok (t, 0)
    end) in
  if negb (n =? 1) then db_throw ErrUserNotFound else db_ret tt.
(** [key]: the wire form of the offered key; [None] is a nil key. *)
Definition holds_key (lines : list string) (key : list Z) : bool :=
  existsb (fun l => match ParseAuthorizedKey l with Some k => bool_decide (k = key) | None => false end) lines.
Definition AuthenticateByPublicKey (username : string) (key : option (list Z)) : AuthM User :=
  match key with
  | None => db_throw ErrInvalidSecret
  | Some key =>
      if bool_decide (username = ""%string) then db_throw ErrInvalidSecret else
      let* row := db_query (fun t => find_user t username) in
      match row with
      | None => db_throw ErrInvalidSecret
      | Some (id, r) =>
          (* force_password_change is not selected *)
          let u := mkUser id (ur_username r) (ur_password_hash r) (ur_role r) (ur_locale r) false (negb (ur_disabled r =? 0)) in
          let* lines := db_query (fun t => (fun kv => kr_key_line kv.2) <$> keys_of t id) in
          if holds_key lines key then
            if u_Disabled u then db_throw ErrUserDisabled else db_ret u
          else db_throw ErrInvalidSecret
      end
  end.
End ssh_keys.

(** ** Login sessions *)
Record Session := mkSession { s_ID : string; s_UserID : string; s_CreatedAt : time; s_ExpiresAt : time }.
Section sessions.
Context `{Crypto}.
(** [rand]: the 32 bytes of the token. *)
Definition session_Create (ttl : duration) (userID : string) (rand : result string (list Z)) (now : time) : AuthM Session :=
  if bool_decide (userID = ""%string) then db_throw (ErrAuth "userID must not be empty") else
  let* raw := db_of (randomID rand) in
  let hashed := hashSessionToken raw in
  let expires := Add now ttl in
  let* _ := db_exec (fun t =>
    match au_sessions t !! hashed with
    | Some _ => Err unique_failed
    | None => if decide (is_Some (au_users t !! userID))
              then Ok (with_sessions t (<[hashed := mkSessionRow userID now expires]> (au_sessions t)), tt)
              else Err fk_failed
    end) in
  db_ret (mkSession raw userID now expires).
Definition session_Delete (rawToken : string) : AuthM unit :=
  if bool_decide (rawToken = ""%string) then db_ret tt else
  db_exec (fun t => Ok (with_sessions t (delete (hashSessionToken rawToken) (au_sessions t)), tt)).
Definition session_Get (rawToken : string) (now : time) : AuthM Session :=
  if bool_decide (rawToken = ""%string) then db_throw ErrSessionNotFound else
  let* row := db_query (fun t => au_sessions t !! hashSessionToken rawToken) in
  match row with
  | None => db_throw ErrSessionNotFound
  | Some s =>
      if After now (sr_expires_at s) then
        let* _ := db_catch (session_Delete rawToken) in db_throw ErrSessionNotFound
      else db_ret (mkSession rawToken (sr_user_id s) (sr_created_at s) (sr_expires_at s))
  end.
Definition DeleteAllForUser (userID keepToken : string) : AuthM unit :=
  if bool_decide (userID = ""%string) then db_throw (ErrAuth "userID must not be empty") else
  if bool_decide (keepToken = ""%string) then
    db_exec (fun t => Ok (with_sessions t (filter (fun kv => sr_user_id kv.2 <> userID) (au_sessions t)), tt))
  else
    let keepHash := hashSessionToken keepToken in
    db_exec (fun t => Ok (with_sessions t
      (filter (fun kv => ~ (sr_user_id kv.2 = userID /\ kv.1 <> keepHash)) (au_sessions t)), tt)).
End sessions.

(** ** The statements keep the integrity of the tables *)
Lemma find_user_Some t name id r :
  find_user t name = Some (id, r) -> au_users t !! id = Some r /\ ur_username r = name.
Proof.
  unfold find_user. intros Hf. destruct (filter _ _) as [|x l] eqn:E; [done|]. injection Hf as ->.
  assert ((id, r) ∈ filter (fun kv => ur_username kv.2 = name) (map_to_list (au_users t))) as Hin by (rewrite E; left).
  apply list_elem_of_filter in Hin as [Hn Hin]. by apply elem_of_map_to_list in Hin.
Qed.
Lemma find_user_None t name id r :
  find_user t name = None -> au_users t !! id = Some r -> ur_username r <> name.
Proof.
  unfold find_user. intros Hf Hr Hn. destruct (filter _ _) as [|x l] eqn:E; [|done].
  assert ((id, r) ∈ filter (fun kv => ur_username kv.2 = name) (map_to_list (au_users t))) as Hin.
  { apply list_elem_of_filter. split; [done|]. by apply elem_of_map_to_list. }
  rewrite E in Hin. by apply elem_of_nil in Hin.
Qed.
(** Names are unique, so the lookup finds the account. *)
Lemma find_user_unique t id r : auth_ok t -> au_users t !! id = Some r -> find_user t (ur_username r) = Some (id, r).
Proof.
  intros Hok Hr. destruct (find_user t (ur_username r)) as [[id' r']|] eqn:E.
  - apply find_user_Some in E as [Hr' Hn]. pose proof (ok_username t Hok _ _ _ _ Hr' Hr Hn) as ->.
    by rewrite Hr in Hr'; injection Hr' as ->.
  - by pose proof (find_user_None _ _ _ _ E Hr).
Qed.
Lemma others_named_spec t name u :
  others_named t name u = 0%nat <-> forall j r, au_users t !! j = Some r -> ur_username r = name -> j = u.
Proof.
  unfold others_named. rewrite length_zero_iff_nil. split.
  - intros E j r Hj Hn. destruct (decide (j = u)) as [|Hne]; [done|].
    assert ((j, r) ∈ filter (fun kv => ur_username kv.2 = name /\ kv.1 <> u) (map_to_list (au_users t))) as Hin.
    { apply list_elem_of_filter. split; [done|]. by apply elem_of_map_to_list. }
    rewrite E in Hin. by apply elem_of_nil in Hin.
  - intros Hall. apply elem_of_nil_inv. intros [j r] [[Hn Hne] Hin]%list_elem_of_filter.
    apply elem_of_map_to_list in Hin. apply Hne. by eapply Hall.
Qed.

Lemma known_set_row t u r v : known t v -> known (set_row u r t) v.
Proof. intros [x Hx]. unfold known, set_row. simpl. destruct (decide (u = v)) as [->|]; [rewrite lookup_insert_eq|rewrite lookup_insert_ne by done]; eauto. Qed.
(** Writing a user row is harmless when its name is free. *)
Lemma auth_ok_set_row t u r :
  auth_ok t -> (forall j r', au_users t !! j = Some r' -> ur_username r' = ur_username r -> j = u) ->
  auth_ok (set_row u r t).
Proof.
  intros [Hn Ht Hs Hlast Hk Htk Hth Htp Hl Hg] Hfree. split; simpl; eauto using known_set_row.
  - intros i j ri rj. rewrite !lookup_insert_Some.
    intros [[<- <-]|[Hi Hri]] [[<- <-]|[Hj Hrj]] Heq; [done|..]; eauto. symmetry. eauto.
  - intros n k Hnk. destruct (Hk n k Hnk). eauto using known_set_row.
  - intros v g Hv. destruct (Hg v g Hv). eauto using known_set_row.
Qed.
Lemma auth_ok_update_row t u r r' :
  auth_ok t -> au_users t !! u = Some r -> ur_username r' = ur_username r -> auth_ok (set_row u r' t).
Proof. intros Hok Hr Hn. apply auth_ok_set_row; [done|]. intros j rj Hj Hjn. eapply (ok_username t Hok); eauto. congruence. Qed.
Lemma auth_ok_delete_user t u : auth_ok t -> auth_ok (delete_user u t).
Proof.
  intros [Hn Ht Hs Hlast Hk Htk Hth Htp Hl Hg].
  assert (Hkn : forall v, known t v -> v <> u -> known (delete_user u t) v).
  { intros v [x Hx] Hne. exists x. simpl. by rewrite lookup_delete_ne. }
  split; simpl.
  - intros i j r r' [_ Hi]%lookup_delete_Some [_ Hj]%lookup_delete_Some. eauto.
  - intros v tag [Hne Hin]%elem_of_filter. eauto.
  - intros h s [Hl' Hne]%map_lookup_filter_Some. eauto.
  - done.
  - intros n k [Hl' Hne]%map_lookup_filter_Some. destruct (Hk n k Hl'). eauto.
  - intros i k [Hl' Hne]%map_lookup_filter_Some. eauto.
  - intros i j k k' [Hi _]%map_lookup_filter_Some [Hj _]%map_lookup_filter_Some. eauto.
  - intros v r [Hne Hr]%lookup_delete_Some. eauto.
  - intros k v [Hk' Hne]%map_lookup_filter_Some. eauto.
  - intros v g [Hne Hin]%elem_of_filter. destruct (Hg v g Hin). eauto.
Qed.

(** Statements that only drop rows, or add a row of a known user. *)
Ltac auth_frame H := destruct H; split; simpl in *; eauto.
Lemma auth_ok_tags t X : auth_ok t -> (forall u tag, (u, tag) ∈ X -> (u, tag) ∈ au_tags t \/ known t u) -> auth_ok (with_tags t X).
Proof. intros Hok HX. auth_frame Hok. intros u tag [?|?]%HX; eauto. Qed.
Lemma auth_ok_sessions t m :
  auth_ok t -> (forall h s, m !! h = Some s -> known t (sr_user_id s)) -> auth_ok (with_sessions t m).
Proof. intros Hok Hm. auth_frame Hok. Qed.
Lemma auth_ok_keys t m n :
  auth_ok t -> 0 <= n -> (forall i k, m !! i = Some k -> known t (kr_user_id k) /\ 0 < i <= n) -> auth_ok (with_ssh_keys t m n).
Proof. intros Hok Hn Hm. auth_frame Hok. Qed.

Section preserved.
Context `{UnicodeTables} `{Bcrypt} `{Crypto} `{SSHKeys}.

Lemma update_user_ok u f :
  (forall r, ur_username (f r) = ur_username r) -> preserves auth_ok (update_user u f).
Proof.
  intros Hf. unfold update_user. preserve. apply preserves_exec. intros t t' n Hok.
  destruct (au_users t !! u) eqn:E; intros [= <- <-]; [|done]. by eapply auth_ok_update_row.
Qed.
Lemma CreateUser_ok id name p role salt : preserves auth_ok (CreateUser id name p role salt).
Proof.
  unfold CreateUser. cbv zeta. preserve. apply preserves_exec. intros t t' [] Hok.
  destruct (au_users t !! id) eqn:E; [done|]. destruct (find_user t name) eqn:En; [done|]. intros [= <-].
  apply auth_ok_set_row; [done|]. intros j r' Hj Hn. by pose proof (find_user_None _ _ _ _ En Hj).
Qed.
Lemma DeleteUser_ok u : preserves auth_ok (DeleteUser u).
Proof.
  unfold DeleteUser, require_id. preserve. apply preserves_exec. intros t t' n Hok.
  case_match; intros [= <- <-]; [by apply auth_ok_delete_user|done].
Qed.
Lemma UpdateUsername_ok u name : preserves auth_ok (UpdateUsername u name).
Proof.
  unfold UpdateUsername. cbv zeta. preserve. apply preserves_exec. intros t t' n Hok.
  destruct (au_users t !! TrimSpace_s u) eqn:E; [|by intros [= <- <-]].
  destruct (bool_decide_reflect (others_named t (TrimSpace_s name) (TrimSpace_s u) = 0%nat)) as [Hn|]; [|done].
  intros [= <- <-]. apply auth_ok_set_row; [done|].
  simpl. by apply others_named_spec.
Qed.
Lemma insert_tags_ok u tags : preserves auth_ok (insert_tags u tags).
Proof.
  induction tags; cbn [insert_tags]; preserve; [|done]. apply preserves_exec. intros t t' [] Hok.
  destruct (decide _) as [|_]; [done|]. destruct (decide _) as [Hu|]; [|done]. intros [= <-]. apply auth_ok_tags; [done|].
  intros v tag. rewrite elem_of_union, elem_of_singleton. intros [?|[= -> ->]]; [by left|by right].
Qed.
Lemma SetUserTags_ok u tags : preserves auth_ok (SetUserTags u tags).
Proof.
  unfold SetUserTags, require_user. preserve; [|apply insert_tags_ok]. apply preserves_exec. intros t t' [] Hok [= <-].
  apply auth_ok_tags; [done|]. intros v tag [_ Hin]%elem_of_filter. by left.
Qed.
Lemma UpdatePassword_ok u p q salt : preserves auth_ok (UpdatePassword u p q salt).
Proof. unfold UpdatePassword, GetByID. preserve. by apply update_user_ok. Qed.
Lemma SetForcePasswordChange_ok u b : preserves auth_ok (SetForcePasswordChange u b).
Proof. unfold SetForcePasswordChange, require_id. preserve. by apply update_user_ok. Qed.
Lemma SetDisabled_ok u b : preserves auth_ok (SetDisabled u b).
Proof. unfold SetDisabled, require_id. preserve. by apply update_user_ok. Qed.
Lemma UpdateRole_ok u r : preserves auth_ok (UpdateRole u r).
Proof. unfold UpdateRole, require_id. preserve. by apply update_user_ok. Qed.
Lemma UpdateLocale_ok u l : preserves auth_ok (UpdateLocale u l).
Proof. unfold UpdateLocale, require_id. preserve. by apply update_user_ok. Qed.
Lemma AddPublicKey_ok u line now : preserves auth_ok (AddPublicKey u line now).
Proof.
  unfold AddPublicKey, require_user. cbv zeta. preserve. apply preserves_exec. intros t t' n Hok.
  destruct (decide _) as [Hu|]; [|done]. intros [= <- <-]. pose proof (ok_last_key t Hok) as Hl.
  apply auth_ok_keys; [done|lia|]. intros i k.
  rewrite lookup_insert_Some. intros [[<- <-]|[Hne Hk]]; simpl; [split; [done|lia]|].
  destruct (ok_ssh_keys t Hok i k Hk). split; [done|lia].
Qed.
Lemma DeletePublicKey_ok u n : preserves auth_ok (DeletePublicKey u n).
Proof.
  unfold DeletePublicKey. preserve. apply preserves_exec. intros t t' m Hok.
  destruct (au_ssh_keys t !! n); [destruct (decide _) as [Hu|]|]; intros [= <- <-]; try done. apply auth_ok_keys; [done|by apply ok_last_key|].
  intros j kk [_ Hk]%lookup_delete_Some. by apply ok_ssh_keys.
Qed.
Lemma session_Create_ok ttl u rand now : preserves auth_ok (session_Create ttl u rand now).
Proof.
  unfold session_Create. cbv zeta. preserve. apply preserves_exec. intros t t' [] Hok.
  case_match; [done|]. destruct (decide _) as [Hu|]; [|done]. intros [= <-]. apply auth_ok_sessions; [done|].
  intros h s. rewrite lookup_insert_Some. intros [[<- <-]|[_ Hs]]; [done|]. by eapply ok_sessions.
Qed.
Lemma session_Delete_ok raw : preserves auth_ok (session_Delete raw).
Proof.
  unfold session_Delete. preserve. apply preserves_exec. intros t t' [] Hok [= <-].
  apply auth_ok_sessions; [done|]. intros h s [_ Hs]%lookup_delete_Some. by eapply ok_sessions.
Qed.
Lemma session_Get_ok raw now : preserves auth_ok (session_Get raw now).
Proof. unfold session_Get. preserve. apply session_Delete_ok. Qed.
Lemma DeleteAllForUser_ok u keep : preserves auth_ok (DeleteAllForUser u keep).
Proof.
  unfold DeleteAllForUser. cbv zeta. preserve; apply preserves_exec; intros t t' [] Hok [= <-];
    (apply auth_ok_sessions; [done|]; intros h s [Hs _]%map_lookup_filter_Some; by eapply ok_sessions).
Qed.
End preserved.
