(* ===== verification/AuthTokens.v ===== *)
(** API tokens and OIDC identities (src/internal/auth/api_tokens.go,
    oidc_links.go): bearer credentials of which only a digest is stored, and the
    identities and groups an identity provider granted. *)
From S2P Require Import Prelude GoText Sqlite Secret AuthPolicy AuthStore.
Local Open Scope Z_scope.

(** ** API tokens *)
Definition APITokenPrefix : string := "vtx_".
Definition APITokenScopeRead : string := "read".
Definition APITokenScopeWrite : string := "write".
Definition apiTokenMaxPerUser : nat := 50.

Record APIToken := mkAPIToken {
  at_ID : string; at_UserID : string; at_Name : string; at_Prefix : string; at_Scope : string;
  at_CreatedAt : time; at_ExpiresAt : option time; at_LastUsedAt : option time; at_RevokedAt : option time
}.
Definition Active (t : APIToken) (now : time) : bool :=
  match at_RevokedAt t with
  | Some _ => false
  | None => match at_ExpiresAt t with Some e => Before now e | None => true end
  end.
Definition scanAPIToken (id : string) (r : token_row) : APIToken :=
  mkAPIToken id (tk_user_id r) (tk_name r) (tk_prefix r) (tk_scope r) (time_Unix (tk_created_at r))
    (time_Unix <$> tk_expires_at r) (time_Unix <$> tk_last_used_at r) (time_Unix <$> tk_revoked_at r).

(** The rows [SELECT COUNT] sees of a user. *)
Definition live_tokens (t : auth_tables) (u : string) : gmap string token_row :=
  filter (fun kv => tk_user_id kv.2 = u /\ tk_revoked_at kv.2 = None) (au_tokens t).
Definition hash_taken (t : auth_tables) (h : string) : Prop :=
  map_Exists (fun _ r => tk_token_hash r = h) (au_tokens t).
#[export] Instance hash_taken_dec t h : Decision (hash_taken t h).
Proof. unfold hash_taken. apply _. Defined.
(** [WHERE token_hash = ?] through its unique index. *)
Definition find_token (t : auth_tables) (h : string) : option (string * token_row) :=
  head (filter (fun kv => tk_token_hash kv.2 = h) (map_to_list (au_tokens t))).

Section tokens.
Context `{Crypto}.

(** [raw], [idRaw]: the random bytes of the token and of its id. *)
Definition token_Create (userID name scope : string) (expiresAt : option time)
    (raw idRaw : result string (list Z)) (now : time) : AuthM (APIToken * string) :=
  let userID := TrimSpace_s userID in
  let name := TrimSpace_s name in
  if bool_decide (userID = ""%string) || bool_decide (name = ""%string) then db_throw ErrIDOrUsernameEmpty else
  if bool_decide (scope <> APITokenScopeRead) && bool_decide (scope <> APITokenScopeWrite) then db_throw ErrAPITokenScope else
  let* n := db_query (fun t => size (live_tokens t userID)) in
  if bool_decide (apiTokenMaxPerUser <= n)%nat then db_throw ErrAPITokenLimit else
  match raw, idRaw with
  | Ok raw, Ok idRaw =>
      let plain := String.append APITokenPrefix (RawURLEncoding raw) in
      let id := RawURLEncoding idRaw in
      let prefix := str_of (take 12 (bs plain)) in
      let* _ := db_exec (fun t =>
        if decide (is_Some (au_tokens t !! id) \/ hash_taken t (HashAPIToken plain)) then Err unique_failed
        else if decide (is_Some (au_users t !! userID)) then
          Ok (with_tokens t (<[id := mkTokenRow userID name (HashAPIToken plain) prefix scope (Unix now)
                                       (Unix <$> expiresAt) None None]> (au_tokens t)), tt)
        else Err fk_failed) in
      db_ret (mkAPIToken id userID name prefix scope now expiresAt None None, plain)
  | Err msg, _ | _, Err msg => db_throw (ErrAuth msg)
  end.

Definition token_Authenticate (plain : string) (now : time) : AuthM APIToken :=
  let plain := TrimSpace_s plain in
  if negb (has_prefix (bs plain) (bs APITokenPrefix)) || bool_decide (length (bs plain) < 20)%nat
  then db_throw ErrAPITokenInvalid else
  let* row := db_query (fun t => find_token t (HashAPIToken plain)) in
  match row with
  | None => db_throw ErrAPITokenInvalid
  | Some (id, r) =>
      let t := scanAPIToken id r in
      if Active t now then db_ret t else db_throw ErrAPITokenInvalid
  end.
End tokens.

Definition set_used (e : option Z) (r : token_row) : token_row :=
  mkTokenRow (tk_user_id r) (tk_name r) (tk_token_hash r) (tk_prefix r) (tk_scope r) (tk_created_at r)
    (tk_expires_at r) e (tk_revoked_at r).
Definition set_revoked (e : option Z) (r : token_row) : token_row :=
  mkTokenRow (tk_user_id r) (tk_name r) (tk_token_hash r) (tk_prefix r) (tk_scope r) (tk_created_at r)
    (tk_expires_at r) (tk_last_used_at r) e.
Definition Touch (id : string) (now : time) : AuthM unit :=
  db_exec (fun t => Ok (with_tokens t (alter (set_used (Some (Unix now))) id (au_tokens t)), tt)).

Definition newest_first (a b : string * token_row) : bool :=
  (tk_created_at b.2 <? tk_created_at a.2) || ((tk_created_at a.2 =? tk_created_at b.2) && string_lt a.1 b.1).
Definition ListForUser (userID : string) : AuthM (list APIToken) :=
  let* rows := db_query (fun t => sort_stable newest_first
    (filter (fun kv => tk_user_id kv.2 = userID) (map_to_list (au_tokens t)))) in
  db_ret ((fun kv => scanAPIToken kv.1 kv.2) <$> rows).

(** The row the UPDATE matches; an empty user skips the ownership check. *)
Definition revocable (userID : string) (r : token_row) : bool :=
  bool_decide (tk_revoked_at r = None) &&
  (bool_decide (userID = ""%string) || bool_decide (tk_user_id r = userID)).
Definition Revoke (userID id : string) (now : time) : AuthM unit :=
  let* n := db_exec (fun t =>
    match au_tokens t !! id with
    | Some r => if revocable userID r
                then Ok (with_tokens t (<[id := set_revoked (Some (Unix now)) r]> (au_tokens t)), 1)
                else Ok (t, 0)
    | None => Ok (t, 0)
    end) in
  if negb (n =? 1) then db_throw ErrAPITokenNotFound else db_ret tt.

(** ** OIDC *)
Definition Lookup (issuer subject : string) : AuthM string :=
  let* row := db_query (fun t => au_links t !! (issuer, subject)) in
  match row with None => db_throw ErrOIDCLinkNotFound | Some u => db_ret u end.
Definition Link (issuer subject userID : string) : AuthM unit :=
  if bool_decide (TrimSpace_s issuer = ""%string) || bool_decide (TrimSpace_s subject = ""%string)
     || bool_decide (TrimSpace_s userID = ""%string)
  then db_throw ErrIDOrUsernameEmpty
  else db_exec (fun t =>
    if decide (is_Some (au_users t !! userID))
    then Ok (with_links t (<[(issuer, subject) := userID]> (au_links t)), tt) else Err fk_failed).
Definition UnlinkUser (userID : string) : AuthM unit :=
  db_exec (fun t => Ok (with_links t (filter (fun kv => kv.2 <> userID) (au_links t)), tt)).
Definition ManagedGroups (userID : string) : AuthM (list string) :=
  db_query (fun t => sort_strings (omap (fun x => if decide (x.1 = userID) then Some x.2 else None) (elements (au_oidc_groups t)))).
(** INSERT OR IGNORE skips a repeated group; a missing row is still an error. *)
Fixpoint insert_groups (userID : string) (gs : list string) : AuthM unit :=
  match gs with
  | [] => db_ret tt
  | g :: gs =>
      let* _ := db_exec (fun t =>
        if decide ((userID, g) ∈ au_oidc_groups t) then Ok (t, tt)
        else if decide (is_Some (au_users t !! userID) /\ g ∈ au_group_ids t)
        then Ok (with_oidc_groups t (au_oidc_groups t ∪ {[(userID, g)]}), tt) else Err fk_failed) in
      insert_groups userID gs
  end.
Definition SetManagedGroups (userID : string) (groupIDs : list string) : AuthM unit :=
  db_tx (
    let* _ := db_exec (fun t => Ok (with_oidc_groups t (filter (fun x => x.1 <> userID) (au_oidc_groups t)), tt)) in
    insert_groups userID groupIDs).

(** ** Integrity *)
Lemma find_token_Some t h id r : find_token t h = Some (id, r) -> au_tokens t !! id = Some r /\ tk_token_hash r = h.
Proof.
  unfold find_token. intros Hf. destruct (filter _ _) as [|x l] eqn:E; [done|]. injection Hf as ->.
  assert ((id, r) ∈ filter (fun kv => tk_token_hash kv.2 = h) (map_to_list (au_tokens t))) as Hin by (rewrite E; left).
  apply list_elem_of_filter in Hin as [Hn Hin]. by apply elem_of_map_to_list in Hin.
Qed.
Lemma find_token_None t h : find_token t h = None -> ~ hash_taken t h.
Proof.
  unfold find_token. intros Hf (id & r & Hr & Hh). destruct (filter _ _) as [|x l] eqn:E; [|done].
  assert ((id, r) ∈ filter (fun kv => tk_token_hash kv.2 = h) (map_to_list (au_tokens t))) as Hin.
  { apply list_elem_of_filter. split; [done|]. by apply elem_of_map_to_list. }
  rewrite E in Hin. by apply elem_of_nil in Hin.
Qed.
Lemma find_token_unique t id r : auth_ok t -> au_tokens t !! id = Some r -> find_token t (tk_token_hash r) = Some (id, r).
Proof.
  intros Hok Hr. destruct (find_token t (tk_token_hash r)) as [[id' r']|] eqn:E.
  - apply find_token_Some in E as [Hr' Hn]. pose proof (ok_token_hash t Hok _ _ _ _ Hr' Hr Hn) as ->.
    by rewrite Hr in Hr'; injection Hr' as ->.
  - apply find_token_None in E. destruct E. by exists id, r.
Qed.

(** Rewriting rows without touching owner and digest. *)
Lemma auth_ok_tokens_map t m :
  auth_ok t ->
  (forall i k, m !! i = Some k -> exists k', au_tokens t !! i = Some k' /\ tk_user_id k = tk_user_id k' /\ tk_token_hash k = tk_token_hash k') ->
  auth_ok (with_tokens t m).
Proof.
  intros Hok Hm. pose proof (ok_tokens t Hok) as Ht. pose proof (ok_token_hash t Hok) as Hh. auth_frame Hok.
  - intros i k Hk. destruct (Hm i k Hk) as (k' & Hk' & -> & _). by eapply Ht.
  - intros i j k k' Hi Hj Heq. destruct (Hm i k Hi) as (k1 & H1 & _ & E1). destruct (Hm j k' Hj) as (k2 & H2 & _ & E2).
    eapply Hh; eauto. congruence.
Qed.
Lemma auth_ok_new_token t id r :
  auth_ok t -> au_tokens t !! id = None -> ~ hash_taken t (tk_token_hash r) -> known t (tk_user_id r) ->
  auth_ok (with_tokens t (<[id := r]> (au_tokens t))).
Proof.
  intros Hok Hid Hh Hu. pose proof (ok_tokens t Hok) as Ht. pose proof (ok_token_hash t Hok) as Huniq. auth_frame Hok.
  - intros i k. rewrite lookup_insert_Some. intros [[<- <-]|[_ Hk]]; [done|]. by eapply Ht.
  - intros i j k k'. rewrite !lookup_insert_Some.
    intros [[<- <-]|[Hi Hk]] [[<- <-]|[Hj Hk']] Heq; [done|..|by eapply Huniq]; destruct Hh; [exists j, k'|exists i, k]; done.
Qed.
Lemma auth_ok_links t m : auth_ok t -> (forall k u, m !! k = Some u -> known t u) -> auth_ok (with_links t m).
Proof. intros Hok Hm. auth_frame Hok. Qed.
Lemma auth_ok_groups t X :
  auth_ok t -> (forall u g, (u, g) ∈ X -> known t u /\ g ∈ au_group_ids t) -> auth_ok (with_oidc_groups t X).
Proof. intros Hok Hm. auth_frame Hok. Qed.

Section preserved.
Context `{Crypto}.
Lemma token_Create_ok u n s e raw idr now : preserves auth_ok (token_Create u n s e raw idr now).
Proof.
  unfold token_Create. cbv zeta. preserve. apply preserves_exec. intros t t' [] Hok.
  destruct (decide _) as [|Hfree]; [done|]. destruct (decide _) as [Hu|]; [|done]. intros [= <-].
  apply Decidable.not_or in Hfree as [Hid Hh]. apply auth_ok_new_token; [done| |done|done].
  by apply eq_None_not_Some.
Qed.
Lemma token_Authenticate_ok p now : preserves auth_ok (token_Authenticate p now).
Proof. unfold token_Authenticate. cbv zeta. preserve. Qed.
Lemma Touch_ok id now : preserves auth_ok (Touch id now).
Proof.
  unfold Touch. apply preserves_exec. intros t t' [] Hok [= <-]. apply auth_ok_tokens_map; [done|].
  intros i k. rewrite lookup_alter_Some. intros [(<- & k' & Hk & ->)|[_ Hk]]; eauto.
Qed.
Lemma Revoke_ok u id now : preserves auth_ok (Revoke u id now).
Proof.
  unfold Revoke. preserve. apply preserves_exec. intros t t' n Hok.
  destruct (au_tokens t !! id) as [r|] eqn:E; [|by intros [= <- <-]].
  destruct (revocable u r); intros [= <- <-]; [|done]. apply auth_ok_tokens_map; [done|].
  intros i k. rewrite lookup_insert_Some. intros [[<- <-]|[_ Hk]]; eauto.
Qed.
Lemma Link_ok i s u : preserves auth_ok (Link i s u).
Proof.
  unfold Link. preserve. apply preserves_exec. intros t t' [] Hok. destruct (decide _) as [Hu|]; [|done]. intros [= <-].
  apply auth_ok_links; [done|]. intros k v. rewrite lookup_insert_Some. intros [[<- <-]|[_ Hk]]; [done|]. by eapply ok_links.
Qed.
Lemma UnlinkUser_ok u : preserves auth_ok (UnlinkUser u).
Proof.
  apply preserves_exec. intros t t' [] Hok [= <-]. apply auth_ok_links; [done|].
  intros k v [Hk _]%map_lookup_filter_Some. by eapply ok_links.
Qed.
Lemma insert_groups_ok u gs : preserves auth_ok (insert_groups u gs).
Proof.
  induction gs; cbn [insert_groups]; preserve; [|done]. apply preserves_exec. intros t t' [] Hok.
  destruct (decide _) as [|_]; [by intros [= <-]|]. destruct (decide _) as [[Hu Hg]|]; [|done]. intros [= <-].
  apply auth_ok_groups; [done|]. intros v g. rewrite elem_of_union, elem_of_singleton.
  intros [?|[= -> ->]]; [by eapply ok_groups|done].
Qed.
Lemma SetManagedGroups_ok u gs : preserves auth_ok (SetManagedGroups u gs).
Proof.
  unfold SetManagedGroups. preserve; [|apply insert_groups_ok]. apply preserves_exec. intros t t' [] Hok [= <-].
  apply auth_ok_groups; [done|]. intros v g [_ Hin]%elem_of_filter. by eapply ok_groups.
Qed.
End preserved.
