(* ===== verification/AuthTotp.v ===== *)
(** The TOTP second factor (src/internal/auth/totp.go): enrolment, confirmation,
    verification, and the one-time recovery codes.

    The code check of the otp package is the [TOTP] interface. The column
    [recovery_codes] holds a JSON array of hexadecimal digests; package
    encoding/json is modelled on strings that need no escape, which are the only
    ones the store writes ([codes_column] is an invariant). [Verify] reads the
    row and later updates it under a guard: two steps, so that concurrent uses
    of a code interleave. *)
From S2P Require Import Prelude GoText Sqlite Secret AuthPolicy AuthStore.
Local Open Scope Z_scope.

(** ** JSON arrays of strings *)
Definition quoted (s : list Z) : list Z := [34] ++ s ++ [34].
Definition json_Marshal (l : list string) : string :=
  str_of ([91] ++ join_byte ((fun s => quoted (bs s)) <$> l) 44 ++ [93]).
(** The parser: [None] after a syntax error. *)
Inductive json_state := WantItem (first : bool) | InString (acc : list Z) | AfterItem.
Fixpoint json_items (st : json_state) (l : list Z) : option (list (list Z)) :=
  match l with
  | [] => None
  | b :: l =>
      match st with
      | WantItem first =>
          if b =? 34 then json_items (InString []) l
          else if (b =? 93) && first then match l with [] => Some [] | _ => None end
          else None
      | InString acc =>
          if b =? 34 then rest ← json_items AfterItem l; Some (acc :: rest)
          else if (b =? 92) || (b <? 32) then None
          else json_items (InString (acc ++ [b])) l
      | AfterItem =>
          if b =? 44 then json_items (WantItem false) l
          else if b =? 93 then match l with [] => Some [] | _ => None end
          else None
      end
  end.
(** [_ = json.Unmarshal(...)]: an error leaves the slice empty. *)
Definition json_Unmarshal (s : string) : list string :=
  match bs s with
  | 91 :: l => match json_items (WantItem true) l with Some items => str_of <$> items | None => [] end
  | _ => []
  end.

(** ** Codes *)
Definition recoveryCodeCount : nat := 8.
Definition alphabet : list Z := bs "abcdefghjkmnpqrstuvwxyz23456789".
(** One code from ten random bytes: xxxxx-xxxxx. *)
Definition recovery_char (x : Z) : Z := nth (Z.to_nat (x `mod` Z.of_nat (length alphabet))) alphabet 0.
Definition recovery_code (buf : list Z) : string :=
  str_of ((recovery_char <$> take 5 buf) ++ [45] ++ (recovery_char <$> drop 5 buf)).
(** [strings.ReplaceAll(s, c, "")] for one byte. *)
Definition remove_byte (c : Z) (l : list Z) : list Z := filter (fun b => b <> c) l.

Class TOTP := {
  (** [totp.ValidateCustom(code, secret, now, ...)] returned true without error *)
  totp_ValidateCustom : list Z -> string -> time -> bool
}.

Section totp.
Context `{UnicodeTables} `{Crypto} `{TOTP}.

Definition hashRecoveryCode (code : string) : string :=
  let norm := ToLower (TrimSpace (bs code)) in
  hex_EncodeToString (sha256 (remove_byte 32 (remove_byte 45 norm))).
(** [rand]: the eight reads of ten bytes. *)
Definition newRecoveryCodes (rand : result string (list (list Z))) : result auth_err (list string * list string) :=
  match rand with
  | Err msg => Err (ErrAuth msg)
  | Ok bufs =>
      let plain := recovery_code <$> take recoveryCodeCount bufs in
      Ok (plain, hashRecoveryCode <$> plain)
  end.

Definition validateCode (code secretB32 : string) (now : time) : bool :=
  let code := remove_byte 32 (TrimSpace (bs code)) in
  if bool_decide (code = []) then false else totp_ValidateCustom code secretB32 now.

(** ** The store; [key] encrypts the secrets, empty for plain text *)
Definition sealSecret (key : list Z) (secretB32 : string) (rand : result string (list Z)) : result auth_err string :=
  if bool_decide (key = []) then Ok secretB32
  else match EncryptWithAAD key secretB32 [] rand with Ok c => Ok c | Err _ => Err (ErrAuth "encrypt") end.
Definition openSecret (key : list Z) (stored : string) : result auth_err string :=
  if bool_decide (key = []) then Ok stored
  else match DecryptWithAAD key stored [] with Ok p => Ok p | Err _ => Err (ErrAuth "decrypt totp secret") end.

Record TOTPStatus := mkTOTPStatus {
  ts_Enabled : bool; ts_Pending : bool; ts_RecoveryCodesLeft : nat; ts_ConfirmedAt : option time
}.
Definition Status (userID : string) : AuthM TOTPStatus :=
  let* row := db_query (fun t => au_totp t !! userID) in
  db_ret (match row with
          | None => mkTOTPStatus false false 0 None
          | Some r => mkTOTPStatus (negb (tp_enabled r =? 0)) (tp_enabled r =? 0)
                        (length (json_Unmarshal (tp_recovery_codes r))) (tp_confirmed_at r)
          end).
(** [Enabled] takes an error for "not enabled". *)
Definition Enabled (userID : string) : AuthM bool :=
  let* st := db_catch (Status userID) in
  db_ret (match st with Ok st => ts_Enabled st | Err _ => false end).

Definition set_totp (u : string) (r : totp_row) (t : auth_tables) : auth_tables := with_totp t (<[u := r]> (au_totp t)).
(** [secretB32]: what [totp.Generate] drew, or its error. *)
Definition BeginEnrolment (key : list Z) (userID : string) (secretB32 : result string string)
    (rand : result string (list Z)) : AuthM string :=
  if bool_decide (TrimSpace_s userID = ""%string) then db_throw ErrUserNotFound else
  let* enabled := Enabled userID in
  if enabled : bool then db_throw ErrTOTPAlreadyEnabled else
  match secretB32 with
  | Err msg => db_throw (ErrAuth msg)
  | Ok s =>
      let* enc := db_of (sealSecret key s rand) in
      let* _ := db_exec (fun t =>
        if decide (is_Some (au_users t !! userID))
        then Ok (set_totp userID (mkTotpRow enc 0 (json_Marshal []) None) t, tt) else Err fk_failed) in
      db_ret s
  end.

Definition loadSecret (key : list Z) (userID : string) : AuthM (string * bool * list string) :=
  let* row := db_query (fun t => au_totp t !! userID) in
  match row with
  | None => db_throw ErrTOTPNotEnabled
  | Some r =>
      let* secretB32 := db_of (openSecret key (tp_secret_enc r)) in
      db_ret (secretB32, negb (tp_enabled r =? 0), json_Unmarshal (tp_recovery_codes r))
  end.

(** [UPDATE ... WHERE user_id = ? AND enabled = 0] *)
Definition enable_row (userID codes : string) (now : time) (t : auth_tables) : auth_tables * Z :=
  match au_totp t !! userID with
  | Some r => if tp_enabled r =? 0 then (set_totp userID (mkTotpRow (tp_secret_enc r) 1 codes (Some now)) t, 1) else (t, 0)
  | None => (t, 0)
  end.
Definition Confirm (key : list Z) (userID code : string) (bufs : result string (list (list Z))) (now : time) : AuthM (list string) :=
  let* l := db_catch (loadSecret key userID) in
  match l with
  | Err e => db_throw (if decide (e = ErrTOTPNotEnabled) then ErrTOTPNoPending else e)
  | Ok (secretB32, enabled, _) =>
      if enabled : bool then db_throw ErrTOTPAlreadyEnabled else
      if negb (validateCode code secretB32 now) then db_throw ErrTOTPInvalidCode else
      let* pc := db_of (newRecoveryCodes bufs) in
      let* n := db_exec (fun t => Ok (enable_row userID (json_Marshal pc.2) now t)) in
      if negb (n =? 1) then db_throw ErrTOTPNoPending else db_ret pc.1
  end.

(** [Verify]: what the first step decides. *)
Inductive verify_plan :=
| Accepted                                     (* the TOTP matched *)
| Consume (codes : list string) (idx : nat).   (* the recovery code at [idx] *)
Fixpoint index_of (l : list string) (h : string) : option nat :=
  match l with
  | [] => None
  | c :: l => if bool_decide (c = h) then Some 0%nat else S <$> index_of l h
  end.
(** The first half: read the row and decide. *)
Definition verify_begin (key : list Z) (userID code : string) (now : time) : AuthM verify_plan :=
  let* (secretB32, enabled, codes) := loadSecret key userID in
  if negb enabled then db_throw ErrTOTPNotEnabled else
  if validateCode code secretB32 now then db_ret Accepted else
  match index_of codes (hashRecoveryCode code) with
  | None => db_throw ErrTOTPInvalidCode
  | Some idx => db_ret (Consume codes idx)
  end.
(** [UPDATE ... WHERE user_id = ? AND recovery_codes = ?] *)
Definition swap_codes (userID old new : string) (t : auth_tables) : auth_tables * Z :=
  match au_totp t !! userID with
  | Some r => if bool_decide (tp_recovery_codes r = old)
              then (set_totp userID (mkTotpRow (tp_secret_enc r) (tp_enabled r) new (tp_confirmed_at r)) t, 1) else (t, 0)
  | None => (t, 0)
  end.
Definition verify_commit (userID : string) (p : verify_plan) : AuthM bool :=
  match p with
  | Accepted => db_ret false
  | Consume codes idx =>
      let remaining := take idx codes ++ drop (S idx) codes in
      let* n := db_exec (fun t => Ok (swap_codes userID (json_Marshal codes) (json_Marshal remaining) t)) in
      if negb (n =? 1) then db_throw ErrTOTPInvalidCode else db_ret true
  end.
Definition Verify (key : list Z) (userID code : string) (now : time) : AuthM bool :=
  let* p := verify_begin key userID code now in verify_commit userID p.

Definition Disable (userID : string) : AuthM unit :=
  let* n := db_exec (fun t =>
    match au_totp t !! userID with Some _ => Ok (with_totp t (delete userID (au_totp t)), 1) | None => Ok (t, 0) end) in
  if n =? 0 then db_throw ErrTOTPNotEnabled else db_ret tt.
End totp.

(** ** The codes column *)
Definition plain_byte (b : Z) : Prop := 48 <= b <= 57 \/ 97 <= b <= 102.
Definition plain_string (s : string) : Prop := Forall plain_byte (bs s).
Lemma json_string_parse s acc l :
  Forall plain_byte s ->
  json_items (InString acc) (s ++ 34 :: l) = rest ← json_items AfterItem l; Some ((acc ++ s) :: rest).
Proof.
  intros Hs. revert acc. induction Hs as [|b s Hb Hs IH]; intros acc; cbn [app json_items]; [|unfold plain_byte in Hb].
  - by rewrite app_nil_r.
  - destruct (Z.eqb_spec b 34); [lia|]. destruct (Z.eqb_spec b 92); [lia|].
    destruct (Z.ltb_spec b 32); [lia|]. cbn [orb]. rewrite IH. by rewrite <- app_assoc.
Qed.
Lemma quoted_app s l : quoted s ++ l = 34 :: s ++ 34 :: l.
Proof. unfold quoted. by rewrite <- !app_assoc. Qed.
Lemma json_tail_parse (l : list (list Z)) :
  Forall (Forall plain_byte) l ->
  json_items AfterItem (concat ((fun s => 44 :: quoted s) <$> l) ++ [93]) = Some l.
Proof.
  induction 1 as [|s l Hs Hl IH]; [done|]. rewrite fmap_cons. cbn [concat app].
  rewrite <- app_assoc, quoted_app. cbn [json_items Z.eqb Pos.eqb]. rewrite json_string_parse by done. by rewrite IH.
Qed.
Lemma Unmarshal_Marshal l : Forall plain_string l -> json_Unmarshal (json_Marshal l) = l.
Proof.
  intros Hl. unfold json_Unmarshal, json_Marshal.
  assert (Hb : bytes ([91] ++ join_byte ((fun s => quoted (bs s)) <$> l) 44 ++ [93])).
  { assert (Hq : forall s, bytes (quoted (bs s))).
    { intros s. unfold quoted. repeat apply Forall_app_2; [repeat constructor; unfold is_byte; lia|apply bs_bytes|repeat constructor; unfold is_byte; lia]. }
    repeat apply Forall_app_2; [repeat constructor; unfold is_byte; lia| |repeat constructor; unfold is_byte; lia].
    destruct l as [|s l]; [constructor|]. cbn [fmap list_fmap join_byte]. apply Forall_app_2; [apply Hq|].
    clear Hl. induction l as [|s' l IH]; [constructor|]. rewrite !fmap_cons. cbn [concat app]. constructor; [unfold is_byte; lia|]. apply Forall_app_2; [apply Hq|done]. }
  rewrite bs_str_of by done. cbn [app].
  destruct l as [|s l]; [done|]. cbn [fmap list_fmap join_byte].
  inversion Hl as [|? ? Hs Hl']; subst. rewrite <- app_assoc, quoted_app.
  cbn [json_items Z.eqb Pos.eqb]. rewrite json_string_parse by done.
  replace ((λ v : list Z, 44 :: v) <$> ((λ s0 : string, quoted (bs s0)) <$> l)) with ((fun v => 44 :: quoted v) <$> (bs <$> l))
    by (by rewrite <- !list_fmap_compose).
  rewrite json_tail_parse.
  - change (str_of <$> (bs <$> (s :: l)) = s :: l). rewrite <- list_fmap_compose. etrans; [|apply list_fmap_id].
    apply list_fmap_ext. intros ? x _. apply str_of_bs.
  - apply Forall_fmap. done.
Qed.

(** Every row of the table holds a marshalled list of digests. *)
Definition codes_ok (t : auth_tables) : Prop := forall u r, au_totp t !! u = Some r ->
  exists l, Forall plain_string l /\ tp_recovery_codes r = json_Marshal l.
Definition codes (t : auth_tables) (u : string) : list string :=
  match au_totp t !! u with Some r => json_Unmarshal (tp_recovery_codes r) | None => [] end.
Lemma codes_plain t u : codes_ok t -> Forall plain_string (codes t u).
Proof.
  intros Ht. unfold codes. destruct (au_totp t !! u) as [r|] eqn:E; [|constructor].
  destruct (Ht u r E) as (l & Hl & ->). by rewrite Unmarshal_Marshal.
Qed.
Lemma codes_column t u r : codes_ok t -> au_totp t !! u = Some r -> tp_recovery_codes r = json_Marshal (codes t u).
Proof.
  intros Ht E. destruct (Ht u r E) as (l & Hl & Hr). unfold codes. rewrite E, Hr. by rewrite Unmarshal_Marshal.
Qed.
Lemma codes_set_totp t u r l v :
  tp_recovery_codes r = json_Marshal l -> Forall plain_string l ->
  codes (set_totp u r t) v = if decide (v = u) then l else codes t v.
Proof.
  intros Hr Hl. unfold codes, set_totp. cbn [au_totp with_totp]. destruct (decide (v = u)) as [->|Hne].
  - rewrite lookup_insert_eq, Hr. by apply Unmarshal_Marshal.
  - by rewrite lookup_insert_ne by done.
Qed.
Lemma codes_ok_set_totp t u r l :
  codes_ok t -> tp_recovery_codes r = json_Marshal l -> Forall plain_string l -> codes_ok (set_totp u r t).
Proof.
  intros Ht Hr Hl v r'. unfold set_totp. cbn [au_totp with_totp]. rewrite lookup_insert_Some.
  intros [[<- <-]|[_ Hv]]; eauto.
Qed.
Lemma codes_ok_delete t t' u : codes_ok t -> au_totp t' = delete u (au_totp t) -> codes_ok t'.
Proof. intros Ht Hd v r. rewrite Hd. intros [_ Hv]%lookup_delete_Some. eauto. Qed.
Lemma codes_delete t t' u v :
  au_totp t' = delete u (au_totp t) -> codes t' v = if decide (v = u) then [] else codes t v.
Proof.
  intros Hd. unfold codes. rewrite Hd. destruct (decide (v = u)) as [->|Hne].
  - by rewrite lookup_delete_eq.
  - by rewrite lookup_delete_ne by done.
Qed.

Definition hex_digits (l : list Z) : list Z := l ≫= fun b => [hex_digit (b / 16); hex_digit (b mod 16)].
Lemma hex_digits_plain l : bytes l -> Forall plain_byte (hex_digits l).
Proof.
  assert (Hd : forall v, 0 <= v < 16 -> plain_byte (hex_digit v)).
  { intros v Hv. unfold hex_digit, plain_byte. destruct (Z.ltb_spec v 10); lia. }
  induction 1 as [|b l Hb Hl IH]; [constructor|]. cbn. unfold is_byte in Hb.
  constructor; [apply Hd; Z.div_mod_to_equations; lia|]. constructor; [apply Hd; Z.div_mod_to_equations; lia|]. exact IH.
Qed.
Lemma bs_hex l : bytes l -> bs (hex_EncodeToString l) = hex_digits l.
Proof.
  intros Hl. apply bs_str_of. eapply Forall_impl; [by apply hex_digits_plain|].
  intros b. unfold plain_byte, is_byte. lia.
Qed.
Lemma hex_plain l : bytes l -> plain_string (hex_EncodeToString l).
Proof. intros Hl. unfold plain_string. rewrite bs_hex by done. by apply hex_digits_plain. Qed.

(** ** A history of the store, with verifications cut in two *)
Inductive totp_event :=
| EvBegin (u : string) (secretB32 : result string string) (rand : result string (list Z))
| EvConfirm (u code : string) (bufs : result string (list (list Z))) (now : time)
| EvRead (u code : string) (now : time)      (* the first half of a Verify *)
| EvWrite (n : nat)                          (* the second half of the [n]-th Verify *)
| EvDisable (u : string)
| EvDeleteUser (u : string).
Record totp_world := mkWorld {
  w_conn : conn auth_tables;
  w_plans : list (string * verify_plan);     (* the verifications begun so far *)
  w_issued : list (string * string);         (* (user, digest) of the codes handed out *)
  w_used : list (string * string)            (* (user, digest) of the codes accepted *)
}.

Section history.
Context `{UnicodeTables} `{Crypto} `{TOTP} (key : list Z).

Definition plan_digest (p : verify_plan) : option string :=
  match p with Accepted => None | Consume l idx => l !! idx end.
Definition totp_step (w : totp_world) (e : totp_event) : totp_world :=
  match e with
  | EvBegin u s rand => mkWorld (BeginEnrolment key u s rand (w_conn w)).1 (w_plans w) (w_issued w) (w_used w)
  | EvConfirm u code bufs now =>
      let (c, r) := Confirm key u code bufs now (w_conn w) in
      mkWorld c (w_plans w)
        (match r with Ok plain => ((fun p => (u, hashRecoveryCode p)) <$> plain) ++ w_issued w | Err _ => w_issued w end) (w_used w)
  | EvRead u code now =>
      let (c, r) := verify_begin key u code now (w_conn w) in
      mkWorld c (match r with Ok p => w_plans w ++ [(u, p)] | Err _ => w_plans w end) (w_issued w) (w_used w)
  | EvWrite n =>
      match w_plans w !! n with
      | None => w
      | Some (u, p) =>
          let (c, r) := verify_commit u p (w_conn w) in
          mkWorld c (w_plans w) (w_issued w)
            (match r, plan_digest p with Ok true, Some h => (u, h) :: w_used w | _, _ => w_used w end)
      end
  | EvDisable u => mkWorld (Disable u (w_conn w)).1 (w_plans w) (w_issued w) (w_used w)
  | EvDeleteUser u => mkWorld (DeleteUser u (w_conn w)).1 (w_plans w) (w_issued w) (w_used w)
  end.
Definition totp_run (w : totp_world) (evs : list totp_event) : totp_world := foldl totp_step w evs.

(** The occurrences of a code. *)
Definition occurrences {A} `{EqDecision A} (x : A) (l : list A) : nat := length (filter (fun y => y = x) l).
Lemma occurrences_app {A} `{EqDecision A} (x : A) l k : occurrences x (l ++ k) = (occurrences x l + occurrences x k)%nat.
Proof. unfold occurrences. by rewrite filter_app, length_app. Qed.
Lemma occurrences_cons {A} `{EqDecision A} (x y : A) l :
  occurrences x (y :: l) = ((if decide (y = x) then 1 else 0) + occurrences x l)%nat.
Proof. unfold occurrences. rewrite filter_cons. by destruct (decide (y = x)). Qed.
Lemma occurrences_remove l idx (h x : string) : l !! idx = Some h ->
  occurrences x l = ((if decide (h = x) then 1 else 0) + occurrences x (take idx l ++ drop (S idx) l))%nat.
Proof.
  intros Hh. rewrite <- (take_drop_middle l idx h Hh) at 1.
  rewrite !occurrences_app, occurrences_cons. lia.
Qed.
Lemma occurrences_pair (u v h : string) (l : list string) :
  occurrences (v, h) ((fun p => (u, p)) <$> l) = if decide (v = u) then occurrences h l else 0%nat.
Proof.
  induction l as [|p l IH]; [by destruct (decide _)|]. rewrite fmap_cons, occurrences_cons, IH.
  destruct (decide (v = u)) as [->|Hne].
  - rewrite occurrences_cons. destruct (decide (p = h)) as [->|Hph]; [by rewrite decide_True|].
    rewrite decide_False; [done|]. congruence.
  - rewrite decide_False; [done|]. congruence.
Qed.

Lemma index_of_Some l h idx : index_of l h = Some idx -> l !! idx = Some h.
Proof.
  revert idx. induction l as [|c l IH]; intros idx; [done|]. cbn [index_of].
  destruct (bool_decide_reflect (c = h)) as [->|]; [by intros [= <-]|].
  destruct (index_of l h) as [i|]; [|done]. intros [= <-]. simpl. eauto.
Qed.

(** Tables whose unused codes stay within [n]. *)
Definition within (n : string -> string -> nat) (t : auth_tables) : Prop :=
  codes_ok t /\ forall u h, (occurrences h (codes t u) <= n u h)%nat.
Definition plan_good (p : verify_plan) : Prop :=
  match p with Accepted => True | Consume l idx => Forall plain_string l /\ is_Some (l !! idx) end.

Lemma within_delete n t t' u : within n t -> au_totp t' = delete u (au_totp t) -> within n t'.
Proof.
  intros [Ht Hn] Hd. split; [by eapply codes_ok_delete|]. intros v h. rewrite (codes_delete t t' u v Hd).
  destruct (decide _); [unfold occurrences; simpl; lia|done].
Qed.
Lemma BeginEnrolment_within n u s rand : preserves (within n) (BeginEnrolment key u s rand).
Proof.
  unfold BeginEnrolment, Enabled, Status. preserve. apply preserves_exec. intros t t' [] [Ht Hn].
  destruct (decide _) as [_|]; [|done]. intros [= <-]. split.
  - eapply codes_ok_set_totp; [done|reflexivity|constructor].
  - intros v h. rewrite (codes_set_totp t u _ [] v) by (done || constructor).
    destruct (decide _); [unfold occurrences; simpl; lia|done].
Qed.
Lemma Disable_within n u : preserves (within n) (Disable u).
Proof.
  unfold Disable. preserve. apply preserves_exec. intros t t' m Hw.
  case_match; intros [= <- <-]; [|done]. by eapply within_delete.
Qed.
Lemma DeleteUser_within n u : preserves (within n) (DeleteUser u).
Proof.
  unfold DeleteUser, require_id. preserve. apply preserves_exec. intros t t' m Hw.
  case_match; intros [= <- <-]; [|done]. by eapply within_delete.
Qed.

Lemma loadSecret_codes u t0 : codes_ok t0 ->
  hoare (eq t0) (loadSecret key u) (fun t r => t = t0 /\ forall s b l, r = Ok (s, b, l) -> l = codes t0 u).
Proof.
  intros Ht. unfold loadSecret. eapply hoare_bind with (R := fun t r => t = t0 /\ forall row, r = Ok row -> row = au_totp t0 !! u).
  - apply hoare_query; [intros t <-; split; [done|]; congruence|intros t m <-; done].
  - intros row c [Hc Hr]. rewrite (Hr row eq_refl). clear Hr row.
    unfold codes. destruct (au_totp t0 !! u) as [r|]; [|by split].
    unfold db_bind, db_of. destruct (openSecret _ _); split; try done. by intros ? ? ? [= <- <- <-].
  - intros t e [-> _]. by split.
Qed.
Lemma verify_begin_plan u code now t0 : codes_ok t0 ->
  hoare (eq t0) (verify_begin key u code now) (fun t r => t = t0 /\ forall p, r = Ok p -> plan_good p).
Proof.
  intros Ht. unfold verify_begin. eapply hoare_bind; [by apply loadSecret_codes| |intros t e [-> _]; by split].
  intros [[s en] l] c [Hc Hl]. rewrite (Hl s en l eq_refl).
  destruct en; [|by split]. cbn [negb]. destruct (validateCode _ _ _); [split; [done|]; by intros p [= <-]|].
  destruct (index_of _ _) as [idx|] eqn:E; [|by split]. split; [done|]. intros p [= <-].
  split; [by apply codes_plain|]. apply index_of_Some in E. eauto.
Qed.
(** Accepting a recovery code takes it out of the row; nothing else changes. *)
Lemma verify_commit_codes u p t0 : codes_ok t0 -> plan_good p ->
  hoare (eq t0) (verify_commit u p) (fun t r => codes_ok t /\
    forall v h, (occurrences h (codes t v) +
      match r, plan_digest p with Ok true, Some d => if decide ((u, d) = (v, h)) then 1 else 0 | _, _ => 0 end
      <= occurrences h (codes t0 v))%nat).
Proof.
  intros Ht Hp. assert (Hsame : codes_ok t0 /\ forall v h, (occurrences h (codes t0 v) + 0 <= occurrences h (codes t0 v))%nat)
    by (split; [done|lia]).
  destruct p as [|l idx]; [intros c Hc; cbn; by rewrite <- Hc|]. destruct Hp as [Hl [d Hd]]. cbn [verify_commit plan_digest]. rewrite Hd.
  eapply hoare_bind with (R := fun t r => match r with
    | Ok n => (n = 1 /\ codes t0 u = l /\ codes_ok t /\ forall v, codes t v = if decide (v = u) then take idx l ++ drop (S idx) l else codes t0 v)
              \/ (n <> 1 /\ t = t0)
    | Err _ => t = t0 end).
  - apply hoare_exec; [|by intros t m <-]. intros t <-. unfold swap_codes.
    destruct (au_totp t0 !! u) as [r|] eqn:Er; [|right; done].
    destruct (bool_decide_reflect (tp_recovery_codes r = json_Marshal l)) as [Heq|]; [|right; done].
    assert (Hrem : Forall plain_string (take idx l ++ drop (S idx) l))
      by (apply Forall_app_2; [by apply Forall_take|by apply Forall_drop]).
    left. split; [done|]. split; [unfold codes; rewrite Er, Heq; by apply Unmarshal_Marshal|].
    split; [eapply codes_ok_set_totp; [done|reflexivity|done]|].
    intros v. by apply codes_set_totp.
  - intros n c [(-> & Hu & Hc & Hcodes)|[Hn Hc]]; unfold db_throw, db_ret.
    + cbn [negb Z.eqb Pos.eqb fst snd]. split; [done|]. intros v h. rewrite Hcodes.
      destruct (decide (v = u)) as [->|Hne].
      * rewrite Hu, (occurrences_remove l idx d h Hd). destruct (decide (d = h)) as [->|Hdh].
        -- rewrite decide_True by done. lia.
        -- rewrite decide_False by congruence. lia.
      * rewrite decide_False by congruence. lia.
    + destruct (Z.eqb_spec n 1); [done|]. cbn [negb fst snd]. by rewrite Hc.
  - by intros t e ->.
Qed.
(** A confirmation replaces the codes by the ones it returns. *)
Lemma confirm_write_codes u plain now t0 : codes_ok t0 ->
  hoare (eq t0) (
    let* n := db_exec (fun t => Ok (enable_row u (json_Marshal (hashRecoveryCode <$> plain)) now t)) in
    if negb (n =? 1) then db_throw ErrTOTPNoPending else db_ret plain)
  (fun t r => codes_ok t /\
    match r with
    | Ok plain => forall v, codes t v = if decide (v = u) then hashRecoveryCode <$> plain else codes t0 v
    | Err _ => t = t0
    end).
Proof.
  intros Ht. assert (Hplain : Forall plain_string (hashRecoveryCode <$> plain)).
  { apply Forall_fmap, Forall_true. intros x. apply hex_plain, sha256_bytes. }
  eapply hoare_bind with (R := fun t r => match r with
    | Ok n => (n = 1 /\ codes_ok t /\ forall v, codes t v = if decide (v = u) then hashRecoveryCode <$> plain else codes t0 v)
              \/ (n <> 1 /\ t = t0)
    | Err _ => t = t0 end).
  - apply hoare_exec; [|by intros t m <-]. intros t <-. unfold enable_row.
    destruct (au_totp t0 !! u) as [r|] eqn:Er; [|right; done]. destruct (tp_enabled r =? 0); [|right; done].
    left. split; [done|]. split; [eapply codes_ok_set_totp; [done|reflexivity|done]|]. intros v. by apply codes_set_totp.
  - intros n c' [(-> & Hc & Hv)|[Hn Hc]]; unfold db_throw, db_ret; [by split|].
    destruct (Z.eqb_spec n 1); [done|]. cbn [negb fst snd]. by rewrite Hc.
  - intros t e ->. by split.
Qed.
Lemma Confirm_codes u code bufs now t0 : codes_ok t0 ->
  hoare (eq t0) (Confirm key u code bufs now) (fun t r => codes_ok t /\
    match r with
    | Ok plain => forall v, codes t v = if decide (v = u) then hashRecoveryCode <$> plain else codes t0 v
    | Err _ => t = t0
    end).
Proof.
  intros Ht. unfold Confirm. eapply hoare_bind with (R := fun t _ => t = t0).
  { intros c Hc. unfold db_catch. pose proof (loadSecret_codes u t0 Ht c Hc) as [Hx _].
    by destruct (loadSecret _ _ _). }
  2: { by intros t e ->. }
  intros [[[s en] l]|e] c Hc0; [|by rewrite <- Hc0 in *].
  destruct en; [by rewrite <- Hc0 in *|]. destruct (validateCode _ _ _); [|by rewrite <- Hc0 in *]. cbn [negb].
  destruct (newRecoveryCodes bufs) as [[plain hashes]|e] eqn:En; [|by rewrite <- Hc0 in *].
  assert (hashes = hashRecoveryCode <$> plain) as ->
    by (unfold newRecoveryCodes in En; by destruct bufs; simplify_eq).
  exact (confirm_write_codes u plain now t0 Ht c (eq_sym Hc0)).
Qed.

(** ** At most once *)
Definition budget (w : totp_world) (n : string -> string -> nat) : Prop :=
  codes_ok (tables (w_conn w)) /\ Forall (fun x => plan_good x.2) (w_plans w) /\
  forall u h, (occurrences h (codes (tables (w_conn w)) u) + occurrences (u, h) (w_used w)
               <= n u h + occurrences (u, h) (w_issued w))%nat.
Lemma budget_within w n c' :
  budget w n ->
  (forall m, within m (tables (w_conn w)) -> within m (tables c')) ->
  budget (mkWorld c' (w_plans w) (w_issued w) (w_used w)) n.
Proof.
  intros (Hc & Hp & Hn) Hw. destruct (Hw (fun u h => occurrences h (codes (tables (w_conn w)) u))) as [Hc' Hle]; [by split|].
  repeat split; [done|done|]. intros u h. specialize (Hle u h). specialize (Hn u h). cbn [w_conn w_used w_issued w_plans fst snd] in *. lia.
Qed.
Lemma totp_step_budget w e n : budget w n -> budget (totp_step w e) n.
Proof.
  intros Hb. pose proof Hb as (Hc & Hp & Hn).
  destruct e as [u s rand|u code bufs now|u code now|i|u|u]; cbn [totp_step].
  - apply budget_within; [done|]. intros m. apply BeginEnrolment_within.
  - destruct (Confirm key u code bufs now (w_conn w)) as [c r] eqn:E.
    pose proof (Confirm_codes u code bufs now _ Hc (w_conn w) eq_refl) as X. rewrite E in X. destruct X as [Hc' Hr].
    repeat split; [done|done|]. intros v h. specialize (Hn v h). destruct r as [plain|]; cbn [w_conn w_used w_issued w_plans fst snd] in *; [|by rewrite Hr].
    rewrite Hr, occurrences_app.
    replace ((fun p => (u, hashRecoveryCode p)) <$> plain) with ((fun p => (u, p)) <$> (hashRecoveryCode <$> plain))
      by (by rewrite <- list_fmap_compose).
    rewrite occurrences_pair. destruct (decide (v = u)); lia.
  - destruct (verify_begin key u code now (w_conn w)) as [c r] eqn:E.
    pose proof (verify_begin_plan u code now _ Hc (w_conn w) eq_refl) as X. rewrite E in X. destruct X as [Ht Hr].
    cbn [fst snd] in Ht, Hr. repeat split; cbn [w_conn w_used w_issued w_plans]; rewrite ?Ht; [done| |done].
    destruct r as [p|]; [|done]. apply Forall_app_2; [done|]. apply Forall_singleton. by apply Hr.
  - destruct (w_plans w !! i) as [[u p]|] eqn:Ei; [|done].
    destruct (verify_commit u p (w_conn w)) as [c r] eqn:E.
    assert (Hgood : plan_good p) by (exact (Forall_lookup_1 _ _ _ _ Hp Ei)).
    pose proof (verify_commit_codes u p _ Hc Hgood (w_conn w) eq_refl) as X. rewrite E in X. destruct X as [Hc' Hr].
    repeat split; [done|done|]. intros v h. specialize (Hn v h). specialize (Hr v h). cbn [w_conn w_used w_issued w_plans fst snd] in *.
    destruct r as [[]|]; [destruct (plan_digest p) as [d|]|..]; try lia.
    rewrite occurrences_cons. destruct (decide ((u, d) = (v, h))); lia.
  - apply budget_within; [done|]. intros m. apply Disable_within.
  - apply budget_within; [done|]. intros m. apply DeleteUser_within.
Qed.
Lemma totp_run_budget w evs n : budget w n -> budget (totp_run w evs) n.
Proof. revert w. induction evs as [|e evs IH]; intros w Hw; [done|]. apply IH. by apply totp_step_budget. Qed.

(** C18. A recovery code is accepted at most as often as it was handed out:
    whatever verifications overlap, and whatever statements fail, the accepted
    uses of a digest never exceed the copies of it that the row held at the
    start plus those that later confirmations returned. The conditional UPDATE
    on the old column is what makes it hold. *)
Theorem recovery_code_once t fs evs u h :
  codes_ok t ->
  let w := totp_run (mkWorld (mkConn true t fs) [] [] []) evs in
  (occurrences (u, h) (w_used w) <= occurrences h (codes t u) + occurrences (u, h) (w_issued w))%nat.
Proof.
  intros Ht w.
  destruct (totp_run_budget (mkWorld (mkConn true t fs) [] [] []) evs (fun u h => occurrences h (codes t u))) as (_ & _ & Hn).
  - repeat split; [done|constructor|]. intros v g. change (occurrences (v, g) _) with 0%nat. cbn [w_conn tables]. lia.
  - specialize (Hn u h). fold w in Hn. cbn [w_conn w_used w_issued w_plans tables] in Hn. change (occurrences (u, h) []) with 0%nat in Hn. lia.
Qed.
End history.

(** ** Integrity of the tables *)
Section preserved.
Context `{UnicodeTables} `{Crypto} `{TOTP} (key : list Z).
Lemma auth_ok_totp t u r : auth_ok t -> known t u -> auth_ok (set_totp u r t).
Proof.
  intros Hok Hu. pose proof (ok_totp t Hok) as Ht. unfold set_totp. auth_frame Hok.
  intros v x. rewrite lookup_insert_Some. intros [[<- <-]|[_ Hv]]; [done|]. by eapply Ht.
Qed.
Lemma BeginEnrolment_ok u s rand : preserves auth_ok (BeginEnrolment key u s rand).
Proof.
  unfold BeginEnrolment, Enabled, Status. preserve. apply preserves_exec. intros t t' [] Hok.
  destruct (decide _) as [Hu|]; [|done]. intros [= <-]. by apply auth_ok_totp.
Qed.
Lemma Confirm_ok u code bufs now : preserves auth_ok (Confirm key u code bufs now).
Proof.
  unfold Confirm, loadSecret. preserve. apply preserves_exec. intros t t' n Hok. unfold enable_row.
  destruct (au_totp t !! u) as [r'|] eqn:E; [destruct (tp_enabled r' =? 0)|]; intros [= <- <-]; try done.
  apply auth_ok_totp; [done|]. by eapply ok_totp.
Qed.
Lemma verify_begin_ok u code now : preserves auth_ok (verify_begin key u code now).
Proof. unfold verify_begin, loadSecret. preserve. Qed.
Lemma verify_commit_ok u p : preserves auth_ok (verify_commit u p).
Proof.
  destruct p as [|l idx]; cbn [verify_commit]; preserve. apply preserves_exec. intros t t' n Hok. unfold swap_codes.
  destruct (au_totp t !! u) as [r'|] eqn:E; [destruct (bool_decide _)|]; intros [= <- <-]; try done.
  apply auth_ok_totp; [done|]. by eapply ok_totp.
Qed.
Lemma Verify_ok u code now : preserves auth_ok (Verify key u code now).
Proof. unfold Verify. apply preserves_bind; [apply verify_begin_ok|intros; apply verify_commit_ok]. Qed.
Lemma Disable_ok u : preserves auth_ok (Disable u).
Proof.
  unfold Disable. preserve. apply preserves_exec. intros t t' n Hok.
  case_match; intros [= <- <-]; [|done]. pose proof (ok_totp t Hok) as Ht. auth_frame Hok.
  intros v x [_ Hv]%lookup_delete_Some. by eapply Ht.
Qed.
End preserved.

(** ** An example history: two verifications race for one code *)
#[export] Instance toy_totp : TOTP := {| totp_ValidateCustom code _ _ := bool_decide (code = bs "123456") |}.
Definition no_accounts : auth_tables := mkAuth ∅ ∅ ∅ ∅ 0 ∅ ∅ ∅ ∅ ∅.
Definition totp_demo : auth_tables :=
  set_totp "u1" (mkTotpRow "JBSW" 1 (json_Marshal [hashRecoveryCode "abcde-fghjk"; hashRecoveryCode "22222-33333"]) (Some 5))
    (set_row "u1" (mkUserRow "alice" "$2a$pw" "user" "" 0 0) no_accounts).
Lemma totp_demo_codes : codes_ok totp_demo.
Proof.
  eapply codes_ok_set_totp; [intros u r|reflexivity|].
  - intros Hr. vm_compute in Hr. discriminate.
  - apply Forall_cons_2; [apply hex_plain, sha256_bytes|].
    apply Forall_cons_2; [apply hex_plain, sha256_bytes|constructor].
Qed.
Definition totp_race : list totp_event :=
  [EvRead "u1" "ABCDE FGHJK" 7; EvRead "u1" "abcde-fghjk" 7; EvWrite 0; EvWrite 1; EvRead "u1" "abcdefghjk" 8; EvWrite 0].
Lemma recovery_code_once_witness :
  let w := totp_run [] (mkWorld (mkConn true totp_demo []) [] [] []) totp_race in
  occurrences ("u1"%string, hashRecoveryCode "abcde-fghjk") (w_used w) = 1%nat /\
  (occurrences ("u1"%string, hashRecoveryCode "abcde-fghjk") (w_used w)
    <= occurrences (hashRecoveryCode "abcde-fghjk") (codes totp_demo "u1")
       + occurrences ("u1"%string, hashRecoveryCode "abcde-fghjk") (w_issued w))%nat.
Proof.
  split; [vm_compute; reflexivity|].
  apply (recovery_code_once [] totp_demo [] totp_race). exact totp_demo_codes.
Defined.
