(* ===== verification/AuthInvariant.v ===== *)
(** All operations of package auth together: the integrity of the account
    tables, what happens to an API token from its creation to its revocation,
    what the cap on tokens is worth, login sessions, and the replacement of a
    user's tags. *)
From S2P Require Import Prelude GoText Sqlite Secret AuthPolicy AuthStore AuthTokens AuthTotp.
Local Open Scope Z_scope.

(** An operation of the package with its arguments; random values and times
    are arguments, as in the definitions. *)
Inductive auth_op :=
| OCreateUser (id name password role : string) (salt : result string (list Z))
| OAuthenticate (name password : string)
| ODeleteUser (u : string)
| OSetForce (u : string) (b : bool) | OSetDisabled (u : string) (b : bool)
| OUpdateRole (u role : string) | OUpdateLocale (u locale : string) | OUpdateUsername (u name : string)
| OSetUserTags (u : string) (tags : list string)
| OUpdatePassword (u cur new : string) (salt : result string (list Z))
| OAddPublicKey (u line : string) (now : time) | ODeletePublicKey (u : string) (n : Z)
| OSessionCreate (ttl : duration) (u : string) (rand : result string (list Z)) (now : time)
| OSessionGet (raw : string) (now : time) | OSessionDelete (raw : string)
| ODeleteAllForUser (u keep : string)
| OTokenCreate (u name scope : string) (expires : option time) (raw idRaw : result string (list Z)) (now : time)
| OTokenAuthenticate (plain : string) (now : time) | OTouch (id : string) (now : time)
| ORevoke (u id : string) (now : time)
| OLink (issuer subject u : string) | OUnlinkUser (u : string) | OSetManagedGroups (u : string) (gs : list string)
| OBeginEnrolment (u : string) (s : result string string) (rand : result string (list Z))
| OConfirm (u code : string) (bufs : result string (list (list Z))) (now : time)
| OVerify (u code : string) (now : time) | ODisable (u : string).

Section ops.
Context `{UnicodeTables} `{Bcrypt} `{Crypto} `{SSHKeys} `{TOTP} (key : list Z).

Definition void {A} (m : AuthM A) : AuthM unit := let* _ := m in db_ret tt.
Definition auth_exec (op : auth_op) : AuthM unit :=
  match op with
  | OCreateUser id name p role salt => void (CreateUser id name p role salt)
  | OAuthenticate name p => void (Authenticate name p)
  | ODeleteUser u => DeleteUser u
  | OSetForce u b => SetForcePasswordChange u b
  | OSetDisabled u b => SetDisabled u b
  | OUpdateRole u r => UpdateRole u r
  | OUpdateLocale u l => UpdateLocale u l
  | OUpdateUsername u n => UpdateUsername u n
  | OSetUserTags u tags => SetUserTags u tags
  | OUpdatePassword u cur new salt => UpdatePassword u cur new salt
  | OAddPublicKey u line now => void (AddPublicKey u line now)
  | ODeletePublicKey u n => DeletePublicKey u n
  | OSessionCreate ttl u rand now => void (session_Create ttl u rand now)
  | OSessionGet raw now => void (session_Get raw now)
  | OSessionDelete raw => session_Delete raw
  | ODeleteAllForUser u keep => DeleteAllForUser u keep
  | OTokenCreate u name scope e raw idRaw now => void (token_Create u name scope e raw idRaw now)
  | OTokenAuthenticate p now => void (token_Authenticate p now)
  | OTouch id now => Touch id now
  | ORevoke u id now => Revoke u id now
  | OLink i s u => Link i s u
  | OUnlinkUser u => UnlinkUser u
  | OSetManagedGroups u gs => SetManagedGroups u gs
  | OBeginEnrolment u s rand => void (BeginEnrolment key u s rand)
  | OConfirm u code bufs now => void (Confirm key u code bufs now)
  | OVerify u code now => void (Verify key u code now)
  | ODisable u => Disable u
  end.
(** Operations one after the other; the oracle of [c] makes any statement fail. *)
Definition auth_run (c : conn auth_tables) (ops : list auth_op) : conn auth_tables :=
  foldl (fun c op => (auth_exec op c).1) c ops.
Lemma auth_run_keeps (P : auth_tables -> Prop) (ok : auth_op -> Prop) ops c :
  (forall op, ok op -> preserves P (auth_exec op)) -> Forall ok ops ->
  P (tables c) -> P (tables (auth_run c ops)).
Proof.
  intros Hp Hok. revert c. induction Hok as [|op ops Hop Hok IH]; intros c Hc; [done|].
  apply IH. by apply Hp.
Qed.
Lemma preserves_void {A} P (m : AuthM A) : preserves P m -> preserves P (void m).
Proof. intros Hm. unfold void. apply preserves_bind; [done|]. preserve. Qed.

Lemma auth_exec_ok op : preserves auth_ok (auth_exec op).
Proof.
  destruct op; cbn [auth_exec]; try apply preserves_void;
    auto using CreateUser_ok, DeleteUser_ok, SetForcePasswordChange_ok, SetDisabled_ok, UpdateRole_ok, UpdateLocale_ok,
      UpdateUsername_ok, SetUserTags_ok, UpdatePassword_ok, AddPublicKey_ok, DeletePublicKey_ok, session_Create_ok,
      session_Get_ok, session_Delete_ok, DeleteAllForUser_ok, token_Create_ok, token_Authenticate_ok, Touch_ok, Revoke_ok,
      Link_ok, UnlinkUser_ok, SetManagedGroups_ok, BeginEnrolment_ok, Confirm_ok, Verify_ok, Disable_ok.
  unfold Authenticate. preserve.
Qed.

(** ** A revoked token *)
Definition dead (u id h : string) (t : auth_tables) : Prop :=
  auth_ok t /\ exists r, au_tokens t !! id = Some r /\ tk_token_hash r = h /\ tk_user_id r = u /\ tk_revoked_at r <> None.
(** Operations that leave the token table alone. *)
Definition tokens_are (m : gmap string token_row) (t : auth_tables) : Prop := au_tokens t = m.
Lemma insert_tags_tokens m u tags : preserves (tokens_are m) (insert_tags u tags).
Proof.
  induction tags; cbn [insert_tags]; preserve; [|done].
  apply preserves_exec. intros t t' [] Ht. repeat case_match; intros [= <-]; done.
Qed.
Lemma insert_groups_tokens m u gs : preserves (tokens_are m) (insert_groups u gs).
Proof.
  induction gs; cbn [insert_groups]; preserve; [|done].
  apply preserves_exec. intros t t' [] Ht. repeat case_match; intros [= <-]; done.
Qed.
Definition touches_tokens (op : auth_op) : bool :=
  match op with ODeleteUser _ | OTokenCreate _ _ _ _ _ _ _ | OTouch _ _ | ORevoke _ _ _ => true | _ => false end.
Lemma auth_exec_tokens m op : touches_tokens op = false -> preserves (tokens_are m) (auth_exec op).
Proof.
  destruct op; cbn [auth_exec touches_tokens]; try done; intros _; try apply preserves_void;
    unfold CreateUser, Authenticate, SetForcePasswordChange, SetDisabled, UpdateRole, UpdateLocale, UpdateUsername, SetUserTags,
      UpdatePassword, GetByID, AddPublicKey, DeletePublicKey, require_id, require_user, update_user, session_Create, session_Get,
      session_Delete, DeleteAllForUser, token_Authenticate, Link, UnlinkUser, SetManagedGroups, BeginEnrolment, Enabled, Status,
      Confirm, Verify, verify_begin, verify_commit, loadSecret, Disable; cbv zeta;
    preserve; auto using insert_tags_tokens, insert_groups_tokens;
    apply preserves_exec; intros t t' ? Ht; unfold enable_row, swap_codes; repeat case_match; intros; simplify_eq; done.
Qed.
Lemma auth_exec_dead u id h op : op <> ODeleteUser u -> preserves (dead u id h) (auth_exec op).
Proof.
  intros Hne c [Hok (r & Hr & Hh & Hu & Hrev)]. split; [by apply auth_exec_ok|].
  destruct (touches_tokens op) eqn:E.
  2: { exists r. pose proof (auth_exec_tokens (au_tokens (tables c)) op E c eq_refl) as Hm. unfold tokens_are in Hm. by rewrite Hm. }
  set (P := fun t => exists r, au_tokens t !! id = Some r /\ tk_token_hash r = h /\ tk_user_id r = u /\ tk_revoked_at r <> None).
  assert (preserves P (auth_exec op)) as Hp; [|by apply Hp; exists r]. clear c r Hok Hr Hh Hu Hrev. subst P.
  destruct op; try done; cbn [auth_exec]; try apply preserves_void;
    unfold DeleteUser, require_id, token_Create, Touch, Revoke; cbv zeta; preserve;
    apply preserves_exec; intros t t' ? (r & Hr & Hh & Hu & Hrev) Hf; cbv beta in Hf.
  - destruct (au_users t !! u0); simplify_eq; [|by exists r]. exists r. split; [|done].
    cbn. apply map_lookup_filter_Some. split; [done|]. cbn. congruence.
  - destruct (decide _) as [|Hfree]; [done|]. destruct (decide _); [|done]. injection Hf as <- <-.
    exists r. split; [|done]. cbn. rewrite lookup_insert_ne; [done|]. intros Heq. apply Hfree. left. rewrite Heq. by exists r.
  - injection Hf as <- <-. destruct (decide (id0 = id)) as [->|Hid].
    + exists (set_used (Some (Unix now)) r). cbn. rewrite lookup_alter_eq, Hr. done.
    + exists r. cbn. by rewrite lookup_alter_ne.
  - destruct (au_tokens t !! id0) as [r0|] eqn:E0; [|injection Hf as <- <-; by exists r].
    destruct (revocable u0 r0) eqn:Er; injection Hf as <- <-; [|by exists r].
    exists r. split; [|done]. cbn. rewrite lookup_insert_ne; [done|]. intros ->. rewrite Hr in E0. injection E0 as <-.
    unfold revocable in Er. apply andb_true_iff in Er as [Er _]. by apply bool_decide_eq_true in Er.
Qed.
Lemma dead_not_authenticated u id plain now c :
  dead u id (HashAPIToken (TrimSpace_s plain)) (tables c) -> exists e, (token_Authenticate plain now c).2 = Err e.
Proof.
  intros [Hok (r & Hr & Hh & Hu & Hrev)]. unfold token_Authenticate. cbv zeta.
  destruct (_ || _); [by eexists|]. unfold db_bind, db_query, db_exec, db_call.
  assert (Hf : find_token (tables c) (HashAPIToken (TrimSpace_s plain)) = Some (id, r)) by (rewrite <- Hh; by apply find_token_unique).
  assert (Ha : Active (scanAPIToken id r) now = false).
  { unfold Active, scanAPIToken. cbn. by destruct (tk_revoked_at r). }
  destruct (faults c) as [|[msg|] fs]; cbn; [|by eexists|]; rewrite Hf, Ha; by eexists.
Qed.
Lemma Revoke_row v id now c r :
  au_tokens (tables c) !! id = Some r -> (Revoke v id now c).2 = Ok tt ->
  au_tokens (tables (Revoke v id now c).1) !! id = Some (set_revoked (Some (Unix now)) r).
Proof.
  intros Hr. unfold Revoke, db_bind, db_exec, db_call.
  destruct (faults c) as [|[msg|] fs]; cbn; rewrite ?Hr; [|done|];
    destruct (revocable v r); cbn; try done; intros _; by rewrite lookup_insert_eq.
Qed.

(** A revoked API token never authenticates again: after a [Revoke] that
    reported success, whatever operations of the package follow, other than the
    deletion of the account, and whatever statements fail, every later
    presentation of the token is refused. *)
Theorem revoked_token_stays_dead c v id now plain r ops now' :
  auth_ok (tables c) -> au_tokens (tables c) !! id = Some r -> tk_token_hash r = HashAPIToken (TrimSpace_s plain) ->
  (Revoke v id now c).2 = Ok tt -> Forall (fun op => op <> ODeleteUser (tk_user_id r)) ops ->
  exists e, (token_Authenticate plain now' (auth_run (Revoke v id now c).1 ops)).2 = Err e.
Proof.
  intros Hok Hr Hh Hrev Hops. eapply dead_not_authenticated.
  eapply (auth_run_keeps (dead (tk_user_id r) id _)); [apply auth_exec_dead|exact Hops|].
  split; [by apply Revoke_ok|]. eexists. split; [by apply Revoke_row|]. done.
Qed.
End ops.

(** ** A new token *)
Section new_token.
Context `{Crypto}.

Lemma url_char_graphic v : 0 <= v < 64 -> graphic (url_char (b64_char v)).
Proof.
  intros Hv. pose proof (b64_char_printable v Hv). unfold url_char, graphic. repeat case_match; lia.
Qed.
Lemma Encode_graphic l : bytes l -> Forall graphic (url_char <$> EncodeToString l).
Proof.
  induction l as [|a|a b|a b c l IH] using list_ind3; intros Hl;
    unfold bytes in *; repeat match goal with H : Forall is_byte (_ :: _) |- _ => apply Forall_cons in H as [? H] end; simpl;
    repeat (apply Forall_cons_2; [apply url_char_graphic; bytes_lia|]); auto.
Qed.
Lemma Encode_length l : (length l <= length (EncodeToString l))%nat.
Proof. induction l as [|a|a b|a b c l IH] using list_ind3; simpl; lia. Qed.

Definition whole_second (t : time) : time := time_Unix (Unix t).
Definition token_of_raw (raw : list Z) : string := String.append APITokenPrefix (RawURLEncoding raw).
Lemma token_of_raw_graphic raw : bytes raw -> Forall graphic (bs (token_of_raw raw)) /\ (4 + length raw <= length (bs (token_of_raw raw)))%nat.
Proof.
  intros Hraw. unfold token_of_raw, RawURLEncoding.
  assert (Hg := Encode_graphic raw Hraw).
  rewrite bs_app, bs_str_of.
  - split.
    + apply Forall_app_2; [|done]. change (bs APITokenPrefix) with [118; 116; 120; 95]. repeat (apply Forall_cons_2; [unfold graphic; lia|]). constructor.
    + rewrite length_app, length_fmap. pose proof (Encode_length raw). cbn. lia.
  - eapply Forall_impl; [exact Hg|]. intros b. unfold graphic, is_byte. lia.
Qed.
Lemma token_of_raw_trim raw : bytes raw -> TrimSpace_s (token_of_raw raw) = token_of_raw raw.
Proof.
  intros Hraw. destruct (token_of_raw_graphic raw Hraw) as [Hg Hl]. unfold TrimSpace_s.
  rewrite TrimSpace_edges; [apply str_of_bs|]. apply edges_graphic; [done|]. intros E. rewrite E in Hl. simpl in Hl. lia.
Qed.

(** A new API token authenticates, exactly until its expiry rounded down to
    a second, as a token of its user with its scope; it is found by the digest
    of the presented text, so this is the round trip through generation, base64,
    trimming, prefix check, digest and row. Creation leaves the user with at
    most fifty tokens that are not revoked. *)
Theorem api_token_roundtrip u name scope e raw idRaw now now' c c' tok plain :
  healthy c -> auth_ok (tables c) -> bytes raw -> length raw = 32%nat ->
  token_Create u name scope e (Ok raw) (Ok idRaw) now c = (c', Ok (tok, plain)) ->
  (size (live_tokens (tables c') (TrimSpace_s u)) <= apiTokenMaxPerUser)%nat /\
  token_Authenticate plain now' c' =
    (c', if match e with Some e => now' <? whole_second e | None => true end
         then Ok (mkAPIToken (at_ID tok) (TrimSpace_s u) (TrimSpace_s name) (at_Prefix tok) scope
                    (whole_second now) (whole_second <$> e) None None)
         else Err ErrAPITokenInvalid).
Proof.
  intros Hc Hok Hraw Hlen. unfold token_Create. cbv zeta.
  destruct (_ || _); [done|]. destruct (_ && _); [done|]. rewrite bind_query by done.
  destruct (bool_decide_reflect (apiTokenMaxPerUser <= size (live_tokens (tables c) (TrimSpace_s u)))%nat) as [|Hcap]; [done|].
  rewrite bind_exec by done. destruct (decide _) as [|Hfree]; [done|]. destruct (decide _) as [Hu|]; [|done].
  fold (token_of_raw raw) in *. apply Decidable.not_or in Hfree as [Hid Hh].
  set (id := RawURLEncoding idRaw) in *. set (r := mkTokenRow _ _ _ _ _ _ _ _ _).
  intros [= <- <- <-]. apply eq_None_not_Some in Hid.
  split.
  { cbn. unfold live_tokens. cbn. rewrite map_filter_insert_True by done.
    rewrite map_size_insert_None; [unfold live_tokens in Hcap; lia|]. apply map_lookup_filter_None. left. exact Hid. }
  unfold token_Authenticate. cbv zeta. rewrite (token_of_raw_trim raw Hraw).
  destruct (token_of_raw_graphic raw Hraw) as [_ Hl].
  assert (Hpre : has_prefix (bs (token_of_raw raw)) (bs APITokenPrefix) = true).
  { unfold token_of_raw. rewrite bs_app. reflexivity. }
  rewrite Hpre, bool_decide_false by lia. cbn [negb orb]. rewrite bind_query by done.
  assert (Hok' : auth_ok (with_tokens (tables c) (<[id:=r]> (au_tokens (tables c))))) by (by apply auth_ok_new_token).
  assert (Hrow : au_tokens (with_tokens (tables c) (<[id:=r]> (au_tokens (tables c)))) !! id = Some r)
    by (cbn; by rewrite lookup_insert_eq).
  pose proof (find_token_unique _ _ _ Hok' Hrow) as Hfind. cbn [tk_token_hash r] in Hfind.
  cbn [tables set_tables]. rewrite Hfind.
  unfold Active, scanAPIToken, Before, whole_second, db_ret, db_throw. cbn.
  destruct e as [e|]; cbn; [by destruct (_ <? _)|done].
Qed.
End new_token.

(** ** Login sessions *)
Section login_sessions.
Context `{Crypto}.

(** A login session is found by its cookie, with its user, until its expiry
    and not after; it is stored under the digest of the cookie only. Revoking
    the user's sessions ends it, unless its own cookie is the one to keep. *)
Theorem session_lifecycle ttl u raw now c c' s :
  healthy c -> raw <> [] -> bytes raw -> session_Create ttl u (Ok raw) now c = (c', Ok s) ->
  s = mkSession (hex_EncodeToString raw) u now (Add now ttl) /\
  (forall now', now' <= Add now ttl -> session_Get (s_ID s) now' c' = (c', Ok s)) /\
  (forall now', Add now ttl < now' -> (session_Get (s_ID s) now' c').2 = Err ErrSessionNotFound) /\
  (forall keep now', hashSessionToken keep <> hashSessionToken (s_ID s) ->
     (session_Get (s_ID s) now' (DeleteAllForUser u keep c').1).2 = Err ErrSessionNotFound) /\
  (forall now', now' <= Add now ttl -> session_Get (s_ID s) now' (DeleteAllForUser u (s_ID s) c').1 = ((DeleteAllForUser u (s_ID s) c').1, Ok s)).
Proof.
  intros Hc Hraw Hb. unfold session_Create.
  destruct (bool_decide_reflect (u = ""%string)) as [|Hu]; [done|].
  unfold db_bind at 1, db_of, randomID. cbv zeta. rewrite bind_exec by done.
  destruct (au_sessions (tables c) !! _) eqn:Hfree; [done|]. destruct (decide _) as [Hk|]; [|done].
  intros [= <- <-]. cbn [s_ID]. set (tok := hex_EncodeToString raw) in *.
  assert (Htok : tok <> ""%string).
  { intros E. apply (f_equal bs) in E. subst tok. rewrite bs_hex in E by done. by destruct raw. }
  set (row := mkSessionRow u now (Add now ttl)). set (t' := with_sessions _ _).
  assert (Hlook : au_sessions t' !! hashSessionToken tok = Some row) by (cbn; by rewrite lookup_insert_eq).
  assert (Hget : forall d now', healthy d -> au_sessions (tables d) !! hashSessionToken tok = Some row ->
    session_Get tok now' d = if After now' (Add now ttl)
      then ((session_Delete tok d).1, Err ErrSessionNotFound) else (d, Ok (mkSession tok u now (Add now ttl)))).
  { intros d now' Hd Hrow. unfold session_Get. rewrite bool_decide_false by done. rewrite bind_query, Hrow by done.
    cbn [sr_expires_at row sr_user_id sr_created_at]. destruct (After _ _); [|done].
    unfold db_bind, db_catch, db_throw. by destruct (session_Delete tok d). }
  assert (Hc' : healthy (set_tables c t')) by done.
  assert (Hdel : forall keep, DeleteAllForUser u keep (set_tables c t') =
    (set_tables c (with_sessions t' (filter (fun kv => ~ (sr_user_id kv.2 = u /\ (keep = ""%string \/ kv.1 <> hashSessionToken keep))) (au_sessions t'))), Ok tt)).
  { intros keep. unfold DeleteAllForUser. rewrite bool_decide_false by done. cbv zeta.
    destruct (bool_decide_reflect (keep = ""%string)) as [->|Hkeep]; rewrite exec_healthy by done; cbn [tables set_tables];
      do 4 f_equal; apply map_filter_ext; intros k v _; cbn; naive_solver. }
  split; [done|]. split; [|split; [|split]].
  - intros now' Hn. rewrite Hget by done. unfold After. by destruct (Z.ltb_spec (Add now ttl) now'); [lia|].
  - intros now' Hn. rewrite Hget by done. unfold After. by destruct (Z.ltb_spec (Add now ttl) now'); [|lia].
  - intros keep now' Hne. rewrite Hdel. cbn [fst]. unfold session_Get. rewrite bool_decide_false by done.
    rewrite bind_query by done. cbn [tables set_tables]. 
    cbn [au_sessions with_sessions]. destruct (filter _ _ !! hashSessionToken tok) as [x|] eqn:E; [|done].
    apply map_lookup_filter_Some in E as [Hx Hx']. rewrite Hlook in Hx. injection Hx as <-. cbn in Hx'. naive_solver.
  - intros now' Hn. rewrite Hdel. cbn [fst]. rewrite Hget.
    + unfold After. by destruct (Z.ltb_spec (Add now ttl) now'); [lia|].
    + done.
    + cbn [tables set_tables]. cbn [au_sessions with_sessions]. apply map_lookup_filter_Some. split; [exact Hlook|].
      cbn. naive_solver.
Qed.
End login_sessions.

(** ** Replacing the tags of a user *)
Section tags.
Context `{UnicodeTables}.
Lemma insert_tags_fails u tags c : healthy c -> ~ NoDup tags \/ (exists tag, tag ∈ tags /\ (u, tag) ∈ au_tags (tables c)) ->
  known (tables c) u ->
  exists t', insert_tags u tags c = (set_tables c t', Err (ErrAuthDB unique_failed)) /\
    (forall x, x ∈ au_tags t' -> x ∈ au_tags (tables c) \/ exists tag, tag ∈ tags /\ x = (u, tag)) /\
    au_tags (tables c) ⊆ au_tags t'.
Proof.
  revert c. induction tags as [|tag tags IH]; intros c Hc Hdup Hk; cbn [insert_tags].
  { destruct Hdup as [Hd|(tag & Hin & _)]; [by destruct Hd; constructor|by apply elem_of_nil in Hin]. }
  rewrite bind_exec by done. destruct (decide ((u, tag) ∈ au_tags (tables c))) as [Hin|Hnin].
  { exists (tables c). split; [by destruct c|]. split; [tauto|done]. }
  destruct (decide _) as [_|Hnk]; [|done].
  destruct (IH (set_tables c (with_tags (tables c) (au_tags (tables c) ∪ {[(u, tag)]})))) as (t' & -> & Hx & Hsub); [done| |done|].
  - destruct (decide (tag ∈ tags)) as [Hin|Hnot].
    + right. exists tag. split; [done|]. cbn. set_solver.
    + destruct Hdup as [Hd|(tag' & Ht' & Hin)].
      * left. intros Hnd. apply Hd. by constructor.
      * apply elem_of_cons in Ht' as [->|Ht']; [done|]. right. exists tag'. cbn. set_solver.
  - exists t'. split; [by destruct c|]. cbn in Hx, Hsub. split; [|set_solver].
    intros x [Hin|(tag' & Hin & ->)]%Hx; [|right; exists tag'; set_solver].
    apply elem_of_union in Hin as [Hin|Hin%elem_of_singleton]; [by left|]. right. exists tag. set_solver.
Qed.

(** Replacing the tags of a user is not atomic: a request that repeats a tag
    is refused with a database error, and by then the old tags, and with them
    the access they gave, are gone. *)
Theorem repeated_tag_drops_old_tags u tags c :
  healthy c -> u <> ""%string -> known (tables c) u -> validate_tags tags = Ok tt -> ~ NoDup tags ->
  exists t', SetUserTags u tags c = (set_tables c t', Err (ErrAuthDB unique_failed)) /\
    forall tag, (u, tag) ∈ au_tags t' -> tag ∈ tags.
Proof.
  intros Hc Hu Hk Hv Hd. unfold SetUserTags, require_user. rewrite bool_decide_false by done.
  unfold db_bind at 1, db_of. rewrite Hv. unfold db_bind at 1. rewrite bind_query by done.
  destruct Hk as [r Hr]. rewrite Hr. unfold db_ret. rewrite bind_exec by done.
  destruct (insert_tags_fails u tags (set_tables c (with_tags (tables c) (filter (fun x => x.1 <> u) (au_tags (tables c))))))
    as (t' & -> & Hx & _); [done|by left|by exists r|].
  exists t'. split; [by destruct c|]. intros tag [Hin|(tag' & Hin & [= ->])]%Hx; [|done].
  cbn in Hin. apply elem_of_filter in Hin as [Hne _]. done.
Qed.
End tags.

(** C27. The account tables stay consistent: no sequence of operations of the
    package, failing statements included, leaves two accounts of one name, two
    tokens of one digest, or a tag, session, key, token, second factor, identity
    or group of an account that does not exist. *)
Theorem account_tables_integrity `{UnicodeTables} `{Bcrypt} `{Crypto} `{SSHKeys} `{TOTP} key ops c :
  auth_ok (tables c) -> auth_ok (tables (auth_run key c ops)).
Proof.
  apply (auth_run_keeps key auth_ok (fun _ => True)); [intros op _; apply auth_exec_ok|].
  apply Forall_forall. done.
Qed.

(** ** Examples *)
#[export] Instance toy_ssh_keys : SSHKeys := {| ParseAuthorizedKey l := if has_prefix (bs l) (bs "ssh-") then Some (bs l) else None |}.
Definition demo_accounts : conn auth_tables :=
  (CreateUser "u1" "alice" "Passw0rd!" "admin" (Ok []) (connect no_accounts)).1.
Lemma no_accounts_ok : auth_ok no_accounts.
Proof. split; cbn; try (intros *; rewrite ?lookup_empty; done); set_solver. Qed.
Lemma demo_accounts_ok : auth_ok (tables demo_accounts).
Proof. apply CreateUser_ok, no_accounts_ok. Qed.
Lemma account_tables_integrity_witness :
  let c := auth_run [] demo_accounts [OSetUserTags "u1" ["ops"]; OAddPublicKey "u1" "ssh-ed25519 AA" 5;
    OSessionCreate 60 "u1" (Ok [1; 2]) 5; ODeleteUser "u1"]%string in
  au_sessions (tables c) = ∅ /\ auth_ok (tables c).
Proof.
  split; [vm_compute; reflexivity|]. apply account_tables_integrity. exact demo_accounts_ok.
Defined.

Definition demo_raw : list Z := replicate 32 7.
Definition demo_token : conn auth_tables * result auth_err (APIToken * string) :=
  token_Create "u1" "ci" "read" (Some (5 * second)) (Ok demo_raw) (Ok [1; 2; 3]) 0 demo_accounts.
Lemma demo_raw_bytes : bytes demo_raw.
Proof. apply Forall_replicate. unfold is_byte. lia. Qed.
Lemma api_token_roundtrip_witness :
  (size (live_tokens (tables demo_token.1) "u1") <= apiTokenMaxPerUser)%nat /\
  token_Authenticate (token_of_raw demo_raw) (4 * second) demo_token.1 =
    (demo_token.1, Ok (mkAPIToken (RawURLEncoding [1; 2; 3]) "u1" "ci" "vtx_BwcHBwcH" "read" 0 (Some (5 * second)) None None)).
Proof.
  destruct (api_token_roundtrip "u1" "ci" "read" (Some (5 * second)) demo_raw [1; 2; 3] 0 (4 * second) demo_accounts
    demo_token.1 (mkAPIToken (RawURLEncoding [1; 2; 3]) "u1" "ci" "vtx_BwcHBwcH" "read" 0 (Some (5 * second)) None None)
    (token_of_raw demo_raw)) as [H1 H2].
  - split; reflexivity.
  - exact demo_accounts_ok.
  - exact demo_raw_bytes.
  - reflexivity.
  - vm_compute. reflexivity.
  - split; [exact H1|]. rewrite H2. reflexivity.
Defined.
Definition demo_row : token_row :=
  mkTokenRow "u1" "ci" (HashAPIToken (token_of_raw demo_raw)) "vtx_BwcHBwcH" "read" (Unix 0) (Some (Unix (5 * second))) None None.
Lemma revoked_token_stays_dead_witness :
  exists e, (token_Authenticate (token_of_raw demo_raw) 3 (auth_run [] (Revoke "u1" (RawURLEncoding [1; 2; 3]) 2 demo_token.1).1
    [OTouch (RawURLEncoding [1; 2; 3]) 2; OTokenCreate "u1" "ci" "write" None (Ok demo_raw) (Ok [1; 2; 3]) 3])).2 = Err e.
Proof.
  apply (revoked_token_stays_dead [] demo_token.1 "u1" (RawURLEncoding [1; 2; 3]) 2 (token_of_raw demo_raw) demo_row).
  - apply token_Create_ok, demo_accounts_ok.
  - vm_compute. reflexivity.
  - rewrite (token_of_raw_trim demo_raw demo_raw_bytes). reflexivity.
  - vm_compute. reflexivity.
  - repeat constructor; discriminate.
Defined.
Definition demo_session : conn auth_tables * result auth_err Session := session_Create 60 "u1" (Ok [1; 255]) 5 demo_accounts.
Lemma session_lifecycle_witness :
  (session_Get "01ff" 65 demo_session.1).2 = Ok (mkSession "01ff" "u1" 5 65) /\
  (session_Get "01ff" 66 demo_session.1).2 = Err ErrSessionNotFound.
Proof.
  destruct (session_lifecycle 60 "u1" [1; 255] 5 demo_accounts demo_session.1 (mkSession "01ff" "u1" 5 65)) as (_ & H1 & H2 & _).
  - split; reflexivity.
  - discriminate.
  - repeat constructor; unfold is_byte; lia.
  - vm_compute. reflexivity.
  - split; [exact (f_equal snd (H1 65 ltac:(vm_compute; discriminate)))|exact (H2 66 ltac:(vm_compute; reflexivity))].
Defined.
Definition demo_tagged : conn auth_tables := (SetUserTags "u1" ["ops"%string] demo_accounts).1.
Lemma repeated_tag_drops_old_tags_witness :
  ("u1", "ops")%string ∈ au_tags (tables demo_tagged) /\
  exists t', SetUserTags "u1" ["web"; "web"]%string demo_tagged = (set_tables demo_tagged t', Err (ErrAuthDB unique_failed)) /\
    forall tag, ("u1"%string, tag) ∈ au_tags t' -> tag ∈ ["web"; "web"]%string.
Proof.
  split; [apply (bool_decide_eq_true_1 _); vm_compute; reflexivity|].
  apply (repeated_tag_drops_old_tags "u1" ["web"; "web"]%string demo_tagged).
  - split; reflexivity.
  - discriminate.
  - eexists. vm_compute. reflexivity.
  - vm_compute. reflexivity.
  - intros Hnd. inversion Hnd; subst. set_solver.
Defined.
