(* ===== verification/AuthLogin.v ===== *)
(** Logging in (src/internal/httpapi/auth_handler.go, auth_totp.go): password,
    second factor, logout and password change, over the account stores, the
    rate limiter and the pending challenges kept in memory.

    A handler is a [DB] operation on the login world; the statements of the
    stores may fail, the accesses to memory may not. What a request brings is in
    [request]: the client address, the outcome of the origin check, the
    successive readings of the clock. Whether the account has passkeys is an
    argument (the WebAuthn store is not modelled). Audit records, cookie
    attributes and the JSON form of the responses are left out. *)
From S2P Require Import Prelude GoText Sqlite Http Secret LoginLimiter AuthPolicy AuthStore AuthTokens AuthTotp AuthInvariant.
Local Open Scope Z_scope.

(** ** Pending second factors *)
Definition mfaPendingTTL : duration := 5 * minute.
Definition mfaMaxFailures : Z := 5.
Record mfaPending := mkPending { mp_userID : string; mp_username : string; mp_ip : string; mp_expires : time; mp_failures : Z }.
Abbreviation mfa_items := (gmap string mfaPending).
Definition expired (now : time) (p : mfaPending) : bool := After now (mp_expires p).
Definition mfa_issue (items : mfa_items) (userID username ip : string) (rand : result string (list Z)) (now : time)
    : mfa_items * result string string :=
  match rand with
  | Err msg => (items, Err msg)
  | Ok buf =>
      let tok := RawURLEncoding buf in
      (<[tok := mkPending userID username ip (Add now mfaPendingTTL) 0]> (filter (fun kv => expired now kv.2 = false) items), Ok tok)
  end.
Definition mfa_get (items : mfa_items) (tok : string) (now : time) : mfa_items * option mfaPending :=
  match items !! tok with
  | Some p => if expired now p then (delete tok items, None) else (items, Some p)
  | None => (delete tok items, None)
  end.
Definition add_failure (p : mfaPending) : mfaPending :=
  mkPending (mp_userID p) (mp_username p) (mp_ip p) (mp_expires p) (mp_failures p + 1).
Definition mfa_fail (items : mfa_items) (tok : string) : mfa_items * Z :=
  match items !! tok with
  | None => (items, mfaMaxFailures)
  | Some p =>
      let p := add_failure p in
      (if mfaMaxFailures <=? mp_failures p then delete tok items else <[tok := p]> items, mp_failures p)
  end.
Definition mfa_consume (items : mfa_items) (tok : string) : mfa_items := delete tok items.

(** ** The world of the handlers *)
Record login_world := mkLogin {
  lw_auth : auth_tables;
  lw_limiter : option LoginLimiter;       (* [None]: no limiter is configured *)
  lw_mfa : option (gmap string mfaPending)
}.
Abbreviation LoginM := (DB login_world http_err).
Record request := mkRequest {
  rq_ip : string;                          (* [clientIP] *)
  rq_sameOrigin : bool;                    (* [sameOriginRequest] *)
  rq_cookie : string;                      (* vantyx_session, empty when missing *)
  rq_apiToken : option string;             (* the user a bearer token resolved to *)
  rq_clock : nat -> time                   (* the readings of [time.Now] *)
}.
(** An access to memory. *)
Definition mem {A} (f : login_world -> login_world * A) : LoginM A := fun c =>
  let (w, a) := f (tables c) in (set_tables c w, Ok a).
Definition put_auth (t : auth_tables) (w : login_world) : login_world := mkLogin t (lw_limiter w) (lw_mfa w).
Definition on_auth {A} (m : AuthM A) : DB login_world auth_err A := db_zoom lw_auth put_auth m.
Definition set_mfa (w : login_world) (items : mfa_items) : login_world := mkLogin (lw_auth w) (lw_limiter w) (Some items).

Definition tooManyAttempts : http_err := Http 429 "auth.tooManyAttempts".
Definition unauthorized : http_err := Http 401 "common.unauthorized".
Definition mfaTokenInvalid : http_err := Http 401 "auth.mfaTokenInvalid".
Definition badRequest : http_err := Http 400 "common.invalidRequestBody".

Inductive login_response :=
| MfaRequired (tok : string) (methods : list string)
| LoggedIn (sess : Session) (u : User).

Section login.
Context `{UnicodeTables} `{Bcrypt} `{Crypto} `{TOTP}.
(** [totpStore]: [a.TOTPStore != nil]; [ttl]: of the session store. *)
Context (key : list Z) (totpStore : bool) (ttl : duration).

(** The limiter; an unconfigured one allows everything. *)
Definition with_limiter {A} (dflt : A) (f : LoginLimiter -> LoginLimiter * A) : LoginM A := mem (fun w =>
  match lw_limiter w with
  | None => (w, dflt)
  | Some l => let (l, a) := f l in (mkLogin (lw_auth w) (Some l) (lw_mfa w), a)
  end).
Definition allowIP (rq : request) (n : nat) : LoginM bool := with_limiter true (fun l => AllowIP l (rq_ip rq) (rq_clock rq n)).
Definition allowUser (rq : request) (name : string) (n : nat) : LoginM bool :=
  with_limiter true (fun l => AllowUser l name (rq_clock rq n)).
Definition recordFailures (rq : request) (name : string) (n : nat) : LoginM unit := with_limiter tt (fun l =>
  let l := if bool_decide (rq_ip rq <> ""%string) then RecordFailureIP l (rq_ip rq) (rq_clock rq n) (rq_clock rq (n + 1)%nat) else l in
  (RecordFailureUser l name (rq_clock rq (n + 2)%nat) (rq_clock rq (n + 3)%nat), tt)).
Definition recordSuccess (rq : request) (name : string) : LoginM unit :=
  with_limiter tt (fun l => (RecordSuccess l (rq_ip rq) name, tt)).

Definition finishLogin (u : User) (rand : result string (list Z)) (now : time) : LoginM login_response :=
  let* s := call (on_auth (session_Create ttl (u_ID u) rand now)) (fun _ => Http 500 "auth.sessionCreateFailed") in
  db_ret (LoggedIn s u).

(** [body]: user name and password, [None] when the body does not decode. *)
Definition handleLogin (rq : request) (body : option (string * string)) (passkeysOn : bool)
    (tokRand sessRand : result string (list Z)) : LoginM login_response :=
  let* ok := allowIP rq 0 in
  if negb ok then db_throw tooManyAttempts else
  if negb (rq_sameOrigin rq) then db_throw (Http 403 "common.forbidden") else
  match body with
  | None => db_throw badRequest
  | Some (username, password) =>
      let* ok := allowUser rq username 1 in
      if negb ok then db_throw tooManyAttempts else
      let* r := db_try (on_auth (Authenticate username password)) in
      match r with
      | Err ErrUserDisabled => db_throw (Http 403 "auth.accountDisabled")
      | Err _ =>
          let* _ := recordFailures rq username 2 in db_throw (Http 401 "auth.invalidCredentials")
      | Ok u =>
          let* _ := recordSuccess rq username in
          let* totpOn := (if totpStore then call (on_auth (Enabled (u_ID u))) (fun _ => internal) else db_ret false) in
          let* issued := mem (fun w =>
            match lw_mfa w with
            | Some items =>
                if totpOn || passkeysOn then
                  let (items, r) := mfa_issue items (u_ID u) (u_Username u) (rq_ip rq) tokRand (rq_clock rq 6) in
                  (set_mfa w items, Some r)
                else (w, None)
            | None => (w, None)
            end) in
          match issued with
          | Some (Err _) => db_throw internal
          | Some (Ok tok) =>
              db_ret (MfaRequired tok ((if totpOn : bool then ["totp"%string] else []) ++ (if passkeysOn then ["webauthn"%string] else [])))
          | None => finishLogin u sessRand (rq_clock rq 7)
          end
      end
  end.

(** The second step, as the parts between which other requests can run: the
    look-up of the challenge, the limiter and the check of the code, the answer. *)
Definition totp_get (rq : request) (mfaToken : string) : LoginM (option mfaPending) :=
  mem (fun w =>
    match lw_mfa w with
    | Some items => if totpStore then let (items, p) := mfa_get items (TrimSpace_s mfaToken) (rq_clock rq 0) in (set_mfa w items, p)
                    else (w, None)
    | None => (w, None)
    end).
Definition totp_check (rq : request) (p : mfaPending) (code : string) : LoginM (result auth_err bool) :=
  let* okIP := allowIP rq 1 in
  let* ok := (if okIP : bool then allowUser rq (mp_username p) 2 else db_ret false) in
  if negb ok then db_throw tooManyAttempts else db_try (on_auth (Verify key (mp_userID p) code (rq_clock rq 3))).
Definition totp_answer (rq : request) (mfaToken : string) (p : mfaPending) (r : result auth_err bool)
    (sessRand : result string (list Z)) : LoginM login_response :=
  match r with
  | Err _ =>
      let* _ := mem (fun w => match lw_mfa w with Some items => (set_mfa w (mfa_fail items (TrimSpace_s mfaToken)).1, tt) | None => (w, tt) end) in
      let* _ := recordFailures rq (mp_username p) 4 in
      db_throw (Http 401 "auth.totpInvalidCode")
  | Ok usedRecovery =>
      let* _ := mem (fun w => match lw_mfa w with Some items => (set_mfa w (mfa_consume items mfaToken), tt) | None => (w, tt) end) in
      let* _ := recordSuccess rq (mp_username p) in
      let* u := call (on_auth (GetByID (mp_userID p))) (fun _ => Http 401 "auth.invalidCredentials") in
      let* _ := (if usedRecovery : bool then db_bind (db_try (on_auth (Status (u_ID u)))) (fun _ => db_ret tt) else db_ret tt) in
      finishLogin u sessRand (rq_clock rq 8)
  end.
(** [body]: the challenge and the code. *)
Definition handleLoginTOTP (rq : request) (body : option (string * string)) (sessRand : result string (list Z)) : LoginM login_response :=
  if negb (rq_sameOrigin rq) then db_throw (Http 403 "common.forbidden") else
  match body with
  | None => db_throw badRequest
  | Some (mfaToken, code) =>
      let* p := totp_get rq mfaToken in
      match p with
      | None => db_throw mfaTokenInvalid
      | Some p => let* r := totp_check rq p code in totp_answer rq mfaToken p r sessRand
      end
  end.

(** ** The signed-in user *)
Definition currentUserIDWithError (rq : request) (n : nat) : LoginM string :=
  match rq_apiToken rq with
  | Some u => db_ret u
  | None =>
      if bool_decide (rq_cookie rq = ""%string) then db_ret ""%string else
      let* s := db_try (on_auth (session_Get (rq_cookie rq) (rq_clock rq n))) in
      match s with
      | Err e => if decide (e = ErrSessionNotFound) then db_ret ""%string else db_throw internal
      | Ok s =>
          let* u := db_try (on_auth (GetByID (s_UserID s))) in
          match u with
          | Ok u => if u_Disabled u then db_ret ""%string else db_ret (s_UserID s)
          | Err _ => db_ret (s_UserID s)
          end
      end
  end.
Definition currentUserID (rq : request) (n : nat) : LoginM string :=
  let* r := db_catch (currentUserIDWithError rq n) in
  db_ret (match r with Ok u => u | Err _ => ""%string end).
Definition requireAdmin (rq : request) (n : nat) : LoginM unit :=
  let* userID := currentUserIDWithError rq n in
  if bool_decide (userID = ""%string) then db_throw unauthorized else
  let* u := call (on_auth (GetByID userID)) (fun _ => unauthorized) in
  if bool_decide (u_Role u <> RoleAdmin) then db_throw (Http 403 "common.forbiddenAdminOnly") else db_ret tt.

Definition handleLogout (rq : request) : LoginM unit :=
  if bool_decide (rq_cookie rq = ""%string) then db_ret tt
  else let* _ := db_try (on_auth (session_Delete (rq_cookie rq))) in db_ret tt.

(** The status and message of each error of [UpdatePassword]. *)
Definition password_error (e : auth_err) : http_err :=
  match e with
  | ErrWrongPassword => Http 401 "auth.currentPasswordWrong"
  | ErrPasswordUnchanged => Http 400 "auth.passwordUnchanged"
  | ErrUserNotFound => unauthorized
  | ErrEmptyPassword => Http 400 "auth.passwordEmpty"
  | ErrPasswordTooShort => Http 400 "auth.passwordTooShort"
  | ErrPasswordTooLong => Http 400 "auth.passwordTooLong"
  | ErrPasswordNoUpper => Http 400 "auth.passwordNoUpper"
  | ErrPasswordNoLower => Http 400 "auth.passwordNoLower"
  | ErrPasswordNoDigit => Http 400 "auth.passwordNoDigit"
  | ErrPasswordNoSpecial => Http 400 "auth.passwordNoSpecial"
  | _ => internal
  end.
Definition handleChangePassword (rq : request) (body : option (string * string)) (salt : result string (list Z)) : LoginM unit :=
  let* ok := allowIP rq 0 in
  if negb ok then db_throw tooManyAttempts else
  let* userID := currentUserID rq 1 in
  if bool_decide (userID = ""%string) then db_throw unauthorized else
  match body with
  | None => db_throw badRequest
  | Some (current, new) =>
      let* r := db_try (on_auth (UpdatePassword userID current new salt)) in
      match r with
      | Err e =>
          let* _ := (if decide (e = ErrWrongPassword) then
            if bool_decide (rq_ip rq <> ""%string) then recordFailures rq userID 2 else db_ret tt else db_ret tt) in
          db_throw (password_error e)
      | Ok _ =>
          let* _ := recordSuccess rq userID in
          let* _ := db_try (on_auth (SetForcePasswordChange userID false)) in
          let* _ := db_try (on_auth (DeleteAllForUser userID (rq_cookie rq))) in
          db_ret tt
      end
  end.
End login.
