(* ===== verification/AuthLoginProps.v ===== *)
(** What the login handlers of AuthLogin.v promise, and where they fall short. *)
From S2P Require Import Prelude GoText Sqlite Http Secret LoginLimiter AuthPolicy AuthStore AuthTokens AuthTotp AuthInvariant AuthLogin.
Local Open Scope Z_scope.

(** ** Failures counted against a key; the empty key is never counted *)
Definition counted (l : LoginLimiter) (w : which) (k : string) : nat :=
  if decide (k = ""%string) then 0 else length (default [] (buckets l w !! k)).
Lemma length_prune cutoff ts : (length (prune cutoff ts) <= length ts)%nat.
Proof. apply length_filter. Qed.
Lemma counted_gc l now w k : (counted (gcLocked l now) w k <= counted l w k)%nat.
Proof.
  unfold counted, gcLocked. destruct (decide _); [lia|]. destruct (_ <? _); [lia|].
  destruct w; cbn [buckets byIP byUser]; unfold pruneLocked; rewrite lookup_omap;
    (match goal with |- context [?m !! k ≫= _] => destruct (m !! k) as [ts|] end); cbn; try lia;
    pose proof (length_prune (Add now (- purgeBackoff)) ts); case_decide; cbn; lia.
Qed.
Lemma counted_set l w m w' k : counted (set_buckets l w m) w' k =
  match w, w' with ByIP, ByIP | ByUser, ByUser => if decide (k = ""%string) then 0%nat else length (default [] (m !! k)) | _, _ => counted l w' k end.
Proof. by destruct w, w'. Qed.
Lemma counted_allow l w key max now w' k : (counted (allowBucket l w key max now).1 w' k <= counted l w' k)%nat.
Proof.
  unfold allowBucket. destruct (decide (key = ""%string)) as [|Hk]; [done|]. cbv zeta. cbn [fst].
  etrans; [|apply (counted_gc l now)]. set (g := gcLocked l now).
  pose proof (length_prune (Add now (- window g)) (default [] (buckets g w !! key))) as Hp.
  rewrite counted_set. destruct w, w'; try lia; unfold counted; destruct (decide (k = ""%string)); try lia;
    case_decide; (destruct (decide (key = k)) as [->|]; [rewrite ?lookup_delete_eq, ?lookup_insert_eq; cbn in *; try lia|
      rewrite ?lookup_delete_ne, ?lookup_insert_ne by done; lia]).
Qed.
Lemma allow_few l w key max now : Z.of_nat (counted l w key) < max -> (allowBucket l w key max now).2 = true.
Proof.
  intros Hlt. pose proof (counted_gc l now w key) as Hg. unfold allowBucket, counted in *. destruct (decide (key = ""%string)); [done|].
  cbn [snd]. apply Z.ltb_lt. set (g := gcLocked l now) in *.
  pose proof (length_prune (Add now (- window g)) (default [] (buckets g w !! key))). lia.
Qed.
Lemma counted_record l w key n1 n w' k :
  (counted (recordBucket l w key n1 n) w' k <= S (counted l w' k))%nat.
Proof.
  assert (Happ : forall l, (counted (set_buckets l w (<[key := default [] (buckets l w !! key) ++ [n]]> (buckets l w))) w' k <= S (counted l w' k))%nat).
  { intros g. rewrite counted_set. destruct w, w'; try lia; unfold counted; destruct (decide (k = ""%string)); try lia;
      (destruct (decide (key = k)) as [->|]; [rewrite lookup_insert_eq; cbn; rewrite length_app; cbn; lia|rewrite lookup_insert_ne by done; lia]). }
  unfold recordBucket. destruct (decide (key = ""%string)); [lia|]. cbv zeta. destruct (decide _); [|apply Happ].
  set (z := mkLimiter _ _ _ _ _ _).
  assert (Hz : (counted (gcLocked z n1) w' k <= counted l w' k)%nat)
    by (etrans; [apply counted_gc|]; by destruct w').
  destruct (decide _); [lia|]. etrans; [apply Happ|]. lia.
Qed.
Lemma counted_success `{UnicodeTables} l ip name :
  counted (RecordSuccess l ip name) ByIP ip = 0%nat /\ counted (RecordSuccess l ip name) ByUser (normalizeUserKey name) = 0%nat.
Proof.
  unfold RecordSuccess, counted. split.
  - destruct (decide (ip = ""%string)) as [|Hip]; [done|]. rewrite (decide_True _ _ Hip). case_decide; cbn; by rewrite lookup_delete_eq.
  - destruct (decide (normalizeUserKey name = ""%string)) as [|Hk]; [done|]. rewrite (decide_True _ _ Hk).
    case_decide; cbn; by rewrite lookup_delete_eq.
Qed.
(** The limits never change. *)
Definition limits (l : LoginLimiter) : Z * Z := (maxIP l, maxUser l).
Lemma limits_gc l now : limits (gcLocked l now) = limits l.
Proof. unfold gcLocked. by case_match. Qed.
Lemma limits_set l w m : limits (set_buckets l w m) = limits l.
Proof. by destruct w. Qed.
Lemma limits_allow l w key max now : limits (allowBucket l w key max now).1 = limits l.
Proof. unfold allowBucket. case_decide; [done|]. cbn [fst]. by rewrite limits_set, limits_gc. Qed.
Lemma limits_record l w key n1 n : limits (recordBucket l w key n1 n) = limits l.
Proof. unfold recordBucket. case_decide; [done|]. cbv zeta. repeat case_decide; by rewrite ?limits_set, ?limits_gc. Qed.
Lemma limits_success `{UnicodeTables} l ip name : limits (RecordSuccess l ip name) = limits l.
Proof. unfold RecordSuccess. by repeat case_decide; rewrite ?limits_set. Qed.

(** ** Running a handler on a database that answers *)
Lemma bind_mem_any {A B} (f : login_world -> login_world * A) (k : A -> LoginM B) c :
  db_bind (mem f) k c = k (f (tables c)).2 (set_tables c (f (tables c)).1).
Proof. unfold db_bind, mem. by destruct (f (tables c)). Qed.
Lemma bind_mem {A B} (f : login_world -> login_world * A) (k : A -> LoginM B) (w : login_world) :
  db_bind (mem f) k (connect w) = k (f w).2 (connect (f w).1).
Proof. unfold db_bind, mem. cbn. by destruct (f w). Qed.
Lemma bind_try_faulty {A B} (m : AuthM A) (k : result auth_err A -> LoginM B) w t fs fs' r :
  m (mkConn true (lw_auth w) fs) = (mkConn true t fs', r) ->
  db_bind (db_try (on_auth m)) k (mkConn true w fs) = k r (mkConn true (put_auth t w) fs').
Proof. intros Hm. unfold db_bind, db_try, on_auth, db_zoom. cbn. by rewrite Hm. Qed.
Lemma bind_call_faulty {A B} (m : AuthM A) h (k : A -> LoginM B) w t fs fs' a :
  m (mkConn true (lw_auth w) fs) = (mkConn true t fs', Ok a) ->
  db_bind (call (on_auth m) h) k (mkConn true w fs) = k a (mkConn true (put_auth t w) fs').
Proof. intros Hm. unfold call, db_bind at 1 2, db_try, on_auth, db_zoom. cbn. by rewrite Hm. Qed.
Lemma bind_try_auth {A B} (m : AuthM A) (k : result auth_err A -> LoginM B) w t r :
  m (connect (lw_auth w)) = (connect t, r) ->
  db_bind (db_try (on_auth m)) k (connect w) = k r (connect (put_auth t w)).
Proof. apply bind_try_faulty. Qed.
Lemma bind_call_auth {A B} (m : AuthM A) h (k : A -> LoginM B) w t a :
  m (connect (lw_auth w)) = (connect t, Ok a) ->
  db_bind (call (on_auth m) h) k (connect w) = k a (connect (put_auth t w)).
Proof. apply bind_call_faulty. Qed.
Lemma put_auth_same w : put_auth (lw_auth w) w = w.
Proof. by destruct w. Qed.
Lemma bind_limiter {A B} dflt (f : LoginLimiter -> LoginLimiter * A) (k : A -> LoginM B) t l i :
  db_bind (with_limiter dflt f) k (connect (mkLogin t (Some l) i)) = k (f l).2 (connect (mkLogin t (Some (f l).1) i)).
Proof. unfold with_limiter. rewrite bind_mem. cbn. by destruct (f l). Qed.
Lemma healthy_connect' {T} (t : T) : healthy (connect t).
Proof. done. Qed.

Lemma url_trim buf : bytes buf -> buf <> [] -> TrimSpace_s (RawURLEncoding buf) = RawURLEncoding buf.
Proof.
  intros Hb Hne. pose proof (Encode_graphic buf Hb) as Hg. unfold TrimSpace_s, RawURLEncoding.
  rewrite bs_str_of by (eapply Forall_impl; [exact Hg|]; intros b; unfold graphic, is_byte; lia).
  rewrite TrimSpace_edges; [done|]. apply edges_graphic; [done|].
  intros E. apply (f_equal length) in E. rewrite length_fmap in E. pose proof (Encode_length buf). destruct buf; [done|]. simpl in *. lia.
Qed.

(** ** The second factor against the limiter *)
Section second_factor.
Context `{UnicodeTables} `{Bcrypt} `{Crypto} `{TOTP} (key : list Z) (ttl : duration).

(** An account with a password and an enabled second factor. *)
Record protected_account (t : auth_tables) (name password u : string) (r : user_row) (tr : totp_row) (secretB32 : string) : Prop := {
  pa_user : find_user t name = Some (u, r);
  pa_password : VerifyPassword (ur_password_hash r) password = true;
  pa_enabled : ur_disabled r = 0;
  pa_totp : au_totp t !! u = Some tr;
  pa_totp_on : tp_enabled tr <> 0;
  pa_secret : openSecret key (tp_secret_enc tr) = Ok secretB32
}.
Lemma Authenticate_run t name password u r tr s : protected_account t name password u r tr s ->
  Authenticate name password (connect t) = (connect t, Ok (scan_user u r)).
Proof.
  intros [Hu Hp He _ _ _]. unfold Authenticate. rewrite bind_query by done. cbn [tables connect].
  rewrite Hu, Hp. cbn [negb]. unfold u_Disabled, scan_user. by rewrite He.
Qed.
Lemma Enabled_run t name password u r tr s : protected_account t name password u r tr s ->
  Enabled u (connect t) = (connect t, Ok true).
Proof.
  intros [_ _ _ Ht Hon _]. unfold Enabled, db_bind, db_catch, Status. rewrite bind_query by done. cbn [tables connect].
  rewrite Ht. cbn. destruct (Z.eqb_spec (tp_enabled tr) 0); [done|]. done.
Qed.
(** A code that is neither the current TOTP nor an unused recovery code. *)
Definition wrong_code (tr : totp_row) (s code : string) (now : time) : Prop :=
  validateCode code s now = false /\ index_of (json_Unmarshal (tp_recovery_codes tr)) (hashRecoveryCode code) = None.
Lemma Verify_wrong t name password u r tr s code now : protected_account t name password u r tr s ->
  wrong_code tr s code now -> Verify key u code now (connect t) = (connect t, Err ErrTOTPInvalidCode).
Proof.
  intros [_ _ _ Ht Hon Hs] [Hw1 Hw2]. unfold Verify, verify_begin, loadSecret, db_bind at 1 2.
  rewrite bind_query by done. cbn [tables connect]. rewrite Ht. unfold db_bind, db_of. rewrite Hs. cbn.
  destruct (Z.eqb_spec (tp_enabled tr) 0); [done|]. cbn [negb]. by rewrite Hw1, Hw2.
Qed.

(** At most [n] failures are counted against the address and the user. *)
Definition at_most (n : nat) (l : LoginLimiter) (ip name : string) : Prop :=
  (counted l ByIP ip <= n /\ counted l ByUser (normalizeUserKey name) <= n)%nat /\ Z.of_nat n < maxIP l /\ Z.of_nat n < maxUser l.
Lemma at_most_allow n l ip name w k max now :
  at_most n l ip name -> at_most n (allowBucket l w k max now).1 ip name.
Proof.
  intros ([Hi Hu] & Hm). pose proof (limits_allow l w k max now) as Hl. injection Hl as Hl1 Hl2.
  pose proof (counted_allow l w k max now ByIP ip). pose proof (counted_allow l w k max now ByUser (normalizeUserKey name)).
  unfold at_most. rewrite Hl1, Hl2. lia.
Qed.
Lemma at_most_allowed n l ip name rq i :
  rq_ip rq = ip -> at_most n l ip name ->
  (AllowIP l ip (rq_clock rq i)).2 = true /\ (AllowUser l name (rq_clock rq i)).2 = true.
Proof. intros <- ([Hi Hu] & Hm). split; apply allow_few; lia. Qed.

Lemma login_first_factor t l items rq name password u r tr s passkeys buf sr n :
  protected_account t name password u r tr s -> rq_sameOrigin rq = true -> at_most n l (rq_ip rq) name ->
  exists l' items', handleLogin true ttl rq (Some (name, password)) passkeys (Ok buf) sr (connect (mkLogin t (Some l) (Some items))) =
    (connect (mkLogin t (Some l') (Some items')), Ok (MfaRequired (RawURLEncoding buf) ("totp"%string :: if passkeys then ["webauthn"%string] else []))) /\
    at_most 0 l' (rq_ip rq) name /\ limits l' = limits l /\
    items' !! RawURLEncoding buf = Some (mkPending u name (rq_ip rq) (Add (rq_clock rq 6) mfaPendingTTL) 0).
Proof.
  intros Hacc Hso Hal. unfold handleLogin, allowIP. rewrite bind_limiter.
  rewrite (proj1 (at_most_allowed n l (rq_ip rq) name rq 0 eq_refl Hal)). cbn [negb]. rewrite Hso. cbn [negb].
  unfold allowUser. rewrite bind_limiter.
  assert (Hal1 : at_most n (AllowIP l (rq_ip rq) (rq_clock rq 0)).1 (rq_ip rq) name) by (by apply at_most_allow).
  set (l1 := (AllowIP l (rq_ip rq) (rq_clock rq 0)).1) in *.
  rewrite (proj2 (at_most_allowed n l1 (rq_ip rq) name rq 1 eq_refl Hal1)). cbn [negb].
  set (l2 := (AllowUser l1 name (rq_clock rq 1)).1).
  assert (Hal2 : at_most n l2 (rq_ip rq) name) by (by apply at_most_allow).
  rewrite (bind_try_auth _ _ (mkLogin t (Some l2) (Some items)) _ _ (Authenticate_run t name password u r tr s Hacc)). cbn [put_auth lw_limiter lw_mfa].
  unfold recordSuccess. unfold put_auth; cbn [lw_limiter lw_mfa]. rewrite bind_limiter. cbn [fst snd].
  cbn [u_ID scan_user].
  rewrite (bind_call_auth _ _ _ (mkLogin t (Some (RecordSuccess l2 (rq_ip rq) name)) (Some items)) _ _ (Enabled_run t name password u r tr s Hacc)).
  unfold put_auth; cbn [lw_limiter lw_mfa]. rewrite bind_mem. cbn [fst snd orb lw_mfa mfa_issue set_mfa lw_auth lw_limiter].
  assert (Hn : ur_username r = name) by (by eapply find_user_Some, pa_user).
  exists (RecordSuccess l2 (rq_ip rq) name). eexists. split; [reflexivity|]. split_and!.
  - unfold at_most. destruct (counted_success l2 (rq_ip rq) name) as [-> ->].
    destruct Hal2 as (_ & Hm). pose proof (limits_success l2 (rq_ip rq) name) as Hl. injection Hl as -> ->. lia.
  - rewrite limits_success. unfold l2, l1, AllowUser, AllowIP. by rewrite !limits_allow.
  - rewrite lookup_insert_eq. cbn [u_Username u_ID scan_user]. by rewrite Hn.
Qed.

Definition after_failure (rq : request) (name : string) (i : nat) (l : LoginLimiter) : LoginLimiter :=
  RecordFailureUser (if bool_decide (rq_ip rq <> ""%string) then RecordFailureIP l (rq_ip rq) (rq_clock rq i) (rq_clock rq (i + 1)%nat) else l)
    name (rq_clock rq (i + 2)%nat) (rq_clock rq (i + 3)%nat).
Lemma limits_after_failure rq name i l : limits (after_failure rq name i l) = limits l.
Proof. unfold after_failure, RecordFailureUser, RecordFailureIP. rewrite limits_record. by case_match; rewrite ?limits_record. Qed.
(** Each bucket sees one more failure: the two are counted separately. *)
Lemma counted_other l w nm n1 n w' k : w <> w' -> (counted (recordBucket l w nm n1 n) w' k <= counted l w' k)%nat.
Proof.
  intros Hne. unfold recordBucket. destruct (decide (nm = ""%string)); [lia|]. cbv zeta.
  destruct (decide _).
  - set (z := mkLimiter _ _ _ _ _ _).
    assert (Hz : (counted (gcLocked z n1) w' k <= counted l w' k)%nat) by (etrans; [apply counted_gc|]; by destruct w').
    case_decide; [done|]. rewrite counted_set. by destruct w, w'.
  - rewrite counted_set. by destruct w, w'.
Qed.
Lemma at_most_failure n l rq name i :
  at_most n l (rq_ip rq) name -> Z.of_nat (S n) < maxIP l -> Z.of_nat (S n) < maxUser l ->
  at_most (S n) (after_failure rq name i l) (rq_ip rq) name.
Proof.
  intros ([Hi Hu] & _) HI HU. pose proof (limits_after_failure rq name i l) as Hl. injection Hl as Hl1 Hl2.
  unfold at_most. rewrite Hl1, Hl2. split; [|done]. unfold after_failure, RecordFailureUser, RecordFailureIP. split.
  - etrans; [by apply counted_other|]. case_match; [|lia]. etrans; [apply counted_record|lia].
  - etrans; [apply counted_record|]. apply le_n_S. case_match; [|done]. etrans; [by apply counted_other|done].
Qed.
Lemma login_wrong_code t l items rq name password u r tr s tok code sr n p :
  protected_account t name password u r tr s -> rq_sameOrigin rq = true ->
  at_most n l (rq_ip rq) name -> Z.of_nat (S n) < maxIP l -> Z.of_nat (S n) < maxUser l ->
  TrimSpace_s tok = tok -> items !! tok = Some p -> mp_userID p = u -> mp_username p = name ->
  rq_clock rq 0 <= mp_expires p -> wrong_code tr s code (rq_clock rq 3) ->
  exists l' items', handleLoginTOTP key true ttl rq (Some (tok, code)) sr (connect (mkLogin t (Some l) (Some items))) =
    (connect (mkLogin t (Some l') (Some items')), Err (Http 401 "auth.totpInvalidCode")) /\
    at_most (S n) l' (rq_ip rq) name /\ limits l' = limits l.
Proof.
  intros Hacc Hso Hal HmI HmU Htrim Hp Hpu Hpn Hexp Hw. unfold handleLoginTOTP, totp_get. rewrite Hso. cbn [negb]. rewrite bind_mem.
  cbn [lw_mfa]. rewrite Htrim. unfold mfa_get. rewrite Hp. unfold expired, After.
  destruct (Z.ltb_spec (mp_expires p) (rq_clock rq 0)); [lia|]. cbn [fst snd]. unfold set_mfa; cbn [lw_auth lw_limiter].
  unfold totp_check, totp_answer, allowIP. rewrite bind_assoc, bind_limiter. rewrite (proj1 (at_most_allowed n l (rq_ip rq) name rq 1 eq_refl Hal)).
  set (l1 := (AllowIP l (rq_ip rq) (rq_clock rq 1)).1).
  assert (Hal1 : at_most n l1 (rq_ip rq) name) by (by apply at_most_allow).
  unfold allowUser. rewrite Hpn, bind_assoc, bind_limiter. rewrite (proj2 (at_most_allowed n l1 (rq_ip rq) name rq 2 eq_refl Hal1)). cbn [negb].
  set (l2 := (AllowUser l1 name (rq_clock rq 2)).1).
  assert (Hal2 : at_most n l2 (rq_ip rq) name) by (by apply at_most_allow).
  rewrite Hpu.
  rewrite (bind_try_auth _ _ (mkLogin t (Some l2) (Some items)) _ _ (Verify_wrong t name password u r tr s code _ Hacc Hw)).
  unfold put_auth; cbn [lw_limiter lw_mfa]. rewrite bind_mem. cbn [fst snd lw_mfa]. unfold set_mfa; cbn [lw_auth lw_limiter].
  unfold recordFailures. rewrite bind_limiter. cbn [fst snd]. fold (after_failure rq name 4 l2).
  assert (Hl2 : limits l2 = limits l) by (unfold l2, l1, AllowUser, AllowIP; by rewrite !limits_allow).
  exists (after_failure rq name 4 l2). eexists. split; [reflexivity|]. split.
  - injection Hl2 as E1 E2. apply at_most_failure; [done|by rewrite E1|by rewrite E2].
  - by rewrite limits_after_failure.
Qed.

(** One attempt: the password, then a wrong code for the challenge it gave. *)
Record guess := mkGuess { g_login : request; g_totp : request; g_buf : list Z; g_code : string }.
Definition guess_ok (tr : totp_row) (s ip : string) (g : guess) : Prop :=
  rq_sameOrigin (g_login g) = true /\ rq_sameOrigin (g_totp g) = true /\ rq_ip (g_login g) = ip /\ rq_ip (g_totp g) = ip /\
  bytes (g_buf g) /\ g_buf g <> [] /\ rq_clock (g_totp g) 0 <= Add (rq_clock (g_login g) 6) mfaPendingTTL /\
  wrong_code tr s (g_code g) (rq_clock (g_totp g) 3).
Definition guess_run (name password : string) (g : guess) (c : conn login_world) : conn login_world * (result http_err login_response * result http_err login_response) :=
  let (c, r1) := handleLogin true ttl (g_login g) (Some (name, password)) false (Ok (g_buf g)) (Err "unused"%string) c in
  let (c, r2) := handleLoginTOTP key true ttl (g_totp g) (Some (RawURLEncoding (g_buf g), g_code g)) (Err "unused"%string) c in
  (c, (r1, r2)).
Fixpoint guesses_run (name password : string) (gs : list guess) (c : conn login_world) : list (result http_err login_response * result http_err login_response) :=
  match gs with
  | [] => []
  | g :: gs => let (c, r) := guess_run name password g c in r :: guesses_run name password gs c
  end.

(** Whoever knows the password may guess the second factor without end: a
    correct password resets both failure counters before the second factor is
    asked for, so however many wrong codes are tried from one address, each
    attempt reaches the code check and none is answered 429. *)
Theorem second_factor_guesses_unlimited t l items name password u r tr s ip gs :
  protected_account t name password u r tr s -> at_most 1 l ip name ->
  Forall (guess_ok tr s ip) gs ->
  guesses_run name password gs (connect (mkLogin t (Some l) (Some items))) =
  (fun g => (Ok (MfaRequired (RawURLEncoding (g_buf g)) ["totp"%string]), Err (Http 401 "auth.totpInvalidCode"))) <$> gs.
Proof.
  intros Hacc Hal Hgs. revert l items Hal. induction Hgs as [|g gs Hg Hgs IH]; intros l items Hal; [done|].
  destruct Hg as (Hs1 & Hs2 & Hip1 & Hip2 & Hb & Hne & Hexp & Hw). cbn [guesses_run fmap list_fmap]. unfold guess_run. rewrite <- Hip1 in Hal.
  destruct (login_first_factor t l items (g_login g) name password u r tr s false (g_buf g) (Err "unused"%string) 1 Hacc Hs1 Hal)
    as (l1 & items1 & -> & Hal1 & Hlim1 & Htok).
  pose proof Hal as (_ & HmI & HmU). pose proof Hlim1 as Hlim1'. injection Hlim1' as E1 E2.
  rewrite Hip1, <- Hip2 in Hal1.
  destruct (login_wrong_code t l1 items1 (g_totp g) name password u r tr s (RawURLEncoding (g_buf g)) (g_code g) (Err "unused"%string) 0 _
    Hacc Hs2 Hal1 ltac:(rewrite E1; lia) ltac:(rewrite E2; lia) (url_trim _ Hb Hne) Htok eq_refl eq_refl Hexp Hw)
    as (l2 & items2 & -> & Hal2 & Hlim2).
  rewrite Hip2 in Hal2. cbn [fst snd]. f_equal. by apply IH.
Qed.

Lemma session_Create_run t u raw now : known t u -> u <> ""%string ->
  au_sessions t !! hashSessionToken (hex_EncodeToString raw) = None ->
  exists t', session_Create ttl u (Ok raw) now (connect t) = (connect t', Ok (mkSession (hex_EncodeToString raw) u now (Add now ttl))).
Proof.
  intros Hk Hne Hfree. unfold session_Create. rewrite bool_decide_false by done. unfold db_bind at 1, db_of, randomID. cbv zeta.
  rewrite bind_exec by done. cbn [tables connect]. rewrite Hfree, decide_True by done. by eexists.
Qed.

(** A database error opens the second factor: when the query that asks
    whether the account has a second factor fails, the correct password alone
    creates a session, because [Enabled] takes the error for "not enabled". *)
Theorem second_factor_skipped_on_error t items name password u r tr s rq buf raw msg :
  protected_account t name password u r tr s -> rq_sameOrigin rq = true ->
  known t u -> u <> ""%string -> au_sessions t !! hashSessionToken (hex_EncodeToString raw) = None ->
  exists c', handleLogin true ttl rq (Some (name, password)) false (Ok buf) (Ok raw)
    (mkConn true (mkLogin t None (Some items)) [None; Some msg]) =
    (c', Ok (LoggedIn (mkSession (hex_EncodeToString raw) u (rq_clock rq 7) (Add (rq_clock rq 7) ttl)) (scan_user u r))).
Proof.
  intros [Hu Hp He Ht Hon Hs] Hso Hk Hne Hfree. unfold handleLogin, allowIP, allowUser, recordSuccess, with_limiter, mem.
  unfold db_bind at 1. cbn [lw_limiter tables negb fst snd]. rewrite Hso. cbn [negb].
  unfold db_bind at 1. cbn [lw_limiter tables negb fst snd set_tables].
  set (c0 := mkLogin t None (Some items)).
  assert (Ha : Authenticate name password (mkConn true t [None; Some msg]) = (mkConn true t [Some msg], Ok (scan_user u r))).
  { unfold Authenticate, db_bind, db_query, db_exec, db_call. cbn [faults configured tables]. rewrite Hu, Hp.
    unfold u_Disabled, scan_user. by rewrite He. }
  rewrite (bind_try_faulty _ _ c0 _ _ _ _ Ha). unfold put_auth, c0; cbn [lw_limiter lw_mfa].
  unfold db_bind at 1. cbn [lw_limiter tables negb fst snd set_tables configured faults].
  assert (Hen : Enabled (u_ID (scan_user u r)) (mkConn true t [Some msg]) = (connect t, Ok false)) by reflexivity.
  rewrite (bind_call_faulty _ _ _ c0 _ _ _ _ Hen). unfold put_auth, c0; cbn [lw_limiter lw_mfa].
  unfold db_bind at 1. cbn [lw_mfa tables orb]. unfold finishLogin. cbn [u_ID scan_user].
  destruct (session_Create_run t u raw (rq_clock rq 7) Hk Hne Hfree) as [t' Hc].
  rewrite (bind_call_auth _ _ _ c0 _ _ Hc). by eexists.
Qed.

(** A challenge can be used again: the handler looks the challenge up by the
    trimmed token and discards it by the token as sent, so a token sent with a
    space around it logs in and leaves the challenge in place; sent exactly, it
    is used up. *)
Theorem challenge_reusable t l items rq name password u r tr s tok sent code raw n p :
  protected_account t name password u r tr s -> rq_sameOrigin rq = true -> at_most n l (rq_ip rq) name ->
  TrimSpace_s sent = tok -> items !! tok = Some p -> mp_userID p = u -> mp_username p = name ->
  rq_clock rq 0 <= mp_expires p -> validateCode code s (rq_clock rq 3) = true ->
  known t u -> u <> ""%string -> au_users t !! u = Some r -> au_sessions t !! hashSessionToken (hex_EncodeToString raw) = None ->
  exists w' sess, handleLoginTOTP key true ttl rq (Some (sent, code)) (Ok raw) (connect (mkLogin t (Some l) (Some items))) =
    (connect w', Ok (LoggedIn sess (scan_user u r))) /\
    exists items', lw_mfa w' = Some items' /\ items' !! tok = if decide (sent = tok) then None else Some p.
Proof.
  intros Hacc Hso Hal Htrim Hp Hpu Hpn Hexp Hcode Hk Hne Hr Hfree. unfold handleLoginTOTP, totp_get. rewrite Hso. cbn [negb]. rewrite bind_mem.
  cbn [lw_mfa]. rewrite Htrim. unfold mfa_get. rewrite Hp. unfold expired, After.
  destruct (Z.ltb_spec (mp_expires p) (rq_clock rq 0)); [lia|]. cbn [fst snd]. unfold set_mfa; cbn [lw_auth lw_limiter].
  unfold totp_check, totp_answer, allowIP. rewrite bind_assoc, bind_limiter. rewrite (proj1 (at_most_allowed n l (rq_ip rq) name rq 1 eq_refl Hal)).
  set (l1 := (AllowIP l (rq_ip rq) (rq_clock rq 1)).1).
  assert (Hal1 : at_most n l1 (rq_ip rq) name) by (by apply at_most_allow).
  unfold allowUser. rewrite Hpn, bind_assoc, bind_limiter. rewrite (proj2 (at_most_allowed n l1 (rq_ip rq) name rq 2 eq_refl Hal1)). cbn [negb].
  set (l2 := (AllowUser l1 name (rq_clock rq 2)).1). rewrite Hpu.
  assert (Hv : Verify key u code (rq_clock rq 3) (connect t) = (connect t, Ok false)).
  { destruct Hacc as [_ _ _ Ht Hon Hs]. unfold Verify, verify_begin, loadSecret, db_bind at 1 2.
    rewrite bind_query by done. cbn [tables connect]. rewrite Ht. unfold db_bind, db_of. rewrite Hs. cbn.
    destruct (Z.eqb_spec (tp_enabled tr) 0); [done|]. cbn [negb]. by rewrite Hcode. }
  rewrite (bind_try_auth _ _ (mkLogin t (Some l2) (Some items)) _ _ Hv).
  unfold put_auth; cbn [lw_limiter lw_mfa]. rewrite bind_mem. cbn [fst snd lw_mfa lw_auth lw_limiter].
  unfold set_mfa, recordSuccess; cbn [lw_auth lw_limiter]. rewrite bind_limiter. cbn [fst snd].
  assert (Hg : GetByID u (connect t) = (connect t, Ok (scan_user u r))).
  { unfold GetByID. rewrite bind_query by done. cbn [tables connect]. by rewrite Hr. }
  rewrite (bind_call_auth _ _ _ (mkLogin t (Some (RecordSuccess l2 (rq_ip rq) name)) (Some (mfa_consume items sent))) _ _ Hg).
  unfold put_auth; cbn [lw_limiter lw_mfa]. unfold db_bind at 1. cbn [db_ret].
  unfold finishLogin. cbn [u_ID scan_user].
  set (sess := mkSession (hex_EncodeToString raw) u (rq_clock rq 8) (Add (rq_clock rq 8) ttl)).
  destruct (session_Create_run t u raw (rq_clock rq 8) Hk Hne Hfree) as [t' Hc]. fold sess in Hc.
  eexists _, sess. split.
  - erewrite (bind_call_auth _ _ _ (mkLogin t _ _) _ _ Hc). reflexivity.
  - eexists. split; [reflexivity|]. unfold mfa_consume. destruct (decide (sent = tok)) as [->|Hst].
    + by rewrite lookup_delete_eq.
    + by rewrite lookup_delete_ne.
Qed.
End second_factor.

(** ** What a session takes *)
Section safety.
Context `{UnicodeTables} `{Bcrypt} `{Crypto} `{TOTP} (key : list Z) (ttl : duration).

Lemma bind_limiter_any {A B} dflt (f : LoginLimiter -> LoginLimiter * A) (k : A -> LoginM B) w :
  exists a w', db_bind (with_limiter dflt f) k (connect w) = k a (connect w') /\ lw_auth w' = lw_auth w /\ lw_mfa w' = lw_mfa w.
Proof.
  unfold with_limiter. rewrite bind_mem. destruct (lw_limiter w) as [l|]; [destruct (f l) as [l' a]|]; by do 2 eexists.
Qed.
Lemma session_Create_user u rand now c c' s : session_Create ttl u rand now c = (c', Ok s) -> s_UserID s = u.
Proof.
  unfold session_Create. destruct (bool_decide _); [done|]. unfold db_bind at 1, db_of. destruct (randomID rand); [|done].
  cbv zeta. unfold db_bind. destruct (db_exec _ c) as [c1 [[]|e]]; [|done]. by intros [= _ <-].
Qed.
Ltac limiter_step b w' Ha Hm :=
  match goal with |- context [db_bind (with_limiter ?d ?f) ?k (connect ?w)] =>
    destruct (bind_limiter_any d f k w) as (b & w' & -> & Ha & Hm) end.
Lemma Authenticate_healthy name password t :
  Authenticate name password (connect t) = (connect t, match find_user t name with
    | Some (u, r) => if VerifyPassword (ur_password_hash r) password
                     then if ur_disabled r =? 0 then Ok (scan_user u r) else Err ErrUserDisabled else Err ErrInvalidSecret
    | None => Err ErrInvalidSecret end).
Proof.
  unfold Authenticate. rewrite bind_query by done. cbn [tables connect]. destruct (find_user t name) as [[u r]|]; [|done].
  destruct (VerifyPassword _ _); [|done]. cbn [negb]. unfold u_Disabled, scan_user. by destruct (ur_disabled r =? 0).
Qed.
Definition totp_on (t : auth_tables) (u : string) : bool :=
  match au_totp t !! u with Some tr => negb (tp_enabled tr =? 0) | None => false end.
Lemma Enabled_healthy u t : Enabled u (connect t) = (connect t, Ok (totp_on t u)).
Proof.
  unfold Enabled, db_bind, db_catch, Status. rewrite bind_query by done. cbn [tables connect]. unfold totp_on.
  by destruct (au_totp t !! u).
Qed.
Lemma GetByID_healthy u t :
  GetByID u (connect t) = (connect t, match au_users t !! u with Some r => Ok (scan_user u r) | None => Err ErrUserNotFound end).
Proof. unfold GetByID. rewrite bind_query by done. cbn [tables connect]. by destruct (au_users t !! u). Qed.

(** C19. On a database that answers, the password alone creates a session only for
    an account without second factor: a login that ends with a session presented
    the password of an enabled account that has neither a confirmed TOTP nor a
    passkey. *)
Theorem password_login_safe rq body pk tokRand sessRand w c' sess u :
  lw_mfa w <> None ->
  handleLogin true ttl rq body pk tokRand sessRand (connect w) = (c', Ok (LoggedIn sess u)) ->
  exists name password r, body = Some (name, password) /\ find_user (lw_auth w) name = Some (u_ID u, r) /\
    VerifyPassword (ur_password_hash r) password = true /\ ur_disabled r = 0 /\
    totp_on (lw_auth w) (u_ID u) = false /\ pk = false /\ s_UserID sess = u_ID u.
Proof.
  intros Hmfa. unfold handleLogin, allowIP.
  limiter_step b w1 Ha1 Hm1.
  destruct b; [|done]. cbn [negb]. destruct (rq_sameOrigin rq); [|done]. cbn [negb].
  destruct body as [[name password]|]; [|done]. unfold allowUser.
  limiter_step b w2 Ha2 Hm2.
  destruct b; [|done]. cbn [negb].
  rewrite (bind_try_auth _ _ w2 _ _ (Authenticate_healthy name password (lw_auth w2))), put_auth_same.
  rewrite Ha2, Ha1. destruct (find_user (lw_auth w) name) as [[v r]|] eqn:Hfind.
  2: { unfold recordFailures. limiter_step b w3 Ha3 Hm3. done. }
  destruct (VerifyPassword (ur_password_hash r) password) eqn:Hv.
  2: { unfold recordFailures. limiter_step b w3 Ha3 Hm3. done. }
  destruct (Z.eqb_spec (ur_disabled r) 0) as [Hd|]; [|done]. unfold recordSuccess.
  limiter_step b w3 Ha3 Hm3.
  rewrite (bind_call_auth _ _ _ w3 _ _ (Enabled_healthy _ (lw_auth w3))), put_auth_same. rewrite bind_mem.
  rewrite Hm3, Hm2, Hm1. destruct (lw_mfa w) as [items|]; [|done].
  rewrite Ha3, Ha2, Ha1. cbn [u_ID scan_user]. destruct (totp_on (lw_auth w) v) eqn:Hon; cbn [orb].
  { destruct tokRand; cbn; by destruct pk. }
  destruct pk; [by destruct tokRand|]. cbn [fst snd]. unfold finishLogin, call, db_bind, db_try.
  destruct (on_auth _ _) as [c2 [s|e]] eqn:Es; cbn; [|done]. intros [= _ <- <-].
  exists name, password, r. split_and!; try done. cbn [u_ID scan_user] in *.
  unfold on_auth, db_zoom in Es. destruct (session_Create _ _ _ _ _) as [c3 r3] eqn:Ec. injection Es as _ ->.
  by eapply session_Create_user.
Qed.



End safety.

(** ** Changing the password *)
Section password.
Context `{UnicodeTables} `{Bcrypt} `{Crypto}.
Lemma update_user_run u f t row : au_users t !! u = Some row ->
  update_user u f (connect t) = (connect (set_row u (f row) t), Ok tt).
Proof. intros Hr. unfold update_user. rewrite bind_exec by done. cbn [tables connect]. by rewrite Hr. Qed.
Lemma UpdatePassword_run u cur new s t row :
  au_users t !! u = Some row -> VerifyPassword (ur_password_hash row) cur = true -> password_ok new -> cur <> new ->
  UpdatePassword u cur new (Ok s) (connect t) = (connect (set_row u (set_hash (bcrypt_hash (bs new) s) row) t), Ok tt).
Proof.
  intros Hr Hv Hok Hne. unfold UpdatePassword. unfold db_bind at 1, db_of. rewrite (proj2 (ValidatePassword_spec new) Hok).
  rewrite bool_decide_false by done. unfold db_bind at 1. rewrite GetByID_healthy, Hr. cbn [u_PasswordHash scan_user]. rewrite Hv. cbn [negb].
  unfold db_bind at 1, HashPassword. rewrite (proj2 (ValidatePassword_spec new) Hok). by apply update_user_run.
Qed.
Definition other_sessions (u cookie : string) (m : gmap string session_row) : gmap string session_row :=
  filter (fun kv => ~ (sr_user_id kv.2 = u /\ (cookie = ""%string \/ kv.1 <> hashSessionToken cookie))) m.
Lemma DeleteAllForUser_run u cookie t : u <> ""%string ->
  DeleteAllForUser u cookie (connect t) = (connect (with_sessions t (other_sessions u cookie (au_sessions t))), Ok tt).
Proof.
  intros Hu. unfold DeleteAllForUser. rewrite bool_decide_false by done. cbv zeta.
  destruct (bool_decide_reflect (cookie = ""%string)) as [->|Hne]; rewrite exec_healthy by done; cbn [tables connect];
    unfold set_tables, connect; cbn; do 4 f_equal; apply map_filter_ext; intros k v _; cbn; naive_solver.
Qed.

(** A password change takes effect completely: with the right current
    password and an acceptable new one, the new password verifies afterwards, the
    duty to change it is gone, every other session of the user is revoked and
    nobody else's, and nothing else of the accounts changes. *)
Theorem change_password_effect rq cur new s w u row :
  lw_limiter w = None -> currentUserID rq 1 (connect w) = (connect w, Ok u) -> TrimSpace_s u <> ""%string ->
  au_users (lw_auth w) !! u = Some row -> VerifyPassword (ur_password_hash row) cur = true -> password_ok new -> cur <> new ->
  exists row', handleChangePassword rq (Some (cur, new)) (Ok s) (connect w) =
    (connect (put_auth (with_sessions (set_row u row' (lw_auth w)) (other_sessions u (rq_cookie rq) (au_sessions (lw_auth w)))) w), Ok tt) /\
    VerifyPassword (ur_password_hash row') new = true /\ ur_force_password_change row' = 0 /\
    ur_role row' = ur_role row /\ ur_disabled row' = ur_disabled row /\ ur_username row' = ur_username row.
Proof.
  intros Hlim Hme Htrim Hrow Hv Hok Hne. exists (set_force 0 (set_hash (bcrypt_hash (bs new) s) row)). split.
  2: { split; [|done]. apply (VerifyPassword_hash new s). unfold HashPassword. by rewrite (proj2 (ValidatePassword_spec new) Hok). }
  assert (Hu : u <> ""%string) by (by intros ->).
  unfold handleChangePassword, allowIP, with_limiter. rewrite bind_mem, Hlim. cbn [fst snd negb].
  unfold db_bind at 1. rewrite Hme, bool_decide_false by done.
  rewrite (bind_try_auth _ _ w _ _ (UpdatePassword_run u cur new s _ row Hrow Hv Hok Hne)).
  unfold recordSuccess, with_limiter. rewrite bind_mem. unfold put_auth. cbn [lw_limiter lw_mfa lw_auth]. rewrite Hlim. cbn [fst snd].
  set (t1 := set_row u _ (lw_auth w)).
  assert (HF : SetForcePasswordChange u false (connect t1) = (connect (set_row u (set_force 0 (set_hash (bcrypt_hash (bs new) s) row)) t1), Ok tt)).
  { unfold SetForcePasswordChange, require_id. rewrite bool_decide_false by done. apply update_user_run. cbn. by rewrite lookup_insert_eq. }
  rewrite (bind_try_auth _ _ (mkLogin t1 None (lw_mfa w)) _ _ HF). unfold put_auth. cbn [lw_limiter lw_mfa lw_auth].
  rewrite (bind_try_auth _ _ (mkLogin _ None (lw_mfa w)) _ _ (DeleteAllForUser_run u (rq_cookie rq) _ Hu)).
  unfold db_ret, put_auth. cbn [lw_limiter lw_mfa lw_auth]. do 3 f_equal.
  unfold with_sessions, set_row, with_users, t1. cbn. f_equal. by rewrite insert_insert_eq.
Qed.
End password.

(** ** Examples *)
Definition demo_user : user_row := mkUserRow "alice" "$2a$pw" "user" "" 0 0.
Definition demo_totp_row : totp_row := mkTotpRow "JBSW" 1 (json_Marshal [hashRecoveryCode "abcde-fghjk"; hashRecoveryCode "22222-33333"]) (Some 5).
Lemma demo_account : protected_account [] totp_demo "alice" "pw" "u1" demo_user demo_totp_row "JBSW".
Proof. split; try (vm_compute; reflexivity). vm_compute. discriminate. Qed.
Definition demo_rq (t0 : time) : request := mkRequest "10.0.0.9" true "" None (fun n => t0 + Z.of_nat n).
Definition demo_limiter : LoginLimiter := NewLoginLimiter "" "".
Definition demo_guesses : list guess :=
  [mkGuess (demo_rq 100) (demo_rq 200) [1] "000000"; mkGuess (demo_rq 300) (demo_rq 400) [2] "000001";
   mkGuess (demo_rq 500) (demo_rq 600) [3] "000002"; mkGuess (demo_rq 700) (demo_rq 800) [4] "000003";
   mkGuess (demo_rq 900) (demo_rq 1000) [5] "000004"; mkGuess (demo_rq 1100) (demo_rq 1200) [6] "000005"].
Lemma second_factor_guesses_unlimited_witness :
  guesses_run [] 60 "alice" "pw" demo_guesses (connect (mkLogin totp_demo (Some demo_limiter) (Some ∅))) =
  (fun g => (Ok (MfaRequired (RawURLEncoding (g_buf g)) ["totp"%string]), Err (Http 401 "auth.totpInvalidCode"))) <$> demo_guesses.
Proof.
  apply (second_factor_guesses_unlimited [] 60 totp_demo demo_limiter ∅ "alice" "pw" "u1" demo_user demo_totp_row "JBSW" "10.0.0.9").
  - exact demo_account.
  - vm_compute. repeat split; try discriminate; repeat constructor.
  - repeat (apply Forall_cons_2; [unfold guess_ok, wrong_code; split_and!; try (vm_compute; reflexivity); try discriminate;
      try (repeat constructor; unfold is_byte; lia); vm_compute; discriminate|]). constructor.
Defined.
Lemma demo_known : known totp_demo "u1".
Proof. exists demo_user. vm_compute. reflexivity. Qed.
Lemma second_factor_skipped_on_error_witness :
  exists c', handleLogin true 60 (demo_rq 100) (Some ("alice", "pw")%string) false (Ok [1]) (Ok [7; 8])
    (mkConn true (mkLogin totp_demo None (Some ∅)) [None; Some "database is locked"%string]) =
    (c', Ok (LoggedIn (mkSession "0708" "u1" 107 167) (scan_user "u1" demo_user))).
Proof.
  refine (second_factor_skipped_on_error [] 60 totp_demo ∅ "alice" "pw" "u1" demo_user demo_totp_row "JBSW" (demo_rq 100) [1] [7; 8]
    "database is locked" demo_account _ demo_known _ _).
  - reflexivity.
  - discriminate.
  - vm_compute. reflexivity.
Defined.
Definition demo_pending : mfaPending := mkPending "u1" "alice" "10.0.0.9" 1000 0.
Lemma challenge_reusable_witness :
  exists w' sess, handleLoginTOTP [] true 60 (demo_rq 100) (Some ("AQ ", "123456")%string) (Ok [7; 8])
      (connect (mkLogin totp_demo (Some demo_limiter) (Some {["AQ"%string := demo_pending]}))) =
    (connect w', Ok (LoggedIn sess (scan_user "u1" demo_user))) /\
    exists items', lw_mfa w' = Some items' /\ items' !! "AQ"%string = Some demo_pending.
Proof.
  refine (challenge_reusable [] 60 totp_demo demo_limiter {["AQ"%string := demo_pending]} (demo_rq 100) "alice" "pw" "u1" demo_user
    demo_totp_row "JBSW" "AQ" "AQ " "123456" [7; 8] 0 demo_pending demo_account _ _ _ _ _ _ _ _ demo_known _ _ _).
  - reflexivity.
  - vm_compute. repeat split; try discriminate; repeat constructor.
  - vm_compute. reflexivity.
  - reflexivity.
  - reflexivity.
  - reflexivity.
  - vm_compute. discriminate.
  - vm_compute. reflexivity.
  - discriminate.
  - vm_compute. reflexivity.
  - vm_compute. reflexivity.
Defined.
Lemma password_login_safe_witness :
  let t := with_totp totp_demo ∅ in
  let '(c, r) := handleLogin true 60 (demo_rq 100) (Some ("alice", "pw")%string) false (Ok [1]) (Ok [7; 8]) (connect (mkLogin t None (Some ∅))) in
  r = Ok (LoggedIn (mkSession "0708" "u1" 107 167) (scan_user "u1" demo_user)) /\ totp_on t "u1" = false.
Proof.
  cbv zeta. destruct (handleLogin true 60 (demo_rq 100) _ false _ _ _) as [c r] eqn:E.
  assert (Hr : r = Ok (LoggedIn (mkSession "0708" "u1" 107 167) (scan_user "u1" demo_user))).
  { apply (f_equal snd) in E. cbn [snd] in E. rewrite <- E. vm_compute. reflexivity. }
  split; [exact Hr|]. rewrite Hr in E.
  destruct (password_login_safe 60 (demo_rq 100) (Some ("alice", "pw")%string) false (Ok [1]) (Ok [7; 8])
    (mkLogin (with_totp totp_demo ∅) None (Some ∅)) c (mkSession "0708" "u1" 107 167) (scan_user "u1" demo_user)) as (n & p & r0 & _ & _ & _ & _ & Hon & _).
  - discriminate.
  - exact E.
  - exact Hon.
Defined.
Definition demo_member : login_world :=
  mkLogin (with_sessions totp_demo {[hashSessionToken "01" := mkSessionRow "u1" 0 1000; hashSessionToken "02" := mkSessionRow "u1" 0 1000]}) None (Some ∅).
Definition demo_cookie : request := mkRequest "10.0.0.9" true "01" None (fun n => 10 + Z.of_nat n).
Lemma change_password_effect_witness :
  exists row', VerifyPassword (ur_password_hash row') "Passw0rd!" = true /\
    (handleChangePassword demo_cookie (Some ("pw", "Passw0rd!")%string) (Ok []) (connect demo_member)).2 = Ok tt.
Proof.
  destruct (change_password_effect demo_cookie "pw" "Passw0rd!" [] demo_member "u1" demo_user) as (row' & E & Hv & _); try (vm_compute; reflexivity).
  - vm_compute. discriminate.
  - apply ValidatePassword_spec. vm_compute. reflexivity.
  - discriminate.
  - exists row'. split; [exact Hv|]. rewrite E. reflexivity.
Defined.
