(* ===== verification/AuthChallenge.v ===== *)
(** Guesses at a second factor (src/internal/httpapi/auth_totp.go), with requests
    that overlap: each request to the second step is its look-up of the challenge,
    its check of the code and its answer, and other requests run in between. *)
From S2P Require Import Prelude GoText Sqlite Http Secret LoginLimiter AuthPolicy AuthStore AuthTokens AuthTotp AuthInvariant AuthLogin AuthLoginProps.
Local Open Scope Z_scope.

(** ** Requests in flight *)
Record totp_request := mkTotpRequest { tr_rq : request; tr_sent : string; tr_code : string; tr_rand : result string (list Z) }.
Inductive totp_stage := TGot (p : mfaPending) | TChecked (p : mfaPending) (r : result auth_err bool).
Abbreviation totp_calls := (gmap nat (totp_request * totp_stage)).
Inductive totp_op := TBegin (id : nat) (q : totp_request) | TCheck (id : nat) | TAnswer (id : nat).

Section requests.
Context `{UnicodeTables} `{Bcrypt} `{Crypto} `{TOTP} (key : list Z) (ttl : duration).
Abbreviation answer := (totp_request * result http_err login_response)%type.
(** One step, and the answer of the request that ends with it. A request starts
    under an identifier that is not in use. *)
Definition totp_step (st : conn login_world * totp_calls) (op : totp_op) : conn login_world * totp_calls * list answer :=
  let (c, calls) := st in
  match op with
  | TBegin id q =>
      match calls !! id with
      | Some _ => (c, calls, [])
      | None =>
          if negb (rq_sameOrigin (tr_rq q)) then (c, calls, [(q, Err (Http 403 "common.forbidden"))]) else
          match totp_get true (tr_rq q) (tr_sent q) c with
          | (c, Ok (Some p)) => (c, <[id := (q, TGot p)]> calls, [])
          | (c, Ok None) => (c, calls, [(q, Err mfaTokenInvalid)])
          | (c, Err e) => (c, calls, [(q, Err e)])
          end
      end
  | TCheck id =>
      match calls !! id with
      | Some (q, TGot p) =>
          match totp_check key (tr_rq q) p (tr_code q) c with
          | (c, Ok r) => (c, <[id := (q, TChecked p r)]> calls, [])
          | (c, Err e) => (c, delete id calls, [(q, Err e)])
          end
      | _ => (c, calls, [])
      end
  | TAnswer id =>
      match calls !! id with
      | Some (q, TChecked p r) =>
          let (c, a) := totp_answer ttl (tr_rq q) (tr_sent q) p r (tr_rand q) c in (c, delete id calls, [(q, a)])
      | _ => (c, calls, [])
      end
  end.
Fixpoint totp_run (st : conn login_world * totp_calls) (ops : list totp_op) : conn login_world * totp_calls * list answer :=
  match ops with
  | [] => (st, [])
  | op :: ops => let (st, l) := totp_step st op in let (st, l') := totp_run st ops in (st, l ++ l')
  end.

(** The three steps without others in between are the handler. *)
Lemma handleLoginTOTP_is_its_steps id q c :
  let '(c', r) := handleLoginTOTP key true ttl (tr_rq q) (Some (tr_sent q, tr_code q)) (tr_rand q) c in
  totp_run (c, ∅) [TBegin id q; TCheck id; TAnswer id] = ((c', ∅), [(q, r)]).
Proof.
  unfold handleLoginTOTP. cbn [totp_run totp_step]. rewrite lookup_empty.
  destruct (negb _); [by cbn; rewrite lookup_empty|]. unfold db_bind at 1.
  destruct (totp_get _ _ _ c) as [c1 [[p|]|e]]; [|by cbn; rewrite lookup_empty..]. unfold db_bind.
  cbn [totp_step]. rewrite lookup_insert_eq.
  destruct (totp_check _ _ _ _ c1) as [c2 [r|e]].
  - cbn [totp_step]. rewrite lookup_insert_eq. destruct (totp_answer _ _ _ _ _ _ c2) as [c3 a]. cbn. by rewrite insert_insert_eq, delete_insert_eq.
  - rewrite delete_insert_eq, delete_empty. cbn. by rewrite lookup_empty.
Qed.

(** ** The challenges under the steps *)
Definition wrongCode : http_err := Http 401 "auth.totpInvalidCode".
Definition mfa_is (items : mfa_items) (w : login_world) : Prop := lw_mfa w = Some items.
Definition is_wrong {A} (r : result http_err A) : bool :=
  match r with Ok _ => false | Err e => bool_decide (e = wrongCode) end.
Lemma mfa_limiter {A} dflt (f : LoginLimiter -> LoginLimiter * A) items : preserves (mfa_is items) (with_limiter dflt f).
Proof.
  intros c Hc. unfold with_limiter, mem, mfa_is in *. destruct (lw_limiter _); [destruct (f _)|]; done.
Qed.
Lemma mfa_auth {A} (m : AuthM A) items : preserves (mfa_is items) (on_auth m).
Proof. by apply preserves_zoom. Qed.
Lemma mfa_mem {A} (f : login_world -> login_world * A) items items' :
  (forall w, mfa_is items w -> mfa_is items' (f w).1) -> hoare (mfa_is items) (mem f) (fun w _ => mfa_is items' w).
Proof. intros Hf c Hc. unfold mem. specialize (Hf _ Hc). by destruct (f (tables c)). Qed.
Definition total {A} (m : LoginM A) : Prop := forall c, exists c' a, m c = (c', Ok a).
Lemma total_mem {A} (f : login_world -> login_world * A) : total (mem f).
Proof. intros c. unfold mem. destruct (f (tables c)). by do 2 eexists. Qed.
Lemma total_try {E A} (m : DB login_world E A) : total (db_try m).
Proof. intros c. unfold db_try. destruct (m c). by do 2 eexists. Qed.
Lemma hoare_total {A B} (P R : login_world -> Prop) (m : LoginM A) (k : A -> LoginM B) Q :
  total m -> hoare P m (fun w _ => R w) -> (forall a, hoare R (k a) Q) -> hoare P (db_bind m k) Q.
Proof.
  intros Ht Hm Hk c Hc. unfold db_bind. specialize (Hm c Hc). destruct (Ht c) as (c' & a & E). rewrite E in *. by apply Hk.
Qed.
Lemma total_limiter {A} dflt (f : LoginLimiter -> LoginLimiter * A) : total (with_limiter dflt f).
Proof. apply total_mem. Qed.
(** What runs after the code was accepted leaves the challenges alone and
    does not answer "wrong code". *)
Lemma finish_keeps items u rand now :
  hoare (mfa_is items) (finishLogin ttl u rand now) (fun w r => mfa_is items w /\ is_wrong r = false).
Proof.
  intros c Hc. unfold finishLogin, call, db_bind, db_try.
  pose proof (mfa_auth (session_Create ttl (u_ID u) rand now) items c Hc) as Hm.
  by destruct (on_auth _ c) as [c' [s|e]].
Qed.
Lemma totp_check_keeps rq p code items :
  hoare (mfa_is items) (totp_check key rq p code) (fun w r => mfa_is items w /\ is_wrong r = false).
Proof.
  unfold totp_check.
  apply (hoare_total _ (mfa_is items)); [apply total_limiter|apply mfa_limiter|]. intros okIP.
  apply (hoare_total _ (mfa_is items)); [destruct okIP; [apply total_limiter|intros c; by eexists c, false]|destruct okIP; [apply mfa_limiter|apply preserves_ret]|].
  intros ok. destruct ok; [|by intros c Hc]. cbn [negb]. intros c Hc. split.
  - by apply (preserves_try (mfa_is items) _ (mfa_auth _ items)).
  - unfold db_try. by destruct (on_auth _ c).
Qed.
(** The challenges after an answer: a wrong code is charged to its challenge, and
    what runs after a code was accepted only discards the token that was sent. *)
Definition answered (items : mfa_items) (sent : string) (r : result auth_err bool) : mfa_items :=
  match r with Err _ => (mfa_fail items (TrimSpace_s sent)).1 | Ok _ => delete sent items end.
Lemma totp_answer_mfa rq sent p r sr items :
  hoare (mfa_is items) (totp_answer ttl rq sent p r sr)
    (fun w a => mfa_is (answered items sent r) w /\ is_wrong a = negb (is_ok r)).
Proof.
  unfold totp_answer. destruct r as [used|e]; cbn [answered is_ok negb].
  - set (items' := delete sent items).
    apply (hoare_total _ (mfa_is items')); [apply total_mem|apply mfa_mem; intros w ->; done|]. intros _.
    apply (hoare_total _ (mfa_is items')); [apply total_limiter|apply mfa_limiter|]. intros _.
    eapply hoare_bind with (R := fun w r => mfa_is items' w /\ is_wrong r = false); [| |done].
    + intros d Hd. unfold call, db_bind, db_try. pose proof (mfa_auth (GetByID (mp_userID p)) _ d Hd).
      by destruct (on_auth _ d) as [d' [s|e]].
    + intros u. apply (hoare_conseq _ (mfa_is items') _ _ (fun w r => mfa_is items' w /\ is_wrong r = false)); [|by intros t [Ht _]|done].
      apply (hoare_total _ (mfa_is items')); [| |intros _; apply finish_keeps].
      * destruct used; [|intros d; by eexists d, tt]. intros d. unfold db_bind.
        destruct (total_try (on_auth (Status (u_ID u))) d) as (d' & a & ->). by eexists _, _.
      * destruct used; [|apply preserves_ret]. apply preserves_bind; [apply preserves_try, mfa_auth|intros; apply preserves_ret].
  - set (items' := (mfa_fail items (TrimSpace_s sent)).1).
    apply (hoare_total _ (mfa_is items')); [apply total_mem|apply mfa_mem; intros w ->; done|]. intros _.
    apply (hoare_total _ (mfa_is items')); [apply total_limiter|apply mfa_limiter|]. intros _ c Hc.
    split; [done|]. cbn. by rewrite bool_decide_true.
Qed.
Lemma totp_get_mfa rq sent c items : lw_mfa (tables c) = Some items ->
  let '(c', r) := totp_get true rq sent c in
  r = Ok (mfa_get items (TrimSpace_s sent) (rq_clock rq 0)).2 /\ mfa_is (mfa_get items (TrimSpace_s sent) (rq_clock rq 0)).1 (tables c').
Proof. intros Hm. unfold totp_get, mem. rewrite Hm. by destruct (mfa_get _ _ _) as [items' p] eqn:E. Qed.

(** ** Guesses *)
(** What a challenge still takes, and the requests for it in flight. *)
Definition tries_left (items : mfa_items) (tok : string) : Z :=
  match items !! tok with Some p => Z.max 1 (mfaMaxFailures - mp_failures p) | None => 0 end.
Definition for_token (tok : string) (q : totp_request) : bool := bool_decide (TrimSpace_s (tr_sent q) = tok).
Definition in_flight (tok : string) (calls : totp_calls) : Z :=
  Z.of_nat (size (filter (fun kv => for_token tok kv.2.1 = true) calls)).
Definition wrong_guess (tok : string) (a : answer) : bool := for_token tok a.1 && is_wrong a.2.
Definition guesses (tok : string) (l : list answer) : Z := Z.of_nat (length (filter (fun a => wrong_guess tok a = true) l)).
(** The most requests for the challenge that are in flight at one time. *)
Fixpoint busiest (tok : string) (st : conn login_world * totp_calls) (ops : list totp_op) : Z :=
  Z.max (in_flight tok st.2) match ops with [] => 0 | op :: ops => busiest tok (totp_step st op).1 ops end.
Lemma guesses_app tok l l' : guesses tok (l ++ l') = guesses tok l + guesses tok l'.
Proof. unfold guesses. rewrite filter_app, length_app. lia. Qed.
Lemma guesses_nil tok : guesses tok [] = 0.
Proof. done. Qed.
Lemma guesses_one tok q a : guesses tok [(q, a)] = if for_token tok q && is_wrong a then 1 else 0.
Proof.
  unfold guesses. rewrite filter_cons. unfold wrong_guess; cbn [fst snd]. by destruct (for_token tok q && is_wrong a).
Qed.
Lemma guesses_right tok q a : is_wrong a = false -> guesses tok [(q, a)] = 0.
Proof. intros Ha. by rewrite guesses_one, Ha, andb_false_r. Qed.
Lemma in_flight_nonneg tok calls : 0 <= in_flight tok calls.
Proof. unfold in_flight. lia. Qed.
Lemma in_flight_insert tok calls id q s : calls !! id = None ->
  in_flight tok (<[id := (q, s)]> calls) = in_flight tok calls + (if for_token tok q then 1 else 0).
Proof.
  intros Hn. unfold in_flight. destruct (for_token tok q) eqn:Hq.
  - rewrite map_filter_insert_True by done. rewrite map_size_insert_None; [lia|]. apply map_lookup_filter_None. by left.
  - rewrite map_filter_insert_False by (cbn; by rewrite Hq). rewrite delete_id by done. lia.
Qed.
Lemma in_flight_delete tok calls id q s : calls !! id = Some (q, s) ->
  in_flight tok (delete id calls) = in_flight tok calls - (if for_token tok q then 1 else 0).
Proof.
  intros Hl. rewrite <- (insert_delete_id calls id (q, s) Hl) at 2. rewrite in_flight_insert by apply lookup_delete_eq. lia.
Qed.
Lemma in_flight_update tok calls id q s s' : calls !! id = Some (q, s) -> in_flight tok (<[id := (q, s')]> calls) = in_flight tok calls.
Proof.
  intros Hl. rewrite <- insert_delete_eq, in_flight_insert by apply lookup_delete_eq. rewrite (in_flight_delete _ _ _ _ _ Hl). lia.
Qed.
(** What can still be answered with a wrong code, when at most [m] requests for the
    challenge are ever in flight. *)
Definition potential (tok : string) (m : Z) (items : mfa_items) (calls : totp_calls) : Z :=
  match items !! tok with Some _ => tries_left items tok + (m - 1) | None => in_flight tok calls end.
Lemma potential_drop tok m items k calls calls' :
  in_flight tok calls' <= in_flight tok calls -> in_flight tok calls' <= m ->
  potential tok m (delete k items) calls' <= potential tok m items calls.
Proof.
  intros Hle Hm. unfold potential, tries_left. destruct (decide (k = tok)) as [->|Hne].
  - rewrite lookup_delete_eq. destruct (items !! tok); lia.
  - rewrite lookup_delete_ne by done. destruct (items !! tok); lia.
Qed.
Lemma potential_same tok m items calls calls' :
  in_flight tok calls' <= in_flight tok calls -> potential tok m items calls' <= potential tok m items calls.
Proof. intros Hle. unfold potential. destruct (items !! tok); lia. Qed.
Lemma potential_fail tok m items k calls calls' :
  in_flight tok calls <= m -> in_flight tok calls' = in_flight tok calls - (if decide (k = tok) then 1 else 0) ->
  (if decide (k = tok) then 1 else 0) + potential tok m (mfa_fail items k).1 calls' <= potential tok m items calls.
Proof.
  intros Hm Hc. unfold mfa_fail. destruct (items !! k) as [p|] eqn:Hk.
  - destruct (decide (k = tok)) as [->|Hne]; unfold potential, tries_left; cbn [fst mp_failures add_failure].
    + rewrite Hk. destruct (Z.leb_spec mfaMaxFailures (mp_failures p + 1)).
      * rewrite lookup_delete_eq. lia.
      * rewrite lookup_insert_eq. cbn [mp_failures add_failure]. lia.
    + destruct (mfaMaxFailures <=? _); [rewrite lookup_delete_ne by done|rewrite lookup_insert_ne by done]; destruct (items !! tok); lia.
  - cbn [fst]. destruct (decide (k = tok)) as [->|]; unfold potential; [rewrite Hk; lia|]. destruct (items !! tok); lia.
Qed.
Lemma totp_step_potential st op tok m items :
  lw_mfa (tables st.1) = Some items ->
  let '(st', l) := totp_step st op in
  in_flight tok st.2 <= m -> in_flight tok st'.2 <= m ->
  exists items', lw_mfa (tables st'.1) = Some items' /\
    guesses tok l + potential tok m items' st'.2 <= potential tok m items st.2.
Proof.
  destruct st as [c calls]. cbn [fst snd]. intros Hm. destruct op as [id q|id|id]; cbn [totp_step].
  - destruct (calls !! id) eqn:Hid; [intros _ _; exists items; split; [done|]; rewrite guesses_nil; cbn [snd]; lia|].
    destruct (negb _); [intros _ _; exists items; split; [done|]; rewrite guesses_right by done; cbn [snd]; lia|].
    pose proof (totp_get_mfa (tr_rq q) (tr_sent q) c items Hm) as Hg. destruct (totp_get _ _ _ c) as [c' r]. destruct Hg as [-> Hm'].
    unfold mfa_get in *. destruct (items !! TrimSpace_s (tr_sent q)) as [p|] eqn:Hp; [destruct (expired _ p)|]; cbn [fst snd] in *.
    2: { intros Hb Ha. exists items. split; [done|]. rewrite guesses_nil. unfold potential. rewrite in_flight_insert by done.
         destruct (items !! tok) eqn:Ht; [lia|]. unfold for_token. rewrite bool_decide_false by congruence. lia. }
    all: intros Hb _; eexists; split; [exact Hm'|]; rewrite guesses_right by done; apply potential_drop; cbn [fst snd]; lia.
  - destruct (calls !! id) as [[q [p|p r]]|] eqn:Hid; try (intros _ _; exists items; split; [done|]; rewrite guesses_nil; cbn [snd]; lia).
    pose proof (totp_check_keeps (tr_rq q) p (tr_code q) items c Hm) as [Hk Hw]. destruct (totp_check _ _ _ _ c) as [c' [r|e]]; cbn [fst snd] in *.
    + intros _ _. exists items. split; [done|]. rewrite guesses_nil. apply potential_same. by rewrite (in_flight_update _ _ _ _ _ _ Hid).
    + intros _ _. exists items. split; [done|]. rewrite guesses_right by done.
      apply potential_same. rewrite (in_flight_delete _ _ _ _ _ Hid). destruct (for_token _ _); lia.
  - destruct (calls !! id) as [[q [p|p r]]|] eqn:Hid; try (intros _ _; exists items; split; [done|]; rewrite guesses_nil; cbn [snd]; lia).
    pose proof (totp_answer_mfa (tr_rq q) (tr_sent q) p r (tr_rand q) items c Hm) as [Hk Hw]. destruct (totp_answer _ _ _ _ _ _ c) as [c' a]; cbn [fst snd] in *.
    intros Hb Ha. eexists. split; [exact Hk|]. pose proof (in_flight_delete tok _ _ _ _ Hid) as Hd.
    destruct r as [used|e]; cbn [is_ok negb answered] in *.
    + rewrite guesses_right by done. apply potential_drop; destruct (for_token _ _); lia.
    + rewrite guesses_one, Hw, andb_true_r. unfold for_token in *.
      pose proof (potential_fail tok m items (TrimSpace_s (tr_sent q)) calls (delete id calls) Hb) as Hf.
      destruct (decide (TrimSpace_s (tr_sent q) = tok)); [rewrite bool_decide_true in * by done|rewrite bool_decide_false in * by done]; auto.
Qed.
Lemma busiest_nonneg tok st ops : 0 <= busiest tok st ops.
Proof. pose proof (in_flight_nonneg tok st.2). destruct ops; cbn; lia. Qed.
Lemma totp_run_potential tok m ops : forall st items,
  lw_mfa (tables st.1) = Some items -> busiest tok st ops <= m ->
  exists items', lw_mfa (tables (totp_run st ops).1.1) = Some items' /\
    guesses tok (totp_run st ops).2 + potential tok m items' (totp_run st ops).1.2 <= potential tok m items st.2.
Proof.
  induction ops as [|op ops IH]; intros st items Hm Hb; [exists items; split; [done|]; cbn [totp_run fst snd]; rewrite guesses_nil; lia|].
  cbn [busiest totp_run] in *. pose proof (totp_step_potential st op tok m items Hm) as Hs.
  destruct (totp_step st op) as [st1 l]. cbn [fst] in Hb.
  assert (Hf : in_flight tok st1.2 <= busiest tok st1 ops) by (destruct ops; cbn [busiest]; lia).
  destruct Hs as (items1 & Hm1 & Hp); [lia|lia|]. destruct (IH st1 items1 Hm1 ltac:(lia)) as (items2 & Hm2 & Hp2).
  destruct (totp_run st1 ops) as [st2 l2]. exists items2. split; [done|]. cbn [fst snd] in *. rewrite guesses_app. lia.
Qed.

(** C21. A challenge takes five wrong codes, and one more for each further request that
    is in flight with it. In any interleaving of the steps of second-step requests
    for whatever challenges (the look-up, the check and the answer of a request are
    separate steps), and whatever statements fail, the answers "wrong code" to
    requests for one token, in whatever spelling, are at most what the challenge
    still takes - five less the failures it has, at least one, and zero when it
    does not exist - plus the largest number of requests for it that were in flight
    at one time, less one. Requests that do not overlap get at most five. *)
Theorem challenge_guess_bound ops c items tok :
  lw_mfa (tables c) = Some items ->
  guesses tok (totp_run (c, ∅) ops).2 <= tries_left items tok + Z.max 0 (busiest tok (c, ∅) ops - 1).
Proof.
  intros Hm. set (m := Z.max 1 (busiest tok (c, ∅) ops)).
  destruct (totp_run_potential tok m ops (c, ∅) items Hm (Z.le_max_r _ _)) as (items' & _ & Hp).
  assert (Hpos : 0 <= potential tok m items' (totp_run (c, ∅) ops).1.2).
  { unfold potential, tries_left. pose proof (in_flight_nonneg tok (totp_run (c, ∅) ops).1.2). destruct (items' !! tok); lia. }
  assert (Hstart : potential tok m items ∅ <= tries_left items tok + (m - 1)); [|cbn [snd] in Hp; subst m; lia].
  unfold potential, tries_left. destruct (items !! tok); [lia|].
  subst m; unfold in_flight. rewrite map_filter_empty, map_size_empty. lia.
Qed.
End requests.

(** ** A challenge under attack *)
Definition demo_guess (n : nat) : totp_request := mkTotpRequest (demo_rq (100 + 10 * Z.of_nat n)) "AQ" "000000" (Ok [1]).
Definition demo_challenge : conn login_world := connect (mkLogin totp_demo None (Some {["AQ"%string := demo_pending]})).
(** Nine requests one after another; nine that look the challenge up before any of
    them is answered. *)
Definition one_by_one : list totp_op := flat_map (fun n => [TBegin n (demo_guess n); TCheck n; TAnswer n]) (seq 0 9).
Definition all_at_once : list totp_op :=
  ((fun n => TBegin n (demo_guess n)) <$> seq 0 9) ++ (TCheck <$> seq 0 9) ++ (TAnswer <$> seq 0 9).
Lemma challenge_guess_bound_witness :
  guesses "AQ" (totp_run [] 60 (demo_challenge, ∅) one_by_one).2 = 5 /\ busiest [] 60 "AQ" (demo_challenge, ∅) one_by_one = 1 /\
  guesses "AQ" (totp_run [] 60 (demo_challenge, ∅) one_by_one).2 <=
    tries_left {["AQ"%string := demo_pending]} "AQ" + Z.max 0 (busiest [] 60 "AQ" (demo_challenge, ∅) one_by_one - 1).
Proof. split_and!; [by vm_compute|by vm_compute|]. by apply challenge_guess_bound. Defined.
(** [mfaMaxFailures] is five; nine requests in flight together get nine guesses. *)
Lemma overlapping_guesses_exceed :
  guesses "AQ" (totp_run [] 60 (demo_challenge, ∅) all_at_once).2 = 9 /\ tries_left {["AQ"%string := demo_pending]} "AQ" = 5.
Proof. by split; vm_compute. Qed.
