(* ===== verification/Middleware.v ===== *)
(** What stands before every handler (src/internal/httpapi): the same-origin
    check of middleware.go and helpers.go, the API-token middleware of
    api_tokens.go, the forced password change of auth_helpers.go, and the token
    handlers.

    [url.Parse] is a parameter: the scheme and host of a text, [None] after an
    error. The effective scheme of the request (TLS, trusted proxies) is part of
    the request. *)
From S2P Require Import Prelude GoText Sqlite Http Secret LoginLimiter AuthPolicy AuthStore AuthTokens AuthTotp AuthInvariant AuthLogin AuthLoginProps.
Local Open Scope Z_scope.

Record apiTokenAuth := mkTokenAuth { ta_userID : string; ta_scope : string; ta_id : string }.
Record http_request := mkHttp {
  h_method : string;
  h_path : string;                         (* URL.Path *)
  h_scheme : string; h_host : string;      (* effectiveScheme, Host *)
  h_authorization : string; h_origin : string; h_referer : string; h_secFetchSite : string;
  h_token : option apiTokenAuth;           (* the request context *)
  h_rq : request                           (* address, session cookie, clock *)
}.
Class URLParse := { url_Parse : string -> option (string * string) }.
Definition hasPrefix (s p : string) : bool := has_prefix (bs s) (bs p).
Definition one_of (s : string) (l : list string) : bool := bool_decide (s ∈ l).

(** ** Origin *)
Section origin.
Context `{UnicodeTables} `{URLParse}.
Definition sameOriginRequest (r : http_request) : bool :=
  match h_token r with
  | Some _ => true
  | None =>
      let want := (h_scheme r +:+ "://" +:+ h_host r)%string in
      let origin := TrimSpace_s (h_origin r) in
      let ref := TrimSpace_s (h_referer r) in
      if bool_decide (origin <> ""%string) then bool_decide (origin = want)
      else if bool_decide (ref <> ""%string) then
        match url_Parse ref with
        | None => false
        | Some (scheme, host) =>
            if bool_decide (scheme = ""%string) || bool_decide (host = ""%string) then false
            else bool_decide ((scheme +:+ "://" +:+ host)%string = want)
        end
      else bool_decide (TrimSpace_s (h_secFetchSite r) = ""%string)
  end.
(** [disabled]: the environment variable VANTYX_DISABLE_ORIGIN_CHECK. The
    result is the answer, or [None] when the request goes on. *)
Definition csrfOriginMiddleware (disabled : bool) (r : http_request) : option http_err :=
  if disabled then None
  else if one_of (h_method r) ["GET"; "HEAD"; "OPTIONS"]%string then None
  else if hasPrefix (h_path r) "/ws/" then None
  else if bool_decide (h_path r = "/api/login"%string) then None
  else if bool_decide (rq_cookie (h_rq r) = ""%string) then
    if hasPrefix (h_path r) "/api/" && negb (sameOriginRequest r) then Some (Http 403 "common.forbidden") else None
  else if negb (sameOriginRequest r) then Some (Http 403 "common.forbidden") else None.
End origin.

(** ** API tokens *)
Definition apiTokenSessionOnly : list string :=
  ["/api/me/tokens"; "/api/me/password"; "/api/me/totp"; "/api/me/webauthn"; "/api/me/ssh-keys"; "/api/login"; "/api/logout";
   "/api/auth/oidc"; "/api/settings/backups"; "/api/settings/webhooks"]%string.
Definition apiTokenReadOnlyPrefixes : list string := ["/api/users"; "/api/ssh-keys"]%string.
Definition pathHasPrefix (p prefix : string) : bool :=
  bool_decide (p = prefix) || hasPrefix p (prefix +:+ "/").
Definition is_read (method : string) : bool := one_of method ["GET"; "HEAD"]%string.
Definition apiTokenPathAllowed (method p : string) : bool :=
  if existsb (pathHasPrefix p) apiTokenSessionOnly then false
  else if is_read method then true
  else negb (existsb (pathHasPrefix p) apiTokenReadOnlyPrefixes).

Section tokens.
Context `{UnicodeTables} `{Bcrypt} `{Crypto}.
Definition with_token (r : http_request) (t : apiTokenAuth) : http_request :=
  mkHttp (h_method r) (h_path r) (h_scheme r) (h_host r) (h_authorization r) (h_origin r) (h_referer r) (h_secFetchSite r) (Some t)
    (mkRequest (rq_ip (h_rq r)) (rq_sameOrigin (h_rq r)) (rq_cookie (h_rq r)) (Some (ta_userID t)) (rq_clock (h_rq r))).
Definition bearer : string := "Bearer ".
(** What follows the scheme in the header. *)
Definition presented (r : http_request) : string := TrimSpace_s (str_of (drop (length (bs bearer)) (bs (h_authorization r)))).
(** [configured]: [a.APITokens != nil]. The request that reaches the handler. *)
Definition apiTokenMiddleware (configured : bool) (r : http_request) : LoginM http_request :=
  if negb configured || negb (hasPrefix (h_authorization r) (bearer +:+ APITokenPrefix)) || negb (hasPrefix (h_path r) "/api/")
  then db_ret r else
  let* tok := call (on_auth (token_Authenticate (presented r) (rq_clock (h_rq r) 0))) (fun _ => unauthorized) in
  let* u := call (on_auth (GetByID (at_UserID tok))) (fun _ => unauthorized) in
  if u_Disabled u then db_throw unauthorized else
  if bool_decide (at_Scope tok = APITokenScopeRead) && negb (is_read (h_method r)) then db_throw (Http 403 "auth.apiTokenReadOnly") else
  if negb (apiTokenPathAllowed (h_method r) (h_path r)) then db_throw (Http 403 "auth.apiTokenNotAllowedHere") else
  let* _ := db_try (on_auth (Touch (at_ID tok) (rq_clock (h_rq r) 1))) in
  db_ret (with_token r (mkTokenAuth (at_UserID tok) (at_Scope tok) (at_ID tok))).

(** ** Forced password change *)
Definition force_whitelist : list string :=
  ["/api/me"; "/api/me/password"; "/api/logout"; "/api/login"; "/api/login/totp"; "/api/login/webauthn/begin";
   "/api/login/webauthn/finish"; "/api/auth/methods"; "/api/auth/oidc/login"; "/api/auth/oidc/callback"; "/healthz"]%string.
Definition forcePasswordChangeMiddleware (r : http_request) : LoginM http_request :=
  if negb (hasPrefix (h_path r) "/api/") && negb (hasPrefix (h_path r) "/ws/") then db_ret r else
  if one_of (h_path r) force_whitelist then db_ret r else
  let* userID := currentUserIDWithError (h_rq r) 2 in
  if bool_decide (userID = ""%string) then db_ret r else
  let* u := call (on_auth (GetByID userID)) (fun _ => internal) in
  if u_ForcePasswordChange u then db_throw (Http 403 "auth.passwordChangeRequired") else db_ret r.
(** The order of [r.Use] in router.go. *)
Definition guard_request `{URLParse} (csrfDisabled tokens : bool) (r : http_request) : LoginM http_request :=
  match csrfOriginMiddleware csrfDisabled r with
  | Some e => db_throw e
  | None => let* r := apiTokenMiddleware tokens r in forcePasswordChangeMiddleware r
  end.

(** ** Token handlers *)
Definition sessionUserID (r : http_request) : LoginM string :=
  match h_token r with
  | Some _ => db_throw (Http 403 "auth.apiTokenNotAllowedHere")
  | None =>
      let* u := currentUserID (h_rq r) 3 in
      if bool_decide (TrimSpace_s u = ""%string) then db_throw unauthorized else db_ret (TrimSpace_s u)
  end.
(** [body]: name, scope, expires_in_days. *)
Definition handleCreateMyToken (r : http_request) (body : option (string * string * Z)) (raw idRaw : result string (list Z))
    : LoginM (APIToken * string) :=
  let* userID := sessionUserID r in
  match body with
  | None => db_throw badRequest
  | Some (name, scope, days) =>
      let name := TrimSpace_s name in
      if bool_decide (name = ""%string) || bool_decide (100 < length (bs name))%nat then db_throw (Http 400 "auth.apiTokenNameRequired") else
      let scope := ToLower_s (TrimSpace_s scope) in
      let scope := if bool_decide (scope = ""%string) then APITokenScopeRead else scope in
      if (days <? 0) || (3650 <? days) then db_throw (Http 400 "auth.apiTokenExpiryInvalid") else
      let expiresAt := if 0 <? days then Some (Add (rq_clock (h_rq r) 4) (int64 (int64 (days * 24) * hour))) else None in
      call (on_auth (token_Create userID name scope expiresAt raw idRaw (rq_clock (h_rq r) 5))) (fun e =>
        match e with
        | ErrAPITokenScope => Http 400 "auth.apiTokenScopeInvalid"
        | ErrAPITokenLimit => Http 409 "auth.apiTokenLimit"
        | _ => internal
        end)
  end.
Definition handleRevokeMyToken (r : http_request) (id : string) : LoginM unit :=
  let* userID := sessionUserID r in
  call (on_auth (Revoke userID (TrimSpace_s id) (rq_clock (h_rq r) 4)))
    (fun e => if decide (e = ErrAPITokenNotFound) then Http 404 "auth.apiTokenNotFound" else internal).
Definition handleAdminRevokeToken (r : http_request) (target id : string) : LoginM unit :=
  let* _ := requireAdmin (h_rq r) 3 in
  match h_token r with
  | Some _ => db_throw (Http 403 "auth.apiTokenNotAllowedHere")
  | None =>
      call (on_auth (Revoke (TrimSpace_s target) (TrimSpace_s id) (rq_clock (h_rq r) 4)))
        (fun e => if decide (e = ErrAPITokenNotFound) then Http 404 "auth.apiTokenNotFound" else internal)
  end.
End tokens.

(** ** What gets through *)
Section confined.
Context `{UnicodeTables} `{Bcrypt} `{Crypto} `{URLParse}.

Lemma query_tables {T E A} `{DBError E} (f : T -> A) (c c' : conn T) (r : result E A) :
  db_query f c = (c', r) -> tables c' = tables c /\ forall a, r = Ok a -> a = f (tables c).
Proof.
  unfold db_query, db_exec, db_call. destruct (faults c) as [|[msg|] fs]; intros [= <- <-]; split; try done; congruence.
Qed.
Lemma token_Authenticate_inv p now c c' tok : token_Authenticate p now c = (c', Ok tok) ->
  tables c' = tables c /\ Active tok now = true /\ exists id row, au_tokens (tables c) !! id = Some row /\
    tk_token_hash row = HashAPIToken (TrimSpace_s p) /\ tok = scanAPIToken id row.
Proof.
  unfold token_Authenticate. cbv zeta. destruct (_ || _); [done|]. intros Hr. apply bind_inv in Hr as (c1 & row & Hq & Hr).
  apply query_tables in Hq as [Ht Hrow]. specialize (Hrow row eq_refl). destruct row as [[id row]|]; [|done].
  destruct (Active _ now) eqn:Ha; [|done]. injection Hr as <- <-. symmetry in Hrow. apply find_token_Some in Hrow as [Hl Hh]. eauto 10.
Qed.
Lemma GetByID_inv id c c' u : GetByID id c = (c', Ok u) ->
  tables c' = tables c /\ exists row, au_users (tables c) !! id = Some row /\ u = scan_user id row.
Proof.
  unfold GetByID. intros Hr. apply bind_inv in Hr as (c1 & row & Hq & Hr). apply query_tables in Hq as [Ht Hrow].
  specialize (Hrow row eq_refl). destruct row as [row|]; [|done]. injection Hr as <- <-. eauto.
Qed.
Lemma call_auth_inv {A} (m : AuthM A) (h : auth_err -> http_err) c c' a : call (on_auth m) h c = (c', Ok a) ->
  exists d, m (mkConn (configured c) (lw_auth (tables c)) (faults c)) = (d, Ok a) /\
    c' = mkConn (configured d) (put_auth (tables d) (tables c)) (faults d).
Proof.
  unfold call, db_bind at 1, db_try, on_auth, db_zoom. destruct (m _) as [d [x|e]]; [|done]. intros [= <- <-]. eauto.
Qed.

(** C23. A request that the middleware passes on as a bearer of an API token
    presents, in its Authorization header, a token whose hash is stored under the
    identifier the request is passed on with, not revoked and not expired, of an
    account that is not disabled; the request acts for that account and with the
    scope of that row; a read token only reads; no token reaches an endpoint
    that mints or changes credentials, and none writes to user administration or
    SSH key material. This holds whatever statements fail. *)
Theorem api_token_confined tokens r c c' r' ta :
  h_token r = None -> apiTokenMiddleware tokens r c = (c', Ok r') -> h_token r' = Some ta ->
  exists row urow, hasPrefix (h_authorization r) (bearer +:+ APITokenPrefix) = true /\
    au_tokens (lw_auth (tables c)) !! ta_id ta = Some row /\ tk_token_hash row = HashAPIToken (presented r) /\ ta_userID ta = tk_user_id row /\ ta_scope ta = tk_scope row /\
    tk_revoked_at row = None /\ (forall e, tk_expires_at row = Some e -> rq_clock (h_rq r) 0 < time_Unix e) /\
    au_users (lw_auth (tables c)) !! ta_userID ta = Some urow /\ ur_disabled urow = 0 /\
    rq_apiToken (h_rq r') = Some (ta_userID ta) /\
    (ta_scope ta = APITokenScopeRead -> is_read (h_method r) = true) /\
    (forall p, p ∈ apiTokenSessionOnly -> pathHasPrefix (h_path r) p = false) /\
    (forall p, p ∈ apiTokenReadOnlyPrefixes -> pathHasPrefix (h_path r) p = true -> is_read (h_method r) = true).
Proof.
  intros Hnone. unfold apiTokenMiddleware. destruct (_ || _) eqn:Hpre; [intros [= _ <-]; by rewrite Hnone|]. intros Hr Hta.
  apply orb_false_iff in Hpre as [Hpre _]. apply orb_false_iff in Hpre as [_ Hpre]. apply negb_false_iff in Hpre.
  apply bind_inv in Hr as (c1 & tok & Hq1 & Hr). apply call_auth_inv in Hq1 as (d1 & Hq1 & ->).
  apply token_Authenticate_inv in Hq1 as (Ht & Hact & id & row & Hrow & Hhash & ->). unfold presented in Hhash at 1. rewrite TrimSpace_s_idem in Hhash. fold (presented r) in Hhash. cbn [tables] in Ht, Hrow.
  apply bind_inv in Hr as (c2 & u & Hq2 & Hr). apply call_auth_inv in Hq2 as (d2 & Hq2 & _).
  apply GetByID_inv in Hq2 as (_ & urow & Hu & ->). cbn [tables put_auth lw_auth] in Hu. rewrite Ht in Hu.
  cbn [u_Disabled scan_user at_UserID scanAPIToken at_Scope at_ID] in *.
  destruct (Z.eqb_spec (ur_disabled urow) 0) as [Hd|]; [|done]. cbn [negb] in Hr.
  destruct (bool_decide_reflect (tk_scope row = APITokenScopeRead)) as [Hs|Hs]; destruct (is_read (h_method r)) eqn:Hread; try done; cbn [andb negb] in Hr;
    (destruct (apiTokenPathAllowed _ _) eqn:Hpath; [|done]; cbn [negb] in Hr);
    apply bind_inv in Hr as (c3 & x & _ & Hr); injection Hr as _ <-; injection Hta as <-; cbn [ta_id ta_userID ta_scope];
    unfold apiTokenPathAllowed in Hpath; (destruct (existsb _ apiTokenSessionOnly) eqn:Hso; [done|]);
    exists row, urow;
    (assert (Hact' : tk_revoked_at row = None /\ forall e, tk_expires_at row = Some e -> rq_clock (h_rq r) 0 < time_Unix e)
      by (unfold Active in Hact; cbn in Hact; destruct (tk_revoked_at row); [done|]; split; [done|];
          intros e He; rewrite He in Hact; cbn in Hact; unfold Before in Hact; lia));
    (assert (Hso' : forall p, p ∈ apiTokenSessionOnly -> pathHasPrefix (h_path r) p = false)
      by (intros p Hp; apply not_true_iff_false; intros Hx; apply not_true_iff_false in Hso; apply Hso; apply existsb_exists; exists p; split; [by apply list_elem_of_In|done]));
    destruct Hact' as [Hrev Hexp]; split_and!; try done.
  intros p Hp Hx. rewrite Hread in Hpath. apply negb_true_iff, not_true_iff_false in Hpath. exfalso. apply Hpath.
  apply existsb_exists. exists p. split; [by apply list_elem_of_In|done].
Qed.

(** An account that must change its password reaches nothing else: a request
    to /api/ or /ws/ outside the list of exceptions that passes the middleware
    is unauthenticated or of an account without the flag. *)
Theorem password_change_enforced r w c' r' :
  hasPrefix (h_path r) "/api/" || hasPrefix (h_path r) "/ws/" = true -> one_of (h_path r) force_whitelist = false ->
  forcePasswordChangeMiddleware r (connect w) = (c', Ok r') ->
  exists c1 u, currentUserIDWithError (h_rq r) 2 (connect w) = (c1, Ok u) /\
    (u = ""%string \/ exists row, au_users (lw_auth (tables c1)) !! u = Some row /\ ur_force_password_change row = 0).
Proof.
  intros Hp Hw. unfold forcePasswordChangeMiddleware. rewrite <- negb_orb, Hp, Hw. cbn [negb]. intros Hr.
  apply bind_inv in Hr as (c1 & u & Hu & Hr). exists c1, u. split; [done|].
  destruct (bool_decide_reflect (u = ""%string)) as [|Hne]; [by left|]. right.
  apply bind_inv in Hr as (c2 & v & Hv & Hr). apply call_auth_inv in Hv as (d & Hv & _).
  apply GetByID_inv in Hv as (_ & row & Hrow & ->). exists row. split; [exact Hrow|].
  cbn [u_ForcePasswordChange scan_user] in Hr. by destruct (Z.eqb_spec (ur_force_password_change row) 0).
Qed.
End confined.

(** ** Examples *)
#[export] Instance toy_url : URLParse := {| url_Parse s := if has_prefix (bs s) (bs "https://") then Some ("https"%string, str_of (drop 8 (bs s))) else None |}.
Definition demo_http (method path : string) : http_request :=
  mkHttp method path "https" "gw" ("Bearer " +:+ token_of_raw demo_raw)%string "" "" "" None (demo_rq 1).
Definition demo_world : conn login_world := connect (mkLogin (tables demo_token.1) None (Some ∅)).
Definition demo_granted : conn login_world * result http_err http_request := apiTokenMiddleware true (demo_http "GET" "/api/users") demo_world.
Example token_paths_ex :
  (apiTokenMiddleware true (demo_http "POST" "/api/groups") demo_world).2 = Err (Http 403 "auth.apiTokenReadOnly") /\
  (apiTokenMiddleware true (demo_http "GET" "/api/me/tokens") demo_world).2 = Err (Http 403 "auth.apiTokenNotAllowedHere").
Proof. vm_compute. done. Qed.
Lemma api_token_confined_witness :
  is_read "GET" = true /\ exists row, au_tokens (lw_auth (tables demo_world)) !! "AQID"%string = Some row /\ tk_revoked_at row = None /\
    tk_token_hash row = HashAPIToken (token_of_raw demo_raw).
Proof.
  split; [reflexivity|].
  destruct demo_granted as [c' r'] eqn:E.
  assert (Hr : r' = Ok (with_token (demo_http "GET" "/api/users") (mkTokenAuth "u1" "read" "AQID"))).
  { apply (f_equal snd) in E. cbn [snd] in E. rewrite <- E. vm_compute. reflexivity. }
  rewrite Hr in E. unfold demo_granted in E.
  destruct (api_token_confined true (demo_http "GET" "/api/users") demo_world c' _ (mkTokenAuth "u1" "read" "AQID") eq_refl E eq_refl)
    as (row & urow & _ & Hrow & Hhash & _ & _ & Hrev & _).
  exists row. split_and!; [exact Hrow|exact Hrev|]. rewrite Hhash. vm_compute. reflexivity.
Defined.
Lemma password_change_enforced_witness :
  exists c1 u, currentUserIDWithError (demo_rq 1) 2 (connect (mkLogin no_accounts None None)) = (c1, Ok u) /\
    (u = ""%string \/ exists row, au_users (lw_auth (tables c1)) !! u = Some row /\ ur_force_password_change row = 0).
Proof.
  destruct (forcePasswordChangeMiddleware (demo_http "GET" "/api/groups") (connect (mkLogin no_accounts None None))) as [c' r'] eqn:E.
  assert (Hr : r' = Ok (demo_http "GET" "/api/groups")).
  { apply (f_equal snd) in E. cbn [snd] in E. rewrite <- E. reflexivity. }
  rewrite Hr in E. exact (password_change_enforced (demo_http "GET" "/api/groups") _ c' _ eq_refl eq_refl E).
Defined.
