(* ===== verification/AuthAdmin.v ===== *)
(** User administration (src/internal/httpapi/users_handler.go,
    users_delete_handler.go): creating, updating and deleting accounts, and the
    rule that an enabled administrator remains.

    Stopping the live sessions of an account and revoking its invitations act on
    other stores and are left out here; audit records and JSON as elsewhere. *)
From S2P Require Import Prelude GoText Sqlite Http Secret LoginLimiter AuthPolicy AuthStore AuthTokens AuthTotp AuthInvariant AuthLogin AuthLoginProps.
Local Open Scope Z_scope.

(** [slugID] (router.go) *)
Definition slug_step (b : list Z) (c : Z) : list Z :=
  if (65 <=? c) && (c <=? 90) then b ++ [c + 32]
  else if ((97 <=? c) && (c <=? 122)) || ((48 <=? c) && (c <=? 57)) then b ++ [c]
  else if (c =? 32) || (c =? 45) || (c =? 95) then
    match last b with Some l => if l =? 45 then b else b ++ [45] | None => b end
  else b.
Definition slugID (s : string) : string :=
  let b := foldl slug_step [] (bs s) in
  match last b with
  | None => "target"
  | Some l => str_of (if l =? 45 then removelast b else b)
  end.

Section admin.
Context `{UnicodeTables} `{Bcrypt} `{Crypto}.

Definition create_error (e : auth_err) : http_err :=
  match e with
  | ErrUserExists => Http 409 "users.alreadyExists"
  | ErrIDOrUsernameEmpty => Http 400 "validation.idUsernameEmpty"
  | ErrEmptyPassword => Http 400 "auth.passwordEmpty"
  | ErrPasswordTooShort => Http 400 "auth.passwordTooShort"
  | ErrPasswordNoUpper => Http 400 "auth.passwordNoUpper"
  | ErrPasswordNoLower => Http 400 "auth.passwordNoLower"
  | ErrPasswordNoDigit => Http 400 "auth.passwordNoDigit"
  | ErrPasswordNoSpecial => Http 400 "auth.passwordNoSpecial"
  | _ => internal
  end.
Record createUserRequest := mkCreateUser { cu_ID : string; cu_Username : string; cu_Password : string; cu_Role : string }.
Definition handleCreateUser (rq : request) (body : option createUserRequest) (salt : result string (list Z)) : LoginM User :=
  let* _ := requireAdmin rq 0 in
  match body with
  | None => db_throw badRequest
  | Some req =>
      let username := TrimSpace_s (cu_Username req) in
      let id := TrimSpace_s (cu_ID req) in
      let role := TrimSpace_s (cu_Role req) in
      if bool_decide (username = ""%string) then db_throw (Http 400 "users.usernameRequired") else
      if bool_decide (cu_Password req = ""%string) then db_throw (Http 400 "users.passwordRequired") else
      let id := if bool_decide (id = ""%string) then slugID username else id in
      let role := if bool_decide (role <> RoleAdmin) && bool_decide (role <> RoleUser) then RoleUser else role in
      call (on_auth (CreateUser id username (cu_Password req) role salt)) create_error
  end.

Definition enabled_admin (u : User) : bool := bool_decide (u_Role u = RoleAdmin) && negb (u_Disabled u).
Definition countAdmins : LoginM nat :=
  let* users := call (on_auth (ListUsers 1000 0)) (fun _ => internal) in
  db_ret (length (filter (fun u => enabled_admin u = true) users)).

(** The role of an update: the checks, then the write. [None]: no change. *)
Definition current_role (u : User) : string := if bool_decide (u_Role u = ""%string) then RoleUser else u_Role u.
Definition role_check (rq : request) (userID : string) (target : User) (role : string) : LoginM (option string) :=
  let role := TrimSpace_s role in
  if bool_decide (role <> RoleAdmin) && bool_decide (role <> RoleUser) then db_throw (Http 400 "users.invalidRole") else
  if bool_decide (role = current_role target) then db_ret None else
  if bool_decide (role = RoleUser) then
    let* me := currentUserID rq 2 in
    if bool_decide (userID = me) then db_throw (Http 400 "users.cannotDemoteSelf") else
    let* n := countAdmins in
    if bool_decide (n <= 1)%nat then db_throw (Http 409 "users.lastAdminRole") else db_ret (Some role)
  else db_ret (Some role).
Definition role_write (userID : string) (role : option string) : LoginM unit :=
  match role with
  | None => db_ret tt
  | Some role =>
      call (on_auth (UpdateRole userID role)) (fun e =>
        match e with
        | ErrUserNotFound => Http 404 "users.userNotFound"
        | ErrInvalidRole => Http 400 "users.invalidRole"
        | _ => internal
        end)
  end.
Definition name_write (userID : string) (target : User) (name : string) : LoginM unit :=
  let name := TrimSpace_s name in
  if bool_decide (name = ""%string) || bool_decide (64 < length (bs name))%nat then db_throw (Http 400 "users.usernameInvalid") else
  if bool_decide (name = u_Username target) then db_ret tt else
  call (on_auth (UpdateUsername userID name)) (fun e =>
    match e with
    | ErrUserExists => Http 409 "users.alreadyExists"
    | ErrUserNotFound => Http 404 "users.userNotFound"
    | ErrIDOrUsernameEmpty => Http 400 "users.usernameInvalid"
    | _ => internal
    end).
(** [role]: of the target after the first part. *)
Definition disabled_check (rq : request) (userID role : string) (disabled : bool) : LoginM unit :=
  if disabled then
    let* me := currentUserID rq 3 in
    if bool_decide (userID = me) then db_throw (Http 400 "users.cannotDisableSelf") else
    if bool_decide (role = RoleAdmin) then
      let* n := countAdmins in
      if bool_decide (n <= 1)%nat then db_throw (Http 409 "users.lastAdminDisable") else db_ret tt
    else db_ret tt
  else db_ret tt.
Definition disabled_write (userID : string) (disabled : bool) : LoginM unit :=
  let* _ := call (on_auth (SetDisabled userID disabled)) (fun _ => internal) in
  if disabled then let* _ := db_try (on_auth (DeleteAllForUser userID "")) in db_ret tt else db_ret tt.
Record updateUserRequest := mkUpdateUser { uu_Role : option string; uu_Username : option string; uu_Disabled : option bool }.
Definition handleUpdateUser (rq : request) (userID : string) (body : option updateUserRequest) : LoginM unit :=
  let* _ := requireAdmin rq 0 in
  let userID := TrimSpace_s userID in
  if bool_decide (userID = ""%string) then db_throw (Http 400 "users.idRequired") else
  match body with
  | None => db_throw badRequest
  | Some req =>
      let* target := call (on_auth (GetByID userID)) (fun _ => Http 404 "users.userNotFound") in
      let* new_role := match uu_Role req with None => db_ret None | Some role => role_check rq userID target role end in
      let* _ := role_write userID new_role in
      let* _ := match uu_Username req with None => db_ret tt | Some name => name_write userID target name end in
      match uu_Disabled req with
      | None => db_ret tt
      | Some d =>
          if bool_decide (d = u_Disabled target) then db_ret tt else
          let* _ := disabled_check rq userID (default (u_Role target) new_role) d in
          disabled_write userID d
      end
  end.

Definition delete_check (rq : request) (userID : string) : LoginM unit :=
  let* _ := requireAdmin rq 0 in
  let userID := TrimSpace_s userID in
  if bool_decide (userID = ""%string) then db_throw (Http 400 "users.idRequired") else
  let* me := currentUserID rq 2 in
  if bool_decide (userID = TrimSpace_s me) then db_throw (Http 400 "users.cannotDeleteSelf") else
  let* target := call (on_auth (GetByID userID)) (fun _ => Http 404 "users.userNotFound") in
  if bool_decide (u_Role target = RoleAdmin) then
    let* n := countAdmins in
    if bool_decide (n <= 1)%nat then db_throw (Http 409 "users.lastAdmin") else db_ret tt
  else db_ret tt.
Definition delete_write (userID : string) : LoginM unit :=
  call (on_auth (DeleteUser (TrimSpace_s userID)))
    (fun e => if decide (e = ErrUserNotFound) then Http 404 "users.userNotFound" else internal).
Definition handleDeleteUser (rq : request) (userID : string) : LoginM unit :=
  let* _ := delete_check rq userID in delete_write userID.

Definition handleSetUserTags (rq : request) (userID : string) (tags : option (list string)) : LoginM unit :=
  let* _ := requireAdmin rq 0 in
  let userID := TrimSpace_s userID in
  if bool_decide (userID = ""%string) then db_throw (Http 400 "users.idRequired") else
  match tags with
  | None => db_throw badRequest
  | Some tags =>
      call (on_auth (SetUserTags userID tags)) (fun e =>
        match e with
        | ErrUserNotFound => Http 404 "users.userNotFound"
        | ErrTagLength => Http 400 "tags.lengthInvalid"
        | ErrTagChars => Http 400 "tags.charsInvalid"
        | _ => internal
        end)
  end.
End admin.
