(* ===== verification/AuthAdminProps.v ===== *)
(** The administrator rule of AuthAdmin.v: requests one after the other never
    remove the last enabled administrator; two at the same time can. *)
From S2P Require Import Prelude GoText Sqlite Http Secret LoginLimiter AuthPolicy AuthStore AuthTokens AuthTotp AuthInvariant AuthLogin AuthLoginProps Middleware AuthAdmin.
Local Open Scope Z_scope.

Definition is_admin (r : user_row) : Prop := ur_role r = RoleAdmin /\ ur_disabled r = 0.
Definition some_admin (m : gmap string user_row) : Prop := exists v r, m !! v = Some r /\ is_admin r.
Definition two_admins (m : gmap string user_row) : Prop :=
  exists v1 v2 r1 r2, v1 <> v2 /\ m !! v1 = Some r1 /\ m !! v2 = Some r2 /\ is_admin r1 /\ is_admin r2.
Definition users_are (m : gmap string user_row) (w : login_world) : Prop := au_users (lw_auth w) = m.

Lemma some_admin_insert m u r : some_admin m ->
  is_admin r \/ two_admins m \/ (exists r0, m !! u = Some r0 /\ ~ is_admin r0) -> some_admin (<[u := r]> m).
Proof.
  intros (v & rv & Hv & Ha) Hc. destruct (decide (v = u)) as [->|Hne].
  - destruct Hc as [Hr|[(v1 & v2 & r1 & r2 & Hd & H1 & H2 & A1 & A2)|(r0 & H0 & Hn)]].
    + exists u, r. by rewrite lookup_insert_eq.
    + destruct (decide (v1 = u)) as [->|]; [exists v2, r2|exists v1, r1]; by rewrite lookup_insert_ne by congruence.
    + rewrite Hv in H0. by injection H0 as ->.
  - exists v, rv. by rewrite lookup_insert_ne by congruence.
Qed.
Lemma some_admin_delete m u : some_admin m -> two_admins m \/ (exists r0, m !! u = Some r0 /\ ~ is_admin r0) -> some_admin (delete u m).
Proof.
  intros (v & rv & Hv & Ha) Hc. destruct (decide (v = u)) as [->|Hne].
  - destruct Hc as [(v1 & v2 & r1 & r2 & Hd & H1 & H2 & A1 & A2)|(r0 & H0 & Hn)].
    + destruct (decide (v1 = u)) as [->|]; [exists v2, r2|exists v1, r1]; by rewrite lookup_delete_ne by congruence.
    + rewrite Hv in H0. by injection H0 as ->.
  - exists v, rv. by rewrite lookup_delete_ne by congruence.
Qed.

Section admin.
Context `{UnicodeTables} `{Bcrypt} `{Crypto}.

(** ** Reading leaves the users alone *)
Definition auth_users_are (m : gmap string user_row) (t : auth_tables) : Prop := au_users t = m.
Lemma users_auth {A} (m : AuthM A) us : preserves (auth_users_are us) m -> preserves (users_are us) (on_auth m).
Proof.
  intros Hm c Hc. unfold on_auth, db_zoom. specialize (Hm (mkConn (configured c) (lw_auth (tables c)) (faults c)) Hc).
  by destruct (m _).
Qed.
Lemma session_Get_users raw now us : preserves (auth_users_are us) (session_Get raw now).
Proof. unfold session_Get, session_Delete. preserve. apply preserves_exec. by intros t t' [] Ht [= <-]. Qed.
Lemma GetByID_users id us : preserves (auth_users_are us) (GetByID id).
Proof. unfold GetByID. preserve. Qed.
Lemma currentUserIDWithError_users rq n us : preserves (users_are us) (currentUserIDWithError rq n).
Proof.
  unfold currentUserIDWithError. preserve; apply users_auth; [apply session_Get_users|apply GetByID_users].
Qed.
Lemma currentUserID_users rq n us : preserves (users_are us) (currentUserID rq n).
Proof. unfold currentUserID. apply preserves_bind; [apply preserves_catch, currentUserIDWithError_users|]. preserve. Qed.
Lemma requireAdmin_users rq n us : preserves (users_are us) (requireAdmin rq n).
Proof.
  unfold requireAdmin. apply preserves_bind; [apply currentUserIDWithError_users|]. intros u. preserve.
  apply preserves_call, users_auth, GetByID_users.
Qed.
Lemma GetByID_target id (h : auth_err -> http_err) us : hoare (users_are us) (call (on_auth (GetByID id)) h)
  (fun w r => users_are us w /\ forall u, r = Ok u -> exists row, us !! id = Some row /\ u = scan_user id row).
Proof.
  intros c Hc. split; [by apply (preserves_call _ _ h (users_auth _ _ (GetByID_users id us)))|].
  intros u Hr. destruct (call _ _ c) as [c' r] eqn:E. cbn [snd] in Hr. subst r.
  apply call_auth_inv in E as (d & E & _). apply GetByID_inv in E as (_ & row & Hrow & ->). cbn [tables] in Hrow.
  exists row. unfold users_are in Hc. by rewrite <- Hc.
Qed.

(** Two accounts counted are two accounts. *)
Lemma count_two m l : NoDup l.*1 -> (forall kv, kv ∈ l -> m !! kv.1 = Some kv.2) ->
  (2 <= length (filter (fun u => enabled_admin u = true) ((fun kv : string * user_row => scan_user kv.1 kv.2) <$> l)))%nat -> two_admins m.
Proof.
  intros Hnd Hin Hlen.
  assert (Hf : forall l : list (string * user_row), filter (fun u => enabled_admin u = true) ((fun kv => scan_user kv.1 kv.2) <$> l) =
    (fun kv => scan_user kv.1 kv.2) <$> filter (fun kv => enabled_admin (scan_user kv.1 kv.2) = true) l).
  { intros k. induction k as [|x k IH]; [done|]. rewrite fmap_cons, !filter_cons. destruct (decide _); rewrite IH; done. }
  rewrite Hf, length_fmap in Hlen. set (fl := filter _ l) in Hlen.
  assert (Hadm : forall kv, kv ∈ fl -> m !! kv.1 = Some kv.2 /\ is_admin kv.2).
  { intros kv Hkv. apply list_elem_of_filter in Hkv as [He Hl]. split; [by apply Hin|].
    unfold enabled_admin in He. apply andb_true_iff in He as [He1 He2]. apply bool_decide_eq_true in He1.
    unfold scan_user in *. cbn in *. split; [done|]. by destruct (Z.eqb_spec (ur_disabled kv.2) 0). }
  assert (Hnf : NoDup fl.*1).
  { eapply sublist_NoDup; [exact Hnd|]. apply fmap_sublist, sublist_filter. }
  destruct fl as [|[k1 r1] [|[k2 r2] fl]]; cbn in Hlen; [lia|lia|].
  destruct (Hadm (k1, r1) ltac:(set_solver)) as [L1 A1]. destruct (Hadm (k2, r2) ltac:(set_solver)) as [L2 A2].
  exists k1, k2, r1, r2. split_and!; try done. cbn in Hnf. intros ->. inversion Hnf; subst. set_solver.
Qed.
Lemma countAdmins_two us : hoare (users_are us) countAdmins
  (fun w r => users_are us w /\ forall n, r = Ok n -> (2 <= n)%nat -> two_admins us).
Proof.
  intros c Hc. unfold users_are in Hc. split.
  - assert (preserves (users_are us) countAdmins) as Hp; [|by apply Hp].
    unfold countAdmins, ListUsers. apply preserves_bind; [|preserve]. apply preserves_call, users_auth. cbv zeta. preserve.
  - intros n Hr. destruct (countAdmins c) as [c' r] eqn:E. cbn [snd] in Hr. subst r. unfold countAdmins in E.
    apply bind_inv in E as (c1 & users & E & Hn). injection Hn as _ <-. apply call_auth_inv in E as (d & E & _).
    unfold ListUsers in E. cbv zeta in E. apply bind_inv in E as (c2 & rows & E & Hn). injection Hn as _ <-.
    apply query_tables in E as [_ E]. specialize (E rows eq_refl). cbn [tables] in E. rewrite Hc in E.
    intros Hlen. eapply count_two; [| |exact Hlen]; rewrite E.
    + eapply sublist_NoDup; [|apply fmap_sublist, sublist_take].
      eapply sublist_NoDup; [|apply fmap_sublist, sublist_drop].
      rewrite sort_stable_perm. apply NoDup_fst_map_to_list.
    + intros kv Hkv. pose proof (elem_of_sublist _ _ _ (elem_of_sublist _ _ _ Hkv (sublist_take _ _)) (sublist_drop _ _)) as Hj.
      rewrite elem_of_sort_stable in Hj. destruct kv. by apply elem_of_map_to_list in Hj.
Qed.

(** ** The writes *)
Definition admins_kept (us us' : gmap string user_row) : Prop :=
  forall v, (fun r => (ur_role r, ur_disabled r)) <$> us' !! v = (fun r => (ur_role r, ur_disabled r)) <$> us !! v.
Lemma admins_kept_refl us : admins_kept us us.
Proof. done. Qed.
Lemma admins_kept_lookup us us' v r : admins_kept us us' -> us !! v = Some r ->
  exists r', us' !! v = Some r' /\ ur_role r' = ur_role r /\ ur_disabled r' = ur_disabled r.
Proof.
  intros Hk Hv. specialize (Hk v). rewrite Hv in Hk. destruct (us' !! v) as [r'|]; [|done]. cbn in Hk. injection Hk as ? ?. eauto.
Qed.
Lemma admins_kept_some us us' : admins_kept us us' -> some_admin us -> some_admin us'.
Proof.
  intros Hk (v & r & Hv & Hr & Hd). destruct (admins_kept_lookup _ _ _ _ Hk Hv) as (r' & Hv' & E1 & E2).
  exists v, r'. split; [done|]. split; congruence.
Qed.

(** What an update of one row leaves. *)
Definition updated (us : gmap string user_row) (u : string) (f : user_row -> user_row) (ok : bool) (us' : gmap string user_row) : Prop :=
  if ok then exists row, us !! u = Some row /\ us' = <[u := f row]> us else us' = us.
Lemma call_users {A} (m : AuthM A) (h : auth_err -> http_err) us (Q : bool -> gmap string user_row -> Prop) :
  hoare (auth_users_are us) m (fun t r => Q (is_ok r) (au_users t)) ->
  hoare (users_are us) (call (on_auth m) h) (fun w r => Q (is_ok r) (au_users (lw_auth w))).
Proof.
  intros Hm c Hc. unfold call, db_bind, db_try, on_auth, db_zoom.
  specialize (Hm (mkConn (configured c) (lw_auth (tables c)) (faults c)) Hc). by destruct (m _) as [d [a|e]].
Qed.
Lemma update_user_users u f us : hoare (auth_users_are us) (update_user u f) (fun t r => updated us u f (is_ok r) (au_users t)).
Proof.
  intros c Hc. unfold update_user, db_bind, db_exec, db_call, auth_users_are in *.
  destruct (faults c) as [|[msg|] fs]; cbn; [|done|];
    (destruct (au_users (tables c) !! u) as [row|] eqn:Er; cbn; [|done]; rewrite Hc in *; by exists row).
Qed.
Lemma require_id_users {A} u (m : AuthM A) us (Q : bool -> gmap string user_row -> Prop) :
  Q false us -> hoare (auth_users_are us) m (fun t r => Q (is_ok r) (au_users t)) ->
  hoare (auth_users_are us) (require_id u m) (fun t r => Q (is_ok r) (au_users t)).
Proof. intros Hq0 Hm. unfold require_id. destruct (bool_decide _); [|done]. intros c Hc. unfold auth_users_are in Hc. cbn. by rewrite Hc. Qed.
Lemma role_write_users u role us :
  hoare (users_are us) (role_write u (Some role)) (fun w r => updated us u (set_role role) (is_ok r) (au_users (lw_auth w))).
Proof.
  apply call_users, require_id_users; [done|]. destruct (_ && _); [intros c Hc; exact Hc|]. apply update_user_users.
Qed.
Lemma disabled_write_users u d us :
  hoare (users_are us) (disabled_write u d)
    (fun w r => exists ok, updated us u (set_disabled (if d : bool then 1 else 0)) ok (au_users (lw_auth w))).
Proof.
  apply hoare_bind with (R := fun w r => updated us u (set_disabled (if d then 1 else 0)) (is_ok r) (au_users (lw_auth w))).
  - apply (call_users _ _ us (updated us u (set_disabled (if d then 1 else 0)))), require_id_users; [done|]. apply update_user_users.
  - intros [] c Hc. exists true. cbn [is_ok] in Hc. destruct d; [|exact Hc]. unfold db_bind, db_try.
    assert (Hp : preserves (auth_users_are (au_users (lw_auth (tables c)))) (DeleteAllForUser u "")).
    { unfold DeleteAllForUser. cbv zeta. preserve; apply preserves_exec; by intros t t' [] Ht [= <-]. }
    pose proof (users_auth _ _ Hp c eq_refl) as Hu. unfold users_are in Hu. destruct (on_auth _ c) as [c1 r1]. cbn in *. by rewrite Hu.
  - intros w e Hw. by exists false.
Qed.
Lemma delete_write_users u us :
  hoare (users_are us) (delete_write u) (fun w r => au_users (lw_auth w) = us \/ au_users (lw_auth w) = delete (TrimSpace_s u) us).
Proof.
  apply (call_users _ _ us (fun _ us' => us' = us \/ us' = delete (TrimSpace_s u) us)).
  apply (require_id_users _ _ us (fun _ us' => us' = us \/ us' = delete (TrimSpace_s u) us)); [by left|].
  intros c Hc. unfold db_bind, db_exec, db_call, auth_users_are in *.
  destruct (faults c) as [|[msg|] fs]; cbn; [|by left|];
    (destruct (au_users (tables c) !! TrimSpace_s u); cbn; [right; by rewrite Hc|by left]).
Qed.
Lemma name_write_users u target name us :
  hoare (users_are us) (name_write u target name) (fun w r => admins_kept us (au_users (lw_auth w))).
Proof.
  unfold name_write. cbv zeta. assert (Hsame : forall w, users_are us w -> admins_kept us (au_users (lw_auth w))) by (by intros w ->).
  destruct (_ || _); [by intros c Hc; apply Hsame|]. destruct (bool_decide _); [by intros c Hc; apply Hsame|].
  apply (call_users _ _ us (fun _ us' => admins_kept us us')).
  assert (preserves (fun t => admins_kept us (au_users t)) (UpdateUsername u (TrimSpace_s name))) as Hp.
  2: { intros c Hc. apply Hp. unfold auth_users_are in Hc. by rewrite Hc. }
  unfold UpdateUsername. cbv zeta. preserve. apply preserves_exec. intros t t' n Hk.
  destruct (au_users t !! TrimSpace_s u) as [row|] eqn:Er; [|by intros [= <- <-]].
  destruct (bool_decide (others_named _ _ _ = 0%nat)); [|done]. intros [= <- <-]. intros v. cbn. rewrite <- (Hk v).
  destruct (decide (v = TrimSpace_s u)) as [->|]; [by rewrite lookup_insert_eq, Er|by rewrite lookup_insert_ne].
Qed.

(** ** The checks *)
Lemma role_check_two rq u target role us :
  hoare (users_are us) (role_check rq u target role) (fun w r => users_are us w /\
    forall x, r = Ok (Some x) -> x = RoleAdmin \/ two_admins us).
Proof.
  unfold role_check. cbv zeta. destruct (bool_decide_reflect (TrimSpace_s role <> RoleAdmin)) as [Hna|Ha]; cbn [andb].
  2: { assert (TrimSpace_s role = RoleAdmin) as -> by (destruct (decide (TrimSpace_s role = RoleAdmin)); [done|by destruct Ha]).
       destruct (bool_decide _); [by intros c Hc|]. intros c Hc. split; [done|]. intros x [= <-]. by left. }
  destruct (bool_decide_reflect (TrimSpace_s role <> RoleUser)) as [|Hu]; [by intros c Hc|].
  assert (TrimSpace_s role = RoleUser) as -> by (destruct (decide (TrimSpace_s role = RoleUser)); [done|by destruct Hu]).
  destruct (bool_decide _); [by intros c Hc|]. rewrite bool_decide_true by done.
  apply hoare_bind with (R := fun w _ => users_are us w); [apply currentUserID_users| |by intros w e Hw].
  intros me. destruct (bool_decide _); [by intros c Hc|].
  eapply hoare_bind; [apply countAdmins_two| |intros w e [Hw _]; by split].
  intros n c [Hc Hn]. destruct (bool_decide_reflect (n <= 1)%nat); [by split|]. split; [done|]. intros x _. right.
  apply (Hn n); [done|lia].
Qed.
Lemma disabled_check_two rq u role d us :
  hoare (users_are us) (disabled_check rq u role d) (fun w r => users_are us w /\
    (r = Ok tt -> d = false \/ role <> RoleAdmin \/ two_admins us)).
Proof.
  unfold disabled_check. destruct d; [|intros c Hc; split; [done|by left]].
  apply hoare_bind with (R := fun w _ => users_are us w); [apply currentUserID_users| |by intros w e Hw].
  intros me. destruct (bool_decide _); [by intros c Hc|].
  destruct (bool_decide_reflect (role = RoleAdmin)) as [Heq|Hr]; [|intros c Hc; split; [done|by right; left]].
  eapply hoare_bind; [apply countAdmins_two| |intros w e [Hw _]; by split].
  intros n c [Hc Hn]. destruct (bool_decide_reflect (n <= 1)%nat); [by split|]. split; [done|]. intros _. right. right.
  apply (Hn n); [done|lia].
Qed.
Lemma delete_check_two rq u us :
  hoare (users_are us) (delete_check rq u) (fun w r => users_are us w /\
    (r = Ok tt -> two_admins us \/ exists row, us !! TrimSpace_s u = Some row /\ ~ is_admin row)).
Proof.
  unfold delete_check. cbv zeta.
  apply hoare_bind with (R := fun w _ => users_are us w); [apply requireAdmin_users| |by intros w e Hw]. intros _.
  destruct (bool_decide _); [by intros c Hc|].
  apply hoare_bind with (R := fun w _ => users_are us w); [apply currentUserID_users| |by intros w e Hw]. intros me.
  destruct (bool_decide _); [by intros c Hc|].
  eapply hoare_bind; [apply GetByID_target| |intros w e [Hw _]; by split].
  intros target c [Hc Ht]. destruct (Ht target eq_refl) as (row & Hrow & ->). cbn [u_Role scan_user].
  destruct (bool_decide_reflect (ur_role row = RoleAdmin)) as [Heq|Hr].
  2: { split; [done|]. intros _. right. exists row. split; [done|]. by intros [? _]. }
  revert c Hc. change (hoare (users_are us) (let* n := countAdmins in
    if bool_decide (n <= 1)%nat then db_throw (Http 409 "users.lastAdmin") else db_ret tt) (fun w r => users_are us w /\
    (r = Ok tt -> two_admins us \/ exists row, us !! TrimSpace_s u = Some row /\ ~ is_admin row))).
  eapply hoare_bind; [apply countAdmins_two| |intros w e [Hw _]; by split].
  intros n c [Hc Hn]. destruct (bool_decide_reflect (n <= 1)%nat); [by split|]. split; [done|]. intros _. left.
  apply (Hn n); [done|lia].
Qed.

(** ** One request after the other *)
Definition admin_left (w : login_world) : Prop := some_admin (au_users (lw_auth w)).
Lemma hoare_users {A} (m : LoginM A) :
  (forall us, some_admin us -> hoare (users_are us) m (fun w _ => admin_left w)) -> preserves admin_left m.
Proof. intros Hm c Hc. by apply (Hm _ Hc c). Qed.
Lemma users_admin_left us w : some_admin us -> users_are us w -> admin_left w.
Proof. unfold admin_left. by intros Ha ->. Qed.

Lemma handleDeleteUser_keeps rq u : preserves admin_left (handleDeleteUser rq u).
Proof.
  apply hoare_users. intros us Ha. unfold handleDeleteUser.
  eapply hoare_bind; [apply delete_check_two| |intros w e [Hw _]; by eapply users_admin_left].
  intros [] c [Hc Htwo]. destruct (delete_write_users u us c Hc) as [E|E]; unfold admin_left; rewrite E; [done|].
  apply some_admin_delete; [done|]. by apply Htwo.
Qed.
(** The last part of an update, from rows in which the role is known. *)
Lemma disable_part_keeps rq u d role us row :
  some_admin us -> us !! u = Some row -> ur_role row = role ->
  hoare (users_are us) (let* _ := disabled_check rq u role d in disabled_write u d) (fun w _ => admin_left w).
Proof.
  intros Ha Hrow Hrole. eapply hoare_bind; [apply disabled_check_two| |intros w e [Hw _]; by eapply users_admin_left].
  intros [] c [Hc Htwo]. destruct (disabled_write_users u d us c Hc) as [[] Hu]; unfold admin_left; cbn in Hu.
  2: { by rewrite Hu. }
  destruct Hu as (r & Hr & ->). rewrite Hrow in Hr. injection Hr as <-. apply some_admin_insert; [done|].
  destruct (decide (is_admin row)) as [Hadm|Hn]; [|by right; right; exists row].
  destruct (Htwo eq_refl) as [->|[Hne|?]]; [|by destruct Hadm; congruence|by right; left].
  left. split; [by destruct Hadm|done].
Qed.
Lemma update_tail_keeps rq v target name disabled us role row :
  some_admin us -> us !! v = Some row -> ur_role row = role ->
  hoare (users_are us) (
    let* _ := match name with None => db_ret tt | Some name => name_write v target name end in
    match disabled with
    | None => db_ret tt
    | Some d =>
        if bool_decide (d = u_Disabled target) then db_ret tt else
        let* _ := disabled_check rq v role d in disabled_write v d
    end) (fun w _ => admin_left w).
Proof.
  intros Ha Hrow Hrole.
  apply hoare_bind with (R := fun w _ => admins_kept us (au_users (lw_auth w))).
  { destruct name; [apply name_write_users|by intros c ->]. }
  2: { intros w e Hk. by apply (admins_kept_some us). }
  intros _ c Hk. destruct (admins_kept_lookup _ _ _ _ Hk Hrow) as (row2 & Hrow2 & Hr2 & _).
  pose proof (admins_kept_some _ _ Hk Ha) as Ha2.
  destruct disabled as [d|]; [|done]. destruct (bool_decide _); [done|].
  apply (disable_part_keeps rq v d role _ row2 Ha2 Hrow2); [congruence|done].
Qed.
Lemma handleUpdateUser_keeps rq u body : preserves admin_left (handleUpdateUser rq u body).
Proof.
  apply hoare_users. intros us Ha. unfold handleUpdateUser. cbv zeta. set (v := TrimSpace_s u).
  assert (Herr : forall w, users_are us w -> admin_left w) by (intros w Hw; by eapply users_admin_left).
  apply hoare_bind with (R := fun w _ => users_are us w); [apply requireAdmin_users| |intros w e Hw; by apply Herr]. intros _.
  destruct (bool_decide _); [intros c Hc; by apply Herr|]. destruct body as [req|]; [|intros c Hc; by apply Herr].
  eapply hoare_bind; [apply GetByID_target| |intros w e [Hw _]; by apply Herr].
  intros target c [Hc Ht]. destruct (Ht target eq_refl) as (row & Hrow & ->). revert c Hc.
  match goal with |- forall c, _ -> admin_left (tables (?m c).1) => change (hoare (users_are us) m (fun w _ => admin_left w)) end.
  apply hoare_bind with (R := fun w r => users_are us w /\ forall x, r = Ok (Some x) -> x = RoleAdmin \/ two_admins us).
  { destruct (uu_Role req); [apply role_check_two|by intros c Hc]. }
  2: { intros w e [Hw _]. by apply Herr. }
  intros new_role c [Hc Hnew]. revert c Hc.
  match goal with |- forall c, _ -> admin_left (tables (?m c).1) => change (hoare (users_are us) m (fun w _ => admin_left w)) end.
  apply hoare_bind with (R := fun w r => admin_left w /\ forall x, r = Ok x ->
    exists row1, au_users (lw_auth w) !! v = Some row1 /\ ur_role row1 = default (ur_role row) new_role).
  { destruct new_role as [role|]; [|by intros c Hc; split; [by apply Herr|]; intros _ _; unfold users_are in Hc; cbn; rewrite Hc; exists row].
    intros c Hc. pose proof (role_write_users v role us c Hc) as Hu. destruct (role_write _ _ c) as [c1 [[]|e]]; cbn in *.
    2: { split; [by apply Herr|done]. }
    destruct Hu as (r & Hr & Hus). rewrite Hrow in Hr. injection Hr as <-. unfold admin_left. rewrite Hus. split.
    - apply some_admin_insert; [done|]. destruct (decide (is_admin row)) as [Hadm|]; [|by right; right; exists row].
      destruct (Hnew role eq_refl) as [->|?]; [|by right; left]. left. by destruct Hadm.
    - intros x _. exists (set_role role row). by rewrite lookup_insert_eq. }
  2: { by intros w e [Hw _]. }
  intros [] c [Hadm Hrow1]. destruct (Hrow1 tt eq_refl) as (row1 & Hr1 & Hrole1). clear Hrow1.
  by apply (update_tail_keeps rq v (scan_user v row) (uu_Username req) (uu_Disabled req) _ _ row1 Hadm Hr1 Hrole1 c).
Qed.

(** Requests of administrators, one after the other. *)
Inductive admin_request :=
| RCreate (rq : request) (body : option createUserRequest) (salt : result string (list Z))
| RUpdate (rq : request) (u : string) (body : option updateUserRequest)
| RDelete (rq : request) (u : string)
| RTags (rq : request) (u : string) (tags : option (list string)).
Definition admin_exec (r : admin_request) (c : conn login_world) : conn login_world :=
  match r with
  | RCreate rq body salt => (handleCreateUser rq body salt c).1
  | RUpdate rq u body => (handleUpdateUser rq u body c).1
  | RDelete rq u => (handleDeleteUser rq u c).1
  | RTags rq u tags => (handleSetUserTags rq u tags c).1
  end.
Lemma on_auth_admins {A} (m : AuthM A) : preserves (fun t => some_admin (au_users t)) m -> preserves admin_left (on_auth m).
Proof. intros Hm c Hc. unfold on_auth, db_zoom. specialize (Hm (mkConn (configured c) (lw_auth (tables c)) (faults c)) Hc). by destruct (m _). Qed.
Lemma requireAdmin_keeps rq n : preserves admin_left (requireAdmin rq n).
Proof. apply hoare_users. intros us Ha c Hc. eapply users_admin_left; [exact Ha|]. by apply requireAdmin_users. Qed.
Lemma handleCreateUser_keeps rq body salt : preserves admin_left (handleCreateUser rq body salt).
Proof.
  unfold handleCreateUser. cbv zeta. apply preserves_bind; [apply requireAdmin_keeps|]. intros _.
  destruct body as [req|]; preserve. apply preserves_call, on_auth_admins. unfold CreateUser. cbv zeta. preserve.
  apply preserves_exec. intros t t' [] Ha. destruct (au_users t !! _) eqn:E; [done|]. destruct (find_user _ _); [done|].
  intros [= <-]. destruct Ha as (v & r & Hv & Hr). exists v, r. split; [|done]. cbn. rewrite lookup_insert_ne; [done|congruence].
Qed.
Lemma insert_tags_admins u tags : preserves (fun t => some_admin (au_users t)) (insert_tags u tags).
Proof.
  induction tags; cbn [insert_tags]; preserve; [|done]. apply preserves_exec. intros t t' [] Ht.
  repeat case_match; intros [= <-]; done.
Qed.
Lemma handleSetUserTags_keeps rq u tags : preserves admin_left (handleSetUserTags rq u tags).
Proof.
  unfold handleSetUserTags. cbv zeta. apply preserves_bind; [apply requireAdmin_keeps|]. intros _. preserve.
  apply preserves_call, on_auth_admins. unfold SetUserTags, require_user. preserve; [|apply insert_tags_admins].
  apply preserves_exec. by intros t t' [] Ht [= <-].
Qed.

(** C22. An enabled administrator remains: no sequence of user-administration
    requests, whoever sends them and whatever statements fail, removes, demotes
    or disables the last one. *)
Theorem last_admin_stays reqs c :
  admin_left (tables c) -> admin_left (tables (foldl (fun c r => admin_exec r c) c reqs)).
Proof.
  revert c. induction reqs as [|r reqs IH]; intros c Hc; [done|]. cbn [foldl]. apply IH.
  destruct r; cbn [admin_exec].
  - by apply handleCreateUser_keeps.
  - by apply handleUpdateUser_keeps.
  - by apply handleDeleteUser_keeps.
  - by apply handleSetUserTags_keeps.
Qed.

(** ** Two requests at the same time *)
Lemma countAdmins_many w a b ra rb :
  au_users (lw_auth w) !! a = Some ra -> au_users (lw_auth w) !! b = Some rb -> a <> b -> is_admin ra -> is_admin rb ->
  (size (au_users (lw_auth w)) <= 1000)%nat ->
  exists n, countAdmins (connect w) = (connect w, Ok n) /\ (2 <= n)%nat.
Proof.
  intros Ha Hb Hne Aa Ab Hsize.
  set (rows := sort_stable by_username (map_to_list (au_users (lw_auth w)))).
  assert (HL : ListUsers 1000 0 (connect (lw_auth w)) = (connect (lw_auth w), Ok ((fun kv => scan_user kv.1 kv.2) <$> take 1000 rows))).
  { unfold ListUsers. cbv zeta. rewrite bind_query by done. reflexivity. }
  assert (Hlen : length rows = size (au_users (lw_auth w))) by (unfold rows; by rewrite sort_stable_perm, length_map_to_list).
  rewrite take_ge in HL by lia.
  exists (length (filter (fun u => enabled_admin u = true) ((fun kv : string * user_row => scan_user kv.1 kv.2) <$> rows))). split.
  - unfold countAdmins. rewrite (bind_call_auth _ _ _ w _ _ HL), put_auth_same. reflexivity.
  - assert (Hin : forall v r, au_users (lw_auth w) !! v = Some r -> is_admin r ->
      scan_user v r ∈ filter (fun u => enabled_admin u = true) ((fun kv : string * user_row => scan_user kv.1 kv.2) <$> rows)).
    { intros v r Hv [Hr Hd]. apply list_elem_of_filter. split.
      - unfold enabled_admin, scan_user. cbn. by rewrite Hr, Hd.
      - apply list_elem_of_fmap. exists (v, r). split; [done|]. unfold rows. rewrite elem_of_sort_stable. by apply elem_of_map_to_list. }
    apply (submseteq_length [scan_user a ra; scan_user b rb]). apply NoDup_submseteq.
    + apply NoDup_cons. split; [|apply NoDup_singleton]. intros [= Hx]%list_elem_of_singleton. done.
    + intros x [->|[->|[]%elem_of_nil]%elem_of_cons]%elem_of_cons; by apply Hin.
Qed.
Lemma role_write_run w u row role :
  au_users (lw_auth w) !! u = Some row -> TrimSpace_s u <> ""%string -> role = RoleAdmin \/ role = RoleUser ->
  role_write u (Some role) (connect w) = (connect (put_auth (set_row u (set_role role row) (lw_auth w)) w), Ok tt).
Proof.
  intros Hrow Htrim Hrole. unfold role_write, call.
  assert (HU : UpdateRole u role (connect (lw_auth w)) = (connect (set_row u (set_role role row) (lw_auth w)), Ok tt)).
  { unfold UpdateRole, require_id. rewrite bool_decide_false by done.
    replace (bool_decide (role <> RoleAdmin) && bool_decide (role <> RoleUser)) with false by (by destruct Hrole as [->| ->]).
    unfold update_user. rewrite bind_exec by done. cbn [tables connect]. by rewrite Hrow. }
  by rewrite (bind_try_auth _ _ w _ _ HU).
Qed.
Lemma role_check_run w rq u row me n :
  currentUserID rq 2 (connect w) = (connect w, Ok me) -> u <> me -> ur_role row = RoleAdmin ->
  countAdmins (connect w) = (connect w, Ok n) -> (2 <= n)%nat ->
  role_check rq u (scan_user u row) RoleUser (connect w) = (connect w, Ok (Some RoleUser)).
Proof.
  intros Hme Hne Hr Hn Hlen. unfold role_check. replace (TrimSpace_s RoleUser) with RoleUser by reflexivity. cbv zeta.
  replace (bool_decide (RoleUser <> RoleAdmin) && bool_decide (RoleUser <> RoleUser)) with false by reflexivity.
  unfold current_role. cbn [u_Role scan_user]. rewrite Hr. replace (bool_decide (RoleAdmin = ""%string)) with false by reflexivity.
  replace (bool_decide (RoleUser = RoleAdmin)) with false by reflexivity. replace (bool_decide (RoleUser = RoleUser)) with true by reflexivity.
  unfold db_bind at 1. rewrite Hme. rewrite bool_decide_false by done. unfold db_bind. rewrite Hn.
  by rewrite bool_decide_false by lia.
Qed.

(** Two administrators who demote each other at the same time leave the
    gateway without one: the count and the update are separate statements, so
    both checks can see two administrators before either write. *)
Theorem concurrent_demotions_lose_all_admins w a b ra rb rqA rqB :
  au_users (lw_auth w) !! a = Some ra -> au_users (lw_auth w) !! b = Some rb -> a <> b -> is_admin ra -> is_admin rb ->
  (forall v r, au_users (lw_auth w) !! v = Some r -> is_admin r -> v = a \/ v = b) ->
  (size (au_users (lw_auth w)) <= 1000)%nat -> TrimSpace_s a <> ""%string -> TrimSpace_s b <> ""%string ->
  currentUserID rqA 2 (connect w) = (connect w, Ok a) -> currentUserID rqB 2 (connect w) = (connect w, Ok b) ->
  role_check rqA b (scan_user b rb) RoleUser (connect w) = (connect w, Ok (Some RoleUser)) /\
  role_check rqB a (scan_user a ra) RoleUser (connect w) = (connect w, Ok (Some RoleUser)) /\
  exists w', (let* _ := role_write b (Some RoleUser) in role_write a (Some RoleUser)) (connect w) = (connect w', Ok tt) /\ ~ admin_left w'.
Proof.
  intros Ha Hb Hne Aa Ab Hall Hsize Hta Htb HmeA HmeB.
  destruct (countAdmins_many w a b ra rb Ha Hb Hne Aa Ab Hsize) as (n & Hn & H2).
  split; [by eapply role_check_run; [exact HmeA|done|apply Ab|exact Hn|]|].
  split; [by eapply role_check_run; [exact HmeB|done|apply Aa|exact Hn|]|].
  unfold db_bind. rewrite (role_write_run w b rb) by auto.
  rewrite (role_write_run _ a ra); [|cbn; by rewrite lookup_insert_ne|done|by right].
  eexists. split; [reflexivity|]. intros (v & r & Hv & Hr & Hd). cbn in Hv.
  apply lookup_insert_Some in Hv as [[<- <-]|[Hva Hv]]; [done|].
  apply lookup_insert_Some in Hv as [[<- <-]|[Hvb Hv]]; [done|].
  by destruct (Hall v r Hv (conj Hr Hd)).
Qed.

(** A disabled administrator cannot be deleted while one enabled one is
    left: the rule that protects the last administrator counts the enabled
    accounts but applies to any target with the role. *)
Theorem disabled_admin_undeletable w rq u row me :
  requireAdmin rq 0 (connect w) = (connect w, Ok tt) -> currentUserID rq 2 (connect w) = (connect w, Ok me) ->
  TrimSpace_s u = u -> u <> ""%string -> u <> TrimSpace_s me ->
  au_users (lw_auth w) !! u = Some row -> ur_role row = RoleAdmin -> ur_disabled row <> 0 ->
  countAdmins (connect w) = (connect w, Ok 1%nat) ->
  handleDeleteUser rq u (connect w) = (connect w, Err (Http 409 "users.lastAdmin")).
Proof.
  intros Hadm Hme Htrim Hne Hself Hrow Hrole Hdis Hn. unfold handleDeleteUser, delete_check. cbv zeta. rewrite Htrim.
  unfold db_bind at 1 2. rewrite Hadm, bool_decide_false by done. unfold db_bind at 1. rewrite Hme, bool_decide_false by done.
  pose proof (GetByID_healthy u (lw_auth w)) as Hg. rewrite Hrow in Hg.
  rewrite (bind_call_auth _ _ _ w _ _ Hg), put_auth_same. cbn [u_Role scan_user]. rewrite Hrole, bool_decide_true by done.
  unfold db_bind. by rewrite Hn.
Qed.

(** Only the first account with a name outside ASCII can be created without
    an explicit id: the id derived from such a name is "target" whatever the
    name is, and the second account is refused as already existing. *)
Theorem slug_of_foreign_names s : Forall (fun b => 128 <= b) (bs s) -> slugID s = "target"%string.
Proof.
  intros Hs. unfold slugID. assert (Hf : foldl slug_step [] (bs s) = []).
  { induction Hs as [|b l Hb Hl IH]; [done|]. cbn [foldl]. assert (slug_step [] b = []) as ->; [|exact IH].
    unfold slug_step. replace ((65 <=? b) && (b <=? 90)) with false by lia.
    replace (((97 <=? b) && (b <=? 122)) || ((48 <=? b) && (b <=? 57))) with false by lia. by destruct (_ || _). }
  by rewrite Hf.
Qed.
End admin.

(** ** Examples *)
Definition two_admin_world : login_world :=
  mkLogin (with_sessions (set_row "u2" (mkUserRow "bob" "$2a$pw" "admin" "" 0 0) (set_row "u1" (mkUserRow "alice" "$2a$pw" "admin" "" 0 0) no_accounts))
    {[hashSessionToken "01" := mkSessionRow "u1" 0 1000; hashSessionToken "02" := mkSessionRow "u2" 0 1000]}) None (Some ∅).
Definition rq_as (cookie : string) : request := mkRequest "10.0.0.9" true cookie None (fun n => 10 + Z.of_nat n).
Lemma last_admin_stays_witness :
  let c := foldl (fun c r => admin_exec r c) (connect two_admin_world)
    [RUpdate (rq_as "01") "u2" (Some (mkUpdateUser (Some "user"%string) None None)); RDelete (rq_as "01") "u2"; RDelete (rq_as "01") "u1"] in
  au_users (lw_auth (tables c)) !! "u2"%string = None /\ admin_left (tables c).
Proof.
  split; [vm_compute; reflexivity|]. apply last_admin_stays.
  exists "u1"%string, (mkUserRow "alice" "$2a$pw" "admin" "" 0 0). vm_compute. done.
Defined.
Lemma concurrent_demotions_lose_all_admins_witness :
  exists w', (let* _ := role_write "u2" (Some RoleUser) in role_write "u1" (Some RoleUser)) (connect two_admin_world) = (connect w', Ok tt) /\ ~ admin_left w'.
Proof.
  refine (proj2 (proj2 (concurrent_demotions_lose_all_admins two_admin_world "u1" "u2" (mkUserRow "alice" "$2a$pw" "admin" "" 0 0)
    (mkUserRow "bob" "$2a$pw" "admin" "" 0 0) (rq_as "01") (rq_as "02") _ _ _ _ _ _ _ _ _ _ _))); try (vm_compute; reflexivity).
  - discriminate.
  - split; reflexivity.
  - split; reflexivity.
  - intros v r Hv _. cbn in Hv. apply lookup_insert_Some in Hv as [[<- _]|[_ Hv]]; [by right|].
    apply lookup_insert_Some in Hv as [[<- _]|[_ Hv]]; [by left|]. by rewrite lookup_empty in Hv.
  - vm_compute. repeat constructor.
  - vm_compute. discriminate.
  - vm_compute. discriminate.
Defined.
Definition disabled_admin_world : login_world :=
  mkLogin (with_users (lw_auth two_admin_world) (<["u2"%string := mkUserRow "bob" "$2a$pw" "admin" "" 0 1]> (au_users (lw_auth two_admin_world)))) None (Some ∅).
Lemma disabled_admin_undeletable_witness :
  handleDeleteUser (rq_as "01") "u2" (connect disabled_admin_world) = (connect disabled_admin_world, Err (Http 409 "users.lastAdmin")).
Proof.
  apply (disabled_admin_undeletable disabled_admin_world (rq_as "01") "u2" (mkUserRow "bob" "$2a$pw" "admin" "" 0 1) "u1");
    try (vm_compute; reflexivity); vm_compute; discriminate.
Defined.
Lemma slug_of_foreign_names_witness : slugID (str_of [230; 151; 165]) = "target"%string.
Proof. apply slug_of_foreign_names. apply (bool_decide_eq_true_1 _). vm_compute. reflexivity. Defined.
