(* ===== verification/AccessGroups.v ===== *)
(** The access group store: memberships, the hierarchy, tags, and who may reach
    which target (src/internal/access/sqlite_store.go), with the ACL helpers of
    the HTTP layer (src/internal/httpapi/auth_helpers.go).

    [now] is the clock the store reads. The query timeouts only bound how long
    a statement may take; a statement that times out is one that fails. *)
From S2P Require Import Prelude GoText Sqlite AccessValidate AccessDB.
Local Open Scope Z_scope.

Record AccessGroup := mkGroup { g_ID : string; g_Name : string }.
Record Membership := mkMembership { mb_UserID : string; mb_ExpiresAt : option time; mb_Expired : bool }.
Definition DefaultListLimit : Z := 100.

Definition activeMembership (e : option Z) (now : time) : bool :=
  match e with None => true | Some x => Unix now <? x end.

(** ** Groups *)
Definition Create (id name : string) : AccessM AccessGroup :=
  let* _ := db_of (validateGroupID id) in
  let* _ := db_of (validateName name) in
  let* r := db_catch (db_exec (fun t =>
    match access_groups t !! id with
    | Some _ => Err unique_failed
    | None => Ok (with_groups t (<[id := name]> (access_groups t)), tt)
    end)) in
  match r with Ok _ => db_ret (mkGroup id name) | Err _ => db_throw ErrGroupExists end.
Definition Get (id : string) : AccessM AccessGroup :=
  let* row := db_query (fun t => access_groups t !! id) in
  match row with None => db_throw ErrGroupNotFound | Some name => db_ret (mkGroup id name) end.
Definition Update (id name : string) : AccessM AccessGroup :=
  let* _ := db_of (validateGroupID id) in
  let* _ := db_of (validateName name) in
  let* n := db_exec (fun t =>
    match access_groups t !! id with
    | Some _ => Ok (with_groups t (<[id := name]> (access_groups t)), 1)
    | None => Ok (t, 0)
    end) in
  if n =? 0 then db_throw ErrGroupNotFound else db_ret (mkGroup id name).

Definition direct_targets (t : access_tables) (id : string) : list string :=
  omap (fun gt => if decide (gt.1 = id) then Some gt.2 else None) (elements (group_targets t)).
(** [SELECT COUNT]... [WHERE id LIKE ? ESCAPE '\'] *)
Definition like_children (t : access_tables) (id : string) : list string :=
  filter (fun g => sql_like (escapeLikePrefix (bs id) ++ [slash; 37]) (bs g) = true) (map_to_list (access_groups t)).*1.
Definition Delete (id : string) : AccessM unit :=
  let* _ := db_of (validateGroupID id) in
  let* targetCount := db_query (fun t => length (direct_targets t id)) in
  if decide (0 < targetCount)%nat then db_throw ErrGroupNotEmpty
  else
    let* childCount := db_query (fun t => length (like_children t id)) in
    if decide (0 < childCount)%nat then db_throw ErrGroupNotEmpty
    else
      let* n := db_exec (fun t =>
        match access_groups t !! id with
        | Some _ => Ok (delete_group id t, 1)
        | None => Ok (t, 0)
        end) in
      if n =? 0 then db_throw ErrGroupNotFound else db_ret tt.

(** [SELECT 1 FROM access_groups WHERE id = ?] *)
Definition require_group (id : string) : AccessM unit :=
  let* row := db_query (fun t => access_groups t !! id) in
  match row with None => db_throw ErrGroupNotFound | Some _ => db_ret tt end.

(** ** Members *)
Definition AddUserToGroupUntil (userID groupID : string) (expiresAt : option time) : AccessM unit :=
  db_tx (
    let* _ := require_group groupID in
    db_exec (fun t =>
      if decide (userID ∈ users t /\ is_Some (access_groups t !! groupID))
      then Ok (with_user_groups t (<[(userID, groupID) := Unix <$> expiresAt]> (user_groups t)), tt)
      else Err fk_failed)).
Definition AddUserToGroup (userID groupID : string) : AccessM unit := AddUserToGroupUntil userID groupID None.
Definition RemoveUserFromGroup (userID groupID : string) : AccessM unit :=
  let* _ := require_group groupID in
  db_exec (fun t => Ok (with_user_groups t (delete (userID, groupID) (user_groups t)), tt)).

Definition members (t : access_tables) (groupID : string) : list (string * option Z) :=
  omap (fun kv : string * string * option Z => if decide (kv.1.2 = groupID) then Some (kv.1.1, kv.2) else None)
    (map_to_list (user_groups t)).
Definition by_user (a b : string * option Z) : bool := string_lt a.1 b.1.
Definition MembershipsForGroup (groupID : string) (now : time) : AccessM (list Membership) :=
  let* rows := db_query (fun t => sort_stable by_user (members t groupID)) in
  db_ret ((fun ue : string * option Z =>
             match ue.2 with
             | None => mkMembership ue.1 None false
             | Some e => mkMembership ue.1 (Some (time_Unix e)) (negb (After (time_Unix e) now))
             end) <$> rows).
Definition PurgeExpiredMemberships (olderThan : time) : AccessM Z :=
  db_exec (fun t =>
    let dead (e : option Z) := match e with Some x => x <? Unix olderThan | None => false end in
    Ok (with_user_groups t (filter (fun kv => dead kv.2 = false) (user_groups t)),
        Z.of_nat (size (filter (fun kv => dead kv.2 = true) (user_groups t))))).
Definition UserIDsForGroup (groupID : string) (opts : option ListOpts) (dflt : Z) (now : time)
    : AccessM (list string) :=
  db_query (fun t => sql_page opts dflt
    (sort_strings (filter (fun ue : string * option Z => activeMembership ue.2 now = true) (members t groupID)).*1)).

(** ** Targets of groups *)
Definition AddTargetToGroup (groupID targetID : string) : AccessM unit :=
  db_tx (
    let* _ := require_group groupID in
    db_exec (fun t =>
      if decide ((groupID, targetID) ∈ group_targets t) then Ok (t, tt)
      else if decide (is_Some (access_groups t !! groupID) /\ is_Some (targets t !! targetID))
      then Ok (with_group_targets t (group_targets t ∪ {[(groupID, targetID)]}), tt)
      else Err fk_failed)).
Definition RemoveTargetFromGroup (groupID targetID : string) : AccessM unit :=
  let* _ := require_group groupID in
  db_exec (fun t => Ok (with_group_targets t (group_targets t ∖ {[(groupID, targetID)]}), tt)).
Definition groups_of_target (t : access_tables) (targetID : string) : list string :=
  omap (fun gt => if decide (gt.2 = targetID) then Some gt.1 else None) (elements (group_targets t)).
Definition GroupIDsForTarget (targetID : string) : AccessM (list string) :=
  db_query (fun t => sort_strings (groups_of_target t targetID)).
Definition TargetIDsForGroup (groupID : string) (opts : option ListOpts) (dflt : Z) : AccessM (list string) :=
  db_query (fun t => sql_page opts dflt (sort_strings (direct_targets t groupID))).
Definition AllGroupIDs (opts : option ListOpts) (dflt : Z) : AccessM (list string) :=
  db_query (fun t => sql_page opts dflt (sort_strings (map_to_list (access_groups t)).*1)).

(** ** Tags *)
Definition tags_of (X : gset (string * string)) (id : string) : list string :=
  omap (fun it => if decide (it.1 = id) then Some it.2 else None) (elements X).
Definition TagsForGroup (groupID : string) : AccessM (list string) :=
  db_query (fun t => sort_strings (tags_of (group_tags t) groupID)).
Section set_tags.
Context `{UnicodeTables}.
Definition validate_tags (tags : list string) : result access_err unit :=
  foldr (fun tag k => let? _ := validateTag tag in k) (Ok tt) tags.
(** The INSERT loop; a repeated tag violates the primary key. *)
Fixpoint insert_group_tags (groupID : string) (tags : list string) : AccessM unit :=
  match tags with
  | [] => db_ret tt
  | tag :: tags =>
      let* _ := db_exec (fun t =>
        if decide ((groupID, tag) ∈ group_tags t) then Err unique_failed
        else if decide (is_Some (access_groups t !! groupID))
        then Ok (with_group_tags t (group_tags t ∪ {[(groupID, tag)]}), tt) else Err fk_failed) in
      insert_group_tags groupID tags
  end.
Definition SetGroupTags (groupID : string) (tags : list string) : AccessM unit :=
  let* _ := db_of (validate_tags tags) in
  db_tx (
    let* _ := require_group groupID in
    let* _ := db_exec (fun t => Ok (with_group_tags t (filter (fun gt => gt.1 <> groupID) (group_tags t)), tt)) in
    insert_group_tags groupID tags).
End set_tags.

(** ** Who may reach what *)

(** The groups a user's active memberships and tags name. *)
Definition active_groups (t : access_tables) (u : string) (now : time) : list string :=
  omap (fun kv : string * string * option Z =>
          if decide (kv.1.1 = u /\ activeMembership kv.2 now = true) then Some kv.1.2 else None)
    (map_to_list (user_groups t)).
Definition tagged_groups (t : access_tables) (u : string) : list string :=
  omap (fun gt => if decide ((u, gt.2) ∈ user_tags t) then Some gt.1 else None) (elements (group_tags t)).
Definition covered (gs : list string) (g : string) : bool := existsb (descendantOrSelf g) gs.

(** The three queries of [TargetIDsForUser]. *)
Definition targets_by_groups (t : access_tables) (gs : list string) : gset string :=
  list_to_set (omap (fun gt => if covered gs gt.1 then Some gt.2 else None) (elements (group_targets t))).
Definition targets_by_tags (t : access_tables) (u : string) : gset string :=
  list_to_set (omap (fun tt => if decide ((u, tt.2) ∈ user_tags t) then Some tt.1 else None) (elements (target_tags t))).
Definition TargetIDsForUser `{SetScan} (u : string) (opts : option ListOpts) (dflt : Z) (now : time)
    : AccessM (list string) :=
  let* rows1 := db_query (fun t => limited (targets_by_groups t (active_groups t u now))) in
  let* rows2 := db_query (fun t => limited (targets_by_tags t u)) in
  let* rows3 := db_query (fun t => limited (targets_by_groups t (tagged_groups t u))) in
  db_ret (go_page opts dflt (sorted_ids (rows1 ∪ rows2 ∪ rows3))).

(** The three queries of [GroupIDsForUser]. *)
Definition groups_covered (t : access_tables) (gs : list string) : gset string :=
  list_to_set (filter (fun g => covered gs g = true) (map_to_list (access_groups t)).*1).
Definition groups_by_target_tags (t : access_tables) (u : string) : gset string :=
  list_to_set (omap (fun gt => if decide (gt.2 ∈ targets_by_tags t u) then Some gt.1 else None) (elements (group_targets t))).
Definition GroupIDsForUser `{SetScan} (u : string) (opts : option ListOpts) (dflt : Z) (now : time)
    : AccessM (list string) :=
  let* rows1 := db_query (fun t => limited (groups_covered t (active_groups t u now))) in
  let* rows2 := db_query (fun t => limited (groups_by_target_tags t u)) in
  let* rows3 := db_query (fun t => limited (groups_covered t (tagged_groups t u))) in
  db_ret (go_page opts dflt (sorted_ids (rows1 ∪ rows2 ∪ rows3))).

(** The reverse query. *)
Definition groups_reaching (t : access_tables) (targetID : string) (g : string) : bool :=
  existsb (fun g' => descendantOrSelf g' g) (groups_of_target t targetID).
Definition users_for_target (t : access_tables) (targetID : string) (now : time) : gset string :=
  list_to_set (omap (fun kv : string * string * option Z =>
      if groups_reaching t targetID kv.1.2 && activeMembership kv.2 now then Some kv.1.1 else None)
      (map_to_list (user_groups t))) ∪
  list_to_set (omap (fun ut => if decide ((targetID, ut.2) ∈ target_tags t) then Some ut.1 else None)
      (elements (user_tags t))) ∪
  list_to_set (omap (fun ut : string * string =>
      if existsb (fun gt : string * string => bool_decide (gt.2 = ut.2) && groups_reaching t targetID gt.1)
           (elements (group_tags t)) then Some ut.1 else None)
      (elements (user_tags t))).
Definition UserIDsForTarget (targetID : string) (opts : option ListOpts) (dflt : Z) (now : time)
    : AccessM (list string) :=
  let* all := db_query (fun t => sorted_ids (users_for_target t targetID now)) in
  db_ret (go_page opts dflt all).
Definition TagsGrantingTargetAccess (targetID : string) : AccessM (list string) :=
  db_query (fun t => sorted_ids (
    list_to_set (tags_of (target_tags t) targetID) ∪
    list_to_set (omap (fun gt => if groups_reaching t targetID gt.1 then Some gt.2 else None) (elements (group_tags t))))).

(** ** The ACL of the HTTP layer: nil options, so the store's default limit. *)
Definition allowedTargetIDSet `{SetScan} (u : string) (dflt : Z) (now : time) : AccessM (gset string) :=
  let* ids := TargetIDsForUser u None dflt now in db_ret (list_to_set ids).
Definition userCanAccessTarget `{SetScan} (u targetID : string) (dflt : Z) (now : time) : AccessM bool :=
  let* set := allowedTargetIDSet u dflt now in db_ret (bool_decide (targetID ∈ set)).

(** ** Specification of access *)
Inductive can_access (t : access_tables) (now : time) (u tid : string) : Prop :=
| access_member g g' e :
    user_groups t !! (u, g) = Some e -> activeMembership e now = true ->
    (g', tid) ∈ group_targets t -> descendantOrSelf g' g = true -> can_access t now u tid
| access_target_tag tag :
    (u, tag) ∈ user_tags t -> (tid, tag) ∈ target_tags t -> can_access t now u tid
| access_group_tag tag g g' :
    (u, tag) ∈ user_tags t -> (g, tag) ∈ group_tags t ->
    (g', tid) ∈ group_targets t -> descendantOrSelf g' g = true -> can_access t now u tid.

(** Membership in an [omap] over the rows of a table. *)
Lemma elem_of_omap_if {A B} (P : A -> Prop) `{forall x, Decision (P x)} (f : A -> B) (l : list A) b :
  b ∈ omap (fun a => if decide (P a) then Some (f a) else None) l <-> exists a, a ∈ l /\ P a /\ b = f a.
Proof.
  rewrite list_elem_of_omap. split.
  - intros (a & Ha & Hs). case_decide; [|done]. injection Hs as <-. eauto.
  - intros (a & Ha & HP & ->). exists a. by rewrite decide_True.
Qed.
Lemma elem_of_omap_test {A B} (P : A -> bool) (f : A -> B) (l : list A) b :
  b ∈ omap (fun a => if P a then Some (f a) else None) l <-> exists a, a ∈ l /\ P a = true /\ b = f a.
Proof.
  rewrite list_elem_of_omap. split.
  - intros (a & Ha & Hs). destruct (P a) eqn:E; [|done]. injection Hs as <-. eauto.
  - intros (a & Ha & HP & ->). exists a. by rewrite HP.
Qed.
Lemma covered_spec gs g : covered gs g = true <-> exists g0, g0 ∈ gs /\ descendantOrSelf g g0 = true.
Proof.
  unfold covered. rewrite existsb_exists. split; intros (x & Hx & Hd); exists x; split; try done; by apply list_elem_of_In.
Qed.
Lemma elem_active_groups t u now g :
  g ∈ active_groups t u now <-> exists e, user_groups t !! (u, g) = Some e /\ activeMembership e now = true.
Proof.
  unfold active_groups.
  rewrite (elem_of_omap_if (fun kv : string * string * option Z => kv.1.1 = u /\ activeMembership kv.2 now = true) (fun kv => kv.1.2)).
  split.
  - intros ([[u' g'] e] & Hin%elem_of_map_to_list & [Hu He] & ->). simpl in *. subst. eauto.
  - intros (e & Hl & He). exists ((u, g), e). rewrite elem_of_map_to_list. done.
Qed.
Lemma elem_tagged_groups t u g :
  g ∈ tagged_groups t u <-> exists tag, (u, tag) ∈ user_tags t /\ (g, tag) ∈ group_tags t.
Proof.
  unfold tagged_groups.
  rewrite (elem_of_omap_if (fun gt : string * string => (u, gt.2) ∈ user_tags t) fst). split.
  - intros ([g' tag] & Hin%elem_of_elements & Hu & ->). eauto.
  - intros (tag & Hu & Hg). exists (g, tag). rewrite elem_of_elements. done.
Qed.
Lemma elem_targets_by_groups t gs tid :
  tid ∈ targets_by_groups t gs <-> exists g g', g ∈ gs /\ (g', tid) ∈ group_targets t /\ descendantOrSelf g' g = true.
Proof.
  unfold targets_by_groups. rewrite elem_of_list_to_set.
  rewrite (elem_of_omap_test (fun gt : string * string => covered gs gt.1) snd). split.
  - intros ([g' tid'] & Hin%elem_of_elements & (g & Hg & Hd)%covered_spec & ->). eauto.
  - intros (g & g' & Hg & Hin & Hd). exists (g', tid). rewrite elem_of_elements. split; [done|].
    split; [|done]. apply covered_spec. eauto.
Qed.
Lemma elem_targets_by_tags t u tid :
  tid ∈ targets_by_tags t u <-> exists tag, (u, tag) ∈ user_tags t /\ (tid, tag) ∈ target_tags t.
Proof.
  unfold targets_by_tags. rewrite elem_of_list_to_set.
  rewrite (elem_of_omap_if (fun tt : string * string => (u, tt.2) ∈ user_tags t) fst). split.
  - intros ([tid' tag] & Hin%elem_of_elements & Hu & ->). eauto.
  - intros (tag & Hu & Ht). exists (tid, tag). rewrite elem_of_elements. done.
Qed.
(** The union of the three unlimited queries. *)
Definition accessible (t : access_tables) (u : string) (now : time) : gset string :=
  targets_by_groups t (active_groups t u now) ∪ targets_by_tags t u ∪ targets_by_groups t (tagged_groups t u).
Lemma elem_accessible t u now tid : tid ∈ accessible t u now <-> can_access t now u tid.
Proof.
  unfold accessible. rewrite !elem_of_union, !elem_targets_by_groups, elem_targets_by_tags. split.
  - intros [[(g & g' & (e & He & Ha)%elem_active_groups & Hin & Hd)|(tag & Hu & Ht)]|
            (g & g' & (tag & Hu & Hg)%elem_tagged_groups & Hin & Hd)].
    + by eapply access_member.
    + by eapply access_target_tag.
    + by eapply access_group_tag.
  - intros [g g' e He Ha Hin Hd|tag Hu Ht|tag g g' Hu Hg Hin Hd].
    + left; left. exists g, g'. rewrite elem_active_groups. eauto.
    + left; right. eauto.
    + right. exists g, g'. rewrite elem_tagged_groups. eauto.
Qed.
Lemma groups_reaching_spec t tid g :
  groups_reaching t tid g = true <-> exists g', (g', tid) ∈ group_targets t /\ descendantOrSelf g' g = true.
Proof.
  unfold groups_reaching, groups_of_target. rewrite existsb_exists. setoid_rewrite <- list_elem_of_In.
  setoid_rewrite (elem_of_omap_if (fun gt : string * string => gt.2 = tid) fst). split.
  - intros (g' & ([g1 t1] & Hin%elem_of_elements & Ht & ->) & Hd). simpl in *. subst. eauto.
  - intros (g' & Hin & Hd). exists g'. split; [|done]. exists (g', tid). rewrite elem_of_elements. done.
Qed.
Lemma elem_users_for_target t tid now u : u ∈ users_for_target t tid now <-> can_access t now u tid.
Proof.
  unfold users_for_target. rewrite !elem_of_union, !elem_of_list_to_set.
  rewrite (elem_of_omap_test (fun kv : string * string * option Z => groups_reaching t tid kv.1.2 && activeMembership kv.2 now) (fun kv => kv.1.1)).
  rewrite (elem_of_omap_if (fun ut : string * string => (tid, ut.2) ∈ target_tags t) fst).
  rewrite (elem_of_omap_test (fun ut : string * string => existsb (fun gt : string * string => bool_decide (gt.2 = ut.2) && groups_reaching t tid gt.1) (elements (group_tags t))) fst).
  setoid_rewrite existsb_exists. setoid_rewrite andb_true_iff. setoid_rewrite groups_reaching_spec.
  setoid_rewrite bool_decide_eq_true. setoid_rewrite <- list_elem_of_In. split.
  - intros [[([[u' g] e] & Hin%elem_of_map_to_list & [(g' & Hg & Hd) Ha] & ->)|
             ([u' tag] & Hin%elem_of_elements & Ht & ->)]|
            ([u' tag] & Hin%elem_of_elements & ([g tag'] & Hg%elem_of_elements & Heq & (g' & Hgt & Hd)) & ->)]; simpl in *.
    + by eapply access_member.
    + by eapply access_target_tag.
    + subst. by eapply access_group_tag.
  - intros [g g' e He Ha Hin Hd|tag Hu Ht|tag g g' Hu Hg Hin Hd].
    + left; left. exists ((u, g), e). rewrite elem_of_map_to_list. simpl. eauto 10.
    + left; right. exists (u, tag). rewrite elem_of_elements. done.
    + right. exists (u, tag). rewrite elem_of_elements. split; [done|]. split; [|done].
      exists (g, tag). rewrite elem_of_elements. simpl. eauto 10.
Qed.

(** ** What the queries return *)
Lemma query_run {A} (f : access_tables -> A) c :
  healthy c -> db_query (E:=access_err) f c = (c, Ok (f (tables c))).
Proof. intros [Hc Hf]. unfold db_query, db_exec, db_call, set_tables. rewrite Hf. by destruct c. Qed.
Definition branches_small (t : access_tables) (u : string) (now : time) : Prop :=
  (size (targets_by_groups t (active_groups t u now)) <= maxFanoutRowsPerQuery)%nat /\
  (size (targets_by_tags t u) <= maxFanoutRowsPerQuery)%nat /\
  (size (targets_by_groups t (tagged_groups t u)) <= maxFanoutRowsPerQuery)%nat.
Lemma TargetIDsForUser_run `{SetScan} c u opts dflt now :
  healthy c -> branches_small (tables c) u now ->
  TargetIDsForUser u opts dflt now c = (c, Ok (go_page opts dflt (sorted_ids (accessible (tables c) u now)))).
Proof.
  intros Hc (H1 & H2 & H3). unfold TargetIDsForUser, db_bind. rewrite !query_run by done.
  by rewrite !limited_all by done.
Qed.
Lemma go_page_nil_subset dflt all id : id ∈ go_page None dflt all -> id ∈ all.
Proof.
  unfold go_page. simpl. case_match; [|done]. intros Hin. rewrite <- (take_drop (Z.to_nat dflt) all).
  apply elem_of_app. by left.
Qed.

Section sound.
Context `{SetScan} (dflt : Z).
Lemma TargetIDsForUser_sound t u opts now :
  hoare (eq t) (TargetIDsForUser u opts dflt now)
    (fun _ r => match r with Ok ids => forall tid, tid ∈ ids -> can_access t now u tid | Err _ => True end).
Proof.
  unfold TargetIDsForUser.
  eapply (hoare_bind _ _ _ (fun t' r => t' = t /\ match r with Ok x => x ⊆ accessible t u now | Err _ => True end)); [| |done].
  { apply hoare_query; [|by intros; naive_solver]. intros t' <-. split; [done|]. etrans; [apply limited_subset|]. unfold accessible. set_solver. }
  intros r1. eapply (hoare_bind _ _ _ (fun t' r => (t' = t /\ r1 ⊆ accessible t u now) /\ match r with Ok x => x ⊆ accessible t u now | Err _ => True end)); [| |done].
  { apply hoare_query; [|by intros; naive_solver]. intros t' [-> H1]. split; [done|]. etrans; [apply limited_subset|]. unfold accessible. set_solver. }
  intros r2. eapply (hoare_bind _ _ _ (fun t' r => (t' = t /\ r1 ∪ r2 ⊆ accessible t u now) /\ match r with Ok x => x ⊆ accessible t u now | Err _ => True end)); [| |done].
  { apply hoare_query; [|intros t' m [[-> H1] H2]; split; [split; [done|set_solver]|done]]. intros t' [[-> H1] H2]. split; [split; [done|set_solver]|]. etrans; [apply limited_subset|]. unfold accessible. set_solver. }
  intros r3 c [[_ H12] H3]. simpl. intros tid Hin. apply elem_accessible.
  apply go_page_subset in Hin. rewrite elem_of_sorted_ids in Hin. set_solver.
Qed.
Lemma UserIDsForTarget_sound t tid opts now :
  hoare (eq t) (UserIDsForTarget tid opts dflt now)
    (fun _ r => match r with Ok us => forall u, u ∈ us -> can_access t now u tid | Err _ => True end).
Proof.
  unfold UserIDsForTarget.
  eapply (hoare_bind _ _ _ (fun _ r => match r with Ok us => forall u, u ∈ us -> can_access t now u tid | Err _ => True end)); [| |done].
  - apply hoare_query; [|done]. intros t' <- u. rewrite elem_of_sorted_ids. apply elem_users_for_target.
  - intros us c Hus. simpl. intros u Hu%go_page_subset. by apply Hus.
Qed.
Lemma length_sorted_ids X : length (sorted_ids X) = size X.
Proof. unfold sorted_ids. by rewrite sort_strings_perm. Qed.

(** C1. The two directions of the access relation agree with each other and with
    its definition: active membership of the target's group or of an ancestor of
    it, a shared tag, or a tag on the target's group or an ancestor. Whatever
    page is asked for and whatever statements fail, a target that is listed for a
    user, and a user who is listed for a target, has access. On a database that
    answers, where each of the three queries behind the targets of the user stays
    within its bound of 20,000 rows, and with options whose page holds the whole
    answer - no offset, no cursor, a limit that is not below the number of
    entries; without options that is the default limit - a target is listed for a
    user if and only if the user is listed for the target. *)
Theorem access_mirror c u tid now opts opts' :
  (forall ids, (TargetIDsForUser u opts dflt now c).2 = Ok ids -> tid ∈ ids -> can_access (tables c) now u tid) /\
  (forall us, (UserIDsForTarget tid opts' dflt now c).2 = Ok us -> u ∈ us -> can_access (tables c) now u tid) /\
  (healthy c -> branches_small (tables c) u now ->
   whole_page opts dflt (Z.of_nat (size (accessible (tables c) u now))) ->
   whole_page opts' dflt (Z.of_nat (size (users_for_target (tables c) tid now))) ->
   exists ids us, TargetIDsForUser u opts dflt now c = (c, Ok ids) /\ UserIDsForTarget tid opts' dflt now c = (c, Ok us) /\
     (tid ∈ ids <-> can_access (tables c) now u tid) /\ (u ∈ us <-> tid ∈ ids)).
Proof.
  split_and!.
  - intros ids Hr Hin. pose proof (TargetIDsForUser_sound (tables c) u opts now c eq_refl) as Hs.
    destruct (TargetIDsForUser _ _ _ _ c) as [c' r]. simpl in *. subst r. by apply Hs.
  - intros us Hr Hin. pose proof (UserIDsForTarget_sound (tables c) tid opts' now c eq_refl) as Hs.
    destruct (UserIDsForTarget _ _ _ _ c) as [c' r]. simpl in *. subst r. by apply Hs.
  - intros Hc Hb Ho Ho'. rewrite <- length_sorted_ids in Ho, Ho'. rewrite TargetIDsForUser_run by done.
    unfold UserIDsForTarget, db_bind. rewrite query_run, !go_page_whole by done.
    do 2 eexists. split; [done|]. split; [done|]. by rewrite !elem_of_sorted_ids, elem_users_for_target, elem_accessible.
Qed.
End sound.

(** The access check of the HTTP layer never lets anybody through who has no
    access, and for a user with more accessible targets than the default list
    limit it refuses some that the user does have: it asks for the first page
    only. *)
Theorem access_check_first_page `{SetScan} c u tid dflt now :
  healthy c -> branches_small (tables c) u now -> 0 < dflt ->
  exists b, userCanAccessTarget u tid dflt now c = (c, Ok b) /\
  (b = true -> can_access (tables c) now u tid) /\
  (Z.of_nat (size (accessible (tables c) u now)) <= dflt -> can_access (tables c) now u tid -> b = true) /\
  (dflt < Z.of_nat (size (accessible (tables c) u now)) ->
   exists tid', can_access (tables c) now u tid' /\ userCanAccessTarget u tid' dflt now c = (c, Ok false)).
Proof.
  intros Hc Hb Hd.
  assert (Hrun : forall tid, userCanAccessTarget u tid dflt now c =
    (c, Ok (bool_decide (tid ∈ (list_to_set (go_page None dflt (sorted_ids (accessible (tables c) u now))) : gset string))))).
  { intros tid0. unfold userCanAccessTarget, allowedTargetIDSet, db_bind. by rewrite TargetIDsForUser_run. }
  assert (Hlen : length (sorted_ids (accessible (tables c) u now)) = size (accessible (tables c) u now))
    by (unfold sorted_ids; by rewrite sort_strings_perm).
  eexists. split; [apply Hrun|]. split; [|split].
  - intros Hin%bool_decide_eq_true. rewrite elem_of_list_to_set in Hin.
    by apply elem_accessible, elem_of_sorted_ids, (go_page_nil_subset dflt).
  - intros Hsz Hacc. apply bool_decide_eq_true. rewrite elem_of_list_to_set. unfold go_page, listLimit. simpl.
    rewrite Hlen. destruct (Z.ltb_spec dflt (Z.of_nat (size (accessible (tables c) u now)))); [lia|].
    rewrite andb_false_r. by apply elem_of_sorted_ids, elem_accessible.
  - intros Hsz. set (l := sorted_ids (accessible (tables c) u now)) in *.
    assert (Hp : go_page None dflt l = take (Z.to_nat dflt) l).
    { unfold go_page, listLimit. simpl. rewrite Hlen.
      destruct (Z.ltb_spec 0 dflt); [|lia].
      destruct (Z.ltb_spec dflt (Z.of_nat (size (accessible (tables c) u now)))); [done|lia]. }
    destruct (lookup_lt_is_Some_2 l (Z.to_nat dflt)) as [tid' Ht]; [lia|].
    exists tid'. split.
    + apply elem_accessible, elem_of_sorted_ids. by eapply list_elem_of_lookup_2.
    + rewrite Hrun, Hp. do 2 f_equal. apply bool_decide_eq_false. rewrite elem_of_list_to_set.
      intros [i Hi]%list_elem_of_lookup_1.
      pose proof (lookup_lt_Some _ _ _ Hi) as Hlt. rewrite length_take in Hlt.
      rewrite lookup_take in Hi. case_decide; [|done].
      pose proof (NoDup_lookup l i (Z.to_nat dflt) tid' (NoDup_sorted_ids _) Hi Ht). lia.
Qed.

(** Access granted on a group reaches the group and its descendants and
    nothing else: a member of [net] reaches the targets of [net/tokyo], a member
    of [net/tokyo] does not reach those of [net], and a name that merely starts
    with the same letters is not a descendant. *)
Theorem group_access_goes_down `{SetScan} t now u g e tid :
  (forall g0 e0, user_groups t !! (u, g0) = Some e0 -> g0 = g /\ e0 = e) ->
  (forall tag, (u, tag) ∉ user_tags t) ->
  can_access t now u tid <->
  user_groups t !! (u, g) = Some e /\ activeMembership e now = true /\
  exists g', (g', tid) ∈ group_targets t /\ (g' = g \/ exists rest, bs g' = bs g ++ [slash] ++ rest).
Proof.
  intros Hone Htag. split.
  - intros [g0 g' e0 He Ha Hin Hd|tag Hu|tag g0 g' Hu]; [|by destruct (Htag tag)|by destruct (Htag tag)].
    destruct (Hone _ _ He) as [-> ->]. split; [done|]. split; [done|]. exists g'. split; [done|].
    by apply descendantOrSelf_spec.
  - intros (He & Ha & g' & Hin & Hd). apply (access_member t now u tid g g' e); try done.
    by apply descendantOrSelf_spec.
Qed.

(** ** Changes *)
Section changes.
Context `{UnicodeTables}.
Inductive group_op :=
| GCreate (id name : string) | GUpdate (id name : string) | GDelete (id : string)
| GAddUser (u g : string) (expiresAt : option time) | GRemoveUser (u g : string)
| GPurge (olderThan : time) | GAddTarget (g tid : string) | GRemoveTarget (g tid : string)
| GSetTags (g : string) (tags : list string).
Definition group_exec (op : group_op) : AccessM unit :=
  match op with
  | GCreate id n => let* _ := Create id n in db_ret tt
  | GUpdate id n => let* _ := Update id n in db_ret tt
  | GDelete id => Delete id
  | GAddUser u g e => AddUserToGroupUntil u g e
  | GRemoveUser u g => RemoveUserFromGroup u g
  | GPurge o => let* _ := PurgeExpiredMemberships o in db_ret tt
  | GAddTarget g tid => AddTargetToGroup g tid
  | GRemoveTarget g tid => RemoveTargetFromGroup g tid
  | GSetTags g tags => SetGroupTags g tags
  end.

(** Adding a group or renaming one. *)
Lemma insert_group_fk t id name : fk_ok t -> fk_ok (with_groups t (<[id := name]> (access_groups t))).
Proof.
  intros [Huu Hug Htg Hgg Hgt Hgtag Htt Hut].
  assert (Hm : forall g, is_Some (access_groups t !! g) -> is_Some (<[id:=name]> (access_groups t) !! g)).
  { intros g Hg. rewrite lookup_insert_is_Some'. by right. }
  split; simpl; eauto.
Qed.
Lemma insert_group_tags_fk g tags : preserves fk_ok (insert_group_tags g tags).
Proof.
  induction tags as [|tag tags IH]; simpl; preserve; [|done].
  apply preserves_exec. intros t t' [] [Huu Hug Htg Hgg Hgt Hgtag Htt Hut] Hf.
  repeat case_decide; simplify_eq. split; simpl; eauto.
  intros g' tag' [Hin|Hin%elem_of_singleton]%elem_of_union; [eauto|]. by simplify_eq.
Qed.

Lemma preserves_require_group P id : preserves P (require_group id).
Proof. unfold require_group. preserve. Qed.

(** No operation of the group store leaves a dangling row, on any path. *)
Lemma group_ops_fk op : preserves fk_ok (group_exec op).
Proof.
  destruct op; simpl.
  - unfold Create. preserve. apply preserves_exec. intros t t' [] Hfk Hf.
    destruct (access_groups t !! id); simplify_eq. by apply insert_group_fk.
  - unfold Update. preserve. apply preserves_exec. intros t t' num Hfk Hf.
    destruct (access_groups t !! id); simplify_eq; [|done]. by apply insert_group_fk.
  - unfold Delete. preserve. apply preserves_exec. intros t t' num Hfk Hf.
    destruct (access_groups t !! id); simplify_eq; [|done]. by apply delete_group_fk.
  - unfold AddUserToGroupUntil, require_group. preserve. apply preserves_exec. intros t t' [] Hfk Hf.
    case_decide as Hd; simplify_eq. destruct Hfk as [Huu Hug Htg Hgg Hgt Hgtag Htt Hut], Hd as [? ?].
    split; simpl; eauto; intros u' g' e'; rewrite lookup_insert_Some; naive_solver.
  - unfold RemoveUserFromGroup, require_group. preserve. apply preserves_exec. intros t t' [] [] Hf. simplify_eq.
    split; simpl; eauto; intros u' g' e' [_ Hl]%lookup_delete_Some; eauto.
  - unfold PurgeExpiredMemberships. preserve. apply preserves_exec. intros t t' num [] Hf. simplify_eq.
    split; simpl; eauto; intros u' g' e' [Hl _]%map_lookup_filter_Some; eauto.
  - unfold AddTargetToGroup, require_group. preserve. apply preserves_exec. intros t t' [] Hfk Hf.
    repeat case_decide; simplify_eq; [done|]. destruct Hfk as [Huu Hug Htg Hgg Hgt Hgtag Htt Hut]. destruct_and!.
    split; simpl; eauto; intros g' i [Hin|Hin%elem_of_singleton]%elem_of_union; eauto; by simplify_eq.
  - unfold RemoveTargetFromGroup, require_group. preserve. apply preserves_exec. intros t t' [] [] Hf. simplify_eq.
    split; simpl; eauto; intros g' i [Hin _]%elem_of_difference; eauto.
  - unfold SetGroupTags, require_group. preserve; [|apply insert_group_tags_fk].
    apply preserves_exec. intros t t' [] [] Hf. simplify_eq.
    split; simpl; eauto. intros g' tag [_ Hin]%elem_of_filter; eauto.
Qed.

(** *** Expiry *)
Lemma active_mono e now now' : now <= now' -> activeMembership e now' = true -> activeMembership e now = true.
Proof.
  unfold activeMembership. destruct e as [x|]; [|done]. rewrite !Z.ltb_lt. intros Hle Hx.
  assert (Unix now <= Unix now'); [|lia]. unfold Unix.
  apply Z.sub_le_mono_r, Z.div_le_mono; [unfold second, millisecond; lia|done].
Qed.
(** A timed membership only ever ends: while the tables stay as they are,
    nobody gains access by waiting; and purging the memberships that expired
    before a past moment changes nobody's access. *)
Theorem expiry_only_removes t now now' u tid :
  now <= now' ->
  (can_access t now' u tid -> can_access t now u tid) /\
  forall olderThan, olderThan <= now ->
    let t' := tables (PurgeExpiredMemberships olderThan (connect t)).1 in
    can_access t' now u tid <-> can_access t now u tid.
Proof.
  intros Hle. split.
  - intros [g g' e He Ha Hin Hd|tag Hu Ht|tag g g' Hu Hg Hin Hd];
      [eapply access_member|eapply access_target_tag|eapply access_group_tag]; eauto using active_mono.
  - intros olderThan Ho. cbn.
    split; intros [g g' e He Ha Hin Hd|tag Hu Ht|tag g g' Hu Hg Hin Hd]; simpl in *;
      try (by eapply access_target_tag); try (by eapply access_group_tag).
    + apply map_lookup_filter_Some in He as [He _]. by eapply access_member.
    + eapply access_member; eauto. apply map_lookup_filter_Some. split; [done|]. simpl.
      destruct e as [x|]; [|done]. apply Z.ltb_ge. simpl in Ha. apply Z.ltb_lt in Ha.
      assert (Unix olderThan <= Unix now); [|lia]. unfold Unix.
      apply Z.sub_le_mono_r, Z.div_le_mono; [unfold second, millisecond; lia|done].
Qed.

(** *** Tags *)
Lemma insert_tags_spec g tags t c r :
  (forall tag, (g, tag) ∉ group_tags t) -> is_Some (access_groups t !! g) -> tables c = t ->
  insert_group_tags g tags c = r -> r.2 = Ok tt ->
  NoDup tags /\ group_tags (tables r.1) = group_tags t ∪ list_to_set ((fun tag => (g, tag)) <$> tags) /\
  with_group_tags (tables r.1) ∅ = with_group_tags t ∅.
Proof.
  intros Hno Hg Hc <-.
  assert (Hgen : forall tags c, is_Some (access_groups (tables c) !! g) -> (insert_group_tags g tags c).2 = Ok tt ->
    NoDup tags /\ (forall tag, tag ∈ tags -> (g, tag) ∉ group_tags (tables c)) /\
    group_tags (tables (insert_group_tags g tags c).1) = group_tags (tables c) ∪ list_to_set ((fun tag => (g, tag)) <$> tags) /\
    with_group_tags (tables (insert_group_tags g tags c).1) ∅ = with_group_tags (tables c) ∅).
  { clear. induction tags as [|tag tags IH]; intros c Hg Hr; simpl in *.
    { split; [constructor|]. split; [intros ? Hin; by apply not_elem_of_nil in Hin|]. split; [set_solver|done]. }
    unfold db_bind, db_exec in *. destruct (db_call c) as [c0 [[]|]] eqn:E0; [|done].
    assert (Ht0 : tables c0 = tables c) by (pose proof (tables_db_call (E:=access_err) c) as X; by rewrite E0 in X).
    rewrite Ht0 in *. case_decide as Hin; [done|]. case_decide as Hs; [|done].
    match type of Hr with (insert_group_tags _ _ ?x).2 = _ => destruct (IH x Hg Hr) as (H1 & H2 & H3 & H4) end.
    simpl in *.
    assert (Hnin : tag ∉ tags). { intros Ht. apply (H2 _ Ht). set_solver. }
    split; [by constructor|]. split.
    - intros tag' [->|Ht]%elem_of_cons; [done|]. specialize (H2 _ Ht). set_solver.
    - rewrite H3, H4. split; [set_solver|done]. }
  intros Hr. destruct (Hgen tags c) as (H1 & _ & H3 & H4); [by rewrite Hc|done|]. by rewrite H3, H4, Hc.
Qed.

Lemma hoare_require_group t0 g :
  hoare (eq t0) (require_group g) (fun t r => t = t0 /\ match r with Ok _ => is_Some (access_groups t0 !! g) | Err _ => True end).
Proof.
  intros c ->. unfold require_group, db_bind, db_query, db_exec.
  destruct (db_call c) as [c1 [[]|]] eqn:E1; simpl.
  all: assert (Ht : tables c1 = tables c) by (pose proof (tables_db_call (E:=access_err) c) as X; by rewrite E1 in X).
  - rewrite Ht. destruct (access_groups (tables c) !! g); simpl; split; eauto.
  - done.
Qed.

(** Setting the tags of a group is all or nothing: after success the group
    has exactly the given tags and nothing else changed; after any error - an
    invalid or repeated tag, an unknown group, a failed statement or commit -
    the tables are untouched. *)
Theorem set_group_tags_atomic g tags c :
  let (c', r) := SetGroupTags g tags c in
  match r with
  | Ok _ => is_Some (access_groups (tables c) !! g) /\
            (forall tag, (g, tag) ∈ group_tags (tables c') <-> tag ∈ tags) /\
            (forall g' tag, g' <> g -> (g', tag) ∈ group_tags (tables c') <-> (g', tag) ∈ group_tags (tables c)) /\
            with_group_tags (tables c') ∅ = with_group_tags (tables c) ∅
  | Err _ => tables c' = tables c
  end.
Proof.
  unfold SetGroupTags. set (body := db_bind (require_group g) _).
  assert (Hb : hoare (fun t => t = tables c) (db_tx body) (fun t r => match r with
    | Ok _ => is_Some (access_groups (tables c) !! g) /\
            (forall tag, (g, tag) ∈ group_tags t <-> tag ∈ tags) /\
            (forall g' tag, g' <> g -> (g', tag) ∈ group_tags t <-> (g', tag) ∈ group_tags (tables c)) /\
            with_group_tags t ∅ = with_group_tags (tables c) ∅
    | Err _ => t = tables c end)).
  { apply hoare_tx; [|done]. intros t0 ->. unfold body.
    eapply hoare_bind.
    - apply hoare_require_group.
    - intros [] c1 [H1 H2]. unfold db_bind, db_exec. destruct (db_call c1) as [c2 [[]|]] eqn:E1; [|done].
      assert (Ht2 : tables c2 = tables c1) by (pose proof (tables_db_call (E:=access_err) c1) as X; by rewrite E1 in X).
      set (c3 := set_tables _ _). destruct (insert_group_tags g tags c3) as [c4 r] eqn:E4. simpl.
      destruct r as [[]|]; [|done].
      destruct (insert_tags_spec g tags (tables c3) c3 (c4, Ok tt)) as (Hnd & Hgt & Hrest); try done.
      + intros tag. simpl. rewrite elem_of_filter. simpl. tauto.
      + simpl. by rewrite Ht2, H1 in *.
      + simpl in *. rewrite Hgt, Hrest, Ht2, H1 in *. split; [done|]. split; [|split; [|done]].
        * intros tag. rewrite elem_of_union, elem_of_filter, elem_of_list_to_set, list_elem_of_fmap. simpl. naive_solver.
        * intros g' tag Hne. rewrite elem_of_union, elem_of_filter, elem_of_list_to_set, list_elem_of_fmap. simpl. naive_solver.
    - by intros t e [? _]. }
  unfold db_bind, db_of. destruct (validate_tags tags); [|done].
  specialize (Hb c eq_refl). by destruct (db_tx body c).
Qed.
End changes.

(** ** Moving a target, and deleting the group it came from *)

(** The group change of the target update handler
    (src/internal/httpapi/targets_handler.go): the column [targets.group_id] is
    not touched by it. *)
Fixpoint remove_from_groups (gs : list string) (newGroupID tid : string) : AccessM bool :=
  match gs with
  | [] => db_ret false
  | g :: gs =>
      if decide (g = newGroupID) then let* _ := remove_from_groups gs newGroupID tid in db_ret true
      else
        let* _ := RemoveTargetFromGroup g tid in
        remove_from_groups gs newGroupID tid
  end.
Definition changeTargetGroup (tid newGroupID : string) : AccessM unit :=
  let* currentGroups := GroupIDsForTarget tid in
  let* alreadyInNewGroup := remove_from_groups currentGroups newGroupID tid in
  if alreadyInNewGroup : bool then db_ret tt else AddTargetToGroup newGroupID tid.

Lemma Delete_run c id name :
  healthy c -> validateGroupID id = Ok tt -> access_groups (tables c) !! id = Some name ->
  Delete id c =
  if decide (direct_targets (tables c) id = [] /\ like_children (tables c) id = [])
  then (set_tables c (delete_group id (tables c)), Ok tt)
  else (c, Err ErrGroupNotEmpty).
Proof.
  intros Hc Hv Hg. unfold Delete, db_bind at 1, db_of. rewrite Hv. unfold db_bind.
  rewrite query_run by done. case_decide as H1.
  { rewrite decide_False; [done|]. intros [Hd _]. rewrite Hd in H1. simpl in H1. lia. }
  rewrite query_run by done. case_decide as H2.
  { rewrite decide_False; [done|]. intros [_ Hd]. rewrite Hd in H2. simpl in H2. lia. }
  rewrite decide_True.
  2: { split; apply length_zero_iff_nil; lia. }
  unfold db_exec, db_call. destruct Hc as [Hc1 Hf]. rewrite Hf, Hg. done.
Qed.

(** Deleting a group that looks empty destroys every target that was created
    in it and moved away since: the move leaves [targets.group_id] behind, and
    the foreign key deletes those targets, their tags and their place in the
    other groups with the group. *)
Theorem delete_group_destroys_moved_target c g tid row name :
  healthy c -> validateGroupID g = Ok tt -> access_groups (tables c) !! g = Some name ->
  direct_targets (tables c) g = [] -> like_children (tables c) g = [] ->
  targets (tables c) !! tid = Some row -> tr_group_id row = g ->
  exists c', Delete g c = (c', Ok tt) /\ targets (tables c') !! tid = None /\
  forall g2, (g2, tid) ∉ group_targets (tables c').
Proof.
  intros Hc Hv Hg Hd Hl Ht Hrow. eexists. rewrite (Delete_run c g name), decide_True by done.
  split; [done|]. simpl. split.
  - apply map_lookup_filter_None. right. intros r Hr. simpl.
    rewrite Ht in Hr. injection Hr as <-. rewrite bool_decide_eq_true_2; done.
  - intros g2 [_ [Hgone _]%elem_of_filter]%elem_of_filter. simpl in Hgone.
    rewrite Ht, bool_decide_eq_true_2 in Hgone; done.
Qed.

(** A group is taken to have children whenever another ID begins with its own
    up to letter case: [LIKE] folds ASCII case and the hierarchy does not, so a
    group [Net] without targets or descendants is refused because of [net/tokyo]. *)
Theorem delete_refused_by_case c g child name cname :
  healthy c -> validateGroupID g = Ok tt -> access_groups (tables c) !! g = Some name ->
  access_groups (tables c) !! child = Some cname ->
  (exists rest, like_fold <$> take (length (bs g)) (bs child) = like_fold <$> bs g /\
     bs child = take (length (bs g)) (bs child) ++ slash :: rest) ->
  Delete g c = (c, Err ErrGroupNotEmpty).
Proof.
  intros Hc Hv Hg Hch (rest & Hfold & Happ). rewrite (Delete_run c g name) by done.
  rewrite decide_False; [done|]. intros [_ Hl].
  assert (child ∈ like_children (tables c) g) as Hin; [|rewrite Hl in Hin; by apply not_elem_of_nil in Hin].
  unfold like_children. apply list_elem_of_filter. split.
  - assert (Hrest : forall r, sql_like [slash; 37] (slash :: r) = true).
    { intros r. simpl. apply (sql_like_any r). }
    apply like_escaped; [by exists [slash]|]. by exists (slash :: rest).
  - apply list_elem_of_fmap. exists (child, cname). by rewrite elem_of_map_to_list.
Qed.

(** ** Witnesses *)
Definition demo_row : target_row :=
  mkTargetRow "router" "10.0.0.1" 22 "ssh" "net" "" "" "" "" "" 1 0 0 "" 0 "" "".
Definition demo_tables : access_tables :=
  mkAccess {["u1"%string]} (<["net"%string := "Net"%string]> (<["net/tokyo"%string := "Tokyo"%string]> {["lab"%string := "Lab"%string]}))
    {["t1"%string := demo_row]} {[("u1"%string, "net"%string) := Some 5000]}
    {[("net"%string, "t1"%string)]} ∅ ∅ ∅.
Definition demo_access : conn access_tables := connect demo_tables.
(** The target moved to [lab], and the child group deleted. *)
Definition demo_moved : conn access_tables := (Delete "net/tokyo" (changeTargetGroup "t1" "lab" demo_access).1).1.

Lemma access_mirror_witness :
  exists us, UserIDsForTarget "t1" (Some (mkListOpts 1000 0 "")) 100 (time_Unix 4000) demo_access = (demo_access, Ok us) /\ "u1"%string ∈ us.
Proof.
  destruct (access_mirror 100 demo_access "u1" "t1" (time_Unix 4000) None (Some (mkListOpts 1000 0 ""))) as (_ & _ & Hm).
  destruct Hm as (ids & us & Hids & Hus & _ & Hiff).
  - by split.
  - split; [|split]; apply Nat.leb_le; vm_compute; reflexivity.
  - split; [reflexivity|]. split; [reflexivity|]. right. apply Z.leb_le. vm_compute. reflexivity.
  - split; [reflexivity|]. split; [reflexivity|]. right. apply Z.leb_le. vm_compute. reflexivity.
  - exists us. split; [exact Hus|]. apply Hiff.
    assert (Hr : Ok ids = Ok (E := access_err) ["t1"%string]) by (apply (f_equal snd) in Hids; cbn [snd] in Hids; rewrite <- Hids; vm_compute; reflexivity).
    injection Hr as ->. left.
Defined.
Lemma access_check_first_page_witness :
  userCanAccessTarget "u1" "t1" 100 (time_Unix 4000) demo_access = (demo_access, Ok true).
Proof.
  destruct (access_check_first_page demo_access "u1" "t1" 100 (time_Unix 4000)) as (b & Hb & _ & Hcomp & _).
  - by split.
  - split; [|split]; apply Nat.leb_le; vm_compute; reflexivity.
  - lia.
  - rewrite Hb, Hcomp; [reflexivity| |].
    + apply Z.leb_le. vm_compute. reflexivity.
    + apply (access_member _ _ _ _ "net" "net" (Some 5000)); [reflexivity|reflexivity| |reflexivity].
      apply (bool_decide_unpack _). vm_compute. exact I.
Defined.
Lemma group_access_goes_down_witness : ~ can_access demo_tables (time_Unix 4000) "u1" "t2".
Proof.
  intros Hacc. apply (group_access_goes_down demo_tables (time_Unix 4000) "u1" "net" (Some 5000) "t2") in Hacc.
  - destruct Hacc as (_ & _ & g' & Hin & _). simpl in Hin. apply elem_of_singleton in Hin. discriminate Hin.
  - intros g0 e0 Hl. simpl in Hl. apply lookup_singleton_Some in Hl as [[= <-] <-]. done.
  - intros tag Hin. by apply not_elem_of_empty in Hin.
Defined.
Lemma demo_fk : fk_ok demo_tables.
Proof.
  split; simpl.
  - intros u g e [[= <- <-] _]%lookup_singleton_Some. apply elem_of_singleton. done.
  - intros u g e [[= <- <-] _]%lookup_singleton_Some. vm_compute. eauto.
  - intros id r [<- <-]%lookup_singleton_Some. vm_compute. eauto.
  - intros g id Hin%elem_of_singleton. injection Hin as -> ->. vm_compute. eauto.
  - intros g id Hin%elem_of_singleton. injection Hin as -> ->. vm_compute. eauto.
  - intros g tag Hin. by apply not_elem_of_empty in Hin.
  - intros g tag Hin. by apply not_elem_of_empty in Hin.
  - intros g tag Hin. by apply not_elem_of_empty in Hin.
Qed.
Lemma expiry_only_removes_witness :
  can_access demo_tables (time_Unix 10) "u1" "t1".
Proof.
  assert (Hle : time_Unix 10 <= time_Unix 4000) by (vm_compute; discriminate).
  refine (proj1 (expiry_only_removes demo_tables (time_Unix 10) (time_Unix 4000) "u1" "t1" Hle) _).
  refine (access_member _ _ _ _ "net" "net" (Some 5000) _ _ _ _).
  - vm_compute. reflexivity.
  - vm_compute. reflexivity.
  - apply (bool_decide_unpack _). vm_compute. exact I.
  - vm_compute. reflexivity.
Defined.
Lemma delete_group_destroys_moved_target_witness :
  group_targets (tables demo_moved) = {[("lab"%string, "t1"%string)]} /\
  exists c', Delete "net" demo_moved = (c', Ok tt) /\ targets (tables c') !! "t1"%string = None.
Proof.
  split; [vm_compute; reflexivity|].
  destruct (delete_group_destroys_moved_target demo_moved "net" "t1" demo_row "Net") as (c' & H1 & H2 & _);
    [split; reflexivity|vm_compute; reflexivity|vm_compute; reflexivity|vm_compute; reflexivity|vm_compute; reflexivity
    |vm_compute; reflexivity|reflexivity|].
  exists c'. split; [exact H1|exact H2].
Defined.
Definition demo_case : conn access_tables :=
  connect (mkAccess ∅ (<["Net"%string := "A"%string]> {["net/tokyo"%string := "B"%string]}) ∅ ∅ ∅ ∅ ∅ ∅).
Lemma delete_refused_by_case_witness :
  descendantOrSelf "net/tokyo" "Net" = false /\ Delete "Net" demo_case = (demo_case, Err ErrGroupNotEmpty).
Proof.
  split; [reflexivity|].
  apply (delete_refused_by_case demo_case "Net" "net/tokyo" "A" "B");
    [split; reflexivity|vm_compute; reflexivity|reflexivity|reflexivity|].
  exists (bs "tokyo"). split; vm_compute; reflexivity.
Defined.
