(* ===== verification/AccessTargets.v ===== *)
(** The target store: targets with encrypted credentials, host-key settings and
    tags (src/internal/access/sqlite_store.go, target.go).

    [encKey], the strict-ciphertext switch, the host restrictions and the default
    list limit are the store's configuration; the random nonces are inputs. *)
From S2P Require Import Prelude GoText Sqlite AccessValidate AccessDB AccessGroups Secret.
Local Open Scope Z_scope.

Record Target := mkTarget {
  t_ID : string; t_Name : string; t_Host : string; t_Port : Z; t_Protocol : string; t_Path : string;
  t_SSHUsername : string; t_SSHPassword : string; t_SSHPrivateKey : string; t_SSHPrivateKeyPassphrase : string;
  t_SSHHostKeyFingerprint : string; t_SSHHostKeyInsecureSkipVerify : bool;
  t_SFTPEnabled : bool; t_FTPEnabled : bool; t_TFTPEnabled : bool;
  t_CredentialIdentityID : string; t_SSHKeyID : string
}.
(** What the caller of [CreateWithPath] and [Update] passes. *)
Record target_input := mkTargetInput {
  in_Name : string; in_Host : string; in_Port : Z; in_Protocol : string; in_Path : string;
  in_SSHUsername : string; in_SSHPassword : string; in_SSHPrivateKey : string; in_SSHPrivateKeyPassphrase : string;
  in_SFTPEnabled : bool; in_FTPEnabled : bool; in_TFTPEnabled : bool
}.

Definition secret_error (e : secret_err) : access_err :=
  ErrCrypto match e with
            | ErrInvalidKey => "secret: encryption key must be 32 bytes"
            | ErrDecrypt => "secret: decryption failed"
            | ErrInvalidInput => "secret: invalid ciphertext format"
            | ErrKeyMismatch => "secret: ciphertext was encrypted with a different key"
            | ErrRand msg => msg
            end.
Definition of_secret {A} (r : result secret_err A) : result access_err A :=
  match r with Ok a => Ok a | Err e => Err (secret_error e) end.

Definition credentialAAD (targetID : string) (field : string) : list Z :=
  bs "vantyx/target/" ++ bs targetID ++ [slash] ++ bs field.
Definition bit (b : bool) : Z := if b then 1 else 0.

Section store.
Context `{Crypto} (encKey : list Z) (strict : bool) (ParseIP : list Z -> option (list Z)) (allowRestricted : bool) (dflt : Z).

(** The nonces of the three fields, one draw each. *)
Record nonces := mkNonces { n_password : result string (list Z); n_key : result string (list Z); n_pass : result string (list Z) }.
Definition encryptCredentials (targetID sshPassword sshPrivateKey sshPrivateKeyPassphrase : string) (r : nonces)
    : result access_err (string * string * string) :=
  guard negb ((negb (bool_decide (sshPassword = "")) || negb (bool_decide (sshPrivateKey = "")))
              && negb (bool_decide (length encKey = KeySize))) else ErrEncryptionKeyRequired in
  let enc (v field : string) (n : result string (list Z)) :=
    if decide (v = ""%string) then Ok v
    else of_secret (EncryptWithAAD encKey v (credentialAAD targetID field) n) in
  let? storedPassword := enc sshPassword "ssh_password"%string (n_password r) in
  let? storedKey := enc sshPrivateKey "ssh_private_key"%string (n_key r) in
  let? storedKeyPass := enc sshPrivateKeyPassphrase "ssh_private_key_passphrase"%string (n_pass r) in
  Ok (storedPassword, storedKey, storedKeyPass).

Definition validate_target (id : string) (i : target_input) : result access_err unit :=
  let? _ := validateTargetID id in
  let? _ := validateName (in_Name i) in
  let? _ := validateHost ParseIP allowRestricted (in_Host i) in
  validateProtocol (in_Protocol i).

Definition CreateWithPath (id : string) (i : target_input) (groupID : string) (r : nonces) : AccessM Target :=
  let* _ := db_of (validate_target id i) in
  let* _ := db_of (if decide (groupID <> ""%string) then validateGroupID groupID else Ok tt) in
  let* (storedPassword, storedKey, storedKeyPass) :=
    db_of (encryptCredentials id (in_SSHPassword i) (in_SSHPrivateKey i) (in_SSHPrivateKeyPassphrase i) r) in
  let row := mkTargetRow (in_Name i) (in_Host i) (in_Port i) (in_Protocol i) groupID (in_Path i)
    (in_SSHUsername i) storedPassword storedKey storedKeyPass
    (bit (in_SFTPEnabled i)) (bit (in_FTPEnabled i)) (bit (in_TFTPEnabled i)) "" 0 "" "" in
  let* res := db_catch (db_exec (fun t =>
    match targets t !! id with
    | Some _ => Err unique_failed
    | None =>
        if decide (is_Some (access_groups t !! groupID))
        then Ok (with_targets t (<[id := row]> (targets t)), tt) else Err fk_failed
    end)) in
  match res with
  | Err _ => db_throw ErrTargetExists
  | Ok _ => db_ret (mkTarget id (in_Name i) (in_Host i) (in_Port i) (in_Protocol i) (in_Path i)
      (in_SSHUsername i) (in_SSHPassword i) (in_SSHPrivateKey i) (in_SSHPrivateKeyPassphrase i)
      "" false (in_SFTPEnabled i) (in_FTPEnabled i) (in_TFTPEnabled i) "" "")
  end.
Definition target_Create (id name host : string) (port : Z) (protocol : string) (r : nonces) : AccessM Target :=
  CreateWithPath id (mkTargetInput name host port protocol "" "" "" "" "" true false false) "" r.

(** The stored value of a credential column as [Get] returns it. *)
Definition decryptOrPlain (stored targetID field : string) : string :=
  if decide (stored = ""%string) then ""%string
  else if IsEncrypted stored then
    if decide (length encKey = KeySize) then
      match DecryptWithAAD encKey stored (credentialAAD targetID field) with Ok dec => dec | Err _ => ""%string end
    else ""%string
  else if strict then ""%string else stored.
Definition scan_target (id : string) (r : target_row) : Target :=
  mkTarget id (tr_name r) (tr_host r) (tr_port r) (tr_protocol r) (tr_path r) (tr_ssh_username r)
    (decryptOrPlain (tr_ssh_password r) id "ssh_password")
    (decryptOrPlain (tr_ssh_private_key r) id "ssh_private_key")
    (decryptOrPlain (tr_ssh_private_key_passphrase r) id "ssh_private_key_passphrase")
    (tr_host_key_fingerprint r) (negb (tr_insecure_skip_verify r =? 0))
    (negb (tr_sftp_enabled r =? 0)) (negb (tr_ftp_enabled r =? 0)) (negb (tr_tftp_enabled r =? 0))
    (tr_credential_identity_id r) (tr_ssh_key_id r).
Definition port_ok (r : target_row) : bool := (0 <=? tr_port r) && (tr_port r <=? 65535).
Definition target_Get (id : string) : AccessM Target :=
  let* row := db_query (fun t => targets t !! id) in
  match row with
  | None => db_throw ErrTargetNotFound
  | Some r => if port_ok r then db_ret (scan_target id r) else db_throw ErrTargetNotFound
  end.

(** One [UPDATE targets ... WHERE id = ?]: the number of rows. *)
Definition update_target (id : string) (f : target_row -> target_row) : AccessM Z :=
  db_exec (fun t =>
    match targets t !! id with
    | Some r => Ok (with_targets t (<[id := f r]> (targets t)), 1)
    | None => Ok (t, 0)
    end).
Definition found (n : Z) : AccessM unit := if n =? 0 then db_throw ErrTargetNotFound else db_ret tt.

Definition target_Update (id : string) (i : target_input) (r : nonces) : AccessM Target :=
  let* _ := db_of (validate_target id i) in
  let* (storedPassword, storedKey, storedKeyPass) :=
    db_of (encryptCredentials id (in_SSHPassword i) (in_SSHPrivateKey i) (in_SSHPrivateKeyPassphrase i) r) in
  let* n := update_target id (fun row =>
    mkTargetRow (in_Name i) (in_Host i) (in_Port i) (in_Protocol i) (tr_group_id row) (in_Path i)
      (TrimSpace_s (in_SSHUsername i)) storedPassword storedKey storedKeyPass
      (bit (in_SFTPEnabled i)) (bit (in_FTPEnabled i)) (bit (in_TFTPEnabled i))
      (tr_host_key_fingerprint row) (tr_insecure_skip_verify row) (tr_credential_identity_id row) (tr_ssh_key_id row)) in
  let* _ := found n in
  target_Get id.
Definition SetSSHHostKeyFingerprint (id fingerprint : string) : AccessM unit :=
  let* _ := db_of (validateTargetID id) in
  let* canonical := db_of (validHostKeyFingerprint fingerprint) in
  let* n := update_target id (fun r =>
    mkTargetRow (tr_name r) (tr_host r) (tr_port r) (tr_protocol r) (tr_group_id r) (tr_path r) (tr_ssh_username r)
      (tr_ssh_password r) (tr_ssh_private_key r) (tr_ssh_private_key_passphrase r) (tr_sftp_enabled r) (tr_ftp_enabled r)
      (tr_tftp_enabled r) canonical (tr_insecure_skip_verify r) (tr_credential_identity_id r) (tr_ssh_key_id r)) in
  found n.
Definition SetSSHHostKeyInsecureSkipVerify (id : string) (skip : bool) : AccessM unit :=
  let* _ := db_of (validateTargetID id) in
  let* n := update_target id (fun r =>
    mkTargetRow (tr_name r) (tr_host r) (tr_port r) (tr_protocol r) (tr_group_id r) (tr_path r) (tr_ssh_username r)
      (tr_ssh_password r) (tr_ssh_private_key r) (tr_ssh_private_key_passphrase r) (tr_sftp_enabled r) (tr_ftp_enabled r)
      (tr_tftp_enabled r) (tr_host_key_fingerprint r) (bit skip) (tr_credential_identity_id r) (tr_ssh_key_id r)) in
  found n.
Definition SetCredentialSource (id credentialIdentityID sshKeyID : string) : AccessM unit :=
  let* _ := db_of (validateTargetID id) in
  let* n := update_target id (fun r =>
    mkTargetRow (tr_name r) (tr_host r) (tr_port r) (tr_protocol r) (tr_group_id r) (tr_path r) (tr_ssh_username r)
      (tr_ssh_password r) (tr_ssh_private_key r) (tr_ssh_private_key_passphrase r) (tr_sftp_enabled r) (tr_ftp_enabled r)
      (tr_tftp_enabled r) (tr_host_key_fingerprint r) (tr_insecure_skip_verify r) credentialIdentityID sshKeyID) in
  found n.
Definition target_Delete (id : string) : AccessM unit :=
  let* _ := db_of (validateTargetID id) in
  let* n := db_exec (fun t =>
    match targets t !! id with
    | Some _ => Ok (delete_targets (fun id' _ => bool_decide (id' = id)) t, 1)
    | None => Ok (t, 0)
    end) in
  found n.

(** ** Listing *)

(** [ids[offset:end]] after the clamping; the sum is a machine integer, and a
    slice whose end is before its start panics. *)
Definition page_ids (limit offset : Z) (ids : list string) : result access_err (list string) :=
  let len := Z.of_nat (length ids) in
  if (0 <? offset) || (limit <? len) then
    if len <=? offset then Ok []
    else
      let end_ := int64 (offset + limit) in
      let end_ := if len <? end_ then len else end_ in
      if end_ <? offset then Err (Panic "slice bounds out of range")
      else Ok (take (Z.to_nat (end_ - offset)) (drop (Z.to_nat offset) ids))
  else Ok ids.
Fixpoint unique_ids (seen : gset string) (ids : list string) : list string :=
  match ids with
  | [] => []
  | id :: ids => if decide (id = ""%string \/ id ∈ seen) then unique_ids seen ids
                 else id :: unique_ids ({[id]} ∪ seen) ids
  end.
Definition maxVars : nat := Z.to_nat 999.
(** One query of the rows whose id is in the chunk. *)
Definition rows_in (chunk : list string) (t : access_tables) : gmap string Target :=
  map_imap (fun id r => if port_ok r then Some (scan_target id r) else None)
    (filter (fun kr => kr.1 ∈ chunk) (targets t)).
Fixpoint load_chunks (fuel : nat) (ids : list string) (byID : gmap string Target) : AccessM (gmap string Target) :=
  match fuel, ids with
  | S fuel, _ :: _ =>
      let* rows := db_query (rows_in (take maxVars ids)) in
      load_chunks fuel (drop maxVars ids) (rows ∪ byID)
  | _, _ => db_ret byID
  end.
Definition ListByIDs (ids : list string) (opts : option ListOpts) : AccessM (list Target) :=
  let (limit, offset) := listLimit opts dflt in
  let* ids := db_of (page_ids limit offset ids) in
  let unique := unique_ids ∅ ids in
  if decide (unique = []) then db_ret []
  else
    let* byID := load_chunks (length unique) unique ∅ in
    db_ret (omap (fun id => byID !! id) unique).
Definition AllIDs (opts : option ListOpts) : AccessM (list string) :=
  db_query (fun t => sql_page opts dflt (sort_strings (map_to_list (targets t)).*1)).
(** Without the credentials, the fingerprint and the credential source. *)
Definition scan_public (id : string) (r : target_row) : Target :=
  mkTarget id (tr_name r) (tr_host r) (tr_port r) (tr_protocol r) (tr_path r) "" "" "" "" "" false
    (negb (tr_sftp_enabled r =? 0)) (negb (tr_ftp_enabled r =? 0)) (negb (tr_tftp_enabled r =? 0)) "" "".
Definition ListByProtocol `{MapRange} (protocol : string) : AccessM (list Target) :=
  let* rows := db_query (fun t => filter (fun kr => tr_protocol kr.2 = protocol) (range (targets t))) in
  db_ret (omap (fun kr => if port_ok kr.2 then Some (scan_public kr.1 kr.2) else None) rows).

(** ** Tags *)
Definition TagsForTarget (targetID : string) : AccessM (list string) :=
  db_query (fun t => sort_strings (tags_of (target_tags t) targetID)).
Fixpoint insert_target_tags (targetID : string) (tags : list string) : AccessM unit :=
  match tags with
  | [] => db_ret tt
  | tag :: tags =>
      let* _ := db_exec (fun t =>
        if decide ((targetID, tag) ∈ target_tags t) then Err unique_failed
        else if decide (is_Some (targets t !! targetID))
        then Ok (with_target_tags t (target_tags t ∪ {[(targetID, tag)]}), tt) else Err fk_failed) in
      insert_target_tags targetID tags
  end.
Definition SetTargetTags `{UnicodeTables} (targetID : string) (tags : list string) : AccessM unit :=
  let* _ := db_of (validate_tags tags) in
  db_tx (
    let* row := db_query (fun t => targets t !! targetID) in
    let* _ := match row with None => db_throw ErrTargetNotFound | Some _ => db_ret tt end in
    let* _ := db_exec (fun t => Ok (with_target_tags t (filter (fun tt => tt.1 <> targetID) (target_tags t)), tt)) in
    insert_target_tags targetID tags).
End store.

(** ** References *)
Inductive target_op :=
| TCreate (id : string) (i : target_input) (g : string) (r : nonces)
| TUpdate (id : string) (i : target_input) (r : nonces)
| TSetFingerprint (id fp : string) | TSetSkip (id : string) (skip : bool) | TSetSource (id c k : string)
| TDelete (id : string) | TSetTags (id : string) (tags : list string)
| TGroup (op : group_op).
Section references.
Context `{Crypto, UnicodeTables} (encKey : list Z) (ParseIP : list Z -> option (list Z)) (allowRestricted strict : bool).
Definition target_exec (op : target_op) : AccessM unit :=
  match op with
  | TCreate id i g r => let* _ := CreateWithPath encKey ParseIP allowRestricted id i g r in db_ret tt
  | TUpdate id i r => let* _ := target_Update encKey strict ParseIP allowRestricted id i r in db_ret tt
  | TSetFingerprint id fp => SetSSHHostKeyFingerprint id fp
  | TSetSkip id skip => SetSSHHostKeyInsecureSkipVerify id skip
  | TSetSource id c k => SetCredentialSource id c k
  | TDelete id => target_Delete id
  | TSetTags id tags => SetTargetTags id tags
  | TGroup op => group_exec op
  end.

Lemma insert_target_fk t id r :
  fk_ok t -> is_Some (access_groups t !! tr_group_id r) -> fk_ok (with_targets t (<[id := r]> (targets t))).
Proof.
  intros [Huu Hug Htg Hgg Hgt Hgtag Htt Hut] Hg.
  assert (Hm : forall i, is_Some (targets t !! i) -> is_Some (<[id:=r]> (targets t) !! i)).
  { intros i Hi. rewrite lookup_insert_is_Some'. by right. }
  split; simpl; eauto. intros i r' [[<- <-]|[_ Hl]]%lookup_insert_Some; eauto.
Qed.
Lemma update_target_fk id f : (forall r, tr_group_id (f r) = tr_group_id r) -> preserves fk_ok (update_target id f).
Proof.
  intros Hf. apply preserves_exec. intros t t' n Hfk Hx.
  destruct (targets t !! id) as [r|] eqn:Hl; simplify_eq; [|done].
  apply insert_target_fk; [done|]. rewrite Hf. by eapply fk_target_group.
Qed.
Lemma preserves_found P n : preserves P (found n).
Proof. unfold found. preserve. Qed.
Lemma insert_target_tags_fk id tags : preserves fk_ok (insert_target_tags id tags).
Proof.
  induction tags as [|tag tags IH]; simpl; preserve; [|done].
  apply preserves_exec. intros t t' [] [Huu Hug Htg Hgg Hgt Hgtag Htt Hut] Hf.
  repeat case_decide; simplify_eq. split; simpl; eauto.
  intros i tag' [Hin|Hin%elem_of_singleton]%elem_of_union; [eauto|]. by simplify_eq.
Qed.
Ltac target_preserve := preserve; try first [apply preserves_found | by apply update_target_fk].

(** No operation of the group and target stores leaves a dangling row: every
    membership, assignment, tag and target refers to a group, user and target
    that exist, after any sequence of operations, failing statements included. *)
Theorem access_ops_keep_references ops c :
  fk_ok (tables c) -> fk_ok (tables (foldl (fun c op => (target_exec op c).1) c ops)).
Proof.
  assert (Hop : forall op, preserves fk_ok (target_exec op)).
  { intros []; simpl; [unfold CreateWithPath|unfold target_Update, target_Get|unfold SetSSHHostKeyFingerprint
      |unfold SetSSHHostKeyInsecureSkipVerify|unfold SetCredentialSource|unfold target_Delete|unfold SetTargetTags|];
      target_preserve; [..|apply insert_target_tags_fk|apply group_ops_fk].
    - apply preserves_exec. intros t t' [] Hfk Hf. repeat case_match; simplify_eq. by apply insert_target_fk.
    - apply preserves_exec. intros t t' n Hfk Hf. case_match; simplify_eq; [|done]. by apply delete_targets_fk.
    - apply preserves_exec. intros t t' [] [] Hf. simplify_eq. split; simpl; eauto.
      intros i tag [_ Hin]%elem_of_filter; eauto. }
  revert c. induction ops as [|op ops IH]; intros c Hc; [done|]. apply IH, Hop, Hc.
Qed.
End references.

(** ** Credentials at rest *)
Definition credential_fields : list string :=
  ["ssh_password"; "ssh_private_key"; "ssh_private_key_passphrase"]%string.
(** The column of a credential field. *)
Definition cell (r : target_row) (field : string) : string :=
  if decide (field = "ssh_password"%string) then tr_ssh_password r
  else if decide (field = "ssh_private_key"%string) then tr_ssh_private_key r
  else tr_ssh_private_key_passphrase r.
Definition given (i : target_input) (field : string) : string :=
  if decide (field = "ssh_password"%string) then in_SSHPassword i
  else if decide (field = "ssh_private_key"%string) then in_SSHPrivateKey i
  else in_SSHPrivateKeyPassphrase i.
Definition nonce_of (r : nonces) (field : string) : result string (list Z) :=
  if decide (field = "ssh_password"%string) then n_password r
  else if decide (field = "ssh_private_key"%string) then n_key r else n_pass r.
Definition good_nonce (n : result string (list Z)) : Prop :=
  match n with Ok l => length l = NonceSize /\ bytes l | Err _ => True end.

Lemma split_first l1 l2 m1 m2 (x : Z) :
  x ∉ l1 -> x ∉ l2 -> l1 ++ x :: m1 = l2 ++ x :: m2 -> l1 = l2 /\ m1 = m2.
Proof.
  revert l2. induction l1 as [|a l1 IH]; intros [|b l2] H1 H2 Heq; simpl in Heq; simplify_eq.
  - done.
  - exfalso. apply H2. by left.
  - exfalso. apply H1. by left.
  - rewrite elem_of_cons in H1, H2.
    destruct (IH l2) as [-> ->]; tauto.
Qed.
Lemma target_id_no_slash id : validateTargetID id = Ok tt -> slash ∉ bs id.
Proof.
  unfold validateTargetID. intros Hv. repeat (case_match; [|done]). by apply idPattern_spec.
Qed.
Lemma credentialAAD_inj id id' f f' :
  validateTargetID id = Ok tt -> validateTargetID id' = Ok tt ->
  credentialAAD id f = credentialAAD id' f' -> id = id' /\ f = f'.
Proof.
  intros H1%target_id_no_slash H2%target_id_no_slash Heq. unfold credentialAAD in Heq.
  apply app_inv_head in Heq. simpl in Heq. apply split_first in Heq as [?%(inj bs) ?%(inj bs)]; done.
Qed.
Lemma credentialAAD_bytes id f : bytes (credentialAAD id f).
Proof.
  unfold credentialAAD. repeat apply Forall_app_2; try apply bs_bytes.
  apply Forall_singleton. unfold is_byte, slash. lia.
Qed.

Lemma ok_inj {E A} (a b : A) : @Ok E A a = Ok b -> a = b.
Proof. by intros [=]. Qed.

Section credentials.
Context `{Crypto} (encKey : list Z) (strict : bool) (ParseIP : list Z -> option (list Z)) (allowRestricted : bool).

(** What [encryptCredentials] stores in one column. *)
Definition stored_in (id field v : string) (n : result string (list Z)) (s : string) : Prop :=
  if decide (v = ""%string) then s = ""%string
  else length encKey = KeySize /\ exists nonce, n = Ok nonce /\
       EncryptWithAAD encKey v (credentialAAD id field) (Ok nonce) = Ok s.
Lemma encrypt_stored id pw k kp r a b c :
  encryptCredentials encKey id pw k kp r = Ok (a, b, c) ->
  stored_in id "ssh_password" pw (n_password r) a /\ stored_in id "ssh_private_key" k (n_key r) b /\
  stored_in id "ssh_private_key_passphrase" kp (n_pass r) c.
Proof.
  unfold encryptCredentials. destruct (negb _); [|done].
  assert (Henc : forall v f n s, (if decide (v = ""%string) then Ok v
      else of_secret (EncryptWithAAD encKey v (credentialAAD id f) n)) = Ok s -> stored_in id f v n s).
  { intros v f n s. unfold stored_in. case_decide as Hv; [intros [= <-]; done|].
    unfold EncryptWithAAD. case_bool_decide; [|done]. rewrite decide_False by done.
    destruct n as [nonce|]; [|done]. intros [= <-]. split; [done|]. exists nonce. rewrite decide_False by done. done. }
  intros Hr.
  repeat match type of Hr with (match ?e with _ => _ end) = _ => destruct e eqn:?; [|discriminate] end.
  injection Hr as <- <- <-. eauto 10.
Qed.
Lemma stored_decrypt id field v n s :
  good_nonce n -> stored_in id field v n s ->
  decryptOrPlain encKey strict s id field = v /\ (v <> ""%string -> IsEncrypted s = true) /\
  forall id' field', validateTargetID id = Ok tt -> validateTargetID id' = Ok tt -> (id', field') <> (id, field) ->
    decryptOrPlain encKey strict s id' field' = ""%string.
Proof.
  intros Hn. unfold stored_in. case_decide as Hv; [intros ->; rewrite Hv; done|].
  intros (Hk & nonce & -> & He). destruct Hn as [Hl Hb].
  pose proof He as He'. unfold EncryptWithAAD in He'.
  rewrite bool_decide_eq_true_2, decide_False in He' by done. cbv zeta in He'. apply ok_inj in He'.
  destruct (decrypt_sealed encKey nonce v (credentialAAD id field) (credentialAAD id field) Hk Hl Hb) as (Hi & Hne & _).
  rewrite He' in Hi, Hne. split; [|split; [done|]].
  - unfold decryptOrPlain. rewrite decide_False, Hi, decide_True by done.
    by rewrite (Decrypt_Encrypt encKey v _ nonce s).
  - intros id' field' Hid Hid' Hneq. unfold decryptOrPlain. rewrite decide_False, Hi, decide_True by done.
    destruct (decrypt_sealed encKey nonce v (credentialAAD id field) (credentialAAD id' field') Hk Hl Hb) as (_ & _ & Hd).
    rewrite He' in Hd. rewrite Hd, decide_True by done.
    rewrite open_seal_aad; [done|apply credentialAAD_bytes|apply credentialAAD_bytes|].
    intros Heq. apply credentialAAD_inj in Heq as [<- <-]; done.
Qed.

(** The row a successful creation leaves. *)
Lemma create_row id i g r c c' t :
  CreateWithPath encKey ParseIP allowRestricted id i g r c = (c', Ok t) ->
  validateTargetID id = Ok tt /\ configured c' = configured c /\
  exists row, targets (tables c') = <[id := row]> (targets (tables c)) /\
    (forall field, field ∈ credential_fields -> stored_in id field (given i field) (nonce_of r field) (cell row field)) /\
    (0 <= in_Port i <= 65535 -> (forall field, good_nonce (nonce_of r field)) -> port_ok row = true /\ scan_target encKey strict id row = t).
Proof.
  unfold CreateWithPath, db_bind, db_of, db_catch. unfold validate_target.
  destruct (validateTargetID id) as [[]|] eqn:Hv; [|done].
  destruct (validateName _); [|done]. destruct (validateHost _ _ _); [|done].
  destruct (validateProtocol _) as [[]|]; [|done].
  destruct (if decide (g <> ""%string) then validateGroupID g else Ok tt); [|done].
  destruct (encryptCredentials _ _ _ _ _ _) as [[[pw k] kp]|] eqn:He; [|done].
  apply encrypt_stored in He as (Hpw & Hk & Hkp).
  unfold db_exec. pose proof (configured_db_call (E:=access_err) c) as Hcf.
  pose proof (tables_db_call (E:=access_err) c) as Htb. destruct (db_call c) as [c1 [[]|]]; [|done]. simpl in *.
  destruct (targets (tables c1) !! id) eqn:El; [done|]. case_decide; [|done]. intros Hr.
  injection Hr as <- <-. split; [done|]. split; [done|]. rewrite <- Htb. simpl.
  eexists. split; [done|]. split.
  - intros field Hf. unfold credential_fields in Hf. rewrite !elem_of_cons in Hf.
    destruct Hf as [->|[->|[->|Hf]]]; [exact Hpw|exact Hk|exact Hkp|]. by apply elem_of_nil in Hf.
  - intros Hp Hg. split; [unfold port_ok; simpl; lia|].
    pose proof (Hg "ssh_password"%string) as H1. pose proof (Hg "ssh_private_key"%string) as H2.
    pose proof (Hg "ssh_private_key_passphrase"%string) as H3. unfold nonce_of in H1, H2, H3. simpl in H1, H2, H3.
    unfold scan_target; simpl.
    rewrite (proj1 (stored_decrypt _ _ _ _ _ H1 Hpw)), (proj1 (stored_decrypt _ _ _ _ _ H2 Hk)), (proj1 (stored_decrypt _ _ _ _ _ H3 Hkp)).
    by destruct (in_SFTPEnabled i), (in_FTPEnabled i), (in_TFTPEnabled i).
Qed.

(** What was registered is what a session gets: after [CreateWithPath]
    returned a target, [Get] returns the same target with its password, private
    key and passphrase, and none of them is stored in the clear. *)
Theorem credentials_roundtrip id i g r c c' t :
  CreateWithPath encKey ParseIP allowRestricted id i g r c = (c', Ok t) -> healthy c' ->
  0 <= in_Port i <= 65535 -> (forall field, good_nonce (nonce_of r field)) ->
  target_Get encKey strict id c' = (c', Ok t) /\
  t_SSHPassword t = in_SSHPassword i /\ t_SSHPrivateKey t = in_SSHPrivateKey i /\
  t_SSHPrivateKeyPassphrase t = in_SSHPrivateKeyPassphrase i /\
  exists row, targets (tables c') !! id = Some row /\
    forall field, field ∈ credential_fields -> given i field <> ""%string -> IsEncrypted (cell row field) = true.
Proof.
  intros Hr Hc Hp Hn. pose proof Hr as Hr'.
  apply create_row in Hr' as (Hv & _ & row & Ht & Hst & Hscan). destruct (Hscan Hp Hn) as [Hport Hs].
  assert (Hdec : forall f, f ∈ credential_fields -> decryptOrPlain encKey strict (cell row f) id f = given i f).
  { intros f Hf. eapply stored_decrypt; [apply (Hn f)|by apply Hst]. }
  split; [|split; [|split; [|split]]].
  - unfold target_Get, db_bind. rewrite query_run, Ht, lookup_insert_eq, Hport, Hs by done. done.
  - rewrite <- Hs. exact (Hdec "ssh_password"%string ltac:(by left)).
  - rewrite <- Hs. exact (Hdec "ssh_private_key"%string ltac:(right; by left)).
  - rewrite <- Hs. exact (Hdec "ssh_private_key_passphrase"%string ltac:(do 2 right; by left)).
  - exists row. rewrite Ht, lookup_insert_eq. split; [done|]. intros field Hf.
    eapply stored_decrypt; [apply (Hn field)|by apply Hst].
Qed.

(** A stored credential is bound to its row and column: whoever copies it to
    another target, or to another credential column, gets nothing - it reads
    back as the empty string everywhere but in its own place. *)
Theorem ciphertext_bound id i g r c c' t row field id' field' :
  CreateWithPath encKey ParseIP allowRestricted id i g r c = (c', Ok t) ->
  (forall field, good_nonce (nonce_of r field)) -> targets (tables c') !! id = Some row ->
  field ∈ credential_fields -> validateTargetID id' = Ok tt ->
  decryptOrPlain encKey strict (cell row field) id' field' =
  if decide ((id', field') = (id, field)) then given i field else ""%string.
Proof.
  intros Hr Hn Hl Hf Hid'. apply create_row in Hr as (Hv & _ & row' & Ht & Hst & _).
  rewrite Ht, lookup_insert_eq in Hl. injection Hl as ->.
  destruct (stored_decrypt _ _ _ _ _ (Hn field) (Hst field Hf)) as (H1 & _ & H2).
  case_decide as Hd; [by injection Hd as -> ->|]. by apply H2.
Qed.
End credentials.

(** ** Bulk lookup *)
Section bulk.
Context `{Crypto} (encKey : list Z) (strict : bool) (dflt : Z).

(** A target as [Get] would return it, if it would. *)
Definition lookup_target (t : access_tables) (id : string) : option Target :=
  r ← targets t !! id; if port_ok r then Some (scan_target encKey strict id r) else None.
Lemma lookup_target_Get c id :
  healthy c -> target_Get encKey strict id c =
    (c, match lookup_target (tables c) id with Some t => Ok t | None => Err ErrTargetNotFound end).
Proof.
  intros Hc. unfold target_Get, db_bind, lookup_target. rewrite query_run by done.
  destruct (targets (tables c) !! id) as [r|]; [|done]. simpl. by destruct (port_ok r).
Qed.
Lemma lookup_rows_in chunk t id :
  rows_in encKey strict chunk t !! id = if decide (id ∈ chunk) then lookup_target t id else None.
Proof.
  unfold rows_in, lookup_target. rewrite map_lookup_imap, map_lookup_filter.
  destruct (targets t !! id) as [r|]; simpl; [|by case_decide].
  unfold guard_or; case_decide; done.
Qed.
Lemma load_chunks_run c fuel ids m :
  healthy c -> (length ids <= fuel)%nat ->
  (forall id x, m !! id = Some x -> lookup_target (tables c) id = Some x) ->
  exists m', load_chunks encKey strict fuel ids m c = (c, Ok m') /\
    (forall id x, m' !! id = Some x -> lookup_target (tables c) id = Some x) /\
    (forall id x, m !! id = Some x -> m' !! id = Some x) /\
    forall id, id ∈ ids -> m' !! id = lookup_target (tables c) id.
Proof.
  intros Hc. revert ids m. induction fuel as [|fuel IH]; intros ids m Hlen Hm.
  { destruct ids; simpl in Hlen; [|lia]. exists m. split_and!; try done. by intros id ?%elem_of_nil. }
  destruct ids as [|i ids].
  { exists m. split_and!; try done. by intros id ?%elem_of_nil. }
  set (l := i :: ids) in *. set (chunk := take maxVars l).
  set (m1 := rows_in encKey strict chunk (tables c) ∪ m).
  assert (Hl1 : forall id, m1 !! id = if decide (id ∈ chunk) then lookup_target (tables c) id ∪ m !! id else m !! id).
  { intros id. unfold m1. rewrite lookup_union, lookup_rows_in. case_decide; [done|]. by destruct (m !! id). }
  assert (Hm1 : forall id x, m1 !! id = Some x -> lookup_target (tables c) id = Some x).
  { intros id x. rewrite Hl1. case_decide; [|apply Hm]. destruct (lookup_target (tables c) id) eqn:E.
    - destruct (m !! id); by intros [= ->].
    - intros Hx. destruct (m !! id) eqn:Em; [|done]. apply Hm in Em. congruence. }
  destruct (IH (drop maxVars l) m1) as (m' & Hrun & Hs & Hext & Hids).
  - rewrite length_drop. assert (1 <= maxVars)%nat by (apply Nat.leb_le; vm_compute; reflexivity).
    assert (1 <= length l)%nat by (simpl; lia). lia.
  - done.
  - exists m'. split; [|split; [done|split]].
    + change (load_chunks encKey strict (S fuel) l m) with
        (let* rows := db_query (rows_in encKey strict (take maxVars l)) in
         load_chunks encKey strict fuel (drop maxVars l) (rows ∪ m)).
      unfold db_bind. rewrite query_run by done. exact Hrun.
    + intros id x Hx. apply Hext. rewrite Hl1, Hx, (Hm id x Hx). by case_decide.
    + intros id Hid. rewrite <- (take_drop maxVars l) in Hid. apply elem_of_app in Hid as [Hid|Hid]; [|by apply Hids].
      destruct (lookup_target (tables c) id) as [x|] eqn:E.
      * apply Hext. rewrite Hl1, decide_True, E by done. by destruct (m !! id).
      * destruct (m' !! id) eqn:E'; [|done]. apply Hs in E'. congruence.
Qed.
Lemma elem_of_unique_ids seen ids id :
  id ∈ unique_ids seen ids <-> id ∈ ids /\ id <> ""%string /\ id ∉ seen.
Proof.
  revert seen. induction ids as [|i ids IH]; intros seen; simpl.
  { rewrite elem_of_nil. naive_solver. }
  case_decide as Hd.
  - rewrite IH, elem_of_cons. naive_solver.
  - rewrite !elem_of_cons, IH, elem_of_union, elem_of_singleton.
    destruct (decide (id = i)) as [->|]; naive_solver.
Qed.
Lemma NoDup_unique_ids seen ids : NoDup (unique_ids seen ids).
Proof.
  revert seen. induction ids as [|i ids IH]; intros seen; simpl; [constructor|]. case_decide; [done|].
  constructor; [|done]. rewrite elem_of_unique_ids. set_solver.
Qed.
Lemma page_ids_spec limit offset ids :
  0 <= limit -> 0 <= offset -> limit + offset <= maxInt64 ->
  page_ids limit offset ids = Ok (take (Z.to_nat limit) (drop (Z.to_nat offset) ids)).
Proof.
  intros Hl Ho Hm. unfold page_ids. case_match eqn:E1.
  - case_match eqn:E2.
    + rewrite drop_ge by lia. by rewrite take_nil.
    + rewrite int64_id by (unfold in_int64, minInt64, maxInt64 in *; lia).
      assert (E3 : (if Z.of_nat (length ids) <? offset + limit then Z.of_nat (length ids) else offset + limit) =
        Z.min (Z.of_nat (length ids)) (offset + limit)) by (case_match; lia).
      rewrite E3, (proj2 (Z.ltb_ge _ _)) by lia. f_equal.
      destruct (decide (offset + limit <= Z.of_nat (length ids))).
      * f_equal. lia.
      * rewrite !take_ge; [done|..]; rewrite length_drop; lia.
  - replace offset with 0 by lia. rewrite drop_0, take_ge; [done|lia].
Qed.

Lemma listLimit_nonneg opts limit offset : 0 < dflt -> listLimit opts dflt = (limit, offset) -> 0 <= limit /\ 0 <= offset.
Proof.
  intros Hd El. unfold listLimit in El. destruct opts as [l|]; [|injection El as <- <-; lia].
  destruct (0 <? lo_Limit l) eqn:?, (0 <? lo_Offset l) eqn:?; injection El as <- <-; lia.
Qed.
Lemma ListByIDs_run c ids opts limit offset : healthy c -> 0 < dflt -> listLimit opts dflt = (limit, offset) -> limit + offset <= maxInt64 ->
  ListByIDs encKey strict dflt ids opts c =
    (c, Ok (omap (lookup_target (tables c)) (unique_ids ∅ (take (Z.to_nat limit) (drop (Z.to_nat offset) ids))))).
Proof.
  intros Hc Hd El Hm. pose proof (listLimit_nonneg _ _ _ Hd El) as Hpos. set (page := unique_ids _ _).
  unfold ListByIDs. rewrite El, page_ids_spec by lia. unfold db_bind, db_of. fold page.
  case_decide as Hp; [by rewrite Hp|].
  destruct (load_chunks_run c (length page) page ∅) as (m' & Hrun & _ & _ & Hids); [done|done|done|].
  rewrite Hrun. unfold db_ret. do 2 f_equal. clear Hp Hrun. revert Hids. generalize page. intros l Hl.
  induction l as [|i l IH]; [done|]. simpl. rewrite (Hl i) by by left.
  assert (Hrest : omap (fun id => m' !! id) l = omap (lookup_target (tables c)) l)
    by (apply IH; intros id Hid; apply Hl; by right).
  destruct (lookup_target (tables c) i); [f_equal|]; exact Hrest.
Qed.

(** A bulk lookup returns the requested page: the targets named by it that
    exist, once each, in the order of the request, exactly as [Get] returns
    them; splitting the request into queries of 999 placeholders is invisible. *)
Theorem list_by_ids_spec c ids opts :
  healthy c -> 0 < dflt ->
  let (limit, offset) := listLimit opts dflt in
  limit + offset <= maxInt64 ->
  let page := unique_ids ∅ (take (Z.to_nat limit) (drop (Z.to_nat offset) ids)) in
  ListByIDs encKey strict dflt ids opts c = (c, Ok (omap (lookup_target (tables c)) page)) /\ NoDup page /\
  forall id, (exists t, lookup_target (tables c) id = Some t /\ id ∈ page) <->
    id ∈ take (Z.to_nat limit) (drop (Z.to_nat offset) ids) /\ id <> ""%string /\
    exists t, target_Get encKey strict id c = (c, Ok t).
Proof.
  intros Hc Hd. destruct (listLimit opts dflt) as [limit offset] eqn:El. intros Hm page.
  split; [by apply ListByIDs_run|split; [apply NoDup_unique_ids|]].
  - intros id. unfold page. setoid_rewrite elem_of_unique_ids. rewrite (lookup_target_Get c id Hc).
    split.
    + intros (t & Ht & Hin & Hne & _). split; [done|]. split; [done|]. exists t. rewrite Ht. done.
    + intros (Hin & Hne & t & Ht). exists t. destruct (lookup_target (tables c) id); simplify_eq. done.
Qed.
End bulk.

(** ** Witnesses *)
Definition demo_key : list Z := replicate 32 7.
Definition demo_nonces : nonces :=
  let n := Ok (replicate 12 1) in mkNonces n n n.
Definition demo_input : target_input :=
  mkTargetInput "Router" "router.example" 22 ProtocolSSH "" "admin" "secret" "PEM" "phrase" true false false.
Definition demo_store : conn access_tables :=
  connect (mkAccess ∅ {["lab"%string := "Lab"%string]} ∅ ∅ ∅ ∅ ∅ ∅).
Definition demo_ParseIP (h : list Z) : option (list Z) := None.
Definition demo_create : conn access_tables * result access_err Target :=
  CreateWithPath demo_key demo_ParseIP false "r1" demo_input "lab" demo_nonces demo_store.
Definition demo_target : Target :=
  mkTarget "r1" "Router" "router.example" 22 ProtocolSSH "" "admin" "secret" "PEM" "phrase" "" false true false false "" "".
Lemma demo_create_ok : demo_create = (demo_create.1, Ok demo_target).
Proof. vm_compute. reflexivity. Qed.
Lemma demo_nonces_good field : good_nonce (nonce_of demo_nonces field).
Proof.
  unfold nonce_of. repeat case_decide; (split; [reflexivity|]); apply Forall_replicate; unfold is_byte; lia.
Qed.
Lemma credentials_roundtrip_witness :
  target_Get demo_key true "r1" demo_create.1 = (demo_create.1, Ok demo_target) /\ t_SSHPassword demo_target = "secret"%string.
Proof.
  destruct (credentials_roundtrip demo_key true demo_ParseIP false "r1" demo_input "lab" demo_nonces demo_store demo_create.1 demo_target)
    as (H1 & H2 & _).
  - exact demo_create_ok.
  - split; reflexivity.
  - vm_compute. split; discriminate.
  - exact demo_nonces_good.
  - split; [exact H1|exact H2].
Defined.
Lemma ciphertext_bound_witness :
  exists row, targets (tables demo_create.1) !! "r1"%string = Some row /\
  decryptOrPlain demo_key true (tr_ssh_password row) "r2" "ssh_password" = ""%string.
Proof.
  destruct (targets (tables demo_create.1) !! "r1"%string) as [row|] eqn:E; [|vm_compute in E; discriminate].
  exists row. split; [reflexivity|].
  refine (ciphertext_bound demo_key true demo_ParseIP false "r1" demo_input "lab" demo_nonces demo_store demo_create.1
    demo_target row "ssh_password" "r2" "ssh_password" demo_create_ok demo_nonces_good E _ _).
  - left.
  - reflexivity.
Defined.
Lemma list_by_ids_spec_witness :
  ListByIDs demo_key true 100 ["r2"; "r1"; ""; "r1"]%string None demo_create.1 = (demo_create.1, Ok [demo_target]).
Proof.
  destruct (list_by_ids_spec demo_key true 100 demo_create.1 ["r2"; "r1"; ""; "r1"]%string None) as [H _].
  - split; reflexivity.
  - reflexivity.
  - vm_compute. discriminate.
  - rewrite H. vm_compute. reflexivity.
Defined.
Lemma access_ops_keep_references_witness :
  let c := foldl (fun c op => (target_exec demo_key demo_ParseIP false true op c).1) demo_create.1
    [TGroup (GAddTarget "lab" "r1"); TSetTags "r1" ["edge"]; TGroup (GDelete "old"); TDelete "r1"]%string in
  fk_ok (tables c).
Proof.
  apply (access_ops_keep_references demo_key demo_ParseIP false true _ demo_create.1).
  change (fk_ok (tables (foldl (fun c op => (target_exec demo_key demo_ParseIP false true op c).1) demo_store [TCreate "r1" demo_input "lab" demo_nonces]))).
  apply (access_ops_keep_references demo_key demo_ParseIP false true _ demo_store).
  split; simpl; try (intros *; set_solver).
Defined.
