(* ===== verification/AccessRequests.v ===== *)
(** Access requests: a user asks for a time-limited membership of a group, an
    admin approves or denies it (src/internal/access/requests.go,
    src/internal/httpapi/access_requests_handler.go).

    A handler is an operation whose errors are HTTP responses. The parts of the
    server a handler consults (the session cookie, the user's role) are in
    [request_env]; the JSON body is a value or a decoding failure. *)
From S2P Require Import Prelude GoText Sqlite Http AccessValidate AccessDB AccessGroups.
Local Open Scope Z_scope.

(** ** Store *)
Definition RequestPending : string := "pending".
Definition RequestApproved : string := "approved".
Definition RequestDenied : string := "denied".
Definition RequestCancelled : string := "cancelled".

Record AccessRequest := mkAccessRequest {
  ar_ID : string; ar_UserID : string; ar_GroupID : string; ar_Reason : string;
  ar_DurationSeconds : Z; ar_Status : string; ar_CreatedAt : time;
  ar_DecidedAt : option time; ar_DecidedBy : string; ar_DecisionNote : string;
  ar_ExpiresAt : option time
}.
(** A row of [access_requests]; the map key is the column [id]. *)
Record request_row := mkRequestRow {
  rr_user_id : string; rr_group_id : string; rr_reason : string; rr_duration_seconds : Z;
  rr_status : string; rr_created_at : Z; rr_decided_at : option Z;
  rr_decided_by : option string; rr_decision_note : option string; rr_expires_at : option Z
}.
Record request_tables := mkRequestTables {
  rq_access : access_tables;
  access_requests : gmap string request_row
}.
Abbreviation RequestM := (DB request_tables access_err).
Definition with_requests (t : request_tables) x := mkRequestTables (rq_access t) x.

(** [Create] fills in the request it is given. *)
Definition req_default (req : AccessRequest) (now : time) : AccessRequest :=
  mkAccessRequest (ar_ID req) (ar_UserID req) (ar_GroupID req) (ar_Reason req) (ar_DurationSeconds req)
    (if decide (ar_Status req = ""%string) then RequestPending else ar_Status req)
    (if IsZero (ar_CreatedAt req) then now else ar_CreatedAt req)
    (ar_DecidedAt req) (ar_DecidedBy req) (ar_DecisionNote req) (ar_ExpiresAt req).
Definition new_row (req : AccessRequest) : request_row :=
  mkRequestRow (ar_UserID req) (ar_GroupID req) (ar_Reason req) (ar_DurationSeconds req) (ar_Status req)
    (Unix (ar_CreatedAt req)) None None None None.
Definition req_Create (req : AccessRequest) (now : time) : RequestM AccessRequest :=
  if bool_decide (TrimSpace_s (ar_ID req) = ""%string) || bool_decide (TrimSpace_s (ar_UserID req) = ""%string)
  then db_throw ErrRequestInvalid
  else
    let* _ := db_of (validateGroupID (ar_GroupID req)) in
    let req := req_default req now in
    let* _ := db_exec (fun t =>
      match access_requests t !! ar_ID req with
      | Some _ => Err unique_failed
      | None =>
          if decide (ar_UserID req ∈ users (rq_access t))
          then Ok (with_requests t (<[ar_ID req := new_row req]> (access_requests t)), tt)
          else Err fk_failed
      end) in
    db_ret req.

Definition scanAccessRequest (id : string) (r : request_row) : AccessRequest :=
  mkAccessRequest id (rr_user_id r) (rr_group_id r) (rr_reason r) (rr_duration_seconds r) (rr_status r)
    (time_Unix (rr_created_at r)) (time_Unix <$> rr_decided_at r) (default ""%string (rr_decided_by r))
    (default ""%string (rr_decision_note r)) (time_Unix <$> rr_expires_at r).
Definition req_Get (id : string) : RequestM AccessRequest :=
  let* row := db_query (fun t => access_requests t !! id) in
  match row with None => db_throw ErrRequestNotFound | Some r => db_ret (scanAccessRequest id r) end.

Record AccessRequestFilter := mkRequestFilter { arf_UserID : string; arf_Status : string; arf_Limit : Z }.
Definition matches (f : AccessRequestFilter) (r : request_row) : Prop :=
  (arf_UserID f <> ""%string -> rr_user_id r = arf_UserID f) /\
  (arf_Status f <> ""%string -> rr_status r = arf_Status f).
#[export] Instance matches_dec f r : Decision (matches f r).
Proof. unfold matches. apply _. Defined.
Definition newer_first (a b : string * request_row) : bool :=
  (rr_created_at b.2 <? rr_created_at a.2) ||
  ((rr_created_at b.2 =? rr_created_at a.2) && string_lt a.1 b.1).
Definition req_List `{MapRange} (f : AccessRequestFilter) : RequestM (list AccessRequest) :=
  let limit := if (arf_Limit f <=? 0) || (1000 <? arf_Limit f) then 200 else arf_Limit f in
  let* rows := db_query (fun t => take (Z.to_nat limit) (sort_stable newer_first
    (filter (fun kr => matches f kr.2) (range (access_requests t))))) in
  db_ret ((fun kr => scanAccessRequest kr.1 kr.2) <$> rows).

Definition pending_for (u g : string) (t : request_tables) : gmap string request_row :=
  filter (fun kr => rr_user_id kr.2 = u /\ rr_group_id kr.2 = g /\ rr_status kr.2 = RequestPending)
    (access_requests t).
Definition HasPending (userID groupID : string) : RequestM bool :=
  let* n := db_query (fun t => size (pending_for userID groupID t)) in
  db_ret (bool_decide (0 < n)%nat).
Definition CountPending : RequestM Z :=
  db_query (fun t => Z.of_nat (size (filter (fun kr => rr_status kr.2 = RequestPending) (access_requests t)))).

Definition decided (r : request_row) (status decidedBy note : string) (exp : option Z) (now : time) : request_row :=
  mkRequestRow (rr_user_id r) (rr_group_id r) (rr_reason r) (rr_duration_seconds r) status (rr_created_at r)
    (Some (Unix now)) (Some decidedBy) (Some note) exp.
Definition Decide (id status decidedBy note : string) (expiresAt : option time) (now : time) : RequestM unit :=
  let* n := db_exec (fun t =>
    match access_requests t !! id with
    | Some r =>
        if decide (rr_status r = RequestPending)
        then Ok (with_requests t (<[id := decided r status decidedBy note (Unix <$> expiresAt) now]> (access_requests t)), 1)
        else Ok (t, 0)
    | None => Ok (t, 0)
    end) in
  if n =? 1 then db_ret tt
  else
    let* g := db_catch (req_Get id) in
    match g with
    | Err ErrRequestNotFound => db_throw ErrRequestNotFound
    | _ => db_throw ErrRequestNotPending
    end.

(** ** Handlers *)
Abbreviation HandlerM := (DB request_tables http_err).

Record request_env := mkRequestEnv {
  re_user : result string string;       (* currentUserIDWithError *)
  re_is_admin : string -> option bool   (* UserStore.GetByID: None on any failure *)
}.
Definition currentUserID (e : request_env) : string :=
  match re_user e with Ok u => u | Err _ => "" end.
Definition requireAdmin (e : request_env) : result http_err unit :=
  match re_user e with
  | Err _ => Err internal
  | Ok u =>
      if decide (u = ""%string) then Err (Http 401 "common.unauthorized")
      else match re_is_admin e u with
           | None => Err (Http 401 "common.unauthorized")
           | Some false => Err (Http 403 "common.forbiddenAdminOnly")
           | Some true => Ok tt
           end
  end.
Definition currentUserIsAdmin (e : request_env) : result string bool :=
  match re_user e with
  | Err err => Err err
  | Ok u => Ok (if decide (u = ""%string) then false else default false (re_is_admin e u))
  end.

Definition on_access {A} (m : AccessM A) : RequestM A := db_zoom rq_access (fun a t => mkRequestTables a (access_requests t)) m.
Definition group_err (e : access_err) : http_err :=
  match e with ErrGroupNotFound => Http 404 "groups.notFound" | _ => internal end.
Definition decide_err (e : access_err) : http_err :=
  match e with ErrRequestNotPending => Http 409 "accessRequests.notPending" | _ => internal end.

Definition accessRequestMaxReason : nat := Z.to_nat 500.
Definition accessRequestMaxDuration : Z := 365 * 24 * 3600.
Definition duration_ok (d : Z) : bool := (0 <=? d) && (d <=? accessRequestMaxDuration).

Record create_body := mkCreateBody { cb_GroupID : string; cb_Reason : string; cb_DurationSeconds : Z }.
(** [dflt] is the store's default limit; [tok] is what [randomToken] returns. *)
Definition handleCreateAccessRequest `{SetScan} (e : request_env) (body : option create_body)
    (tok : option string) (dflt : Z) (now : time) : HandlerM AccessRequest :=
  let userID := TrimSpace_s (currentUserID e) in
  if decide (userID = ""%string) then db_throw (Http 401 "common.unauthorized") else
  match body with
  | None => db_throw (Http 400 "common.invalidRequestBody")
  | Some b =>
      let groupID := TrimSpace_s (cb_GroupID b) in
      let reason := TrimSpace_s (cb_Reason b) in
      if decide (groupID = ""%string) then db_throw (Http 400 "groups.idRequired") else
      if decide (accessRequestMaxReason < length (bs reason))%nat then db_throw (Http 400 "accessRequests.reasonTooLong") else
      if negb (duration_ok (cb_DurationSeconds b)) then db_throw (Http 400 "accessRequests.durationInvalid") else
      let* _ := call (on_access (AccessGroups.Get groupID)) group_err in
      let* mine := call (on_access (GroupIDsForUser userID (Some (mkListOpts 1000 0 "")) dflt now)) (fun _ => internal) in
      if decide (groupID ∈ mine) then db_throw (Http 409 "accessRequests.alreadyHasAccess") else
      let* pending := call (HasPending userID groupID) (fun _ => internal) in
      if pending : bool then db_throw (Http 409 "accessRequests.pendingExists") else
      match tok with
      | None => db_throw internal
      | Some id =>
          call (req_Create (mkAccessRequest (Stdlib.Strings.String.substring 0 22 id) userID groupID reason (cb_DurationSeconds b)
                  RequestPending now None "" "" None) now) (fun _ => internal)
      end
  end.

Definition loadPendingRequest (urlID : string) : HandlerM AccessRequest :=
  let id := TrimSpace_s urlID in
  if decide (id = ""%string) then db_throw (Http 404 "accessRequests.notFound") else
  let* ar := call (req_Get id) (fun err =>
    match err with ErrRequestNotFound => Http 404 "accessRequests.notFound" | _ => internal end) in
  if decide (ar_Status ar = RequestPending) then db_ret ar
  else db_throw (Http 409 "accessRequests.notPending").

Record decide_body := mkDecideBody { db_DurationSeconds : option Z; db_Note : string }.
(** No body (ContentLength 0) leaves the zero value; [Some None] does not parse. *)
Definition read_decide_body (body : option (option decide_body)) : result http_err decide_body :=
  match body with
  | None => Ok (mkDecideBody None "")
  | Some None => Err (Http 400 "common.invalidRequestBody")
  | Some (Some b) => Ok b
  end.
(** [time.Now().Add(time.Duration(duration) * time.Second)] *)
Definition expiry (now : time) (duration : Z) : option time :=
  if 0 <? duration then Some (Add now (int64 (duration * second))) else None.

(** The approval up to its first write, and its writes: between them other
    requests may run. *)
Definition approve_begin (e : request_env) (urlID : string) (body : option (option decide_body)) (now : time)
    : HandlerM (AccessRequest * string * option time) :=
  let* _ := db_of (requireAdmin e) in
  let* ar := loadPendingRequest urlID in
  let* req := db_of (read_decide_body body) in
  let duration := default (ar_DurationSeconds ar) (db_DurationSeconds req) in
  if negb (duration_ok duration) then db_throw (Http 400 "accessRequests.durationInvalid") else
  db_ret (ar, db_Note req, expiry now duration).
Definition approve_commit (e : request_env) (p : AccessRequest * string * option time) (now : time)
    : HandlerM AccessRequest :=
  let '(ar, note, expiresAt) := p in
  let* _ := call (on_access (AddUserToGroupUntil (ar_UserID ar) (ar_GroupID ar) expiresAt)) group_err in
  let* _ := call (Decide (ar_ID ar) RequestApproved (currentUserID e) (TrimSpace_s note) expiresAt now) decide_err in
  let* updated := db_try (req_Get (ar_ID ar)) in
  db_ret (match updated with Ok u => u | Err _ => ar end).
Definition handleApproveAccessRequest (e : request_env) (urlID : string) (body : option (option decide_body)) (now : time)
    : HandlerM AccessRequest :=
  let* p := approve_begin e urlID body now in approve_commit e p now.

Definition handleDenyAccessRequest (e : request_env) (urlID : string) (body : option (option decide_body)) (now : time)
    : HandlerM AccessRequest :=
  let* _ := db_of (requireAdmin e) in
  let* ar := loadPendingRequest urlID in
  let* req := db_of (read_decide_body body) in
  let* _ := call (Decide (ar_ID ar) RequestDenied (currentUserID e) (TrimSpace_s (db_Note req)) None now) decide_err in
  let* updated := db_try (req_Get (ar_ID ar)) in
  db_ret (match updated with Ok u => u | Err _ => ar end).

Definition handleCancelAccessRequest (e : request_env) (urlID : string) (now : time) : HandlerM unit :=
  let userID := TrimSpace_s (currentUserID e) in
  if decide (userID = ""%string) then db_throw (Http 401 "common.unauthorized") else
  let* ar := loadPendingRequest urlID in
  let isAdmin := match currentUserIsAdmin e with Ok b => b | Err _ => false end in
  if negb (bool_decide (ar_UserID ar = userID)) && negb isAdmin then db_throw (Http 403 "common.forbidden") else
  call (Decide (ar_ID ar) RequestCancelled userID "" None now) decide_err.

Definition handleListAccessRequests `{MapRange} (e : request_env) (statusParam mineParam : string) : HandlerM (list AccessRequest) :=
  let userID := TrimSpace_s (currentUserID e) in
  if decide (userID = ""%string) then db_throw (Http 401 "common.unauthorized") else
  match currentUserIsAdmin e with
  | Err _ => db_throw internal
  | Ok isAdmin =>
      call (req_List (mkRequestFilter
        (if negb isAdmin || bool_decide (mineParam = "1"%string) then userID else ""%string)
        (TrimSpace_s statusParam) 0)) (fun _ => internal)
  end.

Record group_item := mkGroupItem { gi_ID : string; gi_Name : string; gi_HasAccess : bool }.
Fixpoint group_items (mine all : list string) : HandlerM (list group_item) :=
  match all with
  | [] => db_ret []
  | gid :: all =>
      let* g := db_try (on_access (AccessGroups.Get gid)) in
      let name := match g with Ok g => if decide (g_Name g = ""%string) then gid else g_Name g | Err _ => gid end in
      let* rest := group_items mine all in
      db_ret (mkGroupItem gid name (bool_decide (gid ∈ mine)) :: rest)
  end.
Definition handleAccessRequestGroups `{SetScan} (e : request_env) (dflt : Z) (now : time) : HandlerM (list group_item) :=
  let userID := TrimSpace_s (currentUserID e) in
  if decide (userID = ""%string) then db_throw (Http 401 "common.unauthorized") else
  let* all := call (on_access (AllGroupIDs (Some (mkListOpts 1000 0 "")) dflt)) (fun _ => internal) in
  let* mine := call (on_access (GroupIDsForUser userID (Some (mkListOpts 1000 0 "")) dflt now)) (fun _ => internal) in
  group_items mine all.

(** ** Any interleaving of handlers

    An approval is two steps, so the sequences of [h_op] include the runs in
    which others act between its check and its writes. *)
Inductive h_op :=
| HCreate (e : request_env) (body : option create_body) (tok : option string) (now : time)
| HApproveBegin (e : request_env) (urlID : string) (body : option (option decide_body)) (now : time)
| HApproveCommit (e : request_env) (p : AccessRequest * string * option time) (now : time)
| HDeny (e : request_env) (urlID : string) (body : option (option decide_body)) (now : time)
| HCancel (e : request_env) (urlID : string) (now : time)
| HAdmin (op : group_op).  (* what the group administration does meanwhile *)
Definition h_step `{SetScan} (dflt : Z) (op : h_op) : HandlerM unit :=
  match op with
  | HCreate e b tok now => let* _ := handleCreateAccessRequest e b tok dflt now in db_ret tt
  | HApproveBegin e u b now => let* _ := approve_begin e u b now in db_ret tt
  | HApproveCommit e p now => let* _ := approve_commit e p now in db_ret tt
  | HDeny e u b now => let* _ := handleDenyAccessRequest e u b now in db_ret tt
  | HCancel e u now => handleCancelAccessRequest e u now
  | HAdmin op => call (on_access (group_exec op)) (fun _ => internal)
  end.
Definition h_run `{SetScan} (dflt : Z) (ops : list h_op) (c : conn request_tables) : conn request_tables :=
  fold_left (fun c op => (h_step dflt op c).1) ops c.

Lemma preserves_on_access {A} (P : gmap string request_row -> Prop) (m : AccessM A) :
  preserves (fun t => P (access_requests t)) (on_access m).
Proof. by apply preserves_zoom. Qed.
(** Handlers whose stores keep [P]; what is left are [req_Create] and [Decide]. *)
Ltac handler_preserve :=
  repeat (preserve; try first [ simple apply preserves_call | simple apply (preserves_on_access _) ]).

Lemma h_run_preserves `{SetScan} dflt (P : gmap string request_row -> Prop) ops c :
  (forall op, preserves (fun t => P (access_requests t)) (h_step dflt op)) ->
  P (access_requests (tables c)) -> P (access_requests (tables (h_run dflt ops c))).
Proof.
  intros Hop. revert c. induction ops as [|op ops IH]; intros c Hc; [done|]. apply IH, Hop, Hc.
Qed.
(** The creation and the statement that decides are what writes the table. *)
Lemma h_step_preserves `{SetScan} dflt (P : gmap string request_row -> Prop) op :
  (forall e b tok now, preserves (fun t => P (access_requests t)) (handleCreateAccessRequest e b tok dflt now)) ->
  (forall id st by_ note exp now, preserves (fun t => P (access_requests t)) (Decide id st by_ note exp now)) ->
  preserves (fun t => P (access_requests t)) (h_step dflt op).
Proof.
  intros HC HD. destruct op; simpl;
    unfold approve_begin, approve_commit, handleDenyAccessRequest,
      handleCancelAccessRequest, loadPendingRequest, req_Get; cbv zeta; handler_preserve; eauto.
Qed.

(** ** Decisions are final *)
Definition settled (id : string) (r : request_row) (m : gmap string request_row) : Prop :=
  m !! id = Some r /\ rr_status r <> RequestPending.

Lemma Create_settled id r req now : preserves (fun t => settled id r (access_requests t)) (req_Create req now).
Proof.
  unfold req_Create. preserve. apply preserves_exec. intros t t' [] [Hl Hs] Hf.
  repeat case_match; simplify_eq. split; [|done]. simpl. rewrite lookup_insert_ne; simpl in *; congruence.
Qed.
Lemma handleCreate_settled `{SetScan} id r e b tok dflt now :
  preserves (fun t => settled id r (access_requests t)) (handleCreateAccessRequest e b tok dflt now).
Proof.
  unfold handleCreateAccessRequest, HasPending. cbv zeta. handler_preserve. apply Create_settled.
Qed.
Lemma Decide_settled id r id' st by_ note exp now :
  preserves (fun t => settled id r (access_requests t)) (Decide id' st by_ note exp now).
Proof.
  unfold Decide, req_Get. preserve. apply preserves_exec. intros t t' n [Hl Hs] Hf.
  repeat case_match; simplify_eq; split; try done. simpl. rewrite lookup_insert_ne; congruence.
Qed.

(** C13. A decision is final: once a request is approved, denied or cancelled,
    no request handler and no group operation that runs later, in any order and
    with any database failures, changes its row or removes it. *)
Theorem decisions_are_final `{SetScan} dflt ops c id r :
  access_requests (tables c) !! id = Some r -> rr_status r <> RequestPending ->
  access_requests (tables (h_run dflt ops c)) !! id = Some r.
Proof.
  intros Hl Hs. apply (h_run_preserves dflt (settled id r) ops c); [|by split].
  intros op. apply h_step_preserves; intros; [apply handleCreate_settled|apply Decide_settled].
Qed.

(** ** Approval *)
Lemma call_ok {E' A} (m : RequestM A) (h : access_err -> E') c c' a : m c = (c', Ok a) -> call m h c = (c', Ok a).
Proof. intros Hm. unfold call, db_bind, db_try. by rewrite Hm. Qed.
Lemma call_err {E' A} (m : RequestM A) (h : access_err -> E') c c' e : m c = (c', Err e) -> call m h c = (c', Err (h e)).
Proof. intros Hm. unfold call, db_bind, db_try. by rewrite Hm. Qed.
Lemma bind_ok {T E A B} (m : DB T E A) (k : A -> DB T E B) c c' a :
  m c = (c', Ok a) -> db_bind m k c = k a c'.
Proof. intros Hm. unfold db_bind. by rewrite Hm. Qed.
Lemma bind_err {T E A B} (m : DB T E A) (k : A -> DB T E B) c c' e :
  m c = (c', Err e) -> db_bind m k c = (c', Err e).
Proof. intros Hm. unfold db_bind. by rewrite Hm. Qed.

Lemma exec_run {T E A} `{DBError E} (f : T -> result string (T * A)) t :
  db_exec f (connect t) =
  match f t with Ok (t', a) => (connect t', Ok a) | Err m => (connect t, Err (db_error m)) end.
Proof. unfold db_exec. simpl. by destruct (f t) as [[]|]. Qed.

Section run.
Context (t : request_tables).
Local Notation c := (connect t).
Lemma req_Get_run id r : access_requests t !! id = Some r -> req_Get id c = (c, Ok (scanAccessRequest id r)).
Proof. intros Hl. unfold req_Get, db_bind, db_query, db_exec, db_call; simpl. rewrite Hl. done. Qed.
Lemma load_run urlID r :
  TrimSpace_s urlID <> ""%string -> access_requests t !! TrimSpace_s urlID = Some r -> rr_status r = RequestPending ->
  loadPendingRequest urlID c = (c, Ok (scanAccessRequest (TrimSpace_s urlID) r)).
Proof.
  intros Hne Hl Hp. unfold loadPendingRequest. rewrite decide_False by done.
  erewrite bind_ok; [|by apply call_ok, req_Get_run]. simpl. by rewrite decide_True.
Qed.
Lemma Decide_run id r st by_ note exp now :
  access_requests t !! id = Some r -> rr_status r = RequestPending ->
  Decide id st by_ note exp now c =
  (connect (with_requests t (<[id := decided r st by_ note (Unix <$> exp) now]> (access_requests t))), Ok tt).
Proof.
  intros Hl Hp. unfold Decide, db_bind, db_exec, db_call; simpl. rewrite Hl, decide_True by done. done.
Qed.
Lemma Decide_late id r st by_ note exp now :
  access_requests t !! id = Some r -> rr_status r <> RequestPending ->
  Decide id st by_ note exp now c = (c, Err ErrRequestNotPending).
Proof.
  intros Hl Hp. unfold Decide. erewrite bind_ok.
  2: { rewrite exec_run, Hl, decide_False by done. reflexivity. }
  simpl. erewrite bind_ok.
  2: { unfold db_catch. rewrite (req_Get_run id r) by done. reflexivity. }
  done.
Qed.
Lemma AddUser_run u g name exp :
  u ∈ users (rq_access t) -> access_groups (rq_access t) !! g = Some name ->
  on_access (AddUserToGroupUntil u g exp) c =
  (connect (mkRequestTables (with_user_groups (rq_access t) (<[(u, g) := Unix <$> exp]> (user_groups (rq_access t))))
     (access_requests t)), Ok tt).
Proof.
  intros Hu Hg. unfold on_access, db_zoom, AddUserToGroupUntil, db_tx, require_group, db_bind, db_query, db_exec, db_call; simpl.
  rewrite Hg. simpl. rewrite decide_True by (split; [done|eauto]). done.
Qed.
End run.

Lemma Unix_Add t d : Unix (Add t (d * second)) = Unix t + d.
Proof. unfold Unix, Add. rewrite Z.div_add by (unfold second, millisecond; lia). lia. Qed.
Lemma expiry_unix now d :
  duration_ok d = true -> Unix <$> expiry now d = if 0 <? d then Some (Unix now + d) else None.
Proof.
  unfold duration_ok, expiry, accessRequestMaxDuration. intros [H1 H2]%andb_true_iff.
  apply Z.leb_le in H1. apply Z.leb_le in H2. destruct (0 <? d); [|done]. simpl.
  rewrite int64_id, Unix_Add; [done|]. unfold in_int64, minInt64, maxInt64, second, millisecond. lia.
Qed.

(** The membership and the decided row an approval writes. *)
Definition approved (t : request_tables) (id : string) (r : request_row) (admin note : string) (exp : option Z) (now : time) : request_tables :=
  mkRequestTables
    (with_user_groups (rq_access t) (<[(rr_user_id r, rr_group_id r) := exp]> (user_groups (rq_access t))))
    (<[id := decided r RequestApproved admin note exp now]> (access_requests t)).

Lemma begin_run t e urlID body b now r :
  requireAdmin e = Ok tt -> read_decide_body body = Ok b ->
  TrimSpace_s urlID <> ""%string -> access_requests t !! TrimSpace_s urlID = Some r -> rr_status r = RequestPending ->
  let d := default (rr_duration_seconds r) (db_DurationSeconds b) in
  duration_ok d = true ->
  approve_begin e urlID body now (connect t) =
  (connect t, Ok (scanAccessRequest (TrimSpace_s urlID) r, db_Note b, expiry now d)).
Proof.
  intros Ha Hb Hne Hl Hp d Hd. unfold approve_begin.
  erewrite bind_ok; [|unfold db_of; by rewrite Ha].
  erewrite bind_ok; [|by apply load_run].
  erewrite bind_ok; [|unfold db_of; by rewrite Hb].
  cbn [scanAccessRequest ar_DurationSeconds]. fold d. rewrite Hd. done.
Qed.

(** An approval grants exactly what was asked for: the requester becomes a
    member of the group until [d] seconds from now (for ever when [d] is 0),
    where [d] is the admin's duration or else the requested one, and the request
    records the decision with the same expiry. *)
Theorem approve_grants t e urlID body b now r name :
  requireAdmin e = Ok tt -> read_decide_body body = Ok b ->
  TrimSpace_s urlID <> ""%string -> access_requests t !! TrimSpace_s urlID = Some r -> rr_status r = RequestPending ->
  let d := default (rr_duration_seconds r) (db_DurationSeconds b) in
  duration_ok d = true ->
  rr_user_id r ∈ users (rq_access t) -> access_groups (rq_access t) !! rr_group_id r = Some name ->
  let exp := if 0 <? d then Some (Unix now + d) else None in
  let t' := approved t (TrimSpace_s urlID) r (currentUserID e) (TrimSpace_s (db_Note b)) exp now in
  (exists ar, handleApproveAccessRequest e urlID body now (connect t) = (connect t', Ok ar) /\
     ar_Status ar = RequestApproved /\ ar_ExpiresAt ar = time_Unix <$> exp) /\
  forall later, activeMembership exp later = (d =? 0) || (Unix later <? Unix now + d).
Proof.
  intros Ha Hb Hne Hl Hp d Hd Hu Hg exp t'. split.
  - unfold handleApproveAccessRequest. erewrite bind_ok; [|by eapply begin_run].
    unfold approve_commit. fold d.
    erewrite bind_ok; [|eapply call_ok, AddUser_run; simpl; eauto].
    erewrite bind_ok; [|eapply call_ok, Decide_run; simpl; eauto].
    rewrite expiry_unix by done. fold exp. eexists.
    erewrite bind_ok; [|unfold db_try; erewrite req_Get_run; [reflexivity|simpl; apply lookup_insert_eq]].
    done.
  - intros later. unfold exp. apply andb_true_iff in Hd. destruct Hd as [Hd%Z.leb_le _].
    destruct (Z.ltb_spec 0 d), (Z.eqb_spec d 0); simpl; try lia; done.
Qed.

Lemma deny_run t e urlID body b now r :
  requireAdmin e = Ok tt -> read_decide_body body = Ok b ->
  TrimSpace_s urlID <> ""%string -> access_requests t !! TrimSpace_s urlID = Some r -> rr_status r = RequestPending ->
  exists ar, handleDenyAccessRequest e urlID body now (connect t) =
    (connect (with_requests t (<[TrimSpace_s urlID :=
       decided r RequestDenied (currentUserID e) (TrimSpace_s (db_Note b)) None now]> (access_requests t))), Ok ar).
Proof.
  intros Ha Hb Hne Hl Hp. unfold handleDenyAccessRequest. eexists.
  erewrite bind_ok; [|unfold db_of; by rewrite Ha].
  erewrite bind_ok; [|by apply load_run].
  erewrite bind_ok; [|unfold db_of; by rewrite Hb].
  erewrite bind_ok; [|eapply call_ok, Decide_run; simpl; eauto].
  unfold db_bind, db_try. erewrite req_Get_run by apply lookup_insert_eq. reflexivity.
Qed.

(** The order of the two writes of an approval lets a decision that came
    first be overruled in silence: when another admin denies the request after
    the check, the approval answers 409 "not pending" and the request stays
    denied, but the requester has the membership. *)
Theorem denied_request_still_grants t e e2 urlID body b body2 b2 now now2 now3 r name :
  requireAdmin e = Ok tt -> requireAdmin e2 = Ok tt ->
  read_decide_body body = Ok b -> read_decide_body body2 = Ok b2 ->
  TrimSpace_s urlID <> ""%string -> access_requests t !! TrimSpace_s urlID = Some r -> rr_status r = RequestPending ->
  duration_ok (default (rr_duration_seconds r) (db_DurationSeconds b)) = true ->
  rr_user_id r ∈ users (rq_access t) -> access_groups (rq_access t) !! rr_group_id r = Some name ->
  exists p c1 c2,
    approve_begin e urlID body now (connect t) = (connect t, Ok p) /\
    is_ok (handleDenyAccessRequest e2 urlID body2 now2 (connect t)).2 = true /\
    c1 = (handleDenyAccessRequest e2 urlID body2 now2 (connect t)).1 /\
    approve_commit e p now3 c1 = (c2, Err (Http 409 "accessRequests.notPending")) /\
    user_groups (rq_access (tables c1)) = user_groups (rq_access t) /\
    is_Some (user_groups (rq_access (tables c2)) !! (rr_user_id r, rr_group_id r)) /\
    rr_status <$> access_requests (tables c2) !! TrimSpace_s urlID = Some RequestDenied.
Proof.
  intros Ha Ha2 Hb Hb2 Hne Hl Hp Hd Hu Hg.
  destruct (deny_run t e2 urlID body2 b2 now2 r) as [ar Hdeny]; try done.
  rewrite Hdeny. do 3 eexists. split; [by eapply begin_run|]. split; [done|]. split; [done|].
  simpl fst. split; [|split; [done|]].
  - unfold approve_commit.
    erewrite bind_ok; [|eapply call_ok, AddUser_run; simpl; eauto].
    eapply bind_err, (call_err _ decide_err _ _ ErrRequestNotPending), Decide_late; [simpl; apply lookup_insert_eq|done].
  - simpl. rewrite !lookup_insert_eq. split; [by eexists|]. done.
Qed.

(** ** At most one pending request per user and group *)
Definition one_pending (m : gmap string request_row) : Prop :=
  forall id1 id2 r1 r2, m !! id1 = Some r1 -> m !! id2 = Some r2 ->
    rr_status r1 = RequestPending -> rr_status r2 = RequestPending ->
    rr_user_id r1 = rr_user_id r2 -> rr_group_id r1 = rr_group_id r2 -> id1 = id2.

Lemma HasPending_hoare P u g (h : access_err -> http_err) :
  hoare P (call (HasPending u g) h) (fun t r => P t /\ (r = Ok false -> pending_for u g t = ∅)).
Proof.
  intros c Hc. unfold call, db_try, HasPending, db_bind, db_query, db_exec, db_call.
  destruct (faults c) as [|[msg|] fs]; simpl; (split; [done|]); intros Hr; try done;
    injection Hr as Hr; apply bool_decide_eq_false in Hr; apply map_size_empty_iff; lia.
Qed.
Lemma Create_one_pending req now (h : access_err -> http_err) :
  hoare (fun t => one_pending (access_requests t) /\ pending_for (ar_UserID req) (ar_GroupID req) t = ∅)
    (call (req_Create req now) h) (fun t _ => one_pending (access_requests t)).
Proof.
  intros c [Hc He]. unfold call, db_try, db_bind, req_Create. destruct (_ || _); [done|].
  unfold db_bind, db_of. destruct (validateGroupID _); [|done].
  unfold db_exec, db_call. destruct (faults c) as [|[msg|] fs]; simpl; try done.
  all: destruct (access_requests (tables c) !! ar_ID req) eqn:El; [done|]; case_decide; [|done]; simpl.
  all: assert (Hno : forall id r, access_requests (tables c) !! id = Some r -> rr_status r = RequestPending ->
         rr_user_id r = ar_UserID req -> rr_group_id r = ar_GroupID req -> False)
         by (intros id r Hl Hp Hu Hg; apply map_empty with (i := id) in He;
             eapply map_lookup_filter_None_1 in He as [He|He]; [congruence|by apply (He r)]).
  all: intros id1 id2 r1 r2 H1 H2 Hp1 Hp2 Hu Hg.
  all: apply lookup_insert_Some in H1 as [[<- <-]|[Hn1 H1]]; apply lookup_insert_Some in H2 as [[<- <-]|[Hn2 H2]];
    simpl in *; try done; try (exfalso; by eapply Hno); by eapply Hc.
Qed.
Lemma handleCreate_one_pending `{SetScan} e b tok dflt now :
  preserves (fun t => one_pending (access_requests t)) (handleCreateAccessRequest e b tok dflt now).
Proof.
  unfold handleCreateAccessRequest. cbv zeta. case_decide; [preserve|]. destruct b as [b|]; [|preserve].
  do 3 (case_match; [preserve|]).
  apply preserves_bind; [handler_preserve|]. intros _. apply preserves_bind; [handler_preserve|]. intros mine.
  case_match; [preserve|]. eapply hoare_bind; [apply HasPending_hoare| |by intros ?? []].
  intros [].
  - intros c [Hc _]. done.
  - destruct tok as [id|].
    + eapply hoare_conseq; [apply Create_one_pending| |done]. intros t [Ht He]. auto.
    + intros c [Hc _]. done.
Qed.
Lemma Decide_one_pending id st by_ note exp now :
  preserves (fun t => one_pending (access_requests t)) (Decide id st by_ note exp now).
Proof.
  unfold Decide, req_Get. preserve. apply preserves_exec. intros t t' n Hone Hf.
  repeat case_match; simplify_eq; try done. simpl. stable_eq.
  intros id1 id2 r1 r2 H1 H2 Hp1 Hp2 Hu Hg.
  apply lookup_insert_Some in H1 as [[<- <-]|[Hn1 H1]]; apply lookup_insert_Some in H2 as [[<- <-]|[Hn2 H2]];
    simpl in *; [done|..]; by eapply Hone.
Qed.

(** A user never has two pending requests for the same group, whatever
    handlers run (each at a time, an approval in two steps) and whichever
    statements fail. *)
Theorem one_pending_per_group `{SetScan} dflt ops c :
  one_pending (access_requests (tables c)) -> one_pending (access_requests (tables (h_run dflt ops c))).
Proof.
  apply (h_run_preserves dflt one_pending). intros op.
  apply h_step_preserves; intros; [apply handleCreate_one_pending|apply Decide_one_pending].
Qed.

(** ** Witnesses *)
Definition demo_env (u : string) : request_env := mkRequestEnv (Ok u) (fun u => Some (bool_decide (u = "admin"%string))).
Definition demo_row : request_row := mkRequestRow "u1" "lab" "on call" 3600 RequestPending 100 None None None None.
Definition demo_requests : request_tables :=
  mkRequestTables (mkAccess {["u1"%string]} {["lab"%string := "Lab"%string]} ∅ ∅ ∅ ∅ ∅ ∅) {["r1"%string := demo_row]}.
Definition demo_body : option (option decide_body) := Some (Some (mkDecideBody (Some 60) " ok ")).

Lemma decisions_are_final_witness :
  let c := (handleDenyAccessRequest (demo_env "admin") "r1" None (time_Unix 200) (connect demo_requests)).1 in
  rr_status <$> access_requests (tables (h_run 100 [HApproveBegin (demo_env "admin") "r1" None (time_Unix 300); HCancel (demo_env "u1") "r1" (time_Unix 400)] c)) !! "r1"%string = Some RequestDenied.
Proof.
  intros c.
  rewrite (decisions_are_final 100 _ c "r1" (decided demo_row RequestDenied "admin" "" None (time_Unix 200))).
  - reflexivity.
  - vm_compute. reflexivity.
  - vm_compute. discriminate.
Defined.
Lemma approve_grants_witness :
  exists ar, handleApproveAccessRequest (demo_env "admin") "r1" demo_body (time_Unix 1000) (connect demo_requests) =
    (connect (approved demo_requests "r1" demo_row "admin" "ok" (Some 1060) (time_Unix 1000)), Ok ar).
Proof.
  destruct (approve_grants demo_requests (demo_env "admin") "r1" demo_body (mkDecideBody (Some 60) " ok ") (time_Unix 1000) demo_row "Lab")
    as [(ar & Har & _) _]; try (vm_compute; reflexivity).
  - vm_compute. discriminate.
  - exists ar. exact Har.
Defined.
Lemma denied_request_still_grants_witness :
  exists p c1 c2,
    approve_begin (demo_env "admin") "r1" None (time_Unix 1000) (connect demo_requests) = (connect demo_requests, Ok p) /\
    approve_commit (demo_env "admin") p (time_Unix 1002) c1 = (c2, Err (Http 409 "accessRequests.notPending")) /\
    is_Some (user_groups (rq_access (tables c2)) !! ("u1", "lab")%string).
Proof.
  destruct (denied_request_still_grants demo_requests (demo_env "admin") (demo_env "admin") "r1" None (mkDecideBody None "")
    None (mkDecideBody None "") (time_Unix 1000) (time_Unix 1001) (time_Unix 1002) demo_row "Lab")
    as (p & c1 & c2 & H1 & _ & _ & H2 & _ & H3 & _);
    [reflexivity|reflexivity|reflexivity|reflexivity|vm_compute; discriminate|vm_compute; reflexivity|reflexivity
    |reflexivity|apply (bool_decide_unpack _); vm_compute; exact I|reflexivity|].
  exists p, c1, c2. split; [exact H1|]. split; [exact H2|exact H3].
Defined.
Lemma one_pending_per_group_witness :
  one_pending (access_requests (tables (h_run 100
    [HCreate (demo_env "u1") (Some (mkCreateBody "lab" "again" 0)) (Some "abcdefghijklmnopqrstuvwxyz"%string) (time_Unix 5)] (connect demo_requests)))).
Proof.
  apply (one_pending_per_group 100 [_] (connect demo_requests)).
  intros id1 id2 r1 r2 H1 H2 _ _ _ _.
  change (({["r1"%string := demo_row]} : gmap string request_row) !! id1 = Some r1) in H1.
  change (({["r1"%string := demo_row]} : gmap string request_row) !! id2 = Some r2) in H2.
  apply lookup_singleton_Some in H1. apply lookup_singleton_Some in H2.
  destruct H1 as [<- _], H2 as [<- _]. reflexivity.
Defined.
