(* ===== verification/Tftp.v ===== *)
(** The embedded TFTP server (src/internal/tftp/server.go): write windows, the
    authorisation of a transfer and the files it may touch.

    The request reaches the store through the operations of AccessTargets.v, so
    every statement may fail. A file system is a map from cleaned paths to
    contents; whether [MkdirAll], [Create] and [Open] succeed is an argument. *)
From S2P Require Import Prelude GoText GoPath GoNet Sqlite Secret AccessValidate AccessDB AccessGroups AccessTargets.
Local Open Scope Z_scope.

Inductive tftp_err :=
| ErrNoStore | ErrListTargets (e : access_err) | ErrMultipleTargets | ErrNoTargetForIP | ErrFilename
| ErrGetTarget (e : access_err) | ErrNotTFTP | ErrHostNotIP | ErrIPDenied
| ErrWriteWindow | ErrReadWindow | ErrPath | ErrMkdir | ErrCreate | ErrOpen | ErrTransfer.
#[export] Instance tftp_err_eq_dec : EqDecision tftp_err. Proof. solve_decision. Defined.

(** A nil [net.IP] is []. *)
Record tftpWindow := mkWindow { expires : time; allowIP : IP }.
Record Server := mkServer {
  hasStore : bool;               (* targetStore != nil *)
  rootDir : list Z;
  windows : gmap string tftpWindow;
  readWithoutWindow : bool
}.
Definition NewServer (rootDir : list Z) (env : string) : Server :=
  mkServer true rootDir ∅ (bool_decide (env = "1"%string)).
Definition set_windows (s : Server) (w : gmap string tftpWindow) : Server :=
  mkServer (hasStore s) (rootDir s) w (readWithoutWindow s).

(** ** Windows *)
Definition OpenWriteWindow (now : time) (s : Server) (targetID : string) (clientIP : IP) (ttl : duration) : Server :=
  if ttl <=? 0 then set_windows s (delete targetID (windows s))
  else set_windows s (<[targetID := mkWindow (Add now ttl) clientIP]> (windows s)).
Definition CloseWriteWindow (now : time) (s : Server) (targetID : string) : Server :=
  OpenWriteWindow now s targetID [] 0.
Definition hasOpenWindow (now : time) (s : Server) (targetID : string) (clientIP : IP) : Server * bool :=
  match windows s !! targetID with
  | None => (s, false)
  | Some w =>
      if After now (expires w) then (set_windows s (delete targetID (windows s)), false)
      else if bool_decide (allowIP w = []) || bool_decide (clientIP = []) then (s, false)
      else (s, IP_Equal (allowIP w) clientIP)
  end.
(** The client address and the expiry, when a window is open. *)
Definition WriteWindowStatus (now : time) (s : Server) (targetID : string) : Server * option (IP * time) :=
  match windows s !! targetID with
  | None => (s, None)
  | Some w =>
      if After now (expires w) then (set_windows s (delete targetID (windows s)), None)
      else (s, Some (allowIP w, expires w))
  end.
Definition enforceWindow (now : time) (s : Server) (targetID : string) (clientIP : IP) (isWrite : bool)
    : Server * result tftp_err unit :=
  if negb isWrite && readWithoutWindow s then (s, Ok tt)
  else
    match hasOpenWindow now s targetID clientIP with
    | (s, true) => (s, Ok tt)
    | (s, false) => (s, Err (if isWrite then ErrWriteWindow else ErrReadWindow))
    end.

(** ** Paths *)
Definition safePath (s : Server) (targetID : string) (relPath : list Z) : result tftp_err (list Z) :=
  let base := Clean (Join [rootDir s; bs targetID]) in
  let full := Clean (Join [base; relPath]) in
  if negb (has_prefix full (base ++ [sep])) && negb (bool_decide (full = base)) then Err ErrPath else Ok full.

(** [strings.SplitN(s, "/", 2)] *)
Definition split2 (s : list Z) : list (list Z) :=
  match index_byte s sep with
  | None => [s]
  | Some i => [take i s; drop (S i) s]
  end.

Abbreviation filesystem := (gmap (list Z) (list Z)).

(** ** Authorisation *)
Section authorize.
Context `{Crypto, MapRange} (encKey : list Z) (strict : bool).

(** The targets whose host is the client's address; a second one is an error. *)
Fixpoint single_match (clientIP : IP) (list : list Target) (found : option Target) : result tftp_err (option Target) :=
  match list with
  | [] => Ok found
  | t :: list =>
      match ParseIP (bs (t_Host t)) with
      | Some tip =>
          if bool_decide (clientIP = []) || negb (IP_Equal clientIP tip) then single_match clientIP list found
          else match found with
               | Some _ => Err ErrMultipleTargets
               | None => single_match clientIP list (Some t)
               end
      | None => single_match clientIP list found
      end
  end.

(** What a request leads to: the server (expired windows are dropped) and the
    target with the path below its directory. *)
Abbreviation authorization := (Server * result tftp_err (string * list Z))%type.
Definition windowed (now : time) (s : Server) (clientIP : IP) (isWrite : bool) (id : string) (rel : list Z) : authorization :=
  match enforceWindow now s id clientIP isWrite with
  | (s, Ok _) => (s, Ok (id, rel))
  | (s, Err e) => (s, Err e)
  end.
(** A file name without a target: the target whose host is the client. *)
Definition authorize_by_ip (now : time) (s : Server) (clientIP : IP) (trimmed : list Z) (isWrite : bool)
    : DB access_tables tftp_err authorization :=
  let* r := db_try (ListByProtocol ProtocolTFTP) in
  db_ret match r with
  | Err e => (s, Err (ErrListTargets e))
  | Ok list =>
      match single_match clientIP list None with
      | Err e => (s, Err e)
      | Ok None => (s, Err ErrNoTargetForIP)
      | Ok (Some t) =>
          if bool_decide (trimmed = []) then (s, Err ErrFilename)
          else windowed now s clientIP isWrite (t_ID t) trimmed
      end
  end.
Definition authorize_by_id (now : time) (s : Server) (clientIP : IP) (targetID : string) (rel : list Z) (isWrite : bool)
    : DB access_tables tftp_err authorization :=
  let* r := db_try (target_Get encKey strict targetID) in
  db_ret match r with
  | Err e => (s, Err (ErrGetTarget e))
  | Ok target =>
      if negb (bool_decide (t_Protocol target = ProtocolTFTP)) then (s, Err ErrNotTFTP)
      else
        match ParseIP (bs (t_Host target)) with
        | None => (s, Err ErrHostNotIP)
        | Some targetIP =>
            if bool_decide (clientIP = []) || negb (IP_Equal clientIP targetIP) then (s, Err ErrIPDenied)
            else windowed now s clientIP isWrite (t_ID target) rel
        end
  end.
Definition authorize (now : time) (s : Server) (clientIP : IP) (filename : list Z) (isWrite : bool)
    : DB access_tables tftp_err authorization :=
  if negb (hasStore s) then db_ret (s, Err ErrNoStore)
  else
    let trimmed := trim_left_byte filename sep in
    match split2 trimmed with
    | [p0; p1] =>
        if bool_decide (p0 = []) || bool_decide (p1 = []) then authorize_by_ip now s clientIP trimmed isWrite
        else authorize_by_id now s clientIP (str_of p0) p1 isWrite
    | _ => authorize_by_ip now s clientIP trimmed isWrite
    end.

(** ** Transfers *)
Record world := mkWorld { w_db : conn access_tables; w_server : Server; w_files : filesystem }.

(** [data]: what arrives before the transfer ends; [complete] says whether it
    ended without an error. The file is truncated before the first byte. *)
Definition handleWrite (now : time) (clientIP : IP) (filename : list Z) (mkdir create : bool) (data : list Z) (complete : bool)
    (w : world) : world * result tftp_err unit :=
  match authorize now (w_server w) clientIP filename true (w_db w) with
  | (c, Err e) => (mkWorld c (w_server w) (w_files w), Err e)
  | (c, Ok (s, Err e)) => (mkWorld c s (w_files w), Err e)
  | (c, Ok (s, Ok (id, rel))) =>
      match safePath s id rel with
      | Err e => (mkWorld c s (w_files w), Err e)
      | Ok full =>
          if negb mkdir then (mkWorld c s (w_files w), Err ErrMkdir)
          else if negb create then (mkWorld c s (w_files w), Err ErrCreate)
          else (mkWorld c s (<[full := data]> (w_files w)), if complete then Ok tt else Err ErrTransfer)
      end
  end.
(** The content the client gets. *)
Definition handleRead (now : time) (clientIP : IP) (filename : list Z) (open : bool)
    (w : world) : world * result tftp_err (list Z) :=
  match authorize now (w_server w) clientIP filename false (w_db w) with
  | (c, Err e) => (mkWorld c (w_server w) (w_files w), Err e)
  | (c, Ok (s, Err e)) => (mkWorld c s (w_files w), Err e)
  | (c, Ok (s, Ok (id, rel))) =>
      match safePath s id rel with
      | Err e => (mkWorld c s (w_files w), Err e)
      | Ok full =>
          match (if open then w_files w !! full else None) with
          | None => (mkWorld c s (w_files w), Err ErrOpen)
          | Some content => (mkWorld c s (w_files w), Ok content)
          end
      end
  end.
End authorize.

(** ** The directory of a target *)

Definition target_dir (s : Server) (targetID : string) : list (list Z) :=
  clean_elems true (split_byte (rootDir s) sep) ++ [bs targetID].
(** The elements of [relPath] resolved from there. *)
Definition resolve (s : Server) (targetID : string) (relPath : list Z) : list (list Z) :=
  reverse (foldl (clean_step true) (reverse (target_dir s targetID)) (split_byte relPath sep)).

Lemma valid_id_chars id x : validateTargetID id = Ok tt -> x ∈ bs id -> id_char x = true.
Proof.
  unfold validateTargetID. intros E. inv_ok E. unfold idPattern in *. destruct_and?.
  repeat match goal with H : _ && _ = true |- _ => apply andb_true_iff in H as [? ?] end.
  match goal with H : forallb _ _ = true |- _ => rewrite forallb_forall in H end.
  intros Hx. by match goal with H : forall _, _ |- _ => apply H; apply list_elem_of_In end.
Qed.
Lemma valid_id_normal id : validateTargetID id = Ok tt -> normal (bs id).
Proof.
  intros Hv. pose proof (fun x => valid_id_chars id x Hv) as Hin. repeat split.
  - intros E. unfold validateTargetID in Hv. by rewrite E in Hv.
  - intros E. specialize (Hin 46). rewrite E in Hin. by specialize (Hin ltac:(by left)).
  - intros E. specialize (Hin 46). rewrite E in Hin. by specialize (Hin ltac:(by left)).
  - intros Hs. by specialize (Hin _ Hs).
Qed.

(** Every target in the tables has an identifier the store accepts, in every
    reachable state of the stores. *)
Definition valid_ids (t : access_tables) : Prop :=
  forall id, is_Some (targets t !! id) -> validateTargetID id = Ok tt.
Lemma valid_ids_subset t t' :
  (forall id, is_Some (targets t' !! id) -> is_Some (targets t !! id)) -> valid_ids t -> valid_ids t'.
Proof. unfold valid_ids. eauto. Qed.
Lemma delete_targets_subset P t id : is_Some (targets (delete_targets P t) !! id) -> is_Some (targets t !! id).
Proof. simpl. intros [r [Hr _]%map_lookup_filter_Some]. eauto. Qed.
Lemma update_target_ids id f : preserves valid_ids (update_target id f).
Proof.
  apply preserves_exec. intros t t' n Hv Hx. destruct (targets t !! id) as [r|] eqn:Hl; simplify_eq; [|done].
  eapply valid_ids_subset; [|exact Hv]. intros i. simpl. rewrite lookup_insert_is_Some'. intros [<-|]; eauto.
Qed.
Lemma insert_target_tags_ids id tags : preserves valid_ids (insert_target_tags id tags).
Proof.
  induction tags as [|tag tags IH]; simpl; preserve; [|done].
  apply preserves_exec. intros t t' [] Hv Hf. by repeat case_decide; simplify_eq.
Qed.
Lemma insert_group_tags_ids g tags : preserves valid_ids (insert_group_tags g tags).
Proof.
  induction tags as [|tag tags IH]; simpl; preserve; [|done].
  apply preserves_exec. intros t t' [] Hv Hf. by repeat case_decide; simplify_eq.
Qed.
Ltac ids_preserve :=
  preserve; try first
    [ apply preserves_found | apply preserves_require_group | apply update_target_ids
    | apply insert_target_tags_ids | apply insert_group_tags_ids
    | apply preserves_exec; intros t t' ? Hv Hf; repeat case_match; by simplify_eq ].
Lemma group_ops_ids `{UnicodeTables} op : preserves valid_ids (group_exec op).
Proof.
  destruct op; simpl;
    [unfold Create|unfold Update|unfold Delete|unfold AddUserToGroupUntil|unfold RemoveUserFromGroup
    |unfold PurgeExpiredMemberships|unfold AddTargetToGroup|unfold RemoveTargetFromGroup|unfold SetGroupTags];
    ids_preserve.
  apply preserves_exec. intros t t' num Hv Hf. case_match; simplify_eq; [|done].
  eapply valid_ids_subset; [|exact Hv]. intros i. apply delete_targets_subset.
Qed.
Lemma access_ops_ids `{Crypto, UnicodeTables} encKey P allowRestricted strict op :
  preserves valid_ids (target_exec encKey P allowRestricted strict op).
Proof.
  destruct op; simpl; [|unfold target_Update, target_Get|unfold SetSSHHostKeyFingerprint
    |unfold SetSSHHostKeyInsecureSkipVerify|unfold SetCredentialSource|unfold target_Delete|unfold SetTargetTags|apply group_ops_ids];
    try by ids_preserve.
  - unfold CreateWithPath. destruct (validate_target P allowRestricted id i) as [[]|e] eqn:Ev; [|by intros c Hc].
    assert (validateTargetID id = Ok tt) as Hid by (unfold validate_target in Ev; by destruct (validateTargetID id) as [[]|]).
    ids_preserve. apply preserves_exec. intros t t' [] Hv Hf. repeat case_match; simplify_eq.
    intros j. simpl. rewrite lookup_insert_is_Some'. intros [<-|]; auto.
  - ids_preserve. apply preserves_exec. intros t t' num Hv Hf. case_match; simplify_eq; [|done].
    eapply valid_ids_subset; [|exact Hv]. intros i. apply delete_targets_subset.
Qed.

(** ** Where a path leads *)
Section paths.
Context (s : Server) (targetID : string).
Hypothesis root_is_absolute : is_rooted (rootDir s) = true.
Hypothesis id_is_normal : normal (bs targetID).

Lemma target_dir_normal : Forall normal (target_dir s targetID).
Proof using id_is_normal.
  apply Forall_app_2; [apply clean_elems_normal, split_byte_seps|by apply Forall_singleton].
Qed.
Lemma resolve_normal rel : Forall normal (resolve s targetID rel).
Proof using id_is_normal.
  apply Forall_reverse, foldl_clean_rooted; [apply Forall_reverse, target_dir_normal|apply split_byte_seps].
Qed.
Lemma base_path : Clean (Join [rootDir s; bs targetID]) = abs_path (target_dir s targetID).
Proof using root_is_absolute id_is_normal.
  assert (Join [rootDir s; bs targetID] = abs_path (target_dir s targetID)) as ->.
  { cbn [Join]. rewrite bool_decide_false by (intros E; by rewrite E in root_is_absolute).
    change (join_byte [rootDir s; bs targetID] sep) with (rootDir s ++ concat [sep :: bs targetID]).
    simpl concat. rewrite app_nil_r. unfold Clean. rewrite bool_decide_false by (by destruct (rootDir s)).
    rewrite is_rooted_app by done. unfold render_path, abs_path. f_equal. f_equal.
    unfold clean_elems, target_dir. rewrite split_byte_app_sep, foldl_app.
    rewrite (split_byte_none (bs targetID)) by apply id_is_normal. simpl foldl.
    rewrite clean_step_normal by done. by rewrite reverse_cons. }
  apply Clean_abs, target_dir_normal.
Qed.
(** [safePath] accepts exactly the paths that resolve into the target's directory. *)
Lemma safePath_spec rel :
  safePath s targetID rel =
  if decide (target_dir s targetID `prefix_of` resolve s targetID rel)
  then Ok (abs_path (resolve s targetID rel)) else Err ErrPath.
Proof using root_is_absolute id_is_normal.
  unfold safePath. rewrite base_path, Join_below by apply target_dir_normal.
  change (reverse (foldl (clean_step true) (reverse (target_dir s targetID)) (split_byte rel sep))) with (resolve s targetID rel).
  rewrite Clean_abs by apply resolve_normal.
  set (dir := target_dir s targetID). set (fs := resolve s targetID rel).
  assert (dir <> []) as Hne by (subst dir; unfold target_dir; by intros [_ ?]%app_nil).
  destruct (decide (dir `prefix_of` fs)) as [[rest Hfs]|Hn].
  - destruct (decide (rest = [])) as [->|Hr].
    + rewrite app_nil_r in Hfs. rewrite Hfs, (bool_decide_true (abs_path dir = abs_path dir)) by done. simpl negb. by rewrite andb_false_r.
    + by rewrite Hfs, abs_prefix_of by done.
  - destruct (has_prefix (abs_path fs) (abs_path dir ++ [sep])) eqn:E.
    + destruct Hn. apply abs_prefix in E as (rest & -> & _); [by eexists|apply target_dir_normal|apply resolve_normal|done].
    + rewrite bool_decide_false; [done|]. intros Heq%abs_path_inj; [|apply resolve_normal|apply target_dir_normal].
      by rewrite Heq in Hn.
Qed.
End paths.

Lemma safePath_inside s targetID rel full :
  is_rooted (rootDir s) = true -> validateTargetID targetID = Ok tt ->
  safePath s targetID rel = Ok full ->
  exists names, Forall normal names /\ full = abs_path (target_dir s targetID ++ names).
Proof.
  intros Hroot Hv%valid_id_normal. rewrite safePath_spec by done. case_decide as Hp; [|done]. intros [= <-].
  destruct Hp as [names Hn]. exists names. rewrite <- Hn. split; [|done].
  pose proof (resolve_normal s targetID Hv rel) as Hf. rewrite Hn in Hf. by apply Forall_app in Hf as [_ ?].
Qed.
(** A path that [safePath] accepts stays in the directory of its target:
    it is that directory followed by ordinary names, whatever dots, separators
    and double dots the request has. *)
Theorem safePath_confined s targetID rel full :
  is_rooted (rootDir s) = true -> validateTargetID targetID = Ok tt ->
  safePath s targetID rel = Ok full ->
  exists names, Forall normal names /\ full = abs_path (target_dir s targetID ++ names).
Proof. apply safePath_inside. Qed.
(** Every file of the directory can be named. *)
Theorem safePath_complete s targetID names :
  is_rooted (rootDir s) = true -> validateTargetID targetID = Ok tt -> Forall normal names -> names <> [] ->
  safePath s targetID (join_byte names sep) = Ok (abs_path (target_dir s targetID ++ names)).
Proof.
  intros Hroot Hv%valid_id_normal Hn Hne. rewrite safePath_spec by done.
  assert (resolve s targetID (join_byte names sep) = target_dir s targetID ++ names) as ->.
  { unfold resolve. rewrite split_join; [|done|eapply Forall_impl; [exact Hn|]; by intros ? (_&_&_&?)].
    by rewrite foldl_clean_normal, reverse_app, !reverse_involutive by done. }
  rewrite decide_True by (by eexists). done.
Qed.
(** The directories of two targets have no path in common. *)
Theorem target_dirs_disjoint s id1 id2 rel1 rel2 full :
  is_rooted (rootDir s) = true -> validateTargetID id1 = Ok tt -> validateTargetID id2 = Ok tt ->
  safePath s id1 rel1 = Ok full -> safePath s id2 rel2 = Ok full -> id1 = id2.
Proof.
  intros Hroot Hv1 Hv2 H1 H2.
  apply safePath_inside in H1 as (n1 & Hn1 & ->); [|done..].
  apply safePath_inside in H2 as (n2 & Hn2 & E); [|done..].
  apply valid_id_normal in Hv1, Hv2.
  apply abs_path_inj in E; [|apply Forall_app_2; [by apply target_dir_normal|done]..].
  unfold target_dir in E. rewrite <- !app_assoc in E. apply app_inv_head in E. simpl in E.
  injection E as E _. by apply bs_inj.
Qed.

(** ** Who may write *)

Lemma query_inv {T E A} `{DBError E} (f : T -> A) (c c' : conn T) a :
  db_query f c = (c', Ok a) -> a = f (tables c) /\ tables c' = tables c.
Proof.
  unfold db_query, db_exec, db_call. destruct (faults c) as [|[msg|] fs]; intros E'; by simplify_eq/=.
Qed.
(** [client] may write files of target [id] now: a TFTP target whose host is
    the client's address, with a window open for that address. *)
Record may_write (t : access_tables) (s : Server) (now : time) (client : IP) (id : string) : Prop := {
  mw_target : exists row ip, targets t !! id = Some row /\ tr_protocol row = ProtocolTFTP /\
    ParseIP (bs (tr_host row)) = Some ip /\ IP_Equal client ip = true;
  mw_window : exists win, windows s !! id = Some win /\ now <= expires win /\ IP_Equal (allowIP win) client = true
}.

Lemma hasOpenWindow_spec now s id client s' :
  hasOpenWindow now s id client = (s', true) ->
  s' = s /\ exists win, windows s !! id = Some win /\ now <= expires win /\ IP_Equal (allowIP win) client = true.
Proof.
  unfold hasOpenWindow. destruct (windows s !! id) as [win|]; [|done].
  unfold After. destruct (Z.ltb_spec (expires win) now); [done|]. destruct (_ || _); [done|].
  intros [= <- E]. eauto.
Qed.
(** Whatever happens, a request opens no window and changes no configuration. *)
Lemma hasOpenWindow_only_prunes now s id client :
  let s' := (hasOpenWindow now s id client).1 in
  windows s' ⊆ windows s /\ rootDir s' = rootDir s /\ readWithoutWindow s' = readWithoutWindow s.
Proof. unfold hasOpenWindow. repeat case_match; simpl; split_and!; try done. apply delete_subseteq. Qed.

Section writes.
Context `{Crypto, MapRange} (encKey : list Z) (strict : bool).

Lemma single_match_spec client list found t :
  single_match client list found = Ok (Some t) ->
  found = Some t \/ (t ∈ list /\ exists ip, ParseIP (bs (t_Host t)) = Some ip /\ IP_Equal client ip = true).
Proof.
  revert found. induction list as [|t0 list IH]; intros found; simpl; [intros [= ->]; by left|].
  destruct (ParseIP (bs (t_Host t0))) as [ip|] eqn:Ep.
  - destruct (_ || _) eqn:E.
    + intros Hs%IH. destruct Hs as [?|[? ?]]; [by left|right]. split; [by right|done].
    + destruct found; [done|]. intros Hs%IH. right. apply orb_false_iff in E as [_ E%negb_false_iff].
      destruct Hs as [[= <-]|[? ?]]; [split; [by left|eauto]|split; [by right|done]].
  - intros Hs%IH. destruct Hs as [?|[? ?]]; [by left|right]. split; [by right|done].
Qed.

Lemma windowed_write now s client id rel s' id' rel' :
  windowed now s client true id rel = (s', Ok (id', rel')) ->
  s' = s /\ id' = id /\ exists win, windows s !! id = Some win /\ now <= expires win /\ IP_Equal (allowIP win) client = true.
Proof.
  unfold windowed, enforceWindow. simpl. destruct (hasOpenWindow now s id client) as [s1 []] eqn:E; [|done].
  intros [= <- <- <-]. apply hasOpenWindow_spec in E as [-> E]. done.
Qed.
Lemma try_inv {T E E' A} (m : DB T E A) (c c' : conn T) (r : result E A) :
  @db_try T E E' A m c = (c', Ok r) -> m c = (c', r).
Proof. unfold db_try. destruct (m c). by intros [= <- <-]. Qed.

Lemma authorize_by_ip_write now s client trimmed c c' s' id rel :
  authorize_by_ip now s client trimmed true c = (c', Ok (s', Ok (id, rel))) ->
  s' = s /\ may_write (tables c) s now client id.
Proof.
  intros E. apply bind_inv in E as (c1 & r & El%try_inv & Hr). injection Hr as _ Hr.
  destruct r as [list|]; [|done]. destruct (single_match client list None) as [[t|]|] eqn:Es; [|done..].
  destruct (bool_decide _); [done|]. apply windowed_write in Hr as (-> & -> & Hw). split; [done|].
  apply single_match_spec in Es as [?|(Hin & ip & Hp & He)]; [done|].
  unfold ListByProtocol in El. apply bind_inv in El as (c2 & rows & Hq & Hr). injection Hr as _ <-.
  apply query_inv in Hq as [-> _]. apply list_elem_of_omap in Hin as ([k row] & Hin & Hrow).
  apply list_elem_of_filter in Hin as [Hproto Hin%elem_of_range]. simpl in *.
  destruct (port_ok row); simplify_eq/=. split; [|done]. eauto 10.
Qed.
Lemma authorize_by_id_write now s client targetID p c c' s' id rel :
  authorize_by_id encKey strict now s client targetID p true c = (c', Ok (s', Ok (id, rel))) ->
  s' = s /\ may_write (tables c) s now client id.
Proof.
  intros E. apply bind_inv in E as (c1 & r & Eg%try_inv & Hr). injection Hr as _ Hr.
  destruct r as [t|]; [|done]. destruct (bool_decide (t_Protocol t = ProtocolTFTP)) eqn:Et; [|done].
  apply bool_decide_eq_true in Et. simpl in Hr.
  destruct (ParseIP (bs (t_Host t))) as [ip|] eqn:Ep; [|done].
  destruct (bool_decide (client = []) || negb (IP_Equal client ip)) eqn:E; [done|].
  apply orb_false_iff in E as [_ E%negb_false_iff].
  apply windowed_write in Hr as (-> & -> & Hw). split; [done|].
  unfold target_Get in Eg. apply bind_inv in Eg as (c2 & row & Hq & Hr). apply query_inv in Hq as [-> _].
  destruct (targets (tables c) !! targetID) as [row|] eqn:El; [|done].
  destruct (port_ok row); [|done]. injection Hr as _ <-. simpl in *. split; [|done]. eauto 10.
Qed.
Lemma authorize_write now s client filename c c' s' id rel :
  authorize encKey strict now s client filename true c = (c', Ok (s', Ok (id, rel))) ->
  s' = s /\ may_write (tables c) s now client id.
Proof.
  unfold authorize. destruct (hasStore s); [|done]. simpl negb. cbv iota zeta.
  destruct (split2 _) as [|p0 [|p1 [|? ?]]]; try apply authorize_by_ip_write.
  destruct (_ || _); [apply authorize_by_ip_write|apply authorize_by_id_write].
Qed.

(** A TFTP request changes at most one file, and only when the client may
    write: the file is in the directory of a TFTP target whose host is the
    client's address, and a window is open for that target and that address.
    Every other request, refused at whichever check, leaves the files alone. *)
Theorem write_needs_window now client filename mkdir create data complete w w' r :
  is_rooted (rootDir (w_server w)) = true -> valid_ids (tables (w_db w)) ->
  handleWrite encKey strict now client filename mkdir create data complete w = (w', r) ->
  w_files w' = w_files w \/
  exists id names, may_write (tables (w_db w)) (w_server w) now client id /\ Forall normal names /\
    w_files w' = <[abs_path (target_dir (w_server w) id ++ names) := data]> (w_files w).
Proof.
  intros Hroot Hids. unfold handleWrite.
  destruct (authorize encKey strict now (w_server w) client filename true (w_db w)) as [c [[s [[id rel]|e]]|e]] eqn:Ea;
    [|intros [= <- _]; by left..].
  apply authorize_write in Ea as [-> Hmay].
  destruct (safePath (w_server w) id rel) as [full|e] eqn:Ep; [|intros [= <- _]; by left].
  destruct mkdir; simpl; [|intros [= <- _]; by left]. destruct create; simpl; [|intros [= <- _]; by left].
  intros [= <- _]. right. simpl. exists id.
  assert (validateTargetID id = Ok tt) as Hv by (destruct (mw_target _ _ _ _ _ Hmay) as (row & _ & Hl & _); eauto).
  apply safePath_inside in Ep as (names & Hn & ->); [|done..]. eauto.
Qed.
End writes.

(** ** What an authorised device can do *)
Section allowed.
Context `{Crypto, MapRange} (encKey : list Z) (strict : bool).

Lemma split2_app p rest : sep ∉ p -> split2 (p ++ sep :: rest) = [p; rest].
Proof.
  intros Hp. unfold split2.
  assert (index_byte (p ++ sep :: rest) sep = Some (length p)) as ->.
  { induction p as [|x p IH]; simpl; [done|]. apply not_elem_of_cons in Hp as [Hx Hp].
    replace (x =? sep) with false by (symmetry; apply Z.eqb_neq; congruence). by rewrite IH. }
  rewrite take_app_length. replace (S (length p)) with (length p + 1)%nat by lia.
  rewrite drop_app_add. done.
Qed.
Lemma trim_left_none p c : head p <> Some c -> trim_left_byte p c = p.
Proof.
  destruct p as [|x p]; simpl; [done|]. intros Hx.
  replace (x =? c) with false; [done|]. symmetry. apply Z.eqb_neq. congruence.
Qed.

Lemma target_Get_healthy id row c :
  healthy c -> targets (tables c) !! id = Some row -> port_ok row = true ->
  target_Get encKey strict id c = (c, Ok (scan_target encKey strict id row)).
Proof. intros Hh Hrow Hport. unfold target_Get. rewrite bind_query by done. by rewrite Hrow, Hport. Qed.
Lemma bind_try {T E E' A B} (m : DB T E A) (k : result E A -> DB T E' B) (c c' : conn T) r :
  m c = (c', r) -> db_bind (db_try m) k c = k r c'.
Proof. intros Hm. unfold db_bind, db_try. by rewrite Hm. Qed.
Lemma windowed_open now s client id rel win :
  windows s !! id = Some win -> now <= expires win -> IP_Equal (allowIP win) client = true ->
  allowIP win <> [] -> client <> [] -> windowed now s client true id rel = (s, Ok (id, rel)).
Proof.
  intros Hwin Hnow He Ha Hc. unfold windowed, enforceWindow. simpl. unfold hasOpenWindow. rewrite Hwin.
  unfold After. replace (expires win <? now) with false by (symmetry; apply Z.ltb_ge; lia).
  rewrite !bool_decide_false by done. simpl. by rewrite He.
Qed.
Lemma authorize_by_id_open now s client id row rel win c :
  healthy c -> targets (tables c) !! id = Some row -> port_ok row = true -> tr_protocol row = ProtocolTFTP ->
  ParseIP (bs (tr_host row)) = Some client -> client <> [] ->
  windows s !! id = Some win -> now <= expires win -> IP_Equal (allowIP win) client = true -> allowIP win <> [] ->
  authorize_by_id encKey strict now s client id rel true c = (c, Ok (s, Ok (id, rel))).
Proof.
  intros Hh Hrow Hport Hproto Hip Hc Hwin Hnow He Ha. unfold authorize_by_id.
  rewrite (bind_try _ _ _ _ _ (target_Get_healthy id row c Hh Hrow Hport)).
  simpl. rewrite Hproto, bool_decide_true, Hip by done. simpl.
  rewrite bool_decide_false, IP_Equal_refl by done. simpl.
  by rewrite (windowed_open now s client id rel win).
Qed.

(** A client that may write, named by the target's identifier. *)
Record window_open (w : world) (now : time) (client : IP) (id : string) : Prop := {
  wo_healthy : healthy (w_db w);
  wo_store : hasStore (w_server w) = true;
  wo_root : is_rooted (rootDir (w_server w)) = true;
  wo_id : validateTargetID id = Ok tt;
  wo_client : client <> [];
  wo_row : exists row, targets (tables (w_db w)) !! id = Some row /\ port_ok row = true /\
    tr_protocol row = ProtocolTFTP /\ ParseIP (bs (tr_host row)) = Some client;
  wo_window : exists win, windows (w_server w) !! id = Some win /\ now <= expires win /\
    IP_Equal (allowIP win) client = true /\ allowIP win <> []
}.
Lemma write_runs now client id rel full data w :
  window_open w now client id -> rel <> [] -> safePath (w_server w) id rel = Ok full ->
  handleWrite encKey strict now client (bs id ++ sep :: rel) true true data true w =
  (mkWorld (w_db w) (w_server w) (<[full := data]> (w_files w)), Ok tt).
Proof.
  intros [Hh Hs Hroot Hv Hc (row & Hrow & Hport & Hproto & Hip) (win & Hwin & Hnow & Hallow & Ha)] Hne Hp.
  pose proof (valid_id_normal id Hv) as (Hid & _ & _ & Hsep).
  unfold handleWrite, authorize. rewrite Hs. simpl negb. cbv iota zeta.
  rewrite trim_left_none by (destruct (bs id) as [|x l]; [done|]; simpl; intros [= ->]; destruct Hsep; by left).
  rewrite split2_app by done. rewrite (bool_decide_false (bs id = [])), (bool_decide_false (rel = [])) by done.
  cbv beta iota delta [orb negb]. rewrite str_of_bs.
  rewrite (authorize_by_id_open now (w_server w) client id row _ win) by done.
  by rewrite Hp.
Qed.

(** A device with an open window reaches its files: what it sends to
    [id/names] from the target's address is what the file [names] of the
    target's directory contains afterwards, and nothing else changes. *)
Theorem write_allowed now client id names data w :
  window_open w now client id -> Forall normal names -> names <> [] ->
  handleWrite encKey strict now client (bs id ++ sep :: join_byte names sep) true true data true w =
  (mkWorld (w_db w) (w_server w) (<[abs_path (target_dir (w_server w) id ++ names) := data]> (w_files w)), Ok tt).
Proof.
  intros Hw Hn Hne. apply write_runs; [done| |apply safePath_complete; [apply Hw|apply Hw|done..]].
  intros E. destruct names as [|m [|m' names]]; [done|..]; apply Forall_cons in Hn as [(Hm&_) _]; simpl in E; by destruct m.
Qed.

(** A window also lets the device write to the path of the directory itself:
    the name [id/.] is accepted and, as long as the directory does not exist,
    puts a file in its place, which makes every later transfer of the target fail. *)
Theorem write_replaces_directory now client id data w :
  window_open w now client id ->
  handleWrite encKey strict now client (bs id ++ sep :: dot) true true data true w =
  (mkWorld (w_db w) (w_server w) (<[abs_path (target_dir (w_server w) id) := data]> (w_files w)), Ok tt).
Proof.
  intros Hw. apply write_runs; [done..|].
  rewrite safePath_spec; [|apply Hw|apply valid_id_normal, Hw].
  assert (resolve (w_server w) id dot = target_dir (w_server w) id) as -> by (unfold resolve; simpl; apply reverse_involutive).
  by rewrite decide_True.
Qed.
End allowed.

(** A target with the address 192.0.2.10 and an open window. *)
Definition demo_ip : IP := v4_prefix ++ [192; 0; 2; 10].
Definition demo_row : target_row :=
  mkTargetRow "Switch" "192.0.2.10" 69 "tftp" "g1" "g1" "" "" "" "" 0 0 0 "" 0 "" "".
Definition demo_tftp : world :=
  mkWorld (connect (mkAccess ∅ {["g1" := "G1"]} {["sw1" := demo_row]} ∅ ∅ ∅ ∅ ∅))
    (OpenWriteWindow 0 (NewServer (bs "/app/data/tftp") "") "sw1" demo_ip minute) ∅.

Lemma demo_window_open : window_open demo_tftp 5 demo_ip "sw1".
Proof.
  split; [done|done|by vm_compute|by vm_compute|discriminate|..].
  - exists demo_row. split; [by vm_compute|]. split; [by vm_compute|]. split; [done|by vm_compute].
  - exists (mkWindow minute demo_ip). split; [by vm_compute|]. split; [by apply (bool_decide_eq_true_1 _)|].
    split; [by vm_compute|discriminate].
Qed.
Lemma write_allowed_witness :
  handleWrite (H := toy_crypto) [] true 5 demo_ip (bs "sw1" ++ sep :: join_byte [bs "cfg"; bs "a.txt"] sep) true true (bs "hello") true demo_tftp =
  (mkWorld (w_db demo_tftp) (w_server demo_tftp) {[bs "/app/data/tftp/sw1/cfg/a.txt" := bs "hello"]}, Ok tt).
Proof.
  apply (write_allowed (H := toy_crypto) [] true 5 demo_ip "sw1" [bs "cfg"; bs "a.txt"] (bs "hello") demo_tftp demo_window_open).
  - by apply (bool_decide_eq_true_1 _).
  - done.
Defined.
Lemma safePath_confined_witness :
  exists names, Forall normal names /\
    bs "/app/data/tftp/sw1/b" = abs_path (target_dir (w_server demo_tftp) "sw1" ++ names).
Proof.
  apply (safePath_confined (w_server demo_tftp) "sw1" (bs "a/./..//b") (bs "/app/data/tftp/sw1/b")); by vm_compute.
Defined.
Lemma write_replaces_directory_witness :
  handleWrite (H := toy_crypto) [] true 5 demo_ip (bs "sw1" ++ sep :: dot) true true (bs "x") true demo_tftp =
  (mkWorld (w_db demo_tftp) (w_server demo_tftp) {[bs "/app/data/tftp/sw1" := bs "x"]}, Ok tt).
Proof. apply (write_replaces_directory (H := toy_crypto) [] true 5 demo_ip "sw1" (bs "x") demo_tftp demo_window_open). Defined.
Lemma write_needs_window_witness :
  exists w' r, handleWrite (H := toy_crypto) [] true 5 demo_ip (bs "sw1/../../etc/passwd") true true (bs "x") true demo_tftp = (w', r) /\
  (w_files w' = w_files demo_tftp \/
   exists id names, may_write (tables (w_db demo_tftp)) (w_server demo_tftp) 5 demo_ip id /\ Forall normal names /\
     w_files w' = <[abs_path (target_dir (w_server demo_tftp) id ++ names) := bs "x"]> (w_files demo_tftp)).
Proof.
  eexists _, _. split; [vm_compute; reflexivity|].
  eapply (write_needs_window (H := toy_crypto) [] true 5 demo_ip (bs "sw1/../../etc/passwd") true true (bs "x") true demo_tftp);
    [by vm_compute| |vm_compute; reflexivity].
  intros id [row Hrow]. change (({["sw1" := demo_row]} : gmap string target_row) !! id = Some row) in Hrow.
  apply lookup_singleton_Some in Hrow as [<- _]. by vm_compute.
Defined.
