(* ===== verification/TftpControl.v ===== *)
(** The control plane of the embedded TFTP server: when it runs
    (src/internal/tftp/controller.go) and who opens its write windows
    (src/internal/httpapi/tftp_write_window.go).

    [mkdir] says whether [os.MkdirAll] of the root succeeds. The controller holds the
    server by pointer; as each method runs under its mutex, the record holds
    the server itself. *)
From S2P Require Import Prelude GoText GoPath GoNet Sqlite Secret AccessValidate AccessDB AccessGroups AccessTargets Http Tftp Brokers.
Local Open Scope Z_scope.

(** ** The controller *)
Record controller := mkController { refCount : Z; server : option Server; running : bool }.
Definition defaultController : controller := mkController 0 None false.

(** The environment: VANTYX_TFTP_ROOT and VANTYX_TFTP_ALLOW_READ_WITHOUT_WINDOW. *)
Record tftp_env := mkTftpEnv { env_root : string; env_read : string }.
Definition tftp_root (e : tftp_env) : list Z :=
  let root := TrimSpace (bs (env_root e)) in
  if bool_decide (root = []) then bs "/app/data/tftp" else root.
Definition start (e : tftp_env) (refs : Z) : controller :=
  mkController refs (Some (NewServer (tftp_root e) (env_read e))) true.

Definition isEmbeddedCompanionTarget (t : Target) (sshTelnet : list Target) : bool :=
  if negb (bool_decide (t_Protocol t = ProtocolTFTP)) || bool_decide (TrimSpace_s (t_Host t) = ""%string) then false
  else existsb (fun x => bool_decide (t_Host x = t_Host t) &&
         (bool_decide (t_Protocol x = ProtocolSSH) || bool_decide (t_Protocol x = ProtocolTelnet)) && t_TFTPEnabled x) sshTelnet.

Section store.
Context `{Crypto, MapRange} {E : Type}.
Definition listSSHTelnetTargets : DB access_tables E (list Target) :=
  let* ssh := db_try (ListByProtocol ProtocolSSH) in
  let* telnet := db_try (ListByProtocol ProtocolTelnet) in
  db_ret (match ssh with Ok l => l | Err _ => [] end ++ match telnet with Ok l => l | Err _ => [] end).
Fixpoint remove_companions (tftpList sshTelnet : list Target) (removed : Z) : DB access_tables E Z :=
  match tftpList with
  | [] => db_ret removed
  | t :: tftpList =>
      if negb (isEmbeddedCompanionTarget t sshTelnet) then remove_companions tftpList sshTelnet removed
      else
        let* r := db_try (target_Delete (t_ID t)) in
        remove_companions tftpList sshTelnet (if is_ok r then removed + 1 else removed)
  end.
(** The number of targets removed. *)
Definition DisableAtStartup : DB access_tables E Z :=
  let* r := db_try (ListByProtocol ProtocolTFTP) in
  match r with
  | Err _ => db_ret 0
  | Ok [] => db_ret 0
  | Ok tftpList =>
      let* sshTelnet := listSSHTelnetTargets in
      remove_companions tftpList sshTelnet 0
  end.
Definition StartServerIfNeeded (e : tftp_env) (mkdir : bool) (c : controller) : DB access_tables E controller :=
  let* r := db_try (ListByProtocol ProtocolTFTP) in
  db_ret match r with
  | Err _ => c
  | Ok [] => c
  | Ok list =>
      if running c then mkController (refCount c + Z.of_nat (length list)) (server c) (running c)
      else if negb mkdir then c
      else start e (Z.of_nat (length list))
  end.
End store.

Definition NotifyTargetCreated (e : tftp_env) (mkdir : bool) (proto : string) (c : controller) : controller :=
  if negb (bool_decide (proto = ProtocolTFTP)) then c
  else
    let c := mkController (refCount c + 1) (server c) (running c) in
    if running c then c
    else if negb mkdir then c
    else start e (refCount c).
Definition NotifyTargetDeleted (proto : string) (c : controller) : controller :=
  if negb (bool_decide (proto = ProtocolTFTP)) then c
  else
    let refs := if 0 <? refCount c then refCount c - 1 else refCount c in
    if 0 <? refs then mkController refs (server c) (running c)
    else mkController refs None false.
Definition Current (c : controller) : option Server := if running c then server c else None.
Definition set_server (c : controller) (s : Server) : controller := mkController (refCount c) (Some s) (running c).

(** ** The handlers *)
Definition tftpWriteWindowDefaultTTL : duration := 5 * minute.
Definition tftpWriteWindowMaxTTL : duration := 30 * minute.

(** The answer: the client address and the expiry of an open window. *)
Record tftpWriteWindowStatusResponse := mkStatus { st_target : string; st_open : option (IP * time) }.
Definition tftpWriteWindowStatusFor (now : time) (c : controller) (targetID : string) : controller * tftpWriteWindowStatusResponse :=
  match Current c with
  | None => (c, mkStatus targetID None)
  | Some s =>
      let (s, info) := WriteWindowStatus now s targetID in
      (set_server c s, mkStatus targetID info)
  end.

(** The [ttl] of a request for [TTLSeconds], an [int64]: the product wraps. *)
Definition requested_ttl (TTLSeconds : Z) : duration :=
  if 0 <? TTLSeconds then
    let ttl := int64 (TTLSeconds * second) in
    if tftpWriteWindowMaxTTL <? ttl then tftpWriteWindowMaxTTL else ttl
  else tftpWriteWindowDefaultTTL.

Section handlers.
Context `{Crypto, SetScan} (encKey : list Z) (strict : bool) (dflt : Z).

(** Package protocols. *)
Inductive Capability := CapabilityTerminal | CapabilityFileTransfer | CapabilityTFTPServer.
Definition Supports (p : string) (cap : Capability) : bool :=
  match cap with
  | CapabilityTerminal => bool_decide (p ∈ [ProtocolSSH; ProtocolTelnet; ProtocolRDP; ProtocolVNC])
  | CapabilityFileTransfer => bool_decide (p ∈ [ProtocolSSH; ProtocolFTP; ProtocolTFTP])
  | CapabilityTFTPServer => bool_decide (p = ProtocolTFTP)
  end.

(** The session's user and the target, if the user reaches it. *)
Definition getSessionAndTargetWithAccess (now : time) (currentUserID targetID : string) : DB access_tables http_err Target :=
  let targetID := TrimSpace_s targetID in
  if bool_decide (targetID = ""%string) then db_throw (Http 400 "common.targetIDRequired")
  else if bool_decide (currentUserID = ""%string) then db_throw (Http 401 "common.unauthorized")
  else
    let* target := call (target_Get encKey strict targetID) (fun _ => Http 404 "common.targetNotFound") in
    let* allowedIDs := call (TargetIDsForUser currentUserID None dflt now) (fun _ => internal) in
    if bool_decide (targetID ∈ allowedIDs) then db_ret target else db_throw (Http 403 "common.forbidden").
Definition getTFTPServerTarget (now : time) (currentUserID targetID : string) : DB access_tables http_err Target :=
  let* target := getSessionAndTargetWithAccess now currentUserID targetID in
  if negb (Supports (t_Protocol target) CapabilityTFTPServer) then db_throw (Http 400 "tftp.notTFTPServer") else db_ret target.

(** What a handler leaves: the controller, the response and the audit records
    (the event with its [ttl_seconds]). *)
Record handled := mkHandled { h_controller : controller; h_status : option tftpWriteWindowStatusResponse; h_audit : list (string * Z) }.

(** [body]: the decoded [ttl_seconds], 0 when it or the body is missing; [None]
    when the body is malformed. *)
Definition handleTFTPOpenWriteWindow (now : time) (method currentUserID targetID : string) (body : option Z) (c : controller)
    : DB access_tables http_err handled :=
  let* _ := db_of (if bool_decide (method = "POST"%string) then Ok tt else Err (Http 405 "common.methodNotAllowed")) in
  let* target := getTFTPServerTarget now currentUserID targetID in
  match ParseIP (bs (t_Host target)) with
  | None => db_throw (Http 400 "tftp.targetHostNotIP")
  | Some clientIP =>
      match body with
      | None => db_throw (Http 400 "common.invalidRequestBody")
      | Some TTLSeconds =>
          let ttl := requested_ttl TTLSeconds in
          match Current c with
          | None => db_throw (Http 503 "common.serviceUnavailable")
          | Some srv =>
              let c := set_server c (OpenWriteWindow now srv (t_ID target) clientIP ttl) in
              let (c, status) := tftpWriteWindowStatusFor now c (t_ID target) in
              db_ret (mkHandled c (Some status) [("tftp_write_window_opened"%string, ttl `quot` second)])
          end
      end
  end.
Definition handleTFTPCloseWriteWindow (now : time) (method currentUserID targetID : string) (c : controller)
    : DB access_tables http_err handled :=
  let* _ := db_of (if bool_decide (method = "DELETE"%string) then Ok tt else Err (Http 405 "common.methodNotAllowed")) in
  let* target := getTFTPServerTarget now currentUserID targetID in
  match Current c with
  | None => db_throw (Http 503 "common.serviceUnavailable")
  | Some srv =>
      db_ret (mkHandled (set_server c (CloseWriteWindow now srv (t_ID target))) None [("tftp_write_window_closed"%string, 0)])
  end.
Definition handleTFTPGetWriteWindow (now : time) (method currentUserID targetID : string) (c : controller)
    : DB access_tables http_err handled :=
  let* _ := db_of (if bool_decide (method = "GET"%string) then Ok tt else Err (Http 405 "common.methodNotAllowed")) in
  let* target := getTFTPServerTarget now currentUserID targetID in
  let (c, status) := tftpWriteWindowStatusFor now c (t_ID target) in
  db_ret (mkHandled c (Some status) []).
End handlers.

(** ** When the server runs *)

(** The events that change the number of TFTP targets: with or without the
    notification of the controller. The bulk import (targets_bulk.go) and the
    cascades of a deleted group do not notify it. *)
Inductive count_event := Added | Removed | AddedSilently.
Definition count_exec (e : tftp_env) (ev : count_event) (st : Z * controller) : Z * controller :=
  let (n, c) := st in
  match ev with
  | Added => (n + 1, NotifyTargetCreated e true ProtocolTFTP c)
  | Removed => if 0 <? n then (n - 1, NotifyTargetDeleted ProtocolTFTP c) else st
  | AddedSilently => (n + 1, c)
  end.

(** While every change is notified and the root directory can be made, the
    controller counts the TFTP targets, and the server runs exactly when there is one. *)
Theorem controller_counts e evs :
  Forall (fun ev => ev <> AddedSilently) evs ->
  let (n, c) := foldl (fun st ev => count_exec e ev st) (0, defaultController) evs in
  refCount c = n /\ 0 <= n /\ (is_Some (Current c) <-> 0 < n).
Proof.
  intros Hevs.
  assert (Hgen : forall n c, refCount c = n -> 0 <= n -> (running c = true <-> 0 < n) -> (running c = true -> is_Some (server c)) ->
    let (n, c) := foldl (fun st ev => count_exec e ev st) (n, c) evs in
    refCount c = n /\ 0 <= n /\ (running c = true <-> 0 < n) /\ (running c = true -> is_Some (server c))).
  { clear -Hevs. induction Hevs as [|ev evs Hev _ IH]; intros n c Hr Hn Hrun Hs; simpl; [done|].
    destruct ev; [| |done]; unfold count_exec; simpl.
    - apply IH; unfold NotifyTargetCreated; simpl; destruct (running c) eqn:E; simpl; rewrite ?E; try lia; try done.
    - destruct (Z.ltb_spec 0 n) as [Hlt|Hge]; [|by apply IH].
      unfold NotifyTargetDeleted. simpl. rewrite Hr.
      destruct (Z.ltb_spec 0 n); [|lia]. destruct (Z.ltb_spec 0 (n - 1)); apply IH; simpl; try done; try lia.
      rewrite Hrun. lia. }
  specialize (Hgen 0 defaultController eq_refl ltac:(lia)). simpl in Hgen.
  destruct (foldl _ _ _) as [n c]. destruct Hgen as (? & ? & Hrun & Hs); [split; [done|lia]|done|].
  split_and!; [done..|]. unfold Current. destruct (running c); split; intros Hx.
  - by apply Hrun.
  - by apply Hs.
  - by destruct Hx.
  - by apply Hrun in Hx.
Qed.
Lemma controller_counts_witness :
  let (n, c) := foldl (fun st ev => count_exec (mkTftpEnv "" "") ev st) (0, defaultController) [Added; Added; Removed] in
  refCount c = n /\ 0 <= n /\ (is_Some (Current c) <-> 0 < n).
Proof. apply (controller_counts (mkTftpEnv "" "") [Added; Added; Removed]). repeat (apply Forall_cons_2; [done|]). constructor. Defined.

(** A target that was imported in bulk is not counted: deleting the only
    target that was counted stops the server although [k] TFTP targets remain. *)
Theorem silent_import_stops_server e k :
  let (n, c) := foldl (fun st ev => count_exec e ev st) (0, defaultController)
                  ([Added] ++ replicate k AddedSilently ++ [Removed]) in
  n = Z.of_nat k /\ Current c = None.
Proof.
  rewrite !foldl_app. cbn [foldl].
  assert (Hrep : forall n c, foldl (fun st ev => count_exec e ev st) (n, c) (replicate k AddedSilently) = (n + Z.of_nat k, c)).
  { clear. induction k as [|k IH]; intros n c; [simpl; f_equal; lia|].
    cbn [replicate foldl]. unfold count_exec at 2. rewrite IH. f_equal. lia. }
  change (count_exec e Added (0, defaultController)) with (1, start e 1). rewrite Hrep. simpl.
  destruct (Z.ltb_spec 0 (1 + Z.of_nat k)); [|lia]. split; [lia|done].
Qed.

(** ** Time to live *)

(** The arithmetic of the time to live: a window never stays open longer than
    30 minutes; up to 9223372036 seconds the request is honoured up to that
    limit, and the next value wraps to a negative duration. *)
Theorem requested_ttl_bounds n :
  requested_ttl n <= tftpWriteWindowMaxTTL /\
  (0 < n <= 9223372036 -> requested_ttl n = (n * second) `min` tftpWriteWindowMaxTTL /\ 0 < requested_ttl n) /\
  requested_ttl 9223372037 < 0.
Proof.
  unfold requested_ttl, tftpWriteWindowMaxTTL, tftpWriteWindowDefaultTTL, minute, second, millisecond.
  split_and!.
  - destruct (0 <? n); [|lia]. case_match eqn:E; [lia|]. apply Z.ltb_ge in E. lia.
  - intros Hn. destruct (Z.ltb_spec 0 n); [|lia].
    rewrite int64_id by (unfold in_int64, minInt64, maxInt64; lia).
    destruct (Z.ltb_spec (30 * (60 * (1000 * (1000 * 1000)))) (n * (1000 * (1000 * 1000)))); lia.
  - by vm_compute.
Qed.

(** ** What a window means

    The server together with the store and the files, and a ghost log of the
    windows that operators were told are open. *)
Record opened := mkOpened { o_time : time; o_target : string; o_ip : IP; o_user : string }.
Record system := mkSystem { y_ctl : controller; y_db : conn access_tables; y_files : filesystem; y_log : list opened }.

Section system.
Context `{Crypto, MapRange, SetScan, UnicodeTables} (encKey : list Z) (strict : bool) (dflt : Z)
  (hostParse : list Z -> option (list Z)) (allowRestricted : bool) (env : tftp_env).

Inductive tftp_event :=
| VOpen (now : time) (user targetID : string) (body : option Z)
| VClose (now : time) (user targetID : string)
| VGet (now : time) (user targetID : string)
| VWrite (now : time) (client : IP) (filename : list Z) (mkdir create : bool) (data : list Z) (complete : bool)
| VRead (now : time) (client : IP) (filename : list Z) (open : bool)
| VCreated (mkdir : bool) (proto : string) | VDeleted (proto : string) | VStart (mkdir : bool)
| VStore (op : target_op).

(** A handler's effect on the system; [log] says what it tells the operator. *)
Definition handle (m : DB access_tables http_err handled) (log : handled -> list opened) (y : system) : system :=
  match m (y_db y) with
  | (db, Ok h) => mkSystem (h_controller h) db (y_files y) (y_log y ++ log h)
  | (db, Err _) => mkSystem (y_ctl y) db (y_files y) (y_log y)
  end.
Definition open_log (now : time) (user : string) (h : handled) : list opened :=
  match h_status h with
  | Some (mkStatus id (Some (ip, _))) => [mkOpened now id ip user]
  | _ => []
  end.
(** A transfer reaches the server while it runs. *)
Definition transfer {A} (f : world -> world * result tftp_err A) (y : system) : system :=
  match Current (y_ctl y) with
  | None => y
  | Some srv =>
      let w := (f (mkWorld (y_db y) srv (y_files y))).1 in
      mkSystem (set_server (y_ctl y) (w_server w)) (w_db w) (w_files w) (y_log y)
  end.
Definition control (f : controller -> controller) (y : system) : system :=
  mkSystem (f (y_ctl y)) (y_db y) (y_files y) (y_log y).
Definition sys_exec (ev : tftp_event) (y : system) : system :=
  match ev with
  | VOpen now user id body =>
      handle (handleTFTPOpenWriteWindow encKey strict dflt now "POST" user id body (y_ctl y)) (open_log now user) y
  | VClose now user id =>
      handle (handleTFTPCloseWriteWindow encKey strict dflt now "DELETE" user id (y_ctl y)) (fun _ => []) y
  | VGet now user id =>
      handle (handleTFTPGetWriteWindow encKey strict dflt now "GET" user id (y_ctl y)) (fun _ => []) y
  | VWrite now client filename mkdir create data complete =>
      transfer (handleWrite encKey strict now client filename mkdir create data complete) y
  | VRead now client filename open => transfer (handleRead encKey strict now client filename open) y
  | VCreated mkdir proto => control (NotifyTargetCreated env mkdir proto) y
  | VDeleted proto => control (NotifyTargetDeleted proto) y
  | VStart mkdir =>
      match StartServerIfNeeded (E := http_err) env mkdir (y_ctl y) (y_db y) with
      | (db, Ok c) => mkSystem c db (y_files y) (y_log y)
      | (db, Err _) => mkSystem (y_ctl y) db (y_files y) (y_log y)
      end
  | VStore op => mkSystem (y_ctl y) (target_exec encKey hostParse allowRestricted strict op (y_db y)).1 (y_files y) (y_log y)
  end.

(** Every window was opened by an operator no more than 30 minutes before it ends. *)
Definition windows_ok (log : list opened) (s : Server) : Prop :=
  rootDir s = tftp_root env /\
  forall id win, windows s !! id = Some win ->
    exists o, o ∈ log /\ o_target o = id /\ o_ip o = allowIP win /\ expires win <= o_time o + tftpWriteWindowMaxTTL.
Definition ctl_ok (log : list opened) (c : controller) : Prop :=
  forall s, server c = Some s -> windows_ok log s.
Definition system_ok (y : system) : Prop := ctl_ok (y_log y) (y_ctl y) /\ valid_ids (tables (y_db y)).

Lemma windows_ok_subset log s s' :
  windows_ok log s -> rootDir s' = rootDir s -> windows s' ⊆ windows s -> windows_ok log s'.
Proof. intros [Hr Hw] Hr' Hs. split; [congruence|]. intros id win Hl. eapply Hw, lookup_weaken; eauto. Qed.
Lemma windows_ok_log log log' s : windows_ok log s -> windows_ok (log ++ log') s.
Proof.
  intros [Hr Hw]. split; [done|]. intros id win Hl. destruct (Hw id win Hl) as (o & Ho & ?).
  exists o. split; [by apply elem_of_app; left|done].
Qed.
Lemma ctl_ok_current log c s : ctl_ok log c -> Current c = Some s -> windows_ok log s.
Proof. unfold Current. destruct (running c); [|done]. intros Hc. apply Hc. Qed.
Lemma ctl_ok_set log c s : windows_ok log s -> ctl_ok log (set_server c s).
Proof. intros Hs s' [= <-]. done. Qed.
Lemma start_ok log n : ctl_ok log (start env n).
Proof. intros s [= <-]. split; [done|]. intros id win. simpl. by rewrite lookup_empty. Qed.

Lemma status_ok now log c id :
  ctl_ok log c -> ctl_ok log (tftpWriteWindowStatusFor now c id).1.
Proof.
  intros Hc. unfold tftpWriteWindowStatusFor. destruct (Current c) as [s|] eqn:E; [|done].
  unfold WriteWindowStatus. pose proof (ctl_ok_current _ _ _ Hc E) as Hs.
  destruct (windows s !! id); [|by apply ctl_ok_set].
  destruct (After _ _); [|by apply ctl_ok_set]. apply ctl_ok_set.
  eapply windows_ok_subset; [done..|]. apply delete_subseteq.
Qed.
Lemma close_ok now log s id : windows_ok log s -> windows_ok log (CloseWriteWindow now s id).
Proof. intros Hs. eapply windows_ok_subset; [done..|]. apply delete_subseteq. Qed.

(** The access check reads. *)
Lemma server_target_preserves P now user id : preserves P (getTFTPServerTarget encKey strict dflt now user id).
Proof.
  unfold getTFTPServerTarget, getSessionAndTargetWithAccess. preserve; try done.
  all: apply preserves_call; unfold target_Get, TargetIDsForUser; preserve.
Qed.
Lemma open_inv now user id body c db db' h :
  handleTFTPOpenWriteWindow encKey strict dflt now "POST" user id body c db = (db', Ok h) ->
  exists target ip n srv, getTFTPServerTarget encKey strict dflt now user id db = (db', Ok target) /\
    ParseIP (bs (t_Host target)) = Some ip /\ body = Some n /\ Current c = Some srv /\
    let c' := set_server c (OpenWriteWindow now srv (t_ID target) ip (requested_ttl n)) in
    h = mkHandled (tftpWriteWindowStatusFor now c' (t_ID target)).1 (Some (tftpWriteWindowStatusFor now c' (t_ID target)).2)
          [("tftp_write_window_opened"%string, requested_ttl n `quot` second)].
Proof.
  unfold handleTFTPOpenWriteWindow. intros E. apply bind_inv in E as (c1 & [] & [= <-] & E).
  apply bind_inv in E as (c2 & target & Ht & E).
  destruct (ParseIP (bs (t_Host target))) as [ip|] eqn:Ep; [|done]. destruct body as [n|]; [|done].
  destruct (Current c) as [srv|] eqn:Ec; [|done].
  destruct (tftpWriteWindowStatusFor now _ _) as [c' st] eqn:Es. injection E as <- <-.
  exists target, ip, n, srv. split_and!; try done. cbv zeta. by rewrite Es.
Qed.
Lemma open_preserves P now user id body c : preserves P (handleTFTPOpenWriteWindow encKey strict dflt now "POST" user id body c).
Proof. unfold handleTFTPOpenWriteWindow. preserve. apply server_target_preserves. Qed.

(** What the operator is told after opening a window is what was opened. *)
Lemma open_status now c id srv ip ttl :
  Current c = Some srv ->
  let c' := set_server c (OpenWriteWindow now srv id ip ttl) in
  tftpWriteWindowStatusFor now c' id =
  (c', mkStatus id (if ttl <=? 0 then None else Some (ip, now + ttl))).
Proof.
  unfold Current, tftpWriteWindowStatusFor. destruct (running c) eqn:Er; [|done]. intros Hs. simpl. unfold Current. simpl. rewrite Er.
  unfold WriteWindowStatus, OpenWriteWindow. destruct (Z.leb_spec ttl 0); simpl.
  - by rewrite lookup_delete_eq.
  - rewrite lookup_insert_eq. unfold After, Add. simpl.
    replace (now + ttl <? now) with false by (symmetry; apply Z.ltb_ge; lia). done.
Qed.
Lemma handle_ok m log y :
  preserves valid_ids m ->
  (forall db h, m (y_db y) = (db, Ok h) -> ctl_ok (y_log y ++ log h) (h_controller h)) ->
  system_ok y -> system_ok (handle m log y).
Proof.
  intros Hp Hm [Hc Hids]. specialize (Hp _ Hids). unfold handle.
  destruct (m (y_db y)) as [db [h|e]]; (split; [|exact Hp]); [by eapply Hm|done].
Qed.
Lemma open_ok now user id body y : system_ok y -> system_ok (sys_exec (VOpen now user id body) y).
Proof.
  intros Hy. apply handle_ok; [apply open_preserves| |done]. intros db h E.
  apply open_inv in E as (target & ip & n & srv & _ & Hp & -> & Hcur & ->).
  rewrite (open_status _ _ _ srv) by done. simpl.
  pose proof (ctl_ok_current _ _ _ (proj1 Hy) Hcur) as Hw. apply ctl_ok_set.
  unfold OpenWriteWindow, open_log. simpl. destruct (Z.leb_spec (requested_ttl n) 0); simpl.
  - rewrite app_nil_r. eapply windows_ok_subset; [exact Hw|done|apply delete_subseteq].
  - destruct (windows_ok_log _ [mkOpened now (t_ID target) ip user] _ Hw) as [Hr Hlk]. split; [done|].
    intros i win. simpl. rewrite lookup_insert_Some. intros [[<- <-]|[_ Hl]]; [|by apply Hlk].
    eexists. split; [apply elem_of_app; right; by left|]. simpl. split_and!; [done..|].
    unfold Add. pose proof (proj1 (requested_ttl_bounds n)). lia.
Qed.

(** A transfer keeps the tables and opens no window. *)
Definition shrinks (s : Server) (s' : Server) : Prop := windows s' ⊆ windows s /\ rootDir s' = rootDir s.
Lemma windowed_shrinks now s client isWrite id rel : shrinks s (windowed now s client isWrite id rel).1.
Proof.
  unfold windowed, enforceWindow. pose proof (hasOpenWindow_only_prunes now s id client) as (? & ? & _).
  repeat case_match; simplify_eq/=; done.
Qed.
Ltac shrink := repeat case_match; first [apply windowed_shrinks | by split].
Lemma authorize_shrinks now s client filename isWrite P :
  hoare P (authorize encKey strict now s client filename isWrite)
    (fun t r => P t /\ match r with Ok a => shrinks s a.1 | Err _ => False end).
Proof.
  intros c Hc.
  assert (Hip : forall trimmed, P (tables (authorize_by_ip now s client trimmed isWrite c).1) /\
    match (authorize_by_ip now s client trimmed isWrite c).2 with Ok a => shrinks s a.1 | Err _ => False end).
  { intros trimmed. unfold authorize_by_ip, db_bind, db_try.
    assert (preserves P (ListByProtocol ProtocolTFTP)) as Hp by (unfold ListByProtocol; preserve).
    specialize (Hp c Hc). destruct (ListByProtocol ProtocolTFTP c) as [c1 r]. simpl in *. split; [exact Hp|shrink]. }
  unfold authorize. destruct (hasStore s); simpl; [|by split].
  destruct (split2 _) as [|p0 [|p1 [|? ?]]]; try apply Hip. destruct (_ || _); [apply Hip|].
  unfold authorize_by_id, db_bind, db_try.
  assert (preserves P (target_Get encKey strict (str_of p0))) as Hp by (unfold target_Get; preserve).
  specialize (Hp c Hc). destruct (target_Get encKey strict (str_of p0) c) as [c1 r]. simpl in *. split; [exact Hp|shrink].
Qed.
Lemma transfer_ok {A} (f : world -> world * result tftp_err A) y :
  (forall w, valid_ids (tables (w_db w)) -> valid_ids (tables (w_db (f w).1)) /\ shrinks (w_server w) (w_server (f w).1)) ->
  system_ok y -> system_ok (transfer f y).
Proof.
  intros Hf [Hc Hids]. unfold transfer. destruct (Current (y_ctl y)) as [srv|] eqn:E; [|done].
  destruct (Hf (mkWorld (y_db y) srv (y_files y)) Hids) as [Hv [Hs Hr]]. split; [|exact Hv]. simpl.
  apply ctl_ok_set. eapply windows_ok_subset; [by eapply ctl_ok_current|done..].
Qed.
Lemma write_shrinks now client filename mkdir create data complete w :
  valid_ids (tables (w_db w)) ->
  let w' := (handleWrite encKey strict now client filename mkdir create data complete w).1 in
  valid_ids (tables (w_db w')) /\ shrinks (w_server w) (w_server w').
Proof.
  intros Hv. unfold handleWrite. pose proof (authorize_shrinks now (w_server w) client filename true _ (w_db w) Hv) as [Hv' Hs].
  destruct (authorize _ _ _ _ _ _ _ _) as [c [[s [[id rel]|e]]|e]]; simpl in *; try done. repeat case_match; done.
Qed.
Lemma read_shrinks now client filename open w :
  valid_ids (tables (w_db w)) ->
  let w' := (handleRead encKey strict now client filename open w).1 in
  valid_ids (tables (w_db w')) /\ shrinks (w_server w) (w_server w').
Proof.
  intros Hv. unfold handleRead. pose proof (authorize_shrinks now (w_server w) client filename false _ (w_db w) Hv) as [Hv' Hs].
  destruct (authorize _ _ _ _ _ _ _ _) as [c [[s [[id rel]|e]]|e]]; simpl in *; try done. repeat case_match; done.
Qed.

Lemma sys_exec_ok ev y : system_ok y -> system_ok (sys_exec ev y).
Proof.
  destruct ev as [| | | | |mkdir proto|proto|mkdir|op]; intros Hy.
  - by apply open_ok.
  - apply handle_ok; [unfold handleTFTPCloseWriteWindow; preserve; apply server_target_preserves| |done].
    intros db h E. rewrite app_nil_r. unfold handleTFTPCloseWriteWindow in E.
    apply bind_inv in E as (c1 & [] & _ & E). apply bind_inv in E as (c2 & target & _ & E).
    destruct (Current (y_ctl y)) as [srv|] eqn:Ec; [|done]. injection E as _ <-.
    apply ctl_ok_set, close_ok. eapply ctl_ok_current; [apply Hy|done].
  - apply handle_ok; [unfold handleTFTPGetWriteWindow; preserve; apply server_target_preserves| |done].
    intros db h E. rewrite app_nil_r. unfold handleTFTPGetWriteWindow in E.
    apply bind_inv in E as (c1 & [] & _ & E). apply bind_inv in E as (c2 & target & _ & E).
    pose proof (status_ok now _ _ (t_ID target) (proj1 Hy)) as Hs.
    destruct (tftpWriteWindowStatusFor _ _ _). by injection E as _ <-.
  - apply transfer_ok; [|done]. intros w. apply write_shrinks.
  - apply transfer_ok; [|done]. intros w. apply read_shrinks.
  - destruct Hy as [Hc Hids]. split; [|done]. simpl. unfold NotifyTargetCreated.
    destruct (negb _); [done|]. simpl. destruct (running (y_ctl y)); [done|]. destruct (negb mkdir); [done|apply start_ok].
  - destruct Hy as [Hc Hids]. split; [|done]. simpl. unfold NotifyTargetDeleted.
    destruct (negb _); [done|]. destruct (0 <? _); [done|]. destruct (0 <? refCount _); by intros s.
  - destruct Hy as [Hc Hids]. simpl. unfold StartServerIfNeeded, db_bind, db_try.
    assert (preserves valid_ids (ListByProtocol ProtocolTFTP)) as Hp by (unfold ListByProtocol; preserve).
    specialize (Hp _ Hids). destruct (ListByProtocol ProtocolTFTP (y_db y)) as [db r]. split; [|done]. simpl.
    destruct r as [[|t l]|]; [done| |done]. destruct (running (y_ctl y)); [done|]. destruct (negb mkdir); [done|apply start_ok].
  - destruct Hy as [Hc Hids]. split; [done|]. by apply access_ops_ids.
Qed.

(** C29. A device writes only after an operator: whatever requests, transfers,
    notifications and store operations came before, failing statements included, a TFTP
    request that changes a file is answered within 30 minutes of an operator's
    opening a window for that target and that address, and it changes one file
    of that target's directory. *)
Theorem device_writes_after_operator evs db files now client filename mkdir create data complete :
  is_rooted (tftp_root env) = true -> valid_ids (tables db) ->
  let y := foldl (fun y ev => sys_exec ev y) (mkSystem defaultController db files []) evs in
  let y' := sys_exec (VWrite now client filename mkdir create data complete) y in
  y_files y' = y_files y \/
  exists o names srv, o ∈ y_log y /\ now <= o_time o + tftpWriteWindowMaxTTL /\ IP_Equal (o_ip o) client = true /\
    Forall normal names /\ Current (y_ctl y) = Some srv /\
    y_files y' = <[abs_path (target_dir srv (o_target o) ++ names) := data]> (y_files y).
Proof.
  intros Hroot Hids y y'.
  assert (Hok : system_ok y).
  { assert (Hgen : forall y0, system_ok y0 -> system_ok (foldl (fun y ev => sys_exec ev y) y0 evs)).
    { clear. induction evs as [|ev evs IH]; intros y0 Hy0; [done|]. apply IH, sys_exec_ok, Hy0. }
    apply Hgen. split; [by intros s|done]. }
  subst y'. simpl. unfold transfer. destruct (Current (y_ctl y)) as [srv|] eqn:Ec; [|by left].
  destruct Hok as [Hc Hv]. pose proof (ctl_ok_current _ _ _ Hc Ec) as [Hr Hw].
  destruct (handleWrite encKey strict now client filename mkdir create data complete (mkWorld (y_db y) srv (y_files y))) as [w' r] eqn:E.
  apply write_needs_window in E; simpl in *; [|by rewrite Hr|done].
  destruct E as [?|(id & names & [_ (win & Hwin & Hnow & He)] & Hn & Hf)]; [by left|right].
  destruct (Hw id win Hwin) as (o & Ho & <- & Hip & Hexp). exists o, names, srv.
  split_and!; try done; [lia|by rewrite Hip].
Qed.

(** A request for 9223372037 seconds closes the window it asks for: the
    duration wraps, the window is removed, the answer says closed, and the
    audit record says that it was opened. *)
Theorem long_window_request_closes now user id c db db' h :
  handleTFTPOpenWriteWindow encKey strict dflt now "POST" user id (Some 9223372037) c db = (db', Ok h) ->
  exists target s, Current (h_controller h) = Some s /\ windows s !! target = None /\
    h_status h = Some (mkStatus target None) /\ (exists n, h_audit h = [("tftp_write_window_opened"%string, n)] /\ n < 0).
Proof.
  intros (target & ip & n & srv & _ & _ & [= <-] & Hcur & ->)%open_inv.
  rewrite (open_status _ _ _ srv) by done. simpl.
  assert (Hrun : running c = true) by (unfold Current in Hcur; by destruct (running c)).
  exists (t_ID target), (OpenWriteWindow now srv (t_ID target) ip (requested_ttl 9223372037)).
  unfold Current. simpl. rewrite Hrun. split; [done|]. split; [unfold OpenWriteWindow; simpl; apply lookup_delete_eq|].
  split; [done|]. eexists. split; [done|by vm_compute].
Qed.

(** Opening a window takes access to the target. *)
Theorem open_needs_access now user id body c db db' h :
  healthy db -> branches_small (tables db) user now ->
  handleTFTPOpenWriteWindow encKey strict dflt now "POST" user id body c db = (db', Ok h) ->
  can_access (tables db) now user (TrimSpace_s id) /\ exists st, h_status h = Some (mkStatus (TrimSpace_s id) st).
Proof.
  intros Hh Hb (target & ip & n & srv & Ht & _ & _ & Hcur & ->)%open_inv.
  rewrite (open_status _ _ _ srv) by done. simpl.
  unfold getTFTPServerTarget in Ht. apply bind_inv in Ht as (c1 & t1 & Ht & E).
  assert (t1 = target) as -> by (by destruct (negb _); [|injection E as _ <-]). clear E.
  unfold getSessionAndTargetWithAccess in Ht. destruct (bool_decide _); [done|]. destruct (bool_decide _); [done|].
  apply bind_inv in Ht as (c2 & t2 & Hg & Ht). apply bind_inv in Ht as (c3 & ids & Hi & Ht).
  destruct (bool_decide (TrimSpace_s id ∈ ids)) eqn:Ein; [|done]. injection Ht as <- <-. apply bool_decide_eq_true in Ein.
  unfold call in Hg. apply bind_inv in Hg as (c4 & [t3|] & Hg%try_inv & E); [|done]. injection E as <- <-.
  unfold target_Get in Hg. rewrite bind_query in Hg by done.
  destruct (targets (tables db) !! TrimSpace_s id) as [row|]; [|done]. destruct (port_ok row); [|done]. injection Hg as <- <-.
  unfold call in Hi. apply bind_inv in Hi as (c5 & [ids'|] & Hi%try_inv & E); [|done]. injection E as <- <-.
  rewrite TargetIDsForUser_run in Hi by done. injection Hi as <- <-.
  simpl. split; [|eauto]. by apply elem_accessible, elem_of_sorted_ids, (go_page_nil_subset dflt).
Qed.
End system.

(** ** Start-up *)

Section startup.
Context `{Crypto, MapRange} {E : Type}.

(** A TFTP target that shares its host with an SSH or telnet target whose TFTP
    switch is on. *)
Definition companion_row (t : access_tables) (r : target_row) : Prop :=
  tr_protocol r = ProtocolTFTP /\ port_ok r = true /\ TrimSpace_s (tr_host r) <> ""%string /\
  exists id' r', targets t !! id' = Some r' /\ port_ok r' = true /\ tr_host r' = tr_host r /\
    (tr_protocol r' = ProtocolSSH \/ tr_protocol r' = ProtocolTelnet) /\ tr_tftp_enabled r' <> 0.

Lemma scanned_ids_NoDup (rows : list (string * target_row)) proto :
  NoDup rows.*1 ->
  NoDup (t_ID <$> omap (fun kr => if port_ok kr.2 then Some (scan_public kr.1 kr.2) else None)
                    (filter (fun kr => tr_protocol kr.2 = proto) rows)).
Proof.
  induction rows as [|[id r] rows IH]; simpl; intros Hnd; [constructor|].
  apply NoDup_cons in Hnd as [Hni Hnd]. rewrite filter_cons. case_decide; [|by apply IH]. simpl.
  destruct (port_ok r); [|by apply IH]. simpl. apply NoDup_cons. split; [|by apply IH].
  intros Hin. apply Hni. apply list_elem_of_fmap in Hin as (t & -> & Hin).
  apply list_elem_of_omap in Hin as ([id' r'] & [_ Hin]%list_elem_of_filter & Hs). simpl in *.
  destruct (port_ok r'); [|done]. injection Hs as <-. simpl. by apply (list_elem_of_fmap_2 fst _ (id', r')).
Qed.
Lemma ListByProtocol_healthy proto c :
  healthy c ->
  exists l, ListByProtocol proto c = (c, Ok l) /\ NoDup (t_ID <$> l) /\
    forall t, t ∈ l <-> exists id r, targets (tables c) !! id = Some r /\ tr_protocol r = proto /\ port_ok r = true /\ t = scan_public id r.
Proof.
  intros Hh. unfold ListByProtocol. rewrite bind_query by done. eexists. split; [done|].
  split; [apply scanned_ids_NoDup; rewrite range_perm; apply NoDup_fst_map_to_list|].
  intros t. rewrite list_elem_of_omap. split.
  - intros ([id r] & [Hp Hin%elem_of_range]%list_elem_of_filter & Hs). simpl in *.
    destruct (port_ok r) eqn:Ep; [|done]. injection Hs as <-. eauto 10.
  - intros (id & r & Hl & Hp & Hport & ->). exists (id, r). simpl. rewrite Hport. split; [|done].
    apply list_elem_of_filter. split; [done|]. by apply elem_of_range.
Qed.
Lemma target_Delete_healthy id c :
  healthy c -> validateTargetID id = Ok tt -> is_Some (targets (tables c) !! id) ->
  exists c', target_Delete id c = (c', Ok tt) /\ healthy c' /\ targets (tables c') = delete id (targets (tables c)).
Proof.
  intros Hh Hv [r Hr]. unfold target_Delete, db_of. rewrite Hv. unfold db_bind. rewrite exec_healthy by done. rewrite Hr.
  eexists. split; [done|]. split; [done|]. apply map_eq. intros i. simpl.
  apply option_eq. intros x. rewrite map_lookup_filter_Some, lookup_delete_Some. simpl.
  split.
  - intros [Hl Hg]. split; [|done]. intros <-. by rewrite bool_decide_true in Hg.
  - intros [Hne Hl]. split; [done|]. apply bool_decide_false. congruence.
Qed.
Lemma companion_spec t r id sshTelnet :
  (forall x, x ∈ sshTelnet <-> exists id' r', targets t !! id' = Some r' /\
     (tr_protocol r' = ProtocolSSH \/ tr_protocol r' = ProtocolTelnet) /\ port_ok r' = true /\ x = scan_public id' r') ->
  port_ok r = true -> isEmbeddedCompanionTarget (scan_public id r) sshTelnet = true <-> companion_row t r.
Proof.
  intros Hl Hport. unfold isEmbeddedCompanionTarget, companion_row. simpl.
  destruct (decide (tr_protocol r = ProtocolTFTP)) as [Hp|Hp];
    [|rewrite (bool_decide_false (tr_protocol r = _)) by done; simpl; naive_solver].
  rewrite (bool_decide_true (tr_protocol r = _)) by done. simpl.
  case_bool_decide as Hb; [naive_solver|]. rewrite existsb_exists. split.
  - intros (x & Hx%list_elem_of_In & Hc). apply Hl in Hx as (id' & r' & Hr' & Hpr & Hpo & ->). simpl in Hc.
    apply andb_true_iff in Hc as [Hc He]. apply andb_true_iff in Hc as [Hh%bool_decide_eq_true _].
    split_and!; [done..|]. exists id', r'. split_and!; try done.
    apply negb_true_iff, Z.eqb_neq in He. done.
  - intros (_ & _ & _ & id' & r' & Hr' & Hpo & Hh & Hpr & He).
    exists (scan_public id' r'). split; [apply list_elem_of_In, Hl; eauto 10|]. simpl.
    rewrite (bool_decide_true (tr_host r' = _)) by done. simpl.
    replace (negb (tr_tftp_enabled r' =? 0)) with true by (symmetry; apply negb_true_iff, Z.eqb_neq; done).
    destruct Hpr as [-> | ->]; done.
Qed.
Lemma remove_companions_run (P : target_row -> Prop) list sshTelnet k c :
  healthy c -> valid_ids (tables c) -> NoDup (t_ID <$> list) ->
  (forall t, t ∈ list -> exists r, targets (tables c) !! t_ID t = Some r /\ (isEmbeddedCompanionTarget t sshTelnet = true <-> P r)) ->
  exists c' n, remove_companions (E := E) list sshTelnet k c = (c', Ok n) /\ healthy c' /\
    forall id r, targets (tables c') !! id = Some r <->
      targets (tables c) !! id = Some r /\ ~ (id ∈ t_ID <$> list /\ P r).
Proof.
  revert k c. induction list as [|t list IH]; intros k c Hh Hv Hnd Hl; simpl.
  { exists c, k. split_and!; try done. intros id r. split; [|by intros [? _]].
    intros Hr. split; [done|]. intros [Hin _]. by apply elem_of_nil in Hin. }
  apply NoDup_cons in Hnd as [Hni Hnd]. destruct (Hl t ltac:(by left)) as (r & Hr & Hiff).
  destruct (isEmbeddedCompanionTarget t sshTelnet) eqn:E1; simpl.
  - destruct (target_Delete_healthy (t_ID t) c Hh) as (c1 & Hd & Hh1 & Ht1); [by apply Hv; eauto|by eauto|].
    rewrite (bind_try _ _ _ _ _ Hd). simpl is_ok. cbv iota.
    destruct (IH (k + 1) c1 Hh1) as (c2 & n & -> & Hh2 & Hspec).
    { eapply valid_ids_subset; [|exact Hv]. intros id [x Hx]. rewrite Ht1 in Hx. apply lookup_delete_Some in Hx as [_ ?]. eauto. }
    { done. }
    { intros t' Hin. destruct (Hl t' ltac:(by right)) as (r' & Hr' & ?). exists r'. split; [|done].
      rewrite Ht1. apply lookup_delete_Some. split; [|done]. intros Heq. apply Hni. rewrite Heq. by apply list_elem_of_fmap_2. }
    exists c2, n. split_and!; try done. intros id r'. rewrite Hspec, Ht1, lookup_delete_Some, elem_of_cons.
    split; [naive_solver|]. intros [Hr' Hn]. split_and!; [|done|naive_solver].
    intros Heq. subst id. simplify_eq. apply Hn. split; [by left|]. by apply Hiff.
  - destruct (IH k c Hh Hv Hnd) as (c2 & n & -> & Hh2 & Hspec); [by intros t' Hin; apply Hl; right|].
    exists c2, n. split_and!; try done. intros id r'. rewrite Hspec, elem_of_cons. split; [|naive_solver].
    intros [Hr' Hn]. split; [done|]. intros [[-> |Hin] HP]; [|by apply Hn]. simplify_eq. by apply Hiff in HP.
Qed.

(** Start-up removes exactly the TFTP targets whose host is also the host of
    an SSH or telnet target with its TFTP switch on, whether the switch created them or
    an administrator registered them, and keeps every other target. *)
Theorem startup_removes_companions c :
  healthy c -> valid_ids (tables c) ->
  exists c' n, DisableAtStartup (E := E) c = (c', Ok n) /\
    forall id r, targets (tables c') !! id = Some r <-> targets (tables c) !! id = Some r /\ ~ companion_row (tables c) r.
Proof.
  intros Hh Hv. unfold DisableAtStartup.
  destruct (ListByProtocol_healthy ProtocolTFTP c Hh) as (l & Hq & Hnd & Hl).
  destruct (ListByProtocol_healthy ProtocolSSH c Hh) as (l1 & Hq1 & _ & Hl1).
  destruct (ListByProtocol_healthy ProtocolTelnet c Hh) as (l2 & Hq2 & _ & Hl2).
  rewrite (bind_try _ _ _ _ _ Hq).
  assert (Hcomp : forall r, companion_row (tables c) r -> tr_protocol r = ProtocolTFTP /\ port_ok r = true) by (by intros r (?&?&_)).
  assert (Hrun : exists c' n, db_bind listSSHTelnetTargets (fun x => remove_companions (E := E) l x 0) c = (c', Ok n) /\
    forall id r, targets (tables c') !! id = Some r <-> targets (tables c) !! id = Some r /\ ~ companion_row (tables c) r).
  { assert (listSSHTelnetTargets (E := E) c = (c, Ok (l1 ++ l2))) as Hs.
    { unfold listSSHTelnetTargets. rewrite (bind_try _ _ _ _ _ Hq1), (bind_try _ _ _ _ _ Hq2). done. }
    unfold db_bind at 1. rewrite Hs.
    assert (Hl12 : forall x, x ∈ l1 ++ l2 <-> exists id' r', targets (tables c) !! id' = Some r' /\
      (tr_protocol r' = ProtocolSSH \/ tr_protocol r' = ProtocolTelnet) /\ port_ok r' = true /\ x = scan_public id' r').
    { intros x. rewrite elem_of_app, Hl1, Hl2. naive_solver. }
    destruct (remove_companions_run (companion_row (tables c)) l (l1 ++ l2) 0 c Hh Hv Hnd) as (c' & n & Hr & _ & Hspec).
    { intros t (id & r & Hr & Hp & Hport & ->)%Hl. exists r. split; [done|]. by apply companion_spec. }
    exists c', n. split; [done|]. intros id r. rewrite Hspec. split; intros [Hr' Hn]; (split; [done|]).
    - intros Hc. apply Hn. split; [|done]. destruct (Hcomp r Hc) as [Hp Hport].
      apply list_elem_of_fmap. exists (scan_public id r). split; [done|]. apply Hl. eauto 10.
    - intros [_ Hc]. done. }
  destruct l as [|t l]; [|exact Hrun].
  exists c, 0. split; [done|]. intros id r. split; [|by intros [? _]]. intros Hr. split; [done|]. intros Hc.
  destruct (Hcomp r Hc) as [Hp Hport]. assert (scan_public id r ∈ []) as Hin by (apply Hl; eauto 10). by apply elem_of_nil in Hin.
Qed.
End startup.

(** ** The web console's view of the files *)

Definition tftpServerTargetRoot (e : tftp_env) (targetID : string) : list Z := Join [tftp_root e; bs targetID].
Definition tftpServerFullPath (e : tftp_env) (targetID : string) (relPath : list Z) : result tftp_err (list Z) :=
  let base := Clean (tftpServerTargetRoot e targetID) in
  if bool_decide (relPath = []) || bool_decide (relPath = [sep]) then Ok base
  else
    let rel := if has_prefix relPath [sep] then drop 1 relPath else relPath in
    let full := Clean (Join [base; rel]) in
    if negb (has_prefix full (base ++ [sep])) && negb (bool_decide (full = base)) then Err ErrPath else Ok full.

(** The console and the devices name the same files: a path that the console
    opens below the directory is the path the server resolves for it. *)
Theorem console_names_the_same_files e v targetID rel :
  rel <> [] -> tftpServerFullPath e targetID (sep :: rel) = safePath (NewServer (tftp_root e) v) targetID rel.
Proof.
  intros Hne. unfold tftpServerFullPath. rewrite (bool_decide_false (sep :: rel = [])), (bool_decide_false (sep :: rel = [sep])) by congruence.
  cbv beta iota delta [orb]. replace (has_prefix (sep :: rel) [sep]) with true by (symmetry; exact (is_rooted_cons rel)). done.
Qed.

(** ** A concrete run

    An operator of group g1 opens a window for the switch, which then sends its
    configuration. *)
Definition demo_ssh : target_row :=
  mkTargetRow "Core" "192.0.2.10" 22 "ssh" "g1" "g1" "" "" "" "" 1 0 1 "" 0 "" "".
Definition demo_access_tables : access_tables :=
  mkAccess {["u1"]} {["g1" := "G1"]} {["sw1" := demo_row; "core" := demo_ssh]} {[("u1", "g1") := None]} {[("g1", "sw1")]} ∅ ∅ ∅.
Definition demo_events : list tftp_event :=
  [VCreated true "tftp"; VOpen 100 "u1" "sw1" (Some 60)].
Definition demo_env : tftp_env := mkTftpEnv "" "".
Abbreviation demo_exec := (sys_exec (H := toy_crypto) (H2 := ascii_tables) [] true 100 ParseIP false demo_env).
Definition demo_system : system :=
  foldl (fun y ev => demo_exec ev y) (mkSystem defaultController (connect demo_access_tables) ∅ []) demo_events.
Lemma demo_valid_ids : valid_ids (tables (connect demo_access_tables)).
Proof.
  intros id [r Hr]. change (({["sw1" := demo_row; "core" := demo_ssh]} : gmap string target_row) !! id = Some r) in Hr.
  apply lookup_insert_Some in Hr as [[<- _]|[_ Hr]]; [by vm_compute|].
  apply lookup_singleton_Some in Hr as [<- _]. by vm_compute.
Qed.

Example demo_write :
  let y := demo_exec (VWrite (100 + minute) demo_ip (bs "sw1/startup.cfg") true true (bs "vlan 7") true) demo_system in
  y_files y = {[bs "/app/data/tftp/sw1/startup.cfg" := bs "vlan 7"]} /\
  y_files (demo_exec (VWrite (101 + minute) demo_ip (bs "sw1/startup.cfg") true true (bs "vlan 7") true) demo_system) = ∅.
Proof. by vm_compute. Qed.
Lemma device_writes_after_operator_witness :
  let y' := demo_exec (VWrite (100 + minute) demo_ip (bs "sw1/startup.cfg") true true (bs "vlan 7") true) demo_system in
  y_files y' = y_files demo_system \/
  exists o names srv, o ∈ y_log demo_system /\ 100 + minute <= o_time o + tftpWriteWindowMaxTTL /\ IP_Equal (o_ip o) demo_ip = true /\
    Forall normal names /\ Current (y_ctl demo_system) = Some srv /\
    y_files y' = <[abs_path (target_dir srv (o_target o) ++ names) := bs "vlan 7"]> (y_files demo_system).
Proof.
  apply (device_writes_after_operator (H := toy_crypto) (H2 := ascii_tables) [] true 100 ParseIP false demo_env demo_events
    (connect demo_access_tables) ∅ (100 + minute) demo_ip (bs "sw1/startup.cfg") true true (bs "vlan 7") true).
  - by vm_compute.
  - exact demo_valid_ids.
Defined.

Definition demo_open (n : Z) :=
  handleTFTPOpenWriteWindow (H := toy_crypto) [] true 100 200 "POST" "u1" "sw1" (Some n) (y_ctl demo_system) (y_db demo_system).
Lemma long_window_request_closes_witness :
  exists db' h, demo_open 9223372037 = (db', Ok h) /\
  exists target s, Current (h_controller h) = Some s /\ windows s !! target = None /\
    h_status h = Some (mkStatus target None) /\ (exists n, h_audit h = [("tftp_write_window_opened"%string, n)] /\ n < 0).
Proof.
  eexists _, _. split; [vm_compute; reflexivity|].
  eapply (long_window_request_closes (H := toy_crypto) [] true 100 200 "u1" "sw1" (y_ctl demo_system) (y_db demo_system)).
  vm_compute. reflexivity.
Defined.
Lemma startup_removes_companions_witness :
  exists c' n, DisableAtStartup (E := http_err) (connect demo_access_tables) = (c', Ok n) /\
    forall id r, targets (tables c') !! id = Some r <->
      targets demo_access_tables !! id = Some r /\ ~ companion_row demo_access_tables r.
Proof. apply (startup_removes_companions (connect demo_access_tables)); [done|exact demo_valid_ids]. Defined.

(** ** What the watchers of a target see

    [publishTFTPWriteWindowStatus] computes the status and then publishes it;
    between the two, another operator may act and publish. *)
Section watchers.
(** [json.Marshal] of the status. *)
Context (marshal : tftpWriteWindowStatusResponse -> string).
Hypothesis marshal_nonempty : forall st, marshal st <> ""%string.

Definition publish_status (targetID : string) (st : tftpWriteWindowStatusResponse) (b : broker string) : option (broker string) :=
  tftp_Publish targetID (marshal st) b.
Definition last_message (ch : nat) (b : broker string) : option string :=
  c ← chans b !! ch; last (ch_queue c).

(** A watcher is left with a stale status: one operator opens the window and
    computes its status, another closes the window and publishes, and then the first
    one publishes. The last message says open although no window is. *)
Theorem stale_status_shown_last now s id ip ttl b ch c :
  0 < ttl -> clients b !! ch = Some id -> chans b !! ch = Some c -> ch_closed c = false ->
  (length (ch_queue c) + 2 <= ch_cap c)%nat ->
  (forall ch' key, clients b !! ch' = Some key -> sendable b ch' = true) ->
  let c1 := mkController 1 (Some (OpenWriteWindow now s id ip ttl)) true in
  let (_, opened) := tftpWriteWindowStatusFor now c1 id in
  let c2 := mkController 1 (Some (CloseWriteWindow now (OpenWriteWindow now s id ip ttl) id)) true in
  let (c3, closed) := tftpWriteWindowStatusFor now c2 id in
  exists b1 b2, publish_status id closed b = Some b1 /\ publish_status id opened b1 = Some b2 /\
    st_open opened = Some (ip, now + ttl) /\ last_message ch b2 = Some (marshal opened) /\
    st_open (tftpWriteWindowStatusFor now c3 id).2 = None.
Proof.
  intros Httl Hcl Hch Ho Hroom Hs c1.
  pose proof (open_status now (mkController 1 (Some s) true) id s ip ttl eq_refl) as H1. cbv zeta in H1. unfold set_server in H1. simpl in H1.
  fold c1 in H1. rewrite H1. replace (ttl <=? 0) with false by (symmetry; apply Z.leb_gt; lia).
  unfold tftpWriteWindowStatusFor at 1. simpl. unfold WriteWindowStatus. simpl. rewrite lookup_delete_eq.
  unfold publish_status, tftp_Publish. rewrite !bool_decide_false by done.
  set (w := fun tid => bool_decide (tid = id)).
  destruct (fan_out_some w (marshal (mkStatus id None)) b Hs) as [b1 Hf1].
  destruct (fan_out_lookup _ _ _ _ ch Hf1) as [Hc1 Hl1].
  assert (Hw : wanted w b ch = true) by (unfold wanted, w; by rewrite Hcl, bool_decide_true).
  rewrite Hch in Hl1. simpl in Hl1. rewrite Hw, try_send_open, bool_decide_true in Hl1 by (done || lia).
  assert (Hs1 : forall ch' key, clients b1 !! ch' = Some key -> sendable b1 ch' = true).
  { intros ch' key Hk. rewrite Hc1 in Hk. specialize (Hs ch' key Hk). unfold sendable in *.
    rewrite (proj2 (fan_out_lookup _ _ _ _ ch' Hf1)). destruct (chans b !! ch') as [c'|]; [|done]. simpl.
    destruct (wanted w b ch'); [|done]. rewrite try_send_open by (by destruct (ch_closed c')). done. }
  destruct (fan_out_some w (marshal (mkStatus id (Some (ip, now + ttl)))) b1 Hs1) as [b2 Hf2].
  destruct (fan_out_lookup _ _ _ _ ch Hf2) as [_ Hl2].
  assert (Hw1 : wanted w b1 ch = true) by (unfold wanted, w; by rewrite Hc1, Hcl, bool_decide_true).
  rewrite Hl1 in Hl2. simpl in Hl2. rewrite Hw1, try_send_open, bool_decide_true in Hl2 by (simpl; rewrite ?length_app; simpl; done || lia).
  exists b1, b2. split_and!; [done|done|done| |].
  - unfold last_message. rewrite Hl2. simpl. by rewrite last_snoc.
  - unfold tftpWriteWindowStatusFor. simpl. unfold WriteWindowStatus. simpl. by rewrite lookup_delete_eq.
Qed.
End watchers.
