(* ===== verification/Credentials.v ===== *)
(** The credential library: SSH keys and login identities, encrypted at rest
    (src/internal/access/ssh_key_sqlite_store.go, credential_identity_sqlite_store.go,
    ssh_key_type.go and their validation), with the administration handlers
    (src/internal/httpapi/ssh_keys_handler.go, credential_identities_handler.go).

    Parsing and generating private keys is golang.org/x/crypto/ssh: the interface
    [SSHPrivateKeys]. A target refers to a key or an identity by columns without a
    foreign key, so the tables hold the targets too. *)
From S2P Require Import Prelude GoText Sqlite Http AccessValidate AccessDB AccessGroups AccessTargets AccessRequests Secret.
Local Open Scope Z_scope.

Record key_row := mkKeyRow { kr_label : string; kr_key_type : string; kr_private_key : string; kr_passphrase : string }.
Record identity_row := mkIdentityRow { ir_label : string; ir_username : string; ir_password : string; ir_key : option string }.
Record cred_tables := mkCred {
  ct_access : access_tables;
  ssh_keys : gmap string key_row;
  identities : gmap string identity_row (* [ir_key] references ssh_keys, ON DELETE SET NULL *)
}.
Abbreviation CredM := (DB cred_tables access_err).
Definition with_keys (t : cred_tables) x := mkCred (ct_access t) x (identities t).
Definition with_identities (t : cred_tables) x := mkCred (ct_access t) (ssh_keys t) x.
Definition put_access (a : access_tables) (t : cred_tables) : cred_tables := mkCred a (ssh_keys t) (identities t).
Definition on_targets {A} (m : AccessM A) : CredM A := db_zoom ct_access put_access m.

(** [ssh.ParsePrivateKey] and [ParsePrivateKeyWithPassphrase]: the type of the
    public key, [None] after an error. *)
Class SSHPrivateKeys := {
  ParsePrivateKey : list Z -> option string;
  ParsePrivateKeyWithPassphrase : list Z -> list Z -> option string
}.

Record SSHKey := mkSSHKey { sk_ID : string; sk_Label : string; SSHPrivateKey : string; SSHPrivateKeyPassphrase : string }.
Record SSHKeySummary := mkSSHKeySummary { ks_ID : string; ks_Label : string; ks_KeyType : string; ks_HasPassphrase : bool }.
Record CredentialIdentity := mkIdentity {
  ci_ID : string; ci_Label : string; ci_SSHUsername : string; ci_SSHPassword : string; ci_SSHKeyID : string; ci_Key : option SSHKey
}.
Record CredentialIdentitySummary := mkIdentitySummary {
  is_ID : string; is_Label : string; is_SSHUsername : string; is_HasPassword : bool;
  is_SSHKeyID : string; is_SSHKeyLabel : string; is_HasSSHKey : bool; is_HasPassphrase : bool
}.

Definition validateSSHKeyID (id : string) : result access_err unit :=
  validateCredentialLibraryID id ErrSSHKeyIDEmpty ErrSSHKeyIDTooLong ErrSSHKeyIDInvalid.
Definition validateSSHKeyLabel (label : string) : result access_err unit := validateCredentialLibraryLabel label ErrSSHKeyLabelReq.
Definition validateCredentialIdentityID (id : string) : result access_err unit :=
  validateCredentialLibraryID id ErrCredentialIdentityIDEmpty ErrCredentialIdentityIDTooLong ErrCredentialIdentityIDInvalid.
Definition validateCredentialIdentityLabel (label : string) : result access_err unit :=
  validateCredentialLibraryLabel label ErrCredentialIdentityLabelReq.
Definition blank (s : string) : bool := bool_decide (TrimSpace_s s = ""%string).
Definition validateCredentialIdentityAuth (sshPassword sshKeyID : string) : result access_err unit :=
  guard negb (blank sshPassword && blank sshKeyID) else ErrCredentialIdentityAuthReq in Ok tt.
Definition isUniqueConstraintErr (e : access_err) : bool :=
  match e with ErrDB msg => contains (bs msg) (bs unique_failed) | _ => false end.

Definition sshKeyAAD (id field : string) : list Z := bs "vantyx/ssh_key/" ++ bs id ++ [slash] ++ bs field.
Definition credentialIdentityAAD (id field : string) : list Z := bs "vantyx/credential_identity/" ++ bs id ++ [slash] ++ bs field.

Section store.
Context `{Crypto} `{UnicodeTables} `{MapRange} `{SSHPrivateKeys} (encKey : list Z).
Definition has_key : bool := bool_decide (length encKey = KeySize).

(** ** The type of a key *)
Definition sshPublicKeyTypeLabel (typ : string) : string :=
  if bool_decide (typ ∈ ["ssh-rsa"; "rsa-sha2-256"; "rsa-sha2-512"]%string) then "RSA"
  else if bool_decide (typ = "ssh-ed25519"%string) then "ED25519"
  else if bool_decide (typ ∈ ["ecdsa-sha2-nistp256"; "ecdsa-sha2-nistp384"; "ecdsa-sha2-nistp521"]%string) then "ECDSA"
  else let t := TrimSpace_s typ in if bool_decide (t = ""%string) then "UNKNOWN" else ToUpper_s t.
Definition DetectSSHKeyType (privateKeyPEM passphrase : string) : string :=
  let pem := TrimSpace (bs privateKeyPEM) in
  if bool_decide (pem = []) then ""
  else
    let signer := if negb (blank passphrase) then ParsePrivateKeyWithPassphrase pem (bs passphrase) else ParsePrivateKey pem in
    match signer with None => "UNKNOWN" | Some typ => sshPublicKeyTypeLabel typ end.

(** ** SSH keys *)
Definition encryptSecrets (id sshPrivateKey sshPrivateKeyPassphrase : string) (r1 r2 : result string (list Z)) : result access_err (string * string) :=
  guard negb ((negb (bool_decide (sshPrivateKey = "")) || negb (bool_decide (sshPrivateKeyPassphrase = ""))) && negb has_key)
    else ErrEncryptionKeyRequired in
  let enc (v field : string) r :=
    if bool_decide (v = ""%string) then Ok ""%string else of_secret (EncryptWithAAD encKey v (sshKeyAAD id field) r) in
  let? storedKey := enc sshPrivateKey "ssh_private_key"%string r1 in
  let? storedPass := enc sshPrivateKeyPassphrase "ssh_private_key_passphrase"%string r2 in
  Ok (storedKey, storedPass).

(** [ORDER BY label ASC, id ASC] *)
Definition by_label {row} (label : row -> string) (a b : string * row) : bool :=
  string_lt (label a.2) (label b.2) || bool_decide (label a.2 = label b.2) && string_lt a.1 b.1.
(** A store without a database lists nothing. *)
Definition if_configured {A} (d : A) (m : CredM A) : CredM A := fun c => if configured c then m c else (c, Ok d).
Definition key_List : CredM (list SSHKeySummary) :=
  if_configured [] (
    let* rows := db_query (fun t => sort_stable (by_label kr_label) (range (ssh_keys t))) in
    db_ret ((fun kr => mkSSHKeySummary kr.1 (kr_label kr.2) (kr_key_type kr.2) (negb (blank (kr_passphrase kr.2)))) <$> rows)).
Definition key_Create (id label sshPrivateKey sshPrivateKeyPassphrase : string) (r1 r2 : result string (list Z)) : CredM SSHKeySummary :=
  let* _ := db_of (validateSSHKeyID id) in
  let* _ := db_of (validateSSHKeyLabel label) in
  let sshPrivateKey := TrimSpace_s sshPrivateKey in
  if bool_decide (sshPrivateKey = ""%string) then db_throw ErrSSHKeyPrivateReq else
  let keyType := DetectSSHKeyType sshPrivateKey sshPrivateKeyPassphrase in
  let* (storedKey, storedPass) := db_of (encryptSecrets id sshPrivateKey sshPrivateKeyPassphrase r1 r2) in
  let* res := db_catch (db_exec (fun t =>
    match ssh_keys t !! id with
    | Some _ => Err unique_failed
    | None => Ok (with_keys t (<[id := mkKeyRow (TrimSpace_s label) keyType storedKey storedPass]> (ssh_keys t)), tt)
    end)) in
  match res with
  | Err err => db_throw (if isUniqueConstraintErr err then ErrSSHKeyExists else err)
  | Ok _ => db_ret (mkSSHKeySummary id (TrimSpace_s label) keyType (negb (bool_decide (sshPrivateKeyPassphrase = ""%string))))
  end.
(** The stored value of a column of [ssh_keys]; failures read as nothing. *)
Definition dec (id stored field : string) : string :=
  if bool_decide (stored = ""%string) then ""
  else if negb has_key then ""
  else match DecryptWithAAD encKey stored (sshKeyAAD id field) with Ok v => v | Err _ => "" end.
Definition key_GetDecrypted (id : string) : CredM SSHKey :=
  let* _ := db_of (validateSSHKeyID id) in
  let* row := db_query (fun t => ssh_keys t !! id) in
  match row with
  | None => db_throw ErrSSHKeyNotFound
  | Some r => db_ret (mkSSHKey id (kr_label r) (dec id (kr_private_key r) "ssh_private_key")
                        (dec id (kr_passphrase r) "ssh_private_key_passphrase"))
  end.
(** A non-empty label is validated; it replaces the current one unless blank. *)
Definition check_label (v : string -> result access_err unit) (label : string) : result access_err unit :=
  if bool_decide (label <> ""%string) then v label else Ok tt.
Definition next_label (label cur : string) : string := if blank label then cur else TrimSpace_s label.
(** What [Update] stores for the key and its type, and for the passphrase. *)
Definition next_key (id : string) (cur : key_row) (sshPrivateKey sshPrivateKeyPassphrase : option string) (r1 : result string (list Z))
    : result access_err (string * string) :=
  match sshPrivateKey with
  | Some raw =>
      let raw := TrimSpace_s raw in
      guard negb (bool_decide (raw = ""%string)) else ErrSSHKeyPrivateReq in
      let passForDetect :=
        match sshPrivateKeyPassphrase with
        | Some p => p
        | None => if negb (blank (kr_passphrase cur)) && has_key
                  then match DecryptWithAAD encKey (kr_passphrase cur) (sshKeyAAD id "ssh_private_key_passphrase") with Ok v => v | Err _ => "" end
                  else ""
        end in
      guard has_key else ErrEncryptionKeyRequired in
      let? enc := of_secret (EncryptWithAAD encKey raw (sshKeyAAD id "ssh_private_key") r1) in
      Ok (DetectSSHKeyType raw passForDetect, enc)
  | None =>
      match sshPrivateKeyPassphrase with
      | Some p =>
          if negb (blank (kr_private_key cur)) && has_key then
            match DecryptWithAAD encKey (kr_private_key cur) (sshKeyAAD id "ssh_private_key") with
            | Ok rawKey => Ok (DetectSSHKeyType rawKey p, kr_private_key cur)
            | Err _ => Ok (kr_key_type cur, kr_private_key cur)
            end
          else Ok (kr_key_type cur, kr_private_key cur)
      | None => Ok (kr_key_type cur, kr_private_key cur)
      end
  end.
Definition next_pass (id : string) (cur : key_row) (sshPrivateKeyPassphrase : option string) (r2 : result string (list Z)) : result access_err string :=
  match sshPrivateKeyPassphrase with
  | None => Ok (kr_passphrase cur)
  | Some raw =>
      if bool_decide (raw = ""%string) then Ok ""%string
      else
        guard has_key else ErrEncryptionKeyRequired in
        of_secret (EncryptWithAAD encKey raw (sshKeyAAD id "ssh_private_key_passphrase") r2)
  end.
Definition key_Update (id label : string) (sshPrivateKey sshPrivateKeyPassphrase : option string) (r1 r2 : result string (list Z)) : CredM SSHKeySummary :=
  let* _ := db_of (validateSSHKeyID id) in
  let* _ := db_of (check_label validateSSHKeyLabel label) in
  let* row := db_query (fun t => ssh_keys t !! id) in
  match row with
  | None => db_throw ErrSSHKeyNotFound
  | Some cur =>
      let nextLabel := next_label label (kr_label cur) in
      let* (nextKeyType, nextKeyStored) := db_of (next_key id cur sshPrivateKey sshPrivateKeyPassphrase r1) in
      let* nextPassStored := db_of (next_pass id cur sshPrivateKeyPassphrase r2) in
      let* _ := db_exec (fun t =>
        Ok (match ssh_keys t !! id with
            | Some _ => with_keys t (<[id := mkKeyRow nextLabel nextKeyType nextKeyStored nextPassStored]> (ssh_keys t))
            | None => t
            end, tt)) in
      db_ret (mkSSHKeySummary id nextLabel nextKeyType (negb (blank nextPassStored)))
  end.
(** [Delete]: two counts, and the deletion with the ON DELETE action. *)
Definition key_delete_check (id : string) : CredM unit :=
  let* _ := db_of (validateSSHKeyID id) in
  let* n := db_query (fun t => size (filter (fun ir => ir_key ir.2 = Some id) (identities t))) in
  if bool_decide (0 < n)%nat then db_throw ErrSSHKeyInUse else
  let* n := db_query (fun t => size (filter (fun tr => tr_ssh_key_id tr.2 = id) (targets (ct_access t)))) in
  if bool_decide (0 < n)%nat then db_throw ErrSSHKeyInUse else db_ret tt.
Definition unlink (id : string) (r : identity_row) : identity_row :=
  if bool_decide (ir_key r = Some id) then mkIdentityRow (ir_label r) (ir_username r) (ir_password r) None else r.
Definition key_delete_commit (id : string) : CredM unit :=
  let* aff := db_exec (fun t =>
    Ok match ssh_keys t !! id with
       | Some _ => (mkCred (ct_access t) (delete id (ssh_keys t)) (unlink id <$> identities t), 1)
       | None => (t, 0)
       end) in
  if aff =? 0 then db_throw ErrSSHKeyNotFound else db_ret tt.
Definition key_Delete (id : string) : CredM unit :=
  let* _ := key_delete_check id in key_delete_commit id.

(** ** Identities *)
Definition summaryFromRow (id label user pw keyID keyLabel keyPass : string) : CredentialIdentitySummary :=
  mkIdentitySummary id label user (negb (blank pw)) keyID keyLabel (negb (blank keyID)) (negb (blank keyPass)).
Definition summary_of (t : cred_tables) (ir : string * identity_row) : CredentialIdentitySummary :=
  let k := ir_key ir.2 ≫= (fun k => ssh_keys t !! k) in
  summaryFromRow ir.1 (ir_label ir.2) (ir_username ir.2) (ir_password ir.2) (coalesce_empty (ir_key ir.2))
    (coalesce_empty (kr_label <$> k)) (coalesce_empty (kr_passphrase <$> k)).
Definition identity_List : CredM (list CredentialIdentitySummary) :=
  if_configured [] (db_query (fun t => summary_of t <$> sort_stable (by_label ir_label) (range (identities t)))).
Definition find_identity (id : string) (items : list CredentialIdentitySummary) : option CredentialIdentitySummary :=
  snd <$> list_find (fun it => is_ID it = id) items.
(** [NULLIF(?, '')]; the INSERT and the UPDATE check the reference. *)
Definition nullif_empty (s : string) : option string := if bool_decide (s = ""%string) then None else Some s.
Definition key_exists (t : cred_tables) (k : option string) : bool :=
  match k with None => true | Some k => bool_decide (is_Some (ssh_keys t !! k)) end.
Definition encryptPassword (id raw : string) (r : result string (list Z)) : result access_err string :=
  guard has_key else ErrEncryptionKeyRequired in
  of_secret (EncryptWithAAD encKey raw (credentialIdentityAAD id "ssh_password") r).
(** [if sshKeyID != "" { keyStore.GetDecrypted(...) }] *)
Definition require_key (sshKeyID : string) : CredM unit :=
  if bool_decide (sshKeyID = ""%string) then db_ret tt else let* _ := key_GetDecrypted sshKeyID in db_ret tt.
Definition identity_Create (id label sshUsername sshPassword sshKeyID : string) (r : result string (list Z)) : CredM CredentialIdentitySummary :=
  let* _ := db_of (validateCredentialIdentityID id) in
  let* _ := db_of (validateCredentialIdentityLabel label) in
  let sshUsername := TrimSpace_s sshUsername in
  if bool_decide (sshUsername = ""%string) then db_throw ErrCredentialIdentityUserReq else
  let sshKeyID := TrimSpace_s sshKeyID in
  let* _ := db_of (validateCredentialIdentityAuth sshPassword sshKeyID) in
  let* _ := require_key sshKeyID in
  let* storedPw := db_of (if blank sshPassword then Ok ""%string else encryptPassword id (TrimSpace_s sshPassword) r) in
  let row := mkIdentityRow (TrimSpace_s label) sshUsername storedPw (nullif_empty sshKeyID) in
  let* res := db_catch (db_exec (fun t =>
    match identities t !! id with
    | Some _ => Err unique_failed
    | None => if key_exists t (ir_key row) then Ok (with_identities t (<[id := row]> (identities t)), tt) else Err fk_failed
    end)) in
  match res with
  | Err err => db_throw (if isUniqueConstraintErr err then ErrCredentialIdentityExists else err)
  | Ok _ =>
      let* items := identity_List in
      db_ret (default (mkIdentitySummary id (TrimSpace_s label) sshUsername (negb (bool_decide (storedPw = ""%string))) sshKeyID ""
                         (negb (bool_decide (sshKeyID = ""%string))) false)
                (find_identity id items))
  end.
Definition decryptIdentityPassword (id stored : string) : string :=
  if bool_decide (stored = ""%string) then ""
  else if negb has_key then ""
  else match DecryptWithAAD encKey stored (credentialIdentityAAD id "ssh_password") with Ok v => v | Err _ => "" end.
Definition identity_Update (id label sshUsername : string) (sshPassword sshKeyID : option string) (r : result string (list Z)) : CredM CredentialIdentitySummary :=
  let* _ := db_of (validateCredentialIdentityID id) in
  let* _ := db_of (check_label validateCredentialIdentityLabel label) in
  let* row := db_query (fun t => identities t !! id) in
  match row with
  | None => db_throw ErrCredentialIdentityNotFound
  | Some cur =>
      let nextLabel := next_label label (ir_label cur) in
      let nextUser := if blank sshUsername then ir_username cur else TrimSpace_s sshUsername in
      if bool_decide (nextUser = ""%string) then db_throw ErrCredentialIdentityUserReq else
      let* nextPwStored := db_of
        match sshPassword with
        | None => Ok (ir_password cur)
        | Some raw => let raw := TrimSpace_s raw in
            if bool_decide (raw = ""%string) then Ok ""%string else encryptPassword id raw r
        end in
      let nextKeyID := match sshKeyID with Some k => TrimSpace_s k | None => coalesce_empty (ir_key cur) end in
      let* _ := if sshKeyID then require_key nextKeyID else db_ret tt in
      let* _ := db_of (validateCredentialIdentityAuth (decryptIdentityPassword id nextPwStored) nextKeyID) in
      let* _ := db_exec (fun t =>
        match identities t !! id with
        | None => Ok (t, tt)
        | Some _ =>
            let row := mkIdentityRow nextLabel nextUser nextPwStored (nullif_empty nextKeyID) in
            if key_exists t (ir_key row) then Ok (with_identities t (<[id := row]> (identities t)), tt) else Err fk_failed
        end) in
      let* items := identity_List in
      match find_identity id items with Some it => db_ret it | None => db_throw ErrCredentialIdentityNotFound end
  end.
Definition identity_delete_check (id : string) : CredM unit :=
  let* _ := db_of (validateCredentialIdentityID id) in
  let* n := db_query (fun t => size (filter (fun tr => tr_credential_identity_id tr.2 = id) (targets (ct_access t)))) in
  if bool_decide (0 < n)%nat then db_throw ErrCredentialIdentityInUse else db_ret tt.
Definition identity_delete_commit (id : string) : CredM unit :=
  let* aff := db_exec (fun t =>
    Ok match identities t !! id with
       | Some _ => (with_identities t (delete id (identities t)), 1)
       | None => (t, 0)
       end) in
  if aff =? 0 then db_throw ErrCredentialIdentityNotFound else db_ret tt.
Definition identity_Delete (id : string) : CredM unit :=
  let* _ := identity_delete_check id in identity_delete_commit id.
Definition identity_GetDecrypted (id : string) : CredM CredentialIdentity :=
  let* _ := db_of (validateCredentialIdentityID id) in
  let* row := db_query (fun t => identities t !! id) in
  match row with
  | None => db_throw ErrCredentialIdentityNotFound
  | Some r =>
      let keyID := coalesce_empty (ir_key r) in
      let pw := decryptIdentityPassword id (ir_password r) in
      if bool_decide (keyID = ""%string) then db_ret (mkIdentity id (ir_label r) (ir_username r) pw keyID None)
      else
        let* k := key_GetDecrypted keyID in
        db_ret (mkIdentity id (ir_label r) (ir_username r) pw keyID (Some k))
  end.
End store.

(** ** The handlers

    All of them require an administrator. [None] is a body that does not parse. *)
(** [writeAccessValidationError]: the localized response of a validation error. *)
Definition writeAccessValidationError (e : access_err) : option http_err :=
  match e with
  | ErrGroupIDEmpty => Some (Http 400 "validation.groupIDEmpty")
  | ErrGroupIDTooLong => Some (Http 400 "validation.groupIDTooLong")
  | ErrGroupIDInvalid => Some (Http 400 "validation.groupIDInvalid")
  | ErrTargetIDEmpty => Some (Http 400 "validation.targetIDEmpty")
  | ErrTargetIDTooLong => Some (Http 400 "validation.targetIDTooLong")
  | ErrTargetIDInvalid => Some (Http 400 "validation.targetIDInvalid")
  | ErrNameEmpty => Some (Http 400 "validation.nameEmpty")
  | ErrNameTooLong => Some (Http 400 "validation.nameTooLong")
  | ErrNameInvalid => Some (Http 400 "validation.nameInvalid")
  | ErrHostEmpty => Some (Http 400 "validation.hostEmpty")
  | ErrHostTooLong => Some (Http 400 "validation.hostTooLong")
  | ErrHostInvalid => Some (Http 400 "validation.hostInvalid")
  | ErrHostRestricted => Some (Http 400 "validation.hostRestricted")
  | ErrProtocolInvalid => Some (Http 400 "targets.protocolInvalid")
  | ErrTagLength => Some (Http 400 "tags.lengthInvalid")
  | ErrTagChars => Some (Http 400 "tags.charsInvalid")
  | ErrHostKeyFingerprintInvalid => Some (Http 400 "targets.hostKeyFingerprintInvalid")
  | ErrSSHKeyLabelReq | ErrCredentialIdentityLabelReq => Some (Http 400 "validation.nameEmpty")
  | ErrSSHKeyIDEmpty => Some (Http 400 "sshKeys.idRequired")
  | ErrSSHKeyIDTooLong => Some (Http 400 "validation.sshKeyIDTooLong")
  | ErrSSHKeyIDInvalid => Some (Http 400 "validation.sshKeyIDInvalid")
  | ErrCredentialIdentityIDEmpty => Some (Http 400 "credentialIdentities.idRequired")
  | ErrCredentialIdentityIDTooLong => Some (Http 400 "validation.credentialIdentityIDTooLong")
  | ErrCredentialIdentityIDInvalid => Some (Http 400 "validation.credentialIdentityIDInvalid")
  | ErrSSHKeyPrivateReq => Some (Http 400 "sshKeys.privateKeyRequired")
  | ErrCredentialIdentityUserReq => Some (Http 400 "credentialIdentities.usernameRequired")
  | ErrCredentialIdentityAuthReq => Some (Http 400 "credentialIdentities.authRequired")
  | ErrGroupNotEmpty => Some (Http 409 "groups.notEmpty")
  | _ => None
  end.
(** [writeCredentialSchemaError] *)
Definition schema_err (e : access_err) : http_err :=
  match e with
  | ErrDB msg => if contains (bs msg) (bs "no such table") || contains (bs msg) (bs "no such column")
                 then Http 503 "credentials.notReady" else internal
  | _ => internal
  end.
Definition or_validation (h : access_err -> http_err) (e : access_err) : http_err := default (h e) (writeAccessValidationError e).
Definition create_err (e : access_err) : http_err :=
  match e with
  | ErrSSHKeyExists => Http 409 "sshKeys.exists"
  | ErrEncryptionKeyRequired => Http 503 "credentials.encryptionKeyRequired"
  | _ => internal
  end.
Definition update_err (e : access_err) : http_err :=
  match e with
  | ErrCredentialIdentityNotFound => Http 404 "credentialIdentities.notFound"
  | ErrSSHKeyNotFound => Http 404 "sshKeys.notFound"
  | ErrEncryptionKeyRequired => Http 503 "credentials.encryptionKeyRequired"
  | _ => internal
  end.
Definition identity_create_err (e : access_err) : http_err :=
  match e with
  | ErrCredentialIdentityExists => Http 409 "credentialIdentities.exists"
  | ErrSSHKeyNotFound => Http 404 "sshKeys.notFound"
  | ErrEncryptionKeyRequired => Http 503 "credentials.encryptionKeyRequired"
  | _ => internal
  end.
Definition delete_err (e : access_err) : http_err :=
  match e with
  | ErrSSHKeyNotFound => Http 404 "sshKeys.notFound"
  | ErrSSHKeyInUse => Http 409 "sshKeys.inUse"
  | ErrCredentialIdentityNotFound => Http 404 "credentialIdentities.notFound"
  | ErrCredentialIdentityInUse => Http 409 "credentialIdentities.inUse"
  | _ => internal
  end.
Definition body_of {T A} (body : option A) : DB T http_err A :=
  match body with None => db_throw (Http 400 "common.invalidRequestBody") | Some b => db_ret b end.
(** The trimmed identifier of the URL. *)
Definition url_id {T} (raw key : string) : DB T http_err string :=
  let id := TrimSpace_s raw in
  if bool_decide (id = ""%string) then db_throw (Http 400 key) else db_ret id.

Record createSSHKeyRequest := mkCreateSSHKey { ck_ID : string; ck_Label : string; ck_SSHPrivateKey : string; ck_Passphrase : string }.
Record updateSSHKeyRequest := mkUpdateSSHKey { uk_Label : string; uk_SSHPrivateKey : option string; uk_Passphrase : option string }.
Record generateSSHKeyRequest := mkGenerateSSHKey { gk_ID : string; gk_Label : string; gk_KeyType : string; gk_Passphrase : string }.
Record createCredentialIdentityRequest := mkCreateIdentity {
  cc_ID : string; cc_Label : string; cc_SSHUsername : string; cc_SSHPassword : string; cc_SSHKeyID : string }.
Record updateCredentialIdentityRequest := mkUpdateIdentity {
  uc_Label : string; uc_SSHUsername : string; uc_SSHPassword : option string; uc_SSHKeyID : option string }.
Definition identityAuthMethod (s : CredentialIdentitySummary) : string :=
  if is_HasPassword s && is_HasSSHKey s then "password_and_key"
  else if is_HasSSHKey s then "key" else if is_HasPassword s then "password" else "".

Section handlers.
Context `{Crypto} `{UnicodeTables} `{MapRange} `{SSHPrivateKeys} (encKey : list Z).
Abbreviation CredH := (DB cred_tables http_err).

Definition handleSSHKeysList (e : request_env) : CredH (list SSHKeySummary) :=
  let* _ := db_of (requireAdmin e) in call key_List schema_err.
Definition handleSSHKeysCreate (e : request_env) (body : option createSSHKeyRequest) r1 r2 : CredH SSHKeySummary :=
  let* _ := db_of (requireAdmin e) in
  let* b := body_of body in
  call (key_Create encKey (TrimSpace_s (ck_ID b)) (TrimSpace_s (ck_Label b)) (ck_SSHPrivateKey b) (ck_Passphrase b) r1 r2) (or_validation create_err).
Definition handleSSHKeysUpdate (e : request_env) (key_id : string) (body : option updateSSHKeyRequest) r1 r2 : CredH SSHKeySummary :=
  let* _ := db_of (requireAdmin e) in
  let* id := url_id key_id "sshKeys.idRequired" in
  let* b := body_of body in
  call (key_Update encKey id (TrimSpace_s (uk_Label b)) (uk_SSHPrivateKey b) (uk_Passphrase b) r1 r2) (or_validation update_err).
Definition handleSSHKeysDelete (e : request_env) (key_id : string) : CredH unit :=
  let* _ := db_of (requireAdmin e) in
  let* id := url_id key_id "sshKeys.idRequired" in
  call (key_Delete id) delete_err.
(** [generate rsa passphrase comment]: a new key pair, as the PEM text of the
    private key and the trimmed authorized_keys line. *)
Definition generateSSHKeyMaterial (generate : bool -> string -> string -> option (string * string)) (keyType passphrase comment : string)
    : result http_err (string * string) :=
  let? rsa := if bool_decide (keyType = "" \/ keyType = "ed25519")%string then Ok false
              else if bool_decide (keyType = "rsa"%string) then Ok true
              else Err (Http 400 "sshKeys.unsupportedKeyType") in
  match generate rsa passphrase comment with
  | None => Err internal
  | Some (privatePEM, publicLine) => Ok (privatePEM, if bool_decide (comment = ""%string) then publicLine else publicLine +:+ " " +:+ comment)
  end.
(** The summary with the private and the public key. *)
Definition handleSSHKeysGenerate generate (e : request_env) (body : option generateSSHKeyRequest) r1 r2 : CredH (SSHKeySummary * string * string) :=
  let* _ := db_of (requireAdmin e) in
  let* b := body_of body in
  let label := TrimSpace_s (gk_Label b) in
  let* (privatePEM, publicLine) := db_of (generateSSHKeyMaterial generate (ToLower_s (TrimSpace_s (gk_KeyType b))) (gk_Passphrase b) label) in
  let* sum := call (key_Create encKey (TrimSpace_s (gk_ID b)) label privatePEM (gk_Passphrase b) r1 r2) (or_validation create_err) in
  db_ret (sum, privatePEM, publicLine).

Definition handleCredentialIdentitiesList (e : request_env) : CredH (list CredentialIdentitySummary) :=
  let* _ := db_of (requireAdmin e) in call identity_List schema_err.
Definition handleCredentialIdentitiesCreate (e : request_env) (body : option createCredentialIdentityRequest) r : CredH CredentialIdentitySummary :=
  let* _ := db_of (requireAdmin e) in
  let* b := body_of body in
  call (identity_Create encKey (TrimSpace_s (cc_ID b)) (TrimSpace_s (cc_Label b)) (TrimSpace_s (cc_SSHUsername b)) (cc_SSHPassword b)
          (TrimSpace_s (cc_SSHKeyID b)) r) (or_validation identity_create_err).
Definition handleCredentialIdentitiesUpdate (e : request_env) (identity_id : string) (body : option updateCredentialIdentityRequest) r : CredH CredentialIdentitySummary :=
  let* _ := db_of (requireAdmin e) in
  let* id := url_id identity_id "credentialIdentities.idRequired" in
  let* b := body_of body in
  call (identity_Update encKey id (TrimSpace_s (uc_Label b)) (TrimSpace_s (uc_SSHUsername b)) (uc_SSHPassword b) (TrimSpace_s <$> uc_SSHKeyID b) r)
    (or_validation update_err).
Definition handleCredentialIdentitiesDelete (e : request_env) (identity_id : string) : CredH unit :=
  let* _ := db_of (requireAdmin e) in
  let* id := url_id identity_id "credentialIdentities.idRequired" in
  call (identity_Delete id) delete_err.

(** ** Copying credentials into a target (targets_handler.go) *)

(** The four fields of a target request. *)
Record secrets := mkSecrets { x_username : string; x_password : string; x_key : string; x_pass : string }.
(** [set] *)
Definition set_secret (onlyIfEmpty : bool) (cur val : string) : string :=
  if bool_decide (val = ""%string) then cur
  else if onlyIfEmpty && negb (blank cur) then cur else val.
Definition applyStoredCredentials (credentialIdentityID sshKeyID : string) (cur : secrets) (onlyIfEmpty : bool) : DB cred_tables access_err secrets :=
  let credentialIdentityID := TrimSpace_s credentialIdentityID in
  let sshKeyID := TrimSpace_s sshKeyID in
  if negb (bool_decide (credentialIdentityID = ""%string)) && negb (bool_decide (sshKeyID = ""%string))
  then db_throw ErrCredentialSourceExclusive
  else
    let set := set_secret onlyIfEmpty in
    let with_key_of (s : secrets) (k : SSHKey) :=
      mkSecrets (x_username s) (x_password s) (set (x_key s) (SSHPrivateKey k)) (set (x_pass s) (SSHPrivateKeyPassphrase k)) in
    if negb (bool_decide (credentialIdentityID = ""%string)) then
      let* ident := identity_GetDecrypted encKey credentialIdentityID in
      let s := mkSecrets (set (x_username cur) (ci_SSHUsername ident)) (set (x_password cur) (ci_SSHPassword ident)) (x_key cur) (x_pass cur) in
      db_ret (match ci_Key ident with Some k => with_key_of s k | None => s end)
    else if negb (bool_decide (sshKeyID = ""%string)) then
      let* k := key_GetDecrypted encKey sshKeyID in
      db_ret (with_key_of cur k)
    else db_ret cur.
End handlers.

(** ** References between targets, identities and keys *)
Record links_ok (t : cred_tables) : Prop := {
  lk_key : forall id r k, identities t !! id = Some r -> ir_key r = Some k -> is_Some (ssh_keys t !! k);
  lk_auth : forall id r, identities t !! id = Some r -> ir_password r <> ""%string \/ ir_key r <> None;
  lk_target_identity : forall id r, targets (ct_access t) !! id = Some r -> tr_credential_identity_id r <> ""%string ->
    is_Some (identities t !! tr_credential_identity_id r);
  lk_target_key : forall id r, targets (ct_access t) !! id = Some r -> tr_ssh_key_id r <> ""%string ->
    is_Some (ssh_keys t !! tr_ssh_key_id r)
}.

Lemma filter_none {A} (P : string * A -> Prop) `{!forall x, Decision (P x)} (m : gmap string A) :
  ~ (0 < size (filter P m))%nat -> forall k x, m !! k = Some x -> ~ P (k, x).
Proof.
  intros Hs k x Hk HP. apply Hs.
  assert (Hf : filter P m !! k = Some x) by (by apply map_lookup_filter_Some).
  destruct (size (filter P m)) eqn:E; [|lia]. apply map_size_empty_inv in E. by rewrite E, lookup_empty in Hf.
Qed.
Lemma insert_identity_ok t id r :
  links_ok t -> (forall k, ir_key r = Some k -> is_Some (ssh_keys t !! k)) -> (ir_password r <> ""%string \/ ir_key r <> None) ->
  links_ok (with_identities t (<[id := r]> (identities t))).
Proof.
  intros [H1 H2 H3 H4] Hk Ha. split; simpl; [| |intros i r' Hl Hne; rewrite lookup_insert_is_Some'; right; eauto|done].
  - intros i r' k [[<- <-]|[_ Hl]]%lookup_insert_Some; eauto.
  - intros i r' [[<- <-]|[_ Hl]]%lookup_insert_Some; eauto.
Qed.
Lemma insert_key_ok t id r : links_ok t -> links_ok (with_keys t (<[id := r]> (ssh_keys t))).
Proof.
  intros [H1 H2 H3 H4]. split; simpl; [|done..|]; intros; rewrite lookup_insert_is_Some'; right; eauto.
Qed.
Lemma nullif_key_exists t s k : key_exists t (nullif_empty s) = true -> nullif_empty s = Some k -> is_Some (ssh_keys t !! k).
Proof. unfold nullif_empty, key_exists. case_bool_decide; [done|]. intros Hk [= <-]. by apply bool_decide_eq_true in Hk. Qed.
Lemma auth_nonempty pw k u : validateCredentialIdentityAuth pw k = Ok u -> pw <> ""%string \/ k <> ""%string.
Proof.
  unfold validateCredentialIdentityAuth. destruct (negb _) eqn:E; [|done]. intros _.
  apply negb_true_iff, andb_false_iff in E as [E|E]; apply bool_decide_eq_false in E; [left|right]; by intros ->.
Qed.

(** [preserve] that keeps what the checks of an operation established. *)
Lemma preserves_bind_of {T E A B} (P : T -> Prop) (r : result E A) (k : A -> DB T E B) :
  (forall a, r = Ok a -> preserves P (k a)) -> preserves P (db_bind (db_of r) k).
Proof. intros Hk c Hc. unfold db_bind, db_of. destruct r as [a|]; [by apply Hk|done]. Qed.
Ltac preserve_checks :=
  repeat first
    [ match goal with |- forall _, _ => intro end
    | simple apply preserves_bind_of; intros ? ?
    | simple apply preserves_ret | simple apply preserves_throw | simple apply preserves_query
    | simple apply preserves_bind | simple apply preserves_catch
    | match goal with |- preserves _ (match ?e with _ => _ end) => destruct e eqn:? end ].

Section links.
Context `{Crypto} `{UnicodeTables} `{MapRange} `{SSHPrivateKeys} (encKey : list Z).

Lemma preserves_if_configured {A} (P : cred_tables -> Prop) (d : A) m : preserves P m -> preserves P (if_configured d m).
Proof. intros Hm c Hc. unfold if_configured. destruct (configured c); [by apply Hm|done]. Qed.
Lemma key_get_links id : preserves links_ok (key_GetDecrypted encKey id).
Proof. unfold key_GetDecrypted. preserve. Qed.
Lemma identity_list_links : preserves links_ok identity_List.
Proof. unfold identity_List. apply preserves_if_configured. preserve. Qed.
Lemma key_list_links : preserves links_ok key_List.
Proof. unfold key_List. apply preserves_if_configured. preserve. Qed.
Lemma require_key_links id : preserves links_ok (require_key encKey id).
Proof. unfold require_key. preserve. apply key_get_links. Qed.
Lemma key_create_links id label k p r1 r2 : preserves links_ok (key_Create encKey id label k p r1 r2).
Proof.
  unfold key_Create. preserve. apply preserves_exec. intros t t' [] Hok. case_match; [done|].
  intros [= <-]. by apply insert_key_ok.
Qed.
Lemma key_update_links id label k p r1 r2 : preserves links_ok (key_Update encKey id label k p r1 r2).
Proof.
  unfold key_Update. preserve. apply preserves_exec. intros t t' [] Hok [= <-]. case_match; [by apply insert_key_ok|done].
Qed.
Lemma stored_password_nonempty id pw r s : encryptPassword encKey id pw r = Ok s -> pw <> ""%string -> s <> ""%string.
Proof.
  unfold encryptPassword, EncryptWithAAD. destruct (has_key encKey); [|done]. case_bool_decide; [|done].
  intros Hs Hne. rewrite decide_False in Hs by done. destruct r as [nonce|]; [|done]. simpl in Hs. injection Hs as <-.
  unfold str_of. simpl. discriminate.
Qed.
Lemma identity_create_links id label u pw k r : preserves links_ok (identity_Create encKey id label u pw k r).
Proof.
  unfold identity_Create. preserve_checks; [apply require_key_links| |apply identity_list_links].
  apply preserves_exec. intros t t' [] Hok. destruct (identities t !! id); [done|].
  match goal with |- context [key_exists t ?x] => destruct (key_exists t x) eqn:Hk end; [|done].
  intros [= <-]. apply insert_identity_ok; [done|intros k' Hk'; by eapply nullif_key_exists|]. simpl.
  match goal with Ha : validateCredentialIdentityAuth _ _ = _ |- _ => unfold validateCredentialIdentityAuth in Ha; destruct (negb _) eqn:Hb in Ha; [|done] end.
  apply negb_true_iff, andb_false_iff in Hb as [Hb|Hb].
  - left. match goal with Hp : (if blank pw then _ else _) = Ok ?s |- _ => rewrite Hb in Hp; eapply stored_password_nonempty; [exact Hp|] end.
    by apply bool_decide_eq_false in Hb.
  - right. apply bool_decide_eq_false in Hb. unfold nullif_empty. rewrite bool_decide_false; [done|].
    intros E. rewrite E in Hb. done.
Qed.
Lemma identity_update_links id label u pw k r : preserves links_ok (identity_Update encKey id label u pw k r).
Proof.
  unfold identity_Update. preserve_checks; try apply require_key_links; try apply identity_list_links.
  apply preserves_exec; intros t t' [] Hok; destruct (identities t !! id); [|by intros [= <-]].
  match goal with |- context [key_exists ?t0 ?x] => destruct (key_exists t0 x) eqn:Hk end; [|done].
  intros [= <-]; apply insert_identity_ok; [done|intros k' Hk'; by eapply nullif_key_exists|]; simpl.
  match goal with Hv : validateCredentialIdentityAuth _ _ = _ |- _ => apply auth_nonempty in Hv; rename Hv into Hauth end.
  destruct Hauth as [Ha|Ha].
  - left. intros ->. by apply Ha.
  - right. unfold nullif_empty. by rewrite bool_decide_false.
Qed.
Lemma identity_delete_links id : preserves links_ok (identity_Delete id).
Proof.
  unfold identity_Delete. eapply hoare_bind with (R := fun t r => links_ok t /\ (r = Ok tt -> forall i row, targets (ct_access t) !! i = Some row -> tr_credential_identity_id row <> id));
    [|intros []|by intros t e []].
  - unfold identity_delete_check. eapply hoare_bind with (R := fun t _ => links_ok t); [apply preserves_of| |by intros].
    intros _. apply hoare_bind with (R := fun t r => links_ok t /\ forall n, r = Ok n ->
      n = size (filter (fun tr : string * target_row => tr_credential_identity_id tr.2 = id) (targets (ct_access t)))).
    + apply hoare_query; [|done]. intros t Hok. split; [done|]. by intros n [= <-].
    + intros n c [Hok Hn]. specialize (Hn n eq_refl). case_bool_decide as Hb; [done|]. split; [done|]. intros _ i row Hl.
      rewrite Hn in Hb. exact (filter_none (fun tr : string * target_row => tr_credential_identity_id tr.2 = id) _ Hb i row Hl).
    + by intros t e [].
  - unfold identity_delete_commit. eapply hoare_bind with (R := fun t _ => links_ok t); [|intros n; case_match; preserve|done].
    apply hoare_exec; [|by intros t m []]. intros t [Hok Hno]. destruct (identities t !! id) as [old|]; [|done].
    destruct Hok as [H1' H2' H3' H4']. specialize (Hno eq_refl). split; simpl; [| | |done].
    + intros i r k [_ Hl]%lookup_delete_Some. eauto.
    + intros i r [_ Hl]%lookup_delete_Some. eauto.
    + intros i row Hl Hne. rewrite lookup_delete_ne; eauto. intros E. by eapply Hno.
Qed.
Lemma key_delete_links id : preserves links_ok (key_Delete id).
Proof.
  unfold key_Delete. eapply hoare_bind with (R := fun t r => links_ok t /\ (r = Ok tt ->
      (forall i row, identities t !! i = Some row -> ir_key row <> Some id) /\
      (forall i row, targets (ct_access t) !! i = Some row -> tr_ssh_key_id row <> id)));
    [|intros []|by intros t e []].
  - unfold key_delete_check. eapply hoare_bind with (R := fun t _ => links_ok t); [apply preserves_of| |by intros].
    intros _. apply hoare_bind with (R := fun t r => links_ok t /\ forall n, r = Ok n ->
      n = size (filter (fun ir : string * identity_row => ir_key ir.2 = Some id) (identities t))).
    { apply hoare_query; [|done]. intros t Hok. split; [done|]. by intros n [= <-]. }
    2: { by intros t e []. }
    intros n. case_bool_decide as Hb; [intros c [Hok _]; by split|].
    eapply hoare_conseq with (P' := fun t => links_ok t /\ forall i row, identities t !! i = Some row -> ir_key row <> Some id); [| |intros ? ? Hq; exact Hq].
    2: { intros t [Hok Hn]. specialize (Hn n eq_refl). split; [done|]. intros i row Hl. rewrite Hn in Hb.
         exact (filter_none (fun ir : string * identity_row => ir_key ir.2 = Some id) _ Hb i row Hl). }
    apply hoare_bind with (R := fun t r => (links_ok t /\ forall i row, identities t !! i = Some row -> ir_key row <> Some id) /\ forall n, r = Ok n ->
      n = size (filter (fun tr : string * target_row => tr_ssh_key_id tr.2 = id) (targets (ct_access t)))).
    + apply hoare_query; [|done]. intros t Hok. split; [done|]. by intros n' [= <-].
    + intros n' c [[Hok Hid] Hn]. specialize (Hn n' eq_refl). case_bool_decide as Hb'; [done|]. split; [done|]. intros _. split; [done|].
      intros i row Hl. rewrite Hn in Hb'. exact (filter_none (fun tr : string * target_row => tr_ssh_key_id tr.2 = id) _ Hb' i row Hl).
    + by intros t e [[] _].
  - unfold key_delete_commit. eapply hoare_bind with (R := fun t _ => links_ok t); [|intros n; case_match; preserve|done].
    apply hoare_exec; [|by intros t m []]. intros t [Hok Hno]. destruct (ssh_keys t !! id) as [old|]; [|done].
    destruct Hok as [H1' H2' H3' H4']. destruct (Hno eq_refl) as [Hnk Hnt].
    assert (Hun : unlink id <$> identities t = identities t).
    { apply map_eq. intros i. rewrite lookup_fmap. destruct (identities t !! i) as [row|] eqn:El; [|done]. simpl. f_equal.
      unfold unlink. rewrite bool_decide_false; [done|]. by eapply Hnk. }
    split; simpl; rewrite ?Hun; [|done|done|].
    + intros i r k Hl Hk. rewrite lookup_delete_ne; [eauto|]. intros <-. by eapply Hnk.
    + intros i row Hl Hne. rewrite lookup_delete_ne; [eauto|]. intros E. by eapply Hnt.
Qed.
End links.

(** ** Ciphertexts belong to their cell

    Every encrypted column of the access tables: a credential of a target, a
    field of a key, the password of an identity. *)
Inductive cell := TargetCell (id field : string) | KeyCell (id field : string) | IdentityCell (id : string).
#[export] Instance cell_eq_dec : EqDecision cell. Proof. solve_decision. Defined.
Definition cell_id (c : cell) : string := match c with TargetCell id _ | KeyCell id _ | IdentityCell id => id end.
Definition cell_aad (c : cell) : list Z :=
  match c with
  | TargetCell id f => credentialAAD id f
  | KeyCell id f => sshKeyAAD id f
  | IdentityCell id => credentialIdentityAAD id "ssh_password"
  end.
(** What the stores read from a cell that holds [stored]. *)
Definition read_cell `{Crypto} (encKey : list Z) (strict : bool) (c : cell) (stored : string) : string :=
  match c with
  | TargetCell id f => decryptOrPlain encKey strict stored id f
  | KeyCell id f => dec encKey id stored f
  | IdentityCell id => decryptIdentityPassword encKey id stored
  end.

Lemma cell_aad_bytes c : bytes (cell_aad c).
Proof.
  destruct c as [id f|id f|id]; simpl; [apply credentialAAD_bytes| |]; unfold sshKeyAAD, credentialIdentityAAD;
    repeat apply Forall_app_2; try apply bs_bytes; apply Forall_singleton; unfold is_byte, slash; lia.
Qed.
Lemma cell_aad_inj c c' : slash ∉ bs (cell_id c) -> slash ∉ bs (cell_id c') -> cell_aad c = cell_aad c' -> c = c'.
Proof.
  destruct c as [i f|i f|i], c' as [j g|j g|j]; simpl; intros Hi Hj Heq;
    unfold credentialAAD, sshKeyAAD, credentialIdentityAAD in Heq; try discriminate Heq;
    apply app_inv_head in Heq; apply split_first in Heq as [?%(inj bs) ?%(inj bs)]; by subst.
Qed.
Lemma read_cell_spec `{Crypto} encKey strict c c' v nonce s :
  length encKey = KeySize -> length nonce = NonceSize -> bytes nonce -> v <> ""%string ->
  slash ∉ bs (cell_id c) -> slash ∉ bs (cell_id c') ->
  EncryptWithAAD encKey v (cell_aad c) (Ok nonce) = Ok s ->
  IsEncrypted s = true /\ read_cell encKey strict c' s = if decide (c = c') then v else ""%string.
Proof.
  intros Hk Hn Hb Hv Hc Hc' He. unfold EncryptWithAAD in He.
  rewrite bool_decide_eq_true_2, decide_False in He by done. cbv zeta in He. apply ok_inj in He.
  destruct (decrypt_sealed encKey nonce v (cell_aad c) (cell_aad c') Hk Hn Hb) as (Hi & Hne & Hd). rewrite He in Hi, Hne, Hd.
  split; [done|]. specialize (Hd encKey Hk). rewrite decide_True in Hd by done.
  assert (Hopen : DecryptWithAAD encKey s (cell_aad c') = if decide (c = c') then Ok v else Err ErrDecrypt).
  { rewrite Hd. destruct (decide (c = c')) as [<-|Hcc].
    - by rewrite open_seal, str_of_bs.
    - rewrite open_seal_aad; [done|apply cell_aad_bytes|apply cell_aad_bytes|]. intros Heq. by apply Hcc, cell_aad_inj. }
  assert (Hh : has_key encKey = true) by (by apply bool_decide_eq_true_2).
  destruct c' as [i f|i f|i]; simpl in *.
  - unfold decryptOrPlain. rewrite decide_False, Hi, decide_True, Hopen by done. by case_decide.
  - unfold dec. rewrite bool_decide_false, Hh, Hopen by done. simpl. by case_decide.
  - unfold decryptIdentityPassword. rewrite bool_decide_false, Hh, Hopen by done. simpl. by case_decide.
Qed.
(** A ciphertext is worth nothing outside its cell: a value stored for one
    column of one target, key or identity is read back there, and as the empty
    string in any other column, row or table. *)
Theorem ciphertexts_are_bound `{Crypto} encKey strict c c' v nonce s :
  length encKey = KeySize -> length nonce = NonceSize -> bytes nonce -> v <> ""%string ->
  slash ∉ bs (cell_id c) -> slash ∉ bs (cell_id c') ->
  EncryptWithAAD encKey v (cell_aad c) (Ok nonce) = Ok s ->
  IsEncrypted s = true /\ read_cell encKey strict c' s = if decide (c = c') then v else ""%string.
Proof. apply read_cell_spec. Qed.

Section roundtrip.
Context `{Crypto} `{UnicodeTables} `{MapRange} `{SSHPrivateKeys} (encKey : list Z).

(** A value as a column of cell [c] holds it. *)
Definition holds (c : cell) (v stored : string) : Prop :=
  (v = ""%string /\ stored = ""%string) \/
  (v <> ""%string /\ length encKey = KeySize /\ exists nonce, EncryptWithAAD encKey v (cell_aad c) (Ok nonce) = Ok stored /\ length nonce = NonceSize /\ bytes nonce).
Lemma holds_read strict c v stored : slash ∉ bs (cell_id c) -> holds c v stored ->
  read_cell encKey strict c stored = v /\ (v <> ""%string -> IsEncrypted stored = true).
Proof.
  intros Hc [[-> ->]|(Hv & Hk & nonce & He & Hn & Hb)].
  - split; [|done]. by destruct c.
  - destruct (read_cell_spec encKey strict c c v nonce stored) as [Hi Hr]; try done. by rewrite decide_True in Hr.
Qed.
Lemma encrypted_holds c v r s : good_nonce r -> length encKey = KeySize -> v <> ""%string ->
  of_secret (EncryptWithAAD encKey v (cell_aad c) r) = Ok s -> holds c v s.
Proof.
  intros Hr Hk Hv He. right. split; [done|]. split; [done|]. destruct r as [nonce|msg].
  - destruct Hr. exists nonce. split_and!; try done. unfold of_secret in He. by destruct (EncryptWithAAD _ _ _ _); simplify_eq.
  - unfold EncryptWithAAD in He. rewrite bool_decide_eq_true_2, decide_False in He by done. done.
Qed.
Lemma key_create_inv id label k p r1 r2 c c' sum :
  healthy c -> good_nonce r1 -> good_nonce r2 -> key_Create encKey id label k p r1 r2 c = (c', Ok sum) ->
  healthy c' /\ validateSSHKeyID id = Ok tt /\ exists row,
    tables c' = with_keys (tables c) (<[id := row]> (ssh_keys (tables c))) /\ kr_label row = TrimSpace_s label /\
    holds (KeyCell id "ssh_private_key") (TrimSpace_s k) (kr_private_key row) /\
    holds (KeyCell id "ssh_private_key_passphrase") p (kr_passphrase row).
Proof.
  intros Hc Hr1 Hr2. unfold key_Create. destruct (validateSSHKeyID id) as [[]|] eqn:Hv; [|done].
  destruct (validateSSHKeyLabel label) as [[]|]; [|done]. unfold db_bind at 1, db_of at 1. unfold db_bind at 1, db_of at 1.
  case_bool_decide as Hk; [done|].
  destruct (encryptSecrets _ _ _ _ _ _) as [[sk sp]|] eqn:He; [|done]. unfold db_bind at 1, db_of at 1.
  unfold db_bind at 1, db_catch. rewrite exec_healthy by done. destruct (ssh_keys (tables c) !! id); [done|]. intros [= <- <-].
  split; [done|]. split; [done|]. eexists. split; [done|]. simpl. split; [done|].
  unfold encryptSecrets in He. rewrite bool_decide_false in He by done. simpl in He.
  destruct (has_key encKey) eqn:Hkk; [|done]. apply bool_decide_eq_true in Hkk. simpl in He.
  destruct (of_secret (EncryptWithAAD encKey (TrimSpace_s k) _ r1)) as [s1|] eqn:E1; [|done].
  split.
  - assert (s1 = sk) as <- by (destruct (if bool_decide (p = ""%string) then _ else _); by simplify_eq).
    by apply (encrypted_holds (KeyCell id "ssh_private_key") _ r1).
  - case_bool_decide as Hp; [left; by simplify_eq|].
    destruct (of_secret (EncryptWithAAD encKey p _ r2)) as [s2|] eqn:E2; [|done]. simplify_eq. by apply (encrypted_holds (KeyCell id "ssh_private_key_passphrase") _ r2).
Qed.
Lemma identity_create_inv id label u pw k r c c' sum :
  healthy c -> good_nonce r -> identity_Create encKey id label u pw k r c = (c', Ok sum) ->
  healthy c' /\ validateCredentialIdentityID id = Ok tt /\ TrimSpace_s u <> ""%string /\ exists row,
    tables c' = with_identities (tables c) (<[id := row]> (identities (tables c))) /\
    ir_label row = TrimSpace_s label /\ ir_username row = TrimSpace_s u /\ ir_key row = nullif_empty (TrimSpace_s k) /\
    holds (IdentityCell id) (TrimSpace_s pw) (ir_password row).
Proof.
  intros Hc Hr. unfold identity_Create. destruct (validateCredentialIdentityID id) as [[]|]; [|done].
  destruct (validateCredentialIdentityLabel label) as [[]|]; [|done]. unfold db_bind at 1, db_of at 1. unfold db_bind at 1, db_of at 1.
  case_bool_decide as Hu; [done|]. destruct (validateCredentialIdentityAuth _ _); [|done]. unfold db_bind at 1, db_of at 1.
  intros E. apply bind_inv in E as (c1 & [] & Ek & E).
  assert (c1 = c) as ->.
  { unfold require_key in Ek. destruct (bool_decide (TrimSpace_s k = ""%string)); [by injection Ek|].
    apply bind_inv in Ek as (c2 & kk & Ek & [= <-]). unfold key_GetDecrypted in Ek.
    apply bind_inv in Ek as (c3 & [] & Ev & Ek). unfold db_of in Ev. injection Ev as <- _. rewrite bind_query in Ek by done.
    destruct (ssh_keys (tables c) !! _); [|done]. unfold db_ret in Ek. by injection Ek as -> _. }
  destruct (if blank pw then _ else _) as [spw|] eqn:Hp; [|done]. unfold db_bind at 1, db_of at 1 in E.
  unfold db_bind at 1, db_catch in E. rewrite exec_healthy in E by done. destruct (identities (tables c) !! id); [done|].
  destruct (key_exists _ _) eqn:Hke in E.
  2: { unfold db_throw in E. by destruct (isUniqueConstraintErr _) in E. }
  apply bind_inv in E as (c2 & items & El & E). unfold identity_List, if_configured in El.
  rewrite (proj1 (healthy_set_tables c _ Hc)) in El. rewrite query_healthy in El by done. injection El as <- _. injection E as <- _.
  split; [done|]. split; [done|]. split; [done|]. eexists. split; [done|]. split_and!; try done. simpl.
  unfold blank in Hp. case_bool_decide as Hb; [left; by simplify_eq|].
  unfold encryptPassword in Hp. destruct (has_key encKey) eqn:Hkk; [|done]. apply bool_decide_eq_true in Hkk.
  by apply (encrypted_holds (IdentityCell id) _ r).
Qed.
Lemma key_get id c row : healthy c -> validateSSHKeyID id = Ok tt -> ssh_keys (tables c) !! id = Some row ->
  key_GetDecrypted encKey id c = (c, Ok (mkSSHKey id (kr_label row)
    (read_cell encKey true (KeyCell id "ssh_private_key") (kr_private_key row))
    (read_cell encKey true (KeyCell id "ssh_private_key_passphrase") (kr_passphrase row)))).
Proof.
  intros Hc Hv Hl. unfold key_GetDecrypted. rewrite Hv. unfold db_bind at 1, db_of. by rewrite bind_query, Hl.
Qed.

(** C36. What the library was given is what a connection gets: on a database that
    answers, with nonces of the right length, identifiers without a slash and a
    trimmed key identifier, after a key and an identity that uses it were created,
    the identity reads back with the trimmed user name and password and with the
    key's trimmed private key and its passphrase as given. The three secrets -
    private key, passphrase and password - are stored, where they are not empty, in
    the encrypted form [IsEncrypted] recognises; the user name is not a secret and is
    stored as it is. *)
Theorem library_roundtrip kid klabel priv pass r1 r2 iid ilabel u pw r c c1 ks c2 s :
  healthy c -> good_nonce r1 -> good_nonce r2 -> good_nonce r ->
  slash ∉ bs kid -> slash ∉ bs iid -> TrimSpace_s kid = kid -> kid <> ""%string ->
  key_Create encKey kid klabel priv pass r1 r2 c = (c1, Ok ks) ->
  identity_Create encKey iid ilabel u pw kid r c1 = (c2, Ok s) ->
  identity_GetDecrypted encKey iid c2 = (c2, Ok (mkIdentity iid (TrimSpace_s ilabel) (TrimSpace_s u) (TrimSpace_s pw) kid
    (Some (mkSSHKey kid (TrimSpace_s klabel) (TrimSpace_s priv) pass)))) /\
  exists krow irow, ssh_keys (tables c2) !! kid = Some krow /\ identities (tables c2) !! iid = Some irow /\
    Forall (fun vs => vs.1 <> ""%string -> IsEncrypted vs.2 = true)
      [(TrimSpace_s priv, kr_private_key krow); (pass, kr_passphrase krow); (TrimSpace_s pw, ir_password irow)].
Proof.
  intros Hc Hr1 Hr2 Hr Hks His Htrim Hne Hkc Hic.
  destruct (key_create_inv _ _ _ _ _ _ _ _ _ Hc Hr1 Hr2 Hkc) as (Hc1 & Hvk & krow & Ht1 & Hkl & Hkp & Hkpass).
  destruct (identity_create_inv _ _ _ _ _ _ _ _ _ Hc1 Hr Hic) as (Hc2 & Hvi & _ & irow & Ht2 & Hil & Hiu & Hik & Hip).
  rewrite Htrim in Hik. unfold nullif_empty in Hik. rewrite bool_decide_false in Hik by done.
  assert (Hk2 : ssh_keys (tables c2) !! kid = Some krow) by (rewrite Ht2; simpl; rewrite Ht1; simpl; by rewrite lookup_insert_eq).
  assert (Hi2 : identities (tables c2) !! iid = Some irow) by (rewrite Ht2; simpl; by rewrite lookup_insert_eq).
  destruct (holds_read true (KeyCell kid "ssh_private_key") _ _ Hks Hkp) as [Rk Ik]. destruct (holds_read true (KeyCell kid "ssh_private_key_passphrase") _ _ Hks Hkpass) as [Rp Ip].
  destruct (holds_read true (IdentityCell iid) _ _ His Hip) as [Ri Ii]. split.
  - unfold identity_GetDecrypted. rewrite Hvi. unfold db_bind at 1, db_of at 1. rewrite bind_query, Hi2 by done.
    rewrite Hik. change (coalesce_empty (Some kid)) with kid. rewrite bool_decide_false by done. unfold db_bind at 1. rewrite (key_get kid c2 krow) by done.
    rewrite Rk, Rp, Hil, Hiu, Hkl. simpl in Ri. by rewrite Ri.
  - exists krow, irow. split; [done|]. split; [done|]. repeat apply Forall_cons_2; done.
Qed.
End roundtrip.

(** ** A key that is deleted while an identity is being linked to it *)
Section races.
Context `{Crypto} `{UnicodeTables} `{MapRange} `{SSHPrivateKeys} (encKey : list Z).

(** The two counts of [Delete] and its deletion are separate statements: an
    identity created in between with this key as its only credential loses it,
    and is left with neither password nor key. *)
Theorem delete_strands_new_identity kid iid label u r c c1 c2 c3 s :
  healthy c -> good_nonce r -> TrimSpace_s kid = kid ->
  key_delete_check kid c = (c1, Ok tt) ->
  identity_Create encKey iid label u "" kid r c1 = (c2, Ok s) ->
  key_delete_commit kid c2 = (c3, Ok tt) ->
  exists row, identities (tables c3) !! iid = Some row /\ ir_password row = ""%string /\ ir_key row = None.
Proof.
  intros Hc Hr Ht Hchk Hcr Hdel.
  assert (Hc1 : healthy c1).
  { unfold key_delete_check in Hchk. apply bind_inv in Hchk as (c' & [] & E & Hchk). unfold db_of in E. injection E as <- _.
    rewrite bind_query in Hchk by done. destruct (bool_decide _); [done|]. rewrite bind_query in Hchk by done.
    destruct (bool_decide _); [done|]. unfold db_ret in Hchk. by injection Hchk as <-. }
  destruct (identity_create_inv _ _ _ _ _ _ _ _ _ _ Hc1 Hr Hcr) as (Hc2 & _ & _ & row & Ht2 & _ & _ & Hk & [[_ Hp]|[Hp _]]); [|done].
  rewrite Ht in Hk. unfold key_delete_commit in Hdel. rewrite bind_exec in Hdel by done. destruct (ssh_keys (tables c2) !! kid); [|done].
  injection Hdel as <-. simpl. exists (unlink kid row). rewrite lookup_fmap, Ht2. simpl. rewrite lookup_insert_eq.
  split; [done|]. unfold unlink. destruct (decide (ir_key row = Some kid)) as [E|E]; [by rewrite bool_decide_true|].
  rewrite bool_decide_false by done. split; [done|]. unfold nullif_empty in Hk. case_bool_decide; congruence.
Qed.

(** With another encryption key the library answers without its secrets and
    without an error: a target that is linked then gets the user name alone. *)
Theorem lost_key_copies_no_secret encKey' iid c row id_ cur :
  healthy c -> validateCredentialIdentityID iid = Ok tt -> TrimSpace_s iid = iid -> iid <> ""%string ->
  identities (tables c) !! iid = Some row -> ir_key row = None ->
  length encKey' = KeySize -> KeyID encKey <> KeyID encKey' ->
  holds encKey (IdentityCell iid) id_ (ir_password row) ->
  applyStoredCredentials encKey' iid "" cur true c =
    (c, Ok (mkSecrets (set_secret true (x_username cur) (ir_username row)) (x_password cur) (x_key cur) (x_pass cur))).
Proof.
  intros Hc Hv Ht Hne Hl Hk Hlen Hid Hh.
  assert (Hpw : decryptIdentityPassword encKey' iid (ir_password row) = ""%string).
  { unfold decryptIdentityPassword. case_bool_decide as Hs; [done|].
    assert (Hd : DecryptWithAAD encKey' (ir_password row) (credentialIdentityAAD iid "ssh_password") = Err ErrKeyMismatch).
    { destruct Hh as [[_ ?]|(Hne' & Hkl & nonce & He & Hn & Hb)]; [done|]. unfold EncryptWithAAD in He.
      rewrite bool_decide_eq_true_2, decide_False in He by done. cbv zeta in He. apply ok_inj in He.
      destruct (decrypt_sealed encKey nonce id_ (cell_aad (IdentityCell iid)) (cell_aad (IdentityCell iid)) Hkl Hn Hb) as (_ & _ & Hd).
      rewrite He in Hd. change (credentialIdentityAAD iid "ssh_password") with (cell_aad (IdentityCell iid)). rewrite (Hd _ Hlen). by rewrite decide_False. }
    rewrite Hd. by destruct (negb _). }
  assert (Hg : identity_GetDecrypted encKey' iid c = (c, Ok (mkIdentity iid (ir_label row) (ir_username row) "" "" None))).
  { unfold identity_GetDecrypted. rewrite Hv. unfold db_bind at 1, db_of at 1. rewrite bind_query, Hl, Hk, Hpw by done. done. }
  unfold applyStoredCredentials. rewrite Ht. change (TrimSpace_s "") with ""%string.
  rewrite (bool_decide_false (iid = _)) by done. rewrite (bool_decide_true (""%string = _)) by done. change (negb false) with true. change (negb true) with false. cbv iota beta delta [andb].
  unfold db_bind at 1. rewrite Hg. simpl. unfold db_ret. do 3 f_equal.
Qed.
End races.

(** ** Witnesses *)
#[export] Instance no_parser : SSHPrivateKeys := {| ParsePrivateKey _ := Some "ssh-ed25519"%string; ParsePrivateKeyWithPassphrase _ _ := None |}.
Definition demo_cred : conn cred_tables := connect (mkCred (tables demo_store) ∅ ∅).
Definition demo_nonce : result string (list Z) := Ok (replicate 12 1).
Definition demo_key_create := key_Create (H := toy_crypto) (H0 := ascii_tables) demo_key "k1" " ops " " PEM " "phrase" demo_nonce demo_nonce demo_cred.
Definition demo_identity_create := identity_Create (H := toy_crypto) demo_key "i1" "ops" "root " "secret" "k1" demo_nonce demo_key_create.1.
Lemma demo_good : good_nonce demo_nonce.
Proof. split; [reflexivity|]. apply Forall_replicate; unfold is_byte; lia. Qed.
Lemma demo_no_slash : slash ∉ bs "k1" /\ slash ∉ bs "i1".
Proof. split; apply (bool_decide_eq_true_1 _); vm_compute; reflexivity. Qed.
Lemma library_roundtrip_witness :
  exists c2, identity_GetDecrypted (H := toy_crypto) demo_key "i1" c2 = (c2, Ok (mkIdentity "i1" "ops" "root" "secret" "k1" (Some (mkSSHKey "k1" "ops" "PEM" "phrase")))).
Proof.
  assert (E1 : exists c1 ks, demo_key_create = (c1, Ok ks)) by (eexists _, _; vm_compute; reflexivity).
  destruct E1 as (c1 & ks & E1).
  assert (E2 : exists c2 s, demo_identity_create = (c2, Ok s)) by (eexists _, _; vm_compute; reflexivity).
  destruct E2 as (c2 & s & E2). unfold demo_identity_create in E2. rewrite E1 in E2. exists c2.
  refine (proj1 (library_roundtrip demo_key "k1" " ops " " PEM " "phrase" demo_nonce demo_nonce "i1" "ops" "root " "secret" demo_nonce
    demo_cred c1 ks c2 s _ demo_good demo_good demo_good (proj1 demo_no_slash) (proj2 demo_no_slash) _ _ E1 E2)); [done|vm_compute; reflexivity|done].
Defined.
Lemma ciphertexts_are_bound_witness :
  exists s, EncryptWithAAD (H := toy_crypto) demo_key "secret" (cell_aad (IdentityCell "i1")) demo_nonce = Ok s /\
    read_cell (H := toy_crypto) demo_key true (TargetCell "i1" "ssh_password") s = ""%string.
Proof.
  assert (E : exists s, EncryptWithAAD (H := toy_crypto) demo_key "secret" (cell_aad (IdentityCell "i1")) demo_nonce = Ok s) by (eexists; vm_compute; reflexivity).
  destruct E as [s E]. exists s. split; [exact E|].
  refine (proj2 (ciphertexts_are_bound (H := toy_crypto) demo_key true (IdentityCell "i1") (TargetCell "i1" "ssh_password") "secret" (replicate 12 1) s
    _ _ _ _ _ _ E)); [done|done|apply Forall_replicate; unfold is_byte; lia|done|apply demo_no_slash|apply demo_no_slash].
Defined.
