(* ===== verification/TargetHandlers.v ===== *)
(** Managing targets (src/internal/httpapi/targets_handler.go, protocol_helpers.go,
    router.go): listing with its cursor, creation under a fresh identifier, update
    with its credential source and group, deletion, tags.

    The handlers work on the access tables, the credential library and the
    controller of the TFTP server; a statement may fail, the controller may not.
    [None] as the identifier of a creation means that the loop over identifiers
    is still running when its fuel ends. *)
From S2P Require Import Prelude GoText Sqlite Http AuthAdmin AccessValidate AccessDB AccessGroups AccessTargets AccessRequests Secret Tftp TftpControl Credentials.
From stdpp Require Import pretty.
Local Open Scope Z_scope.

Record tgt_world := mkTgtWorld { w_cred : cred_tables; w_ctl : controller }.
Abbreviation TargetM := (DB tgt_world http_err).
Definition on_cred {E A} (m : DB cred_tables E A) : DB tgt_world E A := db_zoom w_cred (fun t w => mkTgtWorld t (w_ctl w)) m.
Definition on_store {E A} (m : DB access_tables E A) : DB tgt_world E A := on_cred (db_zoom ct_access put_access m).
Definition on_ctl (f : controller -> controller) : TargetM unit := fun c =>
  (set_tables c (mkTgtWorld (w_cred (tables c)) (f (w_ctl (tables c)))), Ok tt).
(** [_ = m] and [x, _ := m]: an error is dropped. *)
Definition ignore {T E E' A} (m : DB T E A) : DB T E' (option A) :=
  let* r := db_try m in db_ret (match r with Ok a => Some a | Err _ => None end).

(** ** Requests and responses *)
Record createTargetRequest := mkCreateTarget {
  ct_Name : string; ct_Host : string; ct_Port : Z; ct_Protocol : string; ct_Path : string; ct_GroupID : string;
  ct_CredentialIdentityID : string; ct_SSHKeyID : string; ct_secrets : secrets;
  ct_SFTPEnabled : option bool; ct_FTPEnabled : option bool; ct_TFTPEnabled : option bool; ct_Fingerprint : string
}.
Record updateTargetRequest := mkUpdateTarget {
  ut_Name : string; ut_Host : string; ut_Port : Z; ut_Protocol : string; ut_Path : string; ut_GroupID : option string;
  ut_CredentialIdentityID : option string; ut_SSHKeyID : option string;
  ut_SSHUsername : string; ut_SSHPassword : option string; ut_SSHPrivateKey : option string; ut_SSHPrivateKeyPassphrase : option string;
  ut_SFTPEnabled : option bool; ut_FTPEnabled : option bool; ut_TFTPEnabled : option bool
}.
Record targetResponse := mkTargetResponse {
  rp_ID : string; rp_Name : string; rp_Host : string; rp_Port : Z; rp_Protocol : string; rp_Path : string; rp_SSHUsername : string;
  rp_HasStoredCredentials : bool; rp_HasSSHKey : bool; rp_HasPassphrase : bool; rp_NeedsPassword : bool; rp_NeedsPassphrase : bool;
  rp_CredentialIdentityID : string; rp_SSHKeyID : string; rp_Tags : list string;
  rp_SFTPEnabled : bool; rp_FTPEnabled : bool; rp_TFTPEnabled : bool; rp_Fingerprint : string
}.
Definition is_empty (s : string) : bool := bool_decide (s = ""%string).
Definition isEncryptedPEMBlock (s : string) : bool :=
  if is_empty s then false else contains (bs s) (bs "ENCRYPTED") || contains (bs s) (bs "bcrypt").
Definition targetToResponse (t : Target) (tags : option (list string)) : targetResponse :=
  mkTargetResponse (t_ID t) (t_Name t) (t_Host t) (t_Port t) (t_Protocol t) (t_Path t) (t_SSHUsername t)
    (negb (is_empty (t_SSHUsername t))) (negb (is_empty (t_SSHPrivateKey t))) (negb (is_empty (t_SSHPrivateKeyPassphrase t)))
    (negb (is_empty (t_SSHUsername t)) && is_empty (t_SSHPassword t) && is_empty (t_SSHPrivateKey t))
    (negb (is_empty (t_SSHPrivateKey t)) && is_empty (t_SSHPrivateKeyPassphrase t) && isEncryptedPEMBlock (t_SSHPrivateKey t))
    (t_CredentialIdentityID t) (t_SSHKeyID t) (default [] tags)
    (t_SFTPEnabled t) (t_FTPEnabled t) (t_TFTPEnabled t) (t_SSHHostKeyFingerprint t).

Section text.
Context `{UnicodeTables}.
Definition parseProtocolField (raw : string) : option Protocol :=
  let s := ToLower_s (TrimSpace_s raw) in
  if bool_decide (s = "" \/ s = "ssh")%string then Some ProtocolSSH
  else if bool_decide (s = "telnet"%string) then Some ProtocolTelnet
  else if bool_decide (s = "vnc"%string) then Some ProtocolVNC
  else if bool_decide (s = "tftp"%string) then Some ProtocolTFTP
  else if bool_decide (s = "rdp"%string) then Some ProtocolRDP
  else if bool_decide (s = "ftp"%string) then Some ProtocolFTP
  else None.
Definition normalizeTargetPath (p : string) : string :=
  let p := trim_right_byte (trim_left_byte (TrimSpace (bs p)) slash) slash in
  if bool_decide (p = []) then ""%string
  else
    let parts := TrimSpace <$> split_byte p slash in
    str_of (join_byte (filter (fun part => part <> [] /\ part <> bs "." /\ part <> bs "..") parts) slash).
End text.

(** The query string: the trimmed [after_id] and [limit]. *)
Definition listOptsFromRequest (after_id limit : string) : option ListOpts :=
  let afterID := TrimSpace_s after_id in
  let limitStr := TrimSpace_s limit in
  if bool_decide (afterID = ""%string) && bool_decide (limitStr = ""%string) then None
  else if bool_decide (limitStr = ""%string) then Some (mkListOpts 100 0 afterID)
  else match Atoi_s limitStr with
       | Some n => if n <=? 0 then Some (mkListOpts 0 0 afterID)
                   else Some (mkListOpts (if 1000 <? n then 1000 else n) 0 afterID)
       | None => Some (mkListOpts 0 0 afterID)
       end.

Definition source_err (e : access_err) : http_err :=
  match e with
  | ErrCredentialIdentityNotFound => Http 404 "credentialIdentities.notFound"
  | ErrSSHKeyNotFound => Http 404 "sshKeys.notFound"
  | ErrCredentialSourceExclusive => Http 400 "targets.credentialSourceExclusive"
  | _ => internal
  end.
Definition serviceUnavailable : http_err := Http 503 "service unavailable".
Definition store_err (e : access_err) : http_err :=
  match e with
  | ErrEncryptionKeyRequired => serviceUnavailable
  | _ => or_validation (fun _ => internal) e
  end.
Definition update_store_err (e : access_err) : http_err :=
  match e with ErrTargetNotFound => Http 404 "common.targetNotFound" | _ => store_err e end.

Section handlers.
Context `{Crypto} `{UnicodeTables} `{SetScan} (encKey : list Z) (strict : bool) (ParseIP : list Z -> option (list Z)) (allowRestricted : bool)
  (dflt : Z) (env : tftp_env) (mkdir : bool).

(** ** Listing *)
Fixpoint with_tags (ts : list Target) : TargetM (list targetResponse) :=
  match ts with
  | [] => db_ret []
  | t :: ts =>
      let* tags := ignore (on_store (TagsForTarget (t_ID t))) in
      let* rest := with_tags ts in
      db_ret (targetToResponse t tags :: rest)
  end.
(** The items and the cursor of the next page. *)
Definition handleTargets (e : request_env) (now : time) (after_id limit : string) : TargetM (list targetResponse * string) :=
  let userID := TrimSpace_s (currentUserID e) in
  if bool_decide (userID = ""%string) then db_throw (Http 401 "common.unauthorized") else
  let opts := listOptsFromRequest after_id limit in
  let pageLimit := match opts with Some o => lo_Limit o | None => 0 end in
  let opts := (fun o => mkListOpts (pageLimit + 1) 0 (lo_AfterID o)) <$> opts in
  let* isAdmin := db_of (match currentUserIsAdmin e with Ok b => Ok b | Err _ => Err internal end) in
  let* ids := call (on_store (if isAdmin : bool then AllIDs dflt opts else TargetIDsForUser userID opts dflt now)) (fun _ => internal) in
  let more := bool_decide (opts <> None) && (0 <? pageLimit) && (pageLimit <? Z.of_nat (length ids)) in
  let ids := if more then take (Z.to_nat pageLimit) ids else ids in
  let nextCursor := if more then default ""%string (last ids) else ""%string in
  let* ts := call (on_store (ListByIDs encKey strict dflt ids None)) (fun _ => internal) in
  let* items := with_tags ts in
  db_ret (items, nextCursor).

(** ** Creation *)
Definition require_session (session : option string) : result http_err string :=
  match session with Some u => Ok u | None => Err (Http 401 "common.unauthorized") end.
Definition candidate (baseID : string) (i : nat) : string :=
  match i with O => baseID | _ => baseID +:+ "-" +:+ pretty i end.
(** The loop over identifiers; every attempt draws its own nonces. The
    bulk import has the same loop with errors of its own. *)
Fixpoint create_loop {E'} (h : access_err -> E') (fuel i : nat) (baseID : string) (input : target_input) (groupID : string) (rs : nat -> nonces)
    : DB tgt_world E' (option string) :=
  match fuel with
  | O => db_ret None
  | S fuel =>
      let id := candidate baseID i in
      let* r := db_try (on_store (CreateWithPath encKey ParseIP allowRestricted id input groupID (rs i))) in
      match r with
      | Ok _ => db_ret (Some id)
      | Err ErrTargetExists => create_loop h fuel (S i) baseID input groupID rs
      | Err err => db_throw (h err)
      end
  end.
(** What follows the loop: assignment, credential source, inherited tags, host
    key, the TFTP server. *)
Definition created_target (req : createTargetRequest) (groupID cid kid id protocol : string) : TargetM unit :=
  let* _ := call (on_store (AddTargetToGroup groupID id)) (fun _ => Http 500 "targets.assignFailed") in
  let* _ := if negb (is_empty cid) || negb (is_empty kid) then ignore (on_store (SetCredentialSource id cid kid)) else db_ret None in
  let* tags := ignore (on_store (TagsForGroup groupID)) in
  let* _ := match tags with
            | Some ((_ :: _) as tags) => ignore (on_store (SetTargetTags id tags))
            | _ => db_ret None
            end in
  let fp := TrimSpace_s (ct_Fingerprint req) in
  let* _ := if negb (is_empty fp) then call (on_store (SetSSHHostKeyFingerprint id fp)) (or_validation (fun _ => internal)) else db_ret tt in
  on_ctl (NotifyTargetCreated env mkdir protocol).
(** The response: a target that cannot be read back is a nil pointer, which
    [targetToResponse] dereferences. *)
Inductive create_result := Created (r : targetResponse) | NilTarget | StillTrying.
Definition handleCreateTarget (method : string) (e : request_env) (session : option string) (body : option createTargetRequest)
    (fuel : nat) (rs : nat -> nonces) : TargetM create_result :=
  if negb (bool_decide (method = "POST"%string)) then db_throw (Http 405 "common.methodNotAllowed") else
  let* _ := db_of (requireAdmin e) in
  let* _ := db_of (require_session session) in
  let* req := body_of body in
  let name := TrimSpace_s (ct_Name req) in
  let host := TrimSpace_s (ct_Host req) in
  let path := normalizeTargetPath (ct_Path req) in
  let groupID := TrimSpace_s (ct_GroupID req) in
  let cid := TrimSpace_s (ct_CredentialIdentityID req) in
  let kid := TrimSpace_s (ct_SSHKeyID req) in
  if is_empty name || is_empty host then db_throw (Http 400 "targets.nameHostRequired") else
  if is_empty groupID then db_throw (Http 400 "targets.groupIDRequired") else
  let* _ := call (on_store (Get groupID)) (fun _ => Http 404 "targets.groupNotFound") in
  let* s := call (on_cred (applyStoredCredentials encKey cid kid (ct_secrets req) true)) source_err in
  let port := if ct_Port req =? 0 then 22 else ct_Port req in
  match parseProtocolField (ct_Protocol req) with
  | None => db_throw (Http 400 "targets.protocolInvalid")
  | Some protocol =>
      let input := mkTargetInput name host port protocol (if is_empty path then groupID else path)
        (TrimSpace_s (x_username s)) (x_password s) (x_key s) (x_pass s)
        (default (bool_decide (protocol = ProtocolSSH)) (ct_SFTPEnabled req)) (default false (ct_FTPEnabled req)) (default false (ct_TFTPEnabled req)) in
      let* id := create_loop store_err fuel 0 (slugID name) input groupID rs in
      match id with
      | None => db_ret StillTrying
      | Some id =>
          let* _ := created_target req groupID cid kid id protocol in
          let* t := ignore (on_store (target_Get encKey strict id)) in
          let* tags := ignore (on_store (TagsForTarget id)) in
          db_ret (match t with Some t => Created (targetToResponse t tags) | None => NilTarget end)
      end
  end.

(** ** Update *)
Definition checked_group (g : option string) : TargetM (option string) :=
  match g with
  | None => db_ret None
  | Some g =>
      let gid := TrimSpace_s g in
      if is_empty gid then db_throw (Http 400 "targets.groupIDRequired") else
      let* _ := call (on_store (Get gid)) (fun _ => Http 404 "targets.groupNotFound") in
      db_ret (Some gid)
  end.
(** The secrets the update starts from, and whether the credential source may
    only fill empty fields. *)
Definition update_secrets (cur : Target) (req : updateTargetRequest) : secrets :=
  mkSecrets (ut_SSHUsername req) (default (t_SSHPassword cur) (ut_SSHPassword req))
    (default (t_SSHPrivateKey cur) (ut_SSHPrivateKey req)) (default (t_SSHPrivateKeyPassphrase cur) (ut_SSHPrivateKeyPassphrase req)).
Definition only_if_empty (cid kid : string) (req : updateTargetRequest) : bool :=
  if negb (is_empty cid) || negb (is_empty kid)
  then bool_decide (ut_SSHPassword req = None) && bool_decide (ut_SSHPrivateKey req = None) && bool_decide (ut_SSHPrivateKeyPassphrase req = None)
  else true.
Fixpoint leave_groups (gs : list string) (newGroupID tid : string) : TargetM bool :=
  match gs with
  | [] => db_ret false
  | g :: gs =>
      if bool_decide (g = newGroupID) then let* _ := leave_groups gs newGroupID tid in db_ret true
      else
        let* _ := call (on_store (RemoveTargetFromGroup g tid)) (fun _ => internal) in
        leave_groups gs newGroupID tid
  end.
Definition move_target (tid newGroupID : string) : TargetM unit :=
  let* currentGroups := call (on_store (GroupIDsForTarget tid)) (fun _ => internal) in
  let* alreadyInNewGroup := leave_groups currentGroups newGroupID tid in
  if alreadyInNewGroup : bool then db_ret tt
  else call (on_store (AddTargetToGroup newGroupID tid)) (fun _ => Http 500 "targets.assignFailed").
Definition handleUpdateTarget (method : string) (e : request_env) (target_id : string) (body : option updateTargetRequest) (r : nonces)
    : TargetM targetResponse :=
  if negb (bool_decide (method = "PUT"%string)) then db_throw (Http 405 "common.methodNotAllowed") else
  let* _ := db_of (requireAdmin e) in
  let* targetID := url_id target_id "common.targetIDRequired" in
  let* cur := call (on_store (target_Get encKey strict targetID)) (fun _ => Http 404 "common.targetNotFound") in
  let* req := body_of body in
  let name := TrimSpace_s (ut_Name req) in
  let host := TrimSpace_s (ut_Host req) in
  let path := normalizeTargetPath (ut_Path req) in
  let cid := default ""%string (TrimSpace_s <$> ut_CredentialIdentityID req) in
  let kid := default ""%string (TrimSpace_s <$> ut_SSHKeyID req) in
  let changingCredentialSource := negb (bool_decide (ut_CredentialIdentityID req = None)) || negb (bool_decide (ut_SSHKeyID req = None)) in
  if is_empty name || is_empty host then db_throw (Http 400 "targets.nameHostRequired") else
  let* newGroupID := checked_group (ut_GroupID req) in
  let port := if ut_Port req =? 0 then 22 else ut_Port req in
  match parseProtocolField (ut_Protocol req) with
  | None => db_throw (Http 400 "targets.protocolInvalid")
  | Some protocol =>
      let* s := call (on_cred (applyStoredCredentials encKey cid kid (update_secrets cur req) (only_if_empty cid kid req))) source_err in
      let input := mkTargetInput name host port protocol path (TrimSpace_s (x_username s)) (x_password s) (x_key s) (x_pass s)
        (default (t_SFTPEnabled cur) (ut_SFTPEnabled req)) (default (t_FTPEnabled cur) (ut_FTPEnabled req)) (default (t_TFTPEnabled cur) (ut_TFTPEnabled req)) in
      let* t := call (on_store (target_Update encKey strict ParseIP allowRestricted targetID input r)) update_store_err in
      let* _ := if changingCredentialSource then ignore (on_store (SetCredentialSource (t_ID t) cid kid)) else db_ret None in
      let t := if changingCredentialSource
               then mkTarget (t_ID t) (t_Name t) (t_Host t) (t_Port t) (t_Protocol t) (t_Path t) (t_SSHUsername t) (t_SSHPassword t) (t_SSHPrivateKey t)
                      (t_SSHPrivateKeyPassphrase t) (t_SSHHostKeyFingerprint t) (t_SSHHostKeyInsecureSkipVerify t) (t_SFTPEnabled t) (t_FTPEnabled t)
                      (t_TFTPEnabled t) cid kid
               else t in
      let* _ := if negb (bool_decide (t_Protocol cur = protocol))
                then on_ctl (fun c => NotifyTargetCreated env mkdir protocol (NotifyTargetDeleted (t_Protocol cur) c)) else db_ret tt in
      let* _ := match newGroupID with Some g => move_target (t_ID t) g | None => db_ret tt end in
      let* tags := ignore (on_store (TagsForTarget (t_ID t))) in
      db_ret (targetToResponse t tags)
  end.

(** ** Deletion *)
Definition close_window (now : time) (id : string) (c : controller) : controller :=
  match Current c with Some srv => set_server c (CloseWriteWindow now srv id) | None => c end.
Definition handleDeleteTarget (method : string) (e : request_env) (session : option string) (now : time) (targetID : string) : TargetM unit :=
  if negb (bool_decide (method = "DELETE"%string)) then db_throw (Http 405 "common.methodNotAllowed") else
  let* _ := db_of (requireAdmin e) in
  if is_empty targetID then db_throw (Http 400 "common.targetIDRequired") else
  let* _ := db_of (require_session session) in
  let* cur := ignore (on_store (target_Get encKey strict targetID)) in
  let* _ := call (on_store (target_Delete targetID)) (fun err => match err with ErrTargetNotFound => Http 404 "common.targetNotFound" | _ => internal end) in
  match cur with
  | Some cur => on_ctl (fun c => NotifyTargetDeleted (t_Protocol cur) (close_window now (t_ID cur) c))
  | None => db_ret tt
  end.

(** ** Tags *)
Definition requireTargetAccess (e : request_env) (now : time) (targetID : string) : TargetM string :=
  let userID := TrimSpace_s (currentUserID e) in
  if is_empty userID then db_throw (Http 401 "common.unauthorized") else
  let* allowedIDs := call (on_store (TargetIDsForUser userID None dflt now)) (fun _ => internal) in
  if bool_decide (targetID ∈ allowedIDs) then db_ret userID else db_throw (Http 403 "common.forbidden").
Definition handleTargetTags (e : request_env) (now : time) (target_id : string) : TargetM (list string) :=
  let* targetID := url_id target_id "common.targetIDRequired" in
  let* _ := requireTargetAccess e now targetID in
  call (on_store (TagsForTarget targetID)) (fun err => match err with ErrTargetNotFound => Http 404 "common.targetNotFound" | _ => internal end).
Definition handleSetTargetTags (e : request_env) (now : time) (target_id : string) (body : option (list string)) : TargetM (list string) :=
  let* _ := db_of (requireAdmin e) in
  let* targetID := url_id target_id "common.targetIDRequired" in
  let* _ := requireTargetAccess e now targetID in
  let* tags := body_of body in
  let* _ := call (on_store (SetTargetTags targetID tags)) (fun err =>
    match err with
    | ErrTargetNotFound => Http 404 "common.targetNotFound"
    | ErrTagLength => Http 400 "tags.lengthInvalid"
    | ErrTagChars => Http 400 "tags.charsInvalid"
    | _ => internal
    end) in
  db_ret tags.

(** ** Host keys (targets_hostkey.go) *)
(** The SSH handshake that captures the key of a host: its fingerprint, or none
    when the host offers no key. *)
Definition handleProbeHostKey (probe : string -> Z -> option string) (method : string) (e : request_env) (body : option (string * Z)) : TargetM (string * Z * string) :=
  if negb (bool_decide (method = "POST"%string)) then db_throw (Http 405 "common.methodNotAllowed") else
  let* _ := db_of (requireAdmin e) in
  let* (host, port) := body_of body in
  let host := TrimSpace_s host in
  if is_empty host then db_throw (Http 400 "validation.hostEmpty") else
  let port := if port =? 0 then 22 else port in
  match probe host port with
  | None => db_throw (Http 502 "proxy error")
  | Some captured => db_ret (host, port, captured)
  end.
(** The response dereferences the target it reads back. *)
Definition handleUpdateTargetHostKey (method : string) (e : request_env) (now : time) (target_id : string) (body : option string) : TargetM (option targetResponse) :=
  if negb (bool_decide (method = "PUT"%string)) then db_throw (Http 405 "common.methodNotAllowed") else
  let* _ := db_of (requireAdmin e) in
  let* target := on_store (getSessionAndTargetWithAccess encKey strict dflt now (currentUserID e) target_id) in
  let* fp := body_of body in
  let* _ := call (on_store (SetSSHHostKeyFingerprint (t_ID target) (TrimSpace_s fp)))
              (fun err => match err with ErrTargetNotFound => Http 404 "common.targetNotFound" | _ => or_validation (fun _ => internal) err end) in
  let* t := ignore (on_store (target_Get encKey strict (t_ID target))) in
  let* tags := ignore (on_store (TagsForTarget (t_ID target))) in
  db_ret ((fun t => targetToResponse t tags) <$> t).
End handlers.

(** ** The loop over identifiers *)
#[export] Instance candidate_inj baseID : Inj (=) (=) (candidate baseID).
Proof.
  assert (Hz : forall i, baseID <> baseID +:+ "-" +:+ pretty (S i)).
  { intros i E. apply (f_equal (fun s => length (bs s))) in E. rewrite !bs_app, !length_app in E. simpl in E. lia. }
  intros [|i] [|j] E; simpl in E; [done|by apply Hz in E|symmetry in E; by apply Hz in E|].
  apply (inj (String.append baseID)) in E. apply (inj (String.append "-")) in E. exact (pretty_nat_inj _ _ E).
Qed.
(** Among more candidates than there are targets, one is free. *)
Lemma free_candidate {A} (m : gmap string A) baseID n :
  (size m < n)%nat -> exists i, (i < n)%nat /\ m !! candidate baseID i = None.
Proof.
  intros Hn. destruct (decide (Exists (fun i => m !! candidate baseID i = None) (seq 0 n))) as [He|Hf].
  - apply Exists_exists in He as (i & Hi%elem_of_seq & ?). exists i. split; [lia|done].
  - exfalso. apply not_Exists_Forall in Hf; [|intros i; apply _]. rewrite Forall_forall in Hf.
    assert (Hsub : (candidate baseID <$> seq 0 n) ⊆ elements (dom m)).
    { intros id (i & -> & Hi)%list_elem_of_fmap. apply elem_of_elements, elem_of_dom. specialize (Hf i Hi).
      by apply not_eq_None_Some. }
    apply NoDup_submseteq in Hsub; [|apply NoDup_fmap; [apply _|apply NoDup_seq]].
    apply submseteq_length in Hsub. rewrite length_fmap, length_seq in Hsub.
    rewrite <- (size_dom (D := gset string)) in Hn. unfold size, set_size in Hn. simpl in Hn. lia.
Qed.

Section create.
Context `{Crypto} `{UnicodeTables} `{SetScan} (encKey : list Z) (strict : bool) (ParseIP : list Z -> option (list Z)) (allowRestricted : bool)
  (dflt : Z) (env : tftp_env) (mkdir : bool) {E'} (h : access_err -> E').
Abbreviation attempt := (CreateWithPath encKey ParseIP allowRestricted).
Abbreviation loop := (create_loop encKey ParseIP allowRestricted h).
Definition target_rows (w : tgt_world) : gmap string target_row := targets (ct_access (w_cred w)).
Definition group_rows (w : tgt_world) : gmap string string := access_groups (ct_access (w_cred w)).

Lemma on_store_run {E A} (m : DB access_tables E A) c :
  on_store m c =
  let (c', r) := m (mkConn (configured c) (ct_access (w_cred (tables c))) (faults c)) in
  (mkConn (configured c') (mkTgtWorld (put_access (tables c') (w_cred (tables c))) (w_ctl (tables c))) (faults c'), r).
Proof. unfold on_store, on_cred, db_zoom. simpl. by destruct (m _). Qed.

(** The errors of an attempt that stand for a taken identifier. *)
Lemma attempt_exists id input g r c c' : healthy c -> is_Some (access_groups (tables c) !! g) ->
  attempt id input g r c = (c', Err ErrTargetExists) -> c' = c /\ is_Some (targets (tables c) !! id).
Proof.
  intros Hc Hg. unfold CreateWithPath.
  assert (Hsec : forall e, secret_error e <> ErrTargetExists) by done.
  assert (Hv : validate_target ParseIP allowRestricted id input <> Err ErrTargetExists).
  { unfold validate_target, validateTargetID, validateName, validateHost, checkRestrictedHostIP, validateProtocol. intros Hx.
    repeat (case_match; try discriminate Hx); try congruence. }
  assert (Hvg : (if decide (g <> ""%string) then validateGroupID g else Ok tt) <> Err ErrTargetExists).
  { case_decide; [|done]. unfold validateGroupID. repeat case_match; done. }
  assert (He : forall pw k kp, encryptCredentials encKey id pw k kp r <> Err ErrTargetExists).
  { intros pw k kp Hx. unfold encryptCredentials, of_secret in Hx. repeat (case_match; try discriminate Hx); simplify_eq; by eapply Hsec. }
  unfold db_bind at 1, db_of at 1. destruct (validate_target _ _ _ _); [|congruence].
  unfold db_bind at 1, db_of at 1. destruct (if decide _ then _ else _); [|congruence].
  unfold db_bind at 1, db_of at 1. destruct (encryptCredentials _ _ _ _ _ _) as [[[pw k] kp]|] eqn:Ee; [|intros [= ? ->]; by apply He in Ee].
  unfold db_bind, db_catch. rewrite exec_healthy by done. destruct (targets (tables c) !! id); [|by rewrite decide_True].
  intros [= <-]. split; [done|eauto].
Qed.
Lemma attempt_fresh id input g r c c' t : healthy c -> attempt id input g r c = (c', Ok t) ->
  targets (tables c) !! id = None /\ exists row, tables c' = with_targets (tables c) (<[id := row]> (targets (tables c))) /\ tr_group_id row = g.
Proof.
  intros Hc. unfold CreateWithPath. intros E. apply bind_inv in E as (c1 & ? & E1 & E). apply bind_inv in E as (c2 & ? & E2 & E).
  apply bind_inv in E as (c3 & [[pw k] kp] & E3 & E). unfold db_of in E1, E2, E3. injection E1 as <- _. injection E2 as <- _. injection E3 as <- _.
  unfold db_bind, db_catch in E. rewrite exec_healthy in E by done. destruct (targets (tables c) !! id); [done|].
  case_decide; [|done]. injection E as <- <-. simpl. eauto.
Qed.

Lemma loop_spec fuel : forall i baseID input g rs c c' res, healthy c -> is_Some (group_rows (tables c) !! g) ->
  loop fuel i baseID input g rs c = (c', res) ->
  (res = Ok None -> forall j, (j < fuel)%nat -> is_Some (target_rows (tables c) !! candidate baseID (i + j))) /\
  (forall id, res = Ok (Some id) -> exists j row, (j < fuel)%nat /\ id = candidate baseID (i + j) /\
     target_rows (tables c) !! id = None /\ (forall j', (j' < j)%nat -> is_Some (target_rows (tables c) !! candidate baseID (i + j'))) /\
     target_rows (tables c') = <[id := row]> (target_rows (tables c)) /\ tr_group_id row = g).
Proof.
  induction fuel as [|fuel IH]; intros i baseID input g rs c c' res Hc Hg; simpl.
  { intros [= <- <-]. split; [intros _ j Hj; lia|done]. }
  unfold db_bind at 1, db_try. rewrite on_store_run.
  set (c0 := mkConn (configured c) (ct_access (w_cred (tables c))) (faults c)).
  assert (Hc0 : healthy c0) by (by destruct Hc).
  destruct (attempt (candidate baseID i) input g (rs i) c0) as [c1 r1] eqn:Ea. simpl. destruct r1 as [t|err].
  - intros [= <- <-]. destruct (attempt_fresh _ _ _ _ _ _ _ Hc0 Ea) as (Hnone & row & Ht & Hrow). split; [done|].
    intros id [= <-]. exists O, row. rewrite Nat.add_0_r. split_and!; [lia|done|exact Hnone|intros j' Hj'; lia| |done].
    unfold target_rows. simpl. by rewrite Ht.
  - destruct (decide (err = ErrTargetExists)) as [->|Hne].
    2: { intros E. assert (Ex : db_throw (A := option string) (h err)
          (mkConn (configured c1) (mkTgtWorld (put_access (tables c1) (w_cred (tables c))) (w_ctl (tables c))) (faults c1)) = (c', res)) by (by destruct err).
         injection Ex as <- <-. done. }
    destruct (attempt_exists _ _ _ _ _ _ Hc0 Hg Ea) as [-> Htaken]. intros E.
    assert (Hsame : mkConn (configured c0) (mkTgtWorld (put_access (tables c0) (w_cred (tables c))) (w_ctl (tables c))) (faults c0) = c)
      by (subst c0; destruct c as [cf [[a k idn] ctl] fs]; done).
    rewrite Hsame in E. destruct (IH _ _ _ _ _ _ _ _ Hc Hg E) as [Hn Hs]. split.
    + intros Hres [|j] Hj; [rewrite Nat.add_0_r; exact Htaken|]. replace (i + S j)%nat with (S i + j)%nat by lia. apply Hn; [done|lia].
    + intros id Hres. destruct (Hs id Hres) as (j & row & Hj & -> & Hnone & Hbefore & Hafter & Hrow). exists (S j), row.
      replace (i + S j)%nat with (S i + j)%nat by lia. split_and!; try done; [lia|].
      intros [|j'] Hj'; [rewrite Nat.add_0_r; exact Htaken|]. replace (i + S j')%nat with (S i + j')%nat by lia. apply Hbefore. lia.
Qed.

(** The loop over identifiers ends: on a database that answers and with an
    existing group, it stops after at most one attempt more than there are
    targets, and the target it creates has the first identifier of the series
    [slug], [slug-1], [slug-2], ... that was free. *)
Theorem create_loop_terminates fuel baseID input g rs c : healthy c -> is_Some (group_rows (tables c) !! g) ->
  (size (target_rows (tables c)) < fuel)%nat ->
  let (c', res) := loop fuel 0 baseID input g rs c in
  res <> Ok None /\
  forall id, res = Ok (Some id) -> exists j row, (j <= size (target_rows (tables c)))%nat /\ id = candidate baseID j /\
    target_rows (tables c) !! id = None /\ (forall i, (i < j)%nat -> is_Some (target_rows (tables c) !! candidate baseID i)) /\
    target_rows (tables c') = <[id := row]> (target_rows (tables c)) /\ tr_group_id row = g.
Proof.
  intros Hc Hg Hfuel. destruct (loop fuel 0 baseID input g rs c) as [c' res] eqn:El.
  destruct (loop_spec _ _ _ _ _ _ _ _ _ Hc Hg El) as [Hn Hs]. split.
  - intros Hres. destruct (free_candidate (target_rows (tables c)) baseID fuel Hfuel) as (i & Hi & Hfree).
    destruct (Hn Hres i Hi) as [r Hr]. simpl in Hr. congruence.
  - intros id Hid. destruct (Hs id Hid) as (j & row & Hj & -> & Hnone & Hb & Ha & Hrow). exists j, row. simpl in *.
    split_and!; try done. destruct (free_candidate (target_rows (tables c)) baseID (S (size (target_rows (tables c))))) as (i & Hi & Hfree); [lia|].
    destruct (decide (i < j)%nat) as [Hlt|]; [|lia]. destruct (Hb i Hlt) as [r Hr]. congruence.
Qed.

(** An attempt whose INSERT fails, for whatever reason. *)
Definition insert_fails (n : nat) (c : conn tgt_world) (g : string) : Prop :=
  (exists msgs rest, length msgs = n /\ faults c = (Some <$> msgs) ++ rest) \/ faults c = [] /\ group_rows (tables c) !! g = None.
(** The loop never ends while the INSERT fails: every failure - a full disk, a
    closed connection, the context of a client that went away, a group deleted
    in the meantime - is taken for an identifier that exists. *)
Theorem create_loop_spins n baseID input g rs : forall i c,
  (forall j, (j < n)%nat -> validate_target ParseIP allowRestricted (candidate baseID (i + j)) input = Ok tt /\
     is_ok (encryptCredentials encKey (candidate baseID (i + j)) (in_SSHPassword input) (in_SSHPrivateKey input) (in_SSHPrivateKeyPassphrase input) (rs (i + j)%nat)) = true) ->
  validateGroupID g = Ok tt -> insert_fails n c g ->
  (loop n i baseID input g rs c).2 = Ok None.
Proof.
  induction n as [|n IH]; intros i c Hv Hg Hf; [done|]. simpl. unfold db_bind at 1, db_try. rewrite on_store_run.
  set (c0 := mkConn (configured c) (ct_access (w_cred (tables c))) (faults c)).
  assert (Ha : exists c1, attempt (candidate baseID i) input g (rs i) c0 = (c1, Err ErrTargetExists) /\
    tables c1 = tables c0 /\ ((exists msgs rest, length msgs = n /\ faults c1 = (Some <$> msgs) ++ rest) \/ faults c1 = [] /\ group_rows (tables c) !! g = None)).
  { destruct (Hv O) as [Hv1 Hv2]; [lia|]. rewrite Nat.add_0_r in Hv1, Hv2.
    assert (Hg' : (if decide (g <> ""%string) then validateGroupID g else Ok tt) = Ok tt) by (by case_decide).
    unfold CreateWithPath. rewrite Hv1, Hg'. destruct (encryptCredentials _ _ _ _ _ _) as [[[pw k] kp]|]; [|done].
    unfold db_bind, db_of, db_catch, db_exec, db_call. subst c0. simpl. destruct Hf as [(msgs & rest & Hl & ->)|[-> Hnone]].
    - destruct msgs as [|m msgs]; [done|]. simpl. eexists. split; [done|]. split; [done|]. left. exists msgs, rest. injection Hl as Hl. done.
    - simpl. unfold group_rows in Hnone. destruct (targets _ !! _); [eexists; split; [done|]; eauto|].
      rewrite decide_False by (rewrite Hnone; by intros []). eexists. split; [done|]. eauto. }
  destruct Ha as (c1 & -> & Ht & Hf1). simpl. apply IH; [|done|].
  - intros j Hj. replace (S i + j)%nat with (i + S j)%nat by lia. apply Hv. lia.
  - unfold insert_fails. simpl. unfold group_rows in *. simpl. rewrite Ht. subst c0. simpl. exact Hf1.
Qed.
End create.

(** ** Following the cursor of the listing *)
Lemma filter_constant {A} (P : A -> Prop) `{forall x, Decision (P x)} (l : list A) :
  ((forall x, x ∈ l -> ~ P x) -> filter P l = []) /\ ((forall x, x ∈ l -> P x) -> filter P l = l).
Proof.
  induction l as [|x l [IH1 IH2]]; [done|]. split; intros Hl; rewrite filter_cons.
  - rewrite decide_False by (apply Hl; by left). apply IH1. intros y Hy. apply Hl. by right.
  - rewrite decide_True by (apply Hl; by left). f_equal. apply IH2. intros y Hy. apply Hl. by right.
Qed.
Lemma page_after L pre rest a : StronglySorted String.le L -> NoDup L -> L = pre ++ rest -> last pre = Some a ->
  filter (fun id => string_lt a id = true) L = rest /\ drop_until_after a L = rest.
Proof.
  intros Hs Hn -> (pre' & ->)%last_Some.
  assert (Hpre : forall x, x ∈ pre' ++ [a] -> String.le x a).
  { intros x [Hx| ->%list_elem_of_singleton]%elem_of_app; [|reflexivity]. rewrite <- app_assoc in Hs.
    eapply StronglySorted_app_1_elem_of; [exact Hs|done|by left]. }
  assert (Hrest : forall y, y ∈ rest -> ~ String.le y a).
  { intros y Hy Hle. assert (String.le a y).
    { eapply StronglySorted_app_1_elem_of; [exact Hs|apply elem_of_app; right; by left|done]. }
    assert (y = a) as -> by (by apply (anti_symm String.le)).
    apply NoDup_app in Hn as (_ & Hd & _). apply (Hd a); [apply elem_of_app; right; by left|done]. }
  split.
  - rewrite filter_app. rewrite (proj1 (filter_constant _ (pre' ++ [a]))), (proj2 (filter_constant _ rest)); [done|..]; intros x Hx;
      unfold string_lt; rewrite bool_decide_eq_true; [by apply Hrest|intros Hc; by apply Hc, Hpre].
  - clear Hs Hn. induction (pre' ++ [a]) as [|x l IH]; simpl.
    + destruct rest as [|y rest]; [done|]. simpl. rewrite bool_decide_false; [done|]. apply Hrest. by left.
    + rewrite bool_decide_true by (apply Hpre; by left). apply IH. intros z Hz. apply Hpre. by right.
Qed.
Lemma elem_take {A} (x : A) n l : x ∈ take n l -> x ∈ l.
Proof. intros Hx. rewrite <- (take_drop n l). apply elem_of_app. by left. Qed.
Lemma unique_ids_id seen ids : NoDup ids -> ""%string ∉ ids -> (forall id, id ∈ ids -> id ∉ seen) -> unique_ids seen ids = ids.
Proof.
  revert seen. induction ids as [|id ids IH]; intros seen Hn He Hs; simpl; [done|].
  apply NoDup_cons in Hn as [Hi Hn]. apply not_elem_of_cons in He as [Hne He].
  rewrite decide_False by (intros [->|Hin]; [done|]; by apply (Hs id); [left|]).
  f_equal. apply IH; [done..|]. intros x Hx [->%elem_of_singleton|Hin]%elem_of_union; [done|]. by apply (Hs x); [right|].
Qed.
Lemma valid_id_trim id : validateTargetID id = Ok tt -> TrimSpace_s id = id /\ id <> ""%string.
Proof.
  unfold validateTargetID. intros Hv. repeat (case_match; try done).
  match goal with Hp : idPattern _ = true |- _ => apply andb_true_iff in Hp as [Hne Hall] end.
  apply bool_decide_eq_true in Hne.
  assert (Hg : forall a, a ∈ bs id -> graphic a).
  { intros a Ha. unfold graphic. rewrite list_elem_of_In in Ha. by apply (proj1 (forallb_forall _ _) Hall), id_char_spec in Ha as [_ ?]. }
  split; [|by intros ->]. unfold TrimSpace_s. rewrite TrimSpace_edges; [apply str_of_bs|].
  destruct (head (bs id)) as [x|] eqn:Eh; [|by destruct (bs id)]. destruct (last (bs id)) as [y|] eqn:El; [|by apply last_None in El].
  exists x, y. split_and!; [done|done|apply Hg, head_Some_elem_of, Eh|apply Hg, last_Some_elem_of, El].
Qed.

Section pages.
Context `{Crypto} `{UnicodeTables} `{SetScan} (encKey : list Z) (strict : bool) (dflt : Z) (e : request_env) (now : time) (c : conn tgt_world).
Abbreviation tables_of := (ct_access (w_cred (tables c))).

(** What the listing is of: every target for an administrator, the accessible
    ones for a user. *)
Definition visible (isAdmin : bool) (u : string) : list string :=
  if isAdmin then sort_strings (map_to_list (targets tables_of)).*1 else sorted_ids (accessible tables_of u now).
Definition page_response (id : string) : option targetResponse :=
  (fun t => targetToResponse t (Some (sort_strings (tags_of (target_tags tables_of) id)))) <$> lookup_target encKey strict tables_of id.

Lemma visible_sorted b u : StronglySorted String.le (visible b u) /\ NoDup (visible b u).
Proof.
  unfold visible. destruct b.
  - split; [apply sort_strings_sorted|]. rewrite sort_strings_perm. apply NoDup_fst_map_to_list.
  - split; [apply sort_strings_sorted|apply NoDup_sorted_ids].
Qed.
Lemma sql_page_run a (n : nat) L pre rest : StronglySorted String.le L -> NoDup L -> L = pre ++ rest -> last pre = (if is_empty a then None else Some a) ->
  sql_page (Some (mkListOpts (Z.of_nat n + 1) 0 a)) dflt L = take (S n) rest /\ go_page (Some (mkListOpts (Z.of_nat n + 1) 0 a)) dflt L = take (S n) rest.
Proof.
  intros Hs Hn HL Ha. unfold sql_page, go_page, listLimit, after_id, sql_limit. cbn [lo_Limit lo_Offset lo_AfterID].
  rewrite (proj2 (Z.ltb_lt (0) (Z.of_nat n + 1))) by lia. change (0 <? 0) with false; cbv iota. change (0 <? 0) with false; cbv iota. rewrite (proj2 (Z.ltb_ge (Z.of_nat n + 1) (0))) by lia.
  replace (Z.to_nat (Z.of_nat n + 1)) with (S n) by lia. simpl andb. cbv iota.
  assert (Hp : (if is_empty a then L else filter (fun id => string_lt a id = true) L) = rest /\ (if is_empty a then L else drop_until_after a L) = rest).
  { unfold is_empty in *. case_bool_decide; [|by apply (page_after L pre rest a)]. apply last_None in Ha as ->. done. }
  unfold is_empty in Hp. case_bool_decide as Hb; destruct Hp as [Hp1 Hp2].
  - rewrite decide_False by (by intros []). rewrite drop_0, Hp1. split; [done|]. rewrite (proj2 (Z.ltb_lt 0 (Z.of_nat n + 1))) by lia. simpl andb; cbv iota. destruct (Z.ltb_spec (Z.of_nat n + 1) (Z.of_nat (length rest))); [done|]. by rewrite take_ge by lia.
  - rewrite decide_True by done. rewrite Hp1, Hp2. split; [done|]. rewrite (proj2 (Z.ltb_lt 0 (Z.of_nat n + 1))) by lia. simpl andb; cbv iota. destruct (Z.ltb_spec (Z.of_nat n + 1) (Z.of_nat (length rest))); [done|]. by rewrite take_ge by lia.
Qed.
Lemma with_tags_run ts : healthy c -> with_tags ts c = (c, Ok ((fun t => targetToResponse t (Some (sort_strings (tags_of (target_tags tables_of) (t_ID t))))) <$> ts)).
Proof.
  intros Hc. assert (Htag : forall id, ignore (E' := http_err) (on_store (TagsForTarget id)) c = (c, Ok (Some (sort_strings (tags_of (target_tags tables_of) id))))).
  { intros id. unfold ignore, db_bind, db_try. rewrite on_store_run. unfold TagsForTarget. rewrite query_healthy by (by destruct Hc). simpl.
    by destruct c as [cf [[a k i] ctl] fs]. }
  induction ts as [|t ts IH]; simpl; [done|]. unfold db_bind. by rewrite Htag, IH.
Qed.
Lemma lookup_target_ID t id tg : lookup_target encKey strict t id = Some tg -> t_ID tg = id.
Proof. unfold lookup_target. destruct (targets t !! id) as [r|]; [|done]. simpl. destruct (port_ok r); [|done]. by intros [= <-]. Qed.

(** The lookup of a page: at most the default limit of its targets. *)
Lemma finish_page ids (next : string) : healthy c -> 0 < dflt <= maxInt64 -> NoDup ids -> ""%string ∉ ids ->
  (let* ts := call (on_store (ListByIDs encKey strict dflt ids None)) (fun _ => internal) in
   let* items := with_tags ts in db_ret (items, next)) c = (c, Ok (omap page_response (take (Z.to_nat dflt) ids), next)).
Proof.
  intros Hc Hd Hnd He.
  assert (Hlist : call (on_store (ListByIDs encKey strict dflt ids None)) (fun _ => internal) c =
    (c, Ok (omap (lookup_target encKey strict tables_of) (take (Z.to_nat dflt) ids)))).
  { unfold call, db_bind, db_try. rewrite on_store_run.
    rewrite (ListByIDs_run encKey strict dflt (mkConn (configured c) tables_of (faults c)) ids None dflt 0);
      [|by destruct Hc|lia|done|unfold maxInt64 in *; lia]. simpl.
    rewrite drop_0. rewrite unique_ids_id; [by destruct c as [cf [[ac k i] ctl] fs]| | |set_solver].
    - eapply sublist_NoDup; [exact Hnd|apply sublist_take].
    - by intros Hin%elem_take. }
  unfold db_bind at 1. rewrite Hlist. unfold db_bind at 1. rewrite with_tags_run by done. unfold db_ret. do 3 f_equal.
  clear Hlist Hnd He. induction (take (Z.to_nat dflt) ids) as [|id l IH]; [done|]. simpl. unfold page_response at 1.
  destruct (lookup_target encKey strict tables_of id) as [tg|] eqn:El; [|exact IH]. simpl. rewrite (lookup_target_ID _ _ _ El). f_equal. exact IH.
Qed.
Lemma visible_ids b u a (n : nat) pre rest :
  healthy c -> (b = false -> branches_small tables_of u now) ->
  visible b u = pre ++ rest -> last pre = (if is_empty a then None else Some a) ->
  call (on_store (if b then AllIDs dflt (Some (mkListOpts (Z.of_nat n + 1) 0 a)) else TargetIDsForUser u (Some (mkListOpts (Z.of_nat n + 1) 0 a)) dflt now)) (fun _ => internal) c
    = (c, Ok (take (S n) rest)).
Proof.
  intros Hc Hsmall HL Hlast.
  destruct (visible_sorted b u) as [Hs Hnd]. destruct (sql_page_run a n _ _ _ Hs Hnd HL Hlast) as [Hsql Hgo].
  unfold call, db_bind, db_try. rewrite on_store_run. destruct b.
  - unfold AllIDs. rewrite query_healthy by (by destruct Hc). simpl. unfold visible in Hsql. rewrite Hsql. by destruct c as [cf [[ac k i] ctl] fs].
  - rewrite TargetIDsForUser_run; [|by destruct Hc|by apply Hsmall]. simpl. unfold visible in Hgo. rewrite Hgo. by destruct c as [cf [[ac k i] ctl] fs].
Qed.
(** One page: [rest] is what follows the cursor. *)
Lemma handleTargets_page b u a limit (n : nat) pre rest :
  healthy c -> re_user e = Ok u -> TrimSpace_s u = u -> u <> ""%string -> currentUserIsAdmin e = Ok b ->
  (b = false -> branches_small tables_of u now) ->
  TrimSpace_s a = a -> Atoi_s (TrimSpace_s limit) = Some (Z.of_nat n) -> (1 <= n)%nat -> Z.of_nat n <= 1000 -> 0 < dflt <= maxInt64 ->
  (forall id, id ∈ visible b u -> validateTargetID id = Ok tt) ->
  visible b u = pre ++ rest -> last pre = (if is_empty a then None else Some a) ->
  handleTargets encKey strict dflt e now a limit c =
    (c, Ok (omap page_response (take (Z.to_nat dflt) (take n rest)), if bool_decide (n < length rest)%nat then default ""%string (last (take n rest)) else ""%string)).
Proof.
  intros Hc Hu Htu Hne Hadm Hsmall Hta Hlim Hn Hn' Hd Hval HL Hlast.
  unfold handleTargets, currentUserID. rewrite Hu, Htu, (bool_decide_false (u = _)) by done.
  assert (Hopts : listOptsFromRequest a limit = Some (mkListOpts (Z.of_nat n) 0 a)).
  { unfold listOptsFromRequest. rewrite Hta. assert (TrimSpace_s limit <> ""%string) by (intros E; by rewrite E in Hlim).
    rewrite (bool_decide_false (TrimSpace_s limit = _)), andb_false_r, Hlim by done.
    rewrite (proj2 (Z.leb_gt (Z.of_nat n) (0))) by lia. by rewrite (proj2 (Z.ltb_ge (1000) (Z.of_nat n))) by lia. }
  rewrite Hopts. simpl fmap. cbn [lo_Limit lo_AfterID]. rewrite Hadm. unfold db_bind at 1, db_of.
  unfold db_bind at 1. rewrite (visible_ids b u a n pre rest) by done.
  rewrite (proj2 (Z.ltb_lt 0 (Z.of_nat n))) by lia. rewrite (bool_decide_true (Some _ <> None)) by done. simpl andb. rewrite length_take.
  set (more := Z.of_nat n <? Z.of_nat (S n `min` length rest)).
  assert (Hmore : more = bool_decide (n < length rest)%nat).
  { unfold more. case_bool_decide; [apply Z.ltb_lt|apply Z.ltb_ge]; lia. }
  assert (Hpage : (if more then take (Z.to_nat (Z.of_nat n)) (take (S n) rest) else take (S n) rest) = take n rest).
  { rewrite Nat2Z.id, take_take, Hmore. replace (n `min` S n)%nat with n by lia. case_bool_decide; [done|]. by rewrite !take_ge by lia. }
  rewrite Hpage, Hmore. apply finish_page; [done..| |].
  - destruct (visible_sorted b u) as [_ Hnd]. rewrite HL in Hnd. apply NoDup_app in Hnd as (_ & _ & Hnd). eapply sublist_NoDup; [exact Hnd|apply sublist_take].
  - intros Hin%elem_take. assert (Hv : ""%string ∈ visible b u) by (rewrite HL; apply elem_of_app; by right). by apply Hval, valid_id_trim in Hv as [].
Qed.

(** A limit that is not a positive number shows one target and no cursor. *)
Theorem bad_limit_shows_one_target b u limit :
  healthy c -> re_user e = Ok u -> TrimSpace_s u = u -> u <> ""%string -> currentUserIsAdmin e = Ok b ->
  (b = false -> branches_small tables_of u now) ->
  TrimSpace_s limit <> ""%string -> (forall n, Atoi_s (TrimSpace_s limit) = Some n -> n <= 0) -> 0 < dflt <= maxInt64 ->
  (forall id, id ∈ visible b u -> validateTargetID id = Ok tt) ->
  handleTargets encKey strict dflt e now "" limit c = (c, Ok (omap page_response (take 1 (visible b u)), ""%string)).
Proof.
  intros Hc Hu Htu Hne Hadm Hsmall Hl Hbad Hd Hval.
  unfold handleTargets, currentUserID. rewrite Hu, Htu, (bool_decide_false (u = _)) by done.
  assert (Hopts : listOptsFromRequest "" limit = Some (mkListOpts 0 0 "")).
  { unfold listOptsFromRequest. change (TrimSpace_s "") with ""%string. rewrite (bool_decide_false (TrimSpace_s limit = _)), andb_false_r by done.
    destruct (Atoi_s (TrimSpace_s limit)) as [n|] eqn:E; [|done]. specialize (Hbad n eq_refl). by rewrite (proj2 (Z.leb_le n 0)) by lia. }
  rewrite Hopts. simpl fmap. cbn [lo_Limit lo_AfterID]. rewrite Hadm. unfold db_bind at 1, db_of. unfold db_bind at 1.
  change (0 + 1) with (Z.of_nat 0 + 1). rewrite (visible_ids b u "" 0 [] (visible b u)) by done. change (0 <? 0) with false. rewrite andb_false_r. cbv iota beta delta [andb].
  rewrite finish_page; [|done..| |].
  - rewrite take_take. replace (Z.to_nat dflt `min` 1)%nat with 1%nat by lia. done.
  - destruct (visible_sorted b u) as [_ Hnd]. eapply sublist_NoDup; [exact Hnd|apply sublist_take].
  - intros Hin%elem_take. by apply Hval, valid_id_trim in Hin as [].
Qed.

(** A client that follows the cursor; it gives up after [fuel] pages. *)
Fixpoint crawl (fuel : nat) (after limit : string) : TargetM (list targetResponse) :=
  match fuel with
  | O => db_throw internal
  | S fuel =>
      let* (items, next) := handleTargets encKey strict dflt e now after limit in
      if is_empty next then db_ret items
      else let* rest := crawl fuel next limit in db_ret (items ++ rest)
  end.
(** What pages of [n] show of a list when a lookup returns at most [d]. *)
Fixpoint shown (fuel n d : nat) (l : list string) : list string :=
  match fuel with
  | O => []
  | S fuel => take d (take n l) ++ (if bool_decide (n < length l)%nat then shown fuel n d (drop n l) else [])
  end.
Lemma shown_all fuel n d l : (1 <= n <= d)%nat -> (length l < fuel)%nat -> shown fuel n d l = l.
Proof.
  intros Hn. revert l. induction fuel as [|fuel IH]; intros l Hl; simpl; [lia|].
  rewrite (take_ge (take n l)) by (rewrite length_take; lia). case_bool_decide.
  - rewrite IH by (rewrite length_drop; lia). apply take_drop.
  - rewrite app_nil_r. by apply take_ge; lia.
Qed.
Lemma shown_sub fuel n d l id : id ∈ shown fuel n d l -> id ∈ take d l \/ id ∈ drop n l.
Proof.
  assert (Hall : forall fuel l, id ∈ shown fuel n d l -> id ∈ l).
  { clear fuel l. induction fuel as [|fuel IH]; intros l; simpl; [by intros ?%elem_of_nil|].
    intros [Hin|Hin]%elem_of_app; [by apply elem_take, elem_take in Hin|]. case_bool_decide; [|by apply elem_of_nil in Hin].
    apply IH in Hin. rewrite <- (take_drop n l). apply elem_of_app. by right. }
  destruct fuel as [|fuel]; simpl; [by intros ?%elem_of_nil|]. intros [Hin|Hin]%elem_of_app.
  - left. rewrite take_take, Nat.min_comm, <- take_take in Hin. by eapply elem_take.
  - right. case_bool_decide; [|by apply elem_of_nil in Hin]. by eapply Hall.
Qed.
Lemma crawl_spec b u limit (n : nat) rest :
  healthy c -> re_user e = Ok u -> TrimSpace_s u = u -> u <> ""%string -> currentUserIsAdmin e = Ok b ->
  (b = false -> branches_small tables_of u now) ->
  Atoi_s (TrimSpace_s limit) = Some (Z.of_nat n) -> (1 <= n)%nat -> Z.of_nat n <= 1000 -> 0 < dflt <= maxInt64 ->
  (forall id, id ∈ visible b u -> validateTargetID id = Ok tt) ->
  forall fuel pre a, (length rest < fuel)%nat -> TrimSpace_s a = a ->
  visible b u = pre ++ rest -> last pre = (if is_empty a then None else Some a) ->
  crawl fuel a limit c = (c, Ok (omap page_response (shown fuel n (Z.to_nat dflt) rest))).
Proof.
  intros Hc Hu Htu Hne Hadm Hsmall Hlim Hn Hn' Hd Hval fuel. revert rest.
  induction fuel as [|fuel IH]; intros rest pre a Hf Hta HL Hlast; [lia|]. simpl.
  unfold db_bind at 1. rewrite (handleTargets_page b u a limit n pre rest) by done.
  case_bool_decide as Hlen; cbv iota beta.
  2: { rewrite app_nil_r. unfold is_empty. by rewrite bool_decide_true. }
  destruct (last (take n rest)) as [x|] eqn:Ex.
  2: { apply last_None in Ex. destruct rest, n; simpl in *; (lia || done). }
  assert (Hx : TrimSpace_s x = x /\ x <> ""%string).
  { apply valid_id_trim, Hval. rewrite HL. apply elem_of_app. right. apply elem_take with (n := n). by apply last_Some_elem_of. }
  destruct Hx as [Hxt Hxne]. change (default ""%string (Some x)) with x. unfold is_empty at 1. rewrite bool_decide_false by done.
  unfold db_bind. rewrite (IH (drop n rest) (pre ++ take n rest) x).
  - unfold db_ret. do 2 f_equal. by rewrite <- omap_app.
  - rewrite length_drop. lia.
  - done.
  - by rewrite <- app_assoc, take_drop.
  - rewrite last_app, Ex. unfold is_empty. by rewrite bool_decide_false.
Qed.

(** C38. Following the cursor shows every target exactly once, in order: with a
    page size up to the store's default limit (100), an administrator sees every
    target and a user every target they can reach (where none of the three queries
    behind their targets goes over its bound of 20,000 rows). *)
Theorem pages_show_every_target b u limit (n : nat) fuel :
  healthy c -> re_user e = Ok u -> TrimSpace_s u = u -> u <> ""%string -> currentUserIsAdmin e = Ok b ->
  (b = false -> branches_small tables_of u now) ->
  Atoi_s (TrimSpace_s limit) = Some (Z.of_nat n) -> (1 <= n)%nat -> Z.of_nat n <= 1000 -> 0 < dflt <= maxInt64 ->
  (forall id, id ∈ visible b u -> validateTargetID id = Ok tt) ->
  Z.of_nat n <= dflt -> (length (visible b u) < fuel)%nat ->
  crawl fuel "" limit c = (c, Ok (omap page_response (visible b u))).
Proof.
  intros. rewrite (crawl_spec b u limit n (visible b u)) with (pre := []) by done. by rewrite shown_all by lia.
Qed.
(** A page size above the default limit loses targets without a trace: the lookup
    of the page returns at most the default limit of them, and the cursor goes on
    behind the whole page. *)
Theorem large_pages_lose_targets b u limit (n k : nat) fuel id items c' :
  healthy c -> re_user e = Ok u -> TrimSpace_s u = u -> u <> ""%string -> currentUserIsAdmin e = Ok b ->
  (b = false -> branches_small tables_of u now) ->
  Atoi_s (TrimSpace_s limit) = Some (Z.of_nat n) -> (1 <= n)%nat -> Z.of_nat n <= 1000 -> 0 < dflt <= maxInt64 ->
  (forall id, id ∈ visible b u -> validateTargetID id = Ok tt) ->
  (Z.to_nat dflt <= k < n)%nat -> visible b u !! k = Some id -> (length (visible b u) < fuel)%nat ->
  crawl fuel "" limit c = (c', Ok items) ->
  Forall (fun r => rp_ID r <> id) items.
Proof.
  intros Hc Hu Htu Hne Hadm Hsmall Hlim Hn Hn' Hd Hval Hk Hid Hf.
  rewrite (crawl_spec b u limit n (visible b u)) with (pre := []) by done. intros [= <- <-].
  apply Forall_forall. intros r (i & Hi & Hr)%list_elem_of_omap Heq.
  assert (i = id) as ->.
  { unfold page_response in Hr. destruct (lookup_target encKey strict tables_of i) as [tg|] eqn:El; [|done]. injection Hr as <-.
    simpl in Heq. by rewrite (lookup_target_ID _ _ _ El) in Heq. }
  destruct (visible_sorted b u) as [_ Hnd].
  apply shown_sub in Hi as [Hi|Hi]; apply list_elem_of_lookup in Hi as [j Hj].
  - apply lookup_take_Some in Hj as [Hj Hlt]. pose proof (NoDup_lookup _ _ _ _ Hnd Hid Hj). lia.
  - rewrite lookup_drop in Hj. pose proof (NoDup_lookup _ _ _ _ Hnd Hid Hj). lia.
Qed.
End pages.

(** ** The links of targets survive every request *)

(** The identities and keys that targets may refer to. *)
Definition target_links (I K : string -> Prop) (t : access_tables) : Prop :=
  forall id r, targets t !! id = Some r ->
    (tr_credential_identity_id r <> ""%string -> I (tr_credential_identity_id r)) /\ (tr_ssh_key_id r <> ""%string -> K (tr_ssh_key_id r)).
Definition keeps_links {E A} (m : DB access_tables E A) : Prop := forall I K, preserves (target_links I K) m.
Lemma same_targets_links {E A} `{DBError E} (f : access_tables -> result string (access_tables * A)) :
  (forall t t' a, f t = Ok (t', a) -> targets t' ⊆ targets t) -> keeps_links (db_exec f).
Proof. intros Hf I K. apply preserves_exec. intros t t' a Ht E1 id r Hl. eapply Ht, lookup_weaken; [exact Hl|by eapply Hf]. Qed.
Lemma update_target_links id f :
  (forall r, tr_credential_identity_id (f r) = tr_credential_identity_id r /\ tr_ssh_key_id (f r) = tr_ssh_key_id r) -> keeps_links (update_target id f).
Proof.
  intros Hf I K. apply preserves_exec. intros t t' n Ht Hx. destruct (targets t !! id) as [r|] eqn:Hl; injection Hx as <- <-; [|done].
  intros i r'. simpl. intros [[<- <-]|[_ Hl']]%lookup_insert_Some; [|by eapply Ht]. destruct (Hf r) as [-> ->]. by eapply Ht.
Qed.
Lemma found_links n : keeps_links (found n).
Proof. intros I K. apply preserves_found. Qed.
Lemma require_group_links g : keeps_links (require_group g).
Proof. intros I K. apply preserves_require_group. Qed.
Lemma insert_target_tags_links id tags : keeps_links (insert_target_tags id tags).
Proof.
  intros I K. induction tags as [|tag tags IH]; simpl; preserve; [|done]. apply same_targets_links.
  intros t t' [] Hf. repeat case_decide; by simplify_eq.
Qed.

Section links.
Context `{Crypto} `{UnicodeTables} `{SetScan} (encKey : list Z) (strict : bool) (ParseIP : list Z -> option (list Z)) (allowRestricted : bool).

Lemma CreateWithPath_links id i g r : keeps_links (CreateWithPath encKey ParseIP allowRestricted id i g r).
Proof.
  intros I K. unfold CreateWithPath. preserve. apply preserves_exec. intros t t' [] Ht Hf. repeat case_match; simplify_eq.
  intros i' r'. simpl. intros [[<- <-]|[_ Hl']]%lookup_insert_Some; [done|by eapply Ht].
Qed.
Lemma target_Get_links id : keeps_links (target_Get encKey strict id).
Proof. intros I K. unfold target_Get. preserve. Qed.
Lemma target_Update_links id i r : keeps_links (target_Update encKey strict ParseIP allowRestricted id i r).
Proof. intros I K. unfold target_Update. preserve; [by apply update_target_links|by apply found_links|exact (target_Get_links _ I K)]. Qed.
Lemma SetSSHHostKeyFingerprint_links id fp : keeps_links (SetSSHHostKeyFingerprint id fp).
Proof. intros I K. unfold SetSSHHostKeyFingerprint. preserve; [by apply update_target_links|apply found_links]. Qed.
Lemma SetCredentialSource_links (I K : string -> Prop) id cid kid : (cid <> ""%string -> I cid) -> (kid <> ""%string -> K kid) ->
  preserves (target_links I K) (SetCredentialSource id cid kid).
Proof.
  intros HI HK. unfold SetCredentialSource. preserve; [|apply found_links]. apply preserves_exec. intros t t' n Ht Hx.
  destruct (targets t !! id) as [r|] eqn:Hl; injection Hx as <- <-; [|done].
  intros i r'. simpl. intros [[<- <-]|[_ Hl']]%lookup_insert_Some; [done|by eapply Ht].
Qed.
Lemma target_Delete_links id : keeps_links (target_Delete id).
Proof.
  intros I K. unfold target_Delete. preserve; [|apply found_links]. apply preserves_exec. intros t t' n Ht Hx.
  destruct (targets t !! id) as [r|] eqn:Hl; injection Hx as <- <-; [|done].
  intros i r'. simpl. intros [Hl' _]%map_lookup_filter_Some. by eapply Ht.
Qed.
Lemma AddTargetToGroup_links g id : keeps_links (AddTargetToGroup g id).
Proof.
  intros I K. unfold AddTargetToGroup. preserve; [exact (require_group_links _ I K)|]. apply same_targets_links.
  intros t t' [] Hf. repeat case_decide; by simplify_eq.
Qed.
Lemma RemoveTargetFromGroup_links g id : keeps_links (RemoveTargetFromGroup g id).
Proof. intros I K. unfold RemoveTargetFromGroup. preserve; [exact (require_group_links _ I K)|]. apply same_targets_links. by intros t t' [] [= <-]. Qed.
Lemma SetTargetTags_links id tags : keeps_links (SetTargetTags id tags).
Proof.
  intros I K. unfold SetTargetTags. preserve; [|exact (insert_target_tags_links _ _ I K)]. apply same_targets_links. by intros t t' [] [= <-].
Qed.
Lemma insert_group_tags_links g tags : keeps_links (insert_group_tags g tags).
Proof.
  intros I K. induction tags as [|tag tags IH]; simpl; preserve; [|done]. apply same_targets_links.
  intros t t' [] Hf. repeat case_decide; by simplify_eq.
Qed.
Lemma group_exec_links op : keeps_links (group_exec op).
Proof.
  intros I K. destruct op; simpl;
    [unfold Create|unfold Update|unfold AccessGroups.Delete|unfold AddUserToGroupUntil|unfold RemoveUserFromGroup|unfold PurgeExpiredMemberships
    |exact (AddTargetToGroup_links _ _ I K)|exact (RemoveTargetFromGroup_links _ _ I K)|unfold SetGroupTags];
    preserve; try exact (require_group_links _ I K); try exact (insert_group_tags_links _ _ I K); apply same_targets_links; intros t t' x Hf;
    repeat first [case_decide | match type of Hf with context [match ?b with _ => _ end] => destruct b end]; simplify_eq; try done.
  apply map_filter_subseteq.
Qed.

(** The links are in order, and the identity and the key a request names exist. *)
Definition sourced (cid kid : string) (t : cred_tables) : Prop :=
  (cid <> ""%string -> is_Some (identities t !! cid)) /\ (kid <> ""%string -> is_Some (ssh_keys t !! kid)).
Definition linked (cid kid : string) (w : tgt_world) : Prop := links_ok (w_cred w) /\ sourced cid kid (w_cred w).

Lemma links_targets t a : links_ok t ->
  target_links (fun i => is_Some (identities t !! i)) (fun k => is_Some (ssh_keys t !! k)) a -> links_ok (put_access a t).
Proof. intros [H1' H2' H3' H4'] Ha. split; [exact H1'|exact H2'| |]; intros id r Hl; by apply (Ha id r). Qed.
Lemma on_store_linked {E A} cid kid (m : DB access_tables E A) :
  (forall I K : string -> Prop, (cid <> ""%string -> I cid) -> (kid <> ""%string -> K kid) -> preserves (target_links I K) m) ->
  preserves (linked cid kid) (on_store m).
Proof.
  intros Hm c [Hok [Hci Hki]]. rewrite on_store_run.
  specialize (Hm (fun i => is_Some (identities (w_cred (tables c)) !! i)) (fun k => is_Some (ssh_keys (w_cred (tables c)) !! k)) Hci Hki).
  specialize (Hm (mkConn (configured c) (ct_access (w_cred (tables c))) (faults c))). simpl in Hm.
  destruct (m _) as [c' r]. simpl in *. split; [|by split]. apply links_targets; [done|]. apply Hm.
  intros id row Hl. split; [by eapply lk_target_identity|by eapply lk_target_key].
Qed.
Lemma store_linked {E A} cid kid (m : DB access_tables E A) : keeps_links m -> preserves (linked cid kid) (on_store m).
Proof. intros Hm. apply on_store_linked. intros I K _ _. apply Hm. Qed.
Lemma on_ctl_linked cid kid f : preserves (linked cid kid) (on_ctl f).
Proof. intros c Hc. exact Hc. Qed.
Lemma preserves_ignore {T E E' A} (P : T -> Prop) (m : DB T E A) : preserves P m -> preserves P (ignore (E' := E') m).
Proof. intros Hm. unfold ignore. apply preserves_bind; [by apply preserves_try|]. intros r. preserve. Qed.
Lemma create_loop_linked {E'} (h : access_err -> E') cid kid fuel i baseID input g rs :
  preserves (linked cid kid) (create_loop encKey ParseIP allowRestricted h fuel i baseID input g rs).
Proof.
  revert i. induction fuel as [|fuel IH]; intros i; simpl; [apply preserves_ret|].
  apply preserves_bind; [apply preserves_try, store_linked, CreateWithPath_links|]. intros [t|err]; [apply preserves_ret|].
  destruct err; try apply preserves_throw. apply IH.
Qed.
Lemma created_target_linked env mkdir req g cid kid id protocol : preserves (linked cid kid) (created_target env mkdir req g cid kid id protocol).
Proof.
  unfold created_target. repeat (simple apply preserves_bind; [|intros ?]); try apply on_ctl_linked.
  - apply preserves_call, store_linked, AddTargetToGroup_links.
  - case_match; [|apply preserves_ret]. apply preserves_ignore, on_store_linked. intros I K HI HK. by apply SetCredentialSource_links.
  - apply preserves_ignore, store_linked. intros I K. unfold TagsForGroup. preserve.
  - case_match; [|apply preserves_ret]. case_match; [apply preserves_ret|]. apply preserves_ignore, store_linked, SetTargetTags_links.
  - case_match; [|apply preserves_ret]. apply preserves_call, store_linked, SetSSHHostKeyFingerprint_links.
Qed.
Lemma leave_groups_linked cid kid gs g id : preserves (linked cid kid) (leave_groups gs g id).
Proof.
  induction gs as [|g' gs IH]; simpl; [apply preserves_ret|]. case_match.
  - apply preserves_bind; [done|]. intros b. apply preserves_ret.
  - apply preserves_bind; [apply preserves_call, store_linked, RemoveTargetFromGroup_links|by intros _].
Qed.
Lemma move_target_linked cid kid id g : preserves (linked cid kid) (move_target id g).
Proof.
  unfold move_target. apply preserves_bind; [apply preserves_call, store_linked; intros I K; unfold GroupIDsForTarget; preserve|].
  intros gs. apply preserves_bind; [apply leave_groups_linked|]. intros [|]; [apply preserves_ret|].
  apply preserves_call, store_linked, AddTargetToGroup_links.
Qed.

(** Copying credentials only reads, and what it read exists. *)
Lemma key_get_reads id P : preserves P (key_GetDecrypted encKey id).
Proof. unfold key_GetDecrypted. preserve. Qed.
Lemma identity_get_reads id P : preserves P (identity_GetDecrypted encKey id).
Proof. unfold identity_GetDecrypted. preserve; apply key_get_reads. Qed.
Lemma key_get_exists id : hoare (fun _ => True) (key_GetDecrypted encKey id) (fun t r => is_ok r = true -> is_Some (ssh_keys t !! id)).
Proof.
  unfold key_GetDecrypted. eapply hoare_bind with (R := fun _ _ => True); [by intros c|intros []|done].
  eapply hoare_bind with (R := fun t r => match r with Ok row => row = ssh_keys t !! id | Err _ => True end); [by apply hoare_query| |done].
  intros row c Hrow. destruct row as [r|]; [|done]. simpl. intros _. rewrite <- Hrow. eauto.
Qed.
Lemma identity_get_exists id : hoare (fun _ => True) (identity_GetDecrypted encKey id) (fun t r => is_ok r = true -> is_Some (identities t !! id)).
Proof.
  unfold identity_GetDecrypted. eapply hoare_bind with (R := fun _ _ => True); [by intros c|intros []|done].
  eapply hoare_bind with (R := fun t r => match r with Ok row => row = identities t !! id | Err _ => True end); [by apply hoare_query| |done].
  intros row. destruct row as [r|]; [|by intros c].
  eapply hoare_conseq with (P' := fun t => is_Some (identities t !! id)); [|intros t Ht; rewrite <- Ht; eauto|intros t x Hx _; exact Hx].
  assert (Hp : forall m : DB cred_tables access_err CredentialIdentity, (forall P, preserves P m) ->
    hoare (fun t => is_Some (identities t !! id)) m (fun t _ => is_Some (identities t !! id))) by (intros m Hm; apply Hm).
  apply Hp. intros P. case_match; [apply preserves_ret|]. apply preserves_bind; [apply key_get_reads|]. intros k. apply preserves_ret.
Qed.
Lemma apply_links {E'} (h : access_err -> E') (cid' kid' : string) s b :
  let cid := TrimSpace_s cid' in let kid := TrimSpace_s kid' in
  hoare (fun w => links_ok (w_cred w)) (call (on_cred (applyStoredCredentials encKey cid kid s b)) h)
    (fun w r => links_ok (w_cred w) /\ (is_ok r = true -> sourced cid kid (w_cred w))).
Proof.
  intros cid kid. pose proof (TrimSpace_s_idem cid') as Hc. pose proof (TrimSpace_s_idem kid') as Hk. fold cid in Hc. fold kid in Hk. clearbody cid kid.
  assert (Happ : forall c, links_ok (tables c) -> let (c', r) := applyStoredCredentials encKey cid kid s b c in
    links_ok (tables c') /\ (is_ok r = true -> sourced cid kid (tables c'))).
  { intros c Hok. unfold applyStoredCredentials. rewrite Hc, Hk. unfold sourced.
    destruct (decide (cid = ""%string)) as [->|Hcn]; [rewrite bool_decide_true by done|rewrite (bool_decide_false (cid = _)) by done]; simpl.
    - destruct (decide (kid = ""%string)) as [->|Hkn]; [rewrite bool_decide_true by done|rewrite (bool_decide_false (kid = _)) by done]; simpl; [by split|].
      unfold db_bind. pose proof (key_get_exists kid c I) as He. pose proof (key_get_reads kid links_ok c Hok) as Hp.
      destruct (key_GetDecrypted encKey kid c) as [c' [k|err]]; simpl in *; split; try done. intros _. split; [done|]. intros _. by apply He.
    - destruct (decide (kid = ""%string)) as [->|Hkn]; [rewrite bool_decide_true by done|rewrite (bool_decide_false (kid = _)) by done]; simpl; [|by split].
      unfold db_bind. pose proof (identity_get_exists cid c I) as He. pose proof (identity_get_reads cid links_ok c Hok) as Hp.
      destruct (identity_GetDecrypted encKey cid c) as [c' [k|err]]; simpl in *; split; try done. intros _. split; [|done]. intros _. by apply He. }
  intros c Hok. unfold call, db_bind, db_try, on_cred, db_zoom.
  specialize (Happ (mkConn (configured c) (w_cred (tables c)) (faults c)) Hok).
  destruct (applyStoredCredentials encKey cid kid s b _) as [c' [x|err]]; simpl in *; [done|]. by destruct Happ.
Qed.

Lemma linked_ok {E A} cid kid (m : DB tgt_world E A) : preserves (linked cid kid) m ->
  hoare (fun w => links_ok (w_cred w) /\ (true = true -> sourced cid kid (w_cred w))) m (fun w _ => links_ok (w_cred w)).
Proof. intros Hm. eapply hoare_conseq; [exact Hm| |]; [intros w [Hl Hs]; split; auto|by intros w r []]. Qed.
Lemma linked_links {E A} (m : DB tgt_world E A) : preserves (linked "" "") m -> preserves (fun w => links_ok (w_cred w)) m.
Proof. intros Hm c Hc. destruct (Hm c) as [? _]; [split; [exact Hc|by split]|done]. Qed.
Lemma group_Get_links g : keeps_links (Get g).
Proof. intros I K. unfold Get. preserve. Qed.

Context (dflt : Z) (env : tftp_env) (mkdir : bool).
Lemma handleCreateTarget_links method e session body fuel rs :
  preserves (fun w => links_ok (w_cred w)) (handleCreateTarget encKey strict ParseIP allowRestricted env mkdir method e session body fuel rs).
Proof.
  unfold handleCreateTarget. case_match; [apply preserves_throw|].
  apply preserves_bind; [apply preserves_of|intros _]. apply preserves_bind; [apply preserves_of|intros _].
  apply preserves_bind; [unfold body_of; preserve|intros req]. cbv zeta.
  case_match; [apply preserves_throw|]. case_match; [apply preserves_throw|].
  apply preserves_bind; [apply linked_links, preserves_call, store_linked, group_Get_links|intros _].
  eapply hoare_bind; [apply apply_links| |by intros w err []].
  intros s. apply linked_ok. case_match; [|apply preserves_throw].
  apply preserves_bind; [apply create_loop_linked|]. intros [id|]; [|apply preserves_ret].
  apply preserves_bind; [apply created_target_linked|intros _].
  apply preserves_bind; [apply preserves_ignore, store_linked, target_Get_links|intros tg].
  apply preserves_bind; [|intros tags; apply preserves_ret].
  apply preserves_ignore, store_linked. intros I K. unfold TagsForTarget. preserve.
Qed.
Lemma handleUpdateTarget_links method e id body r :
  preserves (fun w => links_ok (w_cred w)) (handleUpdateTarget encKey strict ParseIP allowRestricted env mkdir method e id body r).
Proof.
  unfold handleUpdateTarget. case_match; [apply preserves_throw|].
  apply preserves_bind; [apply preserves_of|intros _]. apply preserves_bind; [unfold url_id; preserve|intros tid].
  apply preserves_bind; [apply linked_links, preserves_call, store_linked, target_Get_links|intros cur].
  apply preserves_bind; [unfold body_of; preserve|intros req]. cbv zeta. case_match; [apply preserves_throw|].
  apply preserves_bind.
  { unfold checked_group. apply linked_links. case_match; [|apply preserves_ret]. case_match; [apply preserves_throw|].
    apply preserves_bind; [apply preserves_call, store_linked, group_Get_links|intros _; apply preserves_ret]. }
  intros ng. case_match; [|apply preserves_throw].
  assert (Ht : forall x : option string, default ""%string (TrimSpace_s <$> x) = TrimSpace_s (default ""%string x)) by (by intros []).
  rewrite !Ht. eapply hoare_bind; [apply apply_links| |by intros w err []].
  intros sec. apply linked_ok.
  apply preserves_bind; [apply preserves_call, store_linked, target_Update_links|intros tg].
  apply preserves_bind.
  { case_match; [|apply preserves_ret]. apply preserves_ignore, on_store_linked. intros I K HI HK. by apply SetCredentialSource_links. }
  intros _. apply preserves_bind; [case_match; [apply on_ctl_linked|apply preserves_ret]|intros _].
  apply preserves_bind; [case_match; [apply move_target_linked|apply preserves_ret]|intros _].
  apply preserves_bind; [|intros tags; apply preserves_ret].
  apply preserves_ignore, store_linked. intros I K. unfold TagsForTarget. preserve.
Qed.
Lemma handleDeleteTarget_links method e session now id :
  preserves (fun w => links_ok (w_cred w)) (handleDeleteTarget encKey strict method e session now id).
Proof.
  apply linked_links. unfold handleDeleteTarget. case_match; [apply preserves_throw|].
  apply preserves_bind; [apply preserves_of|intros _]. case_match; [apply preserves_throw|].
  apply preserves_bind; [apply preserves_of|intros _].
  apply preserves_bind; [apply preserves_ignore, store_linked, target_Get_links|intros cur].
  apply preserves_bind; [apply preserves_call, store_linked, target_Delete_links|intros _].
  case_match; [apply on_ctl_linked|apply preserves_ret].
Qed.
End links.

(** The requests of the library, the targets and the groups, one by one. The bulk
    import, which creates and links targets too, is in TargetsBulk.v
    ([import_keeps_links]). *)
Inductive lib_request :=
| RKeyCreate (e : request_env) (body : option createSSHKeyRequest) (r1 r2 : result string (list Z))
| RKeyUpdate (e : request_env) (id : string) (body : option updateSSHKeyRequest) (r1 r2 : result string (list Z))
| RKeyDelete (e : request_env) (id : string)
| RKeyGenerate (e : request_env) (generate : bool -> string -> string -> option (string * string)) (body : option generateSSHKeyRequest) (r1 r2 : result string (list Z))
| RIdentityCreate (e : request_env) (body : option createCredentialIdentityRequest) (r : result string (list Z))
| RIdentityUpdate (e : request_env) (id : string) (body : option updateCredentialIdentityRequest) (r : result string (list Z))
| RIdentityDelete (e : request_env) (id : string)
| RTargetCreate (method : string) (e : request_env) (session : option string) (body : option createTargetRequest) (fuel : nat) (rs : nat -> nonces)
| RTargetUpdate (method : string) (e : request_env) (id : string) (body : option updateTargetRequest) (r : nonces)
| RTargetDelete (method : string) (e : request_env) (session : option string) (now : time) (id : string)
| RGroup (op : group_op).

Section requests.
Context `{Crypto} `{UnicodeTables} `{SetScan} `{MapRange} `{SSHPrivateKeys} (encKey : list Z) (strict : bool) (ParseIP : list Z -> option (list Z))
  (allowRestricted : bool) (env : tftp_env) (mkdir : bool).
Definition answered {A} (m : TargetM A) : TargetM unit := let* _ := m in db_ret tt.
Definition lib_exec (q : lib_request) : TargetM unit :=
  match q with
  | RKeyCreate e body r1 r2 => answered (on_cred (handleSSHKeysCreate encKey e body r1 r2))
  | RKeyUpdate e id body r1 r2 => answered (on_cred (handleSSHKeysUpdate encKey e id body r1 r2))
  | RKeyDelete e id => answered (on_cred (handleSSHKeysDelete e id))
  | RKeyGenerate e generate body r1 r2 => answered (on_cred (handleSSHKeysGenerate encKey generate e body r1 r2))
  | RIdentityCreate e body r => answered (on_cred (handleCredentialIdentitiesCreate encKey e body r))
  | RIdentityUpdate e id body r => answered (on_cred (handleCredentialIdentitiesUpdate encKey e id body r))
  | RIdentityDelete e id => answered (on_cred (handleCredentialIdentitiesDelete e id))
  | RTargetCreate method e session body fuel rs =>
      answered (handleCreateTarget encKey strict ParseIP allowRestricted env mkdir method e session body fuel rs)
  | RTargetUpdate method e id body r => answered (handleUpdateTarget encKey strict ParseIP allowRestricted env mkdir method e id body r)
  | RTargetDelete method e session now id => answered (handleDeleteTarget encKey strict method e session now id)
  | RGroup op => answered (ignore (on_store (group_exec op)))
  end.

Lemma on_cred_links {E A} (m : DB cred_tables E A) : preserves links_ok m -> preserves (fun w => links_ok (w_cred w)) (on_cred m).
Proof.
  intros Hm c Hc. unfold on_cred, db_zoom. specialize (Hm (mkConn (configured c) (w_cred (tables c)) (faults c)) Hc).
  by destruct (m _).
Qed.
Ltac admin_handler :=
  apply on_cred_links; repeat (simple apply preserves_bind; [|intros ?]);
  try simple apply preserves_of; try simple apply preserves_call; try (unfold body_of, url_id; preserve);
  try simple apply preserves_call; eauto using key_create_links, key_update_links, key_delete_links, identity_create_links, identity_update_links, identity_delete_links.
Lemma lib_exec_links q : preserves (fun w => links_ok (w_cred w)) (lib_exec q).
Proof.
  destruct q; unfold lib_exec, answered; (apply preserves_bind; [|intros ?; apply preserves_ret]).
  - unfold handleSSHKeysCreate. admin_handler.
  - unfold handleSSHKeysUpdate. admin_handler.
  - unfold handleSSHKeysDelete. admin_handler.
  - unfold handleSSHKeysGenerate. admin_handler.
  - unfold handleCredentialIdentitiesCreate. admin_handler.
  - unfold handleCredentialIdentitiesUpdate. admin_handler.
  - unfold handleCredentialIdentitiesDelete. admin_handler.
  - apply handleCreateTarget_links.
  - apply handleUpdateTarget_links.
  - apply handleDeleteTarget_links.
  - apply linked_links, preserves_ignore, store_linked, group_exec_links.
Qed.

(** C37. The links of the credential library hold: whatever requests of
    these kinds an administrator makes (the bulk import apart: [import_keeps_links]
    of TargetsBulk.v), in any order and with failing statements, every target
    that is linked to an identity or a key refers to one that exists, every key of
    an identity exists, and every identity has a password or a key. *)
Theorem links_survive_requests qs c :
  links_ok (w_cred (tables c)) -> links_ok (w_cred (tables (foldl (fun c q => (lib_exec q c).1) c qs))).
Proof. revert c. induction qs as [|q qs IH]; intros c Hc; [exact Hc|]. apply IH, lib_exec_links, Hc. Qed.
End requests.

(** ** Linking a target to another identity *)
Section relink.
Context `{Crypto} (encKey : list Z).
(** The secrets a field of a request stands for: [None] when it was not sent. *)
Definition sends_no_secret (req : updateTargetRequest) : Prop :=
  ut_SSHPassword req = None /\ ut_SSHPrivateKey req = None /\ ut_SSHPrivateKeyPassphrase req = None.

(** An update that links a target to an identity does the opposite of what the
    documentation promises (library values replace the stored secrets when the
    request sends none): without secrets in the request the stored password stays
    and only the link changes; a password sent with the request is overwritten by
    that of the identity. *)
Theorem relink_keeps_old_password cur req cid ident c c' s :
  TrimSpace_s cid = cid -> cid <> ""%string ->
  identity_GetDecrypted encKey cid c = (c', Ok ident) -> ci_SSHPassword ident <> ""%string ->
  applyStoredCredentials encKey cid "" (update_secrets cur req) (only_if_empty cid "" req) c = (c', Ok s) ->
  (sends_no_secret req -> blank (t_SSHPassword cur) = false -> x_password s = t_SSHPassword cur) /\
  (forall pw, ut_SSHPassword req = Some pw -> x_password s = ci_SSHPassword ident).
Proof.
  intros Ht Hne Hg Hp. unfold applyStoredCredentials. rewrite Ht. change (TrimSpace_s "") with ""%string.
  rewrite (bool_decide_false (cid = _)) by done. rewrite (bool_decide_true (""%string = _)) by done.
  change (negb false) with true. change (negb true) with false. cbv iota beta delta [andb]. unfold db_bind. rewrite Hg.
  set (b := only_if_empty cid "" req). set (f := set_secret b (x_password (update_secrets cur req)) (ci_SSHPassword ident)).
  intros E. assert (Hs : x_password s = f) by (destruct (ci_Key ident); injection E as <-; done). rewrite Hs. subst f b.
  unfold set_secret, only_if_empty, is_empty. rewrite (bool_decide_false (cid = _)), (bool_decide_false (ci_SSHPassword ident = _)) by done. simpl.
  split.
  - intros (-> & -> & ->) Hb. simpl. by rewrite Hb.
  - intros pw ->. simpl. done.
Qed.
End relink.

(** ** Witnesses

    A laboratory with an administrator, a target that uses the password of
    identity i1, and an identity i2. *)
Definition demo_admin : request_env := mkRequestEnv (Ok "root"%string) (fun _ => Some true).
Definition demo_tgt_row (name : string) : target_row :=
  mkTargetRow name "router.example" 22 ProtocolSSH "lab" "lab" "root" "" "" "" 1 0 0 "" 0 "" "".
Definition demo_targets : gmap string target_row := {["router"%string := demo_tgt_row "router"; "router-1"%string := demo_tgt_row "router"; "sw"%string := demo_tgt_row "sw"]}.
Definition demo_lab : access_tables := mkAccess ∅ {["lab"%string := "Lab"%string]} demo_targets ∅ ∅ ∅ ∅ ∅.
Definition demo_w : tgt_world := mkTgtWorld (mkCred demo_lab ∅ ∅) (mkController 0 None false).
Definition demo_new : target_input := mkTargetInput "Router" "router.example" 22 ProtocolSSH "lab" "" "" "" "" true false false.
Abbreviation demo_loop := (create_loop (H := toy_crypto) demo_key demo_ParseIP false store_err).
Abbreviation demo_rs := (fun _ : nat => demo_nonces).

(** The fourth "router" becomes router-2. *)
Lemma create_loop_terminates_witness :
  (demo_loop 4 0 "router" demo_new "lab" demo_rs (connect demo_w)).2 = Ok (Some "router-2"%string) /\
  (demo_loop 4 0 "router" demo_new "lab" demo_rs (connect demo_w)).2 <> Ok None.
Proof.
  split; [vm_compute; reflexivity|].
  pose proof (create_loop_terminates (H := toy_crypto) demo_key demo_ParseIP false store_err 4 "router" demo_new "lab" demo_rs (connect demo_w)) as Ht.
  destruct (demo_loop 4 0 "router" demo_new "lab" demo_rs (connect demo_w)) as [c' res]. destruct Ht as [Hne _]; [done| |vm_compute; lia|exact Hne].
  vm_compute. eauto.
Defined.
(** A group that was deleted in the meantime keeps the request busy. *)
Definition demo_gone : conn tgt_world := connect (mkTgtWorld (mkCred (mkAccess ∅ ∅ ∅ ∅ ∅ ∅ ∅ ∅) ∅ ∅) (mkController 0 None false)).
Lemma create_loop_spins_witness : (demo_loop 500 0 "router" demo_new "lab" demo_rs demo_gone).2 = Ok None.
Proof.
  apply create_loop_spins; [|reflexivity|right; split; reflexivity].
  assert (Hall : forallb (fun j => bool_decide (validate_target demo_ParseIP false (candidate "router" j) demo_new = Ok tt)
      && is_ok (encryptCredentials (H := toy_crypto) demo_key (candidate "router" j) "" "" "" demo_nonces)) (seq 0 500) = true) by (vm_compute; reflexivity).
  intros j Hj. rewrite forallb_forall in Hall. specialize (Hall j). rewrite <- list_elem_of_In, elem_of_seq in Hall.
  specialize (Hall ltac:(lia)). apply andb_true_iff in Hall as [H1' H2']. apply bool_decide_eq_true in H1'. split; [exact H1'|exact H2'].
Defined.
Lemma pages_show_every_target_witness :
  (crawl (H := toy_crypto) demo_key true 100 demo_admin 0 4 "" "2" (connect demo_w)) =
    (connect demo_w, Ok (omap (page_response (H := toy_crypto) demo_key true (connect demo_w)) ["router"; "router-1"; "sw"]%string)).
Proof.
  rewrite (pages_show_every_target (H := toy_crypto) demo_key true 100 demo_admin 0 (connect demo_w) true "root" "2" 2 4);
    [reflexivity|done|done|vm_compute; reflexivity|done|done|done|vm_compute; reflexivity|lia|lia|vm_compute; split; [reflexivity|discriminate]| |lia|vm_compute; lia].
  change (visible 0 (connect demo_w) true "root") with (sort_strings (map_to_list demo_targets).*1).
  replace (sort_strings (map_to_list demo_targets).*1) with ["router"; "router-1"; "sw"]%string by (vm_compute; reflexivity).
  intros id Hid. rewrite !elem_of_cons in Hid. destruct Hid as [->|[->|[->|Hid]]]; [vm_compute; reflexivity..|by apply elem_of_nil in Hid].
Defined.

(** Identity i1 has the password old, i2 the password new; the target is created
    with i1 and then linked to i2. *)
Definition demo_identity (id pw : string) : lib_request :=
  RIdentityCreate demo_admin (Some (mkCreateIdentity id id "root" pw "")) demo_nonce.
Definition demo_setup : list lib_request :=
  [demo_identity "i1" "old"; demo_identity "i2" "new";
   RTargetCreate "POST" demo_admin (Some "root"%string) (Some (mkCreateTarget "core" "core.example" 22 "ssh" "" "lab" "i1" "" (mkSecrets "" "" "" "") None None None "")) 9 demo_rs].
Definition demo_relink : lib_request :=
  RTargetUpdate "PUT" demo_admin "core" (Some (mkUpdateTarget "core" "core.example" 22 "ssh" "" None (Some "i2"%string) (Some ""%string) "root" None None None None None None)) demo_nonces.
Definition demo_exec (qs : list lib_request) : conn tgt_world :=
  foldl (fun c q => (lib_exec (H := toy_crypto) (H0 := ascii_tables) demo_key true demo_ParseIP false (mkTftpEnv "" "") true q c).1) (connect demo_w) qs.
(** Afterwards the target claims to use i2, and connects with the password of i1. *)
Example relinked_target :
  exists t, (on_store (E := access_err) (target_Get (H := toy_crypto) demo_key true "core") (demo_exec (demo_setup ++ [demo_relink]))).2 = Ok t /\
    t_CredentialIdentityID t = "i2"%string /\ t_SSHPassword t = "old"%string.
Proof. eexists. split; [vm_compute; reflexivity|]. split; reflexivity. Qed.

Lemma demo_links : links_ok (w_cred demo_w).
Proof.
  split; [by intros id r k Hl|by intros id r Hl| |]; intros id r Hl; change (targets _ !! id) with (demo_targets !! id) in Hl;
    unfold demo_targets in Hl; repeat (apply lookup_insert_Some in Hl as [[_ <-]|[_ Hl]]; [done|]); by apply lookup_singleton_Some in Hl as [_ <-].
Qed.
Lemma links_survive_requests_witness : links_ok (w_cred (tables (demo_exec (demo_setup ++ [demo_relink])))).
Proof. apply (links_survive_requests (H := toy_crypto) (H0 := ascii_tables)). exact demo_links. Defined.
Definition demo_lib : conn cred_tables := connect (w_cred (tables (demo_exec demo_setup))).
Definition demo_core : Target :=
  mkTarget "core" "core" "core.example" 22 "ssh" "lab" "root" "old" "" "" "" false true false false "i1" "".
Definition demo_link_i2 : updateTargetRequest :=
  mkUpdateTarget "core" "core.example" 22 "ssh" "" None (Some "i2"%string) None "root" None None None None None None.
Lemma relink_keeps_old_password_witness :
  exists s, applyStoredCredentials (H := toy_crypto) demo_key "i2" "" (update_secrets demo_core demo_link_i2) (only_if_empty "i2" "" demo_link_i2) demo_lib = (demo_lib, Ok s) /\
    x_password s = "old"%string.
Proof.
  assert (E1 : identity_GetDecrypted (H := toy_crypto) demo_key "i2" demo_lib = (demo_lib, Ok (mkIdentity "i2" "i2" "root" "new" "" None))) by (vm_compute; reflexivity).
  assert (E2 : exists s, applyStoredCredentials (H := toy_crypto) demo_key "i2" "" (update_secrets demo_core demo_link_i2) (only_if_empty "i2" "" demo_link_i2) demo_lib = (demo_lib, Ok s))
    by (eexists; vm_compute; reflexivity).
  destruct E2 as [s E2]. exists s. split; [exact E2|].
  apply (proj1 (relink_keeps_old_password (H := toy_crypto) demo_key demo_core demo_link_i2 "i2" _ demo_lib demo_lib s ltac:(vm_compute; reflexivity) ltac:(done) E1 ltac:(done) E2));
    [split_and!; reflexivity|vm_compute; reflexivity].
Defined.
