(* ===== verification/TargetsBulk.v ===== *)
(** Bulk management of targets (src/internal/httpapi/targets_bulk.go): the export
    of the inventory as CSV or JSON, the import of either with its dry run, and the
    reachability check.

    The text of an error is kept as the value it is made from. Decoding JSON and
    dialling are arguments, the loop over identifiers is that of
    TargetHandlers.v. *)
From S2P Require Import Prelude GoText Csv Sqlite Http AuthAdmin AccessValidate AccessDB AccessGroups AccessTargets AccessRequests Secret Tftp TftpControl Credentials TargetHandlers.
From stdpp Require Import pretty.
Local Open Scope Z_scope.

Definition targetImportMaxRows : Z := 2000.
Definition targetImportMaxBytes : Z := Z.shiftl 16 20.

(** [sort.Slice] leaves the order of equal elements open. *)
Class SortSlice := {
  sort_slice {A} : (A -> A -> bool) -> list A -> list A;
  sort_slice_perm {A} (less : A -> A -> bool) l : sort_slice less l ≡ₚ l
}.

(** ** Export *)
Record targetExportRow := mkExportRow {
  er_ID : string; er_Name : string; er_Host : string; er_Port : Z; er_Protocol : string; er_GroupID : string; er_Path : string; er_Tags : list string;
  er_SSHUsername : string; er_SFTPEnabled : bool; er_FTPEnabled : bool; er_TFTPEnabled : bool; er_Fingerprint : string;
  er_CredentialIdentityID : string; er_SSHKeyID : string; er_HasStoredCredentials : bool
}.
Definition targetCSVHeader : list string :=
  ["name"; "host"; "port"; "protocol"; "group_id"; "path"; "tags"; "ssh_username"; "ssh_password"; "sftp_enabled"; "ftp_enabled"; "tftp_enabled";
   "ssh_host_key_fingerprint"; "credential_identity_id"; "ssh_key_id"]%string.
(** The first characters a spreadsheet takes for a formula: [= + - @], tab and
    carriage return. *)
Definition formula_start (c : Z) : bool := bool_decide (c ∈ bs "=+-@") || (c =? 9) || (c =? CR).
Definition apostrophe : Z := 39.
Definition csvSafe (s : list Z) : list Z :=
  match s with c :: _ => if formula_start c then apostrophe :: s else s | [] => s end.
Definition csvUnsafe (s : list Z) : list Z :=
  match s with a :: c :: _ => if (a =? apostrophe) && formula_start c then tail s else s | _ => s end.
Definition FormatBool (b : bool) : list Z := if b then bs "true" else bs "false".
Definition blank_byte : Z := 32.
Definition export_record (t : targetExportRow) : record :=
  [csvSafe (bs (er_Name t)); csvSafe (bs (er_Host t)); bs (pretty (er_Port t)); bs (er_Protocol t); csvSafe (bs (er_GroupID t)); csvSafe (bs (er_Path t));
   csvSafe (join_byte (bs <$> er_Tags t) blank_byte); csvSafe (bs (er_SSHUsername t)); []; FormatBool (er_SFTPEnabled t); FormatBool (er_FTPEnabled t);
   FormatBool (er_TFTPEnabled t); csvSafe (bs (er_Fingerprint t)); csvSafe (bs (er_CredentialIdentityID t)); csvSafe (bs (er_SSHKeyID t))].
Definition export_csv (rows : list targetExportRow) : list Z := WriteAll ((bs <$> targetCSVHeader) :: (export_record <$> rows)).
Definition export_less (a b : targetExportRow) : bool :=
  if negb (bool_decide (er_GroupID a = er_GroupID b)) then string_lt (er_GroupID a) (er_GroupID b) else string_lt (er_Name a) (er_Name b).

(** ** Import files *)
Record targetImportRow := mkImportRow {
  im_Name : string; im_Host : string; im_Port : Z; im_Protocol : string; im_GroupID : string; im_Path : string; im_Tags : list string;
  im_SSHUsername : string; im_SSHPassword : string; im_SFTPEnabled : option bool; im_FTPEnabled : option bool; im_TFTPEnabled : option bool;
  im_Fingerprint : string; im_CredentialIdentityID : string; im_SSHKeyID : string
}.
Inductive parse_err := ParseCSV (e : csv_err) | EmptyFile | HeaderMissing | InvalidPort (row : string) (p : list Z) | InvalidBool (row : string) (s : list Z) | ParseJSON.

(** [strings.FieldsFunc] with ASCII separators. *)
Fixpoint split_func (sep : Z -> bool) (l : list Z) : list (list Z) :=
  match l with
  | [] => [[]]
  | c :: l => if sep c then [] :: split_func sep l
              else match split_func sep l with w :: ws => (c :: w) :: ws | [] => [[c]] end
  end.
Definition FieldsFunc (sep : Z -> bool) (l : list Z) : list (list Z) := filter (fun w => w <> []) (split_func sep l).
Definition tag_sep (c : Z) : bool := bool_decide (c ∈ bs " ;|").

Section parse.
Context `{UnicodeTables}.
(** The outer option is the error. *)
Definition parseBoolField (s : list Z) : option (option bool) :=
  let s := ToLower (TrimSpace s) in
  if bool_decide (s = []) then Some None
  else if bool_decide (s ∈ [bs "1"; bs "true"; bs "yes"; bs "on"]) then Some (Some true)
  else if bool_decide (s ∈ [bs "0"; bs "false"; bs "no"; bs "off"]) then Some (Some false)
  else None.
Definition byte_order_mark : list Z := [0xEF; 0xBB; 0xBF].
Definition TrimPrefix (l p : list Z) : list Z := if has_prefix l p then drop (length p) l else l.
(** The columns by name; a repeated name stands for its last column. *)
Fixpoint header_index (i : nat) (hs : record) (idx : gmap string nat) : gmap string nat :=
  match hs with
  | [] => idx
  | h :: hs => header_index (S i) hs (<[str_of (ToLower (TrimSpace (TrimPrefix h byte_order_mark))) := i]> idx)
  end.
Definition get_column (idx : gmap string nat) (rec : record) (col : string) : list Z :=
  match idx !! col with
  | Some i => match rec !! i with Some v => csvUnsafe (TrimSpace v) | None => [] end
  | None => []
  end.
Definition parse_bool_column (name : string) (v : list Z) : result parse_err (option bool) :=
  match parseBoolField v with Some b => Ok b | None => Err (InvalidBool name v) end.
Definition parse_port (name : string) (p : list Z) : result parse_err Z :=
  if bool_decide (p = []) then Ok 0
  else match Atoi p with
       | Some n => if (n <? 0) || (65535 <? n) then Err (InvalidPort name p) else Ok n
       | None => Err (InvalidPort name p)
       end.
Definition parse_row (idx : gmap string nat) (rec : record) : result parse_err targetImportRow :=
  let get := get_column idx rec in
  let name := str_of (get "name"%string) in
  let? port := parse_port name (get "port"%string) in
  let tags := str_of <$> FieldsFunc tag_sep (get "tags"%string) in
  let? sftp := parse_bool_column name (get "sftp_enabled"%string) in
  let? ftp := parse_bool_column name (get "ftp_enabled"%string) in
  let? tftp := parse_bool_column name (get "tftp_enabled"%string) in
  Ok (mkImportRow name (str_of (get "host"%string)) port (str_of (get "protocol"%string)) (str_of (get "group_id"%string)) (str_of (get "path"%string)) tags
        (str_of (get "ssh_username"%string)) (str_of (get "ssh_password"%string)) sftp ftp tftp
        (str_of (get "ssh_host_key_fingerprint"%string)) (str_of (get "credential_identity_id"%string)) (str_of (get "ssh_key_id"%string))).
Definition blank_record (rec : record) : bool :=
  match rec with [] => true | [f] => bool_decide (TrimSpace f = []) | _ => false end.
Fixpoint parse_rows (idx : gmap string nat) (recs : list record) : result parse_err (list targetImportRow) :=
  match recs with
  | [] => Ok []
  | rec :: recs =>
      if blank_record rec then parse_rows idx recs
      else
        let? row := parse_row idx rec in
        let? rows := parse_rows idx recs in
        Ok (row :: rows)
  end.
Definition parseTargetCSV (data : list Z) : result parse_err (list targetImportRow) :=
  match ReadAll data with
  | Err e => Err (ParseCSV e)
  | Ok [] => Err EmptyFile
  | Ok (hs :: recs) =>
      let idx := header_index 0 hs ∅ in
      match idx !! "name"%string with
      | None => Err HeaderMissing
      | Some _ => parse_rows idx recs
      end
  end.
End parse.

(** ** Import *)
(** The errors of one row: the target exists already, a text of the import, an
    error of a store with the text it is wrapped in. *)
Inductive import_err := errTargetImportExists (id : string) | ImportText (s : string) | ImportStore (context : string) (e : access_err).
#[export] Instance import_db_error : DBError import_err := fun msg => ImportStore "" (db_error msg).
Abbreviation ImportM := (DB tgt_world import_err).
(** What the import of a row gives; the loop over identifiers may be running
    still. *)
Inductive import_done := Valid | Imported (id : string) | ImportTrying.

Definition defaultPortFor (p : Protocol) : Z :=
  if bool_decide (p = ProtocolTelnet) then 23
  else if bool_decide (p = ProtocolRDP) then 3389
  else if bool_decide (p = ProtocolVNC) then 5900
  else if bool_decide (p = ProtocolFTP) then 21
  else if bool_decide (p = ProtocolTFTP) then 69
  else 22.
Fixpoint dedupe (seen : gset string) (l : list string) : list string :=
  match l with
  | [] => []
  | s :: l =>
      let s := TrimSpace_s s in
      if bool_decide (s = ""%string \/ s ∈ seen) then dedupe seen l else s :: dedupe ({[s]} ∪ seen) l
  end.
Definition dedupeStrings (l : list string) : list string := dedupe ∅ l.

Section import.
Context `{Crypto} `{UnicodeTables} `{SetScan} `{SortSlice} (encKey : list Z) (strict : bool) (ParseIP : list Z -> option (list Z)) (allowRestricted : bool)
  (dflt : Z).
Definition all_of (n : Z) : option ListOpts := Some (mkListOpts n 0 "").

Fixpoint export_rows (ts : list Target) : TargetM (list targetExportRow) :=
  match ts with
  | [] => db_ret []
  | t :: ts =>
      let* gids := ignore (on_store (GroupIDsForTarget (t_ID t))) in
      let groupID := match gids with Some (g :: _) => g | _ => ""%string end in
      let* tags := ignore (on_store (TagsForTarget (t_ID t))) in
      let* rest := export_rows ts in
      db_ret (mkExportRow (t_ID t) (t_Name t) (t_Host t) (t_Port t) (t_Protocol t) groupID (t_Path t) (default [] tags) (t_SSHUsername t)
                (t_SFTPEnabled t) (t_FTPEnabled t) (t_TFTPEnabled t) (t_SSHHostKeyFingerprint t) (t_CredentialIdentityID t) (t_SSHKeyID t)
                (negb (is_empty (t_SSHUsername t))) :: rest)
  end.
Definition exportTargets : TargetM (list targetExportRow) :=
  let* ids := call (on_store (AllIDs dflt (all_of 10000))) (fun _ => internal) in
  let* targets := call (on_store (ListByIDs encKey strict dflt ids (all_of 10000))) (fun _ => internal) in
  let* out := export_rows targets in
  db_ret (sort_slice export_less out).
Inductive export_body := ExportJSON (rows : list targetExportRow) | ExportCSV (data : list Z).
Definition handleExportTargets (e : request_env) (format : string) : TargetM export_body :=
  let* _ := db_of (requireAdmin e) in
  let* rows := exportTargets in
  db_ret (if EqualFold_s format "json" then ExportJSON rows else ExportCSV (export_csv rows)).

(** The target of the group that has the host, port and protocol of the row, when
    the lookups answer. *)
Definition same_target (host : string) (port : Z) (protocol : Protocol) (t : Target) : bool :=
  EqualFold_s (t_Host t) host && (t_Port t =? port) && bool_decide (t_Protocol t = protocol).
Definition find_duplicate (groupID host : string) (port : Z) (protocol : Protocol) : ImportM (option Target) :=
  let* existing := ignore (on_store (TargetIDsForGroup groupID (all_of 10000) dflt)) in
  match existing with
  | None => db_ret None
  | Some ids =>
      let* ts := ignore (on_store (ListByIDs encKey strict dflt ids (all_of 10000))) in
      db_ret (match ts with Some ts => snd <$> list_find (same_target host port protocol) ts | None => None end)
  end.
(** What follows the loop is one unit: when a step of it fails the target is
    removed again. *)
Definition finish (row : targetImportRow) (groupID id : string) : ImportM unit :=
  let* _ := call (on_store (AddTargetToGroup groupID id)) (ImportStore "") in
  let* _ := if negb (is_empty (im_CredentialIdentityID row)) || negb (is_empty (im_SSHKeyID row))
            then call (on_store (SetCredentialSource id (TrimSpace_s (im_CredentialIdentityID row)) (TrimSpace_s (im_SSHKeyID row)))) (ImportStore "credential source")
            else db_ret tt in
  let* gt := ignore (on_store (TagsForGroup groupID)) in
  let tags := im_Tags row ++ default [] gt in
  let* _ := match tags with
            | [] => db_ret tt
            | _ => call (on_store (SetTargetTags id (dedupeStrings tags))) (ImportStore "tags")
            end in
  let fp := TrimSpace_s (im_Fingerprint row) in
  if negb (is_empty fp) then call (on_store (SetSSHHostKeyFingerprint id fp)) (ImportStore "host key fingerprint") else db_ret tt.
Definition finish_or_delete (row : targetImportRow) (groupID id : string) : ImportM import_done :=
  let* r := db_catch (finish row groupID id) in
  match r with
  | Ok _ => db_ret (Imported id)
  | Err err => let* _ := ignore (on_store (target_Delete id)) in db_throw err
  end.
Definition createTargetFromImport (row : targetImportRow) (dryRun : bool) (fuel : nat) (rs : nat -> nonces) : ImportM import_done :=
  let name := TrimSpace_s (im_Name row) in
  let host := TrimSpace_s (im_Host row) in
  let groupID := TrimSpace_s (im_GroupID row) in
  if is_empty name || is_empty host then db_throw (ImportText "name and host are required") else
  if is_empty groupID then db_throw (ImportText "group_id is required") else
  let* _ := call (on_store (Get groupID)) (fun _ => ImportText "group not found") in
  match parseProtocolField (im_Protocol row) with
  | None => db_throw (ImportText "invalid protocol")
  | Some protocol =>
      let port := if im_Port row =? 0 then defaultPortFor protocol else im_Port row in
      let* s := call (on_cred (applyStoredCredentials encKey (TrimSpace_s (im_CredentialIdentityID row)) (TrimSpace_s (im_SSHKeyID row))
                  (mkSecrets (TrimSpace_s (im_SSHUsername row)) (im_SSHPassword row) "" "") true)) (ImportStore "") in
      let* dup := find_duplicate groupID host port protocol in
      match dup with
      | Some t => db_throw (errTargetImportExists (t_ID t))
      | None =>
          if dryRun then db_ret Valid else
          let path := TrimSpace_s (im_Path row) in
          let input := mkTargetInput name host port protocol (if is_empty path then groupID else path)
            (x_username s) (x_password s) (x_key s) (x_pass s)
            (default (bool_decide (protocol = ProtocolSSH)) (im_SFTPEnabled row)) (default false (im_FTPEnabled row)) (default false (im_TFTPEnabled row)) in
          let* id := create_loop encKey ParseIP allowRestricted (ImportStore "") fuel 0 (slugID name) input groupID rs in
          match id with
          | None => db_ret ImportTrying
          | Some id => finish_or_delete row groupID id
          end
      end
  end.

(** ** The import request *)
Inductive import_status := StatusCreated | StatusSkipped | StatusError | StatusValid.
Record targetImportResult := mkImportResult {
  ti_Row : Z; ti_Name : string; ti_Status : import_status; ti_ID : string; ti_Error : option import_err
}.
(** The upload: one that cannot be read, a file with its name and its dry-run
    field, or a decoded JSON body. *)
Inductive upload := BadUpload | FileUpload (dry_run filename : string) (data : list Z) | JSONUpload (rows : list targetImportRow) (dry_run : bool).
Context (unmarshal_rows unmarshal_wrapper : list Z -> option (list targetImportRow)).
Definition parseTargetJSON (data : list Z) : result parse_err (list targetImportRow) :=
  match (if has_prefix data (bs "[") then unmarshal_rows data else unmarshal_wrapper data) with
  | Some rows => Ok rows
  | None => Err ParseJSON
  end.
Definition read_upload (u : upload) : result http_err (list targetImportRow * bool) :=
  match u with
  | BadUpload => Err (Http 400 "common.invalidRequestBody")
  | JSONUpload rows dry => Ok (rows, dry)
  | FileUpload dry_run filename data =>
      let dry := bool_decide (dry_run = "1"%string) || EqualFold_s dry_run "true" in
      let data := take (Z.to_nat targetImportMaxBytes) data in
      let trimmed := TrimSpace data in
      match (if has_suffix (ToLower (bs filename)) (bs ".json") || has_prefix trimmed (bs "{") || has_prefix trimmed (bs "[")
             then parseTargetJSON trimmed else parseTargetCSV data) with
      | Ok rows => Ok (rows, dry)
      | Err _ => Err (Http 400 "import file")
      end
  end.
Definition row_result (n : Z) (row : targetImportRow) (r : result import_err import_done) : option targetImportResult :=
  match r with
  | Err (errTargetImportExists id as err) => Some (mkImportResult n (im_Name row) StatusSkipped id (Some err))
  | Err err => Some (mkImportResult n (im_Name row) StatusError "" (Some err))
  | Ok Valid => Some (mkImportResult n (im_Name row) StatusValid "" None)
  | Ok (Imported id) => Some (mkImportResult n (im_Name row) StatusCreated id None)
  | Ok ImportTrying => None
  end.
(** The loop over the rows; [None] when a row is still being created. *)
Fixpoint import_rows (n : Z) (rows : list targetImportRow) (dryRun : bool) (fuel : nat) (rs : Z -> nat -> nonces) : TargetM (option (list targetImportResult)) :=
  match rows with
  | [] => db_ret (Some [])
  | row :: rows =>
      let* r := db_try (createTargetFromImport row dryRun fuel (rs n)) in
      match row_result n row r with
      | None => db_ret None
      | Some res =>
          let* rest := import_rows (n + 1) rows dryRun fuel rs in
          db_ret (cons res <$> rest)
      end
  end.
Definition handleImportTargets (e : request_env) (u : upload) (fuel : nat) (rs : Z -> nat -> nonces) : TargetM (option (list targetImportResult)) :=
  let* _ := db_of (requireAdmin e) in
  let* (rows, dryRun) := db_of (read_upload u) in
  if bool_decide (rows = []) then db_throw (Http 400 "targets.importEmpty") else
  if targetImportMaxRows <? Z.of_nat (length rows) then db_throw (Http 400 "targets.importTooMany") else
  import_rows 1 rows dryRun fuel rs.

(** ** Reachability *)
Record targetCheckResult := mkCheckResult { tc_ID : string; tc_Host : string; tc_Port : Z; tc_Reachable : bool; tc_Skipped : bool }.
(** The dials run concurrently, each writes its own element of the result. *)
Context (dial : string -> Z -> bool).
Definition checkTargets (ts : list Target) : list targetCheckResult :=
  (fun t => mkCheckResult (t_ID t) (t_Host t) (t_Port t) (dial (t_Host t) (t_Port t)) false) <$> ts.
Definition handleCheckTargets (e : request_env) (body : option (option (list string))) : TargetM (list targetCheckResult) :=
  let* _ := db_of (requireAdmin e) in
  let* req := match body with None => db_ret [] | Some b => body_of b end in
  let* ids := match req with
              | [] => call (on_store (AllIDs dflt (all_of 500))) (fun _ => internal)
              | _ => db_ret (TrimSpace_s <$> take 500 req)
              end in
  let* ts := call (on_store (ListByIDs encKey strict dflt ids (all_of 500))) (fun _ => internal) in
  let probeable := filter (fun t => t_Protocol t <> ProtocolTFTP) ts in
  let skipped := (fun t => mkCheckResult (t_ID t) (t_Host t) (t_Port t) false true) <$> filter (fun t => t_Protocol t = ProtocolTFTP) ts in
  db_ret (checkTargets probeable ++ skipped).
End import.

(** ** Texts that survive a round trip *)
Lemma digit_graphic b : ascii_digit b = true -> graphic b /\ b <> CR /\ b <> apostrophe /\ b <> 43 /\ b <> 45.
Proof. unfold ascii_digit, in_range, graphic, CR, apostrophe. intros [H1%Z.leb_le H2%Z.leb_le]%andb_true_iff. lia. Qed.
(** A field the import gives back: trimmed, without a carriage return before a
    line feed, and not an apostrophe before a character of formulas. *)
Definition plain_field (f : list Z) : Prop := TrimSpace f = f /\ no_crlf f = true /\ csvUnsafe f = f.
#[export] Instance plain_field_dec f : Decision (plain_field f).
Proof. unfold plain_field. apply _. Defined.

Lemma csvUnsafe_csvSafe f : csvUnsafe f = f -> csvUnsafe (csvSafe f) = f.
Proof. destruct f as [|c f]; [done|]. unfold csvSafe. destruct (formula_start c) eqn:E; [|done]. intros _. simpl. by rewrite E. Qed.
Lemma no_crlf_csvSafe f : no_crlf f = true -> no_crlf (csvSafe f) = true.
Proof. destruct f as [|c f]; [done|]. unfold csvSafe. destruct (formula_start c); [|done]. intros Hf. rewrite no_crlf_cons. exact Hf. Qed.
(** Looking for the last rune does not reach past a byte that begins one. *)
Lemma back_up_cons a c f n : rune_start c = true -> forall i, (0 < i <= length f)%nat ->
  let e := S (length f) in back_up n (S i) (S e - 4) (a :: c :: f) = S (back_up n i (e - 4) (c :: f)).
Proof.
  intros Hc i Hi e. revert i Hi. induction n as [|n IH]; intros [|i] Hi; [lia|done|lia|]. cbn [back_up].
  change ((a :: c :: f) !! S i) with ((c :: f) !! i).
  destruct (decide (i < e - 4)%nat), (decide (S i < S e - 4)%nat); [done|lia|lia|].
  destruct (lookup_lt_is_Some_2 (c :: f) i) as [b Hb]; [simpl; lia|]. rewrite Hb. destruct (rune_start b) eqn:Es; [done|].
  apply IH. destruct i; [|lia]. injection Hb as ->. congruence.
Qed.
Lemma decode_last_cons a c f : rune_start c = true -> c < 0x80 -> decode_last_rune (a :: c :: f) = decode_last_rune (c :: f).
Proof.
  intros Hc Hlt. unfold decode_last_rune. rewrite last_cons_cons. destruct (last (c :: f)) as [b|] eqn:El; [|done].
  destruct (Z.ltb_spec b 0x80) as [|Hb]; [done|]. assert (Hf : (0 < length f)%nat).
  { destruct f; simpl in *; [|lia]. injection El as ->. lia. }
  cbn [length]. replace (S (S (length f)) - 1)%nat with (S (length f)) by lia. replace (S (length f) - 1)%nat with (length f) by lia.
  rewrite (back_up_cons a c f 4 Hc (length f)) by lia. simpl drop. destruct (decode_rune (drop _ (c :: f))) as [r w].
  case_decide; case_decide; (done || lia).
Qed.
Lemma formula_ascii c : formula_start c = true -> rune_start c = true /\ c < 0x80.
Proof.
  unfold formula_start. rewrite !orb_true_iff, bool_decide_eq_true, !Z.eqb_eq. unfold CR.
  intros [[Hc| ->]| ->]; [|by split..]. repeat (apply elem_of_cons in Hc as [->|Hc]; [by split|]). by apply elem_of_nil in Hc.
Qed.
Lemma TrimSpace_csvSafe f : TrimSpace f = f -> TrimSpace (csvSafe f) = csvSafe f.
Proof.
  intros Hf. destruct f as [|c f]; [done|]. unfold csvSafe. destruct (formula_start c) eqn:Ef; [|done].
  apply formula_ascii in Ef as [Hs Hc]. unfold TrimSpace. rewrite (trim_left_stop (length (apostrophe :: c :: f))); [|right; by vm_compute].
  apply trim_right_stop. right. rewrite decode_last_cons by done.
  unfold TrimSpace in Hf. destruct (trim_right_last (length (trim_left_fuel (length (c :: f)) IsSpace (c :: f))) IsSpace _ (le_n _)) as [_ Hl].
  rewrite Hf in Hl. by destruct Hl.
Qed.
Lemma plain_csvSafe f : plain_field f -> csvUnsafe (TrimSpace (csvSafe f)) = f /\ no_crlf (csvSafe f) = true.
Proof.
  intros (Ht & Hn & Hu). rewrite TrimSpace_csvSafe by done. split; [by apply csvUnsafe_csvSafe|by apply no_crlf_csvSafe].
Qed.
Lemma no_crlf_without l : CR ∉ l -> no_crlf l = true.
Proof.
  induction l as [|c l IH]; [done|]. intros [Hc Hl]%not_elem_of_cons. rewrite no_crlf_cons, IH, andb_true_r by done.
  destruct (Z.eqb_spec c CR); [congruence|done].
Qed.
Lemma plain_number n : 0 <= n -> plain_field (bs (pretty n)).
Proof.
  intros Hn. destruct (pretty_number n Hn) as (Hne & Hd & _). rewrite Forall_forall in Hd. split_and!.
  - apply TrimSpace_edges, edges_graphic; [|done]. apply Forall_forall. intros b Hb. by apply digit_graphic, Hd.
  - apply no_crlf_without. intros Hb. by destruct (digit_graphic _ (Hd _ Hb)) as (_ & ? & _).
  - destruct (bs (pretty n)) as [|b [|b' l]]; [done..|]. simpl. destruct (Z.eqb_spec b apostrophe) as [->|]; [|done].
    exfalso. by destruct (digit_graphic _ (Hd _ (list_elem_of_here _ _))) as (_ & _ & ? & _).
Qed.

(** ** What is exported is imported *)
Definition join_tags (tags : list string) : list Z := join_byte (bs <$> tags) blank_byte.
(** The rows an export gives back: their texts are plain, the port is one, the
    tags are not empty and hold no separator. *)
Definition exportable (t : targetExportRow) : Prop :=
  Forall plain_field (bs <$> [er_Name t; er_Host t; er_Protocol t; er_GroupID t; er_Path t; er_SSHUsername t; er_Fingerprint t;
                              er_CredentialIdentityID t; er_SSHKeyID t]) /\
  0 <= er_Port t <= 65535 /\ plain_field (join_tags (er_Tags t)) /\
  Forall (fun tag => bs tag <> [] /\ Forall (fun c => tag_sep c = false) (bs tag)) (er_Tags t).
#[export] Instance exportable_dec t : Decision (exportable t).
Proof. unfold exportable. apply _. Defined.
(** What the import should make of a row; the export holds no secrets. *)
Definition imported (t : targetExportRow) : targetImportRow :=
  mkImportRow (er_Name t) (er_Host t) (er_Port t) (er_Protocol t) (er_GroupID t) (er_Path t) (er_Tags t) (er_SSHUsername t) ""
    (Some (er_SFTPEnabled t)) (Some (er_FTPEnabled t)) (Some (er_TFTPEnabled t)) (er_Fingerprint t) (er_CredentialIdentityID t) (er_SSHKeyID t).

Lemma split_func_none sep w : Forall (fun c => sep c = false) w -> split_func sep w = [w].
Proof. induction 1 as [|c w Hc _ IH]; simpl; [done|]. by rewrite Hc, IH. Qed.
Lemma split_func_app sep w c l : Forall (fun c => sep c = false) w -> sep c = true -> split_func sep (w ++ c :: l) = w :: split_func sep l.
Proof. intros Hw Hc. induction Hw as [|b w Hb _ IH]; simpl; [by rewrite Hc|]. by rewrite Hb, IH. Qed.
Lemma FieldsFunc_join ws : Forall (fun w => w <> [] /\ Forall (fun c => tag_sep c = false) w) ws -> FieldsFunc tag_sep (join_byte ws blank_byte) = ws.
Proof.
  intros Hws. unfold FieldsFunc. destruct ws as [|w ws]; [done|]. revert w Hws. induction ws as [|v ws IH]; intros w Hws.
  - apply Forall_singleton in Hws as [Hne Hw]. simpl. rewrite app_nil_r, split_func_none by done. by rewrite filter_cons_True.
  - apply Forall_cons in Hws as [[Hne Hw] Hws]. rewrite join_byte_cons, split_func_app by done. rewrite filter_cons_True by done. by rewrite IH.
Qed.

Section roundtrip.
Context `{UnicodeTables}.
Definition csv_index : gmap string nat := header_index 0 (bs <$> targetCSVHeader) ∅.
Lemma column t col i v : csv_index !! col = Some i -> export_record t !! i = Some v ->
  get_column csv_index (export_record t) col = csvUnsafe (TrimSpace v).
Proof. intros Hi Hv. unfold get_column. by rewrite Hi, Hv. Qed.
Lemma parse_bool_FormatBool name b : parse_bool_column name (csvUnsafe (TrimSpace (FormatBool b))) = Ok (Some b).
Proof. by destruct b. Qed.
Lemma plain_fields t : exportable t -> Forall (fun f => no_crlf f = true) (export_record t).
Proof.
  intros (Hf & Hp & Hj & _). repeat (apply Forall_cons in Hf as [? Hf]). pose proof (plain_number (er_Port t) ltac:(lia)) as (_ & ? & _).
  unfold export_record. repeat constructor; try (apply plain_csvSafe; assumption); try done; [by destruct H2 as (_ & ? & _)|..];
    by match goal with |- context [FormatBool ?b] => destruct b end.
Qed.
Lemma parse_export t : exportable t -> parse_row csv_index (export_record t) = Ok (imported t).
Proof.
  intros (Hf & Hp & Hj & Ht). repeat (apply Forall_cons in Hf as [? Hf]).
  destruct (plain_number (er_Port t) ltac:(lia)) as (Hp1 & _ & Hp2).
  assert (Hpt : csvUnsafe (TrimSpace (bs (er_Protocol t))) = bs (er_Protocol t)) by (destruct H2 as (E1 & _ & E2); by rewrite E1).
  unfold parse_row.
  rewrite (column t "name" _ _ eq_refl eq_refl), (column t "host" _ _ eq_refl eq_refl), (column t "port" _ _ eq_refl eq_refl),
    (column t "protocol" _ _ eq_refl eq_refl), (column t "group_id" _ _ eq_refl eq_refl), (column t "path" _ _ eq_refl eq_refl),
    (column t "tags" _ _ eq_refl eq_refl), (column t "ssh_username" _ _ eq_refl eq_refl), (column t "ssh_password" _ _ eq_refl eq_refl),
    (column t "sftp_enabled" _ _ eq_refl eq_refl), (column t "ftp_enabled" _ _ eq_refl eq_refl), (column t "tftp_enabled" _ _ eq_refl eq_refl),
    (column t "ssh_host_key_fingerprint" _ _ eq_refl eq_refl), (column t "credential_identity_id" _ _ eq_refl eq_refl),
    (column t "ssh_key_id" _ _ eq_refl eq_refl).
  rewrite !parse_bool_FormatBool, Hpt, !(fun f Hf => proj1 (plain_csvSafe f Hf)) by assumption. rewrite !str_of_bs.
  rewrite Hp1, Hp2. unfold parse_port. rewrite bool_decide_eq_false_2 by apply (pretty_number _ (proj1 Hp)).
  rewrite Atoi_pretty by (unfold maxInt64; lia). replace ((er_Port t <? 0) || (65535 <? er_Port t)) with false by lia.
  rewrite FieldsFunc_join by by apply Forall_fmap.
  rewrite <- list_fmap_compose. unfold imported. do 2 f_equal.
  rewrite <- (list_fmap_id (er_Tags t)) at 2. apply list_fmap_ext. intros ? ? _. apply str_of_bs.
Qed.
Lemma parse_exports ts : Forall exportable ts -> parse_rows csv_index (export_record <$> ts) = Ok (imported <$> ts).
Proof.
  induction 1 as [|t ts Ht _ IH]; [done|]. rewrite !fmap_cons. cbn [parse_rows]. rewrite parse_export, IH by done. done.
Qed.

(** C39. A CSV export is imported without change: the CSV parser of the import gives
    back every exported target with all fields but the secrets, for texts that are
    trimmed, hold no line break of two characters, and do not begin with an
    apostrophe before a character of formulas. *)
Theorem export_import_roundtrip ts : Forall exportable ts -> parseTargetCSV (export_csv ts) = Ok (imported <$> ts).
Proof.
  intros Hts. unfold parseTargetCSV, export_csv. rewrite ReadAll_WriteAll.
  - change (header_index 0 (bs <$> targetCSVHeader) ∅) with csv_index. change (csv_index !! "name"%string) with (Some 0%nat). cbv iota beta.
    by apply parse_exports.
  - constructor; [split_and!; [done|done|repeat constructor]|]. apply Forall_fmap. eapply Forall_impl; [exact Hts|]. intros t Ht.
    split_and!; [done|done|]. by apply plain_fields.
Qed.
End roundtrip.
(** The apostrophe that protects a cell is taken off again, also where the target's
    own name begins so. *)
Example apostrophe_lost :
  let t := mkExportRow "x" "'=x" "h.example" 22 "ssh" "lab" "lab" [] "" true false false "" "" "" false in
  validateName (er_Name t) = Ok tt /\
  exists r, parseTargetCSV (H := ascii_tables) (export_csv [t]) = Ok [r] /\ im_Name r = "=x"%string.
Proof. split; [vm_compute; reflexivity|]. eexists. split; [vm_compute; reflexivity|]. reflexivity. Qed.

(** ** Operations on the world *)
Lemma put_access_same (w : tgt_world) : mkTgtWorld (put_access (ct_access (w_cred w)) (w_cred w)) (w_ctl w) = w.
Proof. by destruct w as [[? ? ?] ?]. Qed.
Lemma on_store_hoare {E A} (P : tgt_world -> Prop) (m : DB access_tables E A) Q :
  (forall w, P w -> hoare (eq (ct_access (w_cred w))) m (fun a r => Q (mkTgtWorld (put_access a (w_cred w)) (w_ctl w)) r)) ->
  hoare P (on_store m) Q.
Proof.
  intros Hm c Hc. rewrite on_store_run. specialize (Hm _ Hc (mkConn (configured c) (ct_access (w_cred (tables c))) (faults c)) eq_refl).
  by destruct (m _) as [c' r].
Qed.
Lemma on_store_reads {E A} P (m : DB access_tables E A) : (forall P, preserves P m) -> preserves P (on_store m).
Proof.
  intros Hm. apply on_store_hoare. intros w HP. eapply hoare_conseq; [apply (Hm (eq (ct_access (w_cred w))))|by intros ? <-|].
  intros a r <-. by rewrite put_access_same.
Qed.
Lemma on_cred_reads {E A} P (m : DB cred_tables E A) : (forall P, preserves P m) -> preserves P (on_cred m).
Proof.
  intros Hm c Hc. unfold on_cred, db_zoom.
  pose proof (Hm (eq (w_cred (tables c))) (mkConn (configured c) (w_cred (tables c)) (faults c)) eq_refl) as Ht.
  destruct (m _) as [c' r]. simpl in *. rewrite <- Ht. by destruct (tables c).
Qed.
Lemma preserves_steady_call {T E E' A} (m : DB T E A) (h : E -> E') : steady m -> steady (call m h).
Proof. intros Hm. unfold call. steady_steps. done. Qed.
Lemma steady_ignore {T E E' A} (m : DB T E A) : steady m -> steady (ignore (E' := E') m).
Proof. intros Hm. unfold ignore. steady_steps. done. Qed.
Lemma steady_on_store {E A} (m : DB access_tables E A) : steady m -> steady (on_store m).
Proof. intros Hm. unfold on_store, on_cred. by repeat apply steady_zoom. Qed.

Section import_props.
Context `{Crypto} `{UnicodeTables} `{SetScan} (encKey : list Z) (strict : bool) (ParseIP : list Z -> option (list Z)) (allowRestricted : bool) (dflt : Z).
Abbreviation import := (createTargetFromImport encKey strict ParseIP allowRestricted dflt).

Lemma load_chunks_reads fuel ids m P : preserves P (load_chunks encKey strict fuel ids m).
Proof. revert ids m. induction fuel as [|fuel IH]; intros [|i ids] m; [apply preserves_ret..|]. simpl. preserve. apply IH. Qed.
Lemma load_chunks_steady fuel ids m : steady (load_chunks encKey strict fuel ids m).
Proof. revert ids m. induction fuel as [|fuel IH]; intros [|i ids] m; [apply steady_ret..|]. simpl. steady_steps. apply IH. Qed.
Lemma ListByIDs_reads ids opts P : preserves P (ListByIDs encKey strict dflt ids opts).
Proof. unfold ListByIDs. destruct (listLimit opts dflt). preserve. apply load_chunks_reads. Qed.
Lemma ListByIDs_steady ids opts : steady (ListByIDs encKey strict dflt ids opts).
Proof. unfold ListByIDs. destruct (listLimit opts dflt). steady_steps. apply load_chunks_steady. Qed.
Lemma apply_reads cid kid s b P : preserves P (applyStoredCredentials encKey cid kid s b).
Proof. unfold applyStoredCredentials. cbv zeta. preserve; [apply identity_get_reads|apply key_get_reads]. Qed.
Lemma apply_steady cid kid s b : steady (applyStoredCredentials encKey cid kid s b).
Proof.
  unfold applyStoredCredentials. cbv zeta. steady_steps; unfold identity_GetDecrypted, key_GetDecrypted; steady_steps.
Qed.
Lemma find_duplicate_reads g host port protocol P : preserves P (find_duplicate encKey strict dflt g host port protocol).
Proof.
  unfold find_duplicate. apply preserves_bind; [apply preserves_ignore, on_store_reads; intros; unfold TargetIDsForGroup; preserve|].
  intros [ids|]; [|apply preserves_ret]. apply preserves_bind; [apply preserves_ignore, on_store_reads, ListByIDs_reads|].
  intros ts. apply preserves_ret.
Qed.
Lemma find_duplicate_steady g host port protocol : steady (find_duplicate encKey strict dflt g host port protocol).
Proof.
  unfold find_duplicate. apply steady_bind; [apply steady_ignore, steady_on_store; unfold TargetIDsForGroup; steady_steps|].
  intros [ids|]; [|apply steady_ret]. apply steady_bind; [apply steady_ignore, steady_on_store, ListByIDs_steady|]. intros ts. apply steady_ret.
Qed.

(** ** A dry run *)
Lemma dry_run_reads row fuel rs P : preserves P (import row true fuel rs).
Proof.
  unfold createTargetFromImport. cbv zeta. case_match; [apply preserves_throw|]. case_match; [apply preserves_throw|].
  apply preserves_bind; [apply preserves_call, on_store_reads; intros; unfold Get; preserve|intros _].
  case_match; [|apply preserves_throw].
  apply preserves_bind; [apply preserves_call, on_cred_reads; intros; apply apply_reads|intros sec].
  apply preserves_bind; [apply find_duplicate_reads|]. intros [t|]; [apply preserves_throw|apply preserves_ret].
Qed.
Context (unmarshal_rows unmarshal_wrapper : list Z -> option (list targetImportRow)).
Lemma dry_rows_reads n rows fuel rs P : preserves P (import_rows encKey strict ParseIP allowRestricted dflt n rows true fuel rs).
Proof.
  revert n. induction rows as [|row rows IH]; intros n; simpl; [apply preserves_ret|].
  apply preserves_bind; [apply preserves_try, dry_run_reads|]. intros r. case_match; [|apply preserves_ret].
  apply preserves_bind; [apply IH|]. intros rest. apply preserves_ret.
Qed.
(** A dry run writes nothing: whatever the upload holds and whatever statements
    fail, the tables and the state of the TFTP server are those from before. *)
Theorem dry_run_changes_nothing e u fuel rs c :
  (forall rows dry, read_upload unmarshal_rows unmarshal_wrapper u = Ok (rows, dry) -> dry = true) ->
  tables (handleImportTargets encKey strict ParseIP allowRestricted dflt unmarshal_rows unmarshal_wrapper e u fuel rs c).1 = tables c.
Proof.
  intros Hdry. symmetry.
  assert (Hp : preserves (eq (tables c)) (handleImportTargets encKey strict ParseIP allowRestricted dflt unmarshal_rows unmarshal_wrapper e u fuel rs)); [|by apply Hp].
  unfold handleImportTargets. apply preserves_bind; [apply preserves_of|intros _]. apply preserves_bind_of. intros [rows dry] Hu.
  rewrite (Hdry rows dry Hu). case_match; [apply preserves_throw|]. case_match; [apply preserves_throw|]. apply dry_rows_reads.
Qed.
End import_props.

(** ** A failed row *)
(** The tables [a] are [a0] with a target [id] more, its assignments and tags. *)
Definition half_done (id : string) (a0 a : access_tables) : Prop :=
  exists row gt tt, a = mkAccess (users a0) (access_groups a0) (<[id := row]> (targets a0)) (user_groups a0) gt (group_tags a0) tt (user_tags a0) /\
    filter (fun x => x.2 <> id) gt = group_targets a0 /\ filter (fun x => x.1 <> id) tt = target_tags a0.
Definition world_half_done (id : string) (w0 w : tgt_world) : Prop :=
  exists a, w = mkTgtWorld (put_access a (w_cred w0)) (w_ctl w0) /\ half_done id (ct_access (w_cred w0)) a.

Lemma delete_half id a0 a : targets a0 !! id = None -> half_done id a0 a -> delete_targets (fun id' _ => bool_decide (id' = id)) a = a0.
Proof.
  intros Hf (row & gt & tgt & -> & Hg & Ht). unfold delete_targets. simpl. destruct a0 as [us gs ts ug gt0 gtag ttag utag]. simpl in *.
  assert (Hgone : forall x, (match <[id := row]> ts !! x with Some _ => bool_decide (x = id) | None => false end) = bool_decide (x = id)).
  { intros x. destruct (decide (x = id)) as [->|Hx]; [rewrite lookup_insert_eq; by rewrite bool_decide_true|]. rewrite lookup_insert_ne by done.
    rewrite (bool_decide_false (x = id)) by done. by destruct (ts !! x). }
  f_equal.
  - apply map_eq. intros x. rewrite map_lookup_filter. destruct (decide (x = id)) as [->|Hx].
    + rewrite lookup_insert_eq, Hf. simpl. by rewrite option_guard_False; [|rewrite bool_decide_true].
    + rewrite lookup_insert_ne by done. destruct (ts !! x) as [r|]; [|done]. simpl. rewrite option_guard_True; [done|]. by rewrite bool_decide_false.
  - rewrite <- Hg. apply set_eq. intros [g x]. rewrite !elem_of_filter. simpl. rewrite Hgone, bool_decide_eq_false. done.
  - rewrite <- Ht. apply set_eq. intros [x tag]. rewrite !elem_of_filter. simpl. rewrite Hgone, bool_decide_eq_false. done.
Qed.
Lemma half_update id f a0 : preserves (half_done id a0) (update_target id f).
Proof.
  apply preserves_exec. intros t t' n (row & gt & tgt & -> & Hg & Ht). simpl. rewrite lookup_insert_eq. intros [= <- _].
  unfold with_targets. simpl. rewrite insert_insert_eq. eexists _, _, _. eauto.
Qed.
Lemma half_AddTargetToGroup g id a0 : preserves (half_done id a0) (AddTargetToGroup g id).
Proof.
  unfold AddTargetToGroup, require_group. preserve. apply preserves_exec. intros t t' [] (row & gt & tgt & -> & Hg & Ht) E.
  repeat case_decide; simplify_eq; simpl; eexists _, _, _; (split; [done|]); [by split|]. simpl. split; [|done].
  rewrite <- Hg. set_solver.
Qed.
Lemma half_insert_tags id tags a0 : preserves (half_done id a0) (insert_target_tags id tags).
Proof.
  induction tags as [|tag tags IH]; simpl; preserve; [|done]. apply preserves_exec. intros t t' [] (row & gt & tgt & -> & Hg & Ht) E.
  repeat case_decide; simplify_eq; simpl. eexists _, _, _. split; [done|]. simpl. split; [done|]. rewrite <- Ht. set_solver.
Qed.
Lemma half_SetTargetTags `{UnicodeTables} id tags a0 : preserves (half_done id a0) (SetTargetTags id tags).
Proof.
  unfold SetTargetTags. preserve; [|apply half_insert_tags]. apply preserves_exec. intros t t' [] (row & gt & tgt & -> & Hg & Ht) E.
  simplify_eq. eexists _, _, _. split; [done|]. simpl. split; [done|]. rewrite <- Ht. set_solver.
Qed.
Lemma half_found id a0 n : preserves (half_done id a0) (found n).
Proof. unfold found. preserve. Qed.

Section undo.
Context `{Crypto} `{UnicodeTables} `{SetScan} (encKey : list Z) (strict : bool) (ParseIP : list Z -> option (list Z)) (allowRestricted : bool) (dflt : Z).

Lemma half_store {E A} id w0 (m : DB access_tables E A) :
  preserves (half_done id (ct_access (w_cred w0))) m -> preserves (world_half_done id w0) (on_store m).
Proof.
  intros Hm. apply on_store_hoare. intros w (a & -> & Ha). eapply hoare_conseq; [exact Hm|by intros ? <-|].
  intros a' r Ha'. exists a'. split; [|done]. by destruct w0 as [[? ? ?] ?].
Qed.
Lemma half_SetCredentialSource id cid kid a0 : preserves (half_done id a0) (SetCredentialSource id cid kid).
Proof. unfold SetCredentialSource. preserve; [apply half_update|apply half_found]. Qed.
Lemma half_SetFingerprint id fp a0 : preserves (half_done id a0) (SetSSHHostKeyFingerprint id fp).
Proof. unfold SetSSHHostKeyFingerprint. preserve; [apply half_update|apply half_found]. Qed.
Lemma finish_half row g id w0 : preserves (world_half_done id w0) (finish row g id).
Proof.
  unfold finish. cbv zeta. repeat (simple apply preserves_bind; [|intros ?]).
  - apply preserves_call, half_store, half_AddTargetToGroup.
  - case_match; [|apply preserves_ret]. apply preserves_call, half_store, half_SetCredentialSource.
  - apply preserves_ignore, half_store. unfold TagsForGroup. preserve.
  - case_match; [apply preserves_ret|]. apply preserves_call, half_store, half_SetTargetTags.
  - case_match; [|apply preserves_ret]. apply preserves_call, half_store, half_SetFingerprint.
Qed.
Lemma insert_tags_steady id tags : steady (insert_target_tags id tags).
Proof. induction tags; simpl; steady_steps; done. Qed.
Lemma finish_steady row g id : steady (finish row g id).
Proof.
  unfold finish. cbv zeta.
  repeat first [ simple apply steady_bind; [|intros ?] | simple apply preserves_steady_call | simple apply steady_ignore | simple apply steady_on_store
               | case_match | simple apply steady_ret ];
  unfold AddTargetToGroup, SetCredentialSource, TagsForGroup, SetTargetTags, SetSSHHostKeyFingerprint, require_group, update_target, found; steady_steps;
  apply insert_tags_steady.
Qed.

Lemma CreateWithPath_hoare id i g r a0 :
  hoare (eq a0) (CreateWithPath encKey ParseIP allowRestricted id i g r) (fun a res =>
    match res with
    | Err _ => a = a0
    | Ok _ => validateTargetID id = Ok tt /\ targets a0 !! id = None /\ exists row, a = with_targets a0 (<[id := row]> (targets a0))
    end).
Proof.
  intros c ->. unfold CreateWithPath, db_bind, db_of. destruct (validate_target _ _ _ _) as [[]|] eqn:Ev; [|done].
  assert (validateTargetID id = Ok tt) by (unfold validate_target in Ev; by destruct (validateTargetID id) as [[]|]).
  destruct (if decide _ then _ else _); [|done]. destruct (encryptCredentials _ _ _ _ _ _) as [[[pw k] kp]|]; [|done].
  unfold db_catch, db_exec, db_call. destruct (faults c) as [|[msg|] fs]; simpl; [|done|];
    (destruct (targets (tables c) !! id); [done|]); (case_decide; [|done]); simpl; eauto.
Qed.
Lemma half_created id row w0 : fk_ok (ct_access (w_cred w0)) -> targets (ct_access (w_cred w0)) !! id = None ->
  world_half_done id w0 (mkTgtWorld (put_access (with_targets (ct_access (w_cred w0)) (<[id := row]> (targets (ct_access (w_cred w0))))) (w_cred w0)) (w_ctl w0)).
Proof.
  intros Hfk Hf. eexists. split; [done|]. eexists row, _, _. split; [done|]. split; apply set_eq; intros [x y]; rewrite elem_of_filter; simpl; split.
  - by intros [_ ?].
  - intros Hin. split; [|done]. intros ->. apply (fk_gt_target _ Hfk) in Hin as [? ?]. congruence.
  - by intros [_ ?].
  - intros Hin. split; [|done]. intros ->. apply (fk_ttag _ Hfk) in Hin as [? ?]. congruence.
Qed.
Lemma loop_outcome {E'} `{DBError E'} (h : access_err -> E') fuel i baseID input g rs w0 : fk_ok (ct_access (w_cred w0)) ->
  hoare (eq w0) (create_loop encKey ParseIP allowRestricted h fuel i baseID input g rs) (fun w res =>
    match res with
    | Ok (Some id) => validateTargetID id = Ok tt /\ targets (ct_access (w_cred w0)) !! id = None /\ world_half_done id w0 w
    | _ => w = w0
    end).
Proof.
  intros Hfk. revert i. induction fuel as [|fuel IH]; intros i; simpl; [by intros c ->|].
  intros c Hc. unfold db_bind, db_try. 
  assert (Ha : hoare (eq w0) (on_store (CreateWithPath encKey ParseIP allowRestricted (candidate baseID i) input g (rs i))) (fun w res =>
    match res with Err _ => w = w0 | Ok _ => validateTargetID (candidate baseID i) = Ok tt /\ targets (ct_access (w_cred w0)) !! candidate baseID i = None /\ world_half_done (candidate baseID i) w0 w end)).
  { apply on_store_hoare. intros w ->. eapply hoare_conseq; [apply CreateWithPath_hoare|by intros ? <-|]. intros a [t|e].
    - intros (Hv & Hf & row & ->). split_and!; [done|done|]. by apply half_created.
    - intros ->. apply put_access_same. }
  specialize (Ha c Hc). destruct (on_store _ c) as [c1 [t|e]]; simpl in *; [done|].
  destruct e; try exact Ha. apply IH. by symmetry.
Qed.

(** Nothing of a failed row is left. *)
Definition undone {A} (w0 w : tgt_world) (r : result import_err A) : Prop := is_ok r = false -> w0 = w.
Lemma runs_reads {A B} w0 (m : ImportM A) (k : A -> ImportM B) :
  steady m -> preserves (eq w0) m -> (forall a, runs (eq w0) (k a) (undone w0)) -> runs (eq w0) (let* x := m in k x) (undone w0).
Proof. intros Hs Hp Hk. eapply runs_bind; [by apply runs_hoare|exact Hk|]. intros w e Hw _. exact Hw. Qed.
Lemma delete_runs id w0 : validateTargetID id = Ok tt -> targets (ct_access (w_cred w0)) !! id = None ->
  runs (world_half_done id w0) (ignore (E' := import_err) (on_store (target_Delete id))) (fun w _ => w0 = w).
Proof.
  intros Hv Hf. assert (Hs : steady (ignore (E' := import_err) (on_store (E := access_err) (target_Delete id)))).
  { apply steady_ignore, steady_on_store. unfold target_Delete, found. steady_steps. }
  intros c Hc (a & Hw & Ha). split; [by apply Hs|].
  unfold ignore, db_bind at 1, db_try. rewrite on_store_run. unfold target_Delete. rewrite Hv. unfold db_bind at 1, db_of. rewrite bind_exec by by destruct Hc.
  rewrite Hw. simpl.
  pose proof (delete_half id _ _ Hf Ha) as Hd. destruct Ha as (row & gt & tgt & -> & _). simpl. rewrite lookup_insert_eq. simpl.
  rewrite Hd. by destruct w0 as [[? ? ?] ?].
Qed.
Lemma finish_or_delete_runs row g id w0 : validateTargetID id = Ok tt -> targets (ct_access (w_cred w0)) !! id = None ->
  runs (world_half_done id w0) (finish_or_delete row g id) (undone w0).
Proof.
  intros Hv Hf. unfold finish_or_delete.
  eapply runs_bind with (R := fun w r => is_ok r = true /\ world_half_done id w0 w).
  - intros c Hc Hw. unfold db_catch. pose proof (finish_steady row g id c Hc) as Hc'. pose proof (finish_half row g id w0 c Hw) as Hw'.
    by destruct (finish row g id c).
  - intros [[]|err]; [intros c Hc Hw; by split|]. eapply runs_bind; [eapply runs_conseq; [by apply delete_runs|by intros w [_ ?]|]|intros d c Hc Hw|].
    + intros w r Hw. exact Hw.
    + split; [exact Hc|]. intros _. exact Hw.
    + intros w e Hw _. exact Hw.
  - by intros w e [? _].
Qed.
Lemma create_loop_steady {E'} (h : access_err -> E') fuel i baseID input g rs : steady (create_loop encKey ParseIP allowRestricted h fuel i baseID input g rs).
Proof.
  revert i. induction fuel as [|fuel IH]; intros i; simpl; [apply steady_ret|].
  apply steady_bind; [apply steady_try, steady_on_store; unfold CreateWithPath; steady_steps|]. intros [t|e]; [apply steady_ret|].
  destruct e; try apply steady_throw. apply IH.
Qed.

(** C40. The import of a row is all or nothing on a database that answers: a row that
    is refused - by a check, by the creation or by one of the steps after it, such as
    an invalid tag or fingerprint - leaves every table as it was. When statements
    fail this does not hold ([cancelled_import_leaves_target]): the error of the
    deletion that undoes a half-made target is ignored. *)
Theorem failed_row_leaves_nothing row dry fuel rs c c' e :
  healthy c -> fk_ok (ct_access (w_cred (tables c))) ->
  createTargetFromImport encKey strict ParseIP allowRestricted dflt row dry fuel rs c = (c', Err e) -> tables c' = tables c.
Proof.
  intros Hc Hfk. set (w0 := tables c).
  assert (Hr : runs (eq w0) (createTargetFromImport encKey strict ParseIP allowRestricted dflt row dry fuel rs) (undone w0)).
  2: { intros E. destruct (Hr c Hc eq_refl) as [_ Hu]. rewrite E in Hu. symmetry. by apply Hu. }
  assert (Hthrow : forall (A : Type) (err : import_err), runs (eq w0) (db_throw (A := A) err) (undone w0)) by (intros A err d Hd Hw; split; [exact Hd|by intros _]).
  unfold createTargetFromImport. cbv zeta. case_match; [apply Hthrow|]. case_match; [apply Hthrow|].
  apply runs_reads; [apply preserves_steady_call, steady_on_store; unfold Get; steady_steps|apply preserves_call, on_store_reads; intros; unfold Get; preserve|intros _].
  case_match; [|apply Hthrow].
  apply runs_reads; [apply preserves_steady_call; unfold on_cred; apply steady_zoom, apply_steady|apply preserves_call, on_cred_reads; intros; apply apply_reads|intros sec].
  apply runs_reads; [apply find_duplicate_steady|apply find_duplicate_reads|]. intros [t|]; [apply Hthrow|].
  case_match; [intros d Hd Hw; split; [exact Hd|by intros ?]|].
  eapply runs_bind; [apply runs_hoare; [apply create_loop_steady|by apply loop_outcome]| |by intros w err -> _].
  intros [id|]; [|intros d Hd Hw; split; [exact Hd|by intros _]].
  intros d Hd (Hv & Hf & Hw). by apply finish_or_delete_runs.
Qed.
End undo.

(** ** Imports keep the links of targets *)
Section links.
Context `{Crypto} `{UnicodeTables} `{SetScan} (encKey : list Z) (strict : bool) (ParseIP : list Z -> option (list Z)) (allowRestricted : bool) (dflt : Z).
Lemma finish_or_delete_linked row g id :
  preserves (linked (TrimSpace_s (im_CredentialIdentityID row)) (TrimSpace_s (im_SSHKeyID row))) (finish_or_delete row g id).
Proof.
  unfold finish_or_delete. apply preserves_bind.
  - apply preserves_catch. unfold finish. cbv zeta. repeat (simple apply preserves_bind; [|intros ?]).
    + apply preserves_call, store_linked, AddTargetToGroup_links.
    + case_match; [|apply preserves_ret]. apply preserves_call, on_store_linked. intros I K HI HK. by apply SetCredentialSource_links.
    + apply preserves_ignore, store_linked. intros I K. unfold TagsForGroup. preserve.
    + case_match; [apply preserves_ret|]. apply preserves_call, store_linked, SetTargetTags_links.
    + case_match; [|apply preserves_ret]. apply preserves_call, store_linked, SetSSHHostKeyFingerprint_links.
  - intros [[]|err]; [apply preserves_ret|]. apply preserves_bind; [apply preserves_ignore, store_linked, target_Delete_links|].
    intros d. apply preserves_throw.
Qed.
Lemma import_row_links row dry fuel rs :
  preserves (fun w => links_ok (w_cred w)) (createTargetFromImport encKey strict ParseIP allowRestricted dflt row dry fuel rs).
Proof.
  unfold createTargetFromImport. cbv zeta. case_match; [apply preserves_throw|]. case_match; [apply preserves_throw|].
  apply preserves_bind; [apply preserves_call, on_store_reads; intros; unfold Get; preserve|intros _].
  case_match; [|apply preserves_throw].
  eapply hoare_bind; [apply apply_links| |by intros w err []]. intros sec. apply linked_ok.
  apply preserves_bind; [apply find_duplicate_reads|]. intros [t|]; [apply preserves_throw|]. case_match; [apply preserves_ret|].
  apply preserves_bind; [apply create_loop_linked|]. intros [id|]; [|apply preserves_ret]. apply finish_or_delete_linked.
Qed.
(** An import, too, leaves no target linked to a missing identity or key. *)
Theorem import_keeps_links unmarshal_rows unmarshal_wrapper e u fuel rs :
  preserves (fun w => links_ok (w_cred w))
    (handleImportTargets encKey strict ParseIP allowRestricted dflt unmarshal_rows unmarshal_wrapper e u fuel rs).
Proof.
  assert (Hrows : forall rows dry n, preserves (fun w => links_ok (w_cred w)) (import_rows encKey strict ParseIP allowRestricted dflt n rows dry fuel rs)).
  { induction rows as [|row rows IH]; intros dry n; simpl; [apply preserves_ret|].
    apply preserves_bind; [apply preserves_try, import_row_links|]. intros r. case_match; [|apply preserves_ret].
    apply preserves_bind; [apply IH|]. intros rest. apply preserves_ret. }
  unfold handleImportTargets. apply preserves_bind; [apply preserves_of|intros _]. apply preserves_bind; [apply preserves_of|intros [rows dry]].
  case_match; [apply preserves_throw|]. case_match; [apply preserves_throw|]. apply Hrows.
Qed.
End links.

(** ** Witnesses *)
Definition demo_export : list targetExportRow :=
  [mkExportRow "sw" "=core, main" "sw.example" 22 "ssh" "lab" "lab/x" ["a"; "-b"]%string "ro ot" true false true "SHA256:x" "i1" "" true;
   mkExportRow "t" "tea, pot" "t.example" 0 "tftp" "lab" "lab" [] "" false false false "" "" "" false]%string.
Lemma export_import_roundtrip_witness :
  parseTargetCSV (H := ascii_tables) (export_csv demo_export) = Ok (imported <$> demo_export).
Proof. apply export_import_roundtrip. apply (bool_decide_eq_true_1 _). vm_compute. reflexivity. Defined.

Definition demo_row (name tag fp : string) : targetImportRow :=
  mkImportRow name "new.example" 0 "" "lab" "" [tag] "root" "pw" None None None fp "" "".
Abbreviation demo_import := (createTargetFromImport (H := toy_crypto) (H0 := ascii_tables) demo_key true demo_ParseIP false 100).
Abbreviation demo_request := (handleImportTargets (H := toy_crypto) (H0 := ascii_tables) demo_key true demo_ParseIP false 100 (fun _ => None) (fun _ => None)).
(** A good row is created, a second run skips it, a dry run finds nothing wrong. *)
Example demo_good_row :
  let c1 := (demo_import (demo_row "Router" "edge" "") false 9 demo_rs (connect demo_w)) in
  c1.2 = Ok (Imported "router-2") /\ (demo_import (demo_row "Router" "edge" "") false 9 demo_rs c1.1).2 = Err (errTargetImportExists "router-2") /\
  (demo_import (demo_row "Router" "edge" "") true 9 demo_rs (connect demo_w)).2 = Ok Valid.
Proof. vm_compute. done. Qed.
(** A dry run finds a row valid that the import refuses, and does not see that two
    rows of the file are the same target. *)
Example dry_run_misses_errors :
  (demo_import (demo_row "Router" "e d" "") true 9 demo_rs (connect demo_w)).2 = Ok Valid /\
  (demo_import (demo_row "Router" "e d" "") false 9 demo_rs (connect demo_w)).2 = Err (ImportStore "tags" ErrTagChars).
Proof. vm_compute. done. Qed.
Lemma dry_run_changes_nothing_witness :
  tables (demo_request demo_admin (JSONUpload [demo_row "Router" "edge" ""; demo_row "Router" "e d" ""] true) 9 (fun _ => demo_rs) (connect demo_w)).1 = demo_w.
Proof. apply dry_run_changes_nothing. intros rows dry [= _ <-]. reflexivity. Defined.
(** The request is cancelled when the target has just been created: neither the rest
    of the import nor the deletion of the target is carried out. *)
Lemma cancelled_import_leaves_target :
  let c := (mkConn true demo_w (replicate 5 None ++ replicate 30 (Some "context canceled"%string))) in
  let (c', r) := demo_import (demo_row "Router" "edge" "") false 9 demo_rs c in
  is_ok r = false /\ targets (ct_access (w_cred demo_w)) !! "router-2"%string = None /\
  is_Some (targets (ct_access (w_cred (tables c'))) !! "router-2"%string).
Proof. vm_compute. split_and!; [done..|by eexists]. Qed.
(** The fingerprint is checked last, after the target has been created, put into its
    group and tagged. *)
Lemma demo_w_fk : fk_ok (ct_access (w_cred demo_w)).
Proof.
  assert (Hg : map_Forall (fun _ r => tr_group_id r = "lab"%string) demo_targets) by (apply (bool_decide_eq_true_1 _); vm_compute; reflexivity).
  split; simpl; try (intros *; rewrite ?lookup_empty; done).
  intros id r Hr. rewrite (Hg id r Hr). vm_compute. eauto.
Qed.
Lemma failed_row_leaves_nothing_witness :
  exists c' e, demo_import (demo_row "Router" "edge" "no fingerprint") false 9 demo_rs (connect demo_w) = (c', Err e) /\
    e = ImportStore "host key fingerprint" ErrHostKeyFingerprintInvalid /\ tables c' = demo_w.
Proof.
  assert (E : exists c' e, demo_import (demo_row "Router" "edge" "no fingerprint") false 9 demo_rs (connect demo_w) = (c', Err e) /\
    e = ImportStore "host key fingerprint" ErrHostKeyFingerprintInvalid) by (eexists _, _; split; [vm_compute; reflexivity|reflexivity]).
  destruct E as (c' & e & E & He). exists c', e. split; [exact E|]. split; [exact He|].
  exact (failed_row_leaves_nothing demo_key true demo_ParseIP false 100 _ false 9 demo_rs (connect demo_w) c' e (conj eq_refl eq_refl) demo_w_fk E).
Defined.
