(* ===== verification/SharingWorld.v ===== *)
(** What the handlers of shared sessions work on (src/internal/httpapi,
    sharing.go, sharing_kind.go, sharing_bridges.go): the session managers, the
    rooms, the live bridges, the event stream, the invitation store and the
    access tables; and the helpers they share - finding a session for its owner
    or a participant, the room of a session, publishing events, who may be
    invited.

    A handler is one operation of the state below; every statement of it may
    fail. [NewApp] sets all stores, managers and brokers, so the tests of [App]
    for parts that are nil are left out. A session is what the handlers see of
    it ([sharingSessionMeta]); audit records are not modelled. *)
From S2P Require Import Prelude GoText Sqlite Http Secret AuthPolicy AccessDB AccessRequests SharingRoom Invitations SharingService.
From S2P Require SessionManager RdpManager AuthStore AccessGroups AccessTargets.
Local Open Scope Z_scope.

(** ** The state *)
Inductive extra := XText (s : string) | XNumber (z : Z).
Record event := mkEvent { ev_Type : string; ev_SessionID : string; ev_UserID : string; ev_Username : string; ev_Extra : list (string * extra) }.
(** What goes to the session event broker (Brokers.v): a payload for some
    users, or the [session_change] for everybody. *)
Inductive publication := PublishToUsers (e : event) (users : list string) | Broadcast.
Record share_world := mkShareWorld {
  sw_sharing : sharing_tables; sw_access : access_tables; sw_auth : AuthStore.auth_tables;
  sw_terminal : SessionManager.Manager; sw_vnc : SessionManager.Manager; sw_rdp : RdpManager.Manager;
  sw_registry : Registry;
  sw_bridges : gset string;           (* bridgeRegistry: the sessions with a live controller *)
  sw_calls : list bridge_call;        (* what the controllers were told, in order *)
  sw_events : list publication
}.
Definition with_sharing (w : share_world) x := mkShareWorld x (sw_access w) (sw_auth w) (sw_terminal w) (sw_vnc w) (sw_rdp w) (sw_registry w) (sw_bridges w) (sw_calls w) (sw_events w).
Definition with_registry (w : share_world) x := mkShareWorld (sw_sharing w) (sw_access w) (sw_auth w) (sw_terminal w) (sw_vnc w) (sw_rdp w) x (sw_bridges w) (sw_calls w) (sw_events w).
Definition with_bridges (w : share_world) x := mkShareWorld (sw_sharing w) (sw_access w) (sw_auth w) (sw_terminal w) (sw_vnc w) (sw_rdp w) (sw_registry w) x (sw_calls w) (sw_events w).
Definition with_calls (w : share_world) x := mkShareWorld (sw_sharing w) (sw_access w) (sw_auth w) (sw_terminal w) (sw_vnc w) (sw_rdp w) (sw_registry w) (sw_bridges w) x (sw_events w).
Definition with_events (w : share_world) x := mkShareWorld (sw_sharing w) (sw_access w) (sw_auth w) (sw_terminal w) (sw_vnc w) (sw_rdp w) (sw_registry w) (sw_bridges w) (sw_calls w) x.

Abbreviation ShareM := (DB share_world http_err).
Definition on_sharing {E A} (m : DB sharing_tables E A) : DB share_world E A := db_zoom sw_sharing (fun t w => with_sharing w t) m.
(** The handlers only read accounts and access tables. *)
Definition on_access {E A} (m : DB access_tables E A) : DB share_world E A := db_zoom sw_access (fun _ w => w) m.
Definition on_auth {E A} (m : DB AuthStore.auth_tables E A) : DB share_world E A := db_zoom sw_auth (fun _ w => w) m.
Definition in_memory {E A} (f : share_world -> share_world * A) : DB share_world E A := fun c =>
  let (w, a) := f (tables c) in (set_tables c w, Ok a).
Definition look {E A} (f : share_world -> A) : DB share_world E A := in_memory (fun w => (w, f w)).
Definition modify {E} (f : share_world -> share_world) : DB share_world E unit := in_memory (fun w => (f w, tt)).
Lemma preserves_in_memory {E A} (P : share_world -> Prop) (f : share_world -> share_world * A) :
  (forall w, P w -> P (f w).1) -> preserves (E:=E) P (in_memory f).
Proof. intros Hf c Hc. unfold in_memory. specialize (Hf _ Hc). by destruct (f (tables c)). Qed.
Lemma preserves_look {E A} (P : share_world -> Prop) (f : share_world -> A) : preserves (E:=E) P (look f).
Proof. by apply preserves_in_memory. Qed.
Lemma preserves_modify {E} (P : share_world -> Prop) (f : share_world -> share_world) :
  (forall w, P w -> P (f w)) -> preserves (E:=E) P (modify f).
Proof. intros Hf. apply preserves_in_memory. exact Hf. Qed.
Lemma preserves_access_part {E A} (P : share_world -> Prop) (m : DB access_tables E A) : preserves P (on_access m).
Proof. by apply preserves_zoom. Qed.
Lemma preserves_auth_part {E A} (P : share_world -> Prop) (m : DB AuthStore.auth_tables E A) : preserves P (on_auth m).
Proof. by apply preserves_zoom. Qed.

(** [bridgeRegistry] *)
Definition br_Register (id : string) (w : share_world) : share_world := with_bridges w (sw_bridges w ∪ {[id]}).
Definition br_Unregister (id : string) (w : share_world) : share_world := with_bridges w (sw_bridges w ∖ {[id]}).
Definition br_Get (w : share_world) (id : string) : bool := bool_decide (id ∈ sw_bridges w).

(** ** Sessions *)
Record sharingSessionMeta := mkMeta { mt_SessionID : string; mt_TargetID : string; mt_OwnerID : string; mt_Kind : Kind }.
Definition manager_session (m : SessionManager.Manager) (kind : Kind) (id : string) : option sharingSessionMeta :=
  ref ← SessionManager.Get m id; s ← SessionManager.m_heap m !! ref;
  Some (mkMeta (SessionManager.s_id s) (SessionManager.opt_TargetID (SessionManager.s_opts s)) (SessionManager.opt_UserID (SessionManager.s_opts s)) kind).
Definition rdp_session (m : RdpManager.Manager) (id : string) : option sharingSessionMeta :=
  ref ← RdpManager.GetSession m id; s ← RdpManager.rm_heap m !! ref;
  Some (mkMeta (RdpManager.rs_ID s) (RdpManager.rs_TargetID s) (RdpManager.rs_UserID s) KindRDP).
Definition find_session (w : share_world) (kind : Kind) (id : string) : option sharingSessionMeta :=
  if decide (kind = KindVNC) then manager_session (sw_vnc w) KindVNC id
  else if decide (kind = KindRDP) then rdp_session (sw_rdp w) id
  else manager_session (sw_terminal w) KindTerminal id.

Definition unauthorized : http_err := Http 401 "common.unauthorized".
Definition session_not_found : http_err := Http 404 "sessions.notFoundOrAccessDenied".

(** ** Events *)
Definition EventParticipantJoined := "participant_joined"%string.
Definition EventParticipantLeft := "participant_left"%string.
Definition EventWriteRequestPending := "write_request_pending"%string.
Definition EventWriteRequestDecided := "write_request_decided"%string.
Definition EventWriteTokenTransferred := "write_token_transferred"%string.
Definition EventInvitationRevoked := "invitation_revoked"%string.
Definition EventInvitationCreated := "invitation_created"%string.
Definition EventInvitationReceived := "invitation_received"%string.
Definition EventInvitationUpdated := "invitation_updated"%string.
Definition EventInvitationConsumed := "invitation_consumed"%string.
Definition publish (l : list publication) (w : share_world) : share_world := with_events w (sw_events w ++ l).

(** A room method through the pointer; [None]: a nil pointer. *)
Definition room_at (w : share_world) (ref : option nat) : option Room := r ← ref; reg_heap (sw_registry w) !! r.

Section world.
Context `{MapRange} `{SetScan} (dflt : Z).

Definition publishSharingEventForSession {E} (sessionID ownerID ty userID username : string) (ex : list (string * extra)) (alsoNotify : list string)
    : DB share_world E unit :=
  if decide (sessionID = ""%string) then db_ret tt else
  modify (fun w =>
    let members := match room_of (sw_registry w) sessionID with Some room => p_UserID <$> Participants room | None => [] end in
    publish [PublishToUsers (mkEvent ty sessionID userID username ex) ([ownerID] ++ members ++ alsoNotify); Broadcast] w).
Definition publishSharingEvent {E} (s : sharingSessionMeta) (ty userID username : string) (ex : list (string * extra)) (alsoNotify : list string)
    : DB share_world E unit :=
  modify (fun w =>
    let members := match room_of (sw_registry w) (mt_SessionID s) with Some room => p_UserID <$> Participants room | None => [] end in
    publish [PublishToUsers (mkEvent ty (mt_SessionID s) userID username ex) ([mt_OwnerID s] ++ members ++ alsoNotify); Broadcast] w).

(** ** Accounts *)
(** The user name of an account, or its identifier when the lookup fails. *)
Definition usernameFor {E} (userID : string) : DB share_world E string :=
  let* u := db_try (on_auth (AuthStore.GetByID userID)) in
  db_ret (match u with
          | Ok u => if decide (AuthStore.u_Username u = ""%string) then userID else AuthStore.u_Username u
          | Err _ => userID
          end).
Definition publishInvitationEventToInvitee {E} (inviteeUserID ty : string) (inv : Invitation) : DB share_world E unit :=
  let inviteeUserID := TrimSpace_s inviteeUserID in
  if decide (inviteeUserID = ""%string) then db_ret tt else
  let* name := usernameFor (inv_OwnerUserID inv) in
  modify (publish [PublishToUsers (mkEvent ty (inv_SessionID inv) (inv_OwnerUserID inv) name
    [("invitation_id", XText (inv_ID inv)); ("target_id", XText (inv_TargetID inv))]%string) [inviteeUserID]; Broadcast]).

Definition can_reach (u tid : string) (now : time) : ShareM bool :=
  call (on_access (AccessGroups.userCanAccessTarget u tid dflt now)) (fun _ => internal).

(** ** Who asks *)
Definition load_owned (kind : Kind) (e : request_env) (sessionID : string) (now : time) : ShareM sharingSessionMeta :=
  let userID := TrimSpace_s (currentUserID e) in
  if decide (userID = ""%string) then db_throw unauthorized else
  let* s := look (fun w => find_session w kind sessionID) in
  match s with
  | None => db_throw session_not_found
  | Some s =>
      if decide (mt_OwnerID s <> userID) then db_throw session_not_found else
      let* canAccess := can_reach userID (mt_TargetID s) now in
      if canAccess : bool then db_ret s else db_throw (Http 403 "common.forbidden")
  end.
Definition loadOwnedTerminalSession := load_owned KindTerminal.
Definition loadOwnedVNCSession := load_owned KindVNC.
Definition loadOwnedRDPSession := load_owned KindRDP.
Definition loadOwnedSharingMeta (kind : Kind) (e : request_env) (sessionID : string) (now : time) : ShareM sharingSessionMeta :=
  if decide (kind = KindVNC) then loadOwnedVNCSession e sessionID now
  else if decide (kind = KindRDP) then loadOwnedRDPSession e sessionID now
  else loadOwnedTerminalSession e sessionID now.
(** The session, the pointer of its room if it has one, and the caller. *)
Definition load_participating (kind : Kind) (e : request_env) (sessionID : string) : ShareM (sharingSessionMeta * option nat * string) :=
  let userID := TrimSpace_s (currentUserID e) in
  if decide (userID = ""%string) then db_throw unauthorized else
  let* w := look id in
  match find_session w kind sessionID with
  | None => db_throw session_not_found
  | Some s =>
      let room := reg_Get (sw_registry w) (mt_SessionID s) in
      let member := match room_at w room with Some r => IsParticipant r userID | None => false end in
      if bool_decide (mt_OwnerID s <> userID) && negb member then db_throw session_not_found
      else db_ret (s, room, userID)
  end.
Definition loadParticipatingTerminalSession := load_participating KindTerminal.
Definition loadParticipatingSharingMeta := load_participating.

(** ** Rooms *)
Definition ensureRoomFor {E} (s : sharingSessionMeta) (now : time) : DB share_world E (option nat) :=
  let* ownerName := usernameFor (mt_OwnerID s) in
  in_memory (fun w =>
    let (reg, ref) := EnsureRoom (sw_registry w) (mt_SessionID s) (mt_TargetID s) (mt_OwnerID s) ownerName now in
    (with_registry w reg, Some ref)).
(** The same for sessions of the other kinds. *)
Definition ensureVNCRoomFor {E} := ensureRoomFor (E:=E).
Definition ensureRDPRoomFor {E} := ensureRoomFor (E:=E).
(** The session is looked up again. *)
Definition ensureRoomForMeta {E} (s : sharingSessionMeta) (now : time) : DB share_world E (option nat) :=
  let* found := look (fun w => find_session w (mt_Kind s) (mt_SessionID s)) in
  match found with None => db_ret None | Some s => ensureRoomFor s now end.
Definition on_room {E A} (ref : option nat) (default : A) (f : Room -> Room * A) : DB share_world E A :=
  in_memory (fun w =>
    match ref with
    | None => (w, default)
    | Some r => let (reg, a) := with_room (sw_registry w) r default f in (with_registry w reg, a)
    end).
(** Tells the controller of the session, if it is live, who may write. *)
Definition sync_bridge (detach : list string) (sessionID : string) (ref : option nat) (w : share_world) : share_world :=
  if br_Get w sessionID then
    with_calls w (sw_calls w ++ (CallDetachUser sessionID <$> detach) ++
      [CallSetWriter sessionID (match room_at w ref with Some r => writerID r | None => ""%string end)])
  else w.
Definition disconnectSessionUser {E} (s : sharingSessionMeta) (room : option nat) (userID : string) (now : time) : DB share_world E unit :=
  match room with
  | None => db_ret tt
  | Some _ =>
      if decide (userID = ""%string) then db_ret tt else
      let* _ := on_room room (Err ErrRoomNotFound) (fun r => RemoveParticipant r userID now) in
      modify (sync_bridge [userID] (mt_SessionID s) room)
  end.
Definition disconnectSharingUser {E} (s : sharingSessionMeta) := disconnectSessionUser (E:=E) s.
End world.

(** ** Reading

    [reads P m Q]: from a state in [P], [m] leaves the state as it is, and what
    it returns satisfies [Q], whichever statements fail. *)
Definition reads {E A} (P : share_world -> Prop) (m : DB share_world E A) (Q : share_world -> A -> Prop) : Prop :=
  forall w0, P w0 -> hoare (eq w0) m (fun w r => w = w0 /\ match r with Ok a => Q w0 a | Err _ => True end).
Section reads.
Context {E : Type}.
Lemma reads_ret {A} (P : share_world -> Prop) (a : A) (Q : share_world -> A -> Prop) : (forall w, P w -> Q w a) -> reads P (db_ret (E:=E) a) Q.
Proof. intros HQ w0 Hp c ->. split; [done|]. by apply HQ. Qed.
Lemma reads_throw {A} P (e : E) (Q : share_world -> A -> Prop) : reads P (db_throw e) Q.
Proof. by intros w0 Hp c ->. Qed.
Lemma reads_look {A} (P : share_world -> Prop) (f : share_world -> A) : reads P (look (E:=E) f) (fun w x => P w /\ x = f w).
Proof. by intros w0 Hp c ->. Qed.
Lemma reads_bind {A B} P (m : DB share_world E A) (k : A -> DB share_world E B) Q R :
  reads P m Q -> (forall a, reads (fun w => P w /\ Q w a) (k a) R) -> reads P (db_bind m k) R.
Proof.
  intros Hm Hk w0 Hp c Hc. unfold db_bind. pose proof (Hm w0 Hp c Hc) as [Ht Hr]. destruct (m c) as [c' [a|e]]; [|done].
  simpl in Ht. subst. by apply (Hk a (tables c) (conj Hp Hr)).
Qed.
Lemma reads_conseq {A} (P P' : share_world -> Prop) (m : DB share_world E A) (Q Q' : share_world -> A -> Prop) :
  reads P' m Q' -> (forall w, P w -> P' w) -> (forall w a, P w -> Q' w a -> Q w a) -> reads P m Q.
Proof. intros Hm HP HQ w0 Hp c Hc. destruct (Hm w0 (HP _ Hp) c Hc) as [Ht Hr]. split; [done|]. destruct (m c).2; eauto. Qed.
Lemma reads_post {A} P (m : DB share_world E A) (Q Q' : share_world -> A -> Prop) :
  reads P m Q' -> (forall w a, P w -> Q' w a -> Q w a) -> reads P m Q.
Proof. intros Hm HQ. by eapply reads_conseq; [exact Hm| |]. Qed.
(** The continuation of a reading operation. *)
Lemma after_reads {A B} P (m : DB share_world E A) (k : A -> DB share_world E B) Q w0 R :
  reads P m Q -> P w0 -> (forall a, Q w0 a -> hoare (eq w0) (k a) R) -> (forall e, R w0 (Err e)) -> hoare (eq w0) (db_bind m k) R.
Proof.
  intros Hm Hp Hk He c Hc. unfold db_bind. pose proof (Hm w0 Hp c Hc) as [Ht Hr]. destruct (m c) as [c' [a|e]]; simpl in *.
  - apply (Hk a Hr). by rewrite Ht.
  - rewrite Ht. apply He.
Qed.
Lemma reads_zoom {T E' A} (get : share_world -> T) (P : share_world -> Prop) (m : DB T E' A) (Q : share_world -> A -> Prop) :
  (forall w0, P w0 -> hoare (eq (get w0)) m (fun _ r => match r with Ok a => Q w0 a | Err _ => True end)) ->
  reads P (db_zoom get (fun _ w => w) m) Q.
Proof.
  intros Hm w0 Hp c Hc. unfold db_zoom. subst w0. specialize (Hm _ Hp (mkConn (configured c) (get (tables c)) (faults c)) eq_refl).
  by destruct (m _) as [c' r].
Qed.
End reads.
Lemma reads_try {E E' A} P (m : DB share_world E A) Q :
  reads P m Q -> reads P (db_try (E':=E') m) (fun w r => match r with Ok a => Q w a | Err _ => True end).
Proof. intros Hm w0 Hp c Hc. unfold db_try. specialize (Hm w0 Hp c Hc). by destruct (m c) as [c' r]. Qed.
Lemma reads_call {E E' A} P (m : DB share_world E A) (h : E -> E') Q : reads P m Q -> reads P (call m h) Q.
Proof.
  intros Hm. unfold call. eapply reads_bind; [by apply reads_try|]. intros [a|e]; [|apply reads_throw].
  intros w0 [_ Hq] c Hc. by split.
Qed.
Lemma reads_any {E A} P (m : DB share_world E A) : (forall Q, preserves Q m) -> reads P m (fun _ _ => True).
Proof. intros Hm w0 _ c ->. pose proof (Hm (eq (tables c)) c eq_refl). by destruct (m c) as [c' []]. Qed.


(** What a run that succeeded tells. *)
Lemma reads_run {E A} P (m : DB share_world E A) Q c c' a : reads P m Q -> P (tables c) -> m c = (c', Ok a) -> tables c' = tables c /\ Q (tables c) a.
Proof. intros Hm Hp Hr. pose proof (Hm _ Hp c eq_refl) as [Ht Hq]. rewrite Hr in Ht, Hq. done. Qed.
Lemma memory_run {E A} (f : share_world -> share_world * A) c c' (r : result E A) : in_memory f c = (c', r) ->
  tables c' = (f (tables c)).1 /\ r = Ok (f (tables c)).2.
Proof. unfold in_memory. destruct (f (tables c)) as [w a]. by intros [= <- <-]. Qed.
Lemma call_run {T E E' A} (m : DB T E A) (h : E -> E') c c' a : call m h c = (c', Ok a) -> m c = (c', Ok a).
Proof.
  unfold call. intros (c1 & r & Hm & Hk)%bind_inv. unfold db_try in Hm. destruct (m c) as [c2 r2]. simplify_eq.
  destruct r as [x|e]; [|done]. unfold db_ret in Hk. by simplify_eq.
Qed.
Lemma reads_sharing {E A} P (m : DB sharing_tables E A) (Q : share_world -> A -> Prop) :
  (forall w0, P w0 -> hoare (eq (sw_sharing w0)) m (fun t r => t = sw_sharing w0 /\ match r with Ok a => Q w0 a | Err _ => True end)) ->
  reads P (on_sharing m) Q.
Proof.
  intros Hm w0 Hp c Hc. unfold on_sharing, db_zoom. subst w0.
  destruct (Hm _ Hp (mkConn (configured c) (sw_sharing (tables c)) (faults c)) eq_refl) as [Ht Hr].
  destruct (m _) as [c' r]. simpl in *. rewrite Ht. split; [|done]. by destruct (tables c).
Qed.

(** Access checks are sound: they only let in who has access. *)
Section access.
Context `{SetScan} (dflt : Z).
Lemma userCanAccessTarget_sound t u tid now :
  hoare (eq t) (AccessGroups.userCanAccessTarget u tid dflt now) (fun _ r => r = Ok true -> AccessGroups.can_access t now u tid).
Proof.
  unfold AccessGroups.userCanAccessTarget, AccessGroups.allowedTargetIDSet.
  eapply (hoare_bind _ _ _ (fun _ r => match r with Ok ids => forall x, x ∈ ids -> AccessGroups.can_access t now u x | Err _ => True end)); [| |done].
  - eapply hoare_bind; [apply AccessGroups.TargetIDsForUser_sound| |done]. intros ids c Hids x. simpl. rewrite elem_of_list_to_set. apply Hids.
  - intros ids c Hids [= Hb]. apply Hids. by apply bool_decide_eq_true in Hb.
Qed.
Lemma can_reach_reads P u tid now :
  reads P (can_reach dflt u tid now) (fun w ok => ok = true -> AccessGroups.can_access (sw_access w) now u tid).
Proof.
  apply reads_call, reads_zoom. intros w0 _. eapply hoare_conseq; [apply userCanAccessTarget_sound|done|].
  intros _ [ok|] Hr; [|done]. intros ->. by apply Hr.
Qed.
(** The caller is the owner of a live session and still has access. *)
Definition owner_of (w : share_world) (kind : Kind) (e : request_env) (sessionID : string) (now : time) (s : sharingSessionMeta) : Prop :=
  find_session w kind sessionID = Some s /\ mt_OwnerID s = TrimSpace_s (currentUserID e) /\ mt_OwnerID s <> ""%string /\
  AccessGroups.can_access (sw_access w) now (mt_OwnerID s) (mt_TargetID s).
Lemma load_owned_reads P kind e sessionID now :
  reads P (load_owned dflt kind e sessionID now) (fun w s => owner_of w kind e sessionID now s).
Proof.
  unfold load_owned. case_decide as Hu; [apply reads_throw|].
  eapply reads_bind; [apply reads_look|]. intros [s|]; [|apply reads_throw]. case_decide as Ho; [apply reads_throw|].
  assert (Hown : mt_OwnerID s = TrimSpace_s (currentUserID e)) by (destruct (decide (mt_OwnerID s = TrimSpace_s (currentUserID e))); done).
  clear Ho. eapply reads_bind; [apply can_reach_reads|]. intros [|]; [|apply reads_throw].
  apply reads_ret. intros w [[_ [_ Hs]] Ha]. split; [done|]. split; [done|].
  split; [congruence|]. rewrite Hown. by apply Ha.
Qed.
Lemma owned_meta_reads P kind e sessionID now : kind = KindTerminal \/ kind = KindVNC \/ kind = KindRDP ->
  reads P (loadOwnedSharingMeta dflt kind e sessionID now) (fun w s => owner_of w kind e sessionID now s).
Proof. intros [->|[->| ->]]; apply load_owned_reads. Qed.
(** Who is found is one of the three kinds. *)
Lemma usernameFor_reads {E} P u : reads P (usernameFor (E:=E) u) (fun _ _ => True).
Proof.
  unfold usernameFor. eapply reads_bind; [by apply reads_any; intros; apply preserves_try, preserves_auth_part|].
  intros r. by apply reads_ret.
Qed.
End access.

(** ** Frames

    A property of the stores alone survives whatever the handlers do to rooms,
    bridges and events. *)
Lemma preserves_after_reads {E A B} P (m : DB share_world E A) (k : A -> DB share_world E B) Q :
  reads P m Q -> (forall a w, P w -> Q w a -> preserves P (k a)) -> preserves P (db_bind m k).
Proof.
  intros Hm Hk c Hc. unfold db_bind. destruct (Hm _ Hc c eq_refl) as [Ht Hr]. destruct (m c) as [c' [a|e]]; simpl in *; [|by rewrite Ht].
  apply (Hk a (tables c) Hc Hr). by rewrite Ht.
Qed.
Definition about_stores (P : share_world -> Prop) : Prop :=
  forall w w', sw_sharing w' = sw_sharing w -> sw_access w' = sw_access w -> sw_auth w' = sw_auth w -> P w -> P w'.
Section frames.
Context `{MapRange} `{SetScan} (dflt : Z) (P : share_world -> Prop) (HP : about_stores P) {E : Type}.
Lemma frame_memory {A} (f : share_world -> share_world * A) :
  (forall w, sw_sharing (f w).1 = sw_sharing w /\ sw_access (f w).1 = sw_access w /\ sw_auth (f w).1 = sw_auth w) -> preserves (E:=E) P (in_memory f).
Proof. intros Hf. apply preserves_in_memory. intros w Hw. destruct (Hf w) as (? & ? & ?). by eapply HP. Qed.
Lemma frame_modify (f : share_world -> share_world) :
  (forall w, sw_sharing (f w) = sw_sharing w /\ sw_access (f w) = sw_access w /\ sw_auth (f w) = sw_auth w) -> preserves (E:=E) P (modify f).
Proof. intros Hf. by apply frame_memory. Qed.
Lemma frame_username u : preserves (E:=E) P (usernameFor u).
Proof. unfold usernameFor. preserve. apply preserves_auth_part. Qed.
Lemma frame_event s ty u n x l : preserves (E:=E) P (publishSharingEvent s ty u n x l).
Proof. by apply frame_modify. Qed.
Lemma frame_event_for sid o ty u n x l : preserves (E:=E) P (publishSharingEventForSession sid o ty u n x l).
Proof. unfold publishSharingEventForSession. case_decide; [preserve|by apply frame_modify]. Qed.
Lemma frame_invitee u ty inv : preserves (E:=E) P (publishInvitationEventToInvitee u ty inv).
Proof. unfold publishInvitationEventToInvitee. case_decide; [preserve|]. apply preserves_bind; [apply frame_username|]. intros n. by apply frame_modify. Qed.
Lemma frame_ensure s now : preserves (E:=E) P (ensureRoomFor s now).
Proof. unfold ensureRoomFor. apply preserves_bind; [apply frame_username|]. intros n. apply frame_memory. intros w. by destruct (EnsureRoom _ _ _ _ _ _). Qed.
Lemma frame_ensure_meta s now : preserves (E:=E) P (ensureRoomForMeta s now).
Proof. unfold ensureRoomForMeta. apply preserves_bind; [apply preserves_look|]. intros [s'|]; [apply frame_ensure|preserve]. Qed.
Lemma frame_room {A} ref (d : A) f : preserves (E:=E) P (on_room ref d f).
Proof. apply frame_memory. intros w. destruct ref; [|done]. by destruct (with_room _ _ _ _). Qed.
Lemma frame_sync l sid ref : preserves (E:=E) P (modify (sync_bridge l sid ref)).
Proof. apply frame_modify. intros w. unfold sync_bridge. by destruct (br_Get w sid). Qed.
Lemma frame_disconnect s room u now : preserves (E:=E) P (disconnectSessionUser s room u now).
Proof. unfold disconnectSessionUser. destruct room; [|preserve]. case_decide; [preserve|]. apply preserves_bind; [apply frame_room|]. intros _. apply frame_sync. Qed.
End frames.
#[export] Hint Resolve frame_username frame_event frame_event_for frame_invitee frame_ensure frame_ensure_meta frame_room frame_sync frame_disconnect
  preserves_access_part preserves_auth_part preserves_look : share.
(** Like [preserve], for the operations of this file. *)
Ltac share_preserve :=
  repeat first
    [ progress preserve
    | simple apply preserves_call
    | simple apply preserves_access_part | simple apply preserves_auth_part | simple apply preserves_look
    | solve [eauto 2 with share] ].

(** ** A small world

    Alice's terminal session s1, which Bob joined with the link; both may reach
    the target. *)
Definition demo_share_access : access_tables :=
  mkAccess {["alice"; "bob"]}%string {["net"%string := "Net"%string]} {["t1"%string := AccessGroups.demo_row]}
    {[("alice"%string, "net"%string) := None; ("bob"%string, "net"%string) := None]} {[("net"%string, "t1"%string)]} ∅ ∅ ∅.
Definition demo_terminal : SessionManager.Manager :=
  (SessionManager.Start SessionManager.NewManager "s1" (SessionManager.mkStartOptions "alice" "t1" "router" "" "") 0).1.
Definition demo_room_registry : Registry :=
  (with_room demo_registry 0%nat tt (fun r => ((AddViewer r "bob" "Bob" "link" (time_Unix 1500)).1, tt))).1.
Definition demo_share : share_world :=
  mkShareWorld (tables demo_conn) demo_share_access (AuthStore.mkAuth ∅ ∅ ∅ ∅ 0 ∅ ∅ ∅ ∅ ∅) demo_terminal SessionManager.NewManager RdpManager.NewManager
    demo_room_registry {["s1"%string]} [] [].
Definition demo_caller (u : string) : request_env := mkRequestEnv (Ok u) (fun _ => Some false).
Lemma demo_room_bob : exists r p, room_of demo_room_registry "s1" = Some r /\ room_wf r /\ memberByID r !! ""%string = None /\
  memberByID r !! "bob"%string = Some p /\ p_Role p = RoleViewer /\ p_InvitationID p = "link"%string.
Proof.
  exists (AddViewer (new_room "s1" "t1" "alice" "Alice" 1) "bob" "Bob" "link" (time_Unix 1500)).1, (mkParticipant "bob" "Bob" RoleViewer (time_Unix 1500) "link").
  split; [vm_compute; reflexivity|]. split; [apply AddViewer_wf, new_room_wf|]. by vm_compute.
Qed.
