(* ===== verification/GroupHandlers.v ===== *)
(** The handlers of access groups, their members and tags
    (src/internal/httpapi/groups_handler.go) and of the tag picker
    (src/internal/httpapi/tags_handler.go), with the guard for group members of
    auth_helpers.go.

    The handlers work on the access tables; the user store is a lookup, [None] on
    any failure. [time.Parse] with RFC 3339 is a parameter. The audit log is not
    modelled. *)
From S2P Require Import Prelude GoText Sqlite Http AuthPolicy AuthStore AuthTokens AuthAdmin AccessValidate AccessDB AccessGroups AccessTargets AccessRequests Secret Credentials TargetHandlers TargetsBulk SharingWorld Middleware.
Local Open Scope Z_scope.

Abbreviation GroupM := (DB access_tables http_err).
Definition same_error {A} (m : AccessM A) : GroupM A := call m (fun _ => internal).

(** ** The route parameter *)
Definition unhex (c : Z) : option Z :=
  if ascii_digit c then Some (c - 48)
  else if in_range c 97 102 then Some (c - 97 + 10)
  else if in_range c 65 70 then Some (c - 65 + 10)
  else None.
(** [url.PathUnescape] *)
Fixpoint PathUnescape (l : list Z) : option (list Z) :=
  match l with
  | [] => Some []
  | 37 :: l =>
      match l with
      | a :: b :: l =>
          match unhex a, unhex b with
          | Some x, Some y => cons (Z.lor (Z.shiftl x 4) y) <$> PathUnescape l
          | _, _ => None
          end
      | _ => None
      end
  | c :: l => cons c <$> PathUnescape l
  end.
Definition groupIDParam (raw : string) : string :=
  TrimSpace_s (match PathUnescape (bs raw) with Some decoded => str_of decoded | None => raw end).

(** ** The tag a new group gets *)
Section default_tag.
Context `{UnicodeTables}.
Definition tag_rune (r : Z) : list Z :=
  if (r =? 47) || (r =? 32) || (r =? 9) || (r =? 46) then [95]
  else if (r =? 45) || (r =? 95) || uc_IsLetter r || uc_IsNumber r then encode_rune r
  else [95].
Fixpoint tag_bytes (b : list Z) (rs : list Z) : list Z :=
  match rs with
  | [] => b
  | r :: rs => let b := b ++ tag_rune r in if (64 <=? length b)%nat then b else tag_bytes b rs
  end.
Definition defaultGroupTag (groupID : string) : string :=
  let s := TrimSpace (bs groupID) in
  if bool_decide (s = []) then ""%string
  else
    let out := trim_right_byte (trim_left_byte (tag_bytes [] (runes s)) 95) 95 in
    if bool_decide (out = []) then ""%string
    else str_of (if (64 <? length out)%nat then take 64 out else out).
End default_tag.

(** ** Requests and responses *)
Record groupResponse := mkGroupResponse { gr_ID : string; gr_Name : string; gr_Targets : list targetResponse }.
Record memberResponse := mkMemberResponse { mr_ID : string; mr_Username : string; mr_Role : string; mr_ExpiresAt : option time; mr_Expired : bool }.
(** Who asks: the result of [currentUserIDWithError], and the user store. *)
Record group_env := mkGroupEnv { ge_user : result string string; ge_GetByID : string -> option User }.
Definition req_of (e : group_env) : request_env :=
  mkRequestEnv (ge_user e) (fun u => (fun x => bool_decide (u_Role x = RoleAdmin)) <$> ge_GetByID e u).

Section handlers.
Context `{UnicodeTables} `{SetScan} `{Crypto} (encKey : list Z) (strict : bool) (dflt : Z) (parse_time : string -> option time).

Definition requireGroupMemberOrAdmin (e : group_env) (now : time) (groupID : string) : GroupM string :=
  match ge_user e with
  | Err _ => db_throw internal
  | Ok u =>
      let userID := TrimSpace_s u in
      if is_empty userID then db_throw (Http 401 "common.unauthorized") else
      match ge_GetByID e userID with
      | None => db_throw (Http 401 "common.unauthorized")
      | Some u =>
          if bool_decide (u_Role u = RoleAdmin) then db_ret userID else
          let* gids := same_error (GroupIDsForUser userID None dflt now) in
          if bool_decide (groupID ∈ gids) then db_ret userID else db_throw (Http 403 "common.forbidden")
      end
  end.

(** ** Listing *)
Fixpoint targets_out (ts : list Target) : GroupM (list targetResponse) :=
  match ts with
  | [] => db_ret []
  | t :: ts =>
      let* tags := ignore (TagsForTarget (t_ID t)) in
      let* rest := targets_out ts in
      db_ret (targetToResponse t tags :: rest)
  end.
(** One group, or nothing where the loop goes on after an error. *)
Definition group_out (seen : string -> bool) (gid : string) : GroupM (option groupResponse) :=
  let* g := ignore (Get gid) in
  match g with
  | None => db_ret None
  | Some g =>
      let* tids := ignore (TargetIDsForGroup gid None dflt) in
      match tids with
      | None => db_ret None
      | Some tids =>
          let* ts := ignore (ListByIDs encKey strict dflt (filter (fun tid => seen tid = true) tids) None) in
          match ts with
          | None => db_ret None
          | Some ts => let* tout := targets_out ts in db_ret (Some (mkGroupResponse (g_ID g) (g_Name g) tout))
          end
      end
  end.
Fixpoint groups_out (seen : string -> bool) (gids : list string) : GroupM (list groupResponse) :=
  match gids with
  | [] => db_ret []
  | gid :: gids =>
      let* g := group_out seen gid in
      let* rest := groups_out seen gids in
      db_ret (match g with Some g => g :: rest | None => rest end)
  end.
(** The items and the cursor of the next page. *)
Definition handleGroups (e : group_env) (now : time) (after_id limit : string) : GroupM (list groupResponse * string) :=
  let userID := TrimSpace_s (currentUserID (req_of e)) in
  if is_empty userID then db_throw (Http 401 "common.unauthorized") else
  let opts := listOptsFromRequest after_id limit in
  let pageLimit := match opts with Some o => lo_Limit o | None => 0 end in
  let opts := (fun o => mkListOpts (pageLimit + 1) 0 (lo_AfterID o)) <$> opts in
  let* isAdmin := db_of (match currentUserIsAdmin (req_of e) with Ok b => Ok b | Err _ => Err internal end) in
  let* gids := same_error (if isAdmin : bool then AllGroupIDs opts dflt else GroupIDsForUser userID opts dflt now) in
  let more := bool_decide (opts <> None) && (0 <? pageLimit) && (pageLimit <? Z.of_nat (length gids)) in
  let gids := if more then take (Z.to_nat pageLimit) gids else gids in
  let nextCursor := if more then default ""%string (last gids) else ""%string in
  let* allowedSet := if isAdmin then db_ret ∅ else
    let* ids := same_error (TargetIDsForUser userID None dflt now) in db_ret (list_to_set ids : gset string) in
  let* items := groups_out (fun tid => isAdmin || bool_decide (tid ∈ allowedSet)) gids in
  db_ret (items, nextCursor).

(** ** Groups *)
(** The loop over identifiers: [None] means that it is still running. *)
Fixpoint create_group_loop (fuel i : nat) (base name : string) : GroupM (option string) :=
  match fuel with
  | O => db_ret None
  | S fuel =>
      let id := candidate base i in
      let* r := db_try (Create id name) in
      match r with
      | Ok _ => db_ret (Some id)
      | Err ErrGroupExists => create_group_loop fuel (S i) base name
      | Err err => db_throw (or_validation (fun _ => internal) err)
      end
  end.
Definition base_id (name path : string) : string :=
  if is_empty path then slugID name else path +:+ "/" +:+ slugID name.
(** [body]: name and path. *)
Definition handleCreateGroup (e : group_env) (body : option (string * string)) (fuel : nat) : GroupM (option groupResponse) :=
  let* _ := db_of (requireAdmin (req_of e)) in
  let userID := TrimSpace_s (currentUserID (req_of e)) in
  if is_empty userID then db_throw (Http 401 "common.unauthorized") else
  let* (name, path) := body_of body in
  let name := TrimSpace_s name in
  let path := normalizeTargetPath path in
  if is_empty name then db_throw (Http 400 "groups.nameRequired") else
  let* id := create_group_loop fuel 0 (base_id name path) name in
  match id with
  | None => db_ret None
  | Some id =>
      let* _ := same_error (AddUserToGroup userID id) in
      let tag := defaultGroupTag id in
      let* _ := if is_empty tag then db_ret None else ignore (SetGroupTags id [tag]) in
      db_ret (Some (mkGroupResponse id name []))
  end.
Definition group_param (group_id : string) : result http_err string :=
  let id := groupIDParam group_id in if is_empty id then Err (Http 400 "groups.idRequired") else Ok id.
Definition group_write_err (e : access_err) : http_err :=
  match e with ErrGroupNotFound => Http 404 "common.notFound" | _ => or_validation (fun _ => internal) e end.
Definition handleUpdateGroup (e : group_env) (group_id : string) (body : option string) : GroupM groupResponse :=
  let* _ := db_of (requireAdmin (req_of e)) in
  let* groupID := db_of (group_param group_id) in
  let* name := body_of body in
  let name := TrimSpace_s name in
  if is_empty name then db_throw (Http 400 "groups.nameRequired") else
  let* updated := call (Update groupID name) group_write_err in
  db_ret (mkGroupResponse (g_ID updated) (g_Name updated) []).
Definition handleDeleteGroup (e : group_env) (group_id : string) : GroupM unit :=
  let* _ := db_of (requireAdmin (req_of e)) in
  let* groupID := db_of (group_param group_id) in
  call (Delete groupID) group_write_err.

(** ** Members *)
Definition member_out (e : group_env) (m : Membership) : option memberResponse :=
  (fun u => mkMemberResponse (u_ID u) (u_Username u) (if is_empty (u_Role u) then RoleUser else u_Role u) (mb_ExpiresAt m) (mb_Expired m))
    <$> ge_GetByID e (mb_UserID m).
Definition handleGroupMembers (e : group_env) (now : time) (group_id : string) : GroupM (list memberResponse) :=
  let* _ := db_of (requireAdmin (req_of e)) in
  let* groupID := db_of (group_param group_id) in
  let* members := same_error (MembershipsForGroup groupID now) in
  db_ret (omap (member_out e) members).
Definition expires_at (now : time) (raw : string) : result http_err (option time) :=
  let raw := TrimSpace_s raw in
  if is_empty raw then Ok None
  else match parse_time raw with
       | None => Err (Http 400 "groups.expiresInvalid")
       | Some t => if After t now then Ok (Some t) else Err (Http 400 "groups.expiresInPast")
       end.
(** [body]: user_id and expires_at. *)
Definition handleAddGroupMember (e : group_env) (now : time) (group_id : string) (body : option (string * string)) : GroupM unit :=
  let* _ := db_of (requireAdmin (req_of e)) in
  let* groupID := db_of (group_param group_id) in
  let* (userID, rawExpiry) := body_of body in
  let userID := TrimSpace_s userID in
  if is_empty userID then db_throw (Http 400 "groups.userIDRequired") else
  match ge_GetByID e userID with
  | None => db_throw (Http 404 "users.userNotFound")
  | Some _ =>
      let* _ := call (Get groupID) group_err in
      let* expiresAt := db_of (expires_at now rawExpiry) in
      same_error (AddUserToGroupUntil userID groupID expiresAt)
  end.
Definition handleRemoveGroupMember (e : group_env) (group_id user_id : string) : GroupM unit :=
  let* _ := db_of (requireAdmin (req_of e)) in
  let groupID := groupIDParam group_id in
  let userID := TrimSpace_s user_id in
  if is_empty groupID || is_empty userID then db_throw (Http 400 "groups.groupAndUserIDRequired") else
  call (RemoveUserFromGroup userID groupID) group_err.

(** ** Tags *)
Definition handleGroupTags (e : group_env) (now : time) (group_id : string) : GroupM (list string) :=
  let* groupID := db_of (group_param group_id) in
  let* _ := requireGroupMemberOrAdmin e now groupID in
  call (TagsForGroup groupID) group_err.
Definition set_tags_err (e : access_err) : http_err :=
  match e with
  | ErrGroupNotFound => Http 404 "groups.notFound"
  | ErrTagLength => Http 400 "tags.lengthInvalid"
  | ErrTagChars => Http 400 "tags.charsInvalid"
  | _ => internal
  end.
Definition handleSetGroupTags (e : group_env) (group_id : string) (body : option (list string)) : GroupM (list string) :=
  let* _ := db_of (requireAdmin (req_of e)) in
  let* groupID := db_of (group_param group_id) in
  let* tags := body_of body in
  let* _ := call (SetGroupTags groupID tags) set_tags_err in
  db_ret tags.

(** The tables with two key columns, by their name in the schema (migrate.go). *)
Definition key_columns (name : string) : option (access_tables -> list (string * string)) :=
  if bool_decide (name = "user_tags")%string then Some (fun t => elements (user_tags t))
  else if bool_decide (name = "target_tags")%string then Some (fun t => elements (target_tags t))
  else if bool_decide (name = "group_tags")%string then Some (fun t => elements (group_tags t))
  else if bool_decide (name = "group_targets")%string then Some (fun t => elements (group_targets t))
  else if bool_decide (name = "user_groups")%string then Some (fun t => (map_to_list (user_groups t)).*1)
  else None.
(** A statement that reads tables by name. *)
Definition rows_of (name : string) (t : access_tables) : result string (list (string * string)) :=
  match key_columns name with Some rows => Ok (rows t) | None => Err ("no such table: " +:+ name)%string end.
Definition select {A} (f : access_tables -> result string A) : GroupM A :=
  db_exec (fun t => match f t with Ok a => Ok (t, a) | Err msg => Err msg end).
Fixpoint target_tag_sets (tids : list string) : GroupM (gset string) :=
  match tids with
  | [] => db_ret ∅
  | tid :: tids =>
      let* tags := ignore (TagsForTarget tid) in
      let* rest := target_tag_sets tids in
      db_ret (list_to_set (default [] tags) ∪ rest)
  end.
Definition handleListTags (e : group_env) (now : time) : GroupM (list string) :=
  let userID := TrimSpace_s (currentUserID (req_of e)) in
  if is_empty userID then db_throw (Http 401 "common.unauthorized") else
  let admin := match ge_GetByID e userID with Some u => bool_decide (u_Role u = RoleAdmin) | None => false end in
  if admin then
    let* tags := select (fun t => let? a := rows_of "user_tags" t in let? b := rows_of "target_tags" t in let? c := rows_of "group_tags" t in
                                  Ok (a.*2 ++ b.*2 ++ c.*2)) in
    db_ret (sorted_ids (list_to_set tags))
  else
    let* mine := select (fun t => let? a := rows_of "user_tags" t in Ok (filter (fun ut : string * string => ut.1 = userID) a).*2) in
    let* groups := select (fun t =>
      let? gt := rows_of "group_tags" t in
      let? gm := rows_of "group_members" t in
      Ok (filter (fun gt : string * string => (userID, gt.1) ∈ gm) gt).*2) in
    let* allowed := ignore (allowedTargetIDSet userID dflt now) in
    let* reached := match allowed with None => db_ret ∅ | Some ids => target_tag_sets (elements ids) end in
    db_ret (sorted_ids (list_to_set mine ∪ list_to_set groups ∪ reached)).
End handlers.

(** ** Who changes what *)
Inductive group_request :=
| GList (e : group_env) (now : time) (after_id limit : string)
| GCreate (e : group_env) (body : option (string * string)) (fuel : nat)
| GUpdate (e : group_env) (group_id : string) (body : option string)
| GDelete (e : group_env) (group_id : string)
| GMembers (e : group_env) (now : time) (group_id : string)
| GAdd (e : group_env) (now : time) (group_id : string) (body : option (string * string))
| GRemove (e : group_env) (group_id user_id : string)
| GTags (e : group_env) (now : time) (group_id : string)
| GSetTags (e : group_env) (group_id : string) (body : option (list string))
| GListTags (e : group_env) (now : time).
Definition asker (q : group_request) : group_env :=
  match q with
  | GList e _ _ _ | GCreate e _ _ | GUpdate e _ _ | GDelete e _ | GMembers e _ _ | GAdd e _ _ _ | GRemove e _ _ | GTags e _ _
  | GSetTags e _ _ | GListTags e _ => e
  end.
Definition is_admin (e : group_env) : bool := is_ok (requireAdmin (req_of e)).

Section who.
Context `{UnicodeTables} `{SetScan} `{Crypto} (encKey : list Z) (strict : bool) (dflt : Z) (parse_time : string -> option time).
Definition done_with {A} (m : GroupM A) : GroupM unit := let* _ := m in db_ret tt.
Definition group_handle (q : group_request) : GroupM unit :=
  match q with
  | GList e now a l => done_with (handleGroups encKey strict dflt e now a l)
  | GCreate e body fuel => done_with (handleCreateGroup e body fuel)
  | GUpdate e id body => done_with (handleUpdateGroup e id body)
  | GDelete e id => handleDeleteGroup e id
  | GMembers e now id => done_with (handleGroupMembers e now id)
  | GAdd e now id body => handleAddGroupMember parse_time e now id body
  | GRemove e id u => handleRemoveGroupMember e id u
  | GTags e now id => done_with (handleGroupTags dflt e now id)
  | GSetTags e id body => done_with (handleSetGroupTags e id body)
  | GListTags e now => done_with (handleListTags dflt e now)
  end.
Definition group_run (qs : list group_request) (c : conn access_tables) : conn access_tables :=
  foldl (fun c q => (group_handle q c).1) c qs.

Lemma preserves_same_error {A} P (m : AccessM A) : preserves P m -> preserves P (same_error m).
Proof. apply preserves_call. Qed.
Lemma TargetIDsForUser_reads u opts now P : preserves P (TargetIDsForUser u opts dflt now).
Proof. unfold TargetIDsForUser. preserve. Qed.
Lemma GroupIDsForUser_reads u opts now P : preserves P (GroupIDsForUser u opts dflt now).
Proof. unfold GroupIDsForUser. preserve. Qed.
Ltac reads_only :=
  unfold TagsForTarget, TagsForGroup, Get, TargetIDsForGroup, AllGroupIDs in *;
  repeat (preserve; try first
    [ simple apply preserves_same_error | simple apply preserves_call | simple apply preserves_ignore
    | simple apply TargetIDsForUser_reads | simple apply GroupIDsForUser_reads | simple apply ListByIDs_reads ]).
Lemma targets_out_reads ts P : preserves P (targets_out ts).
Proof. induction ts as [|x ts IH]; simpl; [apply preserves_ret|]. reads_only. apply IH. Qed.
Lemma group_out_reads seen gid P : preserves P (group_out encKey strict dflt seen gid).
Proof. unfold group_out. reads_only. apply targets_out_reads. Qed.
Lemma groups_out_reads seen gids P : preserves P (groups_out encKey strict dflt seen gids).
Proof. induction gids as [|g gids IH]; simpl; [apply preserves_ret|]. preserve; [apply group_out_reads|apply IH]. Qed.
Lemma target_tag_sets_reads tids P : preserves P (target_tag_sets tids).
Proof. induction tids as [|x tids IH]; simpl; [apply preserves_ret|]. reads_only. apply IH. Qed.
Lemma select_reads {A} (f : access_tables -> result string A) P : preserves P (select f).
Proof. apply preserves_exec. intros t t' a Ht. destruct (f t); by intros [= <- _]. Qed.

(** A handler that starts with [requireAdmin] does nothing for anybody else. *)
Lemma admin_only {A} (e : group_env) (k : GroupM A) P : is_admin e = false ->
  preserves P (let* _ := db_of (requireAdmin (req_of e)) in k).
Proof. unfold is_admin. intros Ha c Hc. unfold db_bind, db_of. by destruct (requireAdmin (req_of e)). Qed.
Lemma refused_outright {A} (e : group_env) (k : GroupM A) err c : requireAdmin (req_of e) = Err err ->
  (let* _ := db_of (requireAdmin (req_of e)) in k) c = (c, Err err).
Proof. intros Ha. unfold db_bind, db_of. by rewrite Ha. Qed.
Lemma group_handle_reads q P : is_admin (asker q) = false -> preserves P (group_handle q).
Proof.
  intros Ha. destruct q; simpl in *.
  all: unfold handleCreateGroup, handleUpdateGroup, handleDeleteGroup, handleGroupMembers, handleAddGroupMember, handleRemoveGroupMember,
    handleSetGroupTags, done_with;
    try (apply preserves_bind; [|intros ?; apply preserves_ret]); try (by apply admin_only).
  - unfold handleGroups. reads_only; apply groups_out_reads.
  - unfold handleGroupTags, requireGroupMemberOrAdmin, TagsForGroup. reads_only.
  - unfold handleListTags, allowedTargetIDSet. reads_only; first [apply select_reads | apply target_tag_sets_reads].
Qed.
(** The requests that the handlers keep to administrators. *)
Definition admin_request (q : group_request) : bool :=
  match q with
  | GCreate _ _ _ | GUpdate _ _ _ | GDelete _ _ | GMembers _ _ _ | GAdd _ _ _ _ | GRemove _ _ _ | GSetTags _ _ _ => true
  | GList _ _ _ _ | GTags _ _ _ | GListTags _ _ => false
  end.
Lemma admin_request_refused q err c : admin_request q = true -> requireAdmin (req_of (asker q)) = Err err -> group_handle q c = (c, Err err).
Proof.
  destruct q; simpl; try done; intros _ Ha; unfold done_with, handleCreateGroup, handleUpdateGroup, handleDeleteGroup, handleGroupMembers,
    handleAddGroupMember, handleRemoveGroupMember, handleSetGroupTags; try (by apply refused_outright);
    unfold db_bind at 1; by rewrite (refused_outright _ _ _ _ Ha).
Qed.

(** C30. Requests about groups, members and tags that do not come from an
    administrator - whoever sends them, in any order and with any statements
    failing - leave every access table as it was. Each of them that would
    create, rename or delete a group, list, add or remove a member or set tags is
    answered with the refusal of the guard before it runs any statement. *)
Theorem only_admins_change_groups qs c : Forall (fun q => is_admin (asker q) = false) qs ->
  tables (group_run qs c) = tables c /\
  forall q c', q ∈ qs -> admin_request q = true ->
    exists err, requireAdmin (req_of (asker q)) = Err err /\ group_handle q c' = (c', Err err).
Proof.
  intros Hqs. split.
  - induction Hqs as [|q qs Hq _ IH] in c |- *; simpl; [done|]. rewrite IH.
    exact (group_handle_reads q (fun t => t = tables c) Hq c eq_refl).
  - intros q c' Hin Hw. rewrite Forall_forall in Hqs. specialize (Hqs q Hin). unfold is_admin in Hqs.
    destruct (requireAdmin (req_of (asker q))) as [[]|err] eqn:Ha; [done|]. exists err. split; [done|]. by apply admin_request_refused.
Qed.
(** An administrator who removes a member of a group that exists deletes that
    membership and nothing else. *)
Lemma admin_removes_member e gid uid c : is_admin e = true -> healthy c -> groupIDParam gid <> ""%string -> TrimSpace_s uid <> ""%string ->
  is_Some (access_groups (tables c) !! groupIDParam gid) ->
  handleRemoveGroupMember e gid uid c =
    (set_tables c (with_user_groups (tables c) (delete (TrimSpace_s uid, groupIDParam gid) (user_groups (tables c)))), Ok tt).
Proof.
  unfold is_admin. intros He Hc Hg Hu [name Hname]. unfold handleRemoveGroupMember, db_bind at 1, db_of.
  destruct (requireAdmin (req_of e)) as [[]|]; [|done]. cbv zeta. unfold is_empty. rewrite !bool_decide_false by done. simpl.
  unfold call, RemoveUserFromGroup, require_group. unfold db_bind at 1, db_try. unfold db_bind at 1, db_bind at 1.
  rewrite query_healthy by done. rewrite Hname. simpl. rewrite exec_healthy by done. done.
Qed.
End who.

(** ** What the listing shows *)
Section listing.
Context `{UnicodeTables} `{SetScan} `{Crypto} (encKey : list Z) (strict : bool) (dflt : Z).
Lemma elem_drop {A} (x : A) n l : x ∈ drop n l -> x ∈ l.
Proof. intros Hx. rewrite <- (take_drop n l). apply elem_of_app. by right. Qed.
Lemma elem_page_ids limit offset ids page id : page_ids limit offset ids = Ok page -> id ∈ page -> id ∈ ids.
Proof.
  unfold page_ids. intros Hp Hin. repeat case_match; simplify_eq; try done; [by apply not_elem_of_nil in Hin|..];
    eapply elem_drop, elem_take; exact Hin.
Qed.
Lemma elem_unique_ids seen ids id : id ∈ unique_ids seen ids -> id ∈ ids.
Proof.
  revert seen. induction ids as [|i ids IH]; intros seen; simpl; [done|]. case_decide; rewrite ?elem_of_cons; [eauto|]. intros [->|Hin]; eauto.
Qed.
Definition keyed (m : gmap string Target) : Prop := forall id x, m !! id = Some x -> t_ID x = id.
Lemma rows_in_keyed chunk t : keyed (rows_in encKey strict chunk t).
Proof.
  intros id x. unfold rows_in. rewrite map_lookup_imap. destruct (filter _ _ !! id) as [r|]; [|done]. simpl.
  case_match; [|done]. intros [= <-]. done.
Qed.
Lemma load_chunks_keyed fuel ids m c c' m' : keyed m -> load_chunks encKey strict fuel ids m c = (c', Ok m') -> keyed m'.
Proof.
  revert ids m c. induction fuel as [|fuel IH]; intros [|i ids] m c Hm; simpl; [by intros [= _ <-]..|].
  intros Hr. apply bind_inv in Hr as (c1 & rows & Hq & Hr). apply query_tables in Hq as [_ Hrows]. specialize (Hrows _ eq_refl). subst rows.
  eapply IH; [|exact Hr]. intros id x Hx. apply lookup_union_Some_raw in Hx as [Hx|[_ Hx]]; [by eapply rows_in_keyed|by apply Hm].
Qed.
Lemma ListByIDs_sub ids opts c c' ts x : ListByIDs encKey strict dflt ids opts c = (c', Ok ts) -> x ∈ ts -> t_ID x ∈ ids.
Proof.
  unfold ListByIDs. destruct (listLimit opts dflt) as [limit offset]. intros Hr Hx. apply bind_inv in Hr as (c1 & page & Hp & Hr).
  injection Hp as _ Hp. case_decide; [injection Hr as _ <-; by apply not_elem_of_nil in Hx|].
  apply bind_inv in Hr as (c2 & m & Hm & Hr). injection Hr as _ <-. apply list_elem_of_omap in Hx as (id & Hid & Hl).
  apply load_chunks_keyed in Hm; [|done]. rewrite (Hm _ _ Hl). eapply elem_page_ids, elem_unique_ids; eauto.
Qed.
Lemma targets_out_ids ts c c' out : targets_out ts c = (c', Ok out) -> rp_ID <$> out = t_ID <$> ts.
Proof.
  revert c c' out. induction ts as [|x ts IH]; intros c c' out; simpl; [by intros [= _ <-]|]. intros Hr.
  apply bind_inv in Hr as (c1 & tags & _ & Hr). apply bind_inv in Hr as (c2 & rest & Hrest & Hr). injection Hr as _ <-.
  simpl. f_equal. eauto.
Qed.
Lemma group_out_seen seen gid c c' g r : group_out encKey strict dflt seen gid c = (c', Ok (Some g)) -> r ∈ gr_Targets g -> seen (rp_ID r) = true.
Proof.
  unfold group_out. intros Hr Hin. apply bind_inv in Hr as (c1 & [g0|] & _ & Hr); [|done]. apply bind_inv in Hr as (c2 & [tids|] & _ & Hr); [|done].
  apply bind_inv in Hr as (c3 & [ts|] & Hts & Hr); [|done]. apply bind_inv in Hr as (c4 & out & Hout & Hr). injection Hr as _ <-. simpl in Hin.
  assert (Hx : rp_ID r ∈ t_ID <$> ts) by (rewrite <- (targets_out_ids _ _ _ _ Hout); by apply list_elem_of_fmap_2).
  apply list_elem_of_fmap in Hx as (x & Hx & Hxin). unfold ignore, db_bind, db_try in Hts.
  destruct (ListByIDs _ _ _ _ _ c2) as [c3' [ts'|]] eqn:El; [|done]. injection Hts as _ ->.
  pose proof (ListByIDs_sub _ _ _ _ _ _ El Hxin) as Hf. rewrite Hx. by apply list_elem_of_filter in Hf as [? _].
Qed.
Lemma groups_out_seen seen gids c c' out g r : groups_out encKey strict dflt seen gids c = (c', Ok out) -> g ∈ out -> r ∈ gr_Targets g ->
  seen (rp_ID r) = true.
Proof.
  revert c c' out. induction gids as [|gid gids IH]; intros c c' out; simpl; [intros [= _ <-]; by intros ?%not_elem_of_nil|].
  intros Hr. apply bind_inv in Hr as (c1 & o & Ho & Hr). apply bind_inv in Hr as (c2 & rest & Hrest & Hr). injection Hr as _ <-.
  destruct o as [g'|]; [|by eapply IH]. rewrite elem_of_cons. intros [->|Hg]; [by eapply group_out_seen|by eapply IH].
Qed.

(** The list of groups shows a user who is not an administrator only targets
    the user can reach: whatever the tables hold, whatever page was asked for and
    whatever statements fail. *)
Theorem group_list_is_entitled e now after_id limit u c c' items next g r :
  ge_user e = Ok u -> is_admin e = false ->
  handleGroups encKey strict dflt e now after_id limit c = (c', Ok (items, next)) -> g ∈ items -> r ∈ gr_Targets g ->
  can_access (tables c) now (TrimSpace_s u) (rp_ID r).
Proof.
  intros Hu Hna. unfold handleGroups. cbv zeta. assert (Hcu : currentUserID (req_of e) = u) by (unfold currentUserID; simpl; by rewrite Hu). rewrite Hcu.
  destruct (is_empty (TrimSpace_s u)); [done|]. intros Hr Hg Hin. apply bind_inv in Hr as (c1 & adm & Ha & Hr). injection Ha as <- Ha.
  assert (adm = false) as ->.
  { unfold currentUserIsAdmin in Ha. unfold is_admin, requireAdmin in Hna. cbn [req_of re_user re_is_admin] in *. rewrite Hu in *.
    case_decide; [congruence|]. destruct (ge_GetByID e u) as [v|]; simpl in *; [|congruence].
    destruct (bool_decide (u_Role v = RoleAdmin)); [done|congruence]. }
  apply bind_inv in Hr as (c2 & gids & Hgids & Hr).
  assert (Ht2 : tables c2 = tables c).
  { pose proof (preserves_same_error (fun t => t = tables c) _ (GroupIDsForUser_reads dflt (TrimSpace_s u)
      ((fun o => mkListOpts (match listOptsFromRequest after_id limit with Some o => lo_Limit o | None => 0 end + 1) 0 (lo_AfterID o)) <$> listOptsFromRequest after_id limit) now
      (fun t => t = tables c)) c eq_refl) as Hp. by rewrite Hgids in Hp. }
  apply bind_inv in Hr as (c3 & allowed & Hallowed & Hr). apply bind_inv in Hr as (c4 & out & Hout & Hr). injection Hr as _ <- _.
  pose proof (groups_out_seen _ _ _ _ _ _ _ Hout Hg Hin) as Hseen. simpl in Hseen. apply bool_decide_eq_true in Hseen.
  apply bind_inv in Hallowed as (c5 & ids & Hids & Hallowed). injection Hallowed as _ <-. rewrite elem_of_list_to_set in Hseen.
  unfold same_error, call, db_bind, db_try in Hids. destruct (TargetIDsForUser _ _ _ _ c2) as [c6 [ids'|]] eqn:Ei; [|done]. injection Hids as _ ->.
  pose proof (TargetIDsForUser_sound dflt (tables c) (TrimSpace_s u) None now c2) as Hsound. rewrite Ei in Hsound. by apply Hsound.
Qed.
End listing.

(** ** Creating a group *)
Section create.
Context `{UnicodeTables} `{SetScan} `{Crypto}.
Lemma Create_ok id name c c' a : Create id name c = (c', Ok a) ->
  access_groups (tables c) !! id = None /\ tables c' = with_groups (tables c) (<[id := name]> (access_groups (tables c))) /\ validateGroupID id = Ok tt.
Proof.
  unfold Create. intros Hr. apply bind_inv in Hr as (c1 & [] & Hv & Hr). injection Hv as <- Hv. apply bind_inv in Hr as (c2 & [] & Hn & Hr).
  injection Hn as <- _. apply bind_inv in Hr as (c3 & [[]|] & He & Hr); [|done]. injection Hr as <- _.
  unfold db_catch, db_exec, db_call in He.
  destruct (faults c) as [|[msg|] fs]; simpl in He; [|done|]; (destruct (access_groups (tables c) !! id) eqn:El; [done|]); injection He as <-; done.
Qed.
Lemma Create_err id name c c' e : Create id name c = (c', Err e) -> tables c' = tables c.
Proof.
  unfold Create, db_bind, db_of, db_catch, db_exec, db_call. intros Hr.
  destruct (validateGroupID id); [|by injection Hr as <- _]. destruct (validateName name); [|by injection Hr as <- _].
  destruct (faults c) as [|[msg|] fs]; simpl in Hr; try (by injection Hr as <- _); destruct (access_groups (tables c) !! id); first [discriminate Hr | by injection Hr as <- _].
Qed.
Lemma Create_run id name c : healthy c ->
  Create id name c =
  match validateGroupID id, validateName name with
  | Err e, _ | Ok _, Err e => (c, Err e)
  | Ok _, Ok _ =>
      match access_groups (tables c) !! id with
      | Some _ => (c, Err ErrGroupExists)
      | None => (set_tables c (with_groups (tables c) (<[id := name]> (access_groups (tables c)))), Ok (mkGroup id name))
      end
  end.
Proof.
  intros Hc. unfold Create, db_bind, db_of, db_catch. destruct (validateGroupID id); [|done]. destruct (validateName name); [|done].
  rewrite exec_healthy by done. by destruct (access_groups (tables c) !! id).
Qed.
Lemma Create_exists id name c : healthy c ->
  (exists a, (Create id name c).2 = Ok a) \/
  (exists err, Create id name c = (c, Err err) /\ (err = ErrGroupExists -> is_Some (access_groups (tables c) !! id))).
Proof.
  intros Hc. rewrite Create_run by done.
  assert (Hvi : validateGroupID id <> Err ErrGroupExists) by (unfold validateGroupID; repeat case_match; done).
  assert (Hvn : validateName name <> Err ErrGroupExists) by (unfold validateName; repeat case_match; done).
  destruct (validateGroupID id); [|right; eexists; split; [done|congruence]].
  destruct (validateName name); [|right; eexists; split; [done|congruence]].
  destruct (access_groups (tables c) !! id) eqn:El; [right|left; by eexists]. eexists. split; [done|eauto].
Qed.
Lemma create_group_loop_ok fuel i base name c c' id : create_group_loop fuel i base name c = (c', Ok (Some id)) ->
  access_groups (tables c) !! id = None /\ tables c' = with_groups (tables c) (<[id := name]> (access_groups (tables c))) /\
  validateGroupID id = Ok tt /\ exists j, id = candidate base j.
Proof.
  revert i c. induction fuel as [|fuel IH]; intros i c; [done|]. simpl. unfold db_bind at 1, db_try.
  destruct (Create (candidate base i) name c) as [c1 [a|err]] eqn:Ec.
  - intros [= <- <-]. apply Create_ok in Ec as (? & ? & ?). eauto 10.
  - intros Hr. destruct err; try discriminate Hr.
    assert (Ht : tables c1 = tables c) by (by eapply Create_err).
    destruct (IH _ _ Hr) as (Hn & Ht' & Hv & Hj). rewrite Ht in *. done.
Qed.

Lemma call_inv_access {A} (m : AccessM A) c c' a : same_error m c = (c', Ok a) -> m c = (c', Ok a).
Proof. unfold same_error, call, db_bind, db_try. destruct (m c) as [c1 [x|]]; [by intros [= <- <-]|done]. Qed.
Lemma tx_ok {A} (body : AccessM A) c c' a : db_tx body c = (c', Ok a) ->
  exists c0 c1, tables c0 = tables c /\ body c0 = (c1, Ok a) /\ tables c' = tables c1.
Proof.
  unfold db_tx. destruct (db_call c) as [c0 [[]|]] eqn:E0; [|done]. pose proof (tables_db_call (E := access_err) c) as H0'. rewrite E0 in H0'.
  destruct (body c0) as [c1 [x|]] eqn:E1; [|done]. destruct (db_call c1) as [c2 [[]|]] eqn:E2; [|done].
  pose proof (tables_db_call (E := access_err) c1) as H2'. rewrite E2 in H2'. intros [= <- <-]. eauto.
Qed.
Lemma AddUser_ok u g exp c c' : AddUserToGroupUntil u g exp c = (c', Ok tt) ->
  tables c' = with_user_groups (tables c) (<[(u, g) := Unix <$> exp]> (user_groups (tables c))).
Proof.
  intros (c0 & c1 & H0' & Hb & ->)%tx_ok. apply bind_inv in Hb as (c2 & [] & Eg & Hb).
  pose proof (preserves_require_group (fun t => t = tables c0) g c0 eq_refl) as Hp. rewrite Eg in Hp. simpl in Hp.
  unfold db_exec, db_call in Hb.
  destruct (faults c2) as [|[msg|] fs]; simpl in Hb; [|done|]; (case_decide; [|done]); injection Hb as <-; simpl; by rewrite Hp, H0'.
Qed.
(** A group that the handler reports as created is new, its first identifier
    series is that of the request, and its only member so far is its creator,
    without expiry; the other groups and memberships are as before. *)
Theorem created_group_has_creator e body fuel u c c' r :
  ge_user e = Ok u -> handleCreateGroup e body fuel c = (c', Ok (Some r)) ->
  is_admin e = true /\ access_groups (tables c) !! gr_ID r = None /\
  access_groups (tables c') = <[gr_ID r := gr_Name r]> (access_groups (tables c)) /\
  user_groups (tables c') = <[(TrimSpace_s u, gr_ID r) := None]> (user_groups (tables c)) /\
  targets (tables c') = targets (tables c).
Proof.
  intros Hu. unfold handleCreateGroup. cbv zeta. assert (Hcu : currentUserID (req_of e) = u) by (unfold currentUserID; simpl; by rewrite Hu).
  rewrite Hcu. intros Hr. apply bind_inv in Hr as (c1 & [] & Ha & Hr). injection Ha as <- Ha. destruct (is_empty (TrimSpace_s u)); [done|].
  apply bind_inv in Hr as (c2 & [name path] & Hb & Hr). destruct body as [[name0 path0]|]; [|done]. injection Hb as <- -> ->.
  destruct (is_empty (TrimSpace_s name)); [done|]. apply bind_inv in Hr as (c3 & [id|] & Hl & Hr); [|done].
  apply create_group_loop_ok in Hl as (Hnone & Ht3 & _ & _). apply bind_inv in Hr as (c4 & [] & Hadd & Hr).
  apply bind_inv in Hr as (c5 & x & Htag & Hr). injection Hr as <- <-. cbn [gr_ID gr_Name].
  apply call_inv_access, AddUser_ok in Hadd.
  rename Hadd into Ht4.
  assert (Htags : forall P, (forall t x, P t -> P (with_group_tags t x)) ->
    preserves P (if is_empty (defaultGroupTag id) then db_ret None else ignore (E' := http_err) (SetGroupTags id [defaultGroupTag id]))).
  { intros P HP. destruct (is_empty _); [apply preserves_ret|]. apply preserves_ignore. unfold SetGroupTags, require_group. cbn [insert_group_tags].
    preserve; apply preserves_exec; intros t t' [] Ht Hf; [by injection Hf as <-; apply HP|].
    repeat case_decide; simplify_eq. by apply HP. }
  set (Pk := fun t : access_tables => access_groups t = access_groups (tables c4) /\ user_groups t = user_groups (tables c4) /\ targets t = targets (tables c4)).
  pose proof (Htags Pk ltac:(done) c4 ltac:(done)) as Hk. rewrite Htag in Hk. change (Pk (tables c5)) in Hk. destruct Hk as (Hk1 & Hk2 & Hk3).
  rewrite Hk1, Hk2, Hk3, Ht4, Ht3. simpl. split_and!; try done. unfold is_admin. by rewrite Ha.
Qed.

(** The loop over identifiers of a new group ends: on a database that answers
    it makes at most one attempt more than there are groups, and a group it
    creates has the first free identifier of its series. *)
Theorem group_loop_terminates fuel base name c : healthy c -> (size (access_groups (tables c)) < fuel)%nat ->
  (create_group_loop fuel 0 base name c).2 <> Ok None /\
  forall c' id, create_group_loop fuel 0 base name c = (c', Ok (Some id)) ->
    exists j, (j <= size (access_groups (tables c)))%nat /\ id = candidate base j /\
      forall i, (i < j)%nat -> is_Some (access_groups (tables c) !! candidate base i).
Proof.
  intros Hc Hfuel.
  assert (Hloop : forall n i, 
    ((create_group_loop n i base name c).2 = Ok None -> forall j, (j < n)%nat -> is_Some (access_groups (tables c) !! candidate base (i + j))) /\
    (forall c' id, create_group_loop n i base name c = (c', Ok (Some id)) -> exists j, (j < n)%nat /\ id = candidate base (i + j) /\
       forall j', (j' < j)%nat -> is_Some (access_groups (tables c) !! candidate base (i + j')))).
  { induction n as [|n IH]; intros i; simpl; [by split; [lia|]|]. unfold db_bind at 1 2, db_try.
    destruct (Create_exists (candidate base i) name c Hc) as [[a Ha]|(err & He & Hex)].
    - destruct (Create (candidate base i) name c) as [c1 r1]. simpl in Ha. subst r1. simpl. split; [done|].
      intros c' id [= _ <-]. exists O. rewrite Nat.add_0_r. split_and!; [lia|done|lia].
    - rewrite He. cbn [fst snd]. destruct (decide (err = ErrGroupExists)) as [->|Hne].
      2: { destruct err; simpl; done. }
      specialize (Hex eq_refl). destruct (IH (S i)) as [IH1 IH2]. split.
      + intros Hn [|j] Hj; [by rewrite Nat.add_0_r|]. replace (i + S j)%nat with (S i + j)%nat by lia. apply IH1; [done|lia].
      + intros c' id Hr. destruct (IH2 _ _ Hr) as (j & Hj & -> & Hb). exists (S j). replace (i + S j)%nat with (S i + j)%nat by lia.
        split_and!; [lia|done|]. intros [|j'] Hj'; [by rewrite Nat.add_0_r|]. replace (i + S j')%nat with (S i + j')%nat by lia. apply Hb. lia. }
  destruct (Hloop fuel O) as [Hn Hs]. split.
  - intros Hres. destruct (free_candidate (access_groups (tables c)) base fuel Hfuel) as (i & Hi & Hfree).
    destruct (Hn Hres i Hi) as [r Hr]. simpl in Hr. congruence.
  - intros c' id Hr. destruct (Hs _ _ Hr) as (j & Hj & -> & Hb). exists j. simpl in *. split_and!; [|done|done].
    destruct (free_candidate (access_groups (tables c)) base (S (size (access_groups (tables c))))) as (i & Hi & Hfree); [lia|].
    destruct (decide (i < j)%nat) as [Hlt|]; [|lia]. destruct (Hb i Hlt) as [r Hr']. congruence.
Qed.
(** While the INSERT fails, for whatever reason, the loop goes on. *)
Theorem group_loop_spins n base name msgs rest : forall i c,
  (forall j, (j < n)%nat -> validateGroupID (candidate base (i + j)) = Ok tt) -> validateName name = Ok tt ->
  length msgs = n -> faults c = (Some <$> msgs) ++ rest -> (create_group_loop n i base name c).2 = Ok None.
Proof.
  revert msgs. induction n as [|n IH]; intros msgs i c Hv Hn Hl Hf; [done|]. simpl. destruct msgs as [|m msgs]; [done|].
  assert (Hc : Create (candidate base i) name c = (mkConn (configured c) (tables c) ((Some <$> msgs) ++ rest), Err ErrGroupExists)).
  { unfold Create, db_bind, db_of, db_catch, db_exec, db_call. specialize (Hv O ltac:(lia)). rewrite Nat.add_0_r in Hv. rewrite Hv, Hn, Hf. done. }
  unfold db_bind at 1, db_try. rewrite Hc. apply (IH msgs); [|done|by injection Hl|done].
  intros j Hj. replace (S i + j)%nat with (i + S j)%nat by lia. apply Hv. lia.
Qed.
End create.

(** ** The default tag *)
Section tags.
Context `{UnicodeTables} `{SetScan} `{Crypto}.
Lemma id_char_graphic b : id_char b = true -> graphic b /\ in_range b 0 0x7F = true.
Proof.
  unfold id_char, alnum, ascii_upper, ascii_lower, ascii_digit, in_range, graphic.
  rewrite !orb_true_iff, !andb_true_iff, !Z.leb_le, !Z.eqb_eq. lia.
Qed.
Lemma tag_rune_ascii b : id_char b = true \/ b = slash -> exists d, tag_rune b = [d] /\ id_char d = true.
Proof.
  intros [Hb| ->]; [|by exists 95]. destruct (id_char_graphic _ Hb) as [Hg Hr]. exists b. split; [|done].
  unfold graphic in Hg. unfold tag_rune. rewrite uc_ascii_letter, uc_ascii_number by done.
  assert (Hsep : (b =? 47) || (b =? 32) || (b =? 9) || (b =? 46) = false).
  { revert Hb. unfold id_char, alnum, ascii_upper, ascii_lower, ascii_digit, in_range.
    rewrite !orb_true_iff, !andb_true_iff, !Z.leb_le, !Z.eqb_eq, !orb_false_iff, !Z.eqb_neq. lia. }
  rewrite Hsep. assert (Hok : (b =? 45) || (b =? 95) || (ascii_upper b || ascii_lower b) || ascii_digit b = true).
  { revert Hb. unfold id_char, alnum. destruct (b =? 45), (b =? 95), (ascii_upper b), (ascii_lower b), (ascii_digit b); done. }
  rewrite Hok. unfold encode_rune. assert (He : (0 <=? b) && (b <? 0x80) = true) by lia. by rewrite He.
Qed.
Lemma tag_bytes_ascii rs b : Forall (fun c => id_char c = true \/ c = slash) rs -> Forall (fun c => id_char c = true) b -> (length b < 64)%nat ->
  Forall (fun c => id_char c = true) (tag_bytes b rs) /\ (length (tag_bytes b rs) <= 64)%nat.
Proof.
  intros Hrs. revert b. induction Hrs as [|c rs Hc _ IH]; intros b Hb Hl; cbn [tag_bytes]; [split; [done|lia]|].
  destruct (tag_rune_ascii c Hc) as (d & -> & Hd). cbv zeta.
  assert (Hb' : Forall (fun c => id_char c = true) (b ++ [d])) by (apply Forall_app; split; [done|by constructor]).
  assert (Hlen : length (b ++ [d]) = S (length b)) by (rewrite length_app; simpl; lia).
  destruct (Nat.leb_spec 64 (length (b ++ [d]))); [split; [done|lia]|]. apply IH; [done|lia].
Qed.
Lemma trim_left_byte_suffix l c : trim_left_byte l c `suffix_of` l.
Proof. induction l as [|b l IH]; simpl; [done|]. case_match; [by apply suffix_cons_r|done]. Qed.
Lemma trim_byte_Forall (P : Z -> Prop) l c : Forall P l -> Forall P (trim_right_byte (trim_left_byte l c) c) /\
  (length (trim_right_byte (trim_left_byte l c) c) <= length l)%nat.
Proof.
  assert (Hs : forall k, Forall P k -> Forall P (trim_left_byte k c) /\ (length (trim_left_byte k c) <= length k)%nat).
  { intros k Hk. destruct (trim_left_byte_suffix k c) as [j Hj]. pose proof Hk as Hk'. rewrite Hj in Hk'. apply Forall_app in Hk' as [_ ?].
    split; [done|]. apply (f_equal length) in Hj. rewrite length_app in Hj. lia. }
  intros Hl. destruct (Hs l Hl) as [H1' H2']. unfold trim_right_byte. rewrite Forall_reverse, length_reverse.
  destruct (Hs (reverse (trim_left_byte l c))) as [H3' H4']; [by rewrite Forall_reverse|]. rewrite length_reverse in H4'. split; [done|lia].
Qed.
Lemma group_id_bytes id : validateGroupID id = Ok tt -> Forall (fun c => id_char c = true \/ c = slash) (bs id).
Proof.
  intros Hv. destruct (group_id_is_path id Hv) as (Hj & _ & _ & HF). rewrite <- Hj.
  assert (Hseg : Forall (Forall (fun c => id_char c = true \/ c = slash)) (split_byte (bs id) slash)).
  { eapply Forall_impl; [exact HF|]. intros seg (_ & _ & _ & _ & Hall). apply Forall_forall. intros c Hc.
    rewrite forallb_forall in Hall. left. apply Hall. by apply list_elem_of_In. }
  destruct (split_byte (bs id) slash) as [|w ws]; [done|]. apply Forall_cons in Hseg as [Hw Hws]. simpl. apply Forall_app. split; [done|].
  apply Forall_concat, Forall_fmap. eapply Forall_impl; [exact Hws|]. intros v Hv'. constructor; [by right|done].
Qed.

(** The tag that a new group gets from its identifier is one the backend
    accepts, whenever the identifier is valid and not made of separators alone. *)
Theorem default_tag_is_valid id : validateGroupID id = Ok tt ->
  defaultGroupTag id = ""%string \/ AccessValidate.validateTag (defaultGroupTag id) = Ok tt.
Proof.
  intros Hv. apply group_id_bytes in Hv. unfold defaultGroupTag. cbv zeta. case_bool_decide; [by left|].
  set (s := TrimSpace (bs id)) in *. assert (Hs : Forall (fun c => id_char c = true \/ c = slash) s) by (by apply TrimSpace_Forall).
  assert (Hascii : is_ascii s = true).
  { apply is_ascii_bounds. eapply Forall_impl; [exact Hs|]. intros c [Hc| ->]; [|done].
    destruct (id_char_graphic c Hc) as [Hg _]. unfold graphic in Hg. lia. }
  rewrite runes_ascii by done. destruct (tag_bytes_ascii s [] Hs) as [Ht Hl]; [done|simpl; lia|].
  destruct (trim_byte_Forall _ (tag_bytes [] s) 95 Ht) as [Ho Hlo]. set (out := trim_right_byte _ _) in *. case_bool_decide as Hne; [by left|].
  destruct (Nat.ltb_spec 64 (length out)) as [|_]; [lia|]. right.
  assert (Hbs : bs (str_of out) = out).
  { apply bs_str_of. eapply Forall_impl; [exact Ho|]. intros c Hc. destruct (id_char_graphic c Hc) as [Hg _]. unfold graphic in Hg. unfold is_byte. lia. }
  unfold AccessValidate.validateTag. rewrite Hbs. cbv zeta. rewrite bool_decide_false by (intros [?|?]; [done|unfold maxTagLen in *; lia]). simpl.
  rewrite runes_ascii.
  2: { apply is_ascii_bounds. eapply Forall_impl; [exact Ho|]. intros c Hc. destruct (id_char_graphic c Hc) as [Hg _]. unfold graphic in Hg. lia. }
  assert (Hall : forallb (fun r => (r =? 45) || (r =? 95) || uc_IsLetter r || uc_IsNumber r) out = true).
  { apply forallb_forall. intros c Hc. rewrite Forall_forall in Ho. specialize (Ho c ltac:(by apply list_elem_of_In)).
    destruct (id_char_graphic c Ho) as [_ Hr]. rewrite uc_ascii_letter, uc_ascii_number by done. revert Ho. unfold id_char, alnum.
    destruct (c =? 45), (c =? 95), (ascii_upper c), (ascii_lower c), (ascii_digit c); done. }
  by rewrite Hall.
Qed.

(** ** The tag picker *)
(** The query of the tags of one's groups joins a table the schema does not
    have (it is called user_groups): whatever the tables hold, the picker answers
    every user who is not an administrator with an internal error. *)
Theorem list_tags_fails_for_users dflt e now u c : ge_user e = Ok u -> TrimSpace_s u <> ""%string ->
  (forall x, ge_GetByID e (TrimSpace_s u) = Some x -> u_Role x <> RoleAdmin) ->
  (handleListTags dflt e now c).2 = Err internal.
Proof.
  intros Hu Hne Hna. unfold handleListTags. cbv zeta. assert (Hcu : currentUserID (req_of e) = u) by (unfold currentUserID; simpl; by rewrite Hu).
  rewrite Hcu. unfold is_empty. rewrite bool_decide_false by done.
  assert (Hadm : match ge_GetByID e (TrimSpace_s u) with Some x => bool_decide (u_Role x = RoleAdmin) | None => false end = false).
  { destruct (ge_GetByID e (TrimSpace_s u)) as [x|]; [|done]. apply bool_decide_false, Hna. done. }
  rewrite Hadm. clear. unfold db_bind at 1. destruct (select _ c) as [c1 [mine|err]] eqn:E1.
  - unfold db_bind at 1. cbn [fst snd].
    assert (E2 : forall c1, (select (fun t => let? gt := rows_of "group_tags" t in let? gm := rows_of "group_members" t in
        Ok (filter (fun gt : string * string => (TrimSpace_s u, gt.1) ∈ gm) gt).*2) c1).2 = Err internal).
    { intros c2. unfold select, db_exec, db_call. destruct (faults c2) as [|[msg|] fs]; done. }
    specialize (E2 c1). destruct (select _ c1) as [c2 r]. simpl in E2. by subst r.
  - apply (f_equal snd) in E1. simpl in E1. revert E1. unfold select, db_exec, db_call. destruct (faults c) as [|[msg|] fs]; simpl; by intros [= <-].
Qed.
(** For an administrator it lists every tag of a user, a target or a group. *)
Theorem list_tags_for_admins dflt e now u x c tag : healthy c -> ge_user e = Ok u -> TrimSpace_s u <> ""%string ->
  ge_GetByID e (TrimSpace_s u) = Some x -> u_Role x = RoleAdmin ->
  exists tags, handleListTags dflt e now c = (c, Ok tags) /\ NoDup tags /\
    (tag ∈ tags <-> exists id, (id, tag) ∈ user_tags (tables c) \/ (id, tag) ∈ target_tags (tables c) \/ (id, tag) ∈ group_tags (tables c)).
Proof.
  intros Hc Hu Hne Hx Hrole. unfold handleListTags. cbv zeta. assert (Hcu : currentUserID (req_of e) = u) by (unfold currentUserID; simpl; by rewrite Hu).
  rewrite Hcu. unfold is_empty. rewrite bool_decide_false by done. rewrite Hx, bool_decide_true by done.
  unfold db_bind at 1, select. rewrite exec_healthy by done. simpl. eexists. split; [by destruct c|]. split; [apply NoDup_sorted_ids|].
  rewrite elem_of_sorted_ids, elem_of_list_to_set, !elem_of_app, !list_elem_of_fmap. split.
  - intros [([i g] & -> & Hi)|[([i g] & -> & Hi)|([i g] & -> & Hi)]]; apply elem_of_elements in Hi; exists i; eauto.
  - intros (i & [Hi|[Hi|Hi]]); [left|right; left|right; right]; exists (i, tag); split; try done; by apply elem_of_elements.
Qed.
End tags.

(** ** Examples *)
Definition demo_user (id role : string) : User := mkUser id id "" role "" false false.
Definition demo_users (id : string) : option User :=
  if bool_decide (id = "root"%string) then Some (demo_user id RoleAdmin) else if bool_decide (id = "u1"%string) then Some (demo_user id RoleUser) else None.
Definition as_user (u : string) : group_env := mkGroupEnv (Ok u) demo_users.
Example path_unescape_ex : groupIDParam "net%2Ftokyo" = "net/tokyo"%string /\ groupIDParam "net%2" = "net%2"%string.
Proof. vm_compute. done. Qed.
Example default_tag_ex : defaultGroupTag "net/tokyo" = "net_tokyo"%string /\ defaultGroupTag "net.tokyo" = "net_tokyo"%string /\ defaultGroupTag "_/_" = ""%string.
Proof. vm_compute. done. Qed.
Definition anon : group_env := mkGroupEnv (Ok ""%string) demo_users.
Lemma only_admins_change_groups_witness :
  tables (group_run demo_key true 100 (fun _ => None) [GRemove anon "net" "u1"; GCreate (as_user "u1") (Some ("Mine"%string, ""%string)) 3; GList (as_user "u1") (time_Unix 4000) "" ""] demo_access) = tables demo_access /\
  (handleRemoveGroupMember anon "net" "u1" demo_access).2 = Err (Http 401 "common.unauthorized").
Proof.
  destruct (only_admins_change_groups (H1 := toy_crypto) demo_key true 100 (fun _ => None)
    [GRemove anon "net" "u1"; GCreate (as_user "u1") (Some ("Mine"%string, ""%string)) 3; GList (as_user "u1") (time_Unix 4000) "" ""] demo_access) as [Ht Hr];
    [by repeat constructor|].
  split; [exact Ht|]. destruct (Hr (GRemove anon "net" "u1") demo_access) as (err & He & Hx); [by left|done|].
  simpl in Hx. rewrite Hx. injection He as <-. reflexivity.
Defined.
Lemma admin_removes_member_witness :
  user_groups (tables (handleRemoveGroupMember (as_user "root") "net" "u1" demo_access).1) = delete ("u1"%string, "net"%string) (user_groups (tables demo_access)) /\
  user_groups (tables (handleRemoveGroupMember (as_user "root") "net" "u1" demo_access).1) <> user_groups (tables demo_access).
Proof.
  split; [|vm_compute; discriminate].
  rewrite (admin_removes_member (as_user "root") "net" "u1" demo_access); [reflexivity|reflexivity|by split|vm_compute; discriminate..|vm_compute; eauto].
Defined.
(** What the administrator and the member of the group see, and a stranger not. *)
Definition demo_listing (u : string) : result http_err (list (string * list string)) :=
  match (handleGroups demo_key true 100 (as_user u) (time_Unix 4000) "" "" demo_access).2 with
  | Ok (items, _) => Ok ((fun g => (gr_ID g, rp_ID <$> gr_Targets g)) <$> items)
  | Err e => Err e
  end.
Example demo_listing_ex :
  demo_listing "root" = Ok [("lab", []); ("net", ["t1"]); ("net/tokyo", [])]%string /\ demo_listing "u1" = Ok [("net", ["t1"]); ("net/tokyo", [])]%string.
Proof. vm_compute. done. Qed.
Lemma group_list_is_entitled_witness : can_access (tables demo_access) (time_Unix 4000) "u1" "t1".
Proof.
  destruct (handleGroups demo_key true 100 (as_user "u1") (time_Unix 4000) "" "" demo_access) as [c' r] eqn:E.
  assert (Hr : exists g next, r = Ok ([g; mkGroupResponse "net/tokyo" "Tokyo" []], next) /\ exists x, x ∈ gr_Targets g /\ rp_ID x = "t1"%string).
  { apply (f_equal snd) in E. simpl in E. subst r. eexists (mkGroupResponse _ _ [_]), _. split; [vm_compute; reflexivity|]. eexists. split; [by left|]. reflexivity. }
  destruct Hr as (g & next & -> & x & Hx & <-).
  refine (group_list_is_entitled demo_key true 100 (as_user "u1") (time_Unix 4000) "" "" "u1" demo_access c' _ next g x eq_refl eq_refl E _ Hx). by left.
Defined.
Definition demo_created : conn access_tables * result http_err (option groupResponse) :=
  handleCreateGroup (as_user "root") (Some ("Lab"%string, ""%string)) 5 (connect (mkAccess {["root"%string]} {["lab"%string := "Lab"%string]} ∅ ∅ ∅ ∅ ∅ ∅)).
Lemma created_group_has_creator_witness :
  user_groups (tables demo_created.1) = {[("root"%string, "lab-1"%string) := None]}.
Proof.
  destruct demo_created as [c' r] eqn:E. assert (Hr : r = Ok (Some (mkGroupResponse "lab-1" "Lab" []))) by (apply (f_equal snd) in E; cbn [snd] in E; rewrite <- E; vm_compute; reflexivity).
  rewrite Hr in E. destruct (created_group_has_creator (as_user "root") (Some ("Lab"%string, ""%string)) 5 "root" _ c' _ eq_refl E) as (_ & _ & _ & Hu & _).
  exact Hu.
Defined.
Lemma group_loop_terminates_witness : (create_group_loop 4 0 "lab" "Lab" demo_access).2 <> Ok None.
Proof. apply (group_loop_terminates 4 "lab" "Lab" demo_access); [by split|]. apply Nat.ltb_lt. vm_compute. reflexivity. Defined.
Lemma group_loop_spins_witness :
  (create_group_loop 2 0 "lab" "Lab" (mkConn true demo_tables [Some "database or disk is full"; Some "database or disk is full"]%string)).2 = Ok None.
Proof.
  apply (group_loop_spins 2 "lab" "Lab" ["database or disk is full"; "database or disk is full"]%string []); try reflexivity.
  intros [|[|j]] Hj; [reflexivity..|lia].
Defined.
Lemma default_tag_is_valid_witness : AccessValidate.validateTag (defaultGroupTag "net/tokyo") = Ok tt.
Proof. destruct (default_tag_is_valid "net/tokyo") as [Hx|Hx]; [vm_compute; reflexivity|vm_compute in Hx; discriminate|exact Hx]. Defined.
Lemma list_tags_fails_for_users_witness : (handleListTags 100 (as_user "u1") (time_Unix 4000) demo_access).2 = Err internal.
Proof.
  apply (list_tags_fails_for_users 100 (as_user "u1") (time_Unix 4000) "u1"); [reflexivity|vm_compute; discriminate|]. intros x Hx.
  vm_compute in Hx. injection Hx as <-. discriminate.
Defined.
Lemma list_tags_for_admins_witness : exists tags, handleListTags 100 (as_user "root") (time_Unix 4000) demo_access = (demo_access, Ok tags) /\ NoDup tags.
Proof.
  destruct (list_tags_for_admins 100 (as_user "root") (time_Unix 4000) "root" (demo_user "root" RoleAdmin) demo_access "x") as (tags & Ht & Hn & _);
    [by split|reflexivity|vm_compute; discriminate|reflexivity|reflexivity|]. by exists tags.
Defined.
