(* ===== verification/GoMatch.v ===== *)
(** [path.Match] of Go's standard library, as far as the webhook subscriptions
    (src/internal/httpapi/webhooks.go) use it: patterns with [*], [?], character
    classes and escapes, over bytes and runes.

    [Err tt] is [path.ErrBadPattern]. The fuel of the loops is the length of the
    pattern; every round consumes a byte of it. *)
From S2P Require Import Prelude GoText.
Local Open Scope Z_scope.

Definition first_is (c : Z) (l : list Z) : bool := match l with b :: _ => b =? c | [] => false end.

(** A rune of a character class, with what follows it. *)
Definition getEsc (chunk : list Z) : option (Z * list Z) :=
  if bool_decide (chunk = []) || first_is 45 chunk || first_is 93 chunk then None
  else
    let chunk := if first_is 92 chunk then tail chunk else chunk in
    if bool_decide (chunk = []) then None
    else
      let (r, n) := decode_rune chunk in
      let nchunk := drop n chunk in
      if (r =? RuneError) && (n =? 1)%nat || bool_decide (nchunk = []) then None else Some (r, nchunk).
Fixpoint class_ranges (fuel : nat) (chunk : list Z) (r : Z) (found : bool) (nrange : nat) : option (bool * list Z) :=
  match fuel with
  | O => None
  | S fuel =>
      if first_is 93 chunk && (0 <? nrange)%nat then Some (found, tail chunk)
      else match getEsc chunk with
           | None => None
           | Some (lo, chunk) =>
               match (if first_is 45 chunk then getEsc (tail chunk) else Some (lo, chunk)) with
               | None => None
               | Some (hi, chunk) => class_ranges fuel chunk r (found || ((lo <=? r) && (r <=? hi))) (S nrange)
               end
           end
  end.
(** [Ok (Some rest)]: the chunk matches a prefix of [s]. *)
Fixpoint match_chunk (fuel : nat) (chunk s : list Z) (failed : bool) : result unit (option (list Z)) :=
  match fuel, chunk with
  | _, [] => Ok (if failed then None else Some s)
  | O, _ => Err tt
  | S fuel, c :: chunk =>
      let failed := failed || bool_decide (s = []) in
      let literal c chunk :=
        if failed then match_chunk fuel chunk s true else match_chunk fuel chunk (tail s) (negb (first_is c s)) in
      if c =? 91 then
        let (r, n) := if failed then (0, O) else decode_rune s in
        let negated := first_is 94 chunk in
        let chunk := if negated then tail chunk else chunk in
        match class_ranges (S (length chunk)) chunk r false 0 with
        | None => Err tt
        | Some (found, chunk) => match_chunk fuel chunk (drop n s) (failed || Bool.eqb found negated)
        end
      else if c =? 63 then
        if failed then match_chunk fuel chunk s true
        else match_chunk fuel chunk (drop (decode_rune s).2 s) (first_is 47 s)
      else if c =? 92 then
        match chunk with [] => Err tt | c :: chunk => literal c chunk end
      else literal c chunk
  end.
Definition matchChunk (chunk s : list Z) : result unit (option (list Z)) := match_chunk (length chunk) chunk s false.

(** The stars in front, the chunk up to the next star, the rest. *)
Fixpoint scan_chunk (l : list Z) (inrange : bool) : list Z * list Z :=
  match l with
  | [] => ([], [])
  | 92 :: d :: l => let (a, b) := scan_chunk l inrange in (92 :: d :: a, b)
  | c :: l' =>
      if (c =? 42) && negb inrange then ([], l)
      else let (a, b) := scan_chunk l' (if c =? 91 then true else if c =? 93 then false else inrange) in (c :: a, b)
  end.
Definition scanChunk (pattern : list Z) : bool * list Z * list Z :=
  let rest := trim_left_byte pattern 42 in
  let (chunk, rest) := scan_chunk rest false in
  (first_is 42 pattern, chunk, rest).

(** The positions a star may skip to; [last]: no pattern follows the chunk. *)
Fixpoint star_skip (chunk : list Z) (last : bool) (name : list Z) : result unit (option (list Z)) :=
  match name with
  | [] => Ok None
  | c :: name =>
      if c =? 47 then Ok None
      else match matchChunk chunk name with
           | Err e => Err e
           | Ok (Some t) => if last && negb (bool_decide (t = [])) then star_skip chunk last name else Ok (Some t)
           | Ok None => star_skip chunk last name
           end
  end.
(** The remainder of the pattern must be well formed. *)
Fixpoint check_rest (fuel : nat) (pattern : list Z) : result unit bool :=
  match fuel, pattern with
  | _, [] | O, _ => Ok false
  | S fuel, _ =>
      let '(_, chunk, pattern) := scanChunk pattern in
      match matchChunk chunk [] with Err e => Err e | Ok _ => check_rest fuel pattern end
  end.
Fixpoint match_fuel (fuel : nat) (pattern name : list Z) : result unit bool :=
  match fuel, pattern with
  | _, [] => Ok (bool_decide (name = []))
  | O, _ => Err tt
  | S fuel, _ =>
      let '(star, chunk, pattern) := scanChunk pattern in
      if star && bool_decide (chunk = []) then Ok (negb (bool_decide (47 ∈ name)))
      else
        let again :=
          match (if star then star_skip chunk (bool_decide (pattern = [])) name else Ok None) with
          | Err e => Err e
          | Ok (Some t) => match_fuel fuel pattern t
          | Ok None => check_rest (length pattern) pattern
          end in
        match matchChunk chunk name with
        | Err e => Err e
        | Ok (Some t) => if bool_decide (t = []) || negb (bool_decide (pattern = [])) then match_fuel fuel pattern t else again
        | Ok None => again
        end
  end.
Definition Match (pattern name : list Z) : result unit bool := match_fuel (length pattern) pattern name.
Definition Match_s (pattern name : string) : result unit bool := Match (bs pattern) (bs name).

(** ** The two forms the documentation names *)
Definition plain (c : Z) : bool := negb ((c =? 42) || (c =? 63) || (c =? 91) || (c =? 92)).
Lemma plain_spec c : plain c = true -> (c =? 42) = false /\ (c =? 63) = false /\ (c =? 91) = false /\ (c =? 92) = false.
Proof. unfold plain. destruct (c =? 42), (c =? 63), (c =? 91), (c =? 92); done. Qed.
Lemma scan_chunk_cons c l inrange : (c =? 92) = false -> scan_chunk (c :: l) inrange =
  if (c =? 42) && negb inrange then ([], c :: l)
  else let (a, b) := scan_chunk l (if c =? 91 then true else if c =? 93 then false else inrange) in (c :: a, b).
Proof.
  intros Hc. apply Z.eqb_neq in Hc. simpl. repeat (case_match; try done; simplify_eq).
Qed.
Lemma scan_chunk_plain p rest : forallb plain p = true -> (rest = [] \/ first_is 42 rest = true) -> scan_chunk (p ++ rest) false = (p, rest).
Proof.
  intros Hp Hr. induction p as [|c p IH]; simpl in Hp.
  - destruct rest as [|c rest]; [done|]. destruct Hr as [|Hr]; [done|]. simpl in Hr. apply Z.eqb_eq in Hr as ->. done.
  - apply andb_true_iff in Hp as [Hc Hp]. destruct (plain_spec c Hc) as (H1 & _ & H2 & H3). simpl app.
    rewrite scan_chunk_cons, H1, H2 by done. simpl. destruct (c =? 93); by rewrite IH.
Qed.
Lemma match_chunk_failed fuel p s : (length p <= fuel)%nat -> forallb plain p = true -> match_chunk fuel p s true = Ok None.
Proof.
  revert fuel s. induction p as [|c p IH]; intros fuel s Hf Hp; [by destruct fuel|]. destruct fuel as [|fuel]; [simpl in Hf; lia|].
  simpl in Hp. apply andb_true_iff in Hp as [Hc Hp]. destruct (plain_spec c Hc) as (_ & H1 & H2 & H3). simpl. rewrite H1, H2, H3.
  apply IH; [simpl in Hf; lia|done].
Qed.
Lemma match_chunk_plain fuel p s : (length p <= fuel)%nat -> forallb plain p = true ->
  match_chunk fuel p s false = Ok (if has_prefix s p then Some (drop (length p) s) else None).
Proof.
  revert fuel s. induction p as [|c p IH]; intros fuel s Hf Hp.
  { assert (has_prefix s [] = true) as -> by (apply has_prefix_spec; by exists s). by destruct fuel. }
  destruct fuel as [|fuel]; [simpl in Hf; lia|]. simpl in Hp, Hf. pose proof Hp as Hp0. apply andb_true_iff in Hp as [Hc Hp].
  destruct (plain_spec c Hc) as (_ & H1 & H2 & H3). simpl. rewrite H1, H2, H3. destruct s as [|b s]; simpl.
  { rewrite match_chunk_failed by (done || lia). done. }
  destruct (Z.eqb_spec b c) as [->|Hne]; simpl.
  - rewrite IH by (done || lia). unfold has_prefix. simpl. f_equal. case_bool_decide as Ha; case_bool_decide as Hb; try done; exfalso; [|congruence].
    apply Hb. by rewrite Ha.
  - rewrite match_chunk_failed by (done || lia). unfold has_prefix. simpl. rewrite bool_decide_false; [done|congruence].
Qed.
Lemma trim_left_plain p rest c : head (p ++ rest) = Some c -> (c =? 42) = false -> trim_left_byte (p ++ rest) 42 = p ++ rest /\ first_is 42 (p ++ rest) = false.
Proof. destruct (p ++ rest) as [|b l]; [done|]. intros [= ->] Hc. simpl. by rewrite Hc. Qed.

(** A pattern without special characters matches itself. *)
Lemma Match_plain p name : forallb plain p = true -> Match p name = Ok (bool_decide (p = name)).
Proof.
  intros Hp. unfold Match. destruct p as [|c p]; [by destruct name|]. simpl length.
  pose proof Hp as Hp0. simpl in Hp. apply andb_true_iff in Hp as [Hc _]. destruct (plain_spec c Hc) as (H1 & _).
  cbn [match_fuel]. unfold scanChunk.
  destruct (trim_left_plain (c :: p) [] c) as [Ht Hf]; [done|done|]. rewrite app_nil_r in Ht, Hf. rewrite Ht, Hf.
  pose proof (scan_chunk_plain (c :: p) [] Hp0 (or_introl eq_refl)) as Hs. rewrite app_nil_r in Hs. rewrite Hs. cbn [andb].
  unfold matchChunk. rewrite match_chunk_plain by done. unfold has_prefix.
  case_bool_decide as Htake.
  - case_bool_decide as Hd.
    + cbn [orb]. destruct (length p); cbn [match_fuel]; rewrite Hd;
        (assert (c :: p = name) by (rewrite <- (take_drop (length (c :: p)) name), Htake, Hd; by rewrite app_nil_r));
        by rewrite !bool_decide_true.
    + cbn [orb negb]. rewrite (bool_decide_false (c :: p = name)); [done|]. intros <-. apply Hd. apply drop_all.
  - rewrite (bool_decide_false (c :: p = name)); [done|]. intros <-. apply Htake. apply firstn_all.
Qed.
(** A prefix with a star matches the names that begin with it and go on without
    a slash. *)
Lemma Match_prefix p name : forallb plain p = true ->
  Match (p ++ [42]) name = Ok (bool_decide (take (length p) name = p) && negb (bool_decide (47 ∈ drop (length p) name))).
Proof.
  intros Hp. unfold Match. destruct p as [|c p].
  { simpl. rewrite drop_0. by destruct (bool_decide (47 ∈ name)). }
  pose proof Hp as Hp0. simpl in Hp. apply andb_true_iff in Hp as [Hc _]. destruct (plain_spec c Hc) as (H1 & _).
  rewrite length_app. simpl length. rewrite Nat.add_1_r. cbn [match_fuel app]. change (c :: p ++ [42]) with ((c :: p) ++ [42]). unfold scanChunk.
  destruct (trim_left_plain (c :: p) [42] c) as [Ht Hf]; [done|done|]. rewrite Ht, Hf.
  rewrite (scan_chunk_plain (c :: p) [42]) by (done || by right). cbn [andb].
  unfold matchChunk. rewrite match_chunk_plain by done. unfold has_prefix. change (S (length p)) with (length (c :: p)). destruct (bool_decide_reflect (take (length (c :: p)) name = c :: p)) as [Htake|Htake]; [|reflexivity].
  rewrite (bool_decide_false ([42] = [])) by done. rewrite orb_true_r. done.
Qed.

(** ** Examples *)
Example match_ex :
  Match_s "access_request_*" "access_request_denied" = Ok true /\ Match_s "login_?ailed" "login_failed" = Ok true /\
  Match_s "user_[a-df]*" "user_created" = Ok true /\ Match_s "user_[^a-d]*" "user_created" = Ok false /\
  Match_s "*_by_*" "totp_reset_by_admin" = Ok true /\ Match_s "log\*" "log*" = Ok true /\ Match_s "a*" "a/b" = Ok false /\
  Match_s "login_[" "login_failed" = Err tt.
Proof. vm_compute. done. Qed.
