(* ===== verification/Webhooks.v ===== *)
(** Webhook notifications (src/internal/httpapi/webhooks.go): the endpoints and
    their validation, the bounded queue with its workers and counters, delivery
    with retries and signature, the address check of the dialler, the handlers.

    Parameters: [url.Parse], [net.ParseIP] and the resolver, JSON encoding, the
    formatting of audit values and of times, HMAC-SHA256, the answers of the
    receivers. The counters are unbounded integers: an int64 that is incremented
    by one does not reach its end. *)
From S2P Require Import Prelude GoText GoMatch Sqlite Http AccessValidate AccessRequests Secret AuthPolicy Credentials TargetHandlers.
From stdpp Require Import pretty.
Local Open Scope Z_scope.

Definition webhookQueueSize : nat := Z.to_nat 1000.
Definition webhookWorkers : nat := 4.
Definition webhookMaxRetries : nat := 2.
Definition webhookMaxEndpoints : nat := 20.
Definition webhookSettingKey : string := "webhooks".
Definition webhookUserAgent : string := "Vantyx-Webhook/1".

Record webhookEndpoint := mkEndpoint {
  ep_ID : string; ep_Name : string; ep_URL : string; ep_Secret : string; ep_Format : string; ep_Events : list string; ep_Enabled : bool
}.
Record webhookStats := mkStats {
  ws_Sent : Z; ws_Failed : Z; ws_LastAt : option time; ws_LastStatus : Z; ws_LastError : string; ws_LastEvent : string; ws_DroppedFull : Z
}.
Definition no_stats : webhookStats := mkStats 0 0 None 0 "" "" 0.
(** The fields of an entry with a type [V] of values. *)
Record AuditEntry {V : Type} := mkEntry { ae_Time : time; ae_Event : string; ae_Fields : gmap string V }.
Arguments AuditEntry : clear implicits.
Arguments mkEntry {V}.

(** ** Subscriptions *)
Definition webhookEventMatches (patterns : list string) (event : string) : bool :=
  existsb (fun p =>
    let p := TrimSpace_s p in
    if is_empty p then false
    else bool_decide (p = "*"%string) || bool_decide (p = event) || match Match_s p event with Ok b => b | Err _ => false end) patterns.

(** ** The dispatcher *)
Section dispatcher.
Context {V : Type}.
Record webhookDelivery := mkDelivery { dl_endpoint : webhookEndpoint; dl_entry : AuditEntry V }.
(** [d_calls]: the calls of [dispatch] under way, with the endpoints each has
    still to look at; [d_busy]: what the workers have received and not recorded. *)
Record webhookDispatcher := mkDispatcher {
  d_cfg : list webhookEndpoint; d_stats : gmap string webhookStats; d_ch : list webhookDelivery;
  d_calls : list (list webhookEndpoint * AuditEntry V); d_busy : list webhookDelivery
}.
Definition setConfig (d : webhookDispatcher) (cfg : list webhookEndpoint) : webhookDispatcher :=
  mkDispatcher cfg (foldl (fun st ep => match st !! ep_ID ep with Some _ => st | None => <[ep_ID ep := no_stats]> st end) (d_stats d) cfg)
    (d_ch d) (d_calls d) (d_busy d).
Definition config (d : webhookDispatcher) : list webhookEndpoint := d_cfg d.
Definition statsFor (d : webhookDispatcher) (id : string) : webhookStats := default no_stats (d_stats d !! id).

Definition drop_one (s : webhookStats) : webhookStats :=
  mkStats (ws_Sent s) (ws_Failed s) (ws_LastAt s) (ws_LastStatus s) (ws_LastError s) (ws_LastEvent s) (ws_DroppedFull s + 1).
Definition wanted (ep : webhookEndpoint) (entry : AuditEntry V) : bool := ep_Enabled ep && webhookEventMatches (ep_Events ep) (ae_Event entry).
(** One round of the loop of [dispatch]: the send does not block. *)
Definition offer (d : webhookDispatcher) (ep : webhookEndpoint) (entry : AuditEntry V) : webhookDispatcher :=
  if negb (wanted ep entry) then d
  else if (length (d_ch d) <? webhookQueueSize)%nat
  then mkDispatcher (d_cfg d) (d_stats d) (d_ch d ++ [mkDelivery ep entry]) (d_calls d) (d_busy d)
  else mkDispatcher (d_cfg d) (match d_stats d !! ep_ID ep with Some s => <[ep_ID ep := drop_one s]> (d_stats d) | None => d_stats d end)
         (d_ch d) (d_calls d) (d_busy d).
Definition dispatch (d : webhookDispatcher) (entry : AuditEntry V) : webhookDispatcher := foldl (fun d ep => offer d ep entry) d (d_cfg d).

Definition record_stats (s : webhookStats) (event : string) (status : Z) (err : option string) (now : time) : webhookStats :=
  match err with
  | Some e => mkStats (ws_Sent s) (ws_Failed s + 1) (Some now) status e event (ws_DroppedFull s)
  | None => mkStats (ws_Sent s + 1) (ws_Failed s) (Some now) status "" event (ws_DroppedFull s)
  end.
Definition record (d : webhookDispatcher) (id event : string) (status : Z) (err : option string) (now : time) : webhookDispatcher :=
  mkDispatcher (d_cfg d) (<[id := record_stats (statsFor d id) event status err now]> (d_stats d)) (d_ch d) (d_calls d) (d_busy d).

(** *** Interleavings

    [dispatch] runs on the goroutine of a request: it takes the endpoints once
    and offers them one by one, while workers take and record, other requests
    dispatch, and the configuration changes. *)
Inductive hook_step :=
| SSetConfig (cfg : list webhookEndpoint)
| SBegin (entry : AuditEntry V)
| SNext (call : nat)
| STake
| SFinish (worker : nat) (status : Z) (err : option string) (now : time)
| STest (ep : webhookEndpoint) (event : string) (status : Z) (err : option string) (now : time).
Definition set_calls (d : webhookDispatcher) x : webhookDispatcher := mkDispatcher (d_cfg d) (d_stats d) (d_ch d) x (d_busy d).
Definition hook_exec (d : webhookDispatcher) (s : hook_step) : webhookDispatcher :=
  match s with
  | SSetConfig cfg => setConfig d cfg
  | SBegin entry => set_calls d (d_calls d ++ [(d_cfg d, entry)])
  | SNext i =>
      match d_calls d !! i with
      | Some (ep :: eps, entry) => set_calls (offer d ep entry) (<[i := (eps, entry)]> (d_calls d))
      | _ => d
      end
  | STake =>
      match d_ch d with
      | del :: ch => if (length (d_busy d) <? webhookWorkers)%nat
                     then mkDispatcher (d_cfg d) (d_stats d) ch (d_calls d) (d_busy d ++ [del]) else d
      | [] => d
      end
  | SFinish i status err now =>
      match d_busy d !! i with
      | Some del =>
          let d := mkDispatcher (d_cfg d) (d_stats d) (d_ch d) (d_calls d) (delete i (d_busy d)) in
          record d (ep_ID (dl_endpoint del)) (ae_Event (dl_entry del)) status err now
      | None => d
      end
  | STest ep event status err now => record d (ep_ID ep) event status err now
  end.
Definition hook_run (d : webhookDispatcher) (ss : list hook_step) : webhookDispatcher := foldl hook_exec d ss.
End dispatcher.
Arguments webhookDelivery : clear implicits.
Arguments webhookDispatcher : clear implicits.
Arguments hook_step : clear implicits.

(** ** Messages *)
Definition slack_byte (c : Z) : list Z :=
  if c =? 38 then bs "&amp;" else if c =? 60 then bs "&lt;" else if c =? 62 then bs "&gt;" else [c].
Definition slackEscape (s : string) : string := str_of (concat (slack_byte <$> bs s)).
(** The insertion sort; the sorted front of the slice is kept in reverse, so that
    the element moves down past the larger ones. *)
Fixpoint sink (front : list string) (x : string) : list string :=
  match front with
  | y :: front => if string_lt x y then y :: sink front x else x :: y :: front
  | [] => [x]
  end.
Definition sortStrings (s : list string) : list string := reverse (foldl sink [] s).
Definition join_with (sep : string) (parts : list string) : string :=
  match parts with [] => "" | p :: parts => foldl (fun acc q => acc +:+ sep +:+ q)%string p parts end.

Section messages.
Context {V : Type} `{MapRange} (Sprint : V -> string) (RFC3339 RFC3339Nano : time -> string)
  (json_text : string -> result string (list Z)) (json_payload : string -> string -> string -> gmap string V -> result string (list Z)) (hostname : string).
Definition slack_part (kv : string * V) : string := (slackEscape kv.1 +:+ "=" +:+ slackEscape (Sprint kv.2))%string.
Definition newline : string := str_of [10].
Definition slack_text (entry : AuditEntry V) : string :=
  let parts := slack_part <$> filter (fun kv : string * V => kv.1 <> "event"%string) (range (ae_Fields entry)) in
  ("*Vantyx* `" +:+ slackEscape (ae_Event entry) +:+ "` at " +:+ RFC3339 (ae_Time entry) +:+ newline +:+ join_with "  " (sortStrings parts))%string.
Definition webhookBody (ep : webhookEndpoint) (entry : AuditEntry V) : result string (list Z) :=
  if bool_decide (ep_Format ep = "slack"%string) then json_text (slack_text entry)
  else json_payload (ae_Event entry) (RFC3339Nano (ae_Time entry)) ("vantyx@" +:+ hostname)%string (ae_Fields entry).

Context (hmac_sha256 : list Z -> list Z -> list Z).
Definition webhookSignature (secret : string) (body : list Z) : string := ("sha256=" +:+ hex_EncodeToString (hmac_sha256 (bs secret) body))%string.

(** ** Delivery *)
Definition UnixNano (t : time) : Z := int64 (t - unix_to_internal * second).
Record hook_request := mkHookRequest { hr_URL : string; hr_Body : list Z; hr_Headers : list (string * string) }.
Definition hook_post (ep : webhookEndpoint) (entry : AuditEntry V) (body : list Z) (attempt : nat) : hook_request :=
  mkHookRequest (ep_URL ep) body
    ([("Content-Type", "application/json"); ("User-Agent", webhookUserAgent); ("X-Vantyx-Event", ae_Event entry);
      ("X-Vantyx-Delivery", pretty (UnixNano (ae_Time entry)) +:+ "-" +:+ pretty attempt)]%string ++
     (if is_empty (ep_Secret ep) then [] else [("X-Vantyx-Signature"%string, webhookSignature (ep_Secret ep) body)])).
(** The world outside: whether the URL makes a request, when the context ends,
    and what each attempt is answered. *)
Record hook_net := mkHookNet { hn_NewRequest : string -> option string; hn_cancelled : nat -> option string; hn_Do : nat -> hook_request -> result string Z }.
Definition success (status : Z) : bool := (200 <=? status) && (status <? 300).
Definition client_error (status : Z) : bool := (400 <=? status) && (status <? 500) && negb (status =? 429).
(** The requests that were sent, the last status and the error. *)
Fixpoint deliver_loop (net : hook_net) (ep : webhookEndpoint) (entry : AuditEntry V) (body : list Z) (more attempt : nat) (status : Z) (lastErr : option string)
    : list hook_request * (Z * option string) :=
  match more with
  | O => ([], (status, lastErr))
  | S more =>
      match (if (0 <? attempt)%nat then hn_cancelled net attempt else None) with
      | Some e => ([], (status, Some e))
      | None =>
          match hn_NewRequest net (ep_URL ep) with
          | Some e => ([], (0, Some e))
          | None =>
              let req := hook_post ep entry body attempt in
              let (sent, r) :=
                match hn_Do net attempt req with
                | Err e => deliver_loop net ep entry body more (S attempt) status (Some e)
                | Ok st =>
                    if success st then ([], (st, None))
                    else
                      let err := Some ("HTTP " +:+ pretty st)%string in
                      if client_error st then ([], (st, err)) else deliver_loop net ep entry body more (S attempt) st err
                end in
              (req :: sent, r)
          end
      end
  end.
Definition deliver (net : hook_net) (ep : webhookEndpoint) (entry : AuditEntry V) : list hook_request * (Z * option string) :=
  match webhookBody ep entry with
  | Err e => ([], (0, Some e))
  | Ok body => deliver_loop net ep entry body (S webhookMaxRetries) 0 0 None
  end.
End messages.

(** ** The dialler

    [allowHooks] and [allowHosts] are VANTYX_WEBHOOK_ALLOW_RESTRICTED_HOSTS=1 and
    VANTYX_ALLOW_RESTRICTED_HOSTS=1. *)
Definition webhookRestrictedHostsAllowed (env : string) : bool := bool_decide (TrimSpace_s env = "1"%string).
Section dial.
Context `{UnicodeTables} (SplitHostPort : string -> result string (string * string)) (ParseIP : list Z -> option (list Z))
  (LookupIPAddr : string -> result string (list (list Z))) (dial_ip : list Z -> string -> result string unit) (allowHooks allowHosts : bool).
Definition refused (ip : list Z) : bool := negb allowHooks && negb (is_ok (checkRestrictedHostIP allowHosts (Some ip))).
(** The addresses that were dialled, and the one the connection goes to. *)
Fixpoint dial_each (port : string) (ips : list (list Z)) (lastErr : option string) : list (list Z) * result string (list Z) :=
  match ips with
  | [] => ([], Err (default "no addresses"%string lastErr))
  | ip :: ips =>
      if refused ip then dial_each port ips (Some "invalid webhook url: restricted"%string)
      else match dial_ip ip port with
           | Ok _ => ([ip], Ok ip)
           | Err e => let (tried, r) := dial_each port ips (Some e) in (ip :: tried, r)
           end
  end.
Definition webhookDialContext (addr : string) : list (list Z) * result string (list Z) :=
  match SplitHostPort addr with
  | Err e => ([], Err e)
  | Ok (host, port) =>
      match ParseIP (bs host) with
      | Some ip => dial_each port [ip] None
      | None =>
          if EqualFold_s host "localhost" && negb allowHooks then ([], Err "invalid webhook url: loopback"%string)
          else match LookupIPAddr host with
               | Err e => ([], Err e)
               | Ok ips => dial_each port ips None
               end
      end
  end.
(** [http.ProxyFromEnvironment]: with a proxy the transport dials the proxy. *)
Definition transport_dial (proxy : string -> option string) (addr : string) : list (list Z) * result string (list Z) :=
  webhookDialContext (default addr (proxy addr)).
End dial.

(** ** Validation *)
Section validate.
Context `{UnicodeTables} (url_Parse : string -> option (string * string * string)) (ParseIP : list Z -> option (list Z)) (allowHooks allowHosts : bool).
Definition errWebhookURL : string := "invalid webhook url".
Definition bad_event (e : string) : bool :=
  (64 <? length (bs e))%nat || existsb (fun c => bool_decide (c ∈ [32; 9; 10; 34])) (bs e).
(** The patterns that stay, or the first bad one. *)
Fixpoint clean_events (events : list string) : result string (list string) :=
  match events with
  | [] => Ok []
  | e :: events =>
      let e := TrimSpace_s e in
      if is_empty e then clean_events events
      else if bad_event e then Err ("invalid event pattern: " +:+ e)%string
      else let? rest := clean_events events in Ok (e :: rest)
  end.
Definition check_host (host : string) : result string unit :=
  if allowHooks then Ok tt
  else match ParseIP (bs host) with
       | Some ip => match checkRestrictedHostIP allowHosts (Some ip) with Ok _ => Ok tt | Err _ => Err (errWebhookURL +:+ ": restricted")%string end
       | None => if EqualFold_s host "localhost" then Err (errWebhookURL +:+ ": loopback")%string else Ok tt
       end.
(** [url.Parse] gives the scheme, the host with its port and the host name. *)
Definition validateWebhookEndpoint (ep : webhookEndpoint) : result string webhookEndpoint :=
  let name := TrimSpace_s (ep_Name ep) in
  let url := TrimSpace_s (ep_URL ep) in
  let secret := TrimSpace_s (ep_Secret ep) in
  let format := ToLower_s (TrimSpace_s (ep_Format ep)) in
  let format := if is_empty format then "generic"%string else format in
  guard bool_decide (format = "generic" \/ format = "slack")%string else (errWebhookURL +:+ ": format")%string in
  guard negb (is_empty name || (100 <? length (bs name))%nat) else "name required (max 100 chars)"%string in
  match url_Parse url with
  | None => Err errWebhookURL
  | Some (scheme, host, hostname) =>
      guard bool_decide (scheme = "http" \/ scheme = "https")%string && negb (is_empty host) else errWebhookURL in
      let? _ := check_host hostname in
      let? events := clean_events (ep_Events ep) in
      guard negb (bool_decide (events = [])) else "at least one event pattern is required"%string in
      Ok (mkEndpoint (ep_ID ep) name url secret format events (ep_Enabled ep))
  end.
End validate.

(** ** Handlers *)
(** The row of app_settings under the key of the webhooks, and the dispatcher. *)
Record hook_world (V : Type) := mkHookWorld { hw_setting : gmap string string; hw_hooks : webhookDispatcher V }.
Arguments mkHookWorld {V}. Arguments hw_setting {V}. Arguments hw_hooks {V}.
Record webhookEndpointResponse := mkEndpointResponse { er_endpoint : webhookEndpoint; er_HasSecret : bool; er_Stats : webhookStats }.
Definition masked (ep : webhookEndpoint) : webhookEndpoint :=
  mkEndpoint (ep_ID ep) (ep_Name ep) (ep_URL ep) "" (ep_Format ep) (ep_Events ep) (ep_Enabled ep).
Definition with_id (ep : webhookEndpoint) (id secret : string) : webhookEndpoint :=
  mkEndpoint id (ep_Name ep) (ep_URL ep) secret (ep_Format ep) (ep_Events ep) (ep_Enabled ep).

(** [existingSecret]: the last endpoint of an identifier wins. *)
Definition existing_secret (current : list webhookEndpoint) (id : string) : string :=
  foldl (fun acc ep => if bool_decide (ep_ID ep = id) then ep_Secret ep else acc) ""%string current.

Section handlers.
Context {V : Type} `{UnicodeTables} (url_Parse : string -> option (string * string * string)) (ParseIP : list Z -> option (list Z)) (allowHooks allowHosts : bool)
  (Marshal : list webhookEndpoint -> string) (Unmarshal : string -> option (list webhookEndpoint)).
Abbreviation HookM := (DB (hook_world V) http_err).
Definition memory {A} (f : webhookDispatcher V -> webhookDispatcher V * A) : HookM A := fun c =>
  let (d, a) := f (hw_hooks (tables c)) in (set_tables c (mkHookWorld (hw_setting (tables c)) d), Ok a).

Definition webhookResponses (d : webhookDispatcher V) : list webhookEndpointResponse :=
  (fun ep => mkEndpointResponse (masked ep) (negb (is_empty (ep_Secret ep))) (statsFor d (ep_ID ep))) <$> d_cfg d.
Definition handleGetWebhooks (e : request_env) : HookM (list webhookEndpointResponse) :=
  let* _ := db_of (requireAdmin e) in memory (fun d => (d, webhookResponses d)).

Definition loadWebhookConfigFromDB : DB (hook_world V) http_err (option (list webhookEndpoint)) :=
  fun c => if negb (configured c) then (c, Ok None) else
  (let* row := db_try (E := http_err) (db_query (fun w => hw_setting w !! webhookSettingKey)) in
   db_ret (match row with Ok (Some raw) => Unmarshal raw | _ => None end)) c.
Definition saveWebhookConfigToDB (cfg : list webhookEndpoint) : HookM unit :=
  let* _ := db_configured internal in
  db_exec (fun w => Ok (mkHookWorld (<[webhookSettingKey := Marshal cfg]> (hw_setting w)) (hw_hooks w), tt)).
Definition webhookConfigFromEnv (url events format secret : string) (Fields : string -> list string) : option (list webhookEndpoint) :=
  let u := TrimSpace_s url in
  if is_empty u then None
  else
    let events := Fields (str_of ((fun c => if c =? 44 then 32 else c) <$> bs events)) in
    let events := if bool_decide (events = [])
      then ["login_failed"; "login_rate_limited"; "oidc_login_failed"; "totp_reset_by_admin"; "user_role_update"; "access_request_*";
            "session_terminated_by_admin"; "retention_purge"]%string else events in
    let format := ToLower_s (TrimSpace_s format) in
    let format := if bool_decide (format = "slack"%string) then format else "generic"%string in
    Some [mkEndpoint "env" "VANTYX_WEBHOOK_URL" u (TrimSpace_s secret) format events true].
Definition initWebhooks (env : option (list webhookEndpoint)) : HookM unit :=
  let* cfg := loadWebhookConfigFromDB in
  memory (fun d => (setConfig d (match cfg with Some cfg => cfg | None => default [] env end), tt)).

(** The loop over the endpoints of the request; [toks] are the tokens that
    [randomToken] draws. *)
Fixpoint put_each (current : list webhookEndpoint) (toks : nat -> option string) (i : nat) (seen : gset string) (eps : list webhookEndpoint)
    : result http_err (list webhookEndpoint) :=
  match eps with
  | [] => Ok []
  | ep :: eps =>
      let id := TrimSpace_s (ep_ID ep) in
      let? id := if is_empty id then match toks i with Some tok => Ok (Stdlib.Strings.String.substring 0 12 tok) | None => Err internal end else Ok id in
      guard negb (bool_decide (id ∈ seen)) else Http 400 "settings.webhookDuplicateID" in
      let secret := if is_empty (ep_Secret ep) then existing_secret current id else ep_Secret ep in
      match validateWebhookEndpoint url_Parse ParseIP allowHooks allowHosts (with_id ep id secret) with
      | Err msg => Err (Http 400 msg)
      | Ok ep => let? rest := put_each current toks (S i) ({[id]} ∪ seen) eps in Ok (ep :: rest)
      end
  end.
(** A PUT in three steps, between which other requests may run: the checks, the
    row, the dispatcher. *)
Definition put_prepare (e : request_env) (body : option (list webhookEndpoint)) (toks : nat -> option string) : HookM (list webhookEndpoint) :=
  let* _ := db_of (requireAdmin e) in
  let* eps := body_of body in
  if (webhookMaxEndpoints <? length eps)%nat then db_throw (Http 400 "settings.webhookTooMany") else
  let* current := memory (fun d => (d, config d)) in
  db_of (put_each current toks 0 ∅ eps).
Definition put_save (cfg : list webhookEndpoint) : HookM unit := call (saveWebhookConfigToDB cfg) (fun _ => Http 500 "settings.saveFailed").
Definition put_apply (cfg : list webhookEndpoint) : HookM unit := memory (fun d => (setConfig d cfg, tt)).
Definition handlePutWebhooks (e : request_env) (body : option (list webhookEndpoint)) (toks : nat -> option string) : HookM (list webhookEndpointResponse) :=
  let* cfg := put_prepare e body toks in
  let* _ := put_save cfg in
  let* _ := put_apply cfg in
  memory (fun d => (d, webhookResponses d)).
(** [send]: the synchronous delivery and the clock after it. The answer: ok, the
    status, the error. *)
Definition handleTestWebhook (e : request_env) (id : string) (send : webhookEndpoint -> (Z * option string)) (now : time) : HookM (bool * Z * option string) :=
  let* _ := db_of (requireAdmin e) in
  let id := TrimSpace_s id in
  let* target := memory (fun d => (d, list_find (fun ep => ep_ID ep = id) (d_cfg d))) in
  match target with
  | None => db_throw (Http 404 "settings.webhookNotFound")
  | Some (_, ep) =>
      let (status, err) := send ep in
      memory (fun d => (record d (ep_ID ep) "webhook_test" status err now, (bool_decide (err = None), status, err)))
  end.
End handlers.

(** ** No notification is lost unseen *)
Section accounting.
Context {V : Type}.
Implicit Types d : webhookDispatcher V.
Definition of_id (id : string) (del : webhookDelivery V) : Prop := ep_ID (dl_endpoint del) = id.
#[export] Instance of_id_dec id del : Decision (of_id id del) := decide (ep_ID (dl_endpoint del) = id).
Definition pending (id : string) (l : list (webhookDelivery V)) : Z := Z.of_nat (length (filter (of_id id) l)).
(** What the counters of an endpoint and the queue account for. *)
Definition accounted (d : webhookDispatcher V) (id : string) : Z :=
  ws_Sent (statsFor d id) + ws_Failed (statsFor d id) + ws_DroppedFull (statsFor d id) + pending id (d_ch d) + pending id (d_busy d).
(** The notifications of an endpoint that a step adds: an offer it is subscribed
    to, or a test. *)
Definition arrives (d : webhookDispatcher V) (id : string) (s : hook_step V) : Z :=
  match s with
  | SNext i =>
      match d_calls d !! i with
      | Some (ep :: _, entry) => if wanted ep entry && bool_decide (ep_ID ep = id) then 1 else 0
      | _ => 0
      end
  | STest ep _ _ _ _ => if bool_decide (ep_ID ep = id) then 1 else 0
  | _ => 0
  end.
Fixpoint arrived (d : webhookDispatcher V) (id : string) (ss : list (hook_step V)) : Z :=
  match ss with [] => 0 | s :: ss => arrives d id s + arrived (hook_exec d s) id ss end.
(** Every endpoint in use has counters, the queue and the workers are within
    their bounds. *)
Record hooks_ok (d : webhookDispatcher V) : Prop := {
  ho_cfg : Forall (fun ep => is_Some (d_stats d !! ep_ID ep)) (d_cfg d);
  ho_calls : Forall (fun call : list webhookEndpoint * AuditEntry V => Forall (fun ep => is_Some (d_stats d !! ep_ID ep)) call.1) (d_calls d);
  ho_ch : (length (d_ch d) <= webhookQueueSize)%nat;
  ho_busy : (length (d_busy d) <= webhookWorkers)%nat
}.
Definition grows_stats (st st' : gmap string webhookStats) : Prop := forall id, is_Some (st !! id) -> is_Some (st' !! id).
Lemma pending_app id l1 l2 : pending id (l1 ++ l2) = pending id l1 + pending id l2.
Proof. unfold pending. rewrite filter_app, length_app. lia. Qed.
Lemma pending_one id del : pending id [del] = if bool_decide (ep_ID (dl_endpoint del) = id) then 1 else 0.
Proof. unfold pending. rewrite filter_cons. unfold of_id. case_decide; [rewrite bool_decide_true by done|rewrite bool_decide_false by done]; done. Qed.
Lemma pending_delete id l i del : l !! i = Some del -> pending id l = pending id (delete i l) + pending id [del].
Proof.
  intros Hl. rewrite <- (take_drop_middle l i del Hl) at 1. rewrite delete_take_drop. change (del :: drop (S i) l) with ([del] ++ drop (S i) l).
  rewrite !pending_app. lia.
Qed.
Lemma statsFor_insert d st id id' s (ch : list (webhookDelivery V)) (calls : list (list webhookEndpoint * AuditEntry V)) busy cfg : st = <[id' := s]> (d_stats d) ->
  statsFor (mkDispatcher cfg st ch calls busy) id = if bool_decide (id' = id) then s else statsFor d id.
Proof. intros ->. unfold statsFor. simpl. case_bool_decide as Hd; [subst; by rewrite lookup_insert_eq|by rewrite lookup_insert_ne]. Qed.

Definition add_stats (st : gmap string webhookStats) (cfg : list webhookEndpoint) : gmap string webhookStats :=
  foldl (fun st ep => match st !! ep_ID ep with Some _ => st | None => <[ep_ID ep := no_stats]> st end) st cfg.
Lemma add_stats_spec st cfg id :
  default no_stats (add_stats st cfg !! id) = default no_stats (st !! id) /\
  (is_Some (st !! id) \/ id ∈ ep_ID <$> cfg -> is_Some (add_stats st cfg !! id)).
Proof.
  unfold add_stats. revert st. induction cfg as [|ep cfg IH]; intros st; simpl; [split; [done|]; by intros [|?%not_elem_of_nil]|].
  destruct (IH (match st !! ep_ID ep with Some _ => st | None => <[ep_ID ep := no_stats]> st end)) as [IH1 IH2]. split.
  - rewrite IH1. destruct (st !! ep_ID ep) eqn:El; [done|]. destruct (decide (ep_ID ep = id)) as [<-|]; [by rewrite lookup_insert_eq, El|by rewrite lookup_insert_ne].
  - rewrite elem_of_cons. intros Hid. apply IH2. destruct (st !! ep_ID ep) eqn:El.
    + destruct Hid as [?|[->|?]]; [by left| |by right]. rewrite El. left. eauto.
    + destruct (decide (ep_ID ep = id)) as [<-|Hne]; [left; rewrite lookup_insert_eq; eauto|]. rewrite lookup_insert_ne by done.
      destruct Hid as [?|[->|?]]; [by left|done|by right].
Qed.
End accounting.

Section accounting_steps.
Context {V : Type}.
Implicit Types d : webhookDispatcher V.
Lemma statsFor_setConfig d cfg id : statsFor (setConfig d cfg) id = statsFor d id.
Proof. apply (add_stats_spec (d_stats d) cfg id). Qed.
Lemma statsFor_record d id event st err now id' :
  statsFor (record d id event st err now) id' = if bool_decide (id = id') then record_stats (statsFor d id) event st err now else statsFor d id'.
Proof. unfold record. by apply statsFor_insert. Qed.
Lemma accounted_record d id event st err now id' :
  accounted (record d id event st err now) id' = accounted d id' + (if bool_decide (id = id') then 1 else 0).
Proof.
  unfold accounted. rewrite !statsFor_record. simpl. case_bool_decide as Hd; [subst|lia]. destruct err; simpl; lia.
Qed.
Lemma accounted_offer d ep entry id : hooks_ok d -> is_Some (d_stats d !! ep_ID ep) ->
  accounted (offer d ep entry) id = accounted d id + (if wanted ep entry && bool_decide (ep_ID ep = id) then 1 else 0).
Proof.
  intros Hok [s Hs]. unfold offer. destruct (wanted ep entry); simpl; [|lia].
  destruct (Nat.ltb_spec (length (d_ch d)) webhookQueueSize).
  - unfold accounted, statsFor. simpl. rewrite pending_app, pending_one. cbn [dl_endpoint]. destruct (bool_decide (ep_ID ep = id)); lia.
  - rewrite Hs. unfold accounted. erewrite !statsFor_insert by done. simpl. unfold statsFor. case_bool_decide as Hd; [subst; rewrite Hs|]; simpl; lia.
Qed.
Lemma accounted_step d s id : hooks_ok d -> accounted (hook_exec d s) id = accounted d id + arrives d id s.
Proof.
  intros Hok. destruct s as [cfg|entry|i| |i st err now|ep event st err now]; simpl.
  - unfold accounted. rewrite statsFor_setConfig. simpl. lia.
  - unfold accounted, statsFor. simpl. lia.
  - destruct (d_calls d !! i) as [[[|ep eps] entry]|] eqn:El; [lia| |lia].
    assert (Hep : is_Some (d_stats d !! ep_ID ep)).
    { pose proof (ho_calls d Hok) as Hc. rewrite Forall_lookup in Hc. specialize (Hc _ _ El). by apply Forall_cons in Hc as [? _]. }
    rewrite <- accounted_offer by done. done.
  - destruct (d_ch d) as [|del ch] eqn:Ech; [lia|]. destruct (length (d_busy d) <? webhookWorkers)%nat; [|lia].
    unfold accounted, statsFor. simpl. rewrite Ech, pending_app. change (del :: ch) with ([del] ++ ch). rewrite pending_app. lia.
  - destruct (d_busy d !! i) as [del|] eqn:El; [|lia]. rewrite accounted_record. unfold accounted, statsFor. simpl.
    rewrite (pending_delete id (d_busy d) i del) by done. rewrite pending_one. destruct (bool_decide (ep_ID (dl_endpoint del) = id)); lia.
  - by rewrite accounted_record.
Qed.

Lemma grows_offer d ep entry : grows_stats (d_stats d) (d_stats (offer d ep entry)).
Proof.
  intros id Hid. unfold offer. destruct (negb _); [done|]. destruct (_ <? _)%nat; [done|]. simpl. destruct (d_stats d !! ep_ID ep) eqn:E; [|done].
  destruct (decide (ep_ID ep = id)) as [<-|]; [rewrite lookup_insert_eq; eauto|by rewrite lookup_insert_ne].
Qed.
Lemma grows_setConfig d cfg : grows_stats (d_stats d) (d_stats (setConfig d cfg)).
Proof. intros id Hid. apply (add_stats_spec (d_stats d) cfg id). by left. Qed.
Lemma grows_record d id event st err now : grows_stats (d_stats d) (d_stats (record d id event st err now)).
Proof. intros id' Hid. unfold record. simpl. destruct (decide (id = id')) as [<-|]; [rewrite lookup_insert_eq; eauto|by rewrite lookup_insert_ne]. Qed.
(** The part of the invariant about counters, when they only grow. *)
Lemma hooks_ok_grow d d' : hooks_ok d -> grows_stats (d_stats d) (d_stats d') -> d_cfg d' = d_cfg d -> 
  Forall (fun call : list webhookEndpoint * AuditEntry V => Forall (fun ep => is_Some (d_stats d !! ep_ID ep)) call.1) (d_calls d') ->
  (length (d_ch d') <= webhookQueueSize)%nat -> (length (d_busy d') <= webhookWorkers)%nat -> hooks_ok d'.
Proof.
  intros [Hc _ _ _] Hg Hcfg Hcalls Hch Hb. split; try done.
  - rewrite Hcfg. eapply Forall_impl; [exact Hc|]. intros ep. apply Hg.
  - eapply Forall_impl; [exact Hcalls|]. intros call Hcall. eapply Forall_impl; [exact Hcall|]. intros ep. apply Hg.
Qed.
Lemma offer_frame d ep entry : d_calls (offer d ep entry) = d_calls d /\ d_cfg (offer d ep entry) = d_cfg d /\ d_busy (offer d ep entry) = d_busy d.
Proof. unfold offer. destruct (wanted ep entry); [|done]. by destruct (_ <? _)%nat. Qed.
Lemma offer_cong d1 d2 ep entry : d_stats d1 = d_stats d2 -> d_ch d1 = d_ch d2 ->
  d_stats (offer d1 ep entry) = d_stats (offer d2 ep entry) /\ d_ch (offer d1 ep entry) = d_ch (offer d2 ep entry).
Proof. intros Hs Hch. unfold offer. rewrite Hs, Hch. destruct (wanted ep entry); [|done]. by destruct (_ <? _)%nat. Qed.
Lemma offer_ok d ep entry : hooks_ok d -> hooks_ok (offer d ep entry).
Proof.
  intros Hok. pose proof Hok as [Hc Hcalls Hch Hb]. apply (hooks_ok_grow d); [done|apply grows_offer|..]; unfold offer; destruct (negb _); try done;
    destruct (Nat.ltb_spec (length (d_ch d)) webhookQueueSize); simpl; try done. rewrite length_app. simpl. lia.
Qed.
Lemma record_ok d id event st err now : hooks_ok d -> hooks_ok (record d id event st err now).
Proof. intros Hok. apply (hooks_ok_grow d); [done|apply grows_record|..]; simpl; try done; apply Hok. Qed.
Lemma hook_exec_ok d s : hooks_ok d -> hooks_ok (hook_exec d s).
Proof.
  intros Hok. pose proof Hok as [Hc Hcalls Hch Hb]. destruct s as [cfg|entry|i| |i st err now|ep event st err now]; simpl.
  - split; simpl; try done.
    + apply Forall_forall. intros ep Hep. apply (add_stats_spec (d_stats d) cfg (ep_ID ep)). right. by apply list_elem_of_fmap_2.
    + eapply Forall_impl; [exact Hcalls|]. intros call Hcall. eapply Forall_impl; [exact Hcall|]. intros ep. apply (grows_setConfig d cfg).
  - split; simpl; try done. apply Forall_app. split; [done|]. by constructor.
  - destruct (d_calls d !! i) as [[[|ep eps] entry]|] eqn:El; [done| |done].
    pose proof (offer_ok d ep entry Hok) as Hoff. apply (hooks_ok_grow (offer d ep entry)); simpl; try done; try apply Hoff; [by intros id|].
    assert (Hcalls' : d_calls d = d_calls (offer d ep entry)) by (symmetry; apply offer_frame).
    rewrite Hcalls'. apply Forall_insert; [apply Hoff|]. pose proof (ho_calls _ Hoff) as Hco. rewrite Forall_lookup in Hco.
    rewrite Hcalls' in El. specialize (Hco _ _ El). by apply Forall_cons in Hco as [_ ?].
  - destruct (d_ch d) as [|del ch] eqn:Ech; [done|]. destruct (Nat.ltb_spec (length (d_busy d)) webhookWorkers); [|done].
    apply (hooks_ok_grow d); simpl; try done; [by intros id|simpl in Hch; lia|rewrite length_app; simpl; lia].
  - destruct (d_busy d !! i) as [del|] eqn:El; [|done]. apply record_ok. apply (hooks_ok_grow d); simpl; try done; [by intros id|].
    rewrite length_delete by eauto. lia.
  - by apply record_ok.
Qed.

(** C32. In every history of configuration changes, notifications dispatched by any
    number of requests at once, four workers and tests, every notification an
    endpoint was subscribed to is accounted for: it was sent, failed, was dropped
    because the queue was full, waits in the queue, or is with a worker. The queue
    holds at most 1000 notifications. *)
Theorem every_notification_is_accounted d ss id : hooks_ok d ->
  let d' := hook_run d ss in
  ws_Sent (statsFor d' id) + ws_Failed (statsFor d' id) + ws_DroppedFull (statsFor d' id) + pending id (d_ch d') + pending id (d_busy d') =
    accounted d id + arrived d id ss /\
  (length (d_ch d') <= webhookQueueSize)%nat /\ (length (d_busy d') <= webhookWorkers)%nat.
Proof.
  intros Hok. cbv zeta. change (accounted (hook_run d ss) id = accounted d id + arrived d id ss /\
    (length (d_ch (hook_run d ss)) <= webhookQueueSize)%nat /\ (length (d_busy (hook_run d ss)) <= webhookWorkers)%nat).
  revert d Hok. induction ss as [|s ss IH]; intros d Hok; simpl; [split; [lia|]; split; apply Hok|].
  destruct (IH (hook_exec d s) (hook_exec_ok d s Hok)) as (H1' & H2' & H3'). rewrite H1', accounted_step by done. split; [lia|done].
Qed.
(** [dispatch] is the steps of one call without anything in between. *)
Lemma dispatch_is_steps d entry :
  let d' := hook_run d (SBegin entry :: replicate (length (d_cfg d)) (SNext (length (d_calls d)))) in
  d_stats d' = d_stats (dispatch d entry) /\ d_ch d' = d_ch (dispatch d entry) /\ d_cfg d' = d_cfg (dispatch d entry) /\ d_busy d' = d_busy (dispatch d entry).
Proof.
  cbv zeta. simpl. unfold dispatch, hook_run.
  assert (Hg : forall eps d1 d2 n, d_calls d1 !! n = Some (eps, entry) -> d_stats d1 = d_stats d2 -> d_ch d1 = d_ch d2 -> d_cfg d1 = d_cfg d2 -> d_busy d1 = d_busy d2 ->
    let r1 := foldl hook_exec d1 (replicate (length eps) (SNext n)) in let r2 := foldl (fun d ep => offer d ep entry) d2 eps in
    d_stats r1 = d_stats r2 /\ d_ch r1 = d_ch r2 /\ d_cfg r1 = d_cfg r2 /\ d_busy r1 = d_busy r2).
  { induction eps as [|ep eps IH]; intros d1 d2 n Hn Hs Hch Hc Hb; simpl; [done|]. rewrite Hn. apply IH; simpl.
    - apply list_lookup_insert_eq. by eapply lookup_lt_Some.
    - by apply offer_cong.
    - by apply offer_cong.
    - by rewrite !(proj1 (proj2 (offer_frame _ ep entry))).
    - by rewrite !(proj2 (proj2 (offer_frame _ ep entry))). }
  apply (Hg (d_cfg d) (set_calls d (d_calls d ++ [(d_cfg d, entry)])) d (length (d_calls d))); try done.
  simpl. rewrite lookup_app_r by lia. by rewrite Nat.sub_diag.
Qed.
End accounting_steps.

(** ** Messages *)
Lemma slack_byte_safe c d : d ∈ slack_byte c -> d <> 60 /\ d <> 62.
Proof.
  unfold slack_byte. destruct (Z.eqb_spec c 38); [|destruct (Z.eqb_spec c 60); [|destruct (Z.eqb_spec c 62)]];
    try (rewrite list_elem_of_singleton; intros ->; done);
    intros Hd; repeat (apply elem_of_cons in Hd as [->|Hd]; [done|]); by apply not_elem_of_nil in Hd.
Qed.
(** The entities are told apart by what follows the ampersand, so escaping can be
    undone. *)
Fixpoint slack_unescape (l : list Z) : list Z :=
  match l with
  | [] => []
  | c :: l =>
      if c =? 38 then
        match l with
        | a :: _ :: _ :: l3 =>
            if a =? 97 then 38 :: match l3 with _ :: l4 => slack_unescape l4 | [] => [] end
            else (if a =? 108 then 60 else 62) :: slack_unescape l3
        | _ => []
        end
      else c :: slack_unescape l
  end.
Lemma slack_unescape_escape l : slack_unescape (concat (slack_byte <$> l)) = l.
Proof.
  induction l as [|c l IH]; [done|]. cbn [fmap list_fmap concat]. unfold slack_byte at 1.
  destruct (Z.eqb_spec c 38) as [->|Hc]; [cbn; by rewrite IH|].
  destruct (Z.eqb_spec c 60) as [->|]; [cbn; by rewrite IH|].
  destruct (Z.eqb_spec c 62) as [->|]; [cbn; by rewrite IH|].
  cbn. destruct (Z.eqb_spec c 38); [done|]. by rewrite IH.
Qed.
Lemma slack_byte_bytes c : is_byte c -> bytes (slack_byte c).
Proof. intros Hc. unfold slack_byte. repeat case_match; repeat constructor; unfold is_byte in *; lia. Qed.
Lemma bs_slackEscape s : bs (slackEscape s) = concat (slack_byte <$> bs s).
Proof.
  unfold slackEscape. apply bs_str_of. apply Forall_concat, Forall_fmap. eapply Forall_impl; [apply bs_bytes|]. intros c. apply slack_byte_bytes.
Qed.
(** What a field value puts into a message holds no angle bracket, with which
    links and mentions are written, and different values stay different. *)
Theorem slack_fields_are_inert s t : (forall c, c ∈ bs (slackEscape s) -> c <> 60 /\ c <> 62) /\ (slackEscape s = slackEscape t -> s = t).
Proof.
  split.
  - apply Forall_forall. rewrite bs_slackEscape. apply Forall_concat, Forall_fmap, Forall_forall. intros c _. apply Forall_forall. intros d.
    apply slack_byte_safe.
  - intros He. apply (f_equal bs) in He. rewrite !bs_slackEscape in He. apply (f_equal slack_unescape) in He. rewrite !slack_unescape_escape in He.
    rewrite <- (str_of_bs s), <- (str_of_bs t). by rewrite He.
Qed.

Lemma sink_perm front x : sink front x ≡ₚ x :: front.
Proof. induction front as [|y front IH]; simpl; [done|]. destruct (string_lt x y); [|done]. rewrite IH. apply Permutation_swap. Qed.
Definition descending (l : list string) : Prop := StronglySorted (fun a b => String.le b a) l.
Lemma sink_descending front x : descending front -> descending (sink front x).
Proof.
  induction 1 as [|y front Hs IH Hf]; simpl; [repeat constructor|]. destruct (string_lt x y) eqn:El.
  - constructor; [exact IH|]. rewrite sink_perm. constructor; [|done]. unfold string_lt in El. apply bool_decide_eq_true in El.
    by destruct (total String.le x y).
  - assert (Hle : String.le y x) by (by apply string_not_after). constructor; [by constructor|]. constructor; [done|].
    eapply Forall_impl; [exact Hf|]. intros z Hz. cbv beta in *. etrans; [exact Hz|exact Hle].
Qed.
Lemma descending_reverse l : descending l -> StronglySorted String.le (reverse l).
Proof.
  induction 1 as [|y l Hs IH Hf]; [constructor|]. rewrite reverse_cons. apply StronglySorted_app. split; [|split; [done|repeat constructor]].
  intros a b Ha ->%list_elem_of_singleton. rewrite elem_of_reverse in Ha. rewrite Forall_forall in Hf. by apply Hf.
Qed.
(** The hand-written insertion sort sorts. *)
Theorem sortStrings_sorts l : sortStrings l = sort_strings l.
Proof.
  assert (Hg : forall l front, descending front -> descending (foldl sink front l) /\ foldl sink front l ≡ₚ front ++ l).
  { clear l. induction l as [|x l IH]; intros front Hf; simpl; [by rewrite app_nil_r|].
    destruct (IH (sink front x) (sink_descending front x Hf)) as [Hd Hp]. split; [done|]. rewrite Hp, sink_perm. simpl. by rewrite Permutation_middle. }
  destruct (Hg l [] ltac:(constructor)) as [Hd Hp]. unfold sortStrings. apply (StronglySorted_unique String.le).
  - by apply descending_reverse.
  - apply sort_strings_sorted.
  - rewrite reverse_Permutation, sort_strings_perm, Hp. done.
Qed.

(** ** Delivery *)
Section delivery.
Context {V : Type} (hmac_sha256 : list Z -> list Z -> list Z).
Abbreviation loop := (deliver_loop (V := V) hmac_sha256).
Abbreviation post := (hook_post (V := V) hmac_sha256).
(** An answer after which the loop goes on. *)
Definition retried (r : result string Z) : bool := match r with Err _ => true | Ok st => negb (success st) && negb (client_error st) end.
Definition answer (net : hook_net) ep entry body (a : nat) : result string Z := hn_Do net a (post ep entry body a).

Lemma loop_step net ep entry body more a st0 e0 : hn_NewRequest net (ep_URL ep) = None -> (forall a, hn_cancelled net a = None) ->
  exists st1 e1, loop net ep entry body (S more) a st0 e0 =
    (if retried (answer net ep entry body a)
     then let (sent, r) := loop net ep entry body more (S a) st1 e1 in (post ep entry body a :: sent, r)
     else ([post ep entry body a], (st1, e1))) /\
    (e1 = None <-> exists st, answer net ep entry body a = Ok st /\ success st = true).
Proof.
  intros Hn Hc. cbn [deliver_loop]. rewrite Hn, Hc. unfold answer, retried. destruct (0 <? a)%nat;
    (destruct (hn_Do net a (post ep entry body a)) as [st|e]; [destruct (success st) eqn:Es; [|destruct (client_error st)]|]); cbn [andb negb];
    (do 2 eexists; split; [reflexivity|]; split; try done; try (by eauto); intros (? & [= <-] & ?); congruence).
Qed.
(** A delivery posts at most three times, always the same body, with the
    signature of that body exactly when the endpoint has a secret; it goes on only
    after an answer that is worth a retry, and it succeeds exactly when its last
    attempt was answered with 2xx. *)
Theorem delivery_attempts net ep entry body sent status err :
  hn_NewRequest net (ep_URL ep) = None -> (forall a, hn_cancelled net a = None) ->
  loop net ep entry body (S webhookMaxRetries) 0 0 None = (sent, (status, err)) ->
  exists n, (1 <= n <= 3)%nat /\ sent = post ep entry body <$> seq 0 n /\
    (forall a, (a + 1 < n)%nat -> retried (answer net ep entry body a) = true) /\
    (err = None <-> exists st, answer net ep entry body (n - 1) = Ok st /\ success st = true) /\
    (retried (answer net ep entry body (n - 1)) = true -> n = 3%nat).
Proof.
  intros Hn Hc.
  assert (Hg : forall more a st0 e0 sent status err, loop net ep entry body (S more) a st0 e0 = (sent, (status, err)) ->
    exists n, (1 <= n <= S more)%nat /\ sent = post ep entry body <$> seq a n /\
      (forall i, (i + 1 < n)%nat -> retried (answer net ep entry body (a + i)) = true) /\
      (err = None <-> exists st, answer net ep entry body (a + n - 1) = Ok st /\ success st = true) /\
      (retried (answer net ep entry body (a + n - 1)) = true -> n = S more)).
  { clear sent status err. induction more as [|more IH]; intros a st0 e0 sent status err;
      [destruct (loop_step net ep entry body O a st0 e0 Hn Hc) as (st1 & e1 & -> & He1)
      |destruct (loop_step net ep entry body (S more) a st0 e0 Hn Hc) as (st1 & e1 & -> & He1)]; destruct (retried (answer net ep entry body a)) eqn:Er.
    - intros [= <- <- <-]. exists 1%nat. replace (a + 1 - 1)%nat with a by lia. split_and!; [lia|lia|done|intros i Hi; lia|exact He1|done].
    - intros [= <- <- <-]. exists 1%nat. replace (a + 1 - 1)%nat with a by lia. split_and!; [lia|lia|done|intros i Hi; lia|exact He1|congruence].
    - destruct (loop net ep entry body (S more) (S a) st1 e1) as [sent1 [st2 e2]] eqn:El. intros [= <- <- <-].
      destruct (IH _ _ _ _ _ _ El) as (n & Hn1 & -> & Hr & Herr & Hlast). exists (S n). replace (a + S n - 1)%nat with (S a + n - 1)%nat by lia.
      split_and!; [lia|lia|done| |exact Herr|intros Hx; by rewrite (Hlast Hx)].
      intros [|i] Hi; [by rewrite Nat.add_0_r|]. replace (a + S i)%nat with (S a + i)%nat by lia. apply Hr. lia.
    - intros [= <- <- <-]. exists 1%nat. replace (a + 1 - 1)%nat with a by lia. split_and!; [lia|lia|done|intros i Hi; lia|exact He1|congruence]. }
  intros Hl. destruct (Hg _ _ _ _ _ _ _ Hl) as (n & Hn1 & Hsent & Hr & Herr & Hlast). exists n. rewrite Nat.add_0_l in *. split_and!; try done; [unfold webhookMaxRetries in *; lia..].
Qed.
(** The signature of a request is that of its body. *)
Lemma post_signature ep entry body a :
  ep_Secret ep <> ""%string <-> ("X-Vantyx-Signature"%string, webhookSignature hmac_sha256 (ep_Secret ep) (hr_Body (post ep entry body a))) ∈ hr_Headers (post ep entry body a).
Proof.
  unfold hook_post. cbn [hr_Body hr_Headers]. unfold is_empty. case_bool_decide as Hs; split; intros Hx; try done.
  - exfalso. repeat (apply elem_of_cons in Hx as [Hx|Hx]; [discriminate Hx|]). by apply not_elem_of_nil in Hx.
  - apply elem_of_app. right. by left.
Qed.
End delivery.

(** ** The dialler *)
Section dialler.
Context `{UnicodeTables} (SplitHostPort : string -> result string (string * string)) (ParseIP : list Z -> option (list Z))
  (LookupIPAddr : string -> result string (list (list Z))) (dial_ip : list Z -> string -> result string unit) (allowHooks allowHosts : bool).
Lemma dial_each_spec port ips lastErr tried r : dial_each dial_ip allowHooks allowHosts port ips lastErr = (tried, r) ->
  Forall (fun ip => ip ∈ ips /\ refused allowHooks allowHosts ip = false) tried /\ (forall ip, r = Ok ip -> last tried = Some ip).
Proof.
  revert lastErr tried r. induction ips as [|ip ips IH]; intros lastErr tried r; simpl; [by intros [= <- <-]|].
  assert (Hw : forall tried, Forall (fun x => x ∈ ips /\ refused allowHooks allowHosts x = false) tried -> Forall (fun x => x ∈ ip :: ips /\ refused allowHooks allowHosts x = false) tried).
  { intros l Hl. eapply Forall_impl; [exact Hl|]. intros x [? ?]. split; [by right|done]. }
  destruct (refused _ _ ip) eqn:Er; [intros He; destruct (IH _ _ _ He); auto|].
  destruct (dial_ip ip port); [intros [= <- <-]; split; [apply Forall_singleton; split; [by left|done]|by intros ? [= <-]]|].
  destruct (dial_each _ _ _ port ips _) as [tried1 r1] eqn:El. intros [= <- <-]. destruct (IH _ _ _ El) as [Hf Hl].
  split; [constructor; [split; [by left|done]|auto]|]. intros x Hx. specialize (Hl x Hx). by destruct tried1.
Qed.

(** Without the switches no connection is attempted to a loopback, link-local
    or metadata address: the addresses that are dialled are those the host name
    resolved to in this very call, and each passed the check. *)
Theorem restricted_is_never_dialled addr ip : allowHooks = false -> allowHosts = false ->
  ip ∈ (webhookDialContext SplitHostPort ParseIP LookupIPAddr dial_ip allowHooks allowHosts addr).1 ->
  IsLoopback ip = false /\ IsLinkLocalUnicast ip = false /\ IsLinkLocalMulticast ip = false /\ To4 ip <> Some [169; 254; 169; 254] /\
  exists host port, SplitHostPort addr = Ok (host, port) /\ (ParseIP (bs host) = Some ip \/ ParseIP (bs host) = None /\ exists ips, LookupIPAddr host = Ok ips /\ ip ∈ ips).
Proof.
  intros Hh Hr. assert (Hok : refused allowHooks allowHosts ip = false -> IsLoopback ip = false /\ IsLinkLocalUnicast ip = false /\ IsLinkLocalMulticast ip = false /\ To4 ip <> Some [169; 254; 169; 254]).
  { unfold refused, checkRestrictedHostIP. rewrite Hh, Hr. simpl. case_bool_decide as H4; [done|]. simpl.
    destruct (IsLoopback ip), (IsLinkLocalUnicast ip), (IsLinkLocalMulticast ip); done. }
  assert (Hin : forall port ips l, ip ∈ (dial_each dial_ip allowHooks allowHosts port ips l).1 -> ip ∈ ips /\ refused allowHooks allowHosts ip = false).
  { intros port ips l Hip. destruct (dial_each _ _ _ port ips l) as [tried r] eqn:Ed. destruct (dial_each_spec _ _ _ _ _ Ed) as [Hf _].
    rewrite Forall_forall in Hf. by apply Hf. }
  unfold webhookDialContext. destruct (SplitHostPort addr) as [[host port]|] eqn:Es; [|by intros ?%not_elem_of_nil].
  destruct (ParseIP (bs host)) as [lit|] eqn:Ep.
  - intros [->%list_elem_of_singleton Href]%Hin. destruct (Hok Href) as (? & ? & ? & ?). eauto 10.
  - case_match; [by intros ?%not_elem_of_nil|]. destruct (LookupIPAddr host) as [ips|] eqn:El; [|by intros ?%not_elem_of_nil].
    intros [Hip Href]%Hin. destruct (Hok Href) as (? & ? & ? & ?). eauto 15.
Qed.
(** With a proxy in the environment the check sees the address of the proxy,
    whatever the endpoint is. *)
Theorem proxy_hides_address proxy p addr1 addr2 : proxy addr1 = Some p -> proxy addr2 = Some p ->
  transport_dial SplitHostPort ParseIP LookupIPAddr dial_ip allowHooks allowHosts proxy addr1 =
  transport_dial SplitHostPort ParseIP LookupIPAddr dial_ip allowHooks allowHosts proxy addr2.
Proof. intros H1 H2. unfold transport_dial. by rewrite H1, H2. Qed.
(** The switch for targets, VANTYX_ALLOW_RESTRICTED_HOSTS, opens the webhooks too. *)
Theorem target_switch_opens_webhooks ip : refused false true ip = false.
Proof. done. Qed.
End dialler.

(** ** The configuration *)
Section put.
Context {V : Type} `{UnicodeTables} (url_Parse : string -> option (string * string * string)) (ParseIP : list Z -> option (list Z)) (allowHooks allowHosts : bool)
  (Marshal : list webhookEndpoint -> string).
Abbreviation put := (handlePutWebhooks (V := V) url_Parse ParseIP allowHooks allowHosts Marshal).
Abbreviation validate := (validateWebhookEndpoint url_Parse ParseIP allowHooks allowHosts).

(** What every endpoint of a stored configuration is. *)
Record endpoint_ok (ep : webhookEndpoint) : Prop := {
  eo_name : ep_Name ep <> ""%string /\ (length (bs (ep_Name ep)) <= 100)%nat;
  eo_format : ep_Format ep = "generic"%string \/ ep_Format ep = "slack"%string;
  eo_url : exists scheme host hostname, url_Parse (ep_URL ep) = Some (scheme, host, hostname) /\ (scheme = "http" \/ scheme = "https")%string /\
             host <> ""%string /\ check_host ParseIP allowHooks allowHosts hostname = Ok tt;
  eo_events : ep_Events ep <> [] /\ Forall (fun e => e <> ""%string /\ bad_event e = false) (ep_Events ep)
}.
Lemma is_empty_false s : is_empty s = false <-> s <> ""%string.
Proof. unfold is_empty. by rewrite bool_decide_eq_false. Qed.
Lemma clean_events_ok events out : clean_events events = Ok out -> Forall (fun e => e <> ""%string /\ bad_event e = false) out.
Proof.
  revert out. induction events as [|e events IH]; intros out; simpl; [by intros [= <-]|]. destruct (is_empty (TrimSpace_s e)) eqn:Ee; [apply IH|].
  destruct (bad_event (TrimSpace_s e)) eqn:Eb; [done|]. destruct (clean_events events) as [rest|]; simpl; [|done]. intros [= <-].
  constructor; [split; [by apply is_empty_false|done]|by apply IH].
Qed.
Lemma validate_ok ep ep' : validate ep = Ok ep' ->
  endpoint_ok ep' /\ ep_ID ep' = ep_ID ep /\ ep_Secret ep' = TrimSpace_s (ep_Secret ep) /\ ep_Enabled ep' = ep_Enabled ep.
Proof.
  unfold validateWebhookEndpoint. cbv zeta. intros Hv. inv_ok Hv.
  repeat match goal with Hb : _ && _ = true |- _ => apply andb_true_iff in Hb as [? ?] | Hb : negb _ = true |- _ => apply negb_true_iff in Hb
    | Hb : _ || _ = false |- _ => apply orb_false_iff in Hb as [? ?] | Hb : bool_decide _ = true |- _ => apply bool_decide_eq_true in Hb
    | Hb : bool_decide _ = false |- _ => apply bool_decide_eq_false in Hb | Hb : is_empty _ = false |- _ => apply is_empty_false in Hb end.
  repeat match goal with u : () |- _ => destruct u end.
  split; [|done]. split; simpl; [|done|by eauto 10|].
  - split; [done|]. match goal with Hl : (100 <? _)%nat = false |- _ => apply Nat.ltb_ge in Hl; exact Hl end.
  - split; [done|]. by eapply clean_events_ok.
Qed.
Lemma put_each_ok current toks i seen eps cfg : put_each url_Parse ParseIP allowHooks allowHosts current toks i seen eps = Ok cfg ->
  Forall endpoint_ok cfg /\ NoDup (ep_ID <$> cfg) /\ (forall id, id ∈ ep_ID <$> cfg -> id ∉ seen) /\
  Forall2 (fun ep ep' => (TrimSpace_s (ep_ID ep) <> ""%string -> ep_ID ep' = TrimSpace_s (ep_ID ep)) /\
    ep_Secret ep' = TrimSpace_s (if is_empty (ep_Secret ep) then existing_secret current (ep_ID ep') else ep_Secret ep)) eps cfg.
Proof.
  revert i seen cfg. induction eps as [|ep eps IH]; intros i seen cfg; cbn [put_each].
  { intros [= <-]. split_and!; [constructor|constructor|by intros id ?%not_elem_of_nil|constructor]. }
  cbv zeta. set (idr := if is_empty (TrimSpace_s (ep_ID ep)) then _ else _). destruct idr as [id|] eqn:Eid; [|done]. simpl.
  case_bool_decide as Hseen; [done|]. simpl. destruct (validate _) as [ep1|] eqn:Ev; [|done]. destruct (put_each _ _ _ _ _ _ _ _ _) as [rest|] eqn:Er; [|done]. intros [= <-].
  destruct (IH _ _ _ Er) as (Hok & Hnd & Hns & Hf). destruct (validate_ok _ _ Ev) as (Hok1 & Hid & Hs & _). simpl in Hid, Hs. split_and!.
  - by constructor.
  - simpl. constructor; [|done]. intros Hin. specialize (Hns _ Hin). rewrite Hid in Hns. set_solver.
  - intros id'. simpl. rewrite elem_of_cons, Hid. intros [->|Hin]; [done|]. specialize (Hns _ Hin). set_solver.
  - constructor; [|done]. rewrite Hid. split; [|done]. intros Hne. subst idr. apply is_empty_false in Hne. rewrite Hne in Eid. by injection Eid as <-.
Qed.

(** C33. A PUT of the webhooks that is answered with success was made by an
    administrator, and afterwards the dispatcher and the database hold the same
    list: at most twenty endpoints with distinct identifiers, each with a name, a
    known format, an http or https URL whose host is not a restricted literal, and
    well-formed subscriptions; an endpoint that was sent without a secret has the
    secret it had. *)
Theorem stored_webhooks_are_valid e eps toks c c' resp : put e (Some eps) toks c = (c', Ok resp) ->
  exists cfg, d_cfg (hw_hooks (tables c')) = cfg /\ hw_setting (tables c') !! webhookSettingKey = Some (Marshal cfg) /\ requireAdmin e = Ok tt /\
    (length cfg <= webhookMaxEndpoints)%nat /\ NoDup (ep_ID <$> cfg) /\ Forall endpoint_ok cfg /\
    Forall2 (fun ep ep' => TrimSpace_s (ep_ID ep) <> ""%string -> ep_Secret ep = ""%string ->
      ep_Secret ep' = TrimSpace_s (existing_secret (d_cfg (hw_hooks (tables c))) (TrimSpace_s (ep_ID ep)))) eps cfg /\
    d_ch (hw_hooks (tables c')) = d_ch (hw_hooks (tables c)) /\ Forall (fun r => ep_Secret (er_endpoint r) = ""%string) resp.
Proof.
  intros Hr. apply bind_inv in Hr as (c1 & cfg & Hp & Hr). apply bind_inv in Hr as (c2 & [] & Hs & Hr). apply bind_inv in Hr as (c3 & [] & Ha & Hr).
  injection Ha as <-. injection Hr as <- <-. simpl.
  apply bind_inv in Hp as (c4 & [] & Hadm & Hp). injection Hadm as <- Hadm. apply bind_inv in Hp as (c5 & eps' & Hb & Hp). injection Hb as <- <-.
  destruct (Nat.ltb_spec webhookMaxEndpoints (length eps)); [done|]. apply bind_inv in Hp as (c6 & cur & Hcur & Hp). injection Hcur as <- <-.
  injection Hp as <- Hp. destruct (put_each_ok _ _ _ _ _ _ Hp) as (Hok & Hnd & _ & Hf). exists cfg.
  assert (Hw : tables c2 = mkHookWorld (<[webhookSettingKey := Marshal cfg]> (hw_setting (tables c))) (hw_hooks (tables c))).
  { revert Hs. unfold put_save, call, saveWebhookConfigToDB, db_bind, db_try, db_configured, db_exec, db_call. simpl.
    destruct (configured c); [|done]. simpl. destruct (faults c) as [|[msg|] fs]; simpl; [|done|]; by intros [= <-]. }
  rewrite Hw. simpl. split_and!; try done.
  - by rewrite lookup_insert_eq.
  - apply Forall2_length in Hf. lia.
  - eapply Forall2_impl; [exact Hf|]. intros ep ep' [Hid ->] Hne Hsec. rewrite Hsec. simpl. by rewrite Hid.
  - unfold webhookResponses. apply Forall_fmap, Forall_forall. done.
Qed.
(** After a restart the dispatcher has the list of the last PUT, provided that
    JSON decodes what it encoded. *)
Theorem restart_restores_webhooks (Unmarshal : string -> option (list webhookEndpoint)) cfg (st : gmap string string) (d : webhookDispatcher V) env c :
  Unmarshal (Marshal cfg) = Some cfg -> healthy c -> tables c = mkHookWorld (<[webhookSettingKey := Marshal cfg]> st) d ->
  d_cfg (hw_hooks (tables (initWebhooks Unmarshal env c).1)) = cfg.
Proof.
  intros Hj Hc Ht. unfold initWebhooks, loadWebhookConfigFromDB, db_bind at 1. destruct Hc as [Hconf Hf]. rewrite Hconf. simpl.
  unfold db_bind, db_try, db_query, db_exec, db_call. rewrite Hf. simpl. rewrite Ht. simpl. rewrite lookup_insert_eq, Hj. done.
Qed.
(** Two PUTs at the same time: the row and the dispatcher are written one after the
    other without a lock, so the database may keep one list while the other is in
    use, until the next restart. *)
Theorem concurrent_puts_diverge (cfgA cfgB : list webhookEndpoint) (c : conn (hook_world V)) : healthy c ->
  let c' := (put_apply cfgA (put_apply cfgB (put_save Marshal cfgB (put_save Marshal cfgA c).1).1).1).1 in
  d_cfg (hw_hooks (tables c')) = cfgA /\ hw_setting (tables c') !! webhookSettingKey = Some (Marshal cfgB).
Proof.
  intros [Hconf Hf]. destruct c as [cf [st d] fs]. simpl in Hconf, Hf. subst. vm_compute. split; [done|].
  change (<[webhookSettingKey := Marshal cfgB]> (<[webhookSettingKey := Marshal cfgA]> st) !! webhookSettingKey = Some (Marshal cfgB)).
  by rewrite lookup_insert_eq.
Qed.
(** The answers do not depend on the secrets, but for whether there is one. *)
Definition same_but_secrets (ep1 ep2 : webhookEndpoint) : Prop := masked ep1 = masked ep2 /\ is_empty (ep_Secret ep1) = is_empty (ep_Secret ep2).
Theorem responses_hide_secrets (d1 d2 : webhookDispatcher V) : Forall2 same_but_secrets (d_cfg d1) (d_cfg d2) -> d_stats d1 = d_stats d2 ->
  webhookResponses d1 = webhookResponses d2.
Proof.
  intros Hf Hs. unfold webhookResponses, statsFor. rewrite Hs. induction Hf as [|ep1 ep2 l1 l2 [Hm He] _ IH]; [done|].
  assert (Hid : ep_ID ep1 = ep_ID ep2) by (by apply (f_equal ep_ID) in Hm). rewrite !fmap_cons, IH. by rewrite Hm, He, Hid.
Qed.
End put.

(** ** A pattern that never matches *)
Lemma bad_behind_plain fuel c chunk : plain c = true -> (forall s failed, match_chunk fuel chunk s failed = Err tt) ->
  forall s failed, match_chunk (S fuel) (c :: chunk) s failed = Err tt.
Proof.
  intros Hc Hbad s failed. destruct (plain_spec c Hc) as (_ & H1 & H2 & H3). cbn [match_chunk]. rewrite H1, H2, H3. cbv zeta.
  destruct (failed || bool_decide (s = [])); apply Hbad.
Qed.
Section patterns.
Context `{UnicodeTables} (url_Parse : string -> option (string * string * string)) (ParseIP : list Z -> option (list Z)) (allowHooks allowHosts : bool).
(** The validation does not ask [path.Match] whether a pattern is well formed: a
    subscription to "login_[" is stored and matches no event but one of that very
    name. *)
Theorem malformed_pattern_is_silent ep event : clean_events (ep_Events ep) = Ok ["login_["%string] ->
  is_ok (validateWebhookEndpoint url_Parse ParseIP allowHooks allowHosts ep) =
  is_ok (validateWebhookEndpoint url_Parse ParseIP allowHooks allowHosts
    (mkEndpoint (ep_ID ep) (ep_Name ep) (ep_URL ep) (ep_Secret ep) (ep_Format ep) ["login_*"%string] (ep_Enabled ep))) /\
  (event <> "login_["%string -> webhookEventMatches ["login_["%string] event = false).
Proof.
  intros Hev. split.
  - unfold validateWebhookEndpoint. cbv zeta. cbn [ep_Format ep_Name ep_URL ep_Events ep_Secret ep_ID ep_Enabled]. rewrite Hev.
    assert (Hc : clean_events ["login_*"%string] = Ok ["login_*"%string]) by (vm_compute; reflexivity). rewrite Hc.
    destruct (bool_decide (_ \/ _)); [|done]. destruct (negb (is_empty _ || _)); [|done]. destruct (url_Parse _) as [[[scheme host] hostname]|]; [|done].
    destruct (bool_decide _ && _); [|done]. by destruct (check_host _ _ _ hostname).
  - intros Hne. assert (Hm : Match_s "login_[" event = Err tt).
    { unfold Match_s, Match. change (bs "login_[") with [108; 111; 103; 105; 110; 95; 91]. cbn [length match_fuel].
      change (scanChunk [108; 111; 103; 105; 110; 95; 91]) with (false, [108; 111; 103; 105; 110; 95; 91], @nil Z). cbn [andb]. unfold matchChunk. cbn [length].
      assert (Hb : forall s failed, match_chunk 7 [108; 111; 103; 105; 110; 95; 91] s failed = Err tt).
      { do 6 (apply bad_behind_plain; [reflexivity|]). intros s failed. cbn. destruct (failed || _); [done|]. by destruct (decode_rune s). }
      by rewrite Hb. }
    unfold webhookEventMatches. cbn [existsb]. change (TrimSpace_s "login_[") with "login_["%string. change (is_empty "login_[") with false. cbv iota.
    rewrite Hm. rewrite bool_decide_false by done. rewrite bool_decide_false by congruence. done.
Qed.
End patterns.

(** ** Examples *)
Definition demo_ep (id secret : string) : webhookEndpoint := mkEndpoint id "Alerts" "https://hooks.example/x" secret "generic" ["login_*"%string] true.
Definition demo_hooks : webhookDispatcher string := setConfig (mkDispatcher [] ∅ [] [] []) [demo_ep "e1" "s3cret"].
Definition demo_event (name : string) : AuditEntry string := mkEntry (time_Unix 100) name ∅.
Lemma demo_hooks_ok : hooks_ok demo_hooks.
Proof. split; [|done|cbn; lia|cbn; lia]. apply Forall_singleton. vm_compute. eauto. Qed.
Definition demo_steps : list (hook_step string) :=
  [SBegin (demo_event "login_failed"); SBegin (demo_event "logout"); SNext 1; SNext 0; STake; SFinish 0 500 (Some "HTTP 500"%string) 7].
Lemma every_notification_is_accounted_witness :
  ws_Failed (statsFor (hook_run demo_hooks demo_steps) "e1") = 1 /\ accounted demo_hooks "e1" + arrived demo_hooks "e1" demo_steps = 1.
Proof.
  destruct (every_notification_is_accounted demo_hooks demo_steps "e1" demo_hooks_ok) as [Hx _]. rewrite <- Hx. vm_compute. done.
Defined.
(** The receiver fails once and then accepts. *)
Definition demo_net : hook_net := mkHookNet (fun _ => None) (fun _ => None) (fun a _ => if (a =? 0)%nat then Err "timeout"%string else Ok 204).
Definition demo_hmac (k b : list Z) : list Z := [Z.of_nat (length k); Z.of_nat (length b)].
Lemma delivery_attempts_witness : exists n, (1 <= n <= 3)%nat /\
  (deliver_loop demo_hmac demo_net (demo_ep "e1" "s3cret") (demo_event "login_failed") [1; 2] 3 0 0 None).1 = hook_post demo_hmac (demo_ep "e1" "s3cret") (demo_event "login_failed") [1; 2] <$> seq 0 n.
Proof.
  destruct (deliver_loop demo_hmac demo_net (demo_ep "e1" "s3cret") (demo_event "login_failed") [1; 2] 3 0 0 None) as [sent [status err]] eqn:E.
  destruct (delivery_attempts demo_hmac demo_net (demo_ep "e1" "s3cret") (demo_event "login_failed") [1; 2] sent status err) as (n & Hn & Hs & _); [done|done|exact E|].
  by exists n.
Defined.
Example delivery_ex : (deliver_loop demo_hmac demo_net (demo_ep "e1" "s3cret") (demo_event "login_failed") [1; 2] 3 0 0 None).2 = (204, None).
Proof. vm_compute. done. Qed.
(** The documentation says that 4xx answers are not retried; 429 is. *)
Example too_many_requests_is_retried :
  length (deliver_loop demo_hmac (mkHookNet (fun _ => None) (fun _ => None) (fun _ _ => Ok 429)) (demo_ep "e1" "") (demo_event "x") [] 3 0 0 None).1 = 3%nat.
Proof. vm_compute. done. Qed.
Definition demo_split (addr : string) : result string (string * string) := Ok (addr, "443"%string).
Definition demo_resolve (host : string) : result string (list (list Z)) := Ok [v4_prefix ++ [127; 0; 0; 1]; v4_prefix ++ [10; 0; 0; 1]].
Lemma restricted_is_never_dialled_witness : IsLoopback (v4_prefix ++ [10; 0; 0; 1]) = false.
Proof.
  apply (restricted_is_never_dialled demo_split (fun _ => None) demo_resolve (fun _ _ => Ok tt) false false "hooks.example" (v4_prefix ++ [10; 0; 0; 1]) eq_refl eq_refl).
  vm_compute. by left.
Defined.
Lemma proxy_hides_address_witness :
  transport_dial demo_split (fun _ => None) demo_resolve (fun _ _ => Ok tt) false false (fun _ => Some "proxy"%string) "169.254.169.254" =
  transport_dial demo_split (fun _ => None) demo_resolve (fun _ _ => Ok tt) false false (fun _ => Some "proxy"%string) "hooks.example".
Proof. by apply (proxy_hides_address demo_split (fun _ => None) demo_resolve (fun _ _ => Ok tt) false false (fun _ => Some "proxy"%string) "proxy"). Defined.
Definition demo_url_Parse (u : string) : option (string * string * string) :=
  if has_prefix (bs u) (bs "https://") then Some ("https"%string, "hooks.example"%string, "hooks.example"%string) else None.
Definition demo_hook_world : conn (hook_world string) := connect (mkHookWorld ∅ demo_hooks).
Definition demo_marshal (cfg : list webhookEndpoint) : string := "[]".
(** The secret of e1 is not sent and stays. *)
Lemma stored_webhooks_are_valid_witness :
  d_cfg (hw_hooks (tables (handlePutWebhooks demo_url_Parse demo_ParseIP false false demo_marshal (mkRequestEnv (Ok "root"%string) (fun _ => Some true)) (Some [demo_ep " e1 " ""]) (fun _ => None) demo_hook_world).1)) = [demo_ep "e1" "s3cret"].
Proof.
  destruct (handlePutWebhooks demo_url_Parse demo_ParseIP false false demo_marshal (mkRequestEnv (Ok "root"%string) (fun _ => Some true)) (Some [demo_ep " e1 " ""]) (fun _ => None) demo_hook_world)
    as [c' r] eqn:E.
  assert (Hr : exists resp, r = Ok resp) by (apply (f_equal snd) in E; cbn [snd] in E; rewrite <- E; eexists; vm_compute; reflexivity). destruct Hr as [resp ->].
  destruct (stored_webhooks_are_valid demo_url_Parse demo_ParseIP false false demo_marshal _ _ _ _ _ _ E) as (cfg & Hc & _).
  apply (f_equal fst) in E. cbn [fst] in E. rewrite <- E. vm_compute. reflexivity.
Defined.
Lemma restart_restores_webhooks_witness :
  d_cfg (hw_hooks (tables (initWebhooks (fun _ => Some []) None (connect (mkHookWorld (<[webhookSettingKey := demo_marshal []]> ∅) demo_hooks))).1)) = [].
Proof. by apply (restart_restores_webhooks demo_marshal (fun _ => Some []) [] ∅ demo_hooks). Defined.
Lemma concurrent_puts_diverge_witness :
  d_cfg (hw_hooks (tables (put_apply [demo_ep "a" ""] (put_apply [] (put_save demo_marshal [] (put_save demo_marshal [demo_ep "a" ""] demo_hook_world).1).1).1).1)) = [demo_ep "a" ""].
Proof. apply (concurrent_puts_diverge demo_marshal [demo_ep "a" ""] [] demo_hook_world). by split. Defined.
Lemma responses_hide_secrets_witness : webhookResponses demo_hooks = webhookResponses (setConfig (mkDispatcher (V := string) [] ∅ [] [] []) [demo_ep "e1" "other"]).
Proof. apply responses_hide_secrets; [|vm_compute; reflexivity]. apply Forall2_cons_2; [by split|constructor]. Defined.
Lemma malformed_pattern_is_silent_witness : webhookEventMatches ["login_["%string] "login_failed" = false.
Proof.
  apply (malformed_pattern_is_silent demo_url_Parse demo_ParseIP false false (mkEndpoint "" "" "" "" "" ["login_["%string] true) "login_failed"); vm_compute; [reflexivity|discriminate].
Defined.
