(* ===== verification/SharingInvites.v ===== *)
(** Invitations as their owner handles them (src/internal/httpapi, sharing.go
    for terminals, sharing_invite_request.go and sharing_kind.go for VNC and
    RDP): who may be invited, creation for a user, a tag, a group or as a link,
    listing, renewing the link, revocation, and the list of an invitee.

    The code has the terminal handlers and the VNC/RDP handlers side by side;
    so does this file. The clock of a request is [now]; each invitation record
    reads the clock and the random source itself ([invitation_draw]). *)
From S2P Require Import Prelude GoText Sqlite Http Secret AuthPolicy AccessValidate AccessDB AccessRequests SharingRoom Invitations SharingService SharingWorld.
From S2P Require AuthStore AccessGroups AccessTargets.
Local Open Scope Z_scope.

(** ** Tokens and links *)
Record Token := mkToken { tok_Plain : string; tok_Hash : string }.
Section tokens.
Context `{Crypto}.
Definition HashToken (plain : string) : string := hex_EncodeToString (sha256 (bs plain)).
(** [rand]: the 32 bytes read, or the error of the random source. *)
Definition GenerateToken (rand : result string (list Z)) : result http_err Token :=
  match rand with
  | Ok buf => let plain := RawURLEncoding buf in Ok (mkToken plain (HashToken plain))
  | Err _ => Err internal
  end.
Definition newSharingID (rand : result string (list Z)) : result http_err string :=
  let? tok := GenerateToken rand in
  if (22 <? length (bs (tok_Plain tok)))%nat then Ok (str_of (take 22 (bs (tok_Plain tok)))) else Ok (tok_Plain tok).
End tokens.

(** [url.QueryEscape]; [url.Values.Encode] sorts by key. *)
Definition hex_upper (v : Z) : Z := if v <? 10 then 48 + v else 55 + v.
Definition query_plain (b : Z) : bool :=
  ascii_upper b || ascii_lower b || ascii_digit b || bool_decide (b ∈ bs "-_.~").
Definition QueryEscape (l : list Z) : list Z :=
  l ≫= fun b => if query_plain b then [b] else if b =? 32 then [43] else [37; hex_upper (b / 16); hex_upper (b mod 16)].
Definition query_param (kv : string * string) : list Z := QueryEscape (bs kv.1) ++ [61] ++ QueryEscape (bs kv.2).
Definition buildInvitationJoinURL (path : string) (q : list (string * string)) : list Z :=
  if decide (q = []) then bs path else bs path ++ [63] ++ join_byte (query_param <$> q) 38.
Definition invitationJoinURL (sessionID plainToken : string) : list Z :=
  buildInvitationJoinURL "/terminal" [("invite"%string, plainToken); ("mode"%string, "viewer"%string); ("session_id"%string, sessionID)].
Definition invitationJoinURLVNC (sessionID plainToken : string) : list Z :=
  buildInvitationJoinURL "/vnc" [("invite"%string, plainToken); ("mode"%string, "viewer"%string); ("session_id"%string, sessionID)].
Definition invitationJoinURLRDP (sessionID targetID plainToken : string) : list Z :=
  buildInvitationJoinURL "/rdp" ([("invite"%string, plainToken); ("mode"%string, "viewer"%string); ("session_id"%string, sessionID)] ++
    (if decide (targetID <> ""%string) then [("target_id"%string, targetID)] else [])).
Definition invitationJoinURLForKind (kind : Kind) (sessionID targetID plainToken : string) : list Z :=
  if decide (kind = KindVNC) then invitationJoinURLVNC sessionID plainToken
  else if decide (kind = KindRDP) then invitationJoinURLRDP sessionID targetID plainToken
  else invitationJoinURL sessionID plainToken.

(** ** Responses *)
Definition timestamp (t : time) : Z := if IsZero t then 0 else Unix t.
Record sharingResponseInvitation := mkRespInvitation {
  ri_ID : string; ri_Mode : Mode; ri_OwnerUserID : string; ri_InviteeUserID : string; ri_InviteeUsername : string;
  ri_InviteGroupID : string; ri_InviteTag : string; ri_IsLink : bool; ri_LinkUnlimited : bool; ri_MaxUses : option Z; ri_UseCount : Z;
  ri_ExpiresAt : Z; ri_CreatedAt : Z; ri_UsedAt : Z; ri_RevokedAt : Z; ri_Token : string; ri_JoinURL : list Z
}.
Definition encodeInvitation (inv : Invitation) (inviteeUsername : string) : sharingResponseInvitation :=
  let link := IsLink inv in
  mkRespInvitation (inv_ID inv) (inv_Mode inv) (inv_OwnerUserID inv)
    (if link then "" else inv_InviteeUserID inv)%string (if link then "" else inviteeUsername)%string
    (inv_InviteGroupID inv) (inv_InviteTag inv) link (link && LinkUnlimited inv)
    (if link && negb (LinkUnlimited inv) then inv_MaxUses inv else None) (inv_UseCount inv)
    (timestamp (inv_ExpiresAt inv)) (timestamp (inv_CreatedAt inv)) (timestamp (inv_UsedAt inv)) (timestamp (inv_RevokedAt inv)) "" [].
Definition with_link (r : sharingResponseInvitation) (token : string) (url : list Z) : sharingResponseInvitation :=
  mkRespInvitation (ri_ID r) (ri_Mode r) (ri_OwnerUserID r) (ri_InviteeUserID r) (ri_InviteeUsername r) (ri_InviteGroupID r) (ri_InviteTag r)
    (ri_IsLink r) (ri_LinkUnlimited r) (ri_MaxUses r) (ri_UseCount r) (ri_ExpiresAt r) (ri_CreatedAt r) (ri_UsedAt r) (ri_RevokedAt r) token url.

(** ** Settings

    [getenv] is the environment of the process, a missing variable is empty. *)
Definition invitationDefaultTTL : duration := 15 * minute.
Definition invitationMaxTTLDefault : duration := 4 * hour.
Section settings.
Context `{UnicodeTables} (getenv : string -> string).
Definition getEnv (k : string) : string := TrimSpace_s (getenv k).
Definition invitationMaxTTL : duration :=
  let v := TrimSpace_s (getEnv "VANTYX_INVITATION_MAX_TTL_SECONDS") in
  if decide (v = ""%string) then invitationMaxTTLDefault
  else match Atoi_s v with
       | None => invitationMaxTTLDefault
       | Some n => if n <=? 0 then invitationMaxTTLDefault else int64 (n * second)
       end.
Definition requireRecordingWithViewers : bool :=
  let v := TrimSpace_s (getenv "VANTYX_REQUIRE_RECORDING_WITH_VIEWERS") in
  bool_decide (v = "1"%string) || EqualFold_s v "true" || EqualFold_s v "yes".
Definition terminalSessionRecordingEnabled : bool := bool_decide (TrimSpace_s (getenv "VANTYX_RECORDINGS_DIR") <> ""%string).
Definition sharingRecordingRequired : bool := requireRecordingWithViewers && negb terminalSessionRecordingEnabled.
End settings.

Record createInvitationRequest := mkInviteRequest {
  cr_Mode : string; cr_InviteeUserID : string; cr_InviteTag : string; cr_InviteGroupID : string;
  cr_TTLSeconds : Z; cr_LinkMaxUses : option Z; cr_LinkUnlimited : bool
}.
Definition no_request : createInvitationRequest := mkInviteRequest "" "" "" "" 0 None false.
(** The body as [json.Decode] leaves it: an error, the end of the input, or a value. *)
Inductive json_body := BodyInvalid | BodyEmpty | Body (r : createInvitationRequest).
Definition decodeCreateInvitationRequest (b : json_body) : result http_err createInvitationRequest :=
  match b with BodyInvalid => Err (Http 400 "common.invalidRequestBody") | BodyEmpty => Ok no_request | Body r => Ok r end.
Definition parseLinkMaxUses (linkUnlimited : bool) (maxUses : option Z) : result http_err (option Z) :=
  if linkUnlimited then Ok None
  else match maxUses with
       | None => Ok (Some 1)
       | Some m => if m <? 1 then Err (Http 400 "sharing.linkMaxUsesInvalid") else Ok (Some m)
       end.
Definition request_ttl (max : duration) (seconds : Z) : duration :=
  let ttl := if 0 <? seconds then int64 (seconds * second) else invitationDefaultTTL in
  if max <? ttl then max else ttl.
Definition normaliseViewOnlyInviteMode `{UnicodeTables} (raw : string) : result http_err Mode :=
  if decide (TrimSpace_s raw = ""%string) then Ok ModeViewer
  else match NormaliseMode raw with
       | Ok mode => if decide (mode <> ModeViewer) then Err (Http 400 "sharing.modeInvalid") else Ok mode
       | Err _ => Err (Http 400 "sharing.modeInvalid")
       end.

(** ** Who may be invited *)
Inductive invite_err := errInviteTagInvalid | errInviteTagNotForTarget | errInviteGroupInvalid | errInviteGroupNotForTarget | InviteStore.
Definition store_failed {E : Type} (_ : E) : invite_err := InviteStore.
Definition limit_1000 : option ListOpts := Some (mkListOpts 1000 0 "").
(** "a/b/c" gives a, a/b, a/b/c. *)
Fixpoint ancestors_from (acc : list Z) (parts : list (list Z)) : list (list Z) :=
  match parts with
  | [] => []
  | [] :: parts => ancestors_from acc parts
  | p :: parts => let acc := match acc with [] => p | _ => acc ++ [slash] ++ p end in acc :: ancestors_from acc parts
  end.
Definition ancestorGroupIDs (groupID : string) : list string :=
  str_of <$> ancestors_from [] (split_byte (trim_right_byte (trim_left_byte (bs groupID) slash) slash) slash).

Section invitable.
Context `{MapRange} `{SetScan} (dflt : Z).
Abbreviation InviteM := (DB share_world invite_err).
Definition invitableUserIDsForTarget {E} (h : access_err -> E) (targetID : string) (now : time) : DB share_world E (list string) :=
  if decide (targetID = ""%string) then db_ret []
  else call (on_access (AccessGroups.UserIDsForTarget targetID limit_1000 dflt now)) h.
Definition tagsGrantingTargetAccess {E} (h : access_err -> E) (targetID : string) : DB share_world E (list string) :=
  if decide (targetID = ""%string) then db_ret []
  else call (on_access (AccessGroups.TagsGrantingTargetAccess targetID)) h.
Fixpoint with_tag {E} (tag : string) (uids : list string) : DB share_world E (list string) :=
  match uids with
  | [] => db_ret []
  | uid :: uids =>
      let* tags := db_try (on_auth (AuthStore.TagsForUser uid)) in
      let* rest := with_tag tag uids in
      db_ret (match tags with Ok tags => if decide (tag ∈ tags) then uid :: rest else rest | Err _ => rest end)
  end.
Definition invitableUserIDsForTag (targetID tag : string) (now : time) : InviteM (list string) :=
  let tag := TrimSpace_s tag in
  if decide (tag = ""%string) then db_throw errInviteTagInvalid else
  let* accessTags := tagsGrantingTargetAccess store_failed targetID in
  if decide (tag ∉ accessTags) then db_throw errInviteTagNotForTarget else
  let* all := invitableUserIDsForTarget store_failed targetID now in
  with_tag tag all.

Definition ownerBelongsToGroup {E} (ownerID groupID : string) (now : time) : DB share_world E bool :=
  if bool_decide (ownerID = ""%string) || bool_decide (groupID = ""%string) then db_ret false else
  let* gids := db_try (on_access (AccessGroups.GroupIDsForUser ownerID None dflt now)) in
  db_ret (match gids with Ok gids => bool_decide (groupID ∈ gids) | Err _ => false end).
(** The members of the group and of its ancestors, each once. *)
Fixpoint group_members (groups : list string) (seen : list string) (now : time) : InviteM (list string) :=
  match groups with
  | [] => db_ret seen
  | g :: groups =>
      let* ids := call (on_access (AccessGroups.UserIDsForGroup g limit_1000 dflt now)) store_failed in
      group_members groups (foldl (fun seen uid => if decide (uid ∈ seen) then seen else seen ++ [uid]) seen ids) now
  end.
Fixpoint who_can_reach (uids : list string) (targetID : string) (now : time) : InviteM (list string) :=
  match uids with
  | [] => db_ret []
  | uid :: uids =>
      let* ok := call (on_access (AccessGroups.userCanAccessTarget uid targetID dflt now)) store_failed in
      let* rest := who_can_reach uids targetID now in
      db_ret (if ok : bool then uid :: rest else rest)
  end.
Definition invitableUserIDsForGroup (ownerID targetID groupID : string) (now : time) : InviteM (list string) :=
  let groupID := TrimSpace_s groupID in
  if decide (groupID = ""%string) then db_throw errInviteGroupInvalid else
  let* _ := call (on_access (AccessGroups.Get groupID)) (fun _ => errInviteGroupInvalid) in
  let* mine := ownerBelongsToGroup ownerID groupID now in
  if negb mine then db_throw errInviteGroupInvalid else
  let* targetIDs := call (on_access (AccessGroups.TargetIDsForGroup groupID None dflt)) store_failed in
  if decide (targetID ∉ targetIDs) then db_throw errInviteGroupNotForTarget else
  let* userIDs := group_members (ancestorGroupIDs groupID) [] now in
  who_can_reach (sort_strings userIDs) targetID now.
Definition tag_response (e : invite_err) : http_err :=
  match e with
  | errInviteTagInvalid => Http 400 "sharing.inviteTagInvalid"
  | errInviteTagNotForTarget => Http 400 "sharing.inviteTagNotForTarget"
  | _ => internal
  end.
Definition group_response (e : invite_err) : http_err :=
  match e with
  | errInviteGroupInvalid => Http 400 "sharing.inviteGroupInvalid"
  | errInviteGroupNotForTarget => Http 400 "sharing.inviteGroupNotForTarget"
  | _ => internal
  end.
End invitable.

(** ** Creation *)
Record invitation_draw := mkDraw { dr_token : result string (list Z); dr_id : result string (list Z); dr_now : time }.
Inductive create_reply := OneInvitation (r : sharingResponseInvitation) | ManyInvitations (items : list sharingResponseInvitation).
Definition recording_required : http_err := Http 403 "sharing.recordingRequiredWithViewers".
Definition no_access : http_err := Http 400 "sharing.inviteeNoTargetAccess".

Section handlers.
Context `{Crypto} `{UnicodeTables} `{MapRange} `{SetScan} (dflt : Z) (getenv : string -> string).
Definition sharingInviteCreator : Type :=
  string -> string -> string -> string -> Mode -> duration -> option Z -> invitation_draw -> ShareM (Invitation * Token).

Definition create_record (kind : Kind) (s : sharingSessionMeta) : sharingInviteCreator :=
  fun ownerID invitee groupID inviteTag mode ttl linkMaxUses d =>
  let* tok := db_of (GenerateToken (dr_token d)) in
  let* id := db_of (newSharingID (dr_id d)) in
  let now := dr_now d in
  let inv := mkInvitation id (mt_SessionID s) kind (mt_TargetID s) ownerID invitee groupID inviteTag mode linkMaxUses 0
    (Add now ttl) zero_time zero_time now in
  let* _ := call (on_sharing (Create inv (tok_Hash tok))) (fun _ => internal) in
  db_ret (inv, tok).
Definition createInvitationRecord := create_record KindTerminal.
Definition createVNCInvitationRecord := create_record KindVNC.
Definition createRDPInvitationRecord := create_record KindRDP.

(** The loop over the invited users. *)
Fixpoint create_each (creator : sharingInviteCreator) (ownerID groupID tag : string) (mode : Mode) (ttl : duration)
    (uids : list string) (draws : nat -> invitation_draw) (i : nat) : ShareM (list sharingResponseInvitation) :=
  match uids with
  | [] => db_ret []
  | uid :: uids =>
      if decide (uid = ownerID) then create_each creator ownerID groupID tag mode ttl uids draws i else
      let* p := creator ownerID uid groupID tag mode ttl None (draws i) in
      let* _ := publishInvitationEventToInvitee uid EventInvitationReceived p.1 in
      let* name := usernameFor uid in
      let* items := create_each creator ownerID groupID tag mode ttl uids draws (S i) in
      db_ret (encodeInvitation p.1 name :: items)
  end.
Definition created (items : list sharingResponseInvitation) : list (string * extra) := [("created"%string, XNumber (Z.of_nat (length items)))].

Definition handleCreateTagInvitations (s : sharingSessionMeta) (ownerID tag : string) (mode : Mode) (ttl : duration) (now : time)
    (draws : nat -> invitation_draw) : ShareM (list sharingResponseInvitation) :=
  let* memberIDs := call (invitableUserIDsForTag dflt (mt_TargetID s) tag now) tag_response in
  if decide (memberIDs = []) then db_ret [] else
  let* _ := ensureRoomFor s now in
  let* items := create_each (createInvitationRecord s) ownerID "" tag mode ttl memberIDs draws 0 in
  let* _ := publishSharingEvent s EventInvitationCreated ownerID "" (created items) [] in
  db_ret items.
Definition handleCreateGroupInvitations (s : sharingSessionMeta) (ownerID groupID : string) (mode : Mode) (ttl : duration) (now : time)
    (draws : nat -> invitation_draw) : ShareM (list sharingResponseInvitation) :=
  let* memberIDs := call (invitableUserIDsForGroup dflt ownerID (mt_TargetID s) groupID now) group_response in
  if decide (memberIDs = []) then db_ret [] else
  let* _ := ensureRoomFor s now in
  let* items := create_each (createInvitationRecord s) ownerID groupID "" mode ttl memberIDs draws 0 in
  let* _ := publishSharingEvent s EventInvitationCreated ownerID "" (created items) [] in
  db_ret items.
Definition handleSharingCreateTagInvitations (meta : sharingSessionMeta) (tag : string) (mode : Mode) (ttl : duration)
    (creator : sharingInviteCreator) (now : time) (draws : nat -> invitation_draw) : ShareM (list sharingResponseInvitation) :=
  let* memberIDs := call (invitableUserIDsForTag dflt (mt_TargetID meta) tag now) tag_response in
  if decide (memberIDs = []) then db_ret [] else
  let* _ := ensureRoomForMeta meta now in
  let* items := create_each creator (mt_OwnerID meta) "" tag mode ttl memberIDs draws 0 in
  let* _ := publishSharingEventForSession (mt_SessionID meta) (mt_OwnerID meta) EventInvitationCreated (mt_OwnerID meta) "" (created items) [] in
  db_ret items.
Definition handleSharingCreateGroupInvitations (meta : sharingSessionMeta) (groupID : string) (mode : Mode) (ttl : duration)
    (creator : sharingInviteCreator) (now : time) (draws : nat -> invitation_draw) : ShareM (list sharingResponseInvitation) :=
  let* memberIDs := call (invitableUserIDsForGroup dflt (mt_OwnerID meta) (mt_TargetID meta) groupID now) group_response in
  if decide (memberIDs = []) then db_ret [] else
  let* _ := ensureRoomForMeta meta now in
  let* items := create_each creator (mt_OwnerID meta) groupID "" mode ttl memberIDs draws 0 in
  let* _ := publishSharingEventForSession (mt_SessionID meta) (mt_OwnerID meta) EventInvitationCreated (mt_OwnerID meta) "" (created items) [] in
  db_ret items.

(** The three fields that exclude each other. *)
Definition one_addressee (invitee tag group : string) : result http_err unit :=
  guard bool_decide (invitee = ""%string \/ tag = ""%string) else Http 400 "sharing.inviteeOrTagOnly" in
  guard bool_decide (invitee = ""%string \/ group = ""%string) else Http 400 "sharing.inviteeOrGroupOnly" in
  guard bool_decide (tag = ""%string \/ group = ""%string) else Http 400 "sharing.tagOrGroupOnly" in
  Ok tt.
Definition lift_kick (room : option nat) (invitee : string) : ShareM bool :=
  if decide (invitee = ""%string) then db_ret false else on_room room false (fun r => Unkick r invitee).
Definition tell_invitee (invitee : string) (inv : Invitation) : ShareM unit :=
  if decide (invitee = ""%string) then db_ret tt else publishInvitationEventToInvitee invitee EventInvitationReceived inv.
Definition inv_id_extra (id : string) : list (string * extra) := [("invitation_id"%string, XText id)].

(** The terminal request once its session is loaded: the caller is the owner. *)
Definition create_invitation (s : sharingSessionMeta) (sessionID : string) (body : json_body) (now : time) (draws : nat -> invitation_draw)
    : ShareM create_reply :=
  let ownerID := mt_OwnerID s in
  if sharingRecordingRequired getenv then db_throw recording_required else
  let* req := db_of (decodeCreateInvitationRequest body) in
  let* mode := db_of (match NormaliseMode (cr_Mode req) with Ok m => Ok m | Err _ => Err (Http 400 "sharing.modeInvalid") end) in
  let ttl := request_ttl (invitationMaxTTL getenv) (cr_TTLSeconds req) in
  let invitee := TrimSpace_s (cr_InviteeUserID req) in
  let inviteTag := TrimSpace_s (cr_InviteTag req) in
  let inviteGroup := TrimSpace_s (cr_InviteGroupID req) in
  let* _ := db_of (one_addressee invitee inviteTag inviteGroup) in
  if decide (inviteGroup <> ""%string) then
    let* items := handleCreateGroupInvitations s ownerID inviteGroup mode ttl now draws in db_ret (ManyInvitations items)
  else if decide (inviteTag <> ""%string) then
    let* items := handleCreateTagInvitations s ownerID inviteTag mode ttl now draws in db_ret (ManyInvitations items)
  else
    let* linkMaxUses :=
      (if decide (invitee = ""%string) then db_of (parseLinkMaxUses (cr_LinkUnlimited req) (cr_LinkMaxUses req)) else
       let* _ := call (on_auth (AuthStore.GetByID invitee)) (fun _ => Http 400 "sharing.inviteeNotFound") in
       if decide (invitee = ownerID) then db_throw (Http 400 "sharing.cannotInviteSelf") else
       let* ok := can_reach dflt invitee (mt_TargetID s) now in
       if ok : bool then db_ret None else db_throw no_access) in
    let* p := createInvitationRecord s ownerID invitee "" "" mode ttl linkMaxUses (draws 0%nat) in
    let* room := ensureRoomFor s now in
    let* _ := lift_kick room invitee in
    let* _ := tell_invitee invitee p.1 in
    let* _ := publishSharingEvent s EventInvitationCreated ownerID "" (inv_id_extra (inv_ID p.1)) [] in
    let* name := usernameFor (inv_InviteeUserID p.1) in
    db_ret (OneInvitation (with_link (encodeInvitation p.1 name) (tok_Plain p.2) (invitationJoinURL sessionID (tok_Plain p.2)))).
Definition handleCreateInvitation (e : request_env) (sessionID : string) (body : json_body) (now : time) (draws : nat -> invitation_draw)
    : ShareM create_reply :=
  let* s := loadOwnedTerminalSession dflt e sessionID now in
  create_invitation s sessionID body now draws.

Definition handleSharingCreateInvitation (meta : sharingSessionMeta) (creator : sharingInviteCreator) (body : json_body) (now : time)
    (draws : nat -> invitation_draw) : ShareM create_reply :=
  if sharingRecordingRequired getenv then db_throw recording_required else
  let* req := db_of (decodeCreateInvitationRequest body) in
  let* mode := db_of (normaliseViewOnlyInviteMode (cr_Mode req)) in
  let ttl := request_ttl (invitationMaxTTL getenv) (cr_TTLSeconds req) in
  let invitee := TrimSpace_s (cr_InviteeUserID req) in
  let inviteTag := TrimSpace_s (cr_InviteTag req) in
  let inviteGroup := TrimSpace_s (cr_InviteGroupID req) in
  let* _ := db_of (one_addressee invitee inviteTag inviteGroup) in
  if decide (inviteGroup <> ""%string) then
    let* items := handleSharingCreateGroupInvitations meta inviteGroup mode ttl creator now draws in db_ret (ManyInvitations items)
  else if decide (inviteTag <> ""%string) then
    let* items := handleSharingCreateTagInvitations meta inviteTag mode ttl creator now draws in db_ret (ManyInvitations items)
  else
    let* linkMaxUses :=
      (if decide (invitee = ""%string) then db_of (parseLinkMaxUses (cr_LinkUnlimited req) (cr_LinkMaxUses req)) else
       if decide (invitee = mt_OwnerID meta) then db_throw (Http 400 "sharing.cannotInviteSelf") else
       let* _ := call (on_auth (AuthStore.GetByID invitee)) (fun _ => Http 400 "sharing.inviteeNotFound") in
       let* ok := can_reach dflt invitee (mt_TargetID meta) now in
       if ok : bool then db_ret None else db_throw no_access) in
    let* p := creator (mt_OwnerID meta) invitee ""%string ""%string mode ttl linkMaxUses (draws 0%nat) in
    let* room := ensureRoomForMeta meta now in
    let* _ := lift_kick room invitee in
    let* _ := tell_invitee invitee p.1 in
    let* _ := publishSharingEventForSession (mt_SessionID meta) (mt_OwnerID meta) EventInvitationCreated (mt_OwnerID meta) "" (inv_id_extra (inv_ID p.1)) [] in
    let* name := usernameFor (inv_InviteeUserID p.1) in
    db_ret (OneInvitation (with_link (encodeInvitation p.1 name) (tok_Plain p.2)
      (invitationJoinURLForKind (mt_Kind meta) (mt_SessionID meta) (mt_TargetID meta) (tok_Plain p.2)))).
Definition handleVNCCreateInvitation (e : request_env) (sessionID : string) (body : json_body) (now : time) (draws : nat -> invitation_draw) : ShareM create_reply :=
  let* s := loadOwnedVNCSession dflt e sessionID now in
  handleSharingCreateInvitation s (createVNCInvitationRecord s) body now draws.
Definition handleRDPCreateInvitation (e : request_env) (sessionID : string) (body : json_body) (now : time) (draws : nat -> invitation_draw) : ShareM create_reply :=
  let* s := loadOwnedRDPSession dflt e sessionID now in
  handleSharingCreateInvitation s (createRDPInvitationRecord s) body now draws.

(** ** What the owner may choose from *)
Record invitationOptionsTag := mkOptTag { ot_Tag : string; ot_UserCount : Z }.
Record invitationOptionsGroup := mkOptGroup { og_ID : string; og_Name : string; og_UserCount : Z }.
Record invitationOptionsMember := mkOptMember { om_ID : string; om_Username : string; om_Tags : list string }.
(** The maps [seenUsers] and [tagCounts], filled for each user but the owner. *)
Definition count_tags (accessTags : list string) (tags : list string) (m : invitationOptionsMember) (counts : gmap string Z)
    : invitationOptionsMember * gmap string Z :=
  foldl (fun mc t => if decide (t ∈ accessTags)
                     then (mkOptMember (om_ID mc.1) (om_Username mc.1) (om_Tags mc.1 ++ [t]), <[t := default 0 (mc.2 !! t) + 1]> mc.2)
                     else mc) (m, counts) tags.
Fixpoint collect_users (ownerID : string) (accessTags uids : list string) (seen : gmap string invitationOptionsMember) (counts : gmap string Z)
    : ShareM (gmap string invitationOptionsMember * gmap string Z) :=
  match uids with
  | [] => db_ret (seen, counts)
  | uid :: uids =>
      if decide (uid = ownerID) then collect_users ownerID accessTags uids seen counts else
      let* m := match seen !! uid with
                | Some m => db_ret m
                | None => let* name := usernameFor uid in db_ret (mkOptMember uid name [])
                end in
      let* tags := db_try (on_auth (AuthStore.TagsForUser uid)) in
      let (m, counts) := match tags with Ok tags => count_tags accessTags tags m counts | Err _ => (m, counts) end in
      collect_users ownerID accessTags uids (<[uid := m]> seen) counts
  end.
Definition shown_name (m : invitationOptionsMember) : string := if decide (om_Username m = ""%string) then om_ID m else om_Username m.
Definition member_less (a b : invitationOptionsMember) : bool :=
  if decide (shown_name a = shown_name b) then string_lt (om_ID a) (om_ID b) else string_lt (shown_name a) (shown_name b).
Definition tag_less (a b : invitationOptionsTag) : bool := string_lt (ot_Tag a) (ot_Tag b).
Definition group_less (a b : invitationOptionsGroup) : bool :=
  if decide (og_Name a = og_Name b) then string_lt (og_ID a) (og_ID b) else string_lt (og_Name a) (og_Name b).
Definition sorted_tags (m : invitationOptionsMember) : invitationOptionsMember := mkOptMember (om_ID m) (om_Username m) (sort_strings (om_Tags m)).
Definition collectInvitationOptions (ownerID targetID : string) (now : time) : ShareM (list invitationOptionsTag * list invitationOptionsMember) :=
  if decide (targetID = ""%string) then db_ret ([], []) else
  let* userIDs := invitableUserIDsForTarget dflt (fun _ => internal) targetID now in
  let* accessTags := tagsGrantingTargetAccess (fun _ => internal) targetID in
  let* sc := collect_users ownerID accessTags userIDs ∅ ∅ in
  db_ret (sort_stable tag_less ((fun tn => mkOptTag tn.1 tn.2) <$> range sc.2),
          sort_stable member_less (sorted_tags ∘ snd <$> range sc.1)).
Fixpoint collect_groups (ownerID targetID : string) (gids : list string) (now : time) : ShareM (list invitationOptionsGroup) :=
  match gids with
  | [] => db_ret []
  | gid :: gids =>
      let* targetIDs := db_try (on_access (AccessGroups.TargetIDsForGroup gid None dflt)) in
      match targetIDs with
      | Ok targetIDs =>
          if decide (targetID ∉ targetIDs) then collect_groups ownerID targetID gids now else
          let* members := db_try (invitableUserIDsForGroup dflt ownerID targetID gid now) in
          match members with
          | Ok members =>
              let count := Z.of_nat (length (filter (fun uid => uid <> ownerID) members)) in
              let* g := db_try (on_access (AccessGroups.Get gid)) in
              let name := match g with Ok g => if decide (AccessGroups.g_Name g = ""%string) then gid else AccessGroups.g_Name g | Err _ => gid end in
              let* rest := collect_groups ownerID targetID gids now in
              db_ret (mkOptGroup gid name count :: rest)
          | Err _ => collect_groups ownerID targetID gids now
          end
      | Err _ => collect_groups ownerID targetID gids now
      end
  end.
Definition collectInvitationGroups (ownerID targetID : string) (now : time) : ShareM (list invitationOptionsGroup) :=
  if decide (targetID = ""%string) then db_ret [] else
  let* groupIDs := call (on_access (AccessGroups.GroupIDsForUser ownerID limit_1000 dflt now)) (fun _ => internal) in
  let* out := collect_groups ownerID targetID groupIDs now in
  db_ret (sort_stable group_less out).
Definition options_reply : Type := list invitationOptionsTag * list invitationOptionsMember * list invitationOptionsGroup.
Definition handleInvitationOptions (e : request_env) (sessionID : string) (now : time) : ShareM options_reply :=
  let* s := loadOwnedTerminalSession dflt e sessionID now in
  let* tu := collectInvitationOptions (mt_OwnerID s) (mt_TargetID s) now in
  let* groups := collectInvitationGroups (mt_OwnerID s) (mt_TargetID s) now in
  db_ret (tu, groups).
Definition handleKindInvitationOptions (kind : Kind) (e : request_env) (sessionID : string) (now : time) : ShareM options_reply :=
  let* s := loadOwnedSharingMeta dflt kind e sessionID now in
  let* tu := collectInvitationOptions (mt_OwnerID s) (mt_TargetID s) now in
  let* groups := collectInvitationGroups (mt_OwnerID s) (mt_TargetID s) now in
  db_ret (tu, groups).

(** ** Looking after invitations *)
Definition lookup_err (e : sharing_err) : http_err :=
  if decide (e = ErrInvitationNotFound) then Http 404 "sharing.invitationNotFound" else internal.
Definition invitation_not_found : http_err := Http 404 "sharing.invitationNotFound".
Definition store_get (invID : string) : ShareM (Invitation * string) := call (on_sharing (GetByID invID)) lookup_err.
(** [now2] is the clock when the invitation is looked at. *)
Definition handleRegenerateInvitationJoinURL (post : bool) (e : request_env) (sessionID invID : string) (now now2 : time) (rand : result string (list Z))
    : ShareM (list Z * string) :=
  if negb post then db_throw (Http 405 "common.methodNotAllowed") else
  let* s := loadOwnedTerminalSession dflt e sessionID now in
  let* p := store_get invID in
  if decide (inv_SessionID p.1 <> mt_SessionID s) then db_throw invitation_not_found else
  if negb (Active p.1 now2) then db_throw (Http 403 "sharing.invitationInactive") else
  let* tok := db_of (GenerateToken rand) in
  let* _ := call (on_sharing (UpdateTokenHash invID (tok_Hash tok))) (fun _ => internal) in
  db_ret (invitationJoinURL sessionID (tok_Plain tok), tok_Plain tok).
Definition handleKindRegenerateInvitationJoinURL (kind : Kind) (post : bool) (e : request_env) (sessionID invID : string) (now now2 : time)
    (rand : result string (list Z)) : ShareM (list Z * string) :=
  if negb post then db_throw (Http 405 "common.methodNotAllowed") else
  let* s := loadOwnedSharingMeta dflt kind e sessionID now in
  let* p := store_get invID in
  if decide (inv_SessionID p.1 <> mt_SessionID s \/ inv_SessionKind p.1 <> kind) then db_throw invitation_not_found else
  if negb (Active p.1 now2) then db_throw (Http 403 "sharing.invitationInactive") else
  let* tok := db_of (GenerateToken rand) in
  let* _ := call (on_sharing (UpdateTokenHash invID (tok_Hash tok))) (fun _ => internal) in
  db_ret (invitationJoinURLForKind kind (mt_SessionID s) (mt_TargetID s) (tok_Plain tok), tok_Plain tok).

Fixpoint encode_all (invs : list Invitation) : ShareM (list sharingResponseInvitation) :=
  match invs with
  | [] => db_ret []
  | inv :: invs =>
      let* name := (if IsLink inv then db_ret ""%string else usernameFor (inv_InviteeUserID inv)) in
      let* rest := encode_all invs in
      db_ret (encodeInvitation inv name :: rest)
  end.
Definition handleListInvitations (e : request_env) (sessionID : string) (now : time) : ShareM (list sharingResponseInvitation) :=
  let* s := loadOwnedTerminalSession dflt e sessionID now in
  let* invs := call (on_sharing (ListBySession (mt_SessionID s))) (fun _ => internal) in
  encode_all invs.
Definition handleKindListInvitations (kind : Kind) (e : request_env) (sessionID : string) (now : time) : ShareM (list sharingResponseInvitation) :=
  let* s := loadOwnedSharingMeta dflt kind e sessionID now in
  let* invs := call (on_sharing (ListBySession (mt_SessionID s))) (fun _ => internal) in
  encode_all (filter (fun inv => inv_SessionKind inv = kind) invs).

Definition left_extra (reason : string) (invID : list (string * extra)) : list (string * extra) := ("reason"%string, XText reason) :: invID.
(** Everybody who joined with the invitation is put out. *)
Fixpoint disconnect_each (publish_left : string -> ShareM unit) (s : sharingSessionMeta) (room : option nat) (uids : list string) (now : time) : ShareM unit :=
  match uids with
  | [] => db_ret tt
  | uid :: uids =>
      let* _ := disconnectSessionUser s room uid now in
      let* _ := publish_left uid in
      disconnect_each publish_left s room uids now
  end.
Definition tell_revoked (inv : Invitation) : ShareM unit :=
  if negb (IsLink inv) && bool_decide (TrimSpace_s (inv_InviteeUserID inv) <> ""%string)
  then publishInvitationEventToInvitee (inv_InviteeUserID inv) EventInvitationRevoked inv else db_ret tt.
Definition consumers_in (w : share_world) (room : option nat) (invID : string) : list string :=
  match room_at w room with Some r => ParticipantUserIDsForInvitation r invID | None => [] end.
Definition handleRevokeInvitation (e : request_env) (sessionID invID : string) (now now2 : time) : ShareM unit :=
  let* s := loadOwnedTerminalSession dflt e sessionID now in
  let* p := store_get invID in
  if decide (inv_SessionID p.1 <> mt_SessionID s) then db_throw invitation_not_found else
  let* _ := call (on_sharing (MarkRevoked invID now2)) (fun _ => internal) in
  let* room := look (fun w => reg_Get (sw_registry w) (mt_SessionID s)) in
  let* uids := look (fun w => consumers_in w room invID) in
  let* _ := disconnect_each (fun uid => publishSharingEvent s EventParticipantLeft uid "" (left_extra "invitation_revoked" (inv_id_extra invID)) []) s room uids now2 in
  let* _ := publishSharingEvent s EventInvitationRevoked (mt_OwnerID s) "" (inv_id_extra invID) [] in
  tell_revoked p.1.
Definition handleKindRevokeInvitation (kind : Kind) (e : request_env) (sessionID invID : string) (now now2 : time) : ShareM unit :=
  let* s := loadOwnedSharingMeta dflt kind e sessionID now in
  let* p := store_get invID in
  if decide (inv_SessionID p.1 <> mt_SessionID s \/ inv_SessionKind p.1 <> kind) then db_throw invitation_not_found else
  let* _ := call (on_sharing (MarkRevoked invID now2)) (fun _ => internal) in
  let* room := look (fun w => reg_Get (sw_registry w) (mt_SessionID s)) in
  let* uids := look (fun w => consumers_in w room invID) in
  let* _ := disconnect_each (fun uid => publishSharingEventForSession (mt_SessionID s) (mt_OwnerID s) EventParticipantLeft uid "" (left_extra "invitation_revoked" (inv_id_extra invID)) []) s room uids now2 in
  let* _ := publishSharingEventForSession (mt_SessionID s) (mt_OwnerID s) EventInvitationRevoked (mt_OwnerID s) "" (inv_id_extra invID) [] in
  tell_revoked p.1.

(** ** The list of an invitee *)
Record incomingInvitationItem := mkIncoming {
  ic_ID : string; ic_SessionID : string; ic_TargetID : string; ic_TargetName : string; ic_OwnerUserID : string; ic_OwnerUsername : string;
  ic_Mode : Mode; ic_ExpiresAt : Z
}.
Fixpoint incoming_items (encKey : list Z) (strict : bool) (invs : list Invitation) (now : time) : ShareM (list incomingInvitationItem) :=
  match invs with
  | [] => db_ret []
  | inv :: invs =>
      if IsLink inv || negb (Active inv now) then incoming_items encKey strict invs now else
      let* live := look (fun w => find_session w KindTerminal (inv_SessionID inv)) in
      if decide (live = None) then incoming_items encKey strict invs now else
      let* owner := usernameFor (inv_OwnerUserID inv) in
      let* t := db_try (on_access (AccessTargets.target_Get encKey strict (inv_TargetID inv))) in
      let name := match t with Ok t => AccessTargets.t_Name t | Err _ => ""%string end in
      let* rest := incoming_items encKey strict invs now in
      db_ret (mkIncoming (inv_ID inv) (inv_SessionID inv) (inv_TargetID inv) name (inv_OwnerUserID inv) owner (inv_Mode inv) (timestamp (inv_ExpiresAt inv)) :: rest)
  end.
Definition handleListIncomingInvitations (encKey : list Z) (strict : bool) (e : request_env) (now : time) : ShareM (list incomingInvitationItem) :=
  let userID := TrimSpace_s (currentUserID e) in
  if decide (userID = ""%string) then db_throw unauthorized else
  let* invs := call (on_sharing (ListPendingForInvitee userID now)) (fun _ => internal) in
  incoming_items encKey strict invs now.
End handlers.

(** * Properties *)

(** ** Only people with access are invited *)
Definition with_access (w : share_world) (now : time) (tid : string) (uids : list string) : Prop :=
  forall u, u ∈ uids -> AccessGroups.can_access (sw_access w) now u tid.
Section invitable_facts.
Context `{MapRange} `{SetScan} (dflt : Z).
Lemma invitable_target_reads {E} P (h : _ -> E) tid now :
  reads P (invitableUserIDsForTarget dflt h tid now) (fun w us => with_access w now tid us).
Proof.
  unfold invitableUserIDsForTarget. case_decide; [apply reads_ret; intros w _ u Hu; by apply not_elem_of_nil in Hu|].
  apply reads_call, reads_zoom. intros w0 _. eapply hoare_conseq; [apply AccessGroups.UserIDsForTarget_sound|done|done].
Qed.
Lemma with_tag_reads {E} P tag uids : reads P (with_tag (E:=E) tag uids) (fun _ us => us ⊆ uids).
Proof.
  induction uids as [|u uids IH]; simpl; [by apply reads_ret|].
  eapply reads_bind; [by apply reads_any; intros; apply preserves_try, preserves_auth_part|]. intros tags.
  eapply reads_bind; [eapply reads_conseq; [exact IH|by intros w [? _]|by intros w a _ Ha; exact Ha]|]. intros rest.
  apply reads_ret. intros w [_ Hr]. destruct tags; [case_decide|]; set_solver.
Qed.
Lemma invitable_tag_reads P tid tag now : reads P (invitableUserIDsForTag dflt tid tag now) (fun w us => with_access w now tid us).
Proof.
  unfold invitableUserIDsForTag. case_decide; [apply reads_throw|].
  eapply reads_bind; [apply reads_any; intros; unfold tagsGrantingTargetAccess; share_preserve|]. intros tags.
  case_decide; [apply reads_throw|]. eapply reads_bind; [apply invitable_target_reads|]. intros all.
  eapply reads_post; [apply with_tag_reads|]. intros w us [_ Hall] Hs u Hu. apply Hall. by apply Hs.
Qed.
Lemma who_can_reach_reads P uids tid now : reads P (who_can_reach dflt uids tid now) (fun w us => with_access w now tid us).
Proof.
  revert P. induction uids as [|u uids IH]; intros P; simpl; [apply reads_ret; intros w _ u Hu; by apply not_elem_of_nil in Hu|].
  eapply reads_bind.
  { apply reads_call, reads_zoom. intros w0 _. eapply hoare_conseq; [apply (userCanAccessTarget_sound dflt)|done|].
    intros _ [ok|] Hr; [|done]. exact (fun Hok => Hr (f_equal Ok Hok)). }
  intros ok. eapply reads_bind; [apply IH|]. intros rest. apply reads_ret. intros w [[_ Hok] Hrest]. destruct ok; [|done].
  intros v [->|Hv]%elem_of_cons; [by apply Hok|by apply Hrest].
Qed.
Lemma group_members_any gs seen now Q : preserves Q (group_members dflt gs seen now).
Proof. revert seen. induction gs as [|g gs IH]; intros seen; simpl; share_preserve. Qed.
Lemma invitable_group_reads P o tid g now : reads P (invitableUserIDsForGroup dflt o tid g now) (fun w us => with_access w now tid us).
Proof.
  unfold invitableUserIDsForGroup. case_decide; [apply reads_throw|].
  eapply reads_bind; [apply reads_any; intros; share_preserve|]. intros ?.
  eapply reads_bind; [apply reads_any; intros; unfold ownerBelongsToGroup; share_preserve|]. intros [|]; simpl; [|apply reads_throw].
  eapply reads_bind; [apply reads_any; intros; share_preserve|]. intros tids. case_decide; [apply reads_throw|].
  eapply reads_bind; [|intros us; apply who_can_reach_reads].
  apply reads_any. intros Q. apply group_members_any.
Qed.
End invitable_facts.

(** ** What a creation request may store *)
Section creation.
Context `{Crypto} `{UnicodeTables} `{MapRange} `{SetScan} (dflt : Z) (getenv : string -> string).
Context (kind : Kind) (now : time) (draws : nat -> invitation_draw) (s : sharingSessionMeta) (w0 : share_world).
Abbreviation rows w := (session_invitations (sw_sharing w)).

(** An invitation to session [s], unused, that ends within the configured
    maximum: a link with a cap that may be given ([link]), or one addressed to
    somebody else with access. *)
Definition issued (link : option Z -> Prop) (r : inv_row) : Prop :=
  row_session_id r = mt_SessionID s /\ row_session_kind r = kind /\ row_target_id r = mt_TargetID s /\ row_owner_user_id r = mt_OwnerID s /\
  row_use_count r = 0 /\ row_used_at r = None /\ row_revoked_at r = None /\
  (kind <> KindTerminal -> row_mode r = ModeViewer) /\
  (exists i, row_expires_at r <= Unix (Add (dr_now (draws i)) (invitationMaxTTL getenv))) /\
  ((row_invitee_user_id r = None /\ link (row_max_uses r)) \/
   (row_max_uses r = None /\ exists u, row_invitee_user_id r = nullableUser u /\ u <> mt_OwnerID s /\
      AccessGroups.can_access (sw_access w0) now u (mt_TargetID s))).
(** The stored invitations stay; what is new was issued by this request. *)
Definition grown (link : option Z -> Prop) (w : share_world) : Prop :=
  sw_access w = sw_access w0 /\ rows w0 ⊆ rows w /\
  forall id r, rows w !! id = Some r -> rows w0 !! id = None -> issued link r.
Lemma grown_stores b : about_stores (grown b).
Proof. intros w w' Es Ea _ (? & ? & ?). unfold grown. by rewrite Es, Ea. Qed.
Lemma grown_refl b : grown b w0.
Proof. split; [done|]. split; [done|]. intros id r Hr Hn. congruence. Qed.

Lemma Unix_mono a c : a <= c -> Unix a <= Unix c.
Proof. intros Hle. unfold Unix. pose proof (Z.div_le_mono a c second ltac:(unfold second, millisecond; lia) Hle). lia. Qed.
Lemma request_ttl_max max sec : request_ttl max sec <= max.
Proof. unfold request_ttl. destruct (max <? _) eqn:E; [lia|]. apply Z.ltb_ge in E. done. Qed.

Lemma preserves_sharing {E A} (Q : share_world -> Prop) (m : DB sharing_tables E A) :
  (forall w, Q w -> preserves (fun t => Q (with_sharing w t)) m) -> preserves Q (on_sharing m).
Proof.
  intros Hm c Hc. unfold on_sharing, db_zoom.
  pose proof (Hm (tables c) Hc (mkConn (configured c) (sw_sharing (tables c)) (faults c))) as Hr. simpl in Hr.
  assert (Hw : with_sharing (tables c) (sw_sharing (tables c)) = tables c) by (by destruct (tables c)). rewrite Hw in Hr. specialize (Hr Hc).
  by destruct (m _) as [c' r].
Qed.
Lemma create_grown b inv h : issued b (invitation_row inv h) -> preserves (grown b) (on_sharing (Create inv h)).
Proof.
  intros Hi. apply preserves_sharing. intros w _. unfold Create. preserve. apply preserves_exec. intros t t' [] (Ha & Hs & Hn).
  case_decide as Hd; [done|]. intros [= <-]. simpl in *. split; [done|]. split.
  - etrans; [exact Hs|]. apply insert_subseteq. destruct (session_invitations t !! inv_ID inv) eqn:E; [exfalso; apply Hd; left; by exists i|done].
  - intros id r. simpl. rewrite lookup_insert_Some. intros [[<- <-]|[_ Hr]] Hid; [done|]. by eapply Hn.
Qed.
Lemma record_grown b invitee g tag mode ttl mu i :
  ttl <= invitationMaxTTL getenv -> (kind <> KindTerminal -> mode = ModeViewer) ->
  (nullableUser invitee = None /\ b mu \/
   mu = None /\ invitee <> mt_OwnerID s /\ AccessGroups.can_access (sw_access w0) now invitee (mt_TargetID s)) ->
  preserves (grown b) (create_record kind s (mt_OwnerID s) invitee g tag mode ttl mu (draws i)).
Proof.
  intros Ht Hmode Hwho. unfold create_record. share_preserve. apply create_grown. unfold issued, invitation_row; simpl.
  split_and!; try done.
  - exists i. apply Unix_mono. unfold Add. lia.
  - destruct Hwho as [[Hn Hmu]|(-> & Ho & Hacc)]; [by left|right]. split; [done|]. by exists invitee.
Qed.
Lemma create_each_grown b (creator : sharingInviteCreator) g tag mode ttl uids i :
  (forall u j, u ∈ uids -> u <> mt_OwnerID s -> preserves (grown b) (creator (mt_OwnerID s) u g tag mode ttl None (draws j))) ->
  preserves (grown b) (create_each creator (mt_OwnerID s) g tag mode ttl uids draws i).
Proof.
  revert i. induction uids as [|u uids IH]; intros i Hc; simpl; [preserve|].
  assert (Htl : forall i, preserves (grown b) (create_each creator (mt_OwnerID s) g tag mode ttl uids draws i)).
  { intros j. apply IH. intros v k Hv. apply Hc. by right. }
  pose proof (grown_stores b) as HP. case_decide as Hu; [apply Htl|]. apply preserves_bind; [apply Hc; [by left|done]|]. intros p.
  share_preserve.
Qed.
End creation.

Definition asked (body : json_body) : createInvitationRequest := match body with Body r => r | _ => no_request end.
(** The body asks for a link - it names no user, tag or group - of cap [cap]:
    none when it says unlimited, else the number it gives, at least one, or one. *)
Definition asked_link `{UnicodeTables} (body : json_body) (cap : option Z) : Prop :=
  TrimSpace_s (cr_InviteeUserID (asked body)) = ""%string /\ TrimSpace_s (cr_InviteTag (asked body)) = ""%string /\
  TrimSpace_s (cr_InviteGroupID (asked body)) = ""%string /\
  if cr_LinkUnlimited (asked body) then cap = None
  else exists m, cap = Some m /\ 1 <= m /\ match cr_LinkMaxUses (asked body) with Some n => m = n | None => m = 1 end.
Section handlers_facts.
Context `{Crypto} `{UnicodeTables} `{MapRange} `{SetScan} (dflt : Z) (getenv : string -> string).
Definition create_handler (kind : Kind) :=
  if decide (kind = KindVNC) then handleVNCCreateInvitation dflt getenv
  else if decide (kind = KindRDP) then handleRDPCreateInvitation dflt getenv
  else handleCreateInvitation dflt getenv.
Context (now : time) (draws : nat -> invitation_draw) (s : sharingSessionMeta) (w0 : share_world).
Lemma asked_req body req : decodeCreateInvitationRequest body = Ok req -> asked body = req.
Proof. destruct body; simpl; intros; by simplify_eq. Qed.
Lemma link_ok body req m : asked body = req -> TrimSpace_s (cr_InviteeUserID req) = ""%string -> TrimSpace_s (cr_InviteTag req) = ""%string ->
  TrimSpace_s (cr_InviteGroupID req) = ""%string -> parseLinkMaxUses (cr_LinkUnlimited req) (cr_LinkMaxUses req) = Ok m -> asked_link body m.
Proof.
  intros <- Hi Ht Hg. unfold asked_link, parseLinkMaxUses. destruct (cr_LinkUnlimited (asked body)); [by intros [= <-]|].
  destruct (cr_LinkMaxUses (asked body)) as [x|]; [|intros [= <-]; split_and!; [done..|]; exists 1; split_and!; [done|lia|done]]. destruct (x <? 1) eqn:E; [done|]. intros [= <-].
  apply Z.ltb_ge in E. split_and!; [done..|]. by exists x.
Qed.
Lemma blank_invitee : nullableUser "" = None.
Proof. reflexivity. Qed.
Lemma preserves_of_ok {A B} P (r : result http_err A) (k : A -> ShareM B) : (forall a, r = Ok a -> preserves P (k a)) -> preserves P (db_bind (db_of r) k).
Proof. intros Hk c Hc. unfold db_bind, db_of. destruct r as [a|]; [by apply Hk|done]. Qed.

(** The loops of the tag and group requests, for either copy of the code. *)
Lemma many_grown kind b tag g mode ttl uids :
  ttl <= invitationMaxTTL getenv -> (kind <> KindTerminal -> mode = ModeViewer) -> with_access w0 now (mt_TargetID s) uids ->
  preserves (grown getenv kind now draws s w0 b) (create_each (create_record kind s) (mt_OwnerID s) g tag mode ttl uids draws 0).
Proof.
  intros Ht Hm Hacc. apply create_each_grown. intros u j Hu Ho. apply record_grown; [done|done|]. right. eauto.
Qed.
Lemma grown_access kind b w us tid : grown getenv kind now draws s w0 b w -> with_access w now tid us -> with_access w0 now tid us.
Proof. intros (Ha & _) Hu. unfold with_access. by rewrite <- Ha. Qed.
Lemma tag_terminal_grown b tag mode ttl : ttl <= invitationMaxTTL getenv ->
  preserves (grown getenv KindTerminal now draws s w0 b) (handleCreateTagInvitations dflt s (mt_OwnerID s) tag mode ttl now draws).
Proof.
  intros Ht. pose proof (grown_stores getenv KindTerminal now draws s w0 b) as HP. unfold handleCreateTagInvitations.
  eapply preserves_after_reads; [apply reads_call, invitable_tag_reads|]. intros us w Hw Hus. case_decide; [preserve|].
  apply preserves_bind; [by apply frame_ensure|]. intros _. apply preserves_bind; [apply many_grown; [done|done|by eapply grown_access]|].
  intros items. share_preserve.
Qed.
Lemma group_terminal_grown b g mode ttl : ttl <= invitationMaxTTL getenv ->
  preserves (grown getenv KindTerminal now draws s w0 b) (handleCreateGroupInvitations dflt s (mt_OwnerID s) g mode ttl now draws).
Proof.
  intros Ht. pose proof (grown_stores getenv KindTerminal now draws s w0 b) as HP. unfold handleCreateGroupInvitations.
  eapply preserves_after_reads; [apply reads_call, invitable_group_reads|]. intros us w Hw Hus. case_decide; [preserve|].
  apply preserves_bind; [by apply frame_ensure|]. intros _. apply preserves_bind; [apply many_grown; [done|done|by eapply grown_access]|].
  intros items. share_preserve.
Qed.
Lemma tag_kind_grown kind b tag mode ttl : ttl <= invitationMaxTTL getenv -> mode = ModeViewer ->
  preserves (grown getenv kind now draws s w0 b) (handleSharingCreateTagInvitations dflt s tag mode ttl (create_record kind s) now draws).
Proof.
  intros Ht Hm. pose proof (grown_stores getenv kind now draws s w0 b) as HP. unfold handleSharingCreateTagInvitations.
  eapply preserves_after_reads; [apply reads_call, invitable_tag_reads|]. intros us w Hw Hus. case_decide; [preserve|].
  apply preserves_bind; [by apply frame_ensure_meta|]. intros _. apply preserves_bind; [apply many_grown; [done|done|by eapply grown_access]|].
  intros items. share_preserve.
Qed.
Lemma group_kind_grown kind b g mode ttl : ttl <= invitationMaxTTL getenv -> mode = ModeViewer ->
  preserves (grown getenv kind now draws s w0 b) (handleSharingCreateGroupInvitations dflt s g mode ttl (create_record kind s) now draws).
Proof.
  intros Ht Hm. pose proof (grown_stores getenv kind now draws s w0 b) as HP. unfold handleSharingCreateGroupInvitations.
  eapply preserves_after_reads; [apply reads_call, invitable_group_reads|]. intros us w Hw Hus. case_decide; [preserve|].
  apply preserves_bind; [by apply frame_ensure_meta|]. intros _. apply preserves_bind; [apply many_grown; [done|done|by eapply grown_access]|].
  intros items. share_preserve.
Qed.
Lemma grown_reach kind b w u : grown getenv kind now draws s w0 b w ->
  AccessGroups.can_access (sw_access w) now u (mt_TargetID s) -> AccessGroups.can_access (sw_access w0) now u (mt_TargetID s).
Proof. intros (Ha & _). by rewrite Ha. Qed.
(** What the choice of the addressee establishes, in either order of the checks. *)
Definition addressed (b : option Z -> Prop) (invitee : string) (w : share_world) (m : option Z) : Prop :=
  nullableUser invitee = None /\ b m \/
  m = None /\ invitee <> mt_OwnerID s /\ AccessGroups.can_access (sw_access w) now invitee (mt_TargetID s).
Lemma addressee_link P (b : option Z -> Prop) (r : result http_err (option Z)) : (forall m, r = Ok m -> b m) -> reads P (db_of r) (addressed b "").
Proof. intros Hb w _ c Hc. split; [done|]. simpl. destruct r as [m|]; [|done]. left. split; [done|]. by apply Hb. Qed.
Lemma addressee_reach P b invitee : invitee <> mt_OwnerID s ->
  reads P (let* ok := can_reach dflt invitee (mt_TargetID s) now in if ok : bool then db_ret (@None Z) else db_throw no_access) (addressed b invitee).
Proof.
  intros Ho. eapply reads_bind; [apply can_reach_reads|]. intros [|]; [|apply reads_throw]. apply reads_ret. intros w [_ Hok]. right.
  split; [done|]. split; [done|]. by apply Hok.
Qed.
Lemma finish_grown kind b invitee mode ttl m w (rest : Invitation * Token -> ShareM create_reply) :
  ttl <= invitationMaxTTL getenv -> (kind <> KindTerminal -> mode = ModeViewer) ->
  grown getenv kind now draws s w0 b w -> addressed b invitee w m -> (forall p, preserves (grown getenv kind now draws s w0 b) (rest p)) ->
  preserves (grown getenv kind now draws s w0 b) (let* p := create_record kind s (mt_OwnerID s) invitee "" "" mode ttl m (draws 0%nat) in rest p).
Proof.
  intros Ht Hm Hw Ha Hr. apply preserves_bind; [|exact Hr]. apply record_grown; [done|done|].
  destruct Ha as [Ha|(-> & Ho & Hacc)]; [by left|right]. split; [done|]. split; [done|]. by eapply grown_reach.
Qed.
Lemma lift_frame P room u : about_stores P -> preserves P (lift_kick room u).
Proof. intros HP. unfold lift_kick. case_decide; [preserve|by apply frame_room]. Qed.
Lemma tell_frame P u inv : about_stores P -> preserves P (tell_invitee u inv).
Proof. intros HP. unfold tell_invitee. case_decide; [preserve|by apply frame_invitee]. Qed.

Lemma create_invitation_grown sid body :
  preserves (grown getenv KindTerminal now draws s w0 (asked_link body)) (create_invitation dflt getenv s sid body now draws).
Proof.
  pose proof (grown_stores getenv KindTerminal now draws s w0 (asked_link body)) as HP. unfold create_invitation.
  destruct (sharingRecordingRequired getenv); [preserve|]. apply preserves_of_ok. intros req Hreq%asked_req.
  apply preserves_bind; [preserve|]. intros mode. apply preserves_bind; [preserve|]. intros _.
  pose proof (request_ttl_max (invitationMaxTTL getenv) (cr_TTLSeconds req)) as Ht.
  case_decide as Hg; [apply preserves_bind; [by apply group_terminal_grown|intros; preserve]|].
  case_decide as Htag; [apply preserves_bind; [by apply tag_terminal_grown|intros; preserve]|].
  eapply (preserves_after_reads _ _ _ (addressed (asked_link body) (TrimSpace_s (cr_InviteeUserID req)))).
  - case_decide as Hi; [rewrite Hi; apply addressee_link; intros m; by eapply link_ok|].
    eapply reads_bind; [apply reads_any; intros; share_preserve|]. intros ?. case_decide as Ho; [apply reads_throw|]. by apply addressee_reach.
  - intros m w Hw Ha. eapply finish_grown; [done|done|exact Hw|exact Ha|]. intros p.
    apply preserves_bind; [by apply frame_ensure|]. intros room. apply preserves_bind; [by apply lift_frame|]. intros _.
    apply preserves_bind; [by apply tell_frame|]. intros _. share_preserve.
Qed.
Lemma create_sharing_grown kind body :
  preserves (grown getenv kind now draws s w0 (asked_link body))
    (handleSharingCreateInvitation dflt getenv s (create_record kind s) body now draws).
Proof.
  pose proof (grown_stores getenv kind now draws s w0 (asked_link body)) as HP. unfold handleSharingCreateInvitation.
  destruct (sharingRecordingRequired getenv); [preserve|]. apply preserves_of_ok. intros req Hreq%asked_req.
  apply preserves_of_ok. intros mode Hmode. apply preserves_bind; [preserve|]. intros _.
  assert (Hm : mode = ModeViewer).
  { unfold normaliseViewOnlyInviteMode in Hmode. case_decide; [by simplify_eq|]. destruct (NormaliseMode _); [|done].
    case_decide; [done|by simplify_eq]. }
  pose proof (request_ttl_max (invitationMaxTTL getenv) (cr_TTLSeconds req)) as Ht.
  case_decide as Hg; [apply preserves_bind; [by apply group_kind_grown|intros; preserve]|].
  case_decide as Htag; [apply preserves_bind; [by apply tag_kind_grown|intros; preserve]|].
  eapply (preserves_after_reads _ _ _ (addressed (asked_link body) (TrimSpace_s (cr_InviteeUserID req)))).
  - case_decide as Hi; [rewrite Hi; apply addressee_link; intros m; by eapply link_ok|]. case_decide as Ho; [apply reads_throw|].
    eapply reads_bind; [apply reads_any; intros; share_preserve|]. intros ?. by apply addressee_reach.
  - intros m w Hw Ha. eapply finish_grown; [done|done|exact Hw|exact Ha|]. intros p.
    apply preserves_bind; [by apply frame_ensure_meta|]. intros room. apply preserves_bind; [by apply lift_frame|]. intros _.
    apply preserves_bind; [by apply tell_frame|]. intros _. share_preserve.
Qed.
End handlers_facts.

Section entitled.
Context `{Crypto} `{UnicodeTables} `{MapRange} `{SetScan} (dflt : Z) (getenv : string -> string).
(** C3. Whatever a request to invite ends with, it leaves the invitations that
    were there alone and stores nothing unless the caller owns the live session
    and still has access to its target. What it stores are unused invitations
    to that session that end within the configured maximum: a link, when the
    body names no user, tag or group, whose cap is the number the body gives (one
    if it gives none) or which has no cap when the body says unlimited; or
    invitations of people other than the owner who have access to the target;
    for VNC and RDP all of them are view-only. *)
Theorem invitations_are_entitled kind e sid body now draws w0 c :
  kind = KindTerminal \/ kind = KindVNC \/ kind = KindRDP -> tables c = w0 ->
  let (c', _) := create_handler dflt getenv kind e sid body now draws c in
  tables c' = w0 \/
  exists s, owner_of w0 kind e sid now s /\ sw_access (tables c') = sw_access w0 /\
    session_invitations (sw_sharing w0) ⊆ session_invitations (sw_sharing (tables c')) /\
    forall id r, session_invitations (sw_sharing (tables c')) !! id = Some r -> session_invitations (sw_sharing w0) !! id = None ->
      issued getenv kind now draws s w0 (asked_link body) r.
Proof.
  intros Hk Hc. set (R := fun w (_ : result http_err create_reply) => w = w0 \/ exists s, owner_of w0 kind e sid now s /\ grown getenv kind now draws s w0 (asked_link body) w).
  assert (Hh : hoare (eq w0) (create_handler dflt getenv kind e sid body now draws) R).
  { unfold create_handler. destruct Hk as [->|[->| ->]]; cbn -[hoare handleVNCCreateInvitation handleRDPCreateInvitation handleCreateInvitation].
    - eapply after_reads; [apply (load_owned_reads _ (fun _ => True))|done| |by left]. intros s Hs.
      eapply hoare_conseq; [apply (create_invitation_grown dflt getenv now draws s w0)|intros w <-; apply grown_refl|]. intros w ? Hw. right. exists s. by split.
    - eapply after_reads; [apply (load_owned_reads _ (fun _ => True))|done| |by left]. intros s Hs.
      eapply hoare_conseq; [apply (create_sharing_grown dflt getenv now draws s w0 KindVNC)|intros w <-; apply grown_refl|]. intros w ? Hw. right. exists s. by split.
    - eapply after_reads; [apply (load_owned_reads _ (fun _ => True))|done| |by left]. intros s Hs.
      eapply hoare_conseq; [apply (create_sharing_grown dflt getenv now draws s w0 KindRDP)|intros w <-; apply grown_refl|]. intros w ? Hw. right. exists s. by split. }
  specialize (Hh c (eq_sym Hc)). destruct (create_handler _ _ _ _ _ _ _ _ c) as [c' r]. exact Hh.
Qed.
End entitled.

(** ** Revocation *)
Section revocation.
Context `{Crypto} `{UnicodeTables} `{MapRange} `{SetScan} (dflt : Z).
Lemma stored_reads invID P : reads P (on_sharing (GetByID invID)) (fun w p => exists r, session_invitations (sw_sharing w) !! invID = Some r /\ p = scanInvitation r).
Proof.
  apply reads_sharing. intros w0 _. unfold GetByID.
  eapply (hoare_bind _ _ _ (fun t _ => t = sw_sharing w0)); [intros c Hc; unfold db_configured; by destruct (configured c)| |done].
  intros []. eapply (hoare_bind _ _ _ (fun t r => t = sw_sharing w0 /\ match r with Ok row => row = session_invitations (sw_sharing w0) !! invID | Err _ => True end)).
  - apply hoare_query; [by intros t ->|done].
  - intros [row|] c [Ht Hrow]; simpl; [|done]. split; [done|]. eauto.
  - by intros t e [Ht _].
Qed.
Lemma GetByID_reads invID P : reads P (store_get invID) (fun w p => exists r, session_invitations (sw_sharing w) !! invID = Some r /\ p = scanInvitation r).
Proof. apply reads_call, stored_reads. Qed.
Lemma MarkRevoked_run invID w c c' : on_sharing (E:=sharing_err) (MarkRevoked invID w) c = (c', Ok tt) ->
  tables c' = with_sharing (tables c) (set_invitations (sw_sharing (tables c)) (alter (set_revoked (Unix w)) invID (session_invitations (sw_sharing (tables c))))).
Proof.
  unfold on_sharing, db_zoom, MarkRevoked, db_bind, db_configured, db_exec, db_call. simpl.
  destruct (configured c); [|done]. simpl. destruct (faults c) as [|[m|] fs]; simpl; intros; by simplify_eq.
Qed.

(** Publishing changes the list of events and nothing else. *)
Definition quiet {A} (m : ShareM A) : Prop := forall c c' r, m c = (c', r) ->
  sw_registry (tables c') = sw_registry (tables c) /\ sw_calls (tables c') = sw_calls (tables c) /\
  sw_bridges (tables c') = sw_bridges (tables c) /\ sw_sharing (tables c') = sw_sharing (tables c).
Lemma quiet_modify f : (forall w, sw_registry (f w) = sw_registry w /\ sw_calls (f w) = sw_calls w /\ sw_bridges (f w) = sw_bridges w /\ sw_sharing (f w) = sw_sharing w) ->
  quiet (modify f).
Proof. intros Hf c c' r Hr. unfold modify in Hr. apply memory_run in Hr as [-> _]. apply Hf. Qed.
Lemma quiet_event s ty u n x l : quiet (publishSharingEvent s ty u n x l).
Proof. by apply quiet_modify. Qed.
Lemma quiet_event_for sid o ty u n x l : quiet (publishSharingEventForSession sid o ty u n x l).
Proof. unfold publishSharingEventForSession. case_decide; [by intros c c' r [= <- <-]|by apply quiet_modify]. Qed.
Lemma quiet_reads {A} (m : ShareM A) Q : reads (fun _ => True) m Q -> quiet m.
Proof. intros Hm c c' r Hr. destruct (Hm _ I c eq_refl) as [Ht _]. rewrite Hr in Ht. simpl in Ht. by rewrite Ht. Qed.
Lemma quiet_bind {A B} (m : ShareM A) (k : A -> ShareM B) : quiet m -> (forall a, quiet (k a)) -> quiet (db_bind m k).
Proof.
  intros Hm Hk c c' r. unfold db_bind. destruct (m c) as [c1 [a|e]] eqn:E.
  - intros Hr. apply Hk in Hr as (? & ? & ? & ?). apply Hm in E as (? & ? & ? & ?). split_and!; congruence.
  - intros [= <- <-]. by apply Hm in E.
Qed.
Lemma quiet_tell inv : quiet (tell_revoked inv).
Proof.
  unfold tell_revoked, publishInvitationEventToInvitee. destruct (_ && _); [|by intros c c' r [= <- <-]]. case_decide; [by intros c c' r [= <- <-]|].
  apply quiet_bind; [eapply quiet_reads, usernameFor_reads|]. intros n. by apply quiet_modify.
Qed.

(** The room after some of its viewers were put out. *)
Record put_out (r0 r : Room) (uids : list string) : Prop := {
  po_wf : room_wf r;
  po_owner : ownerID r = ownerID r0;
  po_gone : forall u, u ∈ uids -> memberByID r !! u = None /\ u ∈ kicked r;
  po_rest : forall u, u ∉ uids -> memberByID r !! u = memberByID r0 !! u
}.
Lemma RemoveParticipant_out r0 r uids u now : put_out r0 r uids -> u <> ownerID r0 -> is_Some (memberByID r0 !! u) ->
  put_out r0 (RemoveParticipant r u now).1 (uids ++ [u]).
Proof.
  intros [Hwf Ho Hg Hr] Hu Hin. pose proof (RemoveParticipant_wf r u now Hwf) as Hwf'.
  unfold RemoveParticipant in *. rewrite Ho in *. rewrite decide_False in * by done.
  destruct (memberByID r !! u) as [p|] eqn:Hp.
  - set (r' := if decide _ then _ else _) in *.
    assert (Hr' : memberByID r' = delete u (memberByID r) /\ kicked r' = kicked r ∪ {[u]} /\ ownerID r' = ownerID r0).
    { unfold r'. case_decide; simpl; by rewrite ?Ho. }
    simpl in *. destruct Hr' as (Hm' & Hk' & Ho'). split; [done|done| |].
    + intros v. rewrite elem_of_app, list_elem_of_singleton, Hm', Hk'. intros [Hv| ->]; [|rewrite lookup_delete_eq; set_solver].
      destruct (Hg v Hv) as [Hn Hb]. split; [rewrite lookup_delete_None; by right|set_solver].
    + intros v. rewrite not_elem_of_app, not_elem_of_cons, Hm'. intros (Hv & Hne & _). rewrite lookup_delete_ne by done. by apply Hr.
  - destruct (decide (u ∈ uids)) as [Hi|Hi]; [|exfalso; rewrite (Hr u Hi) in Hp; destruct Hin; congruence].
    split; simpl; [done|done| |].
    + intros v. rewrite elem_of_app, list_elem_of_singleton. intros [Hv| ->]; by apply Hg.
    + intros v. rewrite not_elem_of_app. intros [Hv _]. by apply Hr.
Qed.
(** The bridge was told to drop these users and then who may write. *)
Definition told (sid : string) (uids : list string) (writer : string) (calls : list bridge_call) : Prop :=
  (forall u, u ∈ uids -> CallDetachUser sid u ∈ calls) /\ (uids <> [] -> last calls = Some (CallSetWriter sid writer)).
Lemma disconnect_run s ref r u now c c' : u <> ""%string -> reg_heap (sw_registry (tables c)) !! ref = Some r ->
  disconnectSessionUser (E:=http_err) s (Some ref) u now c = (c', Ok tt) ->
  let r' := (RemoveParticipant r u now).1 in
  reg_heap (sw_registry (tables c')) !! ref = Some r' /\ reg_rooms (sw_registry (tables c')) = reg_rooms (sw_registry (tables c)) /\
  sw_sharing (tables c') = sw_sharing (tables c) /\ sw_bridges (tables c') = sw_bridges (tables c) /\
  sw_calls (tables c') = sw_calls (tables c) ++
    (if br_Get (tables c) (mt_SessionID s) then [CallDetachUser (mt_SessionID s) u; CallSetWriter (mt_SessionID s) (writerID r')] else []).
Proof.
  intros Hu Hr Hd r'. unfold disconnectSessionUser in Hd. rewrite decide_False in Hd by done. apply bind_inv in Hd as (c1 & a & H1' & H2').
  unfold on_room in H1'. apply memory_run in H1' as [Ht1 _]. unfold modify in H2'. apply memory_run in H2' as [Ht2 _].
  unfold with_room in Ht1. rewrite Hr in Ht1. fold r' in Ht1. destruct (RemoveParticipant r u now) as [r1 res] eqn:Er. simpl in r', Ht1. subst r'.
  assert (Hroom : room_at (tables c1) (Some ref) = Some r1) by (rewrite Ht1; unfold room_at; simpl; by rewrite lookup_insert_eq).
  simpl in Ht2. unfold sync_bridge in Ht2. rewrite Hroom in Ht2.
  assert (Hb : br_Get (tables c1) (mt_SessionID s) = br_Get (tables c) (mt_SessionID s)) by by rewrite Ht1. rewrite Hb in Ht2.
  destruct (br_Get (tables c) (mt_SessionID s)); rewrite Ht2, Ht1; simpl; rewrite ?lookup_insert_eq, ?app_nil_r; done.
Qed.
Lemma disconnect_each_run pub s ref r0 uids now : (forall u, quiet (pub u)) ->
  (forall u, u ∈ uids -> u <> ""%string /\ u <> ownerID r0 /\ is_Some (memberByID r0 !! u)) ->
  forall out r c c', reg_heap (sw_registry (tables c)) !! ref = Some r -> put_out r0 r out ->
  disconnect_each pub s (Some ref) uids now c = (c', Ok tt) ->
  exists r', reg_heap (sw_registry (tables c')) !! ref = Some r' /\ reg_rooms (sw_registry (tables c')) = reg_rooms (sw_registry (tables c)) /\
    put_out r0 r' (out ++ uids) /\ sw_sharing (tables c') = sw_sharing (tables c) /\ sw_bridges (tables c') = sw_bridges (tables c) /\
    exists calls, sw_calls (tables c') = sw_calls (tables c) ++ calls /\
      (br_Get (tables c) (mt_SessionID s) = true -> told (mt_SessionID s) uids (writerID r') calls).
Proof.
  intros Hpub. induction uids as [|u uids IH]; intros Huids out r c c' Hr Hout.
  { intros [= <-]. exists r. rewrite app_nil_r. split_and!; try done. exists []. rewrite app_nil_r. split; [done|]. intros _. split; [set_solver|done]. }
  simpl. intros (c1 & [] & H1' & (c2 & [] & H2' & H3')%bind_inv)%bind_inv.
  destruct (Huids u ltac:(by left)) as (Hne & Ho & Hin).
  destruct (disconnect_run _ _ _ _ _ _ _ Hne Hr H1') as (Hr1 & Hm1 & Hs1 & Hb1 & Hc1).
  destruct (Hpub _ _ _ _ H2') as (Hreg2 & Hc2 & Hb2 & Hs2).
  pose proof (RemoveParticipant_out r0 r out u now Hout Ho Hin) as Hout'.
  destruct (IH ltac:(intros v Hv; apply Huids; by right) (out ++ [u]) _ c2 c' ltac:(rewrite Hreg2; exact Hr1) Hout' H3') as (r' & Hr' & Hm' & Ho' & Hs' & Hb' & calls & Hc' & Htold).
  exists r'. split; [done|]. split; [congruence|]. split; [by rewrite <- (assoc_L (++)) in Ho'|]. split; [congruence|]. split; [congruence|].
  eexists. rewrite Hc', Hc2, Hc1, <- (assoc_L (++)). split; [reflexivity|]. intros Hb. rewrite Hb.
  assert (Hb2' : br_Get (tables c2) (mt_SessionID s) = true) by (unfold br_Get in *; by rewrite Hb2, Hb1). specialize (Htold Hb2').
  destruct Htold as [Hd Hl]. split.
  - intros v [->|Hv]%elem_of_cons; [by left|]. apply elem_of_app. right. by apply Hd.
  - intros _. destruct uids as [|v uids].
    + simpl in H3'. injection H3' as <-. destruct calls as [|x calls]; [|exfalso]. 
      * simpl. f_equal. f_equal. rewrite Hreg2 in Hr'. congruence.
      * rewrite <- (app_nil_r (sw_calls (tables c2))) in Hc' at 1. by apply app_inv_head in Hc'.
    + rewrite last_app, Hl by done. done.
Qed.
(** Nobody who came with the invitation is left, and nobody can come with it. *)
Definition revoked_out (s : sharingSessionMeta) (invID : string) (w w' : share_world) : Prop :=
  (forall row, session_invitations (sw_sharing w') !! invID = Some row -> forall t, ~ usable row t) /\
  forall ref r, reg_Get (sw_registry w) (mt_SessionID s) = Some ref -> reg_heap (sw_registry w) !! ref = Some r -> room_wf r -> memberByID r !! ""%string = None ->
    exists r', reg_heap (sw_registry w') !! ref = Some r' /\ room_wf r' /\
      (forall u p, memberByID r !! u = Some p -> p_Role p = RoleViewer -> p_InvitationID p = invID ->
         IsParticipant r' u = false /\ IsKicked r' u = true /\ HasWriter r' u = false) /\
      (forall u p, memberByID r !! u = Some p -> p_Role p = RoleOwner \/ p_InvitationID p <> invID -> memberByID r' !! u = Some p) /\
      exists calls, sw_calls w' = sw_calls w ++ calls /\
        (br_Get w (mt_SessionID s) = true -> told (mt_SessionID s) (ParticipantUserIDsForInvitation r invID) (writerID r') calls).
Lemma elem_of_consumers r invID u : invID <> ""%string ->
  u ∈ ParticipantUserIDsForInvitation r invID <-> exists p, memberByID r !! u = Some p /\ p_Role p = RoleViewer /\ p_InvitationID p = invID.
Proof.
  intros Hi. unfold ParticipantUserIDsForInvitation. rewrite decide_False by done. rewrite sort_strings_perm, list_elem_of_fmap. split.
  - intros ([v p] & -> & [Hp Hin]%list_elem_of_filter). apply elem_of_range in Hin. simpl in *. naive_solver.
  - intros (p & Hm & Hp). exists (u, p). split; [done|]. apply list_elem_of_filter. split; [done|]. by apply elem_of_range.
Qed.
Lemma disconnect_each_sharing pub s room uids now c c' r : (forall u, quiet (pub u)) ->
  disconnect_each pub s room uids now c = (c', r) -> sw_sharing (tables c') = sw_sharing (tables c).
Proof.
  intros Hpub. revert c. induction uids as [|u uids IH]; intros c; simpl; [by intros [= <- <-]|]. unfold db_bind.
  pose proof (frame_disconnect (fun w => sw_sharing w = sw_sharing (tables c)) ltac:(intros w w' -> _ _; done) (E:=http_err) s room u now c eq_refl) as Hd.
  destruct (disconnectSessionUser s room u now c) as [c1 [[]|e]]; [|by intros [= <- <-]]. simpl in Hd.
  destruct (pub u c1) as [c2 [[]|e]] eqn:E; destruct (Hpub _ _ _ _ E) as (_ & _ & _ & Hs); [|intros [= <- <-]; congruence].
  intros Hr%IH. congruence.
Qed.
Lemma revoke_tail pub (fin : ShareM unit) s invID now2 c c' : invID <> ""%string -> (forall u, quiet (pub u)) -> quiet fin ->
  (let* _ := call (on_sharing (MarkRevoked invID now2)) (fun _ : sharing_err => internal) in
   let* room := look (fun w => reg_Get (sw_registry w) (mt_SessionID s)) in
   let* uids := look (fun w => consumers_in w room invID) in
   let* _ := disconnect_each pub s room uids now2 in fin) c = (c', Ok tt) ->
  revoked_out s invID (tables c) (tables c').
Proof.
  intros Hi Hpub Hfin (c1 & [] & H1'%call_run%MarkRevoked_run & (c2 & room & H2' & (c3 & uids & H3' & (c4 & [] & H4' & H5')%bind_inv)%bind_inv)%bind_inv)%bind_inv.
  unfold look in H2', H3'. apply memory_run in H2' as [H2' [= ->]], H3' as [H3' [= ->]]. simpl in H2', H3'. rewrite H2' in H3'.
  destruct (Hfin _ _ _ H5') as (Hreg & Hcalls & _ & Hsh). rewrite H2' in H4'.
  assert (Hregc : sw_registry (tables c3) = sw_registry (tables c) /\ sw_calls (tables c3) = sw_calls (tables c) /\ sw_bridges (tables c3) = sw_bridges (tables c)
    /\ sw_sharing (tables c3) = sw_sharing (tables c1)) by (rewrite H3', H1'; done).
  destruct Hregc as (Hr3 & Hc3 & Hb3 & Hs3).
  assert (Hrows : forall sh, sh = sw_sharing (tables c1) -> forall row, session_invitations sh !! invID = Some row -> forall t, ~ usable row t).
  { intros sh -> row. rewrite H1'. simpl. rewrite lookup_alter_eq. intros (row0 & _ & ->)%fmap_Some t (Hrev & _). done. }
  unfold revoked_out. rewrite Hreg, Hcalls. clear Hreg Hcalls Hfin H5'.
  assert (Hr1 : sw_registry (tables c1) = sw_registry (tables c)) by by rewrite H1'.
  split.
  - apply Hrows. rewrite Hsh. etrans; [|exact Hs3]. by eapply disconnect_each_sharing.
  - intros ref r Hg Hr Hwf Hblank. rewrite Hr1, Hg in H4'.
    assert (Hus : consumers_in (tables c1) (Some ref) invID = ParticipantUserIDsForInvitation r invID).
    { unfold consumers_in, room_at. simpl. by rewrite Hr1, Hr. }
    rewrite Hus in H4'.
    assert (Hall : forall u, u ∈ ParticipantUserIDsForInvitation r invID -> u <> ""%string /\ u <> ownerID r /\ is_Some (memberByID r !! u)).
    { intros u (p & Hm & Hrole & _)%elem_of_consumers; [|done]. split; [congruence|]. split; [|by exists p]. intros ->.
      destruct (wf_members _ Hwf _ _ Hm) as [_ Hown]. rewrite (proj2 Hown eq_refl) in Hrole. done. }
    assert (Hout : put_out r r []) by (split; [done|done|intros u Hu; by apply not_elem_of_nil in Hu|done]).
    destruct (disconnect_each_run pub s ref r _ now2 Hpub Hall [] r c3 c4 ltac:(by rewrite Hr3) Hout H4') as (r' & Hr' & _ & [Hwf' Ho' Hg' Hrest] & _ & _ & calls & Hcalls & Htold).
    exists r'. split; [done|]. split; [done|]. split; [|split].
    + intros u p Hm Hrole Hinv. destruct (Hg' u) as [Hn Hk]; [apply elem_of_consumers; eauto|].
      unfold IsParticipant, IsKicked, HasWriter. rewrite Hn. split; [done|]. split; [by apply bool_decide_eq_true|].
      apply bool_decide_eq_false. intros Hw. destruct (wf_writer _ Hwf'). congruence.
    + intros u p Hm Hne. rewrite Hrest; [done|]. simpl. intros (p' & Hm' & Hrole & Hinv)%elem_of_consumers; [|done]. simplify_eq. destruct Hne; congruence.
    + exists calls. rewrite Hcalls, Hc3. split; [done|]. intros Hb. apply Htold. unfold br_Get in *. by rewrite Hb3.
Qed.
Definition revoke_handler (kind : Kind) : request_env -> string -> string -> time -> time -> ShareM unit :=
  if decide (kind = KindTerminal) then handleRevokeInvitation dflt else handleKindRevokeInvitation dflt kind.
(** C4. A revocation that succeeds was asked for by the owner of the live
    session the invitation belongs to. Afterwards the stored invitation can not
    be used at any time, everybody who had joined with it is out of the room,
    barred from it and not its writer, everybody else is where they were, and a
    live bridge was told to drop those users and who may write now. *)
Theorem revoke_puts_out kind e sid invID now now2 c c' : kind = KindTerminal \/ kind = KindVNC \/ kind = KindRDP -> invID <> ""%string ->
  revoke_handler kind e sid invID now now2 c = (c', Ok tt) ->
  exists s row, owner_of (tables c) kind e sid now s /\ session_invitations (sw_sharing (tables c)) !! invID = Some row /\
    row_session_id row = mt_SessionID s /\ revoked_out s invID (tables c) (tables c').
Proof.
  intros Hk Hi. unfold revoke_handler. case_decide as Ht.
  - unfold handleRevokeInvitation. intros (c1 & s & H1' & (c2 & p & H2' & H3')%bind_inv)%bind_inv.
    apply (reads_run _ _ _ _ _ _ (load_owned_reads dflt (fun _ => True) _ _ _ _)) in H1' as [Ht1 Hs]; [|done].
    apply (reads_run _ _ _ _ _ _ (GetByID_reads _ (fun _ => True))) in H2' as [Ht2 (row & Hrow & ->)]; [|done]. rewrite Ht1 in Ht2, Hrow.
    case_decide as Hne; [done|]. exists s, row. subst kind. split; [done|]. split; [done|]. split; [by destruct (decide (row_session_id row = mt_SessionID s))|].
    rewrite <- Ht2. eapply revoke_tail; [done| | |exact H3']; [intros u; apply quiet_event|].
    apply quiet_bind; [apply quiet_event|]. intros _. apply quiet_tell.
  - unfold handleKindRevokeInvitation. intros (c1 & s & H1' & (c2 & p & H2' & H3')%bind_inv)%bind_inv.
    apply (reads_run _ _ _ _ _ _ (owned_meta_reads dflt (fun _ => True) _ _ _ _ Hk)) in H1' as [Ht1 Hs]; [|done].
    apply (reads_run _ _ _ _ _ _ (GetByID_reads _ (fun _ => True))) in H2' as [Ht2 (row & Hrow & ->)]; [|done]. rewrite Ht1 in Ht2, Hrow.
    case_decide as Hne; [done|]. exists s, row. split; [done|]. split; [done|]. split; [by destruct (decide (row_session_id row = mt_SessionID s)); [|destruct Hne; left]|].
    rewrite <- Ht2. eapply revoke_tail; [done| | |exact H3']; [intros u; apply quiet_event_for|].
    apply quiet_bind; [apply quiet_event_for|]. intros _. apply quiet_tell.
Qed.
End revocation.

(** ** The list of an invitee *)
Section incoming.
Context `{Crypto} `{UnicodeTables} `{MapRange} `{SetScan}.
(** The list shows invitations to terminal sessions only: an invitation to a
    VNC or RDP session is skipped because no terminal session has its
    identifier. *)
Lemma incoming_shows_terminals_only encKey strict invs now P :
  reads P (incoming_items encKey strict invs now) (fun w items => forall it, it ∈ items -> find_session w KindTerminal (ic_SessionID it) <> None).
Proof.
  revert P. induction invs as [|inv invs IH]; intros P; simpl; [apply reads_ret; intros w _ it Hin; by apply not_elem_of_nil in Hin|].
  destruct (IsLink inv || negb (Active inv now)); [apply IH|]. eapply reads_bind; [apply reads_look|]. intros live.
  destruct (decide (live = None)) as [|Hlive]; [eapply reads_conseq; [apply (IH P)|by intros w []|done]|].
  eapply reads_bind; [apply usernameFor_reads|]. intros owner. eapply reads_bind; [by apply reads_any; intros Q; apply preserves_try, preserves_access_part|]. intros t.
  eapply reads_bind; [apply IH|]. intros rest. apply reads_ret. intros w [[[[_ [_ ->]] _] _] Hrest] it [->|Hin]%elem_of_cons; [exact Hlive|by apply Hrest].
Qed.
End incoming.

(** ** Witnesses *)
Definition demo_draw (i : nat) : invitation_draw := mkDraw (Ok (replicate 32 7)) (Ok (replicate 32 8)) (time_Unix 1600).
Definition demo_request : json_body := Body (mkInviteRequest "viewer" "" "" "net" 600 None false).
Definition demo_created : conn share_world * result http_err create_reply :=
  create_handler 100 (fun _ => ""%string) KindTerminal (demo_caller "alice") "s1" demo_request (time_Unix 1600) demo_draw (connect demo_share).
Lemma invitations_are_entitled_witness :
  is_ok demo_created.2 = true /\ tables demo_created.1 <> demo_share /\
  exists s, owner_of demo_share KindTerminal (demo_caller "alice") "s1" (time_Unix 1600) s /\ sw_access (tables demo_created.1) = sw_access demo_share.
Proof.
  assert (Hne : tables demo_created.1 <> demo_share).
  { intros E. apply (f_equal (fun w => size (session_invitations (sw_sharing w)))) in E. vm_compute in E. discriminate. }
  split; [vm_compute; reflexivity|]. split; [exact Hne|].
  pose proof (invitations_are_entitled 100 (fun _ => ""%string) KindTerminal (demo_caller "alice") "s1" demo_request (time_Unix 1600) demo_draw demo_share
    (connect demo_share) (or_introl eq_refl) eq_refl) as X.
  fold demo_created in X. destruct demo_created as [c' r]. destruct X as [E|(s & Hs & Ha & _)]; [contradiction|by exists s].
Defined.
Definition demo_revoked : conn share_world :=
  (revoke_handler 100 KindTerminal (demo_caller "alice") "s1" "link" (time_Unix 1600) (time_Unix 1601) (connect demo_share)).1.
Lemma revoke_puts_out_witness :
  exists r', room_of (sw_registry (tables demo_revoked)) "s1" = Some r' /\ IsParticipant r' "bob" = false /\ IsKicked r' "bob" = true.
Proof.
  destruct (revoke_puts_out 100 KindTerminal (demo_caller "alice") "s1" "link" (time_Unix 1600) (time_Unix 1601) (connect demo_share) demo_revoked
    (or_introl eq_refl)) as (s & row & (Hs & _) & _ & _ & _ & Hout).
  - discriminate.
  - vm_compute; reflexivity.
  - assert (Hid : mt_SessionID s = "s1"%string) by (vm_compute in Hs; injection Hs as <-; reflexivity).
    destruct demo_room_bob as (r & p & Hr & Hwf & Hb & Hp & Hv & Hi).
    destruct (Hout 0%nat r) as (r' & Hr' & _ & Hgone & _); [rewrite Hid; vm_compute; reflexivity|exact Hr|exact Hwf|exact Hb|].
    exists r'. split; [|destruct (Hgone "bob"%string p Hp Hv Hi) as (H1' & H2' & _); by split].
    unfold room_of. replace (reg_Get (sw_registry (tables demo_revoked)) "s1") with (Some 0%nat) by (vm_compute; reflexivity). exact Hr'.
Defined.
