(* ===== verification/SharingControl.v ===== *)
(** Taking part in shared sessions (src/internal/httpapi): joining VNC and RDP
    sessions (sharing_join_common.go, sharing_join_handlers.go), attaching to a
    terminal session, listing and kicking participants, and passing on the
    write token (sharing.go, sharing_kind.go, sharing_allow_rejoin.go).

    The handlers are operations of [share_world]; what a bridge is told is kept
    in order. The terminal join handler, which has its own copy of the
    sequence, is in SharingService.v. *)
From S2P Require Import Prelude GoText Sqlite Http Secret AuthPolicy AccessDB AccessRequests SharingRoom Invitations SharingService SharingWorld SharingInvites.
From S2P Require AuthStore AccessGroups SessionManager.
Local Open Scope Z_scope.

(** ** Data *)
Record sharingResponseParticipant := mkRespParticipant { rp_UserID : string; rp_Username : string; rp_Role : Role; rp_JoinedAt : Z; rp_IsWriter : bool }.
Record sharingResponseWriteRequest := mkRespWriteRequest {
  rw_ID : string; rw_RequesterID : string; rw_RequesterName : string; rw_Status : WriteRequestStatus;
  rw_RequestedAt : Z; rw_DecidedAt : Z; rw_DecidedBy : string
}.
Definition encodeWriteRequest (wr : WriteRequest) : sharingResponseWriteRequest :=
  mkRespWriteRequest (wr_ID wr) (wr_RequesterID wr) (wr_RequesterName wr) (wr_Status wr)
    (timestamp (wr_RequestedAt wr)) (timestamp (wr_DecidedAt wr)) (wr_DecidedBy wr).
(** What the list of participants answers. *)
Record participants_reply := mkParticipantsReply {
  pr_items : list sharingResponseParticipant; pr_writer_id : string; pr_writer_username : string; pr_owner_id : string;
  pr_pending : list sharingResponseWriteRequest; pr_kicked : list string
}.
Definition kickedUserIDs (room : option Room) : list string := match room with None => [] | Some r => KickedUserIDs r end.
Definition roomWriterID (room : option Room) : string := match room with None => ""%string | Some r => writerID r end.
Definition participant_not_found (status : Z) : http_err := Http status "sharing.participantNotFound".
Definition status_text (st : WriteRequestStatus) : string :=
  match st with
  | WriteRequestPending => "pending" | WriteRequestGranted => "granted" | WriteRequestDenied => "denied" | WriteRequestCanceled => "canceled"
  end.

Section control.
Context `{Crypto} `{UnicodeTables} `{MapRange} `{SetScan} (dflt : Z) (getenv : string -> string).

(** ** Joining a VNC or RDP session *)
Inductive lookup_failure := errSharingTokenOrIDRequired | errSharingLinkTokenRequired | LookupStore (e : sharing_err).
Definition lookupJoinInvitation (body : join_body) : DB share_world lookup_failure Invitation :=
  if decide (body_InvitationToken body <> ""%string) then
    call (on_sharing (GetByTokenHash (HashToken (body_InvitationToken body)))) LookupStore
  else if decide (body_InvitationID body <> ""%string) then
    let* p := call (on_sharing (GetByID (body_InvitationID body))) LookupStore in
    if IsLink p.1 then db_throw errSharingLinkTokenRequired else db_ret p.1
  else db_throw errSharingTokenOrIDRequired.
Definition lookup_response (e : lookup_failure) : http_err :=
  match e with
  | errSharingLinkTokenRequired => Http 400 "sharing.linkTokenRequired"
  | LookupStore ErrInvitationNotFound => Http 404 "sharing.invitationNotFound"
  | _ => internal
  end.
Definition validateJoinInvitation (inv : Invitation) (userID expectedSessionID : string) (expectedKind : Kind) (now : time) : ShareM unit :=
  if decide (inv_SessionID inv <> expectedSessionID) then db_throw invitation_not_found else
  if decide (expectedKind <> ""%string /\ inv_SessionKind inv <> expectedKind) then db_throw invitation_not_found else
  if negb (Active inv now) then db_throw (Http 403 "sharing.invitationInactive") else
  if negb (IsLink inv) && negb (EqualFold_s (inv_InviteeUserID inv) userID) then db_throw (Http 403 "sharing.invitationOtherUser") else
  if decide (userID = inv_OwnerUserID inv) then db_throw (Http 400 "sharing.cannotInviteSelf") else
  let* ok := can_reach dflt (inv_OwnerUserID inv) (inv_TargetID inv) now in
  if negb ok then db_throw (Http 403 "sharing.invitationStaleAccess") else
  let* ok := can_reach dflt userID (inv_TargetID inv) now in
  if negb ok then db_throw (Http 403 "sharing.inviteeNoTargetAccess") else db_ret tt.

(** [Service.JoinRoom] with the service of [sharingService]: its access check
    reads the database, one statement after the other. [now2]: the clock of the
    access checks. *)
Definition access_of (u tid : string) (now : time) : DB share_world sharing_err bool :=
  call (on_access (AccessGroups.userCanAccessTarget u tid dflt now)) (fun _ => ErrDatabase "access").
Definition join_checks (inv : Invitation) (userID : string) (now now2 : time) : DB share_world sharing_err unit :=
  let* reg := look sw_registry in
  let* _ := db_of (check_join (mkService true None None) reg inv userID now) in
  let* ok := access_of (inv_OwnerUserID inv) (inv_TargetID inv) now2 in
  if negb ok then db_throw ErrInviterNoTargetAccess else
  let* ok := access_of userID (inv_TargetID inv) now2 in
  if negb ok then db_throw ErrJoinerNoTargetAccess else db_ret tt.
Definition join_consume (inv : Invitation) (userID : string) (now now2 : time) : DB share_world sharing_err unit :=
  let* _ := join_checks inv userID now now2 in
  on_sharing (RecordUse (inv_ID inv) userID now).
Definition join_enter (inv : Invitation) (userID username : string) (now : time) : DB share_world sharing_err nat :=
  let* r := in_memory (fun w =>
    let (reg, r) := enter_room (sw_registry w) (inv_SessionID inv) (inv_TargetID inv) (inv_OwnerUserID inv) (inv_OwnerUserID inv)
      userID username (inv_ID inv) now in (with_registry w reg, r)) in
  db_of r.
Definition join_room (inv : Invitation) (userID username : string) (now now2 : time) : DB share_world sharing_err nat :=
  let* _ := join_consume inv userID now now2 in
  join_enter inv userID username now.
Definition mapSharingJoinError (e : sharing_err) : http_err :=
  match e with
  | ErrInvitationConsumed => Http 403 "sharing.invitationInactive"
  | ErrUserKicked => Http 403 "sharing.userKicked"
  | ErrInvitationNotFound => Http 404 "sharing.invitationNotFound"
  | ErrInviterNoTargetAccess => Http 403 "sharing.invitationStaleAccess"
  | ErrJoinerNoTargetAccess => Http 403 "sharing.inviteeNoTargetAccess"
  | _ => internal
  end.
Definition joinUsername {E} := usernameFor (E:=E).
(** What follows a join: nothing of it can fail. *)
Definition tell_joined (inv : Invitation) (userID username sessionID ownerID : string) : ShareM unit :=
  let* _ :=
    (if negb (IsLink inv) && bool_decide (TrimSpace_s (inv_InviteeUserID inv) <> ""%string) then
       let* fresh := db_try (on_sharing (GetByID (inv_ID inv))) in
       match fresh with
       | Ok p => publishInvitationEventToInvitee (inv_InviteeUserID inv) EventInvitationConsumed p.1
       | Err _ => db_ret tt
       end
     else db_ret tt) in
  let* _ := publishSharingEventForSession sessionID ownerID EventInvitationConsumed userID username (inv_id_extra (inv_ID inv)) [] in
  publishSharingEventForSession sessionID ownerID EventParticipantJoined userID username [] [].
Definition completeSharingJoin (inv : Invitation) (userID sessionID ownerID : string) (now now2 : time) : ShareM (string * Role) :=
  let* username := joinUsername userID in
  let* _ := call (join_room inv userID username now now2) mapSharingJoinError in
  let* _ := tell_joined inv userID username sessionID ownerID in
  db_ret (sessionID, RoleViewer).

(** The checks, up to the validated invitation. [body]: the JSON object, or
    [None] when it does not parse. *)
Definition join_request (userID : string) (body : option join_body) (expectedSessionID : string) (expectedKind : Kind) (now : time) : ShareM Invitation :=
  if decide (userID = ""%string) then db_throw unauthorized else
  if sharingRecordingRequired getenv then db_throw recording_required else
  match decodeJoinInvitationBody body with
  | None => db_throw (Http 400 "common.invalidRequestBody")
  | Some body =>
      if decide (body_InvitationID body = ""%string /\ body_InvitationToken body = ""%string) then db_throw (Http 400 "sharing.tokenOrIDRequired") else
      let* inv := call (lookupJoinInvitation body) lookup_response in
      let* _ := validateJoinInvitation inv userID expectedSessionID expectedKind now in
      db_ret inv
  end.
(** [now], [now2], [now3]: the clock at the validation, in [completeSharingJoin]
    and at the second access check. *)
Definition handleSharingJoin (e : request_env) (body : option join_body) (expectedSessionID : string) (expectedKind : Kind) (ownerID : string)
    (now now2 now3 : time) : ShareM (string * Role) :=
  let userID := TrimSpace_s (currentUserID e) in
  let* inv := join_request userID body expectedSessionID expectedKind now in
  completeSharingJoin inv userID expectedSessionID ownerID now2 now3.
Definition join_handler (kind : Kind) (e : request_env) (sessionID : string) (body : option join_body) (now now2 now3 : time) : ShareM (string * Role) :=
  let* s := look (fun w => find_session w kind sessionID) in
  match s with
  | None => db_throw session_not_found
  | Some s => handleSharingJoin e body (mt_SessionID s) kind (mt_OwnerID s) now now2 now3
  end.
Definition handleVNCJoinSession := join_handler KindVNC.
Definition handleRDPJoinSession := join_handler KindRDP.

(** ** Attaching to a terminal session *)
Definition terminalSessionByOwnerOrParticipant (sessionID userID : string) (viewer : bool) (now : time)
    : DB share_world sharing_err (sharingSessionMeta * option nat) :=
  let* w := look id in
  match find_session w KindTerminal sessionID with
  | None => db_throw ErrRoomNotFound
  | Some s =>
      let ref := reg_Get (sw_registry w) (mt_SessionID s) in
      let room := room_at w ref in
      let refusal := if viewer then ErrParticipantMissing else ErrNotWriter in
      let member := match room with Some r => IsParticipant r userID | None => false end in
      let writer := match room with Some r => HasWriter r userID | None => false end in
      if negb (if viewer then member else bool_decide (mt_OwnerID s = userID) || writer) then db_throw refusal else
      let* ok := access_of userID (mt_TargetID s) now in
      if ok : bool then db_ret (s, ref) else db_throw refusal
  end.

(** A client for the bridge, queued in [AttachCh]: who, and read-only or not. *)
Record attach_request := mkAttachReq { ar_UserID : string; ar_Username : string; ar_Viewer : bool }.
Definition attach_err (e : sharing_err) : http_err :=
  match e with ErrRoomNotFound | ErrParticipantMissing => session_not_found | ErrNotWriter => Http 403 "common.forbidden" | _ => internal end.
(** [upgraded]: the WebSocket handshake succeeded; [greeted]: so did the first
    messages; [busy]: the queue is full. For a writer the controller is told who
    may write right after the request was queued. *)
Definition handleTerminalAttach (modeParam userID sessionIDParam : string) (upgraded greeted busy : bool) (now : time) : ShareM (option attach_request) :=
  let viewer := bool_decide (ToLower_s (TrimSpace_s modeParam) = "viewer"%string) in
  let* p := call (terminalSessionByOwnerOrParticipant sessionIDParam userID viewer now) attach_err in
  if negb upgraded then db_throw (Http 400 "common.failedUpgradeConnection") else
  if negb greeted then db_ret None else
  let* username := usernameFor userID in
  if busy then db_ret None else
  let* _ := (if viewer then db_ret tt else modify (sync_bridge [] (mt_SessionID p.1) p.2)) in
  db_ret (Some (mkAttachReq userID username viewer)).

(** ** The participants *)
Definition list_items (room : Room) : list sharingResponseParticipant :=
  (fun p => mkRespParticipant (p_UserID p) (p_Username p) (p_Role p) (Unix (p_JoinedAt p)) (bool_decide (p_UserID p = writerID room))) <$> Participants room.
Definition writer_name (room : Room) : ShareM string :=
  let name := match filter (fun p => p_UserID p = writerID room) (Participants room) with p :: _ => p_Username p | [] => ""%string end in
  if decide (name = ""%string /\ writerID room <> ""%string) then usernameFor (writerID room) else db_ret name.
Definition write_list (owner : string) (pending : Room -> list sharingResponseWriteRequest) (ref : option nat) : ShareM participants_reply :=
  let* room := look (fun w => room_at w ref) in
  match room with
  | None => db_ret (mkParticipantsReply [] "" "" owner [] [])
  | Some r =>
      let* name := writer_name r in
      db_ret (mkParticipantsReply (list_items r) (writerID r) name owner (pending r) (KickedUserIDs r))
  end.
Definition handleListParticipants (e : request_env) (sessionID : string) (now : time) : ShareM participants_reply :=
  let* p := loadParticipatingTerminalSession e sessionID in
  let '(s, room, _) := p in
  let* room := (match room with None => ensureRoomFor s now | Some _ => db_ret room end) in
  write_list (mt_OwnerID s) (fun r => encodeWriteRequest <$> PendingRequests r) room.
Definition writeListParticipants (meta : sharingSessionMeta) (room : option nat) (now : time) : ShareM participants_reply :=
  let* room := (match room with None => ensureRoomForMeta meta now | Some _ => db_ret room end) in
  write_list (mt_OwnerID meta) (fun _ => []) room.
Definition handleKindListParticipants (kind : Kind) (e : request_env) (sessionID : string) (now : time) : ShareM participants_reply :=
  let* p := loadParticipatingSharingMeta kind e sessionID in
  let '(s, room, _) := p in
  let* room := (match room with None => ensureRoomForMeta s now | Some _ => db_ret room end) in
  writeListParticipants s room now.

(** ** Kicking *)
Definition kick_err (e : sharing_err) : http_err :=
  match e with
  | ErrParticipantMissing => participant_not_found 404
  | ErrCannotKickOwner => Http 400 "sharing.cannotKickOwner"
  | _ => internal
  end.
Definition kick_kind_err (e : sharing_err) : http_err := match e with ErrParticipantMissing => participant_not_found 404 | _ => internal end.
Definition kicked_extra : list (string * extra) := [("reason"%string, XText "kicked")].
(** What both handlers check of the user to be kicked; the room. *)
Definition kick_target (s : sharingSessionMeta) (target : string) : ShareM (option nat) :=
  if decide (TrimSpace_s target = ""%string) then db_throw (Http 400 "sharing.userIDRequired") else
  if decide (target = mt_OwnerID s) then db_throw (Http 400 "sharing.cannotKickOwner") else
  let* room := look (fun w => reg_Get (sw_registry w) (mt_SessionID s)) in
  match room with None => db_throw (participant_not_found 404) | Some _ => db_ret room end.
(** The user is told before the bridge drops the connection. *)
Definition handleKickParticipant (e : request_env) (sessionID target : string) (now now2 : time) : ShareM unit :=
  let* s := loadOwnedTerminalSession dflt e sessionID now in
  let* room := kick_target s target in
  let* r := on_room room (Err ErrRoomNotFound) (fun r => RemoveParticipant r target now2) in
  let* _ := (match r with Ok _ => db_ret tt | Err x => db_throw (kick_err x) end) in
  let* _ := publishSharingEvent s EventParticipantLeft target "" kicked_extra [target] in
  let* _ := modify (sync_bridge [target] (mt_SessionID s) room) in
  modify (publish [Broadcast]).
Definition kick_by_service (room : option nat) (sessionID userID : string) (now : time) : DB share_world http_err (result sharing_err unit) :=
  in_memory (fun w =>
    let (w', r) := KickParticipant (mkService true (Some (br_Get w)) None) room sessionID userID now (mkWorld tt (sw_registry w) (sw_calls w)) in
    (with_calls (with_registry w (w_registry w')) (w_bridge_calls w'), r)).
Definition handleKindKickParticipant (kind : Kind) (e : request_env) (sessionID target : string) (now now2 : time) : ShareM unit :=
  let* s := loadOwnedSharingMeta dflt kind e sessionID now in
  let* room := kick_target s target in
  let* r := kick_by_service room (mt_SessionID s) target now2 in
  let* _ := (match r with Ok _ => db_ret tt | Err x => db_throw (kick_kind_err x) end) in
  publishSharingEventForSession (mt_SessionID s) (mt_OwnerID s) EventParticipantLeft target "" kicked_extra [target].

(** ** The write token *)
Definition publishWriteRequestPending (s : sharingSessionMeta) (room : option nat) (requesterID requesterName requestID : string) : ShareM unit :=
  match room with
  | None => db_ret tt
  | Some _ =>
      modify (fun w =>
        let writer := TrimSpace_s (roomWriterID (room_at w room)) in
        if bool_decide (writer = ""%string) || bool_decide (writer = requesterID) then w
        else publish [PublishToUsers (mkEvent EventWriteRequestPending (mt_SessionID s) requesterID requesterName
          [("request_id"%string, XText requestID)]) [writer]] w)
  end.
Definition request_err (e : sharing_err) : http_err :=
  match e with
  | ErrAlreadyWriter => Http 400 "sharing.alreadyWriter"
  | ErrParticipantMissing => participant_not_found 403
  | _ => internal
  end.
Definition handleCreateWriteRequest (e : request_env) (sessionID : string) (now : time) (rand : result string (list Z)) : ShareM sharingResponseWriteRequest :=
  let* p := loadParticipatingTerminalSession e sessionID in
  let '(s, _, userID) := p in
  let* room := ensureRoomFor s now in
  let* username := usernameFor userID in
  let* id := db_of (newSharingID rand) in
  let* r := on_room room (Err ErrRoomNotFound) (fun r => RequestWrite r id userID username now) in
  match r with
  | Err x => db_throw (request_err x)
  | Ok wr =>
      let* _ := publishWriteRequestPending s room userID username (wr_ID wr) in
      db_ret (encodeWriteRequest wr)
  end.
Definition respondWriteRequestErr (e : sharing_err) : http_err :=
  match e with
  | ErrRequestNotFound => Http 404 "sharing.writeRequestNotFound"
  | ErrRequestNotPending => Http 400 "sharing.writeRequestNotPending"
  | ErrNotWriter => Http 403 "sharing.notWriter"
  | ErrParticipantMissing => participant_not_found 410
  | _ => internal
  end.
(** The controller is told the user the handler read, not what the room says now. *)
Definition tell_writer {E} (sessionID userID : string) : DB share_world E unit :=
  modify (fun w => if br_Get w sessionID then with_calls w (sw_calls w ++ [CallSetWriter sessionID userID]) else w).
Definition decided_extra (wr : WriteRequest) : list (string * extra) :=
  [("request_id", XText (wr_ID wr)); ("status", XText (status_text (wr_Status wr)))]%string.
Definition decideWriteRequest (grant : bool) (e : request_env) (sessionID reqID : string) (now : time) : ShareM sharingResponseWriteRequest :=
  let* p := loadParticipatingTerminalSession e sessionID in
  let '(s, room, userID) := p in
  match room with
  | None => db_throw (participant_not_found 403)
  | Some _ =>
      if decide (TrimSpace_s reqID = ""%string) then db_throw (Http 400 "sharing.requestIDRequired") else
      if grant then
        let* r := on_room room (WriteRequest_zero, ""%string, Some ErrRoomNotFound) (fun r => GrantWrite r reqID userID now) in
        let '(wr, previous, err) := r in
        match err with
        | Some x => db_throw (respondWriteRequestErr x)
        | None =>
            let* _ := tell_writer (mt_SessionID s) (wr_RequesterID wr) in
            let* _ := publishSharingEvent s EventWriteTokenTransferred (wr_RequesterID wr) (wr_RequesterName wr)
              ([("previous_id", XText previous); ("requester_id", XText (wr_RequesterID wr))]%string ++ decided_extra wr) [] in
            db_ret (encodeWriteRequest wr)
        end
      else
        let* r := on_room room (Err ErrRoomNotFound) (fun r => DenyWrite r reqID userID now) in
        match r with
        | Err x => db_throw (respondWriteRequestErr x)
        | Ok wr =>
            let* _ := publishSharingEvent s EventWriteRequestDecided (wr_RequesterID wr) (wr_RequesterName wr) (decided_extra wr) [] in
            db_ret (encodeWriteRequest wr)
        end
  end.
Definition handleGrantWriteRequest := decideWriteRequest true.
Definition handleDenyWriteRequest := decideWriteRequest false.
Definition release_err (e : sharing_err) : http_err := match e with ErrNotWriter => Http 403 "sharing.notWriter" | _ => internal end.
Definition handleReleaseWriteToken (e : request_env) (sessionID : string) : ShareM unit :=
  let* p := loadParticipatingTerminalSession e sessionID in
  let '(s, room, userID) := p in
  match room with
  | None => db_throw (participant_not_found 403)
  | Some _ =>
      let* r := on_room room (Err ErrRoomNotFound) (fun r => ReleaseWrite r userID) in
      match r with
      | Err x => db_throw (release_err x)
      | Ok previous =>
          let* _ := modify (sync_bridge [] (mt_SessionID s) room) in
          let* writer := look (fun w => roomWriterID (room_at w room)) in
          publishSharingEvent s EventWriteTokenTransferred writer "" [("previous_id", XText previous); ("requester_id", XText writer)]%string []
      end
  end.
End control.

(** * Properties *)

(** ** Attaching *)
Section attach.
Context `{SetScan} (dflt : Z).
Lemma access_of_reads P u tid now :
  reads P (access_of dflt u tid now) (fun w ok => ok = true -> AccessGroups.can_access (sw_access w) now u tid).
Proof.
  apply reads_call, reads_zoom. intros w0 _. eapply hoare_conseq; [apply userCanAccessTarget_sound|done|].
  intros _ [ok|] Hr; [|done]. intros ->. by apply Hr.
Qed.
(** Who is given a terminal session to attach to still has access to its
    target and is a participant of its room, as a viewer, or its owner or
    current writer, to type. Nothing changes. *)
Theorem attach_is_entitled sessionID u viewer now c c' s ref :
  terminalSessionByOwnerOrParticipant dflt sessionID u viewer now c = (c', Ok (s, ref)) ->
  tables c' = tables c /\ find_session (tables c) KindTerminal sessionID = Some s /\
  AccessGroups.can_access (sw_access (tables c)) now u (mt_TargetID s) /\ ref = reg_Get (sw_registry (tables c)) (mt_SessionID s) /\
  let room := room_of (sw_registry (tables c)) (mt_SessionID s) in
  if viewer then (exists r, room = Some r /\ IsParticipant r u = true)
  else mt_OwnerID s = u \/ exists r, room = Some r /\ HasWriter r u = true.
Proof.
  unfold terminalSessionByOwnerOrParticipant. intros (c1 & w & H1 & H2)%bind_inv.
  unfold look in H1. apply memory_run in H1 as [Ht [= ->]]. simpl in Ht. change (id (tables c)) with (tables c) in H2.
  destruct (find_session (tables c) KindTerminal sessionID) as [s0|] eqn:Hs; [|done]. cbv zeta in H2.
  change (room_at (tables c) (reg_Get (sw_registry (tables c)) (mt_SessionID s0))) with (room_of (sw_registry (tables c)) (mt_SessionID s0)) in H2.
  set (room := room_of (sw_registry (tables c)) (mt_SessionID s0)) in *.
  match type of H2 with (if negb ?b then _ else _) _ = _ => destruct b eqn:Hb end; simpl in H2; [|done].
  apply bind_inv in H2 as (c2 & ok & Hacc & H2). apply (reads_run _ _ _ _ _ _ (access_of_reads (fun _ => True) _ _ _)) in Hacc as [Ht2 Ha]; [|done].
  destruct ok; [|done]. unfold db_ret in H2. injection H2 as <- <- <-. rewrite Ht in Ht2, Ha.
  split; [done|]. split; [done|]. split; [by apply Ha|]. split; [done|]. simpl. fold room. destruct viewer.
  - destruct room as [r|]; [by exists r|done].
  - apply orb_true_iff in Hb as [Hb|Hb]; [left; by apply bool_decide_eq_true in Hb|right]. destruct room as [r|]; [by exists r|done].
Qed.
End attach.

(** ** Joining *)
Section joining.
Context `{Crypto} `{UnicodeTables} `{MapRange} `{SetScan} (dflt : Z) (getenv : string -> string).
Abbreviation rows w := (session_invitations (sw_sharing w)).
(** The invitation the request presents: by the secret of a link, or by the
    identifier of a named one. *)
Definition presents (w : share_world) (body : join_body) (inv : Invitation) : Prop :=
  exists id row, rows w !! id = Some row /\ inv = (scanInvitation row).1 /\
    if decide (body_InvitationToken body <> ""%string) then row_token_hash row = HashToken (body_InvitationToken body)
    else id = body_InvitationID body /\ IsLink inv = false.
Lemma by_token_reads h P : reads P (on_sharing (GetByTokenHash h)) (fun w inv => exists id row, rows w !! id = Some row /\ row_token_hash row = h /\ inv = (scanInvitation row).1).
Proof.
  apply reads_sharing. intros w0 _. unfold GetByTokenHash.
  eapply (hoare_bind _ _ _ (fun t _ => t = sw_sharing w0)); [intros c Hc; unfold db_configured; by destruct (configured c)| |done].
  intros []. eapply (hoare_bind _ _ _ (fun t r => t = sw_sharing w0 /\ match r with Ok row => row = row_by_token (sw_sharing w0) h | Err _ => True end)).
  - apply hoare_query; [by intros t ->|done].
  - intros [row|] c [Ht Hrow]; simpl; [|done]. split; [done|]. unfold row_by_token in Hrow. symmetry in Hrow. apply head_Some_elem_of in Hrow.
    apply list_elem_of_filter in Hrow as [Hh ([id r] & -> & Hin)%list_elem_of_fmap]. apply elem_of_map_to_list in Hin. by exists id, r.
  - by intros t e [Ht _].
Qed.
Lemma lookup_reads body P : reads P (lookupJoinInvitation body) (fun w inv => presents w body inv).
Proof.
  unfold lookupJoinInvitation, presents. destruct (decide (body_InvitationToken body <> ""%string)) as [Ht|Ht].
  - eapply reads_post; [apply reads_call, by_token_reads|]. intros w inv _ (id & row & Hr & Hh & ->). by exists id, row.
  - case_decide; [|apply reads_throw]. eapply reads_bind; [apply reads_call, stored_reads|].
    intros p. destruct (IsLink p.1) eqn:Hl; [apply reads_throw|]. apply reads_ret. intros w [_ (row & Hr & ->)]. by exists (body_InvitationID body), row.
Qed.
(** What the checks of the handler establish. *)
Definition validated (w : share_world) (inv : Invitation) (u sid : string) (kind : Kind) (now : time) : Prop :=
  inv_SessionID inv = sid /\ (kind <> ""%string -> inv_SessionKind inv = kind) /\ Active inv now = true /\
  (IsLink inv = true \/ EqualFold_s (inv_InviteeUserID inv) u = true) /\ u <> inv_OwnerUserID inv /\
  AccessGroups.can_access (sw_access w) now (inv_OwnerUserID inv) (inv_TargetID inv) /\ AccessGroups.can_access (sw_access w) now u (inv_TargetID inv).
Lemma validate_reads inv u sid kind now P : reads P (validateJoinInvitation dflt inv u sid kind now) (fun w _ => validated w inv u sid kind now).
Proof.
  unfold validateJoinInvitation. destruct (decide (inv_SessionID inv <> sid)) as [|Hs]; [apply reads_throw|].
  destruct (decide (kind <> ""%string /\ inv_SessionKind inv <> kind)) as [|Hk]; [apply reads_throw|].
  destruct (Active inv now) eqn:Ha; [|apply reads_throw]. cbn [negb].
  destruct (negb (IsLink inv) && negb (EqualFold_s (inv_InviteeUserID inv) u)) eqn:Hw; [apply reads_throw|].
  destruct (decide (u = inv_OwnerUserID inv)) as [|Ho]; [apply reads_throw|].
  eapply reads_bind; [apply can_reach_reads|]. intros [|]; [|apply reads_throw]. cbn [negb].
  eapply reads_bind; [apply can_reach_reads|]. intros [|]; [|apply reads_throw]. cbn [negb].
  apply reads_ret. intros w [[_ Hown] Huser]. unfold validated. split; [by destruct (decide (inv_SessionID inv = sid))|].
  split; [intros Hne; destruct (decide (inv_SessionKind inv = kind)); [done|by destruct Hk]|]. split; [done|].
  split; [apply andb_false_iff in Hw as [Hw|Hw]; apply negb_false_iff in Hw; auto|]. split; [done|]. split; [by apply Hown|by apply Huser].
Qed.
Lemma request_reads u body sid kind now P :
  reads P (join_request dflt getenv u body sid kind now)
    (fun w inv => exists b, decodeJoinInvitationBody body = Some b /\ u <> ""%string /\ presents w b inv /\ validated w inv u sid kind now).
Proof.
  unfold join_request. case_decide; [apply reads_throw|]. destruct (sharingRecordingRequired getenv); [apply reads_throw|].
  destruct (decodeJoinInvitationBody body) as [b|]; [|apply reads_throw]. case_decide; [apply reads_throw|].
  eapply reads_bind; [apply reads_call, lookup_reads|]. intros inv. eapply reads_bind; [apply validate_reads|]. intros [].
  apply reads_ret. intros w [[_ Hp] Hv]. by exists b.
Qed.
Lemma checks_reads inv u now now2 P :
  reads P (join_checks dflt inv u now now2) (fun w _ => kicked_from (sw_registry w) (inv_SessionID inv) u = false /\ Active inv now = true).
Proof.
  unfold join_checks. eapply reads_bind; [apply reads_look|]. intros reg.
  destruct (check_join (mkService true None None) reg inv u now) as [[]|e] eqn:Hc; [|by intros w0 Hp c ->].
  eapply (reads_bind _ _ _ (fun _ _ => True)); [by intros w0 Hp c ->|]. intros ?.
  eapply reads_bind; [apply access_of_reads|]. intros [|]; [|apply reads_throw]. cbn [negb].
  eapply reads_bind; [apply access_of_reads|]. intros [|]; [|apply reads_throw]. cbn [negb].
  apply reads_ret. intros w [[[[_ [_ ->]] _] _] _]. split; [by eapply check_join_kicked|]. unfold check_join in Hc. by inv_ok Hc.
Qed.
Lemma RecordUse_run id u w c c' : on_sharing (RecordUse id u w) c = (c', Ok tt) ->
  exists t, tables c' = with_sharing (tables c) t /\ used_tables (sw_sharing (tables c)) t id u (Unix w).
Proof.
  unfold on_sharing, db_zoom. pose proof (record_use_spec (mkConn (configured c) (sw_sharing (tables c)) (faults c)) id u w) as Hu.
  destruct (RecordUse id u w _) as [c1 r]. intros [= <- ->]. exists (tables c1). split; [done|]. apply Hu.
Qed.
Lemma enter_run inv u name now c c' ref : registry_wf (sw_registry (tables c)) ->
  kicked_from (sw_registry (tables c)) (inv_SessionID inv) u = false -> join_enter inv u name now c = (c', Ok ref) ->
  sw_sharing (tables c') = sw_sharing (tables c) /\
  exists r, room_of (sw_registry (tables c')) (inv_SessionID inv) = Some r /\ IsParticipant r u = true.
Proof.
  intros Hwf Hk. unfold join_enter. intros (c1 & r & Hm & Hr)%bind_inv. apply memory_run in Hm as [Ht Hres].
  unfold db_of in Hr. injection Hr as <- ->.
  pose proof (enter_room_spec (sw_registry (tables c)) (inv_SessionID inv) (inv_TargetID inv) (inv_OwnerUserID inv) (inv_OwnerUserID inv) u name (inv_ID inv) now Hwf) as Hen.
  rewrite Ht. destruct (enter_room _ _ _ _ _ _ _ _ _) as [reg r]. rewrite Hk in Hen. destruct Hen as (ref' & room & _ & _ & Hroom & Hp).
  split; [done|]. by exists room.
Qed.
Lemma quiet_joined inv u name sid owner : quiet (tell_joined inv u name sid owner).
Proof.
  unfold tell_joined. apply quiet_bind; [|intros ?; apply quiet_bind; [apply quiet_event_for|intros ?; apply quiet_event_for]].
  destruct (_ && _); [|by intros c c' r [= <- <-]]. apply quiet_bind.
  - eapply quiet_reads. apply reads_try, stored_reads.
  - intros [p|]; [|by intros c c' r [= <- <-]]. unfold publishInvitationEventToInvitee. case_decide; [by intros c c' r [= <- <-]|].
    apply quiet_bind; [eapply quiet_reads, usernameFor_reads|]. intros n. by apply quiet_modify.
Qed.
(** C5. A join of a VNC or RDP session that succeeds: the caller presented a
    stored invitation to this live session, by its secret or as the person it
    names; it was active; owner and caller are different and both have access
    to the target; the caller was not barred from the room. Exactly one use of
    the invitation was recorded, which its conditions allowed, and the caller is
    a participant of the room. *)
Theorem join_is_entitled kind e sid body now now2 now3 c c' x : registry_wf (sw_registry (tables c)) -> kind <> ""%string ->
  join_handler dflt getenv kind e sid body now now2 now3 c = (c', Ok x) ->
  let u := TrimSpace_s (currentUserID e) in
  exists s b inv, find_session (tables c) kind sid = Some s /\ decodeJoinInvitationBody body = Some b /\
    presents (tables c) b inv /\ validated (tables c) inv u (mt_SessionID s) kind now /\
    kicked_from (sw_registry (tables c)) (mt_SessionID s) u = false /\
    used_tables (sw_sharing (tables c)) (sw_sharing (tables c')) (inv_ID inv) u (Unix now2) /\
    exists r, room_of (sw_registry (tables c')) (mt_SessionID s) = Some r /\ IsParticipant r u = true.
Proof.
  intros Hwf Hkind Hj u. unfold join_handler in Hj. apply bind_inv in Hj as (c1 & found & Hl & Hj).
  unfold look in Hl. apply memory_run in Hl as [Ht1 [= ->]]. simpl in Ht1.
  destruct (find_session (tables c) kind sid) as [s|]; [|done]. unfold handleSharingJoin in Hj. fold u in Hj.
  apply bind_inv in Hj as (c2 & inv & Hq & Hj).
  apply (reads_run _ _ _ _ _ _ (request_reads _ _ _ _ _ (fun _ => True))) in Hq as [Ht2 (b & Hb & _ & Hp & Hv)]; [|done].
  unfold completeSharingJoin, join_room in Hj. apply bind_inv in Hj as (c3 & name & Hn & Hj).
  apply (reads_run _ _ _ _ _ _ (usernameFor_reads (fun _ => True) _)) in Hn as [Ht3 _]; [|done].
  apply bind_inv in Hj as (c4 & ref & Hroom%call_run & Hj). apply bind_inv in Hroom as (c5 & [] & Hcons & Hent).
  unfold join_consume in Hcons. apply bind_inv in Hcons as (c6 & [] & Hch & Huse).
  apply (reads_run _ _ _ _ _ _ (checks_reads _ _ _ _ (fun _ => True))) in Hch as [Ht6 [Hk _]]; [|done].
  apply RecordUse_run in Huse as (t & Ht5 & Hused).
  assert (E6 : tables c6 = tables c) by congruence. assert (E3 : tables c3 = tables c) by congruence. rewrite E3 in Hk. rewrite Ht1 in Hp, Hv.
  rewrite E6 in Ht5, Hused. pose proof (proj1 Hv) as Hsid.
  apply enter_run in Hent as (Hs4 & r & Hr & Hm); [|by rewrite Ht5|by rewrite Ht5].
  apply bind_inv in Hj as (c7 & [] & Htell & Hret). apply quiet_joined in Htell as (Hreg & _ & _ & Hsh). unfold db_ret in Hret. injection Hret as <- _.
  exists s, b, inv. split; [done|]. split; [done|]. split; [done|]. split; [done|]. split; [by rewrite <- Hsid|].
  rewrite Hsh, Hs4, Hreg, <- Hsid, Ht5. simpl. split; [done|]. by exists r.
Qed.
End joining.

(** ** Witnesses *)
Definition demo_vnc_link : Invitation :=
  mkInvitation "vlink" "v1" KindVNC "t1" "alice" "" "" "" ModeViewer (Some 3) 0 (time_Unix 2000) zero_time zero_time (time_Unix 1000).
Definition demo_vnc_manager : SessionManager.Manager :=
  (SessionManager.Start SessionManager.NewManager "v1" (SessionManager.mkStartOptions "alice" "t1" "router" "" "") 0).1.
Definition demo_vnc : share_world :=
  mkShareWorld (tables (Create demo_vnc_link (HashToken "secret") demo_conn).1) demo_share_access (AuthStore.mkAuth ∅ ∅ ∅ ∅ 0 ∅ ∅ ∅ ∅ ∅)
    demo_terminal demo_vnc_manager RdpManager.NewManager demo_room_registry {["s1"; "v1"]}%string [] [].
Lemma demo_room_registry_wf : registry_wf demo_room_registry.
Proof.
  destruct demo_registry_wf as [Hv Hf]. split.
  - intros sid ref Hs. change (reg_rooms demo_registry !! sid = Some ref) in Hs. destruct (Hv _ _ Hs) as [r Hr].
    unfold demo_room_registry, with_room. destruct (reg_heap demo_registry !! 0%nat); simpl; [|by exists r].
    destruct (decide (ref = 0%nat)) as [->|]; [by rewrite lookup_insert_eq|rewrite lookup_insert_ne by done; by exists r].
  - intros ref Hle. change (1 <= ref)%nat in Hle. unfold demo_room_registry, with_room. destruct (reg_heap demo_registry !! 0%nat); simpl; [|by apply Hf].
    rewrite lookup_insert_ne by lia. by apply Hf.
Qed.
Definition demo_join : conn share_world * result http_err (string * Role) :=
  join_handler 100 (fun _ => ""%string) KindVNC (demo_caller "bob") "v1" (Some (mkJoinBody "" " secret "))
    (time_Unix 1600) (time_Unix 1600) (time_Unix 1600) (connect demo_vnc).
Lemma join_is_entitled_witness :
  demo_join.2 = Ok ("v1"%string, RoleViewer) /\ exists r, room_of (sw_registry (tables demo_join.1)) "v1" = Some r /\ IsParticipant r "bob" = true.
Proof.
  split; [vm_compute; reflexivity|].
  destruct (join_is_entitled 100 (fun _ => ""%string) KindVNC (demo_caller "bob") "v1" (Some (mkJoinBody "" " secret "))
    (time_Unix 1600) (time_Unix 1600) (time_Unix 1600) (connect demo_vnc) demo_join.1 ("v1"%string, RoleViewer) demo_room_registry_wf)
    as (s & b & inv & Hs & _ & _ & _ & _ & _ & Hr); [discriminate|vm_compute; reflexivity|].
  vm_compute in Hs. injection Hs as <-. exact Hr.
Defined.
Lemma attach_is_entitled_witness :
  AccessGroups.can_access (sw_access demo_share) (time_Unix 1600) "bob" "t1".
Proof.
  destruct (attach_is_entitled 100 "s1" "bob" true (time_Unix 1600) (connect demo_share) (connect demo_share)
    (mkMeta "s1" "t1" "alice" KindTerminal) (Some 0%nat)) as (_ & _ & Ha & _); [vm_compute; reflexivity|exact Ha].
Defined.

(** ** Joining while the invitation is revoked

    The recorded use and the entry into the room are separate steps. A
    revocation in between finds nobody to put out: the viewer enters the room
    with an invitation that is already revoked, and stays. *)
Lemma revocation_misses_joining :
  let t := time_Unix 1600 in
  let c1 := join_consume 100 demo_vnc_link "bob" t t (connect demo_vnc) in
  let c2 := revoke_handler 100 KindVNC (demo_caller "alice") "v1" "vlink" t t c1.1 in
  let c3 := join_enter demo_vnc_link "bob" "Bob" t c2.1 in
  is_ok c1.2 = true /\ c2.2 = Ok tt /\ is_ok c3.2 = true /\
  (exists row, session_invitations (sw_sharing (tables c3.1)) !! "vlink"%string = Some row /\ row_revoked_at row = Some 1600) /\
  ((fun r => IsParticipant r "bob") <$> room_of (sw_registry (tables c3.1)) "v1") = Some true.
Proof.
  split; [vm_compute; reflexivity|]. split; [vm_compute; reflexivity|]. split; [vm_compute; reflexivity|]. split; [|vm_compute; reflexivity].
  eexists. split; [vm_compute; reflexivity|reflexivity].
Qed.
