(* ===== verification/SharingSync.v ===== *)
(** The room of a session decides who may write; the bridge of the session
    enforces it for the attached clients (BridgeClients.v). The handlers of
    shared sessions change the first and tell the second, and clients attach to the
    bridge. This file shows that requests and attaching browsers handled one after
    another keep the two together, whatever database statements fail, while the
    bridge takes steps of its own; and where requests at the same time, a queued
    client or a client of the SSH gateway do not. *)
From S2P Require Import Prelude GoText Sqlite Http Secret AuthPolicy AccessDB AccessRequests SharingRoom Invitations SharingService SharingWorld SharingInvites SharingControl.
From S2P Require BridgeClients AuthStore SessionManager RdpManager.
Local Open Scope Z_scope.

(** ** What a bridge was told *)
(** Whose clients may write after these calls, when those of [t] could before;
    [None]: nobody's. *)
Definition told_writer (calls : list bridge_call) (sid : string) (t : option string) : option string :=
  foldl (fun t call => match call with
    | CallSetWriter s v => if decide (s = sid) then (if decide (v = ""%string) then None else Some v) else t
    | CallDetachUser _ _ => t end) t calls.
(** Nobody but [u]. *)
Definition only (t : option string) (u : string) : Prop := t = None \/ t = Some u.
Lemma told_app l1 l2 sid d : told_writer (l1 ++ l2) sid d = told_writer l2 sid (told_writer l1 sid d).
Proof. apply foldl_app. Qed.
Lemma told_detach l s sid d : told_writer (CallDetachUser s <$> l) sid d = d.
Proof. induction l as [|u l IH]; [done|]. exact IH. Qed.

(** What happens to the bridge of a session: a call of a handler, a client taken
    from the attach queue, or a step of its own. *)
Inductive bridge_event :=
| Told (call : bridge_call)
| Attached (sid : string) (kind : BridgeClients.conn_kind) (mode : BridgeClients.AttachMode) (u : string) (writeFails : bool)
| Stepped (sid : string) (op : BridgeClients.b_op).
Definition bridge_event_exec (sid : string) (b : BridgeClients.bridge) (ev : bridge_event) : BridgeClients.bridge :=
  match ev with
  | Told (CallSetWriter s u) => if decide (s = sid) then BridgeClients.SetWriter u b else b
  | Told (CallDetachUser s u) => if decide (s = sid) then BridgeClients.DetachUser u b else b
  | Attached s kind mode u wf => if decide (s = sid) then BridgeClients.doAttach kind mode u wf b else b
  | Stepped s op => if decide (s = sid) then BridgeClients.b_exec b op else b
  end.
Definition bridge_after (sid : string) (log : list bridge_event) (b : BridgeClients.bridge) : BridgeClients.bridge := foldl (bridge_event_exec sid) b log.
Definition event_writer (sid : string) (t : option string) (ev : bridge_event) : option string :=
  match ev with
  | Told call => told_writer [call] sid t
  | Attached s _ BridgeClients.AttachModeWriter u _ => if decide (s = sid) then Some u else t
  | _ => t
  end.
Definition log_writer (log : list bridge_event) (sid : string) (t : option string) : option string := foldl (event_writer sid) t log.
Lemma log_told log calls sid t : log_writer (log ++ (Told <$> calls)) sid t = told_writer calls sid (log_writer log sid t).
Proof. unfold log_writer. rewrite foldl_app. generalize (foldl (event_writer sid) t log). induction calls as [|call calls IH]; intros t1; [done|]. apply IH. Qed.
Definition own_event (ev : bridge_event) : Prop := match ev with Stepped _ op => BridgeClients.gives_token op = None | _ => True end.
Definition may_write (t : option string) (b : BridgeClients.bridge) : Prop :=
  match t with Some u => BridgeClients.token_at u b | None => forall id c, ~ BridgeClients.writer b id c end.
Lemma only_may_write t u b : only t u -> may_write t b -> BridgeClients.token_at u b.
Proof. intros [->| ->]; [|done]. intros Hn id c Hw. by destruct (Hn id c). Qed.
Lemma may_write_mono t b b' : (forall u, BridgeClients.token_at u b -> BridgeClients.token_at u b') ->
  may_write t b -> may_write t b'.
Proof.
  intros Hk. destruct t as [u|]; simpl; [apply Hk|]. intros Hn.
  assert (Hany : forall u, BridgeClients.token_at u b') by (intros u; apply Hk; intros id c Hw; by destruct (Hn id c)).
  intros id c Hw. pose proof (Hany ""%string id c Hw) as H1. pose proof (Hany "x"%string id c Hw) as H2. congruence.
Qed.
Lemma event_may_write sid ev t b : own_event ev -> BridgeClients.bridge_wf b -> may_write t b ->
  BridgeClients.bridge_wf (bridge_event_exec sid b ev) /\ may_write (event_writer sid t ev) (bridge_event_exec sid b ev).
Proof.
  intros Ho Hb Ht. destruct ev as [[s u|s u]|s kind mode u wf|s op]; simpl.
  - case_decide; [|by split]. destruct (BridgeClients.SetWriter_ok u b Hb) as [Hb' Hw]. split; [done|]. case_decide as Hu; [|exact Hw].
    subst u. intros id c (Hin & Hl & Hc). simpl in Hl, Hin. rewrite BridgeClients.lookup_on_entries, fmap_Some in Hl. destruct Hl as (c0 & _ & ->).
    rewrite decide_True in Hc by done. done.
  - case_decide; [|by split]. destruct (BridgeClients.shrink _ _ (BridgeClients.DetachUser_no_more u b)) as [Hb' Hk]. split; [by apply Hb'|]. by apply (may_write_mono t b).
  - destruct (decide (s = sid)); [|by destruct mode]. destruct (BridgeClients.doAttach_ok kind mode u wf b Hb) as [Hb' Hk]. split; [done|].
    destruct mode; simpl.
    + intros id c Hw. pose proof (BridgeClients.attach_sole kind u wf b id c Hb Hw) as Hu. exact Hu.
    + apply (may_write_mono t b); [|done]. intros v Hv. apply Hk; [done|by left].
  - case_decide; [|by split]. destruct (BridgeClients.b_exec_ok b op Hb) as [Hb' Hk]. split; [done|]. apply (may_write_mono t b); [|done].
    intros v Hv. apply Hk; [done|by left].
Qed.
Lemma log_may_write sid log t b : Forall own_event log -> BridgeClients.bridge_wf b -> may_write t b ->
  BridgeClients.bridge_wf (bridge_after sid log b) /\ may_write (log_writer log sid t) (bridge_after sid log b).
Proof.
  intros Hlog. induction Hlog as [|ev log Hev _ IH] in t, b |- *; intros Hb Ht; [by split|]. simpl.
  destruct (event_may_write sid ev t b Hev Hb Ht). by apply IH.
Qed.

(** ** Rooms and calls in step

    [x] is a session whose bridge was not told yet; [T sid u]: whose clients
    could write before the calls, when those of [u] could at first. *)
Section together.
Context (T : string -> string -> option string).
Record synced (x : option string) (reg : Registry) (live : string -> bool) (calls : list bridge_call) : Prop := {
  sy_rooms : forall sid ref, reg_rooms reg !! sid = Some ref -> exists r, reg_heap reg !! ref = Some r /\ sessionID r = sid /\ room_wf r;
  sy_fresh : forall ref, (reg_next reg <= ref)%nat -> reg_heap reg !! ref = None;
  sy_writer : forall sid ref r, reg_rooms reg !! sid = Some ref -> reg_heap reg !! ref = Some r -> live sid = true -> Some sid <> x ->
    only (told_writer calls sid (T sid (ownerID r))) (writerID r);
  sy_silent : forall sid d, reg_rooms reg !! sid = None -> live sid = true -> only (told_writer calls sid (T sid d)) d
}.
Lemma synced_ensure x reg live calls sid tid o on now reg' ref :
  synced x reg live calls -> EnsureRoom reg sid tid o on now = (reg', ref) -> synced x reg' live calls /\ reg_rooms reg' !! sid = Some ref.
Proof.
  intros [Hr Hf Hw Hs]. unfold EnsureRoom. destruct (reg_rooms reg !! sid) as [ref0|] eqn:Hsid; intros [= <- <-]; [by split|].
  assert (Hne : forall s ref1, reg_rooms reg !! s = Some ref1 -> ref1 <> reg_next reg).
  { intros s ref1 Hs1 ->. destruct (Hr _ _ Hs1) as (r & Hh & _). by rewrite Hf in Hh. }
  split; [|by apply lookup_insert_eq]. split; simpl.
  - intros s ref1. rewrite lookup_insert_Some. intros [[<- <-]|[Hn H1]].
    + eexists. rewrite lookup_insert_eq. split; [done|]. split; [done|apply new_room_wf].
    + rewrite lookup_insert_ne by (symmetry; eauto). eauto.
  - intros ref1 Hle. rewrite lookup_insert_ne by lia. apply Hf. lia.
  - intros s ref1 r. rewrite lookup_insert_Some. intros [[<- <-]|[Hn H1]].
    + rewrite lookup_insert_eq. intros [= <-] Hl _. by apply Hs.
    + rewrite lookup_insert_ne by (symmetry; eauto). eauto.
  - intros s d. rewrite lookup_insert_None. intros [H1 _] Hl. by apply Hs.
Qed.
(** A room method that keeps session, owner and invariant. *)
Definition keeps_room (r r' : Room) : Prop := sessionID r' = sessionID r /\ ownerID r' = ownerID r /\ (room_wf r -> room_wf r').
Lemma synced_update x x' reg live calls ref r r' :
  synced x reg live calls -> reg_heap reg !! ref = Some r -> keeps_room r r' ->
  (writerID r' = writerID r \/ x' = Some (sessionID r)) -> (x = None \/ x = x') ->
  synced x' (mkRegistry (reg_rooms reg) (<[ref := r']> (reg_heap reg)) (reg_next reg)) live calls.
Proof.
  intros [Hr Hf Hw Hs] Hh (Hsid & Ho & Hwf) Hx Hxx. split; simpl.
  - intros sid ref1 H1. destruct (Hr _ _ H1) as (r1 & Hh1 & Hs1 & Hwf1). destruct (decide (ref1 = ref)) as [->|Hne].
    + exists r'. rewrite lookup_insert_eq. rewrite Hh in Hh1. injection Hh1 as <-. split; [done|]. split; [congruence|auto].
    + exists r1. by rewrite lookup_insert_ne.
  - intros ref1 Hle. destruct (decide (ref1 = ref)) as [->|Hne]; [by rewrite Hf in Hh|]. rewrite lookup_insert_ne by done. by apply Hf.
  - intros sid ref1 r1 H1 Hh1 Hl Hn. assert (Hnx : Some sid <> x) by (destruct Hxx as [->| ->]; done).
    destruct (decide (ref1 = ref)) as [->|Hne].
    + rewrite lookup_insert_eq in Hh1. injection Hh1 as <-. destruct (Hr _ _ H1) as (r2 & Hh2 & Hs2 & _). rewrite Hh in Hh2. injection Hh2 as <-.
      destruct Hx as [Hx|Hx]; [|congruence]. rewrite Ho, Hx. by eapply Hw.
    + rewrite lookup_insert_ne in Hh1 by done. by eapply Hw.
  - exact Hs.
Qed.
Lemma synced_tell reg live calls sid ref r u detach :
  synced (Some sid) reg live calls -> reg_rooms reg !! sid = Some ref -> reg_heap reg !! ref = Some r -> writerID r = u ->
  synced None reg live (if live sid then calls ++ (CallDetachUser sid <$> detach) ++ [CallSetWriter sid u] else calls).
Proof.
  intros [Hr Hf Hw Hs] Hsid Hh Hu.
  assert (Htold : forall s d, told_writer (calls ++ (CallDetachUser sid <$> detach) ++ [CallSetWriter sid u]) s d =
    if decide (sid = s) then (if decide (u = ""%string) then None else Some u) else told_writer calls s d).
  { intros s d. rewrite !told_app, told_detach. done. }
  destruct (live sid) eqn:Hl; split; try done.
  - intros s ref1 r1 H1 Hh1 Hl1 _. rewrite Htold. destruct (decide (sid = s)) as [Hd|Hd]; [subst s|by eapply Hw; eauto; congruence].
    assert (r1 = r) as -> by congruence. unfold only. rewrite Hu. case_decide; auto.
  - intros s d H1 Hl1. rewrite Htold. destruct (decide (sid = s)); [congruence|]. by apply Hs.
  - intros s ref1 r1 H1 Hh1 Hl1 _. eapply Hw; eauto. congruence.
Qed.
Lemma synced_enter x reg live calls sid tid o on u n i now reg' r :
  synced x reg live calls -> enter_room reg sid tid o on u n i now = (reg', r) -> synced x reg' live calls.
Proof.
  intros Hsy. unfold enter_room. destruct (EnsureRoom reg sid tid o on now) as [reg1 ref] eqn:He.
  destruct (synced_ensure _ _ _ _ _ _ _ _ _ _ _ Hsy He) as [Hsy1 _].
  destruct (reg_heap reg1 !! ref) as [room|] eqn:Hh; [|by intros [= <- <-]]. destruct (IsKicked room u); [by intros [= <- <-]|].
  unfold with_room. rewrite Hh. destruct (AddViewer room u n i now) as [room' res] eqn:Ha. intros Hr.
  assert (reg' = mkRegistry (reg_rooms reg1) (<[ref := room']> (reg_heap reg1)) (reg_next reg1)) as -> by (destruct res; congruence).
  pose proof (AddViewer_wf room u n i now) as Hwf. rewrite Ha in Hwf. simpl in Hwf.
  assert (Hk : keeps_room room room' /\ writerID room' = writerID room).
  { unfold AddViewer in Ha. repeat case_match; simplify_eq; by (split; [split_and!|]). }
  destruct Hk as [Hk Hw]. eapply synced_update; [exact Hsy1|exact Hh|exact Hk|by left|by right].
Qed.

(** ** The handlers *)
Definition in_sync (x : option string) (w : share_world) : Prop := synced x (sw_registry w) (br_Get w) (sw_calls w).
Definition at_room (sid : string) (ref : option nat) (w : share_world) : Prop :=
  match ref with None => True | Some n => reg_rooms (sw_registry w) !! sid = Some n end.
Definition in_room (x : option string) (sid : string) (ref : option nat) (w : share_world) : Prop := in_sync x w /\ at_room sid ref w.

(** An operation that touches neither rooms nor bridges. *)
Definition still {A E} (m : DB share_world E A) : Prop := forall c,
  sw_registry (tables (m c).1) = sw_registry (tables c) /\ sw_calls (tables (m c).1) = sw_calls (tables c) /\ sw_bridges (tables (m c).1) = sw_bridges (tables c).
Definition about_rooms (P : share_world -> Prop) : Prop := forall w w',
  sw_registry w' = sw_registry w -> sw_calls w' = sw_calls w -> sw_bridges w' = sw_bridges w -> P w -> P w'.
Lemma still_preserves {A E} P (m : DB share_world E A) : about_rooms P -> still m -> preserves P m.
Proof. intros HP Hm c Hc. destruct (Hm c) as (? & ? & ?). by eapply HP. Qed.
Lemma in_sync_rooms x : about_rooms (in_sync x).
Proof. intros w w' Hr Hc Hb Hw. unfold in_sync, br_Get in *. by rewrite Hr, Hc, Hb. Qed.
Lemma in_room_rooms x sid ref : about_rooms (in_room x sid ref).
Proof. intros w w' Hr Hc Hb [Hw Ha]. split; [by eapply in_sync_rooms|]. unfold at_room in *. by rewrite Hr. Qed.
#[local] Hint Resolve in_sync_rooms in_room_rooms : share.

Section still.
Context {E : Type}.
Lemma still_ret {A} (a : A) : still (E:=E) (db_ret a). Proof. done. Qed.
Lemma still_throw {A} (e : E) : still (db_throw (A:=A) e). Proof. done. Qed.
Lemma still_of {A} (r : result E A) : still (db_of r). Proof. done. Qed.
Lemma still_look {A} (f : share_world -> A) : still (E:=E) (look f). Proof. done. Qed.
Lemma still_bind {A B} (m : DB share_world E A) (k : A -> DB share_world E B) : still m -> (forall a, still (k a)) -> still (db_bind m k).
Proof.
  intros Hm Hk c. specialize (Hm c). unfold db_bind. destruct (m c) as [c1 [a|e]]; [|done]. simpl in Hm.
  destruct (Hk a c1) as (? & ? & ?), Hm as (? & ? & ?). split_and!; congruence.
Qed.
Lemma still_sharing {A} (m : DB sharing_tables E A) : still (on_sharing m).
Proof. intros c. unfold on_sharing, db_zoom. by destruct (m _). Qed.
Lemma still_access {A} (m : DB access_tables E A) : still (on_access m).
Proof. intros c. unfold on_access, db_zoom. by destruct (m _). Qed.
Lemma still_auth {A} (m : DB AuthStore.auth_tables E A) : still (on_auth m).
Proof. intros c. unfold on_auth, db_zoom. by destruct (m _). Qed.
Lemma still_modify (f : share_world -> share_world) :
  (forall w, sw_registry (f w) = sw_registry w /\ sw_calls (f w) = sw_calls w /\ sw_bridges (f w) = sw_bridges w) -> still (E:=E) (modify f).
Proof. intros Hf c. apply Hf. Qed.
End still.
Lemma still_try {E E' A} (m : DB share_world E A) : still m -> still (db_try (E':=E') m).
Proof. intros Hm c. specialize (Hm c). unfold db_try. by destruct (m c). Qed.
Lemma still_call {E E' A} (m : DB share_world E A) (h : E -> E') : still m -> still (call m h).
Proof. intros Hm. unfold call. apply still_bind; [by apply still_try|]. by intros []. Qed.
(** Decides [still] by the shape of the operation. *)
Ltac still :=
  repeat first
    [ progress (intros; cbv zeta)
    | simple apply still_ret | simple apply still_throw | simple apply still_of | simple apply still_look
    | simple apply still_sharing | simple apply still_access | simple apply still_auth
    | simple apply still_call | simple apply still_try
    | simple apply still_bind
    | (simple apply still_modify; intros ?; by repeat case_match)
    | progress case_decide | case_match
    | solve [eauto 2 with share] ].

Section parts.
Context `{Crypto} `{UnicodeTables} `{MapRange} `{SetScan} (dflt : Z) (getenv : string -> string).
Lemma still_username {E} u : still (E:=E) (usernameFor u).
Proof. unfold usernameFor. still. Qed.
Lemma still_event {E} s ty u n x l : still (E:=E) (publishSharingEvent s ty u n x l).
Proof. unfold publishSharingEvent. still. Qed.
Lemma still_event_for {E} sid o ty u n x l : still (E:=E) (publishSharingEventForSession sid o ty u n x l).
Proof. unfold publishSharingEventForSession. still. Qed.
#[local] Hint Resolve still_username still_event still_event_for : share.
Lemma still_invitee {E} u ty inv : still (E:=E) (publishInvitationEventToInvitee u ty inv).
Proof. unfold publishInvitationEventToInvitee. still. Qed.
#[local] Hint Resolve still_invitee : share.
Lemma still_owned kind e sid now : still (load_owned dflt kind e sid now).
Proof. unfold load_owned, can_reach. still. Qed.
Lemma still_owned_meta kind e sid now : still (loadOwnedSharingMeta dflt kind e sid now).
Proof. unfold loadOwnedSharingMeta. repeat case_decide; apply still_owned. Qed.
Lemma still_target {E} (h : _ -> E) tid now : still (invitableUserIDsForTarget dflt h tid now).
Proof. unfold invitableUserIDsForTarget. still. Qed.
Lemma still_with_tag {E} tag uids : still (E:=E) (with_tag tag uids).
Proof. induction uids; simpl; still. Qed.
#[local] Hint Resolve still_owned still_owned_meta still_target still_with_tag : share.
Lemma still_tag tid tag now : still (invitableUserIDsForTag dflt tid tag now).
Proof. unfold invitableUserIDsForTag, tagsGrantingTargetAccess. still. Qed.
Lemma still_members gs seen now : still (group_members dflt gs seen now).
Proof. revert seen. induction gs; intros seen; simpl; still. Qed.
Lemma still_can_reach uids tid now : still (who_can_reach dflt uids tid now).
Proof. induction uids; simpl; still. Qed.
#[local] Hint Resolve still_tag still_members still_can_reach : share.
Lemma still_group o tid g now : still (invitableUserIDsForGroup dflt o tid g now).
Proof. unfold invitableUserIDsForGroup, ownerBelongsToGroup. still. Qed.
Lemma still_record kind s o i g tag mode ttl mu d : still (create_record kind s o i g tag mode ttl mu d).
Proof. unfold create_record. still. Qed.
#[local] Hint Resolve still_group still_record : share.
Lemma still_each kind s o g tag mode ttl uids draws i : still (create_each (create_record kind s) o g tag mode ttl uids draws i).
Proof. revert i. induction uids as [|u uids IH]; intros i; simpl; [still|]. case_decide; [apply IH|]. still. Qed.
#[local] Hint Resolve still_each : share.

(** Operations on rooms. *)
Lemma ensure_sync {E} s now :
  hoare (E:=E) (in_sync None) (ensureRoomFor s now) (fun w r => match r with Ok ref => in_room None (mt_SessionID s) ref w | Err _ => in_sync None w end).
Proof.
  unfold ensureRoomFor. eapply (hoare_bind _ _ _ (fun w _ => in_sync None w)); [apply still_preserves; [apply in_sync_rooms|apply still_username]| |done].
  intros name c Hc. unfold in_memory. destruct (EnsureRoom _ _ _ _ _ _) as [reg ref] eqn:He.
  destruct (synced_ensure _ _ _ _ _ _ _ _ _ _ _ Hc He) as [Hs Hr]. by split.
Qed.
Lemma ensure_keeps {E} s now : preserves (E:=E) (in_sync None) (ensureRoomFor s now).
Proof. eapply hoare_conseq; [apply ensure_sync|done|]. by intros w [ref|e]; [intros [? _]|]. Qed.
Lemma ensure_meta_keeps {E} s now : preserves (E:=E) (in_sync None) (ensureRoomForMeta s now).
Proof.
  unfold ensureRoomForMeta. apply preserves_bind; [apply preserves_look|]. intros [s'|]; [apply ensure_keeps|apply preserves_ret].
Qed.
(** A room method; [told a]: its answer says that the writer may have changed. *)
Lemma room_sync {E A} (d : A) (f : Room -> Room * A) (told : A -> bool) sid ref : told d = false ->
  (forall r, keeps_room r (f r).1 /\ (told (f r).2 = false -> writerID (f r).1 = writerID r)) ->
  hoare (E:=E) (in_room None sid ref) (on_room ref d f) (fun w res => match res with
    | Ok a => in_room (if told a then Some sid else None) sid ref w /\ (told a = true -> exists r, a = (f r).2 /\ room_at w ref = Some (f r).1)
    | Err _ => in_room None sid ref w end).
Proof.
  intros Hd Hf c [Hs Ha]. unfold on_room, in_memory. destruct ref as [ref|]; simpl in *; [|by rewrite Hd].
  unfold with_room. destruct (reg_heap (sw_registry (tables c)) !! ref) as [r|] eqn:Hh; simpl; [|by rewrite Hd].
  destruct (Hf r) as [Hk Hw]. destruct (f r) as [r' a] eqn:Er. simpl in *.
  assert (Hsid : sessionID r = sid) by (destruct (sy_rooms _ _ _ _ Hs _ _ Ha) as (r1 & Hh1 & <- & _); congruence).
  split.
  - split; [|exact Ha]. unfold in_sync; simpl. eapply synced_update; [exact Hs|exact Hh|exact Hk| |by left].
    destruct (told a) eqn:Ht; [right; by rewrite Hsid|left; by apply Hw].
  - intros _. exists r. rewrite Er. split; [done|]. unfold room_at. simpl. by rewrite lookup_insert_eq.
Qed.
(** A method that leaves the writer alone needs no call. *)
Lemma room_keeps {E A} x ref (d : A) (f : Room -> Room * A) :
  (forall r, keeps_room r (f r).1 /\ writerID (f r).1 = writerID r) -> preserves (E:=E) (in_sync x) (on_room ref d f).
Proof.
  intros Hf. apply preserves_in_memory. intros w Hw. destruct ref as [ref|]; [|done]. unfold with_room.
  destruct (reg_heap (sw_registry w) !! ref) as [r|] eqn:Hh; [|done]. destruct (Hf r) as [Hk Hwr]. destruct (f r) as [r' a]. simpl in *.
  eapply synced_update; [exact Hw|exact Hh|exact Hk|by left|by right].
Qed.
Lemma lift_keeps ref u : preserves (in_sync None) (lift_kick ref u).
Proof.
  unfold lift_kick. case_decide; [apply preserves_ret|]. apply room_keeps. intros r. unfold keeps_room.
  split; [split_and!|]; try (unfold Unkick; by case_decide). apply Unkick_wf.
Qed.
(** Telling the bridge brings them together again. *)
Lemma tell_sync {E} detach sid ref x : x = None \/ x = Some sid -> is_Some ref ->
  hoare (E:=E) (in_room x sid ref) (modify (sync_bridge detach sid ref)) (fun w _ => in_room None sid ref w).
Proof.
  intros Hx [n ->] c [Hs Ha]. unfold modify, in_memory. simpl. unfold sync_bridge. simpl in Ha.
  destruct (sy_rooms _ _ _ _ Hs _ _ Ha) as (r & Hh & Hsid & _).
  assert (Hs' : synced (Some sid) (sw_registry (tables c)) (br_Get (tables c)) (sw_calls (tables c))).
  { destruct Hs as [Hr Hf Hw Hq], Hx as [->| ->]; split; try done. intros s ref1 r1 H1' H2' H3' _. by eapply Hw. }
  pose proof (synced_tell _ _ _ _ _ _ _ detach Hs' Ha Hh eq_refl) as Ht. unfold room_at. simpl. rewrite Hh. unfold in_room, in_sync.
  destruct (br_Get (tables c) sid) eqn:Hl; [|by split]. simpl. split; [exact Ht|exact Ha].
Qed.

(** Splits an operation and discharges what touches no room. *)
Ltac leaf := solve [apply still_preserves; [solve [eauto with share]|still]].
Ltac sync :=
  repeat first
    [ progress intros
    | leaf
    | simple apply ensure_keeps | simple apply ensure_meta_keeps | simple apply lift_keeps
    | simple apply preserves_bind
    | progress case_decide | case_match ].
Lemma create_keeps kind e sid body now draws : preserves (in_sync None) (create_handler dflt getenv kind e sid body now draws).
Proof.
  unfold create_handler. repeat case_decide;
    [unfold handleVNCCreateInvitation, handleSharingCreateInvitation, loadOwnedVNCSession
    |unfold handleRDPCreateInvitation, handleSharingCreateInvitation, loadOwnedRDPSession
    |unfold handleCreateInvitation, create_invitation, loadOwnedTerminalSession];
    unfold handleSharingCreateTagInvitations, handleSharingCreateGroupInvitations, handleCreateTagInvitations, handleCreateGroupInvitations,
      createVNCInvitationRecord, createRDPInvitationRecord, createInvitationRecord, tell_invitee, can_reach; sync.
Qed.
Lemma disconnect_keeps sid ref s u now : mt_SessionID s = sid ->
  preserves (E:=http_err) (in_room None sid ref) (disconnectSessionUser s ref u now).
Proof.
  intros <-. unfold disconnectSessionUser. destruct ref as [ref|]; [|apply preserves_ret]. case_decide; [apply preserves_ret|].
  eapply hoare_bind; [apply (room_sync _ _ (fun r => match r with Ok _ => true | Err _ => false end))|intros a|]; [done| | |done].
  - intros r. unfold keeps_room. pose proof (RemoveParticipant_wf r u now) as Hwf. revert Hwf. unfold RemoveParticipant.
    repeat case_match; simpl; intros Hwf; split; try done; by split_and!.
  - eapply hoare_conseq; [apply (tell_sync _ _ _ (if match a with Ok _ => true | Err _ => false end then Some (mt_SessionID s) else None))|by intros w []|done]; [|by exists ref].
    destruct a; auto.
Qed.
Lemma disconnect_all_keeps sid ref pub s uids now : mt_SessionID s = sid -> (forall u, still (pub u)) ->
  preserves (in_room None sid ref) (disconnect_each pub s ref uids now).
Proof.
  intros Hs Hpub. induction uids as [|u uids IH]; simpl; [apply preserves_ret|]. apply preserves_bind; [by apply disconnect_keeps|]. intros ?.
  apply preserves_bind; [|done]. apply still_preserves; [apply in_room_rooms|apply Hpub].
Qed.
Lemma look_room {E} sid : hoare (E:=E) (in_sync None) (look (fun w => reg_Get (sw_registry w) sid))
  (fun w r => match r with Ok ref => in_room None sid ref w | Err _ => in_sync None w end).
Proof. intros c Hc. simpl. split; [done|]. unfold at_room, reg_Get. by destruct (reg_rooms (sw_registry (tables c)) !! sid) eqn:E1. Qed.
Lemma revoke_tail_keeps s invID now2 pub (fin : ShareM unit) : (forall u, still (pub u)) -> still fin ->
  preserves (in_sync None) (let* room := look (fun w => reg_Get (sw_registry w) (mt_SessionID s)) in
    let* uids := look (fun w => consumers_in w room invID) in
    let* _ := disconnect_each pub s room uids now2 in fin).
Proof.
  intros Hp Hf. eapply hoare_bind; [apply look_room| |done]. intros room.
  eapply hoare_conseq with (P' := in_room None (mt_SessionID s) room) (Q' := fun w _ => in_room None (mt_SessionID s) room w); [|done|by intros w r []].
  apply preserves_bind; [apply preserves_look|]. intros uids. apply preserves_bind; [by apply disconnect_all_keeps|]. intros ?.
  apply still_preserves; [apply in_room_rooms|done].
Qed.
Lemma still_tell inv : still (tell_revoked inv).
Proof. unfold tell_revoked. still. Qed.
#[local] Hint Resolve still_tell : share.
Lemma revoke_keeps kind e sid invID now now2 : preserves (in_sync None) (revoke_handler dflt kind e sid invID now now2).
Proof.
  unfold revoke_handler. case_decide; [unfold handleRevokeInvitation, loadOwnedTerminalSession|unfold handleKindRevokeInvitation].
  all: apply preserves_bind; [leaf|]; intros s; apply preserves_bind; [unfold store_get; leaf|]; intros p; case_decide; [leaf|].
  all: apply preserves_bind; [leaf|]; intros ?; apply revoke_tail_keeps; [intros u|]; still.
Qed.
Lemma join_keeps kind e sid body now now2 now3 : preserves (in_sync None) (join_handler dflt getenv kind e sid body now now2 now3).
Proof.
  unfold join_handler, handleSharingJoin, join_request, validateJoinInvitation, lookupJoinInvitation, can_reach.
  apply preserves_bind; [leaf|]. intros [s|]; [|leaf]. apply preserves_bind; [leaf|]. intros inv.
  unfold completeSharingJoin, joinUsername. apply preserves_bind; [leaf|]. intros name. apply preserves_bind; [|intros ?; unfold tell_joined; leaf].
  apply preserves_call. unfold join_room, join_consume, join_checks, access_of. apply preserves_bind; [leaf|]. intros ?.
  unfold join_enter. apply preserves_bind; [|intros ?; leaf]. apply preserves_in_memory. intros w Hw.
  destruct (enter_room _ _ _ _ _ _ _ _ _) as [reg r] eqn:He. by eapply synced_enter.
Qed.

(** A participant's request begins with the room of its session. *)
Lemma participating kind e sid :
  hoare (in_sync None) (load_participating kind e sid) (fun w r => match r with Ok (s, ref, _) => in_room None (mt_SessionID s) ref w | Err _ => in_sync None w end).
Proof.
  unfold load_participating. case_decide; [by intros c Hc|]. intros c Hc. unfold look, in_memory, db_bind. simpl.
  destruct (find_session _ kind sid) as [s|]; [|done]. match goal with |- context [if ?b then db_throw _ else _] => destruct b end; [done|].
  split; [done|]. unfold at_room, reg_Get. simpl. by destruct (reg_rooms (sw_registry (tables c)) !! mt_SessionID s) eqn:E1.
Qed.
Lemma from_room {A} x sid ref (m : ShareM A) : preserves (in_sync x) m -> hoare (in_room x sid ref) m (fun w _ => in_sync x w).
Proof. intros Hm. eapply hoare_conseq; [exact Hm|by intros w []|done]. Qed.
Lemma list_keeps e sid now : preserves (in_sync None) (handleListParticipants e sid now).
Proof.
  unfold handleListParticipants. eapply hoare_bind; [apply participating| |done]. intros [[s ref] u].
  apply from_room. unfold write_list, writer_name. sync.
Qed.
Lemma list_kind_keeps kind e sid now : preserves (in_sync None) (handleKindListParticipants kind e sid now).
Proof.
  unfold handleKindListParticipants. eapply hoare_bind; [apply participating| |done]. intros [[s ref] u].
  apply from_room. unfold writeListParticipants, write_list, writer_name. sync.
Qed.
Lemma target_sync s target :
  hoare (in_sync None) (kick_target s target) (fun w r => match r with Ok ref => in_room None (mt_SessionID s) ref w /\ is_Some ref | Err _ => in_sync None w end).
Proof.
  unfold kick_target. case_decide; [by intros c Hc|]. case_decide; [by intros c Hc|].
  eapply hoare_bind; [apply look_room| |done]. intros [ref|] c Hc; [split; [done|by exists ref]|by destruct Hc].
Qed.
Lemma remove_told r u now : let a := RemoveParticipant r u now in
  keeps_room r a.1 /\ (is_ok a.2 = false -> writerID a.1 = writerID r).
Proof.
  unfold keeps_room. pose proof (RemoveParticipant_wf r u now) as Hwf. revert Hwf. unfold RemoveParticipant.
  repeat case_match; simpl; intros Hwf; split; try done; by split_and!.
Qed.
(** Between the room and the bridge an event may be published. *)
Lemma told_then_sync {A} detach sid ref x (f : share_world -> share_world) (k : unit -> ShareM A) : x = None \/ x = Some sid ->
  (forall w, sw_registry (f w) = sw_registry w /\ sw_calls (f w) = sw_calls w /\ sw_bridges (f w) = sw_bridges w) ->
  (forall a, preserves (in_sync None) (k a)) ->
  hoare (fun w => in_room x sid ref w /\ is_Some ref) (let* _ := modify f in let* a := modify (sync_bridge detach sid ref) in k a) (fun w _ => in_sync None w).
Proof.
  intros Hx Hf Hk c [Hc Hsome]. unfold db_bind at 1, modify at 1, in_memory. cbn [fst snd].
  set (c1 := set_tables c (f (tables c))).
  assert (Hc1 : in_room x sid ref (tables c1)) by (destruct (Hf (tables c)) as (? & ? & ?); by eapply in_room_rooms).
  change (in_sync None (tables ((let* a := modify (sync_bridge detach sid ref) in k a) c1).1)).
  refine (hoare_bind (in_room x sid ref) _ _ (fun w _ => in_room None sid ref w) (fun w _ => in_sync None w) (tell_sync detach sid ref x Hx Hsome) _ _ c1 Hc1).
  - intros a. eapply hoare_conseq; [apply Hk|by intros w []|done].
  - by intros w e' [].
Qed.
Lemma kick_keeps e sid target now now2 : preserves (in_sync None) (handleKickParticipant dflt e sid target now now2).
Proof.
  unfold handleKickParticipant, loadOwnedTerminalSession. apply preserves_bind; [leaf|]. intros s.
  eapply hoare_bind; [apply target_sync| |done]. intros ref.
  eapply (hoare_bind _ _ _ (fun w r => match r with Ok a => in_room (if is_ok a then Some (mt_SessionID s) else None) (mt_SessionID s) ref w /\ is_Some ref | Err _ => in_sync None w end)).
  { intros c [Hc Hsome]. pose proof (room_sync (E:=http_err) (Err ErrRoomNotFound) (fun r => RemoveParticipant r target now2) is_ok (mt_SessionID s) ref eq_refl
      (fun r => remove_told r target now2) c Hc) as X. destruct ((on_room ref _ _ c).2); [by split; [apply X|]|apply X]. }
  2: done.
  intros [[]|x]; [|by intros c [[Hc _] _]]. cbn [is_ok].
  apply (told_then_sync [target] (mt_SessionID s) ref); [by right|done|]. intros ?. leaf.
Qed.
Lemma service_kick_sync sid ref u now :
  hoare (in_room None sid ref) (kick_by_service ref sid u now) (fun w _ => in_sync None w).
Proof.
  intros c [Hs Ha]. unfold kick_by_service, in_memory, KickParticipant. destruct ref as [ref|]; simpl in *; [|by destruct (tables c)].
  destruct (sy_rooms _ _ _ _ Hs _ _ Ha) as (r & Hh & Hsid & _). unfold with_room. rewrite Hh. pose proof (remove_told r u now) as [Hk Hw].
  destruct (RemoveParticipant r u now) as [r' [[]|x]] eqn:Er; simpl in *.
  - rewrite lookup_insert_eq. unfold in_sync; simpl.
    assert (Hs' : synced (Some sid) (mkRegistry (reg_rooms (sw_registry (tables c))) (<[ref := r']> (reg_heap (sw_registry (tables c)))) (reg_next (sw_registry (tables c))))
      (br_Get (tables c)) (sw_calls (tables c))).
    { eapply synced_update; [exact Hs|exact Hh|exact Hk|right; by rewrite Hsid|by left]. }
    pose proof (synced_tell _ _ _ _ ref r' (writerID r') [u] Hs' Ha ltac:(simpl; by rewrite lookup_insert_eq) eq_refl) as Ht. simpl in Ht.
    destruct (br_Get (tables c) sid); [exact Ht|by rewrite app_nil_r].
  - unfold in_sync; simpl. eapply synced_update; [exact Hs|exact Hh|exact Hk|left; by apply Hw|by left].
Qed.
Lemma kick_kind_keeps kind e sid target now now2 : preserves (in_sync None) (handleKindKickParticipant dflt kind e sid target now now2).
Proof.
  unfold handleKindKickParticipant. apply preserves_bind; [leaf|]. intros s. eapply hoare_bind; [apply target_sync| |done]. intros ref.
  eapply hoare_bind; [eapply hoare_conseq; [apply (service_kick_sync (mt_SessionID s) ref target now2)|by intros w []|by intros w r Hw; exact Hw]| |done].
  intros r. sync.
Qed.
Lemma request_room r id u n now : keeps_room r (RequestWrite r id u n now).1 /\ writerID (RequestWrite r id u n now).1 = writerID r.
Proof.
  unfold keeps_room. pose proof (RequestWrite_wf r id u n now) as Hwf. revert Hwf. unfold RequestWrite.
  repeat case_match; simpl; intros Hwf; split; try done; by split_and!.
Qed.
Lemma deny_room r id u now : keeps_room r (DenyWrite r id u now).1 /\ writerID (DenyWrite r id u now).1 = writerID r.
Proof.
  unfold keeps_room. pose proof (DenyWrite_wf r id u now) as Hwf. revert Hwf. unfold DenyWrite.
  repeat case_match; simpl; intros Hwf; split; try done; by split_and!.
Qed.
Lemma release_told r u : let a := ReleaseWrite r u in keeps_room r a.1 /\ (is_ok a.2 = false -> writerID a.1 = writerID r).
Proof.
  unfold keeps_room. pose proof (ReleaseWrite_wf r u) as Hwf. revert Hwf. unfold ReleaseWrite.
  repeat case_match; simpl; intros Hwf; split; try done; by split_and!.
Qed.
Definition granted (a : WriteRequest * string * option sharing_err) : bool := match a.2 with None => true | Some _ => false end.
Lemma grant_told r id u now : let a := GrantWrite r id u now in
  keeps_room r a.1 /\ (granted a.2 = false -> writerID a.1 = writerID r) /\ (granted a.2 = true -> writerID a.1 = wr_RequesterID a.2.1.1).
Proof.
  unfold keeps_room. pose proof (GrantWrite_wf r id u now) as Hwf. revert Hwf. unfold GrantWrite.
  repeat case_match; simpl; intros Hwf; split_and!; try done; by split_and!.
Qed.
Lemma request_keeps e sid now rand : preserves (in_sync None) (handleCreateWriteRequest e sid now rand).
Proof.
  unfold handleCreateWriteRequest. eapply hoare_bind; [apply participating| |done]. intros [[s ref] u]. apply from_room.
  apply preserves_bind; [apply ensure_keeps|]. intros room. apply preserves_bind; [leaf|]. intros name. apply preserves_bind; [leaf|]. intros id.
  apply preserves_bind; [apply room_keeps; intros r; apply request_room|]. intros [wr|x]; [|leaf]. unfold publishWriteRequestPending. leaf.
Qed.
Lemma tell_writer_sync {E} sid ref u :
  hoare (E:=E) (fun w => in_room (Some sid) sid (Some ref) w /\ exists r, room_at w (Some ref) = Some r /\ writerID r = u) (tell_writer sid u) (fun w _ => in_sync None w).
Proof.
  intros c [[Hs Ha] (r & Hr & Hu)]. unfold tell_writer, modify, in_memory. simpl. unfold room_at in Hr. simpl in *.
  pose proof (synced_tell _ _ _ _ _ _ _ [] Hs Ha Hr Hu) as Ht. unfold in_sync. destruct (br_Get (tables c) sid) eqn:Hl; exact Ht.
Qed.
Lemma decide_keeps grant e sid id now : preserves (in_sync None) (decideWriteRequest grant e sid id now).
Proof.
  unfold decideWriteRequest. eapply hoare_bind; [apply participating| |done]. intros [[s [ref|]] u]; [|by intros c []].
  case_decide; [by intros c []|]. destruct grant.
  - eapply hoare_bind; [apply (room_sync _ (fun r => GrantWrite r id u now) granted); [done|]| |by intros w x []].
    { intros r. destruct (grant_told r id u now) as (Hk & Hw & _). by split. }
    intros [[wr prev] [x|]]; [by intros c [[] _]|]. cbn [granted snd].
    eapply hoare_bind; [eapply hoare_conseq; [apply (tell_writer_sync (mt_SessionID s) ref (wr_RequesterID wr))| |done]| |done].
    + intros w [Hw Hr]. split; [exact Hw|]. destruct (Hr eq_refl) as (r & Ha & Hroom). exists (GrantWrite r id u now).1. split; [done|].
      destruct (grant_told r id u now) as (_ & _ & Hg). rewrite <- Ha in Hg. by apply Hg.
    + intros ?. leaf.
  - apply from_room. apply preserves_bind; [apply room_keeps; intros r; apply deny_room|]. intros [wr|x]; leaf.
Qed.
Lemma release_keeps e sid : preserves (in_sync None) (handleReleaseWriteToken e sid).
Proof.
  unfold handleReleaseWriteToken. eapply hoare_bind; [apply participating| |done]. intros [[s [ref|]] u]; [|by intros c []].
  eapply hoare_bind; [apply (room_sync _ (fun r => ReleaseWrite r u) is_ok); [done|]| |by intros w x []].
  { intros r. apply release_told. }
  intros [prev|x]; [|by intros c [[] _]]. cbn [is_ok].
  eapply hoare_bind; [eapply hoare_conseq; [apply (tell_sync [] (mt_SessionID s) (Some ref) (Some (mt_SessionID s)))|by intros w []|intros w r Hw; exact Hw]| |by intros w x []];
    [by right|by exists ref|].
  intros ?. apply from_room. leaf.
Qed.
(** The terminal join handler of SharingService.v on this state; [env] holds
    the answers of the access checks and account lookups. *)
Definition terminal_join (env : join_env) (sid : string) (raw : option join_body) (now1 now : time) (c : conn share_world) : conn share_world :=
  let w' := (handleJoinSession env sid raw now1 now (mkWorld (mkConn (configured c) (sw_sharing (tables c)) (faults c)) (sw_registry (tables c)) (sw_calls (tables c)))).1 in
  mkConn (configured c) (with_registry (with_sharing (tables c) (tables (w_store w'))) (w_registry w')) (faults (w_store w')).
Lemma terminal_join_keeps env sid raw now1 now c : in_sync None (tables c) -> in_sync None (tables (terminal_join env sid raw now1 now c)).
Proof.
  intros Hc. unfold terminal_join, handleJoinSession. destruct (join_prelude _ _ _ _ _) as [s [[target inv]|x]]; [|exact Hc].
  destruct (store_RecordUse _ _ _ _) as [s2 [[]|x]]; [|exact Hc]. destruct (store_GetByID _ _) as [s3 r3].
  destruct (handler_enter _ _ _ _ _ _) as [reg r] eqn:He. simpl. unfold in_sync. simpl. unfold handler_enter in He.
  destruct (env_registry env); [|by injection He as <- _].
  destruct (enter_room _ _ _ _ _ _ _ _ _) as [reg1 r1] eqn:Hen. assert (reg1 = reg) as <- by (repeat case_match; congruence).
  by eapply synced_enter.
Qed.

(** ** Requests one after another *)
Inductive share_op :=
| OpCreate (kind : Kind) (e : request_env) (sid : string) (body : json_body) (now : time) (draws : nat -> invitation_draw)
| OpRevokeInvitation (kind : Kind) (e : request_env) (sid invID : string) (now now2 : time)
| OpJoinTerminal (env : join_env) (sid : string) (raw : option join_body) (now1 now : time)
| OpJoin (kind : Kind) (e : request_env) (sid : string) (body : option join_body) (now now2 now3 : time)
| OpList (e : request_env) (sid : string) (now : time)
| OpListKind (kind : Kind) (e : request_env) (sid : string) (now : time)
| OpKick (e : request_env) (sid target : string) (now now2 : time)
| OpKickKind (kind : Kind) (e : request_env) (sid target : string) (now now2 : time)
| OpRequestWrite (e : request_env) (sid : string) (now : time) (rand : result string (list Z))
| OpDecide (grant : bool) (e : request_env) (sid reqID : string) (now : time)
| OpReleaseWrite (e : request_env) (sid : string).
Definition share_exec (c : conn share_world) (op : share_op) : conn share_world :=
  match op with
  | OpCreate kind e sid body now draws => (create_handler dflt getenv kind e sid body now draws c).1
  | OpRevokeInvitation kind e sid invID now now2 => (revoke_handler dflt kind e sid invID now now2 c).1
  | OpJoinTerminal env sid raw now1 now => terminal_join env sid raw now1 now c
  | OpJoin kind e sid body now now2 now3 => (join_handler dflt getenv kind e sid body now now2 now3 c).1
  | OpList e sid now => (handleListParticipants e sid now c).1
  | OpListKind kind e sid now => (handleKindListParticipants kind e sid now c).1
  | OpKick e sid target now now2 => (handleKickParticipant dflt e sid target now now2 c).1
  | OpKickKind kind e sid target now now2 => (handleKindKickParticipant dflt kind e sid target now now2 c).1
  | OpRequestWrite e sid now rand => (handleCreateWriteRequest e sid now rand c).1
  | OpDecide grant e sid reqID now => (decideWriteRequest grant e sid reqID now c).1
  | OpReleaseWrite e sid => (handleReleaseWriteToken e sid c).1
  end.
Lemma share_exec_keeps c op : in_sync None (tables c) -> in_sync None (tables (share_exec c op)).
Proof.
  destruct op; intros Hc; [by apply create_keeps|by apply revoke_keeps|by apply terminal_join_keeps|by apply join_keeps|by apply list_keeps|by apply list_kind_keeps
    |by apply kick_keeps|by apply kick_kind_keeps|by apply request_keeps|by apply decide_keeps|by apply release_keeps].
Qed.
End parts.
End together.

(** The rooms and what the bridges of the sessions lived through. A request
    runs to its end before the next step. A browser that attaches goes through
    [handleTerminalAttach], and the bridge takes it from its queue before the
    handler tells it who may write. *)
Record live_state := mkLive { lv_conn : conn share_world; lv_log : list bridge_event }.
Inductive live_op :=
| LRequest (op : share_op)
| LAttach (mode userID sid : string) (upgraded greeted busy writeFails : bool) (now : time)
| LBridge (sid : string) (op : BridgeClients.b_op).
(** The calls since the last step move to the log. *)
Definition logged (c : conn share_world) (log : list bridge_event) : live_state :=
  mkLive (set_tables c (with_calls (tables c) [])) (log ++ (Told <$> sw_calls (tables c))).

Section live.
Context `{Crypto} `{UnicodeTables} `{MapRange} `{SetScan} (dflt : Z) (getenv : string -> string).
Definition session_of (w : share_world) (sid : string) : string := match find_session w KindTerminal sid with Some s => mt_SessionID s | None => sid end.
Definition attach_mode (viewer : bool) : BridgeClients.AttachMode := if viewer then BridgeClients.AttachModeViewer else BridgeClients.AttachModeWriter.
Definition live_exec (s : live_state) (op : live_op) : live_state :=
  match op with
  | LRequest op => logged (share_exec dflt getenv (lv_conn s) op) (lv_log s)
  | LAttach mode userID sid upgraded greeted busy wf now =>
      match handleTerminalAttach dflt mode userID sid upgraded greeted busy now (lv_conn s) with
      | (c, Ok (Some req)) => logged c (lv_log s ++ [Attached (session_of (tables (lv_conn s)) sid) BridgeClients.ConnWebSocket (attach_mode (ar_Viewer req)) (ar_UserID req) wf])
      | (c, _) => logged c (lv_log s)
      end
  | LBridge sid op => mkLive (lv_conn s) (lv_log s ++ [Stepped sid op])
  end.
Definition live_run (s : live_state) (ops : list live_op) : live_state := foldl live_exec s ops.
(** The steps of a bridge that give the token to nobody: attaching and
    [SetWriter] are the other two kinds. *)
Definition own_op (op : live_op) : Prop := match op with LBridge _ op => BridgeClients.gives_token op = None | _ => True end.

(** The rooms and the log agree. *)
Definition log_base (log : list bridge_event) (sid u : string) : option string := log_writer log sid (Some u).
Definition together (s : live_state) : Prop :=
  sw_calls (tables (lv_conn s)) = [] /\ in_sync (log_base (lv_log s)) None (tables (lv_conn s)) /\ Forall own_event (lv_log s).
Lemma synced_rebase x reg live calls log : synced (log_base log) x reg live calls -> synced (log_base (log ++ (Told <$> calls))) x reg live [].
Proof.
  intros [Hr Hf Hw Hs]. unfold log_base. split; try done.
  - intros sid ref r H1' H2' H3' H4'. rewrite log_told. by eapply Hw.
  - intros sid d H1' H2'. rewrite log_told. by apply Hs.
Qed.
Lemma logged_together c log : in_sync (log_base log) None (tables c) -> Forall own_event log -> together (logged c log).
Proof.
  intros Hs Ho. split; [done|]. split; [by apply synced_rebase|]. apply Forall_app. split; [done|]. apply Forall_fmap, Forall_true. done.
Qed.
Lemma attach_reads sid u viewer now c :
  match call (terminalSessionByOwnerOrParticipant dflt sid u viewer now) attach_err c with
  | (c1, Ok (s, ref)) => tables c1 = tables c /\ find_session (tables c) KindTerminal sid = Some s /\ ref = reg_Get (sw_registry (tables c)) (mt_SessionID s)
  | (c1, Err _) => tables c1 = tables c
  end.
Proof.
  assert (Hp : preserves (fun w => w = tables c) (call (terminalSessionByOwnerOrParticipant dflt sid u viewer now) attach_err)).
  { apply preserves_call. unfold terminalSessionByOwnerOrParticipant, access_of. share_preserve. }
  specialize (Hp c eq_refl). destruct (call _ attach_err c) as [c1 [[s ref]|e]] eqn:E; [|exact Hp].
  apply call_run, attach_is_entitled in E as (Ht & Hs & _ & Href & _). done.
Qed.
(** What the attach handler leaves behind: nothing, or one call when it queued a writer. *)
Lemma attach_run mode userID sid upgraded greeted busy now c c' res : handleTerminalAttach dflt mode userID sid upgraded greeted busy now c = (c', res) ->
  match res with
  | Ok (Some req) => if ar_Viewer req then tables c' = tables c
      else exists ref, ref = reg_Get (sw_registry (tables c)) (session_of (tables c) sid) /\ tables c' = sync_bridge [] (session_of (tables c) sid) ref (tables c)
  | _ => tables c' = tables c
  end.
Proof.
  unfold handleTerminalAttach. cbv zeta. set (viewer := bool_decide _). intros Hr. unfold db_bind at 1 in Hr.
  pose proof (attach_reads sid userID viewer now c) as Hread.
  destruct (call (terminalSessionByOwnerOrParticipant dflt sid userID viewer now) attach_err c) as [c1 [[s ref]|e]] eqn:E1.
  2: { injection Hr as <- <-. exact Hread. }
  destruct Hread as (Ht & Hs & ->). destruct upgraded; [|by injection Hr as <- <-]. cbn [negb] in Hr. destruct greeted; [|by injection Hr as <- <-]. cbn [negb] in Hr.
  unfold db_bind at 1 in Hr. destruct (usernameFor userID c1) as [c2 [name|e]] eqn:E2.
  2: { injection Hr as <- <-. rewrite <- Ht. pose proof (usernameFor_reads (E := http_err) (fun _ => True) userID (tables c1) I c1 eq_refl) as [Hx _]. by rewrite E2 in Hx. }
  assert (Ht2 : tables c2 = tables c) by (rewrite <- Ht; pose proof (usernameFor_reads (E := http_err) (fun _ => True) userID (tables c1) I c1 eq_refl) as [Hx _]; by rewrite E2 in Hx).
  destruct busy; [by injection Hr as <- <-|]. cbn [fst snd] in Hr. unfold session_of. rewrite Hs. destruct viewer.
  - injection Hr as <- <-. done.
  - injection Hr as <- <-. cbn [ar_Viewer]. eexists. split; [done|]. simpl. by rewrite Ht2.
Qed.
Lemma attached_sync log sid kind u wf w : in_sync (log_base log) None w ->
  in_sync (log_base (log ++ [Attached sid kind BridgeClients.AttachModeWriter u wf])) None (sync_bridge [] sid (reg_Get (sw_registry w) sid) w).
Proof.
  intros [Hr Hf Hw Hs]. unfold sync_bridge, in_sync.
  assert (Hb : forall s d, log_base (log ++ [Attached sid kind BridgeClients.AttachModeWriter u wf]) s d = if decide (sid = s) then Some u else log_base log s d).
  { intros s d. unfold log_base, log_writer. by rewrite foldl_app. }
  assert (Htold : forall s d v, told_writer (sw_calls w ++ (CallDetachUser sid <$> []) ++ [CallSetWriter sid v]) s d =
    if decide (sid = s) then (if decide (v = ""%string) then None else Some v) else told_writer (sw_calls w) s d).
  { intros s d v. by rewrite !told_app. }
  destruct (br_Get w sid) eqn:Hl; split; try done.
  - intros s ref r H1' Hh Hl1 Hx. cbn [sw_calls sw_registry with_calls] in *. rewrite Htold, Hb. destruct (decide (sid = s)) as [Hd|Hd]; [subst s|by eapply Hw].
    unfold room_at, reg_Get. rewrite H1'. simpl. rewrite Hh. unfold only. case_decide; auto.
  - intros s d H1' Hl1. cbn [sw_calls sw_registry with_calls] in *. rewrite Htold, Hb. destruct (decide (sid = s)) as [Hd|Hd]; [subst s|by apply Hs].
    unfold room_at, reg_Get. rewrite H1'. simpl. by left.
  - intros s ref r H1' Hh Hl1 Hx. rewrite Hb. case_decide as Hd; [congruence|]. by eapply Hw.
  - intros s d H1' Hl1. rewrite Hb. case_decide as Hd; [congruence|]. by apply Hs.
Qed.
Lemma quiet_sync log ev w : (forall sid t, event_writer sid t ev = t) -> in_sync (log_base log) None w -> in_sync (log_base (log ++ [ev])) None w.
Proof.
  intros He [Hr Hf Hw Hs]. assert (Hb : forall s d, log_base (log ++ [ev]) s d = log_base log s d) by (intros; unfold log_base, log_writer; rewrite foldl_app; apply He).
  split; try done; [intros s ref r ????|intros s d ??]; rewrite Hb; eauto.
Qed.
Lemma live_exec_together s op : own_op op -> together s -> together (live_exec s op).
Proof.
  intros Ho (Hc & Hs & Hl). destruct op as [op|mode u sid upgraded greeted busy wf now|sid op]; simpl.
  - apply logged_together; [by apply share_exec_keeps|done].
  - destruct (handleTerminalAttach dflt mode u sid upgraded greeted busy now (lv_conn s)) as [c' res] eqn:E. pose proof (attach_run _ _ _ _ _ _ _ _ _ _ E) as Ha.
    destruct res as [[req|]|e]; [|apply logged_together; [by rewrite Ha|done]..]. apply logged_together; [|apply Forall_app; split; [done|by repeat constructor]].
    destruct (ar_Viewer req); simpl.
    + rewrite Ha. by apply quiet_sync; [intros|].
    + destruct Ha as (ref & -> & ->). by apply attached_sync.
  - split; [done|]. split; [by apply quiet_sync; [intros|]|]. apply Forall_app. split; [done|]. by repeat constructor.
Qed.

(** C2. Requests to shared sessions and browsers that attach to them, one after
    another, with any database statements failing: starting without rooms, after
    any such history the clients that may write at the live bridge of a session
    all belong to the user who holds the write token of its room, when before
    they belonged to the owner. An attaching browser is taken from the queue of
    the bridge before the handler tells the bridge who may write; in between, a
    bridge takes any steps of its own that give the token to nobody (reading,
    testing and forwarding input, output, detaching). Clients of the SSH gateway,
    which resume a session without asking the room, are left out. *)
Theorem bridge_follows_room s ops sid r b :
  sw_registry (tables (lv_conn s)) = NewRegistry -> sw_calls (tables (lv_conn s)) = [] -> lv_log s = [] -> Forall own_op ops ->
  let s' := live_run s ops in
  let w := tables (lv_conn s') in
  room_of (sw_registry w) sid = Some r -> br_Get w sid = true ->
  BridgeClients.bridge_wf b -> BridgeClients.token_at (ownerID r) b ->
  room_wf r /\ sessionID r = sid /\ BridgeClients.token_at (writerID r) (bridge_after sid (lv_log s') b).
Proof.
  intros Hreg Hcalls Hlog Hops s' w Hr Hl Hb Ht.
  assert (Hw : together s').
  { assert (Hs : together s).
    { split; [done|]. split; [|by rewrite Hlog]. unfold in_sync, log_base. rewrite Hreg, Hcalls, Hlog. split; try done. intros ? d _ _. by right. }
    unfold s', live_run. clear -Hs Hops. induction Hops as [|op ops Hop _ IH] in s, Hs |- *; simpl; [done|]. by apply IH, live_exec_together. }
  destruct Hw as (Hc0 & Hw & Ho). fold w in Hc0, Hw. unfold in_sync in Hw. rewrite Hc0 in Hw.
  unfold room_of, reg_Get in Hr. destruct (reg_rooms (sw_registry w) !! sid) as [ref|] eqn:Href; [|done]. simpl in Hr.
  destruct (sy_rooms _ _ _ _ _ Hw _ _ Href) as (r1 & Hh1 & Hsid & Hwf). rewrite Hr in Hh1. injection Hh1 as <-.
  split; [done|]. split; [done|]. apply (only_may_write _ _ _ (sy_writer _ _ _ _ _ Hw sid ref r Href Hr Hl ltac:(done))).
  by apply log_may_write.
Qed.
End live.

(** ** Requests at the same time *)

(** The first half of a grant, up to the new writer of the room; the second
    half tells the bridge. *)
Definition grant_in_room (ref : nat) (reqID by_ : string) (now : time) : ShareM (WriteRequest * string * option sharing_err) :=
  on_room (Some ref) (WriteRequest_zero, ""%string, Some ErrRoomNotFound) (fun r => GrantWrite r reqID by_ now).
Definition demo_t : time := time_Unix 1600.
Definition demo_request_id : string := match newSharingID (Ok (replicate 32 8)) with Ok id => id | Err _ => "" end.
Definition demo_requested : conn share_world := (handleCreateWriteRequest (demo_caller "bob") "s1" demo_t (Ok (replicate 32 8)) (connect demo_share)).1.
(** Alice grants the token to Bob, who gives it back at once: the release tells
    the bridge before the grant does, and the bridge ends up letting Bob write
    while the room says that Alice holds the token. *)
Lemma late_grant_outlives_release :
  let c1 := grant_in_room 0 demo_request_id "alice" demo_t demo_requested in
  let c2 := handleReleaseWriteToken (demo_caller "bob") "s1" c1.1 in
  let c3 := tell_writer (E:=http_err) "s1" "bob" c2.1 in
  (exists wr, c1.2 = Ok (wr, "alice"%string, None) /\ wr_RequesterID wr = "bob"%string) /\ c2.2 = Ok tt /\
  (writerID <$> room_of (sw_registry (tables c3.1)) "s1") = Some "alice"%string /\
  told_writer (sw_calls (tables c3.1)) "s1" (Some "alice"%string) = Some "bob"%string.
Proof. split; [eexists; split; vm_compute; reflexivity|]. split; [vm_compute; reflexivity|]. split; vm_compute; reflexivity. Qed.

(** An attaching writer is queued, and the bridge is told the writer of the
    room; when it takes the client from the queue only after that, the owner who
    resumes a session takes the token from the viewer who holds it. *)
Definition demo_resume (b : BridgeClients.bridge) : BridgeClients.bridge :=
  BridgeClients.doAttach BridgeClients.ConnWebSocket BridgeClients.AttachModeWriter "alice" false b.
Lemma queued_attach_overtakes :
  let b := BridgeClients.SetWriter "bob" BridgeClients.demo_bridge in
  BridgeClients.token_at "bob" (BridgeClients.SetWriter "bob" (demo_resume b)) /\
  exists id c, BridgeClients.writer (demo_resume (BridgeClients.SetWriter "bob" b)) id c /\ BridgeClients.c_userID c = "alice"%string.
Proof.
  intros b. split.
  - apply BridgeClients.SetWriter_ok. apply (BridgeClients.doAttach_ok BridgeClients.ConnWebSocket BridgeClients.AttachModeWriter "alice" false).
    apply BridgeClients.SetWriter_ok, BridgeClients.demo_bridge_wf.
  - exists 3%nat, (BridgeClients.mkClient BridgeClients.ConnWebSocket true "alice" false [] None).
    split; [|reflexivity]. split; [vm_compute; reflexivity|split; [vm_compute; reflexivity|reflexivity]].
Qed.

(** In the other order the owner of a session that was never shared is muted:
    it has no room, [roomWriterID(nil)] is empty, and telling that to the bridge
    takes the input from the client that was just attached. *)
Definition demo_unshared : conn share_world := connect (with_registry demo_share NewRegistry).
Definition demo_resumed : live_state :=
  live_exec 100 (fun _ => ""%string) (mkLive demo_unshared []) (LAttach "writer" "alice" "s1" true true false false demo_t).
Lemma resume_without_room_is_mute :
  lv_log demo_resumed = [Attached "s1" BridgeClients.ConnWebSocket BridgeClients.AttachModeWriter "alice" false; Told (CallSetWriter "s1" "")] /\
  (forall b, BridgeClients.bridge_wf b -> forall id c, ~ BridgeClients.writer (bridge_after "s1" (lv_log demo_resumed) b) id c).
Proof.
  assert (Hlog : lv_log demo_resumed = [Attached "s1" BridgeClients.ConnWebSocket BridgeClients.AttachModeWriter "alice" false; Told (CallSetWriter "s1" "")])
    by (vm_compute; reflexivity).
  split; [exact Hlog|]. rewrite Hlog. intros b Hb. unfold bridge_after. simpl.
  destruct (BridgeClients.doAttach_ok BridgeClients.ConnWebSocket BridgeClients.AttachModeWriter "alice" false b Hb) as [Hb' _].
  refine (proj2 (event_may_write "s1" (Told (CallSetWriter "s1" "")) (Some "alice"%string) _ I Hb' _)).
  intros id c. by apply BridgeClients.attach_sole.
Qed.
(** The SSH gateway queues a writer for the owner and tells nobody: the room
    says that Bob holds the token, and only Alice's new client may write. *)
Lemma gateway_resume_takes_the_token :
  let b := bridge_after "s1" [Told (CallSetWriter "s1" "bob"); Attached "s1" BridgeClients.ConnStream BridgeClients.AttachModeWriter "alice" false] BridgeClients.demo_bridge in
  BridgeClients.token_at "alice" b /\ exists id c, BridgeClients.writer b id c /\ BridgeClients.c_userID c = "alice"%string.
Proof.
  split.
  - intros id c. apply BridgeClients.attach_sole, BridgeClients.SetWriter_ok, BridgeClients.demo_bridge_wf.
  - exists 3%nat, (BridgeClients.mkClient BridgeClients.ConnStream true "alice" false [] None).
    split; [|reflexivity]. split; [vm_compute; reflexivity|split; [vm_compute; reflexivity|reflexivity]].
Qed.

(** ** Witnesses *)
(** Bob joins, asks for the token and gets it; then he attaches and types. *)
Definition demo_requests : list live_op :=
  [LRequest (OpJoinTerminal (demo_env "bob") "s1" (Some (mkJoinBody "" "h1")) demo_t demo_t);
   LRequest (OpRequestWrite (demo_caller "bob") "s1" demo_t (Ok (replicate 32 8)));
   LRequest (OpDecide true (demo_caller "alice") "s1" demo_request_id demo_t);
   LAttach "writer" "bob" "s1" true true false false demo_t;
   LBridge "s1" (BridgeClients.BMessage true 3 (BridgeClients.mkMsg BridgeClients.BinaryMessage [120] None))].
Definition demo_history : live_state := live_run 100 (fun _ => ""%string) (mkLive demo_unshared []) demo_requests.
Definition demo_bridge_alice : BridgeClients.bridge := BridgeClients.SetWriter "alice" BridgeClients.demo_bridge.
Lemma bridge_follows_room_witness :
  exists r, room_of (sw_registry (tables (lv_conn demo_history))) "s1" = Some r /\ writerID r = "bob"%string /\
    lv_log demo_history = [Told (CallSetWriter "s1" "bob"); Attached "s1" BridgeClients.ConnWebSocket BridgeClients.AttachModeWriter "bob" false;
      Told (CallSetWriter "s1" "bob"); Stepped "s1" (BridgeClients.BMessage true 3 (BridgeClients.mkMsg BridgeClients.BinaryMessage [120] None))] /\
    BridgeClients.token_at "bob" (bridge_after "s1" (lv_log demo_history) demo_bridge_alice).
Proof.
  destruct (room_of (sw_registry (tables (lv_conn demo_history))) "s1") as [r|] eqn:Hr; [|vm_compute in Hr; discriminate].
  assert (Hw : writerID r = "bob"%string /\ ownerID r = "alice"%string) by (vm_compute in Hr; injection Hr as <-; by split).
  destruct Hw as [Hw Ho]. exists r. split; [reflexivity|]. split; [exact Hw|]. split; [vm_compute; reflexivity|].
  destruct (bridge_follows_room 100 (fun _ => ""%string) (mkLive demo_unshared []) demo_requests "s1" r demo_bridge_alice) as (_ & _ & Ht);
    [reflexivity|reflexivity|reflexivity|by repeat constructor|exact Hr|vm_compute; reflexivity|apply BridgeClients.SetWriter_ok, BridgeClients.demo_bridge_wf| |by rewrite Hw in Ht].
  rewrite Ho. apply BridgeClients.SetWriter_ok, BridgeClients.demo_bridge_wf.
Defined.
