(* ===== verification/FileTransferStore.v ===== *)
(** The history of background file transfers: the SQLite store with its
    filtered, cursor-paginated listing and its retention
    (src/internal/filetransfer/store.go).

    Timestamps are stored with their full precision and compared as instants. *)
From S2P Require Import Prelude GoText Sqlite AccessDB.
Local Open Scope Z_scope.

Inductive Backend := BackendRemote | BackendTFTPServer.
Inductive Direction := DirectionUpload | DirectionDownload.
Inductive State := StateReceiving | StateRunning | StateCompleted | StateFailed | StateCancelled.
#[export] Instance Backend_eq_dec : EqDecision Backend. Proof. solve_decision. Defined.
#[export] Instance Direction_eq_dec : EqDecision Direction. Proof. solve_decision. Defined.
#[export] Instance State_eq_dec : EqDecision State. Proof. solve_decision. Defined.

Record JobRecord := mkJobRecord {
  jr_ID : string; jr_UserID : string; jr_TargetID : string; jr_TargetName : string;
  jr_Backend : Backend; jr_Direction : Direction; jr_RemotePath : string; jr_FileName : string;
  jr_State : State; jr_Progress : Z; jr_Total : Z; jr_Error : string; jr_TempPath : string;
  jr_CreatedAt : time; jr_UpdatedAt : time
}.
#[export] Instance JobRecord_eq_dec : EqDecision JobRecord. Proof. solve_decision. Defined.
Record ft_tables := mkFtTables {
  ft_users : gset string;               (* users.id *)
  jobs : gmap string JobRecord          (* file_transfer_jobs, by its primary key *)
}.
Definition with_jobs (t : ft_tables) x := mkFtTables (ft_users t) x.

Inductive ft_err := FtNotFound | FtForbidden | FtNilStore | FtUserIDRequired | FtDB (msg : string).
#[export] Instance ft_err_eq_dec : EqDecision ft_err. Proof. solve_decision. Defined.
#[export] Instance ft_db_error : DBError ft_err := FtDB.
Abbreviation FtM := (DB ft_tables ft_err).

Definition with_state (st : State) (err : string) (at_ : time) (r : JobRecord) : JobRecord :=
  mkJobRecord (jr_ID r) (jr_UserID r) (jr_TargetID r) (jr_TargetName r) (jr_Backend r) (jr_Direction r)
    (jr_RemotePath r) (jr_FileName r) st (jr_Progress r) (jr_Total r) err (jr_TempPath r) (jr_CreatedAt r) at_.
Definition with_progress (progress total : Z) (at_ : time) (r : JobRecord) : JobRecord :=
  mkJobRecord (jr_ID r) (jr_UserID r) (jr_TargetID r) (jr_TargetName r) (jr_Backend r) (jr_Direction r)
    (jr_RemotePath r) (jr_FileName r) (jr_State r) progress total (jr_Error r) (jr_TempPath r) (jr_CreatedAt r) at_.
Definition with_temp_path (path : string) (r : JobRecord) : JobRecord :=
  mkJobRecord (jr_ID r) (jr_UserID r) (jr_TargetID r) (jr_TargetName r) (jr_Backend r) (jr_Direction r)
    (jr_RemotePath r) (jr_FileName r) (jr_State r) (jr_Progress r) (jr_Total r) (jr_Error r) path (jr_CreatedAt r) (jr_UpdatedAt r).

(** ** Statements *)
Definition ft_Insert (rec : JobRecord) : FtM unit :=
  let* _ := db_configured FtNilStore in
  db_exec (fun t =>
    match jobs t !! jr_ID rec with
    | Some _ => Err unique_failed
    | None => if decide (jr_UserID rec ∈ ft_users t) then Ok (with_jobs t (<[jr_ID rec := rec]> (jobs t)), tt)
              else Err fk_failed
    end).
(** [UPDATE ... WHERE id = ?], which says nothing about a missing row. *)
Definition update_job (id : string) (f : JobRecord -> JobRecord) : FtM unit :=
  let* _ := db_configured FtNilStore in
  db_exec (fun t => Ok (with_jobs t (alter f id (jobs t)), tt)).
Definition UpdateState (id : string) (st : State) (errMsg : string) (updatedAt : time) : FtM unit :=
  update_job id (with_state st errMsg updatedAt).
Definition UpdateProgress (id : string) (progress total : Z) (updatedAt : time) : FtM unit :=
  update_job id (fun r => with_progress progress (if 0 <? total then total else jr_Total r) updatedAt r).
Definition UpdateTempPath (id tempPath : string) : FtM unit := update_job id (with_temp_path tempPath).
Definition ft_Get (id : string) : FtM JobRecord :=
  let* _ := db_configured FtNilStore in
  let* row := db_query (fun t => jobs t !! id) in
  match row with None => db_throw FtNotFound | Some r => db_ret r end.

(** [ORDER BY updated_at DESC, id DESC] *)
Definition newer (a b : JobRecord) : bool :=
  (jr_UpdatedAt b <? jr_UpdatedAt a) || ((jr_UpdatedAt b =? jr_UpdatedAt a) && string_lt (jr_ID b) (jr_ID a)).
Section listing.
Context `{MapRange}.

Definition select_jobs (P : JobRecord -> bool) (t : ft_tables) : list JobRecord :=
  filter (fun r => P r = true) (order_by newer (jobs t)).
Definition ft_ListByUser (userID : string) (limit : Z) : FtM (list JobRecord) :=
  let* _ := db_configured FtNilStore in
  let limit := if limit <=? 0 then 500 else limit in
  db_query (fun t => take (Z.to_nat limit) (select_jobs (fun r => bool_decide (jr_UserID r = userID)) t)).

Record ListFilter := mkListFilter {
  lf_UserID : string; lf_Query : string; lf_TargetID : string;
  lf_Direction : option Direction; lf_Backend : option Backend; lf_States : list State;
  lf_From : time; lf_To : time; lf_AfterUpdated : time; lf_AfterID : string; lf_Limit : Z
}.
(** The [Builder] writes every rune again, so a byte that is not UTF-8 becomes
    U+FFFD. *)
Definition escapeLikeOperand (s : list Z) : list Z :=
  runes s ≫= (fun r => (if (r =? 92) || (r =? 37) || (r =? 95) then [92] else []) ++ encode_rune r).
Definition like_contains (q : list Z) (col : string) : bool :=
  sql_like ([37] ++ escapeLikeOperand q ++ [37]) (bs col).
(** The WHERE clause of [buildFileTransferJobQuery]: without the cursor ... *)
Definition filter_conds (f : ListFilter) (r : JobRecord) : bool :=
  bool_decide (jr_UserID r = lf_UserID f) &&
  (IsZero (lf_From f) || (lf_From f <=? jr_UpdatedAt r)) &&
  (IsZero (lf_To f) || (jr_UpdatedAt r <? lf_To f)) &&
  (bool_decide (lf_TargetID f = "") || bool_decide (jr_TargetID r = lf_TargetID f)) &&
  (match lf_Direction f with None => true | Some d => bool_decide (jr_Direction r = d) end) &&
  (match lf_Backend f with None => true | Some b => bool_decide (jr_Backend r = b) end) &&
  (bool_decide (lf_States f = []) || bool_decide (jr_State r ∈ lf_States f)) &&
  (let q := TrimSpace (bs (lf_Query f)) in
   bool_decide (q = []) || like_contains q (jr_FileName r) || like_contains q (jr_RemotePath r) ||
   like_contains q (jr_TargetName r)).
(** ... and the cursor. *)
Definition after_cursor (f : ListFilter) (r : JobRecord) : bool :=
  IsZero (lf_AfterUpdated f) ||
  ((jr_UpdatedAt r <? lf_AfterUpdated f) ||
   ((jr_UpdatedAt r =? lf_AfterUpdated f) && string_lt (jr_ID r) (lf_AfterID f))).
Definition buildFileTransferJobQuery (f : ListFilter) (t : ft_tables) : list JobRecord :=
  let limit := if lf_Limit f <=? 0 then 100 else lf_Limit f in
  take (Z.to_nat limit) (select_jobs (fun r => filter_conds f r && after_cursor f r) t).
Definition ft_ListByUserFiltered (f : ListFilter) : FtM (list JobRecord) :=
  let* _ := db_configured FtNilStore in
  if decide (TrimSpace_s (lf_UserID f) = ""%string) then db_throw FtUserIDRequired
  else db_query (buildFileTransferJobQuery f).

Definition ft_Delete (id userID : string) : FtM (JobRecord * bool) :=
  let* rec := ft_Get id in
  if decide (jr_UserID rec <> userID) then db_throw FtForbidden
  else
    let* n := db_exec (fun t => Ok (with_jobs t (delete id (jobs t)), size (jobs t) - size (delete id (jobs t)))%nat) in
    db_ret (rec, bool_decide (0 < n)%nat).

Definition isTerminalState (st : State) : bool :=
  match st with StateCompleted | StateFailed | StateCancelled => true | _ => false end.
Definition MarkOrphansFailed (now : time) (message : string) : FtM Z :=
  let* _ := db_configured FtNilStore in
  db_exec (fun t =>
    let orphan r := negb (isTerminalState (jr_State r)) in
    Ok (with_jobs t ((fun r => if orphan r then with_state StateFailed message now r else r) <$> jobs t),
        Z.of_nat (size (filter (fun kr => orphan kr.2 = true) (jobs t))))).

(** The finished transfers of a user, newest first. *)
Definition finished (userID : string) (t : ft_tables) : list JobRecord :=
  select_jobs (fun r => bool_decide (jr_UserID r = userID) && isTerminalState (jr_State r)) t.
Definition TrimUserHistory (userID : string) (maxRows : Z) : FtM Z :=
  let* _ := db_configured FtNilStore in
  if maxRows <=? 0 then db_ret 0
  else
    db_exec (fun t =>
      let kept := jr_ID <$> take (Z.to_nat maxRows) (finished userID t) in
      let gone r := bool_decide (jr_UserID r = userID) && isTerminalState (jr_State r) && negb (bool_decide (jr_ID r ∈ kept)) in
      Ok (with_jobs t (filter (fun kr => gone kr.2 = false) (jobs t)),
          Z.of_nat (size (filter (fun kr => gone kr.2 = true) (jobs t))))).
End listing.

(** ** The order of the history *)
Lemma newer_asym a b : newer a b = true -> newer b a = false.
Proof.
  unfold newer. intros Ha. destruct (Z.lt_trichotomy (jr_UpdatedAt a) (jr_UpdatedAt b)) as [|[He|]]; [lia| |lia].
  rewrite He, Z.ltb_irrefl, Z.eqb_refl in *. simpl in *. by apply string_lt_asym.
Qed.
Lemma newer_irrefl a : newer a a = false.
Proof. unfold newer. rewrite Z.ltb_irrefl, Z.eqb_refl. apply string_lt_irrefl. Qed.
Lemma newer_neg_trans a b c : not_after newer a b -> not_after newer b c -> not_after newer a c.
Proof.
  unfold not_after, newer. rewrite !orb_false_iff, !andb_false_iff.
  intros [H1 H2] [H3 H4]. split; [lia|].
  destruct (decide (jr_UpdatedAt b = jr_UpdatedAt c)) as [E|]; [|left; lia].
  destruct (decide (jr_UpdatedAt a = jr_UpdatedAt b)) as [E'|]; [|left; lia]. right.
  destruct H2 as [?|H2]; [lia|]. destruct H4 as [?|H4]; [lia|].
  exact (string_neg_trans _ _ _ H4 H2).
Qed.
(** Two rows of the same rank have the same id. *)
Lemma newer_total a b : not_after newer a b -> not_after newer b a -> jr_ID a = jr_ID b.
Proof.
  unfold not_after, newer. rewrite !orb_false_iff, !andb_false_iff. intros [H1 H2] [H3 H4].
  destruct H2 as [?|H2]; [lia|]. destruct H4 as [?|H4]; [lia|].
  apply (anti_symm String.le); by apply string_not_after.
Qed.

(** The primary key is the column [id]. *)
Definition keyed (t : ft_tables) : Prop := forall id r, jobs t !! id = Some r -> jr_ID r = id.

Section history.
Context `{MapRange} (t : ft_tables) (Ht : keyed t).

Lemma elem_of_select P r : r ∈ select_jobs P t <-> (exists id, jobs t !! id = Some r) /\ P r = true.
Proof. unfold select_jobs. rewrite list_elem_of_filter, elem_of_order_by. naive_solver. Qed.
Lemma select_NoDup P : NoDup (select_jobs P t).
Proof using Ht.
  unfold select_jobs. apply NoDup_filter. rewrite order_by_perm.
  apply NoDup_fmap_2_strong; [|apply NoDup_map_to_list].
  intros [i a] [j b] Hi%elem_of_map_to_list Hj%elem_of_map_to_list Heq. simpl in *. subst.
  by rewrite <- (Ht _ _ Hi), (Ht _ _ Hj).
Qed.
Lemma select_sorted P : StronglySorted (not_after newer) (select_jobs P t).
Proof. apply StronglySorted_filter, order_by_sorted; [apply newer_asym|apply newer_neg_trans]. Qed.
Lemma select_same_id P Q a b : a ∈ select_jobs P t -> b ∈ select_jobs Q t -> jr_ID a = jr_ID b -> a = b.
Proof using Ht.
  rewrite !elem_of_select. intros [[i Hi] _] [[j Hj] _] Heq.
  rewrite (Ht _ _ Hi), (Ht _ _ Hj) in Heq. congruence.
Qed.
(** A sorted list of the selected rows is the selection. *)
Lemma select_unique P l :
  StronglySorted (not_after newer) l -> NoDup l -> (forall r, r ∈ l <-> r ∈ select_jobs P t) -> l = select_jobs P t.
Proof using Ht.
  intros Hs Hn Hiff. apply (StronglySorted_unique_strong (not_after newer)); [|done|apply select_sorted|].
  - intros a b Ha%Hiff Hb H1 H2. eapply select_same_id; [done|done|]. by apply newer_total.
  - apply NoDup_Permutation; [done|apply select_NoDup|done].
Qed.
(** Selecting the rows after the [k]-th is dropping the first [k + 1]. *)
Lemma select_after P r k :
  select_jobs P t !! k = Some r ->
  select_jobs (fun e => P e && newer r e) t = drop (S k) (select_jobs P t).
Proof using Ht.
  intros Hk. symmetry. apply select_unique.
  - pose proof (select_sorted P) as Hs. rewrite <- (take_drop (S k) (select_jobs P t)) in Hs.
    by apply StronglySorted_app_1_r in Hs.
  - pose proof (select_NoDup P) as Hn. rewrite <- (take_drop (S k) (select_jobs P t)) in Hn. by apply NoDup_app in Hn as (_ & _ & ?).
  - intros e.
    assert (Hin : e ∈ select_jobs (fun e => P e && newer r e) t <-> e ∈ select_jobs P t /\ newer r e = true).
    { rewrite !elem_of_select, andb_true_iff. tauto. }
    rewrite Hin. pose proof (select_sorted P) as Hs. pose proof (select_NoDup P) as Hn.
    assert (Hsplit : select_jobs P t = take k (select_jobs P t) ++ r :: drop (S k) (select_jobs P t))
      by (symmetry; by apply take_drop_middle).
    assert (Hr : r ∈ select_jobs P t) by by eapply list_elem_of_lookup_2.
    rewrite Hsplit in Hs. pose proof (StronglySorted_app_1_r _ _ _ Hs) as Hs2.
    apply StronglySorted_inv in Hs2 as [_ Hafter]. rewrite Forall_forall in Hafter.
    split.
    + intros He. assert (He' : e ∈ select_jobs P t) by (rewrite Hsplit; apply elem_of_app; right; by right).
      split; [done|]. specialize (Hafter e He). destruct (newer r e) eqn:E; [done|]. exfalso.
      assert (e = r) as -> by (eapply select_same_id; [done|done|]; by apply newer_total).
      rewrite Hsplit in Hn. apply NoDup_app in Hn as (_ & _ & Hn). by apply NoDup_cons in Hn as [? _].
    + intros [He Hnew]. rewrite Hsplit in He. apply elem_of_app in He as [He|He].
      * exfalso. pose proof (StronglySorted_app_1_elem_of _ _ _ e r Hs He ltac:(by left)) as Hna.
        unfold not_after in Hna. congruence.
      * apply elem_of_cons in He as [->|He]; [|done]. by rewrite newer_irrefl in Hnew.
Qed.
End history.

Lemma ft_query_run {A} (f : ft_tables -> A) c : healthy c -> db_query (E:=ft_err) f c = (c, Ok (f (tables c))).
Proof. intros [Hc Hf]. unfold db_query, db_exec, db_call, set_tables. rewrite Hf. by destruct c. Qed.

(** Paging through the history loses and repeats nothing: the rows that match
    a filter form one list, newest first with the id deciding ties; the first
    page is its beginning, and a page asked for with the cursor of any row is
    what follows that row - also between rows with the same timestamp. *)
Theorem history_pages `{MapRange} c f :
  healthy c -> keyed (tables c) -> TrimSpace_s (lf_UserID f) <> ""%string -> 0 < lf_Limit f ->
  let all := select_jobs (filter_conds f) (tables c) in
  let page := ft_ListByUserFiltered f c in
  (forall r, r ∈ all <-> (exists id, jobs (tables c) !! id = Some r) /\ filter_conds f r = true) /\
  NoDup all /\ StronglySorted (fun a b => newer b a = false) all /\
  (IsZero (lf_AfterUpdated f) = true -> page = (c, Ok (take (Z.to_nat (lf_Limit f)) all))) /\
  forall k r, all !! k = Some r -> IsZero (jr_UpdatedAt r) = false ->
    lf_AfterUpdated f = jr_UpdatedAt r -> lf_AfterID f = jr_ID r ->
    page = (c, Ok (take (Z.to_nat (lf_Limit f)) (drop (S k) all))).
Proof.
  intros Hc Ht Hu Hl all page. split; [intros r; apply elem_of_select|].
  split; [by apply select_NoDup|]. split; [apply select_sorted|].
  assert (Hrun : page = (c, Ok (take (Z.to_nat (lf_Limit f)) (select_jobs (fun r => filter_conds f r && after_cursor f r) (tables c))))).
  { unfold page, ft_ListByUserFiltered, db_bind, db_configured. rewrite (proj1 Hc), decide_False by done.
    rewrite ft_query_run by done. unfold buildFileTransferJobQuery. by rewrite (proj2 (Z.leb_gt _ _)). }
  rewrite Hrun. split.
  - intros Hz. do 3 f_equal. apply list_filter_iff. intros r. unfold after_cursor. rewrite Hz. by rewrite andb_true_r.
  - intros k r Hk Hz Hcu Hci. do 3 f_equal. unfold all. rewrite <- (select_after _ Ht _ _ _ Hk).
    apply list_filter_iff. intros e. unfold after_cursor. rewrite Hcu, Hci, Hz. done.
Qed.

(** What trimming leaves: the newest [maxRows] finished transfers of the user, and
    every other row. *)
Lemma trim_spec `{MapRange} c u maxRows :
  healthy c -> keyed (tables c) -> 0 < maxRows ->
  exists t' n, TrimUserHistory u maxRows c = (set_tables c t', Ok n) /\ keyed t' /\
  finished u t' = take (Z.to_nat maxRows) (finished u (tables c)) /\
  forall id r, jr_UserID r <> u \/ isTerminalState (jr_State r) = false ->
    jobs t' !! id = Some r <-> jobs (tables c) !! id = Some r.
Proof.
  intros [Hc Hf] Ht Hm. set (t := tables c) in *.
  set (P := fun r => bool_decide (jr_UserID r = u) && isTerminalState (jr_State r)).
  set (kept := jr_ID <$> take (Z.to_nat maxRows) (finished u t)).
  set (gone := fun r => P r && negb (bool_decide (jr_ID r ∈ kept))).
  set (t' := with_jobs t (filter (fun kr => gone kr.2 = false) (jobs t))).
  assert (Ht' : keyed t') by (intros id r [Hl _]%map_lookup_filter_Some; by apply Ht).
  exists t'. eexists. split; [|split; [done|split]].
  - unfold TrimUserHistory, db_bind, db_configured. rewrite Hc, (proj2 (Z.leb_gt _ _)) by done.
    unfold db_exec, db_call. rewrite Hf. reflexivity.
  - symmetry. apply select_unique; [done|..].
    + apply StronglySorted_take, select_sorted.
    + pose proof (select_NoDup t Ht P) as Hn. rewrite <- (take_drop (Z.to_nat maxRows)) in Hn. by apply NoDup_app in Hn as [? _].
    + intros r. rewrite elem_of_select. split.
      * intros Hr. assert (Hfin : r ∈ finished u t) by (by eapply subseteq_take).
        apply elem_of_select in Hfin as [[id Hl] HP]. split; [|done]. exists id. simpl.
        apply map_lookup_filter_Some. split; [done|]. simpl. unfold gone. rewrite bool_decide_eq_true_2; [by rewrite andb_false_r|].
        unfold kept. by apply list_elem_of_fmap_2.
      * intros [[id [Hl Hg]%map_lookup_filter_Some] HP]. simpl in Hg. unfold gone in Hg. fold (P r) in HP. rewrite HP in Hg. simpl in Hg.
        apply negb_false_iff, bool_decide_eq_true in Hg. unfold kept in Hg. apply list_elem_of_fmap in Hg as (r' & Heq & Hr').
        assert (Hfin' : r' ∈ finished u t) by (by eapply subseteq_take).
        assert (Hfin : r ∈ finished u t) by (apply elem_of_select; eauto).
        by rewrite (select_same_id t Ht _ _ r r' Hfin Hfin' Heq).
  - intros id r Hr. simpl. rewrite map_lookup_filter_Some. simpl. split; [by intros []|]. intros Hl. split; [done|].
    unfold gone, P. destruct Hr as [Hr|Hr]; [by rewrite bool_decide_eq_false_2|by rewrite Hr, andb_false_r].
Qed.

(** Nothing is trimmed while there is room. *)
Lemma trim_room `{MapRange} c u maxRows :
  healthy c -> keyed (tables c) -> 0 < maxRows -> Z.of_nat (length (finished u (tables c))) <= maxRows ->
  exists n, TrimUserHistory u maxRows c = (c, Ok n).
Proof.
  intros Hc Ht Hm Hroom. destruct (trim_spec c u maxRows Hc Ht Hm) as (t' & n & Hrun & Ht' & Hfin & Hrest).
  rewrite take_ge in Hfin by lia. exists n. rewrite Hrun. f_equal.
  assert (Hj : jobs t' = jobs (tables c)).
  { apply map_eq. intros id. apply option_eq. intros r.
    destruct (decide (jr_UserID r = u /\ isTerminalState (jr_State r) = true)) as [[Hu Hs]|Hno].
    - assert (Hiff : forall t, keyed t -> jobs t !! id = Some r <-> jr_ID r = id /\ r ∈ finished u t).
      { intros t0 Hk. unfold finished. rewrite elem_of_select, bool_decide_eq_true_2, Hs by done. split.
        - intros Hl. rewrite (Hk _ _ Hl). eauto.
        - intros [<- [[id' Hl] _]]. by rewrite (Hk _ _ Hl). }
      rewrite (Hiff t'), (Hiff (tables c)), Hfin by done. done.
    - apply Hrest. destruct (isTerminalState (jr_State r)); [left; naive_solver|by right]. }
  unfold TrimUserHistory, db_bind, db_configured in Hrun. destruct Hc as [Hc Hf]. rewrite Hc, (proj2 (Z.leb_gt _ _)) in Hrun by done.
  unfold db_exec, db_call in Hrun. rewrite Hf in Hrun. injection Hrun as Hrun _.
  rewrite <- Hrun in Hj |- *. simpl in Hj. unfold set_tables, with_jobs. simpl. rewrite Hj.
  destruct c as [cf [us js] fs]. done.
Qed.

(** The search text is matched literally, up to ASCII case: no character of it
    acts as a wildcard. *)
Lemma escape_ascii q : is_ascii q = true -> escapeLikeOperand q = escapeLikePrefix q.
Proof.
  intros Hq. unfold escapeLikeOperand, escapeLikePrefix. rewrite runes_ascii by done.
  induction q as [|b q IH]; [done|]. simpl in Hq. apply andb_true_iff in Hq as [Hb Hq].
  rewrite !bind_cons, IH by done. f_equal. unfold encode_rune, in_range in *.
  replace ((0 <=? b) && (b <? 128)) with true by lia. by destruct ((b =? 92) || (b =? 37) || (b =? 95)).
Qed.
Lemma like_star pat s : sql_like (37 :: pat) s = true <-> exists k1 k2, s = k1 ++ k2 /\ sql_like pat k2 = true.
Proof.
  split.
  - induction s as [|x s IH]; simpl; rewrite orb_true_iff.
    + intros [Hs|]; [|done]. exists [], []. done.
    + intros [Hs|Hs]; [exists [], (x :: s); done|]. destruct IH as (k1 & k2 & -> & Hk); [exact Hs|].
      exists (x :: k1), k2. done.
  - intros (k1 & k2 & -> & Hk). induction k1 as [|x k1 IH]; simpl.
    + destruct k2; simpl in *; by rewrite Hk.
    + apply orb_true_iff. right. exact IH.
Qed.
Lemma search_is_literal q col :
  is_ascii q = true ->
  like_contains q col = true <->
  exists k1 m k2, bs col = k1 ++ m ++ k2 /\ like_fold <$> m = like_fold <$> q.
Proof.
  intros Hq. unfold like_contains. rewrite escape_ascii by done.
  change ([37] ++ escapeLikePrefix q ++ [37]) with (37 :: (escapeLikePrefix q ++ [37])). rewrite like_star.
  assert (Hend : exists k, sql_like [37] k = true) by (exists []; apply sql_like_any).
  setoid_rewrite (like_escaped q [37] _ Hend). split.
  - intros (k1 & s & Hs & k & Hm & Hk & _). exists k1, (take (length q) s), k. by rewrite <- Hk.
  - intros (k1 & m & k2 & Hs & Hm). exists k1, (m ++ k2). split; [done|]. exists k2.
    assert (length m = length q) by (by rewrite <- (length_fmap like_fold m), Hm, length_fmap).
    rewrite take_app_length' by done. split; [done|]. split; [done|]. apply sql_like_any.
Qed.

(** ** Witness *)
Definition demo_row (id : string) (at_ : time) : JobRecord :=
  mkJobRecord id "u1" "r1" "Router" BackendRemote DirectionUpload "/tmp/x" "x" StateCompleted 1 1 "" "" 1 at_.
Definition demo_history : ft_tables :=
  mkFtTables {["u1"%string]} {["a"%string := demo_row "a" 5; "b"%string := demo_row "b" 5; "c"%string := demo_row "c" 7]}.
Lemma demo_history_keyed : keyed demo_history.
Proof.
  intros id r Hl. simpl in Hl. rewrite !lookup_insert_Some in Hl.
  destruct Hl as [[<- <-]|[_ [[<- <-]|[_ Hl]]]]; [reflexivity..|]. apply lookup_singleton_Some in Hl as [<- <-]. reflexivity.
Qed.
Definition demo_filter : ListFilter := mkListFilter "u1" "X" "" None None [] 0 0 5 "b" 10.
Lemma history_pages_witness :
  ft_ListByUserFiltered demo_filter (connect demo_history) = (connect demo_history, Ok [demo_row "a" 5]).
Proof.
  destruct (history_pages (connect demo_history) demo_filter) as (_ & _ & _ & _ & Hpage).
  - split; reflexivity.
  - exact demo_history_keyed.
  - vm_compute. discriminate.
  - reflexivity.
  - rewrite (Hpage 1%nat (demo_row "b" 5)); vm_compute; reflexivity.
Defined.
