(* ===== verification/FileTransfer.v ===== *)
(** Background file transfers: the job manager and the jobs it hands to the
    transfer goroutines (src/internal/filetransfer/manager.go).

    A [Job] is a heap object: the goroutine that transfers a file keeps the one
    [Create] returned, while [Get] and [Cancel] work on fresh copies of the row.
    A [Manager] whose store is nil is one whose connection is not configured. *)
From S2P Require Import Prelude GoText Sqlite AccessDB FileTransferStore.
Local Open Scope Z_scope.

Definition DefaultMaxHistoryPerUser : Z := 500.
Definition progressPersistInterval : duration := 200 * millisecond.

(** The persisted fields and [lastPersistedAt]. *)
Record Job := mkJob { j_rec : JobRecord; j_lastPersistedAt : time }.
(** What the notifier is called with: the snapshot and the user. *)
Record JobSnapshot := mkSnapshot {
  sn_ID : string; sn_UserID : string; sn_TargetID : string; sn_TargetName : string; sn_Backend : Backend;
  sn_Direction : Direction; sn_RemotePath : string; sn_FileName : string; sn_State : State;
  sn_Progress : Z; sn_Total : Z; sn_Error : string; sn_CreatedAt : time; sn_UpdatedAt : time
}.
Record Manager := mkFtManager {
  m_store : conn ft_tables;
  m_live : gmap string bool;        (* id -> whether the handle has a cancel function *)
  m_heap : gmap nat Job;
  m_next : nat;
  m_notify : bool;                  (* a notifier is registered *)
  m_maxHistory : Z;
  m_events : list (JobSnapshot * string);
  m_cancelled : list string         (* the jobs whose cancel function was called *)
}.
Definition NewManager (store : conn ft_tables) : Manager :=
  mkFtManager store ∅ ∅ 0 false DefaultMaxHistoryPerUser [] [].
Definition SetNotifier (fn : bool) (m : Manager) : Manager :=
  mkFtManager (m_store m) (m_live m) (m_heap m) (m_next m) fn (m_maxHistory m) (m_events m) (m_cancelled m).
Definition SetMaxHistoryPerUser (n : Z) (m : Manager) : Manager :=
  if n <=? 0 then m
  else mkFtManager (m_store m) (m_live m) (m_heap m) (m_next m) (m_notify m) n (m_events m) (m_cancelled m).

Definition with_store (m : Manager) (c : conn ft_tables) : Manager :=
  mkFtManager c (m_live m) (m_heap m) (m_next m) (m_notify m) (m_maxHistory m) (m_events m) (m_cancelled m).
Definition with_live (m : Manager) (l : gmap string bool) : Manager :=
  mkFtManager (m_store m) l (m_heap m) (m_next m) (m_notify m) (m_maxHistory m) (m_events m) (m_cancelled m).
Definition set_job (ref : nat) (j : Job) (m : Manager) : Manager :=
  mkFtManager (m_store m) (m_live m) (<[ref := j]> (m_heap m)) (m_next m) (m_notify m) (m_maxHistory m) (m_events m) (m_cancelled m).
(** Runs a store operation; [_ = m.store....] drops its error. *)
Definition run_store {A} (op : FtM A) (m : Manager) : Manager * result ft_err A :=
  let (c, r) := op (m_store m) in (with_store m c, r).
Definition try_store {A} (op : FtM A) (m : Manager) : Manager := (run_store op m).1.

Definition Snapshot (r : JobRecord) : JobSnapshot :=
  mkSnapshot (jr_ID r) (jr_UserID r) (jr_TargetID r) (jr_TargetName r) (jr_Backend r) (jr_Direction r)
    (jr_RemotePath r) (jr_FileName r) (jr_State r) (jr_Progress r) (jr_Total r) (jr_Error r) (jr_CreatedAt r) (jr_UpdatedAt r).
Definition emit (r : JobRecord) (m : Manager) : Manager :=
  if m_notify m then
    mkFtManager (m_store m) (m_live m) (m_heap m) (m_next m) (m_notify m) (m_maxHistory m)
      (m_events m ++ [(Snapshot r, jr_UserID r)]) (m_cancelled m)
  else m.
Definition releaseLive (id : string) (m : Manager) : Manager := with_live m (delete id (m_live m)).
Definition call_cancel (id : string) (m : Manager) : Manager :=
  match m_live m !! id with
  | Some true => mkFtManager (m_store m) (m_live m) (m_heap m) (m_next m) (m_notify m) (m_maxHistory m)
                   (m_events m) (m_cancelled m ++ [id])
  | _ => m
  end.

(** A new job object. *)
Definition alloc_job (j : Job) (m : Manager) : Manager * nat :=
  (mkFtManager (m_store m) (m_live m) (<[m_next m := j]> (m_heap m)) (S (m_next m)) (m_notify m) (m_maxHistory m)
     (m_events m) (m_cancelled m), m_next m).
Definition recordToJob (r : JobRecord) : Job := mkJob r zero_time.

Section manager.
Context `{MapRange}.
Definition trimHistory (userID : string) (m : Manager) : Manager :=
  if configured (m_store m) then try_store (TrimUserHistory userID (m_maxHistory m)) m else m.

Record CreateOpts := mkCreateOpts {
  co_UserID : string; co_TargetID : string; co_TargetName : string; co_Backend : Backend; co_Direction : Direction;
  co_RemotePath : string; co_FileName : string; co_InitialState : option State; co_Total : Z
}.
Definition newJob (opts : CreateOpts) (id : string) (now : time) : JobRecord :=
  mkJobRecord id (co_UserID opts) (co_TargetID opts) (co_TargetName opts) (co_Backend opts) (co_Direction opts)
    (co_RemotePath opts) (co_FileName opts) (default StateRunning (co_InitialState opts)) 0 (co_Total opts) "" "" now now.
(** [newID] is what [newJobID] draws. *)
Definition ft_Create (opts : CreateOpts) (cancel : bool) (newID : result ft_err string) (now : time) (m : Manager)
    : Manager * result ft_err nat :=
  match newID with
  | Err e => (m, Err e)
  | Ok id =>
      let j := newJob opts id now in
      let (m, r) := if configured (m_store m) then run_store (ft_Insert j) m else (m, Ok tt) in
      match r with
      | Err e => (m, Err e)
      | Ok _ =>
          let (m, ref) := alloc_job (mkJob j zero_time) (with_live m (<[id := cancel]> (m_live m))) in
          (emit j m, Ok ref)
      end
  end.
Definition m_Get (id : string) (m : Manager) : Manager * option nat :=
  if configured (m_store m) then
    let (m, r) := run_store (ft_Get id) m in
    match r with
    | Ok rec => let (m, ref) := alloc_job (recordToJob rec) m in (m, Some ref)
    | Err _ => (m, None)
    end
  else (m, None).
Definition m_ListByUser (userID : string) (m : Manager) : Manager * list Job :=
  if configured (m_store m) then
    let (m, r) := run_store (ft_ListByUser userID (m_maxHistory m)) m in
    (m, match r with Ok recs => recordToJob <$> recs | Err _ => [] end)
  else (m, []).
Definition m_ListByUserFiltered (f : ListFilter) (m : Manager) : Manager * result ft_err (list Job) :=
  if configured (m_store m) then
    let f := if lf_Limit f <=? 0 then
               mkListFilter (lf_UserID f) (lf_Query f) (lf_TargetID f) (lf_Direction f) (lf_Backend f) (lf_States f)
                 (lf_From f) (lf_To f) (lf_AfterUpdated f) (lf_AfterID f) (m_maxHistory m)
             else f in
    let (m, r) := run_store (ft_ListByUserFiltered f) m in
    (m, match r with Ok recs => Ok (recordToJob <$> recs) | Err e => Err e end)
  else (m, Ok []).
Definition Remove (id : string) (m : Manager) : Manager :=
  let m := releaseLive id m in
  if configured (m_store m) then
    let (m, r) := run_store (ft_Get id) m in
    match r with
    | Err _ => m
    | Ok rec => try_store (ft_Delete id (jr_UserID rec)) m
    end
  else m.

Definition Cancel (id userID : string) (now : time) (m : Manager) : Manager * result ft_err unit :=
  if negb (configured (m_store m)) then (m, Err FtNotFound)
  else
    let (m, r) := run_store (ft_Get id) m in
    match r with
    | Err e => (m, Err e)
    | Ok rec =>
        if decide (jr_UserID rec <> userID) then (m, Err FtForbidden)
        else if isTerminalState (jr_State rec) then (m, Ok tt)
        else
          let m := call_cancel id m in
          let (m, r) := run_store (UpdateState id StateCancelled "" now) m in
          match r with
          | Err e => (m, Err e)
          | Ok _ =>
              let j := with_state StateCancelled (jr_Error rec) now rec in
              (trimHistory userID (releaseLive id (emit j m)), Ok tt)
          end
    end.

(** The methods of a [Job]. *)
Definition SetState (ref : nat) (st : State) (errMsg : string) (now : time) (m : Manager) : Manager :=
  match m_heap m !! ref with
  | None => m
  | Some j =>
      if isTerminalState (jr_State (j_rec j)) then m
      else
        let r := with_state st errMsg now (j_rec j) in
        let r := if bool_decide (st = StateCompleted) && (0 <? jr_Total r) && (jr_Progress r <? jr_Total r)
                 then with_progress (jr_Total r) (jr_Total r) now r else r in
        let m := set_job ref (mkJob r now) m in
        let m := if configured (m_store m) then
                   try_store (UpdateState (jr_ID r) st errMsg now)
                     (try_store (UpdateProgress (jr_ID r) (jr_Progress r) (jr_Total r) now) m)
                 else m in
        let m := emit r m in
        if isTerminalState st then trimHistory (jr_UserID r) (releaseLive (jr_ID r) m) else m
  end.
Definition SetTempPath (ref : nat) (path : string) (m : Manager) : Manager :=
  match m_heap m !! ref with
  | None => m
  | Some j =>
      let m := set_job ref (mkJob (with_temp_path path (j_rec j)) (j_lastPersistedAt j)) m in
      if configured (m_store m) then try_store (UpdateTempPath (jr_ID (j_rec j)) path) m else m
  end.
Definition SetProgress (ref : nat) (done_ total : Z) (now : time) (m : Manager) : Manager :=
  match m_heap m !! ref with
  | None => m
  | Some j =>
      let r := with_progress done_ (if 0 <? total then total else jr_Total (j_rec j)) now (j_rec j) in
      let persist := progressPersistInterval <=? Sub now (j_lastPersistedAt j) in
      let m := set_job ref (mkJob r (if persist then now else j_lastPersistedAt j)) m in
      let m := if persist && configured (m_store m)
               then try_store (UpdateProgress (jr_ID r) done_ (jr_Total r) now) m else m in
      emit r m
  end.
Definition ReapOrphans (message : string) (now : time) (m : Manager) : Manager * result ft_err Z :=
  if configured (m_store m) then run_store (MarkOrphansFailed now message) m else (m, Ok 0).
End manager.

(** ** Store calls on a healthy connection *)
Lemma healthy_connect {T} (c : conn T) : healthy c -> c = connect (tables c).
Proof. destruct c as [cf t fs]. intros [Hc Hf]. simpl in *. by subst. Qed.
Lemma update_job_run id f t : update_job id f (connect t) = (connect (with_jobs t (alter f id (jobs t))), Ok tt).
Proof. done. Qed.

(** The state of a manager a client can rely on: a healthy store whose rows are
    filed under their ids, and jobs whose object and row agree on everything
    but what is written lazily. *)
Definition lazy_sync (row mem : JobRecord) : Prop :=
  with_progress (jr_Progress mem) (jr_Total mem) (jr_UpdatedAt mem) row = mem /\
  (0 < jr_Total mem \/ jr_Total row = jr_Total mem).
Record tracked (m : Manager) (ref : nat) (mem : JobRecord) : Prop := {
  tk_healthy : healthy (m_store m);
  tk_keyed : keyed (tables (m_store m));
  tk_max : 0 < m_maxHistory m;
  tk_mem : j_rec <$> m_heap m !! ref = Some mem;
  tk_row : exists row, jobs (tables (m_store m)) !! jr_ID mem = Some row /\ lazy_sync row mem
}.

Lemma alter_keyed f id t : (forall r, jr_ID (f r) = jr_ID r) -> keyed t -> keyed (with_jobs t (alter f id (jobs t))).
Proof.
  intros Hf Ht i r Hl. simpl in Hl. destruct (decide (id = i)) as [->|].
  - rewrite lookup_alter_eq in Hl. destruct (jobs t !! i) as [r0|] eqn:E; [|done]. injection Hl as <-.
    rewrite Hf. by apply Ht.
  - rewrite lookup_alter_ne in Hl by done. by apply Ht.
Qed.
(** Emitting, releasing and trimming as seen by the store and the heap. *)
Lemma emit_store r m : m_store (emit r m) = m_store m /\ m_heap (emit r m) = m_heap m /\ m_maxHistory (emit r m) = m_maxHistory m.
Proof. unfold emit. by destruct (m_notify m). Qed.
Lemma call_cancel_store id m :
  m_store (call_cancel id m) = m_store m /\ m_heap (call_cancel id m) = m_heap m /\
  m_maxHistory (call_cancel id m) = m_maxHistory m /\ m_notify (call_cancel id m) = m_notify m.
Proof. unfold call_cancel. by destruct (m_live m !! id) as [[]|]. Qed.

Lemma lazy_progress row mem p t u p' t' u' :
  with_progress p t u row = mem -> with_progress p' t' u' row = with_progress p' t' u' mem.
Proof. by intros <-. Qed.
Lemma lazy_temp row mem p t u path :
  with_progress p t u row = mem -> with_progress p t u (with_temp_path path row) = with_temp_path path mem.
Proof. by intros <-. Qed.
(** Writing a record of the job in memory through [UpdateProgress] and then
    [UpdateState] makes the row the record. *)
Lemma sync_row row mem mem' st err now :
  lazy_sync row mem -> mem' = with_progress (jr_Progress mem') (jr_Total mem') now (with_state st err now mem) ->
  (0 < jr_Total mem' \/ jr_Total mem' = jr_Total mem) ->
  with_state st err now (with_progress (jr_Progress mem') (if 0 <? jr_Total mem' then jr_Total mem' else jr_Total row) now row) = mem'.
Proof.
  intros [Heq Ht] Hm' Ht'.
  transitivity (with_progress (jr_Progress mem') (jr_Total mem') now (with_state st err now mem)); [|done].
  rewrite <- Heq. unfold with_state, with_progress; simpl. f_equal.
  destruct (Z.ltb_spec 0 (jr_Total mem')); [done|]. destruct Ht, Ht'; lia.
Qed.

Section transfers.
Context `{MapRange}.

(** What the transfer goroutine does with its job before it ends. *)
Inductive job_op :=
| JProgress (done_ total : Z) (now : time) | JTempPath (path : string) | JRunning (st : State) (err : string) (now : time).
Definition job_op_ok (op : job_op) : Prop :=
  match op with JRunning st _ _ => isTerminalState st = false | _ => True end.
Definition job_exec (ref : nat) (m : Manager) (op : job_op) : Manager :=
  match op with
  | JProgress d t now => SetProgress ref d t now m
  | JTempPath p => SetTempPath ref p m
  | JRunning st err now => SetState ref st err now m
  end.

(** The record [SetState] leaves in memory. *)
Definition state_record (st : State) (err : string) (now : time) (r : JobRecord) : JobRecord :=
  let r := with_state st err now r in
  if bool_decide (st = StateCompleted) && (0 <? jr_Total r) && (jr_Progress r <? jr_Total r)
  then with_progress (jr_Total r) (jr_Total r) now r else r.
Lemma state_record_eq st err now r :
  state_record st err now r =
    with_progress (jr_Progress (state_record st err now r)) (jr_Total (state_record st err now r)) now (with_state st err now r) /\
  jr_Total (state_record st err now r) = jr_Total r /\ jr_ID (state_record st err now r) = jr_ID r /\
  jr_State (state_record st err now r) = st /\ jr_UserID (state_record st err now r) = jr_UserID r.
Proof. unfold state_record. by destruct (_ && _). Qed.

(** [SetState] up to the trimming. *)
Lemma SetState_run m ref j st err now :
  healthy (m_store m) -> m_heap m !! ref = Some j -> isTerminalState (jr_State (j_rec j)) = false ->
  let mem' := state_record st err now (j_rec j) in
  let t := tables (m_store m) in
  let write r := with_state st err now
    (with_progress (jr_Progress mem') (if 0 <? jr_Total mem' then jr_Total mem' else jr_Total r) now r) in
  exists m1, m_store m1 = connect (with_jobs t (alter write (jr_ID (j_rec j)) (jobs t))) /\
    j_rec <$> m_heap m1 !! ref = Some mem' /\ m_maxHistory m1 = m_maxHistory m /\
    SetState ref st err now m =
      if isTerminalState st then trimHistory (jr_UserID (j_rec j)) (releaseLive (jr_ID (j_rec j)) m1) else m1.
Proof.
  intros Hh Ej Hst. destruct (state_record_eq st err now (j_rec j)) as (Heq & Htot & Hid & Hs & Hu).
  set (mem' := state_record st err now (j_rec j)) in *. intros mem1 t write.
  set (t2 := with_jobs t (alter write (jr_ID (j_rec j)) (jobs t))).
  set (m2 := emit mem' (with_store (set_job ref (mkJob mem' now) m) (connect t2))).
  exists m2. destruct (emit_store mem' (with_store (set_job ref (mkJob mem' now) m) (connect t2))) as (E1 & E2 & E3).
  fold m2 in E1, E2, E3. rewrite E1, E2, E3. split; [done|]. split; [simpl; by rewrite lookup_insert_eq|].
  split; [done|].
  unfold SetState. rewrite Ej, Hst. fold (state_record st err now (j_rec j)). fold mem'. cbv zeta.
  change (m_store (set_job ref (mkJob mem' now) m)) with (m_store m). rewrite (proj1 Hh).
  unfold try_store, run_store. change (m_store (set_job ref (mkJob mem' now) m)) with (m_store m).
  rewrite (healthy_connect _ Hh), Hu, Hid. fold t.
  assert (Ht2 : with_jobs t (alter (with_state st err now) (jr_ID (j_rec j))
      (alter (fun r => with_progress (jr_Progress mem') (if 0 <? jr_Total mem' then jr_Total mem' else jr_Total r) now r)
         (jr_ID (j_rec j)) (jobs t))) = t2) by (unfold t2; by rewrite alter_alter_eq).
  unfold m2. rewrite <- Ht2. reflexivity.
Qed.
Lemma write_keyed f id t : (forall r, jr_ID (f r) = jr_ID r) -> keyed t -> keyed (tables (connect (with_jobs t (alter f id (jobs t))))).
Proof. apply alter_keyed. Qed.

(** The goroutine's calls keep the job tracked. *)
Definition same_job (a b : JobRecord) : Prop := jr_ID a = jr_ID b /\ jr_UserID a = jr_UserID b.
Lemma job_exec_tracked m ref mem op :
  tracked m ref mem -> isTerminalState (jr_State mem) = false -> job_op_ok op ->
  exists mem', tracked (job_exec ref m op) ref mem' /\ same_job mem' mem /\ isTerminalState (jr_State mem') = false /\
    m_maxHistory (job_exec ref m op) = m_maxHistory m /\
    forall id, id <> jr_ID mem -> jobs (tables (m_store (job_exec ref m op))) !! id = jobs (tables (m_store m)) !! id.
Proof.
  intros [Hh Hk Hmax Hmem (row & Hrow & Hsync)] Hst Hop.
  destruct (m_heap m !! ref) as [j|] eqn:Ej; [|done]. injection Hmem as <-.
  pose proof Hsync as [Heq Htot]. destruct op as [d tot now|path|st err now]; simpl.
  - unfold SetProgress. rewrite Ej.
    set (r := with_progress d (if 0 <? tot then tot else jr_Total (j_rec j)) now (j_rec j)).
    set (j' := mkJob r _).
    assert (Hsync' : lazy_sync row r).
    { split; [exact (lazy_progress _ _ _ _ _ _ _ _ Heq)|]. simpl. destruct (Z.ltb_spec 0 tot); [by left|]. exact Htot. }
    destruct (_ <=? _) eqn:Ep; cbn [andb].
    2: { destruct (emit_store r (set_job ref j' m)) as (E1 & E2 & E3). exists r. split; [|rewrite E1, E3; done].
         split; rewrite ?E1, ?E2, ?E3; try done; [simpl; by rewrite lookup_insert_eq|]. by exists row. }
    change (m_store (set_job ref j' m)) with (m_store m). rewrite (proj1 Hh).
    unfold try_store, run_store. change (m_store (set_job ref j' m)) with (m_store m). rewrite (healthy_connect _ Hh).
    set (f := fun r0 => with_progress d (if 0 <? jr_Total r then jr_Total r else jr_Total r0) now r0).
    set (t := tables (m_store m)) in *.
    change (UpdateProgress (jr_ID r) d (jr_Total r) now (connect t)) with (connect (with_jobs t (alter f (jr_ID (j_rec j)) (jobs t))), @Ok ft_err unit tt).
    set (m1 := with_store (set_job ref j' m) (connect (with_jobs t (alter f (jr_ID (j_rec j)) (jobs t))))).
    match goal with |- context [emit r ?x] => change x with m1 end. destruct (emit_store r m1) as (E1 & E2 & E3). exists r.
    split; [|rewrite E1, E3; split; [done|split; [done|split; [done|]]]; intros id Hne; simpl; by rewrite lookup_alter_ne].
    split; rewrite ?E1, ?E2, ?E3; [done|by apply write_keyed|done|simpl; by rewrite lookup_insert_eq|].
    exists (f row). split; [simpl; by rewrite lookup_alter_eq, Hrow|].
    destruct Hsync' as [Heq' Htot']. split; [exact (lazy_progress _ _ _ _ _ _ _ _ Heq')|]. change (0 < jr_Total r \/ (if 0 <? jr_Total r then jr_Total r else jr_Total row) = jr_Total r). destruct (Z.ltb_spec 0 (jr_Total r)); [by left|].
    right. destruct Htot' as [?|Htot']; [lia|]. exact Htot'.
  - unfold SetTempPath. rewrite Ej.
    change (m_store (set_job ref _ m)) with (m_store m). rewrite (proj1 Hh).
    unfold try_store, run_store. change (m_store (set_job ref _ m)) with (m_store m). rewrite (healthy_connect _ Hh).
    exists (with_temp_path path (j_rec j)). split; [|split; [done|split; [done|split; [done|]]]; intros id Hne; simpl; by rewrite lookup_alter_ne].
    split; [done|by apply write_keyed|done|simpl; by rewrite lookup_insert_eq|].
    exists (with_temp_path path row). split; [simpl; by rewrite lookup_alter_eq, Hrow|]. split; [exact (lazy_temp _ _ _ _ _ path Heq)|done].
  - destruct (SetState_run m ref j st err now Hh Ej Hst) as (m1 & E1 & E2 & E3 & ->). simpl in Hop. rewrite Hop.
    destruct (state_record_eq st err now (j_rec j)) as (Heq' & Htot' & Hid & Hs & Hu).
    set (mem' := state_record st err now (j_rec j)) in *. exists mem'.
    split; [|rewrite E1, E3, Hs; split; [by split|split; [done|split; [done|]]]; intros id Hne; simpl; by rewrite lookup_alter_ne].
    split; rewrite ?E1, ?E3; [done|by apply write_keyed|done|done|].
    exists mem'. split; [|split; [by destruct mem'|by right]]. rewrite Hid. simpl. rewrite lookup_alter_eq, Hrow. simpl. f_equal.
    apply (sync_row row (j_rec j)); [done|done|by right].
Qed.
Lemma job_run_tracked m ref mem ops :
  tracked m ref mem -> isTerminalState (jr_State mem) = false -> Forall job_op_ok ops ->
  exists mem', tracked (foldl (job_exec ref) m ops) ref mem' /\ same_job mem' mem /\ isTerminalState (jr_State mem') = false /\
    m_maxHistory (foldl (job_exec ref) m ops) = m_maxHistory m /\
    forall id, id <> jr_ID mem -> jobs (tables (m_store (foldl (job_exec ref) m ops))) !! id = jobs (tables (m_store m)) !! id.
Proof.
  intros Ht Hs Hops. revert m mem Ht Hs. induction Hops as [|op ops Hop Hops IH]; intros m mem Ht Hs; [by exists mem|].
  destruct (job_exec_tracked m ref mem op Ht Hs Hop) as (mem1 & Ht1 & [Hi Hu] & Hs1 & Hm1 & Ho1).
  destruct (IH _ _ Ht1 Hs1) as (mem2 & Ht2 & [Hi2 Hu2] & Hs2 & Hm2 & Ho2). exists mem2. simpl.
  split; [done|]. split; [split; congruence|]. split; [done|]. split; [congruence|].
  intros id Hne. rewrite Ho2 by congruence. by apply Ho1.
Qed.
End transfers.

Section properties.
Context `{MapRange}.

(** Trimming as seen by the store. *)
Lemma trimHistory_sub u m id r :
  healthy (m_store m) -> keyed (tables (m_store m)) -> 0 < m_maxHistory m ->
  jobs (tables (m_store (trimHistory u m))) !! id = Some r -> jobs (tables (m_store m)) !! id = Some r.
Proof.
  intros Hh Hk Hm. unfold trimHistory, try_store, run_store. rewrite (proj1 Hh).
  unfold TrimUserHistory, db_bind, db_configured. rewrite (proj1 Hh), (proj2 (Z.leb_gt _ _)) by done.
  unfold db_exec, db_call. rewrite (proj2 Hh). simpl. by intros [Hl _]%map_lookup_filter_Some.
Qed.
Lemma trimHistory_room u m :
  healthy (m_store m) -> keyed (tables (m_store m)) -> 0 < m_maxHistory m ->
  Z.of_nat (length (finished u (tables (m_store m)))) <= m_maxHistory m ->
  m_store (trimHistory u m) = m_store m /\ m_heap (trimHistory u m) = m_heap m.
Proof.
  intros Hh Hk Hm Hroom. unfold trimHistory, try_store, run_store. rewrite (proj1 Hh).
  destruct (trim_room (m_store m) u (m_maxHistory m) Hh Hk Hm Hroom) as [n ->]. done.
Qed.
Lemma trimHistory_heap u m : m_heap (trimHistory u m) = m_heap m.
Proof. unfold trimHistory, try_store, run_store. destruct (configured _); [|done]. by destruct (TrimUserHistory _ _ _). Qed.

Lemma trimHistory_cancelled u m : m_cancelled (trimHistory u m) = m_cancelled m.
Proof. unfold trimHistory, try_store, run_store. destruct (configured _); [|done]. by destruct (TrimUserHistory _ _ _). Qed.
Lemma trimHistory_max u m : m_maxHistory (trimHistory u m) = m_maxHistory m.
Proof. unfold trimHistory, try_store, run_store. destruct (configured _); [|done]. by destruct (TrimUserHistory _ _ _). Qed.
Lemma emit_cancelled r m : m_cancelled (emit r m) = m_cancelled m.
Proof. unfold emit. by destruct (m_notify m). Qed.

(** Changing one row adds at most one finished transfer. *)
Lemma finished_one_more u t t' id0 :
  keyed t -> keyed t' -> (forall id, id <> id0 -> jobs t' !! id = jobs t !! id) ->
  (length (finished u t') <= S (length (finished u t)))%nat.
Proof.
  intros Hk Hk' Ho. destruct (jobs t' !! id0) as [r0|] eqn:E0.
  - apply (submseteq_length _ (r0 :: finished u t)), NoDup_submseteq; [by apply select_NoDup|].
    intros r [[id Hl] HP]%elem_of_select. apply elem_of_cons. destruct (decide (id = id0)) as [->|Hne]; [left; congruence|].
    right. apply elem_of_select. rewrite Ho in Hl by done. eauto.
  - apply le_S, submseteq_length, NoDup_submseteq; [by apply select_NoDup|].
    intros r [[id Hl] HP]%elem_of_select. apply elem_of_select. destruct (decide (id = id0)) as [->|Hne]; [congruence|].
    rewrite Ho in Hl by done. eauto.
Qed.

(** What the history says about a finished transfer is what happened: after
    any progress reports, renamings of the staging file and intermediate states,
    the final [SetState] leaves exactly the job's last record in the database,
    whatever the throttling had left out - unless the retention of the user's
    history removed the row, which it does not while there is room. *)
Theorem final_state_persisted m ref mem ops st err now :
  tracked m ref mem -> isTerminalState (jr_State mem) = false -> Forall job_op_ok ops -> isTerminalState st = true ->
  let m' := SetState ref st err now (foldl (job_exec ref) m ops) in
  exists final, j_rec <$> m_heap m' !! ref = Some final /\
    jr_State final = st /\ jr_Error final = err /\ jr_UpdatedAt final = now /\
    (st = StateCompleted -> 0 < jr_Total final -> jr_Total final <= jr_Progress final) /\
    (forall row, jobs (tables (m_store m')) !! jr_ID mem = Some row -> row = final) /\
    (Z.of_nat (length (finished (jr_UserID mem) (tables (m_store m)))) < m_maxHistory m ->
     jobs (tables (m_store m')) !! jr_ID mem = Some final).
Proof.
  intros Ht Hs Hops Hst m'.
  destruct (job_run_tracked m ref mem ops Ht Hs Hops) as (mem1 & [Hh1 Hk1 Hm1 Hmem1 (row & Hrow & Hsync)] & [Hi Hu] & Hs1 & Hmax & Ho).
  set (m1 := foldl (job_exec ref) m ops) in *.
  destruct (m_heap m1 !! ref) as [j|] eqn:Ej; [|done]. injection Hmem1 as <-.
  destruct (SetState_run m1 ref j st err now Hh1 Ej Hs1) as (m2 & E1 & E2 & E3 & Hrun).
  destruct (state_record_eq st err now (j_rec j)) as (Heq & Htot & Hid & Hstate & _).
  set (fin := state_record st err now (j_rec j)) in *.
  unfold m'. rewrite Hrun, Hst, Hu, Hi. set (m3 := releaseLive (jr_ID mem) m2).
  assert (Hh3 : healthy (m_store m3)) by (change (m_store m3) with (m_store m2); rewrite E1; done).
  assert (Hk3 : keyed (tables (m_store m3))) by (change (m_store m3) with (m_store m2); rewrite E1; by apply write_keyed).
  assert (Hm3 : 0 < m_maxHistory m3) by (change (m_maxHistory m3) with (m_maxHistory m2); lia).
  assert (Hrow3 : jobs (tables (m_store m3)) !! jr_ID mem = Some fin).
  { change (m_store m3) with (m_store m2). rewrite E1, Hi. simpl. rewrite <- Hi, lookup_alter_eq, Hrow. simpl. f_equal.
    apply (sync_row row (j_rec j)); [done|done|by right]. }
  exists fin. split; [rewrite trimHistory_heap; exact E2|]. split; [done|].
  split; [unfold fin, state_record; by destruct (_ && _)|]. split; [unfold fin, state_record; by destruct (_ && _)|].
  split; [|split].
  - intros -> Hpos. unfold fin, state_record in *. simpl in *. destruct (_ && _) eqn:Eb; simpl in *; lia.
  - intros r Hr. apply trimHistory_sub in Hr; [congruence|done..].
  - intros Hroom. destruct (trimHistory_room (jr_UserID mem) m3) as [-> _]; [done..| |exact Hrow3].
    pose proof (finished_one_more (jr_UserID mem) (tables (m_store m)) (tables (m_store m3)) (jr_ID mem) (tk_keyed _ _ _ Ht) Hk3) as Hl.
    change (m_maxHistory m3) with (m_maxHistory m2). rewrite E3, Hmax.
    enough (length (finished (jr_UserID mem) (tables (m_store m3))) <= S (length (finished (jr_UserID mem) (tables (m_store m)))))%nat by lia.
    apply Hl. intros id Hne. change (m_store m3) with (m_store m2). rewrite E1. simpl.
    rewrite lookup_alter_ne by congruence. by apply Ho.
Qed.

(** What [Cancel] leaves of a running job: the row is cancelled, the object that
    the transfer goroutine holds is as it was. *)
Definition cancelled_tables (t : ft_tables) (id : string) (now : time) : ft_tables :=
  with_jobs t (alter (with_state StateCancelled "" now) id (jobs t)).
Lemma Cancel_run m ref mem now :
  tracked m ref mem -> isTerminalState (jr_State mem) = false ->
  Z.of_nat (length (finished (jr_UserID mem) (tables (m_store m)))) < m_maxHistory m ->
  exists m2 j row, Cancel (jr_ID mem) (jr_UserID mem) now m = (m2, Ok tt) /\
    m_heap m !! ref = Some j /\ mem = j_rec j /\ jobs (tables (m_store m)) !! jr_ID mem = Some row /\
    m_store m2 = connect (cancelled_tables (tables (m_store m)) (jr_ID mem) now) /\
    m_heap m2 !! ref = Some j /\ m_maxHistory m2 = m_maxHistory m /\
    (m_live m !! jr_ID mem = Some true -> m_cancelled m2 = m_cancelled m ++ [jr_ID mem]).
Proof.
  intros [Hh Hk Hmax Hmem (row & Hrow & Hsync)] Hs Hroom.
  destruct (m_heap m !! ref) as [j|] eqn:Ej; [|done]. injection Hmem as <-.
  set (id := jr_ID (j_rec j)) in *. set (u := jr_UserID (j_rec j)) in *. set (t := tables (m_store m)) in *.
  assert (Hfields : jr_UserID row = u /\ jr_State row = jr_State (j_rec j)) by (destruct Hsync as [Heq _]; unfold u; by rewrite <- Heq).
  destruct Hfields as [Hu Hstate]. set (t1 := cancelled_tables t id now).
  assert (Hk1 : keyed t1) by by apply alter_keyed.
  set (m0 := call_cancel id (with_store m (connect t))).
  destruct (call_cancel_store id (with_store m (connect t))) as (C1 & C2 & C3 & _). fold m0 in C1, C2, C3.
  set (rec' := with_state StateCancelled (jr_Error row) now row).
  destruct (emit_store rec' (with_store m0 (connect t1))) as (E1 & E2 & E3).
  set (m1 := releaseLive id (emit rec' (with_store m0 (connect t1)))).
  assert (Hcancel : Cancel id u now m = (trimHistory u m1, Ok tt)).
  { unfold Cancel. rewrite (proj1 Hh). cbn [negb]. unfold run_store. rewrite (healthy_connect _ Hh). fold t.
    unfold ft_Get, db_bind, db_configured. cbn [configured connect]. rewrite ft_query_run by done.
    cbn [tables connect]. rewrite Hrow. cbn [db_ret]. rewrite decide_False by (intros Hne; by apply Hne). rewrite Hstate, Hs.
    fold m0. rewrite C1. reflexivity. }
  assert (S1 : m_store m1 = connect t1) by exact E1.
  assert (M1 : m_maxHistory m1 = m_maxHistory m) by (change (m_maxHistory m1) with (m_maxHistory (emit rec' (with_store m0 (connect t1)))); rewrite E3; exact C3).
  assert (Hlen : (length (finished u t1) <= S (length (finished u t)))%nat).
  { apply (finished_one_more u t t1 id); [done|done|]. intros i Hne. simpl. by rewrite lookup_alter_ne. }
  destruct (trimHistory_room u m1) as [S2 _]; [by rewrite S1|by rewrite S1|by rewrite M1|rewrite S1, M1; cbn [tables connect]; lia|].
  exists (trimHistory u m1), j, row. split_and!; try done; [congruence|..].
  - rewrite trimHistory_heap. change (m_heap m1) with (m_heap (emit rec' (with_store m0 (connect t1)))).
    rewrite E2. change (m_heap (with_store m0 (connect t1))) with (m_heap m0). by rewrite C2.
  - by rewrite trimHistory_max.
  - intros Hl. rewrite trimHistory_cancelled. unfold m1. cbn [releaseLive with_live m_cancelled].
    rewrite emit_cancelled. cbn [with_store m_cancelled]. unfold m0, call_cancel. cbn [with_store m_live]. by rewrite Hl.
Qed.

(** A cancelled transfer does not stay cancelled: [Cancel] marks the row
    and a copy of the job, so the guard of [SetState] - which looks at the
    object the transfer goroutine holds - does not see it, and when the
    goroutine finishes its row becomes completed (or failed) again. *)
Theorem cancelled_job_flips m ref mem user now st err now2 :
  tracked m ref mem -> isTerminalState (jr_State mem) = false -> jr_UserID mem = user -> isTerminalState st = true ->
  Z.of_nat (length (finished user (tables (m_store m)))) < m_maxHistory m ->
  let (m1, r) := Cancel (jr_ID mem) user now m in
  r = Ok tt /\ jr_State <$> jobs (tables (m_store m1)) !! jr_ID mem = Some StateCancelled /\
  (m_live m !! jr_ID mem = Some true -> m_cancelled m1 = m_cancelled m ++ [jr_ID mem]) /\
  jr_State <$> jobs (tables (m_store (SetState ref st err now2 m1))) !! jr_ID mem = Some st.
Proof.
  intros Htr Hs <- Hst Hroom. destruct (Cancel_run m ref mem now Htr Hs Hroom) as (m2 & j & row & Hcancel & Ej & -> & Hrow & S2 & Hheap2 & Hmax2 & Hlive).
  destruct Htr as [_ Hk Hmax _ _]. rewrite Hcancel. split; [done|].
  set (id := jr_ID (j_rec j)) in *. set (u := jr_UserID (j_rec j)) in *. set (t := tables (m_store m)) in *.
  set (t1 := cancelled_tables t id now) in *.
  assert (Hrow1 : jobs t1 !! id = Some (with_state StateCancelled "" now row)) by (simpl; by rewrite lookup_alter_eq, Hrow).
  assert (Hk1 : keyed t1) by by apply alter_keyed.
  split; [rewrite S2; cbn [tables connect]; by rewrite Hrow1|]. split; [exact Hlive|].
  destruct (SetState_run m2 ref j st err now2) as (m3 & F1 & F2 & F3 & ->); [by rewrite S2|done|done|].
  rewrite Hst. rewrite S2 in F1. cbn [tables connect] in F1. fold id u. fold id in F1.
  set (write := fun r => with_state st err now2 _) in F1.
  change (m_store m3) with (m_store (releaseLive id m3)) in F1. change (m_maxHistory m3) with (m_maxHistory (releaseLive id m3)) in F3.
  destruct (trimHistory_room u (releaseLive id m3)) as [-> _].
  - by rewrite F1.
  - rewrite F1. by apply write_keyed.
  - lia.
  - rewrite F1, F3, Hmax2. cbn [tables connect].
    enough (length (finished u (with_jobs t1 (alter write id (jobs t1)))) <= S (length (finished u t)))%nat by lia.
    apply (finished_one_more u t _ id); [done|by apply alter_keyed|]. intros i Hne. simpl. by rewrite !lookup_alter_ne.
  - rewrite F1. cbn [tables connect with_jobs jobs]. rewrite lookup_alter_eq, Hrow1. done.
Qed.
End properties.

(** ** Retention, creation and recovery *)

(** Retention keeps what it should: trimming the history of a user leaves
    exactly the newest [maxHistory] finished transfers of that user, in the same
    order, and every unfinished transfer and every other user's as it was. *)
Theorem trim_keeps_newest `{MapRange} u m :
  healthy (m_store m) -> keyed (tables (m_store m)) -> 0 < m_maxHistory m ->
  let t' := tables (m_store (trimHistory u m)) in
  finished u t' = take (Z.to_nat (m_maxHistory m)) (finished u (tables (m_store m))) /\
  forall id r, jr_UserID r <> u \/ isTerminalState (jr_State r) = false ->
    jobs t' !! id = Some r <-> jobs (tables (m_store m)) !! id = Some r.
Proof.
  intros Hh Hk Hm. unfold trimHistory, try_store, run_store. rewrite (proj1 Hh).
  destruct (trim_spec (m_store m) u (m_maxHistory m) Hh Hk Hm) as (t' & n & -> & _ & Hfin & Hrest). done.
Qed.

(** A job is tracked from its creation on. *)
Lemma create_tracked `{MapRange} opts cancel id now m m' ref :
  healthy (m_store m) -> keyed (tables (m_store m)) -> 0 < m_maxHistory m ->
  ft_Create opts cancel (Ok id) now m = (m', Ok ref) ->
  tracked m' ref (newJob opts id now) /\ m_live m' !! id = Some cancel /\ m_maxHistory m' = m_maxHistory m /\
  jobs (tables (m_store m')) = <[id := newJob opts id now]> (jobs (tables (m_store m))).
Proof.
  intros Hh Hk Hm. unfold ft_Create. rewrite (proj1 Hh). unfold run_store. rewrite (healthy_connect _ Hh).
  set (t := tables (m_store m)) in *. unfold ft_Insert, db_bind, db_configured, db_exec, db_call. simpl.
  destruct (jobs t !! id) eqn:El; [done|]. destruct (decide _); [|done]. simpl. intros [= <- <-].
  set (j := newJob opts id now). set (m1 := mkFtManager _ _ _ _ _ _ _ _). destruct (emit_store j m1) as (E1 & E2 & E3).
  assert (E4 : m_live (emit j m1) = m_live m1) by (unfold emit; by destruct (m_notify m1)).
  rewrite E1, E3, E4. split; [|split; [simpl; by rewrite lookup_insert_eq|done]].
  split; rewrite ?E1, ?E2, ?E3; [done| |done|simpl; by rewrite lookup_insert_eq|].
  - intros i r Hl. change (<[id := j]> (jobs t) !! i = Some r) in Hl.
    apply lookup_insert_Some in Hl as [[<- <-]|[_ Hl]]; [done|by apply Hk].
  - exists j. split; [exact (lookup_insert_eq (jobs t) id j)|]. split; [by destruct j|by right].
Qed.

(** After [ReapOrphans] no job of an earlier process is left running. *)
Lemma reap_orphans message now m m' n :
  ReapOrphans message now m = (m', Ok n) -> configured (m_store m) = true ->
  forall id r', jobs (tables (m_store m')) !! id = Some r' ->
  exists r, jobs (tables (m_store m)) !! id = Some r /\
    r' = if isTerminalState (jr_State r) then r else with_state StateFailed message now r.
Proof.
  unfold ReapOrphans, run_store. intros Hr Hc. rewrite Hc in Hr. unfold MarkOrphansFailed, db_bind, db_configured in Hr. rewrite Hc in Hr.
  unfold db_exec, db_call in Hr. intros id r'.
  destruct (faults (m_store m)) as [|[msg|] fs]; simpl in Hr; simplify_eq; simpl; rewrite lookup_fmap;
    destruct (jobs (tables (m_store m)) !! id) as [r|]; simpl; try done; intros [= <-]; exists r; (split; [done|]);
    by destruct (isTerminalState (jr_State r)).
Qed.

(** ** Witnesses *)
Definition demo_tables : ft_tables := mkFtTables {["u1"%string]} ∅.
Definition demo_opts : CreateOpts :=
  mkCreateOpts "u1" "r1" "Router" BackendRemote DirectionUpload "/tmp/x" "x" None 100.
Definition demo_created : Manager := (ft_Create demo_opts true (Ok "job1"%string) 1000 (NewManager (connect demo_tables))).1.
Definition demo_job : JobRecord := newJob demo_opts "job1" 1000.
Lemma demo_tracked : tracked demo_created 0 demo_job.
Proof.
  apply (create_tracked demo_opts true "job1" 1000 (NewManager (connect demo_tables)) demo_created 0); try done.
Qed.
Lemma final_state_persisted_witness :
  jobs (tables (m_store (SetState 0 StateCompleted "" (10 * second)
    (foldl (job_exec 0) demo_created [JProgress 10 100 1001; JTempPath "/tmp/stage"; JProgress 60 100 1002])))) !! "job1"%string
  <> None.
Proof.
  destruct (final_state_persisted demo_created 0 demo_job [JProgress 10 100 1001; JTempPath "/tmp/stage"; JProgress 60 100 1002]
    StateCompleted "" (10 * second)) as (final & _ & _ & _ & _ & _ & _ & Hrow).
  - exact demo_tracked.
  - reflexivity.
  - repeat constructor.
  - reflexivity.
  - change (jr_ID demo_job) with "job1"%string in Hrow. rewrite Hrow; [discriminate|]. vm_compute. reflexivity.
Defined.
Lemma cancelled_job_flips_witness :
  jr_State <$> jobs (tables (m_store (SetState 0 StateCompleted "" 3000 (Cancel "job1" "u1" 2000 demo_created).1))) !! "job1"%string
  = Some StateCompleted.
Proof.
  pose proof (cancelled_job_flips demo_created 0 demo_job "u1" 2000 StateCompleted "" 3000) as Hf.
  change (jr_ID demo_job) with "job1"%string in Hf.
  destruct (Cancel "job1" "u1" 2000 demo_created) as [m1 r]. apply Hf.
  - exact demo_tracked.
  - reflexivity.
  - reflexivity.
  - reflexivity.
  - vm_compute. reflexivity.
Defined.
Definition demo_finished : ft_tables :=
  let r id at_ := with_state StateCompleted "" at_ (newJob demo_opts id 1) in
  mkFtTables {["u1"%string]} {["a"%string := r "a"%string 5; "b"%string := r "b"%string 5; "c"%string := r "c"%string 7]}.
Lemma demo_finished_keyed : keyed demo_finished.
Proof.
  intros id r Hl. simpl in Hl. rewrite !lookup_insert_Some in Hl.
  destruct Hl as [[<- <-]|[_ [[<- <-]|[_ Hl]]]]; [reflexivity..|]. apply lookup_singleton_Some in Hl as [<- <-]. reflexivity.
Qed.
Lemma trim_keeps_newest_witness :
  jr_ID <$> finished "u1" (tables (m_store (trimHistory "u1" (SetMaxHistoryPerUser 2 (NewManager (connect demo_finished)))))) = ["c"; "b"]%string.
Proof.
  destruct (trim_keeps_newest "u1" (SetMaxHistoryPerUser 2 (NewManager (connect demo_finished)))) as [Hf _].
  - split; reflexivity.
  - exact demo_finished_keyed.
  - reflexivity.
  - rewrite Hf. vm_compute. reflexivity.
Defined.
