(* ===== verification/OidcLogin.v ===== *)
(** Signing in through an identity provider (src/internal/httpapi/auth_oidc.go):
    the configuration, the pending states, the two requests of the flow, the
    local account of an identity, and the groups and role that follow the token.

    The provider is a parameter: its discovery, the exchange of the code and the
    verification of the token answer what the caller is given. What the code
    relies on JSON for is written out: the fields of [oidcClaims] and the types
    of the raw claims. [url.Parse] and random tokens are parameters; audit
    records are left out. Accounts and access groups live in one database: each
    store sees the tables of the other through [login_view] and [access_view].
    [NewApp] sets the stores, so the tests for a missing one are left out. *)
From S2P Require Import Prelude GoText Sqlite Http AccessValidate AccessDB Secret LoginLimiter AuthPolicy AuthStore AuthTokens AuthTotp AuthInvariant AuthLogin AuthLoginProps Middleware AuthAdmin AuthAdminProps TargetsBulk.
From S2P Require AccessGroups.
Local Open Scope Z_scope.

(** ** Text *)
(** [strings.Fields]: maximal runs without space; the fuel is the number of bytes. *)
Fixpoint fields_fuel (n : nat) (cur l : list Z) : list (list Z) :=
  match n, l with
  | S n, _ :: _ =>
      let (r, w) := decode_rune l in
      if IsSpace r then (if bool_decide (cur = []) then [] else [cur]) ++ fields_fuel n [] (drop w l)
      else fields_fuel n (cur ++ take w l) (drop w l)
  | _, _ => if bool_decide (cur = []) then [] else [cur]
  end.
Definition Fields (l : list Z) : list (list Z) := fields_fuel (length l) [] l.
(** [strings.Cut(pair, "=")] *)
Definition cut_eq (l : list Z) : option (list Z * list Z) :=
  i ← index_byte l 61; Some (take i l, drop (S i) l).
Definition list_sep (c : Z) : bool := (c =? 44) || (c =? 59) || (c =? 10).

(** ** Configuration *)
Record oidcConfig := mkOidcConfig {
  oc_Issuer : string; oc_DiscoveryURL : string; oc_ClientID : string; oc_ClientSecret : string; oc_RedirectURL : string;
  oc_Scopes : list string; oc_UsernameClaim : string; oc_AutoCreate : bool; oc_LinkExisting : bool; oc_DisplayName : string;
  oc_GroupsClaim : string; oc_GroupMap : gmap string (list string); oc_AdminGroups : gset string
}.
Definition syncsGroups (c : oidcConfig) : bool := bool_decide (oc_GroupMap c <> ∅) || bool_decide (oc_AdminGroups c <> ∅).
Definition add_pair (out : gmap string (list string)) (pair : list Z) : gmap string (list string) :=
  match cut_eq pair with
  | None => out
  | Some (k, v) =>
      let k := str_of (TrimSpace k) in let v := str_of (TrimSpace v) in
      if bool_decide (k = ""%string) || bool_decide (v = ""%string) then out
      else <[k := default [] (out !! k) ++ [v]]> out
  end.
Definition parseOIDCGroupMap (raw : string) : gmap string (list string) := foldl add_pair ∅ (FieldsFunc list_sep (bs raw)).
Definition parseOIDCList (raw : string) : gset string :=
  list_to_set (filter (fun v => v <> ""%string) ((fun w => str_of (TrimSpace w)) <$> FieldsFunc list_sep (bs raw))).
Definition or_default (s dflt : string) : string := if bool_decide (s = ""%string) then dflt else s.
Definition ScopeOpenID : string := "openid".
Definition with_openid (scopes : list string) : list string :=
  let scopes := if bool_decide (scopes = []) then [ScopeOpenID; "profile"%string; "email"%string] else scopes in
  if bool_decide (ScopeOpenID ∈ scopes) then scopes else ScopeOpenID :: scopes.
Definition comma_to_space (l : list Z) : list Z := (fun c => if c =? 44 then 32 else c) <$> l.
Section config.
Context `{UnicodeTables} (Getenv : string -> string).
Definition env_on (name : string) : bool := bool_decide (ToLower_s (TrimSpace_s (Getenv name)) ∈ ["1"; "true"; "yes"]%string).
Definition oidcConfigFromEnv : option oidcConfig :=
  let env n := TrimSpace_s (Getenv n) in
  let issuer := env "VANTYX_OIDC_ISSUER"%string in
  let clientID := env "VANTYX_OIDC_CLIENT_ID"%string in
  if bool_decide (issuer = ""%string) || bool_decide (clientID = ""%string) then None else
  Some (mkOidcConfig issuer (str_of (trim_right_byte (bs (env "VANTYX_OIDC_DISCOVERY_URL"%string)) 47)) clientID
    (env "VANTYX_OIDC_CLIENT_SECRET"%string) (env "VANTYX_OIDC_REDIRECT_URL"%string)
    (with_openid (str_of <$> Fields (comma_to_space (bs (Getenv "VANTYX_OIDC_SCOPES"%string)))))
    (or_default (env "VANTYX_OIDC_USERNAME_CLAIM"%string) "preferred_username")
    (env_on "VANTYX_OIDC_AUTO_CREATE_USERS") (env_on "VANTYX_OIDC_LINK_EXISTING_USERS")
    (or_default (env "VANTYX_OIDC_DISPLAY_NAME"%string) "SSO") (or_default (env "VANTYX_OIDC_GROUPS_CLAIM"%string) "groups")
    (parseOIDCGroupMap (Getenv "VANTYX_OIDC_GROUP_MAP"%string)) (parseOIDCList (Getenv "VANTYX_OIDC_ADMIN_GROUPS"%string))).
End config.

(** ** Claims *)
(** Decoded JSON. The pairs of an object are in the order of the text: in a Go
    map the last one with a key stays. *)
Inductive jvalue := JNull | JBool (b : bool) | JNumber (text : string) | JString (s : string) | JArray (l : list jvalue) | JObject (l : list (string * jvalue)).
Abbreviation jobject := (list (string * jvalue)).
Definition obj_get (o : jobject) (k : string) : option jvalue :=
  last (omap (fun kv => if decide (kv.1 = k) then Some kv.2 else None) o).
Definition get_string (o : jobject) (k : string) : option string :=
  match obj_get o k with Some (JString s) => Some s | _ => None end.

Record oidcClaims := mkClaims { oc_Subject : string; oc_Email : string; oc_EmailVerified : bool; oc_PreferredUsername : string; oc_Name : string }.
Definition no_claims : oidcClaims := mkClaims "" "" false "" "".
Section claims.
Context `{UnicodeTables}.
(** [json.Unmarshal] into the struct: keys match without regard to case, null
    leaves the field, a value of another type is an error but decoding goes on. *)
Definition set_string (v : jvalue) (f : string -> oidcClaims) (c : oidcClaims) : oidcClaims * bool :=
  match v with JString s => (f s, true) | JNull => (c, true) | _ => (c, false) end.
Definition set_claim (c : oidcClaims) (kv : string * jvalue) : oidcClaims * bool :=
  let (k, v) := kv in
  if EqualFold_s k "sub" then set_string v (fun s => mkClaims s (oc_Email c) (oc_EmailVerified c) (oc_PreferredUsername c) (oc_Name c)) c
  else if EqualFold_s k "email" then set_string v (fun s => mkClaims (oc_Subject c) s (oc_EmailVerified c) (oc_PreferredUsername c) (oc_Name c)) c
  else if EqualFold_s k "email_verified" then
    match v with
    | JBool b => (mkClaims (oc_Subject c) (oc_Email c) b (oc_PreferredUsername c) (oc_Name c), true)
    | JNull => (c, true)
    | _ => (c, false)
    end
  else if EqualFold_s k "preferred_username" then set_string v (fun s => mkClaims (oc_Subject c) (oc_Email c) (oc_EmailVerified c) s (oc_Name c)) c
  else if EqualFold_s k "name" then set_string v (fun s => mkClaims (oc_Subject c) (oc_Email c) (oc_EmailVerified c) (oc_PreferredUsername c) s) c
  else (c, true).
Fixpoint decode_claims (c : oidcClaims) (o : jobject) : oidcClaims * bool :=
  match o with
  | [] => (c, true)
  | kv :: o => let (c, ok) := set_claim c kv in let (c, ok') := decode_claims c o in (c, ok && ok')
  end.

Definition emailUnverified (raw : jobject) : bool :=
  match obj_get raw "email_verified" with
  | Some (JBool b) => negb b
  | Some (JString s) => EqualFold_s (TrimSpace_s s) "false"
  | _ => false
  end.
End claims.

Definition nonblank (v : option jvalue) : option string :=
  match v with
  | Some (JString s) => if bool_decide (TrimSpace_s s = ""%string) then None else Some (TrimSpace_s s)
  | _ => None
  end.
(** One element of the claim: the closure [add]. *)
Definition claim_group (v : jvalue) : option string :=
  match v with
  | JString s => nonblank (Some v)
  | JObject o => head (omap (fun k => nonblank (obj_get o k)) ["name"; "id"; "displayName"]%string)
  | _ => None
  end.
Definition oidcClaimGroups (raw : jobject) (claim : string) : list string :=
  match obj_get raw claim with
  | Some (JArray l) => omap claim_group l
  | Some v => option_list (claim_group v)
  | None => []
  end.

(** ** Pending logins *)
Definition oidcStateTTL : duration := 10 * minute.
Record oidcPending := mkOidcPending { op_nonce : string; op_verifier : string; op_next : string; op_expires : time }.
Abbreviation oidc_states := (gmap string oidcPending).
Definition putState (states : oidc_states) (state : string) (p : oidcPending) (now : time) : oidc_states :=
  <[state := p]> (filter (fun kv => After now (op_expires kv.2) = false) states).
Definition popState (states : oidc_states) (state : string) (now : time) : oidc_states * option oidcPending :=
  match states !! state with
  | Some p => (delete state states, if After now (op_expires p) then None else Some p)
  | None => (states, None)
  end.
Definition randomToken (rand : result string (list Z)) : result string string :=
  match rand with Ok buf => Ok (RawURLEncoding buf) | Err msg => Err msg end.
Definition randomUnusablePassword (rand : result string (list Z)) : result string string :=
  match randomToken rand with Ok tok => Ok ("Aa1!" +:+ tok)%string | Err msg => Err msg end.

Definition safeNextPath `{URLParse} (raw : string) : string :=
  let raw := TrimSpace_s raw in
  if bool_decide (raw = ""%string) || negb (hasPrefix raw "/") || hasPrefix raw "//" || hasPrefix raw "/\" then "/"%string else
  match url_Parse raw with
  | None => "/"%string
  | Some (scheme, host) => if bool_decide (host <> ""%string) || bool_decide (scheme <> ""%string) then "/"%string else raw
  end.

(** ** The world of the handlers *)
Section world.
Context {Provider : Type}.
(** [ow_provider]: the provider once it was discovered. *)
Record oidc_world := mkOidc {
  ow_login : login_world; ow_access : access_tables; ow_provider : option Provider; ow_states : gmap string oidcPending
}.
Definition ow_auth (w : oidc_world) : auth_tables := lw_auth (ow_login w).
Definition with_group_ids (t : auth_tables) (x : gset string) : auth_tables :=
  mkAuth (au_users t) (au_tags t) (au_sessions t) (au_ssh_keys t) (au_last_key t) (au_tokens t) (au_totp t) (au_links t) (au_oidc_groups t) x.
(** One database: the accounts the access tables refer to, and the groups the
    account tables refer to. *)
Definition login_view (w : oidc_world) : login_world :=
  put_auth (with_group_ids (ow_auth w) (dom (access_groups (ow_access w)))) (ow_login w).
Definition access_view (w : oidc_world) : access_tables :=
  let t := ow_access w in
  mkAccess (dom (au_users (ow_auth w))) (access_groups t) (targets t) (user_groups t) (group_targets t) (group_tags t) (target_tags t) (au_tags (ow_auth w)).
Definition put_login (l : login_world) (w : oidc_world) : oidc_world :=
  mkOidc (put_auth (with_group_ids (lw_auth l) (au_group_ids (ow_auth w))) l) (ow_access w) (ow_provider w) (ow_states w).
Definition put_access (t : access_tables) (w : oidc_world) : oidc_world :=
  mkOidc (ow_login w) (mkAccess (users (ow_access w)) (access_groups t) (targets t) (user_groups t) (group_targets t) (group_tags t) (target_tags t)
    (user_tags (ow_access w))) (ow_provider w) (ow_states w).
Definition set_states (w : oidc_world) x : oidc_world := mkOidc (ow_login w) (ow_access w) (ow_provider w) x.
Definition set_provider (w : oidc_world) x : oidc_world := mkOidc (ow_login w) (ow_access w) x (ow_states w).

Definition on_login {E A} (m : DB login_world E A) : DB oidc_world E A := db_zoom login_view put_login m.
Definition accounts {A} (m : AuthM A) : DB oidc_world auth_err A := on_login (AuthLogin.on_auth m).
Definition access {A} (m : AccessM A) : DB oidc_world access_err A := db_zoom access_view put_access m.
Definition memory {E A} (f : oidc_world -> oidc_world * A) : DB oidc_world E A := fun c =>
  let (w, a) := f (tables c) in (set_tables c w, Ok a).

Inductive oidc_err := ErrOIDCNotProvisioned | EAuth (e : auth_err) | EAccess (e : access_err) | EOther (msg : string).
Abbreviation OidcM := (DB oidc_world oidc_err).

Section service.
Context `{UnicodeTables} `{Bcrypt} `{Crypto} `{SetScan}.
Context (cfg : oidcConfig).

(** ** The local account of an identity *)
Definition find_username (username : string) (users : list User) : option User :=
  head (filter (fun u => EqualFold_s (u_Username u) username = true) users).
(** The username and whether it was taken from an address. *)
Definition claimed_name (claims : oidcClaims) (raw : jobject) : string * bool :=
  let username := TrimSpace_s (default ""%string (get_string raw (oc_UsernameClaim cfg))) in
  if bool_decide (username <> ""%string) then (username, bool_decide (oc_UsernameClaim cfg = "email"%string)) else
  let username := TrimSpace_s (oc_PreferredUsername claims) in
  if bool_decide (username <> ""%string) then (username, false) else (TrimSpace_s (oc_Email claims), true).
Definition link_refused (u : User) (fromEmail : bool) (raw : jobject) : bool :=
  negb (oc_LinkExisting cfg) || bool_decide (u_Role u = RoleAdmin) || (fromEmail && emailUnverified raw).
(** The account an earlier sign-in linked. One that can not be read counts as missing. *)
Definition linked_user (issuer subject : string) : OidcM (option User) :=
  let* r := db_try (accounts (Lookup issuer subject)) in
  match r with
  | Ok uid =>
      let* u := db_try (accounts (GetByID uid)) in
      db_ret (match u with Ok u => Some u | Err _ => None end)
  | Err e => if decide (e = ErrOIDCLinkNotFound) then db_ret None else db_throw (EAuth e)
  end.
Definition resolveOIDCUser (issuer : string) (claims : oidcClaims) (raw : jobject) (rand salt : result string (list Z)) : OidcM (User * bool) :=
  let* linked := linked_user issuer (oc_Subject claims) in
  match linked with
  | Some u => db_ret (u, false)
  | None =>
      let (username, fromEmail) := claimed_name claims raw in
      if bool_decide (username = ""%string) then db_throw ErrOIDCNotProvisioned else
      let* users := call (accounts (ListUsers 1000 0)) EAuth in
      match find_username username users with
      | Some u =>
          if link_refused u fromEmail raw then db_throw ErrOIDCNotProvisioned else
          let* _ := call (accounts (Link issuer (oc_Subject claims) (u_ID u))) EAuth in
          db_ret (u, false)
      | None =>
          if negb (oc_AutoCreate cfg) then db_throw ErrOIDCNotProvisioned else
          match randomUnusablePassword rand with
          | Err msg => db_throw (EOther msg)
          | Ok pw =>
              let* u := call (accounts (CreateUser (slugID username) username pw RoleUser salt)) EAuth in
              let* _ := call (accounts (Link issuer (oc_Subject claims) (u_ID u))) EAuth in
              db_ret (u, true)
          end
      end
  end.

(** ** Groups and role *)
(** The mapped groups that exist; a lookup that fails counts as unknown. *)
Fixpoint existing (targets : list string) : OidcM (list string) :=
  match targets with
  | [] => db_ret []
  | g :: gs =>
      let* r := db_try (access (AccessGroups.Get g)) in
      let* rest := existing gs in
      db_ret (match r with Ok _ => g :: rest | Err _ => rest end)
  end.
Definition mapped (idpGroups : list string) : list string := idpGroups ≫= fun g => default [] (oc_GroupMap cfg !! g).
Fixpoint grant_groups (u : string) (previous : list string) (gs : list string) : OidcM unit :=
  match gs with
  | [] => db_ret tt
  | g :: gs =>
      let* _ := (if decide (g ∈ previous) then db_ret tt else call (access (AccessGroups.AddUserToGroup u g)) EAccess) in
      grant_groups u previous gs
  end.
Fixpoint revoke_groups (u : string) (desired : gset string) (gs : list string) : OidcM unit :=
  match gs with
  | [] => db_ret tt
  | g :: gs =>
      let* _ := (if decide (g ∈ desired) then db_ret tt else
        let* r := db_try (access (AccessGroups.RemoveUserFromGroup u g)) in
        match r with
        | Ok _ => db_ret tt
        | Err e => if decide (e = ErrGroupNotFound) then db_ret tt else db_throw (EAccess e)
        end) in
      revoke_groups u desired gs
  end.
Definition sync_role (u : User) (idpGroups : list string) : OidcM unit :=
  if decide (oc_AdminGroups cfg = ∅) then db_ret tt else
  let wantAdmin := existsb (fun g => bool_decide (g ∈ oc_AdminGroups cfg)) idpGroups in
  let current := current_role u in
  let want := if wantAdmin then RoleAdmin else RoleUser in
  if bool_decide (want = current) then db_ret tt else
  let* kept := (if bool_decide (want = RoleUser) then
    let* n := db_try (on_login countAdmins) in
    db_ret (match n with Ok n => (n <=? 1)%nat | Err _ => false end) else db_ret false) in
  if kept : bool then db_ret tt else call (accounts (UpdateRole (u_ID u) want)) EAuth.
Definition syncOIDCGroups (u : User) (raw : jobject) : OidcM unit :=
  let idpGroups := oidcClaimGroups raw (oc_GroupsClaim cfg) in
  let* found := existing (mapped idpGroups) in
  let desired := list_to_set found : gset string in
  let* previous := call (accounts (ManagedGroups (u_ID u))) EAuth in
  let* _ := grant_groups (u_ID u) previous (scan desired) in
  let* _ := revoke_groups (u_ID u) desired previous in
  let* _ := call (accounts (SetManagedGroups (u_ID u) (sort_strings (scan desired)))) EAuth in
  sync_role u idpGroups.
End service.

(** ** The requests *)
Record IDToken := mkIDToken { it_Issuer : string; it_Subject : string; it_Nonce : string; it_payload : list (string * jvalue) }.
(** What the provider answers during one request: discovery of a URL, where the
    flag tells that the issuer differs from it; the [id_token] of an exchange,
    [None] when it is missing; the verified token. *)
Record idp_answers := mkAnswers {
  an_discover : string -> bool -> result string Provider;
  an_exchange : Provider -> string -> string -> string -> result string (option string);  (* redirect URL, code, verifier *)
  an_verify : Provider -> string -> result string IDToken
}.
Record oidc_request := mkOidcRequest {
  or_tls : bool; or_forwarded_proto : string; or_host : string;
  or_next : string;                                    (* login *)
  or_error : string; or_state : string; or_code : string; or_cookie : option string   (* callback *)
}.
(** [oidcFail] sends the browser to the login page with a code and removes the
    state cookie; so does a sign-in, with the session cookie. *)
Inductive oidc_reply :=
| OidcFailed (code : string)
| ToProvider (url cookie : string)
| SignedIn (sess : Session) (u : User) (created : bool) (next : string).

Section requests.
Context `{UnicodeTables} `{Bcrypt} `{Crypto} `{SetScan} `{URLParse}.
Context (ttl : duration) (oidc : option oidcConfig).
(** [oauth2.Config.AuthCodeURL]: redirect URL, state, nonce, verifier. *)
Context (AuthCodeURL : oidcConfig -> Provider -> string -> string -> string -> string -> string).
Abbreviation Handler := (DB oidc_world http_err).

Definition oidcRedirectURL (cfg : oidcConfig) (r : oidc_request) : string :=
  if bool_decide (oc_RedirectURL cfg <> ""%string) then oc_RedirectURL cfg else
  let scheme := if negb (or_tls r) && negb (EqualFold_s (or_forwarded_proto r) "https") then "http"%string else "https"%string in
  (scheme +:+ "://" +:+ or_host r +:+ "/api/auth/oidc/callback")%string.
Definition providerFor (cfg : oidcConfig) (discover : string -> bool -> result string Provider) : Handler (result string Provider) := memory (fun w =>
  match ow_provider w with
  | Some p => (w, Ok p)
  | None =>
      let apart := bool_decide (oc_DiscoveryURL cfg <> ""%string) && bool_decide (oc_DiscoveryURL cfg <> oc_Issuer cfg) in
      match discover (if apart then oc_DiscoveryURL cfg else oc_Issuer cfg) apart with
      | Ok p => (set_provider w (Some p), Ok p)
      | Err msg => (w, Err msg)
      end
  end).
Definition oidcDisabled : http_err := Http 404 "auth.oidcDisabled".
(** The [oidc] part of the answer: the label when it is enabled. *)
Definition handleAuthMethods : option string := oc_DisplayName <$> oidc.

(** [verifier]: of [oauth2.GenerateVerifier]; [now0], [now]: the clock when the
    entry is made and when it is stored. *)
Definition handleOIDCLogin (r : oidc_request) (an : idp_answers) (stateRand nonceRand : result string (list Z)) (verifier : string) (now0 now : time) : Handler oidc_reply :=
  match oidc with
  | None => db_throw oidcDisabled
  | Some cfg =>
      let* p := providerFor cfg (an_discover an) in
      match p with
      | Err _ => db_ret (OidcFailed "provider_unavailable")
      | Ok p =>
          match randomToken stateRand, randomToken nonceRand with
          | Err _, _ | _, Err _ => db_throw internal
          | Ok state, Ok nonce =>
              let* _ := memory (fun w => (set_states w (putState (ow_states w) state
                (mkOidcPending nonce verifier (safeNextPath (or_next r)) (Add now0 oidcStateTTL)) now), tt)) in
              db_ret (ToProvider (AuthCodeURL cfg p (oidcRedirectURL cfg r) state nonce verifier) state)
          end
      end
  end.

(** From the pending login to the verified token: an error is the code of the failure. *)
Definition verified_token (cfg : oidcConfig) (r : oidc_request) (an : idp_answers) (p : Provider) (pending : oidcPending) : result string (IDToken * oidcClaims) :=
  match an_exchange an p (oidcRedirectURL cfg r) (or_code r) (op_verifier pending) with
  | Err _ | Ok None => Err "exchange"%string
  | Ok (Some rawIDToken) =>
      if bool_decide (rawIDToken = ""%string) then Err "exchange"%string else
      match an_verify an p rawIDToken with
      | Err _ => Err "token"%string
      | Ok idToken =>
          if bool_decide (it_Nonce idToken <> op_nonce pending) then Err "token"%string else
          let (claims, ok) := decode_claims no_claims (it_payload idToken) in
          if negb ok then Err "token"%string else
          Ok (idToken, if bool_decide (oc_Subject claims = ""%string)
                       then mkClaims (it_Subject idToken) (oc_Email claims) (oc_EmailVerified claims) (oc_PreferredUsername claims) (oc_Name claims)
                       else claims)
      end
  end.
(** The identity is known: its account, its groups, its session. *)
Record sign_in_draws := mkDraws { sd_password : result string (list Z); sd_salt : result string (list Z); sd_session : result string (list Z) }.
Definition finish_oidc (cfg : oidcConfig) (idToken : IDToken) (claims : oidcClaims) (next : string) (d : sign_in_draws) (now : time) : Handler oidc_reply :=
  let* r := db_try (resolveOIDCUser cfg (it_Issuer idToken) claims (it_payload idToken) (sd_password d) (sd_salt d)) in
  match r with
  | Err ErrOIDCNotProvisioned => db_ret (OidcFailed "not_provisioned")
  | Err _ => db_ret (OidcFailed "resolve")
  | Ok (u, created) =>
      if u_Disabled u then db_ret (OidcFailed "disabled") else
      let* r := (if syncsGroups cfg then db_try (syncOIDCGroups cfg u (it_payload idToken)) else db_ret (Ok tt)) in
      match r with
      | Err _ => db_ret (OidcFailed "resolve")
      | Ok _ =>
          let* s := db_try (accounts (session_Create ttl (u_ID u) (sd_session d) now)) in
          match s with
          | Err _ => db_ret (OidcFailed "session")
          | Ok sess => db_ret (SignedIn sess u created next)
          end
      end
  end.
Definition handleOIDCCallback (r : oidc_request) (an : idp_answers) (d : sign_in_draws) (now now' : time) : Handler oidc_reply :=
  match oidc with
  | None => db_throw oidcDisabled
  | Some cfg =>
      if bool_decide (or_error r <> ""%string) then db_ret (OidcFailed "denied") else
      if bool_decide (or_state r = ""%string) || bool_decide (or_cookie r <> Some (or_state r)) then db_ret (OidcFailed "state") else
      let* pending := memory (fun w => let (states, p) := popState (ow_states w) (or_state r) now in (set_states w states, p)) in
      match pending with
      | None => db_ret (OidcFailed "state")
      | Some pending =>
          let* p := providerFor cfg (an_discover an) in
          match p with
          | Err _ => db_ret (OidcFailed "provider_unavailable")
          | Ok p =>
              match verified_token cfg r an p pending with
              | Err code => db_ret (OidcFailed code)
              | Ok (idToken, claims) => finish_oidc cfg idToken claims (op_next pending) d now'
              end
          end
      end
  end.
End requests.
End world.
Arguments oidc_world : clear implicits.
Arguments idp_answers : clear implicits.

(** ** Views *)
Section views.
Context {Provider : Type}.
Implicit Types w : oidc_world Provider.
Definition auth_view w : auth_tables := lw_auth (login_view w).
Definition write_auth (t : auth_tables) w : oidc_world Provider := put_login (put_auth t (login_view w)) w.
Lemma put_login_same w : put_login (login_view w) w = w.
Proof. destruct w as [[[] ? ?] ? ? ?]. reflexivity. Qed.
Lemma write_auth_same w : write_auth (auth_view w) w = w.
Proof. destruct w as [[[] ? ?] ? ? ?]. reflexivity. Qed.
Lemma put_access_view w : put_access (access_view w) w = w.
Proof. destruct w as [? [] ? ?]. reflexivity. Qed.
Lemma hoare_each {T E A} (P : T -> Prop) (m : DB T E A) Q : (forall t, P t -> hoare (eq t) m Q) -> hoare P m Q.
Proof. intros Hm c Hc. by apply (Hm _ Hc). Qed.
Lemma hoare_try {T E E' A} (P : T -> Prop) (m : DB T E A) (Q : T -> result E' (result E A) -> Prop) :
  hoare P m (fun t r => Q t (Ok r)) -> hoare P (db_try m) Q.
Proof. intros Hm c Hc. unfold db_try. specialize (Hm c Hc). by destruct (m c). Qed.
Lemma hoare_call {T E E' A} (P : T -> Prop) (m : DB T E A) (h : E -> E') (Q : T -> result E' A -> Prop) :
  hoare P m (fun t r => Q t (match r with Ok a => Ok a | Err e => Err (h e) end)) -> hoare P (call m h) Q.
Proof. intros Hm c Hc. unfold call, db_bind, db_try. specialize (Hm c Hc). by destruct (m c) as [c' []]. Qed.
Lemma hoare_zoom {T S E A} (get : T -> S) (put : S -> T -> T) (m : DB S E A) t (Q : T -> result E A -> Prop) :
  hoare (eq (get t)) m (fun s r => Q (put s t) r) -> hoare (eq t) (db_zoom get put m) Q.
Proof.
  intros Hm [cf t' fs] Hc. cbn in Hc. subst t'. unfold db_zoom. cbn. specialize (Hm (mkConn cf (get t) fs) eq_refl). by destruct (m _).
Qed.
Lemma hoare_accounts {A} w (m : AuthM A) (Q : oidc_world Provider -> result auth_err A -> Prop) :
  hoare (eq (auth_view w)) m (fun t r => Q (write_auth t w) r) -> hoare (eq w) (accounts m) Q.
Proof. intros Hm. unfold accounts, on_login, AuthLogin.on_auth. by apply hoare_zoom, hoare_zoom. Qed.
Lemma hoare_access {A} w (m : AccessM A) (Q : oidc_world Provider -> result access_err A -> Prop) :
  hoare (eq (access_view w)) m (fun t r => Q (put_access t w) r) -> hoare (eq w) (access m) Q.
Proof. apply hoare_zoom. Qed.
Lemma hoare_memory {E A} w (f : oidc_world Provider -> oidc_world Provider * A) (Q : oidc_world Provider -> result E A -> Prop) :
  Q (f w).1 (Ok (f w).2) -> hoare (eq w) (memory f) Q.
Proof. intros Hq [cf t' fs] Hc. cbn in Hc. subst t'. unfold memory. cbn. by destruct (f w). Qed.
Lemma hoare_mret {T E A} (P : T -> Prop) (a : A) (Q : T -> result E A -> Prop) : (forall t, P t -> Q t (Ok a)) -> hoare P (db_ret a) Q.
Proof. intros Hq c Hc. by apply Hq. Qed.
Lemma hoare_mthrow {T E A} (P : T -> Prop) (e : E) (Q : T -> result E A -> Prop) : (forall t, P t -> Q t (Err e)) -> hoare P (db_throw e) Q.
Proof. intros Hq c Hc. by apply Hq. Qed.

Lemma preserves_memory {E A} (P : oidc_world Provider -> Prop) (f : oidc_world Provider -> oidc_world Provider * A) :
  (forall w, P w -> P (f w).1) -> preserves (E := E) P (memory f).
Proof. intros Hf d Hd. unfold memory. specialize (Hf _ Hd). by destruct (f (tables d)). Qed.

(** Without failing statements. *)
Lemma bind_eq {T E A B} (m : DB T E A) (k : A -> DB T E B) c c' a : m c = (c', Ok a) -> db_bind m k c = k a c'.
Proof. unfold db_bind. by intros ->. Qed.
Lemma call_eq {T E E' A} (m : DB T E A) (h : E -> E') c c' a : m c = (c', Ok a) -> call m h c = (c', Ok a).
Proof. unfold call, db_try, db_bind. by intros ->. Qed.
Lemma try_eq {T E E' A} (m : DB T E A) c c' r : m c = (c', r) -> db_try (E' := E') m c = (c', Ok r).
Proof. unfold db_try. by intros ->. Qed.
Lemma accounts_eq {A} (m : AuthM A) w t r : m (connect (auth_view w)) = (connect t, r) -> accounts m (connect w) = (connect (write_auth t w), r).
Proof. intros Hm. unfold accounts, on_login, AuthLogin.on_auth, db_zoom, auth_view, connect in *. cbn [configured tables faults] in *. by rewrite Hm. Qed.
Lemma access_eq {A} (m : AccessM A) w t r : m (connect (access_view w)) = (connect t, r) -> access m (connect w) = (connect (put_access t w), r).
Proof. intros Hm. unfold access, db_zoom, connect in *. cbn [configured tables faults]. by rewrite Hm. Qed.
Lemma login_eq {E A} (m : DB login_world E A) w l r : m (connect (login_view w)) = (connect l, r) -> on_login m (connect w) = (connect (put_login l w), r).
Proof. intros Hm. unfold on_login, db_zoom, connect in *. cbn [configured tables faults]. by rewrite Hm. Qed.

(** What the requests keep of the memory. *)
Lemma memory_accounts {A} (m : AuthM A) st : preserves (fun w => ow_states w = st) (accounts m).
Proof. by apply preserves_zoom. Qed.
Lemma memory_access {A} (m : AccessM A) st : preserves (fun w => ow_states w = st) (access m).
Proof. by apply preserves_zoom. Qed.
Lemma memory_login {E A} (m : DB login_world E A) st : preserves (fun w => ow_states w = st) (on_login m).
Proof. by apply preserves_zoom. Qed.
End views.

(** ** A state is good for one sign-in *)
Ltac keep_states :=
  repeat first [simple apply memory_accounts | simple apply memory_access | simple apply memory_login | simple apply preserves_call
               | progress preserve].
Section states.
Context {Provider : Type} `{UnicodeTables} `{Bcrypt} `{Crypto} `{SetScan}.
Lemma existing_states gs st : preserves (fun w => ow_states w = st) (existing (Provider := Provider) gs).
Proof. induction gs as [|g gs IH]; cbn [existing]; keep_states. by apply IH. Qed.
Lemma grant_states u prev gs st : preserves (fun w => ow_states w = st) (grant_groups (Provider := Provider) u prev gs).
Proof. induction gs as [|g gs IH]; cbn [grant_groups]; keep_states; by apply IH. Qed.
Lemma revoke_states u X gs st : preserves (fun w => ow_states w = st) (revoke_groups (Provider := Provider) u X gs).
Proof. induction gs as [|g gs IH]; cbn [revoke_groups]; keep_states; by apply IH. Qed.
Lemma finish_states ttl cfg idt claims next d now st :
  preserves (fun w => ow_states w = st) (finish_oidc (Provider := Provider) ttl cfg idt claims next d now).
Proof.
  unfold finish_oidc, resolveOIDCUser, linked_user, syncOIDCGroups, sync_role. keep_states.
  all: first [apply existing_states | apply grant_states | apply revoke_states].
Qed.

Context `{URLParse} (ttl : duration) (oidc : option oidcConfig).
Context (AuthCodeURL : oidcConfig -> Provider -> string -> string -> string -> string -> string).
Lemma provider_states cfg f st : preserves (fun w => ow_states w = st) (providerFor (Provider := Provider) cfg f).
Proof. apply preserves_memory. intros w Hw. cbv zeta. repeat case_match; exact Hw. Qed.

Inductive oidc_op :=
| OLogin (r : oidc_request) (an : idp_answers Provider) (stateRand nonceRand : result string (list Z)) (verifier : string) (now0 now : time)
| OCallback (r : oidc_request) (an : idp_answers Provider) (d : sign_in_draws) (now now' : time).
Definition oidc_exec (op : oidc_op) : DB (oidc_world Provider) http_err oidc_reply :=
  match op with
  | OLogin r an s n v now0 now => handleOIDCLogin oidc AuthCodeURL r an s n v now0 now
  | OCallback r an d now now' => handleOIDCCallback ttl oidc r an d now now'
  end.
Fixpoint oidc_run (c : conn (oidc_world Provider)) (ops : list oidc_op) : list (oidc_op * result http_err oidc_reply) :=
  match ops with
  | [] => []
  | op :: ops => let (c', r) := oidc_exec op c in (op, r) :: oidc_run c' ops
  end.
(** The browser was given the state; a callback with it ended in a session. *)
Definition hands_out (st : string) (x : oidc_op * result http_err oidc_reply) : bool :=
  match x with (OLogin _ _ _ _ _ _ _, Ok (ToProvider _ cookie)) => bool_decide (cookie = st) | _ => false end.
Definition signs_in (st : string) (x : oidc_op * result http_err oidc_reply) : bool :=
  match x with (OCallback r _ _ _ _, Ok (SignedIn _ _ _ _)) => bool_decide (or_state r = st) | _ => false end.
Definition count (f : oidc_op * result http_err oidc_reply -> bool) l : nat := length (filter (fun x => f x = true) l).
Definition opened (st : string) (m : oidc_states) : nat := if decide (is_Some (m !! st)) then 1 else 0.
Definition bit (b : bool) : nat := if b then 1 else 0.
Lemma opened_put st states tok p now : (opened st (putState states tok p now) <= opened st states + bit (bool_decide (tok = st)))%nat.
Proof.
  unfold opened, putState. destruct (decide (tok = st)) as [->|Hne].
  - rewrite (bool_decide_true (st = st)) by done. unfold bit. repeat case_decide; lia.
  - rewrite lookup_insert_ne by done. case_decide as Hin; [|lia]. destruct Hin as [x Hx].
    apply map_lookup_filter_Some in Hx as [Hx _]. rewrite decide_True by eauto. lia.
Qed.
Lemma opened_pop st states tok now :
  (opened st (popState states tok now).1 + bit (bool_decide (tok = st) && bool_decide (is_Some (popState states tok now).2)) <= opened st states)%nat.
Proof.
  unfold opened, popState. destruct (states !! tok) as [p|] eqn:Ht; cbn [fst snd].
  - destruct (decide (tok = st)) as [->|Hne].
    + rewrite lookup_delete_eq, decide_False by (intros [? ?]; done). rewrite decide_True by eauto. rewrite bool_decide_true by done. case_match; cbn; lia.
    + rewrite lookup_delete_ne by done. rewrite bool_decide_false by done. cbn. lia.
  - rewrite andb_false_r. cbn. lia.
Qed.

Lemma providerFor_run cfg f c : exists c' r, providerFor (Provider := Provider) cfg f c = (c', Ok r) /\ ow_states (tables c') = ow_states (tables c).
Proof.
  pose proof (provider_states cfg f _ c eq_refl) as Hs. unfold providerFor, memory in *.
  destruct (match ow_provider _ with Some _ => _ | None => _ end) as [w r]. eauto.
Qed.
Lemma login_step st r an s n v now0 now c c' res : handleOIDCLogin oidc AuthCodeURL r an s n v now0 now c = (c', res) ->
  (opened st (ow_states (tables c')) <= opened st (ow_states (tables c)) + bit (hands_out st (OLogin r an s n v now0 now, res)))%nat.
Proof.
  unfold handleOIDCLogin. destruct oidc as [cfg|]; [|intros [= <- <-]; lia]. intros Hr.
  destruct (providerFor_run cfg (an_discover an) c) as (c1 & p & Ep & Hs). unfold db_bind at 1 in Hr. rewrite Ep in Hr. rewrite <- Hs.
  destruct p as [p|msg]; [|injection Hr as <- <-; lia].
  destruct (randomToken s) as [tok|]; [|injection Hr as <- <-; lia].
  destruct (randomToken n) as [nonce|]; [|injection Hr as <- <-; lia].
  unfold db_bind, memory in Hr. injection Hr as <- <-. apply opened_put.
Qed.
Lemma callback_step st r an d now now' c c' res : handleOIDCCallback ttl oidc r an d now now' c = (c', res) ->
  (opened st (ow_states (tables c')) + bit (signs_in st (OCallback r an d now now', res)) <= opened st (ow_states (tables c)))%nat.
Proof.
  unfold handleOIDCCallback. destruct oidc as [cfg|]; [|intros [= <- <-]; cbn; lia].
  case_match; [intros [= <- <-]; cbn; lia|]. case_match; [intros [= <- <-]; cbn; lia|].
  intros Hr. unfold db_bind at 1, memory at 1 in Hr. pose proof (opened_pop st (ow_states (tables c)) (or_state r) now) as Hp.
  destruct (popState _ _ _) as [states [p|]] eqn:Epop; [|injection Hr as <- <-; cbn in *; lia]. cbn [fst snd] in Hp. rewrite (bool_decide_true (is_Some _)), andb_true_r in Hp by eauto.
  set (c1 := set_tables c _) in Hr.
  destruct (providerFor_run cfg (an_discover an) c1) as (c2 & q & Eq & Hs). unfold db_bind at 1 in Hr. rewrite Eq in Hr.
  change (ow_states (tables c1)) with states in Hs.
  enough (ow_states (tables c') = states) as ->.
  { unfold signs_in. destruct res as [[]|]; cbn; unfold bit in *; repeat case_match; lia. }
  destruct q as [q|msg]; [|by injection Hr as <- <-].
  destruct (verified_token _ _ _ _ _) as [[idt claims]|code]; [|by injection Hr as <- <-].
  pose proof (finish_states ttl cfg idt claims (op_next p) d now' states c2 Hs) as Hf. by rewrite Hr in Hf.
Qed.

(** C25. A state that was handed to a browser buys one sign-in: in any run of
    requests, with any answers of the provider and failing statements, the
    callbacks with a state that end in a session are at most as many as the
    times the state was handed out, and one if it was pending at the start. *)
Theorem one_sign_in_per_state st ops c :
  (count (signs_in st) (oidc_run c ops) <= count (hands_out st) (oidc_run c ops) + opened st (ow_states (tables c)))%nat.
Proof.
  revert c. induction ops as [|op ops IH]; intros c; cbn [oidc_run]; [unfold count; cbn; lia|].
  destruct (oidc_exec op c) as [c' res] eqn:E. specialize (IH c').
  assert (Hstep : (opened st (ow_states (tables c')) + bit (signs_in st (op, res)) <= opened st (ow_states (tables c)) + bit (hands_out st (op, res)))%nat).
  { destruct op; cbn [oidc_exec] in E; [apply (login_step st) in E; cbn [signs_in bit]; lia|apply (callback_step st) in E; cbn [hands_out bit]; lia]. }
  unfold count in *. rewrite !filter_cons. unfold bit in Hstep. repeat case_decide; cbn [length]; repeat case_match; simplify_eq; lia.
Qed.
End states.

(** ** Who is signed in *)
Section entitled.
Context {Provider : Type} `{UnicodeTables} `{Bcrypt} `{Crypto} `{SetScan} `{URLParse}.
Implicit Types w : oidc_world Provider.
Context (cfg : oidcConfig).

(** [u] is a row of the accounts. *)
Definition stored (t : auth_tables) (u : User) : Prop := exists row, au_users t !! u_ID u = Some row /\ u = scan_user (u_ID u) row.
Definition already_linked (t : auth_tables) (issuer subject : string) (u : User) : Prop :=
  stored t u /\ au_links t !! (issuer, subject) = Some (u_ID u).
Definition linked_by_name (t : auth_tables) (claims : oidcClaims) (raw : jobject) (u : User) : Prop :=
  stored t u /\ oc_LinkExisting cfg = true /\ u_Role u <> RoleAdmin /\
  EqualFold_s (u_Username u) (claimed_name cfg claims raw).1 = true /\
  ((claimed_name cfg claims raw).2 = true -> emailUnverified raw = false).
Definition provisioned (t : auth_tables) (claims : oidcClaims) (raw : jobject) (u : User) : Prop :=
  oc_AutoCreate cfg = true /\ au_users t !! u_ID u = None /\ u_Role u = RoleUser /\
  u_ID u = slugID (claimed_name cfg claims raw).1 /\ u_Username u = (claimed_name cfg claims raw).1.

Lemma hoare_Lookup i s t : hoare (eq t) (Lookup i s) (fun t' r => t' = t /\ forall u, r = Ok u -> au_links t !! (i, s) = Some u).
Proof.
  intros c ->. destruct (Lookup i s c) as [c' r] eqn:E. unfold Lookup in E. cbn [fst snd].
  destruct (db_query (E:=auth_err) (fun t => au_links t !! (i, s)) c) as [c1 r1] eqn:Eq. unfold db_bind in E. rewrite Eq in E.
  apply query_tables in Eq as [Ht Hv]. destruct r1 as [row|e].
  - specialize (Hv row eq_refl). destruct row as [u|]; injection E as <- <-; (split; [done|]); intros v Hv'; [|done]. by injection Hv' as <-.
  - injection E as <- <-. done.
Qed.
Lemma hoare_GetByID i t : hoare (eq t) (GetByID i) (fun t' r => t' = t /\ forall u, r = Ok u -> u_ID u = i /\ stored t u).
Proof.
  intros c ->. split.
  - enough (preserves (eq (tables c)) (GetByID i)) as Hp by (symmetry; by apply Hp). unfold GetByID. preserve.
  - intros u Hu. destruct (GetByID i c) as [c' r] eqn:E. cbn in Hu. subst r. apply GetByID_inv in E as (_ & row & Hr & ->).
    split; [done|]. by exists row.
Qed.
Lemma hoare_ListUsers t : hoare (eq t) (ListUsers 1000 0) (fun t' r => t' = t /\ forall us u, r = Ok us -> u ∈ us -> stored t u).
Proof.
  intros c ->. split.
  - enough (preserves (eq (tables c)) (ListUsers 1000 0)) as Hp by (symmetry; by apply Hp). unfold ListUsers. preserve.
  - intros us u Hu Hin. destruct (ListUsers 1000 0 c) as [c' r] eqn:E. cbn in Hu. subst r. unfold ListUsers in E. cbv zeta in E.
    apply bind_inv in E as (c1 & rows & Eq & E). apply query_tables in Eq as [_ Hrows]. specialize (Hrows rows eq_refl). injection E as _ <-.
    apply list_elem_of_fmap in Hin as ([i row] & -> & Hin). rewrite Hrows in Hin.
    pose proof (elem_of_sublist _ _ _ (elem_of_sublist _ _ _ Hin (sublist_take _ _)) (sublist_drop _ _)) as Hj.
    rewrite elem_of_sort_stable in Hj. apply elem_of_map_to_list in Hj. by exists row.
Qed.
Lemma hoare_Link i s u t : hoare (eq t) (Link i s u) (fun t' r => forall x, r = Ok x -> t' = with_links t (<[(i, s) := u]> (au_links t)) /\ known t u).
Proof.
  unfold Link. case_match; [by apply hoare_mthrow|]. apply hoare_exec; [|done]. intros t' <-. destruct (decide (is_Some _)); intros x Hx; [by split|discriminate].
Qed.
Lemma hoare_CreateUser id name pw salt t : hoare (eq t) (CreateUser id name pw RoleUser salt)
  (fun t' r => forall u, r = Ok u -> exists hash, u = mkUser id name hash RoleUser "" false false /\ au_users t !! id = None /\
     t' = set_row id (mkUserRow name hash RoleUser "" 0 0) t).
Proof.
  unfold CreateUser. case_match; [by apply hoare_mthrow|]. cbv zeta.
  change (bool_decide (RoleUser = ""%string)) with false. cbv iota. change (bool_decide (RoleUser <> RoleAdmin) && bool_decide (RoleUser <> RoleUser)) with false. cbv iota.
  destruct (HashPassword pw salt) as [hash|e]; [|by intros c ->].
  intros c ->. unfold db_bind, db_of, db_catch, db_exec, db_call. destruct (faults c) as [|[msg|] fs]; cbn; [|done|];
    (destruct (au_users (tables c) !! id) eqn:Hid; [done|]; destruct (find_user (tables c) name); [done|]); cbn; intros u [= <-]; eauto.
Qed.
Lemma hoare_session ttl u rand now t : hoare (eq t) (session_Create ttl u rand now) (fun t' r => forall sess, r = Ok sess ->
  s_UserID sess = u /\ au_sessions t' !! hashSessionToken (s_ID sess) = Some (mkSessionRow u now (Add now ttl))).
Proof.
  unfold session_Create. case_match; [by apply hoare_mthrow|]. destruct (randomID rand) as [raw|e]; [|by intros c ->].
  intros c ->. unfold db_bind, db_of, db_exec, db_call. destruct (faults c) as [|[msg|] fs]; cbn [fst snd tables]; [|done|];
    (destruct (au_sessions (tables c) !! _); [done|]; destruct (decide (is_Some _)); [|done]); cbn; intros sess [= <-]; by rewrite lookup_insert_eq.
Qed.

Lemma reads_accounts {A} w (m : AuthM A) (Q : result auth_err A -> Prop) :
  hoare (eq (auth_view w)) m (fun t r => t = auth_view w /\ Q r) -> hoare (eq w) (accounts m) (fun w' r => w' = w /\ Q r).
Proof.
  intros Hm. apply hoare_accounts. eapply hoare_conseq; [exact Hm|done|]. intros t r [-> Hr]. by rewrite write_auth_same.
Qed.
Lemma hoare_linked i s w : hoare (eq w) (linked_user (Provider := Provider) i s)
  (fun w' r => w' = w /\ forall u, r = Ok (Some u) -> already_linked (ow_auth w) i s u).
Proof.
  unfold linked_user.
  apply hoare_bind with (R := fun w' r => w' = w /\ forall u, r = Ok (Ok u) -> au_links (ow_auth w) !! (i, s) = Some u); [| |by intros t e []].
  { apply hoare_try. eapply hoare_conseq; [apply reads_accounts, hoare_Lookup|done|]. intros t r [-> Hr]. split; [done|]. intros u [= ->]. by apply Hr. }
  intros r. apply hoare_each. intros w' [-> Hr]. destruct r as [uid|e].
  - specialize (Hr uid eq_refl).
    apply hoare_bind with (R := fun w' r => w' = w /\ forall u, r = Ok (Ok u) -> u_ID u = uid /\ stored (ow_auth w) u); [| |by intros t e []].
    { apply hoare_try. eapply hoare_conseq; [apply reads_accounts, hoare_GetByID|done|]. intros t r [-> Hg]. split; [done|]. intros u [= ->]. by apply Hg. }
    intros u. apply hoare_mret. intros w' [-> Hu]. split; [done|]. intros v Hv. destruct u as [u|e]; [|done]. injection Hv as ->.
    destruct (Hu v eq_refl) as [E Hs]. split; [done|]. by rewrite E.
  - destruct (decide _); [apply hoare_mret|apply hoare_mthrow]; intros w' <-; done.
Qed.

(** The claims of a token are those of its payload, which decodes; its subject
    is the one of the payload, else the one the verifier read. *)
Definition token_claims (idt : IDToken) (claims : oidcClaims) : Prop :=
  let decoded := (decode_claims no_claims (it_payload idt)).1 in
  (decode_claims no_claims (it_payload idt)).2 = true /\
  oc_Subject claims = or_default (oc_Subject decoded) (it_Subject idt) /\
  oc_PreferredUsername claims = oc_PreferredUsername decoded /\ oc_Email claims = oc_Email decoded /\ oc_Name claims = oc_Name decoded.
(** Why an identity is signed in as [u]: it was linked to it, it may take an
    account of its name, or the account was made for it. *)
Definition entitled (t : auth_tables) (issuer : string) (claims : oidcClaims) (raw : jobject) (u : User) (created : bool) : Prop :=
  if created then provisioned t claims raw u
  else already_linked t issuer (oc_Subject claims) u \/ linked_by_name t claims raw u.
Definition linked_after (w' : oidc_world Provider) (issuer subject : string) (u : User) : Prop :=
  au_links (ow_auth w') !! (issuer, subject) = Some (u_ID u).
Lemma find_username_spec name us u : find_username name us = Some u -> u ∈ us /\ EqualFold_s (u_Username u) name = true.
Proof.
  unfold find_username. intros Hu. apply head_Some_elem_of in Hu. by apply list_elem_of_filter in Hu as [? ?].
Qed.
Lemma hoare_link w issuer subject u : hoare (eq w) (call (accounts (Link issuer subject (u_ID u))) EAuth)
  (fun w' r => r = Ok tt -> linked_after w' issuer subject u).
Proof.
  apply hoare_call, hoare_accounts. eapply hoare_conseq; [apply hoare_Link|done|]. intros t [x|e] Hx; [|done]. intros [= ->].
  destruct (Hx tt eq_refl) as [-> _]. unfold linked_after, ow_auth, write_auth. cbn. by rewrite lookup_insert_eq.
Qed.
Lemma resolve_spec issuer claims raw rand salt w : hoare (eq w) (resolveOIDCUser (Provider := Provider) cfg issuer claims raw rand salt)
  (fun w' r => forall u created, r = Ok (u, created) -> entitled (ow_auth w) issuer claims raw u created /\ linked_after w' issuer (oc_Subject claims) u).
Proof.
  unfold resolveOIDCUser. eapply hoare_bind; [apply hoare_linked| |done]. intros linked. apply hoare_each. intros w' [-> Hl].
  destruct linked as [u|].
  { apply hoare_mret. intros w' <- v created [= <- <-]. specialize (Hl u eq_refl). split; [by left|]. apply Hl. }
  destruct (claimed_name cfg claims raw) as [username fromEmail] eqn:En. case_match; [by apply hoare_mthrow|].
  apply hoare_bind with (R := fun w' r => w' = w /\ forall us u, r = Ok us -> u ∈ us -> stored (ow_auth w) u); [| |done].
  { apply hoare_call. eapply hoare_conseq; [apply reads_accounts, hoare_ListUsers|done|]. intros t [us|e] [-> Hu]; [|done]. split; [done|]. intros us' u [= <-]. by apply Hu. }
  intros us. apply hoare_each. intros w' [-> Hus]. destruct (find_username username us) as [u|] eqn:Ef.
  - apply find_username_spec in Ef as [Hin Hname]. destruct (link_refused cfg u fromEmail raw) eqn:Href; [by apply hoare_mthrow|].
    unfold link_refused in Href. apply orb_false_iff in Href as [Href He]. apply orb_false_iff in Href as [Hlink Hrole].
    eapply hoare_bind; [apply hoare_link| |done]. intros []. apply hoare_mret. intros w' Hw v created [= <- <-]. split; [|by apply Hw]. right. unfold linked_by_name. rewrite En. cbn [fst snd].
    split_and!; [by apply (Hus us)|by apply negb_false_iff|by apply bool_decide_eq_false in Hrole|done|].
    intros ->. by apply andb_false_iff in He as [He|He].
  - destruct (oc_AutoCreate cfg) eqn:Hauto; [|by apply hoare_mthrow]. cbn [negb]. destruct (randomUnusablePassword rand) as [pw|msg]; [|by apply hoare_mthrow].
    apply hoare_bind with (R := fun w' r => forall u, r = Ok u -> provisioned (ow_auth w) claims raw u); [| |done].
    { apply hoare_call, hoare_accounts. eapply hoare_conseq; [apply hoare_CreateUser|done|]. intros t [u|e] Hu; [|done]. intros v [= <-].
      destruct (Hu u eq_refl) as (hash & -> & Hnone & _). unfold provisioned. rewrite En. cbn. done. }
    intros u. apply hoare_each. intros w' Hp. specialize (Hp u eq_refl).
    eapply hoare_bind; [apply hoare_link| |done]. intros []. apply hoare_mret. intros w2 Hw v created [= <- <-]. split; [done|by apply Hw].
Qed.

Context (ttl : duration).
Definition has_session (w : oidc_world Provider) (sess : Session) (u : User) (now : time) : Prop :=
  s_UserID sess = u_ID u /\ au_sessions (ow_auth w) !! hashSessionToken (s_ID sess) = Some (mkSessionRow (u_ID u) now (Add now ttl)).
Lemma finish_spec idt claims next d now w : hoare (eq w) (finish_oidc (Provider := Provider) ttl cfg idt claims next d now)
  (fun w' r => forall sess u created next', r = Ok (SignedIn sess u created next') ->
     next' = next /\ u_Disabled u = false /\ entitled (ow_auth w) (it_Issuer idt) claims (it_payload idt) u created /\ has_session w' sess u now).
Proof.
  unfold finish_oidc.
  apply hoare_bind with (R := fun w' r => forall u created, r = Ok (Ok (u, created)) -> entitled (ow_auth w) (it_Issuer idt) claims (it_payload idt) u created); [| |done].
  { apply hoare_try. eapply hoare_conseq; [apply resolve_spec|done|]. intros w' r Hr u created [= ->]. by apply (Hr u created). }
  intros r. apply hoare_each. intros w1 Hr. destruct r as [[u created]|e]; [|by destruct e; apply hoare_mret].
  specialize (Hr u created eq_refl). destruct (u_Disabled u) eqn:Hd; [by apply hoare_mret|].
  eapply hoare_bind with (R := fun _ _ => True); [by intros c _| |done]. intros r. apply hoare_each. intros w2 _.
  destruct r as [[]|e]; [|by apply hoare_mret].
  apply hoare_bind with (R := fun w' r => forall sess, r = Ok (Ok sess) -> has_session w' sess u now); [| |done].
  { apply hoare_try, hoare_accounts. eapply hoare_conseq; [apply hoare_session|done|]. intros t r Hs sess [= ->].
    destruct (Hs sess eq_refl) as [E1 E2]. split; [done|]. exact E2. }
  intros r. apply hoare_each. intros w3 Hs. destruct r as [sess|e]; apply hoare_mret; [|done].
  intros w4 <- sess' u' created' next' [= <- <- <- <-]. specialize (Hs sess eq_refl). done.
Qed.
End entitled.

Section sign_in.
Context {Provider : Type} `{UnicodeTables} `{Bcrypt} `{Crypto} `{SetScan} `{URLParse}.
Context (ttl : duration).
(** C24. Signing in through the provider. Whatever the provider answers and
    whatever statements fail, a callback ends in a session only when its state
    is the one of the cookie, is pending and not expired; the token of the code
    was verified and carries the nonce of that state; the account is enabled; and
    the identity - the issuer and the subject of that token - was linked to it, or may be linked to it by name (allowed in the
    configuration, not an administrator, no unverified address), or the account
    was created for it as an ordinary user. The session is stored for the
    account, and the browser goes to the page kept with the state. *)
Theorem oidc_sign_in_is_entitled cfg r (an : idp_answers Provider) d now now' c c' sess u created next :
  handleOIDCCallback ttl (Some cfg) r an d now now' c = (c', Ok (SignedIn sess u created next)) ->
  or_cookie r = Some (or_state r) /\ u_Disabled u = false /\ has_session ttl (tables c') sess u now' /\
  exists p pending raw idt claims,
    ow_states (tables c) !! or_state r = Some pending /\ After now (op_expires pending) = false /\ next = op_next pending /\
    an_exchange an p (oidcRedirectURL cfg r) (or_code r) (op_verifier pending) = Ok (Some raw) /\
    an_verify an p raw = Ok idt /\ it_Nonce idt = op_nonce pending /\ token_claims idt claims /\
    entitled cfg (ow_auth (tables c)) (it_Issuer idt) claims (it_payload idt) u created.
Proof.
  unfold handleOIDCCallback. destruct (bool_decide (or_error r <> _)); [done|].
  destruct (bool_decide (or_state r = _) || _) eqn:Hck; [done|]. apply orb_false_iff in Hck as [_ Hck]. apply bool_decide_eq_false, dec_stable in Hck.
  intros Hr. unfold db_bind at 1, memory at 1 in Hr. unfold popState in Hr.
  destruct (ow_states (tables c) !! or_state r) as [pending|] eqn:Hp; [|done].
  destruct (After now (op_expires pending)) eqn:Hexp; [done|]. set (c1 := set_tables c _) in Hr.
  destruct (providerFor cfg (an_discover an) c1) as [c2 r2] eqn:Eq. unfold db_bind at 1 in Hr. rewrite Eq in Hr.
  assert (Hauth : ow_auth (tables c2) = ow_auth (tables c)).
  { unfold providerFor, memory in Eq. destruct (ow_provider _); [by injection Eq as <- _|]. destruct (an_discover an _ _); by injection Eq as <- _. }
  destruct r2 as [[q|]|]; [|done|done].
  destruct (verified_token _ _ _ _ _) as [[idt claims]|code] eqn:Hv; [|done].
  pose proof (finish_spec cfg ttl idt claims (op_next pending) d now' (tables c2) c2 eq_refl) as Hf. rewrite Hr in Hf.
  destruct (Hf sess u created next eq_refl) as (-> & Hd & He & Hs). rewrite Hauth in He.
  unfold verified_token in Hv. destruct (an_exchange an q _ _ _) as [[raw|]|] eqn:Hx; [|done|done].
  destruct (bool_decide (raw = _)); [done|]. destruct (an_verify an q raw) as [tok|] eqn:Hy; [|done].
  destruct (bool_decide (it_Nonce tok <> _)) eqn:Hn; [done|]. apply bool_decide_eq_false, dec_stable in Hn.
  destruct (decode_claims no_claims (it_payload tok)) as [cl ok] eqn:Edec. destruct ok; [|done]. injection Hv as <- Hcl.
  assert (Htc : token_claims tok claims).
  { unfold token_claims, or_default. rewrite Edec. cbn [fst snd]. rewrite <- Hcl. by case_bool_decide. }
  split_and!; [done|done|done|]. exists q, pending, raw, tok, claims. split_and!; done.
Qed.
End sign_in.

(** ** Memberships *)
Section members.
Context {Provider : Type} `{UnicodeTables} `{Bcrypt} `{Crypto} `{SetScan} `{URLParse}.
Implicit Types w : oidc_world Provider.
Definition is_member (v g : string) w : Prop := is_Some (user_groups (ow_access w) !! (v, g)).
Definition by_hand (v g : string) w : Prop := is_member v g w /\ (v, g) ∉ au_oidc_groups (ow_auth w).

Lemma member_login {E A} (m : DB login_world E A) v g : preserves (is_member v g) (on_login m).
Proof. by apply preserves_zoom. Qed.
Lemma member_accounts {A} (m : AuthM A) v g : preserves (is_member v g) (accounts m).
Proof. by apply preserves_zoom. Qed.
Lemma access_pointwise {A} (m : AccessM A) (P : oidc_world Provider -> Prop) :
  (forall w, P w -> hoare (eq (access_view w)) m (fun t _ => P (put_access t w))) -> preserves P (access m).
Proof. intros Hm. apply hoare_each. intros w Hw. apply hoare_access. by apply Hm. Qed.
Lemma member_add u g0 v g : preserves (is_member v g) (access (Provider := Provider) (AccessGroups.AddUserToGroup u g0)).
Proof.
  apply access_pointwise. intros w Hw. enough (preserves (fun t => is_Some (user_groups t !! (v, g))) (AccessGroups.AddUserToGroup u g0)) as Hp.
  { eapply hoare_conseq; [apply Hp| |]; [intros t <-; exact Hw|intros t r Ht; exact Ht]. }
  unfold AccessGroups.AddUserToGroup, AccessGroups.AddUserToGroupUntil, AccessGroups.require_group. preserve.
  apply preserves_exec. intros t t' [] Ht. destruct (decide _); [|done]. intros [= <-]. cbn.
  destruct (decide ((u, g0) = (v, g))) as [->|Hne]; [rewrite lookup_insert_eq; eauto|by rewrite lookup_insert_ne].
Qed.
Lemma member_remove u g0 v g : (u, g0) <> (v, g) -> preserves (is_member v g) (access (Provider := Provider) (AccessGroups.RemoveUserFromGroup u g0)).
Proof.
  intros Hne. apply access_pointwise. intros w Hw. enough (preserves (fun t => is_Some (user_groups t !! (v, g))) (AccessGroups.RemoveUserFromGroup u g0)) as Hp.
  { eapply hoare_conseq; [apply Hp| |]; [intros t <-; exact Hw|intros t r Ht; exact Ht]. }
  unfold AccessGroups.RemoveUserFromGroup, AccessGroups.require_group. preserve.
  apply preserves_exec. intros t t' [] Ht [= <-]. cbn. by rewrite lookup_delete_ne.
Qed.
Lemma grant_members u prev gs v g : preserves (is_member v g) (grant_groups (Provider := Provider) u prev gs).
Proof.
  induction gs as [|x gs IH]; cbn [grant_groups]; [preserve|]. apply preserves_bind; [|intros []; exact IH].
  destruct (decide _); [preserve|]. apply preserves_call, member_add.
Qed.
Lemma revoke_members u X gs v g : v <> u \/ g ∉ gs -> preserves (is_member v g) (revoke_groups (Provider := Provider) u X gs).
Proof.
  induction gs as [|x gs IH]; cbn [revoke_groups]; intros Hne; [preserve|].
  apply preserves_bind; [|intros []; apply IH; set_solver]. destruct (decide _); [preserve|].
  apply preserves_bind; [apply preserves_try, member_remove; set_solver|preserve].
Qed.
Lemma existing_same gs w : hoare (eq w) (existing (Provider := Provider) gs) (fun w' _ => w' = w).
Proof.
  induction gs as [|g gs IH]; cbn [existing]; [by apply hoare_mret|].
  apply hoare_bind with (R := fun w' _ => w' = w); [| |done].
  - apply hoare_try, hoare_access. unfold AccessGroups.Get. apply hoare_bind with (R := fun t _ => t = access_view w).
    + apply hoare_query; [by intros t <-|]. by intros t msg <-.
    + intros [n|]; [apply hoare_mret|apply hoare_mthrow]; intros t ->; apply put_access_view.
    + intros t e ->. apply put_access_view.
  - intros r. apply hoare_each. intros w' ->. apply hoare_bind with (R := fun w' _ => w' = w); [exact IH| |done]. intros rest. by apply hoare_mret.
Qed.
Lemma hoare_ManagedGroups u t : hoare (eq t) (ManagedGroups u) (fun t' r => t' = t /\ forall gs g, r = Ok gs -> g ∈ gs <-> (u, g) ∈ au_oidc_groups t).
Proof.
  unfold ManagedGroups. apply hoare_query; [|by intros t' msg <-]. intros t' <-. split; [done|]. intros gs g [= <-].
  rewrite (sort_strings_perm _), list_elem_of_omap. setoid_rewrite elem_of_elements. split.
  - intros ([a b] & Hin & Hx). cbn in Hx. destruct (decide (a = u)) as [->|]; [|done]. by injection Hx as ->.
  - intros Hin. exists (u, g). split; [done|]. cbn. by rewrite decide_True.
Qed.
Lemma sync_members cfg u raw v g : hoare (by_hand v g) (syncOIDCGroups (Provider := Provider) cfg u raw) (fun w _ => is_member v g w).
Proof.
  apply hoare_each. intros w [Hm Hh]. unfold syncOIDCGroups.
  apply hoare_bind with (R := fun w' _ => w' = w); [apply existing_same| |by intros t e ->]. intros found. apply hoare_each. intros w' ->.
  apply hoare_bind with (R := fun w' r => w' = w /\ forall gs x, r = Ok gs -> x ∈ gs <-> (u_ID u, x) ∈ au_oidc_groups (ow_auth w)); [| |by intros t e [-> _]].
  { apply hoare_call. eapply hoare_conseq; [apply reads_accounts, hoare_ManagedGroups|done|]. intros t [gs|e] [-> Hg]; [|done]. split; [done|]. intros gs' x [= <-]. by apply Hg. }
  intros prev. apply hoare_each. intros w' [-> Hprev]. specialize (fun x => Hprev prev x eq_refl).
  eapply hoare_conseq with (P' := is_member v g); [|by intros ? <-|by intros t r Ht; exact Ht].
  apply preserves_bind; [apply grant_members|]. intros []. apply preserves_bind.
  { apply revoke_members. destruct (decide (v = u_ID u)) as [->|]; [|by left]. right. by rewrite Hprev. }
  intros []. apply preserves_bind; [apply preserves_call, member_accounts|]. intros []. unfold sync_role.
  repeat first [simple apply preserves_call | simple apply member_accounts | simple apply member_login | progress preserve].
Qed.

Lemma hand_accounts {A} (m : AuthM A) v g :
  preserves (fun t => (v, g) ∉ au_oidc_groups t) m -> preserves (by_hand v g) (accounts (Provider := Provider) m).
Proof.
  intros Hm. apply hoare_each. intros w [Hw Hh]. apply hoare_accounts. eapply hoare_conseq; [apply Hm| |]; [by intros t <-|]. intros t r Ht. by split.
Qed.
Lemma resolve_hand cfg issuer claims raw rand salt v g : preserves (by_hand v g) (resolveOIDCUser (Provider := Provider) cfg issuer claims raw rand salt).
Proof.
  unfold resolveOIDCUser, linked_user.
  repeat first [simple apply preserves_call | simple apply hand_accounts; unfold Lookup, GetByID, ListUsers, Link, CreateUser | progress preserve].
  all: apply preserves_exec; intros t t' []; intros Ht; repeat case_match; try done; by intros [= <-].
Qed.

Context (ttl : duration) (oidc : option oidcConfig).
Context (AuthCodeURL : oidcConfig -> Provider -> string -> string -> string -> string -> string).
(** A membership that no sign-in granted is there after any request of the
    flow, with any token and whatever statements fail: neither the groups of the
    token nor an error removes what an administrator added. *)
Theorem hand_added_memberships_stay op v g c : by_hand v g (tables c) ->
  is_member v g (tables (oidc_exec ttl oidc AuthCodeURL op c).1).
Proof.
  assert (Hprov : forall cfg f, preserves (by_hand v g) (providerFor (Provider := Provider) cfg f)).
  { intros cfg f. apply preserves_memory. intros w Hw. cbv zeta; repeat case_match; exact Hw. }
  revert c. enough (hoare (by_hand v g) (oidc_exec ttl oidc AuthCodeURL op) (fun w _ => is_member v g w)) as Ht by exact Ht.
  destruct op; cbn [oidc_exec].
  - apply hoare_conseq with (P' := by_hand v g) (Q' := fun w _ => by_hand v g w); [|by intros t Ht; exact Ht|by intros t res [Ht _]; exact Ht].
    change (preserves (by_hand v g) (handleOIDCLogin oidc AuthCodeURL r an stateRand nonceRand verifier now0 now)).
    unfold handleOIDCLogin. repeat first [simple apply Hprov | simple apply preserves_memory | progress preserve]. assumption.
  - unfold handleOIDCCallback. destruct oidc as [cfg|]; [|apply hoare_mthrow; by intros t []].
    destruct (bool_decide _); [apply hoare_mret; by intros t []|]. destruct (_ || _); [apply hoare_mret; by intros t []|].
    apply hoare_bind with (R := fun w _ => by_hand v g w); [|intros p|by intros t e []].
    { apply preserves_memory. intros w Hw. destruct (popState _ _ _). exact Hw. }
    destruct p as [p|]; [|apply hoare_mret; by intros t []].
    apply hoare_bind with (R := fun w _ => by_hand v g w); [apply Hprov|intros q|by intros t e []].
    destruct q as [q|msg]; [|apply hoare_mret; by intros t []].
    destruct (verified_token _ _ _ _ _) as [[idt claims]|code]; [|apply hoare_mret; by intros t []].
    unfold finish_oidc. apply hoare_bind with (R := fun w _ => by_hand v g w); [apply preserves_try, resolve_hand|intros res|by intros t e []].
    destruct res as [[u created]|e]; [|destruct e; apply hoare_mret; by intros t []].
    destruct (u_Disabled u); [apply hoare_mret; by intros t []|].
    apply hoare_bind with (R := fun w _ => is_member v g w); [|intros res|done].
    { destruct (syncsGroups cfg); [apply hoare_try, sync_members|apply hoare_mret; by intros t []]. }
    destruct res; [|by apply hoare_mret]. apply preserves_bind; [apply preserves_try, member_accounts|]. preserve.
Qed.
End members.

(** ** What a sign-in leaves *)
Section reconcile.
Context {Provider : Type} `{UnicodeTables} `{Bcrypt} `{Crypto} `{SetScan}.
Implicit Types w : oidc_world Provider.
Context (cfg : oidcConfig).
Definition group_exists w (g : string) : Prop := is_Some (access_groups (ow_access w) !! g).
#[export] Instance group_exists_dec w g : Decision (group_exists w g) := decide (is_Some (access_groups (ow_access w) !! g)).
(** The mapped groups of the token that exist. *)
Definition wanted_groups w (raw : jobject) : list string :=
  filter (group_exists w) (mapped cfg (oidcClaimGroups raw (oc_GroupsClaim cfg))).
Definition managed w (u g : string) : Prop := (u, g) ∈ au_oidc_groups (ow_auth w).
#[export] Instance managed_dec w u g : Decision (managed w u g) := decide ((u, g) ∈ au_oidc_groups (ow_auth w)).
Definition account w (u : string) : Prop := is_Some (au_users (ow_auth w) !! u).

Lemma existing_run gs w : existing gs (connect w) = (connect w, Ok (filter (group_exists w) gs)).
Proof.
  induction gs as [|g gs IH]; cbn [existing]; [done|].
  assert (Hg : exists r, AccessGroups.Get g (connect (access_view w)) = (connect (access_view w), r) /\ (is_ok r = true <-> group_exists w g)).
  { unfold AccessGroups.Get. rewrite bind_query by done. cbn. unfold group_exists. destruct (access_groups (ow_access w) !! g) as [n|].
    - eexists. split; [reflexivity|]. split; [eauto|done].
    - eexists. split; [reflexivity|]. split; [done|by intros [? ?]]. }
  destruct Hg as (r & Hr & Hok). apply access_eq in Hr. rewrite put_access_view in Hr.
  rewrite (bind_eq _ _ _ _ _ (try_eq _ _ _ _ Hr)), (bind_eq _ _ _ _ _ IH), filter_cons. unfold db_ret.
  destruct r; cbn in Hok; [rewrite decide_True by tauto|rewrite decide_False by (intros X; apply Hok in X; done)]; done.
Qed.
Lemma ManagedGroups_run u t : exists gs, ManagedGroups u (connect t) = (connect t, Ok gs) /\ forall g, g ∈ gs <-> (u, g) ∈ au_oidc_groups t.
Proof.
  unfold ManagedGroups. rewrite query_healthy by done. eexists. split; [reflexivity|]. intros g.
  destruct (hoare_ManagedGroups u t (connect t) eq_refl) as [_ Hg]. unfold ManagedGroups in Hg. rewrite query_healthy in Hg by done.
  by apply (Hg _ g).
Qed.

(** The memberships after granting and revoking; the rest of the world is the same. *)
Record regrouped w (P : string -> string -> Prop) (new : option (option Z)) w' : Prop := {
  rg_in : forall v g, P v g -> user_groups (ow_access w') !! (v, g) = new;
  rg_out : forall v g, ~ P v g -> user_groups (ow_access w') !! (v, g) = user_groups (ow_access w) !! (v, g);
  rg_groups : access_groups (ow_access w') = access_groups (ow_access w);
  rg_login : ow_login w' = ow_login w
}.
Lemma add_run u g w : account w u -> group_exists w g ->
  exists w', call (access (AccessGroups.AddUserToGroup u g)) EAccess (connect w) = (connect w', Ok tt) /\
    regrouped w (fun v x => v = u /\ x = g) (Some None) w'.
Proof.
  intros Hu Hg. pose (t := access_view w). exists (put_access (with_user_groups t (<[(u, g) := None]> (user_groups t))) w). split.
  - apply call_eq, access_eq. unfold AccessGroups.AddUserToGroup, AccessGroups.AddUserToGroupUntil, AccessGroups.require_group, db_tx, db_call. cbn [connect faults].
    destruct Hg as [n Hn]. unfold db_bind, db_query, db_exec, db_call. cbn. rewrite Hn. cbn.
    destruct (decide _) as [_|Hx]; [|destruct Hx; split; [by apply elem_of_dom|rewrite Hn; eauto]]. reflexivity.
  - split; [| |done|done]; cbn.
    + intros v x [-> ->]. by rewrite lookup_insert_eq.
    + intros v x Hx. rewrite lookup_insert_ne; [done|]. intros [= -> ->]. tauto.
Qed.
Lemma regrouped_id w P new : (forall v g, ~ P v g) -> regrouped w P new w.
Proof. intros Hp. split; [|done..]. intros v g Hv. by destruct (Hp v g). Qed.
Lemma regrouped_trans w w1 w2 (P Q R : string -> string -> Prop) new : (forall v g, Decision (Q v g)) ->
  regrouped w P new w1 -> regrouped w1 Q new w2 -> (forall v g, R v g <-> P v g \/ Q v g) -> regrouped w R new w2.
Proof.
  intros Hdec [] [] HR. split; [| |congruence..].
  - intros v g Hv. destruct (Hdec v g); [by auto|]. rewrite rg_out1 by done. apply rg_in0. apply HR in Hv. tauto.
  - intros v g Hv. rewrite HR in Hv. rewrite rg_out1, rg_out0; tauto.
Qed.
Lemma grant_run u prev gs w : account w u -> (forall g, g ∈ gs -> group_exists w g) ->
  exists w', grant_groups u prev gs (connect w) = (connect w', Ok tt) /\ regrouped w (fun v g => v = u /\ g ∈ gs /\ g ∉ prev) (Some None) w'.
Proof.
  revert w. induction gs as [|g gs IH]; intros w Hu Hgs; cbn [grant_groups].
  { exists w. split; [done|]. apply regrouped_id. set_solver. }
  destruct (decide (g ∈ prev)) as [Hp|Hp].
  - destruct (IH w Hu ltac:(set_solver)) as (w' & E & Hr). exists w'. split; [exact E|]. destruct Hr. split; [| |done..].
    + intros v x Hx. apply rg_in0. set_solver.
    + intros v x Hx. apply rg_out0. set_solver.
  - destruct (add_run u g w Hu (Hgs g ltac:(set_solver))) as (w1 & E & Hr).
    destruct (IH w1) as (w2 & E2 & Hr2).
    { unfold account, ow_auth in *. by rewrite (rg_login _ _ _ _ Hr). }
    { intros x Hx. unfold group_exists. rewrite (rg_groups _ _ _ _ Hr). apply Hgs. set_solver. }
    exists w2. split; [by rewrite (bind_eq _ _ _ _ _ E)|]. eapply regrouped_trans; [|exact Hr|exact Hr2|]; [intros; apply _|].
    intros v x. cbn. rewrite elem_of_cons. split; [intros (-> & [->|Hx] & Hn); auto|intros [[-> ->]|(-> & Hx & Hn)]; auto].
Qed.
Lemma remove_run u g w : exists w' r, access (AccessGroups.RemoveUserFromGroup u g) (connect w) = (connect w', r) /\
  (r = Ok tt \/ r = Err ErrGroupNotFound) /\ regrouped w (fun v x => v = u /\ x = g /\ group_exists w g) None w'.
Proof.
  pose (t := access_view w). unfold AccessGroups.RemoveUserFromGroup, AccessGroups.require_group.
  destruct (access_groups (ow_access w) !! g) as [n|] eqn:Hn.
  - exists (put_access (with_user_groups t (delete (u, g) (user_groups t))) w), (Ok tt). split; [|split; [by left|split; [| |done|done]; cbn]].
    + apply access_eq. unfold db_bind, db_query, db_exec, db_call. cbn. rewrite Hn. reflexivity.
    + intros v x (-> & -> & _). by rewrite lookup_delete_eq.
    + intros v x Hx. rewrite lookup_delete_ne; [done|]. intros [= -> ->]. apply Hx. split_and!; [done..|by exists n].
  - exists w, (Err ErrGroupNotFound). split; [|split; [by right|apply regrouped_id; intros v x (_ & _ & y & Hy); congruence]].
    rewrite <- (put_access_view w) at 2. apply access_eq. unfold db_bind, db_query, db_exec, db_call. cbn. by rewrite Hn.
Qed.
Lemma revoke_run u X gs w : exists w', revoke_groups u X gs (connect w) = (connect w', Ok tt) /\
  regrouped w (fun v g => v = u /\ (g ∈ gs /\ g ∉ X) /\ group_exists w g) None w'.
Proof.
  revert w. induction gs as [|g gs IH]; intros w; cbn [revoke_groups].
  { exists w. split; [done|]. apply regrouped_id. set_solver. }
  destruct (decide (g ∈ X)) as [Hp|Hp].
  - destruct (IH w) as (w' & E & Hr). exists w'. split; [exact E|]. destruct Hr. split; [| |done..].
    + intros v x Hx. apply rg_in0. set_solver.
    + intros v x Hx. apply rg_out0. set_solver.
  - destruct (remove_run u g w) as (w1 & r & E & Hok & Hr). destruct (IH w1) as (w2 & E2 & Hr2). exists w2. split.
    + apply (try_eq (E' := oidc_err)) in E. unfold db_bind at 1. rewrite (bind_eq _ _ _ _ _ E).
      destruct Hok as [->| ->]; [exact E2|]. rewrite decide_True by done. exact E2.
    + eapply regrouped_trans; [|exact Hr|exact Hr2|]; [intros; apply _|]. intros v x. cbn. unfold group_exists. rewrite (rg_groups _ _ _ _ Hr), elem_of_cons.
      split; [intros (-> & [[->|Hx] Hn] & Hg); auto|intros [(-> & -> & Hg)|(-> & [Hx Hn] & Hg)]; auto 10].
Qed.
Lemma insert_groups_run u gs t : known t u -> (forall g, g ∈ gs -> g ∈ au_group_ids t) ->
  exists X, insert_groups u gs (connect t) = (connect (with_oidc_groups t X), Ok tt) /\
    forall v g, (v, g) ∈ X <-> (v, g) ∈ au_oidc_groups t \/ (v = u /\ g ∈ gs).
Proof.
  revert t. induction gs as [|g gs IH]; intros t Hu Hgs; cbn [insert_groups].
  { exists (au_oidc_groups t). split; [by destruct t|]. set_solver. }
  pose (Y := if decide ((u, g) ∈ au_oidc_groups t) then au_oidc_groups t else au_oidc_groups t ∪ {[(u, g)]}).
  destruct (IH (with_oidc_groups t Y)) as (X & E & HX); [exact Hu|intros x Hx; apply Hgs; set_solver|]. exists X. split.
  - erewrite bind_eq; [exact E|]. unfold db_exec, db_call, Y. cbn. destruct (decide ((u, g) ∈ _)); [by destruct t|].
    rewrite decide_True; [done|]. split; [exact Hu|apply Hgs; set_solver].
  - intros v x. rewrite HX. unfold Y. cbn. destruct (decide _); set_solver.
Qed.
Lemma SetManagedGroups_run u gs w : account w u -> (forall g, g ∈ gs -> group_exists w g) ->
  exists w', call (accounts (SetManagedGroups u gs)) EAuth (connect w) = (connect w', Ok tt) /\ ow_access w' = ow_access w /\
    au_users (ow_auth w') = au_users (ow_auth w) /\ au_sessions (ow_auth w') = au_sessions (ow_auth w) /\ (forall v g, managed w' v g <-> (v <> u /\ managed w v g) \/ (v = u /\ g ∈ gs)).
Proof.
  intros Hu Hgs. pose (t := auth_view w). pose (t0 := with_oidc_groups t (filter (fun x => x.1 <> u) (au_oidc_groups t))).
  destruct (insert_groups_run u gs t0) as (X & E & HX); [exact Hu|intros g Hg; cbn; by apply elem_of_dom, Hgs|].
  exists (write_auth (with_oidc_groups t0 X) w). split; [|split; [done|split; [done|split; [done|]]]].
  - apply call_eq, accounts_eq. unfold SetManagedGroups, db_tx, db_call. cbn [connect faults].
    match goal with |- context [db_bind ?m ?k ?c] => assert (Eb : db_bind m k c = (connect (with_oidc_groups t0 X), Ok tt)) end.
    { rewrite bind_exec by done. exact E. }
    rewrite Eb. reflexivity.
  - intros v g. unfold managed, ow_auth, write_auth. cbn. rewrite HX. unfold t0. cbn. rewrite elem_of_filter. cbn. unfold ow_auth. tauto.
Qed.
Lemma countAdmins_run (l : login_world) : exists n, countAdmins (connect l) = (connect l, Ok n) /\ ((2 <= n)%nat -> two_admins (au_users (lw_auth l))).
Proof.
  assert (E : exists n, countAdmins (connect l) = (connect l, Ok n)).
  { unfold countAdmins, ListUsers. cbv zeta. destruct l. eexists. reflexivity. }
  destruct E as [n E]. exists n. split; [done|].
  destruct (countAdmins_two (au_users (lw_auth l)) (connect l) eq_refl) as [_ Htwo]. rewrite E in Htwo. by apply Htwo.
Qed.
Lemma UpdateRole_run u role row t : au_users t !! u = Some row -> TrimSpace_s u <> ""%string -> role = RoleAdmin \/ role = RoleUser ->
  UpdateRole u role (connect t) = (connect (set_row u (set_role role row) t), Ok tt).
Proof.
  intros Hr Hid Hrole. unfold UpdateRole, require_id. rewrite bool_decide_false by done.
  assert ((bool_decide (role <> RoleAdmin) && bool_decide (role <> RoleUser)) = false) as ->.
  { apply andb_false_iff. rewrite !bool_decide_eq_false. destruct Hrole as [->| ->]; [left|right]; tauto. }
  unfold update_user. rewrite bind_exec by done. cbn. by rewrite Hr.
Qed.
Lemma sync_role_run u gs row w : au_users (ow_auth w) !! u_ID u = Some row -> u = scan_user (u_ID u) row -> TrimSpace_s (u_ID u) <> ""%string ->
  exists w', sync_role cfg u gs (connect w) = (connect w', Ok tt) /\ ow_access w' = ow_access w /\
    au_oidc_groups (ow_auth w') = au_oidc_groups (ow_auth w) /\ account w' (u_ID u) /\ au_sessions (ow_auth w') = au_sessions (ow_auth w) /\
    (some_admin (au_users (ow_auth w)) -> some_admin (au_users (ow_auth w'))).
Proof.
  intros Hrow Hu Hid. unfold sync_role. destruct (decide (oc_AdminGroups cfg = ∅)) as [_|_]; [exists w; split_and!; try done; by exists row|].
  set (wantAdmin := existsb _ gs). set (want := if wantAdmin then RoleAdmin else RoleUser).
  assert (Hwant : want = RoleAdmin \/ want = RoleUser) by (unfold want; destruct wantAdmin; auto).
  destruct (bool_decide (want = current_role u)) eqn:Hc; [exists w; split_and!; try done; by exists row|]. apply bool_decide_eq_false in Hc.
  pose (w' := write_auth (set_row (u_ID u) (set_role want row) (auth_view w)) w).
  assert (Hup : call (accounts (UpdateRole (u_ID u) want)) EAuth (connect w) = (connect w', Ok tt)).
  { apply call_eq, accounts_eq. by apply UpdateRole_run. }
  assert (Hkept : account w' (u_ID u)) by (exists (set_role want row); apply lookup_insert_eq).
  destruct (bool_decide (want = RoleUser)) eqn:Hdem.
  - destruct (countAdmins_run (login_view w)) as (n & Hn & Htwo). apply login_eq in Hn. rewrite put_login_same in Hn.
    erewrite bind_eq; [|rewrite (bind_eq _ _ _ _ _ (try_eq _ _ _ _ Hn)); reflexivity]. destruct (n <=? 1)%nat eqn:Hle; [exists w; split_and!; try done; by exists row|].
    exists w'. split; [exact Hup|]. do 2 (split; [done|]). split; [exact Hkept|]. split; [done|]. intros Hsome. apply some_admin_insert; [done|]. right. left. apply Htwo.
    apply Nat.leb_gt in Hle. lia.
  - apply bool_decide_eq_false in Hdem. destruct Hwant as [Hadm|]; [|done]. exists w'. split; [exact Hup|]. do 2 (split; [done|]). split; [exact Hkept|]. split; [done|].
    intros Hsome. apply some_admin_insert; [done|]. right. right. exists row. split; [done|]. intros [Hr _]. apply Hc. rewrite Hadm.
    unfold current_role. rewrite Hu. cbn. rewrite Hr. done.
Qed.

(** [w'] after the groups of the token [raw] were applied to the account [u]. *)
Record synced w (u : User) (raw : jobject) w' : Prop := {
  sy_managed : forall v g, managed w' v g <-> (v <> u_ID u /\ managed w v g) \/ (v = u_ID u /\ g ∈ wanted_groups w raw);
  sy_members : forall v g, user_groups (ow_access w') !! (v, g) =
    if decide (v = u_ID u /\ g ∈ wanted_groups w raw /\ ~ managed w (u_ID u) g) then Some None
    else if decide (v = u_ID u /\ (managed w (u_ID u) g /\ g ∉ wanted_groups w raw) /\ group_exists w g) then None
    else user_groups (ow_access w) !! (v, g);
  sy_admin : some_admin (au_users (ow_auth w)) -> some_admin (au_users (ow_auth w'))
}.
Lemma sync_run u row raw w :
  au_users (ow_auth w) !! u_ID u = Some row -> u = scan_user (u_ID u) row -> TrimSpace_s (u_ID u) <> ""%string ->
  exists w', syncOIDCGroups cfg u raw (connect w) = (connect w', Ok tt) /\ synced w u raw w' /\
    account w' (u_ID u) /\ au_sessions (ow_auth w') = au_sessions (ow_auth w).
Proof.
  intros Hrow Hu Hid. unfold syncOIDCGroups. rewrite (bind_eq _ _ _ _ _ (existing_run _ w)). fold (wanted_groups w raw).
  set (D := list_to_set (wanted_groups w raw) : gset string).
  assert (HD : forall g, g ∈ D <-> g ∈ wanted_groups w raw) by (intros g; apply elem_of_list_to_set).
  assert (Hscan : forall g, g ∈ scan D <-> g ∈ wanted_groups w raw) by (intros g; rewrite scan_perm, elem_of_elements; apply HD).
  assert (Hex : forall g, g ∈ wanted_groups w raw -> group_exists w g) by (intros g Hg; by apply list_elem_of_filter in Hg as [? _]).
  assert (Hacc : account w (u_ID u)) by (by exists row).
  destruct (ManagedGroups_run (u_ID u) (auth_view w)) as (prev & Ep & Hprev). apply accounts_eq in Ep. rewrite write_auth_same in Ep.
  rewrite (bind_eq _ _ _ _ _ (call_eq _ _ _ _ _ Ep)).
  destruct (grant_run (u_ID u) prev (scan D) w Hacc) as (w1 & E1 & R1); [intros g Hg; by apply Hex, Hscan|]. rewrite (bind_eq _ _ _ _ _ E1).
  destruct (revoke_run (u_ID u) D prev w1) as (w2 & E2 & R2). rewrite (bind_eq _ _ _ _ _ E2).
  assert (Hauth : ow_auth w2 = ow_auth w) by (unfold ow_auth; by rewrite (rg_login _ _ _ _ R2), (rg_login _ _ _ _ R1)).
  assert (Hg2 : forall g, group_exists w2 g <-> group_exists w g) by (intros g; unfold group_exists; by rewrite (rg_groups _ _ _ _ R2), (rg_groups _ _ _ _ R1)).
  destruct (SetManagedGroups_run (u_ID u) (sort_strings (scan D)) w2) as (w3 & E3 & Ha3 & Hu3 & Hs3 & Hm3).
  { unfold account. by rewrite Hauth. }
  { intros g. rewrite (sort_strings_perm _), Hscan. intros Hg. by apply Hg2, Hex. }
  rewrite (bind_eq _ _ _ _ _ E3).
  destruct (sync_role_run u (oidcClaimGroups raw (oc_GroupsClaim cfg)) row w3) as (w4 & E4 & Ha4 & Hm4 & Hk4 & Hs4 & Hadm); [by rewrite Hu3, Hauth|done..|].
  exists w4. split; [exact E4|]. split; [|split; [exact Hk4|by rewrite Hs4, Hs3, Hauth]]. split.
  - intros v g. unfold managed at 1. rewrite Hm4. rewrite (Hm3 v g), (sort_strings_perm _), Hscan. unfold managed. by rewrite Hauth.
  - intros v g. rewrite Ha4, Ha3. assert (Hg1 : group_exists w1 g <-> group_exists w g) by (unfold group_exists; by rewrite (rg_groups _ _ _ _ R1)).
    assert (Hp : g ∈ prev <-> managed w (u_ID u) g) by apply Hprev.
    destruct (decide (v = u_ID u /\ g ∈ wanted_groups w raw /\ _)) as [Hin|Hin].
    + rewrite (rg_out _ _ _ _ R2); [apply (rg_in _ _ _ _ R1); rewrite Hscan, Hp; tauto|]. rewrite HD. tauto.
    + destruct (decide _) as [Hout|Hout].
      * apply (rg_in _ _ _ _ R2). rewrite HD, Hp, Hg1. tauto.
      * rewrite (rg_out _ _ _ _ R2) by (rewrite HD, Hp, Hg1; tauto). apply (rg_out _ _ _ _ R1). rewrite Hscan, Hp. tauto.
  - intros Hs. apply Hadm. by rewrite Hu3, Hauth.
Qed.

End reconcile.

(** ** The password of a created account, the page after the sign-in *)
Section text.
Context `{UnicodeTables}.
Lemma Encode_length_le l : (length (EncodeToString l) <= 2 * length l)%nat.
Proof. induction l as [|a|a b|a b c l IH] using list_ind3; simpl in *; lia. Qed.
(** The password of an account made for an identity passes the policy, so that
    no account is refused for it. *)
Lemma random_password_is_valid raw : bytes raw -> length raw = 32%nat ->
  exists pw, randomUnusablePassword (Ok raw) = Ok pw /\ ValidatePassword pw = Ok tt.
Proof.
  intros Hraw Hlen. eexists. split; [reflexivity|]. cbn [randomToken]. apply ValidatePassword_spec. unfold password_ok, RawURLEncoding.
  assert (Hg := Encode_graphic raw Hraw). rewrite bs_app, bs_str_of.
  2: { eapply Forall_impl; [exact Hg|]. intros b. unfold graphic, is_byte. lia. }
  change (bs "Aa1!") with [65; 97; 49; 33]. split.
  - rewrite length_app, length_fmap. pose proof (Encode_length raw). pose proof (Encode_length_le raw). unfold MinPasswordLength, MaxPasswordLength. cbn [length]. lia.
  - rewrite runes_ascii.
    + intros c. exists (match c with Upper => 65 | Lower => 97 | Digit => 49 | Special => 33 end). split; [destruct c; set_solver|].
      unfold class_of. destruct c; rewrite uc_ascii_upper, uc_ascii_lower, uc_ascii_digit, uc_ascii_special by done; reflexivity.
    + apply is_ascii_bounds. apply Forall_app_2; [repeat (apply Forall_cons_2; [lia|]); constructor|]. eapply Forall_impl; [exact Hg|]. intros b. unfold graphic. lia.
Qed.
(** The browser stays: whatever is asked for as the next page, the page kept
    with the state is a path of this host, never one that names another host. *)
Theorem next_page_stays_here `{URLParse} raw :
  hasPrefix (safeNextPath raw) "/" = true /\ hasPrefix (safeNextPath raw) "//" = false /\ hasPrefix (safeNextPath raw) "/\" = false.
Proof.
  unfold safeNextPath. cbv zeta. set (s := TrimSpace_s raw).
  destruct (bool_decide (s = ""%string) || _ || _ || _) eqn:Hs; [done|].
  rewrite !orb_false_iff in Hs. destruct Hs as [[[_ H1] H2] H3]. apply negb_false_iff in H1.
  destruct (url_Parse s) as [[scheme host]|]; [|done]. destruct (_ || _); [done|]. by rewrite H1, H2, H3.
Qed.
Lemma EqualFold_length s t : is_ascii (bs s) = true -> is_ascii (bs t) = true -> length (bs s) <> length (bs t) -> EqualFold_s s t = false.
Proof.
  intros Hs Ht Hl. unfold EqualFold_s, EqualFold. rewrite !runes_ascii by done. apply bool_decide_eq_false. intros E. apply Hl.
  apply (f_equal length) in E. by rewrite !length_fmap in E.
Qed.
(** An identity provider that sends [email_verified] as text, which
    [emailUnverified] has a case for, signs nobody in: the claims do not decode. *)
Theorem text_email_verified_is_refused {Provider} `{Bcrypt} `{Crypto} `{SetScan} `{URLParse} ttl cfg r (an : idp_answers Provider) d now now' c c' res s :
  (forall p raw idt, an_verify an p raw = Ok idt -> ("email_verified"%string, JString s) ∈ it_payload idt) ->
  handleOIDCCallback ttl (Some cfg) r an d now now' c = (c', res) -> exists code, res = Ok (OidcFailed code).
Proof.
  intros Hp. unfold handleOIDCCallback. destruct (bool_decide _); [intros [= <- <-]; eauto|]. destruct (_ || _); [intros [= <- <-]; eauto|].
  intros Hr. unfold db_bind at 1, memory at 1 in Hr. destruct (popState _ _ _) as [st [p|]]; [|injection Hr as <- <-; eauto].
  set (c1 := set_tables _ _) in Hr. destruct (providerFor_run cfg (an_discover an) c1) as (c2 & q & Eq & _). rewrite (bind_eq _ _ _ _ _ Eq) in Hr.
  destruct q as [q|]; [|injection Hr as <- <-; eauto]. unfold verified_token in Hr.
  destruct (an_exchange an q _ _ _) as [[raw|]|]; [|injection Hr as <- <-; eauto..]. destruct (bool_decide _); [injection Hr as <- <-; eauto|].
  destruct (an_verify an q raw) as [idt|] eqn:Hv; [|injection Hr as <- <-; eauto]. specialize (Hp q raw idt Hv).
  destruct (bool_decide _); [injection Hr as <- <-; eauto|].
  enough (Hd : forall o cl, ("email_verified"%string, JString s) ∈ o -> (decode_claims cl o).2 = false).
  { specialize (Hd _ no_claims Hp). destruct (decode_claims no_claims (it_payload idt)) as [cl ok]. cbn in Hd. subst ok. injection Hr as <- <-. eauto. }
  clear. induction o as [|kv o IH]; intros cl Hin; [by apply elem_of_nil in Hin|]. cbn [decode_claims].
  apply elem_of_cons in Hin as [<-|Hin].
  - assert (Hb : set_claim cl ("email_verified"%string, JString s) = (cl, false)).
    { unfold set_claim. rewrite EqualFold_s_refl, !EqualFold_length by (try reflexivity; discriminate). done. }
    rewrite Hb. by destruct (decode_claims cl o).
  - destruct (set_claim cl kv) as [cl' ok]. specialize (IH cl' Hin). destruct (decode_claims cl' o) as [cl2 ok']. cbn in *. subst ok'. apply andb_false_r.
Qed.
End text.

(** ** Defects *)
Section defects.
Context {Provider : Type} `{UnicodeTables} `{Bcrypt} `{Crypto} `{SetScan}.
Implicit Types w : oidc_world Provider.
Context (cfg : oidcConfig).

(** A membership that an administrator added by hand, even for a limited
    time, becomes a managed one without expiry as soon as a token wants its
    group, and a later token without the group takes it away. *)
Theorem hand_added_membership_is_adopted u row raw w g e : user_groups (ow_access w) !! (u_ID u, g) = Some e -> ~ managed w (u_ID u) g ->
  g ∈ wanted_groups cfg w raw ->
  au_users (ow_auth w) !! u_ID u = Some row -> u = scan_user (u_ID u) row -> TrimSpace_s (u_ID u) <> ""%string ->
  exists w1, syncOIDCGroups cfg u raw (connect w) = (connect w1, Ok tt) /\ user_groups (ow_access w1) !! (u_ID u, g) = Some None /\
    forall u' row' raw', u_ID u' = u_ID u -> au_users (ow_auth w1) !! u_ID u = Some row' -> u' = scan_user (u_ID u) row' ->
      group_exists w1 g -> g ∉ wanted_groups cfg w1 raw' ->
      exists w2, syncOIDCGroups cfg u' raw' (connect w1) = (connect w2, Ok tt) /\ user_groups (ow_access w2) !! (u_ID u, g) = None.
Proof.
  intros _ Hn Hg Hr Hu Hid. destruct (sync_run cfg u row raw w Hr Hu Hid) as (w1 & E & [Hm Hug _] & _).
  exists w1. split; [exact E|]. split; [rewrite Hug, decide_True by done; done|]. intros u' row' raw' Ei Hr' Hu' Hex Hng.
  rewrite <- Ei in Hr', Hid, Hu' |- *. destruct (sync_run cfg u' row' raw' w1 Hr' Hu' Hid) as (w2 & E2 & [_ Hug2 _] & _).
  exists w2. split; [exact E2|]. rewrite Hug2, decide_False by tauto. rewrite decide_True; [done|]. split; [done|]. split; [|done]. split; [|done].
  apply Hm. right. by rewrite Ei.
Qed.
(** A managed membership that was withdrawn by hand is not granted again,
    although the token still carries the group. *)
Theorem withdrawn_membership_stays_withdrawn u row raw w g : managed w (u_ID u) g -> g ∈ wanted_groups cfg w raw ->
  user_groups (ow_access w) !! (u_ID u, g) = None ->
  au_users (ow_auth w) !! u_ID u = Some row -> u = scan_user (u_ID u) row -> TrimSpace_s (u_ID u) <> ""%string ->
  exists w', syncOIDCGroups cfg u raw (connect w) = (connect w', Ok tt) /\ managed w' (u_ID u) g /\ user_groups (ow_access w') !! (u_ID u, g) = None.
Proof.
  intros Hm Hg Hno Hr Hu Hid. destruct (sync_run cfg u row raw w Hr Hu Hid) as (w' & E & [Hm' Hug _] & _).
  exists w'. split; [exact E|]. split; [apply Hm'; tauto|]. by rewrite Hug, !decide_False by tauto.
Qed.
(** When counting the administrators fails, the role is written anyway: one
    failing query demotes the last administrator. *)
Theorem failed_count_demotes u row gs w msg : oc_AdminGroups cfg <> ∅ ->
  existsb (fun g => bool_decide (g ∈ oc_AdminGroups cfg)) gs = false -> u_Role u = RoleAdmin ->
  au_users (ow_auth w) !! u_ID u = Some row -> TrimSpace_s (u_ID u) <> ""%string ->
  exists w', sync_role cfg u gs (mkConn true w [Some msg]) = (connect w', Ok tt) /\
    au_users (ow_auth w') = <[u_ID u := set_role RoleUser row]> (au_users (ow_auth w)).
Proof.
  intros Ha Hg Hrole Hrow Hid. unfold sync_role. rewrite decide_False by done. cbv zeta. rewrite Hg. unfold current_role. rewrite Hrole.
  rewrite (bool_decide_false (RoleAdmin = ""%string)), (bool_decide_false (RoleUser = RoleAdmin)), (bool_decide_true (RoleUser = RoleUser)) by done.
  exists (write_auth (set_row (u_ID u) (set_role RoleUser row) (auth_view w)) w). split; [|done].
  assert (Hn : on_login countAdmins (mkConn true w [Some msg]) = (connect w, Err internal)).
  { rewrite <- (put_login_same w) at 2. unfold on_login, db_zoom, countAdmins, ListUsers. cbv zeta. destruct w as [[] ? ? ?]. reflexivity. }
  erewrite bind_eq; [|rewrite (bind_eq _ _ _ _ _ (try_eq _ _ _ _ Hn)); reflexivity]. cbv iota.
  apply call_eq, accounts_eq. apply UpdateRole_run; auto.
Qed.
(** When the account an identity is linked to can not be read once, and
    linking by name is on, the identity moves to the account of its name; the old
    link is gone. *)
Theorem failed_read_moves_the_link issuer claims raw rand salt w msg a b us : au_links (ow_auth w) !! (issuer, oc_Subject claims) = Some a ->
  ListUsers 1000 0 (connect (auth_view w)) = (connect (auth_view w), Ok us) ->
  find_username (claimed_name cfg claims raw).1 us = Some b -> (claimed_name cfg claims raw).1 <> ""%string ->
  link_refused cfg b (claimed_name cfg claims raw).2 raw = false ->
  known (auth_view w) (u_ID b) -> TrimSpace_s issuer <> ""%string -> TrimSpace_s (oc_Subject claims) <> ""%string -> TrimSpace_s (u_ID b) <> ""%string ->
  exists w', resolveOIDCUser cfg issuer claims raw rand salt (mkConn true w [None; Some msg]) = (connect w', Ok (b, false)) /\
    au_links (ow_auth w') !! (issuer, oc_Subject claims) = Some (u_ID b).
Proof.
  intros Hl Hus Hf Hne Href Hk H1' H2' H3'. set (s := oc_Subject claims) in *.
  exists (write_auth (with_links (auth_view w) (<[(issuer, s) := u_ID b]> (au_links (auth_view w)))) w). split; [|cbn; by rewrite lookup_insert_eq].
  unfold resolveOIDCUser. rewrite (bind_eq _ _ _ (connect w) None).
  2: { unfold linked_user. rewrite (bind_eq _ _ _ (mkConn true w [Some msg]) (Ok a)).
       - rewrite (bind_eq _ _ _ (connect w) (Err (ErrAuthDB msg))); [done|]. apply try_eq. unfold accounts, on_login, AuthLogin.on_auth, db_zoom. cbn.
         by destruct w as [[[] ? ?] ? ? ?].
       - apply try_eq. fold s. unfold accounts, on_login, AuthLogin.on_auth, db_zoom, Lookup, db_bind, db_query, db_exec, db_call. cbn. rewrite Hl. cbn.
         by destruct w as [[[] ? ?] ? ? ?]. }
  destruct (claimed_name cfg claims raw) as [name fromEmail]. cbn [fst snd] in *. rewrite bool_decide_false by done.
  apply accounts_eq in Hus. rewrite write_auth_same in Hus. rewrite (bind_eq _ _ _ _ _ (call_eq _ _ _ _ _ Hus)), Hf, Href.
  erewrite bind_eq; [reflexivity|]. apply call_eq, accounts_eq. unfold Link. rewrite !bool_decide_false by done. cbn [orb].
  rewrite exec_healthy by done. cbn. by rewrite decide_True.
Qed.
(** The identifier of a created account is made from the ASCII letters and
    digits of its name: an identity whose name gives an identifier that is taken
    is refused, always. Every name without such characters gives the same one. *)
Theorem slug_clash_is_refused issuer claims raw buf salt w us : au_links (ow_auth w) !! (issuer, oc_Subject claims) = None ->
  ListUsers 1000 0 (connect (auth_view w)) = (connect (auth_view w), Ok us) -> find_username (claimed_name cfg claims raw).1 us = None ->
  (claimed_name cfg claims raw).1 <> ""%string -> oc_AutoCreate cfg = true -> bytes buf -> length buf = 32%nat ->
  known (auth_view w) (slugID (claimed_name cfg claims raw).1) -> slugID (claimed_name cfg claims raw).1 <> ""%string ->
  resolveOIDCUser cfg issuer claims raw (Ok buf) (Ok salt) (connect w) = (connect w, Err (EAuth ErrUserExists)).
Proof.
  intros Hl Hus Hf Hne Hauto Hb Hlen [row Hrow] Hslug. unfold resolveOIDCUser. rewrite (bind_eq _ _ _ (connect w) None).
  2: { unfold linked_user. rewrite (bind_eq _ _ _ (connect w) (Err ErrOIDCLinkNotFound)); [done|]. apply try_eq. rewrite <- (write_auth_same w) at 2. apply accounts_eq.
       unfold Lookup. rewrite bind_query by done. change (au_links (tables (connect (auth_view w)))) with (au_links (ow_auth w)). by rewrite Hl. }
  destruct (claimed_name cfg claims raw) as [name fromEmail]. cbn [fst snd] in *. rewrite bool_decide_false by done.
  apply accounts_eq in Hus. rewrite write_auth_same in Hus. rewrite (bind_eq _ _ _ _ _ (call_eq _ _ _ _ _ Hus)), Hf, Hauto. cbn [negb].
  destruct (random_password_is_valid buf Hb Hlen) as (pw & Hpw & Hv). rewrite Hpw.
  assert (Hc : accounts (CreateUser (slugID name) name pw RoleUser (Ok salt)) (connect w) = (connect w, Err ErrUserExists)).
  { rewrite <- (write_auth_same w) at 2. apply accounts_eq. unfold CreateUser. rewrite !bool_decide_false by done. cbn [orb]. cbv zeta.
    unfold HashPassword. rewrite Hv. unfold db_bind, db_of, db_catch, db_exec, db_call. cbn. cbn in Hrow. by rewrite Hrow. }
  unfold db_bind at 1, call at 1, db_bind at 1, db_try at 1. rewrite Hc. reflexivity.
Qed.
End defects.

(** ** Examples *)
Example fields_ex : Fields (bs " openid  profile ") = [bs "openid"; bs "profile"].
Proof. vm_compute. reflexivity. Qed.
Example map_ex : parseOIDCGroupMap "ops=net, ops = net/tokyo;=x,desk=" = {["ops"%string := ["net"%string; "net/tokyo"%string]]}.
Proof. vm_compute. reflexivity. Qed.
Example groups_ex : oidcClaimGroups [("groups"%string, JArray [JString " ops "; JNumber "7"; JObject [("id"%string, JString "42"); ("name"%string, JString "desk")]])] "groups"
  = ["ops"; "desk"]%string.
Proof. vm_compute. reflexivity. Qed.
Example next_ex : safeNextPath "//evil.example" = "/"%string /\ safeNextPath "https://evil.example" = "/"%string.
Proof. vm_compute. done. Qed.

Definition demo_cfg : oidcConfig :=
  mkOidcConfig "https://idp" "" "vantyx" "" "https://vantyx/api/auth/oidc/callback" ["openid"%string] "preferred_username" true true "SSO" "groups"
    {["ops"%string := ["net"%string; "gone"%string]]} {["admins"%string]}.
Definition demo_users : gmap string user_row :=
  <["u1"%string := mkUserRow "alice" "" "user" "" 0 0]> {["root"%string := mkUserRow "root" "" "admin" "" 0 0]}.
Definition demo_auth : auth_tables := mkAuth demo_users ∅ ∅ ∅ 0 ∅ ∅ {[("https://idp"%string, "s0"%string) := "root"%string]} {[("u1"%string, "lab"%string)]} ∅.
Definition demo_tables : access_tables :=
  mkAccess ∅ (<["lab"%string := "Lab"%string]> {["net"%string := "Net"%string]}) ∅
    (<[("u1"%string, "net"%string) := Some 99]> {[("u1"%string, "lab"%string) := None]}) ∅ ∅ ∅ ∅.
Definition demo_world : oidc_world string :=
  mkOidc (mkLogin demo_auth None None) demo_tables None {["st"%string := mkOidcPending "n" "v" "/targets" 1000]}.
Definition demo_token (groups : list string) : IDToken :=
  mkIDToken "https://idp" "s1" "n" [("sub"%string, JString "s1"); ("preferred_username"%string, JString "Alice"); ("groups"%string, JArray (JString <$> groups))].
Definition demo_idp (t : IDToken) : idp_answers string :=
  mkAnswers (fun url _ => Ok url) (fun _ _ code _ => if bool_decide (code = "c"%string) then Ok (Some "jwt"%string) else Err "denied"%string) (fun _ _ => Ok t).
Definition demo_callback : oidc_request := mkOidcRequest true "" "vantyx" "" "" "st" "c" (Some "st"%string).
Definition demo_draws : sign_in_draws := mkDraws (Ok (replicate 32 7)) (Ok []) (Ok [1; 2]).
Definition demo_result : conn (oidc_world string) * result http_err oidc_reply :=
  handleOIDCCallback 60 (Some demo_cfg) demo_callback (demo_idp (demo_token ["ops"%string])) demo_draws 10 11 (connect demo_world).
Lemma oidc_sign_in_is_entitled_witness : exists sess u, demo_result.2 = Ok (SignedIn sess u false "/targets") /\ u_ID u = "u1"%string /\ u_Disabled u = false.
Proof.
  destruct demo_result as [c' res] eqn:E. pose proof (f_equal snd E) as Er. vm_compute in Er. subst res.
  eexists _, _. split; [reflexivity|]. split; [reflexivity|].
  eapply (oidc_sign_in_is_entitled 60 demo_cfg demo_callback (demo_idp (demo_token ["ops"%string])) demo_draws 10 11 (connect demo_world) c'). exact E.
Defined.
Lemma hand_added_memberships_stay_witness :
  is_member "u1" "net" (tables (oidc_exec 60 (Some demo_cfg) (fun _ _ _ _ _ _ => ""%string) (OCallback demo_callback (demo_idp (demo_token [])) demo_draws 10 11) (connect demo_world)).1).
Proof. apply hand_added_memberships_stay. split; [eexists; vm_compute; reflexivity|]. apply (bool_decide_eq_true_1 _). vm_compute. reflexivity. Defined.
Definition alice : User := mkUser "u1" "alice" "" "user" "" false false.
Definition alice_row : user_row := mkUserRow "alice" "" "user" "" 0 0.
Definition ops_claims : jobject := it_payload (demo_token ["ops"%string]).
Lemma text_email_verified_is_refused_witness : exists code, (handleOIDCCallback 60 (Some demo_cfg) demo_callback
  (demo_idp (mkIDToken "https://idp" "s1" "n" [("email_verified"%string, JString "true")])) demo_draws 10 11 (connect demo_world)).2 = Ok (OidcFailed code).
Proof.
  eapply text_email_verified_is_refused; [|apply surjective_pairing]. intros p raw idt [= <-]. left.
Defined.
Lemma hand_added_membership_is_adopted_witness :
  exists w1, syncOIDCGroups demo_cfg alice ops_claims (connect demo_world) = (connect w1, Ok tt) /\ user_groups (ow_access w1) !! ("u1"%string, "net"%string) = Some None.
Proof.
  destruct (hand_added_membership_is_adopted demo_cfg alice alice_row ops_claims demo_world "net" (Some 99)) as (w1 & E & Hg & _).
  - reflexivity.
  - apply (bool_decide_eq_false_1 _). vm_compute. reflexivity.
  - vm_compute. left.
  - reflexivity.
  - reflexivity.
  - vm_compute. discriminate.
  - exists w1. by split.
Defined.
Definition withdrawn_world : oidc_world string :=
  mkOidc (mkLogin (mkAuth demo_users ∅ ∅ ∅ 0 ∅ ∅ ∅ {[("u1"%string, "net"%string)]} ∅) None None)
    (mkAccess ∅ {["net"%string := "Net"%string]} ∅ ∅ ∅ ∅ ∅ ∅) None ∅.
Lemma withdrawn_membership_stays_withdrawn_witness :
  exists w', syncOIDCGroups demo_cfg alice ops_claims (connect withdrawn_world) = (connect w', Ok tt) /\ user_groups (ow_access w') !! ("u1"%string, "net"%string) = None.
Proof.
  destruct (withdrawn_membership_stays_withdrawn demo_cfg alice alice_row ops_claims withdrawn_world "net") as (w' & E & _ & Hg).
  - apply (bool_decide_eq_true_1 _). vm_compute. reflexivity.
  - vm_compute. left.
  - reflexivity.
  - reflexivity.
  - reflexivity.
  - vm_compute. discriminate.
  - exists w'. by split.
Defined.
Lemma failed_count_demotes_witness :
  exists w', sync_role demo_cfg (mkUser "root" "root" "" "admin" "" false false) [] (mkConn true demo_world [Some "disk I/O error"%string]) = (connect w', Ok tt) /\
    ur_role <$> au_users (ow_auth w') !! "root"%string = Some "user"%string.
Proof.
  destruct (failed_count_demotes demo_cfg (mkUser "root" "root" "" "admin" "" false false) (mkUserRow "root" "" "admin" "" 0 0) [] demo_world "disk I/O error")
    as (w' & E & Hu); [vm_compute; discriminate|reflexivity|reflexivity|reflexivity|vm_compute; discriminate|].
  exists w'. split; [exact E|]. rewrite Hu. reflexivity.
Defined.
Definition root_claims : oidcClaims := mkClaims "s0" "" false "alice" "".
Definition listed : list User := [alice; mkUser "root" "root" "" "admin" "" false false].
Lemma failed_read_moves_the_link_witness :
  exists w', resolveOIDCUser demo_cfg "https://idp" root_claims [] (Ok []) (Ok []) (mkConn true demo_world [None; Some "disk I/O error"%string]) = (connect w', Ok (alice, false)) /\
    au_links (ow_auth w') !! ("https://idp"%string, "s0"%string) = Some "u1"%string.
Proof.
  apply (failed_read_moves_the_link demo_cfg "https://idp" root_claims [] (Ok []) (Ok []) demo_world "disk I/O error" "root" alice listed);
    try (vm_compute; reflexivity); try (vm_compute; discriminate). by exists alice_row.
Defined.
Definition clash_world : oidc_world string :=
  mkOidc (mkLogin (mkAuth {["target"%string := mkUserRow (str_of [230; 151; 165]) "" "user" "" 0 0]} ∅ ∅ ∅ 0 ∅ ∅ ∅ ∅ ∅) None None) demo_tables None ∅.
Lemma slug_clash_is_refused_witness :
  resolveOIDCUser demo_cfg "https://idp" (mkClaims "s9" "" false (str_of [230; 156; 172]) "") [] (Ok (replicate 32 7)) (Ok []) (connect clash_world)
    = (connect clash_world, Err (EAuth ErrUserExists)).
Proof.
  apply (slug_clash_is_refused demo_cfg "https://idp" _ [] (replicate 32 7) [] clash_world [mkUser "target" (str_of [230; 151; 165]) "" "user" "" false false]);
    try (vm_compute; reflexivity); try (vm_compute; discriminate).
  - apply Forall_replicate. split; lia.
  - eexists. vm_compute. reflexivity.
Defined.
