(* ===== verification/Governor.v ===== *)
(** Limits on recording work (src/internal/recording/governor.go): the settings,
    the check of the memory, and waiting for a slot.

    Floating-point numbers, the text of /proc/meminfo and the clock are parameters.
    A call of [Acquire] runs beside other goroutines that take and give back slots,
    so it is a small machine whose steps are the points where it can wait: a look at
    context, memory and clock, the poll timer, the blocking send to the channel of
    slots, and what other goroutines do to that channel in between. *)
From S2P Require Import Prelude GoText OidcLogin.
Local Open Scope Z_scope.

Definition memoryWaitMaxDuration : duration := 30 * second.
Definition memoryPollInterval : duration := 2 * second.
Class Float64 := {
  float64 : Type;
  ParseFloat : string -> option float64;
  out_of_range : float64 -> bool;          (* f <= 0 || f > 1 *)
  scaled : Z -> float64 -> Z;              (* int(float64(n) * f) *)
  below : Z -> Z -> float64 -> bool;       (* float64(a) / float64(b) < f *)
  defaultResourceLimit : float64;
  default_in_range : out_of_range defaultResourceLimit = false;
  scaled_le : forall n f, 1 <= n -> out_of_range f = false -> scaled n f <= n
}.

Section governor.
Context `{Float64}.
Record Governor := mkGovernor { gv_limit : float64; gv_live : Z; gv_export : Z; gv_threads : Z }.
Definition envFloat (v : string) (def : float64) : float64 :=
  let v := TrimSpace_s v in
  if bool_decide (v = ""%string) then def else default def (ParseFloat v).
Definition NewGovernor (env : string) (numCPU : Z) : Governor :=
  let limit := envFloat env defaultResourceLimit in
  let limit := if out_of_range limit then defaultResourceLimit else limit in
  let nCPU := if numCPU <? 1 then 1 else numCPU in
  let slots := Z.max 1 (scaled nCPU limit) in
  mkGovernor limit slots slots slots.

(** [uint64] arithmetic wraps around. *)
Definition uint64 (z : Z) : Z := z `mod` 2 ^ 64.
Definition ParseUint (l : list Z) : option Z :=
  if bool_decide (l = []) then None
  else v ← digits_acc 0 l; if v <? 2 ^ 64 then Some v else None.
Definition parseMeminfoKB (line : list Z) : option Z :=
  match Fields line with
  | _ :: f :: _ => kb ← ParseUint f; Some (uint64 (kb * 1024))
  | _ => None
  end.
Definition meminfo_line (acc : Z * Z) (line : list Z) : Z * Z :=
  let (total, available) := acc in
  if has_prefix line (bs "MemTotal:") then (default 0 (parseMeminfoKB line), available)
  else if has_prefix line (bs "MemAvailable:") then (total, default 0 (parseMeminfoKB line))
  else acc.
(** The lines of the file, [None] when it can not be read. *)
Definition linuxMemInfo (lines : option (list (list Z))) : option (Z * Z) :=
  ls ← lines; let (total, available) := foldl meminfo_line (0, 0) ls in
  if total =? 0 then None else Some (total, available).
Definition memoryWithinLimit (g : Governor) (lines : option (list (list Z))) : bool :=
  match linuxMemInfo lines with
  | None => true
  | Some (total, available) => below (uint64 (total - available)) total (gv_limit g)
  end.


(** ** Waiting for a slot *)
Inductive acquire_pc := AtTop | Polling | Sending | Returned (r : result string unit).
Record acquiring := mkAcquiring { aq_pc : acquire_pc; aq_used : Z (* length of the channel *) }.
Inductive acquire_event :=
| ALook (ctx : option string) (meminfo : option (list (list Z))) (now : time)
| ATimer                      (* time.After *)
| ACancelled (e : string)     (* ctx.Done() *)
| ASend                       (* sem <- struct{}{} *)
| AOtherSend | ARelease.      (* another goroutine takes a slot or gives one back *)
Definition sem_cap (g : Governor) (live : bool) : Z := if live then gv_live g else gv_export g.
(** [release]: a receive with a default branch. *)
Definition release (used : Z) : Z := if 0 <? used then used - 1 else used.
(** One step; [None] when it can not happen there. [Acquire] waits on the slots of
    live captures and looks at the memory, [AcquireExport] does neither. *)
Definition acquire_step (g : Governor) (live : bool) (deadline : time) (s : acquiring) (ev : acquire_event) : option acquiring :=
  let used := aq_used s in
  match ev, aq_pc s with
  | ALook ctx meminfo now, AtTop =>
      match ctx with
      | Some e => Some (mkAcquiring (Returned (Err e)) used)
      | None =>
          if live && negb (memoryWithinLimit g meminfo) && Before now deadline
          then Some (mkAcquiring Polling used)
          else Some (mkAcquiring Sending used)
      end
  | ATimer, Polling => Some (mkAcquiring AtTop used)
  | ACancelled e, Polling | ACancelled e, Sending => Some (mkAcquiring (Returned (Err e)) used)
  | ASend, Sending => if used <? sem_cap g live then Some (mkAcquiring (Returned (Ok tt)) (used + 1)) else None
  | AOtherSend, pc => if used <? sem_cap g live then Some (mkAcquiring pc (used + 1)) else None
  | ARelease, pc => Some (mkAcquiring pc (release used))
  | _, _ => None
  end.
Fixpoint acquire_run (g : Governor) (live : bool) (deadline : time) (s : acquiring) (evs : list acquire_event) : option acquiring :=
  match evs with
  | [] => Some s
  | ev :: evs => s ← acquire_step g live deadline s ev; acquire_run g live deadline s evs
  end.
(** [acquire] on the governor that [DefaultGovernor] makes, or on none. *)
Definition acquire (g : option Governor) (live : bool) (now : time) (used : Z) (evs : list acquire_event) : option acquiring :=
  match g with
  | None => Some (mkAcquiring (Returned (Ok tt)) used)
  | Some g => acquire_run g live (now + memoryWaitMaxDuration) (mkAcquiring AtTop used) evs
  end.
End governor.

(** ** The governor *)
Section governor_theorems.
Context `{Float64}.
Lemma governor_slots env numCPU :
  let g := NewGovernor env numCPU in
  1 <= gv_live g <= Z.max 1 numCPU /\ gv_export g = gv_live g /\ gv_threads g = gv_live g /\ out_of_range (gv_limit g) = false.
Proof.
  unfold NewGovernor; cbn. set (l := if out_of_range _ then _ else _).
  assert (Hl : out_of_range l = false) by (subst l; destruct (out_of_range (envFloat _ _)) eqn:?; [apply default_in_range|done]).
  destruct (Z.ltb_spec numCPU 1).
  - pose proof (scaled_le 1 l ltac:(lia) Hl). repeat split; [lia|lia|done].
  - pose proof (scaled_le numCPU l ltac:(lia) Hl). repeat split; [lia|lia|done].
Qed.
End governor_theorems.

(** ** What a call of [Acquire] does *)
Section acquire_theorems.
Context `{Float64}.
Definition own (ev : acquire_event) : bool := match ev with AOtherSend | ARelease => false | _ => true end.
Definition is_timer (ev : acquire_event) : bool := match ev with ATimer => true | _ => false end.
Definition count (p : acquire_event -> bool) (evs : list acquire_event) : Z := Z.of_nat (length (filter (fun ev => p ev = true) evs)).
(** The clock does not go back, and the poll timer takes its two seconds. *)
Fixpoint paced (t : time) (evs : list acquire_event) : Prop :=
  match evs with
  | [] => True
  | ALook _ _ now :: evs => t <= now /\ paced now evs
  | ATimer :: evs => paced (t + memoryPollInterval) evs
  | _ :: evs => paced t evs
  end.
Lemma count_nil p : count p [] = 0.
Proof. done. Qed.
Lemma count_cons p ev evs : count p (ev :: evs) = (if p ev then 1 else 0) + count p evs.
Proof. unfold count. rewrite filter_cons. destruct (p ev); cbn [decide length]; case_decide; simplify_eq; cbn [length]; lia. Qed.
Lemma acquire_run_app g live deadline s evs evs' :
  acquire_run g live deadline s (evs ++ evs') = acquire_run g live deadline s evs ≫= fun s => acquire_run g live deadline s evs'.
Proof. revert s. induction evs as [|ev evs IH]; intros s; [done|]. cbn. destruct (acquire_step _ _ _ _ _); [apply IH|done]. Qed.
Lemma acquire_run_snoc g live deadline s evs ev :
  acquire_run g live deadline s (evs ++ [ev]) = acquire_run g live deadline s evs ≫= fun s => acquire_step g live deadline s ev.
Proof. rewrite acquire_run_app. cbn. destruct (acquire_run _ _ _ _ evs) as [s'|]; [|done]. cbn. by destruct (acquire_step _ _ _ _ _). Qed.

(** What is left to do at a point of the call, in polls that still fit. *)
Definition budget (pc : acquire_pc) (k : Z) : Z * Z :=
  match pc with AtTop => (k, 2 * k + 2) | Polling => (k, 2 * k + 1) | Sending => (0, 1) | Returned _ => (0, 0) end.
(** [k] more polls fit before the deadline; a poll only happens before it. *)
Definition fits (live : bool) (deadline t : time) (pc : acquire_pc) (k : Z) : Prop :=
  0 <= k /\ (live = true -> deadline <= t + k * memoryPollInterval) /\ (pc = Polling -> 1 <= k /\ live = true).
Lemma wait_in_polls : memoryWaitMaxDuration = 15 * memoryPollInterval /\ 0 < memoryPollInterval.
Proof. by vm_compute. Qed.
Ltac fit := unfold fits; cbn [aq_pc]; split; [lia|split; [|try done]].
Lemma acquire_steps_bounded g live deadline evs : forall s t k s',
  fits live deadline t (aq_pc s) k -> paced t evs -> acquire_run g live deadline s evs = Some s' ->
  count is_timer evs <= (budget (aq_pc s) k).1 /\ count own evs <= (budget (aq_pc s) k).2.
Proof.
  assert (HW : 0 < memoryPollInterval) by done.
  induction evs as [|ev evs IH]; intros [pc used] t k s' (Hk & Hd & Hp) Ht Hr.
  { rewrite !count_nil. destruct pc; cbn [budget aq_pc fst snd]; split; lia. }
  cbn [acquire_run] in Hr. apply bind_Some in Hr as (s1 & Hs & Hr). rewrite !count_cons.
  destruct ev as [ctx m now| |e| | |]; cbn [acquire_step aq_pc aq_used is_timer own paced] in *.
  - destruct pc; try done. destruct Ht as [Hnow Ht]. destruct ctx as [e|]; [|destruct (live && _ && _) eqn:Hw]; simplify_eq.
    1, 3: assert (Hf : forall pc, pc <> Polling -> fits live deadline now pc k) by (intros pc ?; fit; intros; specialize (Hd ltac:(done)); nia).
    1, 2: eapply IH in Hr as [? ?]; [|by apply (Hf _)|exact Ht]; cbn [budget aq_pc fst snd] in *; lia.
    apply andb_true_iff in Hw as [[-> _]%andb_true_iff Hb%Z.ltb_lt]. specialize (Hd eq_refl).
    assert (Hf : fits true deadline now Polling k) by (fit; intros; nia).
    eapply IH in Hr as [? ?]; [|exact Hf|exact Ht]. cbn [budget aq_pc fst snd] in *. lia.
  - destruct pc; simplify_eq. destruct (Hp eq_refl) as [? ->]. specialize (Hd eq_refl).
    assert (Hf : fits true deadline (t + memoryPollInterval) AtTop (k - 1)) by (fit; intros; nia).
    eapply IH in Hr as [? ?]; [|exact Hf|exact Ht]. cbn [budget aq_pc fst snd] in *. lia.
  - assert (Hf : fits live deadline t (Returned (Err e)) k) by by fit.
    destruct pc; simplify_eq; (eapply IH in Hr as [? ?]; [|exact Hf|exact Ht]); cbn [budget aq_pc fst snd] in *; lia.
  - assert (Hf : fits live deadline t (Returned (Ok tt)) k) by by fit.
    destruct pc; try done. destruct (used <? _); simplify_eq.
    (eapply IH in Hr as [? ?]; [|exact Hf|exact Ht]); cbn [budget aq_pc fst snd] in *; lia.
  - destruct (used <? _); simplify_eq. destruct (IH (mkAcquiring pc _) t k _ (conj Hk (conj Hd Hp)) Ht Hr); cbn [aq_pc] in *; lia.
  - simplify_eq. destruct (IH (mkAcquiring pc _) t k _ (conj Hk (conj Hd Hp)) Ht Hr); cbn [aq_pc] in *; lia.
Qed.

Definition is_look (ev : acquire_event) : bool := match ev with ALook _ _ _ => true | _ => false end.
(** The last look found the memory below the limit, or the thirty seconds gone. *)
Definition look_passes (g : Governor) (live : bool) (deadline : time) (evs : list acquire_event) : Prop :=
  exists pre m now post, evs = pre ++ ALook None m now :: post /\ count is_look post = 0 /\
    (live = true -> memoryWithinLimit g m = true \/ deadline <= now).
Definition gave_up (evs : list acquire_event) (e : string) : Prop :=
  ACancelled e ∈ evs \/ exists m now, ALook (Some e) m now ∈ evs.
Definition took_slot (g : Governor) (live : bool) (start : time) (used : Z) (evs : list acquire_event) : Prop :=
  exists pre post u, evs = pre ++ ASend :: post /\ u < sem_cap g live /\
    acquire (Some g) live start used pre = Some (mkAcquiring Sending u).
Definition point_ok (g : Governor) (live : bool) (start : time) (used : Z) (evs : list acquire_event) (s : acquiring) : Prop :=
  0 <= aq_used s <= sem_cap g live /\
  match aq_pc s with
  | AtTop => True
  | Polling => live = true
  | Sending => look_passes g live (start + memoryWaitMaxDuration) evs
  | Returned (Ok _) => look_passes g live (start + memoryWaitMaxDuration) evs /\ took_slot g live start used evs
  | Returned (Err e) => gave_up evs e
  end.
Lemma look_passes_snoc g live deadline evs ev : is_look ev = false -> look_passes g live deadline evs -> look_passes g live deadline (evs ++ [ev]).
Proof.
  intros Hev (pre & m & now & post & -> & Hc & Hm). exists pre, m, now, (post ++ [ev]). rewrite <- app_assoc. split_and!; [done| |done].
  unfold count in *. rewrite filter_app, length_app, filter_cons_False by (by rewrite Hev). cbn. lia.
Qed.
Lemma gave_up_snoc evs ev e : gave_up evs e -> gave_up (evs ++ [ev]) e.
Proof. intros [?|(m & now & ?)]; [left|right; exists m, now]; set_solver. Qed.
Lemma took_slot_snoc g live start used evs ev : took_slot g live start used evs -> took_slot g live start used (evs ++ [ev]).
Proof. intros (pre & post & u & -> & ?). exists pre, (post ++ [ev]), u. by rewrite <- app_assoc. Qed.
Lemma point_ok_snoc g live start used evs ev s s' :
  acquire (Some g) live start used evs = Some s -> point_ok g live start used evs s ->
  acquire_step g live (start + memoryWaitMaxDuration) s ev = Some s' -> point_ok g live start used (evs ++ [ev]) s'.
Proof.
  intros Hrun [Hu Hs] Hstep. destruct s as [pc u]. unfold point_ok in *. cbn [aq_pc aq_used] in *.
  destruct ev as [ctx m now| |e| | |]; cbn [acquire_step aq_pc aq_used] in Hstep.
  - destruct pc; try done. destruct ctx as [e|]; [|destruct (live && _ && _) eqn:Hw]; simplify_eq; cbn [aq_pc aq_used]; (split; [done|]).
    + right. exists m, now. set_solver.
    + by apply andb_true_iff in Hw as [[-> _]%andb_true_iff _].
    + exists evs, m, now, []. split_and!; [done..|]. intros ->. cbn in Hw.
      destruct (memoryWithinLimit g m); [by left|right]. by apply Z.ltb_ge in Hw.
  - destruct pc; by simplify_eq.
  - assert (Hg : gave_up (evs ++ [ACancelled e]) e) by (left; set_solver).
    destruct pc; simplify_eq; by split.
  - destruct pc; try done. destruct (Z.ltb_spec u (sem_cap g live)); simplify_eq; cbn [aq_pc aq_used]. split_and!; [lia|lia|by apply look_passes_snoc|].
    by exists evs, [], u.
  - destruct (Z.ltb_spec u (sem_cap g live)); simplify_eq; cbn [aq_pc aq_used]. split; [lia|].
    destruct pc as [| | |[]]; [done|done|by apply look_passes_snoc|destruct Hs; split; [by apply look_passes_snoc|by apply took_slot_snoc]|by apply gave_up_snoc].
  - simplify_eq; cbn [aq_pc aq_used]. split; [unfold release; destruct (Z.ltb_spec 0 u); lia|].
    destruct pc as [| | |[]]; [done|done|by apply look_passes_snoc|destruct Hs; split; [by apply look_passes_snoc|by apply took_slot_snoc]|by apply gave_up_snoc].
Qed.
Lemma acquire_point_ok g live start used evs s :
  0 <= used <= sem_cap g live -> acquire (Some g) live start used evs = Some s -> point_ok g live start used evs s.
Proof.
  intros Hu. revert s. induction evs as [|ev evs IH] using rev_ind; intros s Hr; [by simplify_eq/=|].
  pose proof Hr as Hr'. unfold acquire in Hr'. rewrite acquire_run_snoc in Hr'. apply bind_Some in Hr' as (s0 & H0 & Hstep).
  eapply point_ok_snoc; [exact H0|by apply IH|exact Hstep].
Qed.

(** C15. Waiting for a recording slot, beside any other goroutines that take and give
    back slots, while the clock does not go back and a poll takes its two seconds:
    [Acquire] polls for the memory at most fifteen times ([AcquireExport] never) and
    takes at most thirty-two steps of its own (two). Where it has not returned it is
    at its next look, waits for the poll timer, or waits for a slot, and takes it as
    soon as one is free; how long that lasts is up to the others. It succeeds only
    by taking a slot that was free, after a last look that found the memory below
    the limit or thirty seconds gone (for an export, whatever the memory), and it
    fails only with the error of its context. *)
Theorem acquire_ends g live start used evs s :
  paced start evs -> 0 <= used <= sem_cap g live -> acquire (Some g) live start used evs = Some s ->
  let deadline := start + memoryWaitMaxDuration in
  count is_timer evs <= (if live then 15 else 0) /\ count own evs <= (if live then 32 else 2) /\
  0 <= aq_used s <= sem_cap g live /\
  match aq_pc s with
  | AtTop => forall ctx m now, acquire_step g live deadline s (ALook ctx m now) <> None
  | Polling => live = true /\ acquire_step g live deadline s ATimer = Some (mkAcquiring AtTop (aq_used s))
  | Sending => look_passes g live deadline evs /\
      (aq_used s < sem_cap g live -> acquire_step g live deadline s ASend = Some (mkAcquiring (Returned (Ok tt)) (aq_used s + 1)))
  | Returned (Ok _) => look_passes g live deadline evs /\ took_slot g live start used evs
  | Returned (Err e) => gave_up evs e
  end.
Proof.
  intros Hp Hu Hr deadline. destruct (acquire_point_ok _ _ _ _ _ _ Hu Hr) as [Hus Hs].
  assert (Hf : fits live deadline start AtTop (if live then 15 else 0)).
  { destruct wait_in_polls as [HW _]. destruct live; fit; intros; subst deadline; lia. }
  destruct (acquire_steps_bounded g live deadline evs (mkAcquiring AtTop used) start _ s Hf Hp Hr) as [Ht Ho].
  cbn [budget aq_pc fst snd] in Ht, Ho. split_and!; [done|destruct live; lia|lia|lia|].
  destruct s as [pc u]; cbn [aq_pc aq_used acquire_step] in *. destruct pc as [| | |[]]; try done.
  - intros [e|] m now; [done|]. by destruct (_ && _ && _).
  - split; [done|]. intros ->%Z.ltb_lt. done.
Qed.
End acquire_theorems.

(** Without a governor there is nothing to wait for, and no slot is taken. *)
Lemma acquire_without_governor `{Float64} live start used evs : acquire None live start used evs = Some (mkAcquiring (Returned (Ok tt)) used).
Proof. done. Qed.

(** Percentages for floating-point numbers. *)
Definition percent : Float64.
Proof.
  refine {| float64 := Z; ParseFloat := fun _ => None; out_of_range := fun f => (f <=? 0) || (100 <? f);
    scaled := fun n f => n * f / 100; below := fun a b f => a * 100 <? b * f; defaultResourceLimit := 80 |}; [done|].
  intros n f Hn [? Hf%Z.ltb_ge]%orb_false_iff. apply Z.div_le_upper_bound; nia.
Defined.
Definition full_memory : option (list (list Z)) := Some [bs "MemTotal: 100 kB"; bs "MemAvailable: 1 kB"].
(** The memory stays full for thirty seconds and every slot is taken. *)
Definition patient_call : list acquire_event :=
  flat_map (fun i => [ALook None full_memory (Z.of_nat i * memoryPollInterval); ATimer]) (seq 0 15) ++
  [ALook None full_memory memoryWaitMaxDuration; ARelease; AOtherSend; ARelease; ASend].
Lemma acquire_ends_witness :
  let g := @NewGovernor percent "" 1 in
  count is_timer patient_call = 15 /\ count own patient_call = 32 /\
  @acquire percent (Some g) true 0 1 patient_call = Some (mkAcquiring (Returned (Ok tt)) 1) /\
  @look_passes percent g true memoryWaitMaxDuration patient_call /\ @took_slot percent g true 0 1 patient_call.
Proof.
  intros g.
  assert (Hr : @acquire percent (Some g) true 0 1 patient_call = Some (mkAcquiring (Returned (Ok tt)) 1)) by by vm_compute.
  assert (Hu : 0 <= 1 <= @sem_cap percent g true) by by vm_compute.
  assert (Hp : paced 0 patient_call) by (vm_compute; intuition discriminate).
  destruct (@acquire_ends percent g true 0 1 patient_call _ Hp Hu Hr) as (_ & _ & _ & Hl & Ht).
  split_and!; [by vm_compute|by vm_compute|exact Hr|exact Hl|exact Ht].
Defined.
