(* ===== verification/Captures.v ===== *)
(** The screen recordings of RDP and VNC sessions
    (src/internal/httpapi/video_recording.go): pending, active and finished captures.

    The capture processes are parameters, and the wait for a slot of the governor is
    a step that happens when there is one. [startVideoRecording] runs each capture on a
    goroutine of its own, so the registry is a set of interleaved steps: a step is
    what happens under one lock, or between two calls that wait. Cancelling the
    context of a capture kills its process. *)
From S2P Require Import Prelude GoText OidcLogin Governor.
Local Open Scope Z_scope.

(** ** Captures *)
Inductive phase := PWaiting | PSlot | PStarted | PRow | PReplace | PRegister | PRelease | PEndPending | PDone.
#[export] Instance phase_eq_dec : EqDecision phase. Proof. solve_decision. Defined.
(** A goroutine of [startVideoRecording]: [vj_cancelled] is its context,
    [vj_running] its process, [vj_slot] the slot it holds ([released] is false). *)
Record vjob := mkVjob { vj_session : string; vj_phase : phase; vj_cancelled : bool; vj_running : bool; vj_slot : bool }.
(** [videoRecordingHandle]: the capture and the context to cancel. *)
Record handle := mkHandle { hd_job : nat; hd_cancel : option nat }.
(** What a call of [finishVideoRecording] took and still has to stop. *)
Record finishing := mkFinishing { fi_session : string; fi_handle : option handle; fi_started : bool }.
Record vworld := mkVworld {
  vw_max : nat; vw_used : nat;               (* the slots of the governor *)
  vw_jobs : list vjob;
  vw_pending : gmap string nat; vw_active : gmap string handle; vw_started : gset string;
  vw_finishing : list finishing;
  vw_ended : gset string                     (* rows with ended_at *)
}.
Definition no_captures (max : nat) : vworld := mkVworld max 0 [] ∅ ∅ ∅ [] ∅.
Definition set_jobs w x := mkVworld (vw_max w) (vw_used w) x (vw_pending w) (vw_active w) (vw_started w) (vw_finishing w) (vw_ended w).
Definition set_used w x := mkVworld (vw_max w) x (vw_jobs w) (vw_pending w) (vw_active w) (vw_started w) (vw_finishing w) (vw_ended w).
Definition set_pending w x := mkVworld (vw_max w) (vw_used w) (vw_jobs w) x (vw_active w) (vw_started w) (vw_finishing w) (vw_ended w).
Definition set_active w x := mkVworld (vw_max w) (vw_used w) (vw_jobs w) (vw_pending w) x (vw_started w) (vw_finishing w) (vw_ended w).
Definition set_started w x := mkVworld (vw_max w) (vw_used w) (vw_jobs w) (vw_pending w) (vw_active w) x (vw_finishing w) (vw_ended w).
Definition set_finishing w x := mkVworld (vw_max w) (vw_used w) (vw_jobs w) (vw_pending w) (vw_active w) (vw_started w) x (vw_ended w).
Definition set_ended w x := mkVworld (vw_max w) (vw_used w) (vw_jobs w) (vw_pending w) (vw_active w) (vw_started w) (vw_finishing w) x.

Definition goto p (j : vjob) := mkVjob (vj_session j) p (vj_cancelled j) (vj_running j) (vj_slot j).
Definition cancelled (j : vjob) := mkVjob (vj_session j) (vj_phase j) true (vj_running j) (vj_slot j).
Definition with_running b (j : vjob) := mkVjob (vj_session j) (vj_phase j) (vj_cancelled j) b (vj_slot j).
Definition with_slot b (j : vjob) := mkVjob (vj_session j) (vj_phase j) (vj_cancelled j) (vj_running j) b.
Definition upd (g : nat) (f : vjob -> vjob) (w : vworld) : vworld := set_jobs w (alter f g (vw_jobs w)).
(** The closure [release]: once. *)
Definition release_slot (g : nat) (w : vworld) : vworld :=
  match vw_jobs w !! g with
  | Some j => if vj_slot j then set_used (upd g (with_slot false) w) (vw_used w - 1)%nat else w
  | None => w
  end.
Definition cancel_ctx (c : option nat) (w : vworld) : vworld := match c with Some g => upd g cancelled w | None => w end.
(** [stopVideoRecordingHandle]; the capture is a [governedCapture]. *)
Definition stopVideoRecordingHandle (h : handle) (w : vworld) : vworld :=
  cancel_ctx (hd_cancel h) (release_slot (hd_job h) (upd (hd_job h) (with_running false) w)).

Definition beginPending (s : string) (w : vworld) : vworld * bool :=
  match vw_active w !! s, vw_pending w !! s with
  | None, None => (set_pending w (<[s := length (vw_jobs w)]> (vw_pending w)), true)
  | _, _ => (w, false)
  end.
Definition endPending (s : string) (w : vworld) : vworld := set_pending w (delete s (vw_pending w)).
Definition cancelPending (s : string) (w : vworld) : vworld := cancel_ctx (vw_pending w !! s) (endPending s w).

Definition beginVideoRecordingRow (s : string) (ok : bool) (w : vworld) : vworld :=
  if ok then set_started w (vw_started w ∪ {[s]}) else w.
(** [registerVideoRecording], what it does under the lock. *)
Definition registerVideoRecording (g : nat) (s : string) (w : vworld) : vworld :=
  endPending s (set_active w (<[s := mkHandle g (vw_pending w !! s)]> (vw_active w))).

Inductive vstep :=
| VBegin (s : string)              (* startVideoRecording *)
| VParentDone (g : nat)            (* the request context ends *)
| VAcquire (g : nat) (ok : bool)
| VStart (g : nat) (ok : bool)
| VCheck (g : nat)
| VRow (g : nat) (ok : bool)       (* beginVideoRecordingRow *)
| VReplace (g : nat) | VRegister (g : nat)   (* registerVideoRecording, around its unlocked part *)
| VRelease (g : nat) | VEndPending (g : nat) (* the deferred calls *)
| VCancelPending (s : string) | VTake (s : string) | VStop (i : nat). (* finishVideoRecording *)
Definition at_phase (w : vworld) (g : nat) (p : phase) (f : vjob -> vworld) : vworld :=
  match vw_jobs w !! g with
  | Some j => if decide (vj_phase j = p) then f j else w
  | None => w
  end.
Definition vexec (w : vworld) (st : vstep) : vworld :=
  match st with
  | VBegin s =>
      let (w', ok) := beginPending s w in
      if ok then set_jobs w' (vw_jobs w' ++ [mkVjob s PWaiting false false false]) else w
  | VParentDone g => upd g cancelled w
  | VAcquire g ok => at_phase w g PWaiting (fun j =>
      if ok then if (vw_used w <? vw_max w)%nat then set_used (upd g (fun j => with_slot true (goto PSlot j)) w) (S (vw_used w)) else w
      else upd g (goto PEndPending) w)
  | VStart g ok => at_phase w g PSlot (fun j =>
      if vj_cancelled j then upd g (goto PRelease) w
      else if ok then upd g (fun j => with_running true (goto PStarted j)) w else upd g (goto PRelease) w)
  | VCheck g => at_phase w g PStarted (fun j =>
      if vj_cancelled j then upd g (fun j => with_running false (goto PRelease j)) w else upd g (goto PRow) w)
  | VRow g ok => at_phase w g PRow (fun j =>
      upd g (goto PReplace) (beginVideoRecordingRow (vj_session j) ok w))
  | VReplace g => at_phase w g PReplace (fun j =>
      upd g (goto PRegister) (match vw_active w !! vj_session j with Some h => stopVideoRecordingHandle h w | None => w end))
  | VRegister g => at_phase w g PRegister (fun j =>
      upd g (goto PRelease) (registerVideoRecording g (vj_session j) w))
  | VRelease g => at_phase w g PRelease (fun j => upd g (goto PEndPending) (release_slot g w))
  | VEndPending g => at_phase w g PEndPending (fun j => upd g (goto PDone) (endPending (vj_session j) w))
  | VCancelPending s => cancelPending s w
  | VTake s =>
      set_finishing (set_active w (delete s (vw_active w)))
        (vw_finishing w ++ [mkFinishing s (vw_active w !! s) (bool_decide (s ∈ vw_started w))])
  | VStop i =>
      match vw_finishing w !! i with
      | Some f =>
          let w := set_finishing w (delete i (vw_finishing w)) in
          let w := match fi_handle f with Some h => stopVideoRecordingHandle h w | None => w end in
          if fi_started f then set_ended w (vw_ended w ∪ {[fi_session f]}) else w
      | None => w
      end
  end.
Definition vrun (w : vworld) (sts : list vstep) : vworld := foldl vexec w sts.
(** The process of a capture lives until it is stopped or its context ends. *)
Definition capturing (w : vworld) (g : nat) : bool :=
  match vw_jobs w !! g with Some j => vj_running j && negb (vj_cancelled j) | None => false end.

(** ** The registry of captures *)
Definition early (p : phase) : bool :=
  match p with PWaiting | PSlot | PStarted | PRow | PReplace | PRegister => true | _ => false end.
Definition started_early (p : phase) : bool :=
  match p with PStarted | PRow | PReplace | PRegister => true | _ => false end.
Definition live (j : vjob) : bool := negb (vj_cancelled j).
(** Somebody is going to stop job [g]. *)
Definition held (w : vworld) (g : nat) : Prop :=
  (exists s h, vw_active w !! s = Some h /\ hd_job h = g) \/
  (exists f h, f ∈ vw_finishing w /\ fi_handle f = Some h /\ hd_job h = g).
Definition belongs (w : vworld) (g : nat) (s : string) : Prop := exists j, vw_jobs w !! g = Some j /\ vj_session j = s.
Record captures_ok (w : vworld) : Prop := {
  co_distinct : forall g g' s, belongs w g s -> belongs w g' s -> g = g';
  co_early : forall g j, vw_jobs w !! g = Some j -> early (vj_phase j) = true -> live j = true ->
    vw_pending w !! vj_session j = Some g;
  co_running : forall g j, vw_jobs w !! g = Some j -> vj_running j = true -> live j = true ->
    started_early (vj_phase j) = true \/ held w g;
  co_active : forall s h, vw_active w !! s = Some h -> belongs w (hd_job h) s;
  co_taken : forall f h, f ∈ vw_finishing w -> fi_handle f = Some h -> belongs w (hd_job h) (fi_session f)
}.
(** A change of job [g] that neither brings it back nor lets its process go. *)
Record tame (w : vworld) (g : nat) (f : vjob -> vjob) : Prop := {
  tm_session : forall j, vj_session (f j) = vj_session j;
  tm_early : forall j, vw_jobs w !! g = Some j -> early (vj_phase (f j)) = true -> live (f j) = true ->
    early (vj_phase j) = true /\ live j = true;
  tm_running : forall j, vw_jobs w !! g = Some j -> vj_running (f j) = true -> live (f j) = true ->
    started_early (vj_phase (f j)) = true \/ held w g
}.
Lemma upd_lookup g f w g' j : vw_jobs (upd g f w) !! g' = Some j ->
  exists j0, vw_jobs w !! g' = Some j0 /\ ((g' = g /\ j = f j0) \/ (g' <> g /\ j = j0)).
Proof.
  cbn. destruct (decide (g' = g)) as [->|].
  - rewrite list_lookup_alter_eq. intros (j0 & -> & ->)%fmap_Some. eauto.
  - rewrite list_lookup_alter_ne by done. eauto.
Qed.
Lemma belongs_upd g f w g' s : (forall j, vj_session (f j) = vj_session j) -> belongs (upd g f w) g' s <-> belongs w g' s.
Proof.
  intros Hf. unfold belongs. cbn. destruct (decide (g' = g)) as [->|].
  - rewrite list_lookup_alter_eq. destruct (vw_jobs w !! g) as [j|]; cbn; split; intros (j' & Hj & Hs); simplify_eq; eauto.
  - by rewrite list_lookup_alter_ne.
Qed.
Lemma upd_ok g f w : captures_ok w -> tame w g f -> captures_ok (upd g f w).
Proof.
  intros [Hd He Hr Ha Ht] [Fs Fe Fr]. split.
  - intros g1 g2 s. rewrite !belongs_upd by done. apply Hd.
  - intros g' j (j0 & Hj0 & [[-> ->]|[_ ->]])%upd_lookup Hp Hl; [|by apply He].
    destruct (Fe _ Hj0 Hp Hl). rewrite Fs. by apply He.
  - intros g' j (j0 & Hj0 & [[-> ->]|[_ ->]])%upd_lookup Hp Hl; [by apply Fr|by apply Hr].
  - intros s h Hh. rewrite belongs_upd by done. by apply Ha.
  - intros fi h Hf Hh. rewrite belongs_upd by done. by apply Ht.
Qed.

(** Only these fields count. *)
Lemma captures_ok_fields w w' :
  vw_jobs w' = vw_jobs w -> vw_pending w' = vw_pending w -> vw_active w' = vw_active w -> vw_finishing w' = vw_finishing w ->
  captures_ok w -> captures_ok w'.
Proof.
  intros E1 E2 E3 E4 [Hd He Hr Ha Ht]. split; unfold belongs, held in *.
  all: rewrite ?E1, ?E2, ?E3, ?E4; done.
Qed.
Ltac other_fields w := apply (captures_ok_fields w); [done..|].

Lemma tame_cancelled w g : tame w g cancelled.
Proof. by split. Qed.
Lemma tame_idle w g : tame w g (with_running false).
Proof. split; [done|by destruct j|done]. Qed.
Lemma tame_slot b w g : captures_ok w -> tame w g (with_slot b).
Proof. intros Hw. split; [done|by destruct j|]. intros j Hj Hr Hl. by apply (co_running w Hw g j). Qed.
Lemma tame_goto p w g : captures_ok w ->
  (forall j, vw_jobs w !! g = Some j -> (early p = true -> early (vj_phase j) = true) /\
     (started_early (vj_phase j) = true -> vj_running j = true -> live j = true -> started_early p = true \/ held w g)) ->
  tame w g (goto p).
Proof.
  intros Hw Hp. split; [done|intros j Hj; destruct (Hp j Hj); by auto|].
  intros j Hj Hr Hl. destruct (Hp j Hj) as [_ H2]. destruct (co_running w Hw g j Hj Hr Hl); [by apply H2|by right].
Qed.
Lemma tame_comp w g f1 f2 : captures_ok w -> tame w g f1 -> tame (upd g f1 w) g f2 -> tame w g (fun j => f2 (f1 j)).
Proof.
  intros Hw [S1 E1 R1] [S2' E2 R2].
  assert (Hl : forall j, vw_jobs w !! g = Some j -> vw_jobs (upd g f1 w) !! g = Some (f1 j)) by (intros j Hj; cbn; by rewrite list_lookup_alter_eq, Hj).
  split; [intros j; by rewrite S2', S1| |].
  - intros j Hj Hp Hv. destruct (E2 _ (Hl j Hj) Hp Hv). by apply E1.
  - intros j Hj Hp Hv. by apply (R2 _ (Hl j Hj)).
Qed.
Lemma tame_run w g : captures_ok w -> (forall j, vw_jobs w !! g = Some j -> started_early (vj_phase j) = true) -> tame w g (with_running true).
Proof. intros Hw Hs. split; [done|by destruct j|]. intros j Hj _ _. left. by apply (Hs j). Qed.

Lemma release_slot_ok g w : captures_ok w -> captures_ok (release_slot g w).
Proof.
  intros Hw. unfold release_slot. destruct (vw_jobs w !! g) as [j|]; [|done]. destruct (vj_slot j); [|done].
  other_fields (upd g (with_slot false) w). by apply upd_ok, tame_slot.
Qed.
Lemma cancel_ctx_ok c w : captures_ok w -> captures_ok (cancel_ctx c w).
Proof. intros Hw. destruct c; [|done]. by apply upd_ok, tame_cancelled. Qed.
Lemma stop_ok h w : captures_ok w -> captures_ok (stopVideoRecordingHandle h w).
Proof. intros Hw. by apply cancel_ctx_ok, release_slot_ok, upd_ok, tame_idle. Qed.
Lemma endPending_ok s w : captures_ok w ->
  (forall g j, vw_jobs w !! g = Some j -> vj_session j = s -> early (vj_phase j) = true -> live j = false) -> captures_ok (endPending s w).
Proof.
  intros [Hd He Hr Ha Ht] Hs. split; [done| |done..]. intros g j Hj Hp Hl. cbn in *.
  rewrite lookup_delete_ne; [by apply He|]. intros ->. specialize (Hs _ _ Hj eq_refl Hp). congruence.
Qed.
Lemma cancelPending_commutes s w : cancelPending s w = endPending s (cancel_ctx (vw_pending w !! s) w).
Proof. unfold cancelPending. by destruct (vw_pending w !! s). Qed.
Lemma cancelPending_settles s w g j : captures_ok w -> vw_jobs (cancelPending s w) !! g = Some j ->
  vj_session j = s -> early (vj_phase j) = true -> live j = false.
Proof.
  intros Hw Hj Hs Hp. destruct (live j) eqn:Hl; [|done]. exfalso. rewrite cancelPending_commutes in Hj. cbn in Hj.
  destruct (vw_pending w !! s) as [g'|] eqn:Hg.
  - apply upd_lookup in Hj as (j0 & Hj0 & [[-> ->]|[Hne ->]]); [done|].
    pose proof (co_early w Hw g j0 Hj0 Hp Hl). congruence.
  - pose proof (co_early w Hw g j Hj Hp Hl). congruence.
Qed.
Lemma cancelPending_ok s w : captures_ok w -> captures_ok (cancelPending s w).
Proof.
  intros Hw. pose proof (cancelPending_settles s w) as Hs. rewrite cancelPending_commutes in *.
  apply endPending_ok; [by apply cancel_ctx_ok|]. intros g j Hj. by apply (Hs g j).
Qed.

Lemma begin_ok s w : captures_ok w -> (forall g, ~ belongs w g s) -> captures_ok (vexec w (VBegin s)).
Proof.
  intros Hw Hs. cbn. unfold beginPending. destruct (vw_active w !! s), (vw_pending w !! s); [done..|].
  destruct Hw as [Hd He Hr Ha Ht]. set (n := length (vw_jobs w)). set (j0 := mkVjob s PWaiting false false false).
  set (w' := set_jobs _ _).
  assert (Hold : forall g s', belongs w g s' -> belongs w' g s') by (intros g s' (j & Hj & <-); exists j; split; [by apply lookup_app_l_Some|done]).
  assert (Hb : forall g s', belongs w' g s' -> (belongs w g s' /\ s' <> s) \/ (g = n /\ s' = s)).
  { intros g s' (j & [[_ Hj]|[-> <-]]%lookup_snoc_Some & <-); [left|by right].
    assert (belongs w g (vj_session j)) by by exists j. split; [done|]. intros E. apply (Hs g). by rewrite <- E. }
  split.
  - intros g g' s' H1 H2. destruct (Hb _ _ H1) as [[? ?]|[-> ?]], (Hb _ _ H2) as [[? ?]|[-> ?]]; [by eapply Hd|done..].
  - intros g j [[_ Hj]|[-> <-]]%lookup_snoc_Some Hp Hl; cbn; [|by rewrite lookup_insert_eq].
    rewrite lookup_insert_ne; [by apply He|]. intros ->. apply (Hs g). by exists j.
  - intros g j [[_ Hj]|[-> <-]]%lookup_snoc_Some Hp Hl; [by apply (Hr g j)|done].
  - intros s' h Hh. by apply Hold, Ha.
  - intros f h Hf Hh. by apply Hold, Ht.
Qed.
Lemma register_capture_ok w g j : captures_ok w -> vw_jobs w !! g = Some j -> vj_phase j = PRegister -> captures_ok (vexec w (VRegister g)).
Proof.
  intros Hw Hj Hp. cbn. unfold at_phase. rewrite Hj, decide_True by done. set (s := vj_session j). set (hd := mkHandle g (vw_pending w !! s)).
  change (captures_ok (endPending s (upd g (goto PRelease) (set_active w (<[s:=hd]> (vw_active w)))))).
  assert (Hg : belongs w g s) by by exists j.
  assert (Hin : captures_ok (set_active w (<[s:=hd]> (vw_active w)))).
  { destruct Hw as [Hd He Hr Ha Ht]. split; [done..| | |done].
    - intros g' j' Hj' Hr' Hl. destruct (Hr _ _ Hj' Hr' Hl) as [?|[(s' & h & Hh & <-)|?]]; [by left| |by right; right].
      right. left. destruct (decide (s' = s)) as [->|]; [|exists s', h; cbn; by rewrite lookup_insert_ne].
      exists s, hd. cbn. rewrite lookup_insert_eq. split; [done|]. apply (Hd g (hd_job h) s); [done|by apply Ha].
    - intros s' h Hh. cbn in Hh. destruct (decide (s' = s)) as [->|]; [rewrite lookup_insert_eq in Hh; by simplify_eq|].
      rewrite lookup_insert_ne in Hh by done. by apply Ha. }
  assert (Ht : tame (set_active w (<[s:=hd]> (vw_active w))) g (goto PRelease)).
  { apply tame_goto; [done|]. intros j' Hj'. split; [done|]. intros _ _ _. right. left. exists s, hd. split; [|done]. cbn. apply lookup_insert_eq. }
  apply endPending_ok; [by apply upd_ok|].
  intros g' j' Hj' Hs Hp'. exfalso. assert (Hg' : belongs w g' s).
  { apply (belongs_upd g (goto PRelease) w); [done|]. exists j'. done. }
  pose proof (co_distinct w Hw _ _ _ Hg Hg') as <-. apply upd_lookup in Hj' as (j0 & _ & [[_ ->]|[? _]]); done.
Qed.
Lemma take_ok s w : captures_ok w -> captures_ok (vexec w (VTake s)).
Proof.
  intros [Hd He Hr Ha Ht]. cbn. split; [done..| | |].
  - intros g j Hj Hrun Hl. destruct (Hr _ _ Hj Hrun Hl) as [?|[(s' & h & Hh & <-)|(f & h & Hf & Hh & <-)]]; [by left|right..].
    + destruct (decide (s' = s)) as [->|].
      * right. exists (mkFinishing s (vw_active w !! s) (bool_decide (s ∈ vw_started w))), h. cbn. split_and!; [|done|done]. set_solver.
      * left. exists s', h. cbn. by rewrite lookup_delete_ne.
    + right. exists f, h. cbn. split_and!; [set_solver|done|done].
  - intros s' h Hh. cbn in Hh. apply lookup_delete_Some in Hh as [_ Hh]. by apply Ha.
  - intros f h Hf Hh. cbn in Hf. apply elem_of_app in Hf as [Hf|Hf%list_elem_of_singleton]; [by apply Ht|]; subst. cbn in *. by apply Ha.
Qed.
Lemma stop_stops h w j : vw_jobs (stopVideoRecordingHandle h w) !! hd_job h = Some j -> vj_running j = false.
Proof.
  unfold stopVideoRecordingHandle. set (w1 := upd (hd_job h) (with_running false) w).
  assert (H1 : forall j, vw_jobs w1 !! hd_job h = Some j -> vj_running j = false).
  { intros j' (j0 & _ & [[_ ->]|[? _]])%upd_lookup; done. }
  assert (H2 : forall j, vw_jobs (release_slot (hd_job h) w1) !! hd_job h = Some j -> vj_running j = false).
  { unfold release_slot. destruct (vw_jobs w1 !! hd_job h) as [jh|] in |- *; [|done].
    destruct (vj_slot jh); [|by intros j' ?; apply H1]. intros j' Hj'.
    apply (upd_lookup (hd_job h) (with_slot false) w1) in Hj' as (j0 & Hj0 & [[_ ->]|[? _]]); [by apply (H1 j0)|done]. }
  destruct (hd_cancel h) as [c|]; [|apply H2]. intros (j0 & Hj0 & [[E ->]|[_ ->]])%upd_lookup; by apply (H2 j0).
Qed.
Lemma stop_commutes h w x : stopVideoRecordingHandle h (set_finishing w x) = set_finishing (stopVideoRecordingHandle h w) x.
Proof.
  unfold stopVideoRecordingHandle, release_slot. destruct w, h as [n c]; cbn. destruct (alter _ _ _ !! n) as [j|]; [destruct (vj_slot j)|]; by destruct c.
Qed.
Lemma drop_ok i f w : captures_ok w -> vw_finishing w !! i = Some f ->
  (forall h j, fi_handle f = Some h -> vw_jobs w !! hd_job h = Some j -> vj_running j = false) ->
  captures_ok (set_finishing w (delete i (vw_finishing w))).
Proof.
  intros [Hd He Hr Ha Ht] Hi Hs. pose proof (delete_Permutation _ _ _ Hi) as Hperm. split; [done..| |done|].
  - intros g j Hj Hrun Hl. destruct (Hr _ _ Hj Hrun Hl) as [?|[?|(f' & h & Hf & Hh & <-)]]; [by left|by right; left|right; right].
    exists f', h. split_and!; [|done..]. rewrite Hperm in Hf. apply elem_of_cons in Hf as [->|]; [|done].
    specialize (Hs _ _ Hh Hj). congruence.
  - intros f' h Hf. apply Ht. rewrite Hperm. by right.
Qed.
Lemma finish_stop_ok i w : captures_ok w -> captures_ok (vexec w (VStop i)).
Proof.
  intros Hw. cbn. destruct (vw_finishing w !! i) as [f|] eqn:Hi; [|done].
  assert (captures_ok match fi_handle f with Some h => stopVideoRecordingHandle h (set_finishing w (delete i (vw_finishing w)))
                                           | None => set_finishing w (delete i (vw_finishing w)) end).
  { destruct (fi_handle f) as [h|] eqn:Hh; [|apply (drop_ok i f); [done..|]; intros; congruence].
    rewrite stop_commutes. assert (Hfin : vw_finishing (stopVideoRecordingHandle h w) = vw_finishing w).
    { unfold stopVideoRecordingHandle, release_slot. destruct (vw_jobs _ !! _) as [j|]; [destruct (vj_slot j)|]; by destruct (hd_cancel h). }
    rewrite <- Hfin. apply (drop_ok i f); [by apply stop_ok|by rewrite Hfin|].
    intros h' j Hh' Hj. simplify_eq. by eapply stop_stops. }
  destruct (fi_started f); [|done]. other_fields (match fi_handle f with Some h => stopVideoRecordingHandle h (set_finishing w (delete i (vw_finishing w)))
                                           | None => set_finishing w (delete i (vw_finishing w)) end). done.
Qed.

(** What a step may do to a job that keeps its phase. *)
Definition less_alive (w w' : vworld) : Prop := forall g j, vw_jobs w' !! g = Some j ->
  exists j0, vw_jobs w !! g = Some j0 /\ vj_phase j = vj_phase j0 /\ vj_session j = vj_session j0 /\ (live j = true -> live j0 = true).
Lemma less_alive_upd g f w w' : less_alive w w' ->
  (forall j, vj_phase (f j) = vj_phase j /\ vj_session (f j) = vj_session j /\ (live (f j) = true -> live j = true)) -> less_alive w (upd g f w').
Proof.
  intros Hw Hf g' j (j1 & Hj1 & [[-> ->]|[_ ->]])%upd_lookup; [|by apply Hw].
  destruct (Hw _ _ Hj1) as (j0 & Hj0 & E1 & E2 & E3). destruct (Hf j1) as (F1 & F2 & F3).
  exists j0. rewrite F1, F2. split_and!; eauto.
Qed.
Lemma less_alive_refl w : less_alive w w.
Proof. by intros g j Hj; exists j. Qed.
Lemma release_less_alive g w w' : less_alive w w' -> less_alive w (release_slot g w').
Proof.
  intros Hw. unfold release_slot. destruct (vw_jobs w' !! g) as [j|]; [|done]. destruct (vj_slot j); [|done].
  by apply (less_alive_upd g (with_slot false) w w').
Qed.
Lemma stop_less_alive h w : less_alive w (stopVideoRecordingHandle h w).
Proof.
  unfold stopVideoRecordingHandle. set (w1 := upd _ _ w). assert (H1 : less_alive w w1) by by apply less_alive_upd; [apply less_alive_refl|].
  pose proof (release_less_alive (hd_job h) w w1 H1). destruct (hd_cancel h); [|done]. by apply less_alive_upd.
Qed.

Definition began (st : vstep) : option string := match st with VBegin s => Some s | _ => None end.
Lemma at_phase_ok w g p f : captures_ok w ->
  (forall j, vw_jobs w !! g = Some j -> vj_phase j = p -> captures_ok (f j)) -> captures_ok (at_phase w g p f).
Proof. intros Hw Hf. unfold at_phase. destruct (vw_jobs w !! g) as [j|]; [|done]. destruct (decide _); [by apply Hf|done]. Qed.
Lemma goto_tame w g j q p : captures_ok w -> vw_jobs w !! g = Some j -> vj_phase j = q ->
  implb (early p) (early q) = true -> (started_early q = true -> live j = true -> started_early p = true \/ held w g) -> tame w g (goto p).
Proof.
  intros Hw Hj Hq Hp Hs. apply tame_goto; [done|]. intros j' Hj'. simplify_eq.
  split; [intros E; by rewrite E in Hp|by auto].
Qed.
Ltac next_phase Hw Hj Hp := apply (goto_tame _ _ _ _ _ Hw Hj Hp); [done|try done; auto].
Lemma capture_step_ok st w : captures_ok w -> (forall s, began st = Some s -> forall g, ~ belongs w g s) -> captures_ok (vexec w st).
Proof.
  intros Hw Hnew. destruct st as [s|g|g ok|g ok|g|g ok|g|g|g|g|s|s|i]; cbn [vexec].
  all: try (apply at_phase_ok; [done|intros j Hj Hp]).
  - by apply begin_ok, Hnew.
  - by apply upd_ok, tame_cancelled.
  - destruct ok; [|apply upd_ok; [done|]; next_phase Hw Hj Hp]. destruct (_ <? _)%nat; [|done].
    other_fields (upd g (fun j => with_slot true (goto PSlot j)) w). apply upd_ok; [done|].
    assert (tame w g (goto PSlot)) by next_phase Hw Hj Hp. apply tame_comp; [done..|]. by apply tame_slot, upd_ok.
  - destruct (vj_cancelled j); [|destruct ok]; [apply upd_ok; [done|]; next_phase Hw Hj Hp| |apply upd_ok; [done|]; next_phase Hw Hj Hp].
    assert (tame w g (goto PStarted)) by next_phase Hw Hj Hp. apply upd_ok, (tame_comp w g (goto PStarted) (with_running true)); [done..|].
    apply tame_run; [by apply upd_ok|]. intros j' (j0 & _ & [[_ ->]|[? _]])%upd_lookup; done.
  - destruct (vj_cancelled j) eqn:Hc; [|apply upd_ok; [done|]; next_phase Hw Hj Hp].
    assert (tame w g (goto PRelease)) by (next_phase Hw Hj Hp; unfold live; by rewrite Hc).
    apply upd_ok, (tame_comp w g (goto PRelease) (with_running false)); [done..|]. apply tame_idle.
  - unfold beginVideoRecordingRow. set (w' := if ok then _ else _). assert (Hw' : captures_ok w') by (subst w'; destruct ok; [other_fields w|]; done).
    assert (Hj' : vw_jobs w' !! g = Some j) by (subst w'; by destruct ok). apply upd_ok; [done|]. next_phase Hw' Hj' Hp.
  - set (w' := match vw_active w !! vj_session j with Some h => _ | None => w end).
    assert (Hw' : captures_ok w') by (subst w'; destruct (vw_active w !! _); [by apply stop_ok|done]).
    assert (Hle : less_alive w w') by (subst w'; destruct (vw_active w !! _); [apply stop_less_alive|apply less_alive_refl]).
    apply upd_ok; [done|]. apply tame_goto; [done|]. intros j' (j0 & ? & Hp' & _)%Hle. simplify_eq. rewrite Hp'.
    split; [by rewrite Hp|]. intros _ _ _. by left.
  - pose proof (register_capture_ok w g j Hw Hj Hp) as H. cbn in H. unfold at_phase in H. by rewrite Hj, decide_True in H.
  - apply upd_ok; [by apply release_slot_ok|]. apply tame_goto; [by apply release_slot_ok|].
    intros j' (j0 & ? & Hp' & _)%(release_less_alive g w w (less_alive_refl w)). simplify_eq. by rewrite Hp', Hp.
  - change (captures_ok (endPending (vj_session j) (upd g (goto PDone) w))). apply endPending_ok; [apply upd_ok; [done|]; next_phase Hw Hj Hp|].
    intros g' j' Hj' Hs Hp'. exfalso. assert (Hg' : belongs w g' (vj_session j)) by (apply (belongs_upd g (goto PDone) w); [done|]; by exists j').
    assert (g = g') as <- by (apply (co_distinct w Hw g g' (vj_session j)); [by exists j|done]).
    apply upd_lookup in Hj' as (j0 & _ & [[_ ->]|[? _]]); done.
  - by apply cancelPending_ok.
  - by apply take_ok.
  - by apply finish_stop_ok.
Qed.

(** What a step does to the jobs there were: none goes back to an early phase or
    gets its context back. *)
Definition ages (w w' : vworld) : Prop := forall g j', vw_jobs w' !! g = Some j' ->
  exists j, vw_jobs w !! g = Some j /\ vj_session j' = vj_session j /\
    (early (vj_phase j') = true -> early (vj_phase j) = true) /\ (live j' = true -> live j = true).
Lemma ages_refl w : ages w w.
Proof. intros g j Hj. by exists j. Qed.
Lemma less_alive_ages w w' : less_alive w w' -> ages w w'.
Proof. intros Hw g j' (j & Hj & E1 & E2 & E3)%Hw. exists j. by rewrite E1. Qed.
Lemma ages_upd g f w w' : ages w w' ->
  (forall j, vw_jobs w' !! g = Some j -> vj_session (f j) = vj_session j /\
    (early (vj_phase (f j)) = true -> early (vj_phase j) = true) /\ (live (f j) = true -> live j = true)) -> ages w (upd g f w').
Proof.
  intros Hw Hf g' j' (j1 & Hj1 & [[-> ->]|[_ ->]])%upd_lookup; [|by apply Hw].
  destruct (Hw _ _ Hj1) as (j & Hj & E1 & E2 & E3), (Hf _ Hj1) as (F1 & F2 & F3). exists j. rewrite F1. split_and!; eauto.
Qed.
Lemma ages_goto g j q w w' f : ages w w' -> vw_jobs w !! g = Some j -> vj_phase j = q ->
  (forall j1, vj_session (f j1) = vj_session j1 /\ vj_phase (f j1) = vj_phase (f j) /\ (live (f j1) = true -> live j1 = true)) ->
  implb (early (vj_phase (f j))) (early q) = true -> ages w (upd g f w').
Proof.
  intros Hw Hj <- Hf Hp g' j' (j1 & Hj1 & [[-> ->]|[_ ->]])%upd_lookup; [|by apply Hw].
  destruct (Hw _ _ Hj1) as (j2 & Hj2 & E1 & E2 & E3), (Hf j1) as (F1 & F2 & F3). exists j2. rewrite F1, F2. split_and!; [done..| |by auto].
  simplify_eq. intros E. by rewrite E in Hp.
Qed.
Lemma ages_at_phase w g p f : (forall j, vw_jobs w !! g = Some j -> vj_phase j = p -> ages w (f j)) -> ages w (at_phase w g p f).
Proof. intros Hf. unfold at_phase. destruct (vw_jobs w !! g) as [j|]; [|apply ages_refl]. destruct (decide _); [by apply Hf|apply ages_refl]. Qed.
Lemma step_ages st w : (forall s, began st <> Some s) -> ages w (vexec w st).
Proof.
  intros Hnew. pose proof (ages_refl w) as Hr. destruct st as [s|g|g ok|g ok|g|g ok|g|g|g|g|s|s|i]; cbn [vexec].
  all: try (apply ages_at_phase; intros j Hj Hp).
  - by destruct (Hnew s).
  - by apply ages_upd.
  - destruct ok; [destruct (_ <? _)%nat; [|done]|].
    + by apply (ages_goto g j PWaiting w w (fun j => with_slot true (goto PSlot j))).
    + by apply (ages_goto g j PWaiting w w (goto PEndPending)).
  - destruct (vj_cancelled j); [|destruct ok]; by eapply ages_goto.
  - destruct (vj_cancelled j); by eapply ages_goto.
  - unfold beginVideoRecordingRow. set (w' := if ok then _ else _). eapply (ages_goto g j PRow w w'); [|done..]. subst w'; by destruct ok.
  - eapply (ages_goto g j PReplace); [|done..]. destruct (vw_active w !! _); [apply less_alive_ages, stop_less_alive|done].
  - by eapply (ages_goto g j PRegister w _ (goto PRelease)).
  - by eapply ages_goto; [apply less_alive_ages, release_less_alive, less_alive_refl|..].
  - by eapply (ages_goto g j PEndPending w _ (goto PDone)).
  - unfold cancelPending. destruct (vw_pending w !! s) as [c|]; [|done]. by apply (ages_upd c cancelled w (endPending s w)).
  - done.
  - destruct (vw_finishing w !! i) as [f|]; [|done]. set (w' := set_finishing w _).
    assert (ages w (match fi_handle f with Some h => stopVideoRecordingHandle h w' | None => w' end)).
    { destruct (fi_handle f) as [h|]; [|done]. apply (less_alive_ages w'), stop_less_alive. }
    by destruct (fi_started f).
Qed.
Lemma begin_jobs s w g j' : vw_jobs (vexec w (VBegin s)) !! g = Some j' -> vw_jobs w !! g = Some j' \/ vj_session j' = s.
Proof.
  cbn. unfold beginPending. destruct (vw_active w !! s), (vw_pending w !! s); [by left..|].
  intros [[_ Hj]|[_ <-]]%lookup_snoc_Some; [by left|by right].
Qed.
(** The jobs of other sessions than the one that begins. *)
Lemma step_jobs st w g j' : vw_jobs (vexec w st) !! g = Some j' -> began st <> Some (vj_session j') ->
  exists j, vw_jobs w !! g = Some j /\ vj_session j' = vj_session j /\
    (early (vj_phase j') = true -> early (vj_phase j) = true) /\ (live j' = true -> live j = true).
Proof.
  intros Hj' Hs. destruct (began st) as [s|] eqn:E; [|by apply (step_ages st w); [congruence|]].
  assert (st = VBegin s) as -> by (by destruct st; simplify_eq/=).
  destruct (begin_jobs _ _ _ _ Hj') as [Hj|<-]; [by exists j'|done].
Qed.
Lemma step_belongs st w g s : belongs (vexec w st) g s -> belongs w g s \/ began st = Some s.
Proof.
  intros (j' & Hj' & <-). destruct (decide (began st = Some (vj_session j'))) as [|Hs]; [by right|left].
  destruct (step_jobs _ _ _ _ Hj' Hs) as (j & Hj & E & _). by exists j.
Qed.
(** Every session is recorded once. *)
Definition fresh (w : vworld) (sts : list vstep) : Prop :=
  NoDup (omap began sts) /\ forall s, s ∈ omap began sts -> forall g, ~ belongs w g s.
Lemma fresh_step w st sts : fresh w (st :: sts) -> (forall s, began st = Some s -> forall g, ~ belongs w g s) /\ fresh (vexec w st) sts.
Proof.
  intros [Hnd Hnew]. cbn in Hnd, Hnew. split; [intros s Hs; apply Hnew; rewrite Hs; by left|]. split.
  - destruct (began st); [by apply NoDup_cons in Hnd as [_ ?]|done].
  - intros s Hs g [Hb|E]%step_belongs; [|rewrite E in Hnd; by apply NoDup_cons in Hnd as [? _]].
    apply (Hnew s) in Hb; [done|]. destruct (began st); [by right|done].
Qed.
Lemma fresh_app w sts1 sts2 : fresh w (sts1 ++ sts2) -> fresh w sts1 /\ fresh (vrun w sts1) sts2.
Proof.
  intros Hf. split.
  - destruct Hf as [Hnd Hnew]. rewrite omap_app in *. split; [by apply NoDup_app in Hnd as [? _]|].
    intros s Hs. apply Hnew, elem_of_app. by left.
  - revert w Hf. induction sts1 as [|st sts1 IH]; intros w Hf; [done|]. by apply IH, fresh_step.
Qed.
Lemma capture_run_ok sts w : captures_ok w -> fresh w sts -> captures_ok (vrun w sts).
Proof.
  revert w. induction sts as [|st sts IH]; intros w Hw Hf; [done|]. apply fresh_step in Hf as [? ?].
  cbn [vrun foldl]. by apply IH; [apply capture_step_ok|].
Qed.

(** After [cancelPending], and after the whole of [finishVideoRecording]. *)
Definition settled (w : vworld) (s : string) : Prop := forall g j, vw_jobs w !! g = Some j -> vj_session j = s -> early (vj_phase j) = true -> live j = false.
Definition released (w : vworld) (s : string) : Prop := forall h j, vw_active w !! s = Some h -> vw_jobs w !! hd_job h = Some j -> live j = false.
Lemma step_settled st w s : settled w s -> began st <> Some s -> settled (vexec w st) s.
Proof.
  intros Hs Hb g j' Hj' E Hp. destruct (step_jobs _ _ _ _ Hj') as (j & Hj & E1 & E2 & E3); [by rewrite E|].
  destruct (live j') eqn:Hl; [|done]. rewrite <- (E3 eq_refl). apply (Hs g j); [done|congruence|by apply E2].
Qed.
Lemma step_active st w s h : vw_active (vexec w st) !! s = Some h ->
  vw_active w !! s = Some h \/ exists j, vw_jobs w !! hd_job h = Some j /\ vj_session j = s /\ vj_phase j = PRegister.
Proof.
  assert (Hstop : forall h w, vw_active (stopVideoRecordingHandle h w) = vw_active w).
  { intros h' w'. unfold stopVideoRecordingHandle, release_slot. destruct (vw_jobs _ !! _) as [j|]; [destruct (vj_slot j)|]; by destruct (hd_cancel h'). }
  destruct st as [s'|g|g ok|g ok|g|g ok|g|g|g|g|s'|s'|i]; cbn [vexec].
  all: try (unfold at_phase; destruct (vw_jobs w !! g) as [j|] eqn:Hj; [destruct (decide _) as [Hp|]; [|by left]|by left]).
  - unfold beginPending. destruct (vw_active w !! s'), (vw_pending w !! s'); by left.
  - by left.
  - destruct ok; [destruct (_ <? _)%nat|]; by left.
  - destruct (vj_cancelled j), ok; by left.
  - destruct (vj_cancelled j); by left.
  - destruct ok; by left.
  - destruct (vw_active w !! vj_session j) as [h'|]; [|by left]. cbn. rewrite Hstop. by left.
  - cbn. intros [[<- <-]|[? ?]]%lookup_insert_Some; [right|by left]. by exists j.
  - unfold release_slot. destruct (vw_jobs w !! g) as [j'|] in |- *; [destruct (vj_slot j')|]; by left.
  - by left.
  - unfold cancelPending. destruct (vw_pending w !! s'); by left.
  - cbn. intros [_ ?]%lookup_delete_Some. by left.
  - destruct (vw_finishing w !! i) as [f|]; [|by left]. destruct (fi_handle f), (fi_started f); cbn; rewrite ?Hstop; by left.
Qed.
Lemma step_released st w s : captures_ok (vexec w st) -> settled w s -> released w s -> began st <> Some s -> released (vexec w st) s.
Proof.
  intros Hw Hs Hr Hb h j' Hh Hj'. destruct (co_active _ Hw _ _ Hh) as (j1 & Hj1 & E). simplify_eq.
  destruct (step_jobs _ _ _ _ Hj' Hb) as (j & Hj & E1 & E2 & E3). destruct (live j') eqn:Hl; [|done]. rewrite <- (E3 eq_refl).
  destruct (step_active _ _ _ _ Hh) as [Ha|(j2 & Hj2 & Hs2 & Hp)]; [by apply (Hr h)|]. simplify_eq.
  apply (Hs (hd_job h) j); [done|done|]. by rewrite Hp.
Qed.
Lemma run_settled sts w s : settled w s -> s ∉ omap began sts -> settled (vrun w sts) s.
Proof.
  revert w. induction sts as [|st sts IH]; intros w Hs Hn; [done|]. cbn [vrun foldl]. cbn in Hn. apply IH.
  - apply step_settled; [done|]. intros E. rewrite E in Hn. set_solver.
  - destruct (began st); set_solver.
Qed.
Lemma run_released sts w s : captures_ok w -> fresh w sts -> settled w s -> released w s -> s ∉ omap began sts -> released (vrun w sts) s.
Proof.
  revert w. induction sts as [|st sts IH]; intros w Hw Hf Hs Hr Hn; [done|]. cbn [vrun foldl]. cbn in Hn.
  apply fresh_step in Hf as [Hst Hf]. assert (captures_ok (vexec w st)) by by apply capture_step_ok.
  assert (began st <> Some s) by (intros E; rewrite E in Hn; set_solver).
  apply IH; [done|done|by apply step_settled|by apply step_released|]. destruct (began st); set_solver.
Qed.
Lemma no_captures_ok max : captures_ok (no_captures max).
Proof. split; unfold no_captures, belongs; cbn; [intros g g' s (j & [=] & _)|done..| |intros f h Hf; by apply elem_of_nil in Hf]. intros s h Hh. by rewrite lookup_empty in Hh. Qed.

(** C14. Nothing keeps recording a session that is over. The goroutine that starts a
    capture and the request that ends the session run against each other, and
    against those of all other sessions, in any order; each session is recorded
    once. Once [finishVideoRecording] has cancelled the pending capture and taken
    the registered one, a capture of the session still runs only until the call has
    stopped what it took. *)
Theorem finished_sessions_stop_recording max before between after s :
  let sts := before ++ VCancelPending s :: between ++ VTake s :: after in
  let w := vrun (no_captures max) sts in
  NoDup (omap began sts) -> s ∉ omap began (between ++ VTake s :: after) ->
  (forall f, f ∈ vw_finishing w -> fi_session f <> s) ->
  forall g, belongs w g s -> capturing w g = false.
Proof.
  cbn zeta. set (w := vrun _ _). intros Hnd Hn Hfin g (j & Hj & Hjs).
  assert (Hf : fresh (no_captures max) (before ++ VCancelPending s :: between ++ VTake s :: after)) by (split; [done|]; by intros ? ? ? (? & ? & _)).
  pose proof (capture_run_ok _ _ (no_captures_ok max) Hf) as Hw. fold w in Hw.
  apply fresh_app in Hf as [Hf1 [_ Hf2]%fresh_step]. apply fresh_app in Hf2 as [Hf2 Hf3].
  rewrite omap_app in Hn. cbn in Hn.
  set (w1 := vrun (no_captures max) before) in *. assert (Hw1 : captures_ok w1) by by apply capture_run_ok; [apply no_captures_ok|].
  set (w2 := vexec w1 (VCancelPending s)) in *. assert (Hw2 : captures_ok w2) by by apply capture_step_ok.
  assert (Hs2 : settled w2 s) by (intros ? ?; by apply cancelPending_settles).
  set (w3 := vrun w2 between) in *. assert (Hw3 : captures_ok w3) by by apply capture_run_ok.
  assert (Hs3 : settled w3 s) by (apply run_settled; [done|set_solver]).
  apply fresh_step in Hf3 as [_ Hf4]. set (w4 := vexec w3 (VTake s)) in *.
  assert (Hw4 : captures_ok w4) by by apply capture_step_ok. assert (Hs4 : settled w4 s) by by apply step_settled.
  assert (Hr4 : released w4 s) by (intros h j'; cbn; by rewrite lookup_delete_eq).
  assert (released w s /\ settled w s) as [Hr Hs].
  { subst w. unfold vrun. rewrite foldl_app. cbn [foldl]. rewrite foldl_app.
    split; [apply (run_released after w4)|apply (run_settled after w4)]; set_solver. }
  unfold capturing. rewrite Hj. destruct (vj_running j && negb (vj_cancelled j)) eqn:Hc; [|done].
  apply andb_true_iff in Hc as [Hrun Hl]. change (live j = true) in Hl. exfalso.
  destruct (co_running w Hw g j Hj Hrun Hl) as [Hp|[(s' & h & Hh & <-)|(f & h & Hff & Hh & <-)]].
  - rewrite (Hs g j) in Hl; [done|done|done|]. by destruct (vj_phase j).
  - destruct (co_active w Hw _ _ Hh) as (j' & Hj' & Hs'). simplify_eq. by rewrite (Hr h j) in Hl.
  - destruct (co_taken w Hw _ _ Hff Hh) as (j' & Hj' & Hs'). simplify_eq. by apply (Hfin f).
Qed.
(** The session ends while the capture is between its row and its registration:
    the capture registers itself after [finishVideoRecording] has looked, with the
    context that ended. *)
Definition late_registration : list vstep :=
  [VBegin "s1"; VAcquire 0 true; VStart 0 true; VCheck 0; VRow 0 true] ++ VCancelPending "s1" :: [VReplace 0] ++ VTake "s1" :: [VRegister 0; VStop 0; VRelease 0; VEndPending 0].
Lemma finished_sessions_stop_recording_witness :
  let w := vrun (no_captures 1) late_registration in
  hd_job <$> vw_active w !! "s1"%string = Some 0%nat /\ vj_running <$> vw_jobs w !! 0%nat = Some true /\ capturing w 0 = false.
Proof.
  cbn zeta. split_and!; [by vm_compute..|]. unfold late_registration.
  apply (finished_sessions_stop_recording 1 _ _ _ "s1").
  - cbn. apply NoDup_singleton.
  - cbn. intros Hin. by apply elem_of_nil in Hin.
  - intros f Hf. assert (vw_finishing (vrun (no_captures 1) late_registration) = []) as E by (by vm_compute).
    unfold late_registration in E. rewrite E in Hf. by apply elem_of_nil in Hf.
  - eexists. split; [by vm_compute|done].
Defined.

(** A recording of session [s], whose goroutine has number [g], that nothing disturbs. *)
Definition record_session (g : nat) (s : string) : list vstep :=
  [VBegin s; VAcquire g true; VStart g true; VCheck g; VRow g true; VReplace g; VRegister g; VRelease g; VEndPending g].
(** The governor limits the captures that are starting, not those that run: the
    deferred [release] of [runGovernedCapture] gives the slot back as soon as the
    capture is registered. With one slot, three sessions are recorded at once. *)
Theorem live_limit_is_not_enforced :
  let w := vrun (no_captures 1) (record_session 0 "s1" ++ record_session 1 "s2" ++ record_session 2 "s3") in
  capturing w 0 = true /\ capturing w 1 = true /\ capturing w 2 = true /\ vw_used w = 0%nat.
Proof. by vm_compute. Qed.
(** The last recording, finished, is stopped and its row ended. *)
Example finished_recording :
  let w := vrun (no_captures 1) (record_session 0 "s1" ++ [VCancelPending "s1"; VTake "s1"; VStop 0]) in
  capturing w 0 = false /\ bool_decide ("s1"%string ∈ vw_ended w) = true /\ vw_active w = ∅.
Proof. by vm_compute. Qed.
