(* ===== verification/GoTime.v ===== *)
(** Dates of package time: the calendar of src's timestamps (UTC, years 1 to
    9999), the two layouts they are written in, and that the order of the texts in
    the database is the order of the times. *)
From S2P Require Import Prelude GoText.
Local Open Scope Z_scope.

(** Text is compared byte by byte (BINARY). *)
Fixpoint text_lt (a b : list Z) : bool :=
  match a, b with
  | x :: a, y :: b => (x <? y) || ((x =? y) && text_lt a b)
  | [], _ :: _ => true
  | _, [] => false
  end.
Definition text_le (a b : list Z) : bool := negb (text_lt b a).

(** ** The calendar *)
(** Days before year [y + 1] of the calendar that starts on 1 January of year 1. *)
Definition days_before (y : Z) : Z := 365 * y + y `div` 4 - y `div` 100 + y `div` 400.
(** [absDate]: the year since year 1 and the day of that year. *)
Definition year_yday (d : Z) : Z * Z :=
  let n400 := d `div` 146097 in let d := d `mod` 146097 in
  let n100 := Z.min 3 (d `div` 36524) in let d := d - 36524 * n100 in
  let n4 := d `div` 1461 in let d := d - 1461 * n4 in
  let n1 := Z.min 3 (d `div` 365) in
  (400 * n400 + 100 * n100 + 4 * n4 + n1, d - 365 * n1).
Definition isLeap (y : Z) : bool := (y `mod` 4 =? 0) && (negb (y `mod` 100 =? 0) || (y `mod` 400 =? 0)).
Definition month_starts (leap : bool) : list Z :=
  let f := if leap then 1 else 0 in
  [0; 31; 59 + f; 90 + f; 120 + f; 151 + f; 181 + f; 212 + f; 243 + f; 273 + f; 304 + f; 334 + f].
Fixpoint month_day (starts : list Z) (m yday : Z) : Z * Z :=
  match starts with
  | s :: (s' :: _) as rest => if yday <? s' then (m, yday - s + 1) else month_day rest (m + 1) yday
  | [s] => (m, yday - s + 1)
  | [] => (m, yday)
  end.
(** Year, month, day, hour, minute, second. *)
Definition fields (t : time) : list Z :=
  let s := t `div` second in
  let d := s `div` 86400 in let sod := s `mod` 86400 in
  let (y, yday) := year_yday d in
  let (m, day) := month_day (month_starts (isLeap (y + 1))) 1 yday in
  [y + 1; m; day; sod `div` 3600; sod `mod` 3600 `div` 60; sod `mod` 60].

(** ** The layouts *)
Fixpoint pad (k : nat) (n : Z) : list Z :=
  match k with O => [] | S k => pad k (n `div` 10) ++ [48 + n `mod` 10] end.
Fixpoint render (layout : list (nat * list Z)) (fs : list Z) : list Z :=
  match layout, fs with
  | (k, sep) :: layout, f :: fs => pad k f ++ sep ++ render layout fs
  | _, _ => []
  end.
(** "2006-01-02 15:04:05" *)
Definition DateTime : list (nat * list Z) := [(4%nat, [45]); (2%nat, [45]); (2%nat, [32]); (2%nat, [58]); (2%nat, [58]); (2%nat, [])].
(** RFC 3339, of a time in UTC *)
Definition RFC3339 : list (nat * list Z) := [(4%nat, [45]); (2%nat, [45]); (2%nat, [84]); (2%nat, [58]); (2%nat, [58]); (2%nat, [90])].
Definition Format (layout : list (nat * list Z)) (t : time) : list Z := render layout (fields t).

Example format_epoch : str_of (Format DateTime (time_Unix 0)) = "1970-01-01 00:00:00"%string. Proof. by vm_compute. Qed.
Example format_leap : str_of (Format RFC3339 (time_Unix 1709210096)) = "2024-02-29T12:34:56Z"%string. Proof. by vm_compute. Qed.
Example format_new_year : str_of (Format DateTime (time_Unix 1798761599)) = "2026-12-31 23:59:59"%string. Proof. by vm_compute. Qed.

(** ** The order of texts *)
Lemma text_lt_irrefl a : text_lt a a = false.
Proof. induction a as [|x a IH]; cbn; [done|]. rewrite Z.ltb_irrefl, Z.eqb_refl. done. Qed.
Lemma text_lt_asym a b : text_lt a b = true -> text_lt b a = false.
Proof.
  revert b. induction a as [|x a IH]; intros [|y b]; cbn; try done. intros [H|[->%Z.eqb_eq H]%andb_true_iff]%orb_true_iff.
  - apply Z.ltb_lt in H. replace (y <? x) with false by lia. replace (y =? x) with false by lia. done.
  - rewrite Z.ltb_irrefl, Z.eqb_refl. by apply IH.
Qed.
Lemma text_lt_neg_trans a b c : text_lt b a = false -> text_lt c b = false -> text_lt c a = false.
Proof.
  revert b c. induction a as [|x a IH]; intros [|y b] [|z c]; cbn; try done.
  rewrite !orb_false_iff, !andb_false_iff. intros [H1 H2] [H3 H4].
  split; [lia|]. destruct (Z.eqb_spec z x) as [->|]; [right|by left]. apply (IH b).
  - destruct H2 as [H2|H2]; [|done]. lia.
  - destruct H4 as [H4|H4]; [|done]. lia.
Qed.
Lemma text_lt_app a a' b b' : length a = length a' -> text_lt (a ++ b) (a' ++ b') = text_lt a a' || (bool_decide (a = a') && text_lt b b').
Proof.
  revert a'. induction a as [|x a IH]; intros [|y a'] Hl; try done. cbn in *. injection Hl as Hl. rewrite IH by done.
  destruct (Z.ltb_spec x y); [done|]. destruct (Z.eqb_spec x y) as [->|]; cbn.
  - f_equal. f_equal. apply bool_decide_ext. split; [congruence|by intros [=]].
  - rewrite bool_decide_eq_false_2 by congruence. done.
Qed.
Lemma pad_length k n : length (pad k n) = k.
Proof. revert n. induction k as [|k IH]; intros n; cbn; [done|]. rewrite length_app, IH. cbn. lia. Qed.
Lemma pad_lt k n m : 0 <= n < 10 ^ Z.of_nat k -> 0 <= m < 10 ^ Z.of_nat k ->
  text_lt (pad k n) (pad k m) = (n <? m) /\ bool_decide (pad k n = pad k m) = (n =? m).
Proof.
  revert n m. induction k as [|k IH]; intros n m Hn Hm; cbn [pad].
  - cbn in *. assert (n = 0) as -> by lia. assert (m = 0) as -> by lia. done.
  - rewrite Nat2Z.inj_succ, Z.pow_succ_r in Hn, Hm by lia.
    destruct (IH (n `div` 10) (m `div` 10)) as [IH1 IH2]; [split; [apply Z.div_pos; lia|apply Z.div_lt_upper_bound; lia]..|].
    clear Hn Hm.
    rewrite text_lt_app by (by rewrite !pad_length). rewrite IH1, IH2. cbn. rewrite andb_false_r, orb_false_r. split; [Z.to_euclidean_division_equations; lia|].
    destruct (Z.eqb_spec n m) as [->|Hnm]; [by apply bool_decide_eq_true_2|]. apply bool_decide_eq_false_2. intros [E1 E2]%app_inj_tail.
    pose proof (bool_decide_eq_true_2 (pad k (n `div` 10) = pad k (m `div` 10)) E1) as E3. rewrite IH2 in E3. clear -E3 E2 Hnm. Z.to_euclidean_division_equations; lia.
Qed.
(** Fields that fit their widths. *)
Fixpoint fit (layout : list (nat * list Z)) (fs : list Z) : Prop :=
  match layout, fs with
  | [], [] => True
  | (k, _) :: layout, f :: fs => 0 <= f < 10 ^ Z.of_nat k /\ fit layout fs
  | _, _ => False
  end.
Lemma render_lt layout fs gs : fit layout fs -> fit layout gs -> text_lt (render layout fs) (render layout gs) = text_lt fs gs.
Proof.
  revert fs gs. induction layout as [|[k sep] layout IH]; intros [|f fs] [|g gs]; cbn; try done.
  intros [Hf Hfs] [Hg Hgs]. destruct (pad_lt k f g Hf Hg) as [E1 E2]. rewrite text_lt_app by (by rewrite !pad_length).
  rewrite (text_lt_app sep sep) by done. rewrite (bool_decide_eq_true_2 (sep = sep)) by done. rewrite text_lt_irrefl, E1, E2, IH by done. done.
Qed.

Lemma DateTime_nonempty t : Format DateTime t <> [].
Proof.
  unfold Format, fields. destruct (year_yday _) as [y yd], (month_day _ _ _) as [m d]. unfold DateTime. cbn [render].
  intros E%(f_equal length). rewrite length_app, pad_length in E. cbn in E. lia.
Qed.

(** ** The order of dates *)
Lemma days_before_mono y y' : y <= y' -> days_before y <= days_before y'.
Proof. unfold days_before. intros. Z.to_euclidean_division_equations. lia. Qed.
Lemma year_yday_spec d : 0 <= d -> let (y, yday) := year_yday d in
  0 <= y /\ d = days_before y + yday /\ 0 <= yday < days_before (y + 1) - days_before y.
Proof.
  intros Hd. unfold year_yday. set (n := d `div` 146097). set (d1 := d `mod` 146097).
  assert (d = 146097 * n + d1) by (apply Z.div_mod; lia). assert (0 <= n) by (apply Z.div_pos; lia).
  assert (0 <= d1 < 146097) by (apply Z.mod_pos_bound; lia). clearbody n d1.
  set (n100 := Z.min 3 (d1 `div` 36524)). set (d2 := d1 - 36524 * n100).
  assert (0 <= n100 <= 3 /\ 0 <= d2 < 36525 /\ (n100 <> 3 -> d2 < 36524)) as (? & ? & ?) by (subst n100 d2; Z.to_euclidean_division_equations; lia).
  clearbody n100. assert (d1 = 36524 * n100 + d2) by lia. clearbody d2.
  set (n4 := d2 `div` 1461). set (d3 := d2 - 1461 * n4).
  assert (0 <= n4 <= 24 /\ 0 <= d3 < 1461 /\ (n4 = 24 -> n100 <> 3 -> d3 < 1460)) as (? & ? & ?) by (subst n4 d3; Z.to_euclidean_division_equations; lia).
  assert (d2 = 1461 * n4 + d3) by lia. clearbody n4 d3.
  set (n1 := Z.min 3 (d3 `div` 365)). set (yd := d3 - 365 * n1).
  assert (0 <= n1 <= 3 /\ 0 <= yd < 366 /\ (n1 <> 3 -> yd < 365)) as (? & ? & ?) by (subst n1 yd; Z.to_euclidean_division_equations; lia).
  assert (d3 = 365 * n1 + yd) by lia. clearbody n1 yd.
  set (y := 400 * n + 100 * n100 + 4 * n4 + n1).
  assert (Hy4 : y `div` 4 = 100 * n + 25 * n100 + n4) by (subst y; Z.to_euclidean_division_equations; lia).
  assert (Hy100 : y `div` 100 = 4 * n + n100) by (subst y; Z.to_euclidean_division_equations; lia).
  assert (Hy400 : y `div` 400 = n) by (subst y; Z.to_euclidean_division_equations; lia).
  unfold days_before. rewrite Hy4, Hy100, Hy400.
  destruct (decide (n1 = 3)); [destruct (decide (n4 = 24)); [destruct (decide (n100 = 3))|]|].
  all: subst y; clear Hy4 Hy100 Hy400; Z.to_euclidean_division_equations; lia.
Qed.
Lemma month_day_mono starts m yd yd' : yd < yd' ->
  let (a, b) := month_day starts m yd in let (a', b') := month_day starts m yd' in a < a' \/ (a = a' /\ b < b').
Proof.
  intros Hlt. revert m. assert (Hm : forall starts m yd, m <= (month_day starts m yd).1).
  { induction starts0 as [|s [|s' rest] IH]; intros m yd0; cbn; [lia|lia|]. destruct (yd0 <? s'); [cbn; lia|].
    specialize (IH (m + 1) yd0). cbn in IH. lia. }
  induction starts as [|s [|s' rest] IH]; intros m; cbn [month_day]; [right; lia|right; lia|].
  destruct (Z.ltb_spec yd s'), (Z.ltb_spec yd' s'); [right; lia| |lia|apply IH].
  specialize (Hm (s' :: rest) (m + 1) yd'). cbn [month_day] in Hm. destruct (match rest with [] => _ | _ => _ end). left. cbn in Hm. lia.
Qed.
Lemma month_day_fits leap yd : 0 <= yd < 366 -> let (m, day) := month_day (month_starts leap) 1 yd in 1 <= m <= 12 /\ 1 <= day <= 32.
Proof.
  intros Hy. destruct leap; cbn.
  all: repeat match goal with |- context [?a <? ?b] => destruct (Z.ltb_spec a b); [lia|] end; lia.
Qed.

(** The times that have four digits for the year. *)
Definition year_10000 : time := time_Unix 253402300800.
Definition datable (t : time) : Prop := 0 <= t < year_10000.
Lemma seconds_of t : 0 <= t -> 0 <= t `div` second.
Proof. intros. apply Z.div_pos; [lia|by vm_compute]. Qed.
Lemma year_bound d y yd : d < 3652059 -> 0 <= y -> d = days_before y + yd -> 0 <= yd -> y < 9999.
Proof. intros Hd Hy E Hyd. destruct (Z.lt_ge_cases y 9999); [done|]. pose proof (days_before_mono 9999 y ltac:(lia)). change (days_before 9999) with 3652059 in *. lia. Qed.
Lemma fields_fit t : datable t -> fit DateTime (fields t) /\ fit RFC3339 (fields t).
Proof.
  intros [H0 H1]. unfold fields. set (s := t `div` second). assert (Hs : 0 <= s < 315537897600).
  { subst s. split; [by apply seconds_of|]. apply Z.div_lt_upper_bound; [by vm_compute|]. eapply Z.lt_le_trans; [exact H1|by vm_compute]. }
  clearbody s. assert (Hd : 0 <= s `div` 86400 < 3652059) by (split; [apply Z.div_pos; lia|apply Z.div_lt_upper_bound; lia]).
  pose proof (Z.mod_pos_bound s 86400 ltac:(lia)) as Hsod. set (d := s `div` 86400) in *. set (sod := s `mod` 86400) in *. clearbody d sod.
  pose proof (year_yday_spec d ltac:(lia)) as Hy. destruct (year_yday d) as [y yd]. destruct Hy as (Hy & E & Hyd).
  assert (y < 9999) by (apply (year_bound d y yd); lia).
  assert (yd < 366). { destruct Hyd as [_ Hyd]. unfold days_before in Hyd. Z.to_euclidean_division_equations; lia. }
  pose proof (month_day_fits (isLeap (y + 1)) yd ltac:(lia)) as Hm. destruct (month_day _ 1 yd) as [m day]. destruct Hm as [Hm Hday].
  assert (0 <= sod `div` 3600 < 24 /\ 0 <= sod `mod` 3600 `div` 60 < 60 /\ 0 <= sod `mod` 60 < 60) by (Z.to_euclidean_division_equations; lia).
  cbn -[Z.div Z.modulo]. split_and!; try done; lia.
Qed.
Lemma fields_mono t u : 0 <= t -> t `div` second < u `div` second -> text_lt (fields t) (fields u) = true.
Proof.
  intros H0 Hlt. apply seconds_of in H0. unfold fields. set (s := t `div` second) in *. set (s' := u `div` second) in *. clearbody s s'.
  assert (Hd : s `div` 86400 < s' `div` 86400 \/ (s `div` 86400 = s' `div` 86400 /\ s `mod` 86400 < s' `mod` 86400)) by (Z.to_euclidean_division_equations; lia).
  assert (0 <= s `div` 86400) by (apply Z.div_pos; lia).
  set (d := s `div` 86400) in *. set (sod := s `mod` 86400) in *. set (d' := s' `div` 86400) in *. set (sod' := s' `mod` 86400) in *. clearbody d sod d' sod'.
  pose proof (year_yday_spec d ltac:(lia)) as Hy. pose proof (year_yday_spec d' ltac:(lia)) as Hy'.
  destruct (year_yday d) as [y yd] eqn:Ed, (year_yday d') as [y' yd'] eqn:Ed'. destruct Hy as (Hy & E & Hyd), Hy' as (Hy' & E' & Hyd').
  assert (y < y' \/ (y = y' /\ (yd < yd' \/ (yd = yd' /\ sod < sod')))) as [Hyy|[<- Hyy]].
  { destruct (Z.lt_trichotomy y y') as [?|[->|?]]; [by left|right; split; [done|lia]|]. exfalso.
    pose proof (days_before_mono (y' + 1) y ltac:(lia)). lia. }
  - destruct (month_day _ 1 yd), (month_day _ 1 yd'). cbn. replace (y + 1 <? y' + 1) with true by lia. done.
  - pose proof (month_day_mono (month_starts (isLeap (y + 1))) 1 yd yd') as Hm.
    destruct Hyy as [Hyy|[<- Hyy]].
    + specialize (Hm Hyy). destruct (month_day _ 1 yd) as [a b], (month_day _ 1 yd') as [a' b']. cbn -[Z.div Z.modulo].
      rewrite Z.ltb_irrefl, Z.eqb_refl. cbn -[Z.div Z.modulo]. destruct Hm as [Hm|[-> Hm]]; [replace (a <? a') with true by lia; done|].
      rewrite Z.ltb_irrefl, Z.eqb_refl. cbn. replace (b <? b') with true by lia. done.
    + destruct (month_day _ 1 yd) as [a b]. cbn -[Z.div Z.modulo]. rewrite !Z.ltb_irrefl, !Z.eqb_refl. cbn -[Z.div Z.modulo].
      Z.to_euclidean_division_equations; lia.
Qed.
(** In the database the texts have the order of the times they stand for, to the
    second. *)
Theorem text_order_is_time_order layout t u : layout = DateTime \/ layout = RFC3339 -> datable t -> datable u ->
  text_lt (Format layout t) (Format layout u) = (t `div` second <? u `div` second).
Proof.
  intros Hl Ht Hu. unfold Format. destruct (fields_fit t Ht) as [F1 F2], (fields_fit u Hu) as [G1 G2].
  rewrite render_lt by (destruct Hl as [-> | ->]; done). destruct (Z.ltb_spec (t `div` second) (u `div` second)).
  - apply fields_mono; [apply Ht|done].
  - destruct (decide (u `div` second = t `div` second)) as [E|].
    + unfold fields. rewrite E. apply text_lt_irrefl.
    + apply text_lt_asym, fields_mono; [apply Hu|lia].
Qed.
