(* ===== verification/RecordingPaths.v ===== *)
(** The paths of recordings: names of media files (src/internal/recording/paths.go),
    and which files the recording handlers open and remove
    (src/internal/httpapi/recording_export.go, recordings_delete_handler.go).

    The file system is a set of files; how symbolic links resolve, and which
    removals the system refuses, are parameters. *)
From S2P Require Import Prelude GoText GoPath.
Local Open Scope Z_scope.

(** ** filepath *)
Definition elems (p : list Z) : list (list Z) := clean_elems true (split_byte p sep).
Fixpoint strip_common (b t : list (list Z)) : list (list Z) * list (list Z) :=
  match b, t with
  | x :: b', y :: t' => if decide (x = y) then strip_common b' t' else (b, t)
  | _, _ => (b, t)
  end.
(** [Rel] of a rooted base. *)
Definition Rel (base targ : list Z) : option (list Z) :=
  if is_rooted base && is_rooted targ then
    let (b, t) := strip_common (elems base) (elems targ) in
    Some (if bool_decide (b = []) && bool_decide (t = []) then dot else join_byte (replicate (length b) dotdot ++ t) sep)
  else None.
Definition Base (p : list Z) : list Z :=
  if bool_decide (p = []) then dot
  else let p := trim_right_byte p sep in
       if bool_decide (p = []) then [sep] else default [] (last (split_byte p sep)).
Definition Dir (p : list Z) : list Z :=
  Clean (take (match last_index p [sep] with Some i => S i | None => O end) p).

(** ** The file system *)
Inductive fs_err := NotExist | FsError (msg : string).
#[export] Instance fs_err_eq_dec : EqDecision fs_err. Proof. solve_decision. Defined.
Abbreviation files := (gset (list Z)).
Class OS := {
  cwd : list Z;
  EvalSymlinks : files -> list Z -> result fs_err (list Z);
  Stat : files -> list Z -> bool;               (* err == nil *)
  remove_refused : list Z -> option string
}.
Section paths.
Context `{OS} `{UnicodeTables}.

Definition Abs (p : list Z) : list Z := if is_rooted p then Clean p else Join [cwd; p].
Definition Remove (p : list Z) (fs : files) : files * result fs_err unit :=
  if decide (p ∈ fs) then
    match remove_refused p with Some msg => (fs, Err (FsError msg)) | None => (fs ∖ {[p]}, Ok tt) end
  else (fs, Err NotExist).
(** [rel == ".."] or a prefix [../]. *)
Definition outside (rel : list Z) : bool := bool_decide (rel = dotdot) || has_prefix rel (dotdot ++ [sep]).

(** ** paths.go *)
Definition dash (c : Z) : Z := if (c =? 58) || (c =? 46) then 45 else c.
Definition SanitizeSessionID (sessionID : list Z) : list Z := dash <$> sessionID.
Definition MP4Path (dir sessionID : list Z) : list Z := Join [dir; SanitizeSessionID sessionID ++ bs ".mp4"].
Definition CastPath (dir sessionID : list Z) : list Z := Join [dir; SanitizeSessionID sessionID ++ bs ".cast"].
Definition IsMP4Path (path : list Z) : bool := has_suffix (ToLower (TrimSpace path)) (bs ".mp4").
Definition StorageFormat (path : list Z) : string :=
  if IsMP4Path path then "mp4"
  else if has_suffix (ToLower (TrimSpace path)) (bs ".cast") then "cast" else "".

(** ** Opening *)
Fixpoint sanitize_ext (exts : list (list Z)) (name : list Z) : list Z :=
  match exts with
  | [] => dash <$> name
  | ext :: exts =>
      if has_suffix (ToLower name) ext then (dash <$> take (length name - length ext) name) ++ ext
      else sanitize_ext exts name
  end.
Definition sanitizeRecordingBasename (name : list Z) : list Z := sanitize_ext [bs ".cast"; bs ".mp4"] name.

(** [openRecordingPath], and [openExportPath] with its directory. *)
Definition openRecordingPath (fs : files) (recordingDir absPath : list Z) : result fs_err (list Z) :=
  let? resolved := EvalSymlinks fs absPath in
  match Rel (Abs recordingDir) resolved with
  | Some rel => if outside rel then Err (FsError "invalid recording path") else Ok resolved
  | None => Err (FsError "invalid recording path")
  end.
Definition openExportPath (fs : files) (exportDir absPath : list Z) : result fs_err (list Z) :=
  let? resolved := EvalSymlinks fs absPath in
  match Rel (Abs exportDir) resolved with
  | Some rel => if outside rel then Err (FsError "invalid export path") else Ok resolved
  | None => Err (FsError "invalid export path")
  end.
Definition resolveRecordingMediaPath (fs : files) (recordingDir filePath : list Z) : result fs_err (list Z) :=
  let absPath := Abs filePath in
  match Rel (Abs recordingDir) absPath with
  | None => Err (FsError "invalid recording path")
  | Some rel =>
      if outside rel then Err (FsError "invalid recording path")
      else if Stat fs absPath then openRecordingPath fs recordingDir absPath
      else
        let base := Base absPath in
        let safeBase := sanitizeRecordingBasename base in
        let alt := Join [Dir absPath; safeBase] in
        if bool_decide (safeBase <> base) && Stat fs alt then openRecordingPath fs recordingDir alt
        else Err NotExist
  end.

(** ** Removing *)
Fixpoint remove_first (absDir : list Z) (candidates : list (list Z)) (fs : files) : files * result fs_err bool :=
  match candidates with
  | [] => (fs, Ok false)
  | cand :: rest =>
      match openRecordingPath fs absDir (Abs cand) with
      | Err NotExist => remove_first absDir rest fs
      | Err e => (fs, Err e)
      | Ok resolved =>
          match Remove resolved fs with
          | (fs, Ok _) => (fs, Ok true)
          | (fs, Err NotExist) => remove_first absDir rest fs
          | (fs, Err e) => (fs, Err e)
          end
      end
  end.
Definition removeRecordingFile (recordingDir filePath : list Z) (fs : files) : files * result fs_err bool :=
  if bool_decide (recordingDir = []) || bool_decide (TrimSpace filePath = []) then (fs, Ok false)
  else
    let base := Base filePath in
    let safe := sanitizeRecordingBasename base in
    let candidates := filePath :: (if bool_decide (safe <> base) then [Join [Dir filePath; safe]] else []) in
    remove_first (Abs recordingDir) candidates fs.

(** ** Containment *)
Lemma strip_common_spec b t : let (b', t') := strip_common b t in exists p, b = p ++ b' /\ t = p ++ t'.
Proof.
  revert t. induction b as [|x b IH]; intros [|y t]; cbn; try (by exists []).
  destruct (decide (x = y)) as [->|]; [|by exists []].
  specialize (IH t). destruct (strip_common b t) as [b' t']. destruct IH as (p & -> & ->). by exists (y :: p).
Qed.
Lemma strip_common_self b names : strip_common b (b ++ names) = ([], names).
Proof. induction b as [|x b IH]; cbn; [by destruct names|]. by rewrite decide_True. Qed.
Definition below (dir p : list Z) : Prop := is_rooted p = true /\ exists names, elems p = elems dir ++ names.
Lemma dotdot_outside (b t : list (list Z)) : b <> [] -> outside (join_byte (replicate (length b) dotdot ++ t) sep) = true.
Proof.
  destruct b as [|x b]; [done|]. intros _. cbn [length replicate app]. unfold outside.
  destruct (replicate (length b) dotdot ++ t) as [|v ws]; [done|]. rewrite join_byte_cons. apply orb_true_iff. right.
  apply has_prefix_spec. exists (join_byte (v :: ws) sep). by rewrite <- app_assoc.
Qed.
Lemma Rel_below base targ rel : Rel base targ = Some rel -> outside rel = false -> below base targ.
Proof.
  unfold Rel. destruct (is_rooted base && is_rooted targ) eqn:Hr; [|done]. apply andb_true_iff in Hr as [_ Hr].
  pose proof (strip_common_spec (elems base) (elems targ)) as Hs. destruct (strip_common _ _) as [b t]. destruct Hs as (p & Eb & Et).
  intros [= <-] Ho. split; [done|]. destruct (decide (b = [])) as [->|Hb].
  - exists t. rewrite app_nil_r in Eb. congruence.
  - rewrite (bool_decide_eq_false_2 _ Hb) in Ho. cbn [andb] in Ho. by rewrite dotdot_outside in Ho.
Qed.
Lemma first_of_join x ws : exists tl, join_byte (x :: ws) sep = x ++ tl.
Proof. destruct ws as [|v ws]; [exists []; cbn; by rewrite app_nil_r|]. rewrite join_byte_cons. eauto. Qed.
Lemma below_Rel base targ : is_rooted base = true -> below base targ -> Forall normal (elems targ) ->
  exists rel, Rel base targ = Some rel /\ outside rel = false.
Proof.
  intros Hb [Ht (names & E)] Hn. unfold Rel. rewrite Hb, Ht, E, strip_common_self. cbn [andb length replicate app].
  eexists. split; [done|]. rewrite bool_decide_eq_true_2 by done. cbn [andb]. destruct (decide (names = [])) as [->|Hne]; [done|].
  rewrite bool_decide_eq_false_2 by done. destruct names as [|x ws]; [done|]. rewrite E in Hn. apply Forall_app in Hn as [_ Hn].
  apply Forall_cons in Hn as [(Hx1 & Hx2 & Hx3 & Hx4) Hn]. unfold outside. apply orb_false_iff. split.
  - apply bool_decide_eq_false_2. intros Ej. apply (f_equal (fun l => split_byte l sep)) in Ej.
    rewrite split_join in Ej; [by cbn in Ej; injection Ej as ->|done|].
    apply Forall_cons. split; [done|]. eapply Forall_impl; [exact Hn|]. by intros ? (_&_&_&?).
  - apply not_true_is_false. intros [k Hk]%has_prefix_spec. apply (f_equal (fun l => split_byte l sep)) in Hk.
    rewrite split_join, <- app_assoc in Hk; [|done|apply Forall_cons; split; [done|]; eapply Forall_impl; [exact Hn|]; by intros ? (_&_&_&?)].
    cbn in Hk. by injection Hk as -> _.
Qed.

Ltac opened q rel E Ho := destruct (EvalSymlinks _ _) as [q|]; [|done]; destruct (Rel _ q) as [rel|] eqn:E; [|done];
  destruct (outside rel) eqn:Ho; [done|]; intros [= <-]; by eapply Rel_below.
Lemma open_below fs dir p r : openRecordingPath fs dir p = Ok r -> below (Abs dir) r.
Proof. unfold openRecordingPath. opened q rel E Ho. Qed.
Lemma open_export_below fs dir p r : openExportPath fs dir p = Ok r -> below (Abs dir) r.
Proof. unfold openExportPath. opened q rel E Ho. Qed.
Lemma resolve_below fs dir p r : resolveRecordingMediaPath fs dir p = Ok r -> below (Abs dir) r.
Proof.
  unfold resolveRecordingMediaPath. destruct (Rel _ (Abs p)); [|done]. destruct (outside _); [done|].
  destruct (Stat fs (Abs p)); [apply open_below|]. destruct (_ && _); [apply open_below|done].
Qed.
(** Only a file of the recordings directory is removed. *)
Lemma remove_below dir cands fs fs' r : remove_first dir cands fs = (fs', r) ->
  fs' = fs \/ exists p, below (Abs dir) p /\ p ∈ fs /\ fs' = fs ∖ {[p]} /\ r = Ok true.
Proof.
  revert fs. induction cands as [|c cands IH]; intros fs; cbn; [intros [= <- _]; by left|].
  destruct (openRecordingPath fs dir (Abs c)) as [q|[|msg]] eqn:Eo; [|by apply IH|by intros [= <- _]; left].
  apply open_below in Eo. unfold Remove. destruct (decide (q ∈ fs)); [|by apply IH].
  destruct (remove_refused q); [by intros [= <- _]; left|]. intros [= <- <-]. right. by exists q.
Qed.

(** ** Names *)
Lemma dash_no_dot (l : list Z) : 46 ∉ dash <$> l.
Proof. intros (c & E & _)%list_elem_of_fmap. unfold dash in E. destruct (Z.eqb_spec c 58), (Z.eqb_spec c 46); cbn in E; lia. Qed.
Lemma join_byte_infix (w : list Z) ws c : w ∈ ws -> exists p q, join_byte ws c = p ++ w ++ q.
Proof.
  induction ws as [|v ws IH]; [by intros ?%elem_of_nil|]. intros [->|Hw]%elem_of_cons.
  - exists []. destruct ws as [|u ws]; [exists []; cbn; done|]. rewrite join_byte_cons. eexists. done.
  - destruct ws as [|u ws]; [by apply elem_of_nil in Hw|]. destruct (IH Hw) as (p & q & E). rewrite join_byte_cons, E.
    exists (v ++ c :: p), q. by rewrite <- app_assoc.
Qed.
Definition dots (l : list Z) : nat := length (filter (fun c => c = 46) l).
Lemma dots_app l k : dots (l ++ k) = (dots l + dots k)%nat.
Proof. unfold dots. by rewrite filter_app, length_app. Qed.
Lemma dots_none l : 46 ∉ l -> dots l = 0%nat.
Proof. unfold dots. induction l as [|x l IH]; [done|]. intros [Hx Hl]%not_elem_of_cons. rewrite filter_cons_False by congruence. by apply IH. Qed.
Lemma split_no_dotdot l : (dots l < 2)%nat -> Forall (fun w => w <> dotdot) (split_byte l sep).
Proof.
  intros Hd. apply Forall_forall. intros w Hw ->. destruct (join_byte_infix _ _ sep Hw) as (p & q & E).
  rewrite join_split in E. rewrite E, !dots_app in Hd. change (dots dotdot) with 2%nat in Hd. lia.
Qed.
Lemma foldl_clean_down acc cs : Forall (fun w => w <> dotdot) cs -> exists k, foldl (clean_step true) acc cs = k ++ acc.
Proof.
  revert acc. induction cs as [|c cs IH]; intros acc Hcs; cbn; [by exists []|]. apply Forall_cons in Hcs as [Hc Hcs].
  assert (clean_step true acc c = acc \/ clean_step true acc c = c :: acc) as [-> | ->].
  { unfold clean_step. destruct (_ || _); [by left|]. rewrite bool_decide_eq_false_2 by done. by right. }
  - by apply IH.
  - destruct (IH (c :: acc) Hcs) as [k ->]. exists (k ++ [c]). by rewrite <- app_assoc.
Qed.
Lemma elems_normal p : Forall normal (elems p).
Proof.
  unfold elems. apply clean_elems_normal. apply split_byte_seps.
Qed.
Lemma elems_abs cs : Forall normal cs -> elems (abs_path cs) = cs.
Proof.
  intros Hcs. apply abs_path_inj; [apply elems_normal|done|]. pose proof (Clean_abs cs Hcs) as E. unfold Clean in E.
  rewrite bool_decide_false, is_rooted_abs in E by done. exact E.
Qed.
Lemma Clean_elems p : is_rooted p = true -> Clean p = abs_path (elems p).
Proof.
  intros Hp. unfold Clean. destruct p as [|x p]; [done|]. rewrite bool_decide_false by done. rewrite Hp. done.
Qed.
Lemma elems_Clean p : is_rooted p = true -> elems (Clean p) = elems p /\ is_rooted (Clean p) = true.
Proof. intros Hp. rewrite Clean_elems by done. split; [apply elems_abs, elems_normal|apply is_rooted_abs]. Qed.
Lemma Join_down dir name : is_rooted dir = true -> (dots name < 2)%nat -> below dir (Join [dir; name]).
Proof.
  intros Hdir Hn. destruct dir as [|d dir]; [done|]. cbn [Join]. rewrite bool_decide_false by done.
  change (join_byte [d :: dir; name] sep) with ((d :: dir) ++ concat [sep :: name]). simpl concat. rewrite app_nil_r.
  assert (Hr : is_rooted ((d :: dir) ++ sep :: name) = true) by by apply is_rooted_app.
  destruct (elems_Clean _ Hr) as [E1 E2]. split; [done|]. rewrite E1. unfold elems, clean_elems.
  rewrite split_byte_app_sep, foldl_app. destruct (foldl_clean_down (foldl (clean_step true) [] (split_byte (d :: dir) sep)) (split_byte name sep)) as [k ->].
  { by apply split_no_dotdot. }
  exists (reverse k). by rewrite reverse_app.
Qed.
(** Whatever a session identifier holds, its media file is below the directory. *)
Theorem media_paths_stay_below dir sessionID : is_rooted dir = true ->
  below dir (MP4Path dir sessionID) /\ below dir (CastPath dir sessionID).
Proof.
  intros Hd. split; apply Join_down; try done; rewrite dots_app, (dots_none (SanitizeSessionID sessionID)) by apply dash_no_dot; vm_compute; lia.
Qed.
Lemma below_trans a b c : below a b -> below b c -> below a c.
Proof. intros [_ (n & E)] [Hc (m & E')]. split; [done|]. exists (n ++ m). by rewrite E', E, app_assoc. Qed.
End paths.
