(* ===== verification/RecordingExports.v ===== *)
(** Background exports of recordings (src/internal/httpapi/recording_export.go,
    export_temp_tracker.go, and the conversions of recordings.go).

    Jobs are heap objects shared by the registry, the requests and the goroutine
    that runs them, so a history is a sequence of steps, each what happens under
    the lock of the registry or between two calls that wait. The tools (agg,
    ffmpeg), new file names, the clock and [time.ParseDuration] are parameters. *)
From S2P Require Import Prelude GoText GoPath Sqlite Http AccessRequests RecordingPaths.
Local Open Scope Z_scope.

Definition recordingExportConvertTimeout : duration := 45 * minute.
Definition recordingExportStaleAfter : duration := 50 * minute.
Definition recordingExportCompletedTTL : duration := 7 * 24 * hour.

(** ** Data *)
Inductive recordingExportState := ExportQueued | ExportRunning | ExportCompleted | ExportFailed | ExportCancelled.
#[export] Instance export_state_eq_dec : EqDecision recordingExportState. Proof. solve_decision. Defined.
Record recordingExportMeta := mkExportMeta {
  em_SessionName : string; em_SessionDescription : string; em_ChannelType : string; em_TargetID : string;
  em_TargetName : string; em_TargetPath : string; em_StartedAt : string
}.
Definition no_meta : recordingExportMeta := mkExportMeta "" "" "" "" "" "" "".
(** [ej_cancel]: the cancel function is set. *)
Record recordingExportJob := mkExportJob {
  ej_ID : string; ej_UserID : string; ej_RecordingID : string; ej_Format : string;
  ej_State : recordingExportState; ej_Error : string;
  ej_OutputPath : list Z; ej_ContentType : string; ej_Disposition : string;
  ej_Progress : Z; ej_ProgressStage : string; ej_meta : recordingExportMeta;
  ej_CreatedAt : time; ej_UpdatedAt : time; ej_cancel : bool
}.
Inductive run_err := RunCancelled | RunFailed (msg : string).
Definition output : Type := list Z * string * string.
(** A conversion, between its calls that wait: nothing done yet, agg writes the GIF,
    the GIF of an MP4 export is there, ffmpeg writes the MP4 (the GIF beside it),
    ffmpeg writes a GIF, the deferred removal of the GIF is left. *)
Inductive conversion :=
| CvStart | CvAgg (gif : list Z) | CvRendered (gif : list Z) | CvMP4 (gif mp4 : list Z) | CvGIF (gif : list Z)
| CvDefer (gif : list Z) (res : result run_err output).
(** The goroutine [runRecordingExportJob]: what it does next. *)
Inductive run_phase := RQueued | RWaiting | RAcquire | RRunning | RStarting | RConvert | RFinish | RCancelledProgress | RCleanup | RClose | RDone.
#[export] Instance run_phase_eq_dec : EqDecision run_phase. Proof. solve_decision. Defined.
Record runner := mkRunner {
  ru_phase : run_phase; ru_ctx_done : bool; ru_media : list Z;
  ru_conv : conversion; ru_result : option (result run_err output); ru_temps : list (list Z)
}.
(** [recordingExportRegistry], the heap and the files. *)
Record exports := mkExports { ex_jobs : list (recordingExportJob * runner); ex_reg : gmap string nat; ex_files : files }.
Definition with_jobs x js := mkExports js (ex_reg x) (ex_files x).
Definition with_reg x r := mkExports (ex_jobs x) r (ex_files x).
Definition with_files x fs := mkExports (ex_jobs x) (ex_reg x) fs.

Definition on_job (f : recordingExportJob -> recordingExportJob) (g : nat) (x : exports) : exports :=
  with_jobs x (alter (fun jr => (f jr.1, jr.2)) g (ex_jobs x)).
Definition on_runner (f : runner -> runner) (g : nat) (x : exports) : exports :=
  with_jobs x (alter (fun jr => (jr.1, f jr.2)) g (ex_jobs x)).
Definition set_export_state st msg now (j : recordingExportJob) :=
  mkExportJob (ej_ID j) (ej_UserID j) (ej_RecordingID j) (ej_Format j) st msg (ej_OutputPath j) (ej_ContentType j) (ej_Disposition j)
    (ej_Progress j) (ej_ProgressStage j) (ej_meta j) (ej_CreatedAt j) now (ej_cancel j).
Definition set_export_progress pct stage now (j : recordingExportJob) :=
  mkExportJob (ej_ID j) (ej_UserID j) (ej_RecordingID j) (ej_Format j) (ej_State j) (ej_Error j) (ej_OutputPath j) (ej_ContentType j) (ej_Disposition j)
    pct stage (ej_meta j) (ej_CreatedAt j) now (ej_cancel j).
Definition set_completed (o : output) now (j : recordingExportJob) :=
  let '(path, ct, disp) := o in
  mkExportJob (ej_ID j) (ej_UserID j) (ej_RecordingID j) (ej_Format j) ExportCompleted (ej_Error j) path ct disp
    100 "completed" (ej_meta j) (ej_CreatedAt j) now (ej_cancel j).
Definition no_cancel (j : recordingExportJob) :=
  mkExportJob (ej_ID j) (ej_UserID j) (ej_RecordingID j) (ej_Format j) (ej_State j) (ej_Error j) (ej_OutputPath j) (ej_ContentType j) (ej_Disposition j)
    (ej_Progress j) (ej_ProgressStage j) (ej_meta j) (ej_CreatedAt j) (ej_UpdatedAt j) false.
Definition run_to p (r : runner) := mkRunner p (ru_ctx_done r) (ru_media r) (ru_conv r) (ru_result r) (ru_temps r).
Definition ctx_done (r : runner) := mkRunner (ru_phase r) true (ru_media r) (ru_conv r) (ru_result r) (ru_temps r).
Definition run_result p res temps (r : runner) := mkRunner p (ru_ctx_done r) (ru_media r) (ru_conv r) (Some res) temps.
Definition run_conv cv temps (r : runner) := mkRunner (ru_phase r) (ru_ctx_done r) (ru_media r) cv (ru_result r) temps.
Definition no_temps p (r : runner) := mkRunner p (ru_ctx_done r) (ru_media r) (ru_conv r) (ru_result r) [].

Definition is_active (j : recordingExportJob) : bool :=
  match ej_State j with ExportQueued | ExportRunning => true | _ => false end.

(** ** Sorting: newest first, by exchanging with every later job *)
Fixpoint exchange {A} (newer : A -> A -> bool) (x : A) (rest : list A) : A * list A :=
  match rest with
  | [] => (x, [])
  | y :: rest =>
      if newer y x then let (m, r) := exchange newer y rest in (m, x :: r)
      else let (m, r) := exchange newer x rest in (m, y :: r)
  end.
Fixpoint exchange_sort {A} (newer : A -> A -> bool) (n : nat) (l : list A) : list A :=
  match n, l with
  | S n, x :: l => let (m, r) := exchange newer x l in m :: exchange_sort newer n r
  | _, _ => l
  end.
Definition sortRecordingExports (jobs : list recordingExportJob) : list recordingExportJob :=
  exchange_sort (fun a b => After (ej_CreatedAt a) (ej_CreatedAt b)) (length jobs) jobs.

(** ** The conversions *)
Inductive tool_err := ToolCancelled | ToolDeadline | ToolFailed.
#[export] Instance tool_err_eq_dec : EqDecision tool_err. Proof. solve_decision. Defined.
(** What the system answers: the tools on the path, the names [CreateTemp] makes,
    how a tool ends, and the error of the context then. *)
Record tools := mkTools {
  to_agg : bool; to_ffmpeg : bool; to_gif : result string (list Z); to_mp4 : result string (list Z);
  to_run_agg : option tool_err; to_run_ffmpeg : option tool_err; to_ctx : option tool_err
}.
Definition tools_missing : run_err := RunFailed "Video export requires agg and ffmpeg on the server".
Definition exportStageError (stage : string) (ctx : option tool_err) (runErr : tool_err) : run_err :=
  if bool_decide (runErr = ToolCancelled) || bool_decide (ctx = Some ToolCancelled) then RunCancelled
  else if bool_decide (runErr = ToolDeadline) || bool_decide (ctx = Some ToolDeadline) then RunFailed ("export " ++ stage ++ " timed out")
  else RunFailed ("export " ++ stage ++ " failed").
(** [exportTempTracker]: the paths it holds, and the files. *)
Definition work : Type := list (list Z) * files.
Fixpoint release (path : list Z) (paths : list (list Z)) : list (list Z) :=
  match paths with
  | [] => []
  | p :: ps => if decide (p = path) then ps else p :: release path ps
  end.
Section exports.
Context `{OS} `{UnicodeTables} `{MapRange}.

Definition remove_file (p : list Z) (fs : files) : files := (Remove p fs).1.
Definition create_temp (p : list Z) (w : work) : work := (w.1 ++ [p], {[p]} ∪ w.2).   (* CreateTemp, track *)
Definition drop (p : list Z) (w : work) : work := (w.1, remove_file p w.2).
Definition keep (p : list Z) (w : work) : work := (release p w.1, w.2).
Definition cleanup (paths : list (list Z)) (fs : files) : files := foldl (fun fs p => remove_file p fs) fs paths.
Definition quoted (s : string) : string := (str_of [34] ++ s ++ str_of [34])%string.
Definition gif_output (p : list Z) : output := (p, "image/gif"%string, ("attachment; filename=" ++ quoted "recording.gif")%string).
Definition mp4_output (p : list Z) : output := (p, "video/mp4"%string, ("attachment; filename=" ++ quoted "recording.mp4")%string).
(** Each tool run begins with the look-up of the tool and a new file, which the tool
    then writes, and ends with what becomes of the file. *)
Definition tool_begin (found : bool) (name : result string (list Z)) (w : work) : work * result run_err (list Z) :=
  if negb found then (w, Err tools_missing) else
  match name with
  | Err e => (w, Err (RunFailed e))
  | Ok path => (create_temp path w, Ok path)
  end.
Definition render_end (t : tools) (gifPath : list Z) (w : work) : work * result run_err (list Z) :=
  match to_run_agg t with
  | Some e => (drop gifPath w, Err (exportStageError "agg" (to_ctx t) e))
  | None => (w, Ok gifPath)
  end.
Definition mp4_end (t : tools) (mp4Path : list Z) (w : work) : work * result run_err output :=
  match to_run_ffmpeg t with
  | Some e => (drop mp4Path w, Err (exportStageError "ffmpeg mp4" (to_ctx t) e))
  | None => (keep mp4Path w, Ok (mp4_output mp4Path))
  end.
Definition video_end (t : tools) (outGifPath : list Z) (w : work) : work * result run_err output :=
  match to_run_ffmpeg t with
  | Some e => (drop outGifPath w, Err (exportStageError "ffmpeg gif" (to_ctx t) e))
  | None => (keep outGifPath w, Ok (gif_output outGifPath))
  end.
(** The conversions, each as it runs when nothing comes in between. *)
Definition renderCastGIFIntermediate (t : tools) (w : work) : work * result run_err (list Z) :=
  match tool_begin (to_agg t) (to_gif t) w with
  | (w, Err e) => (w, Err e)
  | (w, Ok gifPath) => render_end t gifPath w
  end.
Definition convertCastToGIF (t : tools) (w : work) : work * result run_err output :=
  match renderCastGIFIntermediate t w with
  | (w, Err e) => (w, Err e)
  | (w, Ok gifPath) => (keep gifPath w, Ok (gif_output gifPath))
  end.
Definition convertCastToMP4 (t : tools) (w : work) : work * result run_err output :=
  match renderCastGIFIntermediate t w with
  | (w, Err e) => (w, Err e)
  | (w, Ok gifPath) =>
      let (w, r) :=
        match tool_begin (to_ffmpeg t) (to_mp4 t) w with
        | (w, Err e) => (w, Err e)
        | (w, Ok mp4Path) => mp4_end t mp4Path w
        end in
      (drop gifPath w, r)   (* deferred *)
  end.
Definition convertVideoToGIF (t : tools) (w : work) : work * result run_err output :=
  match tool_begin (to_ffmpeg t) (to_gif t) w with
  | (w, Err e) => (w, Err e)
  | (w, Ok outGifPath) => video_end t outGifPath w
  end.
Definition convert (j : recordingExportJob) (media : list Z) (t : tools) (w : work) : work * result run_err output :=
  if IsMP4Path media && bool_decide (ej_Format j = "gif"%string) then convertVideoToGIF t w
  else if bool_decide (ej_Format j = "gif"%string) then convertCastToGIF t w
  else if bool_decide (ej_Format j = "mp4"%string) then convertCastToMP4 t w
  else (w, Err (RunFailed ("unsupported export format " ++ ej_Format j))).
(** The same as steps: what happens up to the next call that waits for a tool (or,
    for the deferred removal, after the file of the export is ready). [inl]: the
    conversion goes on, [inr]: it returns. *)
Definition after_tool {A} (w : work) (r : result run_err A) (go : A -> conversion) : work * (conversion + result run_err output) :=
  match r with Ok a => (w, inl (go a)) | Err e => (w, inr (Err e)) end.
Definition convert_step (j : recordingExportJob) (media : list Z) (t : tools) (cv : conversion) (w : work)
    : work * (conversion + result run_err output) :=
  match cv with
  | CvStart =>
      if IsMP4Path media && bool_decide (ej_Format j = "gif"%string) then
        let (w, r) := tool_begin (to_ffmpeg t) (to_gif t) w in after_tool w r CvGIF
      else if bool_decide (ej_Format j = "gif"%string) || bool_decide (ej_Format j = "mp4"%string) then
        let (w, r) := tool_begin (to_agg t) (to_gif t) w in after_tool w r CvAgg
      else (w, inr (Err (RunFailed ("unsupported export format " ++ ej_Format j))))
  | CvGIF outGifPath => let (w, r) := video_end t outGifPath w in (w, inr r)
  | CvAgg gifPath =>
      match render_end t gifPath w with
      | (w, Err e) => (w, inr (Err e))
      | (w, Ok gifPath) =>
          if bool_decide (ej_Format j = "gif"%string) then (keep gifPath w, inr (Ok (gif_output gifPath))) else (w, inl (CvRendered gifPath))
      end
  | CvRendered gifPath =>
      match tool_begin (to_ffmpeg t) (to_mp4 t) w with
      | (w, Err e) => (w, inl (CvDefer gifPath (Err e)))
      | (w, Ok mp4Path) => (w, inl (CvMP4 gifPath mp4Path))
      end
  | CvMP4 gifPath mp4Path => let (w, r) := mp4_end t mp4Path w in (w, inl (CvDefer gifPath r))
  | CvDefer gifPath r => (drop gifPath w, inr r)
  end.
(** At most five steps. *)
Fixpoint convert_run (n : nat) j media t cv w : option (work * result run_err output) :=
  match n with
  | O => None
  | S n => match convert_step j media t cv w with (w, inl cv) => convert_run n j media t cv w | (w, inr r) => Some (w, r) end
  end.
Lemma convert_is_its_steps j media t w : convert_run 5 j media t CvStart w = Some (convert j media t w).
Proof.
  unfold convert. cbn [convert_run convert_step]. destruct (IsMP4Path media && _) eqn:Hv.
  - unfold convertVideoToGIF. destruct (tool_begin _ _ w) as [w1 [p|e]]; cbn [after_tool]; [|done]. cbn [convert_step]. by destruct (video_end t p w1).
  - clear Hv. unfold convertCastToGIF, convertCastToMP4, renderCastGIFIntermediate.
    destruct (bool_decide (ej_Format j = "gif"%string)) eqn:Hg; cbn [orb].
    + destruct (tool_begin _ _ w) as [w1 [p|e]]; cbn [after_tool]; [|done]. cbn [convert_step]. rewrite Hg. by destruct (render_end t p w1) as [w2 [q|e]].
    + destruct (bool_decide (ej_Format j = "mp4"%string)) eqn:Hm; [|done].
      destruct (tool_begin _ _ w) as [w1 [p|e]]; cbn [after_tool]; [|done]. cbn [convert_step]. rewrite Hg. destruct (render_end t p w1) as [w2 [q|e]]; [|done].
      cbn [convert_step]. destruct (tool_begin _ _ w2) as [w3 [m|e]]; [|done]. cbn [convert_step]. by destruct (mp4_end t m w3).
Qed.

(** ** The registry *)
Definition job_of (x : exports) (g : nat) : option recordingExportJob := fst <$> ex_jobs x !! g.
Definition ex_get (id : string) (x : exports) : option (nat * recordingExportJob) :=
  g ← ex_reg x !! id; j ← job_of x g; Some (g, j).
Definition registered (x : exports) : list (string * nat * recordingExportJob) :=
  omap (fun kv => (fun j => (kv.1, kv.2, j)) <$> job_of x kv.2) (range (ex_reg x)).
Definition ex_remove (id : string) (x : exports) : exports * option recordingExportJob :=
  (with_reg x (delete id (ex_reg x)), snd <$> ex_get id x).
Definition removeForRecording (recordingID : string) (x : exports) : exports * list (nat * recordingExportJob) :=
  let out := filter (fun e => ej_RecordingID e.2 = recordingID) (registered x) in
  (with_reg x (foldl (fun m e => delete e.1.1 m) (ex_reg x) out), (fun e => (e.1.2, e.2)) <$> out).
Definition countByState (x : exports) (st : recordingExportState) : nat :=
  length (filter (fun e => ej_State e.2 = st) (registered x)).
Definition listForViewer (userID : string) (includeAll : bool) (x : exports) : list recordingExportJob :=
  sortRecordingExports (filter (fun j => includeAll = true \/ ej_UserID j = userID) (snd <$> registered x)).
Definition findActiveLocked (userID recordingID format : string) (x : exports) : option (nat * recordingExportJob) :=
  (fun e => (e.1.2, e.2)) <$> head (filter (fun e =>
     ej_UserID e.2 = userID /\ ej_RecordingID e.2 = recordingID /\ ej_Format e.2 = format /\ is_active e.2 = true) (registered x)).

(** ** Under the lock *)
Definition clamp_percent (percent : Z) : Z :=
  let percent := if percent <? 0 then 0 else percent in if 100 <? percent then 100 else percent.
Definition updateRecordingExportProgress (g : nat) (percent : Z) (stage : string) (now : time) : exports -> exports :=
  on_job (set_export_progress (clamp_percent percent) stage now) g.
Definition updateRecordingExportState (g : nat) (st : recordingExportState) (errMsg : string) (now : time) : exports -> exports :=
  on_job (set_export_state st errMsg now) g.
Definition requestCancelRecordingExport (g : nat) (x : exports) : exports :=
  match job_of x g with
  | Some j => if ej_cancel j then on_runner ctx_done g x else x
  | None => x
  end.
Definition userVisibleExportError (e : run_err) : string := match e with RunCancelled => "context canceled" | RunFailed msg => msg end.
(** [finishRecordingExportJob], up to the progress of a cancelled job. *)
Definition finishRecordingExportJob (g : nat) (res : result run_err output) (now : time) (x : exports) : exports * run_phase :=
  match res with
  | Err RunCancelled => (updateRecordingExportState g ExportCancelled "" now x, RCancelledProgress)
  | Err e => (updateRecordingExportState g ExportFailed (userVisibleExportError e) now x, RCleanup)
  | Ok o => (on_job (set_completed o now) g x, RCleanup)
  end.

(** ** The goroutine of a job *)
Inductive run_event :=
| EvNext (now : time)                               (* the next locked part *)
| EvAcquired (r : option run_err)                   (* AcquireExport returns *)
| EvReport (percent : Z) (stage : string) (now : time)
| EvConvert (t : tools).                            (* the conversion goes on *)
Definition queue_err (e : run_err) : run_err :=
  match e with RunCancelled => RunCancelled | RunFailed _ => RunFailed "export queue wait failed" end.
Definition run_step (g : nat) (ev : run_event) (x : exports) : exports :=
  match ex_jobs x !! g with
  | None => x
  | Some (j, r) =>
      match ru_phase r, ev with
      | RQueued, EvNext now => on_runner (run_to RWaiting) g (updateRecordingExportProgress g 0 "queued" now x)
      | RWaiting, EvNext now => on_runner (run_to RAcquire) g (updateRecordingExportProgress g 2 "waiting" now x)
      | RAcquire, EvAcquired None => on_runner (run_to RRunning) g x
      | RAcquire, EvAcquired (Some e) => on_runner (run_result RFinish (Err (queue_err e)) []) g x
      | RRunning, EvNext now => on_runner (run_to RStarting) g (updateRecordingExportState g ExportRunning "" now x)
      | RStarting, EvNext now => on_runner (run_to RConvert) g (updateRecordingExportProgress g 5 "starting" now x)
      | RConvert, EvReport percent stage now => updateRecordingExportProgress g percent stage now x
      | RConvert, EvConvert t =>
          let '((paths, fs), o) := convert_step j (ru_media r) t (ru_conv r) (ru_temps r, ex_files x) in
          on_runner (match o with inl cv => run_conv cv paths | inr res => run_result RFinish res paths end) g (with_files x fs)
      | RFinish, EvNext now =>
          match ru_result r with
          | Some res => let (x, p) := finishRecordingExportJob g res now x in on_runner (run_to p) g x
          | None => x
          end
      | RCancelledProgress, EvNext now => on_runner (run_to RCleanup) g (updateRecordingExportProgress g 0 "cancelled" now x)
      | RCleanup, EvNext _ =>   (* the deferred clean-up of the temporary files *)
          if decide (ej_State j = ExportCompleted) then on_runner (run_to RClose) g x
          else on_runner (no_temps RClose) g (with_files x (cleanup (ru_temps r) (ex_files x)))
      | RClose, EvNext _ => on_runner (fun r => ctx_done (run_to RDone r)) g (on_job no_cancel g x)
      | _, _ => x
      end
  end.

(** ** Settings *)
Section settings.
Context (getenv : string -> string) (ParseDuration : string -> option duration).
Definition env_duration (key : string) (def min : duration) : duration :=
  let v := TrimSpace_s (getenv key) in
  if bool_decide (v = ""%string) then def
  else match ParseDuration v with Some d => if d <? min then def else d | None => def end.
Definition recordingExportConvertTimeoutDuration : duration :=
  env_duration "VANTYX_RECORDING_EXPORT_CONVERT_TIMEOUT" recordingExportConvertTimeout (5 * minute).
Definition recordingExportStaleDuration : duration :=
  let minStale := recordingExportConvertTimeoutDuration + 5 * minute in
  if recordingExportStaleAfter <? minStale then minStale else recordingExportStaleAfter.
Definition recordingExportCompletedTTLDuration : duration :=
  env_duration "VANTYX_RECORDING_EXPORT_COMPLETED_TTL" recordingExportCompletedTTL hour.

(** ** Sweeping *)
Definition stale_exports (now : time) (x : exports) : list nat :=
  (fun e => e.1.2) <$> filter (fun e => ej_State e.2 = ExportRunning /\ recordingExportStaleDuration < Sub now (ej_UpdatedAt e.2)) (registered x).
Definition fail_stale (now : time) (g : nat) (x : exports) : exports :=
  updateRecordingExportState g ExportFailed "export timed out (no progress)" now (requestCancelRecordingExport g x).
Definition sweepStaleRecordingExports (now : time) (x : exports) : exports :=
  foldl (fun x g => fail_stale now g x) x (stale_exports now x).
Definition expired_export (now : time) (j : recordingExportJob) : bool :=
  negb (is_active j) && (recordingExportCompletedTTLDuration <? Sub now (ej_UpdatedAt j)).
Definition forget_expired (now : time) (x : exports) (e : string * nat * recordingExportJob) : exports :=
  if expired_export now e.2 then
    let x := if bool_decide (ej_OutputPath e.2 <> []) then with_files x (remove_file (ej_OutputPath e.2) (ex_files x)) else x in
    with_reg x (delete e.1.1 (ex_reg x))
  else x.
Definition sweepCompletedRecordingExports (now : time) (x : exports) : exports := foldl (forget_expired now) x (registered x).
Definition sweepRecordingExportsMaintenance (now : time) (x : exports) : exports :=
  sweepCompletedRecordingExports now (sweepStaleRecordingExports now x).

(** ** Queueing *)
Definition new_export (id userID recordingID format : string) (meta : recordingExportMeta) (now : time) : recordingExportJob :=
  mkExportJob id userID recordingID format ExportQueued "" [] "" "" 0 "" meta now now true.
(** The part under the lock; [id] is a random identifier. *)
Definition add_export (userID recordingID format : string) (media : list Z) (id : result string string) (meta : recordingExportMeta) (now : time)
    (x : exports) : exports * result string nat :=
  match findActiveLocked userID recordingID format x with
  | Some (g, _) => (x, Ok g)
  | None =>
      match id with
      | Err e => (x, Err e)
      | Ok id =>
          (mkExports (ex_jobs x ++ [(new_export id userID recordingID format meta now, mkRunner RQueued false media CvStart None [])])
             (<[id := length (ex_jobs x)]> (ex_reg x)) (ex_files x), Ok (length (ex_jobs x)))
      end
  end.
Definition enqueueRecordingExport (userID recordingID format : string) (media : list Z) (id : result string string) (meta : recordingExportMeta)
    (now : time) (x : exports) : exports * result string nat :=
  add_export userID recordingID format media id meta now (sweepRecordingExportsMaintenance now x).

(** ** Requests *)
Definition isAdminUser (e : request_env) (userID : string) : bool := bool_decide (re_is_admin e userID = Some true).
Definition userCanAccessRecordingExport (e : request_env) (j : recordingExportJob) : result http_err unit :=
  let userID := TrimSpace_s (currentUserID e) in
  if bool_decide (userID = ""%string) then Err (Http 401 "common.unauthorized")
  else if bool_decide (ej_UserID j <> userID) then
    if isAdminUser e userID then Ok tt else Err (Http 404 "recordings.exportNotFound")
  else Ok tt.
(** What the three requests on one export begin with. [Ok None] is a return without
    a response. *)
Definition load_export (e : request_env) (jobID : string) (x : exports) : result http_err (option (nat * recordingExportJob)) :=
  if bool_decide (jobID = ""%string) then Err (Http 400 "recordings.exportIdRequired") else
  match ex_get jobID x with
  | None => Ok None
  | Some (g, j) => let? _ := userCanAccessRecordingExport e j in Ok (Some (g, j))
  end.
Definition handleGetRecordingExportStatus (e : request_env) (jobID : string) (x : exports) : result http_err (option recordingExportJob) :=
  let? o := load_export e jobID x in Ok (snd <$> o).
(** The file that is served, its type and disposition. *)
Definition handleGetRecordingExportFile (e : request_env) (exportDir : list Z) (jobID : string) (x : exports) : result http_err (option output) :=
  let? o := load_export e jobID x in
  match o with
  | None => Ok None
  | Some (_, j) =>
      if bool_decide (ej_State j <> ExportCompleted) || bool_decide (ej_OutputPath j = []) then Err (Http 409 "recordings.exportNotReady") else
      match openExportPath (ex_files x) exportDir (ej_OutputPath j) with
      | Err _ => Err (Http 404 "recordings.fileNotFound")
      | Ok safePath =>
          if decide (safePath ∈ ex_files x) then Ok (Some (safePath, ej_ContentType j, ej_Disposition j))
          else Err (Http 404 "recordings.fileNotFound")
      end
  end.
Definition handleListRecordingExports (e : request_env) (now : time) (x : exports) : exports * result http_err (list recordingExportJob) :=
  let userID := TrimSpace_s (currentUserID e) in
  if bool_decide (userID = ""%string) then (x, Err (Http 401 "common.unauthorized")) else
  let x := sweepRecordingExportsMaintenance now x in
  (x, Ok (listForViewer userID (isAdminUser e userID) x)).
(** An active job is cancelled, a finished one removed with its file. *)
Definition cancel_export (g : nat) (now : time) (x : exports) : exports :=
  updateRecordingExportProgress g 0 "cancelled" now (updateRecordingExportState g ExportCancelled "" now (requestCancelRecordingExport g x)).
Definition discard_export (jobID : string) (x : exports) : exports * result http_err unit :=
  match ex_remove jobID x with
  | (x, None) => (x, Err (Http 404 "recordings.exportNotFound"))
  | (x, Some removed) =>
      (if bool_decide (ej_OutputPath removed <> []) then with_files x (remove_file (ej_OutputPath removed) (ex_files x)) else x, Ok tt)
  end.
(** [Ok false]: no response was written. *)
Definition handleDeleteRecordingExport (e : request_env) (jobID : string) (now : time) (x : exports) : exports * result http_err bool :=
  match load_export e jobID x with
  | Err err => (x, Err err)
  | Ok None => (x, Ok false)
  | Ok (Some (g, j)) =>
      if is_active j then (cancel_export g now x, Ok true)
      else match discard_export jobID x with (x, Ok _) => (x, Ok true) | (x, Err err) => (x, Err err) end
  end.
Definition recordingNeedsAsyncExport (format : string) (media : list Z) : bool :=
  if bool_decide (format = "mp4"%string) then negb (IsMP4Path media) else bool_decide (format = "gif"%string).

(** ** Histories: the goroutines, and what the requests do, in any order *)
Definition drop_jobs (l : list (nat * recordingExportJob)) (x : exports) : exports :=
  foldl (fun x e =>
    let x := if is_active e.2 then requestCancelRecordingExport e.1 x else x in
    if bool_decide (ej_OutputPath e.2 <> []) then with_files x (remove_file (ej_OutputPath e.2) (ex_files x)) else x) x l.
Inductive export_event :=
| XEnqueue (userID recordingID format : string) (media : list Z) (id : result string string) (meta : recordingExportMeta) (now : time)
| XRun (g : nat) (ev : run_event)
| XCancel (g : nat)
| XFail (g : nat) (msg : string) (now : time)                (* sweepStaleRecordingExports *)
| XCancelled (g : nat) (now : time) | XProgress (g : nat) (percent : Z) (stage : string) (now : time)
| XRemove (id : string) | XRemoveFile (p : list Z)
| XSweep (now : time)
| XDeleteRecording (recordingID : string).
Definition export_exec (x : exports) (ev : export_event) : exports :=
  match ev with
  | XEnqueue u rec fmt media id meta now => (add_export u rec fmt media id meta now x).1
  | XRun g ev => run_step g ev x
  | XCancel g => requestCancelRecordingExport g x
  | XFail g msg now => updateRecordingExportState g ExportFailed msg now x
  | XCancelled g now => updateRecordingExportState g ExportCancelled "" now x
  | XProgress g percent stage now => updateRecordingExportProgress g percent stage now x
  | XRemove id => (ex_remove id x).1
  | XRemoveFile p => with_files x (remove_file p (ex_files x))
  | XSweep now => sweepCompletedRecordingExports now x
  | XDeleteRecording rec => let (x, out) := removeForRecording rec x in drop_jobs out x
  end.
Definition export_run (x : exports) (evs : list export_event) : exports := foldl export_exec x evs.

(** ** What holds of a job and its goroutine *)
Definition ended (p : run_phase) : bool := match p with RCancelledProgress | RCleanup | RClose | RDone => true | _ => false end.
Definition before_result (p : run_phase) : bool := match p with RFinish => false | _ => negb (ended p) end.
Record job_ok (jr : recordingExportJob * runner) : Prop := {
  jo_final : ended (ru_phase jr.2) = true -> is_active jr.1 = false;
  jo_result : ru_result jr.2 = None <-> before_result (ru_phase jr.2) = true;
  jo_completed : ej_State jr.1 = ExportCompleted -> ended (ru_phase jr.2) = true /\ exists o, ru_result jr.2 = Some (Ok o);
  jo_output : ended (ru_phase jr.2) = true -> forall o, ru_result jr.2 = Some (Ok o) ->
    (ej_OutputPath jr.1, ej_ContentType jr.1, ej_Disposition jr.1) = o;
  jo_no_output : ej_OutputPath jr.1 <> [] -> ended (ru_phase jr.2) = true /\ exists o, ru_result jr.2 = Some (Ok o)
}.
Definition jobs_ok (x : exports) : Prop := Forall job_ok (ex_jobs x).
Lemma on_job_ok f g x : jobs_ok x -> (forall jr, job_ok jr -> job_ok (f jr.1, jr.2)) -> jobs_ok (on_job f g x).
Proof. intros Hx Hf. apply Forall_alter; [done|]. intros jr _. apply Hf. Qed.
Lemma on_runner_ok f g x : jobs_ok x -> (forall jr, ex_jobs x !! g = Some jr -> job_ok jr -> job_ok (jr.1, f jr.2)) -> jobs_ok (on_runner f g x).
Proof. intros Hx Hf. by apply Forall_alter. Qed.
Lemma on_both_ok f1 f2 g x : jobs_ok x -> (forall jr, ex_jobs x !! g = Some jr -> job_ok jr -> job_ok (f1 jr.1, f2 jr.2)) ->
  jobs_ok (on_runner f2 g (on_job f1 g x)).
Proof.
  intros Hx Hf. unfold jobs_ok, on_runner, on_job. cbn. rewrite list_alter_alter_eq. apply Forall_alter; [done|]. intros jr. apply Hf.
Qed.
Lemma progress_ok percent stage now jr : job_ok jr -> job_ok (set_export_progress percent stage now jr.1, jr.2).
Proof. intros []; by split. Qed.
Lemma state_ok st msg now jr : job_ok jr -> st <> ExportCompleted -> (ended (ru_phase jr.2) = true -> match st with ExportQueued | ExportRunning => False | _ => True end) ->
  job_ok (set_export_state st msg now jr.1, jr.2).
Proof.
  intros [A1 A2 A3 A4 A5] Hs He. split; cbn; [|done..]. intros E. specialize (He E). by destruct st.
Qed.
Lemma next_phase_ok jr p : job_ok jr -> ended p = ended (ru_phase jr.2) -> before_result p = before_result (ru_phase jr.2) ->
  job_ok (jr.1, run_to p jr.2).
Proof. intros [A1 A2 A3 A4 A5] Ep Eb. split; cbn; rewrite ?Ep, ?Eb; done. Qed.
(** The job that a step of goroutine [g] works on. *)
Ltac this_job Hx := first [apply on_both_ok; [exact Hx|]|apply on_runner_ok; [exact Hx|]]; intros jr Hjr [A1 A2 A3 A4 A5]; cbn in *; simplify_eq; cbn in *.
Lemma run_step_ok g ev x : jobs_ok x -> jobs_ok (run_step g ev x).
Proof.
  intros Hx. unfold run_step. destruct (ex_jobs x !! g) as [[j r]|] eqn:Hg; [|done].
  destruct (ru_phase r) eqn:Hp, ev as [now|[e|]|pct stage now|t]; try exact Hx.
  - this_job Hx. rewrite Hp in *. by split.
  - this_job Hx. rewrite Hp in *. by split.
  - this_job Hx. rewrite Hp in *. split; cbn; [done|by split|..].
    + intros E. destruct (A3 E). done.
    + done.
    + intros E. destruct (A5 E). done.
  - this_job Hx. rewrite Hp in *. by split.
  - this_job Hx. rewrite Hp in *. split; cbn; [done|done|done|done|done].
  - this_job Hx. rewrite Hp in *. by split.
  - apply on_job_ok; [done|]. intros jr. apply progress_ok.
  - destruct (convert_step j (ru_media r) t (ru_conv r) (ru_temps r, ex_files x)) as [[paths fs] [cv|res]];
      assert (Hx' : jobs_ok (with_files x fs)) by exact Hx; this_job Hx'; rewrite Hp in *; [by split; cbn; rewrite ?Hp|]. split; cbn; [done|by split|..].
    + intros E. destruct (A3 E). done.
    + done.
    + intros E. destruct (A5 E). done.
  - destruct (ru_result r) as [[o|[|msg]]|] eqn:Hr; [| | |exact Hx]; cbn.
    + this_job Hx. rewrite Hp, Hr in *. destruct o as [[path ct] disp]. split; cbn; [done|by rewrite Hr|by eauto| |by eauto].
      intros _ o [= <-]%(eq_trans (eq_sym Hr)). done.
    + this_job Hx. rewrite Hp, Hr in *. split; cbn; rewrite ?Hr; [done|done|done|done|]. intros E. by destruct (A5 E).
    + this_job Hx. rewrite Hp, Hr in *. split; cbn; rewrite ?Hr; [done|done|done|done|]. intros E. by destruct (A5 E).
  - this_job Hx. rewrite Hp in *. by split.
  - destruct (decide _); [|assert (Hx' : jobs_ok (with_files x (cleanup (ru_temps r) (ex_files x)))) by exact Hx].
    + this_job Hx. rewrite Hp in *. by split.
    + this_job Hx'. rewrite Hp in *. by split.
  - this_job Hx. rewrite Hp in *. by split.
Qed.
Lemma cancel_request_ok g x : jobs_ok x -> jobs_ok (requestCancelRecordingExport g x).
Proof.
  intros Hx. unfold requestCancelRecordingExport. destruct (job_of x g) as [j|]; [|done]. destruct (ej_cancel j); [|done].
  apply on_runner_ok; [done|]. intros jr _ [A1 A2 A3 A4 A5]. by split.
Qed.
Lemma add_export_ok u rec fmt media id meta now x : jobs_ok x -> jobs_ok (add_export u rec fmt media id meta now x).1.
Proof.
  intros Hx. unfold add_export. destruct (findActiveLocked _ _ _ x) as [[g j]|]; [done|]. destruct id as [id|e]; [|done].
  apply Forall_app. split; [done|]. constructor; [|constructor]. by split.
Qed.
Lemma drop_jobs_ok l x : jobs_ok x -> jobs_ok (drop_jobs l x).
Proof.
  revert x. induction l as [|e l IH]; intros x Hx; [done|]. apply IH. destruct (is_active e.2), (bool_decide _); try done.
  - by apply (cancel_request_ok e.1 x).
  - by apply cancel_request_ok.
Qed.
Lemma forget_jobs now l x : ex_jobs (foldl (forget_expired now) x l) = ex_jobs x.
Proof.
  revert x. induction l as [|e l IH]; intros x; [done|]. cbn. rewrite IH. unfold forget_expired.
  destruct (expired_export now e.2), (bool_decide (ej_OutputPath e.2 <> [])); done.
Qed.
Lemma export_exec_ok ev x : jobs_ok x -> jobs_ok (export_exec x ev).
Proof.
  intros Hx. destruct ev as [u rec fmt media id meta now|g ev|g|g msg now|g now|g pct stage now|id|p|now|rec]; cbn.
  - by apply add_export_ok.
  - by apply run_step_ok.
  - by apply cancel_request_ok.
  - apply on_job_ok; [done|]. intros jr Hjr. by apply state_ok.
  - apply on_job_ok; [done|]. intros jr Hjr. by apply state_ok.
  - apply on_job_ok; [done|]. intros jr. apply progress_ok.
  - done.
  - done.
  - unfold jobs_ok, sweepCompletedRecordingExports. by rewrite forget_jobs.
  - by apply drop_jobs_ok.
Qed.
Lemma export_run_ok evs x : jobs_ok x -> jobs_ok (export_run x evs).
Proof. revert x. induction evs as [|ev evs IH]; intros x Hx; [done|]. by apply IH, export_exec_ok. Qed.

(** ** Files *)
Section files_accounted.
(** A file the system refuses to remove; the code ignores that. *)
Definition stuck (p : list Z) : Prop := remove_refused p <> None.
Lemma remove_file_sub p fs : remove_file p fs ⊆ fs.
Proof. unfold remove_file, Remove. destruct (decide (p ∈ fs)); [destruct (remove_refused p)|]; cbn; set_solver. Qed.
Lemma remove_file_spec p fs : remove_refused p = None -> remove_file p fs = fs ∖ {[p]}.
Proof. intros Hr. unfold remove_file, Remove. destruct (decide (p ∈ fs)); [by rewrite Hr|cbn; set_solver]. Qed.
Lemma remove_file_left p fs f : f ∈ remove_file p fs -> f ∈ fs /\ (f = p -> stuck f).
Proof.
  intros Hf. split; [by apply (remove_file_sub p)|]. intros ->. unfold stuck. intros Hr. rewrite remove_file_spec in Hf by done. set_solver.
Qed.
Lemma cleanup_sub paths fs : cleanup paths fs ⊆ fs.
Proof. revert fs. induction paths as [|p ps IH]; intros fs; cbn; [done|]. etrans; [apply IH|apply remove_file_sub]. Qed.
(** The files a conversion works on, and those it leaves when it returns. *)
Definition result_files (r : result run_err output) : list (list Z) := match r with Ok o => [o.1.1] | Err _ => [] end.
Definition conv_files (cv : conversion) : list (list Z) :=
  match cv with
  | CvStart => [] | CvAgg p | CvRendered p | CvGIF p => [p] | CvMP4 gif mp4 => [gif; mp4] | CvDefer gif r => gif :: result_files r
  end.
Definition left_files (o : conversion + result run_err output) : list (list Z) := match o with inl cv => conv_files cv | inr r => result_files r end.
Lemma tool_begin_files found name w f : let (w', r) := tool_begin found name w in
  f ∈ w'.2 -> f ∈ w.2 \/ r = Ok f.
Proof.
  unfold tool_begin. destruct (negb found); [by left|]. destruct name as [p|e]; [|by left]. cbn.
  intros [->%elem_of_singleton|]%elem_of_union; [by right|by left].
Qed.
Lemma convert_step_files j media t cv w f : let (w', o) := convert_step j media t cv w in
  f ∈ w'.2 -> (f ∈ w.2 /\ f ∉ conv_files cv) \/ f ∈ left_files o \/ stuck f.
Proof.
  assert (Hdrop : forall p w l, f ∈ (drop p w).2 -> f ∉ p :: l \/ f ∈ l \/ stuck f).
  { intros p w0 l [_ Hp]%remove_file_left. destruct (decide (f = p)) as [->|]; [by auto|]. destruct (decide (f ∈ l)); [by auto|]. left. set_solver. }
  assert (Hdrop2 : forall p w, f ∈ (drop p w).2 -> f ∈ w.2) by (intros p w0 [? _]%remove_file_left; done).
  destruct cv as [|p|p|p q|p|p r]; cbn [convert_step].
  - assert (Hbegin : forall w1 r (go : list Z -> conversion), (forall p, conv_files (go p) = [p]) ->
      (f ∈ w1.2 -> f ∈ w.2 \/ r = Ok f) -> let (w', o) := after_tool w1 r go in
      f ∈ w'.2 -> (f ∈ w.2 /\ f ∉ []) \/ f ∈ left_files o \/ stuck f).
    { intros w1 r go Hgo Hb. destruct r as [p|e]; cbn [after_tool left_files]; rewrite ?Hgo; intros Hf; (destruct (Hb Hf) as [?|E]; [by left; split; [|apply not_elem_of_nil]|]); [|done].
      injection E as ->. right; left. apply list_elem_of_here. }
    destruct (_ && _); [|destruct (_ || _); [|by left; split; [|apply not_elem_of_nil]]].
    + pose proof (tool_begin_files (to_ffmpeg t) (to_gif t) w f) as Hb. destruct (tool_begin _ _ w) as [w1 r]. by apply Hbegin.
    + pose proof (tool_begin_files (to_agg t) (to_gif t) w f) as Hb. destruct (tool_begin _ _ w) as [w1 r]. by apply Hbegin.
  - unfold render_end. destruct (to_run_agg t).
    + intros Hf. destruct (Hdrop _ _ [] Hf) as [?|[?|?]]; auto. left. split; [by eapply Hdrop2|done].
    + destruct (bool_decide _); cbn; intros Hf; destruct (decide (f = p)) as [->|]; set_solver.
  - pose proof (tool_begin_files (to_ffmpeg t) (to_mp4 t) w f) as Hb. destruct (tool_begin _ _ w) as [w1 [q|e]]; cbn; intros Hf.
    all: destruct (decide (f = p)) as [->|]; [right; left; apply list_elem_of_here|].
    all: destruct (Hb Hf) as [?|E]; [left; split; [done|set_solver]|simplify_eq; try set_solver].
  - unfold mp4_end. destruct (to_run_ffmpeg t); cbn [left_files conv_files result_files]; intros Hf.
    + destruct (decide (f = p)) as [->|]; [right; left; apply list_elem_of_here|].
      destruct (Hdrop _ _ [] Hf) as [?|[Hn|?]]; [|by apply not_elem_of_nil in Hn|by auto]. left. split; [by eapply Hdrop2|set_solver].
    + cbn in *. destruct (decide (f = p)) as [->|]; [set_solver|]. destruct (decide (f = q)) as [->|]; set_solver.
  - unfold video_end. destruct (to_run_ffmpeg t); cbn [left_files conv_files result_files]; intros Hf.
    + destruct (Hdrop _ _ [] Hf) as [?|[?|?]]; auto. left. split; [by eapply Hdrop2|done].
    + cbn in *. destruct (decide (f = p)) as [->|]; set_solver.
  - cbn [left_files conv_files]. intros Hf. destruct (Hdrop _ _ (result_files r) Hf) as [?|[?|?]]; auto. left. split; [by eapply Hdrop2|done].
Qed.
(** What a goroutine answers for: the output of its conversion, or the files the
    conversion works on. *)
Definition owns (r : runner) (f : list Z) : Prop :=
  (exists o, ru_result r = Some (Ok o) /\ f = o.1.1) \/ (ru_phase r = RConvert /\ f ∈ conv_files (ru_conv r)).
Definition owned (x : exports) (f : list Z) : Prop := exists g j r, ex_jobs x !! g = Some (j, r) /\ owns r f.
Definition accounted (old : files) (x : exports) : Prop := forall f, f ∈ ex_files x -> f ∈ old \/ owned x f \/ stuck f.
Definition keeps_files (x x' : exports) : Prop := forall g j r f, ex_jobs x !! g = Some (j, r) -> owns r f ->
  exists j' r', ex_jobs x' !! g = Some (j', r') /\ owns r' f.
#[local] Instance keeps_files_preorder : PreOrder keeps_files.
Proof.
  split; [intros x g j r f; eauto|]. intros x y z H1' H2' g j r f Hj Hr.
  destruct (H1' _ _ _ _ Hj Hr) as (j' & r' & Hj' & Hr'). by apply (H2' _ _ _ _ Hj').
Qed.
Lemma keeps_job f g x : keeps_files x (on_job f g x).
Proof.
  intros g' j r p Hj Hr. cbn. rewrite list_lookup_alter. destruct (decide _) as [->|]; rewrite Hj; cbn; eauto.
Qed.
Lemma keeps_runner f g x : (forall j r p, ex_jobs x !! g = Some (j, r) -> owns r p -> owns (f r) p) -> keeps_files x (on_runner f g x).
Proof.
  intros Hf g' j r p Hj Hr. cbn. rewrite list_lookup_alter. destruct (decide _) as [->|]; rewrite Hj; cbn; eauto.
Qed.
Lemma owns_run_to p r f : ru_phase r <> RConvert -> owns r f -> owns (run_to p r) f.
Proof. intros Hp [?|[? _]]; [by left|done]. Qed.
Lemma keeps_both f p g x j r : ex_jobs x !! g = Some (j, r) -> ru_phase r <> RConvert ->
  keeps_files x (on_runner (run_to p) g (on_job f g x)).
Proof.
  intros Hg Hp. etrans; [apply (keeps_job f g)|]. apply keeps_runner. intros j' r' q. cbn. rewrite list_lookup_alter_eq, Hg.
  intros [= <- <-]. by apply owns_run_to.
Qed.
Lemma accounted_keeps old x x' : keeps_files x x' -> ex_files x' ⊆ ex_files x -> accounted old x -> accounted old x'.
Proof.
  intros Hk Hf Ha f Hin. destruct (Ha f) as [?|[(g & j & r & Hj & Hr)|?]]; [by apply Hf|by left|right; left|by right; right].
  destruct (Hk g j r f Hj Hr) as (j' & r' & Hj' & Hr'). by exists g, j', r'.
Qed.
Lemma run_step_accounted old g ev x : jobs_ok x -> accounted old x -> accounted old (run_step g ev x).
Proof.
  intros Hx Ha. unfold run_step. destruct (ex_jobs x !! g) as [[j r]|] eqn:Hg; [|done].
  assert (Hnone : before_result (ru_phase r) = true -> ru_result r = None) by
    (apply Forall_lookup_1 with (1 := Hx) in Hg; apply (jo_result _ Hg)).
  destruct (ru_phase r) eqn:Hp, ev as [now|[e|]|pct stage now|t]; try exact Ha.
  all: assert (Hphase : forall p q, ru_phase r <> RConvert -> owns r q -> owns (run_to p r) q) by (intros; by apply owns_run_to).
  all: try (apply (accounted_keeps old x); [first [by eapply keeps_both; [exact Hg|by rewrite Hp]|apply keeps_job]|done|exact Ha]).
  - apply (accounted_keeps old x); [|done|exact Ha]. apply keeps_runner. intros j' r' p. rewrite Hg. intros [= <- <-] [(o & Ho & _)|[E _]]; [|congruence].
    rewrite Hnone in Ho by done. done.
  - apply (accounted_keeps old x); [|done|exact Ha]. apply keeps_runner. intros j' r' p. rewrite Hg. intros [= <- <-]. apply Hphase. by rewrite Hp.
  - pose proof (fun f => convert_step_files j (ru_media r) t (ru_conv r) (ru_temps r, ex_files x) f) as Hc.
    destruct (convert_step _ _ _ _ _) as [[paths fs] o]. cbn in Hc. set (f2 := match o with inl cv => _ | inr res => _ end).
    intros f Hf. cbn in Hf. destruct (Hc f Hf) as [[Hin Hnot]|[Hl|?]]; [| |by auto].
    + destruct (Ha f Hin) as [?|[(g' & j' & r' & Hj' & Hr')|?]]; [by left|right; left|by auto]. exists g', j', r'. split; [|done]. cbn.
      rewrite list_lookup_alter_ne; [done|]. intros ->. simplify_eq. destruct Hr' as [(o' & Ho' & _)|[_ ?]]; [|done]. by rewrite Hnone in Ho'.
    + right; left. exists g, j, (f2 r). split; [by cbn; rewrite list_lookup_alter_eq, Hg|]. subst f2. destruct o as [cv|[o|e]]; cbn in Hl.
      * right. by cbn.
      * apply list_elem_of_singleton in Hl as ->. left. by exists o.
      * by apply not_elem_of_nil in Hl.
  - destruct (ru_result r) as [[o|[|msg]]|]; [..|done]; cbn; (apply (accounted_keeps old x); [eapply keeps_both; [exact Hg|by rewrite Hp]|done|exact Ha]).
  - destruct (decide _); (apply (accounted_keeps old x); [|first [apply cleanup_sub|done]|exact Ha]).
    all: refine (keeps_runner _ g x _); intros j' r' p; rewrite Hg; intros [= <- <-] [?|[E _]]; [by left|congruence].
  - apply (accounted_keeps old x); [|done|exact Ha]. etrans; [apply (keeps_job no_cancel g)|]. apply keeps_runner.
    intros j' r' p. cbn. rewrite list_lookup_alter_eq, Hg. intros [= <- <-] [?|[E _]]; [by left|congruence].
Qed.
Lemma same_jobs x x' : ex_jobs x' = ex_jobs x -> keeps_files x x'.
Proof. intros E g j r f. rewrite E. eauto. Qed.
Lemma cancel_request_keeps g x : keeps_files x (requestCancelRecordingExport g x) /\ ex_files (requestCancelRecordingExport g x) = ex_files x.
Proof.
  unfold requestCancelRecordingExport. destruct (job_of x g) as [j|]; [|done]. destruct (ej_cancel j); [|done]. split; [|done].
  by apply keeps_runner.
Qed.
Lemma drop_jobs_keeps l x : keeps_files x (drop_jobs l x) /\ ex_files (drop_jobs l x) ⊆ ex_files x.
Proof.
  revert x. induction l as [|e l IH]; intros x; [done|]. cbn.
  set (x1 := if is_active e.2 then requestCancelRecordingExport e.1 x else x).
  assert (H1' : keeps_files x x1 /\ ex_files x1 = ex_files x) by (subst x1; destruct (is_active e.2); [apply cancel_request_keeps|done]).
  set (x2 := if bool_decide _ then _ else x1).
  assert (H2' : keeps_files x1 x2 /\ ex_files x2 ⊆ ex_files x1) by (subst x2; destruct (bool_decide _); [split; [by apply same_jobs|apply remove_file_sub]|done]).
  destruct H1' as [K1 F1], H2' as [K2 F2], (IH x2) as [K3 F3]. split; [|set_solver]. by rewrite K1, K2.
Qed.
Lemma forget_files now l x : ex_files (foldl (forget_expired now) x l) ⊆ ex_files x.
Proof.
  revert x. induction l as [|e l IH]; intros x; [done|]. cbn. etrans; [apply IH|]. unfold forget_expired.
  destruct (expired_export now e.2); [|done]. destruct (bool_decide _); [apply remove_file_sub|done].
Qed.
Lemma add_export_keeps u rec fmt media id meta now x : keeps_files x (add_export u rec fmt media id meta now x).1 /\
  ex_files (add_export u rec fmt media id meta now x).1 = ex_files x.
Proof.
  unfold add_export. destruct (findActiveLocked _ _ _ x) as [[g j]|]; [done|]. destruct id as [id|e]; [|done]. split; [|done].
  intros g j r f Hj Hr. exists j, r. split; [|done]. by apply lookup_app_l_Some.
Qed.
Lemma export_exec_accounted old ev x : jobs_ok x -> accounted old x -> accounted old (export_exec x ev).
Proof.
  intros Hx Ha. destruct ev as [u rec fmt media id meta now|g ev|g|g msg now|g now|g pct stage now|id|p|now|rec]; cbn [export_exec].
  - destruct (add_export_keeps u rec fmt media id meta now x) as [K F]. apply (accounted_keeps old x); [done|by rewrite F|done].
  - by apply run_step_accounted.
  - destruct (cancel_request_keeps g x) as [K F]. apply (accounted_keeps old x); [done|by rewrite F|done].
  - apply (accounted_keeps old x); [apply keeps_job|done|done].
  - apply (accounted_keeps old x); [apply keeps_job|done|done].
  - apply (accounted_keeps old x); [apply keeps_job|done|done].
  - done.
  - apply (accounted_keeps old x); [by apply same_jobs|apply remove_file_sub|done].
  - apply (accounted_keeps old x); [|apply forget_files|done]. apply same_jobs, forget_jobs.
  - unfold removeForRecording. cbn [fst snd].
    set (out := filter _ _). destruct (drop_jobs_keeps ((fun e => (e.1.2, e.2)) <$> out) (with_reg x (foldl (fun m e => delete e.1.1 m) (ex_reg x) out))) as [K F].
    apply (accounted_keeps old x); [exact K|exact F|exact Ha].
Qed.
End files_accounted.

Definition no_exports (fs : files) : exports := mkExports [] ∅ fs.
Lemma no_exports_ok fs : jobs_ok (no_exports fs).
Proof. constructor. Qed.
(** C31. Exports clean up after themselves: in any interleaving of the goroutines (the
    steps of a conversion included: the files agg and ffmpeg write appear and go one
    by one) with requests that queue, cancel, delete and sweep, every file there is
    - was there before;
    - or is one a conversion that is still running works on, or the output it has
      just given while the deferred removal is left;
    - or is the output of a conversion that succeeded, which the job names as its
      output once its goroutine has finished it;
    - or is one the system refused to remove (the code ignores that error). *)
Theorem export_files_are_outputs fs evs f :
  let x := export_run (no_exports fs) evs in
  f ∈ ex_files x -> f ∈ fs \/ remove_refused f <> None \/
    exists g j r, ex_jobs x !! g = Some (j, r) /\
      ((ru_phase r = RConvert /\ f ∈ conv_files (ru_conv r)) \/
       exists o, ru_result r = Some (Ok o) /\ f = o.1.1 /\
         (ru_phase r = RFinish \/ (is_active j = false /\ (ej_OutputPath j, ej_ContentType j, ej_Disposition j) = o))).
Proof.
  intros x Hf. assert (jobs_ok x /\ accounted fs x) as [Hok Ha].
  { subst x. clear Hf. assert (H1' : jobs_ok (no_exports fs)) by constructor. assert (H2' : accounted fs (no_exports fs)) by (intros f' Hf; by left).
    revert H1' H2'. generalize (no_exports fs). induction evs as [|ev evs IH]; intros x Hx Ha; [done|].
    apply IH; [by apply export_exec_ok|by apply export_exec_accounted]. }
  destruct (Ha f Hf) as [?|[(g & j & r & Hj & Hr)|?]]; [by left|right; right|by right; left]. exists g, j, r. split; [done|].
  destruct Hr as [(o & Hr & ->)|?]; [right|by left]. exists o. split_and!; [done..|].
  pose proof (Forall_lookup_1 _ _ _ _ Hok Hj) as [A1 A2 A3 A4 A5]. cbn in *. destruct (ended (ru_phase r)) eqn:He.
  - right. split; [by apply A1|by apply A4].
  - left. destruct (ru_phase r) eqn:Hp; try done; by rewrite (proj2 A2 eq_refl) in Hr.
Qed.

(** Only an export that completed is served, to the user who asked for it or an
    administrator, and only a file below the export directory: the output the
    conversion gave, with its type. *)
Theorem export_file_is_entitled fs evs e exportDir jobID p ct disp :
  let x := export_run (no_exports fs) evs in
  handleGetRecordingExportFile e exportDir jobID x = Ok (Some (p, ct, disp)) ->
  exists g j r o, ex_reg x !! jobID = Some g /\ ex_jobs x !! g = Some (j, r) /\
    ej_State j = ExportCompleted /\ ru_result r = Some (Ok o) /\ (ct, disp) = (o.1.2, o.2) /\
    openExportPath (ex_files x) exportDir o.1.1 = Ok p /\ below (Abs exportDir) p /\ p ∈ ex_files x /\
    TrimSpace_s (currentUserID e) <> ""%string /\
    (ej_UserID j = TrimSpace_s (currentUserID e) \/ re_is_admin e (TrimSpace_s (currentUserID e)) = Some true).
Proof.
  cbn zeta. pose proof (export_run_ok evs _ (no_exports_ok fs)) as Hok. set (x := export_run _ _) in *.
  unfold handleGetRecordingExportFile, load_export. destruct (bool_decide (jobID = ""%string)); [done|].
  destruct (ex_get jobID x) as [[g j]|] eqn:Hg; [|done]. unfold userCanAccessRecordingExport.
  destruct (bool_decide _) eqn:Hu; [done|]. apply bool_decide_eq_false in Hu.
  assert (Hent : (if bool_decide (ej_UserID j <> TrimSpace_s (currentUserID e)) then
      if isAdminUser e (TrimSpace_s (currentUserID e)) then Ok tt else Err (Http 404 "recordings.exportNotFound") else Ok tt) = Ok tt ->
    ej_UserID j = TrimSpace_s (currentUserID e) \/ re_is_admin e (TrimSpace_s (currentUserID e)) = Some true).
  { set (u := TrimSpace_s _). destruct (decide (ej_UserID j = u)) as [|Hne]; [by left|]. rewrite bool_decide_eq_true_2 by done.
    unfold isAdminUser. destruct (decide (re_is_admin e u = Some true)) as [|Hna]; [by right|]. by rewrite bool_decide_eq_false_2. }
  destruct (if bool_decide (ej_UserID j <> _) then _ else _) as [[]|]; [|done]. specialize (Hent eq_refl).
  destruct (bool_decide (ej_State j <> ExportCompleted)) eqn:Hs; [done|]. apply bool_decide_eq_false in Hs. apply dec_stable in Hs.
  destruct (bool_decide (ej_OutputPath j = [])); [done|]. cbn [orb].
  destruct (openExportPath _ _ _) as [q|] eqn:Hopen; [|done]. destruct (decide (q ∈ ex_files x)) as [Hq|]; [|done]. intros [= <- <- <-].
  unfold ex_get, job_of in Hg. destruct (ex_reg x !! jobID) as [g'|] eqn:Hreg; [|done]. cbn in Hg.
  destruct (ex_jobs x !! g') as [[j' r]|] eqn:Hj; [|done]. cbn in Hg. simplify_eq.
  pose proof (Forall_lookup_1 _ _ _ _ Hok Hj) as [A1 A2 A3 A4 A5]. cbn in *. destruct (A3 Hs) as [He [o Ho]]. pose proof (A4 He o Ho) as Eo.
  exists g, j, r, o. subst o. cbn. split_and!; try done. by eapply open_export_below.
Qed.

(** A goroutine that has finished its job leaves it completed, failed or cancelled,
    and a completed job always has an output. *)
Theorem finished_exports_are_final fs evs g j r :
  ex_jobs (export_run (no_exports fs) evs) !! g = Some (j, r) ->
  (ended (ru_phase r) = true -> is_active j = false) /\
  (ej_State j = ExportCompleted -> ended (ru_phase r) = true /\ ru_result r = Some (Ok (ej_OutputPath j, ej_ContentType j, ej_Disposition j))).
Proof.
  intros Hj. pose proof (Forall_lookup_1 _ _ _ _ (export_run_ok evs _ (no_exports_ok fs)) Hj) as [A1 A2 A3 A4 A5]. cbn in *.
  split; [done|]. intros Hs. destruct (A3 Hs) as [He [o Ho]]. split; [done|]. by rewrite (A4 He o Ho).
Qed.

(** ** Sorting *)
Section sorting.
Context {A : Type} (newer : A -> A -> bool).
Context (newer_irrefl : forall a, newer a a = false).
Context (newer_trans : forall a b c, newer b a = false -> newer c b = false -> newer c a = false).
Context (newer_asym : forall a b, newer a b = true -> newer b a = false).
Lemma exchange_spec x l : let (m, r) := exchange newer x l in
  m :: r ≡ₚ x :: l /\ newer x m = false /\ Forall (fun y => newer y m = false) r.
Proof.
  revert x. induction l as [|y l IH]; intros x; cbn; [by rewrite newer_irrefl|]. destruct (newer y x) eqn:E.
  - specialize (IH y). destruct (exchange newer y l) as [m r]. destruct IH as (Hp & Hy & Hr). split_and!.
    + etrans; [apply Permutation_swap|]. by rewrite Hp.
    + apply (newer_trans m y x); [done|by apply newer_asym].
    + constructor; [|done]. apply (newer_trans m y x); [done|by apply newer_asym].
  - specialize (IH x). destruct (exchange newer x l) as [m r]. destruct IH as (Hp & Hx & Hr). split_and!; [|done|].
    + etrans; [apply Permutation_swap|]. rewrite Hp. apply Permutation_swap.
    + constructor; [by apply (newer_trans m x y)|done].
Qed.
Lemma exchange_sort_spec n l : (length l <= n)%nat -> exchange_sort newer n l ≡ₚ l /\ StronglySorted (fun a b => newer b a = false) (exchange_sort newer n l).
Proof.
  revert l. induction n as [|n IH]; intros [|x l] Hl; cbn in *; [by split; [|apply SSorted_nil]|lia|by split; [|apply SSorted_nil]|].
  pose proof (exchange_spec x l) as Hx. destruct (exchange newer x l) as [m r]. destruct Hx as (Hp & _ & Hr).
  destruct (IH r) as [IH1 IH2]; [apply Permutation_length in Hp; cbn in Hp; lia|]. split; [by rewrite IH1|].
  apply SSorted_cons; [done|]. by rewrite IH1.
Qed.
End sorting.
(** The list shows exactly the jobs of the viewer (an administrator sees all), the
    newest first. *)
Theorem export_list_is_sorted u all x :
  listForViewer u all x ≡ₚ filter (fun j => all = true \/ ej_UserID j = u) (snd <$> registered x) /\
  StronglySorted (fun a b => ej_CreatedAt b <= ej_CreatedAt a) (listForViewer u all x).
Proof.
  unfold listForViewer, sortRecordingExports. set (l := filter _ _).
  destruct (exchange_sort_spec (fun a b => After (ej_CreatedAt a) (ej_CreatedAt b))) with (n := length l) (l := l) as [Hp Hs]; [..|done|].
  - intros a. unfold After. lia.
  - unfold After. intros a b c. lia.
  - unfold After. intros a b. lia.
  - split; [done|]. eapply StronglySorted_weaken; [|exact Hs]. unfold After. intros a b. cbn. lia.
Qed.

(** ** Queueing *)
Lemma elem_of_registered x id g j : (id, g, j) ∈ registered x <-> ex_reg x !! id = Some g /\ job_of x g = Some j.
Proof.
  unfold registered. rewrite list_elem_of_omap. split.
  - intros ([id' g'] & Hin%elem_of_range & E). cbn in E. destruct (job_of x g') as [j'|] eqn:Hj; [|done]. cbn in E. by simplify_eq.
  - intros [Hr Hj]. exists (id, g). rewrite elem_of_range. split; [done|]. cbn. by rewrite Hj.
Qed.
(** A request for an export is answered with an active job of that user, recording
    and format: one that is there, or a new one that is registered. *)
Theorem queued_export_is_active u rec fmt media id meta now x x' g :
  add_export u rec fmt media id meta now x = (x', Ok g) ->
  exists j, job_of x' g = Some j /\ ej_UserID j = u /\ ej_RecordingID j = rec /\ ej_Format j = fmt /\ is_active j = true /\
    exists id', ex_reg x' !! id' = Some g.
Proof.
  unfold add_export, findActiveLocked. destruct (head _) as [[[id0 g0] j0]|] eqn:Hh; cbn.
  - intros [= <- <-]. apply head_Some_elem_of, list_elem_of_filter in Hh as [(E1 & E2 & E3 & E4) [Hr Hj]%elem_of_registered]. cbn in *.
    exists j0. split_and!; eauto.
  - destruct id as [id|]; [|done]. intros [= <- <-]. eexists. unfold job_of. cbn. rewrite lookup_app_r, Nat.sub_diag by lia. cbn.
    split_and!; try done. exists id. by rewrite lookup_insert_eq.
Qed.

(** ** Deleting *)
(** Deleting a finished export takes it off the list, and its file away. *)
Theorem deleted_export_is_gone e jobID now x x' g j :
  handleDeleteRecordingExport e jobID now x = (x', Ok true) -> ex_get jobID x = Some (g, j) -> is_active j = false ->
  (forall p, remove_refused p = None) ->
  ex_reg x' = delete jobID (ex_reg x) /\ ex_files x' = ex_files x ∖ (if bool_decide (ej_OutputPath j = []) then ∅ else {[ej_OutputPath j]}).
Proof.
  unfold handleDeleteRecordingExport, load_export. destruct (bool_decide (jobID = ""%string)); [done|]. intros Hd Hg Hact Hrem.
  rewrite Hg in Hd. destruct (userCanAccessRecordingExport e j); [|done]. rewrite Hact in Hd. unfold discard_export, ex_remove in Hd.
  rewrite Hg in Hd. cbn in Hd. injection Hd as <-. destruct (decide (ej_OutputPath j = [])) as [E|E].
  - rewrite bool_decide_eq_false_2, bool_decide_eq_true_2 by auto. split; [done|]. cbn. set_solver.
  - rewrite bool_decide_eq_true_2, bool_decide_eq_false_2 by auto. split; [done|]. cbn. by rewrite remove_file_spec by apply Hrem.
Qed.
End settings.
End exports.

(** ** Examples *)
#[local] Instance demo_os : OS := {| cwd := bs "/app"; EvalSymlinks fs p := if decide (p ∈ fs) then Ok p else Err NotExist;
  Stat fs p := bool_decide (p ∈ fs); remove_refused _ := None |}.
Definition demo_gif : list Z := bs "/data/recording-exports/rec-1.gif".
Definition demo_tools : tools := mkTools true true (Ok demo_gif) (Err "no") None None None.
(** A GIF of recording r1 for u1, up to the end of the conversion. *)
Definition demo_converted : list export_event :=
  [XEnqueue "u1" "r1" "gif" (bs "/rec/s1.cast") (Ok "e1"%string) no_meta 10;
   XRun 0 (EvNext 11); XRun 0 (EvNext 12); XRun 0 (EvAcquired None); XRun 0 (EvNext 13); XRun 0 (EvNext 14);
   XRun 0 (EvReport 10 "agg" 15); XRun 0 (EvConvert demo_tools); XRun 0 (EvReport 45 "agg" 15); XRun 0 (EvConvert demo_tools)].
Definition demo_getenv (_ : string) : string := "".
Definition demo_ParseDuration (_ : string) : option duration := None.
Abbreviation demo_exports evs := (export_run demo_getenv demo_ParseDuration (no_exports ∅) evs).
Definition demo_finished : list export_event := demo_converted ++ [XRun 0 (EvNext 16); XRun 0 (EvNext 17); XRun 0 (EvNext 18)].
Definition demo_viewer (u : string) : request_env := mkRequestEnv (Ok u) (fun u => Some (bool_decide (u = "admin"%string))).
Definition demo_dir : list Z := bs "/data/recording-exports".
(** Served to the user who asked, and to nobody else but an administrator. *)
Lemma export_file_is_entitled_witness :
  handleGetRecordingExportFile (demo_viewer "u2") demo_dir "e1" (demo_exports demo_finished) = Err (Http 404 "recordings.exportNotFound") /\
  exists g j r o, ex_reg (demo_exports demo_finished) !! "e1"%string = Some g /\ ex_jobs (demo_exports demo_finished) !! g = Some (j, r) /\
    ej_State j = ExportCompleted /\ ru_result r = Some (Ok o).
Proof.
  split; [by vm_compute|].
  destruct (export_file_is_entitled demo_getenv demo_ParseDuration ∅ demo_finished (demo_viewer "u1") demo_dir "e1" demo_gif
    "image/gif" ("attachment; filename=" ++ quoted "recording.gif")%string) as (g & j & r & o & E1 & E2 & E3 & E4 & _); [by vm_compute|].
  by exists g, j, r, o.
Defined.
(** While an MP4 is made both files are there; afterwards only the MP4. *)
Definition demo_mp4 : list Z := bs "/data/recording-exports/rec-2.mp4".
Definition demo_video : list export_event :=
  [XEnqueue "u1" "r1" "mp4" (bs "/rec/s1.cast") (Ok "e1"%string) no_meta 10;
   XRun 0 (EvNext 11); XRun 0 (EvNext 12); XRun 0 (EvAcquired None); XRun 0 (EvNext 13); XRun 0 (EvNext 14)] ++
  replicate 3 (XRun 0 (EvConvert (mkTools true true (Ok demo_gif) (Ok demo_mp4) None None None))).
Lemma export_files_are_outputs_witness :
  elements (ex_files (demo_exports demo_video)) ≡ₚ [demo_gif; demo_mp4] /\
  elements (ex_files (demo_exports (demo_video ++ replicate 2 (XRun 0 (EvConvert demo_tools))))) = [demo_mp4] /\
  exists g j r, ex_jobs (demo_exports demo_video) !! g = Some (j, r) /\
    ((ru_phase r = RConvert /\ demo_gif ∈ conv_files (ru_conv r)) \/ ru_phase r = RFinish \/ is_active j = false).
Proof.
  assert (Hin : demo_gif ∈ ex_files (demo_exports demo_video)) by (apply (bool_decide_eq_true_1 _); by vm_compute).
  split_and!; [by vm_compute; try apply Permutation_swap|by vm_compute|].
  destruct (@export_files_are_outputs demo_os _ _ demo_getenv demo_ParseDuration ∅ demo_video demo_gif Hin)
    as [Hf|[Hf|(g & j & r & E & [?|(o & _ & _ & [?|[? _]])])]]; [by apply not_elem_of_empty in Hf|done|exists g, j, r; eauto..].
Defined.

(** A cancelled export completes all the same when the conversion had just ended:
    the list shows the answer "cancelled" first and a file later. *)
Theorem cancelled_export_completes :
  let x := demo_exports (demo_converted ++ [XCancel 0; XCancelled 0 16; XProgress 0 0 "cancelled" 16]) in
  ej_State <$> job_of x 0 = Some ExportCancelled /\
  ej_State <$> job_of (export_exec demo_getenv demo_ParseDuration x (XRun 0 (EvNext 17))) 0 = Some ExportCompleted.
Proof. by vm_compute. Qed.
(** When a recording is deleted while its export is finishing, the file of the
    export stays, and no request can reach it any more. *)
Theorem deleted_recording_keeps_its_export :
  let x := demo_exports (demo_converted ++ [XDeleteRecording "r1"; XRun 0 (EvNext 17); XRun 0 (EvNext 18); XRun 0 (EvNext 19)]) in
  ex_reg x = ∅ /\ bool_decide (demo_gif ∈ ex_files x) = true /\ ej_OutputPath <$> job_of x 0 = Some demo_gif.
Proof. by vm_compute. Qed.
(** An identifier that is not registered is answered by no response at all, so the
    server sends 200 with an empty body. *)
Theorem unknown_export_has_no_answer `{OS} `{UnicodeTables} e dir id now x : id <> ""%string -> ex_get id x = None ->
  handleGetRecordingExportStatus e id x = Ok None /\ handleGetRecordingExportFile e dir id x = Ok None /\
  handleDeleteRecordingExport e id now x = (x, Ok false).
Proof.
  intros Hid Hx. unfold handleGetRecordingExportStatus, handleGetRecordingExportFile, handleDeleteRecordingExport, load_export.
  by rewrite bool_decide_eq_false_2, Hx.
Qed.
