(* ===== verification/Recordings.v ===== *)
(** Session recordings: listing, serving and deleting them
    (src/internal/httpapi/recordings.go, recordings_delete_handler.go,
    recording_export.go), the time range of a search (time_range.go) and the
    retention policy (retention.go).

    The world is the tables, the registry of exports and the files; parsing of
    times and durations and the environment are parameters. *)
From S2P Require Import Prelude GoText GoPath GoTime Sqlite Http Secret AccessDB AccessGroups Invitations AccessRequests TargetHandlers GroupHandlers RecordingPaths RecordingExports.
Local Open Scope Z_scope.

(** ** The world *)
Record rec_row := mkRecRow {
  rr_id : string; rr_user_id : string; rr_target_id : string; rr_session_id : string; rr_channel_type : string;
  rr_file_path : string; rr_started_at : list Z; rr_ended_at : option (list Z);
  rr_session_name : string; rr_session_description : string
}.
Record media_world := mkMedia {
  mw_recordings : gmap string rec_row; mw_sharing : sharing_tables; mw_access : access_tables;
  mw_audit : list time; mw_commands : list time;      (* the times of the rows *)
  mw_exports : exports
}.
Definition with_recordings w x := mkMedia x (mw_sharing w) (mw_access w) (mw_audit w) (mw_commands w) (mw_exports w).
Definition with_exports w x := mkMedia (mw_recordings w) (mw_sharing w) (mw_access w) (mw_audit w) (mw_commands w) x.
Definition with_audit w x := mkMedia (mw_recordings w) (mw_sharing w) (mw_access w) x (mw_commands w) (mw_exports w).
Definition with_commands w x := mkMedia (mw_recordings w) (mw_sharing w) (mw_access w) (mw_audit w) x (mw_exports w).
Abbreviation MediaM := (DB media_world http_err).
Definition on_exports {E A} (f : exports -> exports * A) : DB media_world E A := fun c =>
  let (x, a) := f (mw_exports (tables c)) in (set_tables c (with_exports (tables c) x), Ok a).

(** ** Rows *)
Definition InsertRecording (id userID targetID sessionID channelType filePath : string) (startedAt : list Z) (name desc : string) : MediaM unit :=
  db_exec (fun w =>
    if decide (is_Some (mw_recordings w !! id)) then Err "UNIQUE constraint failed: recordings.id"%string
    else if decide (userID ∈ users (mw_access w)) then
      Ok (with_recordings w (<[id := mkRecRow id userID targetID sessionID channelType filePath startedAt None name desc]> (mw_recordings w)), tt)
    else Err "FOREIGN KEY constraint failed"%string).
Definition end_row (endedAt : list Z) (r : rec_row) : rec_row :=
  mkRecRow (rr_id r) (rr_user_id r) (rr_target_id r) (rr_session_id r) (rr_channel_type r) (rr_file_path r) (rr_started_at r) (Some endedAt)
    (rr_session_name r) (rr_session_description r).
Definition UpdateRecordingEnded (id : string) (endedAt : list Z) : MediaM unit :=
  db_exec (fun w => Ok (with_recordings w (alter (end_row endedAt) id (mw_recordings w)), tt)).

(** ** Who may watch *)
(** An invitation to the session that the user has used and nobody revoked: the one
    addressed to the user, or a link among whose consumers the user is. *)
Definition joined_by (u : string) (t : sharing_tables) (sid : string) : bool :=
  bool_decide (map_Exists (fun id r =>
    row_session_id r = sid /\ row_revoked_at r = None /\
    ((row_invitee_user_id r = Some u /\ 0 < row_use_count r) \/ is_Some (invitation_consumers t !! (id, u))))
    (session_invitations t)).
Definition userCanViewSessionRecordings (userID sessionID : string) : MediaM bool :=
  let userID := TrimSpace_s userID in let sessionID := TrimSpace_s sessionID in
  if is_empty userID || is_empty sessionID then db_ret false else
  let* r := db_catch (db_query (fun w => joined_by userID (mw_sharing w) sessionID)) in
  db_ret (match r with Ok b => b | Err _ => false end).

(** ** The time range of a search *)
Definition defaultSearchRange : duration := 30 * 24 * hour.
Definition maxSearchRange : duration := 90 * 24 * hour.
Inductive range_err := InvalidFrom | InvalidTo | FromBeforeTo | RangeTooLarge.
Definition writeTimeRangeError (e : range_err) : http_err :=
  Http 400 (match e with InvalidFrom => "time.invalidFrom" | InvalidTo => "time.invalidTo" | FromBeforeTo => "time.fromBeforeTo" | RangeTooLarge => "time.rangeTooLarge" end).
Section time_range.
Context (Parse : list (nat * list Z) -> string -> option time).   (* time.Parse, into UTC *)
Definition DateOnly : list (nat * list Z) := [(4%nat, [45]); (2%nat, [45]); (2%nat, [])].
Definition parseQueryTime (s : string) (isEnd : bool) : option time :=
  match Parse RFC3339 s with
  | Some t => Some t
  | None => (fun t => if isEnd then Add t (24 * hour) else t) <$> Parse DateOnly s
  end.
Definition query_bound (s : string) (isEnd : bool) (e : range_err) : result range_err (option time) :=
  if is_empty s then Ok None else match parseQueryTime s isEnd with Some t => Ok (Some t) | None => Err e end.
Definition parseTimeRange (fromStr toStr : string) (now : time) : result range_err (time * time) :=
  let? from := query_bound (TrimSpace_s fromStr) false InvalidFrom in
  let? to := query_bound (TrimSpace_s toStr) true InvalidTo in
  let t := default now to in
  let f := match from with Some f => f | None => Add t (- defaultSearchRange) end in
  guard After t f else FromBeforeTo in
  guard negb (maxSearchRange <? Sub t f) else RangeTooLarge in
  Ok (f, t).
End time_range.
Definition formatRecordingTime (t : time) : list Z := Format DateTime t.

(** ** Listing *)
Record list_query := mkListQuery {
  lq_user_id : string; lq_from : string; lq_to : string; lq_target_id : string; lq_channel_type : string; lq_session_id : string
}.
Record recording_item := mkItem { ri_row : rec_row; ri_media_type : string; ri_storage_format : string }.
Definition started_in (r : rec_row) (lo hi : list Z) : bool := text_le lo (rr_started_at r) && text_lt (rr_started_at r) hi.
Definition in_search_range (from to : time) (r : rec_row) : bool :=
  let toRec := Add to minute in
  started_in r (formatRecordingTime from) (formatRecordingTime toRec) || started_in r (Format RFC3339 from) (Format RFC3339 toRec).
Definition asks (value wanted : string) : bool := is_empty wanted || bool_decide (value = wanted).
(** The WHERE clause. *)
Definition list_row (userID filterUserID : string) (t : sharing_tables) (q : list_query) (from to : time) (r : rec_row) : bool :=
  (bool_decide (rr_user_id r = filterUserID) || (bool_decide (filterUserID = userID) && joined_by userID t (rr_session_id r))) &&
  asks (rr_target_id r) (TrimSpace_s (lq_target_id q)) && asks (rr_channel_type r) (TrimSpace_s (lq_channel_type q)) &&
  asks (rr_session_id r) (TrimSpace_s (lq_session_id q)) && in_search_range from to r.
Definition later_started (a b : rec_row) : bool := text_lt (rr_started_at b) (rr_started_at a).

Section handlers.
Context `{OS} `{UnicodeTables} `{MapRange}.
Context (getenv : string -> string) (ParseDuration : string -> option duration) (Parse : list (nat * list Z) -> string -> option time).
Definition recordingMediaType (channelType filePath : string) : string :=
  if bool_decide (channelType = "rdp"%string) || bool_decide (channelType = "vnc"%string) || IsMP4Path (bs filePath) then "video" else "cast".
Definition item_of (r : rec_row) : recording_item :=
  mkItem r (recordingMediaType (rr_channel_type r) (rr_file_path r)) (StorageFormat (bs (rr_file_path r))).
Definition list_user (e : request_env) (userID requested : string) : result http_err string :=
  if negb (is_empty requested) && bool_decide (requested <> userID) then
    match re_is_admin e userID with
    | None => Err internal
    | Some false => Err (Http 403 "common.forbiddenAdminOnly")
    | Some true => Ok requested
    end
  else Ok userID.
Definition handleListRecordings (e : request_env) (q : list_query) (now : time) : MediaM (list recording_item) :=
  let userID := TrimSpace_s (currentUserID e) in
  if is_empty userID then db_throw (Http 401 "common.unauthorized") else
  let* filterUserID := db_of (list_user e userID (TrimSpace_s (lq_user_id q))) in
  let* fromTo := db_of (match parseTimeRange Parse (lq_from q) (lq_to q) now with Ok r => Ok r | Err err => Err (writeTimeRangeError err) end) in
  let* rows := db_query (fun w => take 200 (filter (fun r => list_row userID filterUserID (mw_sharing w) q fromTo.1 fromTo.2 r = true)
                                     (order_by later_started (mw_recordings w)))) in
  db_ret (item_of <$> rows).

(** ** Opening *)
Definition decodeRecordingID (raw : string) : string :=
  match PathUnescape (bs raw) with Some decoded => str_of decoded | None => raw end.
Definition recordings_dir : list Z := bs (getenv "VANTYX_RECORDINGS_DIR").
(** The row, for somebody who may see it. *)
Definition load_row (recordingID : string) : MediaM rec_row :=
  let* r := db_query (fun w => mw_recordings w !! recordingID) in
  match r with Some r => db_ret r | None => db_throw (Http 404 "recordings.notFound") end.
Definition may_watch (e : request_env) (userID : string) (r : rec_row) : MediaM bool :=
  if bool_decide (TrimSpace_s (rr_user_id r) = userID) then db_ret true
  else if isAdminUser e userID then db_ret true
  else if is_empty (TrimSpace_s (rr_session_id r)) then db_ret false
  else userCanViewSessionRecordings userID (rr_session_id r).
Definition authorized_row (e : request_env) (userID recordingID : string) : MediaM rec_row :=
  let* r := load_row recordingID in
  let* allowed := may_watch e userID r in
  if allowed then db_ret r else db_throw (Http 404 "recordings.notFound").
Definition files_of {E} : DB media_world E files := fun c => (c, Ok (ex_files (mw_exports (tables c)))).
Definition resolveRecordingMediaAccess (e : request_env) (recordingID : string) : MediaM (list Z) :=
  let userID := TrimSpace_s (currentUserID e) in
  if is_empty userID then db_throw (Http 401 "common.unauthorized") else
  let* r := authorized_row e userID recordingID in
  if bool_decide (recordings_dir = []) then db_throw (Http 503 "recordings.notConfigured") else
  let* fs := files_of in
  match resolveRecordingMediaPath fs recordings_dir (bs (rr_file_path r)) with
  | Ok p => db_ret p
  | Err _ => db_throw (Http 404 "recordings.fileNotFound")
  end.

(** ** Exports of a recording *)
Definition meta_of (w : media_world) (recordingID : string) : recordingExportMeta :=
  match mw_recordings w !! recordingID with
  | None => no_meta
  | Some r =>
      let t := targets (mw_access w) !! rr_target_id r in
      mkExportMeta (rr_session_name r) (rr_session_description r) (rr_channel_type r) (rr_target_id r)
        (from_option tr_name "" t) (from_option tr_path "" t) (str_of (rr_started_at r))
  end%string.
Definition lookupRecordingExportMeta (recordingID : string) : MediaM recordingExportMeta :=
  if is_empty (TrimSpace_s recordingID) then db_ret no_meta else
  let* m := db_catch (db_query (fun w => meta_of w recordingID)) in
  db_ret (match m with Ok m => m | Err _ => no_meta end).
(** [enqueueRecordingExport] with its query; [id] is a random identifier. *)
Definition enqueue (userID recordingID format : string) (media : list Z) (id : result string string) (now : time) : MediaM nat :=
  let* _ := on_exports (fun x => (sweepRecordingExportsMaintenance getenv ParseDuration now x, tt)) in
  let* active := on_exports (fun x => (x, findActiveLocked userID recordingID format x)) in
  match active, id with
  | Some (g, _), _ => db_ret g
  | None, Err _ => db_throw internal
  | None, Ok _ =>
      let* meta := lookupRecordingExportMeta recordingID in
      let* g := on_exports (add_export userID recordingID format media id meta now) in
      db_of (match g with Ok g => Ok g | Err _ => Err internal end)
  end.
Definition handlePostRecordingExport (e : request_env) (rawID formatParam : string) (id : result string string) (now : time) : MediaM nat :=
  if is_empty rawID then db_throw (Http 400 "recordings.idRequired") else
  let recordingID := decodeRecordingID rawID in
  let format := ToLower_s (TrimSpace_s formatParam) in
  if bool_decide (format <> "gif"%string) && bool_decide (format <> "mp4"%string) then db_throw (Http 400 "recordings.formatInvalid") else
  let* media := resolveRecordingMediaAccess e recordingID in
  if bool_decide (format = "mp4"%string) && IsMP4Path media then db_throw (Http 400 "recordings.exportDirectOnly")
  else if negb (recordingNeedsAsyncExport format media) then db_throw (Http 400 "recordings.exportDirectOnly")
  else enqueue (TrimSpace_s (currentUserID e)) recordingID format media id now.

(** ** Serving *)
Inductive media_reply := ServeVideo (p : list Z) | ServeCast (p : list Z) | ExportAccepted (g : nat).
Definition try_open (fs : files) (path : list Z) : option (list Z) :=
  match openRecordingPath fs recordings_dir (Abs path) with
  | Ok safe => if decide (safe ∈ fs) then Some safe else None
  | Err _ => None
  end.
(** The path that opens and what it opens: the stored path, or its sanitised form. *)
Definition open_media (fs : files) (filePath : list Z) : option (list Z * list Z) :=
  match try_open fs filePath with
  | Some f => Some (filePath, f)
  | None =>
      let safeBase := sanitizeRecordingBasename (Base filePath) in
      let mediaPath := Join [Dir filePath; safeBase] in
      if bool_decide (safeBase <> Base filePath) then (fun f => (mediaPath, f)) <$> try_open fs mediaPath else None
  end.
Definition serve_media (userID recordingID format : string) (mediaPath f : list Z) (id : result string string) (now : time) : MediaM media_reply :=
  if has_suffix (ToLower mediaPath) (bs ".webm") then db_throw (Http 404 "recordings.fileNotFound")
  else if IsMP4Path mediaPath then
    if bool_decide (format = "mp4"%string) then db_ret (ServeVideo f)
    else if bool_decide (format = "gif"%string) then let* g := enqueue userID recordingID "gif" mediaPath id now in db_ret (ExportAccepted g)
    else db_throw (Http 400 "recordings.formatInvalid")
  else if bool_decide (format = "cast"%string) then db_ret (ServeCast f)
  else if recordingNeedsAsyncExport format mediaPath then let* g := enqueue userID recordingID format mediaPath id now in db_ret (ExportAccepted g)
  else db_throw (Http 400 "recordings.formatInvalid").
Definition handleGetRecordingFile (e : request_env) (rawID formatParam : string) (id : result string string) (now : time) : MediaM media_reply :=
  let userID := TrimSpace_s (currentUserID e) in
  if is_empty userID then db_throw (Http 401 "common.unauthorized") else
  if is_empty rawID then db_throw (Http 400 "recordings.idRequired") else
  let recordingID := decodeRecordingID rawID in
  let format := ToLower_s (TrimSpace_s formatParam) in
  let format := if is_empty format then "cast"%string else format in
  if negb (bool_decide (format ∈ ["cast"; "gif"; "mp4"]%string)) then db_throw (Http 400 "recordings.formatInvalid") else
  let* r := authorized_row e userID recordingID in
  if bool_decide (recordings_dir = []) then db_throw (Http 503 "recordings.notConfigured") else
  let filePath := bs (rr_file_path r) in
  match Rel (Abs recordings_dir) (Abs filePath) with
  | None => db_throw (Http 400 "common.invalidPath")
  | Some rel =>
      if outside rel then db_throw (Http 400 "common.invalidPath") else
      let* fs := files_of in
      match open_media fs filePath with
      | None => db_throw (Http 404 "recordings.fileNotFound")
      | Some (mediaPath, f) => serve_media userID recordingID format mediaPath f id now
      end
  end.

(** ** Deleting *)
(** The files and exports of a row that is gone. *)
Definition remove_media (filePath : string) : MediaM (result fs_err bool) :=
  on_exports (fun x => let (fs, r) := removeRecordingFile recordings_dir (bs filePath) (ex_files x) in (with_files x fs, r)).
Definition remove_exports (recordingID : string) : MediaM unit :=
  on_exports (fun x => let (x, out) := removeForRecording recordingID x in (drop_jobs out x, tt)).
Definition delete_row (recordingID : string) : MediaM unit :=
  db_exec (fun w => Ok (with_recordings w (delete recordingID (mw_recordings w)), tt)).
Definition handleDeleteRecording (e : request_env) (rawID : string) : MediaM (result fs_err bool) :=
  let* _ := db_of (requireAdmin e) in
  if is_empty rawID then db_throw (Http 400 "recordings.idRequired") else
  let recordingID := decodeRecordingID rawID in
  let* r := load_row recordingID in
  let* _ := delete_row recordingID in
  let* removed := remove_media (rr_file_path r) in
  let* _ := remove_exports recordingID in
  db_ret removed.

(** ** Retention *)
Definition retentionMinimum : duration := hour.
Definition retentionDefaultMembers : duration := 30 * 24 * hour.
Record retentionPolicy := mkPolicy { rp_Recordings : duration; rp_Audit : duration; rp_CommandLogs : duration; rp_Memberships : duration }.
Definition parseRetentionEnv (name : string) (def : duration) : duration :=
  let v := TrimSpace_s (getenv name) in
  if is_empty v then def
  else if bool_decide (v = "0"%string) then 0
  else match ParseDuration v with
       | None => def
       | Some d => if d <=? 0 then def else if d <? retentionMinimum then retentionMinimum else d
       end.
Definition retentionPolicyFromEnv : retentionPolicy :=
  let audit := parseRetentionEnv "VANTYX_AUDIT_RETENTION" 0 in
  mkPolicy (parseRetentionEnv "VANTYX_RECORDING_RETENTION" 0) audit (parseRetentionEnv "VANTYX_COMMAND_LOG_RETENTION" audit)
    (parseRetentionEnv "VANTYX_MEMBERSHIP_EXPIRED_RETENTION" retentionDefaultMembers).
Definition policy_enabled (p : retentionPolicy) : bool :=
  (0 <? rp_Recordings p) || (0 <? rp_Audit p) || (0 <? rp_CommandLogs p) || (0 <? rp_Memberships p).
Record retentionReport := mkReport {
  rep_RanAt : time; rep_Trigger : string; rep_RecordingsDeleted : Z; rep_RecordingFilesGone : Z; rep_AuditRowsDeleted : Z;
  rep_CommandRowsDeleted : Z; rep_MembershipsPurged : Z; rep_Errors : list string
}.
Definition new_report now trigger := mkReport now trigger 0 0 0 0 0 [].
Definition count_recording (r : retentionReport) := mkReport (rep_RanAt r) (rep_Trigger r) (rep_RecordingsDeleted r + 1) (rep_RecordingFilesGone r) (rep_AuditRowsDeleted r) (rep_CommandRowsDeleted r) (rep_MembershipsPurged r) (rep_Errors r).
Definition count_file (r : retentionReport) := mkReport (rep_RanAt r) (rep_Trigger r) (rep_RecordingsDeleted r) (rep_RecordingFilesGone r + 1) (rep_AuditRowsDeleted r) (rep_CommandRowsDeleted r) (rep_MembershipsPurged r) (rep_Errors r).
Definition with_error (what : string) (r : retentionReport) := mkReport (rep_RanAt r) (rep_Trigger r) (rep_RecordingsDeleted r) (rep_RecordingFilesGone r) (rep_AuditRowsDeleted r) (rep_CommandRowsDeleted r) (rep_MembershipsPurged r) (rep_Errors r ++ [what]).
Definition set_audit n (r : retentionReport) := mkReport (rep_RanAt r) (rep_Trigger r) (rep_RecordingsDeleted r) (rep_RecordingFilesGone r) n (rep_CommandRowsDeleted r) (rep_MembershipsPurged r) (rep_Errors r).
Definition set_commands n (r : retentionReport) := mkReport (rep_RanAt r) (rep_Trigger r) (rep_RecordingsDeleted r) (rep_RecordingFilesGone r) (rep_AuditRowsDeleted r) n (rep_MembershipsPurged r) (rep_Errors r).
Definition set_memberships n (r : retentionReport) := mkReport (rep_RanAt r) (rep_Trigger r) (rep_RecordingsDeleted r) (rep_RecordingFilesGone r) (rep_AuditRowsDeleted r) (rep_CommandRowsDeleted r) n (rep_Errors r).

(** Rows that ended before the bound, the ones that ended first first. *)
Definition ended_before (bound : list Z) (r : rec_row) : bool :=
  match rr_ended_at r with Some e => bool_decide (e <> []) && text_lt e bound | None => false end.
Definition ended_first (a b : rec_row) : bool := text_lt (default [] (rr_ended_at a)) (default [] (rr_ended_at b)).
Definition select_victims (bound : list Z) (w : media_world) : list rec_row :=
  take 500 (filter (fun r => ended_before bound r = true) (order_by ended_first (mw_recordings w))).
Definition file_error (filePath : string) (e : fs_err) : string :=
  ("file " ++ filePath ++ ": " ++ match e with NotExist => "file does not exist" | FsError m => m end)%string.
Definition purge_one (r : rec_row) (rep : retentionReport) : MediaM retentionReport :=
  let* d := db_catch (delete_row (rr_id r)) in
  match d with
  | Err _ => db_ret (with_error ("recording " ++ rr_id r) rep)
  | Ok _ =>
      let* removed := remove_media (rr_file_path r) in
      let* _ := remove_exports (rr_id r) in
      let rep := count_recording rep in
      db_ret (match removed with Err e => with_error (file_error (rr_file_path r) e) rep | Ok true => count_file rep | Ok false => rep end)
  end.
Fixpoint purge_each (rs : list rec_row) (rep : retentionReport) : MediaM retentionReport :=
  match rs with
  | [] => db_ret rep
  | r :: rs => let* rep := purge_one r rep in purge_each rs rep
  end.
Definition purgeOldRecordings (cutoff : time) (rep : retentionReport) : MediaM retentionReport :=
  let* victims := db_catch (db_query (select_victims (Format DateTime cutoff))) in
  match victims with Err _ => db_ret (with_error "recordings" rep) | Ok rs => purge_each rs rep end.
Definition older_than (cutoff : time) (l : list time) : list time * Z :=
  (filter (fun t => Before t cutoff = false) l, Z.of_nat (length (filter (fun t => Before t cutoff = true) l))).
Definition purge_table (what : string) (cutoff : time) (get : media_world -> list time) (put : media_world -> list time -> media_world)
    (set : Z -> retentionReport -> retentionReport) (rep : retentionReport) : MediaM retentionReport :=
  let* r := db_catch (db_exec (fun w => let (kept, n) := older_than cutoff (get w) in Ok (put w kept, n))) in
  db_ret (match r with Ok n => set n rep | Err _ => with_error what rep end).
Definition zoom_access {E A} (m : DB access_tables E A) : DB media_world E A :=
  db_zoom mw_access (fun a w => mkMedia (mw_recordings w) (mw_sharing w) a (mw_audit w) (mw_commands w) (mw_exports w)) m.
(** What a run does between its two locked parts. *)
Definition apply_policy (p : retentionPolicy) (trigger : string) (now : time) : MediaM retentionReport :=
  let rep := new_report now trigger in
  let* rep := if 0 <? rp_Recordings p then purgeOldRecordings (Add now (- rp_Recordings p)) rep else db_ret rep in
  let* rep := if 0 <? rp_Audit p then purge_table "audit_logs" (Add now (- rp_Audit p)) mw_audit with_audit set_audit rep else db_ret rep in
  let* rep := if 0 <? rp_CommandLogs p then purge_table "command_logs" (Add now (- rp_CommandLogs p)) mw_commands with_commands set_commands rep else db_ret rep in
  if 0 <? rp_Memberships p then
    let* r := db_try (zoom_access (PurgeExpiredMemberships (Add now (- rp_Memberships p)))) in
    db_ret (match r with Ok n => set_memberships n rep | Err _ => with_error "memberships" rep end)
  else db_ret rep.
(** [retentionState]: runs at the same time are collapsed. *)
Record retentionState := mkRetention { rs_policy : retentionPolicy; rs_last : option retentionReport; rs_running : bool }.
Definition retention_begin (st : retentionState) : retentionState * bool :=
  if rs_running st then (st, false) else (mkRetention (rs_policy st) (rs_last st) true, true).
Definition retention_end (rep : retentionReport) (st : retentionState) : retentionState := mkRetention (rs_policy st) (Some rep) false.
Definition runRetention (trigger : string) (now : time) (st : retentionState) : MediaM (retentionState * option retentionReport) :=
  match retention_begin st with
  | (st, false) => db_ret (st, rs_last st)
  | (st, true) => let* rep := apply_policy (rs_policy st) trigger now in db_ret (retention_end rep st, Some rep)
  end.
Definition handleRunRetention (e : request_env) (now : time) (st : retentionState) : MediaM (retentionState * option retentionReport) :=
  let* _ := db_of (requireAdmin e) in runRetention ("manual:" ++ currentUserID e) now st.
Definition durationOrEmpty (d : duration) : option duration := if d <=? 0 then None else Some d.
Record retentionPolicyResponse := mkPolicyResponse {
  pr_Recordings : option duration; pr_Audit : option duration; pr_CommandLogs : option duration; pr_Memberships : option duration;
  pr_Enabled : bool; pr_LastRun : option retentionReport
}.
Definition handleGetRetention (e : request_env) (st : retentionState) : result http_err retentionPolicyResponse :=
  let? _ := requireAdmin e in
  let p := rs_policy st in
  Ok (mkPolicyResponse (durationOrEmpty (rp_Recordings p)) (durationOrEmpty (rp_Audit p)) (durationOrEmpty (rp_CommandLogs p))
        (durationOrEmpty (rp_Memberships p)) (policy_enabled p) (rs_last st)).

(** ** What a successful run tells *)
Lemma media_query_inv {E A} `{DBError E} (f : media_world -> A) c c' a : db_query f c = (c', Ok a) -> tables c' = tables c /\ a = f (tables c).
Proof. unfold db_query, db_exec, db_call. destruct (faults c) as [|[msg|] fs]; cbn; intros [= <- <-]; done. Qed.
Lemma media_exec_inv {E A} `{DBError E} (f : media_world -> result string (media_world * A)) c c' a : db_exec f c = (c', Ok a) -> f (tables c) = Ok (tables c', a).
Proof. unfold db_exec, db_call. destruct (faults c) as [|[msg|] fs]; cbn; [|done|]; destruct (f (tables c)) as [[t b]|] eqn:E'; intros [= <- <-]; done. Qed.
Lemma catch_media_query_inv {A} (f : media_world -> A) (c c' : conn media_world) (r : result http_err A) : db_catch (db_query f) c = (c', Ok r) ->
  tables c' = tables c /\ forall a, r = Ok a -> a = f (tables c).
Proof.
  unfold db_catch, db_query, db_exec, db_call. destruct (faults c) as [|[msg|] fs]; cbn; intros [= <- <-]; split; try done; intros a [= <-]; done.
Qed.
Lemma on_exports_inv {E A} (f : exports -> exports * A) c c' (a : A) : on_exports (E:=E) f c = (c', Ok a) ->
  tables c' = with_exports (tables c) (f (mw_exports (tables c))).1 /\ a = (f (mw_exports (tables c))).2.
Proof. unfold on_exports. destruct (f _) as [x b]. by intros [= <- <-]. Qed.

(** The user of the request owns the recording, administers, or has used an
    invitation to its session that is not revoked. *)
Definition joined (u : string) (t : sharing_tables) (sid : string) : Prop :=
  exists id r, session_invitations t !! id = Some r /\ row_session_id r = sid /\ row_revoked_at r = None /\
    ((row_invitee_user_id r = Some u /\ 0 < row_use_count r) \/ is_Some (invitation_consumers t !! (id, u))).
Lemma joined_by_spec u t sid : joined_by u t sid = true <-> joined u t sid.
Proof. unfold joined_by. rewrite bool_decide_eq_true. done. Qed.
Definition may_see (w : media_world) (e : request_env) (r : rec_row) : Prop :=
  let u := TrimSpace_s (currentUserID e) in
  u <> ""%string /\
  (TrimSpace_s (rr_user_id r) = u \/ re_is_admin e u = Some true \/ joined u (mw_sharing w) (TrimSpace_s (rr_session_id r))).
Lemma not_empty_string s : is_empty s = false -> s <> ""%string.
Proof. unfold is_empty. by intros ?%bool_decide_eq_false. Qed.
Lemma load_row_inv id c c' r : load_row id c = (c', Ok r) -> tables c' = tables c /\ mw_recordings (tables c) !! id = Some r.
Proof.
  intros (c1 & o & [Ht ->]%media_query_inv & Hk)%bind_inv. destruct (mw_recordings (tables c) !! id) as [r0|]; [|done].
  by injection Hk as <- <-.
Qed.
Lemma may_watch_inv e u r c c' b : may_watch e u r c = (c', Ok b) -> tables c' = tables c /\
  (b = true -> TrimSpace_s u = u -> TrimSpace_s (rr_user_id r) = u \/ re_is_admin e u = Some true \/ joined u (mw_sharing (tables c)) (TrimSpace_s (rr_session_id r))).
Proof.
  unfold may_watch. destruct (bool_decide _) eqn:Ho; [intros [= <- <-]; apply bool_decide_eq_true in Ho; by eauto|].
  unfold isAdminUser. destruct (bool_decide (re_is_admin e u = Some true)) eqn:Ha; [intros [= <- <-]; apply bool_decide_eq_true in Ha; by eauto|].
  destruct (is_empty _); [by intros [= <- <-]|]. unfold userCanViewSessionRecordings. destruct (_ || _); [by intros [= <- <-]|].
  intros (c1 & res & [Ht Hres]%catch_media_query_inv & [= <- <-])%bind_inv. split; [done|]. destruct res as [b0|]; [|done].
  intros -> Hu. right. right. rewrite Hu in Hres. apply joined_by_spec. by rewrite <- (Hres _ eq_refl).
Qed.
Lemma authorized_row_inv e id c c' r : is_empty (TrimSpace_s (currentUserID e)) = false ->
  authorized_row e (TrimSpace_s (currentUserID e)) id c = (c', Ok r) ->
  tables c' = tables c /\ mw_recordings (tables c) !! id = Some r /\ may_see (tables c) e r.
Proof.
  intros Hu%not_empty_string (c1 & r0 & [Ht1 Hr]%load_row_inv & Hk)%bind_inv. apply bind_inv in Hk as (c2 & b & [Ht2 Hb]%may_watch_inv & Hk).
  destruct b; [|done]. injection Hk as <- <-. rewrite Ht2, Ht1 in *. split_and!; [done..|]. split; [done|]. apply Hb; [done|apply TrimSpace_s_idem].
Qed.
Lemma findActive_inv u rec fmt x g j : findActiveLocked u rec fmt x = Some (g, j) ->
  job_of x g = Some j /\ ej_UserID j = u /\ ej_RecordingID j = rec /\ ej_Format j = fmt /\ is_active j = true.
Proof.
  unfold findActiveLocked. destruct (head _) as [[[id0 g0] j0]|] eqn:Hh; cbn; [|done]. intros [= <- <-].
  apply head_Some_elem_of, list_elem_of_filter in Hh as [(E1 & E2 & E3 & E4) [Hr Hj]%elem_of_registered]. done.
Qed.
(** The export a request is answered with. *)
Definition asked_export (w : media_world) (u rec fmt : string) (g : nat) : Prop :=
  exists j, job_of (mw_exports w) g = Some j /\ ej_UserID j = u /\ ej_RecordingID j = rec /\ ej_Format j = fmt /\ is_active j = true.
Definition same_but_exports (w w' : media_world) : Prop := w' = with_exports w (mw_exports w').
Lemma enqueue_inv u rec fmt media id now c c' g : enqueue u rec fmt media id now c = (c', Ok g) ->
  same_but_exports (tables c) (tables c') /\ asked_export (tables c') u rec fmt g.
Proof.
  intros (c1 & ? & [Ht1 _]%on_exports_inv & Hk)%bind_inv. apply bind_inv in Hk as (c2 & active & [Ht2 ->]%on_exports_inv & Hk).
  cbn [fst snd] in *. assert (Et : tables c2 = tables c1) by (rewrite Ht2; by destruct (tables c1)).
  assert (E1 : same_but_exports (tables c) (tables c1)) by (rewrite Ht1; done).
  destruct (findActiveLocked u rec fmt (mw_exports (tables c1))) as [[g0 j0]|] eqn:Hf.
  - destruct id; injection Hk as <- <-; rewrite Et; (split; [done|]); exists j0; by apply findActive_inv.
  - destruct id as [id|]; [|done]. apply bind_inv in Hk as (c3 & meta & Hm & Hk).
    assert (Et3 : tables c3 = tables c2).
    { unfold lookupRecordingExportMeta in Hm. destruct (is_empty _); [by injection Hm as <- <-|].
      apply bind_inv in Hm as (c4 & ? & [Hm _]%catch_media_query_inv & [= <- <-]). done. }
    apply bind_inv in Hk as (c4 & res & [Ht4 ->]%on_exports_inv & Hk). destruct (add_export _ _ _ _ _ _ _ _) as [x' [g'|]] eqn:Ha; cbn in Hk; [|done].
    injection Hk as <- <-. cbn in Ht4. apply queued_export_is_active in Ha as (j & Hj & H1' & H2' & H3' & H4' & _).
    split; [|exists j; by rewrite Ht4]. unfold same_but_exports. rewrite Ht4, Et3, Et, Ht1. done.
Qed.
Lemma try_open_inv fs p f : try_open fs p = Some f -> below (Abs recordings_dir) f /\ f ∈ fs.
Proof.
  unfold try_open. destruct (openRecordingPath fs recordings_dir (Abs p)) as [q|] eqn:Ho; [|done]. destruct (decide _); [|done].
  intros [= <-]. split; [by eapply open_below|done].
Qed.
Lemma open_media_inv fs p mp f : open_media fs p = Some (mp, f) -> below (Abs recordings_dir) f /\ f ∈ fs.
Proof.
  unfold open_media. destruct (try_open fs p) as [f0|] eqn:E1; [intros [= <- <-]; by eapply try_open_inv|].
  destruct (bool_decide (sanitizeRecordingBasename (Base p) <> Base p)); [|done].
  destruct (try_open fs (Join _)) as [f0|] eqn:E2; [|done]. intros [= <- <-]. by eapply try_open_inv.
Qed.

(** C12. Who gets a recording. A request for its file or for an export succeeds only
    for its owner, an administrator, or a user who used an invitation to its session
    that is not revoked; what is served is a file below the recordings directory,
    whatever path the row has and whatever links there are; what is queued is an
    export of that recording for that user; and nothing but the registry of exports
    changes. *)
Theorem recordings_are_entitled e rawID fmt id now c c' reply :
  handleGetRecordingFile e rawID fmt id now c = (c', Ok reply) ->
  same_but_exports (tables c) (tables c') /\
  exists r, mw_recordings (tables c) !! decodeRecordingID rawID = Some r /\ may_see (tables c) e r /\
    match reply with
    | ServeVideo p | ServeCast p => below (Abs recordings_dir) p /\ p ∈ ex_files (mw_exports (tables c))
    | ExportAccepted g => exists f, asked_export (tables c') (TrimSpace_s (currentUserID e)) (decodeRecordingID rawID) f g
    end.
Proof.
  unfold handleGetRecordingFile. destruct (is_empty (TrimSpace_s (currentUserID e))) eqn:Hu; [done|]. destruct (is_empty rawID); [done|].
  set (format := if is_empty _ then _ else _). destruct (negb _); [done|].
  intros (c1 & r & (Ht & Hr & Hs)%authorized_row_inv & Hk)%bind_inv; [|done]. destruct (bool_decide (recordings_dir = [])); [done|].
  destruct (Rel _ _) as [rel|]; [|done]. destruct (outside rel); [done|]. apply bind_inv in Hk as (c2 & fs & [= <- <-] & Hk).
  rewrite Ht in Hk. destruct (open_media _ _) as [[mp f]|] eqn:Ho; [|done]. apply open_media_inv in Ho as [Hb Hf].
  assert (Hsame : same_but_exports (tables c) (tables c1)) by (rewrite Ht; unfold same_but_exports; by destruct (tables c)).
  assert (Hq : forall f0 g, enqueue (TrimSpace_s (currentUserID e)) (decodeRecordingID rawID) f0 mp id now c1 = (c', Ok g) ->
    same_but_exports (tables c) (tables c') /\ exists r, mw_recordings (tables c) !! decodeRecordingID rawID = Some r /\ may_see (tables c) e r /\
      exists f, asked_export (tables c') (TrimSpace_s (currentUserID e)) (decodeRecordingID rawID) f g).
  { intros f0 g [H1' H2']%enqueue_inv. rewrite Ht in H1'. split; [done|]. exists r. eauto. }
  unfold serve_media in Hk. destruct (has_suffix _ _); [done|]. destruct (IsMP4Path mp).
  - destruct (bool_decide _); [injection Hk as <- <-; split; [done|]; by exists r|]. destruct (bool_decide _); [|done].
    apply bind_inv in Hk as (c3 & g & Hg & [= <- <-]). by eapply Hq.
  - destruct (bool_decide _); [injection Hk as <- <-; split; [done|]; by exists r|]. destruct (recordingNeedsAsyncExport _ _); [|done].
    apply bind_inv in Hk as (c3 & g & Hg & [= <- <-]). by eapply Hq.
Qed.
Theorem exports_are_entitled e rawID fmt id now c c' g :
  handlePostRecordingExport e rawID fmt id now c = (c', Ok g) ->
  same_but_exports (tables c) (tables c') /\
  (exists r, mw_recordings (tables c) !! decodeRecordingID rawID = Some r /\ may_see (tables c) e r) /\
  asked_export (tables c') (TrimSpace_s (currentUserID e)) (decodeRecordingID rawID) (ToLower_s (TrimSpace_s fmt)) g.
Proof.
  unfold handlePostRecordingExport. destruct (is_empty rawID); [done|]. destruct (_ && _); [done|].
  intros (c1 & media & Hm & Hk)%bind_inv. unfold resolveRecordingMediaAccess in Hm.
  destruct (is_empty (TrimSpace_s (currentUserID e))) eqn:Hu; [done|].
  apply bind_inv in Hm as (c2 & r & (Ht & Hr & Hs)%authorized_row_inv & Hm); [|done]. destruct (bool_decide (recordings_dir = [])); [done|].
  apply bind_inv in Hm as (c3 & fs & [= <- <-] & Hm). destruct (resolveRecordingMediaPath _ _ _); [|done]. injection Hm as <- <-.
  destruct (_ && _); [done|]. destruct (negb _); [done|]. apply enqueue_inv in Hk as [H1' H2']. rewrite Ht in H1'. eauto.
Qed.

(** ** Listing *)
Definition no_filter (q : list_query) : Prop :=
  TrimSpace_s (lq_user_id q) = ""%string /\ TrimSpace_s (lq_target_id q) = ""%string /\
  TrimSpace_s (lq_channel_type q) = ""%string /\ TrimSpace_s (lq_session_id q) = ""%string.
Definition tidy (r : rec_row) : Prop := TrimSpace_s (rr_user_id r) = rr_user_id r /\ TrimSpace_s (rr_session_id r) = rr_session_id r.
(** The list and the player agree: every recording in a list is one that the
    user may also watch, and a list shows at most two hundred, the latest first. *)
Theorem listed_recordings_can_be_watched e q now c c' items :
  (forall id r, mw_recordings (tables c) !! id = Some r -> tidy r) ->
  handleListRecordings e q now c = (c', Ok items) ->
  tables c' = tables c /\ (length items <= 200)%nat /\
  StronglySorted (fun a b => text_lt (rr_started_at (ri_row a)) (rr_started_at (ri_row b)) = false) items /\
  forall it, it ∈ items -> may_see (tables c) e (ri_row it) /\ exists id, mw_recordings (tables c) !! id = Some (ri_row it).
Proof.
  intros Htidy. unfold handleListRecordings. set (u := TrimSpace_s (currentUserID e)). destruct (is_empty u) eqn:Hu; [done|].
  intros (c1 & fu & [= <- Hfu] & Hk)%bind_inv. apply bind_inv in Hk as (c2 & [from to] & [= <- _] & Hk).
  apply bind_inv in Hk as (c3 & rows & [Ht ->]%media_query_inv & Hk). injection Hk as <- <-. cbn [fst snd] in *.
  set (all := order_by later_started _). set (P := fun r => list_row u fu _ q from to r = true).
  assert (Hsorted : StronglySorted (not_after later_started) all).
  { apply order_by_sorted; unfold later_started; [intros a b; apply text_lt_asym|]. unfold not_after. intros a b d Hab Hbd. by apply (text_lt_neg_trans _ (rr_started_at b)). }
  split; [done|]. split_and!.
  - rewrite length_fmap, length_take. lia.
  - assert (Hs : StronglySorted (not_after later_started) (take 200 (filter P all))) by by apply StronglySorted_take, StronglySorted_filter.
    clear -Hs. induction Hs as [|r l Hs IH Hr]; cbn; constructor; [done|]. apply Forall_fmap. eapply Forall_impl; [exact Hr|]. done.
  - intros it (r & -> & Hr)%list_elem_of_fmap. apply elem_of_take in Hr as (i & Hr & _). apply list_elem_of_lookup_2, list_elem_of_filter in Hr as [HP Hr].
    apply elem_of_order_by in Hr as [id Hid]. split; [|by exists id]. destruct (Htidy _ _ Hid) as [T1 T2].
    split; [by apply not_empty_string|]. cbn [item_of ri_row]. rewrite T1, T2. fold u.
    unfold P, list_row in HP. rewrite !andb_true_iff in HP. destruct HP as ((((HP & _) & _) & _) & _).
    apply orb_true_iff in HP as [HP%bool_decide_eq_true|[HP%bool_decide_eq_true Hj]%andb_true_iff].
    + unfold list_user in Hfu. destruct (_ && _); [|left; congruence]. right. left.
      destruct (re_is_admin e u) as [[]|]; [done|done|done].
    + right. right. by apply joined_by_spec.
Qed.
Lemma in_range_complete layout from to t r : layout = DateTime \/ layout = RFC3339 -> datable from -> datable t -> datable (Add to minute) ->
  from <= t <= to -> rr_started_at r = Format layout t -> in_search_range from to r = true.
Proof.
  intros Hl Hf Ht Hto Hr E. unfold in_search_range, formatRecordingTime.
  assert (Hin : forall l, l = DateTime \/ l = RFC3339 -> layout = l -> started_in r (Format l from) (Format l (Add to minute)) = true).
  { intros l Hl' <-. unfold started_in, text_le. rewrite E, !text_order_is_time_order by done. apply andb_true_iff.
    assert (from `div` second <= t `div` second) by (apply Z.div_le_mono; [by vm_compute|lia]).
    assert (t `div` second < Add to minute `div` second).
    { unfold Add, minute. rewrite (Z.div_add to 60 second) by (by vm_compute). assert (t `div` second <= to `div` second) by (apply Z.div_le_mono; [by vm_compute|lia]). lia. }
    split; lia. }
  apply orb_true_iff. destruct Hl as [-> | ->]; [left|right]; apply Hin; auto.
Qed.
Lemma bind_of_ok {T E A B} (a : A) (k : A -> DB T E B) c : db_bind (db_of (Ok a)) k c = k a c.
Proof. done. Qed.
(** A recording of the user, or of a session the user joined, that started in the
    range is listed, while there are at most two hundred. *)
Theorem own_recordings_are_listed e q now c layout from to t id r :
  let u := TrimSpace_s (currentUserID e) in
  healthy c -> u <> ""%string -> no_filter q -> parseTimeRange Parse (lq_from q) (lq_to q) now = Ok (from, to) ->
  mw_recordings (tables c) !! id = Some r -> (rr_user_id r = u \/ joined_by u (mw_sharing (tables c)) (rr_session_id r) = true) ->
  layout = DateTime \/ layout = RFC3339 -> datable from -> datable t -> datable (Add to minute) -> from <= t <= to ->
  rr_started_at r = Format layout t -> (size (mw_recordings (tables c)) <= 200)%nat ->
  exists items, handleListRecordings e q now c = (c, Ok items) /\ item_of r ∈ items.
Proof.
  cbn zeta. intros Hc Hu (Q1 & Q2 & Q3 & Q4) Hpt Hr Hwho Hl Hf Ht Hto Hin E Hsize. unfold handleListRecordings.
  set (u := TrimSpace_s (currentUserID e)) in *. unfold is_empty at 1. rewrite bool_decide_eq_false_2 by done.
  unfold list_user. rewrite Q1. change (negb (is_empty "") && _) with false. cbv iota. rewrite Hpt.
  rewrite !bind_of_ok, bind_query by done. eexists. split; [done|]. apply list_elem_of_fmap. exists r. split; [done|].
  rewrite take_ge.
  - apply list_elem_of_filter. split; [|apply elem_of_order_by; by exists id]. unfold list_row. rewrite Q2, Q3, Q4, !andb_true_iff.
    split_and!; try (by cbn); [|by apply (in_range_complete layout from to t)]. apply orb_true_iff. destruct Hwho as [->|Hj]; [left; by apply bool_decide_eq_true|right].
    rewrite Hj, bool_decide_eq_true_2 by done. done.
  - etrans; [apply length_filter|]. rewrite (Permutation_length (order_by_perm _ _)), length_fmap, length_map_to_list. done.
Qed.

(** ** Purging *)
Definition recs c := mw_recordings (tables (T := media_world) c).
Definition output_of (w : media_world) (f : list Z) : Prop := exists g j, job_of (mw_exports w) g = Some j /\ ej_OutputPath j = f.
(** What deleting the media of recordings does to the rest of the world. *)
Record purge_frame (w w' : media_world) : Prop := {
  pf_files : forall f, f ∈ ex_files (mw_exports w) -> f ∉ ex_files (mw_exports w') -> below (Abs (Abs recordings_dir)) f \/ output_of w f;
  pf_outputs : forall f, output_of w' f -> output_of w f;
  pf_sharing : mw_sharing w' = mw_sharing w; pf_access : mw_access w' = mw_access w;
  pf_audit : mw_audit w' = mw_audit w; pf_commands : mw_commands w' = mw_commands w
}.
Lemma purge_frame_refl w : purge_frame w w.
Proof. by split. Qed.
Lemma purge_frame_trans w1 w2 w3 : purge_frame w1 w2 -> purge_frame w2 w3 -> purge_frame w1 w3.
Proof.
  intros [F1 O1 S1 A1 U1 C1] [F2 O2 S2' A2 U2 C2]. split; [|by auto|congruence..].
  intros f Hf Hn. destruct (decide (f ∈ ex_files (mw_exports w2))) as [H2'|]; [|by auto]. destruct (F2 f H2' Hn) as [?|?]; [by left|right; by auto].
Qed.
Lemma gone_one (p f : list Z) (fs : files) : f ∈ fs -> f ∉ fs ∖ {[p]} -> p = f.
Proof. intros Hf Hn. destruct (decide (p = f)) as [|Hne]; [done|]. destruct Hn. apply elem_of_difference. split; [done|]. by intros ->%elem_of_singleton. Qed.
Lemma fst_alter {A B} (f : B -> B) g (l : list (A * B)) : fst <$> alter (fun jr => (jr.1, f jr.2)) g l = fst <$> l.
Proof.
  apply list_eq. intros i. rewrite !list_lookup_fmap, list_lookup_alter. destruct (decide _) as [->|]; [|done]. by destruct (l !! i).
Qed.
Lemma drop_jobs_frame l x : fst <$> ex_jobs (drop_jobs l x) = fst <$> ex_jobs x /\
  forall f, f ∈ ex_files x -> f ∉ ex_files (drop_jobs l x) -> exists e, e ∈ l /\ ej_OutputPath e.2 = f.
Proof.
  revert x. induction l as [|e l IH]; intros x; [by split|]. cbn.
  set (x1 := if is_active e.2 then requestCancelRecordingExport e.1 x else x).
  assert (E1 : fst <$> ex_jobs x1 = fst <$> ex_jobs x /\ ex_files x1 = ex_files x).
  { subst x1. destruct (is_active e.2); [|done]. unfold requestCancelRecordingExport. destruct (job_of x e.1) as [j|]; [|done].
    destruct (ej_cancel j); [|done]. cbn. split; [|done]. by rewrite fst_alter. }
  set (x2 := if bool_decide _ then _ else x1).
  assert (E2 : ex_jobs x2 = ex_jobs x1 /\ forall f, f ∈ ex_files x1 -> f ∉ ex_files x2 -> ej_OutputPath e.2 = f).
  { subst x2. destruct (bool_decide _); [|done]. cbn. split; [done|]. unfold remove_file, Remove. intros f Hf.
    destruct (decide _); [|done]. destruct (remove_refused _); [done|]. by apply gone_one. }
  destruct E1 as [J1 F1], E2 as [J2 F2], (IH x2) as [J3 F3]. split; [etrans; [exact J3|by rewrite J2]|].
  intros f Hf Hn. destruct (decide (f ∈ ex_files x2)) as [H2'|H2'].
  - destruct (F3 f H2' Hn) as (e' & ? & ?). exists e'. split; [by right|done].
  - exists e. split; [by left|]. apply F2; [by rewrite F1|done].
Qed.
Lemma remove_media_inv fp (c : conn media_world) : let (c', r) := remove_media fp c in
  purge_frame (tables c) (tables c') /\ recs c' = recs c /\ (healthy c -> healthy c') /\ exists res, r = Ok res.
Proof.
  unfold remove_media, on_exports. unfold removeRecordingFile. destruct (_ || _).
  { cbn. split_and!; [|done|done|by eexists]. split; cbn; try done. }
  destruct (remove_first _ _ _) as [fs r] eqn:Hrm. cbn. split_and!; [|done|done|by eexists]. split; cbn; [|done|done|done|done|done].
  intros f Hf Hn. left. apply remove_below in Hrm as [->|(p & Hp & _ & -> & _)]; [done|]. by rewrite <- (gone_one p f (ex_files (mw_exports (tables c)))).
Qed.
Lemma remove_exports_inv id (c : conn media_world) : let (c', r) := remove_exports id c in
  purge_frame (tables c) (tables c') /\ recs c' = recs c /\ (healthy c -> healthy c') /\ r = Ok tt.
Proof.
  unfold remove_exports, on_exports. destruct (removeForRecording id (mw_exports (tables c))) as [x out] eqn:Hrm. cbn. split_and!; [|done|done|done].
  unfold removeForRecording in Hrm. injection Hrm as <- <-. set (out := filter _ _). set (l := _ <$> out). set (x := with_reg _ _).
  destruct (drop_jobs_frame l x) as [J F]. split; cbn; [|..|done|done|done|done].
  - intros f Hf Hn. right. destruct (F f Hf Hn) as (e & He & <-). apply list_elem_of_fmap in He as ([[id' g] j] & -> & Hin).
    apply list_elem_of_filter in Hin as [_ [_ Hj]%elem_of_registered]. by exists g, j.
  - intros f (g & j & Hj & E). exists g, j. split; [|done]. unfold job_of in *. cbn in *. rewrite <- list_lookup_fmap in *. by rewrite J in Hj.
Qed.
Definition keyed (w : media_world) : Prop := forall id r, mw_recordings w !! id = Some r -> rr_id r = id.
Lemma delete_row_inv id (c : conn media_world) : let (c', r) := db_catch (delete_row id) c in
  exists res, r = Ok res /\ purge_frame (tables c) (tables c') /\ (recs c' = recs c \/ recs c' = delete id (recs c)) /\
    (healthy c -> healthy c' /\ res = Ok tt /\ recs c' = delete id (recs c)).
Proof.
  unfold db_catch, delete_row, db_exec, db_call. destruct (faults c) as [|[msg|] fs] eqn:Ef; cbn; eexists; (split; [done|]).
  - split_and!; [by split|by right|]. intros [Hc Hf]. split_and!; [split; [done|by cbn; rewrite Ef]|done|done].
  - split_and!; [by split|by left|]. intros [_ Hf]. congruence.
  - split_and!; [by split|by right|]. intros [_ Hf]. congruence.
Qed.
Lemma purge_one_inv r rep (c : conn media_world) : let (c', res) := purge_one r rep c in
  (exists rep', res = Ok rep') /\ purge_frame (tables c) (tables c') /\ (recs c' = recs c \/ recs c' = delete (rr_id r) (recs c)) /\
  (healthy c -> healthy c' /\ recs c' = delete (rr_id r) (recs c)).
Proof.
  unfold purge_one. unfold db_bind at 1. pose proof (delete_row_inv (rr_id r) c) as Hd. destruct (db_catch _ c) as [c1 res].
  destruct Hd as (d & -> & F1 & R1 & H1'). destruct d as [[]|e].
  - unfold db_bind at 1. pose proof (remove_media_inv (rr_file_path r) c1) as Hm. destruct (remove_media _ c1) as [c2 rm].
    destruct Hm as (F2 & R2 & H2' & rm' & ->). unfold db_bind at 1. pose proof (remove_exports_inv (rr_id r) c2) as He.
    destruct (remove_exports _ c2) as [c3 re]. destruct He as (F3 & R3 & H3' & ->). cbn. split_and!; [by eexists| | |].
    + by apply (purge_frame_trans _ (tables c1)), (purge_frame_trans _ (tables c2)).
    + by rewrite R3, R2.
    + intros Hc. destruct (H1' Hc) as (? & _ & ?). split; [by auto|]. by rewrite R3, R2.
  - cbn. split_and!; [by eexists|done|done|]. intros Hc. by destruct (H1' Hc) as (_ & ? & _).
Qed.
Lemma purge_each_inv rs rep (c : conn media_world) : let (c', res) := purge_each rs rep c in
  (exists rep', res = Ok rep') /\ purge_frame (tables c) (tables c') /\ recs c' ⊆ recs c /\
  (forall id, id ∉ rr_id <$> rs -> recs c' !! id = recs c !! id) /\
  (healthy c -> forall id, id ∈ rr_id <$> rs -> recs c' !! id = None).
Proof.
  revert rep c. induction rs as [|r rs IH]; intros rep c.
  { cbn. split_and!; [by eexists|by split|done|done|]. by intros _ id ?%elem_of_nil. }
  cbn [purge_each]. unfold db_bind at 1. pose proof (purge_one_inv r rep c) as H1'. destruct (purge_one r rep c) as [c1 res].
  destruct H1' as ((rep1 & ->) & F1 & R1 & G1). pose proof (IH rep1 c1) as H2'. destruct (purge_each rs rep1 c1) as [c2 res2].
  destruct H2' as (E2 & F2 & S2' & K2 & G2). rewrite fmap_cons. split_and!; [done|by apply (purge_frame_trans _ (tables c1))| | |].
  - etrans; [exact S2'|]. destruct R1 as [-> | ->]; [done|apply delete_subseteq].
  - intros id [Hne Hnot]%not_elem_of_cons. rewrite K2 by done. destruct R1 as [-> | ->]; [done|by rewrite lookup_delete_ne].
  - intros Hc id Hin. destruct (G1 Hc) as [Hc1 Hd]. destruct (decide (id ∈ rr_id <$> rs)) as [|Hno]; [by apply G2|].
    apply elem_of_cons in Hin as [->|]; [|done]. by rewrite K2, Hd, lookup_delete_eq.
Qed.
Lemma ended_before_time r e cutoff : rr_ended_at r = Some e -> datable cutoff -> ended_before (Format DateTime cutoff) r = true ->
  e <> [] /\ forall t, e = Format DateTime t -> datable t -> t `div` second < cutoff `div` second.
Proof.
  unfold ended_before. intros -> Hc [Hne%bool_decide_eq_true Hlt]%andb_true_iff. split; [done|]. intros t -> Ht.
  rewrite text_order_is_time_order in Hlt by auto. lia.
Qed.
Lemma elem_of_victims bound w r : r ∈ select_victims bound w -> ended_before bound r = true /\ exists id, mw_recordings w !! id = Some r.
Proof.
  intros (i & Hr & _)%elem_of_take. apply list_elem_of_lookup_2, list_elem_of_filter in Hr as [Hb Hr%elem_of_order_by]. done.
Qed.
(** The recordings that are due. *)
Definition due (bound : list Z) (m : gmap string rec_row) : list rec_row := filter (fun r => ended_before bound r = true) (map_to_list m).*2.
(** C34. The retention policy deletes only what is old, whichever statements fail: of
    rows stored under their identifiers, a recording disappears only if its end is
    there and, as text, before that of the cutoff - for an end in the format the
    server writes (2006-01-02 15:04:05, years 1 to 9999): it ended in an earlier
    second; one that is still running stays. Files go only below the recordings
    directory, or when they are the output of an export. While statements work and
    at most five hundred recordings are due, every one of them goes. *)
Theorem purge_takes_what_ended cutoff rep (c : conn media_world) :
  keyed (tables c) -> datable cutoff ->
  let (c', _) := purgeOldRecordings cutoff rep c in
  recs c' ⊆ recs c /\ purge_frame (tables c) (tables c') /\
  (forall id r, recs c !! id = Some r -> recs c' !! id = None ->
     ended_before (Format DateTime cutoff) r = true /\ exists e, rr_ended_at r = Some e /\ e <> [] /\ forall t, e = Format DateTime t -> datable t -> t `div` second < cutoff `div` second) /\
  (healthy c -> (length (due (Format DateTime cutoff) (recs c)) <= 500)%nat ->
     forall id r, recs c !! id = Some r ->
     (ended_before (Format DateTime cutoff) r = true \/
      exists t, rr_ended_at r = Some (Format DateTime t) /\ datable t /\ t `div` second < cutoff `div` second) ->
     recs c' !! id = None).
Proof.
  intros Hkey Hcut. unfold purgeOldRecordings. set (bound := Format DateTime cutoff). unfold db_bind.
  destruct (db_catch (db_query (select_victims bound)) c) as [c1 [vs|e]] eqn:Hq; [|by unfold db_catch in Hq; destruct (db_query _ c)].
  pose proof Hq as [Ht Hvs]%catch_media_query_inv. destruct vs as [vs|e].
  - pose proof (Hvs _ eq_refl) as ->. pose proof (purge_each_inv (select_victims bound (tables c)) rep c1) as Hp.
    destruct (purge_each _ rep c1) as [c2 res]. destruct Hp as (_ & F & S2' & K & G). unfold recs in *. rewrite Ht in *.
    split_and!; [done|done| |].
    + intros id r Hr Hgone. destruct (decide (id ∈ rr_id <$> select_victims bound (tables c))) as [Hin|Hno]; [|rewrite K in Hgone by done; congruence].
      apply list_elem_of_fmap in Hin as (r' & -> & [Hb [id' Hid']]%elem_of_victims). pose proof (Hkey _ _ Hid') as E. subst id'. simplify_eq.
      destruct (rr_ended_at r) as [e|] eqn:Ee; [|by unfold ended_before in Hb; rewrite Ee in Hb]. split; [done|]. exists e. split; [done|].
      by apply (ended_before_time r).
    + intros Hc Hsize id r Hr Hdue. apply G.
      * unfold healthy in *. unfold db_catch, db_query, db_exec, db_call in Hq. destruct Hc as [Hc1 Hc2]. rewrite Hc2 in Hq. cbn in Hq.
        injection Hq as <-. done.
      * apply list_elem_of_fmap. exists r. split; [by rewrite (Hkey _ _ Hr)|]. unfold select_victims. rewrite take_ge.
        -- apply list_elem_of_filter. split; [|apply elem_of_order_by; by exists id]. destruct Hdue as [?|(t & Ee & Hdt & Hlt)]; [done|].
           unfold ended_before. rewrite Ee. apply andb_true_iff.
           split; [apply bool_decide_eq_true, DateTime_nonempty|unfold bound; rewrite text_order_is_time_order by auto; lia].
        -- unfold due in Hsize. by rewrite (order_by_perm _ _).
  - cbn. unfold recs. rewrite Ht. split_and!; [done|by split|intros id r Hr Hn; congruence|].
    intros [_ Hf]. unfold db_catch, db_query, db_exec, db_call in Hq. rewrite Hf in Hq. done.
Qed.

(** ** Deleting *)
(** Only an administrator deletes a recording, and only that one; what else goes is
    its file, below the recordings directory, and the outputs of its exports. *)
Theorem only_admins_delete e rawID (c c' : conn media_world) r :
  handleDeleteRecording e rawID c = (c', Ok r) ->
  requireAdmin e = Ok tt /\ is_Some (recs c !! decodeRecordingID rawID) /\ recs c' = delete (decodeRecordingID rawID) (recs c) /\
  purge_frame (tables c) (tables c').
Proof.
  unfold handleDeleteRecording. intros (c1 & [] & [= <- Ha] & Hk)%bind_inv. destruct (is_empty rawID); [done|].
  apply bind_inv in Hk as (c2 & row & [Ht Hr]%load_row_inv & Hk). apply bind_inv in Hk as (c3 & [] & Hd%media_exec_inv & Hk).
  injection Hd as Hd. rewrite Ht in Hd. apply bind_inv in Hk as (c4 & rm & Hm & Hk). apply bind_inv in Hk as (c5 & [] & He & [= <- _]).
  pose proof (remove_media_inv (rr_file_path row) c3) as H1'. rewrite Hm in H1'. destruct H1' as (F1 & R1 & _).
  pose proof (remove_exports_inv (decodeRecordingID rawID) c4) as H2'. rewrite He in H2'. destruct H2' as (F2 & R2 & _).
  assert (F0 : purge_frame (tables c) (tables c3)) by (rewrite <- Hd; by split).
  split_and!; [done|by exists row|rewrite R2, R1; unfold recs; by rewrite <- Hd|].
  by apply (purge_frame_trans _ (tables c3)), (purge_frame_trans _ (tables c4)).
Qed.

(** ** The policy *)
Theorem retention_at_least_an_hour name def : let d := parseRetentionEnv name def in d = def \/ d = 0 \/ retentionMinimum <= d.
Proof.
  unfold parseRetentionEnv. destruct (is_empty _); [by left|]. destruct (bool_decide _); [by right; left|].
  destruct (ParseDuration _) as [d|]; [|by left]. destruct (d <=? 0); [by left|]. destruct (Z.ltb_spec d retentionMinimum); right; right; [done|lia].
Qed.
End handlers.

(** ** Examples *)
#[local] Instance plain_os : OS := {| cwd := bs "/app"; EvalSymlinks fs p := if decide (p ∈ fs) then Ok p else Err NotExist;
  Stat fs p := bool_decide (p ∈ fs); remove_refused _ := None |}.
Definition demo_env (k : string) : string := if decide (k = "VANTYX_RECORDINGS_DIR"%string) then "/rec" else "".
Definition no_durations (_ : string) : option duration := None.
Definition no_times (_ : list (nat * list Z)) (_ : string) : option time := None.
Definition demo_now : time := time_Unix 1767600000.        (* 2026-01-05 08:00:00 *)
Definition day : duration := 24 * hour.
Definition demo_recording : rec_row :=
  mkRecRow "r1" "u1" "t1" "s1" "cli" "/rec/s1.cast" (Format DateTime (demo_now - 3 * day)) (Some (Format DateTime (demo_now - 2 * day))) "" "".
Definition demo_running : rec_row :=
  mkRecRow "r2" "u1" "t1" "s2" "cli" "/rec/../etc/passwd" (Format DateTime (demo_now - day)) None "" "".
Definition demo_invitation (revoked : option Z) : inv_row :=
  mkInvRow "i1" "h1" "s1" "terminal" "t1" "u1" (Some "u2"%string) None None "viewer" (Some 1) 1 2000000000 (Some 1767400000) revoked 1767300000.
Definition demo_media (revoked : option Z) : media_world :=
  mkMedia (list_to_map [("r1"%string, demo_recording); ("r2"%string, demo_running)])
    (mkSharingTables (list_to_map [("i1"%string, demo_invitation revoked)]) ∅)
    (mkAccess {["u1"%string; "u2"%string]} ∅ ∅ ∅ ∅ ∅ ∅ ∅) [] [] (no_exports {[bs "/rec/s1.cast"; bs "/etc/passwd"]}).
Definition demo_reader (u : string) : request_env := mkRequestEnv (Ok u) (fun u => Some (bool_decide (u = "admin"%string))).
Abbreviation demo_get u revoked id := (handleGetRecordingFile demo_env no_durations (demo_reader u) id "" (Ok "e1"%string) demo_now (connect (demo_media revoked))).2.

(** The guest of the session plays it until the invitation is revoked; others are
    told it does not exist; a path out of the directory is refused even to its
    owner. *)
Lemma recordings_are_entitled_witness :
  demo_get "u2"%string None "r1"%string = Ok (ServeCast (bs "/rec/s1.cast")) /\
  demo_get "u2"%string (Some 1767500000) "r1"%string = Err (Http 404 "recordings.notFound") /\
  demo_get "u3"%string None "r1"%string = Err (Http 404 "recordings.notFound") /\
  demo_get "u1"%string None "r2"%string = Err (Http 400 "common.invalidPath") /\
  exists r, mw_recordings (demo_media None) !! decodeRecordingID "r1" = Some r /\ may_see (demo_media None) (demo_reader "u2") r.
Proof.
  split_and!; [by vm_compute..|].
  destruct (recordings_are_entitled demo_env no_durations (demo_reader "u2") "r1" "" (Ok "e1"%string) demo_now (connect (demo_media None))
    (connect (demo_media None)) (ServeCast (bs "/rec/s1.cast"))) as (_ & r & Hr & Hs & _); [by vm_compute|]. by exists r.
Defined.
Lemma demo_tidy revoked id r : mw_recordings (demo_media revoked) !! id = Some r -> tidy r /\ rr_id r = id.
Proof.
  cbn -[demo_recording demo_running]. intros [[<- <-]|[_ [[<- <-]|[_ Hn]]%lookup_insert_Some]]%lookup_insert_Some; [by vm_compute..|].
  by rewrite lookup_empty in Hn.
Qed.
Abbreviation all_recordings := (mkListQuery "" "" "" "" "" "").
Lemma listed_recordings_can_be_watched_witness :
  exists items, (handleListRecordings no_times (demo_reader "u2") all_recordings demo_now (connect (demo_media None))).2 = Ok items /\
    (rr_id ∘ ri_row) <$> items = ["r1"%string] /\ forall it, it ∈ items -> may_see (demo_media None) (demo_reader "u2") (ri_row it).
Proof.
  eexists. split; [by vm_compute|]. split; [by vm_compute|]. intros it Hit.
  destruct (listed_recordings_can_be_watched no_times (demo_reader "u2") all_recordings demo_now (connect (demo_media None)) (connect (demo_media None)) [item_of demo_recording])
    as (_ & _ & _ & Hall); [intros id r Hr; by apply (demo_tidy None id)|by vm_compute|]. by apply Hall.
Defined.
(** A day's retention: the recording that ended two days ago goes with its file, the
    running one stays. *)
Lemma purge_takes_what_ended_witness :
  let c' := (purgeOldRecordings demo_env (demo_now - day) (new_report demo_now "scheduled") (connect (demo_media None))).1 in
  mw_recordings (tables c') !! "r1"%string = None /\ is_Some (mw_recordings (tables c') !! "r2"%string) /\
  ex_files (mw_exports (tables c')) = {[bs "/etc/passwd"]}.
Proof.
  cbn zeta. split_and!; [|eexists; by vm_compute|by vm_compute].
  pose proof (purge_takes_what_ended demo_env (demo_now - day) (new_report demo_now "scheduled") (connect (demo_media None))) as Hp.
  destruct (purgeOldRecordings _ _ _ _) as [c' r]. destruct Hp as (_ & _ & _ & Hgo); [intros id row Hr; by apply (demo_tidy None id)|by vm_compute|].
  assert (Hsz : (length (due (Format DateTime (demo_now - day)) (recs (connect (demo_media None)))) <= 500)%nat) by (apply Nat.leb_le; by vm_compute).
  assert (Hh : healthy (connect (demo_media None))) by done.
  apply (Hgo Hh Hsz "r1"%string demo_recording); [by vm_compute|right]. exists (demo_now - 2 * day). split_and!; by vm_compute.
Defined.

(** A search up to nine o'clock shows a recording of the evening: the text of its
    start is also compared with the RFC 3339 form of the bound, where a blank is
    less than T. *)
Theorem search_shows_later_recordings :
  let to := time_Unix 1767603600 in let evening := time_Unix 1767643200 in
  to < evening /\
  in_search_range (to - day) to (mkRecRow "r3" "u1" "t1" "s3" "cli" "/rec/s3.cast" (Format DateTime evening) None "" "") = true.
Proof. by vm_compute. Qed.
(** Without any setting the policy deletes: memberships that expired a month ago. *)
Theorem retention_runs_by_default : let p := retentionPolicyFromEnv (fun _ => ""%string) no_durations in
  policy_enabled p = true /\ rp_Memberships p = 30 * 24 * hour.
Proof. by vm_compute. Qed.
(** A recordings directory that is itself a link: the file is opened by its real
    path, the directory is not, so nothing in it is found. *)
Theorem linked_directory_serves_nothing :
  let linked : OS := {| cwd := bs "/app"; EvalSymlinks _ _ := Ok (bs "/mnt/disk/s1.cast"); Stat _ _ := true; remove_refused _ := None |} in
  @openRecordingPath linked ∅ (bs "/rec") (bs "/rec/s1.cast") = Err (FsError "invalid recording path").
Proof. by vm_compute. Qed.
